(* ===== verification/_CoqProject ===== *)
-Q . S2P
Prelude.v
JsString.v
JsRegex.v
Cidr.v
JsVal.v
Json.v
ConfText.v
IngressRules.v
SiteRules.v
SiteApplier.v
DirectLink.v
WgConf.v
AgentText.v
AgentRow.v
AgentMesh.v
WgMeta.v
WgStatus.v
AgentStore.v
AgentLinks.v
AgentIngress.v
AgentService.v
AgentSystem.v
AgentHistory.v
WgRename.v
WgPlan.v
WgPeer.v
WgLife.v
WgCache.v
IpRange.v
GeoFilter.v
GeoService.v
NginxText.v
NginxConfig.v
WgTraffic.v
Accounts.v
Sessions.v
AccountHistory.v
Route53.v
CloudflareDns.v
CertRenewal.v
HostTables.v
Certificates.v
CertAlerts.v
CertCredentials.v
Hosts.v
HostMeta.v
HostHistory.v
AccessLists.v
