(* ===== verification/Prelude.v ===== *)
(** FloppyGuard: a model of the hub, its VPN, the hosts it publishes and who may change them.

    * The program

    FloppyGuard extends an nginx proxy manager by a WireGuard hub. The hub keeps its own
    wg-quick files and a metadata document that names the peers (links, with the networks
    behind them); gateways of the sites run an agent that polls the hub for its
    configuration, its packet filter and its direct links, and reports back. The modelled
    sources are the JavaScript services under [src/backend/internal/] that decide who may
    reach whom: [wireguard.js] (files, AllowedIPs, metadata, status, peers and interfaces),
    [wireguard-plan.js] (preview, apply and restore of metadata), [agent.js] (life of an
    agent, mesh and configuration sync), [agent-ingress-rules.js], [agent-ingress.js],
    [agent-ingress-catalog.js] (per-agent packet filter, "Freigaben"),
    [agent-direct-link-rules.js], [agent-direct-link.js] (links between two sites),
    [site-isolation-rules.js], [site-isolation.js] (separation of sites on the hub), and
    in front of the published hosts [nginx.js] (the files nginx runs, and what users may put
    into them), [geo-filter.js] (country filter of nginx), [proxy-host.js],
    [redirection-host.js], [dead-host.js], [stream.js] with [host.js] (the hosts),
    [certificate.js], [cert-alerts.js] (their certificates), [access-list.js] (who gets in),
    [cloudflare-dns.js] (their records), and who may use all this: [user.js],
    [token.js], [2fa.js], [oidc.js] with [lib/access.js] (accounts, sessions, permissions).

    * Files, in dependency order

    - [Prelude]: results of code that throws, loops that throw, JavaScript maps as
      association lists in insertion order, the tactics [inv_ok] and the range checks.
    - [JsString], [JsRegex], [JsVal], [Json]: strings as lists of code units below 256,
      anchored regular expressions by derivatives, values with [String], [Number] and
      truthiness, [JSON.parse] and [JSON.stringify].
    - [Cidr]: 32-bit address arithmetic, canonical networks, containment, overlap, and the
      network validation of wireguard.js.
    - [ConfText]: configuration text as lines, comma-separated values, settings.
    - [IngressRules]: agent-ingress-rules.js. Sanitizers, rows, the FG_IN chain
      ([buildIngressRestore]) and its reading as a packet filter ([chain_verdict]), counters.
    - [SiteRules]: site-isolation-rules.js. Pairs, networks of a site, plan, nft script
      ([buildSiteIsolationNft]) and its reading ([table_drops]), verdicts, nft's JSON.
    - [SiteApplier]: site-isolation.js. The applier as a state machine over the kernel's
      table and the boot file; the outcome of each command is an input ([outcomes]).
    - [DirectLink]: agent-direct-link-rules.js. Input, checks against the mesh,
      configuration and firewall hooks of one side, status, connection checks.
    - [WgConf]: the configuration files of wireguard.js. Reading and rewriting peers, the
      AllowedIPs the metadata wants, hooks, removal of a peer, rotation of a key, the plan of
      a hub sync.
    - [AgentText]: the text functions of agent.js. Hub peer, hooks, normalisation, strip.
    - [AgentRow], [AgentStore]: the tables ([agent_row], [store]) and the queries on them.
    - [AgentMesh]: access lists, mesh index, networks of an agent, the sync of the fleet.
    - [AgentLinks], [AgentIngress], [AgentService]: the handlers of agent-direct-link.js,
      agent-ingress.js with the catalog's decisions, and agent.js, each a function from the
      store to a result with the new store; the handlers of a direct link in two, the check of
      the tables and the write, since nothing locks the tables between them.
    - [AgentSystem]: all these handlers as one step relation, [handler_step], and the
      invariant of the tables it preserves. [AgentHistory]: the states reachable from empty
      tables and the theorems about them, with anything between the check and the write of a link
      ([reachable]), or with no other write between them ([serially_reachable]).
    - [WgMeta]: the metadata document of wireguard.js. Sanitizers, merge, unique names, the
      check of PUT /metadata, networks claimed twice; its writes as a step relation.
    - [WgStatus]: the status. [wg show all dump] and the route table as they are read, the
      records of links and interfaces, topology, route analysis, warnings.
    - [WgRename]: the cascade of renames to the agents, with calls that fail after some rows.
    - [WgPlan]: wireguard-plan.js. Normalised patch, diff, projection, scope of a change,
      preview, apply, restore.
    - [WgPeer]: the state of the hub ([hub]: files, metadata, backups, agents, cache, the
      commands the live interface took), the client configuration, the search for an address
      and [createPeer]. [WgLife]: [updatePeer], [deletePeer], [createInterface],
      [deleteInterface] with the bound-agent cascade, and these handlers as a step relation.
    - [WgCache]: [generatePeerConfig] with its cache and its generations in flight; a
      generation is a run of steps other handlers interleave ([world_step]).
    - [IpRange]: addresses of both families as numbers and texts, a range as networks
      ([bigRangeToCidrs]). [GeoFilter]: geo-filter.js. The country list ([parseDbip]), the
      chosen countries, the file of nginx and its header, the refresh in two steps, its start
      and its end. [GeoService]: these steps in any order ([geo_step]).
    - [WgTraffic]: the traffic history of wireguard.js. Polls of the counters, rings of rates,
      a table in three resolutions; a poll and each of its writes are steps ([bw_step]).
    - [NginxText]: the texts of nginx.js. The statements of a configuration
      ([tokenizeNginxStatements]) and the gates on what users write. [NginxConfig]: its files,
      a map from names to texts of which nginx takes those that end in .conf; [configure] for
      one host, [bulkGenerateConfigs] for many.
    - [Accounts]: user.js and lib/access.js. The tables of accounts, their sign-in rows and
      permissions, what a token may do ([can]), the handlers, each in the parts between its
      waits ([delete_check], [delete_write]); what runs under the lock of the addresses is one
      part. [Sessions]: token.js, 2fa.js, oidc.js and the password; a handler that hashes between
      reading a row and writing it is a read that returns a [write] and its [commit], the check of
      a code a scan and the [consume] of a backup code, a sign-in over the provider the look-up of
      the binding, the account, the rights and the mark. [AccountHistory]: all these parts as
      steps in any order ([step]), with the handlers under way as [task]s.
    - [Route53]: lib/route53-credentials.js. [CloudflareDns]: cloudflare-dns.js. A program that
      calls the API ([prog]), run against any answers ([run]); its trace is what was called.
    - [HostTables]: host.js, the rows of hosts, certificates and lists, and programs over them
      ([M]): what a handler wrote before it throws stays written; [Env] is what lies outside.
      [Certificates]: the rows of certificate.js, with a request that takes hosts out of nginx
      and puts them back. [Hosts]: the handlers of the four kinds, each in a Module under its own
      names, on shared parts. [HostMeta]: what a request writes into the meta of other people's
      hosts, which is nginx's verdict on them. [HostHistory]: each handler as a sequence of allowed
      changes ([change]), by a logic of what programs do to the tables ([triple]), and the
      histories of requests ([step]). [AccessLists]: access-list.js, its handlers as further steps
      of these.
    - [CertRenewal]: the files of a certificate under renewal, as a disk that operations change
      and a server that may die before any of them ([renewal_step]); any number of renewals may
      overlap. [CertCredentials]: the secrets on disk while runs of certbot overlap. [CertAlerts]:
      cert-alerts.js and the timer, failures in memory and in a file that is written behind the
      mail; the server may restart while a mail is on its way.

    * What the theorems show

    - Filters do what the rules say: the restricted chain accepts exactly the covered packets
      (restricted_chain_refines_ruleCovers), the flow test and the poll agree with it
      (flow_test_agrees_with_chain, restricted_poll_fails_closed), the nft table drops
      exactly the separated pairs (buildSiteIsolationNft_refines), the verdict shown is the
      table's (siteIsolationVerdict_hosts), unused rules are safe to switch off
      (prune_is_harmless).
    - The hub is authoritative over files of the shape it writes: syncs of agents and of the hub
      write exactly the wanted AllowedIPs and converge (sync_authoritative,
      hub_sync_follows_metadata, sync_converges); a peer of another shape stays as it was
      (late_key_stays_stale, peer_without_ips_stays_so). One failing agent stops nobody
      (syncAgentConfigs_isolated), nothing outside the access lists is routed (agent_reach_spec).
    - Histories: in every reachable state the caps on the chain of the hub interface and the
      non-empty restricted rule set hold, and the caps on the chains of all interfaces as long as
      no link is written late (reachable_rules_respect_caps; late_link_exceeds_cap shows one that
      is); polls are answered, with the filter or marked as without it
      (reachable_poll_is_answered), tokens identify one agent (token_identifies_agent), revocation is final (revocation_is_final),
      registration is idempotent (registration_is_idempotent), a report changes no policy
      (heartbeat_changes_no_policy), a known key is pinned (recordStatus_pins_keys).
    - Texts are what they seem: no stored name, network or address can add a line or a
      command to a chain, script, configuration or hook (restore_text_is_its_lines,
      site_script_is_its_lines, direct_config_is_its_lines, direct_hooks_commands,
      hub_hooks_commands, install_values_are_inert).
    - Failures are fail-closed: the applier (enforced_pairs_are_in_the_table,
      failed_apply_keeps_table, unresolved_pairs_keep_table, vanished_link_held_once).
    - The hub's own life: a created peer is the same in file, live interface and metadata
      and takes nothing from the others (createPeer_adds_one, createPeer_takes_nothing), its
      address is the lowest free one (next_ip_lowest_free), a deletion leaves no agent bound
      and a refused one changes nothing (deletePeer_leaves_no_binding, deletePeer_failure), an
      update claims only free networks (updatePeer_claims_only_free), an interface is what was
      asked for (createInterface_spec); every interleaving of handlers and downloads writes
      the metadata through its sanitizers only (world_refines_meta), a download rotates the
      key of unbound clients only (generate_only_for_clients) and ends
      (request_is_generatePeerConfig).
    - Names and plans: a cascade is a simultaneous renaming (cascade_is_simultaneous), a
      restore touches live links only (restore_changes_live_only), a change called
      metadata-only leaves every hub sync as it was (metadata_only_needs_no_sync), no two
      sites claim one address (link_conflicts_complete).
    - The country filter: the networks of a list are exactly its rows and as few as can be
      (parseDbip_least), the file is always whole or fails closed (geo_file_is_whole), a failed
      refresh leaves it (geo_refresh_settles), its header reads back (conf_reads_back).
    - Sessions: every session goes back to an entry with all its factors
      (every_session_was_earned), over the provider it ends with the sign-in when dates are real
      (sso_sessions_end; endless_refresh, month_is_a_minute), a changed password ends it
      (password_change_is_final), a backup code opens one at most (codes_are_single_use), both
      unless a write of the same row was under way (late_write_revives_sessions,
      late_write_revives_code). Accounts: an identity of the provider keeps its account unless two
      sign-ins overlap (sso_binding_is_final; overlapping_sign_ins_rebind), rights come from
      admins, the group of the provider or the setup, which asks for an empty table first
      (rights_come_from_admins; setup_race), the setup stays closed while an account lives
      whose handlers do not delete each other's (setup_stays_closed; admins_delete_each_other),
      addresses are unique (addresses_stay_unique).
    - Traffic: every byte of a counter is counted once, less those of failed statements and of
      pruned rows (traffic_telescopes), however polls, failures and rotations interleave
      (traffic_is_accounted); rings are bounded (rings_bounded).
    - nginx keeps serving: a save leaves files that pass, the new one or the old one
      (configure_keeps_serving), and so does a batch of them when the files pass with all that is
      stashed put back (bulk_keeps_serving; stashed_file_restored_untested); accepted user texts
      hold no forbidden directive in any spelling nginx and the gate read alike
      (gate_sees_every_directive; brace_in_word_hides_directive, vertical_tab_hides_directive), an
      accepted location stays in its lines (location_lines_are_theirs).
    - Hosts: a request touches only rows its caller sees, but for nginx's verdict in the meta of
      others, and takes in only certificates and lists that are his, but for one case
      (hosts_belong_to_their_owners, list_of_another_taken); no two live hosts share a name, flags
      and certificates agree with the rows (hostnames_stay_unique, which supposes that LIKE finds
      names in any case, that names are printable and that requests do not interleave:
      case_of_a_name_matters, tab_hides_a_name, names_checked_before_written,
      late_update_switches_on); what is taken down is down (down_is_down); the password file is
      the list, less names with a hash sign in front (list_file_is_the_list;
      hash_sign_hides_a_user), a deleted list leaves nothing (deleted_list_is_gone).
    - Certificates: none is lost to a renewal that fails or is killed while no other renewal of it
      runs (valid_certificate_survives; overlapping_renewals_lose_certificate); secrets are on disk
      while runs need them (credentials_live_with_their_runs); attempts, failure mails, the
      all-clear and the daily list keep their pace, and a restart forgets only a failure whose
      mail is on its way (attempts_and_mails_are_paced; restart_forgets_unreported_failure;
      interleaved writes of the file break it: late_mail_revives_failure,
      daily_mail_forgets_failure). Credentials of Route53 hold nothing but four known keys
      (credentials_are_rebuilt). At Cloudflare a record is changed, added or deleted only for a
      reason its answers just gave (only_our_records_change).
    - Round trips and bounds: AllowedIPs, access lists and the dump of the live interfaces
      read back as written, a deletion undoes a creation
      (delete_undoes_create), hostile counters are clamped, accepted payloads build.

    * Conventions, bounds and fuel

    A function that throws returns [Throw e] with a constructor per message.

    What is one step. The handlers of ingress rules run in a transaction that locks the row of
    the agent, those of the hub's metadata, peers and interfaces under its write lock: such a
    handler is one step, with the fire-and-forget syncs behind it. Nothing of the kind holds for
    the calls on direct links, on accounts, sign-in rows and sign-ins over the provider, for the
    renewals of a certificate, the mails about them, the polls of traffic, the downloads of client
    configurations and the refresh of the country list: each of these is several steps, cut where
    the source waits, and other steps come in between. Reads that follow each other with no write
    of the same handler between them are taken at one moment.

    Two kinds of handlers are one step although the source holds no lock over them. A handler of
    agent.js reads the row of its agent and patches it later, and a deletion patches the row before
    it deletes the rules and the links; here nothing comes in between. None of them writes a rule
    but for its counters, the mode of the filter, or a token other than one it just drew. A request
    on hosts waits for nginx and for certbot; the theorems on their histories say that requests
    follow each other, and lemmas show what two at once can do. Runs of the timer of [CertAlerts] follow each other as
    its flag has them, but a restart may cut any of them at the mail.

    Fresh ids, drawn bytes and the current time are arguments. Integers are [Z], with the
    32-bit shifts and masks of the address code written out in [Cidr]; timestamps are seconds
    or days as the code computes them. [JSON.parse] runs with [parse_fuel], the length of the
    text, of which each step consumes a character; the address scan of a tunnel configuration
    has the length of the text as fuel for the same reason; [find_host] has one more than the
    number of addresses in use, since it passes over a host only when it is in use
    (next_ip_lowest_free); the blocks of an address range have twice the width of an address
    plus what the range holds of whole blocks, since the sizes grow once and shrink once
    (range_blocks_Some); the statements of a text have its length, since each round takes a
    character (tokenize_step); a generation is one synchronous part and at most five steps; all
    other recursion is structural. Which calls fail (a write, [wg set], [wg-quick], a call of
    the rename cascade and after how many rows) is an argument. Where a handler checks before
    it takes the lock and again under it, the states of both moments are arguments.
    Characters beyond ASCII in the program's texts are their UTF-8 bytes; [whereIn] compares
    exactly. Database queries by token compare exactly (on MySQL the collation is case
    insensitive; tokens are lower-case hex either way).

    Names of hosts in the theorems on their histories are printable ASCII without what
    JSON escapes; the schema admits more (tab_hides_a_name).

    Parameters, because their code is not in the repository: LIKE of the database (like_finds
    states what SQLite's does, sqlite_finds), the API of Cloudflare, certbot, the hashes of
    openssl, [nginx -t] on the files it includes, the template engine, SHA-256, bcrypt, TOTP
    codes, the signature and lifetime of JWTs, the calendar of moment, gravatar, the WHATWG URL parser
    (only the protocol it finds), the commands nft, wg, ip and their outcomes, environment
    variables, the ids the database gives.

    * Not modelled

    Code units above 255 and doubles that are not decimals; texts of log lines and of most
    error messages; reading and writing the metadata file and its backups; errors of the file
    system that are no argument of a handler: a file that cannot be removed (nginx.js, whose
    deleteFile only logs it), a backup that cannot be made, put back or recovered
    (certificate.js), but for an entry that is missing there; the drawing of QR codes; the
    proposals of the catalog; the bash program of the agent embedded in agent.js, which is not
    JavaScript; DNS lookups, SQL, the audit log, timers;
    uploads and reading of certificate files, their revocation, the command line of certbot, the
    test of reachability; the texts of mails; the answers and audit entries of the handlers of
    accounts, and the account made from the environment at the first start; the settings of
    Cloudflare; the exchange with the provider of a sign-in; the HTTP layer, the frontend and the packaging. *)

From Stdlib Require Export ZArith Lia Ascii.
From stdpp Require Export sorting gmap.
From stdpp Require Export base tactics numbers strings option list.

(** * Results of code that may throw

    A JavaScript function that may [throw] is a function into [result E]:
    [Throw e] is the exception, [Ok x] the returned value. *)

Inductive result (E A : Type) : Type :=
| Ok (x : A)
| Throw (e : E).
Arguments Ok {E A} x.
Arguments Throw {E A} e.

#[export] Instance result_ret {E} : MRet (result E) := fun A x => Ok x.
#[export] Instance result_bind {E} : MBind (result E) :=
  fun A B f m => match m with Ok x => f x | Throw e => Throw e end.
#[export] Instance result_fmap {E} : FMap (result E) :=
  fun A B f m => match m with Ok x => Ok (f x) | Throw e => Throw e end.
#[export] Instance result_eq_dec {E A} `{EqDecision E} `{EqDecision A} :
  EqDecision (result E A).
Proof. intros [x|x] [y|y]; [destruct (decide (x = y))| | |destruct (decide (x = y))]; (left; congruence) || (right; congruence). Defined.

Definition is_ok {E A} (m : result E A) : bool :=
  match m with Ok _ => true | Throw _ => false end.

(** [if (c) throw e;] *)
Definition throw_if {E} (c : bool) (e : E) : result E unit :=
  if c then Throw e else Ok tt.

(** A [for ... of] loop whose body may throw, threading the mutated locals. *)
Fixpoint foldM {E A B} (f : B -> A -> result E B) (b : B) (l : list A) : result E B :=
  match l with
  | [] => Ok b
  | x :: l => b' ← f b x; foldM f b' l
  end.

Section result_lemmas.
Context {E : Type}.

Lemma bind_Ok {A B} (f : A -> result E B) m y :
  (x ← m; f x) = Ok y <-> exists x, m = Ok x /\ f x = Ok y.
Proof. destruct m; simpl; naive_solver. Qed.

Lemma throw_if_Ok (c : bool) (e : E) u : throw_if c e = Ok u <-> c = false.
Proof. destruct c, u; simpl; naive_solver. Qed.

Lemma mapM_Ok {A B} (f : A -> result E B) l k :
  mapM f l = Ok k <-> Forall2 (fun x y => f x = Ok y) l k.
Proof.
  revert k. induction l as [|x l IH]; intros k; simpl.
  - split; [intros [= <-]; constructor | inversion 1; done].
  - split.
    + intros (y & Hy & (k' & Hk & Hr)%bind_Ok)%bind_Ok. injection Hr as <-.
      constructor; [done|by apply IH].
    + inversion 1; subst. apply bind_Ok. eexists; split; [done|].
      apply bind_Ok. eexists; split; [by apply IH|done].
Qed.

(** An invariant of the loop state holds after the loop. *)
Lemma foldM_inv {A B} (f : B -> A -> result E B) (P : B -> Prop) l b b' :
  (forall b x c, x ∈ l -> P b -> f b x = Ok c -> P c) ->
  P b -> foldM f b l = Ok b' -> P b'.
Proof.
  revert b. induction l as [|x l IH]; intros b Hf Hb; simpl.
  - by intros [= <-].
  - intros (c & Hc & Hl)%bind_Ok. apply (IH c).
    + intros ????. eapply Hf. by right.
    + eapply Hf; [by left|done..].
    + done.
Qed.

Lemma foldM_app {A B} (f : B -> A -> result E B) l k b :
  foldM f b (l ++ k) = (c ← foldM f b l; foldM f c k).
Proof.
  revert b. induction l as [|x l IH]; intros b; simpl; [done|].
  destruct (f b x); simpl; [apply IH|done].
Qed.
End result_lemmas.

(** * [[...new Set(xs)]]: the distinct elements, first occurrence first *)

Section uniq.
Context {A : Type} `{EqDecision A}.

Fixpoint uniq (l : list A) : list A :=
  match l with
  | [] => []
  | x :: l => x :: filter (fun y => y ≠ x) (uniq l)
  end.

Lemma elem_of_uniq x l : x ∈ uniq l <-> x ∈ l.
Proof.
  induction l as [|y l IH]; simpl; [done|].
  rewrite !elem_of_cons, list_elem_of_filter, IH.
  destruct (decide (x = y)); naive_solver.
Qed.

Lemma NoDup_uniq l : NoDup (uniq l).
Proof.
  induction l as [|y l IH]; simpl; constructor.
  - rewrite list_elem_of_filter. naive_solver.
  - by apply NoDup_filter.
Qed.

Lemma filter_all (P : A -> Prop) `{forall x, Decision (P x)} l :
  Forall P l -> filter P l = l.
Proof.
  induction 1 as [|x l Hx Hl IH]; [done|].
  rewrite filter_cons_True by done. by rewrite IH.
Qed.

Lemma uniq_NoDup l : NoDup l -> uniq l = l.
Proof.
  induction 1 as [|x l Hx Hl IH]; simpl; [done|]. rewrite IH. f_equal.
  apply filter_all, Forall_forall. by intros y Hy ->.
Qed.

Lemma uniq_idemp l : uniq (uniq l) = uniq l.
Proof. apply uniq_NoDup, NoDup_uniq. Qed.

Lemma uniq_nil_inv l : uniq l = [] -> l = [].
Proof. by destruct l. Qed.
End uniq.

(** * [Map] and plain objects used as maps: association lists in insertion order

    [set] on a present key keeps the key's position; a new key is appended. *)

Section jsmap.
Context {K V : Type} `{EqDecision K}.

Fixpoint mget (k : K) (m : list (K * V)) : option V :=
  match m with
  | [] => None
  | (k', v) :: m => if decide (k' = k) then Some v else mget k m
  end.

Fixpoint mset (k : K) (v : V) (m : list (K * V)) : list (K * V) :=
  match m with
  | [] => [(k, v)]
  | (k', v') :: m => if decide (k' = k) then (k, v) :: m else (k', v') :: mset k v m
  end.

Definition mdel (k : K) (m : list (K * V)) : list (K * V) :=
  filter (fun kv => kv.1 ≠ k) m.

Definition mhas (k : K) (m : list (K * V)) : bool :=
  match mget k m with Some _ => true | None => false end.

(** [new Map(entries)]: later entries win. *)
Definition mfrom (l : list (K * V)) : list (K * V) :=
  foldl (fun m kv => mset kv.1 kv.2 m) [] l.

Lemma mget_mset k k' v m :
  mget k' (mset k v m) = if decide (k = k') then Some v else mget k' m.
Proof.
  induction m as [|[q w] m IH]; simpl; [done|].
  destruct (decide (q = k)); subst; simpl; repeat case_decide; congruence.
Qed.

Lemma mget_mset_eq k v m : mget k (mset k v m) = Some v.
Proof. rewrite mget_mset. by rewrite decide_True. Qed.

Lemma mget_mset_ne k k' v m : k ≠ k' -> mget k' (mset k v m) = mget k' m.
Proof. intros. rewrite mget_mset. by rewrite decide_False. Qed.

Lemma mget_mdel k k' m :
  mget k' (mdel k m) = if decide (k = k') then None else mget k' m.
Proof.
  unfold mdel. induction m as [|[q w] m IH]; simpl; [by case_decide|].
  rewrite filter_cons. simpl. repeat case_decide; subst; simpl; repeat case_decide; naive_solver.
Qed.

Lemma mget_elem_of k v m : mget k m = Some v -> (k, v) ∈ m.
Proof.
  induction m as [|[q w] m IH]; simpl; [done|].
  case_decide; rewrite elem_of_cons; naive_solver.
Qed.

Lemma mget_is_Some k m : is_Some (mget k m) <-> k ∈ m.*1.
Proof.
  induction m as [|[q w] m IH]; simpl.
  - rewrite elem_of_nil. split; [by intros [??]|done].
  - rewrite elem_of_cons. case_decide; subst; naive_solver.
Qed.

Lemma mget_None k m : mget k m = None <-> k ∉ m.*1.
Proof. rewrite <- mget_is_Some, eq_None_not_Some. done. Qed.

Lemma mhas_spec k m : mhas k m = true <-> k ∈ m.*1.
Proof. unfold mhas. rewrite <- mget_is_Some. destruct (mget k m); naive_solver. Qed.

Lemma mset_keys k v m :
  (mset k v m).*1 = if decide (k ∈ m.*1) then m.*1 else m.*1 ++ [k].
Proof.
  induction m as [|[q w] m IH]; csimpl; [done|].
  destruct (decide (q = k)) as [->|Hne]; csimpl.
  - rewrite decide_True; [done|by left].
  - rewrite IH. repeat case_decide; set_solver.
Qed.

Lemma NoDup_mset k v m : NoDup m.*1 -> NoDup (mset k v m).*1.
Proof.
  intros Hm. rewrite mset_keys. case_decide; [done|].
  apply NoDup_app. split_and!; [done| |apply NoDup_singleton].
  intros x Hx ->%list_elem_of_singleton. done.
Qed.

Lemma NoDup_mdel k m : NoDup m.*1 -> NoDup (mdel k m).*1.
Proof.
  unfold mdel. induction m as [|[q w] m IH]; csimpl; [done|].
  rewrite NoDup_cons. intros [Hq Hm]. rewrite filter_cons. csimpl. case_decide; [|by apply IH].
  csimpl. constructor; [|by apply IH].
  contradict Hq. apply list_elem_of_fmap in Hq as ([q' w'] & -> & Hq).
  apply list_elem_of_filter in Hq as [_ Hq]. apply list_elem_of_fmap. by exists (q', w').
Qed.

Lemma elem_of_mget k v m : NoDup m.*1 -> (k, v) ∈ m -> mget k m = Some v.
Proof.
  induction m as [|[q w] m IH]; csimpl; [set_solver|].
  rewrite NoDup_cons, elem_of_cons. intros [Hq Hm] [[= -> ->]|Hin].
  - by rewrite decide_True.
  - rewrite decide_False; [by apply IH|]. intros ->. apply Hq.
    apply list_elem_of_fmap. by exists (k, v).
Qed.
End jsmap.

(** * Booleans, lists and a few tactics *)

(** [xs.some(p)] and [xs.every(p)] are [existsb] and [forallb]; these restate them over [∈]. *)
Lemma existsb_true {A} (p : A -> bool) l :
  existsb p l = true <-> exists x, x ∈ l /\ p x = true.
Proof. rewrite existsb_exists. by setoid_rewrite list_elem_of_In. Qed.

Lemma existsb_false {A} (p : A -> bool) l :
  existsb p l = false <-> forall x, x ∈ l -> p x = false.
Proof.
  induction l as [|y l IH]; simpl; [set_solver|].
  rewrite orb_false_iff, IH. setoid_rewrite elem_of_cons. naive_solver.
Qed.

Lemma forallb_true {A} (p : A -> bool) l :
  forallb p l = true <-> forall x, x ∈ l -> p x = true.
Proof. rewrite forallb_forall. by setoid_rewrite list_elem_of_In. Qed.

(** [xs.filter(p)] for a boolean [p]. *)
Definition bfilter {A} (p : A -> bool) : list A -> list A := List.filter p.

Lemma elem_of_bfilter {A} (p : A -> bool) x l :
  x ∈ bfilter p l <-> x ∈ l /\ p x = true.
Proof. unfold bfilter. rewrite !list_elem_of_In, List.filter_In. done. Qed.

Lemma NoDup_bfilter {A} (p : A -> bool) l : NoDup l -> NoDup (bfilter p l).
Proof. rewrite !NoDup_ListNoDup. apply List.NoDup_filter. Qed.

Lemma bfilter_sublist {A} (p : A -> bool) l : bfilter p l `sublist_of` l.
Proof. unfold bfilter. induction l as [|x l IH]; [done|]. cbn. destruct (p x); by constructor. Qed.

(** [xs.find(p)] *)
Definition bfind {A} (p : A -> bool) : list A -> option A := List.find p.

Lemma bfind_Some {A} (p : A -> bool) l x :
  bfind p l = Some x -> x ∈ l /\ p x = true.
Proof. intros H%List.find_some. by rewrite list_elem_of_In. Qed.

Lemma bfind_None {A} (p : A -> bool) l :
  bfind p l = None -> forall x, x ∈ l -> p x = false.
Proof. intros H x Hx%list_elem_of_In. by eapply List.find_none. Qed.

(** A boolean property of a bounded integer, decided by running it on every value. *)
Fixpoint all_from (fuel : nat) (z : Z) (p : Z -> bool) : bool :=
  match fuel with O => true | S fuel => p z && all_from fuel (z + 1) p end.

Lemma all_from_spec fuel a p z : all_from fuel a p = true -> (a <= z < a + Z.of_nat fuel)%Z -> p z = true.
Proof.
  revert a. induction fuel as [|f IH]; intros a; simpl; [lia|].
  rewrite andb_true_iff. intros [Ha Hf] Hz. destruct (decide (z = a)) as [->|Hne]; [done|].
  apply (IH (a + 1)%Z); [done|lia].
Qed.

Lemma forall_range (n : Z) (p : Z -> bool) :
  all_from (Z.to_nat n) 0 p = true -> forall z, (0 <= z < n)%Z -> p z = true.
Proof. intros H z Hz. apply (all_from_spec _ _ _ z H). lia. Qed.

Create HintDb js.
#[export] Hint Rewrite @bind_Ok @throw_if_Ok : js.
#[export] Hint Resolve NoDup_uniq NoDup_mset NoDup_mdel : js.

(** Split the successful run of a monadic program into its steps. *)
Ltac inv_ok :=
  repeat match goal with
  | H : (_ ≫= _) = Ok _ |- _ =>
      let x := fresh "v" in let Hx := fresh "Hv" in
      apply bind_Ok in H as (x & Hx & H)
  | H : mret _ = Ok _ |- _ => injection H as H; subst
  | H : Ok _ = Ok _ |- _ => injection H as H; subst
  | H : Throw _ = Ok _ |- _ => discriminate H
  | H : throw_if _ _ = Ok ?u |- _ => apply throw_if_Ok in H; try destruct u
  end.

(** Case analysis on every [if] and [match] of the goal, closing the absurd branches. *)
Ltac branch := repeat (case_match; simplify_eq/=; try done).
