(* ===== verification/JsString.v ===== *)
(** JavaScript strings, as far as the modelled sources use them.

    A string is a list of UTF-16 code units; the model restricts them to units
    below 256 ([ascii] = one code unit), which covers every string the modelled
    code builds or accepts (addresses, keys, names, conf lines). Positions,
    comparison and sorting are by code unit, as in JavaScript. *)

From S2P Require Import Prelude.

Local Open Scope Z_scope.

(** * Code units and classes *)

Definition code (c : ascii) : Z := Z.of_N (N_of_ascii c).
Definition chr (z : Z) : ascii := ascii_of_N (Z.to_N z).

Definition in_range (lo hi c : ascii) : bool := (code lo <=? code c) && (code c <=? code hi).
Definition is_digit (c : ascii) : bool := in_range "0" "9" c.
Definition is_upper (c : ascii) : bool := in_range "A" "Z" c.
Definition is_lower (c : ascii) : bool := in_range "a" "z" c.
Definition is_alpha (c : ascii) : bool := is_upper c || is_lower c.
Definition is_alnum (c : ascii) : bool := is_alpha c || is_digit c.
Definition is_char (d c : ascii) : bool := bool_decide (c = d).
Definition one_of (l : list ascii) (c : ascii) : bool := bool_decide (c ∈ l).
(** White space of [trim] and of the class [\s]: TAB LF VT FF CR, space, NBSP. *)
Definition is_space (c : ascii) : bool :=
  ((9 <=? code c) && (code c <=? 13)) || (code c =? 32) || (code c =? 160).
(** [[\u0000-\u001f\u007f]] *)
Definition is_control (c : ascii) : bool := (code c <=? 31) || (code c =? 127).

Definition nl : ascii := chr 10.
Definition cr : ascii := chr 13.
Definition tab : ascii := chr 9.
Definition dquote : ascii := chr 34.

(** Every code unit of the model; a property of all of them is decided by running it. *)
Definition all_chars : list ascii := chr <$> seqZ 0 256.

Lemma code_range c : 0 <= code c < 256.
Proof. unfold code. pose proof (N_ascii_bounded c). lia. Qed.

Lemma chr_code c : chr (code c) = c.
Proof. unfold chr, code. rewrite N2Z.id. apply ascii_N_embedding. Qed.

Lemma elem_of_all_chars c : c ∈ all_chars.
Proof.
  apply list_elem_of_fmap. exists (code c). split; [by rewrite chr_code|].
  apply elem_of_seqZ. apply code_range.
Qed.

Lemma forall_char (p : ascii -> bool) :
  forallb p all_chars = true -> forall c, p c = true.
Proof. intros H c. rewrite forallb_true in H. apply H, elem_of_all_chars. Qed.

(** * Characters of a string *)

Fixpoint sall (p : ascii -> bool) (s : string) : bool :=
  match s with "" => true | String c s => p c && sall p s end.

Definition has_char (d : ascii) (s : string) : bool := negb (sall (fun c => negb (is_char d c)) s).

Lemma sall_impl p q s :
  (forall c, p c = true -> q c = true) -> sall p s = true -> sall q s = true.
Proof.
  intros Hpq. induction s as [|c s IH]; simpl; [done|].
  rewrite !andb_true_iff. intros [? ?]. auto.
Qed.

(** The inclusion of two classes is decided by enumeration. *)
Lemma sall_impl_dec p q s :
  forallb (fun c => implb (p c) (q c)) all_chars = true -> sall p s = true -> sall q s = true.
Proof.
  intros H. apply sall_impl. intros c. pose proof (forall_char _ H c) as Hc.
  cbv beta in Hc. by destruct (p c), (q c).
Qed.

Definition no_char (d : ascii) (s : string) : Prop := sall (fun c => negb (is_char d c)) s = true.

Lemma sapp_nil_l (a : string) : "" +:+ a = a.
Proof. done. Qed.

Lemma sapp_String c (a b : string) : String c a +:+ b = String c (a +:+ b).
Proof. done. Qed.

Lemma sapp_assoc (a b c : string) : (a +:+ b) +:+ c = a +:+ (b +:+ c).
Proof.
  induction a as [|x a IH]; [done|]. rewrite !sapp_String. by rewrite IH.
Qed.

Lemma sapp_nil_r (a : string) : a +:+ "" = a.
Proof. induction a as [|x a IH]; [done|]. rewrite sapp_String. by rewrite IH. Qed.

Lemma slength_app (a b : string) : String.length (a +:+ b) = (String.length a + String.length b)%nat.
Proof. induction a as [|c a IH]; [done|]. rewrite sapp_String. cbn. by rewrite IH. Qed.

Lemma sall_app p s t : sall p (s +:+ t) = sall p s && sall p t.
Proof.
  induction s as [|c s IH]; [done|]. rewrite sapp_String. simpl. rewrite IH. by destruct (p c).
Qed.

(** * [split], [join] *)

(** [s.split(sep)] for a one-character separator. *)
Fixpoint split_char (sep : ascii) (s : string) : list string :=
  match s with
  | "" => [""]
  | String c r =>
      if decide (c = sep) then "" :: split_char sep r
      else match split_char sep r with
           | x :: xs => String c x :: xs
           | [] => [String c ""]
           end
  end.

(** [s.split(/\r?\n/)] *)
Fixpoint split_lines (s : string) : list string :=
  match s with
  | "" => [""]
  | String c r =>
      if decide (c = nl) then "" :: split_lines r
      else match r with
           | String d r' =>
               if decide (c = cr /\ d = nl) then "" :: split_lines r'
               else match split_lines r with
                    | x :: xs => String c x :: xs
                    | [] => [String c ""]
                    end
           | "" => [String c ""]
           end
  end.

(** [xs.join(sep)] *)
Fixpoint join (sep : string) (l : list string) : string :=
  match l with
  | [] => ""
  | [x] => x
  | x :: l => x +:+ sep +:+ join sep l
  end.

Lemma split_char_no sep s : no_char sep s -> split_char sep s = [s].
Proof.
  unfold no_char. induction s as [|c s IH]; simpl; [done|].
  rewrite andb_true_iff. intros [Hc Hs]. rewrite IH by done.
  rewrite decide_False; [done|]. intros ->. unfold is_char in Hc.
  by rewrite bool_decide_true in Hc.
Qed.

Lemma split_char_app sep s t :
  no_char sep s -> split_char sep (s +:+ String sep t) = s :: split_char sep t.
Proof.
  unfold no_char. induction s as [|c s IH].
  - intros _. rewrite sapp_nil_l. simpl. by rewrite decide_True.
  - rewrite sapp_String. simpl. rewrite andb_true_iff. intros [Hc Hs]. rewrite IH by done.
    rewrite decide_False; [done|]. intros ->. unfold is_char in Hc.
    by rewrite bool_decide_true in Hc.
Qed.

Lemma split_char_cons sep s : exists x xs, split_char sep s = x :: xs.
Proof.
  destruct s as [|c s]; simpl; [eauto|]. destruct (decide _); [eauto|].
  destruct (split_char sep s); eauto.
Qed.

Lemma split_char_parts sep s x : x ∈ split_char sep s -> no_char sep x.
Proof.
  revert x. induction s as [|c s IH]; intros x; simpl.
  - intros ->%list_elem_of_singleton. done.
  - destruct (decide (c = sep)) as [->|Hne].
    + intros [->|?]%elem_of_cons; [done|by apply IH].
    + destruct (split_char_cons sep s) as (y & ys & Hy). rewrite Hy in *.
      intros [->|Hx]%elem_of_cons; [|apply IH; by right].
      unfold no_char in *. simpl. rewrite IH by (by left).
      unfold is_char. by rewrite bool_decide_false.
Qed.

Lemma join_split sep s : join (String sep "") (split_char sep s) = s.
Proof.
  induction s as [|c s IH]; simpl; [done|].
  destruct (split_char_cons sep s) as (y & ys & Hy). rewrite Hy in *.
  destruct (decide (c = sep)) as [->|Hc].
  - change (join (String sep "") ("" :: y :: ys))
      with ("" +:+ String sep "" +:+ join (String sep "") (y :: ys)).
    by rewrite IH.
  - rewrite <- IH. destruct ys; done.
Qed.

(** * Prefixes, positions, slices *)

Definition starts_with (p s : string) : bool := String.prefix p s.

Fixpoint ends_with (suf s : string) : bool :=
  if decide (s = suf) then true
  else match s with "" => false | String _ r => ends_with suf r end.

Fixpoint includes (p s : string) : bool :=
  if String.prefix p s then true
  else match s with "" => false | String _ r => includes p r end.

(** [s.indexOf(c)], [None] for -1. *)
Fixpoint index_of (d : ascii) (s : string) : option nat :=
  match s with
  | "" => None
  | String c r => if decide (c = d) then Some O else S <$> index_of d r
  end.

Fixpoint stake (n : nat) (s : string) : string :=
  match n, s with S n, String c r => String c (stake n r) | _, _ => "" end.
Fixpoint sdrop (n : nat) (s : string) : string :=
  match n, s with S n, String _ r => sdrop n r | _, _ => s end.

(** [s.slice(s.indexOf("=") + 1)]: the whole string when there is no ["="]. *)
Definition after_eq (s : string) : string :=
  match index_of "=" s with Some i => sdrop (S i) s | None => s end.

Lemma sall_stake p n s : sall p s = true -> sall p (stake n s) = true.
Proof.
  revert s. induction n as [|n IH]; intros [|c s]; simpl; try done.
  rewrite !andb_true_iff. intros [? ?]. auto.
Qed.

(** * [trim], replacement, case *)

Fixpoint trim_start (s : string) : string :=
  match s with "" => "" | String c r => if is_space c then trim_start r else s end.

Fixpoint trim_end (s : string) : string :=
  match s with
  | "" => ""
  | String c r =>
      let r' := trim_end r in
      if is_space c && bool_decide (r' = "") then "" else String c r'
  end.

Definition trim (s : string) : string := trim_end (trim_start s).

Lemma sall_trim_end p s : sall p s = true -> sall p (trim_end s) = true.
Proof.
  induction s as [|c s IH]; simpl; [done|]. rewrite andb_true_iff. intros [? ?].
  destruct (is_space c && _); simpl; [done|]. rewrite andb_true_iff. auto.
Qed.

Lemma sall_trim_start p s : sall p s = true -> sall p (trim_start s) = true.
Proof.
  induction s as [|c s IH]; simpl; [done|]. rewrite andb_true_iff. intros [Hc Hs].
  destruct (is_space c); simpl; [auto|]. by rewrite Hc, Hs.
Qed.

Lemma sall_trim p s : sall p s = true -> sall p (trim s) = true.
Proof. intros. by apply sall_trim_end, sall_trim_start. Qed.

(** A string without white space is its own trimmed form. *)
Lemma trim_id s : sall (fun c => negb (is_space c)) s = true -> trim s = s.
Proof.
  unfold trim. intros Hs. assert (trim_start s = s) as ->.
  { destruct s as [|c s]; [done|]. simpl in *. by destruct (is_space c). }
  induction s as [|c s IH]; simpl in *; [done|].
  destruct (is_space c); simpl in *; [done|]. by rewrite IH.
Qed.

(** [s.replace(/./g, f)]: every code unit rewritten to a string. *)
Fixpoint smap (f : ascii -> string) (s : string) : string :=
  match s with "" => "" | String c r => f c +:+ smap f r end.

Lemma sall_smap p f s : (forall c, sall p (f c) = true) -> sall p (smap f s) = true.
Proof. intros Hf. induction s as [|c s IH]; simpl; [done|]. by rewrite sall_app, Hf, IH. Qed.

(** [s.replace(/\s+/g, " ")] *)
Fixpoint squeeze_go (in_ws : bool) (s : string) : string :=
  match s with
  | "" => ""
  | String c r =>
      if is_space c then (if in_ws then squeeze_go true r else String " " (squeeze_go true r))
      else String c (squeeze_go false r)
  end.
Definition squeeze (s : string) : string := squeeze_go false s.

Lemma sall_squeeze p s : p " "%char = true -> sall p s = true -> sall p (squeeze s) = true.
Proof.
  intros Hsp. unfold squeeze. generalize false.
  induction s as [|c s IH]; intros b; simpl; [done|]. rewrite andb_true_iff. intros [Hc Hs].
  destruct (is_space c), b; simpl; rewrite ?Hsp, ?Hc; by apply IH.
Qed.

(** [s.toLowerCase()] on the code units of the model. *)
Definition lower_char (c : ascii) : ascii :=
  if is_upper c || ((192 <=? code c) && (code c <=? 222) && negb (code c =? 215))
  then chr (code c + 32) else c.
Definition to_lower (s : string) : string := smap (fun c => String (lower_char c) "") s.

(** * Numbers as text *)

Definition digit_char (d : Z) : ascii := chr (48 + d).

Fixpoint show_go (fuel : nat) (n : Z) (acc : string) : string :=
  match fuel with
  | O => acc
  | S f =>
      let acc := String (digit_char (n mod 10)) acc in
      if n <? 10 then acc else show_go f (n / 10) acc
  end.

Definition show_pos (n : Z) : string := show_go (S (Z.to_nat (Z.log2 n))) n "".

(** [String(n)] of an integer. *)
Definition showZ (n : Z) : string := if n <? 0 then "-" +:+ show_pos (- n) else show_pos n.

(** [Number(s)] of a non-empty string of decimal digits. *)
Fixpoint digits_go (acc : Z) (s : string) : Z :=
  match s with "" => acc | String c r => digits_go (acc * 10 + (code c - 48)) r end.
Definition num_of_digits (s : string) : Z := digits_go 0 s.

Lemma digit_char_ok d : 0 <= d < 10 -> is_digit (digit_char d) = true /\ code (digit_char d) = 48 + d.
Proof.
  intros Hd. pose proof (forall_range 10
    (fun d => is_digit (digit_char d) && (code (digit_char d) =? 48 + d)) eq_refl d Hd) as H.
  cbv beta in H. apply andb_true_iff in H as [? ?%Z.eqb_eq]. done.
Qed.

Lemma show_go_digits f n acc :
  0 <= n -> sall is_digit acc = true -> sall is_digit (show_go f n acc) = true.
Proof.
  revert n acc. induction f as [|f IH]; intros n acc Hn Hacc; cbn [show_go]; [done|].
  destruct (digit_char_ok (n mod 10)) as [Hd _]; [by apply Z.mod_pos_bound|].
  case_match; [simpl; by rewrite Hd, Hacc|].
  apply IH; [by apply Z.div_pos|]. simpl. by rewrite Hd, Hacc.
Qed.

Lemma show_pos_digits n : 0 <= n -> sall is_digit (show_pos n) = true.
Proof. intros. by apply show_go_digits. Qed.

Lemma showZ_digits n : 0 <= n -> sall is_digit (showZ n) = true.
Proof. intros. unfold showZ. destruct (Z.ltb_spec n 0); [lia|]. by apply show_pos_digits. Qed.

Lemma digits_go_app a s t : digits_go a (s +:+ t) = digits_go (digits_go a s) t.
Proof. revert a. induction s as [|c s IH]; intros a; [done|]. rewrite sapp_String. simpl. apply IH. Qed.

Lemma show_go_app f n acc : show_go f n acc = show_go f n "" +:+ acc.
Proof.
  revert n acc. induction f as [|f IH]; intros n acc; cbn [show_go]; [done|].
  case_match; [done|]. rewrite IH. rewrite (IH _ (String _ "")). by rewrite sapp_assoc.
Qed.

Lemma num_show_go f n a :
  0 <= n < 2 ^ Z.of_nat f -> exists k, 0 <= k /\ digits_go a (show_go f n "") = a * k + n.
Proof.
  revert n a. induction f as [|f IH]; intros n a Hn; cbn [show_go].
  - exists 1. simpl in *. lia.
  - destruct (digit_char_ok (n mod 10)) as [_ Hc]; [by apply Z.mod_pos_bound|].
    destruct (Z.ltb_spec n 10) as [Hlt|Hge].
    + exists 10. split; [lia|]. cbn [digits_go]. rewrite Hc, Z.mod_small by lia. lia.
    + rewrite show_go_app, digits_go_app.
      destruct (IH (n / 10) a) as (k & Hk & ->).
      { split; [apply Z.div_pos; lia|]. apply Z.div_lt_upper_bound; [lia|].
        rewrite Nat2Z.inj_succ, Z.pow_succ_r in Hn by lia. lia. }
      exists (10 * k). split; [lia|]. cbn [digits_go]. rewrite Hc.
      pose proof (Z.div_mod n 10). lia.
Qed.

Lemma num_showZ n : 0 <= n -> num_of_digits (showZ n) = n.
Proof.
  intros Hn. unfold showZ, show_pos, num_of_digits. destruct (Z.ltb_spec n 0); [lia|].
  destruct (num_show_go (S (Z.to_nat (Z.log2 n))) n 0) as (k & _ & ->); [|lia].
  split; [done|]. rewrite Nat2Z.inj_succ, Z2Nat.id by apply Z.log2_nonneg.
  destruct (decide (n = 0)) as [->|]; [done|]. apply Z.log2_spec. lia.
Qed.

Lemma showZ_inj n m : 0 <= n -> 0 <= m -> showZ n = showZ m -> n = m.
Proof. intros Hn Hm H. rewrite <- (num_showZ n), <- (num_showZ m) by done. by rewrite H. Qed.

(** * Ordering: [<] on strings, the default [sort()] *)

Definition sltb (a b : string) : bool := String.ltb a b.

Definition sort_strings (l : list string) : list string := merge_sort String.le l.

Lemma sort_strings_perm l : sort_strings l ≡ₚ l.
Proof. apply merge_sort_Permutation. Qed.

Lemma elem_of_sort_strings x l : x ∈ sort_strings l <-> x ∈ l.
Proof. by rewrite sort_strings_perm. Qed.

Lemma sort_strings_unique l k : l ≡ₚ k -> sort_strings l = sort_strings k.
Proof.
  intros Hp. apply (StronglySorted_unique String.le).
  - apply StronglySorted_merge_sort; apply _.
  - apply StronglySorted_merge_sort; apply _.
  - by rewrite !sort_strings_perm.
Qed.

(** [<] is the strict part of the total order of the standard library. *)
Lemma sltb_leb a b : sltb a b = negb (String.leb b a).
Proof.
  unfold sltb, String.ltb, String.leb. rewrite (String.compare_antisym b a).
  by destruct (String.compare a b).
Qed.

Lemma sltb_false a b : sltb a b = false <-> String.le b a.
Proof. rewrite sltb_leb, negb_false_iff. unfold String.le. by rewrite Is_true_true. Qed.

Lemma sltb_irrefl a : sltb a a = false.
Proof. apply sltb_false. reflexivity. Qed.

Lemma sltb_total a b : a <> b -> sltb a b = true \/ sltb b a = true.
Proof.
  intros Hne. destruct (sltb a b) eqn:Hab; [by left|]. destruct (sltb b a) eqn:Hba; [by right|].
  apply sltb_false in Hab, Hba. destruct Hne. by apply (anti_symm String.le).
Qed.

Lemma sltb_asym a b : sltb a b = true -> sltb b a = false.
Proof.
  intros Hab. destruct (sltb b a) eqn:Hba; [|done]. exfalso. rewrite sltb_leb, negb_true_iff in Hab, Hba.
  pose proof (total String.le a b) as [H|H]; unfold String.le in H; rewrite Is_true_true in H; congruence.
Qed.

Lemma sltb_trans a b c : sltb a b = true -> sltb b c = true -> sltb a c = true.
Proof.
  intros Hab Hbc. destruct (sltb a c) eqn:Hac; [done|]. apply sltb_false in Hac.
  pose proof (proj1 (sltb_false b a) (sltb_asym a b Hab)) as Hle.
  pose proof (proj1 (sltb_false c b) (sltb_asym b c Hbc)) as Hle'.
  assert (b = c) as ->; [|by rewrite sltb_irrefl in Hbc].
  apply (anti_symm String.le); [exact Hle'|]. by transitivity a.
Qed.

#[export] Hint Rewrite sall_app : js.
#[export] Hint Resolve sall_trim sall_stake sall_squeeze showZ_digits : js.

(** * Characters of the pieces *)

Lemma sall_sdrop p n s : sall p s = true -> sall p (sdrop n s) = true.
Proof.
  revert s. induction n as [|n IH]; intros s Hs; [done|]. destruct s as [|c s]; [done|].
  cbn in *. apply andb_true_iff in Hs as [_ Hs]. by apply IH.
Qed.


Lemma no_char_app d s t : no_char d s -> no_char d t -> no_char d (s +:+ t).
Proof. unfold no_char. by rewrite sall_app => -> ->. Qed.


Lemma no_char_join d sep l : no_char d sep -> Forall (no_char d) l -> no_char d (join sep l).
Proof.
  intros Hsep. induction 1 as [|x l Hx Hl IH]; [done|]. destruct l as [|y l]; [done|].
  change (join sep (x :: y :: l)) with (x +:+ sep +:+ join sep (y :: l)). by repeat apply no_char_app.
Qed.


Lemma length_stake n s : (String.length (stake n s) <= n)%nat.
Proof. revert s. induction n as [|n IH]; intros [|c s]; cbn; try lia. specialize (IH s). lia. Qed.


Lemma sall_split p sep s x : sall p s = true -> x ∈ split_char sep s -> sall p x = true.
Proof.
  revert x. induction s as [|c s IH]; intros x Hs; cbn [split_char].
  - by intros ->%list_elem_of_singleton.
  - cbn [sall] in Hs. apply andb_true_iff in Hs as [Hc Hs].
    destruct (decide (c = sep)); [intros [-> |Hx]%elem_of_cons; [done|by apply IH]|].
    destruct (split_char_cons sep s) as (y & ys & Hy). rewrite Hy in *.
    intros [-> |Hx]%elem_of_cons; [|apply IH; [done|by right]].
    cbn [sall]. rewrite Hc. apply IH; [done|by left].
Qed.

Lemma sall_after_eq p s : sall p s = true -> sall p (after_eq s) = true.
Proof. intros Hs. unfold after_eq. destruct (index_of "=" s); [by apply sall_sdrop|done]. Qed.
