(* ===== verification/JsRegex.v ===== *)
(** Regular expressions of the sources, [/^...$/.test(s)], by derivatives.

    Each anchored pattern of the code is one value of [re]; [re_test] runs it.
    [re_test_spec] says [re_test] decides the language of the pattern, and
    [re_chars] bounds the characters of every accepted string. *)

From S2P Require Import Prelude.
From S2P Require Import JsString.

Inductive re : Type :=
| RNone
| REps
| RChar (p : ascii -> bool)
| RSeq (r s : re)
| RAlt (r s : re)
| RStar (r : re)
| RAnd (r s : re).

(** [in_re r s]: the whole of [s] is in the language of [r]. *)
Inductive in_re : re -> string -> Prop :=
| in_eps : in_re REps ""
| in_char p c : p c = true -> in_re (RChar p) (String c "")
| in_seq r1 r2 s1 s2 : in_re r1 s1 -> in_re r2 s2 -> in_re (RSeq r1 r2) (s1 +:+ s2)
| in_alt_l r1 r2 s : in_re r1 s -> in_re (RAlt r1 r2) s
| in_alt_r r1 r2 s : in_re r2 s -> in_re (RAlt r1 r2) s
| in_star_nil r : in_re (RStar r) ""
| in_star_cons r s1 s2 : in_re r s1 -> in_re (RStar r) s2 -> in_re (RStar r) (s1 +:+ s2)
| in_and r1 r2 s : in_re r1 s -> in_re r2 s -> in_re (RAnd r1 r2) s.

(** * Matching *)

Fixpoint nullable (r : re) : bool :=
  match r with
  | RNone | RChar _ => false
  | REps | RStar _ => true
  | RSeq r s | RAnd r s => nullable r && nullable s
  | RAlt r s => nullable r || nullable s
  end.

Definition mk_seq (r s : re) : re :=
  match r, s with
  | RNone, _ => RNone
  | _, RNone => RNone
  | REps, _ => s
  | _, _ => RSeq r s
  end.
Definition mk_alt (r s : re) : re :=
  match r, s with RNone, _ => s | _, RNone => r | _, _ => RAlt r s end.
Definition mk_and (r s : re) : re :=
  match r, s with RNone, _ => RNone | _, RNone => RNone | _, _ => RAnd r s end.

Fixpoint deriv (c : ascii) (r : re) : re :=
  match r with
  | RNone | REps => RNone
  | RChar p => if p c then REps else RNone
  | RSeq r s =>
      if nullable r then mk_alt (mk_seq (deriv c r) s) (deriv c s) else mk_seq (deriv c r) s
  | RAlt r s => mk_alt (deriv c r) (deriv c s)
  | RStar r => mk_seq (deriv c r) (RStar r)
  | RAnd r s => mk_and (deriv c r) (deriv c s)
  end.

Fixpoint re_test (r : re) (s : string) : bool :=
  match s with "" => nullable r | String c s => re_test (deriv c r) s end.

(** * Pattern syntax *)

Definition rlit (s : string) : re :=
  foldr (fun c r => RSeq (RChar (is_char c)) r) REps (String.list_ascii_of_string s).
Definition ropt (r : re) : re := RAlt REps r.
Definition rplus (r : re) : re := RSeq r (RStar r).
(** [r{0,n}] *)
Fixpoint rupto (n : nat) (r : re) : re :=
  match n with O => REps | S n => RAlt REps (RSeq r (rupto n r)) end.
(** [r{n}r{0,m}], that is [r{n,n+m}] *)
Fixpoint rrep (n m : nat) (r : re) : re :=
  match n with O => rupto m r | S n => RSeq r (rrep n m r) end.
Definition rany : re := RChar (fun c => negb (is_char nl c) && negb (is_char cr c)).
Definition rdigit : re := RChar is_digit.

(** * Correctness of the matcher *)

Lemma nullable_spec r : nullable r = true <-> in_re r "".
Proof.
  induction r as [| |p|r1 IH1 r2 IH2|r1 IH1 r2 IH2|r IH|r1 IH1 r2 IH2]; simpl.
  - split; [done|inversion 1].
  - split; [constructor|done].
  - split; [done|inversion 1].
  - rewrite andb_true_iff, IH1, IH2. split.
    + intros [H1 H2]. by apply (in_seq _ _ "" "").
    + inversion 1 as [| |? ? s1 s2 H1 H2 Heq Hs| | | | |]; subst.
      destruct s1; [|done]. by destruct s2.
  - rewrite orb_true_iff, IH1, IH2. split.
    + intros [?|?]; [by apply in_alt_l|by apply in_alt_r].
    + inversion 1; subst; auto.
  - split; [constructor|done].
  - rewrite andb_true_iff, IH1, IH2. split.
    + intros [??]. by constructor.
    + by inversion 1.
Qed.

Lemma in_none t : in_re RNone t <-> False.
Proof. split; [inversion 1|done]. Qed.

Lemma in_seq_none_l s t : in_re (RSeq RNone s) t <-> False.
Proof. split; [|done]. inversion 1; subst. by eapply in_none. Qed.

Lemma in_seq_none_r r t : in_re (RSeq r RNone) t <-> False.
Proof. split; [|done]. inversion 1; subst. by eapply in_none. Qed.

Lemma in_seq_eps_l s t : in_re (RSeq REps s) t <-> in_re s t.
Proof.
  split.
  - inversion 1 as [| |? ? s1 s2 H1 H2| | | | |]; subst. by inversion H1; subst.
  - intros. apply (in_seq _ _ "" t); [constructor|done].
Qed.

Lemma in_alt r s t : in_re (RAlt r s) t <-> in_re r t \/ in_re s t.
Proof. split; [inversion 1; subst; auto|]. intros [?|?]; [by apply in_alt_l|by apply in_alt_r]. Qed.

Lemma in_and_iff r s t : in_re (RAnd r s) t <-> in_re r t /\ in_re s t.
Proof. split; [by inversion 1|]. intros [??]. by constructor. Qed.

Lemma in_mk_seq r s t : in_re (mk_seq r s) t <-> in_re (RSeq r s) t.
Proof.
  destruct r, s; simpl; rewrite ?in_seq_none_l, ?in_seq_none_r, ?in_seq_eps_l, ?in_none; done.
Qed.

Lemma in_mk_alt r s t : in_re (mk_alt r s) t <-> in_re (RAlt r s) t.
Proof. rewrite in_alt. destruct r, s; simpl; rewrite ?in_none, ?in_alt; tauto. Qed.

Lemma in_mk_and r s t : in_re (mk_and r s) t <-> in_re (RAnd r s) t.
Proof. rewrite in_and_iff. destruct r, s; simpl; rewrite ?in_none, ?in_and_iff; tauto. Qed.

Lemma in_seq_cons r1 r2 c s :
  in_re (RSeq r1 r2) (String c s) <->
  (exists s1 s2, s = s1 +:+ s2 /\ in_re r1 (String c s1) /\ in_re r2 s2) \/
  (in_re r1 "" /\ in_re r2 (String c s)).
Proof.
  split.
  - inversion 1 as [| |? ? s1 s2 H1 H2 Heq Hs| | | | |]; subst. destruct s1 as [|d s1].
    + right. rewrite sapp_nil_l in Hs. by subst.
    + rewrite sapp_String in Hs. left. simplify_eq. eauto.
  - intros [(s1 & s2 & -> & H1 & H2)|[H1 H2]].
    + rewrite <- sapp_String. by constructor.
    + by apply (in_seq _ _ "").
Qed.

Lemma in_star_cons_inv r c s :
  in_re (RStar r) (String c s) <->
  exists s1 s2, s = s1 +:+ s2 /\ in_re r (String c s1) /\ in_re (RStar r) s2.
Proof.
  split.
  - intros H. remember (RStar r) as r' eqn:Hr. remember (String c s) as t eqn:Ht.
    induction H as [| | | | | |q s1 s2 H1 _ H2 IH|]; simplify_eq.
    destruct s1 as [|d s1].
    + rewrite sapp_nil_l in Ht. auto.
    + rewrite sapp_String in Ht. simplify_eq. eauto.
  - intros (s1 & s2 & -> & H1 & H2). rewrite <- sapp_String. by constructor.
Qed.

Lemma deriv_spec c r s : in_re (deriv c r) s <-> in_re r (String c s).
Proof.
  revert s. induction r as [| |p|r1 IH1 r2 IH2|r1 IH1 r2 IH2|r IH|r1 IH1 r2 IH2]; intros s; simpl.
  - split; inversion 1.
  - split; inversion 1.
  - destruct (p c) eqn:Hp; split; inversion 1; subst; try congruence; by constructor.
  - rewrite in_seq_cons.
    assert (in_re (mk_seq (deriv c r1) r2) s <->
      exists s1 s2, s = s1 +:+ s2 /\ in_re r1 (String c s1) /\ in_re r2 s2) as Hseq.
    { rewrite in_mk_seq. split.
      - inversion 1; subst. eexists _, _. split; [done|]. by rewrite <- IH1.
      - intros (s1 & s2 & -> & H1 & H2). constructor; [by rewrite IH1|done]. }
    destruct (nullable r1) eqn:Hn.
    + rewrite in_mk_alt. apply nullable_spec in Hn. rewrite <- Hseq, <- IH2. split.
      * inversion 1; subst; auto.
      * intros [?|[_ ?]]; [by apply in_alt_l|by apply in_alt_r].
    + rewrite Hseq. assert (~ in_re r1 "") by (rewrite <- nullable_spec; congruence). tauto.
  - rewrite in_mk_alt. split; inversion 1; subst;
      ((by apply in_alt_l, IH1) || (by apply in_alt_r, IH2)).
  - rewrite in_mk_seq, in_star_cons_inv. split.
    + inversion 1; subst. eexists _, _. split; [done|]. by rewrite <- IH.
    + intros (s1 & s2 & -> & H1 & H2). constructor; [by rewrite IH|done].
  - rewrite in_mk_and. split; inversion 1; subst; constructor; (by apply IH1) || (by apply IH2).
Qed.

Theorem re_test_spec r s : re_test r s = true <-> in_re r s.
Proof.
  revert r. induction s as [|c s IH]; intros r; simpl; [apply nullable_spec|].
  rewrite IH. apply deriv_spec.
Qed.

(** * The characters a pattern accepts *)

(** [re_over p r]: no character outside [p] can occur in a match of [r]. *)
Fixpoint re_over (p : ascii -> bool) (r : re) : bool :=
  match r with
  | RNone | REps => true
  | RChar q => forallb (fun c => implb (q c) (p c)) all_chars
  | RSeq r s | RAlt r s => re_over p r && re_over p s
  | RStar r => re_over p r
  | RAnd r s => re_over p r || re_over p s
  end.

Lemma in_re_over p r s : in_re r s -> re_over p r = true -> sall p s = true.
Proof.
  induction 1 as [|q c Hq|? ? ? ? _ IH1 _ IH2|? ? ? _ IH|? ? ? _ IH| |? ? ? _ IH1 _ IH2|? ? ? _ IH1 _ IH2];
    cbn [re_over]; rewrite ?andb_true_iff, ?orb_true_iff, ?sall_app; intros H; auto.
  - pose proof (forall_char _ H c) as Hc. cbv beta in Hc. rewrite Hq in Hc. simpl in Hc.
    simpl. by rewrite Hc.
  - destruct H as [H1 H2]. by rewrite IH1, IH2.
  - destruct H; auto.
  - destruct H; auto.
  - by rewrite IH1, IH2.
  - destruct H; auto.
Qed.

Lemma re_chars p r s : re_test r s = true -> re_over p r = true -> sall p s = true.
Proof. rewrite re_test_spec. apply in_re_over. Qed.

(** The other inclusion: a string is accepted when its pieces are. *)
Lemma re_test_seq r1 r2 s1 s2 :
  re_test r1 s1 = true -> re_test r2 s2 = true -> re_test (RSeq r1 r2) (s1 +:+ s2) = true.
Proof. rewrite !re_test_spec. by constructor. Qed.

Lemma re_test_seq_inv r1 r2 s :
  re_test (RSeq r1 r2) s = true ->
  exists s1 s2, s = s1 +:+ s2 /\ re_test r1 s1 = true /\ re_test r2 s2 = true.
Proof.
  rewrite re_test_spec. inversion 1; subst. eexists _, _. by rewrite !re_test_spec.
Qed.

Lemma re_test_char p s : re_test (RChar p) s = true <-> exists c, s = String c "" /\ p c = true.
Proof.
  rewrite re_test_spec. split.
  - inversion 1; subst. eauto.
  - intros (c & -> & Hc). by constructor.
Qed.
