(* ===== verification/Cidr.v ===== *)
(** IPv4 addresses and CIDR networks: the address arithmetic every other
    component is built on.

    Sources: [backend/internal/agent-ingress-rules.js] ([ipToInt], [intToIp],
    [canonicalCidr], [cidrContains]), [backend/internal/wireguard.js]
    ([canonicalizeIpv4Network], [isAcceptableNetworkPrefix], [isValidNetwork],
    [isValidInterfaceAddress], [isPrivateNetwork], [isHostRoute],
    [networksOverlap]) and the small helpers of the two rule modules.

    The 32-bit operators of JavaScript are written out ([toInt32], [toUint32]).
    The specification side is [net]: a masked address with a prefix length, and
    the set of addresses it stands for ([in_net]). *)

From S2P Require Import Prelude.
From S2P Require Import JsString.
From S2P Require Import JsRegex.

Local Open Scope Z_scope.

(** * 32-bit operators *)

Definition toUint32 (x : Z) : Z := x mod 2 ^ 32.
Definition toInt32 (x : Z) : Z := let u := toUint32 x in if u <? 2 ^ 31 then u else u - 2 ^ 32.
(** [x << k] *)
Definition js_shl (x k : Z) : Z := toInt32 (Z.shiftl (toInt32 x) (k mod 32)).
(** [x >>> k] *)
Definition js_ushr (x k : Z) : Z := Z.shiftr (toUint32 x) (k mod 32).
(** [x & y] *)
Definition js_and (x y : Z) : Z := toInt32 (Z.land (toInt32 x) (toInt32 y)).
(** [x | y] *)
Definition js_or (x y : Z) : Z := toInt32 (Z.lor (toInt32 x) (toInt32 y)).
(** [~x] *)
Definition js_not (x : Z) : Z := toInt32 (Z.lnot (toInt32 x)).

(** * Addresses as text *)

(** [\d{1,3}], [\d{1,2}] *)
Definition D13 : re := rrep 1 2 rdigit.
Definition D12 : re := rrep 1 1 rdigit.

Definition dotted (d : re) : re :=
  RSeq d (RSeq (RChar (is_char ".")) (RSeq d (RSeq (RChar (is_char "."))
    (RSeq d (RSeq (RChar (is_char ".")) d))))).

(** [/^(\d{1,3})\.(\d{1,3})\.(\d{1,3})\.(\d{1,3})$/] *)
Definition IPV4_RE : re := dotted D13.

(** The four captures of a match of [IPV4_RE], as numbers. *)
Definition octets (ip : string) : list Z := num_of_digits <$> split_char "." ip.

Definition ipToInt (ip : string) : option Z :=
  if re_test IPV4_RE ip then
    let o := octets ip in
    if existsb (fun x => 255 <? x) o then None
    else match o with
         | [o0; o1; o2; o3] =>
             Some (js_ushr (js_shl o0 24) 0 + js_shl o1 16 + js_shl o2 8 + o3)
         | _ => None
         end
  else None.

Definition intToIp (n : Z) : string :=
  join "." [showZ (js_and (js_ushr n 24) 255); showZ (js_and (js_ushr n 16) 255);
            showZ (js_and (js_ushr n 8) 255); showZ (js_and n 255)].

(** [prefix === 0 ? 0 : (0xffffffff << (32 - prefix)) >>> 0] *)
Definition cidr_mask (p : Z) : Z :=
  if p =? 0 then 0 else js_ushr (js_shl 4294967295 (32 - p)) 0.

(** The argument is [String(value ?? "")]. *)
Definition canonicalCidr (value : string) : option string :=
  let s := trim value in
  if decide (s = "") then None
  else
    let parts := split_char "/" s in
    match parts !! 2%nat with
    | Some _ => None
    | None =>
        match ipToInt (default "" (parts !! 0%nat)) with
        | None => None
        | Some ipInt =>
            let prefix :=
              match parts !! 1%nat with
              | None => Some 32
              | Some prefixStr =>
                  if re_test D12 prefixStr then
                    let p := num_of_digits prefixStr in
                    if 32 <? p then None else Some p
                  else None
              end in
            match prefix with
            | None => None
            | Some p =>
                Some (intToIp (js_ushr (js_and ipInt (cidr_mask p)) 0) +:+ "/" +:+ showZ p)
            end
        end
    end.

(** [c.split("/")] of a canonical CIDR: address and prefix. *)
Definition cidr_addr (c : string) : string := default "" (split_char "/" c !! 0%nat).
Definition prefixOf (c : string) : Z := num_of_digits (default "" (split_char "/" c !! 1%nat)).

Definition cidrContains (outer inner : string) : bool :=
  match canonicalCidr outer, canonicalCidr inner with
  | Some o, Some i =>
      if prefixOf i <? prefixOf o then false
      else
        let mask := cidr_mask (prefixOf o) in
        match ipToInt (cidr_addr i), ipToInt (cidr_addr o) with
        | Some ia, Some oa =>
            js_ushr (js_and ia mask) 0 =? js_ushr (js_and oa mask) 0
        | _, _ => false
        end
  | _, _ => false
  end.

Definition cidrOverlaps (x y : string) : bool := cidrContains x y || cidrContains y x.

(** [(cidr) => addr.split(".").reduce((acc, o) => acc * 256 + Number(o), 0)] *)
Definition ipInt (cidr : string) : Z :=
  fold_left (fun acc o => acc * 256 + num_of_digits o) (split_char "." (cidr_addr cidr)) 0.

(** * [wireguard.js]: network validation *)

(** [/^(\d{1,3})\.(\d{1,3})\.(\d{1,3})\.(\d{1,3})\/(\d{1,2})$/] *)
Definition IPV4_HOST_CIDR_RE : re := RSeq IPV4_RE (RSeq (RChar (is_char "/")) D12).

Definition canonicalizeIpv4Network (value : string) : option string :=
  let s := trim value in
  if re_test IPV4_HOST_CIDR_RE s then
    match octets (cidr_addr s) with
    | [a; b; c; d] =>
        let p := prefixOf s in
        if (255 <? a) || (255 <? b) || (255 <? c) || (255 <? d) || (32 <? p) then None
        else
          let ipInt := js_ushr (js_shl a 24) 0 + js_shl b 16 + js_shl c 8 + d in
          let net := js_ushr (js_and ipInt (cidr_mask p)) 0 in
          Some (intToIp net +:+ "/" +:+ showZ p)
    | _ => None
    end
  else None.

Definition MIN_NETWORK_PREFIX : Z := 8.

(** [/\/(\d{1,2})$/] finds the part after the last slash. *)
Definition isAcceptableNetworkPrefix (cidr : string) : bool :=
  match reverse (split_char "/" (trim cidr)) with
  | d :: _ :: _ => re_test D12 d && (MIN_NETWORK_PREFIX <=? num_of_digits d)
  | _ => false
  end.

Definition isHostRoute (target : string) : bool :=
  ends_with "/32" target || ends_with "/128" target.

(** [/^172\.(1[6-9]|2\d|3[0-1])\./] is a prefix test. *)
Definition isPrivateNetwork (target : string) : bool :=
  starts_with "10." target || starts_with "192.168." target ||
  re_test (RSeq (rlit "172.")
            (RSeq (RAlt (RSeq (RChar (is_char "1")) (RChar (in_range "6" "9")))
                        (RAlt (RSeq (RChar (is_char "2")) rdigit)
                              (RSeq (RChar (is_char "3")) (RChar (in_range "0" "1")))))
                  (RSeq (RChar (is_char ".")) (RStar (RChar (fun _ => true)))))) target ||
  starts_with "fd" target || starts_with "fc" target.

Definition networksOverlap (a b : string) : bool :=
  if decide (a = b) then true else cidrContains a b || cidrContains b a.

(** [/^(?:\d{1,3}\.){3}\d{1,3}(?:\/(?:\d|[12]\d|3[0-2]))?$/] *)
Definition IPV4_NET_RE : re :=
  RSeq IPV4_RE (ropt (RSeq (RChar (is_char "/"))
    (RAlt rdigit (RAlt (RSeq (RChar (in_range "1" "2")) rdigit)
                       (RSeq (RChar (is_char "3")) (RChar (in_range "0" "2"))))))).

(** [/^[0-9a-fA-F:]+(?:\/(?:\d|[1-9]\d|1[01]\d|12[0-8]))?$/] *)
Definition is_hex_or_colon (c : ascii) : bool :=
  is_digit c || in_range "a" "f" c || in_range "A" "F" c || is_char ":" c.
Definition IPV6_NET_RE : re :=
  RSeq (rplus (RChar is_hex_or_colon)) (ropt (RSeq (RChar (is_char "/"))
    (RAlt rdigit (RAlt (RSeq (RChar (in_range "1" "9")) rdigit)
      (RAlt (RSeq (RChar (is_char "1")) (RSeq (RChar (in_range "0" "1")) rdigit))
            (RSeq (rlit "12") (RChar (in_range "0" "8")))))))).

Definition isValidNetwork (value : string) : bool :=
  let v := trim value in
  if decide (v = "") then false
  else if re_test IPV4_NET_RE v then forallb (fun o => o <=? 255) (octets (cidr_addr v))
  else has_char ":" v && re_test IPV6_NET_RE v.

Definition isValidInterfaceAddress (value : string) : bool :=
  let v := trim value in
  if bool_decide (v = "") || negb (sall (fun c => negb (is_space c)) v) then false
  else if re_test IPV4_HOST_CIDR_RE v then
    forallb (fun o => o <=? 255) (octets (cidr_addr v)) && (prefixOf v <=? 32)
  else has_char ":" v && has_char "/" v && re_test IPV6_NET_RE v.

(** * Specification: networks as sets of addresses *)

Record net := Net { n_addr : Z; n_len : Z }.

#[export] Instance net_eq_dec : EqDecision net.
Proof. solve_decision. Defined.

Definition is_addr (x : Z) : Prop := 0 <= x < 2 ^ 32.

Definition net_wf (n : net) : Prop :=
  is_addr (n_addr n) /\ 0 <= n_len n <= 32 /\ n_addr n mod 2 ^ (32 - n_len n) = 0.

(** The addresses of a network: those that agree with it on the first [n_len] bits. *)
Definition in_net (x : Z) (n : net) : Prop :=
  is_addr x /\ x / 2 ^ (32 - n_len n) = n_addr n / 2 ^ (32 - n_len n).

Definition mask_addr (x p : Z) : Z := x / 2 ^ (32 - p) * 2 ^ (32 - p).

Definition show_net (n : net) : string := intToIp (n_addr n) +:+ "/" +:+ showZ (n_len n).

(** Reading a network: a dotted address, optionally with a prefix length 0-32. *)
Definition read_net (s : string) : option net :=
  match split_char "/" (trim s) with
  | [a] => x ← ipToInt a; Some (Net x 32)
  | [a; p] =>
      x ← ipToInt a;
      if re_test D12 p && (num_of_digits p <=? 32)
      then Some (Net (mask_addr x (num_of_digits p)) (num_of_digits p)) else None
  | _ => None
  end.

(** * The 32-bit arithmetic *)

Arguments intToIp : simpl never.
Arguments showZ : simpl never.
Arguments split_char : simpl never.
Arguments ipToInt : simpl never.
Arguments canonicalCidr : simpl never.
Arguments read_net : simpl never.
Arguments cidr_mask : simpl never.
Arguments js_ushr : simpl never.
Arguments js_and : simpl never.
Arguments prefixOf : simpl never.
Arguments cidr_addr : simpl never.
Arguments cidrContains : simpl never.
Arguments show_net : simpl never.
Arguments Z.pow : simpl never.

Lemma toUint32_small x : is_addr x -> toUint32 x = x.
Proof. apply Z.mod_small. Qed.

Lemma toInt32_mod x : toInt32 x mod 2 ^ 32 = x mod 2 ^ 32.
Proof.
  unfold toInt32, toUint32. case_match.
  - by rewrite Zmod_mod.
  - replace (x mod 2 ^ 32 - 2 ^ 32) with (x mod 2 ^ 32 + (-1) * 2 ^ 32) by lia.
    by rewrite Z_mod_plus_full, Zmod_mod.
Qed.

Lemma js_and_mod x y : js_and x y mod 2 ^ 32 = Z.land (x mod 2 ^ 32) (y mod 2 ^ 32).
Proof.
  unfold js_and. rewrite toInt32_mod, <- (toInt32_mod x), <- (toInt32_mod y).
  rewrite <- !Z.land_ones by lia.
  apply Z.bits_inj'. intros n _. rewrite !Z.land_spec.
  by destruct (Z.testbit _ n), (Z.testbit _ n), (Z.testbit _ n).
Qed.

Lemma js_ushr0 x : js_ushr x 0 = x mod 2 ^ 32.
Proof. unfold js_ushr, toUint32. by rewrite Zmod_0_l, Z.shiftr_0_r. Qed.

Lemma js_ushr_div x k : is_addr x -> 0 <= k < 32 -> js_ushr x k = x / 2 ^ k.
Proof.
  intros Hx Hk. unfold js_ushr. rewrite toUint32_small by done.
  rewrite Z.mod_small by lia. apply Z.shiftr_div_pow2. lia.
Qed.

Lemma js_and_255 x : 0 <= x < 2 ^ 32 -> js_and x 255 = x mod 256.
Proof.
  intros Hx. unfold js_and. change (toInt32 255) with (Z.ones 8). rewrite Z.land_ones by lia.
  change (2 ^ 8) with 256.
  assert (toInt32 x mod 256 = x mod 256) as ->.
  { unfold toInt32. rewrite toUint32_small by done. case_match; [done|].
    replace (x - 2 ^ 32) with (x + (- 2 ^ 24) * 256) by lia. by rewrite Z_mod_plus_full. }
  pose proof (Z.mod_pos_bound x 256). unfold toInt32.
  rewrite toUint32_small by (unfold is_addr; lia).
  destruct (Z.ltb_spec (x mod 256) (2 ^ 31)); [done|lia].
Qed.

Lemma cidr_mask_ones p : 0 <= p <= 32 -> cidr_mask p = Z.ldiff (Z.ones 32) (Z.ones (32 - p)).
Proof.
  intros Hp. pose proof (forall_range 33
    (fun p => cidr_mask p =? Z.ldiff (Z.ones 32) (Z.ones (32 - p))) eq_refl p ltac:(lia)) as H.
  by apply Z.eqb_eq in H.
Qed.

Lemma mask_addr_eq x p : is_addr x -> 0 <= p <= 32 -> js_ushr (js_and x (cidr_mask p)) 0 = mask_addr x p.
Proof.
  intros Hx Hp. rewrite js_ushr0, js_and_mod, cidr_mask_ones by done.
  rewrite (Z.mod_small x) by done. unfold mask_addr.
  rewrite <- Z.shiftr_div_pow2, <- Z.shiftl_mul_pow2 by lia.
  rewrite <- Z.ldiff_ones_r by lia. rewrite <- Z.land_ones by lia.
  apply Z.bits_inj'. intros n Hn. rewrite !Z.land_spec, !Z.ldiff_spec.
  assert (Z.testbit x n = Z.testbit x n && Z.testbit (Z.ones 32) n) as Hb.
  { rewrite <- Z.land_spec, Z.land_ones, Z.mod_small by (done || lia). done. }
  rewrite Hb. by destruct (Z.testbit x n), (Z.testbit (Z.ones 32) n), (Z.testbit (Z.ones (32 - p)) n).
Qed.

Lemma pow2_pos k : 0 <= k -> 0 < 2 ^ k.
Proof. intros. by apply Z.pow_pos_nonneg. Qed.

Lemma mask_addr_wf x p : is_addr x -> 0 <= p <= 32 -> net_wf (Net (mask_addr x p) p).
Proof.
  intros Hx Hp. unfold net_wf, is_addr, mask_addr in *. simpl.
  pose proof (pow2_pos (32 - p) ltac:(lia)) as Hpos.
  pose proof (Z.div_mod x (2 ^ (32 - p)) ltac:(lia)).
  pose proof (Z.mod_pos_bound x (2 ^ (32 - p)) Hpos).
  split_and!; [|lia|lia|lia|by apply Z_mod_mult].
  apply Z.mul_nonneg_nonneg; [|lia]. apply Z.div_pos; lia.
Qed.

(** * Text of an address *)

Lemma octets_shift o : 0 <= o < 256 ->
  js_ushr (js_shl o 24) 0 = o * 2 ^ 24 /\ js_shl o 16 = o * 2 ^ 16 /\ js_shl o 8 = o * 2 ^ 8.
Proof.
  intros Ho. pose proof (forall_range 256 (fun o =>
    (js_ushr (js_shl o 24) 0 =? o * 2 ^ 24) && (js_shl o 16 =? o * 2 ^ 16) &&
    (js_shl o 8 =? o * 2 ^ 8)) eq_refl o Ho) as H. cbv beta in H.
  rewrite !andb_true_iff, !Z.eqb_eq in H. tauto.
Qed.

Lemma show_octet o : 0 <= o < 256 -> re_test D13 (showZ o) = true.
Proof. intros Ho. apply (forall_range 256 (fun o => re_test D13 (showZ o)) eq_refl o Ho). Qed.

Lemma show_prefix p : 0 <= p <= 32 -> re_test D12 (showZ p) = true.
Proof. intros Hp. apply (forall_range 33 (fun p => re_test D12 (showZ p)) eq_refl p). lia. Qed.

Lemma digits_no_char d s : is_digit d = false -> sall is_digit s = true -> no_char d s.
Proof.
  intros Hd. apply sall_impl. intros c Hc. unfold is_char.
  destruct (bool_decide_reflect (c = d)); [congruence|done].
Qed.

Lemma D13_digits s : re_test D13 s = true -> sall is_digit s = true.
Proof. intros H. by apply (re_chars _ _ _ H). Qed.

Lemma num_of_digits_nonneg s : sall is_digit s = true -> 0 <= num_of_digits s.
Proof.
  unfold num_of_digits. generalize (Z.le_refl 0). generalize 0 at 2 4. induction s as [|c s IH]; [done|].
  intros a Ha. simpl. rewrite andb_true_iff. intros [Hc Hs]. apply IH; [|done].
  unfold is_digit, in_range in Hc. apply andb_true_iff in Hc as [Hc _].
  apply Z.leb_le in Hc. change (code "0") with 48 in Hc. lia.
Qed.

Lemma dotted_test d a b c e :
  re_test d a = true -> re_test d b = true -> re_test d c = true -> re_test d e = true ->
  re_test (dotted d) (join "." [a; b; c; e]) = true.
Proof.
  intros. unfold dotted. simpl. repeat apply re_test_seq; done.
Qed.

(** What [IPV4_RE] accepts: four groups of one to three digits. *)
Lemma IPV4_split s : re_test IPV4_RE s = true ->
  exists a b c d, split_char "." s = [a; b; c; d] /\
    sall is_digit a = true /\ sall is_digit b = true /\ sall is_digit c = true /\ sall is_digit d = true.
Proof.
  unfold IPV4_RE, dotted. intros H.
  apply re_test_seq_inv in H as (a & s1 & -> & Ha & H).
  apply re_test_seq_inv in H as (p1 & s2 & -> & (? & -> & ->%bool_decide_eq_true)%re_test_char & H).
  apply re_test_seq_inv in H as (b & s3 & -> & Hb & H).
  apply re_test_seq_inv in H as (p2 & s4 & -> & (? & -> & ->%bool_decide_eq_true)%re_test_char & H).
  apply re_test_seq_inv in H as (c & s5 & -> & Hc & H).
  apply re_test_seq_inv in H as (p3 & d & -> & (? & -> & ->%bool_decide_eq_true)%re_test_char & Hd).
  apply D13_digits in Ha, Hb, Hc, Hd. exists a, b, c, d.
  rewrite !sapp_String, !sapp_nil_l.
  rewrite !split_char_app, split_char_no by (by apply digits_no_char). done.
Qed.

Lemma ipToInt_range s x : ipToInt s = Some x -> is_addr x.
Proof.
  unfold ipToInt. destruct (re_test IPV4_RE s) eqn:Hre; [|done].
  apply IPV4_split in Hre as (a & b & c & d & Hs & Ha & Hb & Hc & Hd).
  unfold octets. rewrite Hs. simpl. repeat rewrite orb_false_r.
  apply num_of_digits_nonneg in Ha, Hb, Hc, Hd.
  destruct (Z.ltb_spec 255 (num_of_digits a)), (Z.ltb_spec 255 (num_of_digits b)),
    (Z.ltb_spec 255 (num_of_digits c)), (Z.ltb_spec 255 (num_of_digits d)); simpl; try done.
  intros [= <-].
  destruct (octets_shift (num_of_digits a)) as (-> & _ & _); [lia|].
  destruct (octets_shift (num_of_digits b)) as (_ & -> & _); [lia|].
  destruct (octets_shift (num_of_digits c)) as (_ & _ & ->); [lia|].
  unfold is_addr. lia.
Qed.

Lemma intToIp_eq x : is_addr x ->
  intToIp x = join "." [showZ (x / 2 ^ 24 mod 256); showZ (x / 2 ^ 16 mod 256);
                        showZ (x / 2 ^ 8 mod 256); showZ (x mod 256)].
Proof.
  intros Hx. unfold intToIp.
  assert (forall k, 0 <= k < 32 -> 0 <= x / 2 ^ k < 2 ^ 32) as Hdiv.
  { intros k Hk. pose proof (pow2_pos k). split; [apply Z.div_pos; unfold is_addr in *; lia|].
    apply Z.div_lt_upper_bound; [lia|]. unfold is_addr in Hx. nia. }
  rewrite !js_ushr_div by (done || lia). by rewrite !js_and_255 by first [exact Hx | apply Hdiv; lia].
Qed.

Lemma intToIp_octets x : is_addr x -> exists a b c d,
  0 <= a < 256 /\ 0 <= b < 256 /\ 0 <= c < 256 /\ 0 <= d < 256 /\
  intToIp x = join "." [showZ a; showZ b; showZ c; showZ d] /\
  x = a * 2 ^ 24 + b * 2 ^ 16 + c * 2 ^ 8 + d.
Proof.
  intros Hx. exists (x / 2 ^ 24 mod 256), (x / 2 ^ 16 mod 256), (x / 2 ^ 8 mod 256), (x mod 256).
  split_and!; try (by apply Z.mod_pos_bound); [by apply intToIp_eq|].
  unfold is_addr in Hx. change (2 ^ 24) with 16777216. change (2 ^ 16) with 65536.
  change (2 ^ 8) with 256. change (2 ^ 32) with 4294967296 in Hx.
  assert (x / 65536 = x / 256 / 256) as -> by (by rewrite Z.div_div).
  assert (x / 16777216 = x / 256 / 256 / 256) as -> by (by rewrite !Z.div_div).
  assert (x / 256 / 256 / 256 < 256) by (rewrite !Z.div_div by done; apply Z.div_lt_upper_bound; lia).
  assert (0 <= x / 256 / 256 / 256) by (rewrite !Z.div_div by done; apply Z.div_pos; lia).
  rewrite (Z.mod_small (x / 256 / 256 / 256)) by lia.
  pose proof (Z.div_mod x 256 ltac:(lia)). pose proof (Z.div_mod (x / 256) 256 ltac:(lia)).
  pose proof (Z.div_mod (x / 256 / 256) 256 ltac:(lia)). lia.
Qed.

Lemma split_intToIp a b c d : 0 <= a -> 0 <= b -> 0 <= c -> 0 <= d ->
  split_char "." (join "." [showZ a; showZ b; showZ c; showZ d]) = [showZ a; showZ b; showZ c; showZ d].
Proof.
  intros. simpl. rewrite !sapp_String, !sapp_nil_l.
  by rewrite !split_char_app, split_char_no by (by apply digits_no_char; [|apply showZ_digits]).
Qed.

Lemma ipToInt_intToIp x : is_addr x -> ipToInt (intToIp x) = Some x.
Proof.
  intros Hx. destruct (intToIp_octets x Hx) as (a & b & c & d & Ha & Hb & Hc & Hd & -> & ->).
  unfold ipToInt, IPV4_RE. rewrite dotted_test by (by apply show_octet).
  unfold octets. rewrite split_intToIp by lia. simpl fmap. rewrite !num_showZ by lia.
  destruct (octets_shift a) as (-> & _ & _); [lia|].
  destruct (octets_shift b) as (_ & -> & _); [lia|].
  destruct (octets_shift c) as (_ & _ & ->); [lia|].
  unfold existsb. rewrite !(proj2 (Z.ltb_ge 255 _)) by lia. done.
Qed.

Lemma text_chars p n : is_addr (n_addr n) -> 0 <= n_len n ->
  forallb (fun c => implb (is_digit c || is_char "." c || is_char "/" c) (p c)) all_chars = true ->
  sall p (show_net n) = true.
Proof.
  intros Hx Hl Hp. destruct (intToIp_octets _ Hx) as (a & b & c & d & Ha & Hb & Hc & Hd & He & _).
  unfold show_net. rewrite He. apply (sall_impl_dec _ _ _ Hp). simpl. rewrite !sall_app. simpl.
  assert (forall o, 0 <= o -> sall (fun c => is_digit c || is_char "." c || is_char "/" c) (showZ o) = true) as Ho.
  { intros o Ho. by apply (sall_impl_dec is_digit), showZ_digits. }
  by rewrite !Ho by lia.
Qed.

Lemma intToIp_no_slash x : is_addr x -> no_char "/" (intToIp x).
Proof.
  intros Hx. destruct (intToIp_octets x Hx) as (a & b & c & d & Ha & Hb & Hc & Hd & -> & _).
  unfold no_char. simpl. rewrite !sall_app. simpl.
  rewrite !(digits_no_char "/" (showZ _)) by (done || apply showZ_digits; lia). done.
Qed.

Lemma show_net_split x p : is_addr x -> 0 <= p ->
  split_char "/" (show_net (Net x p)) = [intToIp x; showZ p].
Proof.
  intros Hx Hp. unfold show_net. cbn [n_addr n_len]. rewrite sapp_String, sapp_nil_l.
  rewrite split_char_app by (by apply intToIp_no_slash).
  rewrite split_char_no; [done|]. by apply digits_no_char, showZ_digits.
Qed.

Lemma show_net_trim n : is_addr (n_addr n) -> 0 <= n_len n -> trim (show_net n) = show_net n.
Proof. intros. by apply trim_id, text_chars. Qed.

Lemma trim_show_nonempty n : is_addr (n_addr n) -> 0 <= n_len n -> show_net n <> "".
Proof.
  intros Hx Hp He. destruct n as [x p]. pose proof (show_net_split x p Hx Hp) as Hs.
  rewrite He in Hs. done.
Qed.

(** * Reading and printing networks *)

Lemma read_net_wf s n : read_net s = Some n -> net_wf n.
Proof.
  unfold read_net. destruct (split_char "/" (trim s)) as [|a [|p [|? ?]]]; try done.
  - intros (x & Hx & [= <-])%bind_Some. apply ipToInt_range in Hx.
    unfold net_wf, is_addr in *. simpl. rewrite Z.mod_1_r. lia.
  - intros (x & Hx & Hp)%bind_Some. apply ipToInt_range in Hx.
    destruct (re_test D12 p) eqn:Hd; [|done]. simpl in Hp.
    destruct (Z.leb_spec (num_of_digits p) 32); simplify_eq. apply mask_addr_wf; [done|].
    split; [|done]. apply num_of_digits_nonneg. by apply (re_chars _ _ _ Hd).
Qed.

Lemma net_wf_addr n : net_wf n -> is_addr (n_addr n) /\ 0 <= n_len n <= 32.
Proof. unfold net_wf. tauto. Qed.

Lemma mask_addr_id x p : 0 <= p <= 32 -> x mod 2 ^ (32 - p) = 0 -> mask_addr x p = x.
Proof.
  intros Hp Hm. unfold mask_addr. pose proof (pow2_pos (32 - p) ltac:(lia)).
  pose proof (Z.div_mod x (2 ^ (32 - p)) ltac:(lia)). lia.
Qed.

Lemma read_show_net n : net_wf n -> read_net (show_net n) = Some n.
Proof.
  destruct n as [x p]. intros Hwf. pose proof Hwf as (Hx & Hp & Hm). simpl in *.
  unfold read_net. rewrite show_net_trim by (simpl; done || lia).
  rewrite show_net_split by (done || lia). rewrite ipToInt_intToIp by done. simpl.
  rewrite show_prefix, num_showZ by lia. destruct (Z.leb_spec p 32); [|lia]. simpl.
  by rewrite mask_addr_id.
Qed.

Lemma canonicalCidr_read s : canonicalCidr s = show_net <$> read_net s.
Proof.
  unfold canonicalCidr, read_net. destruct (decide (trim s = "")) as [->|Hne]; [done|].
  destruct (split_char_cons "/" (trim s)) as (a & l & ->). destruct l as [|p [|e l]]; simpl.
  - destruct (ipToInt a) as [x|] eqn:Hx; [|done]. simpl. apply ipToInt_range in Hx.
    unfold show_net. simpl. rewrite mask_addr_eq by (done || lia). unfold mask_addr.
    by rewrite Z.div_1_r, Z.mul_1_r.
  - destruct (ipToInt a) as [x|] eqn:Hx; [|done]. simpl. apply ipToInt_range in Hx.
    destruct (re_test D12 p) eqn:Hd; simpl; [|done].
    assert (0 <= num_of_digits p).
    { apply num_of_digits_nonneg. by apply (re_chars _ _ _ Hd). }
    destruct (Z.ltb_spec 32 (num_of_digits p)), (Z.leb_spec (num_of_digits p) 32); try lia; try done.
    simpl. by rewrite mask_addr_eq by (done || lia).
  - by destruct (ipToInt a).
Qed.

(** A canonical text is the text of exactly one well-formed network. *)
Lemma canonicalCidr_Some s c : canonicalCidr s = Some c ->
  exists n, read_net s = Some n /\ net_wf n /\ c = show_net n.
Proof.
  rewrite canonicalCidr_read. destruct (read_net s) as [n|] eqn:Hn; [|done].
  intros [= <-]. exists n. split_and!; [done|by eapply read_net_wf|done].
Qed.

Lemma canonicalCidr_show n : net_wf n -> canonicalCidr (show_net n) = Some (show_net n).
Proof. intros. by rewrite canonicalCidr_read, read_show_net. Qed.

Lemma show_net_parts n : net_wf n ->
  cidr_addr (show_net n) = intToIp (n_addr n) /\ prefixOf (show_net n) = n_len n.
Proof.
  destruct n as [x p]. intros (Hx & Hp & _). simpl in *. unfold cidr_addr, prefixOf.
  rewrite show_net_split by (done || lia). simpl. by rewrite num_showZ by lia.
Qed.

Lemma show_net_inj n m : net_wf n -> net_wf m -> show_net n = show_net m -> n = m.
Proof.
  intros Hn Hm He. apply read_show_net in Hn, Hm. rewrite He in Hn. congruence.
Qed.

(** * Containment and overlap as sets of addresses *)

Lemma in_net_bounds x n : net_wf n ->
  in_net x n <-> n_addr n <= x < n_addr n + 2 ^ (32 - n_len n).
Proof.
  destruct n as [a p]. intros (Ha & Hp & Hm). unfold in_net, is_addr in *. simpl in *.
  pose proof (pow2_pos (32 - p) ltac:(lia)) as Hpos. set (k := 2 ^ (32 - p)) in *.
  pose proof (Z.div_mod a k ltac:(lia)) as Hda. rewrite Hm in Hda.
  assert (Hk : 2 ^ 32 = 2 ^ p * k).
  { unfold k. rewrite <- Z.pow_add_r by lia. f_equal. lia. }
  assert (a / k < 2 ^ p).
  { apply Z.div_lt_upper_bound; [lia|]. lia. }
  split.
  - intros [Hx Hd]. pose proof (Z.div_mod x k ltac:(lia)). pose proof (Z.mod_pos_bound x k Hpos).
    rewrite Hd in *. lia.
  - intros Hx. assert (k * (a / k) + k <= 2 ^ 32) by nia. split; [lia|].
    symmetry. apply (Z.div_unique_pos x k _ (x - a)); lia.
Qed.

Lemma in_net_self n : net_wf n -> in_net (n_addr n) n.
Proof. intros [Ha _]. by split. Qed.

Lemma in_net_subset n m : net_wf n -> net_wf m ->
  (forall x, in_net x m -> in_net x n) <->
  n_len n <= n_len m /\ n_addr m / 2 ^ (32 - n_len n) = n_addr n / 2 ^ (32 - n_len n).
Proof.
  intros Hn Hm. split.
  - intros Hs. pose proof (Hs _ (in_net_self m Hm)) as [_ Hd]. split; [|done].
    destruct (decide (n_len n <= n_len m)) as [|Hlt]; [done|].
    pose proof (proj1 (in_net_bounds (n_addr m + 2 ^ (32 - n_len m) - 1) n Hn)) as Hb1.
    pose proof (proj1 (in_net_bounds (n_addr m) n Hn)) as Hb2.
    pose proof Hn as (_ & Hpn & _). pose proof Hm as (_ & Hpm & _).
    assert (2 ^ (32 - n_len n) < 2 ^ (32 - n_len m)) by (apply Z.pow_lt_mono_r; lia).
    pose proof (pow2_pos (32 - n_len m) ltac:(lia)). pose proof (pow2_pos (32 - n_len n) ltac:(lia)).
    pose proof (Hb2 (Hs _ (in_net_self m Hm))).
    assert (in_net (n_addr m + 2 ^ (32 - n_len m) - 1) n) as Hend.
    { apply Hs, in_net_bounds; [done|]. lia. }
    specialize (Hb1 Hend). lia.
  - intros [Hl Hd] x [Hx Hxm]. split; [done|]. rewrite <- Hd.
    pose proof Hn as (_ & Hpn & _). pose proof Hm as (_ & Hpm & _).
    replace (32 - n_len n) with ((32 - n_len m) + (n_len m - n_len n)) by lia.
    rewrite Z.pow_add_r by lia. pose proof (pow2_pos (32 - n_len m) ltac:(lia)).
    pose proof (pow2_pos (n_len m - n_len n) ltac:(lia)).
    rewrite <- !Z.div_div by lia. by rewrite Hxm.
Qed.

Lemma mask_addr_inj x y p : 0 <= p <= 32 ->
  mask_addr x p = mask_addr y p <-> x / 2 ^ (32 - p) = y / 2 ^ (32 - p).
Proof.
  intros Hp. unfold mask_addr. pose proof (pow2_pos (32 - p) ltac:(lia)).
  rewrite Z.mul_cancel_r by lia. done.
Qed.

Lemma cidrContains_nets s t n m : read_net s = Some n -> read_net t = Some m ->
  cidrContains s t = true <-> forall x, in_net x m -> in_net x n.
Proof.
  intros Hs Ht. unfold cidrContains. rewrite !canonicalCidr_read, Hs, Ht. cbn [fmap option_fmap option_map].
  apply read_net_wf in Hs as Hn, Ht as Hm. rewrite in_net_subset by done.
  destruct (show_net_parts n Hn) as [-> ->]. destruct (show_net_parts m Hm) as [-> ->].
  pose proof Hn as (Han & Hpn & _). pose proof Hm as (Ham & Hpm & _).
  rewrite !ipToInt_intToIp by done. cbv zeta. rewrite !mask_addr_eq by done.
  destruct (Z.ltb_spec (n_len m) (n_len n)); [lia|].
  rewrite Z.eqb_eq, mask_addr_inj by done. lia.
Qed.

Lemma cidrContains_true s t : cidrContains s t = true ->
  exists n m, read_net s = Some n /\ read_net t = Some m.
Proof.
  unfold cidrContains. rewrite !canonicalCidr_read.
  destruct (read_net s) as [n|], (read_net t) as [m|]; [by exists n, m|discriminate..].
Qed.

(** The addresses a network text stands for (none when it is not one). *)
Definition in_cidr (x : Z) (s : string) : Prop := exists n, read_net s = Some n /\ in_net x n.

Lemma in_cidr_canonical x s c : canonicalCidr s = Some c -> in_cidr x c <-> in_cidr x s.
Proof.
  intros (n & Hn & Hwf & ->)%canonicalCidr_Some. unfold in_cidr.
  rewrite read_show_net by done. rewrite Hn. done.
Qed.

Lemma nets_nested n m x : net_wf n -> net_wf m -> in_net x n -> in_net x m -> n_len n <= n_len m ->
  forall y, in_net y m -> in_net y n.
Proof.
  intros Hn Hm [_ Hxn] [_ Hxm] Hl. apply in_net_subset; [done..|]. split; [done|].
  pose proof Hn as (_ & Hpn & _). pose proof Hm as (_ & Hpm & _). rewrite <- Hxn.
  replace (32 - n_len n) with ((32 - n_len m) + (n_len m - n_len n)) by lia.
  rewrite Z.pow_add_r by lia. pose proof (pow2_pos (32 - n_len m) ltac:(lia)).
  pose proof (pow2_pos (n_len m - n_len n) ltac:(lia)).
  rewrite <- !Z.div_div by lia. by rewrite Hxm.
Qed.

Lemma overlap_nets s t n m : read_net s = Some n -> read_net t = Some m ->
  cidrContains s t || cidrContains t s = true <-> exists x, in_net x n /\ in_net x m.
Proof.
  intros Hs Ht. rewrite orb_true_iff, (cidrContains_nets s t n m), (cidrContains_nets t s m n) by done.
  apply read_net_wf in Hs as Hn, Ht as Hm. split.
  - intros [H|H]; [exists (n_addr m)|exists (n_addr n)]; split; auto using in_net_self.
  - intros (x & Hxn & Hxm). destruct (Z.le_ge_cases (n_len n) (n_len m)); [left|right];
      eauto using nets_nested.
Qed.

Lemma cidrContains_in_cidr s t : cidrContains s t = true ->
  forall x, in_cidr x t -> in_cidr x s.
Proof.
  intros H. destruct (cidrContains_true _ _ H) as (n & m & Hn & Hm).
  rewrite (cidrContains_nets s t n m) in H by done.
  intros x (m' & Hm' & Hx). exists n. split; [done|]. apply H. congruence.
Qed.

Lemma cidrOverlaps_in_cidr s t :
  cidrOverlaps s t = true <-> exists x, in_cidr x s /\ in_cidr x t.
Proof.
  unfold cidrOverlaps. split.
  - intros H. assert (exists n m, read_net s = Some n /\ read_net t = Some m) as (n & m & Hn & Hm).
    { apply orb_true_iff in H as [H|H]; apply cidrContains_true in H as (? & ? & ? & ?); eauto. }
    rewrite (overlap_nets s t n m) in H by done. destruct H as (x & ? & ?).
    exists x. split; [exists n|exists m]; done.
  - intros (x & (n & Hn & Hxn) & (m & Hm & Hxm)). apply (overlap_nets s t n m); eauto.
Qed.

Lemma IPV4_no_slash a : re_test IPV4_RE a = true -> no_char "/" a.
Proof. intros H. by apply (re_chars _ _ _ H). Qed.

Lemma D12_no_slash a : re_test D12 a = true -> no_char "/" a.
Proof. intros H. by apply (re_chars _ _ _ H). Qed.

Lemma host_cidr_split s : re_test IPV4_HOST_CIDR_RE s = true <->
  exists a p, split_char "/" s = [a; p] /\ re_test IPV4_RE a = true /\ re_test D12 p = true.
Proof.
  unfold IPV4_HOST_CIDR_RE. split.
  - intros (a & s1 & -> & Ha & H)%re_test_seq_inv.
    apply re_test_seq_inv in H as (q & p & -> & (? & -> & ->%bool_decide_eq_true)%re_test_char & Hp).
    exists a, p. rewrite sapp_String, sapp_nil_l, split_char_app by (by apply IPV4_no_slash).
    by rewrite split_char_no by (by apply D12_no_slash).
  - intros (a & p & Hs & Ha & Hp). rewrite <- (join_split "/" s), Hs.
    apply re_test_seq; [done|]. by apply re_test_seq.
Qed.

Arguments D12 : simpl never.
Arguments num_of_digits : simpl never.

(** * What the address functions promise *)

(** [canonicalCidr] computes a normal form: its result is a fixed point, denotes
    the same addresses as its argument, and two accepted texts denote the same
    set of addresses exactly when their canonical texts are equal. *)
Theorem canonicalCidr_normal_form s t c d :
  canonicalCidr s = Some c -> canonicalCidr t = Some d ->
  canonicalCidr c = Some c /\
  (forall x, in_cidr x c <-> in_cidr x s) /\
  ((forall x, in_cidr x s <-> in_cidr x t) <-> c = d).
Proof.
  intros Hc Hd. split_and!.
  - apply canonicalCidr_Some in Hc as (n & _ & Hn & ->). by apply canonicalCidr_show.
  - intros x. by apply in_cidr_canonical.
  - setoid_rewrite <- (fun x => in_cidr_canonical x s c Hc).
    setoid_rewrite <- (fun x => in_cidr_canonical x t d Hd).
    apply canonicalCidr_Some in Hc as (n & _ & Hn & ->), Hd as (m & _ & Hm & ->).
    split; [|by intros ->]. intros H. f_equal.
    assert (forall x, in_net x n <-> in_net x m) as Hnm.
    { intros x. specialize (H x). unfold in_cidr in H. rewrite !read_show_net in H by done.
      split; intros Hx; [destruct (proj1 H) as (? & [= <-] & ?)|destruct (proj2 H) as (? & [= <-] & ?)]; eauto. }
    destruct (proj1 (in_net_subset n m Hn Hm)) as [Hl1 _]; [intros; by apply Hnm|].
    destruct (proj1 (in_net_subset m n Hm Hn)) as [Hl2 _]; [intros; by apply Hnm|].
    pose proof (proj1 (in_net_bounds _ _ Hm) (proj1 (Hnm _) (in_net_self n Hn))).
    pose proof (proj1 (in_net_bounds _ _ Hn) (proj2 (Hnm _) (in_net_self m Hm))).
    destruct n, m; simpl in *. f_equal; lia.
Qed.

Lemma canonicalCidr_normal_form_witness :
  canonicalCidr " 10.1.2.3/8" = Some "10.0.0.0/8" /\ canonicalCidr "10.0.0.0/8" = Some "10.0.0.0/8" /\
  (forall x, in_cidr x " 10.1.2.3/8" <-> in_cidr x "10.0.0.0/8").
Proof.
  split_and!; [vm_compute; reflexivity..|]. intros x.
  refine (proj2 (proj2 (proj2 (canonicalCidr_normal_form " 10.1.2.3/8" "10.0.0.0/8" "10.0.0.0/8" "10.0.0.0/8" _ _))) eq_refl x);
    vm_compute; reflexivity.
Defined.

(** [cidrContains outer inner] decides inclusion of address sets, for texts that are networks. *)
Theorem cidrContains_spec outer inner :
  cidrContains outer inner = true <->
  is_Some (canonicalCidr outer) /\ is_Some (canonicalCidr inner) /\
  forall x, in_cidr x inner -> in_cidr x outer.
Proof.
  split.
  - intros H. destruct (cidrContains_true _ _ H) as (n & m & Hn & Hm).
    split_and!; [rewrite canonicalCidr_read, Hn; by eexists
                |rewrite canonicalCidr_read, Hm; by eexists|by apply cidrContains_in_cidr].
  - intros ([c Hc] & [d Hd] & H). apply canonicalCidr_Some in Hc as (n & Hn & _), Hd as (m & Hm & _).
    apply (cidrContains_nets outer inner n m); [done..|]. intros x Hx.
    destruct (H x) as (n' & Hn' & ?); [by exists m|]. congruence.
Qed.

(** The address-conflict test [networksOverlap] of wireguard.js and [cidrOverlaps] of
    the rule planners both decide whether two texts share an address; the former
    also holds of equal texts of any kind. *)
Theorem networksOverlap_spec a b :
  (cidrOverlaps a b = true <-> exists x, in_cidr x a /\ in_cidr x b) /\
  (networksOverlap a b = true <-> a = b \/ exists x, in_cidr x a /\ in_cidr x b).
Proof.
  split; [apply cidrOverlaps_in_cidr|]. unfold networksOverlap.
  destruct (decide (a = b)) as [->|Hne]; [naive_solver|].
  change (cidrContains a b || cidrContains b a) with (cidrOverlaps a b).
  rewrite cidrOverlaps_in_cidr. naive_solver.
Qed.

Lemma canonicalizeIpv4Network_eq value :
  canonicalizeIpv4Network value =
  if decide (length (split_char "/" (trim value)) = 1%nat) then None else canonicalCidr value.
Proof.
  unfold canonicalizeIpv4Network. destruct (re_test IPV4_HOST_CIDR_RE (trim value)) eqn:Hre.
  - apply host_cidr_split in Hre as (a & p & Hs & Ha & Hp). rewrite Hs. simpl.
    destruct (IPV4_split a Ha) as (o1 & o2 & o3 & o4 & Ho & Hd).
    unfold canonicalCidr, cidr_addr, prefixOf. rewrite decide_False
      by (intros He; by rewrite He in Hs).
    rewrite Hs. cbn. unfold ipToInt. rewrite Ha, Hp. unfold octets. rewrite Ho. cbn.
    rewrite orb_false_r.
    destruct (255 <? num_of_digits o1), (255 <? num_of_digits o2),
      (255 <? num_of_digits o3), (255 <? num_of_digits o4), (32 <? num_of_digits p); done.
  - destruct (decide _) as [|Hl]; [done|]. symmetry. unfold canonicalCidr.
    destruct (decide _); [done|].
    destruct (split_char_cons "/" (trim value)) as (a & l & Hs). rewrite Hs in *.
    destruct l as [|p [|? ?]]; [done| |by cbn].
    cbn. destruct (ipToInt a) eqn:Ha; [|done]. destruct (re_test D12 p) eqn:Hp; [|done].
    apply not_true_iff_false in Hre. exfalso. apply Hre, host_cidr_split. exists a, p.
    split_and!; [done| |done]. unfold ipToInt in Ha. by destruct (re_test IPV4_RE a).
Qed.

(** The two canonicalisers of the code base agree: [canonicalizeIpv4Network]
    of wireguard.js is [canonicalCidr] of agent-ingress-rules.js on every text that
    has a slash, and refuses a text without one. *)
Theorem canonicalizeIpv4Network_canonicalCidr value :
  canonicalizeIpv4Network value =
  if decide (length (split_char "/" (trim value)) = 1%nat) then None else canonicalCidr value.
Proof. apply canonicalizeIpv4Network_eq. Qed.

(** * Single addresses *)

(** The boolean reading of [in_cidr]. *)
Definition in_cidrb (x : Z) (s : string) : bool :=
  match read_net s with
  | Some n => (0 <=? x) && (x <? 2 ^ 32) &&
              (x / 2 ^ (32 - n_len n) =? n_addr n / 2 ^ (32 - n_len n))
  | None => false
  end.

Lemma in_cidrb_spec x s : in_cidrb x s = true <-> in_cidr x s.
Proof.
  unfold in_cidrb, in_cidr. destruct (read_net s) as [n|].
  - unfold in_net, is_addr. rewrite !andb_true_iff, Z.leb_le, Z.ltb_lt, Z.eqb_eq. naive_solver.
  - naive_solver.
Qed.

Lemma in_cidr_addr x s : in_cidr x s -> is_addr x.
Proof. by intros (n & _ & [? _]). Qed.

(** The text of one address with its /32. *)
Definition host32 (x : Z) : string := intToIp x +:+ "/32".

Lemma host32_show x : host32 x = show_net (Net x 32).
Proof. reflexivity. Qed.

Lemma read_host32 x : is_addr x -> read_net (host32 x) = Some (Net x 32).
Proof.
  intros Hx. rewrite host32_show. apply read_show_net.
  split_and!; simpl; [done|lia|lia|apply Z.mod_1_r].
Qed.

Lemma in_cidr_host32 x y : is_addr x -> in_cidr y (host32 x) <-> y = x.
Proof.
  intros Hx. unfold in_cidr. rewrite read_host32 by done. split.
  - intros (n & [= <-] & _ & He). simpl in He. change (2 ^ 0) with 1 in He.
    by rewrite !Z.div_1_r in He.
  - intros ->. by eexists.
Qed.

Lemma cidrContains_host32 s x : is_addr x -> cidrContains s (host32 x) = in_cidrb x s.
Proof.
  intros Hx. apply eq_bool_prop_intro. rewrite !Is_true_true, in_cidrb_spec. split.
  - intros H. apply (cidrContains_in_cidr _ _ H). by apply in_cidr_host32.
  - intros (n & Hn & Hxn). apply (cidrContains_nets s (host32 x) n (Net x 32)); [done|by apply read_host32|].
    intros y Hy. assert (in_cidr y (host32 x)) as Hyx by (exists (Net x 32); by rewrite read_host32).
    apply in_cidr_host32 in Hyx; [|done]. by subst.
Qed.

Lemma in_cidrb_canonical x s c : canonicalCidr s = Some c -> in_cidrb x c = in_cidrb x s.
Proof.
  intros Hc. apply eq_bool_prop_intro. rewrite !Is_true_true, !in_cidrb_spec.
  by apply in_cidr_canonical.
Qed.

Lemma read_cidr32 a x : ipToInt a = Some x -> read_net (a +:+ "/32") = Some (Net x 32).
Proof.
  intros Ha. pose proof (ipToInt_range _ _ Ha) as Hr.
  assert (re_test IPV4_RE a = true) as Hre by (unfold ipToInt in Ha; by destruct (re_test IPV4_RE a)).
  unfold read_net. rewrite trim_id.
  - rewrite split_char_app by (by apply IPV4_no_slash).
    change (split_char "/" "32") with ["32"]. cbn [mbind option_bind]. rewrite Ha.
    cbn [mbind option_bind]. change (re_test D12 "32" && (num_of_digits "32" <=? 32)) with true.
    change (num_of_digits "32") with 32. by rewrite mask_addr_id by (done || apply Z.mod_1_r).
  - rewrite sall_app. rewrite (re_chars _ _ _ Hre); reflexivity.
Qed.
