(* ===== verification/JsVal.v ===== *)
(** JavaScript values: what JSON payloads and database rows are made of, and the
    conversions the code applies to them ([String(v)], [Number(v)], truthiness,
    property access). Numbers are exact decimals [m / 10^k] next to [NaN] and the
    infinities: rounding to a double is not modelled. *)

From S2P Require Import Prelude.
From S2P Require Import JsString.
From S2P Require Import JsRegex.

Local Open Scope Z_scope.

(** * Numbers *)

Inductive jsnum : Type :=
| NaN
| NInf (neg : bool)
| NFin (m : Z) (k : nat).  (** [m / 10^k] *)

#[export] Instance jsnum_eq_dec : EqDecision jsnum.
Proof. solve_decision. Defined.

Definition NInt (z : Z) : jsnum := NFin z 0.

Definition pow10 (k : nat) : Z := 10 ^ Z.of_nat k.

(** [Number.isInteger(n)], with the integer. *)
Definition num_int (n : jsnum) : option Z :=
  match n with
  | NFin m k => if m mod pow10 k =? 0 then Some (m / pow10 k) else None
  | _ => None
  end.

(** [Math.floor(n)] of a finite number. *)
Definition num_floor (m : Z) (k : nat) : Z := m / pow10 k.

Definition num_truthy (n : jsnum) : bool :=
  match n with NaN => false | NInf _ => true | NFin m _ => negb (m =? 0) end.

(** [Number.isFinite] *)
Definition num_finite (n : jsnum) : bool := match n with NFin _ _ => true | _ => false end.

Fixpoint zeros (k : nat) : string := match k with O => "" | S k => String "0" (zeros k) end.

Definition pad_left (k : nat) (s : string) : string := zeros (k - String.length s) +:+ s.

(** Removes trailing zeros of the fraction. *)
Fixpoint num_reduce (m : Z) (k : nat) : Z * nat :=
  match k with
  | O => (m, O)
  | S k' => if m mod 10 =? 0 then num_reduce (m / 10) k' else (m, k)
  end.

Definition num_to_string (n : jsnum) : string :=
  match n with
  | NaN => "NaN"
  | NInf neg => if neg then "-Infinity" else "Infinity"
  | NFin m k =>
      let '(m, k) := num_reduce m k in
      if decide (k = O) then showZ m
      else (if m <? 0 then "-" else "") +:+ showZ (Z.abs m / pow10 k) +:+ "." +:+
           pad_left k (showZ (Z.abs m mod pow10 k))
  end.

(** [Number(s)] for a string: decimal literals with a fraction and an exponent,
    hexadecimal literals, [Infinity]; the empty string is zero. *)
Definition take_digits : string -> string * string :=
  fix go s := match s with
              | "" => ("", "")
              | String c r => if is_digit c then let '(a, b) := go r in (String c a, b) else ("", s)
              end.

Definition hex_value (c : ascii) : option Z :=
  if is_digit c then Some (code c - 48)
  else if in_range "a" "f" c then Some (code c - 87)
  else if in_range "A" "F" c then Some (code c - 55) else None.

Fixpoint hex_go (a : Z) (s : string) : option Z :=
  match s with
  | "" => Some a
  | String c r => match hex_value c with Some d => hex_go (a * 16 + d) r | None => None end
  end.

Definition scale10 (m : Z) (k : nat) (e : Z) : jsnum :=
  if e <? 0 then NFin m (k + Z.to_nat (- e))
  else if e <=? Z.of_nat k then NFin m (k - Z.to_nat e) else NFin (m * 10 ^ (e - Z.of_nat k)) 0.

Definition parse_exp (m : Z) (k : nat) (s : string) : jsnum :=
  match s with
  | "" => NFin m k
  | String c r =>
      if bool_decide (c = "e"%char \/ c = "E"%char) then
        let '(neg, r) := match r with
                         | String "-" r => (true, r)
                         | String "+" r => (false, r)
                         | _ => (false, r)
                         end in
        let '(d, rest) := take_digits r in
        if bool_decide (d <> "" /\ rest = "") then
          scale10 m k (if neg then - num_of_digits d else num_of_digits d)
        else NaN
      else NaN
  end.

Definition parse_unsigned (s : string) : jsnum :=
  if decide (s = "Infinity") then NInf false
  else
    let '(i, r) := take_digits s in
    match r with
    | String "." r =>
        let '(f, r) := take_digits r in
        if decide (i +:+ f = "") then NaN
        else parse_exp (num_of_digits (i +:+ f)) (String.length f) r
    | _ => if decide (i = "") then NaN else parse_exp (num_of_digits i) 0 r
    end.

Definition num_neg (n : jsnum) : jsnum :=
  match n with NaN => NaN | NInf b => NInf (negb b) | NFin m k => NFin (- m) k end.

Definition string_to_num (s : string) : jsnum :=
  match trim s with
  | "" => NInt 0
  | String "0" (String x r) =>
      if bool_decide (x = "x"%char \/ x = "X"%char) then
        match r with "" => NaN | _ => match hex_go 0 r with Some z => NInt z | None => NaN end end
      else parse_unsigned (String "0" (String x r))
  | String "-" r => num_neg (parse_unsigned r)
  | String "+" r => parse_unsigned r
  | s => parse_unsigned s
  end.

(** * Values *)

Inductive jsval : Type :=
| VUndef
| VNull
| VBool (b : bool)
| VNum (n : jsnum)
| VStr (s : string)
| VArr (l : list jsval)
| VObj (l : list (string * jsval)).

Definition VInt (z : Z) : jsval := VNum (NInt z).

(** [String(v)]; [Array.prototype.toString] prints [null] and [undefined] as "". *)
Fixpoint to_string (v : jsval) : string :=
  match v with
  | VUndef => "undefined"
  | VNull => "null"
  | VBool b => if b then "true" else "false"
  | VNum n => num_to_string n
  | VStr s => s
  | VArr l => join "," (map (fun x => match x with VUndef | VNull => "" | _ => to_string x end) l)
  | VObj _ => "[object Object]"
  end.

Definition is_nullish (v : jsval) : bool := match v with VUndef | VNull => true | _ => false end.

(** [v === undefined] *)
Definition is_undef (v : jsval) : bool := match v with VUndef => true | _ => false end.

(** [String(v ?? d)] *)
Definition str_or (d : string) (v : jsval) : string := if is_nullish v then d else to_string v.

(** [v ?? null] *)
Definition or_null (v : jsval) : jsval := if is_nullish v then VNull else v.

(** [Boolean(v)] *)
Definition truthy (v : jsval) : bool :=
  match v with
  | VUndef | VNull => false
  | VBool b => b
  | VNum n => num_truthy n
  | VStr s => bool_decide (s <> "")
  | VArr _ | VObj _ => true
  end.

(** [String(v || d)] *)
Definition str_truthy (d : string) (v : jsval) : string := if truthy v then to_string v else d.

(** [Number(v)] *)
Definition to_number (v : jsval) : jsnum :=
  match v with
  | VUndef => NaN
  | VNull => NInt 0
  | VBool b => NInt (if b then 1 else 0)
  | VNum n => n
  | VStr s => string_to_num s
  | VArr _ => string_to_num (to_string v)
  | VObj _ => NaN
  end.

(** [v?.f]: [undefined] on a value without properties of its own. *)
Definition vget (v : jsval) (f : string) : jsval :=
  match v with VObj l => default VUndef (mget f l) | _ => VUndef end.

(** [Array.isArray(v) ? v : none] *)
Definition as_array (v : jsval) : option (list jsval) :=
  match v with VArr l => Some l | _ => None end.

(** [typeof v === "string"] *)
Definition as_string (v : jsval) : option string :=
  match v with VStr s => Some s | _ => None end.

(** [Number(v || 0)] *)
Definition num_or_zero (v : jsval) : jsnum := if truthy v then to_number v else NInt 0.

Lemma str_or_str d s : str_or d (VStr s) = s.
Proof. done. Qed.

Lemma num_int_NInt z : num_int (NInt z) = Some z.
Proof. unfold num_int, NInt, pow10. cbn. by rewrite Z.mod_1_r, Z.div_1_r. Qed.

Lemma string_to_num_digits s : s <> "" -> sall is_digit s = true ->
  string_to_num s = NInt (num_of_digits s).
Proof.
  intros Hne Hd. assert (trim s = s) as Ht.
  { apply trim_id. by apply (sall_impl_dec is_digit). }
  assert (take_digits s = (s, "")) as Hs.
  { clear Hne Ht. induction s as [|c s IH]; [done|]. cbn [sall] in Hd.
    apply andb_true_iff in Hd as [Hc Hd]. cbn [take_digits]. by rewrite Hc, IH. }
  assert (parse_unsigned s = NInt (num_of_digits s)) as Hp.
  { unfold parse_unsigned. rewrite decide_False by (intros ->; done). rewrite Hs.
    by rewrite decide_False. }
  unfold string_to_num. rewrite Ht. destruct s as [|c s]; [done|].
  cbn [sall] in Hd. apply andb_true_iff in Hd as [Hc Hd].
  destruct s as [|x r].
  - revert Hc Hp. clear. destruct c as [[] [] [] [] [] [] [] []]; done.
  - cbn [sall] in Hd. apply andb_true_iff in Hd as [Hx Hd].
    assert (bool_decide (x = "x"%char \/ x = "X"%char) = false) as Hb.
    { apply bool_decide_eq_false. intros [-> | ->]; done. }
    revert Hc Hp. clear -Hb. destruct c as [[] [] [] [] [] [] [] []]; try done.
    rewrite Hb. done.
Qed.
