(* ===== verification/Json.v ===== *)
(** [JSON.parse] and [JSON.stringify], as the code uses them on database columns
    and stored documents. Strings are sequences of code units below 256: a [\u]
    escape above that is refused. [parse_fuel] is the depth bound of the parser:
    each step consumes a character, so the length of the text is enough. *)

From S2P Require Import Prelude.
From S2P Require Import JsString.
From S2P Require Import JsRegex.
From S2P Require Import JsVal.

Local Open Scope Z_scope.

Definition json_ws (c : ascii) : bool := one_of [" "%char; tab; nl; cr] c.

Fixpoint skip_ws (s : string) : string :=
  match s with
  | String c r => if json_ws c then skip_ws r else s
  | "" => ""
  end.

Definition is_num_char (c : ascii) : bool :=
  is_digit c || one_of ["+"; "-"; "."; "e"; "E"]%char c.

Fixpoint take_while (p : ascii -> bool) (s : string) : string * string :=
  match s with
  | "" => ("", "")
  | String c r => if p c then let '(a, b) := take_while p r in (String c a, b) else ("", s)
  end.

(** An optional minus, an integer part without a leading zero, an optional fraction
    and an optional exponent. *)
Definition JSON_NUM_RE : re :=
  RSeq (ropt (RChar (is_char "-")))
  (RSeq (RAlt (RChar (is_char "0")) (RSeq (RChar (in_range "1" "9")) (RStar rdigit)))
  (RSeq (ropt (RSeq (RChar (is_char ".")) (rplus rdigit)))
        (ropt (RSeq (RChar (one_of ["e"; "E"]%char))
                    (RSeq (ropt (RChar (one_of ["+"; "-"]%char))) (rplus rdigit)))))).

Definition escape_char (c : ascii) : option ascii :=
  if decide (c = dquote) then Some dquote
  else if decide (c = "\"%char) then Some "\"%char
  else if decide (c = "/"%char) then Some "/"%char
  else if decide (c = "b"%char) then Some (chr 8)
  else if decide (c = "f"%char) then Some (chr 12)
  else if decide (c = "n"%char) then Some nl
  else if decide (c = "r"%char) then Some cr
  else if decide (c = "t"%char) then Some tab
  else None.

(** The rest of a string literal after its opening quote. *)
Fixpoint parse_str (s : string) : option (string * string) :=
  match s with
  | "" => None
  | String c r =>
      if decide (c = dquote) then Some ("", r)
      else if decide (c = "\"%char) then
        match r with
        | String "u" (String a (String b (String x (String y r')))) =>
            match hex_value a, hex_value b, hex_value x, hex_value y with
            | Some 0, Some 0, Some h, Some l =>
                '(t, rest) ← parse_str r'; Some (String (chr (16 * h + l)) t, rest)
            | _, _, _, _ => None
            end
        | String e r' =>
            c' ← escape_char e; '(t, rest) ← parse_str r'; Some (String c' t, rest)
        | "" => None
        end
      else if code c <? 32 then None
      else '(t, rest) ← parse_str r; Some (String c t, rest)
  end.

Fixpoint parse_value (fuel : nat) (s : string) : option (jsval * string) :=
  match fuel with
  | O => None
  | S fuel =>
      let s := skip_ws s in
      match s with
      | "" => None
      | String c r =>
          if decide (c = dquote) then '(t, rest) ← parse_str r; Some (VStr t, rest)
          else if decide (c = "["%char) then
            match skip_ws r with
            | String "]" rest => Some (VArr [], rest)
            | _ => '(l, rest) ← parse_elems fuel r; Some (VArr l, rest)
            end
          else if decide (c = "{"%char) then
            match skip_ws r with
            | String "}" rest => Some (VObj [], rest)
            | _ => '(l, rest) ← parse_members fuel r []; Some (VObj l, rest)
            end
          else if starts_with "null" s then Some (VNull, sdrop 4 s)
          else if starts_with "true" s then Some (VBool true, sdrop 4 s)
          else if starts_with "false" s then Some (VBool false, sdrop 5 s)
          else
            let '(n, rest) := take_while is_num_char s in
            if re_test JSON_NUM_RE n then Some (VNum (string_to_num n), rest) else None
      end
  end
with parse_elems (fuel : nat) (s : string) : option (list jsval * string) :=
  match fuel with
  | O => None
  | S fuel =>
      '(v, r) ← parse_value fuel s;
      match skip_ws r with
      | String "," r => '(l, rest) ← parse_elems fuel r; Some (v :: l, rest)
      | String "]" rest => Some ([v], rest)
      | _ => None
      end
  end
with parse_members (fuel : nat) (s : string) (acc : list (string * jsval))
    : option (list (string * jsval) * string) :=
  match fuel with
  | O => None
  | S fuel =>
      match skip_ws s with
      | String c r =>
          if decide (c = dquote) then
            '(k, r) ← parse_str r;
            match skip_ws r with
            | String ":" r =>
                '(v, r) ← parse_value fuel r;
                let acc := mset k v acc in
                match skip_ws r with
                | String "," r => parse_members fuel r acc
                | String "}" rest => Some (acc, rest)
                | _ => None
                end
            | _ => None
            end
          else None
      | "" => None
      end
  end.

Definition parse_fuel (s : string) : nat := 2 * S (String.length s).

(** [JSON.parse(s)], [None] when it throws. *)
Definition json_parse (s : string) : option jsval :=
  match parse_value (parse_fuel s) s with
  | Some (v, rest) => if decide (skip_ws rest = "") then Some v else None
  | None => None
  end.

(** [JSON.stringify] of a string. *)
Definition hex_digit (z : Z) : ascii := chr (if z <? 10 then z + 48 else z + 87).

Definition quote_char (c : ascii) : string :=
  if decide (c = dquote) then String "\" (String dquote "")
  else if decide (c = "\"%char) then "\\"
  else if decide (c = chr 8) then "\b"
  else if decide (c = chr 12) then "\f"
  else if decide (c = nl) then "\n"
  else if decide (c = cr) then "\r"
  else if decide (c = tab) then "\t"
  else if code c <? 32 then "\u00" +:+ String (hex_digit (code c / 16)) (String (hex_digit (code c mod 16)) "")
  else String c "".

Definition json_string (s : string) : string :=
  String dquote (smap quote_char s +:+ String dquote "").

(** [JSON.stringify] of an array of strings. *)
Definition json_strings (l : list string) : string :=
  "[" +:+ join "," (json_string <$> l) +:+ "]".

(** * Strings survive the round trip *)

Lemma parse_quote_char c t :
  parse_str (quote_char c +:+ t) = ('(u, rest) ← parse_str t; Some (String c u, rest)).
Proof. destruct c as [[] [] [] [] [] [] [] []]; reflexivity. Qed.

Lemma parse_str_quote s rest :
  parse_str (smap quote_char s +:+ String dquote rest) = Some (s, rest).
Proof.
  induction s as [|c s IH]; [done|]. cbn [smap]. by rewrite sapp_assoc, parse_quote_char, IH.
Qed.

Arguments parse_str : simpl never.

(** What [JSON.stringify] writes for a string, [JSON.parse] reads back. *)
Lemma json_parse_string s : json_parse (json_string s) = Some (VStr s).
Proof.
  unfold json_parse, json_string, parse_fuel. cbn [String.length Nat.mul Nat.add parse_value].
  cbn [skip_ws]. change (json_ws dquote) with false. cbv iota.
  rewrite decide_True by done. by rewrite parse_str_quote.
Qed.

Lemma json_string_eq s t : json_string s +:+ t = String dquote (smap quote_char s +:+ String dquote t).
Proof. unfold json_string. by rewrite sapp_String, sapp_assoc, sapp_String, sapp_nil_l. Qed.

Lemma parse_value_string f s t : (0 < f)%nat ->
  parse_value f (json_string s +:+ t) = Some (VStr s, t).
Proof.
  destruct f as [|f]; [lia|]. intros _. rewrite json_string_eq. cbn [parse_value skip_ws]. change (json_ws dquote) with false. cbv iota.
  rewrite decide_True by done. by rewrite parse_str_quote.
Qed.

Lemma parse_elems_strings l f rest : l <> [] -> (length l < f)%nat ->
  parse_elems f (join "," (json_string <$> l) +:+ String "]" rest) = Some (VStr <$> l, rest).
Proof.
  revert f. induction l as [|x l IH]; intros f Hne Hf; [done|].
  destruct f as [|f]; [lia|]. cbn [length] in Hf. cbn [parse_elems].
  destruct l as [|y l].
  - cbn [fmap list_fmap join]. rewrite parse_value_string by lia. done.
  - change (join "," (json_string <$> x :: y :: l))
      with (json_string x +:+ "," +:+ join "," (json_string <$> y :: l)).
    rewrite !sapp_assoc, parse_value_string by lia. cbn [mbind option_bind].
    rewrite sapp_String, sapp_nil_l. cbn [skip_ws]. change (json_ws ",") with false. cbv iota.
    rewrite IH; [done|done|lia].
Qed.

Lemma join_length l : (length l <= String.length (join "," (json_string <$> l)))%nat.
Proof.
  assert (forall s t, String.length (s +:+ t) = (String.length s + String.length t)%nat) as Happ.
  { intros s t. induction s as [|c s IHs]; [done|]. rewrite sapp_String. simpl. by rewrite IHs. }
  induction l as [|x l IH]; [simpl; lia|]. destruct l as [|y l]; [simpl; lia|].
  change (join "," (json_string <$> x :: y :: l))
    with (json_string x +:+ "," +:+ join "," (json_string <$> y :: l)).
  rewrite !Happ. cbn [length] in *. cbn [String.length]. lia.
Qed.

Lemma json_parse_strings l : json_parse (json_strings l) = Some (VArr (VStr <$> l)).
Proof.
  destruct (decide (l = [])) as [->|Hne]; [reflexivity|].
  assert (json_strings l = String "[" (join "," (json_string <$> l) +:+ String "]" "")) as Hs.
  { unfold json_strings. by rewrite sapp_String. }
  assert (parse_elems (2 * String.length (json_strings l) + 1)
            (join "," (json_string <$> l) +:+ String "]" "") = Some (VStr <$> l, "")) as He.
  { apply parse_elems_strings; [done|]. rewrite Hs. cbn [String.length].
    pose proof (join_length l) as Hl.
    assert (forall s t, (String.length s <= String.length (s +:+ t))%nat) as Happ.
    { intros s t. induction s as [|c s IHs]; [simpl; lia|]. rewrite sapp_String. simpl. lia. }
    specialize (Happ (join "," (json_string <$> l)) (String "]" "")). lia. }
  unfold json_parse, parse_fuel.
  replace (2 * S (String.length (json_strings l)))%nat
    with (S (2 * String.length (json_strings l) + 1)) by lia.
  revert He. generalize (2 * String.length (json_strings l) + 1)%nat. intros f He.
  rewrite Hs. cbn [parse_value skip_ws]. change (json_ws "[") with false. cbv iota.
  rewrite decide_False by done. rewrite decide_True by done.
  destruct l as [|x l]; [done|].
  assert (exists u, join "," (json_string <$> x :: l) +:+ String "]" "" = String dquote u) as [u Hu].
  { destruct l as [|y l]; [cbn [fmap list_fmap join]; rewrite json_string_eq; eauto|].
    change (join "," (json_string <$> x :: y :: l))
      with (json_string x +:+ "," +:+ join "," (json_string <$> y :: l)).
    rewrite !sapp_assoc, json_string_eq. eauto. }
  rewrite Hu in *. cbn [skip_ws]. change (json_ws dquote) with false. cbv iota. rewrite He. done.
Qed.
