(* ===== verification/ConfText.v ===== *)
(** Configuration text as lines: splitting and joining, comma-separated values, settings
    [key = value]. The text functions of [wireguard.js] and [agent.js] read a line only
    through its trimmed form, so a text is compared up to the white space around its
    lines ([trims_split_join]). *)

From S2P Require Import Prelude.
From S2P Require Import JsString.
From S2P Require Import JsRegex.

Local Open Scope Z_scope.

Definition nonempty (s : string) : bool := bool_decide (s <> "").

(** [s.split(",").map((x) => x.trim()).filter(Boolean)] *)
Definition csv_list (s : string) : list string := bfilter nonempty (trim <$> split_char "," s).

(** [lines.findIndex(p)], [-1] when there is none. *)
Fixpoint find_index {A} (p : A -> bool) (l : list A) : Z :=
  match l with
  | [] => -1
  | x :: l => if p x then 0 else let i := find_index p l in if i <? 0 then -1 else i + 1
  end.

(** [xs.splice(i, 0, ...new)] on a copy. *)
Definition splice {A} (i : Z) (new l : list A) : list A :=
  let n := Z.to_nat (if i <? 0 then Z.max 0 (Z.of_nat (length l) + i) else i) in
  take n l ++ new ++ drop n l.

(** [s.indexOf("=") < 0 ? s : s.slice(0, s.indexOf("="))] *)
Definition before_eq (s : string) : string :=
  match index_of "=" s with Some i => stake i s | None => s end.

(** [Number.parseInt(s, 10)], [None] for [NaN]. *)
Fixpoint leading_digits (s : string) : string :=
  match s with "" => "" | String c r => if is_digit c then String c (leading_digits r) else "" end.

Definition parse_int (s : string) : option Z :=
  let '(neg, r) := match trim_start s with
                   | String "-" r => (true, r)
                   | String "+" r => (false, r)
                   | r => (false, r)
                   end in
  let d := leading_digits r in
  if decide (d = "") then None else Some (if neg then - num_of_digits d else num_of_digits d).

(** * Trimming *)

Lemma trim_end_nil s : trim_end s = "" -> trim_start s = "".
Proof.
  induction s as [|c s IH]; [done|]. cbn [trim_end trim_start].
  destruct (is_space c); cbn [andb]; [|done]. case_bool_decide as Hd; [by intros _; apply IH|done].
Qed.

Lemma trim_start_nil s : trim_start s = "" -> trim_end s = "".
Proof.
  induction s as [|c s IH]; [done|]. cbn [trim_end trim_start].
  destruct (is_space c); [|done]. intros H. by rewrite IH.
Qed.

Lemma trim_comm s : trim s = trim_start (trim_end s).
Proof.
  unfold trim. induction s as [|c s IH]; [done|]. cbn [trim_start trim_end].
  destruct (is_space c) eqn:Hc; cbn [andb].
  - case_bool_decide as Hd.
    + rewrite (trim_end_nil _ Hd). done.
    + cbn [trim_start]. by rewrite Hc, IH.
  - cbn [trim_end trim_start andb]. by rewrite Hc.
Qed.

Lemma trim_end_idemp s : trim_end (trim_end s) = trim_end s.
Proof.
  induction s as [|c s IH]; [done|]. cbn [trim_end].
  destruct (is_space c && bool_decide (trim_end s = "")) eqn:Hb; [done|]. cbn [trim_end]. by rewrite IH, Hb.
Qed.

Lemma trim_start_idemp s : trim_start (trim_start s) = trim_start s.
Proof. induction s as [|c s IH]; [done|]. cbn [trim_start]. destruct (is_space c) eqn:Hc; [done|]. cbn [trim_start]. by rewrite Hc. Qed.

Lemma trim_idemp s : trim (trim s) = trim s.
Proof. rewrite (trim_comm (trim s)). unfold trim at 1. rewrite trim_end_idemp. change (trim_end (trim_start s)) with (trim s). rewrite trim_comm. apply trim_start_idemp. Qed.

Lemma trim_end_keep s c t : is_space c = false -> trim_end (s +:+ String c t) = s +:+ String c (trim_end t).
Proof.
  intros Hc. induction s as [|d s IH].
  - rewrite !sapp_nil_l. cbn [trim_end]. by rewrite Hc.
  - rewrite !sapp_String. cbn [trim_end]. rewrite IH. rewrite bool_decide_eq_false_2; [by rewrite andb_false_r|].
    by destruct s.
Qed.

Lemma trim_end_space s c : is_space c = true -> trim_end (s +:+ String c "") = trim_end s.
Proof.
  intros Hc. induction s as [|d s IH].
  - rewrite sapp_nil_l. cbn [trim_end]. by rewrite Hc.
  - rewrite sapp_String. cbn [trim_end]. by rewrite IH.
Qed.

Lemma trim_space_r s c : is_space c = true -> trim (s +:+ String c "") = trim s.
Proof. intros Hc. by rewrite !trim_comm, trim_end_space. Qed.

Lemma trim_space_l s c : is_space c = true -> trim (String c s) = trim s.
Proof. intros Hc. unfold trim. cbn [trim_start]. by rewrite Hc. Qed.

Lemma trim_of_trim_end s : trim (trim_end s) = trim s.
Proof. by rewrite !trim_comm, trim_end_idemp. Qed.

(** * Lines *)

Lemma split_lines_step x r : no_char nl x ->
  exists x', split_lines (x +:+ String nl r) = x' :: split_lines r /\ trim_end x' = trim_end x.
Proof.
  unfold no_char. induction x as [|c x IH]; intros Hx.
  - exists "". rewrite sapp_nil_l. cbn [split_lines]. by rewrite decide_True.
  - cbn [sall] in Hx. apply andb_true_iff in Hx as [Hc Hx]. rewrite sapp_String.
    assert (c <> nl) as Hnl by (intros ->; done).
    destruct (IH Hx) as (x' & Hs & Ht). destruct x as [|d x].
    + rewrite sapp_nil_l in *. cbn [split_lines]. rewrite decide_False by done.
      destruct (decide (c = cr /\ nl = nl)) as [[-> _]|Hcr]; [by exists ""|].
      exists (String c ""). by rewrite decide_True.
    + rewrite sapp_String in *. assert (d <> nl) as Hd by (cbn [sall] in Hx; intros ->; done).
      change (split_lines (String c (String d (x +:+ String nl r)))) with
        (if decide (c = nl) then "" :: split_lines (String d (x +:+ String nl r))
         else if decide (c = cr /\ d = nl) then "" :: split_lines (x +:+ String nl r)
              else match split_lines (String d (x +:+ String nl r)) with
                   | y :: ys => String c y :: ys | [] => [String c ""] end).
      rewrite decide_False by done. rewrite decide_False by (by intros [_ ?]). rewrite Hs.
      exists (String c x'). split; [done|]. cbn [trim_end]. cbn [trim_end] in Ht. by rewrite Ht.
Qed.

Lemma split_lines_no_nl x : no_char nl x -> split_lines x = [x].
Proof.
  unfold no_char. induction x as [|c x IH]; [done|]. cbn [sall]. rewrite andb_true_iff. intros [Hc Hx].
  assert (c <> nl) as Hnl by (intros ->; done). specialize (IH Hx). destruct x as [|d x].
  - cbn [split_lines]. by rewrite decide_False.
  - assert (d <> nl) as Hd by (cbn [sall] in Hx; intros ->; done).
    change (split_lines (String c (String d x))) with
      (if decide (c = nl) then "" :: split_lines (String d x)
       else if decide (c = cr /\ d = nl) then "" :: split_lines x
            else match split_lines (String d x) with
                 | y :: ys => String c y :: ys | [] => [String c ""] end).
    rewrite decide_False by done. rewrite decide_False by (by intros [_ ?]). by rewrite IH.
Qed.

Lemma trim_of_eq x y : trim_end x = trim_end y -> trim x = trim y.
Proof. intros H. by rewrite !trim_comm, H. Qed.

(** Joining lines and splitting the text again gives them back up to white space. *)
Lemma trims_split_join ls : ls <> [] -> Forall (no_char nl) ls ->
  trim <$> split_lines (join (String nl "") ls) = trim <$> ls.
Proof.
  intros Hne H. induction H as [|x ls Hx Hls IH]; [done|]. destruct ls as [|y ls].
  - cbn [join]. by rewrite split_lines_no_nl.
  - change (join (String nl "") (x :: y :: ls)) with (x +:+ String nl "" +:+ join (String nl "") (y :: ls)).
    rewrite sapp_String, sapp_nil_l. destruct (split_lines_step x (join (String nl "") (y :: ls)) Hx) as (x' & -> & Ht).
    rewrite !fmap_cons. rewrite IH by done. by rewrite (trim_of_eq _ _ Ht).
Qed.

Lemma split_lines_cons s : exists x xs, split_lines s = x :: xs.
Proof.
  destruct s as [|c s]; cbn [split_lines]; [eauto|]. destruct (decide _); [eauto|].
  destruct s as [|d s]; [eauto|]. destruct (decide _); [eauto|]. destruct (split_lines _); eauto.
Qed.

Lemma split_lines_no_nl_all s : Forall (no_char nl) (split_lines s).
Proof.
  assert (forall n s, (String.length s <= n)%nat -> Forall (no_char nl) (split_lines s)) as Hn.
  { clear s. intros n. induction n as [|n IH]; intros s Hlen.
    - destruct s; [|cbn in Hlen; lia]. by repeat constructor.
    - destruct s as [|c s]; [by repeat constructor|]. cbn [split_lines]. cbn in Hlen.
      destruct (decide (c = nl)) as [|Hc]; [constructor; [done|apply IH; lia]|].
      assert (is_char nl c = false) as Hic by (unfold is_char; by apply bool_decide_eq_false_2).
      destruct s as [|d s]; [constructor; [|done]; unfold no_char; cbn [sall]; by rewrite Hic|].
      destruct (decide (c = cr /\ d = nl)); [constructor; [done|apply IH; cbn in Hlen; lia]|].
      specialize (IH (String d s) ltac:(lia)). destruct (split_lines_cons (String d s)) as (y & ys & Hy). rewrite Hy in *.
      inversion_clear IH as [|?? Hhd Htl]. constructor; [|done]. unfold no_char in *. cbn [sall]. by rewrite Hic, Hhd. }
  by eapply Hn.
Qed.

(** Without carriage returns the lines are the pieces between the line feeds. *)
Lemma split_lines_char s : no_char cr s -> split_lines s = split_char nl s.
Proof.
  unfold no_char. induction s as [|c s IH]; [done|]. cbn [sall]. rewrite andb_true_iff. intros [Hc Hs].
  specialize (IH Hs). cbn [split_lines split_char]. rewrite IH.
  destruct (decide (c = nl)); [done|]. destruct s as [|d s]; [done|].
  rewrite decide_False by (intros [-> _]; done). done.
Qed.

Lemma join_split_lines s : no_char cr s -> join (String nl "") (split_lines s) = s.
Proof. intros H. rewrite split_lines_char by done. apply join_split. Qed.

Lemma split_lines_join ls : ls <> [] -> Forall (no_char nl) ls -> Forall (no_char cr) ls ->
  split_lines (join (String nl "") ls) = ls.
Proof.
  intros Hne Hn Hc. rewrite split_lines_char by (by apply no_char_join).
  induction Hn as [|x ls Hx Hls IH]; [done|]. destruct ls as [|y ls]; [by apply split_char_no|].
  change (join (String nl "") (x :: y :: ls)) with (x +:+ String nl (join (String nl "") (y :: ls))).
  inversion_clear Hc. rewrite split_char_app by done. by rewrite IH.
Qed.

Lemma split_lines_no_cr s : no_char cr s -> Forall (no_char cr) (split_lines s).
Proof.
  intros H. rewrite split_lines_char by done. apply Forall_forall. intros x Hx. by eapply sall_split.
Qed.

(** * Comma-separated values *)

(** A value that survives in a list: not empty, trimmed, without comma or line end. *)
Definition csv_token (s : string) : Prop := s <> "" /\ no_char "," s /\ no_char nl s /\ trim s = s.

Lemma csv_token_trim s : csv_token s -> trim s = s.
Proof. by intros (_ & _ & _ & ?). Qed.

Lemma csv_token_no_comma s : csv_token s -> no_char "," s.
Proof. by intros (_ & ? & _). Qed.

Lemma csv_token_no_nl s : csv_token s -> no_char nl s.
Proof. by intros (_ & _ & ? & _). Qed.

(** Words are values: no white space, no comma. *)
Lemma csv_token_word s : s <> "" -> sall (fun c => negb (is_space c) && negb (is_char "," c)) s = true -> csv_token s.
Proof.
  intros Hne Hs. split; [done|]. split_and!.
  - eapply sall_impl; [|exact Hs]. intros c Hc. by apply andb_true_iff in Hc as [_ ?].
  - eapply sall_impl; [|exact Hs]. intros c Hc. unfold is_char. apply negb_true_iff, bool_decide_eq_false. by intros ->.
  - apply trim_id. eapply sall_impl; [|exact Hs]. intros c Hc. by apply andb_true_iff in Hc as [? _].
Qed.

Lemma csv_trim_start s : csv_list (trim_start s) = csv_list s.
Proof.
  induction s as [|c s IH]; [done|]. cbn [trim_start]. destruct (is_space c) eqn:Hc; [|done]. rewrite IH.
  unfold csv_list. cbn [split_char]. rewrite decide_False by (by intros ->).
  destruct (split_char_cons "," s) as (y & ys & ->). rewrite !fmap_cons. by rewrite trim_space_l.
Qed.

Lemma split_trim_end sep s : is_space sep = false -> trim_end <$> split_char sep (trim_end s) = trim_end <$> split_char sep s.
Proof.
  intros Hsep. induction s as [|c s IH]; [done|]. cbn [trim_end split_char].
  destruct (is_space c && bool_decide (trim_end s = "")) eqn:Hb.
  - apply andb_true_iff in Hb as [Hc Hs%bool_decide_eq_true]. rewrite decide_False by (intros ->; congruence).
    rewrite Hs in IH. destruct (split_char_cons sep s) as (y & ys & Hy). rewrite Hy in *. destruct ys as [|? ?]; [|done].
    rewrite !fmap_cons in *. cbn in IH. injection IH as IH. cbn. rewrite <- IH. by rewrite Hc.
  - cbn [split_char]. destruct (decide (c = sep)) as [->|Hne]; [by rewrite !fmap_cons, IH|].
    destruct (split_char_cons sep s) as (y & ys & Hy), (split_char_cons sep (trim_end s)) as (y' & ys' & Hy').
    rewrite Hy, Hy' in *. rewrite !fmap_cons in *. injection IH as Hh Ht. cbn [trim_end]. by rewrite Ht, Hh.
Qed.

Lemma csv_trim_end s : csv_list (trim_end s) = csv_list s.
Proof.
  unfold csv_list. f_equal. pose proof (split_trim_end "," s eq_refl) as H.
  assert (forall l k : list string, trim_end <$> l = trim_end <$> k -> trim <$> l = trim <$> k) as Hf.
  { intros l. induction l as [|x l IH]; intros [|y k]; rewrite ?fmap_nil, ?fmap_cons; try done.
    intros [= Hx Hl]. by rewrite (trim_of_eq _ _ Hx), (IH k Hl). }
  by apply Hf.
Qed.

Lemma csv_trim s : csv_list (trim s) = csv_list s.
Proof. unfold trim. by rewrite csv_trim_end, csv_trim_start. Qed.

Lemma csv_list_cons x s : csv_token x -> csv_list (x +:+ String "," s) = x :: csv_list s.
Proof.
  intros Hx. unfold csv_list. rewrite split_char_app by (by apply csv_token_no_comma).
  rewrite fmap_cons, csv_token_trim by done. unfold bfilter. cbn [List.filter].
  unfold nonempty at 1. rewrite bool_decide_eq_true_2 by apply Hx. done.
Qed.

Lemma csv_list_one x : csv_token x -> csv_list x = [x].
Proof.
  intros Hx. unfold csv_list. rewrite split_char_no by (by apply csv_token_no_comma).
  rewrite fmap_cons, fmap_nil, csv_token_trim by done. unfold bfilter. cbn [List.filter].
  unfold nonempty. by rewrite bool_decide_eq_true_2 by apply Hx.
Qed.

Lemma csv_list_join l : Forall csv_token l -> csv_list (join ", " l) = l.
Proof.
  induction 1 as [|x l Hx Hl IH]; [done|]. destruct l as [|y l]; [by apply csv_list_one|].
  change (join ", " (x :: y :: l)) with (x +:+ String "," (String " " (join ", " (y :: l)))).
  rewrite csv_list_cons by done. rewrite <- csv_trim_start. cbn [trim_start].
  change (is_space " ") with true. cbv iota. by rewrite csv_trim_start, IH.
Qed.

Lemma csv_list_tokens s : no_char nl s -> Forall csv_token (csv_list s).
Proof.
  intros Hs. apply Forall_forall. intros x. unfold csv_list. rewrite elem_of_bfilter. unfold nonempty.
  rewrite bool_decide_eq_true. intros [(y & -> & Hy)%list_elem_of_fmap Hne]. split_and!; [done| | |apply trim_idemp].
  - apply sall_trim. by eapply split_char_parts.
  - apply sall_trim. by eapply sall_split.
Qed.

(** * Settings *)

(** A setting [key = value] read back: the text after the [=], up to white space. *)
Lemma after_eq_app k t : no_char "=" k -> after_eq (k +:+ String "=" t) = t.
Proof.
  intros Hk. assert (index_of "=" (k +:+ String "=" t) = Some (String.length k)) as Hi.
  { induction k as [|c k IH]; [done|]. rewrite sapp_String. unfold no_char in Hk. cbn [sall] in Hk.
    apply andb_true_iff in Hk as [Hc Hk]. cbn [index_of]. rewrite decide_False by (by intros ->). by rewrite IH. }
  unfold after_eq. rewrite Hi. clear. induction k as [|c k IH]; [done|]. exact IH.
Qed.

Lemma before_eq_app k t : no_char "=" k -> before_eq (k +:+ String "=" t) = k.
Proof.
  intros Hk. assert (index_of "=" (k +:+ String "=" t) = Some (String.length k)) as Hi.
  { induction k as [|c k IH]; [done|]. rewrite sapp_String. unfold no_char in Hk. cbn [sall] in Hk.
    apply andb_true_iff in Hk as [Hc Hk]. cbn [index_of]. rewrite decide_False by (by intros ->). by rewrite IH. }
  unfold before_eq. rewrite Hi. clear. induction k as [|c k IH]; [done|]. cbn [String.length stake]. by rewrite sapp_String, IH.
Qed.

(** The key of a setting the code writes. *)
Definition setting_key (k : string) : bool :=
  match k with String c _ => negb (is_space c) | "" => false end && sall (fun c => negb (is_char "=" c)) k.

Lemma trim_setting k v : setting_key k = true ->
  trim (k +:+ " = " +:+ v) = k +:+ " =" +:+ trim_end (" " +:+ v).
Proof.
  unfold setting_key. rewrite andb_true_iff. intros [Hc _]. destruct k as [|c k]; [done|].
  unfold trim. rewrite sapp_String. cbn [trim_start]. apply negb_true_iff in Hc. rewrite Hc.
  change (String c (k +:+ " = " +:+ v)) with ((String c k) +:+ " = " +:+ v).
  change (String c k +:+ " = " +:+ v) with (String c k +:+ " " +:+ String "=" (" " +:+ v)).
  rewrite <- sapp_assoc, trim_end_keep by done. by rewrite sapp_assoc.
Qed.

Lemma setting_value k v : setting_key k = true ->
  after_eq (trim (k +:+ " = " +:+ v)) = trim_end (" " +:+ v).
Proof.
  intros Hk. rewrite trim_setting by done. unfold setting_key in Hk. apply andb_true_iff in Hk as [_ Hk].
  change (k +:+ " =" +:+ trim_end (" " +:+ v)) with (k +:+ " " +:+ String "=" (trim_end (" " +:+ v))).
  rewrite <- sapp_assoc. apply after_eq_app. unfold no_char. rewrite sall_app, Hk. done.
Qed.

Lemma setting_csv k v : setting_key k = true -> csv_list (trim (after_eq (trim (k +:+ " = " +:+ v)))) = csv_list v.
Proof.
  intros Hk. rewrite setting_value by done. rewrite csv_trim, csv_trim_end, <- csv_trim_start.
  rewrite sapp_String, sapp_nil_l. cbn [trim_start]. change (is_space " ") with true. cbv iota. apply csv_trim_start.
Qed.

Lemma starts_with_app p s : starts_with p (p +:+ s) = true.
Proof.
  unfold starts_with. induction p as [|c p IH]; [by destruct s|]. rewrite sapp_String. cbn [String.prefix].
  destruct (ascii_dec c c); [exact IH|done].
Qed.

Lemma starts_with_split p s : starts_with p s = true -> exists t, s = p +:+ t.
Proof.
  unfold starts_with. revert s. induction p as [|c p IH]; intros s; [exists s; by rewrite sapp_nil_l|].
  destruct s as [|d s]; [done|]. cbn [String.prefix]. destruct (ascii_dec c d) as [<-|]; [|done].
  intros (t & ->)%IH. exists t. by rewrite sapp_String.
Qed.

Lemma starts_with_setting k v : setting_key k = true -> starts_with k (trim (k +:+ " = " +:+ v)) = true.
Proof. intros Hk. rewrite trim_setting by done. apply starts_with_app. Qed.

(** * Shell commands joined by [;] *)

(** Characters that end neither a shell command nor a line. *)
Definition plain (c : ascii) : bool := negb (is_char ";" c) && negb (is_char nl c) && negb (is_char cr c).

Lemma plain_app s t : sall plain (s +:+ t) = sall plain s && sall plain t.
Proof. apply sall_app. Qed.

Lemma plain_digits s : sall is_digit s = true -> sall plain s = true.
Proof. apply sall_impl_dec. vm_compute. reflexivity. Qed.

Lemma plain_showZ n : 0 <= n -> sall plain (showZ n) = true.
Proof. intros. by apply plain_digits, showZ_digits. Qed.

Lemma plain_no_char d s : negb (plain d) = true -> sall plain s = true -> no_char d s.
Proof.
  intros Hd. unfold no_char. apply sall_impl. intros c Hc. unfold is_char.
  apply negb_true_iff, bool_decide_eq_false. intros ->. by rewrite Hc in Hd.
Qed.

Lemma plain_join sep l : sall plain sep = true -> Forall (fun s => sall plain s = true) l -> sall plain (join sep l) = true.
Proof.
  intros Hsep. induction 1 as [|x l Hx Hl IH]; [done|]. destruct l as [|y l]; [done|].
  change (join sep (x :: y :: l)) with (x +:+ sep +:+ join sep (y :: l)). by rewrite !plain_app, Hx, Hsep, IH.
Qed.

Ltac plain := repeat first
  [ rewrite plain_app
  | match goal with H : sall plain ?s = true |- context [sall plain ?s] => rewrite H end ]; reflexivity.

Lemma plain_showZ_any n : sall plain (showZ n) = true.
Proof.
  destruct (Z.lt_ge_cases n 0) as [Hn|]; [|by apply plain_showZ].
  unfold showZ. rewrite (proj2 (Z.ltb_lt _ _) Hn).
  change (sall plain (show_pos (- n)) = true). apply plain_digits, show_pos_digits. lia.
Qed.

Lemma plain_no_nl s : sall plain s = true -> no_char nl s.
Proof. by apply plain_no_char. Qed.

(** The pieces the shell cuts a hook into at [;]. *)
Definition shell_parts (cmds : list string) : list string :=
  match cmds with [] => [""] | c :: cs => c :: ((fun c => " " +:+ c) <$> cs) end.

Lemma split_shell cmds : Forall (fun c => sall plain c = true) cmds ->
  split_char ";" (join "; " cmds) = shell_parts cmds.
Proof.
  induction 1 as [|c cs Hc Hcs IH]; [done|]. apply (plain_no_char ";") in Hc; [|done].
  destruct cs as [|d cs]; [by apply split_char_no|].
  change (join "; " (c :: d :: cs)) with (c +:+ String ";" (" " +:+ join "; " (d :: cs))).
  rewrite split_char_app by done. rewrite sapp_String, sapp_nil_l.
  transitivity (c :: match split_char ";" (join "; " (d :: cs)) with
                     | x :: xs => String " " x :: xs | [] => [" "] end); [reflexivity|].
  by rewrite IH.
Qed.
