(* ===== verification/IngressRules.v ===== *)
(** Per-agent ingress filtering: [backend/internal/agent-ingress-rules.js].

    Validation of the rules an administrator enters, the row mapping, the builder of the
    [FG_IN] chain, hit counters, coverage of upstreams, and the tunnel addresses of a
    WireGuard configuration. Lines of the chain are structured records [fg_line] that
    [render_line] prints; the specification side reads them as a first-match packet
    filter ([chain_verdict]). [sha256hex] stands for node:crypto's hash. *)

From S2P Require Import Prelude.
From S2P Require Import JsString.
From S2P Require Import JsRegex.
From S2P Require Import Cidr.
From S2P Require Import JsVal.
From S2P Require Import Json.

Local Open Scope Z_scope.

(** * Constants *)

Definition INGRESS_CHAIN : string := "FG_IN".
Definition INGRESS_MODES : list string := ["open"; "restricted"].
Definition INGRESS_PROTOS : list string := ["tcp"; "udp"].
Definition MAX_RULES_PER_AGENT : Z := 500.
Definition MAX_LIST : Z := 64.
Definition MAX_LINES_PER_RULE : Z := 256.
Definition MAX_LINES_TOTAL : Z := 4000.
Definition NAME_MAX : nat := 100.
Definition NOTE_MAX : nat := 255.
Definition MAX_SAFE_INTEGER : Z := 2 ^ 53 - 1.

Definition set_has (l : list string) (x : string) : bool := bool_decide (x ∈ l).

Definition isWgIface (name : string) : bool := re_test (RSeq (rlit "wg") D13) name.

Definition splitLinkId (s : string) : option (string * string) :=
  match index_of ":" s with
  | None => None
  | Some i => Some (stake i s, sdrop (S i) s)
  end.

Definition pubKey8 (pub : string) : string := stake 8 pub.

(** [JSON.parse]d arrays pass through, everything else gives the fallback. *)
Definition parseJsonArray (raw : jsval) (fallback : list jsval) : list jsval :=
  match raw with
  | VArr l => l
  | VStr s => if decide (s = "") then fallback
              else match json_parse s with Some (VArr l) => l | _ => fallback end
  | _ => fallback
  end.

(** * Errors: one constructor per [throw] *)

(** The text [echoValue] puts in a message, and whether it was clipped. *)
Definition echoValue (v : jsval) : string * bool :=
  let s := str_or "" v in (stake 64 s, bool_decide (64 < String.length s)%nat).

Inductive ingress_error : Type :=
| ListNotArray (field : string)
| ListTooLong (field : string)
| InvalidCidr (field : string) (echo : string * bool)
| ListEmpty (field : string)
| InvalidProto (echo : string * bool)
| InvalidPort (echo : string * bool)
| NameRequired
| TooManyRuleLines (lines : Z)
| TooManyTotalLines (lines : Z)
| InvalidMode
| InvalidWgInterface (iface : string)
| InvalidDirectInterface (iface : string)
| TooManyIngressRules
| RuleWithoutId
| BadCidr (rule : Z)
| BadPort (rule : Z)
| TooManyIngressLines.

#[export] Instance ingress_error_eq_dec : EqDecision ingress_error.
Proof. solve_decision. Defined.

Notation res := (result ingress_error).

(** * Rules *)

Record port_spec := Port { p_proto : string; p_port : string }.

#[export] Instance port_spec_eq_dec : EqDecision port_spec.
Proof. solve_decision. Defined.

(** A rule as [rowToRule] returns it, read at the types the sanitizers store. *)
Record rule := Rule {
  r_id : Z;
  r_name : string;
  r_sources : list string;
  r_destinations : list string;
  r_ports : list port_spec;
  r_enabled : bool;
  r_note : option string;
  r_hit_packets : Z;
  r_last_hit_at : option Z;
  r_armed_on : option Z }.

(** The sanitized (possibly partial) patch; [None] is a field left out. *)
Record rule_patch := RulePatch {
  rp_name : option string;
  rp_sources : option (list string);
  rp_destinations : option (list string);
  rp_ports : option (list port_spec);
  rp_enabled : option bool;
  rp_note : option (option string) }.

(** * Validation *)

(** The loop shared by the list sanitizers: every entry is read, entries already
    present are dropped. *)
Definition push_new {A} `{EqDecision A} (out : list A) (x : A) : list A :=
  if decide (x ∈ out) then out else out ++ [x].

Definition sanitizeCidrList (input : jsval) (field : string) (allowEmpty : bool) : res (list string) :=
  let value := if is_nullish input then VArr [] else input in
  match as_array value with
  | None => Throw (ListNotArray field)
  | Some l =>
      throw_if (MAX_LIST <? Z.of_nat (length l)) (ListTooLong field);;
      out ← foldM (fun out raw =>
               match canonicalCidr (str_or "" raw) with
               | None => Throw (InvalidCidr field (echoValue raw))
               | Some c => Ok (push_new out c)
               end) [] l;
      throw_if (negb allowEmpty && bool_decide (out = [])) (ListEmpty field);;
      Ok out
  end.

(** [/^(\d{1,5})(?:[:-](\d{1,5}))?$/.exec(s)] *)
Definition is_15 (s : string) : bool := re_test (rrep 1 4 rdigit) s.

Definition port_exec (s : string) : option (Z * option Z) :=
  let '(a, rest) := take_digits s in
  if is_15 a then
    match rest with
    | "" => Some (num_of_digits a, None)
    | String c b =>
        if one_of [":"; "-"]%char c && is_15 b
        then Some (num_of_digits a, Some (num_of_digits b)) else None
    end
  else None.

Definition sanitizePort (raw : jsval) : res port_spec :=
  let proto := to_lower (str_or "tcp" (vget raw "proto")) in
  throw_if (negb (set_has INGRESS_PROTOS proto)) (InvalidProto (echoValue (VStr proto)));;
  let portStr := trim (str_or "" (vget raw "port")) in
  match port_exec portStr with
  | None => Throw (InvalidPort (echoValue (VStr portStr)))
  | Some (from, t) =>
      let to := default from t in
      throw_if ((from <? 1) || (65535 <? to) || (to <? from)) (InvalidPort (echoValue (VStr portStr)));;
      Ok (Port proto (if from =? to then showZ from else showZ from +:+ ":" +:+ showZ to))
  end.

Definition sanitizePorts (value : jsval) : res (list port_spec) :=
  if is_nullish value then Ok []
  else match as_array value with
  | None => Throw (ListNotArray "ports")
  | Some l =>
      throw_if (MAX_LIST <? Z.of_nat (length l)) (ListTooLong "ports");;
      foldM (fun out raw => p ← sanitizePort raw; Ok (push_new out p)) [] l
  end.

Definition cleanText (value : jsval) (max : nat) : string :=
  stake max (trim (smap (fun c => if is_control c then " " else String c "") (str_or "" value))).

(** [Math.max(1, list.length)] *)
Definition n_or_1 {A} (l : list A) : Z := Z.max 1 (Z.of_nat (length l)).

Definition lineCount (sources destinations : list string) (ports : list port_spec) : Z :=
  Z.of_nat (length sources) * n_or_1 destinations * n_or_1 ports.

Definition ruleLineCount (r : rule) : Z := lineCount (r_sources r) (r_destinations r) (r_ports r).

Definition patchLineCount (p : rule_patch) : Z :=
  lineCount (default [] (rp_sources p)) (default [] (rp_destinations p)) (default [] (rp_ports p)).

Definition assertRuleLineCount (lines : Z) : res unit :=
  throw_if (MAX_LINES_PER_RULE <? lines) (TooManyRuleLines lines).

Definition assertTotalLineCount (rules : list rule) (ifaceCount : Z) : res unit :=
  let total := foldl (fun n r => n + ruleLineCount r) 0 (bfilter r_enabled rules) * Z.max 1 ifaceCount in
  throw_if (MAX_LINES_TOTAL <? total) (TooManyTotalLines total).

(** [if (!partial || typeof d.f !== "undefined") out.f = ...] *)
Definition field_of {A} (partial : bool) (v : jsval) (m : res A) : res (option A) :=
  if negb partial || negb (is_undef v) then Some <$> m else Ok None.

Definition sanitizeEnabled (v : jsval) : bool :=
  if is_undef v then true
  else truthy v && negb (match v with VStr s => bool_decide (s = "false") | _ => false end).

Definition sanitizeIngressRule (data : jsval) (partial : bool) : res rule_patch :=
  name ← field_of partial (vget data "name")
    (let name := cleanText (vget data "name") NAME_MAX in
     throw_if (bool_decide (name = "")) NameRequired;; Ok name);
  sources ← field_of partial (vget data "sources") (sanitizeCidrList (vget data "sources") "sources" false);
  destinations ← field_of partial (vget data "destinations")
    (sanitizeCidrList (vget data "destinations") "destinations" true);
  ports ← field_of partial (vget data "ports") (sanitizePorts (vget data "ports"));
  enabled ← field_of partial (vget data "enabled") (Ok (sanitizeEnabled (vget data "enabled")));
  note ← field_of partial (vget data "note")
    (let n := cleanText (vget data "note") NOTE_MAX in Ok (if decide (n = "") then None else Some n));
  let out := RulePatch name sources destinations ports enabled note in
  (if partial then Ok tt else assertRuleLineCount (patchLineCount out));;
  Ok out.

Definition sanitizeIngressMode (mode : jsval) : res string :=
  let m := trim (str_or "" mode) in
  throw_if (negb (set_has INGRESS_MODES m)) InvalidMode;; Ok m.

(** * Rows *)

(** A database row; the JSON columns are read by [parseJsonArray]. *)
Record rule_row := RuleRow {
  row_id : Z;
  row_name : string;
  row_sources : jsval;
  row_destinations : jsval;
  row_ports : jsval;
  row_enabled : jsval;
  row_note : option string;
  row_hit_packets : jsval;
  row_last_hit_at : jsval;
  row_armed_on : jsval }.

Definition port_of_val (v : jsval) : port_spec :=
  Port (match vget v "proto" with VStr s => s | _ => "" end) (to_string (vget v "port")).

(** [x ? Number(x) : null] of an integer column. *)
Definition num_or_none (v : jsval) : option Z := if truthy v then num_int (to_number v) else None.

Definition rowToRule (row : rule_row) : rule :=
  Rule (row_id row) (row_name row)
    (to_string <$> parseJsonArray (row_sources row) [])
    (to_string <$> parseJsonArray (row_destinations row) [])
    (port_of_val <$> parseJsonArray (row_ports row) [])
    (truthy (row_enabled row)) (row_note row)
    (default 0 (num_or_none (row_hit_packets row)))
    (num_or_none (row_last_hit_at row)) (num_or_none (row_armed_on row)).

(** * Re-arming *)

Definition listKey (l : list string) : string := json_strings (sort_strings l).
Definition port_key (p : port_spec) : string := p_proto p +:+ "/" +:+ p_port p.

(** Whether the patch changes one list of the rule. *)
Definition list_changed (clean : option (list string)) (existing : list string) : bool :=
  match clean with
  | None => false
  | Some l => negb (bool_decide (listKey l = listKey existing))
  end.

Definition targetsChanged (existing : rule) (clean : rule_patch) : bool :=
  list_changed (rp_sources clean) (r_sources existing) ||
  list_changed (rp_destinations clean) (r_destinations existing) ||
  list_changed (option_map (map port_key) (rp_ports clean)) (map port_key (r_ports existing)).

Definition armedOnPatch (existing : rule) (clean : rule_patch) (now : Z) : option Z :=
  let switchedOn := bool_decide (rp_enabled clean = Some true) && negb (r_enabled existing) in
  if switchedOn || targetsChanged existing clean then Some now else None.

(** * The chain *)

Inductive target := ACCEPT | RETURN.

#[export] Instance target_eq_dec : EqDecision target.
Proof. solve_decision. Defined.

Inductive fg_line : Type :=
| LEstablished (t : target)
| LRule (src : string) (dst : option string) (iface : string) (port : option port_spec) (id : Z) (t : target)
| LDrop (iface : string).

#[export] Instance fg_line_eq_dec : EqDecision fg_line.
Proof. solve_decision. Defined.

Definition render_target (t : target) : string := match t with ACCEPT => "ACCEPT" | RETURN => "RETURN" end.

Definition quoted (s : string) : string := String dquote (s +:+ String dquote "").

Definition render_line (l : fg_line) : string :=
  match l with
  | LEstablished t =>
      "-A FG_IN -m conntrack --ctstate RELATED,ESTABLISHED -j " +:+ render_target t
  | LRule src dst iface port id t =>
      "-A FG_IN -s " +:+ src +:+
      match dst with Some d => " -d " +:+ d | None => "" end +:+
      " -i " +:+ iface +:+
      match port with
      | Some p => " -p " +:+ p_proto p +:+ " -m " +:+ p_proto p +:+ " --dport " +:+ p_port p
      | None => ""
      end +:+
      " -m comment --comment " +:+ quoted ("fg:" +:+ showZ id) +:+ " -j " +:+ render_target t
  | LDrop iface => "-A FG_IN -i " +:+ iface +:+ " -j DROP"
  end.

Record alias := Alias { al_iface : string; al_hub : string; al_direct : string }.

Record agent := Agent {
  ingress_mode : string;
  a_iface : string;
  directIfaces : list string;
  directAliases : list alias }.

Record built := Built { b_lines : list fg_line; b_text : string; b_hash : string; b_ruleCount : Z }.

Definition FGD_RE : re := RSeq (rlit "fgd") (rrep 1 3 rdigit).
Definition RULE_PORT_RE : re :=
  RSeq (rrep 1 4 rdigit) (ropt (RSeq (RChar (is_char ":")) (rrep 1 4 rdigit))).

Definition port_ok (p : port_spec) : bool :=
  set_has INGRESS_PROTOS (p_proto p) && re_test RULE_PORT_RE (p_port p).

(** [xs.length ? xs : [null]] *)
Definition or_any {A} (l : list A) : list (option A) :=
  match l with [] => [None] | _ => Some <$> l end.

(** [lines.push(l); ruleCount++; if (ruleCount > MAX_LINES_TOTAL) throw] *)
Definition emit (ls : list fg_line) (l : fg_line) : res (list fg_line) :=
  throw_if (MAX_LINES_TOTAL <? Z.of_nat (S (length ls))) TooManyIngressLines;; Ok (ls ++ [l]).

Definition cidr32 (a : string) : string := a +:+ "/32".

(** The two inner loops for one source, destination and port. *)
Definition emit_ifaces (id : Z) (t : target) (ifaces : list string)
    (src : string) (dst : option string) (p : option port_spec) (ls : list fg_line) : res (list fg_line) :=
  foldM (fun ls i =>
    throw_if (match p with Some p => negb (port_ok p) | None => false end) (BadPort id);;
    emit ls (LRule src dst i p id t)) ls ifaces.

Definition alias_applies (direct : list string) (src : string) (al : alias) : bool :=
  bool_decide (al_iface al ∈ direct) &&
  cidrContains src (cidr32 (al_hub al)) && negb (cidrContains src (cidr32 (al_direct al))).

Definition emit_aliases (id : Z) (t : target) (direct : list string) (aliases : list alias)
    (src : string) (dst : option string) (p : option port_spec) (ls : list fg_line) : res (list fg_line) :=
  foldM (fun ls al =>
    if alias_applies direct src al
    then emit ls (LRule (cidr32 (al_direct al)) dst (al_iface al) p id t)
    else Ok ls) ls aliases.

(** The body of [for (const rule of active)]. *)
Definition emit_rule (ag : agent) (t : target) (ls : list fg_line) (r : rule) : res (list fg_line) :=
  throw_if (r_id r <? 1) RuleWithoutId;;
  match mapM canonicalCidr (r_sources r), mapM canonicalCidr (r_destinations r) with
  | Some (s :: ss), Some destList =>
      foldM (fun ls src =>
        foldM (fun ls dst =>
          foldM (fun ls p =>
            ls ← emit_ifaces (r_id r) t (a_iface ag :: directIfaces ag) src dst p ls;
            emit_aliases (r_id r) t (directIfaces ag) (directAliases ag) src dst p ls)
          ls (or_any (r_ports r))) ls (or_any destList)) ls (s :: ss)
  | _, _ => Throw (BadCidr (r_id r))
  end.

Definition id_le (a b : rule) : Prop := r_id a <= r_id b.
#[export] Instance id_le_dec a b : Decision (id_le a b).
Proof. unfold id_le. apply _. Defined.

Section build.
  Variable sha256hex : string -> string.

Definition buildIngressRestore (ag : agent) (rules : list rule) : res (option built) :=
  let mode := if set_has INGRESS_MODES (ingress_mode ag) then ingress_mode ag else "open" in
  let active := merge_sort id_le (bfilter r_enabled rules) in
  if bool_decide (mode = "open" /\ active = []) then Ok None
  else
    throw_if (negb (isWgIface (a_iface ag))) (InvalidWgInterface (a_iface ag));;
    match bfind (fun d => negb (re_test FGD_RE d)) (directIfaces ag) with
    | Some d => Throw (InvalidDirectInterface d)
    | None =>
        throw_if (MAX_RULES_PER_AGENT <? Z.of_nat (length active)) TooManyIngressRules;;
        let restricted := bool_decide (mode = "restricted") in
        let t := if restricted then ACCEPT else RETURN in
        ruleLines ← foldM (emit_rule ag t) [] active;
        let drops := if restricted then LDrop <$> (a_iface ag :: directIfaces ag) else [] in
        let chain := LEstablished t :: ruleLines ++ drops in
        let lines := ["*filter"; ":FG_IN - [0:0]"] ++ (render_line <$> chain) ++ ["COMMIT"] in
        let text := join (String nl "") lines +:+ String nl "" in
        Ok (Some (Built chain text (sha256hex text) (Z.of_nat (length ruleLines))))
    end.

End build.

(** * Counters *)

(** [Object.entries]: array-index keys in ascending order, then the others in insertion order. *)
Definition is_index_key (k : string) : bool :=
  sall is_digit k && bool_decide (k = showZ (num_of_digits k)) && (num_of_digits k <? 2 ^ 32 - 1).
Definition key_le (a b : string * jsval) : Prop := num_of_digits a.1 <= num_of_digits b.1.
#[export] Instance key_le_dec a b : Decision (key_le a b).
Proof. unfold key_le. apply _. Defined.
Definition obj_entries (l : list (string * jsval)) : list (string * jsval) :=
  merge_sort key_le (bfilter (fun kv => is_index_key kv.1) l) ++
  bfilter (fun kv => negb (is_index_key kv.1)) l.

Definition counter_entry (out : list (Z * Z)) (kv : string * jsval) : list (Z * Z) :=
  match num_int (string_to_num kv.1), to_number kv.2 with
  | Some id, NFin m k =>
      if (id <? 1) || (m <? 0) then out
      else mset id (Z.min (num_floor m k) MAX_SAFE_INTEGER) out
  | _, _ => out
  end.

Definition sanitizeIngressCounters (value : jsval) : list (Z * Z) :=
  match value with
  | VObj l => fold_left counter_entry (take (Z.to_nat MAX_RULES_PER_AGENT) (obj_entries l)) []
  | _ => []
  end.

(** [last_hit_at || null] of an integer. *)
Definition or_none (x : option Z) : option Z :=
  match x with Some z => if z =? 0 then None else Some z | None => None end.

Definition nextHitState (hit_packets : Z) (last_hit_at : option Z) (packets now : Z) : Z * option Z :=
  let prev := hit_packets in
  let delta := if prev <=? packets then packets - prev else packets in
  (packets, if 0 <? delta then Some now else or_none last_hit_at).

(** * Coverage *)

(** One port entry against a port number. *)
Definition port_covers (p : port_spec) (port : Z) : bool :=
  match split_char ":" (p_port p) with
  | [a] => (num_of_digits a <=? port) && (port <=? num_of_digits a)
  | a :: b :: _ => (num_of_digits a <=? port) && (port <=? num_of_digits b)
  | [] => false
  end.

Definition ruleCovers (r : rule) (src dst : string) (port : option Z) (proto : string) : bool :=
  if negb (r_enabled r) then false
  else if negb (existsb (fun s => cidrContains s src) (r_sources r)) then false
  else if bool_decide (r_destinations r <> []) && negb (existsb (fun d => cidrContains d dst) (r_destinations r))
  then false
  else if decide (r_ports r = []) then true
  else match port with
  | None => false
  | Some port => existsb (fun p => bool_decide (p_proto p = proto) && port_covers p port) (r_ports r)
  end.

Definition isHubSourced (r : rule) (hubSrcs : list string) : bool :=
  bool_decide (r_sources r <> []) &&
  forallb (fun s => existsb (fun h => cidrContains h s) hubSrcs) (r_sources r).

(** An upstream [{host, port, proto, source}]; empty texts are the falsy values. *)
Record upstream := Upstream { u_host : string; u_port : option Z; u_proto : string; u_source : string }.

Definition upstreamCovered (u : upstream) (rules : list rule) (hubHosts : list string) : bool :=
  let srcs := if decide (u_source u = "") then hubHosts else [u_source u] in
  existsb (fun src => existsb (fun r =>
    ruleCovers r src (u_host u) (u_port u) (if decide (u_proto u = "") then "tcp" else u_proto u)) rules) srcs.

(** * Tunnel addresses *)

Definition is_newline (c : ascii) : bool := one_of [nl; cr] c.

(** [prefix] of [s] ignoring case, and what follows. *)
Fixpoint strip_ci (pre s : string) : option string :=
  match pre, s with
  | "", _ => Some s
  | String a pre, String b s => if decide (a = lower_char b) then strip_ci pre s else None
  | _, _ => None
  end.

Fixpoint line_of (s : string) : string * string :=
  match s with
  | "" => ("", "")
  | String c r => if is_newline c then ("", s) else let '(a, b) := line_of r in (String c a, b)
  end.

(** [text.matchAll(/^\s*Address\s*=\s*(.+)$/gim)]: the captures, from the start of a line.
    White space may span lines, so the scan works on the text and not line by line. *)
Fixpoint address_values (fuel : nat) (s : string) : list string :=
  match fuel with
  | O => []
  | S fuel =>
      match trim_start s with
      | "" => []
      | s =>
          match strip_ci "address" s with
          | Some r =>
              match trim_start r with
              | String "=" v =>
                  let '(l, rest) := line_of (trim_start v) in l :: address_values fuel rest
              | _ => address_values fuel (line_of s).2
              end
          | None => address_values fuel (line_of s).2
          end
      end
  end.

Definition nonempty (s : string) : bool := bool_decide (s <> "").

Definition tunnelAddressEntries (confText : string) : list string :=
  v ← address_values (S (String.length confText)) confText;
  bfilter nonempty (trim <$> split_char "," v).

Definition hubTunnelHosts (confText : string) : list string :=
  p ← tunnelAddressEntries confText;
  match ipToInt (cidr_addr p) with
  | Some _ => [cidr32 (cidr_addr p)]
  | None => []
  end.

Definition hostIp (cidr : string) : string :=
  if ends_with "/32" cidr then stake (String.length cidr - 3) cidr else cidr.

(** * The lines one rule expands to *)

Definition iface_lines (ag : agent) (t : target) (id : Z) (src : string) (dst : option string)
    (p : option port_spec) : list fg_line :=
  ((fun i => LRule src dst i p id t) <$> a_iface ag :: directIfaces ag) ++
  ((fun al => LRule (cidr32 (al_direct al)) dst (al_iface al) p id t) <$>
     bfilter (alias_applies (directIfaces ag) src) (directAliases ag)).

Definition rule_lines (ag : agent) (t : target) (r : rule) : list fg_line :=
  src ← default [] (mapM canonicalCidr (r_sources r));
  dst ← or_any (default [] (mapM canonicalCidr (r_destinations r)));
  p ← or_any (r_ports r);
  iface_lines ag t (r_id r) src dst p.

(** What the builder demands of a rule. *)
Definition rule_ok (r : rule) : Prop :=
  1 <= r_id r /\ r_sources r <> [] /\ is_Some (mapM canonicalCidr (r_sources r)) /\
  is_Some (mapM canonicalCidr (r_destinations r)) /\ Forall (fun p => port_ok p = true) (r_ports r).

(** A loop body that appends [g x] when [c x] holds and the cap allows it, and throws otherwise. *)
Definition appends {A} (c : A -> Prop) (g : A -> list fg_line) (f : list fg_line -> A -> res (list fg_line)) : Prop :=
  forall ls x ls', Z.of_nat (length ls) <= MAX_LINES_TOTAL ->
    f ls x = Ok ls' <-> ls' = ls ++ g x /\ c x /\ Z.of_nat (length ls') <= MAX_LINES_TOTAL.

Lemma appends_foldM {A} c g f (l : list A) : appends c g f ->
  appends (fun _ : unit => Forall c l) (fun _ => l ≫= g) (fun ls _ => foldM f ls l).
Proof.
  intros Hf ls [] ls'. revert ls ls'. induction l as [|x l IH]; intros ls ls' Hls; csimpl.
  - rewrite app_nil_r. split; [intros [= ->]; split_and!; [done|constructor|done]|naive_solver].
  - rewrite bind_Ok. split.
    + intros (ls1 & Hx & Hl). apply Hf in Hx as (-> & Hc & Hl1); [|done].
      apply IH in Hl as (-> & Hcl & Hl2); [|done]. rewrite <- app_assoc in *.
      split_and!; [done|by constructor|done].
    + intros (-> & Hc & Hl). apply Forall_cons in Hc as [Hx Hc]. exists (ls ++ g x).
      rewrite app_assoc in Hl.
      assert (Z.of_nat (length (ls ++ g x)) <= MAX_LINES_TOTAL) by (rewrite length_app in Hl; lia).
      split; [apply Hf; done|]. apply IH; [done|]. by rewrite app_assoc.
Qed.

Lemma emit_Ok ls l ls' : emit ls l = Ok ls' <-> ls' = ls ++ [l] /\ Z.of_nat (length ls') <= MAX_LINES_TOTAL.
Proof.
  unfold emit. rewrite bind_Ok. split.
  - intros (u & Hu & [= <-]). apply throw_if_Ok, Z.ltb_ge in Hu. rewrite length_app. simpl. split; [done|lia].
  - intros [-> Hl]. rewrite length_app in Hl. simpl in Hl. exists tt. split; [|done].
    apply throw_if_Ok, Z.ltb_ge. lia.
Qed.

Definition port_cond (p : option port_spec) : Prop :=
  match p with Some p => port_ok p = true | None => True end.

Lemma list_bind_singleton {A B} (f : A -> B) l : l ≫= (fun x => [f x]) = f <$> l.
Proof. induction l as [|x l IH]; [done|]. csimpl. by rewrite <- IH. Qed.

Lemma list_bind_bfilter {A B} (p : A -> bool) (f : A -> B) l :
  l ≫= (fun x => if p x then [f x] else []) = f <$> bfilter p l.
Proof. induction l as [|x l IH]; [done|]. csimpl. destruct (p x); csimpl; by rewrite IH. Qed.

Lemma emit_ports_appends ag t id src dst :
  appends port_cond (iface_lines ag t id src dst)
    (fun ls p => ls ← emit_ifaces id t (a_iface ag :: directIfaces ag) src dst p ls;
                 emit_aliases id t (directIfaces ag) (directAliases ag) src dst p ls).
Proof.
  intros ls p ls' Hls.
  assert (appends (fun _ : string => port_cond p) (fun i => [LRule src dst i p id t])
    (fun ls i => throw_if (match p with Some p => negb (port_ok p) | None => false end) (BadPort id);;
                 emit ls (LRule src dst i p id t))) as Hi.
  { intros k i k' _. cbv beta. rewrite bind_Ok. setoid_rewrite throw_if_Ok. setoid_rewrite emit_Ok.
    unfold port_cond. destruct p as [p|]; [destruct (port_ok p)|]; simpl;
      (split; [intros (? & ? & ? & ?); try done | intros (? & ? & ?); try done; exists tt; done]). }
  assert (appends (fun _ : alias => True)
    (fun al => if alias_applies (directIfaces ag) src al
               then [LRule (cidr32 (al_direct al)) dst (al_iface al) p id t] else [])
    (fun ls al => if alias_applies (directIfaces ag) src al
       then emit ls (LRule (cidr32 (al_direct al)) dst (al_iface al) p id t) else Ok ls)) as Ha.
  { intros k al k' Hk. cbv beta. destruct (alias_applies _ _ _).
    - rewrite emit_Ok. naive_solver.
    - rewrite app_nil_r. split; [intros [= ->]; done|naive_solver]. }
  apply (appends_foldM _ _ _ (a_iface ag :: directIfaces ag)) in Hi.
  apply (appends_foldM _ _ _ (directAliases ag)) in Ha.
  unfold emit_ifaces, emit_aliases, iface_lines. rewrite bind_Ok.
  rewrite <- list_bind_singleton, <- list_bind_bfilter. split.
  - intros (k & H1 & H2). apply (Hi ls tt k) in H1 as (-> & Hc & Hl1); [|done].
    apply (Ha _ tt) in H2 as (-> & _ & Hl2); [|done]. rewrite app_assoc.
    split_and!; [done| |done]. by apply Forall_cons in Hc as [? _].
  - intros (-> & Hc & Hl). rewrite app_assoc in Hl |- *. eexists. split.
    + apply (Hi ls tt); [done|]. split_and!; [done|by apply Forall_true|].
      rewrite length_app in Hl. lia.
    + apply (Ha _ tt); [rewrite length_app in Hl; lia|]. split_and!; [done|by apply Forall_true|done].
Qed.

Lemma appends_iff {A} (c c' : A -> Prop) g f :
  (forall x, c x <-> c' x) -> appends c g f -> appends c' g f.
Proof. intros Hc Hf ls x ls' Hl. rewrite (Hf ls x ls' Hl), (Hc x). done. Qed.

Lemma Forall_const {A} (P : Prop) (l : list A) : l <> [] -> Forall (fun _ => P) l <-> P.
Proof.
  intros Hl. split; [|intros; by apply Forall_true]. destruct l; [done|]. by intros [? _]%Forall_cons.
Qed.

Lemma or_any_ne {A} (l : list A) : or_any l <> [].
Proof. by destruct l. Qed.

Lemma port_cond_or_any l : Forall port_cond (or_any l) <-> Forall (fun p => port_ok p = true) l.
Proof.
  destruct l as [|p l]; [split; constructor; done|]. unfold or_any.
  rewrite Forall_fmap. done.
Qed.

Lemma emit_rule_appends ag t : appends rule_ok (rule_lines ag t) (emit_rule ag t).
Proof.
  intros ls r ls' Hls. unfold emit_rule, rule_lines, rule_ok. rewrite bind_Ok.
  setoid_rewrite throw_if_Ok. rewrite <- port_cond_or_any.
  destruct (mapM canonicalCidr (r_sources r)) as [ss|] eqn:Hss; [|split; [intros (? & ? & ?); done|intros (_ & (_ & _ & [? [=]] & _) & _)]].
  assert (r_sources r <> [] <-> ss <> []) as Hne.
  { destruct (r_sources r); simpl in Hss; [by injection Hss as <-|].
    apply bind_Some in Hss as (? & _ & (? & _ & [= <-])%bind_Some). done. }
  rewrite Hne. destruct ss as [|s ss]; [split; [intros (? & ? & ?); done|intros (_ & (_ & ? & _) & _); done]|].
  destruct (mapM canonicalCidr (r_destinations r)) as [dl|];
    [|split; [intros (? & ? & ?); done|intros (_ & (_ & _ & _ & [? [=]] & _) & _)]].
  pose proof (appends_foldM _ _ _ (s :: ss)
    (fun ls src ls' Hl => appends_foldM _ _ _ (or_any dl)
      (fun ls dst ls' Hl => appends_foldM _ _ _ (or_any (r_ports r))
        (emit_ports_appends ag t (r_id r) src dst) ls tt ls' Hl) ls tt ls' Hl) ls tt ls' Hls) as H.
  cbv beta in H.
  rewrite (Forall_const (Forall (fun _ => Forall port_cond (or_any (r_ports r))) (or_any dl)) (s :: ss)) in H by done.
  rewrite (Forall_const (Forall port_cond (or_any (r_ports r))) (or_any dl)) in H by apply or_any_ne.
  split.
  - intros ([] & Hid%Z.ltb_ge & Hf). apply H in Hf as (-> & Hp & Hl). split_and!; eauto.
  - intros (-> & (Hid & _ & _ & _ & Hp) & Hl). exists tt. split; [by apply Z.ltb_ge|].
    apply H. done.
Qed.

Lemma emit_rules_Ok ag t l ls :
  foldM (emit_rule ag t) [] l = Ok ls <->
  ls = (l ≫= rule_lines ag t) /\ Forall rule_ok l /\ Z.of_nat (length ls) <= MAX_LINES_TOTAL.
Proof. apply (appends_foldM _ _ _ l (emit_rule_appends ag t) [] tt ls). done. Qed.

(** * The chain as a packet filter *)

Record packet := Packet {
  pk_src : Z; pk_dst : Z; pk_iface : string; pk_proto : string; pk_dport : Z; pk_established : bool }.

Inductive verdict := VAccept | VDrop | VReturn.

#[export] Instance verdict_eq_dec : EqDecision verdict.
Proof. solve_decision. Defined.

Definition opt_matches {A} (f : A -> bool) (o : option A) : bool :=
  match o with Some x => f x | None => true end.

Definition port_matches (pk : packet) (p : port_spec) : bool :=
  bool_decide (p_proto p = pk_proto pk) && port_covers p (pk_dport pk).

Definition line_matches (pk : packet) (l : fg_line) : bool :=
  match l with
  | LEstablished _ => pk_established pk
  | LRule src dst i p _ _ =>
      in_cidrb (pk_src pk) src && opt_matches (in_cidrb (pk_dst pk)) dst &&
      bool_decide (pk_iface pk = i) && opt_matches (port_matches pk) p
  | LDrop i => bool_decide (pk_iface pk = i)
  end.

Definition target_verdict (t : target) : verdict := match t with ACCEPT => VAccept | RETURN => VReturn end.

Definition line_verdict (l : fg_line) : verdict :=
  match l with
  | LEstablished t | LRule _ _ _ _ _ t => target_verdict t
  | LDrop _ => VDrop
  end.

(** First match wins; the end of the chain returns to the calling chain. *)
Fixpoint chain_verdict (ls : list fg_line) (pk : packet) : verdict :=
  match ls with
  | [] => VReturn
  | l :: ls => if line_matches pk l then line_verdict l else chain_verdict ls pk
  end.

Lemma chain_verdict_app ls ks pk :
  chain_verdict (ls ++ ks) pk =
  if existsb (line_matches pk) ls then chain_verdict ls pk else chain_verdict ks pk.
Proof. induction ls as [|l ls IH]; simpl; [done|]. by destruct (line_matches pk l). Qed.

Lemma chain_verdict_same ls pk v : (forall l, l ∈ ls -> line_verdict l = v) ->
  existsb (line_matches pk) ls = true -> chain_verdict ls pk = v.
Proof.
  induction ls as [|l ls IH]; simpl; [done|]. intros Hv.
  destruct (line_matches pk l); simpl; [|intros; apply IH; set_solver]. intros _. apply Hv. by left.
Qed.

(** Destinations and ports of a rule against a packet. *)
Definition dp_covers (r : rule) (pk : packet) : bool :=
  (bool_decide (r_destinations r = []) || existsb (in_cidrb (pk_dst pk)) (r_destinations r)) &&
  (bool_decide (r_ports r = []) || existsb (port_matches pk) (r_ports r)).

Lemma ruleCovers_packet r src pk : is_addr (pk_dst pk) ->
  ruleCovers r src (host32 (pk_dst pk)) (Some (pk_dport pk)) (pk_proto pk) =
  r_enabled r && existsb (fun s => cidrContains s src) (r_sources r) && dp_covers r pk.
Proof.
  intros Hd. unfold ruleCovers, dp_covers, port_matches.
  assert (existsb (fun d => cidrContains d (host32 (pk_dst pk))) (r_destinations r) =
          existsb (in_cidrb (pk_dst pk)) (r_destinations r)) as ->.
  { induction (r_destinations r) as [|d l IH]; simpl; [done|]. by rewrite cidrContains_host32, IH. }
  destruct (r_enabled r); simpl; [|done].
  destruct (existsb (fun s => cidrContains s src) (r_sources r)); simpl; [|done].
  destruct (r_destinations r) as [|d l]; simpl.
  - destruct (r_ports r); done.
  - destruct (_ || _); simpl; [|done]. destruct (r_ports r); done.
Qed.

Lemma or_any_matches {A} (f : A -> bool) l :
  (exists o, o ∈ or_any l /\ opt_matches f o = true) <->
  bool_decide (l = []) || existsb f l = true.
Proof.
  destruct l as [|x l]; [set_solver|]. unfold or_any.
  rewrite bool_decide_eq_false_2 by done. cbn [orb]. rewrite existsb_true. split.
  - intros (o & (y & -> & Hy)%list_elem_of_fmap & Ho). eauto.
  - intros (y & Hy & Hf). exists (Some y). split; [|done]. by apply list_elem_of_fmap_2.
Qed.

Lemma mapM_canonical l ls : mapM canonicalCidr l = Some ls ->
  (l = [] <-> ls = []) /\
  (forall c, c ∈ ls -> exists s, s ∈ l /\ canonicalCidr s = Some c) /\
  (forall s, s ∈ l -> exists c, c ∈ ls /\ canonicalCidr s = Some c).
Proof.
  intros H%mapM_Some. split_and!.
  - destruct H; naive_solver.
  - intros c Hc. apply list_elem_of_lookup in Hc as [i Hi].
    destruct (Forall2_lookup_r _ _ _ _ _ H Hi) as (s & Hs & Hsc). exists s. split; [|done].
    by eapply list_elem_of_lookup_2.
  - intros s Hs. apply list_elem_of_lookup in Hs as [i Hi].
    destruct (Forall2_lookup_l _ _ _ _ _ H Hi) as (c & Hc & Hsc). exists c. split; [|done].
    by eapply list_elem_of_lookup_2.
Qed.

Lemma cidrContains_canonical s c t : canonicalCidr s = Some c -> cidrContains c t = cidrContains s t.
Proof.
  intros Hc. unfold cidrContains. rewrite Hc.
  pose proof Hc as (n & _ & Hn & ->)%canonicalCidr_Some. by rewrite canonicalCidr_show.
Qed.

(** What the lines of one rule let through. *)
Definition source_covers (ag : agent) (r : rule) (pk : packet) : Prop :=
  (pk_iface pk ∈ a_iface ag :: directIfaces ag /\ exists s, s ∈ r_sources r /\ in_cidr (pk_src pk) s) \/
  (exists al, al ∈ directAliases ag /\ al_iface al ∈ directIfaces ag /\ pk_iface pk = al_iface al /\
     in_cidr (pk_src pk) (cidr32 (al_direct al)) /\
     exists s, s ∈ r_sources r /\ cidrContains s (cidr32 (al_hub al)) = true).

Lemma dests_canonical x l ls : mapM canonicalCidr l = Some ls ->
  bool_decide (ls = []) || existsb (in_cidrb x) ls = bool_decide (l = []) || existsb (in_cidrb x) l.
Proof.
  intros (He & Hl & Hr)%mapM_canonical. f_equal; [apply bool_decide_ext; naive_solver|].
  apply eq_bool_prop_intro. rewrite !Is_true_true, !existsb_true. split.
  - intros (c & Hc & Hx). destruct (Hl c Hc) as (s & Hs & Hsc). exists s. split; [done|].
    by rewrite <- (in_cidrb_canonical x s c).
  - intros (s & Hs & Hx). destruct (Hr s Hs) as (c & Hc & Hsc). exists c. split; [done|].
    by rewrite (in_cidrb_canonical x s c).
Qed.

Lemma elem_of_rule_lines ag t r l : rule_ok r ->
  l ∈ rule_lines ag t r <-> exists ss dl src dst p,
    mapM canonicalCidr (r_sources r) = Some ss /\ mapM canonicalCidr (r_destinations r) = Some dl /\
    src ∈ ss /\ dst ∈ or_any dl /\ p ∈ or_any (r_ports r) /\
    ((exists i, i ∈ a_iface ag :: directIfaces ag /\ l = LRule src dst i p (r_id r) t) \/
     (exists al, al ∈ directAliases ag /\ alias_applies (directIfaces ag) src al = true /\
        l = LRule (cidr32 (al_direct al)) dst (al_iface al) p (r_id r) t)).
Proof.
  intros (_ & _ & [ss Hss] & [dl Hdl] & _). unfold rule_lines. rewrite Hss, Hdl. cbn [default].
  rewrite list_elem_of_bind. setoid_rewrite list_elem_of_bind. setoid_rewrite list_elem_of_bind.
  unfold iface_lines. setoid_rewrite elem_of_app. setoid_rewrite list_elem_of_fmap.
  setoid_rewrite elem_of_bfilter. split.
  - intros (src & (dst & (p & H & Hp) & Hd) & Hs). exists ss, dl, src, dst, p. naive_solver.
  - intros (? & ? & src & dst & p & [= <-] & [= <-] & Hs & Hd & Hp & H).
    exists src. split; [|done]. exists dst. split; [|done]. exists p. split; [|done]. naive_solver.
Qed.

Lemma rule_lines_match ag t r pk : rule_ok r ->
  existsb (line_matches pk) (rule_lines ag t r) = true <->
  source_covers ag r pk /\ dp_covers r pk = true.
Proof.
  intros Hok. rewrite existsb_true. setoid_rewrite elem_of_rule_lines; [|done].
  pose proof Hok as (_ & _ & [ss Hss] & [dl Hdl] & _). unfold dp_covers.
  rewrite <- (dests_canonical _ _ _ Hdl), andb_true_iff, <- !or_any_matches.
  pose proof (mapM_canonical _ _ Hss) as (_ & Hl & Hr). split.
  - intros (l & (? & ? & src & dst & p & Hss' & Hdl' & Hs & Hd & Hp & H) & Hm).
    rewrite Hss in Hss'. rewrite Hdl in Hdl'. simplify_eq. destruct (Hl _ Hs) as (s & Hsr & Hc).
    destruct H as [(i & Hi & ->)|(al & Hal & Ha & ->)]; simpl in Hm;
      rewrite !andb_true_iff, bool_decide_eq_true in Hm; destruct Hm as [[[Hx Hy] Hz] Hw];
      (split; [|split; [by exists dst|by exists p]]).
    + left. split; [by subst|]. exists s. split; [done|]. apply in_cidrb_spec.
      by rewrite <- (in_cidrb_canonical _ _ _ Hc).
    + right. exists al. unfold alias_applies in Ha.
      rewrite !andb_true_iff, bool_decide_eq_true in Ha. destruct Ha as [[Ha1 Ha2] _].
      split_and!; [done..|by apply in_cidrb_spec|]. exists s. split; [done|].
      by rewrite <- (cidrContains_canonical _ _ _ Hc).
  - intros ([(Hi & s & Hsr & Hx)|(al & Hal & Hdir & Hi & Hx & s & Hsr & Hh)] & (dst & Hd & Hdm) & (p & Hp & Hpm));
      destruct (Hr s Hsr) as (src & Hs & Hc).
    + exists (LRule src dst (pk_iface pk) p (r_id r) t). split.
      * exists ss, dl, src, dst, p. split_and!; try done. left. by exists (pk_iface pk).
      * simpl. rewrite (in_cidrb_canonical _ _ _ Hc), (proj2 (in_cidrb_spec _ _) Hx), Hdm, Hpm.
        by rewrite bool_decide_eq_true_2.
    + destruct (cidrContains src (cidr32 (al_direct al))) eqn:Hcov.
      * exists (LRule src dst (pk_iface pk) p (r_id r) t). split.
        -- exists ss, dl, src, dst, p. split_and!; try done. left. exists (pk_iface pk).
           split; [|done]. rewrite Hi. by right.
        -- simpl. rewrite (proj2 (in_cidrb_spec (pk_src pk) src)), Hdm, Hpm
             by (by apply (cidrContains_in_cidr _ _ Hcov)).
           by rewrite bool_decide_eq_true_2.
      * exists (LRule (cidr32 (al_direct al)) dst (al_iface al) p (r_id r) t). split.
        -- exists ss, dl, src, dst, p. split_and!; try done. right. exists al. split_and!; try done.
           unfold alias_applies. rewrite bool_decide_eq_true_2 by done.
           by rewrite (cidrContains_canonical _ _ _ Hc), Hh, Hcov.
        -- simpl. rewrite (proj2 (in_cidrb_spec _ _) Hx), Hdm, Hpm. by rewrite bool_decide_eq_true_2.
Qed.

(** * What a successful build contains *)

Definition mode_target (ag : agent) : target :=
  if decide (ingress_mode ag = "restricted") then ACCEPT else RETURN.

Definition drop_lines (ag : agent) : list fg_line :=
  if decide (ingress_mode ag = "restricted") then LDrop <$> a_iface ag :: directIfaces ag else [].

Definition chain_text (ls : list fg_line) : string :=
  join (String nl "") (["*filter"; ":FG_IN - [0:0]"] ++ (render_line <$> ls) ++ ["COMMIT"]) +:+ String nl "".

Definition active_rules (rules : list rule) : list rule := merge_sort id_le (bfilter r_enabled rules).

Lemma elem_of_active r rules : r ∈ active_rules rules <-> r ∈ rules /\ r_enabled r = true.
Proof. unfold active_rules. rewrite merge_sort_Permutation. apply elem_of_bfilter. Qed.

(** The agent's interface names pass the checks of the builder. *)
Definition ifaces_ok (ag : agent) : Prop :=
  isWgIface (a_iface ag) = true /\ Forall (fun d => re_test FGD_RE d = true) (directIfaces ag).

Lemma mode_cases ag :
  let mode := if set_has INGRESS_MODES (ingress_mode ag) then ingress_mode ag else "open" in
  (ingress_mode ag = "restricted" /\ mode = "restricted") \/ (ingress_mode ag <> "restricted" /\ mode = "open").
Proof.
  unfold set_has. destruct (decide (ingress_mode ag = "restricted")) as [->|Hne]; [by left|right].
  split; [done|]. case_bool_decide as Hin; [|done]. unfold INGRESS_MODES in Hin. set_solver.
Qed.

Section build_spec.
  Variable sha256hex : string -> string.

Lemma buildIngressRestore_iff ag rules b :
  buildIngressRestore sha256hex ag rules = Ok (Some b) <->
  ifaces_ok ag /\
  ~ (ingress_mode ag <> "restricted" /\ active_rules rules = []) /\
  Z.of_nat (length (active_rules rules)) <= MAX_RULES_PER_AGENT /\
  Forall rule_ok (active_rules rules) /\
  let ls := active_rules rules ≫= rule_lines ag (mode_target ag) in
  Z.of_nat (length ls) <= MAX_LINES_TOTAL /\
  let chain := LEstablished (mode_target ag) :: ls ++ drop_lines ag in
  b = Built chain (chain_text chain) (sha256hex (chain_text chain)) (Z.of_nat (length ls)).
Proof.
  unfold buildIngressRestore, ifaces_ok, mode_target, drop_lines. fold (active_rules rules).
  pose proof (mode_cases ag) as Hmode. cbv zeta in Hmode.
  set (mode := if set_has INGRESS_MODES (ingress_mode ag) then ingress_mode ag else "open") in *.
  assert (bool_decide (mode = "restricted") = bool_decide (ingress_mode ag = "restricted")) as ->.
  { apply bool_decide_ext. destruct Hmode as [[-> ->]|[? ->]]; [done|]. split; done. }
  assert (mode = "open" <-> ingress_mode ag <> "restricted") as Hopen.
  { destruct Hmode as [[-> ->]|[? ->]]; [|done]. split; done. }
  rewrite <- Hopen. case_bool_decide as Hnone; [naive_solver|].
  rewrite bind_Ok. setoid_rewrite throw_if_Ok.
  setoid_rewrite negb_false_iff.
  destruct (bfind _ (directIfaces ag)) as [d|] eqn:Hd.
  { apply bfind_Some in Hd as [Hd Hre]. apply negb_true_iff in Hre. split; [by intros (? & ? & ?)|].
    intros ((_ & Hall) & _). rewrite Forall_forall in Hall. by rewrite Hall in Hre. }
  assert (Forall (fun d => re_test FGD_RE d = true) (directIfaces ag)) as Hall.
  { apply Forall_forall. intros d Hin. apply (bfind_None _ _ Hd) in Hin. by apply negb_false_iff. }
  setoid_rewrite bind_Ok. setoid_rewrite throw_if_Ok. setoid_rewrite Z.ltb_ge.
  setoid_rewrite bind_Ok. setoid_rewrite emit_rules_Ok.
  assert (forall A (x y : A), (if bool_decide (ingress_mode ag = "restricted") then x else y) =
            if decide (ingress_mode ag = "restricted") then x else y) as Hbd.
  { intros. case_bool_decide; [by rewrite decide_True|by rewrite decide_False]. }
  rewrite !Hbd. split.
  - intros (_ & Hw & _ & Hn & ls & (-> & Hok & Hl) & [= <-]). split_and!; done.
  - intros ((Hw & _) & _ & Hn & Hok & Hl & ->). exists tt. split; [done|]. exists tt.
    split; [done|]. eexists. split; [split_and!; done|done].
Qed.

Lemma rule_line_verdicts ag t rs l : Forall rule_ok rs -> l ∈ rs ≫= rule_lines ag t ->
  line_verdict l = target_verdict t.
Proof.
  rewrite Forall_forall. intros Hok (r & Hl & Hr)%list_elem_of_bind.
  apply elem_of_rule_lines in Hl; [|by apply Hok].
  destruct Hl as (? & ? & ? & ? & ? & _ & _ & _ & _ & _ & [(? & _ & ->)|(? & _ & _ & ->)]); done.
Qed.

Lemma existsb_bind {A B} (f : B -> bool) (g : A -> list B) l :
  existsb f (l ≫= g) = true <-> exists x, x ∈ l /\ existsb f (g x) = true.
Proof.
  rewrite existsb_true. setoid_rewrite list_elem_of_bind. setoid_rewrite existsb_true. naive_solver.
Qed.

#[local] Opaque dp_covers.

(** A new packet is let through by a rule, or admitted under the partner's hub address on a
    direct link, exactly when the chain accepts it. *)
Definition packet_covered (ag : agent) (rules : list rule) (pk : packet) : Prop :=
  exists r, r ∈ rules /\
    (ruleCovers r (host32 (pk_src pk)) (host32 (pk_dst pk)) (Some (pk_dport pk)) (pk_proto pk) = true \/
     exists al, al ∈ directAliases ag /\ al_iface al ∈ directIfaces ag /\ pk_iface pk = al_iface al /\
       in_cidr (pk_src pk) (cidr32 (al_direct al)) /\
       ruleCovers r (cidr32 (al_hub al)) (host32 (pk_dst pk)) (Some (pk_dport pk)) (pk_proto pk) = true).

Lemma rules_match ag rules t pk : is_addr (pk_src pk) -> is_addr (pk_dst pk) ->
  pk_iface pk ∈ a_iface ag :: directIfaces ag -> Forall rule_ok (active_rules rules) ->
  existsb (line_matches pk) (active_rules rules ≫= rule_lines ag t) = true <-> packet_covered ag rules pk.
Proof.
  intros Hs Hd Hi Hok. rewrite Forall_forall in Hok. rewrite existsb_bind. unfold packet_covered.
  setoid_rewrite ruleCovers_packet; [|done..]. repeat setoid_rewrite andb_true_iff.
  setoid_rewrite existsb_true. split.
  - intros (r & Hr & Hm). pose proof Hr as [Hin Hen]%elem_of_active. exists r. split; [done|].
    rewrite <- existsb_true in Hm. apply rule_lines_match in Hm as [[(_ & s & Hsr & Hx)|(al & Hal & Hdir & Hial & Hx & s & Hsr & Hh)] Hdp]; [| |by apply Hok].
    + left. split_and!; [done| |done]. exists s. split; [done|].
      by rewrite cidrContains_host32, in_cidrb_spec.
    + right. exists al. split_and!; try done. exists s. done.
  - intros (r & Hin & H). assert (r_enabled r = true) as Hen by naive_solver.
    assert (r ∈ active_rules rules) as Hr by (by apply elem_of_active).
    exists r. split; [done|]. rewrite <- existsb_true. apply rule_lines_match; [by apply Hok|].
    destruct H as [((_ & s & Hsr & Hx) & Hdp)|(al & Hal & Hdir & Hial & Hx & (_ & s & Hsr & Hh) & Hdp)].
    + split; [|done]. left. split; [done|]. exists s. split; [done|].
      by rewrite cidrContains_host32, in_cidrb_spec in Hx.
    + split; [|done]. right. exists al. naive_solver.
Qed.

(** The verdict of a restricted chain, for the properties of this file and of the flow test. *)
Lemma restricted_chain_verdict ag rules b pk :
  buildIngressRestore sha256hex ag rules = Ok (Some b) ->
  ingress_mode ag = "restricted" ->
  is_addr (pk_src pk) -> is_addr (pk_dst pk) ->
  (pk_established pk = true -> chain_verdict (b_lines b) pk = VAccept) /\
  (pk_established pk = false -> pk_iface pk ∈ a_iface ag :: directIfaces ag ->
     (chain_verdict (b_lines b) pk = VAccept <-> packet_covered ag rules pk) /\
     (chain_verdict (b_lines b) pk = VDrop <-> ~ packet_covered ag rules pk)) /\
  (pk_established pk = false -> pk_iface pk ∉ a_iface ag :: directIfaces ag ->
     chain_verdict (b_lines b) pk = VReturn).
Proof.
  intros (_ & _ & _ & Hok & _ & ->)%buildIngressRestore_iff Hr Hs Hd.
  unfold mode_target, drop_lines. rewrite !decide_True by done. cbn [b_lines].
  cbn [chain_verdict line_matches line_verdict target_verdict].
  rewrite chain_verdict_app. split_and!.
  - by intros ->.
  - intros -> Hi. pose proof (rules_match ag rules ACCEPT pk Hs Hd Hi Hok) as Hm.
    destruct (existsb _ _) eqn:He.
    + rewrite (chain_verdict_same _ pk VAccept); [naive_solver| |done].
      intros l Hl. by apply (rule_line_verdicts ag ACCEPT _ l Hok).
    + rewrite (chain_verdict_same _ pk VDrop); [naive_solver| |].
      * intros l (i & -> & _)%list_elem_of_fmap. done.
      * apply existsb_true. exists (LDrop (pk_iface pk)). split; [by apply list_elem_of_fmap_2|].
        simpl. by rewrite bool_decide_eq_true_2.
  - intros -> Hi. destruct (existsb _ (active_rules rules ≫= _)) eqn:He.
    + exfalso. apply existsb_bind in He as (r & Hr' & Hm). rewrite Forall_forall in Hok.
      apply rule_lines_match in Hm as [[(? & _)|(al & _ & ? & Hal & _)] _]; [done| |by apply Hok].
      apply Hi. rewrite Hal. by right.
    + clear He. revert Hi. induction (a_iface ag :: directIfaces ag) as [|i l IH]; [done|].
      rewrite not_elem_of_cons. intros [Hne Hi]. csimpl.
      rewrite bool_decide_eq_false_2 by done. by apply IH.
Qed.

(** C1. In restricted mode the chain is exactly the allow list: a new connection that
    arrives on the hub interface or on a direct link is accepted when an enabled rule
    covers it (in the sense of [ruleCovers], the admin UI's own test, or through the
    partner's hub address on its direct link) and dropped otherwise; established traffic
    is accepted, and other interfaces are left to the gateway's own rules. *)
Theorem restricted_chain_refines_ruleCovers ag rules b pk :
  buildIngressRestore sha256hex ag rules = Ok (Some b) ->
  ingress_mode ag = "restricted" ->
  is_addr (pk_src pk) -> is_addr (pk_dst pk) ->
  (pk_established pk = true -> chain_verdict (b_lines b) pk = VAccept) /\
  (pk_established pk = false -> pk_iface pk ∈ a_iface ag :: directIfaces ag ->
     (chain_verdict (b_lines b) pk = VAccept <-> packet_covered ag rules pk) /\
     (chain_verdict (b_lines b) pk = VDrop <-> ~ packet_covered ag rules pk)) /\
  (pk_established pk = false -> pk_iface pk ∉ a_iface ag :: directIfaces ag ->
     chain_verdict (b_lines b) pk = VReturn).
Proof. apply restricted_chain_verdict. Qed.

(** Observation mode never decides: without "restricted" no packet is accepted or
    dropped by the chain. *)
Theorem open_chain_only_observes ag rules b pk :
  buildIngressRestore sha256hex ag rules = Ok (Some b) ->
  ingress_mode ag <> "restricted" ->
  chain_verdict (b_lines b) pk = VReturn.
Proof.
  intros (_ & _ & _ & Hok & _ & ->)%buildIngressRestore_iff Hr.
  unfold mode_target, drop_lines. rewrite !decide_False by done. rewrite app_nil_r. cbn.
  destruct (pk_established pk); [done|].
  destruct (existsb (line_matches pk) (active_rules rules ≫= rule_lines ag RETURN)) eqn:He.
  - apply chain_verdict_same; [|done]. intros l Hl. by apply (rule_line_verdicts ag RETURN _ l Hok).
  - rewrite <- (app_nil_r (_ ≫= _)), chain_verdict_app, He. done.
Qed.
End build_spec.

(** ** Witnesses for the chain theorems *)

Definition ex_rule : rule :=
  Rule 7 "printer" ["10.10.0.0/24"] ["192.168.5.20/32"] [Port "tcp" "80:443"] true None 0 None None.
Definition ex_agent (mode : string) : agent :=
  Agent mode "wg0" ["fgd2"] [Alias "fgd2" "10.10.0.5" "10.99.0.2"].
Definition ex_packet : packet := Packet 168427525 3232236820 "wg0" "tcp" 443 false.

Lemma restricted_chain_refines_ruleCovers_witness :
  exists b, buildIngressRestore id (ex_agent "restricted") [ex_rule] = Ok (Some b) /\
    (chain_verdict (b_lines b) ex_packet = VAccept <->
     packet_covered (ex_agent "restricted") [ex_rule] ex_packet) /\
    chain_verdict (b_lines b) ex_packet = VAccept.
Proof.
  eexists. split; [vm_compute; reflexivity|]. split; [|vm_compute; reflexivity].
  eapply (restricted_chain_refines_ruleCovers id (ex_agent "restricted") [ex_rule]).
  - vm_compute. reflexivity.
  - reflexivity.
  - split; vm_compute; congruence.
  - split; vm_compute; congruence.
  - reflexivity.
  - left.
Defined.

Lemma open_chain_only_observes_witness :
  exists b, buildIngressRestore id (ex_agent "open") [ex_rule] = Ok (Some b) /\
    chain_verdict (b_lines b) ex_packet = VReturn.
Proof.
  eexists. split; [vm_compute; reflexivity|].
  eapply (open_chain_only_observes id (ex_agent "open") [ex_rule]);
    [vm_compute; reflexivity|discriminate].
Defined.

(** * The text of the chain *)

Definition token_char (c : ascii) : bool := is_alnum c || one_of ["."; "/"; ":"]%char c.
Definition token (s : string) : bool := sall token_char s.

(** Every field of a line is one word for the parser of iptables-restore. *)
Definition line_tokens (l : fg_line) : Prop :=
  match l with
  | LEstablished _ => True
  | LRule src dst i p id _ =>
      token src = true /\ opt_matches token dst = true /\ token i = true /\ 1 <= id /\
      opt_matches (fun p => token (p_proto p) && token (p_port p)) p = true
  | LDrop i => token i = true
  end.

Lemma token_no_nl s : token s = true -> sall (fun c => negb (is_char nl c)) s = true.
Proof. apply sall_impl_dec. vm_compute. reflexivity. Qed.

Lemma render_line_no_nl l : line_tokens l -> no_char nl (render_line l).
Proof.
  unfold no_char. destruct l as [t|src dst i p id t|i].
  - intros _. by destruct t.
  - intros (Hs & Hd & Hi & Hid & Hp). unfold render_line, quoted.
    rewrite !sall_app. cbn [sall]. rewrite !sall_app.
    rewrite (token_no_nl src), (token_no_nl i) by done.
    rewrite (digits_no_char nl (showZ id)) by (done || apply showZ_digits; lia).
    assert (sall (fun c => negb (is_char nl c)) (render_target t) = true) as -> by (by destruct t).
    destruct dst as [d|], p as [[pr po]|]; simpl in Hd, Hp; rewrite ?sall_app; cbn [p_proto p_port];
      rewrite ?(token_no_nl d) by done; try (apply andb_true_iff in Hp as [Hpr Hpo]);
      rewrite ?(token_no_nl pr), ?(token_no_nl po) by done; reflexivity.
  - intros Hi. unfold render_line. by rewrite !sall_app, (token_no_nl i).
Qed.

Lemma split_join_nl ls : ls <> [] -> Forall (no_char nl) ls ->
  split_char nl (join (String nl "") ls +:+ String nl "") = ls ++ [""].
Proof.
  intros Hne H. induction H as [|x ls Hx Hls IH]; [done|]. destruct ls as [|y ls].
  - cbn [join]. by rewrite split_char_app.
  - change (join (String nl "") (x :: y :: ls)) with (x +:+ String nl "" +:+ join (String nl "") (y :: ls)).
    rewrite !sapp_assoc, sapp_String, sapp_nil_l, split_char_app by done. by rewrite IH.
Qed.

Lemma canonicalCidr_token s c : canonicalCidr s = Some c -> token c = true.
Proof.
  intros (n & _ & Hn & ->)%canonicalCidr_Some. apply net_wf_addr in Hn as [? ?].
  apply text_chars; [done|lia|]. vm_compute. reflexivity.
Qed.

Lemma port_ok_token p : port_ok p = true -> token (p_proto p) && token (p_port p) = true.
Proof.
  unfold port_ok, set_has. rewrite !andb_true_iff, bool_decide_eq_true. intros [Hp Hre]. split.
  - unfold INGRESS_PROTOS in Hp. rewrite !elem_of_cons, elem_of_nil in Hp.
    destruct Hp as [->|[->|[]]]; reflexivity.
  - by apply (re_chars _ _ _ Hre).
Qed.

Lemma ifaces_token ag i : ifaces_ok ag -> i ∈ a_iface ag :: directIfaces ag -> token i = true.
Proof.
  intros [Hw Hd] [->|Hi]%elem_of_cons.
  - by apply (re_chars _ _ _ Hw).
  - rewrite Forall_forall in Hd. by apply (re_chars _ _ _ (Hd i Hi)).
Qed.

Lemma rule_lines_tokens ag t r l : ifaces_ok ag -> rule_ok r ->
  (forall al, al ∈ directAliases ag -> token (al_direct al) = true) ->
  l ∈ rule_lines ag t r -> line_tokens l.
Proof.
  intros Hi Hok Hal Hl. apply elem_of_rule_lines in Hl; [|done].
  destruct Hl as (ss & dl & src & dst & p & Hss & Hdl & Hs & Hd & Hp & Hl).
  destruct Hok as (Hid & _ & _ & _ & Hports). rewrite Forall_forall in Hports.
  assert (opt_matches token dst = true) as Hdst.
  { destruct dst as [d|]; [|done]. simpl. apply mapM_canonical in Hdl as (_ & Hdl & _).
    destruct (Hdl d) as (? & _ & Hc); [|by apply canonicalCidr_token in Hc].
    destruct dl; [set_solver|]. unfold or_any in Hd. by apply list_elem_of_fmap in Hd as (? & [= ->] & ?). }
  assert (opt_matches (fun p => token (p_proto p) && token (p_port p)) p = true) as Hpt.
  { destruct p as [p|]; [|done]. apply port_ok_token, Hports.
    destruct (r_ports r); [set_solver|]. unfold or_any in Hp.
    by apply list_elem_of_fmap in Hp as (? & [= ->] & ?). }
  destruct Hl as [(i & Hin & ->)|(al & Hin & Ha & ->)]; simpl.
  - split_and!; [|done|by eapply ifaces_token|done|done].
    apply mapM_canonical in Hss as (_ & Hss & _). destruct (Hss src Hs) as (? & _ & Hc).
    by apply canonicalCidr_token in Hc.
  - split_and!; [|done| |done|done].
    + unfold token, cidr32. rewrite sall_app, andb_true_iff. split; [exact (Hal al Hin)|done].
    + unfold alias_applies in Ha. rewrite !andb_true_iff, bool_decide_eq_true in Ha.
      apply (ifaces_token ag); [done|]. right. tauto.
Qed.

(** No field of a rule can inject text into the payload: split at the newlines, it
    is the table header, one line per entry of the chain and COMMIT, and every field of
    a line is a word without blanks or quotes. (The /30 addresses of the direct links are
    computed by the server, not by [buildIngressRestore].) *)
Theorem restore_text_is_its_lines sha256hex ag rules b :
  buildIngressRestore sha256hex ag rules = Ok (Some b) ->
  (forall al, al ∈ directAliases ag -> token (al_direct al) = true) ->
  split_char nl (b_text b) =
    ["*filter"; ":FG_IN - [0:0]"] ++ (render_line <$> b_lines b) ++ ["COMMIT"; ""] /\
  Forall line_tokens (b_lines b).
Proof.
  intros (Hi & _ & _ & Hok & _ & ->)%buildIngressRestore_iff Hal. cbn [b_text b_lines].
  set (chain := LEstablished _ :: _).
  assert (Forall line_tokens chain) as Hall.
  { constructor; [done|]. apply Forall_app. split.
    - apply Forall_forall. intros l (r & Hl & Hr)%list_elem_of_bind. rewrite Forall_forall in Hok.
      eapply rule_lines_tokens; eauto.
    - apply Forall_forall. intros l Hl. unfold drop_lines in Hl. destruct (decide _); [|set_solver].
      apply list_elem_of_fmap in Hl as (i & -> & Hin). by eapply ifaces_token. }
  split; [|done]. unfold chain_text. rewrite split_join_nl.
  - by rewrite <- !app_assoc.
  - done.
  - apply Forall_app. split; [repeat constructor|]. apply Forall_app. split; [|repeat constructor].
    apply Forall_fmap. eapply Forall_impl; [done|]. intros. by apply render_line_no_nl.
Qed.

Lemma restore_text_is_its_lines_witness :
  exists b, buildIngressRestore id (ex_agent "restricted") [ex_rule] = Ok (Some b) /\
    Forall line_tokens (b_lines b).
Proof.
  eexists. split; [vm_compute; reflexivity|].
  eapply (restore_text_is_its_lines id (ex_agent "restricted") [ex_rule]).
  - vm_compute. reflexivity.
  - intros al Hal. apply list_elem_of_singleton in Hal as ->. vm_compute. reflexivity.
Defined.

(** * Line counts and the caps *)

Lemma length_bind_const {A B} (f : A -> list B) l n :
  (forall x, x ∈ l -> length (f x) = n) -> length (l ≫= f) = (length l * n)%nat.
Proof.
  induction l as [|x l IH]; csimpl; [done|]. intros H. rewrite length_app, IH by set_solver.
  rewrite H by (by left). lia.
Qed.

Lemma length_or_any {A} (l : list A) : Z.of_nat (length (or_any l)) = n_or_1 l.
Proof. unfold n_or_1. destruct l; simpl; [done|]. rewrite length_fmap. lia. Qed.

Lemma mapM_length {A B} (f : A -> option B) l k : mapM f l = Some k -> length k = length l.
Proof. intros H%mapM_Some. by apply Forall2_length in H. Qed.

Lemma length_rule_lines ag t r : rule_ok r -> directAliases ag = [] ->
  Z.of_nat (length (rule_lines ag t r)) = ruleLineCount r * Z.of_nat (S (length (directIfaces ag))).
Proof.
  intros (_ & _ & [ss Hss] & [dl Hdl] & _) Ha. unfold rule_lines, ruleLineCount, lineCount.
  rewrite Hss, Hdl. cbn [default].
  rewrite <- (mapM_length _ _ _ Hss).
  assert (n_or_1 (r_destinations r) = n_or_1 dl) as ->.
  { unfold n_or_1. by rewrite <- (mapM_length _ _ _ Hdl). }
  rewrite <- !length_or_any.
  erewrite length_bind_const; [|intros s _; eapply length_bind_const; intros d _;
    eapply length_bind_const; intros p _; unfold iface_lines; rewrite Ha, app_nil_r, length_fmap; reflexivity].
  cbn [length]. unfold id. rewrite !Nat2Z.inj_mul. ring.
Qed.

Definition total_lines (rules : list rule) : Z :=
  foldl (fun n r => n + ruleLineCount r) 0 (bfilter r_enabled rules).

Lemma foldl_add {A} (f : A -> Z) l a : foldl (fun n x => n + f x) a l = a + foldr (fun x n => f x + n) 0 l.
Proof.
  revert a. induction l as [|x l IH]; intros a; cbn [foldl foldr]; [lia|]. rewrite IH. lia.
Qed.

Lemma foldr_add_perm {A} (f : A -> Z) l k : l ≡ₚ k ->
  foldr (fun x n => f x + n) 0 l = foldr (fun x n => f x + n) 0 k.
Proof. induction 1; cbn [foldr]; lia. Qed.

Lemma length_active_lines ag t rules : Forall rule_ok (active_rules rules) -> directAliases ag = [] ->
  Z.of_nat (length (active_rules rules ≫= rule_lines ag t)) =
  total_lines rules * Z.of_nat (S (length (directIfaces ag))).
Proof.
  intros Hok Ha. unfold total_lines. rewrite foldl_add.
  rewrite <- (foldr_add_perm ruleLineCount _ _ (merge_sort_Permutation id_le _)). fold (active_rules rules).
  induction Hok as [|r l Hr Hl IH]; csimpl; [done|].
  rewrite length_app, Nat2Z.inj_add, IH, length_rule_lines by done. lia.
Qed.

(** The save-time check is enough when no direct link has an alias: rules that pass
    [assertTotalLineCount] for the hub interface and the direct interfaces build. *)
Theorem assertTotalLineCount_builds sha256hex ag rules :
  assertTotalLineCount rules (Z.of_nat (S (length (directIfaces ag)))) = Ok tt ->
  directAliases ag = [] -> ifaces_ok ag ->
  Z.of_nat (length (active_rules rules)) <= MAX_RULES_PER_AGENT ->
  Forall rule_ok (active_rules rules) ->
  exists o, buildIngressRestore sha256hex ag rules = Ok o /\
    (o = None <-> ingress_mode ag <> "restricted" /\ active_rules rules = []).
Proof.
  unfold assertTotalLineCount. fold (total_lines rules). rewrite throw_if_Ok, Z.ltb_ge.
  intros Hc Ha Hi Hn Hok. rewrite Z.max_r in Hc by lia.
  destruct (decide (ingress_mode ag <> "restricted" /\ active_rules rules = [])) as [Hnone|Hsome].
  - exists None. split; [|done]. destruct Hnone as [Hm Hnil].
    unfold buildIngressRestore. fold (active_rules rules). rewrite bool_decide_eq_true_2; [done|].
    split; [|done]. destruct (mode_cases ag) as [[? _]|[_ ?]]; done.
  - eexists (Some _). split; [|done]. apply buildIngressRestore_iff.
    refine (conj Hi (conj Hsome (conj Hn (conj Hok (conj _ eq_refl))))).
    by rewrite length_active_lines.
Qed.

Lemma assertTotalLineCount_builds_witness :
  exists o, buildIngressRestore id (Agent "restricted" "wg0" [] []) [ex_rule] = Ok o.
Proof.
  destruct (assertTotalLineCount_builds id (Agent "restricted" "wg0" [] []) [ex_rule]) as (o & Ho & _).
  - reflexivity.
  - reflexivity.
  - split; [vm_compute; reflexivity|constructor].
  - vm_compute. discriminate.
  - constructor; [|constructor]. split_and!; [vm_compute; discriminate|discriminate|
      vm_compute; eauto|vm_compute; eauto|constructor; [vm_compute; reflexivity|constructor]].
  - by exists o.
Defined.

(** Twenty rules of one hundred lines each, one direct link. *)
Definition host_list (base : string) (n : nat) : list string :=
  (fun i => base +:+ showZ (Z.of_nat i)) <$> seq 1 n.
Definition big_rules : list rule :=
  (fun i => Rule (Z.of_nat i) "r" ["10.10.0.0/16"] (host_list "192.168.1." 10)
              ((fun q => Port "tcp" (showZ (Z.of_nat q))) <$> seq 1 10) true None 0 None None) <$> seq 1 20.

(** The number of lines with aliases: per source, the interfaces and the aliases that apply. *)
Definition alias_line_count (ag : agent) (r : rule) : Z :=
  foldr (fun src n => Z.of_nat (S (length (directIfaces ag)) +
           length (bfilter (alias_applies (directIfaces ag) src) (directAliases ag))) *
           (n_or_1 (default [] (mapM canonicalCidr (r_destinations r))) * n_or_1 (r_ports r)) + n)
    0 (default [] (mapM canonicalCidr (r_sources r))).

Lemma length_rule_lines_alias ag t r : Z.of_nat (length (rule_lines ag t r)) = alias_line_count ag r.
Proof.
  unfold rule_lines, alias_line_count. rewrite <- !length_or_any.
  generalize (or_any (default [] (mapM canonicalCidr (r_destinations r)))), (or_any (r_ports r)).
  intros ds ps.
  induction (default [] (mapM canonicalCidr (r_sources r))) as [|src ss IH]; [done|].
  csimpl. rewrite length_app, Nat2Z.inj_add, IH. f_equal.
  erewrite length_bind_const; [|intros d _; eapply length_bind_const; intros p _;
    unfold iface_lines; rewrite length_app, !length_fmap; reflexivity].
  cbn [length]. rewrite ?Nat2Z.inj_mul, ?Nat2Z.inj_succ, ?Nat2Z.inj_add, ?Nat2Z.inj_succ. ring.
Qed.

Lemma length_rules_lines_alias ag t rs :
  Z.of_nat (length (rs ≫= rule_lines ag t)) = foldr (fun r n => alias_line_count ag r + n) 0 rs.
Proof.
  induction rs as [|r rs IH]; [done|]. csimpl.
  by rewrite length_app, Nat2Z.inj_add, IH, length_rule_lines_alias.
Qed.

(** A build that succeeds stays under the cap, aliases included. *)
Lemma build_line_cap sha256hex ag rules o (H : buildIngressRestore sha256hex ag rules = Ok o) :
  o = None \/ foldr (fun r n => alias_line_count ag r + n) 0 (active_rules rules) <= MAX_LINES_TOTAL.
Proof.
  destruct o as [b|]; [right|by left].
  apply buildIngressRestore_iff in H as (_ & _ & _ & _ & Hl & _).
  by rewrite length_rules_lines_alias in Hl.
Qed.

Lemma restricted_never_none sha256hex ag rules : ingress_mode ag = "restricted" ->
  buildIngressRestore sha256hex ag rules <> Ok None.
Proof.
  intros Hm Hb. unfold buildIngressRestore in Hb.
  destruct (mode_cases ag) as [[_ He]|[? _]]; [|done]. cbv zeta in He. rewrite He in Hb.
  rewrite bool_decide_eq_false_2 in Hb by (intros [? _]; done).
  apply bind_Ok in Hb as (? & _ & Hb). destruct (bfind _ _); [done|].
  apply bind_Ok in Hb as (? & _ & Hb). by apply bind_Ok in Hb as (? & _ & Hb).
Qed.

Lemma big_rules_alias_lines :
  (MAX_LINES_TOTAL <? foldr (fun r n => alias_line_count (ex_agent "restricted") r + n) 0
     (active_rules big_rules)) = true.
Proof. vm_compute. reflexivity. Qed.

(** With a direct link whose partner has an alias the check is not enough: these rules
    pass [assertTotalLineCount] for the two interfaces, and [buildIngressRestore] refuses to
    build them because it also counts the alias lines. *)
Theorem assertTotalLineCount_misses_alias_lines sha256hex :
  assertTotalLineCount big_rules 2 = Ok tt /\
  is_ok (buildIngressRestore sha256hex (ex_agent "restricted") big_rules) = false.
Proof.
  split; [vm_compute; reflexivity|].
  pose proof (build_line_cap sha256hex (ex_agent "restricted") big_rules) as Hcap.
  pose proof (restricted_never_none sha256hex (ex_agent "restricted") big_rules eq_refl) as Hnone.
  pose proof big_rules_alias_lines as Hlt. apply Z.ltb_lt in Hlt.
  destruct (buildIngressRestore _ _ _) as [o|e]; [exfalso|reflexivity].
  destruct (Hcap o eq_refl) as [->|Hle]; [exact (Hnone eq_refl)|exact (Zlt_not_le _ _ Hlt Hle)].
Qed.

(** * What the sanitizers guarantee *)

Lemma push_new_NoDup {A} `{EqDecision A} (out : list A) x : NoDup out -> NoDup (push_new out x).
Proof.
  intros Ho. unfold push_new. case_decide; [done|]. apply NoDup_app.
  split_and!; [done| |apply NoDup_singleton]. intros y Hy ->%list_elem_of_singleton. done.
Qed.

Lemma elem_of_push_new {A} `{EqDecision A} (out : list A) x y : y ∈ push_new out x <-> y ∈ out \/ y = x.
Proof. unfold push_new. case_decide; [naive_solver|]. rewrite elem_of_app, list_elem_of_singleton. done. Qed.

Lemma length_push_new {A} `{EqDecision A} (out : list A) x : (length (push_new out x) <= S (length out))%nat.
Proof. unfold push_new. case_decide; [lia|]. rewrite length_app. simpl. lia. Qed.

Lemma foldM_push_new {A B E} `{EqDecision B} (f : A -> result E B) l out out' :
  foldM (fun out raw => x ← f raw; Ok (push_new out x)) out l = Ok out' ->
  (NoDup out -> NoDup out') /\ (length out' <= length out + length l)%nat /\
  (forall y, y ∈ out' <-> y ∈ out \/ exists raw, raw ∈ l /\ f raw = Ok y) /\
  (forall raw, raw ∈ l -> is_ok (f raw) = true).
Proof.
  revert out. induction l as [|raw l IH]; intros out; simpl.
  - intros [= <-]. split_and!; [done|lia|set_solver|set_solver].
  - intros (o & (x & Hx & [= <-])%bind_Ok & Hl)%bind_Ok. apply IH in Hl as (H1 & H2 & H3 & H4).
    split_and!.
    + intros Hn. by apply H1, push_new_NoDup.
    + pose proof (length_push_new out x). lia.
    + intros y. rewrite H3, elem_of_push_new. split.
      * intros [[?| ->]|(r & Hr & Hy)]; [by left|right; exists raw|right; exists r]; split; try done; by constructor.
      * intros [?|(r & [-> |Hr]%elem_of_cons & Hy)]; [by left; left| |right; by exists r].
        left. right. congruence.
    + intros r [->|Hr]%elem_of_cons; [by rewrite Hx|auto].
Qed.

Definition cidr_or_throw (field : string) (raw : jsval) : res string :=
  match canonicalCidr (str_or "" raw) with
  | None => Throw (InvalidCidr field (echoValue raw))
  | Some c => Ok c
  end.

Lemma foldM_ext {E A B} (f g : B -> A -> result E B) b l :
  (forall b x, f b x = g b x) -> foldM f b l = foldM g b l.
Proof. intros H. revert b. induction l as [|x l IH]; intros b; simpl; [done|]. rewrite H. destruct (g b x); simpl; [apply IH|done]. Qed.

(** A sanitized address list: distinct canonical texts, at most [MAX_LIST]. *)
Definition cidrs_ok (l : list string) : Prop :=
  NoDup l /\ Z.of_nat (length l) <= MAX_LIST /\ Forall (fun c => canonicalCidr c = Some c) l.

Lemma sanitizeCidrList_Ok input field allowEmpty out :
  sanitizeCidrList input field allowEmpty = Ok out ->
  cidrs_ok out /\ (allowEmpty = false -> out <> []) /\
  forall c, c ∈ out <-> exists l raw, input = VArr l /\ raw ∈ l /\ canonicalCidr (str_or "" raw) = Some c.
Proof.
  unfold sanitizeCidrList. destruct (as_array _) as [l|] eqn:Hl; [|done].
  intros (u & Hlen%throw_if_Ok & H)%bind_Ok.
  rewrite (foldM_ext _ (fun out raw => x ← cidr_or_throw field raw; Ok (push_new out x))) in H
    by (intros b x; unfold cidr_or_throw; by destruct (canonicalCidr _)).
  apply bind_Ok in H as (o & Ho & (u' & He%throw_if_Ok & [= <-])%bind_Ok).
  apply foldM_push_new in Ho as (Hn & Hlo & Hel & _). apply Z.ltb_ge in Hlen.
  assert (forall y raw, cidr_or_throw field raw = Ok y <-> canonicalCidr (str_or "" raw) = Some y) as Hc.
  { intros y raw. unfold cidr_or_throw. destruct (canonicalCidr _); naive_solver. }
  setoid_rewrite Hc in Hel. unfold cidrs_ok. split_and!.
  - apply Hn. constructor.
  - simpl in Hlo. lia.
  - apply Forall_forall. intros c [?|(raw & _ & Hraw)]%Hel; [set_solver|].
    apply canonicalCidr_Some in Hraw as (n & _ & Hw & ->). by apply canonicalCidr_show.
  - intros ->. simpl in He. by apply bool_decide_eq_false in He.
  - intros c. rewrite Hel. split.
    + intros [?|(raw & Hin & Hraw)]; [set_solver|]. exists l, raw. split_and!; [|done..].
      destruct input; simpl in Hl; simplify_eq; try done; by apply not_elem_of_nil in Hin.
    + intros (l' & raw & -> & Hin & Hraw). simpl in Hl. simplify_eq. right. eauto.
Qed.

Lemma mapM_canonical_id l : Forall (fun c => canonicalCidr c = Some c) l -> mapM canonicalCidr l = Some l.
Proof. intros H. apply mapM_Some. induction H; constructor; done. Qed.

Lemma show_port z : 1 <= z <= 65535 -> is_15 (showZ z) = true.
Proof.
  intros Hz.
  pose proof (forall_range 65536 (fun z => is_15 (showZ z)) ltac:(vm_compute; reflexivity) z) as H.
  apply H. lia.
Qed.

Lemma is_15_no_colon s : is_15 s = true -> no_char ":" s.
Proof. intros H. by apply (re_chars _ _ _ H). Qed.

(** A sanitized port entry stands for a non-empty range of port numbers. *)
Definition port_entry_ok (p : port_spec) : Prop :=
  port_ok p = true /\ exists from to, 1 <= from <= to /\ to <= 65535 /\
    forall x, port_covers p x = true <-> from <= x <= to.

Lemma sanitizePort_Ok raw p : sanitizePort raw = Ok p -> port_entry_ok p.
Proof.
  unfold sanitizePort. intros (u & Hp%throw_if_Ok & H)%bind_Ok. apply negb_false_iff in Hp.
  destruct (port_exec _) as [[from t]|]; [|done].
  apply bind_Ok in H as (u' & Hr%throw_if_Ok & [= <-]).
  rewrite !orb_false_iff, !Z.ltb_ge in Hr. destruct Hr as [[H1 H2] H3].
  set (to := default from t) in *.
  pose proof (show_port from ltac:(lia)) as Hf. pose proof (show_port to ltac:(lia)) as Ht.
  unfold port_entry_ok, port_ok, port_covers. cbn [p_proto p_port]. rewrite Hp. cbn [andb].
  destruct (Z.eqb_spec from to) as [Heq|Hne].
  - split.
    + rewrite <- (sapp_nil_r (showZ from)). by apply re_test_seq.
    + exists from, from. split_and!; [lia|lia|lia|]. intros x.
      rewrite split_char_no by (by apply is_15_no_colon). rewrite num_showZ, andb_true_iff by lia. lia.
  - split.
    + apply re_test_seq; [done|]. rewrite sapp_String, sapp_nil_l.
      rewrite re_test_spec. apply in_alt_r. rewrite <- re_test_spec.
      rewrite <- (sapp_nil_l (showZ to)), <- sapp_String. by apply re_test_seq.
    + exists from, to. split_and!; [lia|lia|lia|]. intros x.
      rewrite sapp_String, sapp_nil_l, split_char_app by (by apply is_15_no_colon).
      rewrite split_char_no by (by apply is_15_no_colon).
      rewrite !num_showZ, andb_true_iff by lia. lia.
Qed.

Lemma sanitizePorts_Ok value out : sanitizePorts value = Ok out ->
  NoDup out /\ Z.of_nat (length out) <= MAX_LIST /\ Forall port_entry_ok out.
Proof.
  unfold sanitizePorts. destruct (is_nullish value).
  { intros [= <-]. split_and!; [constructor|vm_compute; discriminate|constructor]. }
  destruct (as_array value) as [l|]; [|done].
  intros (u & Hlen%throw_if_Ok%Z.ltb_ge & H)%bind_Ok.
  apply foldM_push_new in H as (Hn & Hl & Hel & _). split_and!.
  - apply Hn. constructor.
  - simpl in Hl. lia.
  - apply Forall_forall. intros p [Hp|(raw & _ & Hraw)]%Hel; [set_solver|].
    by apply sanitizePort_Ok in Hraw.
Qed.

(** The rule a sanitized full payload is stored and read back as. *)
Definition stored_rule (id : Z) (p : rule_patch) : rule :=
  Rule id (default "" (rp_name p)) (default [] (rp_sources p)) (default [] (rp_destinations p))
    (default [] (rp_ports p)) (default true (rp_enabled p)) (default None (rp_note p)) 0 None None.

Lemma field_of_full {A} v (m : res A) o : field_of false v m = Ok o -> exists x, o = Some x /\ m = Ok x.
Proof. unfold field_of. cbn. destruct m; simpl; [intros [= <-]; eauto|done]. Qed.

(** C39. A full payload that [sanitizeIngressRule] accepts is always buildable: stored under
    a positive id it meets every demand of [buildIngressRestore], its address lists are
    distinct canonical networks, its ports are ranges within 1 to 65535, and it expands to
    at most [MAX_LINES_PER_RULE] lines. *)
Theorem sanitizeIngressRule_builds data p id :
  sanitizeIngressRule data false = Ok p -> 1 <= id ->
  rule_ok (stored_rule id p) /\
  cidrs_ok (r_sources (stored_rule id p)) /\ cidrs_ok (r_destinations (stored_rule id p)) /\
  Forall port_entry_ok (r_ports (stored_rule id p)) /\
  1 <= ruleLineCount (stored_rule id p) <= MAX_LINES_PER_RULE /\ r_name (stored_rule id p) <> "".
Proof.
  unfold sanitizeIngressRule. intros H Hid.
  apply bind_Ok in H as (o1 & (name & -> & Hname)%field_of_full & H).
  apply bind_Ok in H as (o2 & (sources & -> & Hs)%field_of_full & H).
  apply bind_Ok in H as (o3 & (dests & -> & Hd)%field_of_full & H).
  apply bind_Ok in H as (o4 & (ports & -> & Hp)%field_of_full & H).
  apply bind_Ok in H as (o5 & (en & -> & _)%field_of_full & H).
  apply bind_Ok in H as (o6 & (note & -> & _)%field_of_full & H).
  apply bind_Ok in H as (u & Hc%throw_if_Ok%Z.ltb_ge & [= <-]).
  apply bind_Ok in Hname as (u' & Hne%throw_if_Ok & [= <-]).
  apply sanitizeCidrList_Ok in Hs as (Hs & Hsne & _), Hd as (Hd & _ & _).
  apply sanitizePorts_Ok in Hp as (_ & _ & Hp). specialize (Hsne eq_refl).
  unfold patchLineCount in Hc. cbn -[stake] in Hc. unfold rule_ok, ruleLineCount, stored_rule. cbn -[stake mapM].
  destruct Hs as (Hs1 & Hs2 & Hs3), Hd as (Hd1 & Hd2 & Hd3).
  split_and!; try done.
  - exists sources. by apply mapM_canonical_id.
  - exists dests. by apply mapM_canonical_id.
  - cbn. eapply Forall_impl; [done|]. by intros ? [? _].
  - unfold lineCount, n_or_1. destruct sources; [done|]. cbn [length]. nia.
  - by apply bool_decide_eq_false in Hne.
Qed.

Definition ex_payload : jsval :=
  VObj [("name", VStr "printer"); ("sources", VArr [VStr "10.10.0.7/24"; VStr "10.10.0.0/24"]);
        ("ports", VArr [VObj [("port", VStr "80-443")]])].

Lemma sanitizeIngressRule_builds_witness :
  exists p, sanitizeIngressRule ex_payload false = Ok p /\ rule_ok (stored_rule 1 p).
Proof.
  eexists. split; [vm_compute; reflexivity|].
  apply (sanitizeIngressRule_builds ex_payload); [vm_compute; reflexivity|lia].
Defined.

(** Stored JSON columns read back: the address columns of a row are the sanitized lists. *)
Lemma parseJsonArray_strings l : to_string <$> parseJsonArray (VStr (json_strings l)) [] = l.
Proof.
  unfold parseJsonArray. rewrite decide_False by (by unfold json_strings).
  rewrite json_parse_strings. rewrite <- list_fmap_compose. apply list_fmap_id.
Qed.

(** * Re-arming *)

Lemma json_strings_inj l k : json_strings l = json_strings k -> l = k.
Proof.
  intros H. apply (f_equal json_parse) in H. rewrite !json_parse_strings in H.
  injection H as H. revert k H. induction l as [|x l IH]; intros [|y k] H; try done.
  injection H as -> H. f_equal. by apply IH.
Qed.

Lemma listKey_eq l k : listKey l = listKey k <-> l ≡ₚ k.
Proof.
  unfold listKey. split.
  - intros H%json_strings_inj. by rewrite <- (sort_strings_perm l), H, sort_strings_perm.
  - intros H. f_equal. by apply sort_strings_unique.
Qed.

Lemma list_changed_true clean existing :
  list_changed clean existing = true <-> exists l, clean = Some l /\ ~ l ≡ₚ existing.
Proof.
  unfold list_changed. destruct clean as [l|]; [|naive_solver].
  rewrite negb_true_iff, bool_decide_eq_false, listKey_eq. naive_solver.
Qed.

(** An update re-arms a rule exactly when it switches it on or gives one of its three
    target lists new contents; reordering a list, renaming or a new note do not. *)
Theorem armedOnPatch_spec existing clean now :
  armedOnPatch existing clean now = Some now <->
  (rp_enabled clean = Some true /\ r_enabled existing = false) \/
  (exists l, rp_sources clean = Some l /\ ~ l ≡ₚ r_sources existing) \/
  (exists l, rp_destinations clean = Some l /\ ~ l ≡ₚ r_destinations existing) \/
  (exists l, rp_ports clean = Some l /\ ~ map port_key l ≡ₚ map port_key (r_ports existing)).
Proof.
  unfold armedOnPatch, targetsChanged.
  assert (forall b : bool, (if b then Some now else None) = Some now <-> b = true) as Hb.
  { intros []; naive_solver. }
  rewrite Hb, !orb_true_iff, !list_changed_true, andb_true_iff, bool_decide_eq_true, negb_true_iff.
  assert ((exists l, option_map (map port_key) (rp_ports clean) = Some l /\ ~ l ≡ₚ map port_key (r_ports existing)) <->
          (exists l, rp_ports clean = Some l /\ ~ map port_key l ≡ₚ map port_key (r_ports existing))) as ->.
  { destruct (rp_ports clean); simpl; naive_solver. }
  tauto.
Qed.

(** * Counters *)

Lemma counter_entry_keys kv out : NoDup out.*1 -> NoDup (counter_entry out kv).*1.
Proof.
  unfold counter_entry. destruct (num_int _); [|done]. destruct (to_number _); try done.
  destruct (_ || _); [done|]. apply NoDup_mset.
Qed.

Definition counter_ok (c : Z * Z) : Prop := 1 <= c.1 /\ 0 <= c.2 <= MAX_SAFE_INTEGER.

Lemma Forall_mset {K V} `{EqDecision K} (P : K * V -> Prop) k v m :
  P (k, v) -> Forall P m -> Forall P (mset k v m).
Proof.
  intros Hk. induction 1 as [|[q w] m Hq Hm IH]; simpl; [by constructor|].
  case_decide; by constructor.
Qed.

Lemma length_mset {K V} `{EqDecision K} k v (m : list (K * V)) : (length (mset k v m) <= S (length m))%nat.
Proof. induction m as [|[q w] m IH]; simpl; [lia|]. case_decide; simpl; lia. Qed.

Lemma pow10_pos k : 0 < pow10 k.
Proof. unfold pow10. apply Z.pow_pos_nonneg; lia. Qed.

Lemma counter_entry_ok kv out : Forall counter_ok out -> Forall counter_ok (counter_entry out kv).
Proof.
  unfold counter_entry. destruct (num_int _) as [id|]; [|done]. destruct (to_number _) as [| |m k]; try done.
  destruct (_ || _) eqn:Hb; [done|]. apply orb_false_iff in Hb as [Hid%Z.ltb_ge Hm%Z.ltb_ge].
  apply Forall_mset. split; cbn; [lia|]. unfold num_floor, MAX_SAFE_INTEGER.
  pose proof (Z.div_pos m (pow10 k) Hm (pow10_pos k)). change (2 ^ 53) with 9007199254740992. lia.
Qed.

Lemma length_counter_entry kv out : (length (counter_entry out kv) <= S (length out))%nat.
Proof.
  unfold counter_entry. destruct (num_int _); [|auto]. destruct (to_number _); auto.
  destruct (_ || _); [auto|]. apply length_mset.
Qed.

(** Whatever the agent reports, the accepted counters are a map from positive rule ids to
    packet counts that fit a double exactly, of at most [MAX_RULES_PER_AGENT] entries. *)
Theorem sanitizeIngressCounters_bounds value :
  NoDup (sanitizeIngressCounters value).*1 /\
  Forall counter_ok (sanitizeIngressCounters value) /\
  Z.of_nat (length (sanitizeIngressCounters value)) <= MAX_RULES_PER_AGENT.
Proof.
  assert (forall l out, NoDup out.*1 -> Forall counter_ok out ->
    NoDup (fold_left counter_entry l out).*1 /\ Forall counter_ok (fold_left counter_entry l out) /\
    (length (fold_left counter_entry l out) <= length l + length out)%nat) as Hfold.
  { intros l. induction l as [|kv l IH]; intros out Hn Ho; simpl; [done|].
    destruct (IH (counter_entry out kv)) as (H1 & H2 & H3);
      [by apply counter_entry_keys|by apply counter_entry_ok|].
    split_and!; [done..|]. pose proof (length_counter_entry kv out) as Hlen. etrans; [exact H3|]. cbn [length]. lia. }
  unfold sanitizeIngressCounters.
  destruct value; try (split_and!; [constructor|constructor|vm_compute; discriminate]).
  destruct (Hfold (take (Z.to_nat MAX_RULES_PER_AGENT) (obj_entries l)) []) as (H1 & H2 & H3);
    [constructor|constructor|].
  split_and!; [done..|]. rewrite length_take in H3. cbn [length] in H3.
  assert (0 <= MAX_RULES_PER_AGENT) by (vm_compute; discriminate). lia.
Qed.

(** * Tunnel hosts *)

(** Every host of [hubTunnelHosts] is a single IPv4 address of the tunnel. *)
Lemma hubTunnelHosts_single conf h : h ∈ hubTunnelHosts conf ->
  exists x, is_addr x /\ forall y, in_cidr y h <-> y = x.
Proof.
  unfold hubTunnelHosts. intros (p & Hh & _)%list_elem_of_bind.
  destruct (ipToInt (cidr_addr p)) as [x|] eqn:Hx; [|set_solver].
  apply list_elem_of_singleton in Hh as ->. pose proof (ipToInt_range _ _ Hx) as Hr.
  exists x. split; [done|]. intros y. rewrite <- (in_cidr_host32 x) by done. unfold in_cidr.
  unfold cidr32. by rewrite (read_cidr32 _ _ Hx), read_host32.
Qed.
