(* ===== verification/SiteRules.v ===== *)
(** Site-to-site isolation on the hub: [backend/internal/site-isolation-rules.js].

    Validation of the pair list, the networks of a site, the plan, the nftables script
    (structured as [nft_table], printed by [render_table]), the verdict shown to the
    administrator, route warnings, and the reading of nft's JSON output. The specification
    side is [table_drops], the packet filter the script installs. Warning texts are not
    modelled, their codes and data are. *)

From S2P Require Import Prelude.
From S2P Require Import JsString.
From S2P Require Import JsRegex.
From S2P Require Import Cidr.
From S2P Require Import JsVal.
From S2P Require Import Json.
From S2P Require Import IngressRules.

Local Open Scope Z_scope.

(** * Constants and data *)

Definition SITE_TABLE : string := "floppyguard_sites".
Definition SITE_CHAIN : string := "forward".
Definition SITE_LINK_TYPES : list string := ["site-to-site"; "hub-link"].
Definition MAX_PAIRS : Z := 200.
Definition SITE_NAME_MAX : nat := 48.

(** [/^wg\d{1,3}:[A-Za-z0-9+/=]{1,64}$/] *)
Definition LINK_ID_RE : re :=
  RSeq (rlit "wg") (RSeq D13 (RSeq (RChar (is_char ":"))
    (rrep 1 63 (RChar (fun c => is_alnum c || one_of ["+"; "/"; "="]%char c))))).

Record link := Link {
  l_id : string;
  l_name : string;
  l_type : string;
  l_importedNetworks : list string;
  l_tunnelAddresses : list string }.

Record pair := Pair { pa : string; pb : string }.

#[export] Instance pair_eq_dec : EqDecision pair.
Proof. solve_decision. Defined.

Inductive skip_reason := Ipv6Unsupported | InvalidNet | DefaultRoute.

#[export] Instance skip_reason_eq_dec : EqDecision skip_reason.
Proof. solve_decision. Defined.

(** * Comments and set names *)

(** NFKD of a code unit below 256; code units outside that range are written as DEL. *)
Definition marked (base : ascii) : string := String base (String (chr 127) "").
Definition nfkd (c : ascii) : string :=
  let z := code c in
  let among (l : list Z) := existsb (Z.eqb z) l in
  if among [160] then " "
  else if among [168; 175; 180; 184] then marked " "
  else if among [170] then "a" else if among [186] then "o"
  else if among [178] then "2" else if among [179] then "3" else if among [185] then "1"
  else if among [181] then String (chr 127) ""
  else if among [188] then "1" +:+ marked (chr 127) +:+ "4"
  else if among [189] then "1" +:+ marked (chr 127) +:+ "2"
  else if among [190] then "3" +:+ marked (chr 127) +:+ "4"
  else if (192 <=? z) && (z <=? 197) then marked "A"
  else if among [199] then marked "C"
  else if (200 <=? z) && (z <=? 203) then marked "E"
  else if (204 <=? z) && (z <=? 207) then marked "I"
  else if among [209] then marked "N"
  else if (210 <=? z) && (z <=? 214) then marked "O"
  else if (217 <=? z) && (z <=? 220) then marked "U"
  else if among [221] then marked "Y"
  else if (224 <=? z) && (z <=? 229) then marked "a"
  else if among [231] then marked "c"
  else if (232 <=? z) && (z <=? 235) then marked "e"
  else if (236 <=? z) && (z <=? 239) then marked "i"
  else if among [241] then marked "n"
  else if (242 <=? z) && (z <=? 246) then marked "o"
  else if (249 <=? z) && (z <=? 252) then marked "u"
  else if among [253; 255] then marked "y"
  else String c "".

Definition translit (c : ascii) : string :=
  let z := code c in
  if z =? 228 then "ae" else if z =? 246 then "oe" else if z =? 252 then "ue"
  else if z =? 196 then "Ae" else if z =? 214 then "Oe" else if z =? 220 then "Ue"
  else if z =? 223 then "ss" else String c "".

(** [[A-Za-z0-9 ._()+:<>-]] *)
Definition comment_char (c : ascii) : bool :=
  is_alnum c || one_of [" "; "."; "_"; "("; ")"; "+"; ":"; "<"; ">"; "-"]%char c.

Definition sanitizeCommentText (value : string) (max : nat) : string :=
  let s := smap translit value in
  let s := smap nfkd s in
  let s := smap (fun c => if comment_char c then String c "" else " ") s in
  let s := trim (squeeze s) in
  let t := trim (stake max s) in
  if decide (t = "") then "site" else t.

Definition normalizePair (a b : string) : pair := if sltb a b then Pair a b else Pair b a.

Definition isSiteLink (l : option link) : bool :=
  match l with Some l => set_has SITE_LINK_TYPES (l_type l) | None => false end.

(** [a || b] on strings *)
Definition sor (a b : string) : string := if decide (a = "") then b else a.

Definition by_id (links : list link) : list (string * link) := mfrom ((fun l => (l_id l, l)) <$> links).

(** * Networks of a site *)

(** A skipped entry: the text shown (and whether it was clipped) and the reason. *)
Definition skip : Type := (string * bool) * skip_reason.

Definition echo (v : string) : string * bool := echoValue (VStr v).

Definition imported_entry (v : string) : skip + string :=
  if has_char ":" v then inl (echo v, Ipv6Unsupported)
  else match canonicalCidr v with
       | None => inl (echo v, InvalidNet)
       | Some c => if prefixOf c =? 0 then inl ((c, false), DefaultRoute) else inr c
       end.

(** [None]: an empty entry, passed over in silence. *)
Definition tunnel_entry (s : string) : option (skip + string) :=
  match canonicalCidr (if has_char "/" s then s else s +:+ "/32") with
  | Some c => if ends_with "/32" c then Some (inr c)
              else if decide (s = "") then None else Some (inl (echo s, InvalidNet))
  | None => if decide (s = "") then None else Some (inl (echo s, InvalidNet))
  end.

Definition entries_of (l : link) : list (skip + string) :=
  (imported_entry <$> l_importedNetworks l) ++ omap tunnel_entry (l_tunnelAddresses l).

Definition entry_net (e : skip + string) : option string :=
  match e with inr c => Some c | inl _ => None end.
Definition entry_skip (e : skip + string) : option skip :=
  match e with inl r => Some r | inr _ => None end.

(** [ipInt(x) - ipInt(y) || prefixOf(x) - prefixOf(y)] *)
Definition cidr_le (x y : string) : Prop :=
  ipInt x < ipInt y \/ (ipInt x = ipInt y /\ prefixOf x <= prefixOf y).
#[export] Instance cidr_le_dec x y : Decision (cidr_le x y).
Proof. unfold cidr_le. apply _. Defined.

Definition maximal_nets (l : list string) : list string :=
  bfilter (fun n => negb (existsb (fun o => negb (bool_decide (o = n)) && cidrContains o n) l)) l.

Definition siteNetworks (l : link) : list string * list skip :=
  let es := entries_of l in
  let raw := omap entry_net es in
  (merge_sort cidr_le (maximal_nets (uniq raw)), omap entry_skip es).

(** * Validation of the pair list *)

Inductive site_error : Type :=
| PairsNotArray
| TooManyPairs
| InvalidLinkId (i : nat) (field : string)
| UnknownLink (i : nat) (field : string)
| NotSiteLink (i : nat) (field : string)
| SamePair (i : nat)
| NonCanonicalCidr (n : string).

#[export] Instance site_error_eq_dec : EqDecision site_error.
Proof. solve_decision. Defined.

Definition trimmed_string (v : jsval) : string :=
  match v with VStr s => trim s | _ => "" end.

Definition check_link (byId : list (string * link)) (i : nat) (field v : string) : result site_error unit :=
  throw_if (negb (re_test LINK_ID_RE v)) (InvalidLinkId i field);;
  match mget v byId with
  | None => Throw (UnknownLink i field)
  | Some l => throw_if (negb (isSiteLink (Some l))) (NotSiteLink i field)
  end.

Definition pair_key (p : pair) : string := pa p +:+ "|" +:+ pb p.

Definition sanitizePair (byId : list (string * link)) (seen : list (string * pair)) (ip : nat * jsval)
    : result site_error (list (string * pair)) :=
  let a := trimmed_string (vget ip.2 "link_a") in
  let b := trimmed_string (vget ip.2 "link_b") in
  check_link byId ip.1 "link_a" a;;
  check_link byId ip.1 "link_b" b;;
  throw_if (bool_decide (a = b)) (SamePair ip.1);;
  let n := normalizePair a b in
  Ok (mset (pair_key n) n seen).

Definition sleb (x y : string) : bool := negb (sltb y x).
Definition pair_le (x y : pair) : Prop :=
  (if decide (pa x = pa y) then sleb (pb x) (pb y) else sltb (pa x) (pa y)) = true.
#[export] Instance pair_le_dec x y : Decision (pair_le x y).
Proof. unfold pair_le. apply _. Defined.

Definition sanitizePairs (input : jsval) (links : list link) : result site_error (list pair) :=
  match as_array input with
  | None => Throw PairsNotArray
  | Some l =>
      throw_if (MAX_PAIRS <? Z.of_nat (length l)) TooManyPairs;;
      seen ← foldM (sanitizePair (by_id links)) [] (zip (seq 0 (length l)) l);
      Ok (merge_sort pair_le seen.*2)
  end.

(** * The plan *)

Record site := Site { s_id : string; s_name : string; s_set : string; s_nets : list string }.

Inductive site_warning : Type :=
| NetworkSkipped (id name : string) (value : string * bool) (r : skip_reason)
| LinkMissing (id : string) (p : pair)
| LinkNotSite (id : string) (p : pair)
| NoNetworks (id : string) (p : pair)
| Overlap (p : pair) (networks : list string).

Record plan := Plan { pl_sites : list (string * site); pl_pairs : list pair; pl_warnings : list site_warning }.

Section script.
  Variable sha256hex : string -> string.

Definition siteSetName (linkId : string) : string := "site_" +:+ stake 10 (sha256hex linkId).

Definition mk_site (id : string) (l : link) : site :=
  Site id (sor (l_name l) id) (siteSetName id) (siteNetworks l).1.

(** [siteFor]: the site, cached in the map, with the warnings of its first use. *)
Definition siteFor (byId : list (string * link)) (st : plan) (id : string) : plan * option site :=
  match mget id (pl_sites st) with
  | Some s => (st, Some s)
  | None =>
      match mget id byId with
      | None => (st, None)
      | Some l =>
          let s := mk_site id l in
          let ws := (fun e => NetworkSkipped id (sor (l_name l) id) e.1 e.2) <$> (siteNetworks l).2 in
          (Plan (mset id s (pl_sites st)) (pl_pairs st) (pl_warnings st ++ ws), Some s)
      end
  end.

Definition warn (st : plan) (ws : list site_warning) : plan :=
  Plan (pl_sites st) (pl_pairs st) (pl_warnings st ++ ws).

(** The body of [for (const p of pairs)]. *)
Definition plan_pair (byId : list (string * link)) (st : plan) (p : pair) : plan :=
  let missing := bfilter (fun id => negb (mhas id byId)) [pa p; pb p] in
  if bool_decide (missing <> []) then warn st ((fun id => LinkMissing id p) <$> missing)
  else
    let notSite := bfilter (fun id => negb (isSiteLink (mget id byId))) [pa p; pb p] in
    if bool_decide (notSite <> []) then warn st ((fun id => LinkNotSite id p) <$> notSite)
    else
      let '(st, oA) := siteFor byId st (pa p) in
      let '(st, oB) := siteFor byId st (pb p) in
      match oA, oB with
      | Some A, Some B =>
          let empty := bfilter (fun s => bool_decide (s_nets s = [])) [A; B] in
          if bool_decide (s_id <$> empty <> []) then warn st ((fun s => NoNetworks (s_id s) p) <$> empty)
          else
            let overlap := bfilter (fun x => existsb (cidrOverlaps x) (s_nets B)) (s_nets A) in
            let st := if bool_decide (overlap <> []) then warn st [Overlap p overlap] else st in
            Plan (pl_sites st) (pl_pairs st ++ [p]) (pl_warnings st)
      | _, _ => st
      end.

Definition used_ids (ps : list pair) : list string := p ← ps; [pa p; pb p].

Definition planSiteIsolation (pairs : list pair) (links : list link) : plan :=
  let st := fold_left (plan_pair (by_id links)) pairs (Plan [] [] []) in
  Plan (filter (fun kv => kv.1 ∈ used_ids (pl_pairs st)) (pl_sites st)) (pl_pairs st) (pl_warnings st).

(** * The nftables script *)

Record nft_set := NftSet { ns_name : string; ns_comment : string; ns_elements : list string }.
Record nft_rule := NftRule { nr_saddr : string; nr_daddr : string; nr_comment : string }.
Record nft_table := NftTable { nt_sets : list nft_set; nt_rules : list nft_rule }.

Definition render_set (s : nft_set) : list string :=
  [String tab ("set " +:+ ns_name s +:+ " {");
   String tab (String tab "type ipv4_addr");
   String tab (String tab "flags interval");
   String tab (String tab ("comment " +:+ quoted (ns_comment s)));
   String tab (String tab ("elements = { " +:+ join ", " (ns_elements s) +:+ " }"));
   String tab "}"].

Definition render_rule (r : nft_rule) : string :=
  String tab (String tab ("ip saddr @" +:+ nr_saddr r +:+ " ip daddr @" +:+ nr_daddr r +:+
    " counter drop comment " +:+ quoted (nr_comment r))).

Definition script_header : list string :=
  ["#!/usr/sbin/nft -f";
   "# Managed by FloppyGuard - Standorte untereinander (site isolation). Do not edit:";
   "# the backend replaces this table atomically on every change.";
   "table inet floppyguard_sites {}";
   "delete table inet floppyguard_sites";
   "table inet floppyguard_sites {"].

Definition table_lines (t : nft_table) : list string :=
  script_header ++ (s ← nt_sets t; render_set s) ++
  [String tab "chain forward {";
   String tab (String tab "type filter hook forward priority filter - 10; policy accept;")] ++
  (render_rule <$> nt_rules t) ++ [String tab "}"; "}"; ""].

Definition render_table (t : nft_table) : string := join (String nl "") (table_lines t).

Definition set_le (x y : site) : Prop := sleb (s_set x) (s_set y) = true.
#[export] Instance set_le_dec x y : Decision (set_le x y).
Proof. unfold set_le. apply _. Defined.

Definition pair_comment (x y : site) : string :=
  sanitizeCommentText ("Standort-Trennung " +:+ sanitizeCommentText (s_name x) 40 +:+ " -> " +:+
                       sanitizeCommentText (s_name y) 40) 100.

Definition pair_rules (pl : plan) (p : pair) : list nft_rule :=
  match mget (pa p) (pl_sites pl), mget (pb p) (pl_sites pl) with
  | Some A, Some B => [NftRule (s_set A) (s_set B) (pair_comment A B);
                       NftRule (s_set B) (s_set A) (pair_comment B A)]
  | _, _ => []
  end.

Definition site_table (pl : plan) : nft_table :=
  NftTable ((fun s => NftSet (s_set s) (sanitizeCommentText (s_name s) SITE_NAME_MAX) (s_nets s)) <$>
              merge_sort set_le (pl_sites pl).*2)
           (p ← pl_pairs pl; pair_rules pl p).

Definition buildSiteIsolationNft (pairs : list pair) (links : list link) : result site_error string :=
  let pl := planSiteIsolation pairs links in
  match bfind (fun n => negb (bool_decide (canonicalCidr n = Some n)))
              (s ← merge_sort set_le (pl_sites pl).*2; s_nets s) with
  | Some n => Throw (NonCanonicalCidr n)
  | None => Ok (render_table (site_table pl))
  end.

Definition scriptHash (script : string) : string := sha256hex script.

(** * The verdict *)

Inductive direction := AtoB | BtoA.

Record pair_ref := PairRef { pr_pair : pair; pr_name_a : string; pr_name_b : string; pr_direction : direction }.

Record iso_verdict := IsoVerdict { v_blocked : bool; v_partial : bool; v_pair : option pair_ref }.

Definition inSet (s : site) (c : string) : bool := existsb (fun n => cidrContains n c) (s_nets s).
Definition touches (s : site) (c : string) : bool := existsb (fun n => cidrOverlaps n c) (s_nets s).

Fixpoint verdict_loop (pl : plan) (s d : string) (partial : option pair_ref) (ps : list pair) : iso_verdict :=
  match ps with
  | [] => IsoVerdict false (match partial with Some _ => true | None => false end) partial
  | p :: ps =>
      match mget (pa p) (pl_sites pl), mget (pb p) (pl_sites pl) with
      | Some A, Some B =>
          let ref := PairRef p (s_name A) (s_name B) in
          if inSet A s && inSet B d then IsoVerdict true false (Some (ref AtoB))
          else if inSet B s && inSet A d then IsoVerdict true false (Some (ref BtoA))
          else
            let partial := match partial with
                           | None => if touches A s && touches B d then Some (ref AtoB) else None
                           | Some r => Some r
                           end in
            let partial := match partial with
                           | None => if touches B s && touches A d then Some (ref BtoA) else None
                           | Some r => Some r
                           end in
            verdict_loop pl s d partial ps
      | _, _ => verdict_loop pl s d partial ps
      end
  end.

Definition siteIsolationVerdict (pairs : list pair) (links : list link) (src dst : string) : iso_verdict :=
  match canonicalCidr src, canonicalCidr dst with
  | Some s, Some d =>
      let pl := planSiteIsolation pairs links in verdict_loop pl s d None (pl_pairs pl)
  | _, _ => IsoVerdict false false None
  end.

End script.

(** * Routes an agent still has *)

Record site_agent := SiteAgent {
  sa_id : Z;
  sa_name : string;
  sa_wg_link_name : string;
  sa_allowed_networks : list string;
  sa_allowed_sites : list string }.

Inductive route_via := ViaNetworks | ViaSites | ViaMesh.

Record route_warning := RouteWarning {
  rw_agent_id : Z;
  rw_link_id : string;
  rw_other_link_id : string;
  rw_other_name : string;
  rw_networks : list string;
  rw_via : route_via }.

Definition name_count (links : list link) (n : string) : nat :=
  length (bfilter (fun l => bool_decide (l_name l = n)) links).

(** What the agent routes towards the other site; [null] lists are the empty lists. *)
Definition routed_nets (ag : site_agent) (other : link) : route_via * list string :=
  let otherNets := omap canonicalCidr (l_importedNetworks other) in
  if bool_decide (sa_allowed_networks ag <> []) then
    (ViaNetworks, bfilter (fun n => existsb (fun o => cidrOverlaps o n) otherNets)
                    (omap canonicalCidr (sa_allowed_networks ag)))
  else if bool_decide (sa_allowed_sites ag <> []) then
    (ViaSites, if bool_decide (l_name other ∈ sa_allowed_sites ag) then otherNets else [])
  else (ViaMesh, otherNets).

Definition route_warning_for (byId : list (string * link)) (ag : site_agent) (own : link) (p : pair)
    : option route_warning :=
  otherId ← (if decide (pa p = l_id own) then Some (pb p)
             else if decide (pb p = l_id own) then Some (pa p) else None);
  other ← mget otherId byId;
  if isSiteLink (Some other) then
    let '(via, nets) := routed_nets ag other in
    let nets := uniq nets in
    if decide (nets = []) then None
    else Some (RouteWarning (sa_id ag) (l_id own) (l_id other) (l_name other) nets via)
  else None.

Definition routeWarnings (pairs : list pair) (links : list link) (agents : list site_agent)
    : list route_warning :=
  ag ← agents;
  if bool_decide (sa_wg_link_name ag = "" \/ name_count links (sa_wg_link_name ag) <> 1%nat) then []
  else match bfind (fun l => bool_decide (l_name l = sa_wg_link_name ag)) links with
       | Some own => if isSiteLink (Some own) then omap (route_warning_for (by_id links) ag own) pairs else []
       | None => []
       end.

(** * Reading nft's JSON *)

(** [for (const x of v || [])]: a number, [true] or a plain object is not iterable and
    throws; the characters of a text are items without properties. *)
Definition iterate (v : jsval) : option (list jsval) :=
  if negb (truthy v) then Some []
  else match v with VArr l => Some l | VStr _ => Some [] | _ => None end.

(** [Number(v) || 0] *)
Definition num_default0 (v : jsval) : jsnum := let n := to_number v in if num_truthy n then n else NInt 0.

Definition set_ref (v : jsval) : option string :=
  match v with VStr (String "@" r) => Some r | _ => None end.

Record counter_scan := CounterScan { cs_saddr : string; cs_daddr : string; cs_counter : option jsval }.

Definition counter_expr (st : counter_scan) (e : jsval) : counter_scan :=
  let m := vget e "match" in
  let field := vget (vget (vget m "left") "payload") "field" in
  let st := match set_ref (vget m "right"), field with
            | Some r, VStr "saddr" => CounterScan r (cs_daddr st) (cs_counter st)
            | Some r, VStr "daddr" => CounterScan (cs_saddr st) r (cs_counter st)
            | _, _ => st
            end in
  if truthy (vget e "counter") then CounterScan (cs_saddr st) (cs_daddr st) (Some (vget e "counter")) else st.

Definition counter_item (out : list (string * (jsnum * jsnum))) (item : jsval) :=
  match as_array (vget (vget item "rule") "expr") with
  | None => out
  | Some expr =>
      let st := fold_left counter_expr expr (CounterScan "" "" None) in
      match cs_counter st with
      | Some c =>
          if bool_decide (cs_saddr st <> "" /\ cs_daddr st <> "") then
            mset (cs_saddr st +:+ ">" +:+ cs_daddr st)
                 (num_default0 (vget c "packets"), num_default0 (vget c "bytes")) out
          else out
      | None => out
      end
  end.

(** [None]: the code throws a TypeError. *)
Definition parseChainCounters (jsonText : string) : option (list (string * (jsnum * jsnum))) :=
  match json_parse jsonText with
  | None => Some []
  | Some doc => items ← iterate (vget doc "nftables"); Some (fold_left counter_item items [])
  end.

(** * Foreign drop rules *)

Fixpoint depth (v : jsval) : nat :=
  match v with
  | VArr l => S (fold_right max O (map depth l))
  | VObj l => S (fold_right max O (map (fun kv => depth kv.2) l))
  | _ => 1%nat
  end.

Notation set_env := (list (string * option (list string))).

(** [null] is [None] (so is an element whose "elem" is null, where the code throws). Each recursive call is on a part of the value, so [depth] is enough fuel. *)
Fixpoint addr_cidrs (fuel : nat) (value : jsval) (sets : set_env) : option (list string) :=
  match fuel with
  | O => None
  | S fuel =>
      match value with
      | VStr s =>
          match set_ref value with
          | Some r => default None (mget r sets)
          | None => c ← canonicalCidr (if has_char "/" s then s else s +:+ "/32"); Some [c]
          end
      | _ =>
          if truthy (vget value "prefix") then
            c ← canonicalCidr (to_string (vget (vget value "prefix") "addr") +:+ "/" +:+
                               to_string (vget (vget value "prefix") "len"));
            Some [c]
          else match vget value "set" with
          | VArr l => ls ← mapM (fun e => addr_cidrs fuel e sets) l; Some (concat ls)
          | _ =>
              let e := vget value "elem" in
              if is_undef e then None
              else addr_cidrs fuel (if is_nullish (vget e "val") then e else vget e "val") sets
          end
      end
  end.

Definition nftAddrToCidrs (value : jsval) (sets : set_env) : option (list string) :=
  addr_cidrs (depth value) value sets.

(** [`${o.family}|${o.table}|${name}`] *)
Definition nft_key (o : jsval) (name : jsval) : string :=
  to_string (vget o "family") +:+ "|" +:+ to_string (vget o "table") +:+ "|" +:+ to_string name.

Definition is_str (s : string) (v : jsval) : bool :=
  match v with VStr t => bool_decide (t = s) | _ => false end.

Definition is_forward_chain (it : jsval) : bool :=
  let c := vget it "chain" in
  is_str "forward" (vget c "hook") && negb (is_str "inet" (vget c "family") && is_str SITE_TABLE (vget c "table")).

Definition forward_chains (items : list jsval) : list string :=
  (fun it => nft_key (vget it "chain") (vget (vget it "chain") "name")) <$> bfilter is_forward_chain items.

Definition set_item (sets : set_env) (it : jsval) : set_env :=
  let s := vget it "set" in
  if truthy (vget s "name") && is_str "ipv4_addr" (vget s "type") then
    let elems := default [] (as_array (vget s "elem")) in
    mset (nft_key s (vget s "name")) (option_map (fun ls => concat ls) (mapM (fun e => nftAddrToCidrs e []) elems)) sets
  else sets.

Definition table_sets (sets : set_env) (r : jsval) : set_env :=
  let pre := to_string (vget r "family") +:+ "|" +:+ to_string (vget r "table") +:+ "|" in
  mfrom ((fun kv => (default "undefined" (split_char "|" kv.1 !! 2%nat), kv.2)) <$>
    bfilter (fun kv => starts_with pre kv.1) sets).

(** [k in e] for a truthy [e]: throws on primitives. *)
Definition key_in (k : string) (e : jsval) : option bool :=
  match e with VObj l => Some (mhas k l) | VArr _ => Some false | _ => None end.

(** [r.expr.some((e) => e && ("drop" in e || "reject" in e))] *)
Fixpoint has_drop (expr : list jsval) : option bool :=
  match expr with
  | [] => Some false
  | e :: expr =>
      if truthy e then
        d ← key_in "drop" e; r ← key_in "reject" e;
        if d || r then Some true else has_drop expr
      else has_drop expr
  end.

(** The addresses of one side: not matched, not resolvable, or a list. *)
Record drop_scan := DropScan {
  ds_src : option (option (list string)); ds_dst : option (option (list string));
  ds_srcSet : option string; ds_dstSet : option string; ds_extra : bool }.

Definition set_extra (st : drop_scan) : drop_scan :=
  DropScan (ds_src st) (ds_dst st) (ds_srcSet st) (ds_dstSet st) true.

Definition drop_expr (sets : set_env) (st : drop_scan) (e : jsval) : drop_scan :=
  match e with
  | VObj l =>
      let m := vget e "match" in
      if truthy m then
        let payload := vget (vget m "left") "payload" in
        let field := vget payload "field" in
        if is_str "ip" (vget payload "protocol") && (is_str "saddr" field || is_str "daddr" field) &&
           (is_str "==" (vget m "op") || is_str "in" (vget m "op")) then
          let right := vget m "right" in
          let cidrs := nftAddrToCidrs right sets in
          if is_str "saddr" field
          then DropScan (Some cidrs) (ds_dst st) (set_ref right) (ds_dstSet st) (ds_extra st)
          else DropScan (ds_src st) (Some cidrs) (ds_srcSet st) (set_ref right) (ds_extra st)
        else set_extra st
      else if existsb (fun k => mhas k l) ["counter"; "drop"; "reject"; "log"; "limit"] then st
      else set_extra st
  | VArr _ => set_extra st
  | _ => st
  end.

Record foreign_drop := ForeignDrop {
  fd_family : jsval; fd_table : jsval; fd_chain : jsval; fd_handle : jsval; fd_comment : option string;
  fd_src_set : option string; fd_dst_set : option string;
  fd_src : option (list string); fd_dst : option (list string); fd_extra : bool }.

(** One item of the ruleset; the outer [None] is a TypeError. *)
Definition drop_item (chains : list string) (sets : set_env) (it : jsval) : option (option foreign_drop) :=
  let r := vget it "rule" in
  if negb (truthy r) || negb (set_has chains (nft_key r (vget r "chain"))) then Some None
  else match as_array (vget r "expr") with
  | None => Some None
  | Some expr =>
      isDrop ← has_drop expr;
      if negb isDrop then Some None
      else
        let st := fold_left (drop_expr (table_sets sets r)) expr (DropScan None None None None false) in
        match ds_src st, ds_dst st with
        | Some src, Some dst =>
            Some (Some (ForeignDrop (vget r "family") (vget r "table") (vget r "chain") (or_null (vget r "handle"))
              (match vget r "comment" with VStr s => Some (stake 120 s) | _ => None end)
              (ds_srcSet st) (ds_dstSet st) src dst (ds_extra st)))
        | _, _ => Some None
        end
  end.

(** The argument is nft's output, a text or an already parsed document. *)
Definition parseForeignForwardDrops (input : jsval) : option (list foreign_drop) :=
  match (match input with VStr s => json_parse s | v => Some v end) with
  | None => Some []
  | Some doc =>
      let items := default [] (as_array (vget doc "nftables")) in
      let chains := forward_chains items in
      let sets := fold_left set_item items [] in
      ds ← mapM (drop_item chains sets) items;
      Some (omap id ds)
  end.

Definition anyOverlap (xs ys : list string) : bool := existsb (fun x => existsb (cidrOverlaps x) ys) xs.

Record nets_of := NetsOf { no_link_id : string; no_name : string; no_networks : list string; no_tunnel : list string }.

Definition all_nets (s : nets_of) : list string := no_networks s ++ no_tunnel s.

(** Does the rule touch both sites, in either direction? *)
Definition drop_hits (A B : list string) (d : foreign_drop) : bool :=
  match fd_src d, fd_dst d with
  | Some src, Some dst =>
      (anyOverlap src A && anyOverlap dst B) || (anyOverlap src B && anyOverlap dst A)
  | _, _ => false
  end.

Fixpoint site_pairs_of (sites : list nets_of) : list (nets_of * nets_of) :=
  match sites with
  | [] => []
  | s :: rest => ((fun t => (s, t)) <$> rest) ++ site_pairs_of rest
  end.

Definition manualSitePairs (drops : list foreign_drop) (sites : list nets_of) : list (pair * list foreign_drop) :=
  snd <$> fold_left (fun out st =>
    let hits := bfilter (drop_hits (all_nets st.1) (all_nets st.2)) drops in
    match hits with
    | [] => out
    | _ => let n := normalizePair (no_link_id st.1) (no_link_id st.2) in mset (pair_key n) (n, hits) out
    end) (site_pairs_of sites) [].

Record drop_verdict := DropVerdict { dv_blocked : bool; dv_partial : bool; dv_rule : option foreign_drop }.

Fixpoint drop_verdict_loop (s d : string) (partial : option foreign_drop) (drops : list foreign_drop) : drop_verdict :=
  match drops with
  | [] => DropVerdict false (match partial with Some _ => true | None => false end) partial
  | r :: drops =>
      match fd_src r, fd_dst r with
      | Some src, Some dst =>
          let full := existsb (fun n => cidrContains n s) src && existsb (fun n => cidrContains n d) dst in
          if full && negb (fd_extra r) then DropVerdict true false (Some r)
          else
            let partial := match partial with
                           | None => if anyOverlap src [s] && anyOverlap dst [d] then Some r else None
                           | Some r => Some r
                           end in
            drop_verdict_loop s d partial drops
      | _, _ => drop_verdict_loop s d partial drops
      end
  end.

Definition manualDropVerdict (drops : list foreign_drop) (src dst : string) : drop_verdict :=
  match canonicalCidr src, canonicalCidr dst with
  | Some s, Some d => drop_verdict_loop s d None drops
  | _, _ => DropVerdict false false None
  end.

(** * The boot configuration *)

(** [raw.replace(/#.*/, "")] *)
Definition strip_comment (raw : string) : string :=
  match index_of "#" raw with
  | None => raw
  | Some i => stake i raw +:+ (line_of (sdrop i raw)).2
  end.

(** The file name of an include line: the word, white space, a quoted non-empty text. *)
Definition include_target (line : string) : option string :=
  if starts_with "include" line then
    let r := sdrop 7 line in
    match trim_start r with
    | String q s =>
        if bool_decide (q = dquote) && negb (bool_decide (trim_start r = r)) then
          match index_of dquote s with
          | Some i => if decide (i = O) then None else Some (stake i s)
          | None => None
          end
        else None
    | "" => None
    end
  else None.

(** The glob's regular expression: every "*" is [[^/]*], everything else literal. *)
Fixpoint glob_re (g : string) : re :=
  match g with
  | "" => REps
  | String c g =>
      RSeq (if decide (c = "*"%char) then RStar (RChar (fun d => negb (is_char "/" d))) else RChar (is_char c))
           (glob_re g)
  end.

Fixpoint last_index_of (d : ascii) (s : string) : option nat :=
  match s with
  | "" => None
  | String c r => match last_index_of d r with
                  | Some i => Some (S i)
                  | None => if decide (c = d) then Some O else None
                  end
  end.

Definition include_matches (file inc : string) : bool :=
  let dirlen := match last_index_of "/" file with Some i => S i | None => O end in
  let dir := stake dirlen file in
  let base := sdrop dirlen file in
  bool_decide (inc = file) ||
  (starts_with dir inc && has_char "*" (sdrop dirlen inc) && re_test (glob_re (sdrop dirlen inc)) base).

Definition bootIncludesFile (confText file : string) : bool :=
  existsb (fun raw => match include_target (trim (strip_comment raw)) with
                      | Some inc => include_matches file inc
                      | None => false
                      end) (split_char nl confText).

(** * Networks of a site *)

Definition is_canonical (c : string) : Prop := canonicalCidr c = Some c.

Lemma canonical_result s c : canonicalCidr s = Some c -> is_canonical c.
Proof. intros (n & _ & Hn & ->)%canonicalCidr_Some. by apply canonicalCidr_show. Qed.

Lemma canonical_net c : is_canonical c -> exists n, net_wf n /\ c = show_net n.
Proof. intros (n & _ & Hn & ->)%canonicalCidr_Some. eauto. Qed.

Lemma canonical_contains_lt o c : is_canonical o -> is_canonical c -> o <> c ->
  cidrContains o c = true -> prefixOf o < prefixOf c.
Proof.
  intros (n & Hn & ->)%canonical_net (m & Hm & ->)%canonical_net Hne H.
  pose proof (proj1 (cidrContains_nets _ _ n m (read_show_net n Hn) (read_show_net m Hm)) H) as Hsub.
  apply in_net_subset in Hsub as [Hl Hd]; [|done..].
  rewrite (proj2 (show_net_parts n Hn)), (proj2 (show_net_parts m Hm)).
  destruct (decide (n_len n = n_len m)) as [He|]; [|lia]. exfalso. apply Hne. f_equal.
  destruct n as [a p], m as [b q], Hn as (_ & Hp & Ha), Hm as (_ & _ & Hb). simpl in *. subst q. f_equal.
  rewrite <- (mask_addr_id a p), <- (mask_addr_id b p) by done. by apply mask_addr_inj.
Qed.

Lemma elem_of_maximal n l :
  n ∈ maximal_nets l <-> n ∈ l /\ forall o, o ∈ l -> o <> n -> cidrContains o n = false.
Proof.
  unfold maximal_nets. rewrite elem_of_bfilter, negb_true_iff, existsb_false.
  setoid_rewrite andb_false_iff. setoid_rewrite negb_false_iff. setoid_rewrite bool_decide_eq_true.
  split; intros [Hn H]; (split; [done|]); intros o Ho; specialize (H o Ho); [naive_solver|].
  destruct (decide (o = n)); auto.
Qed.

(** Dropping the networks inside another one loses no address. *)
Lemma maximal_cover l c : Forall is_canonical l -> c ∈ l ->
  exists n, n ∈ maximal_nets l /\ forall x, in_cidr x c -> in_cidr x n.
Proof.
  rewrite Forall_forall. intros Hl.
  assert (forall k c, c ∈ l -> (Z.to_nat (prefixOf c) < k)%nat ->
    exists n, n ∈ maximal_nets l /\ forall x, in_cidr x c -> in_cidr x n) as Hk; [|eauto].
  intros k. induction k as [|k IH]; intros d Hd Hlt; [lia|].
  destruct (existsb (fun o => negb (bool_decide (o = d)) && cidrContains o d) l) eqn:He.
  - apply existsb_true in He as (o & Ho & [Hne Hc]%andb_true_iff).
    apply negb_true_iff, bool_decide_eq_false in Hne.
    pose proof (canonical_contains_lt o d (Hl o Ho) (Hl d Hd) Hne Hc).
    assert (0 <= prefixOf o).
    { destruct (canonical_net o (Hl o Ho)) as (n & Hn & ->). rewrite (proj2 (show_net_parts n Hn)).
      by apply Hn. }
    destruct (IH o Ho) as (n & Hn & Hx); [lia|]. exists n. split; [done|].
    intros x Hxd. apply Hx. by apply (cidrContains_in_cidr _ _ Hc).
  - exists d. split; [|done]. apply elem_of_maximal. split; [done|]. intros o Ho Hne.
    rewrite existsb_false in He. specialize (He o Ho). apply andb_false_iff in He as [He|]; [|done].
    by apply negb_false_iff, bool_decide_eq_true in He.
Qed.

Lemma maximal_disjoint l n m x : n ∈ maximal_nets l -> m ∈ maximal_nets l -> n <> m ->
  in_cidr x n -> in_cidr x m -> False.
Proof.
  rewrite !elem_of_maximal. intros [Hn Hnm] [Hm Hmm] Hne Hxn Hxm.
  assert (cidrOverlaps n m = true) as H by (apply cidrOverlaps_in_cidr; eauto).
  unfold cidrOverlaps in H. apply orb_true_iff in H as [H|H].
  - rewrite Hmm in H; done.
  - rewrite Hnm in H; [done|done|congruence].
Qed.

Lemma entries_canonical l c : c ∈ omap entry_net (entries_of l) -> is_canonical c.
Proof.
  rewrite list_elem_of_omap. intros (e & He & Hc). unfold entries_of in He.
  apply elem_of_app in He as [(v & -> & _)%list_elem_of_fmap|(t & _ & Ht)%list_elem_of_omap].
  - unfold imported_entry in Hc. destruct (has_char ":" v); [done|].
    destruct (canonicalCidr v) as [d|] eqn:Hv; [|done]. destruct (prefixOf d =? 0); simplify_eq/=.
    by apply canonical_result in Hv.
  - unfold tunnel_entry in Ht. destruct (canonicalCidr _) as [d|] eqn:Hv.
    + destruct (ends_with "/32" d); [|by destruct (decide _); simplify_eq/=]. simplify_eq/=.
      by apply canonical_result in Hv.
    + by destruct (decide _); simplify_eq/=.
Qed.

(** The addresses a link's site claims: its IPv4 networks other than a default route, and its
    tunnel addresses. *)
Definition claims (l : link) (x : Z) : Prop :=
  (exists v c, v ∈ l_importedNetworks l /\ has_char ":" v = false /\ canonicalCidr v = Some c /\
     prefixOf c <> 0 /\ in_cidr x c) \/
  (exists t c, t ∈ l_tunnelAddresses l /\ canonicalCidr (if has_char "/" t then t else t +:+ "/32") = Some c /\
     ends_with "/32" c = true /\ in_cidr x c).

Definition covered (nets : list string) (x : Z) : Prop := exists n, n ∈ nets /\ in_cidr x n.

Lemma raw_covers l x : covered (omap entry_net (entries_of l)) x <-> claims l x.
Proof.
  unfold covered, claims, entries_of. setoid_rewrite list_elem_of_omap.
  setoid_rewrite elem_of_app. setoid_rewrite list_elem_of_fmap. setoid_rewrite list_elem_of_omap. split.
  - intros (n & (e & [(v & -> & Hv)|(t & Ht & He)] & Hn) & Hx).
    + left. unfold imported_entry in Hn. destruct (has_char ":" v) eqn:Hcol; [done|].
      destruct (canonicalCidr v) as [d|] eqn:Hd; [|done].
      destruct (Z.eqb_spec (prefixOf d) 0); simplify_eq/=. by exists v, n.
    + right. unfold tunnel_entry in He. destruct (canonicalCidr _) as [d|] eqn:Hd.
      * destruct (ends_with "/32" d) eqn:Hw; [|by destruct (decide _); simplify_eq/=].
        simplify_eq/=. by exists t, n.
      * by destruct (decide _); simplify_eq/=.
  - intros [(v & c & Hv & Hcol & Hc & Hp & Hx)|(t & c & Ht & Hc & Hw & Hx)]; exists c; (split; [|done]).
    + exists (inr c). split; [left; exists v; split; [|done]|done].
      unfold imported_entry. rewrite Hcol, Hc. by destruct (Z.eqb_spec (prefixOf c) 0).
    + exists (inr c). split; [right; exists t; split; [done|]|done].
      unfold tunnel_entry. by rewrite Hc, Hw.
Qed.

#[export] Instance cidr_le_total : Total cidr_le.
Proof. intros x y. unfold cidr_le. destruct (Z.lt_trichotomy (ipInt x) (ipInt y)) as [?|[?|?]]; lia. Qed.

#[export] Instance cidr_le_trans : Transitive cidr_le.
Proof. intros x y z. unfold cidr_le. lia. Qed.

Definition interval_set_of (l : link) (nets : list string) : Prop :=
  Forall is_canonical nets /\ StronglySorted cidr_le nets /\ NoDup nets /\
  (forall n m x, n ∈ nets -> m ∈ nets -> in_cidr x n -> in_cidr x m -> n = m) /\
  (forall x, covered nets x <-> claims l x).

Lemma site_interval_set l : interval_set_of l (siteNetworks l).1.
Proof.
  unfold interval_set_of, siteNetworks. cbn [fst]. set (raw := omap entry_net (entries_of l)).
  assert (Forall is_canonical (uniq raw)) as Hcan.
  { apply Forall_forall. intros c Hc. rewrite elem_of_uniq in Hc. exact (entries_canonical l c Hc). }
  pose proof (merge_sort_Permutation cidr_le (maximal_nets (uniq raw))) as Hp.
  assert (forall n, n ∈ merge_sort cidr_le (maximal_nets (uniq raw)) <-> n ∈ maximal_nets (uniq raw)) as Hel.
  { intros n. by rewrite Hp. }
  split_and!.
  - apply Forall_forall. intros c [Hc _]%Hel%elem_of_maximal. rewrite Forall_forall in Hcan. auto.
  - apply (StronglySorted_merge_sort _).
  - rewrite Hp. apply NoDup_bfilter, NoDup_uniq.
  - intros n m x Hn%Hel Hm%Hel Hxn Hxm. destruct (decide (n = m)); [done|].
    by destruct (maximal_disjoint _ n m x Hn Hm).
  - intros x. rewrite <- raw_covers. unfold covered. setoid_rewrite Hel. split.
    + intros (n & [Hn _]%elem_of_maximal & Hx). exists n. by rewrite elem_of_uniq in Hn.
    + intros (c & Hc & Hx). destruct (maximal_cover (uniq raw) c Hcan) as (n & Hn & Hcn).
      * by apply elem_of_uniq.
      * exists n. eauto.
Qed.

Lemma site_nets_spec l x : covered (siteNetworks l).1 x <-> claims l x.
Proof. apply site_interval_set. Qed.

Lemma siteNetworks_interval_set_canonical l n : n ∈ (siteNetworks l).1 -> canonicalCidr n = Some n.
Proof. destruct (site_interval_set l) as (H & _). rewrite Forall_forall in H. apply H. Qed.

(** The elements of a site's nft set are exactly what an interval set accepts and what
    the site is: canonical, sorted by address, pairwise disjoint, and together they hold
    precisely the addresses the link claims. *)
Theorem siteNetworks_interval_set l :
  let nets := (siteNetworks l).1 in
  Forall is_canonical nets /\ StronglySorted cidr_le nets /\ NoDup nets /\
  (forall n m x, n ∈ nets -> m ∈ nets -> in_cidr x n -> in_cidr x m -> n = m) /\
  (forall x, covered nets x <-> claims l x).
Proof. apply site_interval_set. Qed.

Arguments siteNetworks : simpl never.

(** * What the plan contains *)

Section plan_spec.
  Variable sha256hex : string -> string.
  Notation planSiteIsolation := (planSiteIsolation sha256hex).
  Notation mk_site := (mk_site sha256hex).

(** The pair can be enforced: both links exist, are sites and have networks. *)
Definition enforced (byId : list (string * link)) (p : pair) : Prop :=
  exists A B, mget (pa p) byId = Some A /\ mget (pb p) byId = Some B /\
    isSiteLink (Some A) = true /\ isSiteLink (Some B) = true /\
    (siteNetworks A).1 <> [] /\ (siteNetworks B).1 <> [].

(** Every site of the map is the site of its link. *)
Definition sites_ok (byId : list (string * link)) (sites : list (string * site)) : Prop :=
  NoDup sites.*1 /\
  forall id s, mget id sites = Some s -> exists l, mget id byId = Some l /\ s = mk_site id l.

Lemma siteFor_spec byId st id l : sites_ok byId (pl_sites st) -> mget id byId = Some l ->
  exists st', siteFor sha256hex byId st id = (st', Some (mk_site id l)) /\
    pl_pairs st' = pl_pairs st /\ sites_ok byId (pl_sites st') /\
    mget id (pl_sites st') = Some (mk_site id l) /\
    (forall k, mhas k (pl_sites st) = true -> mhas k (pl_sites st') = true).
Proof.
  intros [Hn Hok] Hl. unfold siteFor. destruct (mget id (pl_sites st)) as [s|] eqn:Hs.
  - destruct (Hok id s Hs) as (l' & Hl' & ->). simplify_eq. exists st. by split_and!.
  - rewrite Hl. eexists. split; [reflexivity|]. split_and!; cbn [pl_pairs pl_sites].
    + done.
    + split; [by apply NoDup_mset|]. intros k s. rewrite mget_mset.
      destruct (decide (id = k)) as [->|]; [|apply Hok]. intros [= <-]. eauto.
    + by rewrite mget_mset_eq.
    + intros k. rewrite !mhas_spec, mset_keys. destruct (decide _); set_solver.
Qed.

Lemma bfilter_nil_two (f : string -> bool) x y : bfilter f [x; y] = [] <-> f x = false /\ f y = false.
Proof. unfold bfilter. simpl. destruct (f x), (f y); naive_solver. Qed.

(** One step of the loop over the pairs. *)
Lemma plan_pair_spec byId st p : sites_ok byId (pl_sites st) ->
  let st' := plan_pair sha256hex byId st p in
  sites_ok byId (pl_sites st') /\
  (forall k, mhas k (pl_sites st) = true -> mhas k (pl_sites st') = true) /\
  ((enforced byId p /\ pl_pairs st' = pl_pairs st ++ [p] /\
      mhas (pa p) (pl_sites st') = true /\ mhas (pb p) (pl_sites st') = true) \/
   (~ enforced byId p /\ pl_pairs st' = pl_pairs st)).
Proof.
  intros Hok. cbv zeta. unfold plan_pair. case_bool_decide as Hm.
  { split_and!; [done..|]. right. split; [|done]. intros (A & B & HA & HB & _). apply Hm.
    apply bfilter_nil_two. unfold mhas. by rewrite HA, HB. }
  apply bfilter_nil_two in Hm as [Ha Hb].
  unfold mhas in Ha, Hb. destruct (mget (pa p) byId) as [A|] eqn:HA; [|done].
  destruct (mget (pb p) byId) as [B|] eqn:HB; [|done]. clear Ha Hb.
  case_bool_decide as Ht.
  { split_and!; [done..|]. right. split; [|done]. intros (A' & B' & HA' & HB' & Hs & Hs' & _). apply Ht.
    apply bfilter_nil_two. simplify_eq. by rewrite HA, HB, Hs, Hs'. }
  apply bfilter_nil_two in Ht as [Ha Hb].
  rewrite HA in Ha. rewrite HB in Hb. apply negb_false_iff in Ha, Hb.
  destruct (siteFor_spec byId st (pa p) A Hok HA) as (st1 & -> & Hp1 & Hok1 & Hg1 & Hk1).
  destruct (siteFor_spec byId st1 (pb p) B Hok1 HB) as (st2 & -> & Hp2 & Hok2 & Hg2 & Hk2).
  case_bool_decide as He.
  - cbn [warn pl_sites pl_pairs]. split_and!; [done|auto|]. right. split; [|by rewrite Hp2].
    intros (A' & B' & HA' & HB' & _ & _ & HnA & HnB). simplify_eq. apply He. unfold bfilter. cbn.
    rewrite !bool_decide_eq_false_2; done.
  - unfold bfilter in He. cbn in He.
    destruct (bool_decide ((siteNetworks A).1 = [])) eqn:H1; [done|].
    destruct (bool_decide ((siteNetworks B).1 = [])) eqn:H2; [done|].
    apply bool_decide_eq_false in H1, H2.
    assert (mhas (pa p) (pl_sites st2) = true /\ mhas (pb p) (pl_sites st2) = true) as [HhA HhB].
    { split; [apply Hk2|]; unfold mhas; by rewrite ?Hg1, ?Hg2. }
    destruct (bool_decide _); cbn [warn pl_sites pl_pairs];
      (split_and!; [done|auto|]); left; (split_and!; [|by rewrite Hp2, Hp1|done..]);
      exists A, B; done.
Qed.

Lemma plan_loop_spec byId ps st : sites_ok byId (pl_sites st) ->
  let st' := fold_left (plan_pair sha256hex byId) ps st in
  sites_ok byId (pl_sites st') /\
  (forall k, mhas k (pl_sites st) = true -> mhas k (pl_sites st') = true) /\
  (forall p, p ∈ pl_pairs st' <-> p ∈ pl_pairs st \/ (p ∈ ps /\ enforced byId p)) /\
  ((forall p, p ∈ pl_pairs st -> mhas (pa p) (pl_sites st) = true /\ mhas (pb p) (pl_sites st) = true) ->
   (forall p, p ∈ pl_pairs st' -> mhas (pa p) (pl_sites st') = true /\ mhas (pb p) (pl_sites st') = true)).
Proof.
  revert st. induction ps as [|p ps IH]; intros st Hok; cbn [fold_left].
  { split_and!; [done..| |done]. set_solver. }
  destruct (plan_pair_spec byId st p Hok) as (Hok1 & Hk1 & Hcase).
  destruct (IH (plan_pair sha256hex byId st p) Hok1) as (Hok2 & Hk2 & Hel & Hkeys).
  split_and!; [done|by auto| |].
  - intros q. rewrite Hel. setoid_rewrite elem_of_cons.
    destruct Hcase as [(He & -> & _)|(He & ->)]; [rewrite elem_of_app, list_elem_of_singleton|]; naive_solver.
  - intros Hst. apply Hkeys. intros q. destruct Hcase as [(He & -> & HA & HB)|(He & ->)].
    + rewrite elem_of_app, list_elem_of_singleton. intros [Hq| ->]; [|done].
      destruct (Hst q Hq). auto.
    + intros Hq. destruct (Hst q Hq). auto.
Qed.

Lemma mget_filter_keys {V} (l : list string) k (m : list (string * V)) :
  mget k (filter (fun kv => kv.1 ∈ l) m) = if decide (k ∈ l) then mget k m else None.
Proof.
  induction m as [|[q v] m IH]; [by case_decide|]. rewrite filter_cons. cbn [fst mget].
  destruct (decide (q ∈ l)) as [Hq|Hq]; cbn [mget]; rewrite IH; repeat case_decide; subst; done.
Qed.

Lemma NoDup_filter_keys {V} (l : list string) (m : list (string * V)) :
  NoDup m.*1 -> NoDup (filter (fun kv => kv.1 ∈ l) m).*1.
Proof.
  induction m as [|[q v] m IH]; csimpl; [done|]. rewrite NoDup_cons. intros [Hq Hm].
  rewrite filter_cons. cbn [fst]. destruct (decide (q ∈ l)); [|by apply IH]. csimpl. constructor; [|by apply IH].
  contradict Hq. apply list_elem_of_fmap in Hq as ([k w] & -> & Hk).
  apply list_elem_of_filter in Hk as [_ Hk]. apply list_elem_of_fmap. by exists (k, w).
Qed.

(** What [planSiteIsolation] returns. *)
Lemma plan_spec pairs links :
  let pl := planSiteIsolation pairs links in
  sites_ok (by_id links) (pl_sites pl) /\
  (forall p, p ∈ pl_pairs pl <-> p ∈ pairs /\ enforced (by_id links) p) /\
  (forall p, p ∈ pl_pairs pl -> exists A B,
     mget (pa p) (by_id links) = Some A /\ mget (pb p) (by_id links) = Some B /\
     mget (pa p) (pl_sites pl) = Some (mk_site (pa p) A) /\
     mget (pb p) (pl_sites pl) = Some (mk_site (pb p) B)).
Proof.
  cbv zeta. unfold SiteRules.planSiteIsolation. cbn [pl_sites pl_pairs].
  destruct (plan_loop_spec (by_id links) pairs (Plan [] [] [])) as (Hok & _ & Hel & Hkeys).
  { split; [constructor|done]. }
  set (st := fold_left _ _ _) in *. cbn [pl_pairs] in Hel, Hkeys.
  assert (sites_ok (by_id links) (filter (fun kv => kv.1 ∈ used_ids (pl_pairs st)) (pl_sites st))) as Hok'.
  { destruct Hok as [Hn Hok]. split; [by apply NoDup_filter_keys|].
    intros id s. rewrite mget_filter_keys.
    case_decide; [apply Hok|done]. }
  split_and!; [done| |].
  - intros p. rewrite Hel. set_solver.
  - intros p Hp. destruct (Hkeys ltac:(set_solver) p Hp) as [HA HB]. unfold mhas in HA, HB.
    destruct (mget (pa p) (pl_sites st)) as [sA|] eqn:HsA; [|done].
    destruct (mget (pb p) (pl_sites st)) as [sB|] eqn:HsB; [|done].
    destruct Hok as [_ Hok]. destruct (Hok _ _ HsA) as (A & HlA & ->), (Hok _ _ HsB) as (B & HlB & ->).
    exists A, B. rewrite !mget_filter_keys, HsA, HsB.
    assert (forall k, k = pa p \/ k = pb p -> k ∈ used_ids (pl_pairs st)) as Hu.
    { intros k Hk. apply list_elem_of_bind. exists p. split; [set_solver|done]. }
    rewrite !decide_True by (apply Hu; auto). done.
Qed.

(** The separation the administrator asked for, as far as it can be enforced. *)
Definition isolated (pairs : list pair) (links : list link) (x y : Z) : Prop :=
  exists p A B, p ∈ pairs /\ enforced (by_id links) p /\
    mget (pa p) (by_id links) = Some A /\ mget (pb p) (by_id links) = Some B /\
    ((claims A x /\ claims B y) \/ (claims B x /\ claims A y)).

(** * The script as a packet filter *)

Definition in_nft_set (t : nft_table) (name : string) (x : Z) : Prop :=
  exists s, s ∈ nt_sets t /\ ns_name s = name /\ covered (ns_elements s) x.

Definition table_drops (t : nft_table) (x y : Z) : Prop :=
  exists r, r ∈ nt_rules t /\ in_nft_set t (nr_saddr r) x /\ in_nft_set t (nr_daddr r) y.

Lemma mk_site_claims id l x : covered (s_nets (mk_site id l)) x <-> claims l x.
Proof. cbn. apply site_nets_spec. Qed.

Lemma plan_sets pairs links s :
  s ∈ nt_sets (site_table (planSiteIsolation pairs links)) <->
  exists id l, mget id (pl_sites (planSiteIsolation pairs links)) = Some (mk_site id l) /\
    mget id (by_id links) = Some l /\
    s = NftSet (siteSetName sha256hex id) (sanitizeCommentText (sor (l_name l) id) SITE_NAME_MAX) (siteNetworks l).1.
Proof.
  destruct (plan_spec pairs links) as ([Hn Hok] & _ & _).
  unfold site_table. cbn [nt_sets]. rewrite list_elem_of_fmap.
  setoid_rewrite (fun x => elem_of_Permutation_proper x _ _ (merge_sort_Permutation set_le _)).
  setoid_rewrite list_elem_of_fmap. split.
  - intros (v & -> & ([id w] & -> & Hin)). apply (elem_of_mget _ _ _ Hn) in Hin.
    destruct (Hok _ _ Hin) as (l & Hl & ->). exists id, l. split_and!; done.
  - intros (id & l & Hs & Hl & ->). exists (mk_site id l). split; [done|].
    exists (id, mk_site id l). split; [done|]. by apply mget_elem_of.
Qed.

Lemma plan_rules pairs links r :
  r ∈ nt_rules (site_table (planSiteIsolation pairs links)) <->
  exists p A B, p ∈ pairs /\ enforced (by_id links) p /\
    mget (pa p) (by_id links) = Some A /\ mget (pb p) (by_id links) = Some B /\
    let sA := mk_site (pa p) A in let sB := mk_site (pb p) B in
    (r = NftRule (s_set sA) (s_set sB) (pair_comment sA sB) \/
     r = NftRule (s_set sB) (s_set sA) (pair_comment sB sA)).
Proof.
  destruct (plan_spec pairs links) as (_ & Hp & Hs). unfold site_table. cbn [nt_rules].
  rewrite list_elem_of_bind. unfold pair_rules. split.
  - intros (p & Hr & Hin). destruct (Hs p Hin) as (A & B & HA & HB & HsA & HsB).
    rewrite HsA, HsB in Hr. apply Hp in Hin as [Hin He]. exists p, A, B. split_and!; try done.
    rewrite !elem_of_cons, elem_of_nil in Hr. cbv zeta. tauto.
  - intros (p & A & B & Hin & He & HA & HB & Hr). exists p.
    assert (p ∈ pl_pairs (planSiteIsolation pairs links)) as Hpl by (by apply Hp).
    split; [|done]. destruct (Hs p Hpl) as (A' & B' & HA' & HB' & HsA & HsB).
    rewrite HsA, HsB. simplify_eq. rewrite !elem_of_cons, elem_of_nil. cbv zeta in Hr. tauto.
Qed.

(** Set names are told apart by the truncated hash. *)
Definition set_names_distinct (links : list link) : Prop :=
  forall l m, l ∈ links -> m ∈ links -> siteSetName sha256hex (l_id l) = siteSetName sha256hex (l_id m) ->
    l_id l = l_id m.

Lemma mget_mfrom_elem {V} (l : list (string * V)) k v : mget k (mfrom l) = Some v -> (k, v) ∈ l.
Proof.
  unfold mfrom. assert (forall m, mget k (foldl (fun m kv => mset kv.1 kv.2 m) m l) = Some v ->
    (k, v) ∈ l \/ mget k m = Some v) as H.
  { induction l as [|[q w] l IH]; intros m; cbn [foldl]; [by right|]. intros [?|Hm]%IH; [set_solver|].
    cbn in Hm. rewrite mget_mset in Hm. case_decide; simplify_eq; [left; by left|by right]. }
  intros [?|?]%H; done.
Qed.

Lemma by_id_elem links id l : mget id (by_id links) = Some l -> l ∈ links /\ l_id l = id.
Proof.
  intros Hm. apply mget_mfrom_elem in Hm. apply list_elem_of_fmap in Hm as (l' & [= -> ->] & Hl). done.
Qed.

Lemma in_plan_set pairs links id l x : set_names_distinct links ->
  mget id (pl_sites (planSiteIsolation pairs links)) = Some (mk_site id l) ->
  mget id (by_id links) = Some l ->
  in_nft_set (site_table (planSiteIsolation pairs links)) (siteSetName sha256hex id) x <-> claims l x.
Proof.
  intros Hinj Hs Hl. rewrite <- (mk_site_claims id). unfold in_nft_set. setoid_rewrite plan_sets. split.
  - intros (s & (id' & l' & Hs' & Hl' & ->) & Hname & Hx). cbn [ns_name ns_elements] in *.
    destruct (by_id_elem _ _ _ Hl) as [Hin Hid], (by_id_elem _ _ _ Hl') as [Hin' Hid'].
    assert (id' = id) as ->.
    { rewrite <- Hid, <- Hid'. apply Hinj; [done..|]. by rewrite Hid, Hid'. }
    simplify_eq. exact Hx.
  - intros Hx. eexists. split_and!; [by exists id, l|done|exact Hx].
Qed.

Lemma enforced_isolated_sites pairs links p A B : p ∈ pairs -> enforced (by_id links) p ->
  mget (pa p) (by_id links) = Some A -> mget (pb p) (by_id links) = Some B ->
  mget (pa p) (pl_sites (planSiteIsolation pairs links)) = Some (mk_site (pa p) A) /\
  mget (pb p) (pl_sites (planSiteIsolation pairs links)) = Some (mk_site (pb p) B).
Proof.
  intros Hp He HA HB. destruct (plan_spec pairs links) as (_ & Hel & Hs).
  destruct (Hs p) as (A' & B' & HA' & HB' & HsA & HsB); [by apply Hel|]. simplify_eq. done.
Qed.

Lemma buildSiteIsolationNft_helper pairs links : set_names_distinct links ->
  forall x y, table_drops (site_table (planSiteIsolation pairs links)) x y <-> isolated pairs links x y.
Proof.
  intros Hinj x y. unfold table_drops, isolated. setoid_rewrite plan_rules. split.
  - intros (r & (p & A & B & Hp & He & HA & HB & Hr) & Hx & Hy).
    destruct (enforced_isolated_sites pairs links p A B) as [HsA HsB]; [done..|].
    exists p, A, B. split_and!; try done.
    destruct Hr as [-> | ->]; cbn [nr_saddr nr_daddr s_set SiteRules.mk_site] in *; [left|right];
      eapply in_plan_set in Hx; try done; eapply in_plan_set in Hy; done.
  - intros (p & A & B & Hp & He & HA & HB & Hxy).
    destruct (enforced_isolated_sites pairs links p A B) as [HsA HsB]; [done..|].
    set (sA := mk_site (pa p) A). set (sB := mk_site (pb p) B).
    destruct Hxy as [[Hx Hy]|[Hx Hy]];
      [exists (NftRule (s_set sA) (s_set sB) (pair_comment sA sB))
      |exists (NftRule (s_set sB) (s_set sA) (pair_comment sB sA))];
      (split; [exists p, A, B; split_and!; try done; cbv zeta; by auto|]);
      split; cbn [nr_saddr nr_daddr s_set sA sB SiteRules.mk_site];
      eapply in_plan_set; done.
Qed.

(** C7. The generated script never fails to build, and the table it installs drops exactly
    the traffic between the addresses of two sites of an enforceable pair, both ways. *)
Theorem buildSiteIsolationNft_refines pairs links :
  set_names_distinct links ->
  let t := site_table (planSiteIsolation pairs links) in
  buildSiteIsolationNft sha256hex pairs links = Ok (render_table t) /\
  forall x y, table_drops t x y <-> isolated pairs links x y.
Proof.
  intros Hinj. cbv zeta. split; [|by apply buildSiteIsolationNft_helper].
  unfold buildSiteIsolationNft. destruct (bfind _ _) as [n|] eqn:Hf; [|done]. exfalso.
  apply bfind_Some in Hf as [(s & Hn & Hs)%list_elem_of_bind Hc].
  rewrite merge_sort_Permutation in Hs. apply list_elem_of_fmap in Hs as ([id w] & -> & Hin).
  destruct (plan_spec pairs links) as ([Hnd Hok] & _). apply (elem_of_mget _ _ _ Hnd) in Hin.
  destruct (Hok _ _ Hin) as (l & _ & ->). pose proof (siteNetworks_interval_set_canonical l n Hn) as Hcan.
  rewrite bool_decide_eq_true_2 in Hc; done.
Qed.

(** * The verdict *)

Lemma inSet_covers s c x : inSet s c = true -> in_cidr x c -> covered (s_nets s) x.
Proof.
  unfold inSet. intros (n & Hn & Hc)%existsb_true Hx. exists n. split; [done|].
  by apply (cidrContains_in_cidr _ _ Hc).
Qed.

Lemma touches_spec s c : touches s c = true <-> exists x, in_cidr x c /\ covered (s_nets s) x.
Proof.
  unfold touches, covered. rewrite existsb_true. setoid_rewrite cidrOverlaps_in_cidr. naive_solver.
Qed.

Lemma inSet_touches s c : is_Some (canonicalCidr c) -> inSet s c = true -> touches s c = true.
Proof.
  intros [d Hd] H. apply touches_spec. apply canonicalCidr_Some in Hd as (n & Hn & Hw & _).
  exists (n_addr n). assert (in_cidr (n_addr n) c) by (exists n; eauto using in_net_self).
  split; [done|]. by apply (inSet_covers s c).
Qed.

(** How a pair meets two ranges, in either direction. *)
Definition pair_meets (f : site -> string -> bool) (links : list link) (p : pair) (s d : string) : Prop :=
  exists A B, mget (pa p) (by_id links) = Some A /\ mget (pb p) (by_id links) = Some B /\
    let sA := mk_site (pa p) A in let sB := mk_site (pb p) B in
    ((f sA s = true /\ f sB d = true) \/ (f sB s = true /\ f sA d = true)).

Lemma verdict_loop_spec pairs links s d part ps :
  (forall p, p ∈ ps -> p ∈ pl_pairs (planSiteIsolation pairs links)) ->
  let v := verdict_loop (planSiteIsolation pairs links) s d part ps in
  (v_blocked v = true <-> exists p, p ∈ ps /\ pair_meets inSet links p s d) /\
  (v_blocked v = true -> v_partial v = false) /\
  (v_blocked v = false -> v_partial v = true <->
     is_Some part \/ exists p, p ∈ ps /\ pair_meets touches links p s d).
Proof.
  cbv zeta. revert part. induction ps as [|p ps IH]; intros part Hps.
  { cbn. assert (forall P : pair -> Prop, ~ exists p, p ∈ @nil pair /\ P p) as Hnil.
    { intros P (p & Hp & _). by apply not_elem_of_nil in Hp. }
    split_and!; [split; [done|intros []%Hnil]|done|intros _]. destruct part.
    - split; [intros _; left; eauto|done].
    - split; [done|]. intros [[? ?]|[]%Hnil]; done. }
  destruct (plan_spec pairs links) as (_ & _ & Hs).
  destruct (Hs p) as (A & B & HA & HB & HsA & HsB); [apply Hps; by left|].
  assert (forall f, pair_meets f links p s d <->
    (f (mk_site (pa p) A) s = true /\ f (mk_site (pb p) B) d = true) \/
    (f (mk_site (pb p) B) s = true /\ f (mk_site (pa p) A) d = true)) as Hmeets.
  { intros f. unfold pair_meets. split; [intros (A' & B' & ? & ? & H); simplify_eq; done|].
    intros H. exists A, B. done. }
  cbn [verdict_loop]. rewrite HsA, HsB. setoid_rewrite elem_of_cons.
  assert (forall p, p ∈ ps -> p ∈ pl_pairs (planSiteIsolation pairs links)) as Hps' by set_solver.
  destruct (inSet (mk_site (pa p) A) s && inSet (mk_site (pb p) B) d) eqn:H1.
  { apply andb_true_iff in H1. cbn [v_blocked v_partial]. split_and!; [|done|done].
    split; [intros _|done]. exists p. split; [by left|]. apply Hmeets. tauto. }
  destruct (inSet (mk_site (pb p) B) s && inSet (mk_site (pa p) A) d) eqn:H2.
  { apply andb_true_iff in H2. cbn [v_blocked v_partial]. split_and!; [|done|done].
    split; [intros _|done]. exists p. split; [by left|]. apply Hmeets. tauto. }
  apply andb_false_iff in H1, H2.
  assert (~ pair_meets inSet links p s d) as Hno.
  { rewrite Hmeets. intros [[Ha Hb]|[Ha Hb]]; destruct H1, H2; congruence. }
  match goal with |- context [verdict_loop _ _ _ ?q ps] => set (part' := q) end.
  assert (is_Some part' <-> is_Some part \/ pair_meets touches links p s d) as Hpart.
  { rewrite Hmeets. subst part'. destruct part as [r|]; [naive_solver|].
    destruct (touches (mk_site (pa p) A) s && touches (mk_site (pb p) B) d) eqn:T1.
    - apply andb_true_iff in T1. split; [intros _|by eauto]. right. tauto.
    - apply andb_false_iff in T1.
      destruct (touches (mk_site (pb p) B) s && touches (mk_site (pa p) A) d) eqn:T2.
      + apply andb_true_iff in T2. split; [intros _|by eauto]. right. tauto.
      + apply andb_false_iff in T2. split; [intros [? ?]; done|].
        intros [[? ?]|[[Ha Hb]|[Ha Hb]]]; [done| |]; exfalso; destruct T1, T2; congruence. }
  destruct (IH part' Hps') as (I1 & I2 & I3). split_and!; [|done|].
  - rewrite I1. split; [intros (q & Hq & Hm); exists q; split; [by right|done]|].
    intros (q & [-> |Hq] & Hm); [done|by exists q].
  - intros Hb. rewrite (I3 Hb), Hpart. split.
    + intros [[?|?]|(q & Hq & Hm)]; [by left|right; exists p; split; [by left|done]|
        right; exists q; split; [by right|done]].
    + intros [?|(q & [-> |Hq] & Hm)]; [by left; left|by left; right|right; by exists q].
Qed.

Lemma pair_meets_isolated pairs links p s d x y : p ∈ pl_pairs (planSiteIsolation pairs links) ->
  pair_meets inSet links p s d -> in_cidr x s -> in_cidr y d -> isolated pairs links x y.
Proof.
  intros Hp (A & B & HA & HB & H) Hx Hy. destruct (plan_spec pairs links) as (_ & Hel & _).
  apply Hel in Hp as [Hp He]. exists p, A, B. split_and!; try done. cbv zeta in H.
  destruct H as [[H1 H2]|[H1 H2]]; [left|right];
    (split; eapply mk_site_claims; [exact (inSet_covers _ _ _ H1 Hx)|exact (inSet_covers _ _ _ H2 Hy)]).
Qed.

Lemma isolated_meets pairs links s d :
  (exists p, p ∈ pl_pairs (planSiteIsolation pairs links) /\ pair_meets touches links p s d) <->
  exists x y, in_cidr x s /\ in_cidr y d /\ isolated pairs links x y.
Proof.
  destruct (plan_spec pairs links) as (_ & Hel & _). split.
  - intros (p & Hp & A & B & HA & HB & H). apply Hel in Hp as [Hp He].
    destruct H as [[(x & Hx & Hcx)%touches_spec (y & Hy & Hcy)%touches_spec]|
                   [(x & Hx & Hcx)%touches_spec (y & Hy & Hcy)%touches_spec]];
      apply mk_site_claims in Hcx, Hcy; exists x, y; (split_and!; [done..|]); exists p, A, B; naive_solver.
  - intros (x & y & Hx & Hy & p & A & B & Hp & He & HA & HB & H). exists p. split; [by apply Hel|].
    exists A, B. split_and!; [done..|]. cbv zeta. rewrite !touches_spec.
    destruct H as [[Ha Hb]|[Ha Hb]]; [left|right]; split;
      [exists x|exists y|exists x|exists y]; (split; [done|]); by apply mk_site_claims.
Qed.

(** The verdict the administrator sees agrees with the table on the hub: "blocked" means
    every packet between the two ranges is dropped, "partial" that some is, and neither
    that none is. *)
Theorem siteIsolationVerdict_sound pairs links src dst :
  is_Some (canonicalCidr src) -> is_Some (canonicalCidr dst) ->
  let v := siteIsolationVerdict sha256hex pairs links src dst in
  (v_blocked v = true -> forall x y, in_cidr x src -> in_cidr y dst -> isolated pairs links x y) /\
  (v_blocked v = false ->
     v_partial v = true <-> exists x y, in_cidr x src /\ in_cidr y dst /\ isolated pairs links x y) /\
  (v_blocked v = true -> v_partial v = false).
Proof.
  intros [s Hs] [d Hd]. cbv zeta. unfold siteIsolationVerdict. rewrite Hs, Hd.
  destruct (verdict_loop_spec pairs links s d None (pl_pairs (planSiteIsolation pairs links)))
    as (H1 & H2 & H3); [done|]. cbv zeta.
  setoid_rewrite <- (fun x => in_cidr_canonical x src s Hs).
  setoid_rewrite <- (fun x => in_cidr_canonical x dst d Hd). split_and!; [| |done].
  - intros (p & Hp & Hm)%H1 x y Hx Hy. by eapply pair_meets_isolated.
  - intros Hb. rewrite (H3 Hb), isolated_meets. split; [|by right]. intros [[? ?]|?]; done.
Qed.

(** For two single hosts there is no "partial": the verdict is exactly whether the
    table drops the packet. *)
Theorem siteIsolationVerdict_hosts pairs links x y :
  is_addr x -> is_addr y -> set_names_distinct links ->
  let v := siteIsolationVerdict sha256hex pairs links (host32 x) (host32 y) in
  (v_blocked v = true <-> table_drops (site_table (planSiteIsolation pairs links)) x y) /\
  v_partial v = false.
Proof.
  intros Hx Hy Hinj. cbv zeta. rewrite (buildSiteIsolationNft_helper pairs links Hinj). clear Hinj.
  assert (canonicalCidr (host32 x) = Some (host32 x)) as Hcx.
  { rewrite canonicalCidr_read, read_host32 by done. done. }
  assert (canonicalCidr (host32 y) = Some (host32 y)) as Hcy.
  { rewrite canonicalCidr_read, read_host32 by done. done. }
  unfold siteIsolationVerdict. rewrite Hcx, Hcy. cbv zeta.
  destruct (verdict_loop_spec pairs links (host32 x) (host32 y) None (pl_pairs (planSiteIsolation pairs links)))
    as (H1 & H2 & H3); [done|].
  assert ((exists p, p ∈ pl_pairs (planSiteIsolation pairs links) /\ pair_meets inSet links p (host32 x) (host32 y)) <->
          isolated pairs links x y) as Hin.
  { split.
    - intros (p & Hp & Hm). eapply pair_meets_isolated; [done..| |]; by apply in_cidr_host32.
    - intros Hi. destruct (proj2 (isolated_meets pairs links (host32 x) (host32 y))) as (p & Hp & Hm).
      { exists x, y. split_and!; [by apply in_cidr_host32..|done]. }
      exists p. split; [done|]. destruct Hm as (A & B & HA & HB & Hm). exists A, B. split_and!; [done..|].
      cbv zeta in *. assert (forall s z, is_addr z -> touches s (host32 z) = true -> inSet s (host32 z) = true) as Ht.
      { intros s z Hz (w & Hw & n & Hn & Hwn)%touches_spec. apply in_cidr_host32 in Hw; [|done]. subst w.
        apply existsb_true. exists n. split; [done|]. rewrite cidrContains_host32 by done. by apply in_cidrb_spec. }
      destruct Hm as [[Ha Hb]|[Ha Hb]]; [left|right]; auto. }
  rewrite <- Hin. split; [done|].
  destruct (v_blocked _) eqn:Hb; [by apply H2|]. apply not_true_iff_false. rewrite (H3 eq_refl).
  intros [[? ?]|(p & Hp & Hm)]; [done|].
  assert (isolated pairs links x y) as Hi.
  { destruct (proj1 (isolated_meets pairs links (host32 x) (host32 y)) (ex_intro _ p (conj Hp Hm)))
      as (x' & y' & Hx' & Hy' & Hi). apply in_cidr_host32 in Hx', Hy'; [|done..]. by subst. }
  apply Hin, H1 in Hi. done.
Qed.
End plan_spec.

(** ** A small configuration *)

Definition ex_links : list link :=
  [Link "wg0:A" "Nord" "site-to-site" ["192.168.1.0/25"; "192.168.1.128/25"] ["10.10.0.2"];
   Link "wg0:B" "Sued" "hub-link" ["192.168.2.0/24"; "192.168.2.0/25"; "fd00::/8"] ["10.10.0.3/32"]].
Definition ex_pairs : list pair := [Pair "wg0:A" "wg0:B"].

Lemma ex_links_distinct : set_names_distinct id ex_links.
Proof.
  intros l m Hl Hm. unfold ex_links in Hl, Hm. rewrite !elem_of_cons, elem_of_nil in Hl, Hm.
  destruct Hl as [->|[->|[]]], Hm as [->|[->|[]]]; vm_compute; congruence.
Qed.

Lemma buildSiteIsolationNft_refines_witness :
  set_names_distinct id ex_links /\
  is_ok (buildSiteIsolationNft id ex_pairs ex_links) = true /\
  (table_drops (site_table (planSiteIsolation id ex_pairs ex_links)) 3232235777 3232236033 <->
   isolated ex_pairs ex_links 3232235777 3232236033).
Proof.
  split; [exact ex_links_distinct|]. split; [vm_compute; reflexivity|].
  apply (buildSiteIsolationNft_refines id ex_pairs ex_links ex_links_distinct).
Defined.

Lemma siteIsolationVerdict_sound_witness :
  v_partial (siteIsolationVerdict id ex_pairs ex_links "192.168.0.0/16" "192.168.2.9") = true /\
  exists x y, in_cidr x "192.168.0.0/16" /\ in_cidr y "192.168.2.9" /\ isolated ex_pairs ex_links x y.
Proof.
  split; [vm_compute; reflexivity|].
  apply (siteIsolationVerdict_sound id ex_pairs ex_links "192.168.0.0/16" "192.168.2.9");
    [vm_compute; eauto|vm_compute; eauto|vm_compute; reflexivity|vm_compute; reflexivity].
Defined.

Lemma siteIsolationVerdict_hosts_witness :
  v_blocked (siteIsolationVerdict id ex_pairs ex_links (host32 3232235777) (host32 3232236033)) = true /\
  table_drops (site_table (planSiteIsolation id ex_pairs ex_links)) 3232235777 3232236033.
Proof.
  split; [vm_compute; reflexivity|].
  apply (siteIsolationVerdict_hosts id ex_pairs ex_links 3232235777 3232236033);
    [split; vm_compute; congruence|split; vm_compute; congruence|exact ex_links_distinct|vm_compute; reflexivity].
Defined.

(** "blocked" looks at single set elements: a range that two adjacent networks of a
    site cover together is reported as partly blocked although every packet is dropped. *)
Theorem verdict_partial_for_split_network :
  v_blocked (siteIsolationVerdict id ex_pairs ex_links "192.168.1.0/24" "192.168.2.0/24") = false /\
  v_partial (siteIsolationVerdict id ex_pairs ex_links "192.168.1.0/24" "192.168.2.0/24") = true /\
  forall x y, in_cidr x "192.168.1.0/24" -> in_cidr y "192.168.2.0/24" -> isolated ex_pairs ex_links x y.
Proof.
  split; [vm_compute; reflexivity|]. split; [vm_compute; reflexivity|]. intros x y Hx Hy.
  assert (enforced (by_id ex_links) (Pair "wg0:A" "wg0:B")) as He.
  { eexists _, _. repeat (split; [vm_compute; (reflexivity || discriminate)|]). vm_compute. discriminate. }
  exists (Pair "wg0:A" "wg0:B"). eexists _, _.
  split; [by left|]. split; [exact He|]. split; [vm_compute; reflexivity|]. split; [vm_compute; reflexivity|].
  left. split.
  - destruct Hx as (n & Hn & Hx).
    assert (n = Net 3232235776 24) as -> by (vm_compute in Hn; congruence).
    destruct (decide (x < 3232235904)).
    + left. exists "192.168.1.0/25", "192.168.1.0/25".
      split; [left|]. do 3 (split; [vm_compute; (reflexivity || discriminate)|]).
      exists (Net 3232235776 25). split; [vm_compute; reflexivity|].
      apply in_net_bounds in Hx; [|vm_compute; repeat split; congruence].
      apply in_net_bounds; [vm_compute; repeat split; congruence|]. cbn in *.
      change (2 ^ 7) with 128. change (2 ^ 8) with 256 in Hx. lia.
    + left. exists "192.168.1.128/25", "192.168.1.128/25".
      split; [right; left|]. do 3 (split; [vm_compute; (reflexivity || discriminate)|]).
      exists (Net 3232235904 25). split; [vm_compute; reflexivity|].
      apply in_net_bounds in Hx; [|vm_compute; repeat split; congruence].
      apply in_net_bounds; [vm_compute; repeat split; congruence|]. cbn in *.
      change (2 ^ 7) with 128. change (2 ^ 8) with 256 in Hx. lia.
  - left. exists "192.168.2.0/24", "192.168.2.0/24".
    split; [left|]. do 3 (split; [vm_compute; (reflexivity || discriminate)|]). exact Hy.
Qed.

(** * The text of the script *)

Lemma comment_chars value max : sall comment_char (sanitizeCommentText value max) = true.
Proof.
  unfold sanitizeCommentText. case_decide; [done|].
  apply sall_trim, sall_stake, sall_trim, sall_squeeze; [done|]. apply sall_smap.
  intros c. destruct (comment_char c) eqn:Hc; [|done]. cbn [sall]. by rewrite Hc.
Qed.

Definition set_name_char (c : ascii) : bool := is_alnum c || is_char "_" c.

Lemma no_nl_of p s : forallb (fun c => implb (p c) (negb (is_char nl c))) all_chars = true ->
  sall p s = true -> sall (fun c => negb (is_char nl c)) s = true.
Proof. intros H. by apply sall_impl_dec. Qed.

Lemma join_no_nl l : Forall (fun s => no_char nl s) l -> no_char nl (join ", " l).
Proof.
  unfold no_char. induction 1 as [|x l Hx Hl IH]; [done|]. destruct l as [|y l]; [done|].
  change (join ", " (x :: y :: l)) with (x +:+ ", " +:+ join ", " (y :: l)).
  by rewrite !sall_app, Hx, IH.
Qed.

Section script_text.
  Variable sha256hex : string -> string.
  Hypothesis sha256_hex : forall s, sall is_alnum (sha256hex s) = true.

Lemma set_name_chars linkId : sall set_name_char (siteSetName sha256hex linkId) = true.
Proof.
  unfold siteSetName. rewrite sall_app. apply andb_true_iff. split; [done|]. apply sall_stake.
  eapply sall_impl_dec; [|apply sha256_hex]. vm_compute. reflexivity.
Qed.

Lemma site_of_plan pairs links s : s ∈ (pl_sites (planSiteIsolation sha256hex pairs links)).*2 ->
  exists id l, s = mk_site sha256hex id l.
Proof.
  intros ([id w] & -> & Hin)%list_elem_of_fmap. destruct (plan_spec sha256hex pairs links) as ([Hn Hok] & _).
  apply (elem_of_mget _ _ _ Hn) in Hin. destruct (Hok _ _ Hin) as (l & _ & ->). by exists id, l.
Qed.

Lemma table_lines_no_nl pairs links :
  Forall (no_char nl) (table_lines (site_table (planSiteIsolation sha256hex pairs links))).
Proof.
  assert (forall id, no_char nl (siteSetName sha256hex id)) as Hname.
  { intros id. eapply no_nl_of; [|apply set_name_chars]. vm_compute. reflexivity. }
  assert (forall v m, no_char nl (sanitizeCommentText v m)) as Hcom.
  { intros v m. eapply no_nl_of; [|apply comment_chars]. vm_compute. reflexivity. }
  unfold table_lines. repeat apply Forall_app_2; [repeat constructor| |repeat constructor| |repeat constructor].
  - apply Forall_forall. intros x (s & Hx & Hs)%list_elem_of_bind.
    apply plan_sets in Hs as (id & l & _ & _ & ->).
    assert (no_char nl (join ", " (siteNetworks l).1)) as Hj.
    { apply join_no_nl, Forall_forall. intros n Hn. apply siteNetworks_interval_set_canonical in Hn.
      apply canonicalCidr_token in Hn. eapply no_nl_of; [|exact Hn]. vm_compute. reflexivity. }
    specialize (Hname id). specialize (Hcom (sor (l_name l) id) SITE_NAME_MAX). unfold no_char in *.
    unfold render_set in Hx. cbn [ns_name ns_comment ns_elements] in Hx.
    rewrite !elem_of_cons, elem_of_nil in Hx. unfold quoted in Hx.
    destruct Hx as [->|[->|[->|[->|[->|[->|[]]]]]]]; cbn [sall]; rewrite ?sall_app; cbn [sall];
      rewrite ?sall_app, ?Hname, ?Hcom, ?Hj; reflexivity.
  - apply Forall_fmap, Forall_forall. intros r Hr.
    assert (exists i j v m, r = NftRule (siteSetName sha256hex i) (siteSetName sha256hex j)
      (sanitizeCommentText v m)) as (i & j & v & m & ->).
    { apply plan_rules in Hr as (p & A & B & _ & _ & _ & _ & [->| ->]); do 4 eexists; reflexivity. }
    pose proof (Hname i) as Hi. pose proof (Hname j) as Hj. specialize (Hcom v m). unfold no_char in *.
    unfold compose, render_rule, quoted. cbn [nr_saddr nr_daddr nr_comment sall].
    rewrite !sall_app. cbn [sall]. rewrite !sall_app, Hi, Hj, Hcom. reflexivity.
Qed.

Lemma last_last_two {A} (l : list A) a b c d : List.last (l ++ [a; b; c]) d = c.
Proof. change [a; b; c] with ([a; b] ++ [c]). rewrite app_assoc. apply List.last_last. Qed.

Lemma removelast_two {A} (l : list A) a b c : removelast (l ++ [a; b; c]) <> [].
Proof. rewrite removelast_app by done. cbn. destruct l; done. Qed.

(** Names cannot inject nft syntax: split at the newlines, the script is the fixed
    header and one line per declaration of the table, every comment consists of harmless
    characters only, and nothing but the table "floppyguard_sites" is ever declared. *)
Theorem site_script_is_its_lines pairs links script :
  buildSiteIsolationNft sha256hex pairs links = Ok script ->
  let t := site_table (planSiteIsolation sha256hex pairs links) in
  split_char nl script = table_lines t /\
  Forall (fun s => sall comment_char (ns_comment s) = true /\ sall set_name_char (ns_name s) = true) (nt_sets t) /\
  Forall (fun r => sall comment_char (nr_comment r) = true) (nt_rules t).
Proof.
  unfold buildSiteIsolationNft. destruct (bfind _ _); [done|]. intros [= <-]. cbv zeta. split_and!.
  - unfold render_table. pose proof (table_lines_no_nl pairs links) as H. revert H.
    assert (exists ls, table_lines (site_table (planSiteIsolation sha256hex pairs links)) = ls ++ [""] /\ ls <> [])
      as (ls & -> & Hne).
    { exists (removelast (table_lines (site_table (planSiteIsolation sha256hex pairs links)))). split.
      - rewrite (app_removelast_last "") at 1 by done. f_equal. f_equal. unfold table_lines.
        rewrite !app_assoc. by rewrite last_last_two.
      - unfold table_lines. rewrite !app_assoc. apply removelast_two. }
    intros [H _]%Forall_app.
    transitivity (split_char nl (join (String nl "") ls +:+ String nl "")); [|by apply split_join_nl].
    f_equal. clear H.
    induction ls as [|x ls IH]; [done|]. destruct ls as [|y ls]; [done|].
    change (join (String nl "") ((x :: y :: ls) ++ [""]))
      with (x +:+ String nl "" +:+ join (String nl "") ((y :: ls) ++ [""])).
    rewrite IH by done.
    change (join (String nl "") (x :: y :: ls)) with (x +:+ String nl "" +:+ join (String nl "") (y :: ls)).
    by rewrite !sapp_assoc.
  - apply Forall_forall. intros s (id & l & _ & _ & ->)%plan_sets. cbn. split; [apply comment_chars|apply set_name_chars].
  - apply Forall_forall. intros r (p & A & B & _ & _ & _ & _ & [->| ->])%plan_rules; apply comment_chars.
Qed.
End script_text.

Lemma site_script_is_its_lines_witness :
  exists script, buildSiteIsolationNft (fun _ => "0af3"%string) ex_pairs ex_links = Ok script /\
    split_char nl script = table_lines (site_table (planSiteIsolation (fun _ => "0af3"%string) ex_pairs ex_links)).
Proof.
  eexists. split; [vm_compute; reflexivity|].
  apply (site_script_is_its_lines (fun _ => "0af3"%string) (fun _ => eq_refl) ex_pairs ex_links).
  vm_compute. reflexivity.
Defined.

(** * The pair list *)

#[export] Instance pair_le_total : Total pair_le.
Proof.
  intros x y. unfold pair_le, sleb. destruct (decide (pa x = pa y)) as [He|Hne].
  - rewrite decide_True by done. rewrite !negb_true_iff, !sltb_false. apply (total String.le).
  - rewrite decide_False by congruence. by apply sltb_total.
Qed.

#[export] Instance pair_le_trans : Transitive pair_le.
Proof.
  intros x y z. unfold pair_le, sleb.
  destruct (decide (pa x = pa y)) as [Hxy|Hxy], (decide (pa y = pa z)) as [Hyz|Hyz];
    rewrite ?negb_true_iff, ?sltb_false; intros H1 H2.
  - rewrite decide_True by congruence. rewrite negb_true_iff, sltb_false. by etrans.
  - rewrite decide_False by congruence. congruence.
  - rewrite decide_False by congruence. congruence.
  - destruct (decide (pa x = pa z)) as [Hxz|]; [|by eapply sltb_trans].
    exfalso. rewrite Hxz in H1. by rewrite (sltb_asym _ _ H1) in H2.
Qed.

(** A pair of two existing site links, in normal form. *)
Definition valid_pair (links : list link) (p : pair) : Prop :=
  sltb (pa p) (pb p) = true /\
  exists A B, mget (pa p) (by_id links) = Some A /\ mget (pb p) (by_id links) = Some B /\
    isSiteLink (Some A) = true /\ isSiteLink (Some B) = true /\
    re_test LINK_ID_RE (pa p) = true /\ re_test LINK_ID_RE (pb p) = true.

(** The pair an entry of the request stands for. *)
Definition entry_pair (raw : jsval) : pair :=
  normalizePair (trimmed_string (vget raw "link_a")) (trimmed_string (vget raw "link_b")).

Lemma check_link_Ok byId i f v u : check_link byId i f v = Ok u ->
  re_test LINK_ID_RE v = true /\ exists l, mget v byId = Some l /\ isSiteLink (Some l) = true.
Proof.
  unfold check_link. intros ([] & Hre%throw_if_Ok & H)%bind_Ok. apply negb_false_iff in Hre.
  destruct (mget v byId) as [l|]; [|done]. apply throw_if_Ok, negb_false_iff in H. eauto.
Qed.

Lemma sanitizePair_Ok links seen ip seen' : sanitizePair (by_id links) seen ip = Ok seen' ->
  seen' = mset (pair_key (entry_pair ip.2)) (entry_pair ip.2) seen /\ valid_pair links (entry_pair ip.2).
Proof.
  unfold sanitizePair. intros H. apply bind_Ok in H as (u1 & H1 & H). apply bind_Ok in H as (u2 & H2 & H).
  apply bind_Ok in H as (u3 & H3%throw_if_Ok & [= <-]). split; [done|].
  apply check_link_Ok in H1 as (Hra & A & HA & HsA), H2 as (Hrb & B & HB & HsB).
  apply bool_decide_eq_false in H3. unfold entry_pair, normalizePair, valid_pair.
  destruct (sltb (trimmed_string (vget ip.2 "link_a")) _) eqn:Hlt; cbn [pa pb].
  - split; [assumption|]. exists A, B. split_and!; assumption.
  - split; [|exists B, A; split_and!; assumption]. destruct (sltb_total _ _ H3); congruence.
Qed.

Lemma link_id_no_bar s : re_test LINK_ID_RE s = true -> no_char "|" s.
Proof. intros H. by apply (re_chars _ _ _ H). Qed.

Lemma pair_key_inj links p q : valid_pair links p -> valid_pair links q -> pair_key p = pair_key q -> p = q.
Proof.
  intros (_ & ? & ? & _ & _ & _ & _ & Hpa & Hpb) (_ & ? & ? & _ & _ & _ & _ & Hqa & Hqb) H.
  unfold pair_key in H. apply (f_equal (split_char "|")) in H.
  rewrite !sapp_String, !sapp_nil_l, !split_char_app, !split_char_no in H by (by apply link_id_no_bar).
  destruct p, q. simpl in *. congruence.
Qed.

(** The map the loop builds: keyed by the normal form, one entry per pair. *)
Definition seen_ok (links : list link) (seen : list (string * pair)) : Prop :=
  NoDup seen.*1 /\ forall k p, (k, p) ∈ seen -> k = pair_key p /\ valid_pair links p.

Lemma elem_of_mset {V} (k : string) (v : V) m kv :
  kv ∈ mset k v m -> kv = (k, v) \/ kv ∈ m.
Proof.
  induction m as [|[q w] m IH]; cbn [mset]; [set_solver|].
  case_decide; rewrite !elem_of_cons; naive_solver.
Qed.

Lemma seen_ok_step links seen p : seen_ok links seen -> valid_pair links p ->
  seen_ok links (mset (pair_key p) p seen) /\
  forall q, q ∈ (mset (pair_key p) p seen).*2 <-> q = p \/ q ∈ seen.*2.
Proof.
  intros [Hn Hok] Hp. assert (seen_ok links (mset (pair_key p) p seen)) as [Hn' Hok'].
  { split; [by apply NoDup_mset|]. intros k q [[= -> ->]|Hin]%elem_of_mset; [done|by apply Hok]. }
  split; [done|]. intros q. rewrite !list_elem_of_fmap. split.
  - intros ([k r] & -> & [[= -> ->]|Hin]%elem_of_mset); [by left|right; by exists (k, r)].
  - intros [-> |([k r] & -> & Hin)].
    + exists (pair_key p, p). split; [done|]. apply mget_elem_of, mget_mset_eq.
    + destruct (Hok _ _ Hin) as [-> Hr]. exists (pair_key r, r). split; [done|]. apply mget_elem_of.
      rewrite mget_mset. case_decide as Hk.
      * by rewrite (pair_key_inj links p r).
      * by apply elem_of_mget.
Qed.

Lemma sanitizePairs_loop links l seen seen' : seen_ok links seen ->
  foldM (sanitizePair (by_id links)) seen l = Ok seen' ->
  seen_ok links seen' /\ (length seen' <= length seen + length l)%nat /\
  forall q, q ∈ seen'.*2 <-> q ∈ seen.*2 \/ exists ip, ip ∈ l /\ q = entry_pair ip.2.
Proof.
  revert seen. induction l as [|ip l IH]; intros seen Hok; cbn [foldM].
  - intros [= <-]. split_and!; [done|lia|]. intros q. split; [by left|].
    intros [?|(ip & Hip & _)]; [done|by apply not_elem_of_nil in Hip].
  - intros (s1 & [-> Hv]%sanitizePair_Ok & Hl)%bind_Ok.
    destruct (seen_ok_step links seen _ Hok Hv) as [Hok1 Hel1].
    destruct (IH _ Hok1 Hl) as (Hok2 & Hlen & Hel). split_and!; [done| |].
    + pose proof (length_mset (pair_key (entry_pair ip.2)) (entry_pair ip.2) seen). cbn [length]. lia.
    + intros q. rewrite Hel, Hel1. split.
      * intros [[-> |?]|(i & Hi & ->)]; [right; exists ip|by left|right; exists i]; (split; [|done]); by constructor.
      * intros [?|(i & [-> |Hi]%elem_of_cons & ->)]; [by left; right|by left; left|right; by exists i].
Qed.

Lemma sanitizePairs_Ok input links ps :
  sanitizePairs input links = Ok ps ->
  Forall (valid_pair links) ps /\ NoDup ps /\ StronglySorted pair_le ps /\
  Z.of_nat (length ps) <= MAX_PAIRS /\
  exists l, input = VArr l /\ forall p, p ∈ ps <-> exists raw, raw ∈ l /\ p = entry_pair raw.
Proof.
  unfold sanitizePairs. destruct (as_array input) as [l|] eqn:Hl; [|done].
  intros (u & Hlen%throw_if_Ok%Z.ltb_ge & (seen & Hs & [= <-])%bind_Ok)%bind_Ok.
  apply sanitizePairs_loop in Hs as ([Hn Hok] & Hlen' & Hel); [|split; [constructor|set_solver]].
  pose proof (merge_sort_Permutation pair_le seen.*2) as Hp.
  assert (NoDup seen.*2) as Hnd.
  { clear - Hn Hok. induction seen as [|[k p] seen IH]; csimpl; [constructor|].
    apply NoDup_cons in Hn as [Hk Hn]. constructor.
    - intros ([k' q] & -> & Hin)%list_elem_of_fmap. apply Hk. cbn.
      destruct (Hok k q) as [-> _]; [by left|]. destruct (Hok k' q) as [-> _]; [by right|].
      apply list_elem_of_fmap. by exists (pair_key q, q).
    - apply IH; [done|]. intros k' q Hin. apply Hok. by right. }
  split_and!.
  - rewrite Hp. apply Forall_fmap, Forall_forall. intros [k p] Hin. by apply (Hok k p).
  - by rewrite Hp.
  - apply (StronglySorted_merge_sort _).
  - rewrite Hp, length_fmap. cbn [length] in Hlen'. rewrite length_zip, length_seq, Nat.min_id in Hlen'. lia.
  - exists l. split; [by destruct input; simplify_eq/=|]. intros p. rewrite Hp, Hel. split.
    + intros [?|([i raw] & Hin & ->)]; [set_solver|]. exists raw. split; [|done].
      by apply elem_of_zip_r in Hin.
    + intros (raw & Hin & ->). right. apply list_elem_of_lookup in Hin as [i Hi].
      exists (i, raw). split; [|done]. apply (list_elem_of_lookup_2 _ i). apply lookup_zip_Some.
      split; [|done]. apply lookup_seq. apply lookup_lt_Some in Hi. lia.
Qed.

Lemma sanitizePairs_valid input links ps : sanitizePairs input links = Ok ps -> Forall (valid_pair links) ps.
Proof. by intros (? & _)%sanitizePairs_Ok. Qed.

(** What [sanitizePairs] accepts is a canonical pair list: every entry of the request in
    normal form, each pair once, sorted, at most [MAX_PAIRS], and both ends of each are
    existing, different site links, so the plan skips none of them for its links. *)
Theorem sanitizePairs_canonical input links ps :
  sanitizePairs input links = Ok ps ->
  Forall (valid_pair links) ps /\ NoDup ps /\ StronglySorted pair_le ps /\
  Z.of_nat (length ps) <= MAX_PAIRS /\
  exists l, input = VArr l /\ forall p, p ∈ ps <-> exists raw, raw ∈ l /\ p = entry_pair raw.
Proof. apply sanitizePairs_Ok. Qed.

Lemma sanitizePairs_canonical_witness :
  exists ps, sanitizePairs (VArr [VObj [("link_a", VStr "wg0:B"); ("link_b", VStr " wg0:A")]]) ex_links = Ok ps /\
    Forall (valid_pair ex_links) ps.
Proof.
  eexists. split; [vm_compute; reflexivity|].
  eapply (sanitizePairs_canonical (VArr [VObj [("link_a", VStr "wg0:B"); ("link_b", VStr " wg0:A")]])).
  vm_compute. reflexivity.
Defined.

(** * Foreign drop rules *)

(** The packets a foreign rule's address matches select. *)
Definition fd_matches (d : foreign_drop) (x y : Z) : Prop :=
  exists src dst, fd_src d = Some src /\ fd_dst d = Some dst /\ covered src x /\ covered dst y.

Lemma anyOverlap_one l c : anyOverlap l [c] = true <-> exists x, in_cidr x c /\ covered l x.
Proof.
  unfold anyOverlap, covered. rewrite existsb_true. cbn [existsb]. setoid_rewrite orb_false_r.
  setoid_rewrite cidrOverlaps_in_cidr. naive_solver.
Qed.

Lemma contains_covered l c x : existsb (fun n => cidrContains n c) l = true -> in_cidr x c -> covered l x.
Proof.
  intros (n & Hn & Hc)%existsb_true Hx. exists n. split; [done|]. by apply (cidrContains_in_cidr _ _ Hc).
Qed.

Lemma drop_verdict_loop_spec s d part drops :
  let v := drop_verdict_loop s d part drops in
  (dv_blocked v = true -> dv_partial v = false /\ exists r, r ∈ drops /\ fd_extra r = false /\
     forall x y, in_cidr x s -> in_cidr y d -> fd_matches r x y) /\
  (dv_blocked v = false -> dv_partial v = true <-> is_Some part \/
     exists r x y, r ∈ drops /\ in_cidr x s /\ in_cidr y d /\ fd_matches r x y).
Proof.
  cbv zeta. revert part. induction drops as [|r drops IH]; intros part.
  { cbn. split; [done|intros _]. destruct part; (split; [intros ?|]); [left; eauto|done|done|].
    intros [[? ?]|(r & _ & _ & Hr & _)]; [done|by apply not_elem_of_nil in Hr]. }
  assert (forall v P, ((dv_blocked v = true -> dv_partial v = false /\ exists q, q ∈ drops /\ fd_extra q = false /\
            forall x y, in_cidr x s -> in_cidr y d -> fd_matches q x y) /\
          (dv_blocked v = false -> dv_partial v = true <-> P \/
            exists q x y, q ∈ drops /\ in_cidr x s /\ in_cidr y d /\ fd_matches q x y)) ->
          (P <-> is_Some part \/ exists x y, in_cidr x s /\ in_cidr y d /\ fd_matches r x y) ->
    ((dv_blocked v = true -> dv_partial v = false /\ exists q, q ∈ r :: drops /\ fd_extra q = false /\
            forall x y, in_cidr x s -> in_cidr y d -> fd_matches q x y) /\
     (dv_blocked v = false -> dv_partial v = true <-> is_Some part \/
            exists q x y, q ∈ r :: drops /\ in_cidr x s /\ in_cidr y d /\ fd_matches q x y))) as Hstep.
  { intros v P [H1 H2] HP. split.
    - intros Hb. destruct (H1 Hb) as (Hp & q & Hq & Hr). split; [done|]. exists q. split; [by right|done].
    - intros Hb. rewrite (H2 Hb), HP. split.
      + intros [[?|(x & y & H)]|(q & x & y & Hq & H)];
          [by left|right; exists r, x, y|right; exists q, x, y]; (split; [|done]); by constructor.
      + intros [?|(q & x & y & [-> |Hq]%elem_of_cons & H)];
          [by left; left|left; right; by exists x, y|right; by exists q, x, y]. }
  cbn [drop_verdict_loop].
  destruct (fd_src r) as [src|] eqn:Hsrc; [destruct (fd_dst r) as [dst|] eqn:Hdst|].
  - match goal with |- context [if ?c then DropVerdict _ _ _ else _] => destruct c eqn:Hfull end.
    + apply andb_true_iff in Hfull as [[Hs Hd]%andb_true_iff He%negb_true_iff]. cbn. split; [|done].
      intros _. split; [done|]. exists r. split; [by left|]. split; [done|]. intros x y Hx Hy.
      exists src, dst. split_and!; [done..| |]; by eapply contains_covered.
    + eapply Hstep; [apply IH|]. destruct part as [p|]; [split; [intros _; left; eauto|eauto]|].
      destruct (anyOverlap src [s] && anyOverlap dst [d]) eqn:Ho.
      * apply andb_true_iff in Ho as [(x & Hx & Hcx)%anyOverlap_one (y & Hy & Hcy)%anyOverlap_one].
        split; [intros _; right|eauto]. exists x, y. split_and!; [done..|]. by exists src, dst.
      * split; [by intros [? ?]|]. intros [[? ?]|(x & y & Hx & Hy & src' & dst' & ? & ? & Hcx & Hcy)]; [done|].
        simplify_eq. apply andb_false_iff in Ho as [Ho|Ho]; apply not_true_iff_false in Ho; destruct Ho;
          apply anyOverlap_one; eauto.
  - eapply Hstep; [apply IH|]. split; [by left|]. intros [?|(x & y & _ & _ & src' & dst' & ? & ? & _)]; [done|congruence].
  - eapply Hstep; [apply IH|]. split; [by left|]. intros [?|(x & y & _ & _ & src' & dst' & ? & ? & _)]; [done|congruence].
Qed.

(** The verdict over hand-written rules is sound: "blocked" names a rule without further
    conditions whose addresses select every packet between the ranges, and without
    "blocked" it is "partial" exactly when some rule selects some such packet. *)
Theorem manualDropVerdict_sound drops src dst :
  is_Some (canonicalCidr src) -> is_Some (canonicalCidr dst) ->
  let v := manualDropVerdict drops src dst in
  (dv_blocked v = true -> dv_partial v = false /\ exists r, r ∈ drops /\ fd_extra r = false /\
     forall x y, in_cidr x src -> in_cidr y dst -> fd_matches r x y) /\
  (dv_blocked v = false -> dv_partial v = true <->
     exists r x y, r ∈ drops /\ in_cidr x src /\ in_cidr y dst /\ fd_matches r x y).
Proof.
  intros [s Hs] [d Hd]. cbv zeta. unfold manualDropVerdict. rewrite Hs, Hd.
  setoid_rewrite <- (fun x => in_cidr_canonical x src s Hs).
  setoid_rewrite <- (fun x => in_cidr_canonical x dst d Hd).
  destruct (drop_verdict_loop_spec s d None drops) as [H1 H2]. split; [done|].
  intros Hb. rewrite (H2 Hb). split; [intros [[? ?]|?]; done|by right].
Qed.

(** A drop rule behind a rate limit, as nft prints it. *)
Definition ex_addr_match (field addr : string) : jsval :=
  VObj [("match", VObj [("op", VStr "=="); ("right", VStr addr);
     ("left", VObj [("payload", VObj [("protocol", VStr "ip"); ("field", VStr field)])])])].
Definition ex_limited_ruleset : jsval :=
  VObj [("nftables", VArr [
    VObj [("chain", VObj [("family", VStr "inet"); ("table", VStr "filter"); ("name", VStr "fwd");
                          ("hook", VStr "forward")])];
    VObj [("rule", VObj [("family", VStr "inet"); ("table", VStr "filter"); ("chain", VStr "fwd");
      ("expr", VArr [ex_addr_match "saddr" "10.1.0.1"; ex_addr_match "daddr" "10.2.0.1";
         VObj [("limit", VObj [("rate", VInt 10); ("per", VStr "second")])]; VObj [("drop", VNull)]])])]])].

Lemma manualDropVerdict_sound_witness :
  exists drops, parseForeignForwardDrops ex_limited_ruleset = Some drops /\
    exists r, r ∈ drops /\ fd_extra r = false /\
      forall x y, in_cidr x "10.1.0.1" -> in_cidr y "10.2.0.1" -> fd_matches r x y.
Proof.
  eexists. split; [vm_compute; reflexivity|].
  eapply (manualDropVerdict_sound _ "10.1.0.1" "10.2.0.1"); [vm_compute; eauto|vm_compute; eauto|vm_compute; reflexivity].
Defined.

(** A rate limit is not counted as a further condition of a hand-written drop rule: the rule
    only drops packets within (or over) the rate, and is reported as blocking all of them. *)
Theorem rate_limited_drop_counts_as_full :
  exists d, parseForeignForwardDrops ex_limited_ruleset = Some [d] /\ fd_extra d = false /\
    dv_blocked (manualDropVerdict [d] "10.1.0.1" "10.2.0.1") = true.
Proof. eexists. split; [vm_compute; reflexivity|]. split; vm_compute; reflexivity. Qed.

(** The counters' reader throws on a document whose "nftables" is not iterable. *)
Lemma parseChainCounters_throws :
  parseChainCounters ("{" +:+ quoted "nftables" +:+ ":5}") = None.
Proof. vm_compute. reflexivity. Qed.
