(* ===== verification/SiteApplier.v ===== *)
(** The site-isolation service: [backend/internal/site-isolation.js].

    The link loader with its cache of live views, the applier (its state, the links it
    holds, one apply as a function of the outcomes of the commands it runs), the pair
    store and the read-only verdict. The kernel's table and the boot file are the
    [world]; [outcomes] says what the commands of one apply answered. The applies are
    serialised by the code, so a history is a sequence of [step]s ([reachable]), in
    which the table may vanish at any moment (a flush elsewhere). *)

From S2P Require Import Prelude.
From S2P Require Import JsString.
From S2P Require Import JsRegex.
From S2P Require Import Cidr.
From S2P Require Import JsVal.
From S2P Require Import Json.
From S2P Require Import IngressRules.
From S2P Require Import SiteRules.

Local Open Scope Z_scope.

(** * Links *)

(** A link of the loader: what the plan reads, and whether it is active and has a live view. *)
Record live_link := LiveLink { ll_link : link; ll_active : bool; ll_live : bool }.

(** An entry of the metadata store; empty texts and lists are the missing fields. *)
Record meta_link := MetaLink { ml_name : string; ml_type : string; ml_importedNetworks : list string }.

(** A link of the live status. *)
Record status_link := StatusLink {
  sl_id : string; sl_name : string; sl_type : string;
  sl_importedNetworks : list string; sl_tunnelAddresses : list string; sl_active : bool }.

(** The live-derived view of a link. *)
Record live_view := LiveView { lv_type : string; lv_importedNetworks : list string; lv_tunnelAddresses : list string }.

Definition view_of (l : status_link) : live_view :=
  LiveView (sl_type l) (sl_importedNetworks l) (sl_tunnelAddresses l).

Definition no_view : live_view := LiveView "" [] [].

Notation live_cache := (list (string * live_view)).

(** [liveOf]: the view of the live record, remembered, or the last known one. *)
Definition liveOf (cache : live_cache) (id : string) (l : option status_link) : live_cache * live_view :=
  match l with
  | Some l => (mset id (view_of l) cache, view_of l)
  | None => (cache, default no_view (mget id cache))
  end.

(** [xs?.length ? xs : ys] *)
Definition lor {A} (xs ys : list A) : list A := match xs with [] => ys | _ => xs end.

Record load_state := LoadState { ls_cache : live_cache; ls_live : list (string * status_link); ls_out : list live_link }.

(** The body of the loop over the metadata entries. *)
Definition load_meta (st : load_state) (im : string * meta_link) : load_state :=
  let '(id, m) := im in
  let l := mget id (ls_live st) in
  let live := mdel id (ls_live st) in
  let '(cache, v) := liveOf (ls_cache st) id l in
  let name := sor (ml_name m) (sor (match l with Some l => sl_name l | None => "" end) id) in
  let entry := LiveLink
    (Link id name (sor (ml_type m) (lv_type v)) (lor (ml_importedNetworks m) (lv_importedNetworks v)) (lv_tunnelAddresses v))
    (match l with Some l => sl_active l | None => false end)
    (match l with Some _ => true | None => mhas id cache end) in
  LoadState cache live (ls_out st ++ [entry]).

(** The body of the loop over the live links without metadata. *)
Definition load_live (st : live_cache * list live_link) (il : string * status_link) : live_cache * list live_link :=
  let l := il.2 in
  let '(cache, v) := liveOf st.1 (sl_id l) (Some l) in
  (cache, st.2 ++ [LiveLink (Link (sl_id l) (sor (sl_name l) (sl_id l)) (sl_type l) (sl_importedNetworks l)
                                  (lv_tunnelAddresses v)) (sl_active l) true]).

(** [loadLinks]: [status] is [None] when it is unavailable. *)
Definition loadLinks (cache : live_cache) (metadata : list (string * meta_link)) (status : option (list status_link))
    : live_cache * list live_link :=
  let live := mfrom ((fun l => (sl_id l, l)) <$> default [] status) in
  let st := fold_left load_meta metadata (LoadState cache live []) in
  fold_left load_live (ls_live st) (ls_cache st, ls_out st).

(** * The applier *)

Definition HOLD_APPLIES : Z := 1.

Inductive fail_code := FailInput | FailUnresolved | FailNft.

#[export] Instance fail_code_eq_dec : EqDecision fail_code.
Proof. solve_decision. Defined.

Record applier := Applier {
  st_hash : option string;
  st_script : option string;
  st_error : option fail_code;
  st_planWarnings : list site_warning;
  st_heldWarnings : list string;
  st_persistError : bool;
  st_pairs : nat;
  st_appliedPairs : list string;
  st_persisted : bool;
  lastLinks : list (string * live_link);
  missingStreak : list (string * Z) }.

Definition new_applier : applier := Applier None None None [] [] false 0 [] false [] [].

(** The table in the kernel and the boot file. *)
Record world := World { w_table : option string; w_file : option string }.

(** What the commands of one apply answer; [o_list]: whether listing a table that is there works. *)
Record outcomes := Outcomes {
  o_list : bool;
  o_mkdtemp : bool;
  o_write : bool;
  o_check : bool;
  o_apply : bool;
  o_persist : bool }.

Record apply_input := ApplyInput { in_pairs : list pair; in_links : list live_link }.

Definition live_by_id (links : list live_link) : list (string * live_link) :=
  mfrom ((fun l => (l_id (ll_link l), l)) <$> links).

Record hold_state := HoldState { hs_streak : list (string * Z); hs_held : list live_link; hs_warnings : list string }.

(** The body of [for (const id of ids)] of [withHeldLinks]. *)
Definition hold_id (present : list string) (last : list (string * live_link)) (st : hold_state) (id : string) : hold_state :=
  if decide (id ∈ present) then HoldState (mdel id (hs_streak st)) (hs_held st) (hs_warnings st)
  else
    let n := default 0 (mget id (hs_streak st)) + 1 in
    let streak := mset id n (hs_streak st) in
    match mget id last with
    | Some l => if n <=? HOLD_APPLIES
                then HoldState streak (hs_held st ++ [l]) (hs_warnings st ++ [id])
                else HoldState streak (hs_held st) (hs_warnings st)
    | None => HoldState streak (hs_held st) (hs_warnings st)
    end.

Definition pair_ids (ps : list pair) : list string := uniq (p ← ps; [pa p; pb p]).

(** [withHeldLinks]: the links with the held ones, the ids warned about, the new streaks. *)
Definition withHeldLinks (st : applier) (input : apply_input) : list live_link * list string * list (string * Z) :=
  let present := (fun l => l_id (ll_link l)) <$> in_links input in
  let ids := pair_ids (in_pairs input) in
  let hs := fold_left (hold_id present (lastLinks st)) ids (HoldState (missingStreak st) [] []) in
  (in_links input ++ hs_held hs, hs_warnings hs, filter (fun kv => kv.1 ∈ ids) (hs_streak hs)).

Record apply_result := ApplyResult { r_ok : bool; r_changed : bool }.

Section applier.
  Variable sha256hex : string -> string.

(** The link of the map is a site. *)
Definition site_of (byId : list (string * live_link)) (id : string) : bool :=
  isSiteLink (ll_link <$> mget id byId).

(** A pair of which an end is not a site now. *)
Definition unresolved_pairs (input : apply_input) : list pair :=
  let byId := live_by_id (in_links input) in
  bfilter (fun p => negb (site_of byId (pa p) && site_of byId (pb p))) (in_pairs input).

(** [byId.get(id)?.live === false] *)
Definition no_live (byId : list (string * live_link)) (id : string) : bool :=
  match mget id byId with Some l => negb (ll_live l) | None => false end.

Definition blind_pairs (input : apply_input) (pl : plan) : list pair :=
  let byId := live_by_id (in_links input) in
  bfilter (fun p => negb (set_has (pair_key <$> pl_pairs pl) (pair_key p)) &&
                    (no_live byId (pa p) || no_live byId (pb p))) (in_pairs input).

(** The fail-closed test: nothing that is stored resolves, or a pair would be dropped blindly. *)
Definition fails_closed (input : apply_input) (pl : plan) : bool :=
  bool_decide (in_pairs input <> []) &&
  (negb (existsb (fun l => isSiteLink (Some (ll_link l))) (in_links input)) ||
   Nat.eqb (length (unresolved_pairs input)) (length (in_pairs input)) ||
   bool_decide (blind_pairs input pl <> [])).

Definition fail (st : applier) (code : fail_code) : applier :=
  Applier (st_hash st) (st_script st) (Some code) (st_planWarnings st) (st_heldWarnings st) (st_persistError st)
    (st_pairs st) (st_appliedPairs st) (st_persisted st) (lastLinks st) (missingStreak st).

Definition with_warnings (st : applier) (ws : list site_warning) (held : list string) : applier :=
  Applier (st_hash st) (st_script st) (st_error st) ws held (st_persistError st)
    (st_pairs st) (st_appliedPairs st) (st_persisted st) (lastLinks st) (missingStreak st).

Definition with_streak (st : applier) (streak : list (string * Z)) : applier :=
  Applier (st_hash st) (st_script st) (st_error st) (st_planWarnings st) (st_heldWarnings st) (st_persistError st)
    (st_pairs st) (st_appliedPairs st) (st_persisted st) (lastLinks st) streak.

(** [persistReported]: the boot copy is written, or the failure is recorded. *)
Definition persistReported (o : outcomes) (st : applier) (w : world) (script : string) : applier * world :=
  let ok := o_persist o in
  (Applier (st_hash st) (st_script st) (st_error st) (st_planWarnings st) (st_heldWarnings st) (negb ok)
     (st_pairs st) (st_appliedPairs st) ok (lastLinks st) (missingStreak st),
   if ok then World (w_table w) (Some script) else w).

(** The state after a successful [nft -f]. *)
Definition applied_state (st : applier) (input : apply_input) (pl : plan) (script hash : string) : applier :=
  let byId := live_by_id (in_links input) in
  Applier (Some hash) (Some script) None (st_planWarnings st) (st_heldWarnings st) (st_persistError st)
    (length (pl_pairs pl)) (pair_key <$> pl_pairs pl) (st_persisted st)
    (mfrom (omap (fun id => l ← mget id byId; Some (id, l)) (pl_sites pl).*1)) (missingStreak st).

(** [nft list table] succeeds when the table is there. *)
Definition table_listed (o : outcomes) (w : world) : bool :=
  o_list o && match w_table w with Some _ => true | None => false end.

(** The temporary file and the two nft calls; nft replaces the table in one transaction. *)
Definition run_nft (o : outcomes) (w : world) (script : string) : world * bool :=
  if o_mkdtemp o && o_write o && o_check o && o_apply o
  then (World (Some script) (w_file w), true) else (w, false).

(** [applyOnce]; the loaded input is [None] when loading throws. *)
Definition applyOnce (o : outcomes) (force : bool) (loaded : option apply_input) (st : applier) (w : world)
    : applier * world * apply_result :=
  let failed st w := (st, w, ApplyResult false false) in
  match loaded with
  | None => failed (fail st FailInput) w
  | Some raw =>
      let '(links, heldWarnings, streak) := withHeldLinks st raw in
      let st := with_streak st streak in
      let input := ApplyInput (in_pairs raw) links in
      let plain := ll_link <$> links in
      let pl := planSiteIsolation sha256hex (in_pairs raw) plain in
      match buildSiteIsolationNft sha256hex (in_pairs raw) plain with
      | Throw _ => failed (fail st FailInput) w
      | Ok script =>
          let st := with_warnings st (pl_warnings pl) heldWarnings in
          if fails_closed input pl then failed (fail st FailUnresolved) w
          else
            let hash := scriptHash sha256hex script in
            if negb force && bool_decide (st_hash st = Some hash) && bool_decide (st_error st = None) &&
               table_listed o w
            then
              let '(st, w) := if st_persisted st then (st, w) else persistReported o st w script in
              (st, w, ApplyResult true false)
            else
              let '(w, ok) := run_nft o w script in
              if ok then
                let changed := negb (bool_decide (st_hash st = Some hash)) in
                let '(st, w) := persistReported o (applied_state st input pl script hash) w script in
                (st, w, ApplyResult true changed)
              else failed (fail st FailNft) w
      end
  end.

(** * The service *)

(** The debounced trigger: [started] and whether a timer is pending. *)
Record trigger := Trigger { t_started : bool; t_scheduled : bool }.

Definition schedule (t : trigger) : trigger :=
  if negb (t_started t) || t_scheduled t then t else Trigger (t_started t) true.

Definition timer_fires (t : trigger) : trigger := Trigger (t_started t) false.

(** [replace]: validate against the loaded links, store the list, apply it by force. *)
Record replace_result := ReplaceResult {
  rr_pairs : list pair; rr_added : list pair; rr_removed : list pair;
  rr_applier : applier; rr_world : world; rr_apply : option apply_result }.

Definition replace (o : outcomes) (disabled : bool) (links : list live_link) (stored : list pair)
    (body_pairs : jsval) (st : applier) (w : world) : result site_error replace_result :=
  clean ← sanitizePairs body_pairs (ll_link <$> links);
  let prevKeys := pair_key <$> stored in
  let nextKeys := pair_key <$> clean in
  let added := bfilter (fun p => negb (set_has prevKeys (pair_key p))) clean in
  let removed := bfilter (fun p => negb (set_has nextKeys (pair_key p))) stored in
  if disabled then Ok (ReplaceResult clean added removed st w None)
  else
    let '(st, w, r) := applyOnce o true (Some (ApplyInput clean links)) st w in
    Ok (ReplaceResult clean added removed st w (Some r)).

(** The pair rows of [overview]: enforced when the hub runs them. *)
Definition pair_enforced (table_present : bool) (st : applier) (p : pair) : bool :=
  set_has (if table_present then st_appliedPairs st else []) (pair_key p).

(** The verdict the tester shows: the stored pairs first, then hand-written rules. *)
Record full_verdict := FullVerdict { fv_blocked : bool; fv_partial : bool; fv_manual : bool; fv_applied : bool }.

Definition verdict (st : applier) (pairs : list pair) (links : list live_link) (drops : option (list foreign_drop))
    (src dst : string) : full_verdict :=
  let v := siteIsolationVerdict sha256hex pairs (ll_link <$> links) src dst in
  let applied := bool_decide (st_error st = None) && match st_hash st with Some h => bool_decide (h <> "") | None => false end in
  let out := FullVerdict (v_blocked v) (v_partial v) false applied in
  if v_blocked v then out
  else
    let m := match drops with Some ds => manualDropVerdict ds src dst | None => DropVerdict false false None end in
    if dv_blocked m then FullVerdict true false true true
    else if dv_partial m && negb (v_partial v) then FullVerdict (v_blocked v) true true applied
    else out.

(** * Histories *)

(** One event: an apply (its outcomes, forced or not, what was loaded), or somebody
    flushing the ruleset. *)
Inductive event := EApply (o : outcomes) (force : bool) (loaded : option apply_input) | EFlush.

Definition step (s : applier * world) (e : event) : applier * world :=
  match e with
  | EApply o force loaded => (applyOnce o force loaded s.1 s.2).1
  | EFlush => (s.1, World None (w_file s.2))
  end.

Inductive reachable : applier * world -> Prop :=
| reach_init w : reachable (new_applier, w)
| reach_step s e : reachable s -> reachable (step s e).


(** * One apply *)

(** What a successful apply puts in place for an input. *)
Definition script_for (pairs : list pair) (links : list link) : string :=
  render_table (site_table (planSiteIsolation sha256hex pairs links)).

Lemma build_is_script_for pairs links :
  buildSiteIsolationNft sha256hex pairs links = Ok (script_for pairs links).
Proof.
  unfold buildSiteIsolationNft. destruct (bfind _ _) as [n|] eqn:Hf; [|done]. exfalso.
  apply bfind_Some in Hf as [(s & Hn & Hs)%list_elem_of_bind Hc].
  rewrite merge_sort_Permutation in Hs. destruct (site_of_plan sha256hex pairs links s Hs) as (id & l & ->).
  pose proof (siteNetworks_interval_set_canonical l n Hn) as Hcan.
  rewrite bool_decide_eq_true_2 in Hc; done.
Qed.

(** The input of the plan: the loaded links and the held ones. *)
Definition held_links (st : applier) (raw : apply_input) : list live_link := (withHeldLinks st raw).1.1.
Definition plain_links (st : applier) (raw : apply_input) : list link := ll_link <$> held_links st raw.

(** Every way an apply can end. *)
Inductive apply_case (o : outcomes) (force : bool) (raw : apply_input) (st st' : applier) (w w' : world)
    : apply_result -> Prop :=
| case_unresolved :
    let pl := planSiteIsolation sha256hex (in_pairs raw) (plain_links st raw) in
    fails_closed (ApplyInput (in_pairs raw) (held_links st raw)) pl = true ->
    w' = w -> st_error st' = Some FailUnresolved ->
    st_hash st' = st_hash st -> st_script st' = st_script st -> st_appliedPairs st' = st_appliedPairs st ->
    lastLinks st' = lastLinks st ->
    apply_case o force raw st st' w w' (ApplyResult false false)
| case_nft :
    w' = w -> st_error st' = Some FailNft ->
    st_hash st' = st_hash st -> st_script st' = st_script st -> st_appliedPairs st' = st_appliedPairs st ->
    lastLinks st' = lastLinks st ->
    apply_case o force raw st st' w w' (ApplyResult false false)
| case_unchanged :
    force = false -> st_hash st = Some (sha256hex (script_for (in_pairs raw) (plain_links st raw))) ->
    st_error st = None -> st_error st' = None -> is_Some (w_table w) -> w_table w' = w_table w ->
    st_hash st' = st_hash st -> st_script st' = st_script st -> st_appliedPairs st' = st_appliedPairs st ->
    apply_case o force raw st st' w w' (ApplyResult true false)
| case_applied changed :
    let pl := planSiteIsolation sha256hex (in_pairs raw) (plain_links st raw) in
    let script := script_for (in_pairs raw) (plain_links st raw) in
    fails_closed (ApplyInput (in_pairs raw) (held_links st raw)) pl = false ->
    w_table w' = Some script -> st_error st' = None ->
    st_hash st' = Some (sha256hex script) -> st_script st' = Some script ->
    st_appliedPairs st' = pair_key <$> pl_pairs pl ->
    apply_case o force raw st st' w w' (ApplyResult true changed).

Lemma applyOnce_cases o force raw st w st' w' r :
  applyOnce o force (Some raw) st w = (st', w', r) -> apply_case o force raw st st' w w' r.
Proof.
  unfold applyOnce, plain_links, held_links.
  pose proof (build_is_script_for (in_pairs raw) (plain_links st raw)) as Hb.
  unfold plain_links, held_links in Hb.
  destruct (withHeldLinks st raw) as [[links held] streak] eqn:Hheld. cbn [fst] in *. rewrite Hb.
  set (pl := planSiteIsolation sha256hex (in_pairs raw) (ll_link <$> links)).
  set (script := script_for (in_pairs raw) (ll_link <$> links)).
  cbv zeta. destruct (fails_closed _ pl) eqn:Hf.
  { intros [= <- <- <-]. apply case_unresolved; unfold plain_links, held_links; rewrite ?Hheld; done. }
  destruct (negb force && _ && _ && _) eqn:Hu.
  - rewrite !andb_true_iff in Hu. destruct Hu as [[[Hforce%negb_true_iff Hh%bool_decide_eq_true] He%bool_decide_eq_true] Hl].
    unfold table_listed in Hl. apply andb_true_iff in Hl as [_ Hl].
    destruct (st_persisted _); intros [= <- <- <-]; apply case_unchanged;
      unfold plain_links, held_links; rewrite ?Hheld; try done.
    + destruct (w_table w); [by eauto|done].
    + destruct (w_table w); [by eauto|done].
    + by destruct (o_persist o).
  - unfold run_nft. destruct (o_mkdtemp o && o_write o && o_check o && o_apply o).
    + intros [= <- <- <-]. apply case_applied; unfold plain_links, held_links; rewrite ?Hheld; try done.
      by destruct (o_persist o).
    + intros [= <- <- <-]. by apply case_nft.
Qed.

(** A failed apply changes nothing on the hub: whatever goes wrong (unreadable input,
    unresolved links, a rejected script), the kernel's table, the boot file, the hash and
    the list of enforced pairs are those of before, and the failure is recorded. *)
Theorem failed_apply_keeps_table o force loaded st w st' w' r :
  applyOnce o force loaded st w = (st', w', r) -> r_ok r = false ->
  w' = w /\ is_Some (st_error st') /\ st_hash st' = st_hash st /\ st_script st' = st_script st /\
  st_appliedPairs st' = st_appliedPairs st /\ lastLinks st' = lastLinks st /\ r_changed r = false.
Proof.
  destruct loaded as [raw|]; [|intros [= <- <- <-] _; split_and!; done || by eexists].
  intros Ha%applyOnce_cases Hr. destruct Ha; try discriminate Hr; split_and!; try done; by eexists.
Qed.

(** Fail closed: while pairs are stored and none of them has two site links (also counting
    the links held from the last apply), no apply touches the table. *)
Theorem unresolved_pairs_keep_table o force raw st w st' w' r :
  in_pairs raw <> [] ->
  unresolved_pairs (ApplyInput (in_pairs raw) (held_links st raw)) = in_pairs raw ->
  applyOnce o force (Some raw) st w = (st', w', r) ->
  r_ok r = false /\ w' = w /\ st_error st' = Some FailUnresolved.
Proof.
  intros Hne Hun Ha. unfold applyOnce in Ha.
  pose proof (build_is_script_for (in_pairs raw) (ll_link <$> held_links st raw)) as Hb.
  unfold held_links in *. destruct (withHeldLinks st raw) as [[links held] streak]. cbn [fst] in *.
  rewrite Hb in Ha. cbv zeta in Ha.
  assert (forall pl, fails_closed (ApplyInput (in_pairs raw) links) pl = true) as Hf.
  { intros pl. unfold fails_closed. rewrite Hun. cbn [in_pairs]. rewrite bool_decide_eq_true_2 by done.
    rewrite Nat.eqb_refl. by rewrite orb_true_r. }
  rewrite Hf in Ha. injection Ha as <- <- <-. done.
Qed.

(** * Histories *)

(** What an applier knows is what it did: its hash and its pairs are those of the script it
    last installed, and the table is that script or gone. *)
Definition applier_ok (s : applier * world) : Prop :=
  match st_script s.1 with
  | None => st_hash s.1 = None /\ st_appliedPairs s.1 = []
  | Some script =>
      st_hash s.1 = Some (sha256hex script) /\
      (w_table s.2 = None \/ w_table s.2 = Some script) /\
      exists pairs links, script = script_for pairs links /\
        st_appliedPairs s.1 = pair_key <$> pl_pairs (planSiteIsolation sha256hex pairs links)
  end.

Lemma applier_ok_step s e : applier_ok s -> applier_ok (step s e).
Proof.
  destruct s as [st w]. intros Hok. destruct e as [o force [raw|]|]; [| |].
  - unfold step. cbn [fst snd]. destruct (applyOnce o force (Some raw) st w) as [[st' w'] r] eqn:Ha.
    apply applyOnce_cases in Ha. unfold applier_ok in *. cbn [fst snd] in *.
    destruct Ha as [pl _ -> _ Hh Hs Hp _| -> _ Hh Hs Hp _| _ _ _ _ _ Ht Hh Hs Hp|changed pl script _ Ht _ Hh Hs Hp].
    + by rewrite Hs, Hh, Hp.
    + by rewrite Hs, Hh, Hp.
    + by rewrite Hs, Hh, Hp, Ht.
    + rewrite Hs. split; [done|]. split; [by right|]. by exists (in_pairs raw), (plain_links st raw).
  - exact Hok.
  - unfold applier_ok in *. cbn in *. destruct (st_script st); [|done].
    destruct Hok as (Hh & _ & Hp). split_and!; [done|by left|done].
Qed.

Lemma reachable_ok s : reachable s -> applier_ok s.
Proof. induction 1; [done|by apply applier_ok_step]. Qed.

(** C31. The "enforced" mark never lies: in every history of applies, failures and flushes,
    a pair that the overview marks as enforced belongs to the plan of exactly the script
    that the kernel runs at that moment. *)
Theorem enforced_pairs_are_in_the_table s table p :
  reachable s -> w_table s.2 = Some table -> pair_enforced true s.1 p = true ->
  exists pairs links q, table = script_for pairs links /\
    q ∈ pl_pairs (planSiteIsolation sha256hex pairs links) /\ pair_key q = pair_key p.
Proof.
  intros Hr%reachable_ok Ht Hp. unfold pair_enforced, set_has in Hp. apply bool_decide_eq_true in Hp.
  unfold applier_ok in Hr. destruct (st_script s.1) as [script|].
  - destruct Hr as (_ & Htab & pairs & links & -> & Hpairs).
    rewrite Hpairs in Hp. apply list_elem_of_fmap in Hp as (q & Hq & Hin).
    exists pairs, links, q. split_and!; [|done|done]. rewrite Ht in Htab. destruct Htab; congruence.
  - destruct Hr as [_ Hnil]. rewrite Hnil in Hp. by apply not_elem_of_nil in Hp.
Qed.

(** A successful apply leaves the hub running the script of its input, whether it installed
    it or found it unchanged (the hash of the script does not collide with that of the last
    installed one). *)
Theorem successful_apply_installs o force raw st w st' w' r :
  (forall old, st_script st = Some old ->
     sha256hex (script_for (in_pairs raw) (plain_links st raw)) = sha256hex old ->
     script_for (in_pairs raw) (plain_links st raw) = old) ->
  reachable (st, w) -> applyOnce o force (Some raw) st w = (st', w', r) -> r_ok r = true ->
  w_table w' = Some (script_for (in_pairs raw) (plain_links st raw)) /\ st_error st' = None /\
  st_hash st' = Some (sha256hex (script_for (in_pairs raw) (plain_links st raw))).
Proof.
  intros Hinj Hr%reachable_ok Ha%applyOnce_cases Hok.
  destruct Ha as [| |Hforce Hh He He' [t Ht] Ht' Hh' Hs Hp|]; try discriminate Hok; [|done].
  unfold applier_ok in Hr. cbn [fst snd] in Hr. destruct (st_script st) as [sc|].
  - destruct Hr as (Hsc & Htab & _). rewrite Hh in Hsc. injection Hsc as Hsc. apply (Hinj _ eq_refl) in Hsc as <-.
    split_and!; [|done|by rewrite Hh']. rewrite Ht', Ht in *. destruct Htab; congruence.
  - destruct Hr as [Hn _]. congruence.
Qed.

(** * Held links *)

Lemma hold_loop present last ids st : NoDup ids ->
  let st' := fold_left (hold_id present last) ids st in
  (forall id, id ∉ ids -> mget id (hs_streak st') = mget id (hs_streak st)) /\
  (forall id, id ∈ ids -> id ∉ present ->
     mget id (hs_streak st') = Some (default 0 (mget id (hs_streak st)) + 1)) /\
  (forall l, l ∈ hs_held st' <-> l ∈ hs_held st \/ exists id, id ∈ ids /\ id ∉ present /\
     mget id last = Some l /\ default 0 (mget id (hs_streak st)) + 1 <= HOLD_APPLIES).
Proof.
  cbv zeta. revert st. induction ids as [|id ids IH]; intros st Hnd; cbn [fold_left].
  { split_and!; [done|set_solver|]. intros l. split; [by left|].
    intros [?|(id & Hid & _)]; [done|by apply not_elem_of_nil in Hid]. }
  apply NoDup_cons in Hnd as [Hid Hnd]. destruct (IH (hold_id present last st id) Hnd) as (H1 & H2 & H3).
  assert (forall k, k <> id -> mget k (hs_streak (hold_id present last st id)) = mget k (hs_streak st)) as Hother.
  { intros k Hk. unfold hold_id. destruct (decide (id ∈ present)).
    - cbn. rewrite mget_mdel. by rewrite decide_False by congruence.
    - destruct (mget id last); [destruct (_ <=? _)|]; cbn; by rewrite mget_mset_ne by congruence. }
  split_and!.
  - intros k [Hk Hks]%not_elem_of_cons. rewrite H1 by done. by apply Hother.
  - intros k [-> |Hk]%elem_of_cons Hpres.
    + rewrite H1 by done. unfold hold_id. rewrite decide_False by done.
      destruct (mget id last); [destruct (_ <=? _)|]; cbn; by rewrite mget_mset_eq.
    + rewrite H2 by done. rewrite Hother; [done|]. by intros ->.
  - intros l. rewrite H3.
    assert (l ∈ hs_held (hold_id present last st id) <-> l ∈ hs_held st \/
      (id ∉ present /\ mget id last = Some l /\ default 0 (mget id (hs_streak st)) + 1 <= HOLD_APPLIES)) as Hstep.
    { unfold hold_id. destruct (decide (id ∈ present)); [cbn; naive_solver|].
      destruct (mget id last) as [l'|]; [|cbn; naive_solver].
      destruct (Z.leb_spec (default 0 (mget id (hs_streak st)) + 1) HOLD_APPLIES); cbn [hs_held].
      - rewrite elem_of_app, list_elem_of_singleton. naive_solver.
      - split; [by left|]. intros [?|(_ & _ & ?)]; [done|lia]. }
    rewrite Hstep. setoid_rewrite elem_of_cons. split.
    + intros [[?|?]|(k & Hk & Hkp & Hkl & Hks)]; [by left|right; exists id; tauto|].
      right. exists k. rewrite Hother in Hks by (by intros ->). tauto.
    + intros [?|(k & [-> |Hk] & Hkp & Hkl & Hks)]; [by left; left|left; right; tauto|].
      right. exists k. rewrite Hother by (by intros ->). tauto.
Qed.

Lemma withHeldLinks_spec st raw links held streak : withHeldLinks st raw = (links, held, streak) ->
  let present := (fun l => l_id (ll_link l)) <$> in_links raw in
  (forall l, l ∈ links <-> l ∈ in_links raw \/ exists id, id ∈ pair_ids (in_pairs raw) /\ id ∉ present /\
     mget id (lastLinks st) = Some l /\ default 0 (mget id (missingStreak st)) + 1 <= HOLD_APPLIES) /\
  (forall id, id ∈ pair_ids (in_pairs raw) -> id ∉ present ->
     mget id streak = Some (default 0 (mget id (missingStreak st)) + 1)).
Proof.
  unfold withHeldLinks. intros [= <- <- <-]. cbv zeta.
  destruct (hold_loop ((fun l => l_id (ll_link l)) <$> in_links raw) (lastLinks st) (pair_ids (in_pairs raw))
    (HoldState (missingStreak st) [] [])) as (_ & H2 & H3); [apply NoDup_uniq|]. cbn [hs_held hs_streak] in *.
  split.
  - intros l. rewrite elem_of_app, H3. set_solver.
  - intros id Hid Hp. rewrite mget_filter_keys, decide_True by done. by apply H2.
Qed.

(** A link that vanishes from the input keeps its last sets for exactly one more apply:
    the first apply without it still plans with its last applied version, the next one
    (its streak then being one) does not. *)
Theorem vanished_link_held_once o force raw st w id l :
  id ∈ pair_ids (in_pairs raw) -> id ∉ (fun l => l_id (ll_link l)) <$> in_links raw ->
  mget id (lastLinks st) = Some l ->
  (mget id (missingStreak st) = None -> l ∈ held_links st raw) /\
  let st' := (applyOnce o force (Some raw) st w).1.1 in
  mget id (missingStreak st') = Some (default 0 (mget id (missingStreak st)) + 1) /\
  forall raw', id ∈ pair_ids (in_pairs raw') -> in_links raw' = in_links raw ->
    0 <= default 0 (mget id (missingStreak st)) ->
    forall l', l' ∈ held_links st' raw' -> l' ∈ in_links raw' \/
      exists id', id' <> id /\ mget id' (lastLinks st') = Some l'.
Proof.
  intros Hid Hp Hl. unfold held_links.
  destruct (withHeldLinks st raw) as [[links held] streak] eqn:Hheld.
  pose proof (withHeldLinks_spec _ _ _ _ _ Hheld) as [Hel Hstreak]. cbv zeta in *. cbn [fst].
  assert (mget id (missingStreak (applyOnce o force (Some raw) st w).1.1) =
          Some (default 0 (mget id (missingStreak st)) + 1)) as Hs.
  { rewrite <- Hstreak by done. unfold applyOnce. rewrite Hheld.
    rewrite build_is_script_for. destruct (fails_closed _ _); [done|].
    destruct (negb force && _ && _ && _); [by destruct (st_persisted _)|].
    unfold run_nft. destruct (_ && _); done. }
  split_and!; [|exact Hs|].
  - intros Hn. apply Hel. right. exists id. rewrite Hn. done.
  - intros raw' Hid' Hlinks Hnn l' Hl'.
    set (st' := (applyOnce o force (Some raw) st w).1.1) in *.
    destruct (withHeldLinks st' raw') as [[links' held'] streak'] eqn:Hheld'.
    pose proof (withHeldLinks_spec _ _ _ _ _ Hheld') as [Hel' _]. cbv zeta in *. cbn [fst] in Hl'.
    apply Hel' in Hl' as [?|(id' & _ & _ & Hlast & Hk)]; [by left|]. right. exists id'. split; [|done].
    intros ->. rewrite Hs in Hk. cbn in Hk. unfold HOLD_APPLIES in Hk. lia.
Qed.

(** Replacing the pair list is all or nothing: when the forced apply succeeds the hub
    runs the script of exactly the stored list and the current links (an accepted list
    names only present links, so nothing is held), and when it fails the table is as before. *)
Theorem replace_installs_the_list o links stored body st w res r :
  replace o false links stored body st w = Ok res -> rr_apply res = Some r ->
  (r_ok r = true -> w_table (rr_world res) = Some (script_for (rr_pairs res) (ll_link <$> links))) /\
  (r_ok r = false -> rr_world res = w).
Proof.
  unfold replace. intros (clean & Hc & H)%bind_Ok Hr. cbv beta iota zeta in H.
  set (raw := ApplyInput clean links) in *.
  destruct (applyOnce o true (Some raw) st w) as [[st' w'] r'] eqn:Ha. injection H as <-.
  cbn in Hr. injection Hr as ->. cbn [rr_world rr_pairs].
  assert (held_links st raw = links) as Hheld.
  { assert (forall id, id ∈ pair_ids clean -> id ∈ (fun l => l_id (ll_link l)) <$> links) as Hpres.
    { intros id Hid. unfold pair_ids in Hid. rewrite elem_of_uniq in Hid.
      apply list_elem_of_bind in Hid as (p & Hid & Hp).
      apply sanitizePairs_valid in Hc. rewrite Forall_forall in Hc.
      destruct (Hc p Hp) as (_ & A & B & HA & HB & _).
      apply (by_id_elem sha256hex) in HA as [HA HAid], HB as [HB HBid].
      apply list_elem_of_fmap in HA as (lA & -> & HA), HB as (lB & -> & HB).
      rewrite !elem_of_cons, elem_of_nil in Hid. apply list_elem_of_fmap.
      destruct Hid as [Hid|[Hid|[]]]; [exists lA|exists lB]; (split; [congruence|done]). }
    unfold held_links, withHeldLinks. cbn [fst in_links in_pairs raw].
    assert (forall ids s, (forall id, id ∈ ids -> id ∈ (fun l => l_id (ll_link l)) <$> links) ->
      hs_held (fold_left (hold_id ((fun l => l_id (ll_link l)) <$> links) (lastLinks st)) ids s) = hs_held s) as Hloop.
    { intros ids. induction ids as [|id ids IH]; intros s Hin; [done|]. cbn [fold_left].
      rewrite IH by set_solver. unfold hold_id. rewrite decide_True by set_solver. done. }
    rewrite Hloop by done. by rewrite app_nil_r. }
  apply applyOnce_cases in Ha.
  split; intros Hok; destruct Ha as [pl _ Hw|Hw|Hforce|changed pl script _ Ht]; try discriminate.
  - subst script. unfold plain_links in Ht. rewrite Hheld in Ht. exact Ht.
  - exact Hw.
  - exact Hw.
Qed.
End applier.

(** ** Witnesses *)

Definition ex_live_links : list live_link := (fun l => LiveLink l true true) <$> ex_links.
Definition ex_input : apply_input := ApplyInput ex_pairs ex_live_links.
Definition all_ok : outcomes := Outcomes true true true true true true.
Definition nft_rejects : outcomes := Outcomes true true true false true true.
Definition ex_world : world := World None None.

Definition ex_applied : applier * world := (applyOnce id all_ok false (Some ex_input) new_applier ex_world).1.

Lemma failed_apply_keeps_table_witness :
  exists st' w' r, applyOnce id nft_rejects true (Some ex_input) ex_applied.1 ex_applied.2 = (st', w', r) /\
    r_ok r = false /\ w' = ex_applied.2.
Proof.
  eexists _, _, _. split; [vm_compute; reflexivity|]. split; [vm_compute; reflexivity|].
  eapply (failed_apply_keeps_table id nft_rejects true (Some ex_input) ex_applied.1 ex_applied.2);
    [vm_compute; reflexivity|vm_compute; reflexivity].
Defined.

Lemma unresolved_pairs_keep_table_witness :
  exists st' w' r, applyOnce id all_ok false (Some (ApplyInput ex_pairs [])) new_applier ex_applied.2 = (st', w', r) /\
    w' = ex_applied.2.
Proof.
  eexists _, _, _. split; [vm_compute; reflexivity|].
  eapply (unresolved_pairs_keep_table id all_ok false (ApplyInput ex_pairs []) new_applier ex_applied.2);
    [discriminate|vm_compute; reflexivity|vm_compute; reflexivity].
Defined.

Lemma ex_applied_reachable : reachable id ex_applied.
Proof. exact (reach_step id _ (EApply all_ok false (Some ex_input)) (reach_init id ex_world)). Qed.

Lemma enforced_pairs_are_in_the_table_witness :
  exists table, w_table ex_applied.2 = Some table /\
    exists pairs links q, table = script_for id pairs links /\
      q ∈ pl_pairs (planSiteIsolation id pairs links) /\ pair_key q = pair_key (Pair "wg0:A" "wg0:B").
Proof.
  eexists. split; [vm_compute; reflexivity|].
  apply (enforced_pairs_are_in_the_table id ex_applied);
    [exact ex_applied_reachable|vm_compute; reflexivity|vm_compute; reflexivity].
Defined.

Lemma successful_apply_installs_witness :
  exists st' w' r, applyOnce id all_ok false (Some ex_input) ex_applied.1 ex_applied.2 = (st', w', r) /\
    r_changed r = false /\ w_table w' = Some (script_for id ex_pairs (plain_links ex_applied.1 ex_input)).
Proof.
  eexists _, _, _. split; [vm_compute; reflexivity|]. split; [vm_compute; reflexivity|].
  eapply (successful_apply_installs id all_ok false ex_input ex_applied.1 ex_applied.2);
    [intros old _ H; exact H|exact ex_applied_reachable|vm_compute; reflexivity|vm_compute; reflexivity].
Defined.

Lemma vanished_link_held_once_witness :
  exists l, mget "wg0:A" (lastLinks ex_applied.1) = Some l /\
    l ∈ held_links ex_applied.1 (ApplyInput ex_pairs []).
Proof.
  eexists. split; [vm_compute; reflexivity|].
  eapply (vanished_link_held_once id all_ok false (ApplyInput ex_pairs []) ex_applied.1 ex_applied.2 "wg0:A");
    [apply (bool_decide_unpack _); vm_compute; exact I|apply not_elem_of_nil|vm_compute; reflexivity|vm_compute; reflexivity].
Defined.

Definition ex_body : jsval := VArr [VObj [("link_a", VStr "wg0:B"); ("link_b", VStr "wg0:A")]].

Lemma replace_installs_the_list_witness :
  exists res r, replace id all_ok false ex_live_links [] ex_body new_applier ex_world = Ok res /\
    rr_apply res = Some r /\ w_table (rr_world res) = Some (script_for id (rr_pairs res) (ll_link <$> ex_live_links)).
Proof.
  eexists _, _. split; [vm_compute; reflexivity|]. split; [vm_compute; reflexivity|].
  eapply (replace_installs_the_list id all_ok ex_live_links [] ex_body new_applier ex_world);
    [vm_compute; reflexivity|vm_compute; reflexivity|vm_compute; reflexivity].
Defined.

(** * The link loader *)

Definition meta_entry (cache : live_cache) (live : list (string * status_link)) (im : string * meta_link) : live_link :=
  let l := mget im.1 live in
  let v := match l with Some l => view_of l | None => default no_view (mget im.1 cache) end in
  LiveLink
    (Link im.1 (sor (ml_name im.2) (sor (match l with Some l => sl_name l | None => "" end) im.1))
       (sor (ml_type im.2) (lv_type v)) (lor (ml_importedNetworks im.2) (lv_importedNetworks v)) (lv_tunnelAddresses v))
    (match l with Some l => sl_active l | None => false end)
    (match l with Some _ => true | None => mhas im.1 cache end).

(** The cache entry of a link after its live record was seen. *)
Definition refreshed (cache : live_cache) (live : list (string * status_link)) (id : string) : option live_view :=
  match mget id live with Some l => Some (view_of l) | None => mget id cache end.

Lemma load_meta_loop metadata st : NoDup metadata.*1 ->
  let st' := fold_left load_meta metadata st in
  ls_out st' = ls_out st ++ (meta_entry (ls_cache st) (ls_live st) <$> metadata) /\
  (forall id, mget id (ls_cache st') =
     if decide (id ∈ metadata.*1) then refreshed (ls_cache st) (ls_live st) id else mget id (ls_cache st)) /\
  (forall id, mget id (ls_live st') = if decide (id ∈ metadata.*1) then None else mget id (ls_live st)) /\
  (forall kv, kv ∈ ls_live st' -> kv ∈ ls_live st).
Proof.
  cbv zeta. revert st. induction metadata as [|[id m] metadata IH]; intros st Hn.
  { cbn. rewrite app_nil_r. split_and!; try done; intros k; by rewrite decide_False by apply not_elem_of_nil. }
  cbn [fold_left]. change (((id, m) :: metadata).*1) with (id :: metadata.*1) in *.
  apply NoDup_cons in Hn as [Hid Hn]. destruct (IH (load_meta st (id, m)) Hn) as (Ho & Hc & Hl & Hsub).
  assert (ls_out (load_meta st (id, m)) = ls_out st ++ [meta_entry (ls_cache st) (ls_live st) (id, m)]) as Hout1.
  { unfold load_meta, liveOf, meta_entry. cbn [fst snd]. by destruct (mget id (ls_live st)). }
  assert (forall k, mget k (ls_cache (load_meta st (id, m))) =
    if decide (k = id) then refreshed (ls_cache st) (ls_live st) id else mget k (ls_cache st)) as Hc1.
  { intros k. unfold load_meta, liveOf, refreshed. destruct (mget id (ls_live st)); cbn [ls_cache].
    - rewrite mget_mset. repeat case_decide; congruence.
    - by case_decide; subst. }
  assert (ls_live (load_meta st (id, m)) = mdel id (ls_live st)) as Hl1.
  { unfold load_meta, liveOf. by destruct (mget id (ls_live st)). }
  rewrite Hl1 in *.
  assert (forall k, k ∈ metadata.*1 -> mget k (mdel id (ls_live st)) = mget k (ls_live st)) as Hk.
  { intros k Hk. rewrite mget_mdel. rewrite decide_False; [done|]. by intros ->. }
  split_and!.
  - rewrite Ho, Hout1, <- app_assoc. f_equal. csimpl. f_equal. apply list_fmap_ext.
    intros i [k m'] Hi%list_elem_of_lookup_2. unfold meta_entry. cbn [fst snd].
    assert (k ∈ metadata.*1) as Hkm by (apply list_elem_of_fmap; by exists (k, m')).
    rewrite Hk by done. unfold mhas. rewrite !Hc1, decide_False by (by intros ->). done.
  - intros k. rewrite Hc. destruct (decide (k ∈ metadata.*1)) as [Hkm|Hkm].
    + rewrite decide_True by (by right). unfold refreshed. rewrite Hk by done.
      by rewrite Hc1, decide_False by (by intros ->).
    + rewrite Hc1. destruct (decide (k = id)) as [-> |Hne].
      * by rewrite decide_True by (by left).
      * rewrite decide_False; [done|]. by intros [?|?]%elem_of_cons.
  - intros k. rewrite Hl. rewrite mget_mdel. destruct (decide (k ∈ metadata.*1)) as [Hkm|Hkm].
    + by rewrite decide_True by (by right).
    + destruct (decide (id = k)) as [-> |Hne]; [by rewrite decide_True by (by left)|].
      rewrite decide_False; [done|]. intros [?|?]%elem_of_cons; congruence.
  - intros kv Hkv%Hsub. unfold mdel in Hkv. by apply list_elem_of_filter in Hkv as [_ Hkv].
Qed.

Lemma load_live_cache live st id : (forall kv, kv ∈ live -> sl_id kv.2 <> id) ->
  mget id (fold_left load_live live st).1 = mget id st.1.
Proof.
  revert st. induction live as [|kv live IH]; intros st Hn; [done|]. cbn [fold_left].
  rewrite IH by set_solver. unfold load_live, liveOf. cbn [fst].
  rewrite mget_mset_ne; [done|]. apply Hn. by left.
Qed.

Lemma load_live_out live st : exists rest, (fold_left load_live live st).2 = st.2 ++ rest.
Proof.
  revert st. induction live as [|kv live IH]; intros st; [exists []; by rewrite app_nil_r|].
  cbn [fold_left]. destruct (IH (load_live st kv)) as [rest ->]. unfold load_live, liveOf. cbn [snd].
  rewrite <- app_assoc. eauto.
Qed.

(** What the plan reads of a link. *)
Definition plan_view (l : live_link) : string * string * list string * list string * bool :=
  (l_id (ll_link l), l_type (ll_link l), l_importedNetworks (ll_link l), l_tunnelAddresses (ll_link l), ll_live l).

(** Losing the live status never changes a site: after one load with a status, a load
    without one (wg down, an error) gives every stored link the same type, networks, tunnel
    addresses and live mark, from the cache. *)
Theorem loadLinks_survives_lost_status cache metadata status :
  NoDup metadata.*1 ->
  let first := loadLinks cache metadata (Some status) in
  let second := loadLinks first.1 metadata None in
  plan_view <$> second.2 = plan_view <$> take (length metadata) first.2.
Proof.
  intros Hn. cbv zeta. set (live := mfrom ((fun l => (sl_id l, l)) <$> status)).
  assert (loadLinks cache metadata (Some status) =
    let st := fold_left load_meta metadata (LoadState cache live []) in
    fold_left load_live (ls_live st) (ls_cache st, ls_out st)) as -> by done. cbv zeta.
  destruct (load_meta_loop metadata (LoadState cache live []) Hn) as (Ho & Hc & Hl & Hsub).
  set (st := fold_left load_meta metadata (LoadState cache live [])) in *. cbn [ls_out ls_cache ls_live app] in *.
  destruct (load_live_out (ls_live st) (ls_cache st, ls_out st)) as [rest Hrest].
  rewrite Hrest. cbn [snd].
  assert (take (length metadata) (ls_out st ++ rest) = meta_entry cache live <$> metadata) as ->.
  { rewrite Ho. apply take_app_length'. by rewrite length_fmap. }
  assert (forall id, id ∈ metadata.*1 ->
    mget id (fold_left load_live (ls_live st) (ls_cache st, ls_out st)).1 = refreshed cache live id) as Hcache.
  { intros id Hid. rewrite load_live_cache.
    - cbn [fst]. by rewrite Hc, decide_True.
    - intros [k l] Hkl Heq. cbn in Heq. subst id.
      assert (k = sl_id l) as ->.
      { apply Hsub in Hkl. unfold live in Hkl.
        assert (forall s, (k, l) ∈ mfrom ((fun l => (sl_id l, l)) <$> s) -> k = sl_id l) as Hkey; [|eauto].
        intros s. unfold mfrom. assert (forall acc, ((k, l) ∈ acc -> k = sl_id l) ->
          (k, l) ∈ foldl (fun m kv => mset kv.1 kv.2 m) acc ((fun l => (sl_id l, l)) <$> s) -> k = sl_id l) as Hacc.
        { induction s as [|x s IHs]; intros acc Hacc; csimpl; [done|]. apply IHs.
          intros [[= -> ->]|?]%elem_of_mset; auto. }
        apply Hacc. by intros ?%not_elem_of_nil. }
      specialize (Hl (sl_id l)). rewrite decide_True in Hl by done.
      apply mget_None in Hl. apply Hl. apply list_elem_of_fmap. by exists (sl_id l, l). }
  set (c1 := (fold_left load_live (ls_live st) (ls_cache st, ls_out st)).1) in *.
  assert (loadLinks c1 metadata None =
    let st := fold_left load_meta metadata (LoadState c1 [] []) in
    fold_left load_live (ls_live st) (ls_cache st, ls_out st)) as -> by done. cbv zeta.
  destruct (load_meta_loop metadata (LoadState c1 [] []) Hn) as (Ho2 & _ & Hl2 & Hsub2).
  set (st2 := fold_left load_meta metadata (LoadState c1 [] [])) in *. cbn [ls_out ls_cache ls_live app] in *.
  assert (ls_live st2 = []) as Hnil.
  { destruct (ls_live st2) as [|kv l]; [done|]. exfalso. apply (not_elem_of_nil kv), Hsub2. by left. }
  rewrite Hnil. cbn [fold_left snd]. rewrite Ho2, <- !list_fmap_compose. apply list_fmap_ext.
  intros i [id m] Hi%list_elem_of_lookup_2. unfold compose, plan_view, meta_entry. cbn [fst snd mget].
  assert (id ∈ metadata.*1) as Hid by (apply list_elem_of_fmap; by exists (id, m)).
  cbn [ll_link l_id l_type l_importedNetworks l_tunnelAddresses ll_live].
  unfold mhas. rewrite (Hcache id Hid). unfold refreshed. by destruct (mget id live).
Qed.

Lemma loadLinks_survives_lost_status_witness :
  let metadata := [("wg0:A", MetaLink "Nord" "" [])] in
  let status := [StatusLink "wg0:A" "Nord" "site-to-site" ["192.168.1.0/24"] ["10.10.0.2/32"] true] in
  NoDup metadata.*1 /\
  plan_view <$> (loadLinks (loadLinks [] metadata (Some status)).1 metadata None).2 =
    [("wg0:A", "site-to-site", ["192.168.1.0/24"], ["10.10.0.2/32"], true)].
Proof.
  cbv zeta. split; [apply NoDup_singleton|].
  rewrite (loadLinks_survives_lost_status [] [("wg0:A", MetaLink "Nord" "" [])]
    [StatusLink "wg0:A" "Nord" "site-to-site" ["192.168.1.0/24"] ["10.10.0.2/32"] true] (NoDup_singleton _)).
  vm_compute. reflexivity.
Defined.
