(* ===== verification/DirectLink.v ===== *)
(** Direct links between two site agents: [backend/internal/agent-direct-link-rules.js].

    Validation of the administrator's input, the checks of a link against the mesh, the
    wg-quick configuration and firewall hooks of one side, the routes of the direct path,
    the heartbeat's status and the connection checks. The relay-guard chain is also read
    as a packet filter ([guard_verdict]). *)

From S2P Require Import Prelude.
From S2P Require Import JsString.
From S2P Require Import JsRegex.
From S2P Require Import Cidr.
From S2P Require Import JsVal.
From S2P Require Import Json.
From S2P Require Import ConfText.
From S2P Require Import IngressRules.

Local Open Scope Z_scope.

(** * Names and constants *)

Definition DIRECT_TABLE_BASE : Z := 52000.
Definition DIRECT_RULE_PREF : Z := 31000.
Definition MAX_DIRECT_LINK_ID : Z := 9999.
Definition DIRECT_KEEPALIVE_S : Z := 25.
Definition DIRECT_PATHS : list string := ["direct"; "hub"].
Definition DIRECT_FRESH_HANDSHAKE_S : Z := 180.

Definition directIface (id : Z) : string := "fgd" +:+ showZ id.
Definition directGuardChain (iface : string) : string :=
  "FGD" +:+ (if starts_with "fgd" iface then sdrop 3 iface else iface).
Definition isDirectIface (name : string) : bool := re_test FGD_RE name.
Definition directTable (id : Z) : Z := DIRECT_TABLE_BASE + id.

Definition is_label_char (c : ascii) : bool := is_alnum c || is_char "-" c.

(** One label of a host name: letters and digits, hyphens inside, at most 63. *)
Definition LABEL_RE : re :=
  RSeq (RChar is_alnum) (ropt (RSeq (rrep 0 61 (RChar is_label_char)) (RChar is_alnum))).

(** Labels joined by dots, 1 to 253 characters. *)
Definition HOSTNAME_RE : re := RSeq LABEL_RE (RStar (RSeq (RChar (is_char ".")) LABEL_RE)).
Definition is_hostname (s : string) : bool :=
  re_test HOSTNAME_RE s && Nat.leb 1 (String.length s) && Nat.leb (String.length s) 253.

Definition is_b64_char (c : ascii) : bool := is_alnum c || one_of ["+"; "/"]%char c.
Definition WG_PUBKEY_RE : re :=
  RSeq (rrep 42 0 (RChar is_b64_char))
    (RSeq (RChar (one_of ["A"; "E"; "I"; "M"; "Q"; "U"; "Y"; "c"; "g"; "k"; "o"; "s"; "w"; "0"; "4"; "8"]%char))
          (RChar (is_char "="))).

Definition ipToInt (ip : string) : Z :=
  fold_left (fun acc o => acc * 256 + num_of_digits o) (split_char "." ip) 0.
Definition intToIp (n : Z) : string :=
  join "." ((fun s => showZ (n / 2 ^ s mod 256)) <$> [24; 16; 8; 0]).

Definition isIpv4Literal (v : string) : bool :=
  re_test IPV4_RE v && forallb (fun o => o <=? 255) (octets v).

Definition isWgPublicKey (v : jsval) : bool :=
  match v with VStr s => re_test WG_PUBKEY_RE s | _ => false end.

Definition isPrivateIpv4Net (cidr : string) : bool :=
  existsb (fun p => cidrContains p cidr) ["10.0.0.0/8"; "172.16.0.0/12"; "192.168.0.0/16"].

(** The argument is [String(value ?? "")]. *)
Definition canonicalTunnelSubnet (value : string) : option string :=
  match split_char "/" (trim value) with
  | [a; p] =>
      if bool_decide (p = "30") && re_test IPV4_RE a && isIpv4Literal a then
        let n := ipToInt a in
        if negb (n mod 4 =? 0) then None
        else
          let cidr := a +:+ "/30" in
          if isPrivateIpv4Net cidr then Some cidr else None
      else None
  | _ => None
  end.

Record tunnel_pair := TunnelPair { ta_a : string; ta_b : string }.

Definition tunnelAddresses (tunnelSubnet : string) : tunnel_pair :=
  let n := ipToInt (cidr_addr tunnelSubnet) in
  TunnelPair (intToIp (n + 1)) (intToIp (n + 2)).

Definition bool_of (v : jsval) : bool :=
  match v with
  | VBool b => b
  | VNum n => bool_decide (num_int n = Some 1)
  | VStr s => bool_decide (s = "1" \/ s = "true")
  | _ => false
  end.

(** * Links *)

Record dlink := DLink {
  dl_id : Z;
  dl_name : string;
  dl_agent_a_id : Z;
  dl_agent_b_id : Z;
  dl_listen_port : Z;
  dl_endpoint_host : string;
  dl_tunnel_subnet : string;
  dl_mtu : option Z;
  dl_enabled : bool;
  dl_nat_a : bool;
  dl_nat_b : bool }.

Inductive dl_error : Type :=
| FieldRequired (k : string)
| BadName
| BadAgentId (k : string)
| SameAgent
| BadListenPort
| BadEndpointHost
| BadTunnelSubnet
| BadMtu
| SubnetUsed (name : string)
| PairUsed (name : string)
| PortUsed (name : string)
| AgentMissing
| NoSiteLink
| SameSite
| SitesSeparated
| NatRestricted
| NetConflict (net : string)
| EndpointInside (net : string)
| PublicHostNotString
| BadPublicHost
| InvalidDirectIface (iface : string)
| InvalidHubIface (iface : string)
| InvalidCidrText (net : string).

#[export] Instance dl_error_eq_dec : EqDecision dl_error.
Proof. solve_decision. Defined.

(** The sanitized input; [None] is a field left out. *)
Record dlink_patch := DLinkPatch {
  dp_name : option string;
  dp_agent_a_id : option Z;
  dp_agent_b_id : option Z;
  dp_listen_port : option Z;
  dp_endpoint_host : option string;
  dp_tunnel_subnet : option string;
  dp_mtu : option (option Z);
  dp_enabled : option bool;
  dp_nat_a : option bool;
  dp_nat_b : option bool }.

(** * Input validation *)

(** [need(k)]: required on create, optional on update. *)
Definition need {A} (partial : bool) (b : jsval) (k : string) (m : result dl_error A) : result dl_error (option A) :=
  if is_undef (vget b k) then (if partial then Ok None else Throw (FieldRequired k)) else Some <$> m.

Definition clean_name (v : jsval) : result dl_error string :=
  let name := match v with VStr s => trim s | _ => "" end in
  throw_if (bool_decide (name = "") || Nat.ltb 64 (String.length name) || negb (sall (fun c => negb (is_control c)) name)) BadName;;
  Ok name.

(** [Number.isInteger(n) && lo <= n && n <= hi]; no upper bound is [None]. *)
Definition clean_int (v : jsval) (lo : Z) (hi : option Z) (e : dl_error) : result dl_error Z :=
  match num_int (to_number v) with
  | Some n => throw_if ((n <? lo) || match hi with Some h => h <? n | None => false end) e;; Ok n
  | None => Throw e
  end.

Definition looks_numeric (h : string) : bool :=
  bool_decide (h <> "") && sall (fun c => is_digit c || is_char "." c) h.

Definition host_ok (h : string) : bool :=
  bool_decide (h <> "") && (if looks_numeric h then isIpv4Literal h else is_hostname h).

Definition clean_host (v : jsval) : result dl_error string :=
  let h := match v with VStr s => to_lower (trim s) | _ => "" end in
  throw_if (negb (host_ok h)) BadEndpointHost;; Ok h.

Definition clean_subnet (v : jsval) : result dl_error string :=
  match canonicalTunnelSubnet (str_or "" v) with Some t => Ok t | None => Throw BadTunnelSubnet end.

Definition clean_mtu (v : jsval) : result dl_error (option Z) :=
  match v with
  | VNull => Ok None
  | VStr "" => Ok None
  | _ => Some <$> clean_int v 1280 (Some 1500) BadMtu
  end.

Definition clean_flag (partial : bool) (v : jsval) : option bool :=
  if is_undef v then (if partial then None else Some false) else Some (bool_of v).

Definition sanitizeDirectLinkInput (b : jsval) (partial : bool) : result dl_error dlink_patch :=
  name ← need partial b "name" (clean_name (vget b "name"));
  agent_a ← need partial b "agent_a_id" (clean_int (vget b "agent_a_id") 1 None (BadAgentId "agent_a_id"));
  agent_b ← need partial b "agent_b_id" (clean_int (vget b "agent_b_id") 1 None (BadAgentId "agent_b_id"));
  throw_if (bool_decide (is_Some agent_a /\ agent_a = agent_b)) SameAgent;;
  listen_port ← need partial b "listen_port" (clean_int (vget b "listen_port") 1024 (Some 65535) BadListenPort);
  endpoint_host ← need partial b "endpoint_host" (clean_host (vget b "endpoint_host"));
  tunnel_subnet ← need partial b "tunnel_subnet" (clean_subnet (vget b "tunnel_subnet"));
  mtu ← (if is_undef (vget b "mtu") then Ok None else Some <$> clean_mtu (vget b "mtu"));
  Ok (DLinkPatch name agent_a agent_b listen_port endpoint_host tunnel_subnet mtu
        (clean_flag partial (vget b "enabled")) (clean_flag partial (vget b "nat_a")) (clean_flag partial (vget b "nat_b"))).

Definition sanitizePublicHost (v : jsval) : result dl_error (option string) :=
  if is_nullish v then Ok None
  else match v with
  | VStr s =>
      let h := to_lower (trim s) in
      if decide (h = "") then Ok None
      else throw_if (negb (host_ok h)) BadPublicHost;; Ok (Some h)
  | _ => Throw PublicHostNotString
  end.

(** * Does the link fit the mesh *)

(** One row of the other links. *)
Definition link_clash (link o : dlink) : option dl_error :=
  if dl_id o =? dl_id link then None
  else
    let t := dl_tunnel_subnet link in
    if cidrContains (dl_tunnel_subnet o) t || cidrContains t (dl_tunnel_subnet o) then Some (SubnetUsed (dl_name o))
    else if ((dl_agent_a_id o =? dl_agent_a_id link) && (dl_agent_b_id o =? dl_agent_b_id link)) ||
            ((dl_agent_a_id o =? dl_agent_b_id link) && (dl_agent_b_id o =? dl_agent_a_id link))
    then Some (PairUsed (dl_name o))
    else if (dl_agent_a_id o =? dl_agent_a_id link) && (dl_listen_port o =? dl_listen_port link)
    then Some (PortUsed (dl_name o)) else None.

Definition assertNoLinkClash (link : dlink) (others : list dlink) : result dl_error unit :=
  foldM (fun _ o => match link_clash link o with Some e => Throw e | None => Ok tt end) tt others.

Definition natRestrictedConflict (link : dlink) (mode_a mode_b : string) : bool :=
  (bool_decide (mode_a = "restricted") && dl_nat_b link) ||
  (bool_decide (mode_b = "restricted") && dl_nat_a link).

Definition directNetConflict (link : dlink) (nets : list string) : option dl_error :=
  let t := dl_tunnel_subnet link in
  match bfind (fun n => cidrContains n t || cidrContains t n) nets with
  | Some clash => Some (NetConflict clash)
  | None =>
      if isIpv4Literal (dl_endpoint_host link) then
        match bfind (fun n => cidrContains n (cidr32 (dl_endpoint_host link))) nets with
        | Some inside => Some (EndpointInside inside)
        | None => None
        end
      else None
  end.

(** What the checks look up: an agent's ingress mode and site link (none: "" ), the pairs that
    are separated, the networks of the mesh and the other links. *)
Record mesh_ctx := MeshCtx {
  mc_agents : list (Z * string);
  mc_siteLinkIdOf : Z -> string;
  mc_isolated : string -> string -> bool;
  mc_siteNets : list string;
  mc_agentTunnelSubnets : list string;
  mc_others : list dlink }.

Definition assertDirectLinkFits (link : dlink) (ctx : mesh_ctx) : result dl_error unit :=
  assertNoLinkClash link (mc_others ctx);;
  if negb (dl_enabled link) then Ok tt
  else
    match mget (dl_agent_a_id link) (mc_agents ctx), mget (dl_agent_b_id link) (mc_agents ctx) with
    | Some mode_a, Some mode_b =>
        let la := mc_siteLinkIdOf ctx (dl_agent_a_id link) in
        let lb := mc_siteLinkIdOf ctx (dl_agent_b_id link) in
        throw_if (bool_decide (la = "" \/ lb = "")) NoSiteLink;;
        throw_if (bool_decide (la = lb)) SameSite;;
        throw_if (mc_isolated ctx la lb) SitesSeparated;;
        throw_if (natRestrictedConflict link mode_a mode_b) NatRestricted;;
        match directNetConflict link (mc_siteNets ctx ++ mc_agentTunnelSubnets ctx) with
        | Some e => Throw e
        | None => Ok tt
        end
    | _, _ => Throw AgentMissing
    end.

(** * Firewall hooks *)

(** [/^\d{1,3}\.\d{1,3}\.\d{1,3}\.\d{1,3}\/\d{1,2}$/] *)
Definition assertCidr (n : string) : result dl_error unit :=
  throw_if (negb (re_test IPV4_HOST_CIDR_RE n)) (InvalidCidrText n).

(** The relay-guard chain: one RETURN per own network, then DROP. *)
Inductive guard_rule := GReturn (net : string) | GDrop.

Definition guard_rules (ownNets : list string) : list guard_rule := (GReturn <$> ownNets) ++ [GDrop].

Definition render_guard (chain : string) (r : guard_rule) : string :=
  match r with
  | GReturn n => "iptables -A " +:+ chain +:+ " -d " +:+ n +:+ " -j RETURN"
  | GDrop => "iptables -A " +:+ chain +:+ " -j DROP"
  end.

Definition guard_up (iface chain : string) (ownNets : list string) : list string :=
  ["iptables -N " +:+ chain +:+ " 2>/dev/null || iptables -F " +:+ chain] ++
  (render_guard chain <$> guard_rules ownNets) ++
  ["iptables -C FORWARD -i " +:+ iface +:+ " -j " +:+ chain +:+ " 2>/dev/null || iptables -I FORWARD 1 -i " +:+
     iface +:+ " -j " +:+ chain].

Definition guard_down (iface chain : string) : list string :=
  ["iptables -D FORWARD -i " +:+ iface +:+ " -j " +:+ chain +:+ " 2>/dev/null || true";
   "iptables -F " +:+ chain +:+ " 2>/dev/null || true";
   "iptables -X " +:+ chain +:+ " 2>/dev/null || true"].

(** The rules with the table option they are in. *)
Definition hook_rules (iface tunnelSubnet : string) (nat : bool) : list (string * string) :=
  [("FORWARD -i " +:+ iface +:+ " -j ACCEPT", "");
   ("FORWARD -o " +:+ iface +:+ " -j ACCEPT", "");
   ("POSTROUTING ! -o " +:+ iface +:+ " -s " +:+ tunnelSubnet +:+ " -j MASQUERADE", "-t nat ")] ++
  (if nat then [("POSTROUTING -o " +:+ iface +:+ " -j MASQUERADE", "-t nat ")] else []).

Record hooks := Hooks { postUp : string; postDown : string }.

Definition up_commands (iface hubIface tunnelSubnet : string) (nat : bool) (ownNets : list string) : list string :=
  ["sysctl -w net.ipv4.ip_forward=1";
   "sysctl -w net.ipv4.conf." +:+ iface +:+ ".rp_filter=2";
   "[ ! -e /proc/sys/net/ipv4/conf/" +:+ hubIface +:+ " ] || sysctl -w net.ipv4.conf." +:+ hubIface +:+ ".rp_filter=2"] ++
  guard_up iface (directGuardChain iface) ownNets ++
  ((fun rt => "iptables " +:+ rt.2 +:+ "-C " +:+ rt.1 +:+ " 2>/dev/null || iptables " +:+ rt.2 +:+ "-A " +:+ rt.1) <$>
     hook_rules iface tunnelSubnet nat).

Definition down_commands (iface tunnelSubnet : string) (nat : bool) : list string :=
  guard_down iface (directGuardChain iface) ++
  ((fun rt => "iptables " +:+ rt.2 +:+ "-D " +:+ rt.1 +:+ " 2>/dev/null || true") <$> hook_rules iface tunnelSubnet nat).

Definition buildDirectHooks (iface hubIface tunnelSubnet : string) (nat : bool) (ownNets : list string)
    : result dl_error hooks :=
  throw_if (negb (isDirectIface iface)) (InvalidDirectIface iface);;
  throw_if (negb (re_test (RSeq (rlit "wg") D13) hubIface)) (InvalidHubIface hubIface);;
  assertCidr tunnelSubnet;;
  mapM assertCidr ownNets;;
  Ok (Hooks (join "; " (up_commands iface hubIface tunnelSubnet nat ownNets))
            (join "; " (down_commands iface tunnelSubnet nat))).

(** * Configuration of one side *)

Inductive side := SideA | SideB.

#[export] Instance side_eq_dec : EqDecision side.
Proof. solve_decision. Defined.

Definition own_addr (s : side) (t : tunnel_pair) : string := match s with SideA => ta_a t | SideB => ta_b t end.
Definition peer_addr (s : side) (t : tunnel_pair) : string := match s with SideA => ta_b t | SideB => ta_a t end.

Definition config_lines (link : dlink) (s : side) (h : hooks) (peerKey : string) (peerNets : list string) (mtu : option Z)
    : list string :=
  let addrs := tunnelAddresses (dl_tunnel_subnet link) in
  ["[Interface]"; "Address = " +:+ own_addr s addrs +:+ "/30"] ++
  (if decide (s = SideA) then ["ListenPort = " +:+ showZ (dl_listen_port link)] else []) ++
  match mtu with Some m => if m =? 0 then [] else ["MTU = " +:+ showZ m] | None => [] end ++
  ["Table = off"; "PostUp = " +:+ postUp h; "PostDown = " +:+ postDown h; ""; "[Peer]";
   "PublicKey = " +:+ peerKey;
   "AllowedIPs = " +:+ join ", " (dl_tunnel_subnet link :: peerNets)] ++
  (if decide (s = SideB)
   then ["Endpoint = " +:+ dl_endpoint_host link +:+ ":" +:+ showZ (dl_listen_port link)] else []) ++
  ["PersistentKeepalive = " +:+ showZ DIRECT_KEEPALIVE_S].

(** [None]: the partner's key is not known yet. *)
Definition buildDirectConfig (link : dlink) (s : side) (hubIface : string) (peerPublicKey : jsval)
    (peerNets : list string) (mtu : option Z) (ownNets : list string) : result dl_error (option string) :=
  match peerPublicKey with
  | VStr key =>
      if re_test WG_PUBKEY_RE key then
        let nat := match s with SideA => dl_nat_a link | SideB => dl_nat_b link end in
        h ← buildDirectHooks (directIface (dl_id link)) hubIface (dl_tunnel_subnet link) nat ownNets;
        mapM assertCidr peerNets;;
        Ok (Some (join (String nl "") (config_lines link s h key peerNets mtu) +:+ String nl ""))
      else Ok None
  | _ => Ok None
  end.

Definition directPeerNets (otherSiteNets partnerNets ownNets : list string) : list string :=
  let clashes n := existsb (fun o => cidrContains n o || cidrContains o n) ownNets in
  sort_strings (uniq (bfilter (fun n => bool_decide (n ∈ partnerNets) && negb (clashes n)) otherSiteNets)).

Record payload := Payload {
  pe_id : Z; pe_iface : string; pe_table : Z; pe_enabled : bool;
  pe_peer_ip : string; pe_routes : list string; pe_endpoint : option string;
  pe_config_text : option string; pe_config_hash : option string }.

Section payload.
  Variable sha256hex : string -> string.

Definition directPayloadEntry (link : dlink) (s : side) (hubIface : string) (peerPublicKey : jsval)
    (peerNets : list string) (active : bool) (ownNets : list string) : result dl_error payload :=
  let id := dl_id link in
  if negb active then Ok (Payload id (directIface id) (directTable id) false "" [] None None None)
  else
    config ← buildDirectConfig link s hubIface peerPublicKey peerNets (dl_mtu link) ownNets;
    let addrs := tunnelAddresses (dl_tunnel_subnet link) in
    Ok (Payload id (directIface id) (directTable id) true (peer_addr s addrs) peerNets
          (if bool_decide (s = SideB) && negb (isIpv4Literal (dl_endpoint_host link))
           then Some (dl_endpoint_host link +:+ ":" +:+ showZ (dl_listen_port link)) else None)
          config (sha256hex <$> config)).
End payload.

(** * Heartbeat status *)

Record dstatus := DStatus {
  ds_up : bool; ds_path : string; ds_handshake_age : option Z; ds_rtt_tenths : option Z; ds_error : option string }.

(** [\p{Cc}] below 256 *)
Definition is_cc (c : ascii) : bool := (code c <=? 31) || ((127 <=? code c) && (code c <=? 159)).

(** [Math.round(x * 10)] of [m / 10^k]. *)
Definition round_tenths (m : Z) (k : nat) : Z := (2 * 10 * m + pow10 k) / (2 * pow10 k).

Definition clean_age (v : jsval) : option Z :=
  match num_int (to_number v) with
  | Some age => if (0 <=? age) && (age <? 10 ^ 9) then Some age else None
  | None => None
  end.

Definition clean_rtt (v : jsval) : option Z :=
  match v with
  | VNull => None
  | _ => match to_number v with
         | NFin m k => if (0 <=? m) && (m <? 100000 * pow10 k) then Some (round_tenths m k) else None
         | _ => None
         end
  end.

Definition status_of (v : jsval) : option string * dstatus :=
  (match vget v "public_key" with VStr k => if re_test WG_PUBKEY_RE k then Some k else None | _ => None end,
   DStatus (match vget v "up" with VBool b => b | _ => false end)
     (match vget v "path" with VStr p => if set_has DIRECT_PATHS p then p else "hub" | _ => "hub" end)
     (clean_age (vget v "handshake_age")) (clean_rtt (vget v "rtt_ms"))
     (let e := stake 255 (trim (smap (fun c => if is_cc c then " " else String c "") (str_or "" (vget v "error")))) in
      if decide (e = "") then None else Some e)).

(** [v && typeof v === "object"] *)
Definition is_object (v : jsval) : bool := match v with VObj _ | VArr _ => true | _ => false end.

Definition status_entry (allowedIds : list Z) (out : list (Z * (option string * dstatus))) (kv : string * jsval) :=
  match num_int (string_to_num kv.1) with
  | Some id => if bool_decide (id ∈ allowedIds) && is_object kv.2 then mset id (status_of kv.2) out else out
  | None => out
  end.

Definition sanitizeDirectStatus (raw : jsval) (allowedIds : list Z) : list (Z * (option string * dstatus)) :=
  match raw with
  | VObj l => fold_left (status_entry allowedIds) (obj_entries l) []
  | _ => []
  end.

(** * Connection checks *)

(** IPv4 of an endpoint "a.b.c.d:port"; anything else gives none. *)
Definition endpointIpv4 (endpoint : string) : option string :=
  match split_char ":" endpoint with
  | [ip; port] =>
      if re_test IPV4_RE ip && re_test (rplus rdigit) port && isIpv4Literal ip then Some ip else None
  | _ => None
  end.

Record side_status := SideStatus {
  ss_stale : bool; ss_public_key_known : bool; ss_up : bool; ss_handshake_age : option Z; ss_path : string }.

Record dview := DView {
  dv_enabled : bool; dv_blocked_reason : string; dv_endpoint_host : string; dv_status_a : side_status; dv_status_b : side_status }.

Inductive check_state := COk | CFail | CWarn | CSkip.

#[export] Instance check_state_eq_dec : EqDecision check_state.
Proof. solve_decision. Defined.

Definition fresh (s : side_status) : bool :=
  ss_up s && match ss_handshake_age s with Some a => a <=? DIRECT_FRESH_HANDSHAKE_S | None => false end.

Definition on_direct (s : side_status) : bool := bool_decide (ss_path s = "direct").

(** The checks with their codes; absent texts are "". [resolved] is [None] when the lookup failed. *)
Definition evaluateDirectChecks (link : dview) (publicIpA : string) (resolved : option (list string)) (publicHostA : string)
    : check_state * list (string * check_state) :=
  let sa := dv_status_a link in
  let sb := dv_status_b link in
  let host := dv_endpoint_host link in
  let literal := isIpv4Literal host in
  let blocked := bool_decide (dv_blocked_reason link <> "") in
  let off := negb (dv_enabled link) || blocked in
  let ips := if literal then [host] else default [] resolved in
  let checks :=
    (if dv_enabled link then [] else [("enabled", CWarn)]) ++
    (if blocked then [("blocked", CFail)] else []) ++
    [("agents-online", if negb (ss_stale sa) && negb (ss_stale sb) then COk else CFail);
     ("keys", if ss_public_key_known sa && ss_public_key_known sb then COk else CFail)] ++
    (if bool_decide (publicHostA <> "" /\ publicHostA <> host) then [("endpoint-differs", CWarn)] else []) ++
    [("dns", if literal then CSkip else match resolved with Some (_ :: _) => COk | _ => CFail end);
     ("public-ip", if bool_decide (publicIpA = "") then CSkip
                   else if bool_decide (publicIpA ∈ ips) then COk else CFail);
     ("port-forward", if off then CSkip else if fresh sa || fresh sb then COk else CFail);
     ("path", if off then CSkip
              else if on_direct sa && on_direct sb then COk
              else if on_direct sa || on_direct sb then CWarn else CFail)] in
  (if existsb (fun c => bool_decide (c.2 = CFail)) checks then CFail
   else if existsb (fun c => bool_decide (c.2 = CWarn)) checks then CWarn else COk, checks).

Record forward := Forward { fw_link_id : Z; fw_link_name : string; fw_port : Z; fw_enabled : bool }.
Record outgoing := Outgoing { og_link_id : Z; og_link_name : string; og_endpoint : string; og_enabled : bool }.

Definition siteRouterSettings (agentId : Z) (links : list dlink) : list forward * list outgoing :=
  ((fun l => Forward (dl_id l) (dl_name l) (dl_listen_port l) (dl_enabled l)) <$>
     bfilter (fun l => dl_agent_a_id l =? agentId) links,
   (fun l => Outgoing (dl_id l) (dl_name l) (dl_endpoint_host l +:+ ":" +:+ showZ (dl_listen_port l)) (dl_enabled l)) <$>
     bfilter (fun l => dl_agent_b_id l =? agentId) links).

(** * Transfer networks *)

Arguments tunnelAddresses : simpl never.

Lemma isIpv4Literal_ipToInt s : isIpv4Literal s = true <-> is_Some (Cidr.ipToInt s).
Proof.
  unfold isIpv4Literal, Cidr.ipToInt. destruct (re_test IPV4_RE s) eqn:Hre; [|split; [done|by intros [? ?]]].
  apply IPV4_split in Hre as (a & b & c & d & Hs & _). unfold octets. rewrite Hs. cbn.
  rewrite !Z.leb_antisym.
  destruct (255 <? num_of_digits a), (255 <? num_of_digits b), (255 <? num_of_digits c), (255 <? num_of_digits d);
    cbn; (split; intros H; [by eauto || done|by (destruct H as [? [=]]) || done]).
Qed.

(** The two readings of an address in the code base agree. *)
Lemma ipToInt_agrees s x : Cidr.ipToInt s = Some x -> ipToInt s = x.
Proof.
  unfold Cidr.ipToInt, ipToInt. destruct (re_test IPV4_RE s) eqn:Hre; [|done].
  apply IPV4_split in Hre as (a & b & c & d & Hs & Ha & Hb & Hc & Hd). unfold octets. rewrite Hs.
  cbn [fmap list_fmap existsb fold_left]. destruct (_ || _) eqn:Hr; [done|]. intros [= <-].
  rewrite !orb_false_iff, !Z.ltb_ge in Hr. apply num_of_digits_nonneg in Ha, Hb, Hc, Hd.
  destruct (octets_shift (num_of_digits a)) as (-> & _ & _); [lia|].
  destruct (octets_shift (num_of_digits b)) as (_ & -> & _); [lia|].
  destruct (octets_shift (num_of_digits c)) as (_ & _ & ->); [lia|].
  change (2 ^ 24) with 16777216. change (2 ^ 16) with 65536. change (2 ^ 8) with 256. lia.
Qed.

Lemma intToIp_agrees n : is_addr n -> intToIp n = Cidr.intToIp n.
Proof. intros Hn. rewrite intToIp_eq by done. unfold intToIp. cbn [fmap list_fmap]. by rewrite Z.div_1_r. Qed.

(** An accepted transfer network, as the network it denotes. *)
Lemma canonicalTunnelSubnet_net v t : canonicalTunnelSubnet v = Some t ->
  exists n, net_wf (Net n 30) /\ read_net t = Some (Net n 30) /\ read_net v = Some (Net n 30) /\
    ipToInt (cidr_addr t) = n /\ isPrivateIpv4Net t = true /\ split_char "/" t = [cidr_addr t; "30"].
Proof.
  unfold canonicalTunnelSubnet. destruct (split_char "/" (trim v)) as [|a [|p [|? ?]]] eqn:Hs; try done.
  destruct (bool_decide (p = "30") && _ && _) eqn:Hc; [|done].
  rewrite !andb_true_iff, bool_decide_eq_true in Hc. destruct Hc as [[-> Hre] [n Hn]%isIpv4Literal_ipToInt].
  pose proof (ipToInt_range _ _ Hn) as Hr. rewrite (ipToInt_agrees _ _ Hn). cbv zeta.
  destruct (Z.eqb_spec (n mod 4) 0) as [Hm|]; [|done]. cbn [negb].
  destruct (isPrivateIpv4Net (a +:+ "/30")) eqn:Hp; [|done]. intros [= <-].
  assert (split_char "/" (a +:+ "/30") = [a; "30"]) as Ht.
  { rewrite split_char_app by (by apply IPV4_no_slash). done. }
  assert (mask_addr n 30 = n) as Hmask by (by apply mask_addr_id).
  assert (cidr_addr (a +:+ "/30") = a) as Hca by (unfold cidr_addr; by rewrite Ht).
  exists n. rewrite Hca, (ipToInt_agrees _ _ Hn), Ht. split_and!; try done.
  - unfold read_net. rewrite trim_id.
    + rewrite Ht. cbn [mbind option_bind]. rewrite Hn. cbn [mbind option_bind].
      change (re_test D12 "30" && (num_of_digits "30" <=? 32)) with true. change (num_of_digits "30") with 30.
      by rewrite Hmask.
    + rewrite sall_app. rewrite (re_chars _ _ _ Hre); reflexivity.
  - unfold read_net. rewrite Hs. cbn [mbind option_bind]. rewrite Hn. cbn [mbind option_bind].
    change (re_test D12 "30" && (num_of_digits "30" <=? 32)) with true. change (num_of_digits "30") with 30.
    by rewrite Hmask.
Qed.

(** An accepted transfer network is a private /30 that denotes what the administrator
    typed, and the two tunnel addresses are its two hosts: different, inside it, and
    neither its network nor its broadcast address. *)
Theorem tunnelAddresses_hosts v t : canonicalTunnelSubnet v = Some t ->
  exists n, (forall x, in_cidr x t <-> n <= x < n + 4) /\ (forall x, in_cidr x t <-> in_cidr x v) /\
    isPrivateIpv4Net t = true /\
    Cidr.ipToInt (ta_a (tunnelAddresses t)) = Some (n + 1) /\
    Cidr.ipToInt (ta_b (tunnelAddresses t)) = Some (n + 2).
Proof.
  intros (n & Hn & Ht & Hv & Ha & Hp & _)%canonicalTunnelSubnet_net. exists n.
  pose proof (in_net_bounds n (Net n 30) Hn) as _.
  assert (forall x, in_cidr x t <-> n <= x < n + 4) as Hrange.
  { intros x. unfold in_cidr. rewrite Ht.
    transitivity (in_net x (Net n 30)); [naive_solver|]. rewrite in_net_bounds by done. done. }
  assert (is_addr (n + 3)) as Hlast.
  { apply (in_cidr_addr _ t), Hrange. lia. }
  assert (0 <= n) by apply Hn. unfold is_addr in Hlast. split_and!; [done| |done| |].
  - intros x. unfold in_cidr. by rewrite Ht, Hv.
  - unfold tunnelAddresses. cbn [ta_a]. rewrite Ha, intToIp_agrees by (unfold is_addr; lia).
    apply ipToInt_intToIp. unfold is_addr. lia.
  - unfold tunnelAddresses. cbn [ta_b]. rewrite Ha, intToIp_agrees by (unfold is_addr; lia).
    apply ipToInt_intToIp. unfold is_addr. lia.
Qed.

Lemma tunnelAddresses_hosts_witness :
  exists n, (forall x, in_cidr x "10.10.9.0/30" <-> n <= x < n + 4) /\
    Cidr.ipToInt (ta_a (tunnelAddresses "10.10.9.0/30")) = Some (n + 1).
Proof.
  destruct (tunnelAddresses_hosts " 10.10.9.0/30" "10.10.9.0/30") as (n & H & _ & _ & Ha & _);
    [vm_compute; reflexivity|]. by exists n.
Defined.

(** The accepted text is not always the canonical one: leading zeros survive, although the
    function promises the canonical /30. *)
Theorem canonicalTunnelSubnet_keeps_leading_zeros :
  canonicalTunnelSubnet "010.010.009.000/30" = Some "010.010.009.000/30" /\
  canonicalCidr "010.010.009.000/30" = Some "10.10.9.0/30".
Proof. split; vm_compute; reflexivity. Qed.

(** * Routes of the direct path *)

(** The direct path takes over a part of the hub path and nothing of the own site: its
    networks are reachable over the hub, exported by the partner, share no address with
    an own network, and come sorted and once each. *)
Theorem directPeerNets_spec other partner own n :
  let nets := directPeerNets other partner own in
  NoDup nets /\ StronglySorted String.le nets /\
  (n ∈ nets -> n ∈ other /\ n ∈ partner /\
     forall o x, o ∈ own -> in_cidr x o -> in_cidr x n -> False) /\
  (n ∈ other -> n ∈ partner -> (forall o x, o ∈ own -> in_cidr x o -> ~ in_cidr x n) -> n ∈ nets).
Proof.
  cbv zeta. unfold directPeerNets. rewrite elem_of_sort_strings, elem_of_uniq, elem_of_bfilter.
  rewrite andb_true_iff, bool_decide_eq_true, negb_true_iff, existsb_false.
  split_and!.
  - rewrite sort_strings_perm. apply NoDup_uniq.
  - apply StronglySorted_merge_sort; apply _.
  - intros (Ho & Hp & Hc). split_and!; [done..|]. intros o x Hin Hxo Hxn.
    specialize (Hc o Hin). change (cidrOverlaps n o = false) in Hc. apply not_true_iff_false in Hc.
    apply Hc, cidrOverlaps_in_cidr. eauto.
  - intros Ho Hp Hc. split_and!; [done..|]. intros o Hin. apply not_true_iff_false.
    change (cidrOverlaps n o <> true). rewrite cidrOverlaps_in_cidr. intros (x & Hxn & Hxo). by apply (Hc o x).
Qed.

(** * The link and the mesh *)

Lemma link_clash_loop link others u : foldM (fun (_ : unit) o => match link_clash link o with Some e => Throw e | None => Ok tt end) tt others = Ok u ->
  forall o, o ∈ others -> link_clash link o = None.
Proof.
  revert u. induction others as [|o others IH]; intros u; cbn [foldM]; [set_solver|].
  intros ([] & H & Hl)%bind_Ok o' [-> |Ho]%elem_of_cons; [by destruct (link_clash link o)|by eapply IH].
Qed.

Lemma link_clash_None link o : link_clash link o = None -> dl_id o <> dl_id link ->
  cidrOverlaps (dl_tunnel_subnet o) (dl_tunnel_subnet link) = false /\
  ~ (dl_agent_a_id o = dl_agent_a_id link /\ dl_agent_b_id o = dl_agent_b_id link) /\
  ~ (dl_agent_a_id o = dl_agent_b_id link /\ dl_agent_b_id o = dl_agent_a_id link) /\
  ~ (dl_agent_a_id o = dl_agent_a_id link /\ dl_listen_port o = dl_listen_port link).
Proof.
  unfold link_clash, cidrOverlaps. destruct (Z.eqb_spec (dl_id o) (dl_id link)); [done|].
  destruct (_ || _); [done|].
  destruct (Z.eqb_spec (dl_agent_a_id o) (dl_agent_a_id link)), (Z.eqb_spec (dl_agent_b_id o) (dl_agent_b_id link)),
    (Z.eqb_spec (dl_agent_a_id o) (dl_agent_b_id link)), (Z.eqb_spec (dl_agent_b_id o) (dl_agent_a_id link)),
    (Z.eqb_spec (dl_listen_port o) (dl_listen_port link)); cbn; try done; intros _ _; split_and!; try done;
    intros [? ?]; congruence.
Qed.

Lemma directNetConflict_None link nets : directNetConflict link nets = None ->
  forall n x, n ∈ nets -> in_cidr x n ->
    ~ in_cidr x (dl_tunnel_subnet link) /\
    (isIpv4Literal (dl_endpoint_host link) = true -> Cidr.ipToInt (dl_endpoint_host link) <> Some x).
Proof.
  unfold directNetConflict. destruct (bfind _ nets) eqn:Hf; [done|]. intros H n x Hn Hx. split.
  - intros Ht. apply (bfind_None _ _ Hf) in Hn. apply not_true_iff_false in Hn. apply Hn.
    apply (cidrOverlaps_in_cidr n (dl_tunnel_subnet link)). eauto.
  - intros Hlit Haddr. rewrite Hlit in H.
    destruct (bfind (fun n => cidrContains n (cidr32 (dl_endpoint_host link))) nets) eqn:Hf2; [done|].
    apply (bfind_None _ _ Hf2) in Hn. apply not_true_iff_false in Hn. apply Hn.
    destruct Hx as (m & Hm & Hxm). pose proof (ipToInt_range _ _ Haddr) as Hr.
    apply (cidrContains_nets n _ m (Net x 32)); [done|by apply read_cidr32|].
    intros y (Hy & Heq). cbn in Heq. change (2 ^ 0) with 1 in Heq. rewrite !Z.div_1_r in Heq. by subst.
Qed.

(** An enabled link that passes the checks is safe to bring up: different sites, not
    separated on the hub, its transfer net shares no address with any site or tunnel
    network or other link, the tunnel's own packets are not routed into it, and no
    restricted side meets a masquerading partner. *)
Theorem assertDirectLinkFits_safe link ctx u :
  assertDirectLinkFits link ctx = Ok u -> dl_enabled link = true ->
  let la := mc_siteLinkIdOf ctx (dl_agent_a_id link) in
  let lb := mc_siteLinkIdOf ctx (dl_agent_b_id link) in
  la <> lb /\ mc_isolated ctx la lb = false /\
  (forall n x, n ∈ mc_siteNets ctx ++ mc_agentTunnelSubnets ctx -> in_cidr x n ->
     ~ in_cidr x (dl_tunnel_subnet link) /\
     (isIpv4Literal (dl_endpoint_host link) = true -> Cidr.ipToInt (dl_endpoint_host link) <> Some x)) /\
  (forall o x, o ∈ mc_others ctx -> dl_id o <> dl_id link ->
     in_cidr x (dl_tunnel_subnet o) -> ~ in_cidr x (dl_tunnel_subnet link)) /\
  exists mode_a mode_b, mget (dl_agent_a_id link) (mc_agents ctx) = Some mode_a /\
    mget (dl_agent_b_id link) (mc_agents ctx) = Some mode_b /\
    (mode_a = "restricted" -> dl_nat_b link = false) /\ (mode_b = "restricted" -> dl_nat_a link = false).
Proof.
  unfold assertDirectLinkFits. intros ([] & Hothers & H)%bind_Ok Hen. rewrite Hen in H. cbn [negb] in H.
  destruct (mget (dl_agent_a_id link) _) as [ma|] eqn:Ha; [|done].
  destruct (mget (dl_agent_b_id link) _) as [mb|] eqn:Hb; [|done].
  apply bind_Ok in H as ([] & _ & H). apply bind_Ok in H as ([] & Hne%throw_if_Ok & H).
  apply bind_Ok in H as ([] & Hiso%throw_if_Ok & H). apply bind_Ok in H as ([] & Hnat%throw_if_Ok & H).
  destruct (directNetConflict _ _) eqn:Hconf; [done|]. cbv zeta.
  split_and!; [by apply bool_decide_eq_false in Hne|done|by apply directNetConflict_None| |].
  - intros o x Ho Hid Hxo Hxl. pose proof (link_clash_loop _ _ _ Hothers o Ho) as Hcl.
    destruct (link_clash_None _ _ Hcl Hid) as (Hov & _). apply not_true_iff_false in Hov. apply Hov.
    apply cidrOverlaps_in_cidr. eauto.
  - exists ma, mb. split_and!; [done..| |].
    + intros ->. unfold natRestrictedConflict in Hnat. by destruct (dl_nat_b link).
    + intros ->. unfold natRestrictedConflict in Hnat. destruct (dl_nat_a link); [|done].
      by rewrite orb_true_r in Hnat.
Qed.

Definition fits_ctx : mesh_ctx :=
  MeshCtx [(1, "open"); (2, "restricted")] (fun a => if a =? 1 then "wg0:aa" else "wg0:bb") (fun _ _ => false)
    ["192.168.1.0/24"; "192.168.2.0/24"] ["10.8.0.0/24"]
    [DLink 7 "other" 3 1 51900 "vpn.example.org" "10.10.9.4/30" None true false false].

Definition fits_link : dlink := DLink 5 "a-b" 1 2 51901 "203.0.113.9" "10.10.9.0/30" (Some 1420) true false true.

Lemma assertDirectLinkFits_safe_witness :
  exists mode_a mode_b, mget 1 (mc_agents fits_ctx) = Some mode_a /\ mget 2 (mc_agents fits_ctx) = Some mode_b /\
    (mode_b = "restricted" -> false = false).
Proof.
  destruct (assertDirectLinkFits_safe fits_link fits_ctx tt) as (_ & _ & _ & _ & a & b & Ha & Hb & _ & H);
    [vm_compute; reflexivity|reflexivity|].
  exists a, b. split; [exact Ha|]. split; [exact Hb|]. exact H.
Defined.

(** * The relay guard *)

(** What the guard chain does with a packet coming out of the tunnel: the first rule that
    matches the destination decides; [true] is DROP, [false] is RETURN. *)
Definition guard_rule_hits (r : guard_rule) (dst : Z) : bool :=
  match r with GReturn n => in_cidrb dst n | GDrop => true end.

Fixpoint guard_drops (rs : list guard_rule) (dst : Z) : bool :=
  match rs with
  | [] => false
  | r :: rs => if guard_rule_hits r dst then match r with GReturn _ => false | GDrop => true end else guard_drops rs dst
  end.

Lemma guard_drops_spec own dst :
  guard_drops (guard_rules own) dst = negb (existsb (in_cidrb dst) own).
Proof.
  unfold guard_rules. induction own as [|n own IH]; [done|]. cbn. destruct (in_cidrb dst n); [done|]. exact IH.
Qed.

(** * The text of the hooks and of the configuration *)

Lemma assertCidr_plain n u : assertCidr n = Ok u -> sall plain n = true.
Proof.
  unfold assertCidr. intros H%throw_if_Ok. apply negb_false_iff in H. apply (re_chars _ _ _ H). vm_compute. reflexivity.
Qed.

Lemma assertCidrs_plain l us : mapM assertCidr l = Ok us -> Forall (fun n => sall plain n = true) l.
Proof.
  intros H%mapM_Ok. induction H; constructor; [by eapply assertCidr_plain|done].
Qed.

Lemma iface_plain i : isDirectIface i = true -> sall plain i = true.
Proof. intros H. apply (re_chars _ _ _ H). vm_compute. reflexivity. Qed.

Lemma guard_chain_plain i : isDirectIface i = true -> sall plain (directGuardChain i) = true.
Proof.
  intros H%iface_plain. unfold directGuardChain. rewrite plain_app.
  destruct (starts_with "fgd" i); [|by rewrite H]. by rewrite sall_sdrop.
Qed.

Lemma hook_rules_plain iface t nat r : sall plain iface = true -> sall plain t = true -> r ∈ hook_rules iface t nat ->
  sall plain r.1 = true /\ sall plain r.2 = true.
Proof.
  intros Hi Ht. unfold hook_rules. rewrite elem_of_app, !elem_of_cons.
  destruct nat; rewrite ?list_elem_of_singleton, ?elem_of_nil; intuition subst; cbn; try done; plain.
Qed.

Lemma up_commands_plain iface hub t nat own : isDirectIface iface = true -> sall plain hub = true ->
  sall plain t = true -> Forall (fun n => sall plain n = true) own ->
  Forall (fun c => sall plain c = true) (up_commands iface hub t nat own).
Proof.
  intros Hif Hh Ht Hown. pose proof (iface_plain _ Hif). pose proof (guard_chain_plain _ Hif).
  unfold up_commands, guard_up, guard_rules. rewrite fmap_app.
  rewrite !Forall_app, !Forall_fmap, !Forall_cons, !Forall_nil. unfold compose. cbn [render_guard].
  split_and!; try done; try plain.
  - eapply Forall_impl; [exact Hown|]. intros n Hn. cbn beta in Hn. cbn. plain.
  - apply Forall_forall. intros rt Hrt. destruct (hook_rules_plain iface t nat rt) as [? ?]; [done..|]. cbn. plain.
Qed.

Lemma down_commands_plain iface t nat : isDirectIface iface = true -> sall plain t = true ->
  Forall (fun c => sall plain c = true) (down_commands iface t nat).
Proof.
  intros Hif Ht. pose proof (iface_plain _ Hif). pose proof (guard_chain_plain _ Hif).
  unfold down_commands, guard_down. rewrite Forall_app, Forall_fmap, !Forall_cons, !Forall_nil.
  split_and!; try done; try plain. apply Forall_forall. intros rt Hrt.
  destruct (hook_rules_plain iface t nat rt) as [? ?]; [done..|]. cbn. plain.
Qed.

Lemma buildDirectHooks_Ok iface hub t nat own h : buildDirectHooks iface hub t nat own = Ok h ->
  isDirectIface iface = true /\ sall plain hub = true /\ sall plain t = true /\
  Forall (fun n => sall plain n = true) own /\
  h = Hooks (join "; " (up_commands iface hub t nat own)) (join "; " (down_commands iface t nat)).
Proof.
  unfold buildDirectHooks. intros ([] & Hi%throw_if_Ok & H)%bind_Ok.
  apply bind_Ok in H as ([] & Hh%throw_if_Ok & H). apply bind_Ok in H as ([] & Ht & H).
  apply bind_Ok in H as (us & Hown & H). injection H as <-. apply negb_false_iff in Hi, Hh.
  split_and!; [done| |by eapply assertCidr_plain|by eapply assertCidrs_plain|done].
  apply (re_chars _ _ _ Hh). vm_compute. reflexivity.
Qed.

(** The shell runs the hooks as the commands they were built from (no interface name or
    network can add one), the relay guard among them, and that chain lets exactly the
    packets to own networks of this side through: the tunnel cannot be used to relay. *)
Theorem direct_hooks_commands iface hub t nat own h : buildDirectHooks iface hub t nat own = Ok h ->
  split_char ";" (postUp h) = shell_parts (up_commands iface hub t nat own) /\
  split_char ";" (postDown h) = shell_parts (down_commands iface t nat) /\
  (forall r, r ∈ guard_rules own ->
     (" " +:+ render_guard (directGuardChain iface) r) ∈ split_char ";" (postUp h)) /\
  forall dst, guard_drops (guard_rules own) dst = false <-> exists n, n ∈ own /\ in_cidr dst n.
Proof.
  intros (Hi & Hh & Ht & Hown & ->)%buildDirectHooks_Ok. cbn [postUp postDown].
  assert (split_char ";" (join "; " (up_commands iface hub t nat own)) = shell_parts (up_commands iface hub t nat own)) as ->
    by (apply split_shell; by apply up_commands_plain).
  split_and!; [done|apply split_shell; by apply down_commands_plain| |].
  - intros r Hr. unfold up_commands, guard_up. cbn [app shell_parts].
    right. apply list_elem_of_fmap. eexists; split; [done|]. do 3 right. rewrite !elem_of_app. left. left.
    apply list_elem_of_fmap. eauto.
  - intros dst. rewrite guard_drops_spec, negb_false_iff, existsb_exists.
    setoid_rewrite <-list_elem_of_In. by setoid_rewrite in_cidrb_spec.
Qed.

Lemma direct_hooks_commands_witness :
  guard_drops (guard_rules ["192.168.1.0/24"]) 3232235777 = false <->
  exists n, n ∈ ["192.168.1.0/24"] /\ in_cidr 3232235777 n.
Proof.
  destruct (direct_hooks_commands "fgd5" "wg0" "10.10.9.0/30" true ["192.168.1.0/24"]
    (Hooks (join "; " (up_commands "fgd5" "wg0" "10.10.9.0/30" true ["192.168.1.0/24"]))
           (join "; " (down_commands "fgd5" "10.10.9.0/30" true)))) as (_ & _ & _ & H);
    [vm_compute; reflexivity|]. exact (H 3232235777).
Defined.

Lemma host_plain h : host_ok h = true -> sall plain h = true.
Proof.
  unfold host_ok, is_hostname, isIpv4Literal. rewrite andb_true_iff. intros [_ H]. destruct (looks_numeric h);
    rewrite !andb_true_iff in H.
  - destruct H as [H _]. apply (re_chars _ _ _ H). vm_compute. reflexivity.
  - destruct H as [[H _] _]. apply (re_chars _ _ _ H). vm_compute. reflexivity.
Qed.

Lemma addrs_plain s t : sall plain (own_addr s (tunnelAddresses t)) = true.
Proof.
  unfold tunnelAddresses, intToIp. destruct s; cbn [own_addr ta_a ta_b];
    (apply plain_join; [reflexivity|]; apply Forall_fmap, Forall_forall; intros; apply plain_showZ_any).
Qed.

Lemma config_lines_no_nl link s h key nets mtu :
  host_ok (dl_endpoint_host link) = true -> no_char nl (postUp h) -> no_char nl (postDown h) ->
  sall plain key = true -> sall plain (dl_tunnel_subnet link) = true -> Forall (fun n => sall plain n = true) nets ->
  Forall (no_char nl) (config_lines link s h key nets mtu).
Proof.
  intros Hh%host_plain Hu Hd Hk Ht Hn. unfold config_lines.
  pose proof (addrs_plain s (dl_tunnel_subnet link)) as Ha. pose proof (plain_showZ_any (dl_listen_port link)) as Hp.
  pose proof (plain_join ", " (dl_tunnel_subnet link :: nets) eq_refl (Forall_cons_2 _ _ _ Ht Hn)) as Hj.
  cbv zeta. rewrite !Forall_app, !Forall_cons, !Forall_nil. split_and!; try done.
  all: try (apply plain_no_nl; plain).
  - destruct (decide _); [|done]. constructor; [|done]. apply plain_no_nl. plain.
  - destruct mtu as [m|]; [|done]. destruct (m =? 0); [done|]. constructor; [|done].
    apply plain_no_nl. pose proof (plain_showZ_any m). plain.
  - destruct (decide _); [|done]. constructor; [|done]. apply plain_no_nl. plain.
Qed.

Lemma hooks_no_nl iface hub t nat own h : buildDirectHooks iface hub t nat own = Ok h ->
  no_char nl (postUp h) /\ no_char nl (postDown h).
Proof.
  intros (Hi & Hh & Ht & Hown & ->)%buildDirectHooks_Ok. cbn [postUp postDown].
  split; (apply no_char_join; [done|]; eapply Forall_impl; [|apply plain_no_nl]).
  - by apply up_commands_plain.
  - by apply down_commands_plain.
Qed.

(** wg-quick reads the configuration as exactly the lines the model lists: no endpoint
    host, key or network can add a setting or a hook. The two sides route the transfer net
    and the partner's networks, only side A listens, only side B dials. *)
Theorem direct_config_is_its_lines link s hub key nets mtu own text :
  host_ok (dl_endpoint_host link) = true ->
  buildDirectConfig link s hub key nets mtu own = Ok (Some text) ->
  exists k h, key = VStr k /\ isWgPublicKey key = true /\
    buildDirectHooks (directIface (dl_id link)) hub (dl_tunnel_subnet link)
      (match s with SideA => dl_nat_a link | SideB => dl_nat_b link end) own = Ok h /\
    split_char nl text = config_lines link s h k nets mtu ++ [""].
Proof.
  intros Hhost. unfold buildDirectConfig. destruct key as [| | | |k| |]; try done.
  destruct (re_test WG_PUBKEY_RE k) eqn:Hk; [|done]. intros (h & Hh & H)%bind_Ok.
  apply bind_Ok in H as (us & Hnets & H).
  assert (text = join (String nl "") (config_lines link s h k nets mtu) +:+ String nl "") as -> by congruence. exists k, h. split_and!; [done|done|done|].
  apply split_join_nl; [done|]. destruct (hooks_no_nl _ _ _ _ _ _ Hh) as [Hu Hd].
  apply buildDirectHooks_Ok in Hh as (_ & _ & Ht & _).
  apply config_lines_no_nl; try done; [|by eapply assertCidrs_plain].
  apply (re_chars _ _ _ Hk). vm_compute. reflexivity.
Qed.

Definition wg_key : string := "AAAAAAAAAAAAAAAAAAAAAAAAAAAAAAAAAAAAAAAAAAA=".

Lemma direct_config_is_its_lines_witness :
  exists text k h, split_char nl text = config_lines fits_link SideB h k ["192.168.1.0/24"] (Some 1420) ++ [""].
Proof.
  destruct (buildDirectConfig fits_link SideB "wg0" (VStr wg_key) ["192.168.1.0/24"] (Some 1420) ["192.168.2.0/24"])
    as [[text|]|] eqn:H; [|exfalso; vm_compute in H; discriminate H..].
  exists text.
  destruct (direct_config_is_its_lines fits_link SideB "wg0" (VStr wg_key) ["192.168.1.0/24"] (Some 1420) ["192.168.2.0/24"] text)
    as (k & h & _ & _ & _ & Hs); [vm_compute; reflexivity|exact H|]. by exists k, h.
Defined.

(** * Input, heartbeat and checks *)

Lemma need_Ok {A} b k (m : result dl_error A) o : need false b k m = Ok o -> exists x, o = Some x /\ m = Ok x.
Proof. unfold need. destruct (is_undef _); [done|]. destruct m as [x|]; [|done]. intros [= <-]. eauto. Qed.

Lemma clean_int_Ok v lo hi e n : clean_int v lo hi e = Ok n -> lo <= n /\ forall h, hi = Some h -> n <= h.
Proof.
  unfold clean_int. destruct (num_int _) as [z|]; [|done]. intros ([] & H%throw_if_Ok & [= <-])%bind_Ok.
  apply orb_false_iff in H as [H1%Z.ltb_ge H2]. split; [done|]. intros h ->. by apply Z.ltb_ge in H2.
Qed.

Lemma clean_name_Ok v n : clean_name v = Ok n ->
  n <> "" /\ (String.length n <= 64)%nat /\ sall (fun c => negb (is_control c)) n = true.
Proof.
  unfold clean_name. intros ([] & H%throw_if_Ok & [= <-])%bind_Ok.
  rewrite !orb_false_iff, bool_decide_eq_false, Nat.ltb_ge, negb_false_iff in H. tauto.
Qed.

Lemma clean_mtu_Ok v m : clean_mtu v = Ok m -> forall x, m = Some x -> 1280 <= x <= 1500.
Proof.
  intros H x ->. assert (clean_int v 1280 (Some 1500) BadMtu = Ok x) as Hx.
  { destruct v as [| | | |[|c s]| |]; cbn [clean_mtu] in H; try done;
      destruct (clean_int _ _ _ _); cbn in H; congruence. }
  apply clean_int_Ok in Hx as [? Hx]. split; [done|by apply Hx].
Qed.

(** A create payload the sanitizer accepts is a complete, well-formed link: a printable
    name, two different agents, a port and an MTU in range, an endpoint the configuration
    can carry, a private /30 as transfer net. *)
Theorem sanitizeDirectLinkInput_wf b p : sanitizeDirectLinkInput b false = Ok p ->
  exists name a c port host t,
    p = DLinkPatch (Some name) (Some a) (Some c) (Some port) (Some host) (Some t) (dp_mtu p)
          (Some (bool_of (vget b "enabled"))) (Some (bool_of (vget b "nat_a"))) (Some (bool_of (vget b "nat_b"))) /\
    name <> "" /\ (String.length name <= 64)%nat /\ sall (fun c => negb (is_control c)) name = true /\
    1 <= a /\ 1 <= c /\ a <> c /\ 1024 <= port <= 65535 /\ host_ok host = true /\
    (exists v, canonicalTunnelSubnet v = Some t) /\
    forall m x, dp_mtu p = Some m -> m = Some x -> 1280 <= x <= 1500.
Proof.
  unfold sanitizeDirectLinkInput. intros (on & (name & -> & Hname%clean_name_Ok)%need_Ok & H)%bind_Ok.
  apply bind_Ok in H as (oa & (a & -> & Ha%clean_int_Ok)%need_Ok & H).
  apply bind_Ok in H as (oc & (c & -> & Hc%clean_int_Ok)%need_Ok & H).
  apply bind_Ok in H as ([] & Hne%throw_if_Ok & H).
  apply bind_Ok in H as (op & (port & -> & Hp%clean_int_Ok)%need_Ok & H).
  apply bind_Ok in H as (oh & (host & -> & Hh)%need_Ok & H).
  apply bind_Ok in H as (ot & (t & -> & Ht)%need_Ok & H).
  apply bind_Ok in H as (m & Hm & H). injection H as <-. cbn [dp_mtu].
  exists name, a, c, port, host, t. apply bool_decide_eq_false in Hne.
  unfold clean_host in Hh. apply bind_Ok in Hh as ([] & Hh%throw_if_Ok & [= <-]). apply negb_false_iff in Hh.
  unfold clean_subnet in Ht. destruct (canonicalTunnelSubnet _) as [t'|] eqn:Hct; [|done]. injection Ht as ->.
  destruct Hname as (? & ? & ?), Ha as [? _], Hc as [? _], Hp as [? Hp]. split_and!; try done.
  - unfold clean_flag. by destruct (vget b "enabled"), (vget b "nat_a"), (vget b "nat_b").
  - intros ->. by apply Hne.
  - by apply Hp.
  - by eexists.
  - intros mo x -> Hx. destruct (is_undef _); [done|].
    destruct (clean_mtu _) eqn:Hcm; [|done]. cbn in Hm. injection Hm as ->. by eapply clean_mtu_Ok.
Qed.

Lemma sanitizeDirectLinkInput_wf_witness : exists p name, dp_name p = Some name /\ name <> "".
Proof.
  destruct (sanitizeDirectLinkInput_wf (VObj [("name", VStr " a-b "); ("agent_a_id", VInt 1); ("agent_b_id", VStr "2");
     ("listen_port", VInt 51901); ("endpoint_host", VStr "VPN.example.org"); ("tunnel_subnet", VStr "10.10.9.0/30")])
     (DLinkPatch (Some "a-b") (Some 1) (Some 2) (Some 51901) (Some "vpn.example.org") (Some "10.10.9.0/30") None
        (Some false) (Some false) (Some false)))
    as (name & a & c & port & host & t & Hp & Hn & _); [vm_compute; reflexivity|].
  eexists _, name. split; [exact (f_equal dp_name Hp)|exact Hn].
Defined.

Record status_ok (e : option string * dstatus) : Prop := StatusOk {
  so_key : forall k, e.1 = Some k -> isWgPublicKey (VStr k) = true;
  so_path : ds_path e.2 ∈ DIRECT_PATHS;
  so_age : forall a, ds_handshake_age e.2 = Some a -> 0 <= a < 10 ^ 9;
  so_rtt : forall t, ds_rtt_tenths e.2 = Some t -> 0 <= t <= 1000000;
  so_error : forall s, ds_error e.2 = Some s -> s <> "" /\ (String.length s <= 255)%nat /\ sall (fun c => negb (is_cc c)) s = true }.

Lemma clean_rtt_bounds v t : clean_rtt v = Some t -> 0 <= t <= 1000000.
Proof.
  intros H. assert (exists m k, 0 <= m < 100000 * pow10 k /\ t = round_tenths m k) as (m & k & Hm & ->).
  { unfold clean_rtt in H.
    assert (match to_number v with NFin m k => if (0 <=? m) && (m <? 100000 * pow10 k) then Some (round_tenths m k) else None
            | _ => None end = Some t) as Hn by (by destruct v).
    destruct (to_number v) as [| |m k]; [done..|].
    destruct (Z.leb_spec 0 m), (Z.ltb_spec m (100000 * pow10 k)); try done. exists m, k. split; [lia|]. by injection Hn. }
  assert (0 < pow10 k) as Hk by (unfold pow10; apply Z.pow_pos_nonneg; lia).
  unfold round_tenths. split; [apply Z.div_pos; lia|].
  apply Z.lt_succ_r, Z.div_lt_upper_bound; lia.
Qed.

Lemma status_of_ok v : status_ok (status_of v).
Proof.
  constructor; unfold status_of; cbn [fst snd ds_path ds_handshake_age ds_rtt_tenths ds_error].
  - intros k. destruct (vget v "public_key") as [| | | |s| |]; try done.
    destruct (re_test WG_PUBKEY_RE s) eqn:Hs; [|done]. by intros [= <-].
  - assert ("hub" ∈ DIRECT_PATHS) by (right; left). destruct (vget v "path") as [| | | |s| |]; try done.
    destruct (set_has DIRECT_PATHS s) eqn:Hs; [|done]. by apply bool_decide_eq_true in Hs.
  - intros a. unfold clean_age. destruct (num_int _) as [z|]; [|done].
    destruct (Z.leb_spec 0 z), (Z.ltb_spec z (10 ^ 9)); try done. intros [= <-]. lia.
  - apply clean_rtt_bounds.
  - intros s. destruct (decide _) as [|Hne]; [done|]. intros H. apply (inj Some) in H as <-. split_and!; [done|apply length_stake|].
    apply sall_stake, sall_trim, sall_smap. apply forall_char. vm_compute. reflexivity.
Qed.

Lemma status_entry_inv allowed out kv :
  NoDup out.*1 /\ Forall (fun e => e.1 ∈ allowed /\ status_ok e.2) out ->
  NoDup (status_entry allowed out kv).*1 /\ Forall (fun e => e.1 ∈ allowed /\ status_ok e.2) (status_entry allowed out kv).
Proof.
  intros [Hn Ho]. unfold status_entry. destruct (num_int _) as [id|]; [|done].
  destruct (bool_decide _) eqn:Hid; [|done]. destruct (is_object kv.2); [|done]. cbn [andb].
  apply bool_decide_eq_true in Hid. split; [by apply NoDup_mset|].
  apply Forall_mset; [split; [done|apply status_of_ok]|done].
Qed.

(** Whatever an agent puts into its heartbeat, the hub stores a status only for links the
    agent is a side of, once each, with a valid key or none, a known path, numbers in range
    and a bounded error text free of control characters. *)
Theorem sanitizeDirectStatus_bounds raw allowedIds :
  let out := sanitizeDirectStatus raw allowedIds in
  NoDup out.*1 /\ forall id e, (id, e) ∈ out -> id ∈ allowedIds /\ status_ok e.
Proof.
  cbv zeta. assert (forall l out, NoDup out.*1 /\ Forall (fun e => e.1 ∈ allowedIds /\ status_ok e.2) out ->
    NoDup (fold_left (status_entry allowedIds) l out).*1 /\
    Forall (fun e => e.1 ∈ allowedIds /\ status_ok e.2) (fold_left (status_entry allowedIds) l out)) as Hfold.
  { intros l. induction l as [|kv l IH]; intros out Ho; [done|]. apply IH. by apply status_entry_inv. }
  unfold sanitizeDirectStatus. destruct raw; try (split; [constructor|set_solver]).
  destruct (Hfold (obj_entries l) []) as [H1 H2]; [split; constructor|]. split; [done|].
  intros id e Hin. rewrite Forall_forall in H2. by apply H2 in Hin.
Qed.

(** A tunnel that never had a handshake ([handshake_age: null]) is stored with age zero
    and so counts as a fresh handshake in the connection checks. *)
Theorem null_handshake_counts_as_fresh :
  sanitizeDirectStatus (VObj [("5", VObj [("up", VBool true); ("handshake_age", VNull)])]) [5] =
    [(5, (None, DStatus true "hub" (Some 0) None None))] /\
  fresh (SideStatus false true true (Some 0) "hub") = true.
Proof. split; vm_compute; reflexivity. Qed.

Definition passes (c : check_state) : Prop := c = COk \/ c = CSkip.

Lemma worst_ok (cs : list (string * check_state)) :
  (if existsb (fun c => bool_decide (c.2 = CFail)) cs then CFail
   else if existsb (fun c => bool_decide (c.2 = CWarn)) cs then CWarn else COk) = COk <->
  Forall (fun c => passes c.2) cs.
Proof.
  rewrite Forall_forall. unfold passes. split.
  - destruct (existsb _ _) eqn:Hf; [done|]. destruct (existsb (fun c => bool_decide (c.2 = CWarn)) _) eqn:Hw; [done|].
    rewrite !existsb_false in *. intros _ [n c] Hc. specialize (Hf _ Hc). specialize (Hw _ Hc).
    rewrite bool_decide_eq_false in Hf, Hw. destruct c; cbn in *; auto; done.
  - intros H. rewrite (proj2 (existsb_false _ _)); [rewrite (proj2 (existsb_false _ _)); [done|]|];
      intros [n c] Hc; apply H in Hc; cbn in *; apply bool_decide_eq_false; intros ->; by destruct Hc.
Qed.

Lemma passes_if (b : bool) x : passes (if b then COk else x) <-> b = true \/ passes x.
Proof. destruct b; unfold passes; intuition congruence. Qed.

Lemma passes_skip_if (b : bool) x : passes (if b then CSkip else x) <-> b = true \/ passes x.
Proof. destruct b; unfold passes; intuition congruence. Qed.

Lemma passes_off (b : bool) : passes (if b then CWarn else CFail) <-> False.
Proof. destruct b; unfold passes; intuition congruence. Qed.

Lemma passes_fail : passes CFail <-> False.
Proof. unfold passes. intuition congruence. Qed.

Lemma Forall_if_nil {A} (P : A -> Prop) (b : bool) x : Forall P (if b then [] else [x]) <-> b = true \/ P x.
Proof. destruct b; [rewrite Forall_nil|rewrite Forall_singleton]; intuition congruence. Qed.

Lemma Forall_if_one {A} (P : A -> Prop) (b : bool) x : Forall P (if b then [x] else []) <-> b = false \/ P x.
Proof. destruct b; [rewrite Forall_singleton|rewrite Forall_nil]; intuition congruence. Qed.

Lemma passes_resolved r : passes (match r with Some (_ :: _) => COk | _ => CFail end) <-> default [] r <> ([] : list string).
Proof. destruct r as [[|? ?]|]; cbn; unfold passes; intuition congruence. Qed.

Lemma passes_warn : passes CWarn <-> False.
Proof. unfold passes. intuition congruence. Qed.

(** The connection check is green exactly when nothing is wrong: the link is on and not
    blocked, both agents report, both keys are known, the stored public address is the
    endpoint, the endpoint resolves to the address the hub sees, a side had a handshake
    lately, and both sides use the direct path. *)
Theorem evaluateDirectChecks_ok link publicIpA resolved publicHostA :
  let ips := if isIpv4Literal (dv_endpoint_host link) then [dv_endpoint_host link] else default [] resolved in
  (evaluateDirectChecks link publicIpA resolved publicHostA).1 = COk <->
  dv_enabled link = true /\ dv_blocked_reason link = "" /\
  ss_stale (dv_status_a link) = false /\ ss_stale (dv_status_b link) = false /\
  ss_public_key_known (dv_status_a link) = true /\ ss_public_key_known (dv_status_b link) = true /\
  (publicHostA = "" \/ publicHostA = dv_endpoint_host link) /\ ips <> [] /\
  (publicIpA = "" \/ publicIpA ∈ ips) /\
  (fresh (dv_status_a link) = true \/ fresh (dv_status_b link) = true) /\
  ss_path (dv_status_a link) = "direct" /\ ss_path (dv_status_b link) = "direct".
Proof.
  cbv zeta. unfold evaluateDirectChecks, on_direct. cbv zeta. cbn [fst]. rewrite worst_ok, !Forall_app, !Forall_cons, Forall_nil.
  rewrite !Forall_if_one, Forall_if_nil. cbn [snd]. rewrite !passes_skip_if, !passes_if, passes_resolved, passes_off, passes_fail, passes_warn.
  rewrite !orb_true_iff, !andb_true_iff, !negb_true_iff, !bool_decide_eq_true, !bool_decide_eq_false.
  rewrite !(right_id False or). set (host := dv_endpoint_host link).
  assert (forall x : string, ~ x <> "" <-> x = "") as Hdn by (intros x; destruct (decide (x = "")); tauto).
  assert (~ (publicHostA <> "" /\ publicHostA <> host) <-> publicHostA = "" \/ publicHostA = host) as ->.
  { destruct (decide (publicHostA = "")), (decide (publicHostA = host)); tauto. }
  assert (isIpv4Literal host = true \/ default [] resolved <> [] <->
    (if isIpv4Literal host then [host] else default [] resolved) <> []) as ->.
  { destruct (isIpv4Literal host); intuition congruence. }
  rewrite Hdn. split.
  - intros (He & Hb & ((? & ?) & (? & ?) & _) & ? & ? & ? & Hf & Hp & _).
    destruct Hf as [[?|?]|?]; [congruence|done|]. destruct Hp as [[?|?]|[? ?]]; [congruence|done|].
    by split_and!.
  - intros (He & Hb & ? & ? & ? & ? & ? & ? & ? & ? & ? & ?). by split_and!; auto.
Qed.

Definition green_view : dview :=
  DView true "" "203.0.113.9" (SideStatus false true true (Some 12) "direct") (SideStatus false true true None "direct").

Lemma checks_example :
  evaluateDirectChecks green_view "203.0.113.9" None "" =
    (COk, [("agents-online", COk); ("keys", COk); ("dns", CSkip); ("public-ip", COk); ("port-forward", COk); ("path", COk)]).
Proof. vm_compute. reflexivity. Qed.
