(* ===== verification/WgConf.v ===== *)
(** Hub configuration files: the text functions of [backend/internal/wireguard.js].

    Reading the peers of a wg-quick file, computing the AllowedIPs each peer must have from
    the metadata, rewriting the file (peers, route and MASQUERADE hooks with their marker),
    removing a peer, rotating its key, and the plan of a hub sync. *)

From S2P Require Import Prelude.
From S2P Require Import JsString.
From S2P Require Import JsRegex.
From S2P Require Import Cidr.
From S2P Require Import ConfText.
From S2P Require Import IngressRules.

Local Open Scope Z_scope.

(** * Metadata of a link, as the text functions read it *)

(** [lm_importedNetworks] is [None] when the entry has no such key; an absent name or type is "". *)
Record link_meta := LinkMeta {
  lm_name : string;
  lm_type : string;
  lm_importedNetworks : option (list string) }.

(** [meta.importedNetworks || []] *)
Definition imported_nets (m : link_meta) : list string := default [] (lm_importedNetworks m).

Definition LINK_TYPES : list string := ["client"; "site-to-site"; "hub-link"; "imported"; "unknown"].

(** "" is [undefined]. *)
Definition normalizeLinkType (type : string) : string :=
  if decide (type = "") then ""
  else if decide (type = "site-link") then "site-to-site"
  else if set_has LINK_TYPES type then type else "".

(** * Reading a configuration *)

Record parsed_config := ParsedConfig {
  pc_addresses : list string;
  pc_listenPort : option Z;
  pc_privateKeyPresent : bool;
  pc_peers : list (list (string * string)) }.

Inductive conf_section := SecNone | SecInterface | SecPeer.

(** The body of the loop of [parseConfig]; the current peer is the last of the list. *)
Definition parse_config_line (st : conf_section * parsed_config) (raw : string) : conf_section * parsed_config :=
  let '(sec, p) := st in
  let line := trim raw in
  if decide (line = "") then st
  else if starts_with "#" line then st
  else if decide (line = "[Interface]") then (SecInterface, p)
  else if decide (line = "[Peer]") then
    (SecPeer, ParsedConfig (pc_addresses p) (pc_listenPort p) (pc_privateKeyPresent p) (pc_peers p ++ [[]]))
  else
    match trim <$> split_char "=" line with
    | key :: value :: _ =>
        match sec with
        | SecInterface =>
            (sec, ParsedConfig
              (if decide (key = "Address") then csv_list value else pc_addresses p)
              (if decide (key = "ListenPort") then parse_int value else pc_listenPort p)
              (if decide (key = "PrivateKey") then nonempty value else pc_privateKeyPresent p)
              (pc_peers p))
        | SecPeer =>
            (sec, ParsedConfig (pc_addresses p) (pc_listenPort p) (pc_privateKeyPresent p)
              (match reverse (pc_peers p) with
               | cur :: before => reverse before ++ [mset key value cur]
               | [] => []
               end))
        | SecNone => st
        end
    | _ => st
    end.

Definition parseConfig (confText : string) : parsed_config :=
  (fold_left parse_config_line (split_lines confText) (SecNone, ParsedConfig [] None false [])).2.

(** [_parsePeersFromConf]: the AllowedIPs per public key. A key not set yet is "". *)
Record peer_scan := PeerScan {
  ps_peers : list (string * list string);
  ps_inPeer : bool;
  ps_key : string;
  ps_ips : list string }.

Definition flush_peer (st : peer_scan) : list (string * list string) :=
  if ps_inPeer st && nonempty (ps_key st) then mset (ps_key st) (ps_ips st) (ps_peers st) else ps_peers st.

Definition parse_peer_line (st : peer_scan) (raw : string) : peer_scan :=
  let t := trim raw in
  if decide (t = "[Peer]") then PeerScan (flush_peer st) true "" []
  else if starts_with "[" t then PeerScan (flush_peer st) false "" (ps_ips st)
  else if bool_decide (t = "") || starts_with "#" t || negb (includes "=" t) then st
  else
    let k := trim (before_eq t) in
    let v := trim (after_eq t) in
    if ps_inPeer st then
      PeerScan (ps_peers st) true
        (if decide (k = "PublicKey") then v else ps_key st)
        (if decide (k = "AllowedIPs") then csv_list v else ps_ips st)
    else st.

Definition parsePeersFromConf (lines : list string) : list (string * list string) :=
  flush_peer (fold_left parse_peer_line lines (PeerScan [] false "" [])).

(** * The AllowedIPs every peer must have *)

(** [[...xs].sort().join(",")] *)
Definition sorted_text (l : list string) : string := join "," (sort_strings l).

(** What the metadata wants for one peer. *)
Definition wanted_ips (meta : link_meta) (current : list string) : list string :=
  let hostRoutes := bfilter isHostRoute current in
  if decide (normalizeLinkType (lm_type meta) = "client") then uniq hostRoutes
  else
    let nets := match lm_importedNetworks meta with
                | Some nets => bfilter (fun c => negb (isHostRoute c) && isAcceptableNetworkPrefix c) nets
                | None => bfilter (fun c => negb (isHostRoute c)) current
                end in
    uniq (hostRoutes ++ nets).

Definition build_peer_update (linksMeta : list (string * link_meta)) (ifaceName : string)
    (updates : list (string * list string)) (p : string * list string) : list (string * list string) :=
  match mget (ifaceName +:+ ":" +:+ p.1) linksMeta with
  | None => updates
  | Some meta =>
      let newIPs := wanted_ips meta p.2 in
      if decide (sorted_text newIPs = sorted_text p.2) then updates else mset p.1 newIPs updates
  end.

Definition buildPeerUpdates (peerMap : list (string * list string)) (linksMeta : list (string * link_meta))
    (ifaceName : string) : list (string * list string) :=
  fold_left (build_peer_update linksMeta ifaceName) peerMap [].

(** * MASQUERADE ownership *)

Record masq_iface := MasqIface { mi_name : string; mi_cidr : string }.

Definition masqKey (nic cidr : string) : string := nic +:+ "=" +:+ cidr.

Definition MASQ_MARKER_PREFIX : string := "# floppyguard-masq:".

Definition no_space (s : string) : bool := bool_decide (s <> "") && sall (fun c => negb (is_space c)) s.

(** [GENERATED_MASQ_RE]: the nic and the network of a generated command. The pattern is a
    sequence of words separated by single spaces, two of them free. *)
Definition generated_masq (cmd : string) : option (string * string) :=
  match split_char " " cmd with
  | "iptables" :: "-t" :: "nat" :: verb :: "POSTROUTING" :: "-o" :: nic :: "-s" :: cidr :: "-j" :: "MASQUERADE" :: rest =>
      if bool_decide (verb = "-A" \/ verb = "-D") && no_space nic && no_space cidr &&
         bool_decide (rest = [] \/ rest = ["2>/dev/null"; "||"; "true"])
      then Some (nic, cidr) else None
  | _ => None
  end.

(** [MASQ_MARKER_RE]: the text after the colon of a trimmed marker line. *)
Definition masq_marker (t : string) : option string :=
  match t with
  | String "#" r =>
      let r := trim_start r in
      if starts_with "floppyguard-masq:" (to_lower (stake 17 r)) &&
         sall (fun c => negb (is_char nl c) && negb (is_char cr c)) (sdrop 17 r)
      then Some (sdrop 17 r) else None
  | _ => None
  end.

Definition nonspace : re := RChar (fun c => negb (is_space c)).
Definition MASQ_KEY_RE : re := RSeq (rplus nonspace) (RSeq (RChar (is_char "=")) (rplus nonspace)).

Definition parseMasqMarker (lines : list string) : list string :=
  uniq (l ← lines; match masq_marker (trim l) with
                   | Some m => bfilter (re_test MASQ_KEY_RE) (trim <$> split_char "," m)
                   | None => []
                   end).

(** [/^Post(Up|Down)\s*=/] *)
Definition is_hook_line (t : string) : bool :=
  let tail := if starts_with "PostUp" t then Some (sdrop 6 t)
              else if starts_with "PostDown" t then Some (sdrop 8 t) else None in
  match tail with Some r => starts_with "=" (trim_start r) | None => false end.

Definition previousOwnedMasq (lines : list string) : list string :=
  uniq (parseMasqMarker lines ++
        (l ← lines; let t := trim l in
         if is_hook_line t
         then omap (fun p => m ← generated_masq (trim p); Some (masqKey m.1 m.2)) (split_char ";" (after_eq t))
         else [])).

Definition masqMarkerLine (masqueradeIfaces : list masq_iface) : string :=
  let keys := sort_strings (uniq ((fun n => masqKey (mi_name n) (mi_cidr n)) <$> masqueradeIfaces)) in
  MASQ_MARKER_PREFIX +:+ " " +:+ (if decide (keys = []) then "-" else join ", " keys).

Definition isGeneratedMasq (cmd ifaceName : string) (ownedKeys : list string) : bool :=
  match generated_masq cmd with
  | Some (nic, cidr) => negb (bool_decide (nic = ifaceName)) && set_has ownedKeys (masqKey nic cidr)
  | None => false
  end.

(** * Rewriting a configuration *)

Definition OR_TRUE : string := "2>/dev/null || true".

(** The command without a trailing [2>/dev/null || true]. *)
Definition norm_cmd (c : string) : string :=
  if ends_with OR_TRUE c then
    let p := stake (String.length c - String.length OR_TRUE) c in
    if decide (trim_end p = p) then trim c else trim p
  else trim c.

Definition dedupe_cmd (st : list string * list string) (c : string) : list string * list string :=
  let norm := norm_cmd c in
  if decide (norm ∈ st.1) then st else (norm :: st.1, st.2 ++ [c]).

Definition dedupeHookCmds (cmds : list string) : list string := (fold_left dedupe_cmd cmds ([], [])).2.

Record hook_cmds := HookCmds { hc_routes : list string; hc_masq : list string }.

Definition hookCmds (ifaceName : string) (allRouteNets : list string) (masqueradeIfaces : list masq_iface) (isUp : bool)
    : hook_cmds :=
  let verb := if isUp then "add" else "del" in
  let iptVerb := if isUp then "-A" else "-D" in
  HookCmds
    ((fun net => "ip route " +:+ verb +:+ " " +:+ net +:+ " dev " +:+ ifaceName +:+ " " +:+ OR_TRUE) <$>
       sort_strings allRouteNets)
    ((fun nic => let cmd := "iptables -t nat " +:+ iptVerb +:+ " POSTROUTING -o " +:+ mi_name nic +:+ " -s " +:+
                            mi_cidr nic +:+ " -j MASQUERADE" in
                 if isUp then cmd else cmd +:+ " " +:+ OR_TRUE) <$> masqueradeIfaces).

(** [^ip route (?:add|del) \S+ dev <iface>], the interface name being plain characters. *)
Fixpoint skip_nonspace (s : string) : string :=
  match s with "" => "" | String c r => if is_space c then s else skip_nonspace r end.

Definition is_route_cmd (ifaceName p : string) : bool :=
  (starts_with "ip route add " p || starts_with "ip route del " p) &&
  (let r := sdrop 13 p in
   bool_decide (skip_nonspace r <> r) && starts_with (" dev " +:+ ifaceName) (skip_nonspace r)).

Record rewrite_state := RewriteState {
  rw_inPeer : bool; rw_key : string; rw_out : list string; rw_marker : bool }.

Section rewrite.
Variable ifaceName : string.
Variable peerUpdates : list (string * list string).
Variable allRouteNets : list string.
Variable masqueradeIfaces : list masq_iface.
Variable ownedMasq : list string.

(** A PostUp or PostDown line of the interface section. *)
Definition rewrite_hook (isUp : bool) (raw : string) : string :=
  let value := trim (after_eq raw) in
  let nonRoute := bfilter (fun p => nonempty p && negb (is_route_cmd ifaceName p) &&
                                    negb (isGeneratedMasq p ifaceName ownedMasq)) (trim <$> split_char ";" value) in
  let h := hookCmds ifaceName allRouteNets masqueradeIfaces isUp in
  (if isUp then "PostUp" else "PostDown") +:+ " = " +:+
    join "; " (dedupeHookCmds (nonRoute ++ hc_routes h ++ hc_masq h)).

Definition rewrite_line (st : rewrite_state) (raw : string) : rewrite_state :=
  let t := trim raw in
  let keep := RewriteState (rw_inPeer st) (rw_key st) (rw_out st ++ [raw]) (rw_marker st) in
  if negb (rw_inPeer st) && bool_decide (is_Some (masq_marker t)) then st
  else if decide (t = "[Peer]") then RewriteState true "" (rw_out st ++ [raw]) (rw_marker st)
  else if starts_with "[" t then RewriteState false "" (rw_out st ++ [raw]) (rw_marker st)
  else if rw_inPeer st && starts_with "PublicKey" t then
    RewriteState true (trim (after_eq t)) (rw_out st ++ [raw]) (rw_marker st)
  else if rw_inPeer st && starts_with "AllowedIPs" t && nonempty (rw_key st) && mhas (rw_key st) peerUpdates then
    RewriteState true (rw_key st)
      (rw_out st ++ ["AllowedIPs = " +:+ join ", " (default [] (mget (rw_key st) peerUpdates))]) (rw_marker st)
  else if negb (rw_inPeer st) && (starts_with "PostUp" t || starts_with "PostDown" t) then
    let isUp := starts_with "PostUp" t in
    let marker := if isUp && negb (rw_marker st) then [masqMarkerLine masqueradeIfaces] else [] in
    RewriteState false (rw_key st) (rw_out st ++ marker ++ [rewrite_hook isUp raw]) (rw_marker st || isUp)
  else keep.

(** The hooks the configuration lacks. *)
Definition missing_hooks (hasPostUp hasPostDown : bool) : list string :=
  let up := hookCmds ifaceName allRouteNets masqueradeIfaces true in
  let down := hookCmds ifaceName allRouteNets masqueradeIfaces false in
  let postUp := join "; " (hc_routes up ++ hc_masq up) in
  let postDown := join "; " (hc_routes down ++ hc_masq down) in
  (if negb hasPostUp && nonempty postUp then [masqMarkerLine masqueradeIfaces; "PostUp = " +:+ postUp] else []) ++
  (if negb hasPostDown && nonempty postDown then ["PostDown = " +:+ postDown] else []).

Definition insert_at (hasPostUp hasPostDown : bool) (out : list string) : Z :=
  let idxOf prefix := find_index (fun l => starts_with prefix (trim l)) out in
  if hasPostDown then idxOf "PostDown"
  else if hasPostUp then idxOf "PostUp" + 1
  else
    let peerIdx := find_index (fun l => bool_decide (trim l = "[Peer]")) out in
    if 0 <? peerIdx then peerIdx else Z.of_nat (length out).

Definition inject_hooks (lines out : list string) : list string :=
  let hasPostUp := existsb (fun l => starts_with "PostUp" (trim l)) lines in
  let hasPostDown := existsb (fun l => starts_with "PostDown" (trim l)) lines in
  if (negb hasPostUp || negb hasPostDown) && (bool_decide (allRouteNets <> []) || bool_decide (masqueradeIfaces <> []))
  then splice (insert_at hasPostUp hasPostDown out) (missing_hooks hasPostUp hasPostDown) out
  else out.
End rewrite.

Definition rewrite_lines (lines : list string) (ifaceName : string) (peerUpdates : list (string * list string))
    (allRouteNets : list string) (masqueradeIfaces : list masq_iface) : list string :=
  let ownedMasq := uniq (((fun n => masqKey (mi_name n) (mi_cidr n)) <$> masqueradeIfaces) ++ parseMasqMarker lines) in
  let st := fold_left (rewrite_line ifaceName peerUpdates allRouteNets masqueradeIfaces ownedMasq) lines
                      (RewriteState false "" [] false) in
  inject_hooks ifaceName allRouteNets masqueradeIfaces lines (rw_out st).

Definition rewriteHubConf (lines : list string) (ifaceName : string) (peerUpdates : list (string * list string))
    (allRouteNets : list string) (masqueradeIfaces : list masq_iface) : string :=
  join (String nl "") (rewrite_lines lines ifaceName peerUpdates allRouteNets masqueradeIfaces).

(** * Removing a peer *)

(** [out] is kept reversed: the code pops from its end. *)
Record remove_state := RemoveState {
  rm_out : list string; rm_inPeer : bool; rm_skip : bool; rm_buffer : list string }.

Fixpoint pop_while (p : string -> bool) (l : list string) : list string :=
  match l with [] => [] | x :: l' => if p x then pop_while p l' else l end.

Definition is_comment (l : string) : bool := starts_with "#" (trim l).
Definition is_blank (l : string) : bool := bool_decide (trim l = "").

Definition flush_buffer (st : remove_state) : list string :=
  if rm_inPeer st then
    if rm_skip st then pop_while is_blank (pop_while is_comment (rm_out st))
    else reverse (rm_buffer st) ++ rm_out st
  else rm_out st.

Definition remove_line (target : string) (st : remove_state) (raw : string) : remove_state :=
  let t := trim raw in
  if decide (t = "[Peer]") then RemoveState (flush_buffer st) true false [raw]
  else if starts_with "[" t then RemoveState (raw :: flush_buffer st) false false []
  else if rm_inPeer st then
    RemoveState (rm_out st) true
      (rm_skip st || (starts_with "PublicKey" t && bool_decide (trim (after_eq t) = target)))
      (rm_buffer st ++ [raw])
  else RemoveState (raw :: rm_out st) false (rm_skip st) (rm_buffer st).

Definition remove_lines (target : string) (lines : list string) : list string :=
  reverse (pop_while is_blank (flush_buffer (fold_left (remove_line target) lines (RemoveState [] false false [])))).

Definition removePeerFromConf (confText targetPubKey : string) : string :=
  join (String nl "") (remove_lines targetPubKey (split_lines confText)) +:+ String nl "".

(** * Rotating the key of a peer *)

Record section := Section_ { sec_isPeer : bool; sec_lines : list string }.

(** The lines grouped into sections; the last one is the current one. *)
Definition group_line (st : list section * section) (raw : string) : list section * section :=
  let t := trim raw in
  if starts_with "[" t then (st.1 ++ [st.2], Section_ (bool_decide (t = "[Peer]")) [raw])
  else (st.1, Section_ (sec_isPeer st.2) (sec_lines st.2 ++ [raw])).

Definition group_sections (lines : list string) : list section :=
  let st := fold_left group_line lines ([], Section_ false []) in st.1 ++ [st.2].

Definition keyOf (line : string) : string := to_lower (trim (before_eq (trim line))).
Definition valOf (line : string) : string := trim (after_eq line).

Definition has_key (oldPubKey : string) (s : section) : bool :=
  sec_isPeer s && existsb (fun l => bool_decide (keyOf l = "publickey" /\ valOf l = oldPubKey)) (sec_lines s).

Definition rotate_line (oldPubKey newPubKey raw : string) : list string :=
  let k := keyOf raw in
  if decide (k = "presharedkey") then []
  else if decide (k = "publickey" /\ valOf raw = oldPubKey) then ["PublicKey = " +:+ newPubKey]
  else [raw].

Definition rotate_section (oldPubKey newPubKey : string) (st : bool * list string) (s : section) : bool * list string :=
  if negb st.1 && has_key oldPubKey s
  then (true, st.2 ++ (l ← sec_lines s; rotate_line oldPubKey newPubKey l))
  else (st.1, st.2 ++ sec_lines s).

(** The rewritten lines and whether a key was swapped. *)
Definition rotate_lines (lines : list string) (oldPubKey newPubKey : string) : bool * list string :=
  fold_left (rotate_section oldPubKey newPubKey) (group_sections lines) (false, []).

Definition rewriteRotatedPeer (confText oldPubKey newPubKey : string) : string * bool :=
  let '(swapped, out) := rotate_lines (split_lines confText) oldPubKey newPubKey in
  (join (String nl "") out, swapped).

(** * The plan of a hub sync *)

Record nic := Nic { nic_name : string; nic_cidr : string }.

Definition excludeConnectedNets (routeNets : list string) (nics : list nic) : list string :=
  fold_left (fun nets n => bfilter (fun net => negb (cidrContains (nic_cidr n) net)) nets) nics routeNets.

(** The text at the head of [s] that [\d{1,3}\.\d{1,3}\.\d{1,3}\.\d{1,3}\/\d{1,2}] matches. *)
Definition digit_run (s : string) : string * string := (leading_digits s, sdrop (String.length (leading_digits s)) s).

Definition octet_then (sep : ascii) (s : string) : option (string * string) :=
  let '(d, r) := digit_run s in
  if bool_decide (d <> "") && Nat.leb (String.length d) 3 then
    match r with String c r => if decide (c = sep) then Some (d, r) else None | "" => None end
  else None.

Definition cidr_at (s : string) : option string :=
  a ← octet_then "." s; b ← octet_then "." a.2; c ← octet_then "." b.2; d ← octet_then "/" c.2;
  let p := stake 2 (leading_digits d.2) in
  if decide (p = "") then None
  else Some (a.1 +:+ "." +:+ b.1 +:+ "." +:+ c.1 +:+ "." +:+ d.1 +:+ "/" +:+ p).

Fixpoint find_cidr (s : string) : option string :=
  match cidr_at s with
  | Some m => Some m
  | None => match s with "" => None | String _ r => find_cidr r end
  end.

(** [/^\s*Address\s*=/i] *)
Definition is_address_line (l : string) : bool :=
  let r := trim_start l in
  bool_decide (to_lower (stake 7 r) = "address") && starts_with "=" (trim_start (sdrop 7 r)).

Definition tunnelSubnetFromConfLines (lines : list string) : string :=
  let found := l ← bfind is_address_line lines; m ← find_cidr l; canonicalizeIpv4Network m in
  default "10.10.0.0/24" found.

(** Peers whose live AllowedIPs differ from the file are set again. *)
Definition drift_update (livePeers : list (string * list string)) (updates : list (string * list string))
    (p : string * list string) : list (string * list string) :=
  if mhas p.1 updates then updates
  else match mget p.1 livePeers with
       | Some ips => if decide (sorted_text ips = sorted_text p.2) then updates else mset p.1 p.2 updates
       | None => updates
       end.

Definition effective_ips (updates : list (string * list string)) (p : string * list string) : list string :=
  default p.2 (mget p.1 updates).

(** The networks routed into the tunnel, connected ones not yet excluded. *)
Definition peer_route_nets (updates peerMap : list (string * list string)) : list string :=
  uniq (p ← peerMap; bfilter (fun c => negb (isHostRoute c) && isValidNetwork c) (effective_ips updates p)).

(** One entry per nic and network. *)
Definition add_masq (name : string) (st : list string * list masq_iface) (cidr : string) : list string * list masq_iface :=
  let key := name +:+ ":" +:+ cidr in
  if set_has st.1 key then st else (st.1 ++ [key], st.2 ++ [MasqIface name cidr]).

Definition nic_masq (tunnelSubnet : string) (routeNets : list string) (st : list string * list masq_iface) (n : nic)
    : list string * list masq_iface :=
  fold_left (add_masq (nic_name n)) (bfilter (fun net => negb (includes ":" net)) (sort_strings routeNets))
    (add_masq (nic_name n) (add_masq (nic_name n) st (nic_cidr n)) tunnelSubnet).

Record hub_plan := HubPlan {
  hp_text : string;
  hp_updates : list (string * list string);
  hp_routes : list string;
  hp_masq : list masq_iface;
  hp_tunnelSubnet : string }.

(** [livePeers] is empty when the interface is not up. *)
Definition syncHubPlan (confText : string) (linksMeta : list (string * link_meta)) (ifaceName : string)
    (livePeers : list (string * list string)) (nics : list nic) : hub_plan :=
  let lines := split_lines confText in
  let peerMap := parsePeersFromConf lines in
  let updates := fold_left (drift_update livePeers) peerMap (buildPeerUpdates peerMap linksMeta ifaceName) in
  let routes := excludeConnectedNets (peer_route_nets updates peerMap) nics in
  let tunnelSubnet := tunnelSubnetFromConfLines lines in
  let masq := (fold_left (nic_masq tunnelSubnet routes) nics ([], [])).2 in
  HubPlan (rewriteHubConf lines ifaceName updates routes masq) updates routes masq tunnelSubnet.

(** The live routes of the interface: what is added and what is pruned. *)
Definition routes_to_add (plan : hub_plan) (existing : list string) : list string :=
  bfilter (fun net => negb (set_has existing net)) (hp_routes plan).

Definition first_word (l : string) : string := stake (String.length l - String.length (skip_nonspace l)) l.

Definition route_stale (plan : hub_plan) (line : string) : bool :=
  let prefix := first_word line in
  has_char "/" prefix && negb (isHostRoute prefix) && negb (includes "proto kernel" line) &&
  negb (bool_decide (prefix = hp_tunnelSubnet plan)) && negb (set_has (hp_routes plan) prefix).

Definition routes_to_remove (plan : hub_plan) (routeLines : list string) : list string :=
  first_word <$> bfilter (route_stale plan) routeLines.

(** The live MASQUERADE rules: [present] is the answer of [iptables -C]. *)
Definition masq_want (ifaceName : string) (masq : list masq_iface) : list (string * (string * string)) :=
  mfrom ((fun n => (masqKey (mi_name n) (mi_cidr n), (mi_name n, mi_cidr n))) <$>
    bfilter (fun n => negb (bool_decide (mi_name n = ifaceName)) && isValidNetwork (mi_cidr n)) masq).

Definition masq_to_add (ifaceName : string) (masq : list masq_iface) (previousOwned : list string)
    (present : string -> bool) : list string :=
  (bfilter (fun kv => negb (set_has previousOwned kv.1 && present kv.1)) (masq_want ifaceName masq)).*1.

(** [/^(\S+)=(\S+)$/] with a greedy first part: the key is cut at its last inner [=]. *)
Fixpoint last_eq_split (s : string) : option (string * string) :=
  match s with
  | "" => None
  | String c r =>
      match last_eq_split r with
      | Some (a, b) => Some (String c a, b)
      | None => match r with
                | String "=" b => if decide (b = "") then None else Some (String c "", b)
                | _ => None
                end
      end
  end.

Definition masq_to_remove (ifaceName : string) (masq : list masq_iface) (previousOwned : list string) : list string :=
  bfilter (fun key =>
    negb (mhas key (masq_want ifaceName masq)) &&
    match last_eq_split key with
    | Some (nic, cidr) => sall (fun c => negb (is_space c)) key && negb (bool_decide (nic = ifaceName)) && isValidNetwork cidr
    | None => false
    end) previousOwned.

(** * Reading back what was written *)

Lemma trim_head c s : is_space c = false -> trim (String c s) = String c (trim_end s).
Proof. intros Hc. unfold trim. cbn [trim_start]. rewrite Hc. cbn [trim_end]. by rewrite Hc. Qed.

(** The key of a line as [parsePeersFromConf] reads it; "" for a line it skips. *)
Definition line_key (t : string) : string :=
  if bool_decide (t = "") || starts_with "#" t || negb (includes "=" t) then "" else trim (before_eq t).

Definition is_header (t : string) : bool := starts_with "[" t.

Lemma parse_peer_line_trim st l l' : trim l = trim l' -> parse_peer_line st l = parse_peer_line st l'.
Proof. intros H. unfold parse_peer_line. by rewrite H. Qed.

Lemma parsePeers_trims ls ls' : trim <$> ls = trim <$> ls' -> parsePeersFromConf ls = parsePeersFromConf ls'.
Proof.
  intros H. unfold parsePeersFromConf. f_equal. generalize (PeerScan [] false "" []) as st. revert ls' H.
  induction ls as [|l ls IH]; intros [|l' ls']; rewrite ?fmap_nil, ?fmap_cons; try done.
  intros [= Hl Hls] st. cbn [fold_left]. by rewrite (parse_peer_line_trim _ _ _ Hl), (IH _ Hls).
Qed.

(** A line that is no header and sets neither a key nor AllowedIPs does not change the scan. *)
Lemma parse_neutral st l : is_header (trim l) = false ->
  line_key (trim l) <> "PublicKey" -> line_key (trim l) <> "AllowedIPs" -> parse_peer_line st l = st.
Proof.
  unfold is_header, line_key, parse_peer_line. intros Hh Hk Ha. rewrite decide_False by (by intros Ht; rewrite Ht in Hh).
  rewrite Hh. destruct (_ || _); [done|]. destruct st as [ps [] k ips]; cbn [ps_inPeer ps_peers ps_key ps_ips]; [|done].
  by rewrite !decide_False.
Qed.

Lemma setting_line_key k v : setting_key k = true -> starts_with "#" k = false -> trim k = k ->
  line_key (trim (k +:+ " = " +:+ v)) = k.
Proof.
  intros Hk Hh Ht. unfold line_key. rewrite trim_setting by done.
  change (k +:+ " =" +:+ trim_end (" " +:+ v)) with (k +:+ " " +:+ String "=" (trim_end (" " +:+ v))).
  assert (includes "=" (k +:+ " " +:+ String "=" (trim_end (" " +:+ v))) = true) as ->.
  { clear. generalize (trim_end (" " +:+ v)). intros x. induction k as [|c k IH].
    - rewrite sapp_nil_l, sapp_String, sapp_nil_l. cbn. by destruct x.
    - rewrite sapp_String. cbn [includes]. destruct (String.prefix "=" _); [done|exact IH]. }
  assert (starts_with "#" (k +:+ " " +:+ String "=" (trim_end (" " +:+ v))) = false) as ->.
  { destruct k as [|c k]; [done|]. rewrite sapp_String. unfold starts_with in *. cbn [String.prefix] in *.
    destruct (ascii_dec "#" c); [by destruct k|done]. }
  rewrite bool_decide_eq_false_2 by (destruct k; done). cbn [orb negb].
  rewrite <- sapp_assoc, before_eq_app.
  - by rewrite trim_space_r.
  - unfold setting_key in Hk. apply andb_true_iff in Hk as [_ Hk]. unfold no_char. by rewrite sall_app, Hk.
Qed.

Lemma setting_no_header k v : setting_key k = true -> starts_with "[" k = false -> is_header (trim (k +:+ " = " +:+ v)) = false.
Proof.
  intros Hk Hh. unfold is_header. rewrite trim_setting by done. destruct k as [|c k]; [done|].
  rewrite sapp_String. unfold starts_with in *. cbn [String.prefix] in *. destruct (ascii_dec "[" c); [by destruct k|done].
Qed.

Lemma hook_neutral st k v : k = "PostUp" \/ k = "PostDown" -> parse_peer_line st (k +:+ " = " +:+ v) = st.
Proof.
  intros Hk. apply parse_neutral; [apply setting_no_header|rewrite setting_line_key|rewrite setting_line_key];
    by destruct Hk as [-> | ->].
Qed.

Lemma marker_neutral st t : starts_with "#" t = true -> parse_peer_line st t = st.
Proof.
  intros (r & ->)%starts_with_split. rewrite sapp_String, sapp_nil_l.
  apply parse_neutral; unfold is_header, line_key; rewrite trim_head by done; [done|..];
    cbn; by destruct (trim_end r).
Qed.

(** ** The peers of the rewritten file *)

(** The shape of a peer block the rewriting relies on: the key comes first, once, before the
    AllowedIPs, a key that is to be updated has AllowedIPs, and a line that starts like one
    of the two settings is one. *)
Definition line_regular (t : string) : bool :=
  Bool.eqb (starts_with "PublicKey" t) (bool_decide (line_key t = "PublicKey")) &&
  Bool.eqb (starts_with "AllowedIPs" t) (bool_decide (line_key t = "AllowedIPs")).

Record block_state := BlockState { bs_inPeer : bool; bs_key : string; bs_allowed : bool }.

Definition block_done (updates : list (string * list string)) (st : block_state) : bool :=
  negb (bs_inPeer st && mhas (bs_key st) updates) || bs_allowed st.

Fixpoint blocks_regular (updates : list (string * list string)) (st : block_state) (lines : list string) : bool :=
  match lines with
  | [] => block_done updates st
  | raw :: lines =>
      let t := trim raw in
      if is_header t then
        block_done updates st && blocks_regular updates (BlockState (bool_decide (t = "[Peer]")) "" false) lines
      else if negb (bs_inPeer st) then blocks_regular updates st lines
      else
        line_regular t &&
        (if starts_with "PublicKey" t then
           negb (nonempty (bs_key st)) && negb (bs_allowed st) && nonempty (trim (after_eq t)) &&
           blocks_regular updates (BlockState true (trim (after_eq t)) false) lines
         else if starts_with "AllowedIPs" t then
           nonempty (bs_key st) && blocks_regular updates (BlockState true (bs_key st) true) lines
         else blocks_regular updates st lines)
  end.

Definition conf_regular (updates : list (string * list string)) (lines : list string) : bool :=
  blocks_regular updates (BlockState false "" false) lines.

Definition apply_updates (updates peerMap : list (string * list string)) : list (string * list string) :=
  (fun p => (p.1, effective_ips updates p)) <$> peerMap.

Lemma apply_updates_mset updates k v m :
  apply_updates updates (mset k v m) = mset k (effective_ips updates (k, v)) (apply_updates updates m).
Proof.
  unfold apply_updates. induction m as [|[q w] m IH]; [done|]. cbn [mset]. rewrite fmap_cons. cbn [mset fst].
  destruct (decide (q = k)); [by rewrite fmap_cons|]. by rewrite fmap_cons, IH.
Qed.

Section rewrite_proofs.
Variable ifaceName : string.
Variable updates : list (string * list string).
Variable allRouteNets : list string.
Variable masqueradeIfaces : list masq_iface.
Variable ownedMasq : list string.
Hypothesis Htokens : forall k ips, mget k updates = Some ips -> Forall csv_token ips.

Notation rewrite := (rewrite_line ifaceName updates allRouteNets masqueradeIfaces ownedMasq).

Record scans_agree (ps qs : peer_scan) (rw : rewrite_state) (bs : block_state) : Prop := ScansAgree {
  sa_in_q : ps_inPeer qs = ps_inPeer ps;
  sa_in_rw : rw_inPeer rw = ps_inPeer ps;
  sa_in_bs : bs_inPeer bs = ps_inPeer ps;
  sa_key_q : ps_key qs = ps_key ps;
  sa_key_bs : bs_key bs = ps_key ps;
  sa_key_rw : ps_inPeer ps = true -> rw_key rw = ps_key ps;
  sa_peers : ps_peers qs = apply_updates updates (ps_peers ps);
  sa_ips : ps_inPeer ps = true ->
    ps_ips qs = if bs_allowed bs then effective_ips updates (ps_key ps, ps_ips ps) else ps_ips ps }.

Lemma agree_flush ps qs rw bs : scans_agree ps qs rw bs -> block_done updates bs = true ->
    flush_peer qs = apply_updates updates (flush_peer ps).
Proof.
  intros [H1 H2 H3 H4 H5 H6 H7 H8] Hd. unfold flush_peer. rewrite H1, H4, H7. destruct (ps_inPeer ps); [|done].
  destruct (nonempty (ps_key ps)); [|done]. cbn [andb]. rewrite apply_updates_mset, (H8 eq_refl).
  unfold block_done in Hd. rewrite H3, H5 in Hd. cbn [andb] in Hd.
  destruct (bs_allowed bs); [done|]. rewrite orb_false_r, negb_true_iff in Hd.
  unfold effective_ips, mhas in *. cbn [fst snd]. by destruct (mget (ps_key ps) updates).
Qed.

Lemma allowed_line_parse st ips : ps_inPeer st = true -> Forall csv_token ips ->
    parse_peer_line st ("AllowedIPs = " +:+ join ", " ips) = PeerScan (ps_peers st) true (ps_key st) ips.
Proof.
  intros Hin Hips. change ("AllowedIPs = " +:+ join ", " ips) with ("AllowedIPs" +:+ " = " +:+ join ", " ips).
  pose proof (setting_no_header "AllowedIPs" (join ", " ips) eq_refl eq_refl) as Hh.
  pose proof (setting_line_key "AllowedIPs" (join ", " ips) eq_refl eq_refl eq_refl) as Hk.
  pose proof (setting_csv "AllowedIPs" (join ", " ips) eq_refl) as Hc. rewrite csv_list_join in Hc by done.
  unfold parse_peer_line, line_key, is_header in *. revert Hh Hk Hc.
  generalize (trim ("AllowedIPs" +:+ " = " +:+ join ", " ips)). intros t Hh Hk Hc.
  rewrite decide_False by (intros ->; done). rewrite Hh. destruct (_ || _); [done|]. rewrite Hin, Hk.
  rewrite decide_False by done. rewrite decide_True by done. by rewrite Hc.
Qed.

Lemma neutral_step ps l : ps_inPeer ps = false -> is_header (trim l) = false -> parse_peer_line ps l = ps.
Proof.
  unfold is_header, parse_peer_line. intros Hin Hh. rewrite decide_False by (intros Ht; by rewrite Ht in Hh).
  rewrite Hh. destruct (_ || _); [done|]. by rewrite Hin.
Qed.

Lemma marker_no_header t m : masq_marker t = Some m -> is_header t = false.
Proof. unfold masq_marker, is_header. destruct t as [|[[] [] [] [] [] [] [] []] r]; done. Qed.

Lemma marker_line_hash : starts_with "#" (masqMarkerLine masqueradeIfaces) = true.
Proof. unfold masqMarkerLine, MASQ_MARKER_PREFIX. done. Qed.

Lemma header_agree ps qs rw bs raw : scans_agree ps qs rw bs -> block_done updates bs = true ->
    is_header (trim raw) = true ->
    rewrite rw raw = RewriteState (bool_decide (trim raw = "[Peer]")) "" (rw_out rw ++ [raw]) (rw_marker rw) /\
    scans_agree (parse_peer_line ps raw) (parse_peer_line qs raw) (rewrite rw raw)
      (BlockState (bool_decide (trim raw = "[Peer]")) "" false).
Proof.
  intros Ha Hd Hh. pose proof (agree_flush _ _ _ _ Ha Hd) as Hf.
  assert (rewrite rw raw = RewriteState (bool_decide (trim raw = "[Peer]")) "" (rw_out rw ++ [raw]) (rw_marker rw)) as Hrw.
  { unfold rewrite_line. rewrite (bool_decide_eq_false_2 (is_Some _)).
    - rewrite andb_false_r. destruct (decide (trim raw = "[Peer]")) as [Ht|Ht].
      + by rewrite bool_decide_eq_true_2.
      + unfold is_header in Hh. rewrite Hh. by rewrite bool_decide_eq_false_2.
    - intros [m Hm]. apply marker_no_header in Hm. congruence. }
  split; [done|]. rewrite Hrw. unfold parse_peer_line. destruct (decide (trim raw = "[Peer]")) as [Ht|Ht].
  - rewrite bool_decide_eq_true_2 by done. by constructor.
  - unfold is_header in Hh. rewrite Hh. rewrite bool_decide_eq_false_2 by done. by constructor.
Qed.

Lemma outside_agree ps qs rw bs raw : scans_agree ps qs rw bs -> ps_inPeer ps = false -> is_header (trim raw) = false ->
    exists new, rw_out (rewrite rw raw) = rw_out rw ++ new /\
      scans_agree (parse_peer_line ps raw) (fold_left parse_peer_line new qs) (rewrite rw raw) bs.
Proof.
  intros Ha Hin Hh. rewrite (neutral_step ps raw) by done. destruct Ha as [H1 H2 H3 H4 H5 H6 H7 H8].
  unfold rewrite_line. rewrite H2, Hin. cbn [negb andb].
  case_bool_decide as Hm.
  { exists []. rewrite app_nil_r. split; [done|]. cbn [fold_left]. constructor; congruence. }
  rewrite decide_False by (intros Ht; by rewrite Ht in Hh). unfold is_header in Hh. rewrite Hh.
  destruct (starts_with "PostUp" (trim raw) || starts_with "PostDown" (trim raw)) eqn:Hp.
  - eexists. split; [reflexivity|]. rewrite fold_left_app.
    assert (fold_left parse_peer_line
      (if starts_with "PostUp" (trim raw) && negb (rw_marker rw) then [masqMarkerLine masqueradeIfaces] else []) qs = qs) as ->.
    { destruct (_ && _); [|done]. cbn [fold_left]. apply marker_neutral, marker_line_hash. }
    cbn [fold_left]. unfold rewrite_hook. rewrite hook_neutral by (destruct (starts_with "PostUp" _); auto).
    constructor; cbn [rw_inPeer rw_key]; congruence.
  - exists [raw]. split; [done|]. cbn [fold_left]. rewrite neutral_step by (try done; congruence).
    constructor; cbn [rw_inPeer rw_key]; congruence.
Qed.

Lemma setting_step st t raw : trim raw = t -> ps_inPeer st = true -> is_header t = false ->
    line_key t = "PublicKey" \/ line_key t = "AllowedIPs" ->
    parse_peer_line st raw = PeerScan (ps_peers st) true
      (if decide (line_key t = "PublicKey") then trim (after_eq t) else ps_key st)
      (if decide (line_key t = "AllowedIPs") then csv_list (trim (after_eq t)) else ps_ips st).
Proof.
  intros Ht Hin Hh Hk. unfold parse_peer_line. rewrite Ht. rewrite decide_False by (intros He; by rewrite He in Hh).
  unfold is_header in Hh. rewrite Hh. unfold line_key in *. destruct (_ || _); [by destruct Hk|]. by rewrite Hin.
Qed.

Lemma inside_agree ps qs rw bs raw lines : scans_agree ps qs rw bs -> ps_inPeer ps = true ->
    blocks_regular updates bs (raw :: lines) = true -> is_header (trim raw) = false ->
    exists new bs', rw_out (rewrite rw raw) = rw_out rw ++ new /\ blocks_regular updates bs' lines = true /\
      scans_agree (parse_peer_line ps raw) (fold_left parse_peer_line new qs) (rewrite rw raw) bs'.
Proof.
  intros [H1 H2 H3 H4 H5 H6 H7 H8] Hin Hreg Hh. cbn [blocks_regular] in Hreg. rewrite Hh, H3, Hin in Hreg. cbn [negb] in Hreg.
  apply andb_true_iff in Hreg as [Hl Hreg]. unfold line_regular in Hl.
  apply andb_true_iff in Hl as [Hpk%eqb_prop Hai%eqb_prop].
  specialize (H6 Hin). specialize (H8 Hin).
  unfold rewrite_line at 1 2. rewrite H2, Hin. cbn [negb andb]. rewrite decide_False by (intros He; by rewrite He in Hh).
  unfold is_header in Hh. rewrite Hh. rewrite Hpk, Hai in *.
  destruct (decide (line_key (trim raw) = "PublicKey")) as [Hk|Hk].
  { rewrite (bool_decide_eq_true_2 _ Hk) in *. rewrite !andb_true_iff, !negb_true_iff in Hreg.
    destruct Hreg as [[[Hnone Hal] Hv] Hreg]. exists [raw]. eexists. split; [done|]. split; [exact Hreg|]. cbn [fold_left].
    rewrite Hal in H8. rewrite !(setting_step _ (trim raw)) by (auto; congruence).
    rewrite Hk. rewrite !decide_True by done. rewrite !decide_False by done. by constructor. }
  rewrite (bool_decide_eq_false_2 _ Hk) in *.
  destruct (decide (line_key (trim raw) = "AllowedIPs")) as [Ha|Ha].
  { rewrite (bool_decide_eq_true_2 _ Ha) in *. apply andb_true_iff in Hreg as [Hkey Hreg].
    rewrite H5 in *. rewrite H6, Hkey. cbn [andb].
    rewrite (setting_step ps (trim raw)) by auto. rewrite Ha. rewrite decide_False by done. rewrite decide_True by done.
    unfold mhas. destruct (mget (ps_key ps) updates) as [ips|] eqn:Hup.
    - eexists [_], _. split; [done|]. split; [exact Hreg|]. cbn [fold_left default from_option].
      rewrite allowed_line_parse by (eauto; congruence). constructor; cbn; try done.
      intros _. unfold effective_ips. cbn. by rewrite Hup.
    - eexists [raw], _. split; [done|]. split; [exact Hreg|]. cbn [fold_left].
      rewrite (setting_step qs (trim raw)) by (auto; congruence). rewrite Ha.
      rewrite decide_False by done. rewrite decide_True by done. constructor; cbn; try done.
      intros _. unfold effective_ips. cbn. by rewrite Hup. }
  rewrite (bool_decide_eq_false_2 _ Ha) in *. exists [raw], bs. split; [done|]. split; [done|]. cbn [fold_left].
  rewrite !parse_neutral by done. constructor; cbn; congruence.
Qed.

Lemma rewrite_agree lines : forall ps qs rw bs, blocks_regular updates bs lines = true -> scans_agree ps qs rw bs ->
    exists new, rw_out (fold_left rewrite lines rw) = rw_out rw ++ new /\
      flush_peer (fold_left parse_peer_line new qs) = apply_updates updates (flush_peer (fold_left parse_peer_line lines ps)).
Proof.
  induction lines as [|raw lines IH]; intros ps qs rw bs Hreg Ha.
  { exists []. rewrite app_nil_r. split; [done|]. by eapply agree_flush. }
  cbn [fold_left].
  assert (exists new bs', rw_out (rewrite rw raw) = rw_out rw ++ new /\ blocks_regular updates bs' lines = true /\
    scans_agree (parse_peer_line ps raw) (fold_left parse_peer_line new qs) (rewrite rw raw) bs') as (new & bs' & Ho & Hreg' & Ha').
  { destruct (is_header (trim raw)) eqn:Hh.
    - cbn [blocks_regular] in Hreg. rewrite Hh in Hreg. apply andb_true_iff in Hreg as [Hd Hreg].
      destruct (header_agree _ _ _ _ raw Ha Hd Hh) as [Hrw Hag]. exists [raw]. eexists.
      split; [by rewrite Hrw|]. split; [exact Hreg|exact Hag].
    - destruct (ps_inPeer ps) eqn:Hin; [by apply (inside_agree ps qs rw bs)|].
      cbn [blocks_regular] in Hreg. rewrite Hh, (sa_in_bs _ _ _ _ Ha), Hin in Hreg. cbn [negb] in Hreg.
      destruct (outside_agree _ _ _ _ raw Ha Hin Hh) as (new & Ho & Hag). by exists new, bs. }
  destruct (IH _ _ _ _ Hreg' Ha') as (new' & Ho' & Hf). exists (new ++ new'). rewrite Ho', Ho, app_assoc. split; [done|].
  by rewrite fold_left_app.
Qed.

Lemma rewrite_parse lines : conf_regular updates lines = true ->
    parsePeersFromConf (rw_out (fold_left rewrite lines (RewriteState false "" [] false))) =
    apply_updates updates (parsePeersFromConf lines).
Proof.
  intros Hreg. destruct (rewrite_agree lines (PeerScan [] false "" []) (PeerScan [] false "" [])
    (RewriteState false "" [] false) (BlockState false "" false)) as (new & Ho & Hf); [done|by constructor|].
  rewrite Ho. exact Hf.
Qed.

Lemma missing_hooks_neutral b c l st : l ∈ missing_hooks ifaceName allRouteNets masqueradeIfaces b c -> parse_peer_line st l = st.
Proof.
  unfold missing_hooks. rewrite elem_of_app. intros [H|H].
  - destruct (_ && _); [|by apply not_elem_of_nil in H].
    apply elem_of_cons in H as [-> |H%list_elem_of_singleton]; [apply marker_neutral, marker_line_hash|].
    subst l. apply (hook_neutral st "PostUp"). by left.
  - destruct (_ && _); [|by apply not_elem_of_nil in H]. apply list_elem_of_singleton in H. subst l.
    apply (hook_neutral st "PostDown"). by right.
Qed.

Lemma neutral_fold new st : (forall l st, l ∈ new -> parse_peer_line st l = st) -> fold_left parse_peer_line new st = st.
Proof.
  induction new as [|l new IH]; intros H; [done|]. cbn [fold_left]. rewrite H by (by left). apply IH.
  intros l' st' Hl. apply H. by right.
Qed.

Lemma inject_parse lines out :
    parsePeersFromConf (inject_hooks ifaceName allRouteNets masqueradeIfaces lines out) = parsePeersFromConf out.
Proof.
  unfold inject_hooks. cbv zeta. destruct (_ && _); [|done]. unfold splice, parsePeersFromConf.
  match goal with |- context [take ?n out] => set (i := n) end.
  rewrite !fold_left_app, (neutral_fold (missing_hooks _ _ _ _ _)) by (intros ??; apply missing_hooks_neutral).
  by rewrite <- fold_left_app, take_drop.
Qed.
End rewrite_proofs.

Lemma parse_split_join ls : Forall (no_char nl) ls ->
  parsePeersFromConf (split_lines (join (String nl "") ls)) = parsePeersFromConf ls.
Proof.
  intros H. destruct ls as [|l ls]; [done|]. by apply parsePeers_trims, trims_split_join.
Qed.

(** Names and networks the generator writes: they end no line. *)
Record writable (ifaceName : string) (updates : list (string * list string)) (nets : list string) (masq : list masq_iface)
    : Prop := Writable {
  wr_iface : no_char nl ifaceName;
  wr_updates : forall k ips, mget k updates = Some ips -> Forall csv_token ips;
  wr_nets : Forall (no_char nl) nets;
  wr_masq : Forall (fun n => no_char nl (mi_name n) /\ no_char nl (mi_cidr n)) masq }.

Lemma hook_cmds_no_nl iface updates nets masq isUp : writable iface updates nets masq ->
  Forall (no_char nl) (hc_routes (hookCmds iface nets masq isUp) ++ hc_masq (hookCmds iface nets masq isUp)).
Proof.
  intros [Hi _ Hn Hm]. unfold hookCmds. cbn [hc_routes hc_masq]. rewrite Forall_app, !Forall_fmap. unfold compose. split.
  - rewrite sort_strings_perm. eapply Forall_impl; [exact Hn|]. intros net Hnet. cbn beta in Hnet.
    destruct isUp; by repeat apply no_char_app.
  - eapply Forall_impl; [exact Hm|]. intros mi Hmi. cbn beta in Hmi. destruct Hmi as [Hname Hcidr]. destruct isUp; by repeat apply no_char_app.
Qed.

Lemma marker_no_nl iface updates nets masq : writable iface updates nets masq -> no_char nl (masqMarkerLine masq).
Proof.
  intros [_ _ _ Hm]. unfold masqMarkerLine. cbv zeta. apply no_char_app; [done|]. apply no_char_app; [done|].
  destruct (decide _); [done|]. apply no_char_join; [done|]. rewrite sort_strings_perm. apply Forall_forall.
  intros x Hx. rewrite elem_of_uniq in Hx. apply list_elem_of_fmap in Hx as (q & -> & Hq).
  rewrite Forall_forall in Hm. destruct (Hm q Hq). unfold masqKey. by repeat apply no_char_app.
Qed.

Lemma dedupe_subset st cmds x : x ∈ (fold_left dedupe_cmd cmds st).2 -> x ∈ st.2 \/ x ∈ cmds.
Proof.
  revert st. induction cmds as [|c cmds IH]; intros st; cbn [fold_left]; [by left|].
  intros [H|H]%IH; [|right; by right]. unfold dedupe_cmd in H. destruct (decide _); [by left|].
  cbn in H. apply elem_of_app in H as [?|H]; [by left|]. right. apply list_elem_of_singleton in H. subst. by left.
Qed.

Lemma rewrite_hook_no_nl iface updates nets masq owned isUp raw : writable iface updates nets masq -> no_char nl raw ->
  no_char nl (rewrite_hook iface nets masq owned isUp raw).
Proof.
  intros Hw Hraw. unfold rewrite_hook. cbv zeta. apply no_char_app; [by destruct isUp|]. apply no_char_app; [done|].
  apply no_char_join; [done|]. apply Forall_forall. intros x Hx.
  apply dedupe_subset in Hx as [Hx|Hx]; [by apply not_elem_of_nil in Hx|].
  apply elem_of_app in Hx as [Hx|Hx].
  - apply elem_of_bfilter in Hx as [Hx _]. apply list_elem_of_fmap in Hx as (y & -> & Hy).
    apply sall_trim. eapply sall_split; [|exact Hy]. by apply sall_trim, sall_after_eq.
  - pose proof (hook_cmds_no_nl _ _ _ _ isUp Hw) as Hc. rewrite Forall_forall in Hc. by apply Hc.
Qed.

Lemma rewrite_lines_no_nl lines iface updates nets masq : writable iface updates nets masq ->
  Forall (no_char nl) lines -> Forall (no_char nl) (rewrite_lines lines iface updates nets masq).
Proof.
  intros Hw Hlines. unfold rewrite_lines. cbv zeta. generalize (uniq
    (((λ n : masq_iface, masqKey (mi_name n) (mi_cidr n)) <$> masq) ++ parseMasqMarker lines)) as owned. intros owned.
  assert (forall ls st, Forall (no_char nl) ls -> Forall (no_char nl) (rw_out st) ->
    Forall (no_char nl) (rw_out (fold_left (rewrite_line iface updates nets masq owned) ls st))) as Hfold.
  { intros ls. induction ls as [|raw ls IH]; intros st Hls Hst; [done|]. inversion_clear Hls as [|?? Hraw Hrest].
    cbn [fold_left]. apply IH; [done|]. unfold rewrite_line. cbv zeta.
    repeat match goal with |- Forall _ (rw_out (if ?b then _ else _)) => destruct b end; cbn [rw_out]; try done;
      rewrite ?Forall_app; split_and!; rewrite ?Forall_singleton; try done.
    - apply no_char_app; [done|]. apply no_char_join; [done|]. unfold mhas in *.
      destruct (mget (rw_key st) updates) as [ips|] eqn:Hup; [|done]. cbn.
      eapply Forall_impl; [by eapply wr_updates|]. apply csv_token_no_nl.
    - destruct (_ && _); [|done]. apply Forall_singleton. by eapply marker_no_nl.
    - by eapply rewrite_hook_no_nl. }
  specialize (Hfold lines (RewriteState false "" [] false) Hlines (Forall_nil_2 _)).
  unfold inject_hooks. cbv zeta. destruct (_ && _); [|done]. unfold splice.
  rewrite !Forall_app. split_and!; [by apply Forall_take| |by apply Forall_drop].
  unfold missing_hooks. cbv zeta. pose proof (marker_no_nl _ _ _ _ Hw).
  rewrite Forall_app. split; (destruct (_ && _); [|done]); rewrite ?Forall_cons, ?Forall_nil; split_and!; try done;
    (apply no_char_app; [done|]; apply no_char_join; [done|]; by eapply hook_cmds_no_nl).
Qed.

(** The peers of the rewritten file. *)
Lemma rewritten_peers confText iface updates nets masq :
  writable iface updates nets masq -> conf_regular updates (split_lines confText) = true ->
  parsePeersFromConf (split_lines (rewriteHubConf (split_lines confText) iface updates nets masq)) =
  apply_updates updates (parsePeersFromConf (split_lines confText)).
Proof.
  intros Hw Hreg. unfold rewriteHubConf. rewrite parse_split_join by (apply rewrite_lines_no_nl; [done|apply split_lines_no_nl_all]).
  unfold rewrite_lines. cbv zeta. rewrite inject_parse. apply rewrite_parse; [apply Hw|done].
Qed.

(** ** The hub's AllowedIPs are what the metadata wants *)

Lemma split_join_sep sep l : l <> [] -> Forall (no_char sep) l -> split_char sep (join (String sep "") l) = l.
Proof.
  intros Hne H. induction H as [|x l Hx Hl IH]; [done|]. destruct l as [|y l]; [by apply split_char_no|].
  change (join (String sep "") (x :: y :: l)) with (x +:+ String sep "" +:+ join (String sep "") (y :: l)).
  rewrite sapp_String, sapp_nil_l, split_char_app by done. by rewrite IH.
Qed.

Lemma sorted_text_perm l k : Forall csv_token l -> Forall csv_token k -> sorted_text l = sorted_text k -> l ≡ₚ k.
Proof.
  intros Hl Hk H. rewrite <- (sort_strings_perm l), <- (sort_strings_perm k).
  rewrite <- (sort_strings_perm l) in Hl. rewrite <- (sort_strings_perm k) in Hk. unfold sorted_text in H.
  revert Hl Hk H. generalize (sort_strings l) (sort_strings k). clear l k. intros l k Hl Hk H.
  assert (forall l, Forall csv_token l -> Forall (no_char ",") l) as Hc.
  { intros l0 Hl0. eapply Forall_impl; [exact Hl0|]. apply csv_token_no_comma. }
  assert (forall l, Forall csv_token l -> join "," l = "" -> l = []) as Hnil.
  { intros [|x l0] Hl0 Hj; [done|]. pose proof (split_join_sep "," (x :: l0) ltac:(done) (Hc _ Hl0)) as Hs.
    change (String "," "") with "," in Hs. rewrite Hj in Hs. injection Hs as <- <-. inversion_clear Hl0 as [|?? [? _] _]. done. }
  destruct l as [|x l].
  { symmetry in H. apply Hnil in H; [|done]. by subst. }
  destruct k as [|y k]; [apply Hnil in H; done|].
  rewrite <- (split_join_sep "," (x :: l)), <- (split_join_sep "," (y :: k)) by auto.
  change (String "," "") with ",". by rewrite H.
Qed.

Lemma sorted_text_eq l k : l ≡ₚ k -> sorted_text l = sorted_text k.
Proof. intros H. unfold sorted_text. by rewrite (sort_strings_unique _ _ H). Qed.

(** What one sync decides for one peer. *)
Definition new_ips (linksMeta : list (string * link_meta)) (iface : string) (p : string * list string) : list string :=
  match mget (iface +:+ ":" +:+ p.1) linksMeta with
  | None => p.2
  | Some meta => if decide (sorted_text (wanted_ips meta p.2) = sorted_text p.2) then p.2 else wanted_ips meta p.2
  end.

Lemma buildPeerUpdates_effective peerMap linksMeta iface p : NoDup peerMap.*1 -> p ∈ peerMap ->
  effective_ips (buildPeerUpdates peerMap linksMeta iface) p = new_ips linksMeta iface p.
Proof.
  unfold buildPeerUpdates.
  assert (forall l acc, NoDup l.*1 -> (forall q, q ∈ l -> mget q.1 acc = None) ->
    (forall q, q ∈ l -> effective_ips (fold_left (build_peer_update linksMeta iface) l acc) q = new_ips linksMeta iface q) /\
    (forall k, k ∉ l.*1 -> mget k (fold_left (build_peer_update linksMeta iface) l acc) = mget k acc)) as Hfold.
  { intros l. induction l as [|q l IH]; intros acc Hnd Hacc; [split; [by intros ? ?%not_elem_of_nil|done]|].
    rewrite fmap_cons in Hnd. apply NoDup_cons in Hnd as [Hq Hnd]. cbn [fold_left].
    assert (forall k, k <> q.1 -> mget k (build_peer_update linksMeta iface acc q) = mget k acc) as Hother.
    { intros k Hk. unfold build_peer_update. destruct (mget _ linksMeta); [|done]. cbv zeta. destruct (decide _); [done|].
      by apply mget_mset_ne. }
    destruct (IH (build_peer_update linksMeta iface acc q) Hnd) as [H1 H2].
    { intros r Hr. rewrite Hother; [apply Hacc; by right|]. intros He. apply Hq. rewrite <- He. by apply list_elem_of_fmap_2. }
    split.
    - intros r [-> |Hr]%elem_of_cons; [|by apply H1]. unfold effective_ips. rewrite H2 by done.
      unfold build_peer_update, new_ips. destruct (mget _ linksMeta) as [meta|]; [|by rewrite Hacc by (by left)].
      cbv zeta. destruct (decide _); [by rewrite Hacc by (by left)|]. by rewrite mget_mset_eq.
    - intros k Hk. rewrite fmap_cons, not_elem_of_cons in Hk. destruct Hk. rewrite H2 by done. by apply Hother. }
  intros Hnd Hp. by apply Hfold.
Qed.

Lemma peers_NoDup lines : NoDup (parsePeersFromConf lines).*1.
Proof.
  unfold parsePeersFromConf.
  assert (forall st, NoDup (ps_peers st).*1 -> NoDup (flush_peer st).*1) as Hfl.
  { intros st H. unfold flush_peer. destruct (_ && _); [by apply NoDup_mset|done]. }
  assert (forall ls st, NoDup (ps_peers st).*1 -> NoDup (ps_peers (fold_left parse_peer_line ls st)).*1) as Hf.
  { intros ls. induction ls as [|l ls IH]; intros st H; [done|]. cbn [fold_left]. apply IH. unfold parse_peer_line. cbv zeta.
    repeat match goal with |- NoDup (ps_peers (if ?b then _ else _)).*1 => destruct b end; cbn [ps_peers]; auto. }
  apply Hfl, Hf. constructor.
Qed.

Lemma peers_tokens lines p : Forall (no_char nl) lines -> p ∈ parsePeersFromConf lines -> Forall csv_token p.2.
Proof.
  unfold parsePeersFromConf. intros Hlines.
  assert (forall st, Forall (fun p => Forall csv_token p.2) (ps_peers st) -> Forall csv_token (ps_ips st) ->
    Forall (fun p => Forall csv_token p.2) (flush_peer st)) as Hfl.
  { intros st H Hi. unfold flush_peer. destruct (_ && _); [by apply Forall_mset|done]. }
  assert (forall ls st, Forall (no_char nl) ls -> Forall (fun p => Forall csv_token p.2) (ps_peers st) ->
    Forall csv_token (ps_ips st) ->
    Forall (fun p => Forall csv_token p.2) (ps_peers (fold_left parse_peer_line ls st)) /\
    Forall csv_token (ps_ips (fold_left parse_peer_line ls st))) as Hf.
  { intros ls. induction ls as [|l ls IH]; intros st Hls H Hi; [done|]. inversion_clear Hls as [|?? Hl Hrest].
    cbn [fold_left]. apply IH; [done|..]; unfold parse_peer_line; cbv zeta;
      repeat match goal with |- Forall _ (_ (if ?b then _ else _)) => destruct b end; cbn [ps_peers ps_ips]; auto.
    destruct (decide _); [|done]. apply csv_list_tokens. by apply sall_trim, sall_after_eq, sall_trim. }
  destruct (Hf lines (PeerScan [] false "" []) Hlines) as [H1 H2]; [constructor..|].
  specialize (Hfl _ H1 H2). rewrite Forall_forall in Hfl. apply Hfl.
Qed.

(** Metadata networks are plain values (what the sanitizers store). *)
Definition meta_plain (linksMeta : list (string * link_meta)) : Prop :=
  forall id meta nets, mget id linksMeta = Some meta -> lm_importedNetworks meta = Some nets -> Forall csv_token nets.

Lemma elem_of_wanted meta current x : x ∈ wanted_ips meta current <->
  (x ∈ current /\ isHostRoute x = true) \/
  (normalizeLinkType (lm_type meta) <> "client" /\ isHostRoute x = false /\
   match lm_importedNetworks meta with
   | Some nets => x ∈ nets /\ isAcceptableNetworkPrefix x = true
   | None => x ∈ current
   end).
Proof.
  unfold wanted_ips. cbv zeta. destruct (decide _) as [Hc|Hc]; rewrite elem_of_uniq.
  - rewrite elem_of_bfilter. tauto.
  - rewrite elem_of_app, elem_of_bfilter. destruct (lm_importedNetworks meta);
      rewrite elem_of_bfilter, ?andb_true_iff, negb_true_iff; tauto.
Qed.

Lemma wanted_tokens meta current id linksMeta : meta_plain linksMeta -> mget id linksMeta = Some meta ->
  Forall csv_token current -> Forall csv_token (wanted_ips meta current).
Proof.
  intros Hm Hid Hc. rewrite Forall_forall in Hc. apply Forall_forall. intros x Hx%elem_of_wanted.
  destruct Hx as [[Hx _]|(_ & _ & Hx)]; [by apply Hc|].
  destruct (lm_importedNetworks meta) as [nets|] eqn:Hn; [|by apply Hc].
  specialize (Hm id meta nets Hid Hn). rewrite Forall_forall in Hm. by apply Hm, Hx.
Qed.

Lemma wanted_NoDup meta current : NoDup (wanted_ips meta current).
Proof. unfold wanted_ips. cbv zeta. destruct (decide _); apply NoDup_uniq. Qed.

(** A list that is wanted is wanted again. *)
Lemma wanted_idemp meta current ips : ips ≡ₚ wanted_ips meta current -> wanted_ips meta ips ≡ₚ ips.
Proof.
  intros Hp. apply NoDup_Permutation; [apply wanted_NoDup|rewrite Hp; apply wanted_NoDup|].
  intros x. pose proof (elem_of_wanted meta ips x) as H1. pose proof (elem_of_wanted meta current x) as H2.
  assert (x ∈ ips <-> x ∈ wanted_ips meta current) as H3 by (by rewrite Hp). revert H1 H2 H3.
  generalize (x ∈ wanted_ips meta ips) (x ∈ wanted_ips meta current) (x ∈ ips) (x ∈ current).
  intros A B C D. destruct (isHostRoute x), (lm_importedNetworks meta); intuition congruence.
Qed.

Lemma new_ips_wanted linksMeta iface p meta : meta_plain linksMeta -> Forall csv_token p.2 ->
  mget (iface +:+ ":" +:+ p.1) linksMeta = Some meta -> new_ips linksMeta iface p ≡ₚ wanted_ips meta p.2.
Proof.
  intros Hm Hp Hid. unfold new_ips. rewrite Hid. destruct (decide _) as [Heq|]; [|done].
  apply sorted_text_perm; [done|by eapply wanted_tokens|done].
Qed.

Lemma buildPeerUpdates_tokens peerMap linksMeta iface : meta_plain linksMeta ->
  (forall p, p ∈ peerMap -> Forall csv_token p.2) ->
  forall k ips, mget k (buildPeerUpdates peerMap linksMeta iface) = Some ips -> Forall csv_token ips.
Proof.
  intros Hm. unfold buildPeerUpdates.
  assert (forall l acc, (forall p, p ∈ l -> Forall csv_token p.2) ->
    (forall k ips, mget k acc = Some ips -> Forall csv_token ips) ->
    forall k ips, mget k (fold_left (build_peer_update linksMeta iface) l acc) = Some ips -> Forall csv_token ips) as Hf.
  { intros l. induction l as [|p l IH]; intros acc Hl Hacc; [done|]. cbn [fold_left]. apply IH; [intros q Hq; apply Hl; by right|].
    intros k ips. unfold build_peer_update. destruct (mget _ linksMeta) as [meta|] eqn:Hid; [|apply Hacc].
    cbv zeta. destruct (decide _); [apply Hacc|]. rewrite mget_mset. case_decide; [|apply Hacc].
    intros [= <-]. eapply wanted_tokens; [done..|apply Hl; by left]. }
  intros Hp. apply Hf; [done|]. intros k ips. done.
Qed.

Lemma drift_step live updates p q : q.1 <> p.1 \/ q = p ->
  effective_ips (drift_update live updates p) q = effective_ips updates q.
Proof.
  intros Hq. unfold drift_update, mhas, effective_ips. destruct (mget p.1 updates) eqn:Hu; [done|].
  destruct (mget p.1 live); [|done]. destruct (decide _); [done|]. rewrite mget_mset.
  destruct Hq as [Hq| ->]; [by rewrite decide_False by congruence|]. rewrite decide_True by done. by rewrite Hu.
Qed.

Lemma drift_effective live updates peerMap p : NoDup peerMap.*1 -> p ∈ peerMap ->
  effective_ips (fold_left (drift_update live) peerMap updates) p = effective_ips updates p.
Proof.
  intros Hnd Hp. assert (forall l u, (forall q, q ∈ l -> q ∈ peerMap) ->
    effective_ips (fold_left (drift_update live) l u) p = effective_ips u p) as Hf; [|by apply Hf].
  intros l. induction l as [|q l IH]; intros u Hl; [done|]. cbn [fold_left].
  rewrite IH by (intros r Hr; apply Hl; by right). apply drift_step.
  destruct (decide (p.1 = q.1)) as [Heq|]; [|by left]. right.
  assert (q ∈ peerMap) as Hq by (apply Hl; by left). destruct p as [k v], q as [k' v']. cbn in Heq. subst k'.
  apply elem_of_mget in Hp, Hq; congruence.
Qed.

Lemma drift_tokens live peerMap updates : (forall p, p ∈ peerMap -> Forall csv_token p.2) ->
  (forall k ips, mget k updates = Some ips -> Forall csv_token ips) ->
  forall k ips, mget k (fold_left (drift_update live) peerMap updates) = Some ips -> Forall csv_token ips.
Proof.
  revert updates. induction peerMap as [|p l IH]; intros u Hp Hu; [done|]. cbn [fold_left].
  apply IH; [intros q Hq; apply Hp; by right|]. intros k ips. unfold drift_update. destruct (mhas p.1 u); [apply Hu|].
  destruct (mget p.1 live); [|apply Hu]. destruct (decide _); [apply Hu|]. rewrite mget_mset. case_decide; [|apply Hu].
  intros [= <-]. apply Hp. by left.
Qed.

(** ** The networks routed into the tunnel *)

Lemma elem_of_excludeConnectedNets net nets nics :
  net ∈ excludeConnectedNets nets nics <-> net ∈ nets /\ forall n, n ∈ nics -> cidrContains (nic_cidr n) net = false.
Proof.
  unfold excludeConnectedNets. revert nets. induction nics as [|n nics IH]; intros nets; cbn [fold_left]; [set_solver|].
  rewrite IH, elem_of_bfilter, negb_true_iff. setoid_rewrite elem_of_cons. naive_solver.
Qed.

Lemma nic_masq_names tunnel nets nics m : m ∈ (fold_left (nic_masq tunnel nets) nics ([], [])).2 ->
  (exists n, n ∈ nics /\ mi_name m = nic_name n) /\
  (mi_cidr m = tunnel \/ mi_cidr m ∈ nets \/ exists n, n ∈ nics /\ mi_cidr m = nic_cidr n).
Proof.
  set (P m := (exists n, n ∈ nics /\ mi_name m = nic_name n) /\
    (mi_cidr m = tunnel \/ mi_cidr m ∈ nets \/ exists n, n ∈ nics /\ mi_cidr m = nic_cidr n)).
  assert (forall n st cidr, n ∈ nics -> (cidr = tunnel \/ cidr ∈ nets \/ exists n, n ∈ nics /\ cidr = nic_cidr n) ->
    Forall P st.2 -> Forall P (add_masq (nic_name n) st cidr).2) as Hadd.
  { intros n st cidr Hn Hc Hst. unfold add_masq. cbv zeta. destruct (set_has _ _); [done|]. cbn [snd].
    apply Forall_app. split; [done|]. apply Forall_singleton. unfold P. cbn. eauto. }
  assert (forall n k st, n ∈ nics -> (forall c, c ∈ k -> c ∈ nets) -> Forall P st.2 ->
    Forall P (fold_left (add_masq (nic_name n)) k st).2) as Hk.
  { intros n k st Hn. revert st. induction k as [|c k IHk]; intros st Hk Hst; [done|]. cbn [fold_left].
    apply IHk; [intros d Hd; apply Hk; by right|]. apply Hadd; [done| |done]. right. left. apply Hk. by left. }
  assert (forall l st, (forall n, n ∈ l -> n ∈ nics) -> Forall P st.2 -> Forall P (fold_left (nic_masq tunnel nets) l st).2) as Hf.
  { intros l. induction l as [|n l IH]; intros st Hl Hst; [done|]. cbn [fold_left].
    assert (n ∈ nics) as Hn by (apply Hl; by left). apply IH; [intros q Hq; apply Hl; by right|].
    unfold nic_masq. apply Hk; [done| |apply Hadd; [done|by left|apply Hadd; [done|right; right; eauto|done]]].
    intros c [Hc _]%elem_of_bfilter. by rewrite elem_of_sort_strings in Hc. }
  intros Hm. specialize (Hf nics ([], []) (fun n Hn => Hn) (Forall_nil_2 _)). rewrite Forall_forall in Hf. by apply Hf.
Qed.

Lemma tunnelSubnet_no_nl lines : no_char nl (tunnelSubnetFromConfLines lines).
Proof.
  unfold tunnelSubnetFromConfLines. cbv zeta. destruct (bfind _ lines) as [l|]; [|done]. cbn [mbind option_bind].
  destruct (find_cidr l) as [m|]; [|done]. cbn [mbind option_bind].
  destruct (canonicalizeIpv4Network m) as [c|] eqn:Hc; [|done]. cbn [default from_option].
  rewrite canonicalizeIpv4Network_eq in Hc. destruct (decide _); [done|]. apply canonicalCidr_token in Hc.
  eapply sall_impl; [|exact Hc]. intros d Hd. unfold is_char. apply negb_true_iff, bool_decide_eq_false. by intros ->.
Qed.

Section sync.
Variable confText : string.
Variable linksMeta : list (string * link_meta).
Variable iface : string.
Variable live : list (string * list string).
Variable nics : list nic.

Let plan := syncHubPlan confText linksMeta iface live nics.
Let peers := parsePeersFromConf (split_lines confText).

Lemma plan_writable : meta_plain linksMeta -> no_char nl iface ->
    Forall (fun n => no_char nl (nic_name n) /\ no_char nl (nic_cidr n)) nics ->
    writable iface (hp_updates plan) (hp_routes plan) (hp_masq plan).
Proof.
  intros Hm Hi Hnics. rewrite Forall_forall in Hnics. subst plan.
  assert (forall p, p ∈ peers -> Forall csv_token p.2) as Hp by (intros p; apply peers_tokens, split_lines_no_nl_all).
  assert (forall k ips, mget k (hp_updates (syncHubPlan confText linksMeta iface live nics)) = Some ips -> Forall csv_token ips) as Hu.
  { apply drift_tokens; [exact Hp|]. by apply buildPeerUpdates_tokens. }
  assert (Forall (no_char nl) (hp_routes (syncHubPlan confText linksMeta iface live nics))) as Hr.
  { apply Forall_forall. intros net Hnet. cbn [hp_routes syncHubPlan] in Hnet.
    apply elem_of_excludeConnectedNets in Hnet as [Hnet _]. unfold peer_route_nets in Hnet.
    rewrite elem_of_uniq in Hnet. apply list_elem_of_bind in Hnet as (p & Hnet & Hin).
    apply elem_of_bfilter in Hnet as [Hnet _]. apply csv_token_no_nl. unfold effective_ips in Hnet.
    destruct (mget p.1 _) as [ips|] eqn:Hup.
    - apply Hu in Hup. rewrite Forall_forall in Hup. by apply Hup.
    - specialize (Hp p Hin). rewrite Forall_forall in Hp. by apply Hp. }
  split; [done|done|done|]. apply Forall_forall. intros m Hmm. apply nic_masq_names in Hmm as [(n & Hn & ->) Hc].
  split; [by apply Hnics|]. destruct Hc as [-> |[Hc|(q & Hq & ->)]]; [apply tunnelSubnet_no_nl| |by apply Hnics].
  rewrite Forall_forall in Hr. by apply Hr.
Qed.

Lemma plan_peers : meta_plain linksMeta -> no_char nl iface ->
    Forall (fun n => no_char nl (nic_name n) /\ no_char nl (nic_cidr n)) nics ->
    conf_regular (hp_updates plan) (split_lines confText) = true ->
    parsePeersFromConf (split_lines (hp_text plan)) = apply_updates (hp_updates plan) peers /\
    forall p, p ∈ peers -> effective_ips (hp_updates plan) p = new_ips linksMeta iface p.
Proof.
  intros Hm Hi Hnics Hreg. split.
  - apply rewritten_peers; [by apply plan_writable|done].
  - intros p Hp. subst plan. cbn [hp_updates syncHubPlan].
    rewrite drift_effective by (apply peers_NoDup || done). apply buildPeerUpdates_effective; [apply peers_NoDup|done].
Qed.
End sync.

Lemma no_updates peerMap linksMeta iface :
  (forall p meta, p ∈ peerMap -> mget (iface +:+ ":" +:+ p.1) linksMeta = Some meta -> wanted_ips meta p.2 ≡ₚ p.2) ->
  buildPeerUpdates peerMap linksMeta iface = [].
Proof.
  intros H. unfold buildPeerUpdates.
  enough (forall acc, fold_left (build_peer_update linksMeta iface) peerMap acc = acc) by done.
  revert H. induction peerMap as [|p l IH]; intros H acc; [done|]. cbn [fold_left].
  assert (build_peer_update linksMeta iface acc p = acc) as ->; [|apply IH; intros q meta Hq; apply H; by right].
  unfold build_peer_update. destruct (mget _ linksMeta) as [meta|] eqn:Hid; [|done]. cbv zeta.
  by rewrite decide_True by (apply sorted_text_eq, H; [by left|done]).
Qed.

(** C8. The hub is authoritative over files whose peer blocks have the shape it writes itself
    ([conf_regular]: the key comes first, once, and a peer that is to change has AllowedIPs), when
    the metadata's networks are plain values ([meta_plain], what its sanitizers store). After a
    sync the configuration file, read back, has the same peers, each managed one with exactly
    the AllowedIPs its metadata wants (host routes only for a client, the metadata's networks for
    a site, none shorter than /8), the unmanaged ones unchanged; a second sync finds nothing to
    change; and the networks routed into the tunnel are the networks of that file that are not
    connected to a NIC. Peers of another shape are left as they are (late_key_stays_stale,
    peer_without_ips_stays_so). *)
Theorem hub_sync_follows_metadata confText linksMeta iface live nics :
  let plan := syncHubPlan confText linksMeta iface live nics in
  let peers := parsePeersFromConf (split_lines confText) in
  let peers' := parsePeersFromConf (split_lines (hp_text plan)) in
  meta_plain linksMeta -> no_char nl iface ->
  Forall (fun n => no_char nl (nic_name n) /\ no_char nl (nic_cidr n)) nics ->
  conf_regular (hp_updates plan) (split_lines confText) = true ->
  peers'.*1 = peers.*1 /\
  (forall k ips, (k, ips) ∈ peers -> exists ips', (k, ips') ∈ peers' /\
     match mget (iface +:+ ":" +:+ k) linksMeta with
     | None => ips' = ips
     | Some meta => ips' ≡ₚ wanted_ips meta ips
     end) /\
  buildPeerUpdates peers' linksMeta iface = [] /\
  (forall net, net ∈ hp_routes plan <->
     (exists k ips, (k, ips) ∈ peers' /\ net ∈ ips /\ isHostRoute net = false /\ isValidNetwork net = true) /\
     forall n, n ∈ nics -> cidrContains (nic_cidr n) net = false).
Proof.
  cbv zeta. intros Hm Hi Hn Hreg. destruct (plan_peers _ _ _ _ _ Hm Hi Hn Hreg) as [-> Heff].
  set (plan := syncHubPlan confText linksMeta iface live nics) in *. set (peers := parsePeersFromConf (split_lines confText)) in *.
  assert (forall p, p ∈ peers -> Forall csv_token p.2) as Htok by (intros p; apply peers_tokens, split_lines_no_nl_all).
  assert (forall p meta, p ∈ peers -> mget (iface +:+ ":" +:+ p.1) linksMeta = Some meta ->
    effective_ips (hp_updates plan) p ≡ₚ wanted_ips meta p.2) as Hw.
  { intros p meta Hp Hid. rewrite Heff by done. apply new_ips_wanted; auto. }
  split_and!.
  - unfold apply_updates. rewrite <- list_fmap_compose. done.
  - intros k ips Hp. exists (effective_ips (hp_updates plan) (k, ips)).
    split; [unfold apply_updates; apply list_elem_of_fmap; by exists (k, ips)|].
    destruct (mget _ linksMeta) as [meta|] eqn:Hid; [by apply (Hw (k, ips))|].
    rewrite Heff by done. unfold new_ips. cbn [fst]. by rewrite Hid.
  - apply no_updates. intros p' meta (p & -> & Hp)%list_elem_of_fmap Hid. cbn [fst snd] in *.
    eapply wanted_idemp. by apply Hw.
  - intros net. cbn [hp_routes syncHubPlan plan]. unfold plan. cbn [hp_routes syncHubPlan]. rewrite elem_of_excludeConnectedNets.
    unfold peer_route_nets. rewrite elem_of_uniq, list_elem_of_bind.
    setoid_rewrite elem_of_bfilter. setoid_rewrite andb_true_iff. setoid_rewrite negb_true_iff. split.
    + intros [(p & (Hnet & Hh & Hv) & Hp) Hc]. split; [|done]. exists p.1, (effective_ips (hp_updates plan) p).
      split; [unfold apply_updates; apply list_elem_of_fmap; by exists p|done].
    + intros [(k & ips & (p & [= -> ->] & Hp)%list_elem_of_fmap & Hnet & Hh & Hv) Hc]. split; [|done]. by exists p.
Qed.

Definition ex_conf : string := join (String nl "")
  ["[Interface]"; "Address = 10.10.0.1/24"; "PostUp = iptables -A FORWARD -i wg0 -j ACCEPT"; "";
   "# site"; "[Peer]"; "PublicKey = AAA="; "AllowedIPs = 10.10.0.2/32, 192.168.1.0/24";
   "# client"; "[Peer]"; "PublicKey = BBB="; "AllowedIPs = 10.10.0.3/32"; ""].

Definition ex_meta : list (string * link_meta) :=
  [("wg0:AAA=", LinkMeta "site" "site-to-site" (Some ["192.168.2.0/24"; "10.10.5.0/24"; "0.0.0.0/1"]));
   ("wg0:BBB=", LinkMeta "phone" "client" (Some ["192.168.2.0/24"]))].

Definition ex_nics : list nic := [Nic "eth1" "10.10.5.9/24"].

Lemma ex_sync : let plan := syncHubPlan ex_conf ex_meta "wg0" [] ex_nics in
  hp_updates plan = [("AAA=", ["10.10.0.2/32"; "192.168.2.0/24"; "10.10.5.0/24"])] /\
  hp_routes plan = ["192.168.2.0/24"].
Proof. split; vm_compute; reflexivity. Qed.

Lemma hub_sync_follows_metadata_witness :
  buildPeerUpdates (parsePeersFromConf (split_lines (hp_text (syncHubPlan ex_conf ex_meta "wg0" [] ex_nics)))) ex_meta "wg0" = [].
Proof.
  apply (hub_sync_follows_metadata ex_conf ex_meta "wg0" [] ex_nics); [|reflexivity| |vm_compute; reflexivity].
  - intros id meta nets Hid Hn. cbn in Hid. repeat case_decide; try discriminate Hid; injection Hid as <-; injection Hn as <-;
      repeat constructor; discriminate.
  - repeat constructor.
Defined.

(** A peer whose AllowedIPs stand before its key, or that has none, is planned for an update by every
    sync and never written. *)
Definition ex_late_key : string := join (String nl "")
  ["[Interface]"; "Address = 10.10.0.1/24"; "[Peer]"; "AllowedIPs = 10.10.0.2/32, 192.168.1.0/24"; "PublicKey = AAA="; ""].
Definition ex_no_ips : string := join (String nl "") ["[Interface]"; "Address = 10.10.0.1/24"; "[Peer]"; "PublicKey = AAA="; ""].

Lemma late_key_stays_stale : let plan := syncHubPlan ex_late_key ex_meta "wg0" [] ex_nics in
  hp_updates plan = [("AAA=", ["10.10.0.2/32"; "192.168.2.0/24"; "10.10.5.0/24"])] /\
  parsePeersFromConf (split_lines (hp_text plan)) = [("AAA=", ["10.10.0.2/32"; "192.168.1.0/24"])].
Proof. split; vm_compute; reflexivity. Qed.

Lemma peer_without_ips_stays_so : let plan := syncHubPlan ex_no_ips ex_meta "wg0" [] ex_nics in
  hp_updates plan = [("AAA=", ["192.168.2.0/24"; "10.10.5.0/24"])] /\
  parsePeersFromConf (split_lines (hp_text plan)) = [("AAA=", [])].
Proof. split; vm_compute; reflexivity. Qed.

(** ** Removing a peer *)

Lemma mdel_mset_eq {V} (k : string) (v : V) m : mdel k (mset k v m) = mdel k m.
Proof.
  unfold mdel. induction m as [|[q w] m IH]; cbn [mset].
  - by rewrite filter_cons_False by (cbn; tauto).
  - destruct (decide (q = k)) as [->|Hq].
    + by rewrite !filter_cons_False by (cbn; tauto).
    + by rewrite !filter_cons_True, IH by done.
Qed.

Lemma mdel_mset_ne {V} (k j : string) (v : V) m : j <> k -> mdel k (mset j v m) = mset j v (mdel k m).
Proof.
  intros Hj. unfold mdel. induction m as [|[q w] m IH]; cbn [mset].
  - by rewrite filter_cons_True by done.
  - destruct (decide (q = j)) as [->|Hq].
    + rewrite !filter_cons_True by done. cbn [mset]. by rewrite decide_True.
    + destruct (decide (q = k)) as [->|Hqk].
      * by rewrite !filter_cons_False, IH by (cbn; tauto).
      * rewrite !filter_cons_True, IH by done. cbn [mset]. by rewrite decide_False.
Qed.

Section remove_proofs.
Variable target : string.
Hypothesis Htarget : target <> "".

Let st0 := PeerScan [] false "" [].
Let scan (out : list string) : peer_scan := fold_left parse_peer_line (reverse out) st0.

Lemma blank_neutral l st : is_blank l = true -> parse_peer_line st l = st.
Proof. unfold is_blank, parse_peer_line. rewrite bool_decide_eq_true. intros ->. by destruct st. Qed.

Lemma comment_neutral l st : is_comment l = true -> parse_peer_line st l = st.
Proof.
  unfold is_comment. intros H. rewrite (parse_peer_line_trim st l (trim l)) by (by rewrite trim_idemp). by apply marker_neutral.
Qed.

Lemma scan_pop p out : (forall l st, p l = true -> parse_peer_line st l = st) -> scan (pop_while p out) = scan out.
Proof.
  intros Hp. unfold scan. induction out as [|l out IH]; [done|]. cbn [pop_while]. destruct (p l) eqn:Hl; [|done].
  rewrite IH, reverse_cons, fold_left_app. cbn [fold_left]. by rewrite Hp.
Qed.

Record remove_agree (ps : peer_scan) (rm : remove_state) (bs : block_state) : Prop := RemoveAgree {
  ra_in_rm : rm_inPeer rm = ps_inPeer ps;
  ra_in_bs : bs_inPeer bs = ps_inPeer ps;
  ra_key : bs_key bs = ps_key ps;
  ra_out : ps_inPeer ps = false ->
    ps_inPeer (scan (rm_out rm)) = false /\ ps_peers (scan (rm_out rm)) = mdel target (ps_peers ps);
  ra_block : ps_inPeer ps = true ->
    flush_peer (scan (rm_out rm)) = mdel target (ps_peers ps) /\
    fold_left parse_peer_line (rm_buffer rm) (scan (rm_out rm)) =
      PeerScan (mdel target (ps_peers ps)) true (ps_key ps) (ps_ips ps) /\
    rm_skip rm = bool_decide (ps_key ps = target) }.

Lemma remove_flush ps rm bs : remove_agree ps rm bs ->
    flush_peer (scan (flush_buffer rm)) = mdel target (flush_peer ps).
Proof.
  intros [H1 H2 H3 H4 H5]. unfold flush_buffer. rewrite H1. destruct (ps_inPeer ps) eqn:Hin.
  - destruct (H5 eq_refl) as (Hf & Hb & Hs). rewrite Hs. unfold flush_peer at 2. rewrite Hin. cbn [andb].
    case_bool_decide as Hk.
    + rewrite !scan_pop by (apply blank_neutral || apply comment_neutral). rewrite Hf, Hk.
      unfold nonempty. rewrite bool_decide_eq_true_2 by done. by rewrite mdel_mset_eq.
    + unfold scan in *. rewrite reverse_app, reverse_involutive, fold_left_app, Hb. unfold flush_peer.
      cbn [ps_inPeer ps_key ps_ips ps_peers andb]. destruct (nonempty (ps_key ps)); [|done]. by rewrite mdel_mset_ne.
  - destruct (H4 eq_refl) as [Hq Hp]. unfold flush_peer. by rewrite Hq, Hin.
Qed.

Lemma scan_cons l out : scan (l :: out) = parse_peer_line (scan out) l.
Proof. unfold scan. by rewrite reverse_cons, fold_left_app. Qed.

Lemma remove_step ps rm bs raw lines : remove_agree ps rm bs -> blocks_regular [] bs (raw :: lines) = true ->
    exists bs', blocks_regular [] bs' lines = true /\ remove_agree (parse_peer_line ps raw) (remove_line target rm raw) bs'.
Proof.
  intros Ha Hreg. pose proof (remove_flush _ _ _ Ha) as Hf. cbn [blocks_regular] in Hreg.
  unfold remove_line. destruct (is_header (trim raw)) eqn:Hh.
  - apply andb_true_iff in Hreg as [_ Hreg]. eexists. split; [exact Hreg|]. unfold is_header in Hh.
    unfold parse_peer_line. destruct (decide (trim raw = "[Peer]")) as [Ht|Ht].
    + rewrite bool_decide_eq_true_2 by done. constructor; cbn [rm_inPeer bs_inPeer bs_key ps_inPeer ps_key rm_out rm_buffer rm_skip
        ps_peers ps_ips]; try done. intros _. split; [done|]. split; [|by rewrite bool_decide_eq_false_2].
      cbn [fold_left]. unfold parse_peer_line. rewrite decide_True by done. by rewrite Hf.
    + rewrite Hh, bool_decide_eq_false_2 by done. constructor; cbn [rm_inPeer bs_inPeer bs_key ps_inPeer ps_key rm_out ps_peers]; try done.
      intros _. rewrite scan_cons. unfold parse_peer_line. rewrite decide_False by done. rewrite Hh. cbn. by rewrite Hf.
  - assert (trim raw <> "[Peer]") as Ht by (intros Ht; by rewrite Ht in Hh). rewrite decide_False by done.
    destruct Ha as [H1 H2 H3 H4 H5]. rewrite H2 in Hreg. unfold is_header in Hh. rewrite Hh, H1.
    destruct (ps_inPeer ps) eqn:Hin; cbn [negb] in Hreg.
    + apply andb_true_iff in Hreg as [Hl Hreg]. unfold line_regular in Hl.
      apply andb_true_iff in Hl as [Hpk%eqb_prop Hai%eqb_prop]. rewrite Hpk, Hai in *.
      destruct (H5 eq_refl) as (Hf0 & Hb & Hs). rewrite Hs.
      destruct (decide (line_key (trim raw) = "PublicKey")) as [Hk|Hk].
      * rewrite (bool_decide_eq_true_2 _ Hk) in *. rewrite !andb_true_iff, !negb_true_iff in Hreg.
        destruct Hreg as [[[Hnone Hal] Hv] Hreg]. eexists. split; [exact Hreg|].
        rewrite (setting_step ps (trim raw)) by auto. rewrite Hk. rewrite decide_True by done. rewrite decide_False by done.
        rewrite H3 in Hnone. unfold nonempty in Hnone. apply bool_decide_eq_false in Hnone. apply dec_stable in Hnone.
        rewrite Hnone. rewrite (bool_decide_eq_false_2 ("" = target)) by done.
        constructor; cbn [rm_inPeer bs_inPeer bs_key ps_inPeer ps_key rm_out rm_buffer rm_skip ps_peers ps_ips]; try done.
        intros _. split_and!; [done| |done]. rewrite fold_left_app, Hb. cbn [fold_left].
        rewrite (setting_step _ (trim raw)) by (cbn; auto). rewrite Hk. rewrite decide_True by done. by rewrite decide_False.
      * rewrite (bool_decide_eq_false_2 _ Hk) in *. cbn [andb]. rewrite orb_false_r.
        destruct (decide (line_key (trim raw) = "AllowedIPs")) as [Hal|Hal].
        { rewrite (bool_decide_eq_true_2 _ Hal) in *. apply andb_true_iff in Hreg as [_ Hreg]. eexists. split; [exact Hreg|].
          rewrite (setting_step ps (trim raw)) by auto. rewrite Hal. rewrite decide_False by done. rewrite decide_True by done.
          constructor; cbn [rm_inPeer bs_inPeer bs_key ps_inPeer ps_key rm_out rm_buffer rm_skip ps_peers ps_ips]; try done.
          intros _. split_and!; [done| |done]. rewrite fold_left_app, Hb. cbn [fold_left].
          rewrite (setting_step _ (trim raw)) by (cbn; auto). rewrite Hal. rewrite decide_False by done. by rewrite decide_True. }
        rewrite (bool_decide_eq_false_2 _ Hal) in *. exists bs. split; [done|]. rewrite parse_neutral by done.
        constructor; cbn [rm_inPeer rm_out rm_buffer rm_skip]; try (done || congruence).
        intros _. split_and!; [done| |done]. rewrite fold_left_app, Hb. cbn [fold_left]. by rewrite parse_neutral.
    + exists bs. split; [done|]. rewrite neutral_step by done. constructor; cbn [rm_inPeer rm_out]; try (done || congruence).
      intros _. destruct (H4 eq_refl) as [Hq Hp]. rewrite scan_cons. by rewrite neutral_step.
Qed.

Lemma remove_lines_parse lines : conf_regular [] lines = true ->
    parsePeersFromConf (remove_lines target lines) = mdel target (parsePeersFromConf lines).
Proof.
  intros Hreg. assert (forall lines ps rm bs, blocks_regular [] bs lines = true -> remove_agree ps rm bs ->
    flush_peer (scan (flush_buffer (fold_left (remove_line target) lines rm))) =
    mdel target (flush_peer (fold_left parse_peer_line lines ps))) as Hf.
  { clear Hreg lines. intros lines. induction lines as [|raw lines IH]; intros ps rm bs Hreg Ha; [by eapply remove_flush|].
    cbn [fold_left]. destruct (remove_step _ _ _ _ _ Ha Hreg) as (bs' & Hreg' & Ha'). by eapply IH. }
  pose proof (Hf lines st0 (RemoveState [] false false []) (BlockState false "" false) Hreg) as H.
  rewrite <- (scan_pop is_blank) in H by apply blank_neutral. apply H. by constructor.
Qed.
End remove_proofs.

Lemma remove_lines_no_nl target lines : Forall (no_char nl) lines -> Forall (no_char nl) (remove_lines target lines).
Proof.
  intros Hlines.
  assert (forall p out, Forall (no_char nl) out -> Forall (no_char nl) (pop_while p out)) as Hpop.
  { intros p out H. induction H as [|l out Hl Ho IH]; [done|]. cbn [pop_while]. destruct (p l); [done|by constructor]. }
  assert (forall st, Forall (no_char nl) (rm_out st) -> Forall (no_char nl) (rm_buffer st) -> Forall (no_char nl) (flush_buffer st)) as Hfl.
  { intros st Ho Hb. unfold flush_buffer. destruct (rm_inPeer st); [|done]. destruct (rm_skip st); [by apply Hpop, Hpop|].
    apply Forall_app. split; [by apply Forall_reverse|done]. }
  unfold remove_lines. apply Forall_reverse, Hpop.
  assert (forall ls st, Forall (no_char nl) ls -> Forall (no_char nl) (rm_out st) -> Forall (no_char nl) (rm_buffer st) ->
    Forall (no_char nl) (flush_buffer (fold_left (remove_line target) ls st))) as Hf; [|apply Hf; [done|constructor|constructor]].
  intros ls. induction ls as [|l ls IH]; intros st Hls Ho Hb; [by apply Hfl|]. inversion_clear Hls as [|?? Hl Hrest].
  cbn [fold_left]. apply IH; [done|..]; unfold remove_line; cbv zeta;
    repeat match goal with |- Forall _ (_ (if ?b then _ else _)) => destruct b end; cbn [rm_out rm_buffer]; auto.
  apply Forall_app. split; [done|by apply Forall_singleton].
Qed.

(** Removing a peer removes exactly that peer: the file read back has every other peer with
    its AllowedIPs, in the same order, and the removed key no more. *)
Theorem removePeer_removes_one confText target : target <> "" -> conf_regular [] (split_lines confText) = true ->
  parsePeersFromConf (split_lines (removePeerFromConf confText target)) =
  mdel target (parsePeersFromConf (split_lines confText)).
Proof.
  intros Ht Hreg. unfold removePeerFromConf. rewrite <- remove_lines_parse by done.
  set (out := remove_lines target (split_lines confText)).
  assert (Forall (no_char nl) out) as Hout by (apply remove_lines_no_nl, split_lines_no_nl_all).
  assert (parsePeersFromConf (out ++ [""]) = parsePeersFromConf out) as <-.
  { unfold parsePeersFromConf. rewrite fold_left_app. cbn [fold_left]. by rewrite blank_neutral. }
  destruct out as [|l out]; [done|].
  assert (join (String nl "") (l :: out) +:+ String nl "" = join (String nl "") ((l :: out) ++ [""])) as ->.
  { clear. revert l. induction out as [|m out IH]; intros l; [cbn [join app]; by rewrite sapp_nil_r|].
    change (join (String nl "") (l :: m :: out)) with (l +:+ String nl "" +:+ join (String nl "") (m :: out)).
    change ((l :: m :: out) ++ [""]) with (l :: (m :: out) ++ [""]).
    change (join (String nl "") (l :: (m :: out) ++ [""])) with (l +:+ String nl "" +:+ join (String nl "") ((m :: out) ++ [""])).
    by rewrite <- IH, !sapp_assoc. }
  apply parse_split_join. apply Forall_app. split; [done|]. by apply Forall_singleton.
Qed.

Lemma removePeer_removes_one_witness :
  parsePeersFromConf (split_lines (removePeerFromConf ex_conf "AAA=")) = [("BBB=", ["10.10.0.3/32"])].
Proof.
  etransitivity; [apply removePeer_removes_one; [discriminate|vm_compute; reflexivity]|vm_compute; reflexivity].
Defined.

(** ** Rotating a key *)

Lemma group_sections_lines lines : (s ← group_sections lines; sec_lines s) = lines.
Proof.
  unfold group_sections. cbv zeta.
  assert (forall ls st, (s ← (fold_left group_line ls st).1 ++ [(fold_left group_line ls st).2]; sec_lines s) =
    (s ← st.1 ++ [st.2]; sec_lines s) ++ ls) as Hf.
  { intros ls. induction ls as [|l ls IH]; intros st; [by rewrite app_nil_r|]. cbn [fold_left]. rewrite IH.
    unfold group_line. cbv zeta. destruct (starts_with "[" (trim l)); cbn [fst snd sec_lines];
      rewrite !bind_app; cbn [mbind list_bind sec_lines]; rewrite ?app_nil_r, <- ?app_assoc; done. }
  by rewrite Hf.
Qed.

Lemma rotate_fold old new secs st :
  fold_left (rotate_section old new) secs st =
  if st.1 || negb (existsb (has_key old) secs) then (st.1, st.2 ++ (s ← secs; sec_lines s))
  else (fold_left (rotate_section old new) secs st).
Proof.
  revert st. induction secs as [|s secs IH]; intros [b out]; cbn [fst snd].
  - cbn. by rewrite orb_true_r, app_nil_r.
  - cbn [fold_left existsb]. destruct (b || negb (has_key old s || existsb (has_key old) secs)) eqn:Hb; [|done].
    unfold rotate_section at 2. cbn [fst snd].
    assert (negb b && has_key old s = false) as -> by (by destruct b, (has_key old s)).
    rewrite IH. cbn [fst snd]. assert (b || negb (existsb (has_key old) secs) = true) as ->.
    { destruct b, (has_key old s), (existsb (has_key old) secs); done. }
    cbn. by rewrite app_assoc.
Qed.

(** A key rotation touches one peer block: when no block has the old key the file is
    unchanged and the caller is told so; otherwise only the first block with that key is
    rewritten, and no preshared key is left in it. *)
Theorem rotation_touches_one_block lines old new :
  let '(swapped, out) := rotate_lines lines old new in
  (swapped = false -> out = lines /\ existsb (has_key old) (group_sections lines) = false) /\
  (swapped = true -> exists pre s post,
     group_sections lines = pre ++ s :: post /\ existsb (has_key old) pre = false /\ has_key old s = true /\
     out = (t ← pre; sec_lines t) ++ (l ← sec_lines s; rotate_line old new l) ++ (t ← post; sec_lines t) /\
     forall l, l ∈ (l ← sec_lines s; rotate_line old new l) -> keyOf l = "presharedkey" -> l = "PublicKey = " +:+ new).
Proof.
  unfold rotate_lines.
  assert (forall secs out, let r := fold_left (rotate_section old new) secs (false, out) in
    (existsb (has_key old) secs = false /\ r = (false, out ++ (s ← secs; sec_lines s))) \/
    exists pre s post, secs = pre ++ s :: post /\ existsb (has_key old) pre = false /\ has_key old s = true /\
      r = (true, out ++ (t ← pre; sec_lines t) ++ (l ← sec_lines s; rotate_line old new l) ++ (t ← post; sec_lines t))) as Hf.
  { intros secs. induction secs as [|s secs IH]; intros out; cbv zeta; [left; cbn; by rewrite app_nil_r|].
    cbn [fold_left existsb]. unfold rotate_section at 2 4. cbn [fst snd negb andb]. destruct (has_key old s) eqn:Hs.
    - right. exists [], s, secs. split_and!; [done..|]. rewrite rotate_fold. cbn [fst snd orb]. by rewrite <- app_assoc.
    - destruct (IH (out ++ sec_lines s)) as [[He ->]|(pre & t & post & -> & Hpre & Ht & ->)].
      + left. split; [done|]. cbn. by rewrite <- app_assoc.
      + right. exists (s :: pre), t, post. split_and!; [done| |done|]; cbn; [by rewrite Hs|]. by rewrite <- !app_assoc. }
  destruct (Hf (group_sections lines) []) as [[He ->]|(pre & s & post & Hg & Hpre & Hs & ->)].
  - split; [|done]. intros _. cbn [app]. by rewrite group_sections_lines.
  - split; [done|]. intros _. exists pre, s, post. split_and!; [done..|].
    intros l (raw & Hl & _)%list_elem_of_bind Hk. unfold rotate_line in Hl. cbv zeta in Hl.
    destruct (decide _) as [|Hne]; [by apply not_elem_of_nil in Hl|].
    destruct (decide _); apply list_elem_of_singleton in Hl; [done|congruence].
Qed.
