(* ===== verification/AgentText.v ===== *)
(** Agent configuration texts: the text functions of [backend/internal/agent.js].

    The configuration an agent polls is a wg-quick file. The hub reads the AllowedIPs of the
    hub peer (the first [[Peer]] section), rewrites them and the endpoint, and regenerates
    the PostUp and PostDown hooks from the tunnel subnet and the networks routed. *)

From S2P Require Import Prelude.
From S2P Require Import JsString.
From S2P Require Import JsRegex.
From S2P Require Import Cidr.
From S2P Require Import JsVal.
From S2P Require Import ConfText.
From S2P Require Import IngressRules.

Local Open Scope Z_scope.

(** * Errors and small validators *)

Inductive agent_error : Type :=
| BadCidr (value : string)
| BadWgInterface
| BadMode
| BadAgentName
| BadOptionalString (field : string)
| BadMgmtUrl
| AclNotArray
| AclBadCidr (net : string)
| AclShortPrefix (net : string)
| ConfigTextGiven
| AmbiguousLinkName (name : string) (matches : nat)
| StillRestricted
| OpenNotApplied
| ForceWhileOnline
| BadPublicHostValue
| ItemNotFound (id : Z)
| InterfaceLocked
| HasDirectLinks
| ConfigTextNotString
| BadHubUrl
| HubUrlNotHttps
| NoPendingToken.

#[export] Instance agent_error_eq_dec : EqDecision agent_error.
Proof. solve_decision. Defined.

Definition VALID_WG_INTERFACE_RE : re := RSeq (rlit "wg") D13.

Definition sanitizeWgInterface (name : jsval) : result agent_error string :=
  if truthy name then
    match name with
    | VStr n => throw_if (negb (re_test VALID_WG_INTERFACE_RE n)) BadWgInterface;; Ok n
    | _ => Throw BadWgInterface
    end
  else Ok "wg0".

Definition CIDR_RE : re := IPV4_HOST_CIDR_RE.

Definition assertCIDR (value : string) : result agent_error unit :=
  throw_if (negb (re_test CIDR_RE value)) (BadCidr value).

(** * The hub's hooks *)

Definition fwd_rules (verb iface : string) : list string :=
  ["iptables -" +:+ verb +:+ " FORWARD -i " +:+ iface +:+ " -j ACCEPT";
   "iptables -" +:+ verb +:+ " FORWARD -o " +:+ iface +:+ " -j ACCEPT"].

Definition hub_rules (verb iface tunnelSubnet : string) (localNets remoteSiteNets : list string) : list string :=
  ((fun net => "iptables -t nat -" +:+ verb +:+ " POSTROUTING -s " +:+ tunnelSubnet +:+ " -d " +:+ net +:+ " -j RETURN") <$> localNets) ++
  ["iptables -t nat -" +:+ verb +:+ " POSTROUTING ! -o " +:+ iface +:+ " -s " +:+ tunnelSubnet +:+ " -j MASQUERADE"] ++
  ((fun net => "iptables -t nat -" +:+ verb +:+ " POSTROUTING ! -o " +:+ iface +:+ " -s " +:+ net +:+ " -j MASQUERADE") <$> remoteSiteNets).

Definition route_rules (verb iface : string) (peerNets : list string) : list string :=
  (fun net => "ip route " +:+ verb +:+ " " +:+ net +:+ " dev " +:+ iface +:+ " 2>/dev/null || true") <$> peerNets.

Definition post_up_cmds (iface tunnelSubnet : string) (remoteSiteNets peerNets localNets : list string) : list string :=
  ["sysctl -w net.ipv4.ip_forward=1"] ++ fwd_rules "A" iface ++ hub_rules "A" iface tunnelSubnet localNets remoteSiteNets ++
  route_rules "add" iface peerNets.

Definition post_down_cmds (iface tunnelSubnet : string) (remoteSiteNets peerNets localNets : list string) : list string :=
  fwd_rules "D" iface ++ hub_rules "D" iface tunnelSubnet localNets remoteSiteNets ++ route_rules "del" iface peerNets.

(** Every network passes [assertCIDR] before it is used. *)
Definition check_hook_nets (tunnelSubnet : string) (remoteSiteNets peerNets localNets : list string) : result agent_error unit :=
  mapM assertCIDR (tunnelSubnet :: localNets ++ remoteSiteNets ++ peerNets);; Ok tt.

Definition buildHubPostUp (tunnelSubnet : string) (remoteSiteNets peerNets : list string) (iface : jsval) (localNets : list string)
    : result agent_error string :=
  iface ← sanitizeWgInterface iface;
  check_hook_nets tunnelSubnet remoteSiteNets peerNets localNets;;
  Ok (join "; " (post_up_cmds iface tunnelSubnet remoteSiteNets peerNets localNets)).

Definition buildHubPostDown (tunnelSubnet : string) (remoteSiteNets peerNets : list string) (iface : jsval) (localNets : list string)
    : result agent_error string :=
  iface ← sanitizeWgInterface iface;
  check_hook_nets tunnelSubnet remoteSiteNets peerNets localNets;;
  Ok (join "; " (post_down_cmds iface tunnelSubnet remoteSiteNets peerNets localNets)).

(** * The tunnel subnet *)

Definition is_ip_char (c : ascii) : bool := is_digit c || is_char "." c.

Fixpoint take_ip (s : string) : string :=
  match s with "" => "" | String c r => if is_ip_char c then String c (take_ip r) else "" end.

(** An [Address] setting at the head of [s], in any case: the address digits and the prefix length. *)
Definition match_address (s : string) : option (string * string) :=
  let r := trim_start s in
  if decide (to_lower (stake 7 r) = "address") then
    match trim_start (sdrop 7 r) with
    | String "=" r =>
        let r := trim_start r in
        let ip := take_ip r in
        match sdrop (String.length ip) r with
        | String "/" r => let d := leading_digits r in
                          if bool_decide (ip <> "" /\ d <> "") then Some (ip, d) else None
        | _ => None
        end
    | _ => None
    end
  else None.

(** The first match at a start of line. *)
Fixpoint find_address (at_start : bool) (s : string) : option (string * string) :=
  match (if at_start then match_address s else None) with
  | Some m => Some m
  | None => match s with "" => None | String c r => find_address (is_char nl c || is_char cr c) r end
  end.

Definition DEFAULT_TUNNEL : string := "10.10.0.0/24".

Definition subnet_of (m : option (string * string)) : string :=
  match m with
  | None => DEFAULT_TUNNEL
  | Some (ip, d) =>
      let mask := num_of_digits d in
      if (mask <? 1) || (32 <? mask) then DEFAULT_TUNNEL
      else default DEFAULT_TUNNEL (canonicalizeIpv4Network (ip +:+ "/" +:+ (if mask =? 32 then "24" else showZ mask)))
  end.

Definition deriveTunnelSubnet (configText : string) : string := subnet_of (find_address true configText).

(** * The hub peer *)

Definition is_peer_header (t : string) : bool := bool_decide (t = "[Peer]").

(** [peerIdx === 1 && inPeer] and an AllowedIPs line. *)
Definition hub_allowed (idx : nat) (inPeer : bool) (t : string) : bool :=
  inPeer && Nat.eqb idx 1 && starts_with "AllowedIPs" t.

Fixpoint parse_hub (idx : nat) (inPeer : bool) (lines : list string) : list string :=
  match lines with
  | [] => []
  | raw :: lines =>
      let t := trim raw in
      if is_peer_header t then parse_hub (S idx) true lines
      else if starts_with "[" t then parse_hub idx false lines
      else (if hub_allowed idx inPeer t then csv_list (trim (after_eq t)) else []) ++ parse_hub idx inPeer lines
  end.

Definition parseHubPeerAllowedIPs (configText : string) : list string := parse_hub 0 false (split_lines configText).

Fixpoint rewrite_allowed (newAllowedIPs : list string) (idx : nat) (inPeer replaced : bool) (lines : list string) : list string :=
  match lines with
  | [] => []
  | raw :: lines =>
      let t := trim raw in
      if is_peer_header t then raw :: rewrite_allowed newAllowedIPs (S idx) true replaced lines
      else if starts_with "[" t then raw :: rewrite_allowed newAllowedIPs idx false replaced lines
      else if hub_allowed idx inPeer t then
        if replaced then rewrite_allowed newAllowedIPs idx inPeer replaced lines
        else ("AllowedIPs = " +:+ join ", " newAllowedIPs) :: rewrite_allowed newAllowedIPs idx inPeer true lines
      else raw :: rewrite_allowed newAllowedIPs idx inPeer replaced lines
  end.

Definition rewriteHubPeerAllowedIPs (configText : string) (newAllowedIPs : list string) : string :=
  join (String nl "") (rewrite_allowed newAllowedIPs 0 false false (split_lines configText)).

(** * The endpoint *)

(** The tail of the pattern: blanks, a colon, the port, and an optional comment to the end. *)
Definition port_tail (s : string) : option (string * string) :=
  match trim_start s with
  | String ":" r =>
      let r := trim_start r in
      let d := leading_digits r in
      if decide (d = "") then None
      else match trim_start (sdrop (String.length d) r) with
           | "" => Some (d, "")
           | String "#" c => if sall (fun x => negb (is_char nl x) && negb (is_char cr x)) c then Some (d, String "#" c) else None
           | _ => None
           end
  | _ => None
  end.

(** The shortest comment-free host that is followed by the tail. *)
Fixpoint split_host (s : string) : option (string * (string * string)) :=
  match port_tail s with
  | Some pc => Some ("", pc)
  | None =>
      match s with
      | "" => None
      | String c r => if decide (c = "#"%char) then None
                      else match split_host r with Some (h, pc) => Some (String c h, pc) | None => None end
      end
  end.

(** An [Endpoint] line as host, port and comment. *)
Definition endpoint_match (t : string) : option (string * (string * string)) :=
  if starts_with "Endpoint" t then
    match trim_start (sdrop 8 t) with
    | String "=" r => split_host (trim_start r)
    | _ => None
    end
  else None.

Definition is_ip_host (h : string) : bool := re_test IPV4_RE h || starts_with "[" h.

(** The line of the hub peer after the rewrite, when the endpoint is to be rewritten. *)
Definition new_endpoint (hubHost : string) (raw : string) : string :=
  match endpoint_match (trim raw) with
  | None => raw
  | Some (host, (port, comment)) =>
      if is_ip_host host && negb (is_ip_host hubHost) then raw
      else if decide (to_lower host = to_lower hubHost) then raw
      else "Endpoint = " +:+ hubHost +:+ ":" +:+ port +:+ (if decide (comment = "") then "" else " " +:+ comment)
  end.

Fixpoint rewrite_endpoint (hubHost : string) (idx : nat) (inPeer replaced : bool) (lines : list string) : list string :=
  match lines with
  | [] => []
  | raw :: lines =>
      let t := trim raw in
      if is_peer_header t then raw :: rewrite_endpoint hubHost (S idx) true replaced lines
      else if starts_with "[" t then raw :: rewrite_endpoint hubHost idx false replaced lines
      else if inPeer && Nat.eqb idx 1 && negb replaced && starts_with "Endpoint" t then
        new_endpoint hubHost raw ::
          rewrite_endpoint hubHost idx inPeer (bool_decide (is_Some (endpoint_match t))) lines
      else raw :: rewrite_endpoint hubHost idx inPeer replaced lines
  end.

(** [hubHost] is [None] when it is not configured. *)
Definition rewriteHubPeerEndpoint (configText : string) (hubHost : option string) : string :=
  match hubHost with
  | None => configText
  | Some h =>
      if bool_decide (configText = "" \/ h = "") then configText
      else join (String nl "") (rewrite_endpoint h 0 false false (split_lines configText))
  end.

(** [_sanitizeHubHost] *)
Definition is_hub_host_char (c : ascii) : bool := is_alnum c || one_of ["."; "-"; "_"; ":"; "["; "]"]%char c.

Definition sanitizeHubHost (raw : string) : option string :=
  let v := trim raw in
  if bool_decide (v = "") || negb (sall is_hub_host_char v) then None
  else Some (if has_char ":" v && negb (starts_with "[" v) then "[" +:+ v +:+ "]" else v).

(** * Normalisation *)

Definition is_hook (t : string) : bool := starts_with "PostUp" t || starts_with "PostDown" t.

Record norm_state := NormState { no_in : bool; no_table : bool; no_out : list string }.

Definition norm_line (st : norm_state) (raw : string) : norm_state :=
  let t := trim raw in
  let inInterface := if decide (t = "[Interface]") then true else if starts_with "[" t then false else no_in st in
  let hasTable := no_table st || (inInterface && starts_with "Table" t) in
  if inInterface && starts_with "PrivateKey" t && negb (includes "(hidden)" t)
  then NormState inInterface hasTable (no_out st ++ ["PrivateKey = (hidden)"])
  else if is_hook t then NormState inInterface hasTable (no_out st)
  else NormState inInterface hasTable (no_out st ++ [raw]).

Definition is_net_ip (c : string) : bool := negb (ends_with "/32" c) && negb (ends_with "/128" c).

Definition insert_index (out : list string) : nat :=
  let peerIdx := find_index (fun l => is_peer_header (trim l)) out in
  if 0 <? peerIdx then Z.to_nat peerIdx else length out.

Definition normalize_lines (configText : string) (remoteSiteNets : list string) (iface : jsval) (localNets : list string)
    : result agent_error (list string) :=
  let st := fold_left norm_line (split_lines configText) (NormState false false []) in
  let tunnelSubnet := deriveTunnelSubnet configText in
  let peerNets := bfilter is_net_ip (parseHubPeerAllowedIPs configText) in
  up ← buildHubPostUp tunnelSubnet remoteSiteNets peerNets iface localNets;
  down ← buildHubPostDown tunnelSubnet remoteSiteNets peerNets iface localNets;
  let toInsert := (if no_table st then [] else ["Table = off"]) ++ ["PostUp = " +:+ up; "PostDown = " +:+ down] in
  let i := insert_index (no_out st) in
  Ok (take i (no_out st) ++ toInsert ++ drop i (no_out st)).

Definition normalizeAgentConfig (configText : string) (remoteSiteNets : list string) (iface : jsval) (localNets : list string)
    : result agent_error string :=
  if decide (configText = "") then Ok ""
  else join (String nl "") <$> normalize_lines configText remoteSiteNets iface localNets.

Definition stripToTunnelOnly (configText : string) (iface : jsval) : result agent_error string :=
  let tunnelSubnet := deriveTunnelSubnet configText in
  let hostRoutes := bfilter (fun c => negb (is_net_ip c)) (parseHubPeerAllowedIPs configText) in
  let safe := sort_strings (uniq (tunnelSubnet :: hostRoutes)) in
  normalizeAgentConfig (rewriteHubPeerAllowedIPs configText safe) [] iface [].

(** The length of the prefix of a key setting at the head of [s]: blanks, the key, the
    equals sign and blanks, in any case. *)
Definition secret_match (s : string) : option nat :=
  let r := trim_start s in
  let key := if decide (to_lower (stake 10 r) = "privatekey") then Some 10%nat
             else if decide (to_lower (stake 12 r) = "presharedkey") then Some 12%nat else None in
  match key with
  | None => None
  | Some n =>
      match trim_start (sdrop n r) with
      | String "=" v => Some (String.length s - String.length (trim_start v))%nat
      | _ => None
      end
  end.

Definition is_eol (c : ascii) : bool := is_char nl c || is_char cr c.

Fixpoint line_len (s : string) : nat :=
  match s with "" => 0%nat | String c r => if is_eol c then 0%nat else S (line_len r) end.

(** The global multi-line replacement: [skip] characters of the last match are left. *)
Fixpoint redact (skip : nat) (at_start : bool) (s : string) : string :=
  match s with
  | "" => ""
  | String c r =>
      match skip with
      | S k => redact k (is_eol c) r
      | O =>
          match (if at_start then secret_match s else None) with
          | Some n => stake n s +:+ "(hidden)" +:+ redact (n + line_len (sdrop n s) - 1) (is_eol c) r
          | None => String c (redact 0 (is_eol c) r)
          end
      end
  end.

Definition redactConfigSecrets (configText : string) : string := redact 0 true configText.

Example redact_ex :
  redactConfigSecrets (join (String nl "") ["[Interface]"; " privatekey = abc"; "PresharedKey=x"; "Address = 1"]) =
  join (String nl "") ["[Interface]"; " privatekey = (hidden)"; "PresharedKey=(hidden)"; "Address = 1"].
Proof. vm_compute. reflexivity. Qed.

(** * The hub peer: reading back what was written *)

(** The AllowedIPs lines of the hub peer, trimmed: all the readers depend on. *)
Fixpoint hub_lines (idx : nat) (inPeer : bool) (lines : list string) : list string :=
  match lines with
  | [] => []
  | raw :: lines =>
      let t := trim raw in
      if is_peer_header t then hub_lines (S idx) true lines
      else if starts_with "[" t then hub_lines idx false lines
      else (if hub_allowed idx inPeer t then [t] else []) ++ hub_lines idx inPeer lines
  end.

Lemma parse_hub_lines idx b ls : parse_hub idx b ls = t ← hub_lines idx b ls; csv_list (trim (after_eq t)).
Proof.
  revert idx b. induction ls as [|x ls IH]; intros idx b; [done|]. cbn [parse_hub hub_lines].
  destruct (is_peer_header _); [apply IH|]. destruct (starts_with "[" _); [apply IH|].
  rewrite IH. by destruct (hub_allowed _ _ _).
Qed.

Lemma hub_lines_trims idx b l k : trim <$> l = trim <$> k -> hub_lines idx b l = hub_lines idx b k.
Proof.
  revert idx b k. induction l as [|x l IH]; intros idx b [|y k]; try done.
  intros [= Hx Hl]. cbn [hub_lines]. rewrite Hx.
  destruct (is_peer_header _); [by apply IH|]. destruct (starts_with "[" _); [by apply IH|].
  f_equal. by apply IH.
Qed.

(** Lines the hub peer's reader ignores. *)
Definition plain_line (l : string) : Prop :=
  is_peer_header (trim l) = false /\ starts_with "[" (trim l) = false.
Definition other_line (l : string) : Prop := plain_line l /\ starts_with "AllowedIPs" (trim l) = false.

Lemma starts_with_cons a p b s :
  starts_with (String a p) (String b s) = if ascii_dec a b then starts_with p s else false.
Proof. done. Qed.

Lemma starts_with_false_by c p s d : starts_with (String d p) s = true -> c <> d -> starts_with (String c "") s = false.
Proof.
  intros (t & ->)%starts_with_split Hc. rewrite sapp_String, starts_with_cons.
  destruct (ascii_dec c d); [congruence|reflexivity].
Qed.

Lemma starts_with_plain d p l : starts_with (String d p) (trim l) = true -> d <> "["%char -> plain_line l.
Proof.
  intros H Hd. pose proof (starts_with_false_by "["%char p _ d H ltac:(congruence)) as Hb. split; [|done].
  unfold is_peer_header. case_bool_decide as He; [|done]. rewrite He in Hb. done.
Qed.

Lemma starts_with_other d p l q : starts_with (String d (String q p)) (trim l) = true -> d <> "["%char -> d <> "A"%char ->
  other_line l.
Proof.
  intros H Hd Ha. split; [by eapply starts_with_plain|]. apply starts_with_split in H as (t & ->).
  rewrite sapp_String, (starts_with_cons "A" "llowedIPs").
  destruct (ascii_dec "A" d); [congruence|reflexivity].
Qed.

Lemma hub_lines_other idx b l k : Forall other_line l -> hub_lines idx b (l ++ k) = hub_lines idx b k.
Proof.
  induction 1 as [|x l [[Hp Hb] Ha] _ IH]; [done|]. cbn [app hub_lines]. rewrite Hp, Hb.
  unfold hub_allowed. by rewrite Ha, !andb_false_r.
Qed.

(** Does the hub peer have an AllowedIPs line? *)
Definition has_allowed (idx : nat) (inPeer : bool) (lines : list string) : bool :=
  bool_decide (hub_lines idx inPeer lines <> []).

Definition allowed_line (ips : list string) : string := "AllowedIPs = " +:+ join ", " ips.

Lemma allowed_line_starts ips : starts_with "AllowedIPs" (trim (allowed_line ips)) = true.
Proof. by apply (starts_with_setting "AllowedIPs"). Qed.

Lemma allowed_line_plain ips : plain_line (allowed_line ips).
Proof. eapply (starts_with_plain "A"%char "llowedIPs"); [apply allowed_line_starts|done]. Qed.

Lemma allowed_line_csv ips : Forall csv_token ips -> csv_list (trim (after_eq (trim (allowed_line ips)))) = ips.
Proof. 
  intros H. unfold allowed_line.
  change ("AllowedIPs = " +:+ join ", " ips) with ("AllowedIPs" +:+ " = " +:+ join ", " ips).
  rewrite setting_csv by done. by apply csv_list_join.
Qed.

Lemma hub_lines_rewrite ips ls idx b r :
  hub_lines idx b (rewrite_allowed ips idx b r ls) =
  if negb r && has_allowed idx b ls then [trim (allowed_line ips)] else [].
Proof.
  unfold has_allowed. revert idx b r. induction ls as [|x ls IH]; intros idx b r; [by destruct r|].
  cbn [rewrite_allowed hub_lines].
  destruct (is_peer_header (trim x)) eqn:Hp; [cbn [hub_lines]; by rewrite Hp, IH|].
  destruct (starts_with "[" (trim x)) eqn:Hb; [cbn [hub_lines]; by rewrite Hp, Hb, IH|].
  destruct (hub_allowed idx b (trim x)) eqn:Hh; cbn [orb].
  - destruct r; [apply IH|]. destruct (allowed_line_plain ips) as [Hp' Hb'].
    fold (allowed_line ips). cbn [hub_lines]. rewrite Hp', Hb', IH. cbn [negb andb]. rewrite app_nil_r.
    unfold hub_allowed in *. rewrite allowed_line_starts. by destruct (b && Nat.eqb idx 1).
  - cbn [hub_lines]. by rewrite Hp, Hb, Hh, IH.
Qed.

Lemma rewrite_allowed_no_nl ips ls idx b r : Forall (no_char nl) ips -> Forall (no_char nl) ls ->
  Forall (no_char nl) (rewrite_allowed ips idx b r ls).
Proof.
  intros Hi Hl. revert idx b r. induction Hl as [|x ls Hx Hl IH]; intros idx b r; [constructor|].
  cbn [rewrite_allowed]. repeat (case_match; try by constructor; auto); auto.
  constructor; [|apply IH]. apply no_char_app; [done|]. by apply no_char_join.
Qed.

Lemma rewrite_allowed_cons ips x ls r : exists y ys, rewrite_allowed ips 0 false r (x :: ls) = y :: ys.
Proof. cbn [rewrite_allowed]. unfold hub_allowed. cbn [andb]. repeat case_match; eauto. Qed.

Lemma rewrite_allowed_trims ips text : Forall csv_token ips ->
  trim <$> split_lines (rewriteHubPeerAllowedIPs text ips) = trim <$> rewrite_allowed ips 0 false false (split_lines text).
Proof.
  intros Hi. apply trims_split_join.
  - destruct (split_lines_cons text) as (x & xs & ->).
    by destruct (rewrite_allowed_cons ips x xs false) as (y & ys & ->).
  - apply rewrite_allowed_no_nl; [|apply split_lines_no_nl_all].
    eapply Forall_impl; [done|apply csv_token_no_nl].
Qed.

Lemma hub_lines_rewriteHub text ips : Forall csv_token ips ->
  hub_lines 0 false (split_lines (rewriteHubPeerAllowedIPs text ips)) =
  if has_allowed 0 false (split_lines text) then [trim (allowed_line ips)] else [].
Proof. intros Hi. by rewrite (hub_lines_trims _ _ _ _ (rewrite_allowed_trims ips text Hi)), hub_lines_rewrite. Qed.

Lemma parse_rewriteHubPeerAllowedIPs text ips : Forall csv_token ips ->
  parseHubPeerAllowedIPs (rewriteHubPeerAllowedIPs text ips) =
  if has_allowed 0 false (split_lines text) then ips else [].
Proof.
  intros Hi. unfold parseHubPeerAllowedIPs. rewrite parse_hub_lines, hub_lines_rewriteHub by done.
  destruct (has_allowed _ _ _); [|done]. cbn [mbind list_bind]. by rewrite allowed_line_csv, app_nil_r.
Qed.

(** * Normalisation as a function of the lines *)

(** The section in force after the lines. *)
Definition iface_after (b : bool) (t : string) : bool :=
  if decide (t = "[Interface]") then true else if starts_with "[" t then false else b.

Definition is_secret (b : bool) (t : string) : bool := b && starts_with "PrivateKey" t && negb (includes "(hidden)" t).

Definition HIDDEN : string := "PrivateKey = (hidden)".

Fixpoint norm_lines (b : bool) (ls : list string) : list string :=
  match ls with
  | [] => []
  | raw :: ls =>
      let t := trim raw in
      let b := iface_after b t in
      if is_secret b t then HIDDEN :: norm_lines b ls
      else if is_hook t then norm_lines b ls
      else raw :: norm_lines b ls
  end.

Fixpoint norm_table (b : bool) (ls : list string) : bool :=
  match ls with
  | [] => false
  | raw :: ls => let b := iface_after b (trim raw) in (b && starts_with "Table" (trim raw)) || norm_table b ls
  end.

Fixpoint norm_in (b : bool) (ls : list string) : bool :=
  match ls with [] => b | raw :: ls => norm_in (iface_after b (trim raw)) ls end.

Lemma norm_fold ls b tb o :
  fold_left norm_line ls (NormState b tb o) = NormState (norm_in b ls) (tb || norm_table b ls) (o ++ norm_lines b ls).
Proof.
  revert b tb o. induction ls as [|raw ls IH]; intros b tb o.
  - cbn. by rewrite orb_false_r, app_nil_r.
  - cbn [fold_left norm_in norm_table norm_lines]. unfold norm_line at 2. cbn [no_in no_table no_out].
    fold (iface_after b (trim raw)). fold (is_secret (iface_after b (trim raw)) (trim raw)).
    destruct (is_secret _ _); [|destruct (is_hook _)]; rewrite IH, <- ?app_assoc, orb_assoc; reflexivity.
Qed.

Lemma norm_lines_app b l k : norm_lines b (l ++ k) = norm_lines b l ++ norm_lines (norm_in b l) k.
Proof.
  revert b. induction l as [|raw l IH]; intros b; [done|]. cbn [app norm_lines norm_in].
  destruct (is_secret _ _); [|destruct (is_hook _)]; by rewrite IH.
Qed.

Lemma norm_table_app b l k : norm_table b (l ++ k) = norm_table b l || norm_table (norm_in b l) k.
Proof. revert b. induction l as [|raw l IH]; intros b; [done|]. cbn [app norm_table norm_in]. by rewrite IH, orb_assoc. Qed.

Lemma norm_in_app b l k : norm_in b (l ++ k) = norm_in (norm_in b l) k.
Proof. revert b. induction l as [|raw l IH]; intros b; [done|]. cbn [app norm_in]. apply IH. Qed.

(** Lines that are not section headers do not change the section. *)
Lemma iface_after_plain b l : plain_line l -> iface_after b (trim l) = b.
Proof.
  intros [_ Hb]. unfold iface_after. rewrite Hb. destruct (decide (trim l = "[Interface]")) as [He|]; [|done].
  rewrite He in Hb. done.
Qed.

Lemma hidden_other : other_line HIDDEN.
Proof. by vm_compute. Qed.

Lemma hidden_plain : plain_line HIDDEN.
Proof. apply hidden_other. Qed.

Lemma hook_other l : is_hook (trim l) = true -> other_line l.
Proof.
  unfold is_hook. rewrite orb_true_iff. intros [H|H];
    [eapply (starts_with_other "P"%char "stUp" l "o"%char)|eapply (starts_with_other "P"%char "stDown" l "o"%char)]; done.
Qed.

Lemma secret_other b l : is_secret b (trim l) = true -> other_line l.
Proof.
  unfold is_secret. rewrite !andb_true_iff. intros [[_ H] _].
  by eapply (starts_with_other "P"%char "ivateKey" l "r"%char).
Qed.

Lemma hook_plain l : is_hook (trim l) = true -> plain_line l.
Proof. intros H%hook_other. apply H. Qed.

Lemma secret_plain b l : is_secret b (trim l) = true -> plain_line l.
Proof. intros H%secret_other. apply H. Qed.

#[local] Hint Resolve hook_plain secret_plain hook_other secret_other hidden_plain hidden_other : conf.

Lemma norm_in_norm b ls : norm_in b (norm_lines b ls) = norm_in b ls.
Proof.
  revert b. induction ls as [|raw ls IH]; intros b; [done|]. cbn [norm_lines norm_in].
  destruct (is_secret _ (trim raw)) eqn:Hs; [|destruct (is_hook (trim raw)) eqn:Hh].
  - cbn [norm_in]. rewrite (iface_after_plain _ HIDDEN), (iface_after_plain _ raw) by eauto with conf. apply IH.
  - rewrite iface_after_plain by eauto with conf. apply IH.
  - cbn [norm_in]. apply IH.
Qed.

Lemma hidden_not_table : starts_with "Table" (trim HIDDEN) = false /\ is_hook (trim HIDDEN) = false /\ includes "(hidden)" (trim HIDDEN) = true.
Proof. by vm_compute. Qed.

Lemma hook_not_table t : is_hook t = true -> starts_with "Table" t = false.
Proof.
  unfold is_hook. rewrite orb_true_iff. intros [H|H]; apply starts_with_split in H as (u & ->); reflexivity.
Qed.

Lemma secret_not_table b t : is_secret b t = true -> starts_with "Table" t = false.
Proof.
  unfold is_secret. rewrite !andb_true_iff. intros [[_ H] _]. apply starts_with_split in H as (u & ->). reflexivity.
Qed.

Lemma norm_table_norm b ls : norm_table b (norm_lines b ls) = norm_table b ls.
Proof.
  revert b. induction ls as [|raw ls IH]; intros b; [done|]. cbn [norm_lines norm_table].
  destruct hidden_not_table as (Ht & _).
  destruct (is_secret _ (trim raw)) eqn:Hs; [|destruct (is_hook (trim raw)) eqn:Hh].
  - cbn [norm_table]. rewrite Ht, (secret_not_table _ _ Hs), !andb_false_r. cbn [orb].
    rewrite (iface_after_plain _ HIDDEN), (iface_after_plain _ raw) by eauto with conf. apply IH.
  - rewrite (hook_not_table _ Hh), andb_false_r. cbn [orb].
    rewrite iface_after_plain by eauto with conf. apply IH.
  - cbn [norm_table]. by rewrite IH.
Qed.

Lemma norm_lines_idemp b ls : norm_lines b (norm_lines b ls) = norm_lines b ls.
Proof.
  revert b. induction ls as [|raw ls IH]; intros b; [done|]. cbn [norm_lines].
  destruct hidden_not_table as (_ & Hh' & Hi).
  destruct (is_secret _ (trim raw)) eqn:Hs; [|destruct (is_hook (trim raw)) eqn:Hh].
  - cbn [norm_lines]. rewrite (iface_after_plain _ HIDDEN), (iface_after_plain _ raw) by eauto with conf.
    unfold is_secret. rewrite Hi, andb_false_r. by rewrite Hh', IH.
  - rewrite iface_after_plain by eauto with conf. apply IH.
  - cbn [norm_lines]. by rewrite Hs, Hh, IH.
Qed.

(** The hub peer is read through the normalisation. *)
Lemma hub_lines_norm idx p b ls : hub_lines idx p (norm_lines b ls) = hub_lines idx p ls.
Proof.
  revert idx p b. induction ls as [|raw ls IH]; intros idx p b; [done|]. cbn [norm_lines].
  assert (forall c, other_line c -> forall l, hub_lines idx p (c :: l) = hub_lines idx p l) as Hother
    by (intros c Hc l; by apply (hub_lines_other idx p [c]), Forall_cons).
  destruct (is_secret _ (trim raw)) eqn:Hs; [|destruct (is_hook (trim raw)) eqn:Hh].
  - by rewrite !Hother, IH by eauto with conf.
  - by rewrite (Hother raw), IH by eauto with conf.
  - cbn [hub_lines]. by repeat rewrite IH.
Qed.

Lemma hub_lines_insert idx p l ins k : Forall other_line ins -> hub_lines idx p (l ++ ins ++ k) = hub_lines idx p (l ++ k).
Proof.
  intros Hi. revert idx p. induction l as [|raw l IH]; intros idx p; [exact (hub_lines_other idx p ins k Hi)|].
  cbn [app hub_lines]. by rewrite !IH.
Qed.

(** * The tunnel subnet, line by line *)

Lemma trim_end_prefix s : exists u, s = trim_end s +:+ u.
Proof.
  induction s as [|c s [u IH]]; [by exists ""|]. cbn [trim_end].
  destruct (is_space c && _); [by exists (String c s)|].
  exists u. by rewrite sapp_String, <- IH.
Qed.

Lemma starts_with_trim_start p l : starts_with p (trim l) = true -> starts_with p (trim_start l) = true.
Proof.
  intros (t & Ht)%starts_with_split. destruct (trim_end_prefix (trim_start l)) as [u Hu].
  fold (trim l) in Hu. rewrite Hu, Ht, sapp_assoc. apply starts_with_app.
Qed.

Lemma trim_start_keep s t : trim_start s <> "" -> trim_start (s +:+ t) = trim_start s +:+ t.
Proof.
  induction s as [|c s IH]; [done|]. cbn [trim_start]. rewrite sapp_String. cbn [trim_start].
  destruct (is_space c); [exact IH|done].
Qed.

Lemma trim_start_blank s t : trim_start s = "" -> trim_start (s +:+ t) = trim_start t.
Proof.
  induction s as [|c s IH]; [done|]. cbn [trim_start]. rewrite sapp_String. cbn [trim_start].
  destruct (is_space c); [exact IH|done].
Qed.

Lemma take_ip_nl s r : take_ip (s +:+ String nl r) = take_ip s.
Proof. induction s as [|c s IH]; [done|]. rewrite sapp_String. cbn [take_ip]. by rewrite IH. Qed.

Lemma leading_digits_nl s r : leading_digits (s +:+ String nl r) = leading_digits s.
Proof. induction s as [|c s IH]; [done|]. rewrite sapp_String. cbn [leading_digits]. by rewrite IH. Qed.

Lemma take_ip_drop s t : sdrop (String.length (take_ip s)) (s +:+ t) = sdrop (String.length (take_ip s)) s +:+ t.
Proof.
  induction s as [|c s IH]; [by destruct t|]. rewrite sapp_String. cbn [take_ip].
  destruct (is_ip_char c); [exact IH|done].
Qed.

Lemma no_char_lower s : no_char nl (to_lower s) -> no_char nl s.
Proof.
  induction s as [|c s IH]; [done|]. unfold no_char, to_lower in *. cbn [smap sall]. rewrite sapp_String, sapp_nil_l.
  cbn [sall]. rewrite !andb_true_iff. intros [Hc Hs]. split; [|by apply IH].
  unfold is_char in *. rewrite negb_true_iff, bool_decide_eq_false in *. intros ->. by apply Hc.
Qed.

(** Enough characters without a line feed come from the first line. *)
Lemma stake_line n l r : no_char nl (stake n (l +:+ String nl r)) ->
  stake n (l +:+ String nl r) = stake n l /\ sdrop n (l +:+ String nl r) = sdrop n l +:+ String nl r.
Proof.
  revert l. induction n as [|n IH]; intros l; [by destruct l|].
  destruct l as [|c l]; [done|]. rewrite sapp_String. cbn [stake sdrop]. unfold no_char. cbn [sall].
  rewrite andb_true_iff. intros [_ H]. destruct (IH l H) as [-> ->]. done.
Qed.

Lemma length_to_lower s : String.length (to_lower s) = String.length s.
Proof.
  unfold to_lower. induction s as [|c s IH]; [done|]. cbn [smap]. rewrite sapp_String, sapp_nil_l. cbn. by rewrite IH.
Qed.

Lemma stake_app_full n s t : String.length (stake n s) = n -> stake n (s +:+ t) = stake n s.
Proof.
  revert s. induction n as [|n IH]; intros s; [by destruct s, t|]. destruct s as [|c s]; [done|].
  rewrite sapp_String. cbn. intros [= H]. f_equal. by apply IH.
Qed.

(** A line whose key is [Address]. *)
Definition address_key (l : string) : bool := bool_decide (to_lower (stake 7 (trim_start l)) = "address").

(** An [Address] key whose value would be looked for on the next lines. *)
Definition dangling (l : string) : bool :=
  address_key l &&
  match trim_start (sdrop 7 (trim_start l)) with
  | "" => true
  | String c r => is_char "=" c && bool_decide (trim_start r = "")
  end.

Lemma address_key_match l : address_key l = false -> match_address l = None.
Proof. unfold address_key, match_address. intros H%bool_decide_eq_false. by destruct (decide _). Qed.

Lemma address_key_dangling l : address_key l = false -> dangling l = false.
Proof. unfold dangling. by intros ->. Qed.

Lemma starts_with_address_key d p l : starts_with (String d p) (trim l) = true -> lower_char d <> "a"%char ->
  address_key l = false.
Proof.
  intros (t & H)%starts_with_trim_start%starts_with_split Hd. unfold address_key. rewrite H, sapp_String.
  apply bool_decide_eq_false. cbn [stake]. unfold to_lower. cbn [smap]. rewrite sapp_String. congruence.
Qed.

Lemma match_address_trim s t : trim_start s = trim_start t -> match_address s = match_address t.
Proof. unfold match_address. by intros ->. Qed.

Lemma match_address_line l r : dangling l = false -> trim_start l <> "" -> match_address (l +:+ String nl r) = match_address l.
Proof.
  intros Hd Hl. unfold match_address, dangling, address_key in *. rewrite trim_start_keep by done.
  set (l' := trim_start l) in *.
  destruct (decide (to_lower (stake 7 (l' +:+ String nl r)) = "address")) as [He|He].
  - destruct (stake_line 7 l' r) as [Hs Hr].
    { apply no_char_lower. rewrite He. reflexivity. }
    rewrite Hs in He. rewrite Hr. destruct (decide _) as [_|]; [|done]. rewrite bool_decide_true in Hd by done.
    cbn [andb] in Hd. set (a := sdrop 7 l') in *.
    destruct (trim_start a) as [|c b] eqn:Ha; [done|].
    rewrite trim_start_keep, Ha, sapp_String by (by rewrite Ha).
    destruct (decide (c = "="%char)) as [->|Hc]; [|by destruct c as [[] [] [] [] [] [] [] []]].
    cbn in Hd. apply bool_decide_eq_false in Hd. rewrite (trim_start_keep b) by done.
    rewrite take_ip_nl, take_ip_drop. set (k := sdrop _ (trim_start b)). destruct k as [|c k]; [done|].
    rewrite sapp_String. destruct (decide (c = "/"%char)) as [->|Hc]; [|by destruct c as [[] [] [] [] [] [] [] []]].
    by rewrite leading_digits_nl.
  - destruct (decide (to_lower (stake 7 l') = "address")) as [He'|]; [|done].
    exfalso. apply He. rewrite <- He'. f_equal. apply stake_app_full.
    rewrite <- length_to_lower, He'. done.
Qed.

Lemma find_address_skip l r : no_char nl l -> no_char cr l -> find_address false (l +:+ String nl r) = find_address true r.
Proof.
  induction l as [|c l IH]; [done|]. unfold no_char. cbn [sall]. rewrite !andb_true_iff, !negb_true_iff.
  intros [Hn ?] [Hc ?]. rewrite sapp_String. cbn [find_address]. rewrite Hn, Hc. by apply IH.
Qed.

Lemma find_address_none l : no_char nl l -> no_char cr l -> find_address false l = None.
Proof.
  induction l as [|c l IH]; [done|]. unfold no_char. cbn [sall]. rewrite !andb_true_iff, !negb_true_iff.
  intros [Hn ?] [Hc ?]. cbn [find_address]. rewrite Hn, Hc. by apply IH.
Qed.

Lemma find_address_true s : find_address true s = match match_address s with Some m => Some m | None => find_address false s end.
Proof. destruct s; cbn [find_address]; by destruct (match_address _). Qed.

Lemma find_address_step l r : no_char nl l -> no_char cr l -> dangling l = false ->
  find_address true (l +:+ String nl r) =
  match match_address l with Some m => Some m | None => find_address true r end.
Proof.
  intros Hn Hc Hd. rewrite find_address_true, find_address_skip by done.
  destruct (decide (trim_start l = "")) as [He|He].
  - rewrite (match_address_trim (l +:+ String nl r) r).
    2: { rewrite trim_start_blank by done. done. }
    rewrite (match_address_trim l "" He). change (match_address "") with (@None (string * string)).
    rewrite (find_address_true r). by destruct (match_address r).
  - by rewrite match_address_line.
Qed.

Definition clean_lines (ls : list string) : Prop :=
  Forall (fun l => no_char nl l /\ no_char cr l /\ dangling l = false) ls.

Lemma find_address_lines ls : clean_lines ls -> find_address true (join (String nl "") ls) = head (omap match_address ls).
Proof.
  induction 1 as [|l ls (Hn & Hc & Hd) Hls IH]; [done|]. destruct ls as [|k ls].
  - cbn [join omap list_omap]. rewrite find_address_true, find_address_none by done.
    by destruct (match_address l).
  - change (join (String nl "") (l :: k :: ls)) with (l +:+ String nl (join (String nl "") (k :: ls))).
    rewrite find_address_step by done. change (omap match_address (l :: k :: ls)) with
      (match match_address l with Some m => m :: omap match_address (k :: ls) | None => omap match_address (k :: ls) end).
    rewrite IH. by destruct (match_address l).
Qed.

(** * The hooks are their commands *)

Lemma assertCIDR_plain n u : assertCIDR n = Ok u -> sall plain n = true.
Proof.
  unfold assertCIDR. intros H%throw_if_Ok. apply negb_false_iff in H. apply (re_chars _ _ _ H). vm_compute. reflexivity.
Qed.

Lemma check_hook_nets_Ok t remote peers localNets u : check_hook_nets t remote peers localNets = Ok u ->
  sall plain t = true /\ Forall (fun n => sall plain n = true) localNets /\
  Forall (fun n => sall plain n = true) remote /\ Forall (fun n => sall plain n = true) peers.
Proof.
  unfold check_hook_nets. intros (us & H%mapM_Ok & _)%bind_Ok.
  assert (Forall (fun n => sall plain n = true) (t :: localNets ++ remote ++ peers)) as Hf.
  { clear -H. induction H; constructor; [by eapply assertCIDR_plain|done]. }
  by rewrite Forall_cons, !Forall_app in Hf.
Qed.

Lemma sanitizeWgInterface_plain v i : sanitizeWgInterface v = Ok i -> sall plain i = true.
Proof.
  unfold sanitizeWgInterface. destruct (truthy v); [|by intros [= <-]]. destruct v; try done.
  intros ([] & H%throw_if_Ok & [= <-])%bind_Ok. apply negb_false_iff in H. apply (re_chars _ _ _ H). vm_compute. reflexivity.
Qed.

Section hook_commands.
Context (iface t : string) (remote peers localNets : list string).
Hypotheses (Hi : sall plain iface = true) (Ht : sall plain t = true).
Hypotheses (Hr : Forall (fun n => sall plain n = true) remote) (Hp : Forall (fun n => sall plain n = true) peers).
Hypothesis Hl : Forall (fun n => sall plain n = true) localNets.

Lemma rules_plain verb verb' : sall plain verb = true -> sall plain verb' = true ->
  Forall (fun c => sall plain c = true) (fwd_rules verb iface ++ hub_rules verb iface t localNets remote ++ route_rules verb' iface peers).
Proof.
  intros Hv Hv'. unfold fwd_rules, hub_rules, route_rules.
  rewrite !Forall_app, !Forall_cons, !Forall_nil, !Forall_fmap. split_and!; try done; try plain.
  all: eapply Forall_impl; [eassumption|]; intros n Hn; cbn beta in Hn; cbn; plain.
Qed.

Lemma post_up_cmds_plain : Forall (fun c => sall plain c = true) (post_up_cmds iface t remote peers localNets).
Proof. unfold post_up_cmds. constructor; [done|]. by apply rules_plain. Qed.

Lemma post_down_cmds_plain : Forall (fun c => sall plain c = true) (post_down_cmds iface t remote peers localNets).
Proof. by apply rules_plain. Qed.
End hook_commands.

Lemma buildHub_Ok t remote peers v localNets up down :
  buildHubPostUp t remote peers v localNets = Ok up -> buildHubPostDown t remote peers v localNets = Ok down ->
  exists iface, sanitizeWgInterface v = Ok iface /\
    up = join "; " (post_up_cmds iface t remote peers localNets) /\
    down = join "; " (post_down_cmds iface t remote peers localNets) /\
    Forall (fun c => sall plain c = true) (post_up_cmds iface t remote peers localNets) /\
    Forall (fun c => sall plain c = true) (post_down_cmds iface t remote peers localNets).
Proof.
  unfold buildHubPostUp, buildHubPostDown. destruct (sanitizeWgInterface v) as [iface|] eqn:Hi; [|done]. cbn [mbind result_bind].
  intros (u & (Ht & Hl & Hr & Hp)%check_hook_nets_Ok & [= <-])%bind_Ok (u' & _ & [= <-])%bind_Ok.
  pose proof (sanitizeWgInterface_plain _ _ Hi) as Hif.
  exists iface. split_and!; [done..|by apply post_up_cmds_plain|by apply post_down_cmds_plain].
Qed.

(** * What normalisation returns *)

Definition table_line (b : bool) (ls : list string) : list string := if norm_table b ls then [] else ["Table = off"].

(** The two hook lines the hub writes. *)
Definition hook_lines (text : string) (remote : list string) (v : jsval) (localNets : list string) : result agent_error (list string) :=
  let t := deriveTunnelSubnet text in
  let peers := bfilter is_net_ip (parseHubPeerAllowedIPs text) in
  up ← buildHubPostUp t remote peers v localNets;
  down ← buildHubPostDown t remote peers v localNets;
  Ok ["PostUp = " +:+ up; "PostDown = " +:+ down].

Lemma normalize_lines_eq text remote v localNets :
  normalize_lines text remote v localNets =
  (hooks ← hook_lines text remote v localNets;
   let N := norm_lines false (split_lines text) in
   Ok (take (insert_index N) N ++ (table_line false (split_lines text) ++ hooks) ++ drop (insert_index N) N)).
Proof.
  unfold normalize_lines, hook_lines. rewrite norm_fold. cbn [no_out no_table]. rewrite app_nil_l, orb_false_l.
  destruct (buildHubPostUp _ _ _ _ _); [|done]. cbn [mbind result_bind].
  destruct (buildHubPostDown _ _ _ _ _); [|done]. done.
Qed.

(** The hooks are single lines the readers of the configuration skip. *)
Lemma hook_lines_Ok text remote v localNets hooks : hook_lines text remote v localNets = Ok hooks ->
  Forall (fun l => is_hook (trim l) = true /\ no_char nl l /\ no_char cr l) hooks.
Proof.
  unfold hook_lines. intros (up & Hu & (down & Hd & [= <-])%bind_Ok)%bind_Ok.
  destruct (buildHub_Ok _ _ _ _ _ _ _ Hu Hd) as (i & _ & -> & -> & Hup & Hdown).
  assert (forall d cmds, negb (plain d) = true -> Forall (fun c => sall plain c = true) cmds -> is_char d " " = false -> is_char d ";" = false ->
    no_char d (join "; " cmds)) as Hj.
  { intros d cmds Hd' Hc H1 H2. apply no_char_join; [unfold no_char; cbn; by rewrite H1, H2|].
    eapply Forall_impl; [exact Hc|]. intros c. by apply plain_no_char. }
  rewrite !Forall_cons, Forall_nil. split_and!; try (by apply no_char_app; [done|]; apply Hj); try done.
Qed.

(** * Normalising twice *)

(** The section in force where the first [[Peer]] starts, or at the end without one. *)
Fixpoint iface_before_peer (b : bool) (ls : list string) : bool :=
  match ls with
  | [] => b
  | raw :: ls => if is_peer_header (trim raw) then b else iface_before_peer (iface_after b (trim raw)) ls
  end.

(** A configuration as wg-quick files are written: no carriage return, no [Address] without
    its value on the line, and the interface section right before the first peer. *)
Definition tidy_config (text : string) : bool :=
  sall (fun c => negb (is_char cr c)) text &&
  forallb (fun l => negb (dangling l)) (split_lines text) && iface_before_peer false (split_lines text).

Definition nonpeer (l : string) : Prop := is_peer_header (trim l) = false.
Definition starts_peer (ls : list string) : Prop :=
  match ls with [] => True | x :: _ => is_peer_header (trim x) = true end.

Lemma iface_before_peer_split b ls : iface_before_peer b ls = true ->
  exists pre post, ls = pre ++ post /\ norm_in b pre = true /\ Forall nonpeer pre /\ starts_peer post.
Proof.
  revert b. induction ls as [|raw ls IH]; intros b; cbn [iface_before_peer].
  - intros ->. exists [], []. by split_and!.
  - destruct (is_peer_header (trim raw)) eqn:Hp.
    + intros ->. exists [], (raw :: ls). by split_and!.
    + intros (pre & post & -> & ? & ? & ?)%IH. exists (raw :: pre), post. split_and!; try done. by constructor.
Qed.

Lemma iface_before_peer_app b pre post : Forall nonpeer pre -> starts_peer post ->
  iface_before_peer b (pre ++ post) = norm_in b pre.
Proof.
  intros Hpre Hpost. revert b. induction Hpre as [|raw pre Hr _ IH]; intros b.
  - destruct post as [|x post]; [done|]. cbn in *. by rewrite Hpost.
  - cbn [app iface_before_peer norm_in]. by rewrite Hr.
Qed.

Lemma find_index_app {A} (p : A -> bool) l k : Forall (fun x => p x = false) l ->
  find_index p (l ++ k) = if find_index p k <? 0 then -1 else find_index p k + Z.of_nat (length l).
Proof.
  induction 1 as [|x l Hx _ IH].
  - cbn. case_match eqn:Hk; [|lia]. apply Z.ltb_lt in Hk.
    assert (-1 <= find_index p k) as Hm by (clear; induction k as [|x k IH]; cbn; [lia|]; repeat case_match; lia). lia.
  - cbn [app find_index]. rewrite Hx, IH. destruct (find_index p k <? 0) eqn:Hk; [done|]. apply Z.ltb_ge in Hk.
    assert ((find_index p k + Z.of_nat (length l) <? 0) = false) as -> by (apply Z.ltb_ge; lia). cbn [length]. lia.
Qed.

Lemma insert_index_app l k : l <> [] -> Forall nonpeer l -> starts_peer k -> insert_index (l ++ k) = length l.
Proof.
  intros Hne Hl Hk. unfold insert_index. rewrite find_index_app by done. destruct k as [|x k].
  - cbn. by rewrite app_nil_r.
  - cbn [find_index]. cbn in Hk. rewrite Hk. cbn [Z.ltb Z.compare]. rewrite Z.add_0_l, (proj2 (Z.ltb_lt _ _)); [apply Nat2Z.id|].
    destruct l; [done|cbn; lia].
Qed.

Lemma norm_lines_nonpeer b ls : Forall nonpeer ls -> Forall nonpeer (norm_lines b ls).
Proof.
  intros H. revert b. induction H as [|raw ls Hr _ IH]; intros b; [constructor|]. cbn [norm_lines].
  destruct (is_secret _ _); [|destruct (is_hook _)]; auto. constructor; [|apply IH]. apply hidden_plain.
Qed.

Lemma peer_header_not_hook t : is_peer_header t = true -> is_hook t = false /\ forall b, iface_after b t = false.
Proof. unfold is_peer_header. rewrite bool_decide_eq_true. by intros ->. Qed.

Lemma norm_lines_starts_peer b ls : starts_peer ls -> starts_peer (norm_lines b ls).
Proof.
  destruct ls as [|x ls]; [done|]. cbn [starts_peer norm_lines]. intros Hx.
  destruct (peer_header_not_hook _ Hx) as [Hh Hi]. by rewrite Hi, Hh.
Qed.

Lemma norm_lines_ne ls : norm_in false ls = true -> norm_lines false ls <> [].
Proof. intros H He. rewrite <- norm_in_norm, He in H. done. Qed.

Lemma hook_key l : is_hook (trim l) = true -> address_key l = false.
Proof. unfold is_hook. rewrite orb_true_iff. intros [H|H]; by eapply starts_with_address_key. Qed.

Lemma secret_key b l : is_secret b (trim l) = true -> address_key l = false.
Proof. unfold is_secret. rewrite !andb_true_iff. intros [[_ H] _]. by eapply starts_with_address_key. Qed.

Lemma omap_skip l k : match_address l = None -> omap match_address (l :: k) = omap match_address k.
Proof. intros H. cbn [omap list_omap]. by rewrite H. Qed.

Lemma omap_norm b ls : omap match_address (norm_lines b ls) = omap match_address ls.
Proof.
  revert b. induction ls as [|raw ls IH]; intros b; [done|]. cbn [norm_lines].
  destruct (is_secret _ (trim raw)) eqn:Hs; [|destruct (is_hook (trim raw)) eqn:Hh].
  - rewrite !omap_skip; [apply IH|by eapply address_key_match, secret_key|by vm_compute].
  - rewrite (omap_skip raw); [apply IH|by apply address_key_match, hook_key].
  - cbn [omap list_omap]. change (list_omap _ _ match_address) with (omap (M := list) match_address).
    rewrite (IH (iface_after b (trim raw))). done.
Qed.

Lemma omap_keyless ls : Forall (fun l => address_key l = false) ls -> omap match_address ls = [].
Proof. induction 1 as [|l ls Hl _ IH]; [done|]. by rewrite omap_skip by (by apply address_key_match). Qed.

(** The lines of a text the line-wise readers are exact on. *)
Definition clean_line (l : string) : Prop := no_char nl l /\ no_char cr l /\ dangling l = false.

Lemma norm_lines_clean b ls : Forall clean_line ls -> Forall clean_line (norm_lines b ls).
Proof.
  intros H. revert b. induction H as [|raw ls Hr _ IH]; intros b; [constructor|]. cbn [norm_lines].
  destruct (is_secret _ _); [|destruct (is_hook _)]; auto. constructor; [|apply IH]. by vm_compute.
Qed.

Lemma tidy_clean text : tidy_config text = true ->
  no_char cr text /\ Forall clean_line (split_lines text) /\ iface_before_peer false (split_lines text) = true.
Proof.
  unfold tidy_config. rewrite !andb_true_iff. intros [[Hc Hd] Hi]. split_and!; try done.
  pose proof (split_lines_no_cr _ Hc) as Hcr. pose proof (split_lines_no_nl_all text) as Hn.
  rewrite forallb_forall in Hd. rewrite !Forall_forall in *. intros l Hl. split_and!; auto.
  apply negb_true_iff, Hd. by apply list_elem_of_In.
Qed.

Lemma tidy_join ls : ls <> [] -> Forall clean_line ls -> iface_before_peer false ls = true ->
  tidy_config (join (String nl "") ls) = true /\ split_lines (join (String nl "") ls) = ls /\
  deriveTunnelSubnet (join (String nl "") ls) = subnet_of (head (omap match_address ls)).
Proof.
  intros Hne Hc Hi. assert (split_lines (join (String nl "") ls) = ls) as Hs.
  { apply split_lines_join; [done|..]; eapply Forall_impl; try exact Hc; intros l Hl; apply Hl. }
  split_and!; [|done|].
  - unfold tidy_config. rewrite Hs, Hi, andb_true_r, andb_true_iff. split.
    + apply no_char_join; [done|]. eapply Forall_impl; [exact Hc|]. intros l Hl. apply Hl.
    + apply forallb_forall. intros l Hl%list_elem_of_In. rewrite Forall_forall in Hc. by apply negb_true_iff, Hc.
  - unfold deriveTunnelSubnet. f_equal. by apply find_address_lines.
Qed.

Lemma derive_tidy text : tidy_config text = true ->
  deriveTunnelSubnet text = subnet_of (head (omap match_address (split_lines text))).
Proof.
  intros (Hc & Hl & _)%tidy_clean. rewrite <- (join_split_lines text Hc) at 1.
  unfold deriveTunnelSubnet. f_equal. by apply find_address_lines.
Qed.

(** The lines normalisation returns, cut at the insertion point. *)
Lemma normalize_form text remote v localNets out : tidy_config text = true ->
  normalize_lines text remote v localNets = Ok out ->
  exists pre post hooks, split_lines text = pre ++ post /\ norm_in false pre = true /\ Forall nonpeer pre /\
    starts_peer post /\ hook_lines text remote v localNets = Ok hooks /\
    out = norm_lines false pre ++ (table_line false (split_lines text) ++ hooks) ++ norm_lines true post.
Proof.
  intros (_ & _ & Hi)%tidy_clean. rewrite normalize_lines_eq. intros (hooks & Hh & [= <-])%bind_Ok.
  apply iface_before_peer_split in Hi as (pre & post & Hs & Hin & Hpre & Hpost).
  exists pre, post, hooks. split_and!; try done. rewrite Hs, norm_lines_app, Hin.
  rewrite insert_index_app by auto using norm_lines_ne, norm_lines_nonpeer, norm_lines_starts_peer.
  by rewrite take_app_length, drop_app_length.
Qed.

Lemma table_line_cases b ls : table_line b ls = [] /\ norm_table b ls = true \/ table_line b ls = ["Table = off"] /\ norm_table b ls = false.
Proof. unfold table_line. destruct (norm_table b ls); auto. Qed.

(** What the readers need of an inserted line. *)
Definition inserted (l : string) : Prop := clean_line l /\ other_line l /\ address_key l = false.

Lemma inserted_plain l : inserted l -> plain_line l.
Proof. intros (_ & [H _] & _). exact H. Qed.

Lemma hook_lines_inserted text remote v localNets hooks : hook_lines text remote v localNets = Ok hooks ->
  Forall (fun l => inserted l /\ is_hook (trim l) = true) hooks.
Proof.
  intros H%hook_lines_Ok. eapply Forall_impl; [exact H|]. intros l (Hk & ? & ?).
  split; [|done]. split_and!; auto using address_key_dangling, hook_key, hook_other. by split_and!; auto using address_key_dangling, hook_key.
Qed.

Lemma table_line_inserted b ls : Forall inserted (table_line b ls).
Proof. destruct (table_line_cases b ls) as [[-> _]|[-> _]]; repeat constructor. Qed.

Lemma norm_in_plain b ls : Forall plain_line ls -> norm_in b ls = b.
Proof. induction 1 as [|l ls Hl _ IH]; [done|]. cbn [norm_in]. by rewrite iface_after_plain. Qed.

Lemma hook_not_secret b t : is_hook t = true -> is_secret b t = false.
Proof.
  unfold is_hook, is_secret. intros [H|H]%orb_true_iff; apply starts_with_split in H as (u & ->); by rewrite andb_false_r.
Qed.

(** The hooks go, the table line stays. *)
Lemma norm_lines_inserted hooks ls : Forall (fun l => inserted l /\ is_hook (trim l) = true) hooks ->
  norm_lines true (table_line false ls ++ hooks) = table_line false ls.
Proof.
  intros H. rewrite norm_lines_app.
  assert (forall b, norm_lines b hooks = []) as ->.
  { intros b. induction H as [|l k [Hl Hk] _ IH]; [done|]. cbn [norm_lines].
    by rewrite iface_after_plain, hook_not_secret, Hk, IH by auto using inserted_plain. }
  rewrite app_nil_r. by destruct (table_line_cases false ls) as [[-> _]|[-> _]].
Qed.

Section twice.
Context (text : string) (pre post hooks : list string).
Hypotheses (Hs : split_lines text = pre ++ post) (Hin : norm_in false pre = true).
Hypotheses (Hpre : Forall nonpeer pre) (Hpost : starts_peer post) (Htidy : tidy_config text = true).
Hypothesis Hhooks : Forall (fun l => inserted l /\ is_hook (trim l) = true) hooks.

Let T := table_line false (split_lines text).
Let A := norm_lines false pre ++ T ++ hooks.
Let out := A ++ norm_lines true post.

Lemma ins_all : Forall inserted (T ++ hooks).
Proof.
  apply Forall_app. split; [apply table_line_inserted|]. eapply Forall_impl; [exact Hhooks|]. intros l Hl. apply Hl.
Qed.

Lemma ins_plain : Forall plain_line (T ++ hooks).
Proof. eapply Forall_impl; [apply ins_all|]. apply inserted_plain. Qed.

Lemma norm_in_A : norm_in false A = true.
Proof. unfold A. rewrite norm_in_app, norm_in_norm, Hin. apply norm_in_plain, ins_plain. Qed.

Lemma nonpeer_A : Forall nonpeer A.
Proof.
  apply Forall_app. split; [by apply norm_lines_nonpeer|]. eapply Forall_impl; [apply ins_plain|]. intros l Hl. apply Hl.
Qed.

Lemma out_clean : Forall clean_line out.
Proof.
  destruct (tidy_clean _ Htidy) as (_ & Hcl & _). apply (norm_lines_clean false) in Hcl.
  rewrite Hs, norm_lines_app, Hin in Hcl. apply Forall_app in Hcl as [Hc1 Hc2].
  apply Forall_app. split; [|done]. apply Forall_app. split; [done|].
  eapply Forall_impl; [apply ins_all|]. intros l Hl. apply Hl.
Qed.

Lemma out_tidy : tidy_config (join (String nl "") out) = true /\ split_lines (join (String nl "") out) = out /\
  deriveTunnelSubnet (join (String nl "") out) = deriveTunnelSubnet text.
Proof.
  destruct (tidy_join out) as (Ht & Hsp & Hd).
  - unfold out, A. rewrite <- app_assoc. intros [He _]%app_eq_nil. by apply (norm_lines_ne pre).
  - apply out_clean.
  - unfold out. rewrite iface_before_peer_app by auto using nonpeer_A, norm_lines_starts_peer. apply norm_in_A.
  - split_and!; [done..|]. rewrite Hd, (derive_tidy text Htidy). f_equal. f_equal. unfold out, A.
    rewrite !omap_app, <- (omap_app _ T), (omap_keyless (T ++ hooks)).
    + by rewrite app_nil_r, !omap_norm, <- omap_app, <- Hs.
    + eapply Forall_impl; [apply ins_all|]. intros l Hl. apply Hl.
Qed.

Lemma norm_out : norm_lines false out = (norm_lines false pre ++ T) ++ norm_lines true post.
Proof.
  unfold out. rewrite norm_lines_app, norm_in_A. unfold A, T.
  by rewrite norm_lines_app, norm_in_norm, Hin, norm_lines_inserted, !norm_lines_idemp by done.
Qed.

Lemma out_insert_index : insert_index (norm_lines false out) = length (norm_lines false pre ++ T).
Proof.
  rewrite norm_out. apply insert_index_app; [|..|by apply norm_lines_starts_peer].
  - intros [He _]%app_eq_nil. by apply (norm_lines_ne pre).
  - pose proof nonpeer_A as Hn. unfold A in Hn. rewrite app_assoc in Hn. by apply Forall_app in Hn as [? _].
Qed.

Lemma out_table : norm_table false out = true.
Proof.
  unfold out. rewrite norm_table_app, norm_in_A. unfold A.
  rewrite norm_table_app, !norm_table_norm, norm_in_norm, Hin, norm_table_app.
  unfold T. destruct (table_line_cases false (split_lines text)) as [[-> Ht]|[-> Ht]].
  - rewrite Hs, norm_table_app, Hin in Ht. apply orb_true_iff in Ht as [-> | ->]; [done|]. by rewrite orb_true_r.
  - cbn. by rewrite orb_true_r.
Qed.

Lemma out_hub : hub_lines 0 false out = hub_lines 0 false (split_lines text).
Proof.
  unfold out, A. rewrite <- app_assoc, hub_lines_insert.
  - rewrite <- Hin, <- norm_lines_app, <- Hs. apply hub_lines_norm.
  - eapply Forall_impl; [apply ins_all|]. intros l Hl. apply Hl.
Qed.
End twice.

(** The configuration is a fixed point after one pass; the tunnel subnet and the hub
    peer's AllowedIPs are those of the original. *)
Lemma normalizeAgentConfig_fixed text remote v localNets text' : tidy_config text = true ->
  normalizeAgentConfig text remote v localNets = Ok text' ->
  tidy_config text' = true /\
  deriveTunnelSubnet text' = deriveTunnelSubnet text /\
  hub_lines 0 false (split_lines text') = hub_lines 0 false (split_lines text) /\
  normalizeAgentConfig text' remote v localNets = Ok text'.
Proof.
  intros Ht. unfold normalizeAgentConfig. destruct (decide (text = "")) as [->|_]; [done|].
  destruct (normalize_lines text remote v localNets) as [out|] eqn:Ho; [|done]. intros [= <-].
  destruct (normalize_form _ _ _ _ _ Ht Ho) as (pre & post & hooks & Hs & Hin & Hpre & Hpost & Hh & Heq).
  pose proof (hook_lines_inserted _ _ _ _ _ Hh) as Hk.
  assert (out = (norm_lines false pre ++ table_line false (split_lines text) ++ hooks) ++ norm_lines true post) as -> by (by rewrite Heq, !app_assoc).
  pose proof (out_tidy text pre post hooks Hs Hin Hpre Hpost Ht Hk) as (Htd & Hsl & Hder).
  pose proof (out_hub text pre post hooks Hs Hin Hk) as Hhub.
  set (out := _ ++ norm_lines true post) in *.
  assert (parseHubPeerAllowedIPs (join (String nl "") out) = parseHubPeerAllowedIPs text) as Hparse
    by (unfold parseHubPeerAllowedIPs; by rewrite Hsl, !parse_hub_lines, Hhub).
  split_and!; [done|done|by rewrite Hsl|]. destruct (decide _) as [He|_]; [by rewrite He in Htd|].
  rewrite normalize_lines_eq. unfold hook_lines in *. rewrite Hparse, Hder, Hsl.
  rewrite Hh. cbn [mbind result_bind fmap result_fmap]. f_equal. f_equal.
  pose proof (out_table text pre post hooks Hs Hin Hk : norm_table false out = true) as Htb.
  pose proof (out_insert_index text pre post hooks Hin Hpre Hpost Hk : insert_index (norm_lines false out) = _) as Hix.
  pose proof (norm_out text pre post hooks Hin Hk : norm_lines false out = _) as Hno.
  unfold table_line at 1. rewrite Htb, Hix, Hno, take_app_length, drop_app_length. unfold out. by rewrite <- !app_assoc.
Qed.

(** * Rewritten lines keep the frame of the configuration *)

Definition keyless (l : string) : Prop := plain_line l /\ address_key l = false.

(** [k] is [l] with some lines that are no section headers and no addresses replaced or dropped. *)
Inductive reframed : list string -> list string -> Prop :=
| rf_nil : reframed [] []
| rf_keep x l k : reframed l k -> reframed (x :: l) (x :: k)
| rf_swap x y l k : keyless x -> keyless y -> clean_line y -> reframed l k -> reframed (x :: l) (y :: k)
| rf_drop x l k : keyless x -> reframed l k -> reframed (x :: l) k.
#[local] Hint Constructors reframed : conf.

Lemma keyless_address l : keyless l -> match_address l = None.
Proof. intros [_ H]. by apply address_key_match. Qed.

Lemma reframed_frame l k : reframed l k ->
  (Forall clean_line l -> Forall clean_line k) /\
  (forall b, iface_before_peer b k = iface_before_peer b l) /\ omap match_address k = omap match_address l.
Proof.
  induction 1 as [|x l k _ (IHc & IHi & IHo)|x y l k Hx Hy Hc _ (IHc & IHi & IHo)|x l k Hx _ (IHc & IHi & IHo)]; [done|..].
  - split_and!.
    + inversion 1; constructor; auto.
    + intros b. cbn [iface_before_peer]. by rewrite IHi.
    + cbn [omap list_omap]. destruct (match_address x); [|done]. f_equal. exact IHo.
  - split_and!.
    + inversion 1; constructor; auto.
    + intros b. cbn [iface_before_peer]. destruct Hx as [Hx _], Hy as [Hy _].
      rewrite !iface_after_plain by done. destruct Hx as [-> _], Hy as [-> _]. apply IHi.
    + by rewrite !omap_skip by (by apply keyless_address).
  - split_and!.
    + inversion 1; auto.
    + intros b. cbn [iface_before_peer]. destruct Hx as [Hx _]. rewrite iface_after_plain by done.
      destruct Hx as [-> _]. apply IHi.
    + by rewrite omap_skip by (by apply keyless_address).
Qed.

Lemma reframed_tidy text out : tidy_config text = true -> reframed (split_lines text) out ->
  tidy_config (join (String nl "") out) = true /\ split_lines (join (String nl "") out) = out /\
  deriveTunnelSubnet (join (String nl "") out) = deriveTunnelSubnet text.
Proof.
  intros Ht H. destruct (reframed_frame _ _ H) as (Hc & Hi & Ho). pose proof (tidy_clean _ Ht) as (_ & Hcl & Hib).
  rewrite <- Hi in Hib. destruct (tidy_join out) as (? & ? & Hd); [by intros ->|auto|done|].
  split_and!; [done..|]. by rewrite Hd, (derive_tidy text Ht), Ho.
Qed.

Lemma allowed_key l : starts_with "AllowedIPs" (trim l) = true -> keyless l.
Proof.
  intros H. split; [by eapply (starts_with_plain "A"%char "llowedIPs")|].
  apply starts_with_trim_start, starts_with_split in H as (t & H). unfold address_key. rewrite H.
  apply bool_decide_eq_false. done.
Qed.

Lemma reframed_allowed ips idx b r ls : Forall (fun i => no_char nl i /\ no_char cr i) ips ->
  reframed ls (rewrite_allowed ips idx b r ls).
Proof.
  intros Hi. revert idx b r. induction ls as [|x ls IH]; intros idx b r; [constructor|]. cbn [rewrite_allowed].
  destruct (is_peer_header (trim x)); [auto with conf|]. destruct (starts_with "[" (trim x)); [auto with conf|].
  destruct (hub_allowed idx b (trim x)) eqn:Hh; [|auto with conf].
  unfold hub_allowed in Hh. apply andb_true_iff in Hh as [_ Hh%allowed_key]. destruct r; [by apply rf_drop|].
  fold (allowed_line ips). pose proof (allowed_key _ (allowed_line_starts ips)) as Hk.
  apply rf_swap; [done|done| |apply IH]. split_and!; [..|apply address_key_dangling, Hk].
  - apply no_char_app; [done|]. apply no_char_join; [done|]. eapply Forall_impl; [exact Hi|]. by intros ? [].
  - apply no_char_app; [done|]. apply no_char_join; [done|]. eapply Forall_impl; [exact Hi|]. by intros ? [].
Qed.

(** * The endpoint *)

Definition endpoint_line (l : string) : Prop := starts_with "Endpoint" (trim l) = true.

Lemma endpoint_other l : endpoint_line l -> other_line l.
Proof. intros H. by eapply (starts_with_other "E"%char "dpoint" l "n"%char). Qed.

Lemma endpoint_keyless l : endpoint_line l -> keyless l.
Proof. intros H. split; [apply endpoint_other, H|]. by eapply (starts_with_address_key "E"%char). Qed.

Lemma endpoint_kept b l : endpoint_line l -> is_hook (trim l) = false /\ is_secret b (trim l) = false.
Proof.
  intros (t & H)%starts_with_split. rewrite H. unfold is_secret. split; [done|].
  change (starts_with "PrivateKey" ("Endpoint" +:+ t)) with false. by rewrite andb_false_r.
Qed.

Lemma not_endpoint l : is_hook (trim l) = true \/ (exists b, is_secret b (trim l) = true) -> starts_with "Endpoint" (trim l) = false.
Proof.
  intros H. destruct (starts_with "Endpoint" (trim l)) eqn:He; [|done].
  destruct H as [H|[b H]]; [destruct (endpoint_kept true l He)|destruct (endpoint_kept b l He)]; congruence.
Qed.

(** Parts of an endpoint. *)
Lemma port_tail_Some s p c : port_tail s = Some (p, c) ->
  p <> "" /\ sall is_digit p = true /\ (c = "" \/ exists c', c = String "#" c' /\ no_char nl c' /\ no_char cr c').
Proof.
  unfold port_tail. destruct (trim_start s) as [|a r]; [done|].
  destruct (decide (a = ":"%char)) as [->|]; [|by destruct a as [[] [] [] [] [] [] [] []]].
  set (d := leading_digits (trim_start r)). assert (sall is_digit d = true) as Hd.
  { unfold d. induction (trim_start r) as [|x y IH]; [done|]. cbn [leading_digits].
    destruct (is_digit x) eqn:Hx; [|done]. cbn [sall]. by rewrite Hx. }
  destruct (decide (d = "")); [done|]. destruct (trim_start (sdrop (String.length d) _)) as [|e k]; [intros [= <- <-]; auto|].
  destruct (decide (e = "#"%char)) as [->|]; [|destruct e as [[] [] [] [] [] [] [] []]; first [congruence|by intros]].
  destruct (sall _ k) eqn:Hk; [|done]. intros [= <- <-]. split_and!; [done..|]. right. eexists. split; [done|].
  split; eapply sall_impl; try exact Hk; intros x; rewrite andb_true_iff; by intros [].
Qed.

Lemma split_host_Some s h p c : split_host s = Some (h, (p, c)) ->
  p <> "" /\ sall is_digit p = true /\ (c = "" \/ exists c', c = String "#" c' /\ no_char nl c' /\ no_char cr c').
Proof.
  revert h. induction s as [|a s IH]; intros h; cbn [split_host].
  - destruct (port_tail "") as [[p' c']|] eqn:Hp; [|done]. intros [= <- <- <-]. by eapply port_tail_Some.
  - destruct (port_tail _) as [[p' c']|] eqn:Hp; [intros [= <- <- <-]; by eapply port_tail_Some|].
    destruct (decide _); [done|]. destruct (split_host s) as [[h' [p' c']]|]; [|done].
    intros [= <- <- <-]. by eapply IH.
Qed.

(** A host the environment check lets through. *)
Definition hub_host (h : string) : Prop := h <> "" /\ sall is_hub_host_char h = true.

Lemma sanitizeHubHost_ok raw h : sanitizeHubHost raw = Some h -> hub_host h.
Proof.
  unfold sanitizeHubHost. destruct (decide (trim raw = "")) as [He|Hne].
  { by rewrite bool_decide_true. }
  rewrite bool_decide_false by done. destruct (sall is_hub_host_char (trim raw)) eqn:Hs; [|done]. cbn [orb negb].
  intros [= <-]. destruct (_ && _); split; [done| |done..]. unfold hub_host. rewrite !sall_app. by rewrite Hs.
Qed.

(** A property of a class of characters, decided by running it. *)
Lemma char_impl (p q : ascii -> bool) : forallb (fun c => implb (p c) (q c)) all_chars = true -> forall c, p c = true -> q c = true.
Proof. intros H c Hc. pose proof (forall_char _ H c) as Hi. cbn beta in Hi. by rewrite Hc in Hi. Qed.

Lemma host_char_nonspace c : is_hub_host_char c = true -> is_space c = false /\ c <> "#"%char.
Proof.
  intros H%(char_impl is_hub_host_char (fun c => negb (is_space c) && negb (is_char "#" c)) eq_refl).
  rewrite andb_true_iff, !negb_true_iff in H. destruct H as [? H].
  split; [done|]. unfold is_char in H. by apply bool_decide_eq_false in H.
Qed.

Lemma leading_digits_sep h s : is_digit (match s with String c _ => c | "" => ":"%char end) = false ->
  exists k, leading_digits (h +:+ s) = stake k h /\ (k <= String.length h)%nat /\
    sdrop (String.length (leading_digits (h +:+ s))) (h +:+ s) = sdrop k h +:+ s.
Proof.
  intros Hs. induction h as [|c h (k & Hd & Hk & Hr)].
  - exists 0%nat. rewrite sapp_nil_l. destruct s as [|c s]; [done|]. cbn [leading_digits]. rewrite Hs. done.
  - rewrite sapp_String. cbn [leading_digits]. destruct (is_digit c).
    + exists (S k). rewrite Hd in *. cbn. split_and!; [done|lia|done].
    + exists 0%nat. cbn. split_and!; [done|lia|done].
Qed.

(** The text after the host. *)
Definition port_text (port comment : string) : string :=
  ":" +:+ port +:+ (if decide (comment = "") then "" else " " +:+ comment).

Lemma trim_start_host c h t : is_hub_host_char c = true -> trim_start (String c h +:+ t) = String c h +:+ t.
Proof. intros [Hc _]%host_char_nonspace. rewrite sapp_String. cbn [trim_start]. by rewrite Hc. Qed.

(** No proper prefix of the host is taken for the host. *)
Lemma port_tail_inside c h t : sall is_hub_host_char (String c h) = true -> port_tail (String c h +:+ String ":" t) = None.
Proof.
  intros Hs. pose proof Hs as [Hc Hh]%andb_true_iff. unfold port_tail. rewrite trim_start_host, sapp_String by done.
  destruct (decide (c = ":"%char)) as [->|Hne]; [|by destruct c as [[] [] [] [] [] [] [] []]].
  assert (trim_start (h +:+ String ":" t) = h +:+ String ":" t) as ->.
  { destruct h as [|d h]; [done|]. apply trim_start_host. by apply andb_true_iff in Hh as [? _]. }
  destruct (leading_digits_sep h (String ":" t) eq_refl) as (k & Hd & Hk & ->).
  destruct (decide _); [done|]. pose proof (sall_sdrop _ k _ Hh) as Hr.
  destruct (sdrop k h) as [|d r]; [done|]. apply andb_true_iff in Hr as [Hr _]. rewrite trim_start_host by done.
  apply host_char_nonspace in Hr as [_ Hr]. rewrite sapp_String. by destruct d as [[] [] [] [] [] [] [] []].
Qed.

Lemma split_host_hub h t pc : sall is_hub_host_char h = true -> port_tail (String ":" t) = Some pc ->
  split_host (h +:+ String ":" t) = Some (h, pc).
Proof.
  intros Hh Hp. induction h as [|c h IH].
  - rewrite sapp_nil_l. cbn [split_host]. by rewrite Hp.
  - pose proof Hh as [Hc Hr]%andb_true_iff. pose proof (port_tail_inside c h t Hh) as Hn.
    rewrite sapp_String in *. cbn [split_host]. rewrite Hn. apply host_char_nonspace in Hc as [_ Hc].
    rewrite decide_False by done. by rewrite IH.
Qed.

Lemma trim_end_word p t : sall is_digit p = true -> trim_end (p +:+ t) = p +:+ trim_end t.
Proof.
  induction p as [|c p IH]; [done|]. cbn [sall]. rewrite andb_true_iff. intros [Hc Hp]. rewrite !sapp_String. cbn [trim_end].
  apply (char_impl is_digit (fun c => negb (is_space c)) eq_refl), negb_true_iff in Hc. rewrite Hc.
  by rewrite IH.
Qed.

Lemma leading_digits_word p t : sall is_digit p = true -> is_digit (match t with String c _ => c | "" => ":"%char end) = false ->
  leading_digits (p +:+ t) = p.
Proof.
  intros Hp Ht. induction p as [|c p IH].
  - destruct t as [|c t]; [done|]. rewrite sapp_nil_l. cbn [leading_digits]. by rewrite Ht.
  - cbn [sall] in Hp. apply andb_true_iff in Hp as [Hc Hp]. rewrite sapp_String. cbn [leading_digits]. by rewrite Hc, IH.
Qed.

Lemma sdrop_app p t : sdrop (String.length p) (p +:+ t) = t.
Proof. induction p as [|c p IH]; [by destruct t|]. rewrite sapp_String. exact IH. Qed.

Lemma port_tail_text p c : p <> "" -> sall is_digit p = true ->
  (c = "" \/ exists c', c = String "#" c' /\ no_char nl c' /\ no_char cr c') ->
  exists c'', port_tail (String ":" (p +:+ trim_end (if decide (c = "") then "" else " " +:+ c))) = Some (p, c'').
Proof.
  intros Hne Hp Hc. unfold port_tail. cbn [trim_start]. change (is_space ":") with false. cbv iota.
  assert (forall t, trim_start (p +:+ t) = p +:+ t) as Htr.
  { intros t. destruct p as [|d p]; [done|]. rewrite sapp_String. cbn [trim_start]. apply andb_true_iff in Hp as [Hd _].
    apply (char_impl is_digit (fun c => negb (is_space c)) eq_refl), negb_true_iff in Hd. by rewrite Hd. }
  rewrite Htr. destruct Hc as [->|(c' & -> & Hn & Hr)].
  - change (trim_end (if decide ("" = "") then "" else " " +:+ "")) with "".
    rewrite leading_digits_word, decide_False, sdrop_app by done. by exists "".
  - change (if decide (String "#" c' = "") then "" else " " +:+ String "#" c') with (" " +:+ String "#" c').
    change (trim_end (" " +:+ String "#" c')) with (String " " (String "#" (trim_end c'))).
    rewrite leading_digits_word, decide_False, sdrop_app by done.
    change (trim_start (String " " (String "#" (trim_end c')))) with (String "#" (trim_end c')). cbv iota beta.
    assert (sall (fun x => negb (is_char nl x) && negb (is_char cr x)) (trim_end c') = true) as ->; [|by eexists].
    unfold no_char in *. apply (sall_trim_end _ _) in Hn, Hr. revert Hn Hr. generalize (trim_end c').
    induction s as [|x s IH]; [done|]. cbn [sall]. rewrite !andb_true_iff. naive_solver.
Qed.

Lemma trim_start_keep_host h t : h <> "" -> sall is_hub_host_char h = true -> trim_start (h +:+ t) = h +:+ t.
Proof. destruct h as [|d h]; [done|]. intros _ [Hd _]%andb_true_iff. by apply trim_start_host. Qed.

Lemma trim_endpoint h p c : hub_host h -> sall is_digit p = true ->
  trim ("Endpoint = " +:+ h +:+ ":" +:+ p +:+ c) = "Endpoint = " +:+ h +:+ String ":" (p +:+ trim_end c).
Proof.
  intros [_ Hh] Hp. unfold trim. change (trim_start ("Endpoint = " +:+ h +:+ ":" +:+ p +:+ c)) with ("Endpoint = " +:+ h +:+ String ":" (p +:+ c)).
  rewrite <- sapp_assoc, (trim_end_keep ("Endpoint = " +:+ h)) by done. by rewrite trim_end_word, sapp_assoc.
Qed.

Section endpoint.
Context (h : string) (Hh : hub_host h).

Definition port_parts (p c : string) : Prop :=
  p <> "" /\ sall is_digit p = true /\ (c = "" \/ exists c', c = String "#" c' /\ no_char nl c' /\ no_char cr c').

Definition hub_endpoint (p c : string) : string :=
  "Endpoint = " +:+ h +:+ ":" +:+ p +:+ (if decide (c = "") then "" else " " +:+ c).

Lemma new_endpoint_cases raw : new_endpoint h raw = raw \/
  exists p c, new_endpoint h raw = hub_endpoint p c /\ port_parts p c /\ is_Some (endpoint_match (trim raw)).
Proof.
  unfold new_endpoint. destruct (endpoint_match (trim raw)) as [[host [p c]]|] eqn:Hm; [|by left].
  destruct (_ && _); [by left|]. destruct (decide _); [by left|]. right. exists p, c. split_and!; [done| |by eexists].
  unfold endpoint_match in Hm. destruct (starts_with _ _); [|done]. destruct (trim_start _) as [|e r]; [done|].
  destruct (decide (e = "="%char)) as [->|]; [by eapply split_host_Some|by destruct e as [[] [] [] [] [] [] [] []]].
Qed.

Lemma hub_endpoint_line p c : port_parts p c -> endpoint_line (hub_endpoint p c).
Proof. intros (_ & Hp & _). unfold endpoint_line, hub_endpoint. by rewrite trim_endpoint. Qed.

Lemma hub_endpoint_match p c : port_parts p c -> exists c', endpoint_match (trim (hub_endpoint p c)) = Some (h, (p, c')).
Proof.
  intros (Hne & Hp & Hc). destruct (port_tail_text p c Hne Hp Hc) as [c' Hpt]. exists c'.
  unfold hub_endpoint. rewrite trim_endpoint by done. set (tl := trim_end _) in *. unfold endpoint_match.
  change (starts_with "Endpoint" _) with true. cbv iota.
  change (trim_start (sdrop 8 ("Endpoint = " +:+ h +:+ String ":" (p +:+ tl)))) with
    (String "=" (String " " (h +:+ String ":" (p +:+ tl)))). cbv iota.
  change (trim_start (String " " (h +:+ String ":" (p +:+ tl)))) with (trim_start (h +:+ String ":" (p +:+ tl))).
  destruct Hh as [Hh0 Hh1]. rewrite (trim_start_keep_host h) by done. by apply split_host_hub.
Qed.

Lemma hub_endpoint_chars d p c : port_parts p c -> is_hub_host_char d = false -> is_digit d = false ->
  d = nl \/ d = cr -> no_char d (hub_endpoint p c).
Proof.
  intros (_ & Hp & Hc) H1 H2 Hd. destruct Hh as [_ Hh1]. unfold hub_endpoint.
  assert (forall q s, q d = false -> sall q s = true -> no_char d s) as Hq.
  { intros q s Hq. apply sall_impl. intros x Hx. apply negb_true_iff, bool_decide_eq_false. congruence. }
  repeat apply no_char_app; try (by destruct Hd as [-> | ->]); [by apply (Hq is_hub_host_char)|by apply (Hq is_digit)|].
  destruct Hc as [->|(c' & -> & ? & ?)]; destruct Hd as [-> | ->]; done.
Qed.

(** What becomes of a rewritten line. *)
Lemma new_endpoint_line raw : endpoint_line raw -> endpoint_line (new_endpoint h raw).
Proof. destruct (new_endpoint_cases raw) as [->|(p & c & -> & Hpc & _)]; [done|]. intros _. by apply hub_endpoint_line. Qed.

Lemma new_endpoint_matches raw :
  is_Some (endpoint_match (trim (new_endpoint h raw))) <-> is_Some (endpoint_match (trim raw)).
Proof.
  destruct (new_endpoint_cases raw) as [->|(p & c & -> & Hpc & Hs)]; [done|].
  destruct (hub_endpoint_match p c Hpc) as [c' ->]. split; [done|by eexists].
Qed.

Lemma new_endpoint_idemp raw : new_endpoint h (new_endpoint h raw) = new_endpoint h raw.
Proof.
  destruct (new_endpoint_cases raw) as [He|(p & c & -> & Hpc & _)]; [by rewrite !He|].
  destruct (hub_endpoint_match p c Hpc) as [c' Hm]. unfold new_endpoint. rewrite Hm.
  rewrite (decide_True (P := to_lower h = to_lower h)) by done. by destruct (is_ip_host h).
Qed.

Lemma new_endpoint_clean raw : endpoint_line raw -> clean_line raw -> clean_line (new_endpoint h raw).
Proof.
  intros He. pose proof (endpoint_keyless _ (new_endpoint_line _ He)) as [_ Hk%address_key_dangling].
  destruct (new_endpoint_cases raw) as [Heq|(p & c & Heq & Hpc & _)]; rewrite Heq in *; [done|].
  intros _. split_and!; [apply hub_endpoint_chars|apply hub_endpoint_chars|]; auto.
Qed.
End endpoint.

Section endpoint_lines.
Context (h : string) (Hh : hub_host h).

Lemma reframed_endpoint idx p r ls : Forall clean_line ls -> reframed ls (rewrite_endpoint h idx p r ls).
Proof.
  intros Hc. revert idx p r. induction Hc as [|x ls Hx Hc IH]; intros idx p r; [constructor|]. cbn [rewrite_endpoint].
  destruct (is_peer_header (trim x)); [auto with conf|]. destruct (starts_with "[" (trim x)); [auto with conf|].
  destruct (p && Nat.eqb idx 1 && negb r && _) eqn:He; [|auto with conf].
  apply andb_true_iff in He as [_ He]. pose proof (endpoint_keyless _ (new_endpoint_line h Hh _ He)).
  apply rf_swap; auto using endpoint_keyless, new_endpoint_clean.
Qed.

Lemma hub_lines_endpoint idx p r j q ls : hub_lines j q (rewrite_endpoint h idx p r ls) = hub_lines j q ls.
Proof.
  revert idx p r j q. induction ls as [|x ls IH]; intros idx p r j q; [done|]. cbn [rewrite_endpoint].
  destruct (is_peer_header (trim x)) eqn:Hp; [cbn [hub_lines]; by rewrite Hp, IH|].
  destruct (starts_with "[" (trim x)) eqn:Hb; [cbn [hub_lines]; by rewrite Hp, Hb, IH|].
  destruct (p && Nat.eqb idx 1 && negb r && _) eqn:He; [|cbn [hub_lines]; by rewrite Hp, Hb, IH].
  apply andb_true_iff in He as [_ He].
  etransitivity; [apply (hub_lines_other j q [_]), Forall_singleton, endpoint_other; by apply new_endpoint_line|].
  rewrite IH. symmetry. by apply (hub_lines_other j q [x]), Forall_singleton, endpoint_other.
Qed.

Lemma rewrite_endpoint_plain idx p r x ls : plain_line x -> starts_with "Endpoint" (trim x) = false ->
  rewrite_endpoint h idx p r (x :: ls) = x :: rewrite_endpoint h idx p r ls.
Proof. intros [Hp Hb] He. cbn [rewrite_endpoint]. by rewrite Hp, Hb, He, !andb_false_r. Qed.

(** The endpoint rewrite and the normalisation work on different lines. *)
Lemma rewrite_endpoint_norm idx p r b ls :
  rewrite_endpoint h idx p r (norm_lines b ls) = norm_lines b (rewrite_endpoint h idx p r ls).
Proof.
  revert idx p r b. induction ls as [|x ls IH]; intros idx p r b; [done|].
  destruct (is_secret (iface_after b (trim x)) (trim x)) eqn:Hs; [|destruct (is_hook (trim x)) eqn:Hk].
  - assert (starts_with "Endpoint" (trim x) = false) as Hne by eauto using not_endpoint.
    rewrite (rewrite_endpoint_plain idx p r x) by eauto with conf. cbn [norm_lines]. rewrite Hs.
    rewrite rewrite_endpoint_plain by (apply hidden_plain || done). by rewrite IH.
  - assert (starts_with "Endpoint" (trim x) = false) as Hne by eauto using not_endpoint.
    rewrite (rewrite_endpoint_plain idx p r x) by eauto with conf. cbn [norm_lines]. by rewrite Hs, Hk.
  - cbn [norm_lines]. rewrite Hs, Hk. cbn [rewrite_endpoint].
    destruct (is_peer_header (trim x)); [cbn [norm_lines]; by rewrite Hs, Hk, IH|].
    destruct (starts_with "[" (trim x)); [cbn [norm_lines]; by rewrite Hs, Hk, IH|].
    destruct (p && Nat.eqb idx 1 && negb r && _) eqn:He; [|cbn [norm_lines]; by rewrite Hs, Hk, IH].
    apply andb_true_iff in He as [_ He]. pose proof (new_endpoint_line h Hh _ He) as Hn. cbn [norm_lines].
    destruct (endpoint_kept (iface_after b (trim (new_endpoint h x))) _ Hn) as [-> ->].
    rewrite !iface_after_plain by (apply endpoint_other; done). by rewrite IH.
Qed.

Lemma rewrite_endpoint_idemp idx p r ls :
  rewrite_endpoint h idx p r (rewrite_endpoint h idx p r ls) = rewrite_endpoint h idx p r ls.
Proof.
  revert idx p r. induction ls as [|x ls IH]; intros idx p r; [done|]. cbn [rewrite_endpoint].
  destruct (is_peer_header (trim x)) eqn:Hp; [cbn [rewrite_endpoint]; by rewrite Hp, IH|].
  destruct (starts_with "[" (trim x)) eqn:Hb; [cbn [rewrite_endpoint]; by rewrite Hp, Hb, IH|].
  destruct (p && Nat.eqb idx 1 && negb r && _) eqn:He; [|cbn [rewrite_endpoint]; by rewrite Hp, Hb, He, IH].
  apply andb_true_iff in He as [Hi He]. pose proof (new_endpoint_line h Hh _ He) as Hn.
  destruct (endpoint_other _ Hn) as [[Hp' Hb'] _]. cbn [rewrite_endpoint]. rewrite Hp', Hb', Hi, Hn. cbn [andb].
  rewrite new_endpoint_idemp by done.
  rewrite (bool_decide_ext _ _ (new_endpoint_matches h Hh x)). by rewrite IH.
Qed.

Lemma rewrite_endpoint_insert idx p r l ins k :
  Forall (fun x => plain_line x /\ starts_with "Endpoint" (trim x) = false) ins ->
  rewrite_endpoint h idx p r (l ++ k) = l ++ k -> rewrite_endpoint h idx p r (l ++ ins ++ k) = l ++ ins ++ k.
Proof.
  intros Hi. revert idx p r. induction l as [|x l IH]; intros idx p r; cbn [app].
  - revert Hi. induction 1 as [|y ins [Hy He] _ IHi]; [done|]. intros H. cbn [app].
    rewrite rewrite_endpoint_plain by done. by rewrite IHi.
  - cbn [rewrite_endpoint]. repeat case_match; intros He; injection He; intros; rewrite IH by done; congruence.
Qed.
End endpoint_lines.

(** The lines of a normalised configuration: hub lines inserted into the kept ones. *)
Lemma normalized_lines text remote v localNets text' : tidy_config text = true ->
  normalizeAgentConfig text remote v localNets = Ok text' ->
  exists A ins B, split_lines text' = A ++ ins ++ B /\ A ++ B = norm_lines false (split_lines text) /\
    Forall (fun x => plain_line x /\ starts_with "Endpoint" (trim x) = false) ins.
Proof.
  intros Ht. unfold normalizeAgentConfig. destruct (decide (text = "")) as [->|_]; [done|].
  destruct (normalize_lines text remote v localNets) as [out|] eqn:Ho; [|done]. intros [= <-].
  destruct (normalize_form _ _ _ _ _ Ht Ho) as (pre & post & hooks & Hs & Hin & Hpre & Hpost & Hh & Heq).
  pose proof (hook_lines_inserted _ _ _ _ _ Hh) as Hk.
  assert (out = (norm_lines false pre ++ table_line false (split_lines text) ++ hooks) ++ norm_lines true post) as Ho' by (by rewrite Heq, !app_assoc).
  pose proof (out_tidy text pre post hooks Hs Hin Hpre Hpost Ht Hk) as (_ & Hsl & _). rewrite <- Ho' in Hsl.
  exists (norm_lines false pre), (table_line false (split_lines text) ++ hooks), (norm_lines true post).
  split_and!; [by rewrite Hsl|by rewrite Hs, norm_lines_app, Hin|].
  apply Forall_app. split.
  - destruct (table_line_cases false (split_lines text)) as [[-> _]|[-> _]]; repeat constructor.
  - eapply Forall_impl; [exact Hk|]. intros x [Hx Hkx]. split; [by apply inserted_plain|]. by apply not_endpoint; left.
Qed.

Lemma rewrite_allowed_none ips idx b r ls : hub_lines idx b ls = [] -> rewrite_allowed ips idx b r ls = ls.
Proof.
  revert idx b. induction ls as [|x ls IH]; intros idx b; [done|]. cbn [hub_lines rewrite_allowed].
  destruct (is_peer_header _); [intros; by rewrite IH|]. destruct (starts_with "[" _); [intros; by rewrite IH|].
  destruct (hub_allowed _ _ _); [done|]. intros H. by rewrite IH.
Qed.

(** * Tokens *)

Lemma show_net_token n : net_wf n -> csv_token (show_net n) /\ no_char cr (show_net n).
Proof.
  intros Hn. pose proof (net_wf_addr n Hn) as [Ha [Hl _]]. split; [|by apply text_chars].
  apply csv_token_word; [by apply trim_show_nonempty|by apply text_chars].
Qed.

Lemma canonicalize_token s c : canonicalizeIpv4Network s = Some c -> csv_token c /\ no_char cr c.
Proof.
  rewrite canonicalizeIpv4Network_eq. destruct (decide (length _ = 1%nat)) as [|_]; [done|].
  intros (n & _ & Hn & ->)%canonicalCidr_Some. by apply show_net_token.
Qed.

Lemma derive_token text : csv_token (deriveTunnelSubnet text) /\ no_char cr (deriveTunnelSubnet text).
Proof.
  assert (csv_token DEFAULT_TUNNEL /\ no_char cr DEFAULT_TUNNEL) as Hd by (split; [apply csv_token_word|]; done).
  unfold deriveTunnelSubnet, subnet_of. destruct (find_address _ _) as [[ip d]|]; [|done].
  destruct (_ || _); [done|]. destruct (canonicalizeIpv4Network _) as [c|] eqn:Hc; [|done].
  by eapply canonicalize_token.
Qed.

Lemma hub_lines_all (P : string -> Prop) idx b ls : Forall (fun l => P (trim l)) ls -> Forall P (hub_lines idx b ls).
Proof.
  intros H. revert idx b. induction H as [|x ls Hx _ IH]; intros idx b; [constructor|]. cbn [hub_lines].
  destruct (is_peer_header _); [apply IH|]. destruct (starts_with "[" _); [apply IH|].
  destruct (hub_allowed _ _ _); [constructor; [done|]|]; apply IH.
Qed.

Lemma parseHub_tokens text : Forall csv_token (parseHubPeerAllowedIPs text).
Proof.
  unfold parseHubPeerAllowedIPs. rewrite parse_hub_lines.
  assert (Forall (no_char nl) (hub_lines 0 false (split_lines text))) as H.
  { apply hub_lines_all. eapply Forall_impl; [apply split_lines_no_nl_all|]. intros l. apply sall_trim. }
  apply Forall_forall. intros x (l & Hx & Hl)%list_elem_of_bind. rewrite Forall_forall in H.
  specialize (H l Hl). pose proof (csv_list_tokens (trim (after_eq l))) as Ht. rewrite Forall_forall in Ht.
  apply Ht; [|done]. by apply sall_trim, sall_after_eq.
Qed.

(** The values read have the characters of the text. *)
Lemma parseHub_chars text n : no_char cr text -> n ∈ parseHubPeerAllowedIPs text -> no_char cr n.
Proof.
  intros Hc. unfold parseHubPeerAllowedIPs. rewrite parse_hub_lines. intros (l & Hx & Hl)%list_elem_of_bind.
  assert (Forall (no_char cr) (hub_lines 0 false (split_lines text))) as H.
  { apply hub_lines_all. eapply Forall_impl; [by apply split_lines_no_cr|]. intros k. apply sall_trim. }
  rewrite Forall_forall in H. specialize (H l Hl). unfold csv_list in Hx.
  apply elem_of_bfilter in Hx as [Hx _]. apply list_elem_of_fmap in Hx as (k & -> & Hk).
  apply sall_trim. eapply sall_split; [|exact Hk]. by apply sall_trim, sall_after_eq.
Qed.

(** * Properties *)

(** The AllowedIPs written into a configuration are the ones read back from its hub peer;
    a hub peer without such a line gets none. *)
Theorem hub_allowed_roundtrip text ips : Forall csv_token ips ->
  parseHubPeerAllowedIPs (rewriteHubPeerAllowedIPs text ips) =
  if has_allowed 0 false (split_lines text) then ips else [].
Proof. apply parse_rewriteHubPeerAllowedIPs. Qed.

Definition ex_conf : string := join (String nl "")
  ["[Interface]"; "Address = 10.10.0.5/24"; "PrivateKey = secret"; ""; "[Peer]"; "PublicKey = abc";
   "Endpoint = old.example:51820 # hub"; "AllowedIPs = 10.10.0.0/24, 10.9.9.9/32"; "AllowedIPs = 10.4.0.0/16"; "";
   "[Peer]"; "AllowedIPs = 10.7.0.0/16"].

Lemma hub_allowed_roundtrip_witness :
  parseHubPeerAllowedIPs (rewriteHubPeerAllowedIPs ex_conf ["10.10.0.0/24"; "192.168.7.0/24"]) =
  ["10.10.0.0/24"; "192.168.7.0/24"].
Proof.
  rewrite (hub_allowed_roundtrip ex_conf ["10.10.0.0/24"; "192.168.7.0/24"]); [vm_compute; reflexivity|].
  repeat constructor; vm_compute; congruence.
Defined.

(** Normalisation is stable: normalising its own result changes nothing, so the stored hash
    does not move, and it keeps the tunnel subnet and the AllowedIPs of the hub peer. *)
Theorem normalizeAgentConfig_stable text remote v localNets text' : tidy_config text = true ->
  normalizeAgentConfig text remote v localNets = Ok text' ->
  normalizeAgentConfig text' remote v localNets = Ok text' /\
  deriveTunnelSubnet text' = deriveTunnelSubnet text /\
  parseHubPeerAllowedIPs text' = parseHubPeerAllowedIPs text.
Proof.
  intros Ht Hn. destruct (normalizeAgentConfig_fixed _ _ _ _ _ Ht Hn) as (_ & Hd & Hl & Hf).
  split_and!; [done..|]. unfold parseHubPeerAllowedIPs. by rewrite !parse_hub_lines, Hl.
Qed.

Lemma normalizeAgentConfig_stable_witness : exists text',
  normalizeAgentConfig ex_conf ["192.168.7.0/24"] (VStr "wg1") [] = Ok text' /\
  normalizeAgentConfig text' ["192.168.7.0/24"] (VStr "wg1") [] = Ok text'.
Proof.
  eexists. split; [vm_compute; reflexivity|].
  refine (proj1 (normalizeAgentConfig_stable ex_conf ["192.168.7.0/24"] (VStr "wg1") [] _ _ _)); vm_compute; reflexivity.
Defined.

(** The hooks the hub writes run exactly the commands they are built from: no network or
    interface name ends a command or the line, and every network is an IPv4 CIDR. *)
Theorem hub_hooks_commands t remote peers v localNets up down :
  buildHubPostUp t remote peers v localNets = Ok up -> buildHubPostDown t remote peers v localNets = Ok down ->
  exists iface, sanitizeWgInterface v = Ok iface /\
    split_char ";" up = shell_parts (post_up_cmds iface t remote peers localNets) /\
    split_char ";" down = shell_parts (post_down_cmds iface t remote peers localNets) /\
    no_char nl up /\ no_char nl down /\
    Forall (fun n => re_test CIDR_RE n = true) (t :: localNets ++ remote ++ peers).
Proof.
  intros Hu Hd. destruct (buildHub_Ok _ _ _ _ _ _ _ Hu Hd) as (i & Hi & -> & -> & Hup & Hdown).
  exists i. split_and!; [done|by apply split_shell|by apply split_shell|..].
  1,2: apply no_char_join; [done|]; eapply Forall_impl; [eassumption|]; intros c; by apply plain_no_nl.
  unfold buildHubPostUp in Hu. apply bind_Ok in Hu as (i' & _ & (u & Hc & _)%bind_Ok).
  unfold check_hook_nets in Hc. apply bind_Ok in Hc as (us & Hm%mapM_Ok & _).
  clear -Hm. induction Hm as [|n u l us Hn _ IH]; constructor; [|done].
  unfold assertCIDR in Hn. apply throw_if_Ok in Hn. by apply negb_false_iff.
Qed.

Lemma hub_hooks_commands_witness : exists up,
  buildHubPostUp "10.10.0.0/24" ["192.168.7.0/24"] ["10.0.0.0/8"] (VStr "wg0") [] = Ok up /\
  split_char ";" up = shell_parts (post_up_cmds "wg0" "10.10.0.0/24" ["192.168.7.0/24"] ["10.0.0.0/8"] []).
Proof.
  eexists. split; [vm_compute; reflexivity|].
  destruct (hub_hooks_commands "10.10.0.0/24" ["192.168.7.0/24"] ["10.0.0.0/8"] (VStr "wg0") [] _ _
    eq_refl eq_refl) as (i & Hi & Hs & _). injection Hi as <-. exact Hs.
Defined.

(** An unbound agent's configuration reaches the tunnel only: its hub peer keeps the tunnel
    subnet and the host routes it had, no network of another site. *)
Theorem stripToTunnelOnly_reach text v text' : tidy_config text = true ->
  stripToTunnelOnly text v = Ok text' ->
  forall n, n ∈ parseHubPeerAllowedIPs text' ->
    n = deriveTunnelSubnet text \/ (n ∈ parseHubPeerAllowedIPs text /\ isHostRoute n = true).
Proof.
  intros Ht. unfold stripToTunnelOnly. set (safe := sort_strings _). set (text1 := rewriteHubPeerAllowedIPs text safe).
  intros Hn. pose proof (derive_token text) as [Hd1 Hd2].
  assert (forall n, n ∈ safe -> n = deriveTunnelSubnet text \/ (n ∈ parseHubPeerAllowedIPs text /\ isHostRoute n = true)) as Hsafe.
  { intros n. unfold safe. rewrite elem_of_sort_strings, elem_of_uniq, elem_of_cons, elem_of_bfilter.
    unfold is_net_ip, isHostRoute. rewrite negb_true_iff, andb_false_iff, !negb_false_iff, orb_true_iff. naive_solver. }
  assert (Forall csv_token safe) as Htok.
  { apply Forall_forall. intros n [->|[Hin _]]%Hsafe; [done|]. pose proof (parseHub_tokens text) as Hp.
    rewrite Forall_forall in Hp. by apply Hp. }
  assert (no_char cr text) as Hcr by apply (tidy_clean _ Ht).
  assert (forall n, n ∈ safe -> no_char nl n /\ no_char cr n) as Hcl.
  { intros n Hin. pose proof (proj1 (Forall_forall _ _) Htok n Hin) as Hk. split; [by apply csv_token_no_nl|].
    apply Hsafe in Hin as [->|[Hin _]]; [done|]. by eapply parseHub_chars. }
  destruct (reframed_tidy text _ Ht (reframed_allowed safe 0 false false _ (proj2 (Forall_forall _ _) Hcl))) as (Ht1 & _).
  fold (rewriteHubPeerAllowedIPs text safe) in Ht1.
  destruct (normalizeAgentConfig_fixed _ _ _ _ _ Ht1 Hn) as (_ & _ & Hl & _).
  assert (parseHubPeerAllowedIPs text' = parseHubPeerAllowedIPs text1) as ->
    by (unfold parseHubPeerAllowedIPs; by rewrite !parse_hub_lines, Hl).
  intros n. unfold text1. rewrite parse_rewriteHubPeerAllowedIPs by done.
  destruct (has_allowed _ _ _); [apply Hsafe|by intros ?%elem_of_nil].
Qed.

Lemma stripToTunnelOnly_reach_witness : exists text',
  stripToTunnelOnly ex_conf VUndef = Ok text' /\
  forall n, n ∈ parseHubPeerAllowedIPs text' ->
    n = "10.10.0.0/24" \/ (n ∈ parseHubPeerAllowedIPs ex_conf /\ isHostRoute n = true).
Proof.
  eexists. split; [vm_compute; reflexivity|].
  refine (stripToTunnelOnly_reach ex_conf VUndef _ _ _); vm_compute; reflexivity.
Defined.
