(* ===== verification/AgentRow.v ===== *)
(** The agent table of [backend/models/agent.js] as the handlers of
    [backend/internal/agent.js] use it: a row per agent, the first row matching a
    condition, and a patch of the row with a given id. *)

From S2P Require Import Prelude.
From S2P Require Import JsVal.
From coqutil Require Export Datatypes.RecordSetters.
Export OCamlLikeNotations.

Local Open Scope Z_scope.

(** A nullable column is an [option]; a boolean column is read as a boolean ([boolFields]). *)
Record agent_row := AgentRow {
  ag_id : Z;
  ag_name : string;
  ag_mode : string;
  ag_reg_token : option string;
  ag_agent_token : option string;
  ag_hostname : option string;
  ag_wg_interface : string;
  ag_config_text : option string;
  ag_config_hash : option string;
  ag_mgmt_url : option string;
  ag_services : option string;
  ag_wg_link_name : option string;
  ag_last_seen : option Z;
  ag_status : string;
  ag_agent_version : option string;
  ag_allowed_sites : option string;
  ag_allowed_networks : option string;
  ag_preserve_lan_source_ip : bool;
  ag_ingress_mode : string;
  ag_ingress_applied_hash : option string;
  ag_ingress_error : option string;
  ag_public_host : option string;
  ag_config_applied_hash : option string;
  ag_config_error : option string;
  ag_last_server_url : option string;
  ag_is_deleted : bool }.

Definition agent_db := list agent_row.

(** [x || ""] of a nullable string column. *)
Definition or_empty (x : option string) : string := default "" x.

(** [Agent.query().where(...).first()] *)
Definition first_row (p : agent_row -> bool) (db : agent_db) : option agent_row := bfind p db.

(** [Agent.query().patch(...).where("id", id)] *)
Definition patch_row (id : Z) (f : agent_row -> agent_row) (db : agent_db) : agent_db :=
  (fun a => if ag_id a =? id then f a else a) <$> db.

(** The primary key. *)
Definition unique_ids (db : agent_db) : Prop := NoDup (ag_id <$> db).

Lemma lookup_patch_row id f (db : agent_db) i :
  patch_row id f db !! i = (fun a => if ag_id a =? id then f a else a) <$> db !! i.
Proof. apply list_lookup_fmap. Qed.

Section rows.
Context (f : agent_row -> agent_row) (Hid : forall a, ag_id (f a) = ag_id a).

Lemma patch_row_ids id db : ag_id <$> patch_row id f db = ag_id <$> db.
Proof.
  unfold patch_row. rewrite <- list_fmap_compose. apply list_fmap_ext. intros _ a _. cbn. by destruct (_ =? _).
Qed.

Lemma patch_row_unique id db : unique_ids db -> unique_ids (patch_row id f db).
Proof. unfold unique_ids. by rewrite patch_row_ids. Qed.

Lemma elem_of_patch_row id db a : a ∈ patch_row id f db <->
  exists b, b ∈ db /\ a = (if ag_id b =? id then f b else b).
Proof. unfold patch_row. rewrite list_elem_of_fmap. naive_solver. Qed.
End rows.

Lemma unique_row db a b : unique_ids db -> a ∈ db -> b ∈ db -> ag_id a = ag_id b -> a = b.
Proof.
  intros Hu [i Ha]%list_elem_of_lookup [j Hb]%list_elem_of_lookup He.
  assert (i = j) as ->; [|congruence]. eapply NoDup_lookup; [exact Hu|..]; rewrite list_lookup_fmap.
  - by rewrite Ha.
  - rewrite Hb. cbn. by rewrite He.
Qed.

Lemma first_row_Some p db a : first_row p db = Some a -> a ∈ db /\ p a = true.
Proof.
  unfold first_row, bfind. induction db as [|b db IH]; cbn; [done|]. destruct (p b) eqn:Hp.
  - intros [= ->]. split; [left|done].
  - intros [? ?]%IH. split; [by right|done].
Qed.

Lemma first_row_None p db : first_row p db = None <-> forall a, a ∈ db -> p a = false.
Proof.
  unfold first_row, bfind. induction db as [|b db IH]; cbn; [split; [by intros _ a ?%elem_of_nil|done]|].
  destruct (p b) eqn:Hp.
  - split; [done|]. intros H. specialize (H b (list_elem_of_here _ _)). congruence.
  - rewrite IH. setoid_rewrite elem_of_cons. naive_solver.
Qed.
