(* ===== verification/AgentMesh.v ===== *)
(** The mesh as every agent sees it: [backend/internal/agent.js], access control and
    configuration sync.

    The metadata of the hub names the networks behind every link. An agent bound to a link
    may reach the networks of the other sites, restricted by its access lists; the sync
    writes exactly these into the agent's stored configuration. *)

From S2P Require Import Prelude.
From S2P Require Import JsString.
From S2P Require Import JsRegex.
From S2P Require Import Cidr.
From S2P Require Import JsVal.
From S2P Require Import Json.
From S2P Require Import ConfText.
From S2P Require Import IngressRules.
From S2P Require Import WgConf.
From S2P Require Import AgentText.
From S2P Require Import AgentRow.

Local Open Scope Z_scope.

(** * Access lists *)

Definition acl_entry (out : list string) (net : string) : result agent_error (list string) :=
  match canonicalizeIpv4Network net with
  | None => Throw (AclBadCidr net)
  | Some canon =>
      if isAcceptableNetworkPrefix canon then Ok (if decide (canon ∈ out) then out else out ++ [canon])
      else Throw (AclShortPrefix net)
  end.

Definition sanitizeAclNetworks (value : jsval) : result agent_error (option (list string)) :=
  if is_nullish value then Ok None
  else match value with
       | VArr l =>
           let nets := uniq (bfilter nonempty (trim ∘ str_truthy "" <$> l)) in
           if decide (nets = []) then Ok None else Some <$> foldM acl_entry [] nets
       | _ => Throw AclNotArray
       end.

Definition sanitizeAclSites (value : jsval) : option (list string) :=
  match value with
  | VArr l => let sites := bfilter nonempty (trim ∘ str_truthy "" <$> l) in
              if decide (sites = []) then None else Some sites
  | _ => None
  end.

(** The parsed access list of a column; [None] is no restriction. *)
Definition parseAllowedSites (raw : option string) : option (list string) :=
  match raw with
  | None | Some "" => None
  | Some s => match json_parse s with
              | Some (VArr (v :: l)) => Some (uniq (bfilter nonempty (trim ∘ to_string <$> v :: l)))
              | _ => None
              end
  end.

(** * The index of the metadata *)

Definition links_map := list (string * link_meta).

Definition is_client (m : link_meta) : bool := bool_decide (lm_type m = "client").

Definition collectSiteNetworks (links : links_map) : list string :=
  uniq (bfilter isAcceptableNetworkPrefix (l ← bfilter (fun m => negb (is_client m)) links.*2; imported_nets l)).

Record mesh := Mesh {
  linksByName : links_map;
  allSiteNets : list string;
  ambiguousLinkNames : list string }.

Definition link_names (links : links_map) : list string := bfilter nonempty (lm_name <$> links.*2).

Definition count_name (n : string) (l : list string) : nat := length (bfilter (fun m => bool_decide (m = n)) l).

Definition meshIndex (links : links_map) : mesh :=
  let names := link_names links in
  let ambiguous := bfilter (fun n => Nat.ltb 1 (count_name n names)) (uniq names) in
  let byName := fold_left (fun m l => if nonempty (lm_name l) && negb (set_has ambiguous (lm_name l))
                                      then mset (lm_name l) l m else m) links.*2 [] in
  Mesh byName (collectSiteNetworks links) ambiguous.

(** * The networks an agent may route *)

Record other_nets := OtherNets {
  on_nets : list string; on_orphans : list string; on_overlaps : list string; on_supernets : list string }.

Definition split_nets (dropOverlaps : bool) (own nets orphans : list string) : other_nets :=
  let insideOwn n := dropOverlaps && existsb (fun o => cidrContains o n) own in
  let coversOwn n := dropOverlaps && negb (insideOwn n) && existsb (fun o => cidrContains n o) own in
  OtherNets (bfilter (fun n => negb (insideOwn n)) nets) orphans (bfilter insideOwn nets) (bfilter coversOwn nets).

(** Whether a site on the whitelist exports the network. *)
Definition site_allows (byName : links_map) (sites : list string) (n : string) : bool :=
  existsb (fun m => negb (is_client m) && set_has sites (lm_name m) && set_has (imported_nets m) n) byName.*2.

Definition computeOtherSiteNets (allowedNetworks allowedSites : option (list string)) (allSiteNets ownNets : list string)
    (byName : links_map) (dropOverlaps : bool) : other_nets :=
  match allowedNetworks with
  | Some nets =>
      split_nets dropOverlaps ownNets
        (bfilter (fun n => negb (set_has ownNets n) && set_has allSiteNets n) nets)
        (bfilter (fun n => negb (set_has ownNets n) && negb (set_has allSiteNets n)) nets)
  | None =>
      split_nets dropOverlaps ownNets
        (bfilter (fun n => negb (set_has ownNets n) &&
                           match allowedSites with None => true | Some s => site_allows byName s n end) allSiteNets) []
  end.

Definition agentOtherSiteNets (a : agent_row) (linkMeta : link_meta) (m : mesh) : other_nets :=
  computeOtherSiteNets (parseAllowedSites (ag_allowed_networks a)) (parseAllowedSites (ag_allowed_sites a))
    (allSiteNets m) (uniq (imported_nets linkMeta)) (linksByName m) (negb (is_client linkMeta)).

Definition computeHubPeerAllowedIPs (agentTunnelSubnet : string) (otherSiteNets : list string) : list string :=
  sort_strings (uniq (agentTunnelSubnet :: otherSiteNets)).

(** * The sync of one agent *)

Inductive sync_outcome :=
| SyncSkipped (reason : string)
| SyncUnchanged
| SyncChanged (newAllowedIPs masqueradeNets : list string) (endpointChanged allowedChanged : bool)
| SyncFailed (e : agent_error).

Record sync_result := SyncResult { sr_agentId : Z; sr_name : string; sr_outcome : sync_outcome }.

Section sync.
(** The SHA-256 of Node's crypto module, in hexadecimal, and the environment variable WG_HUB_HOST. *)
Variable sha256 : string -> string.
Variable WG_HUB_HOST : string.

Definition hashConfig (text : string) : option string := if decide (text = "") then None else Some (sha256 text).

Definition configuredHubHost : option string := sanitizeHubHost WG_HUB_HOST.

(** The two rewrites before the normalisation: AllowedIPs when they differ, then the endpoint. *)
Definition rewrite_allowed_if (text : string) (newAllowedIPs : list string) : string :=
  if decide (join "," newAllowedIPs = sorted_text (parseHubPeerAllowedIPs text)) then text
  else rewriteHubPeerAllowedIPs text newAllowedIPs.

Definition new_allowed (text : string) (nets : list string) : list string :=
  computeHubPeerAllowedIPs (deriveTunnelSubnet text) nets.

Definition sync_text (text : string) (nets : list string) (wg_interface : string) (localNets : list string)
    : result agent_error string :=
  let rewritten := rewriteHubPeerEndpoint (rewrite_allowed_if text (new_allowed text nets)) configuredHubHost in
  iface ← sanitizeWgInterface (VStr wg_interface);
  normalizeAgentConfig rewritten (sort_strings nets) (VStr iface) localNets.

Definition local_nets (a : agent_row) (linkMeta : link_meta) : list string :=
  if negb (is_client linkMeta) && ag_preserve_lan_source_ip a then uniq (imported_nets linkMeta) else [].

(** The outcome, and the configuration to store when it changed. *)
Definition syncOneAgent (a : agent_row) (m : mesh) : result agent_error (sync_outcome * option string) :=
  let name := or_empty (ag_wg_link_name a) in
  if set_has (ambiguousLinkNames m) name then Ok (SyncSkipped "ambiguous-link-name", None)
  else
    match mget name (linksByName m) with
    | None => Ok (SyncSkipped "no-link-or-config", None)
    | Some linkMeta =>
        let text := or_empty (ag_config_text a) in
        if decide (text = "") then Ok (SyncSkipped "no-link-or-config", None)
        else
          let nets := on_nets (agentOtherSiteNets a linkMeta m) in
          let newAllowedIPs := new_allowed text nets in
          let allowedRewritten := rewrite_allowed_if text newAllowedIPs in
          newText ← sync_text text nets (ag_wg_interface a) (local_nets a linkMeta);
          if decide (hashConfig newText = ag_config_hash a) then Ok (SyncUnchanged, None)
          else Ok (SyncChanged newAllowedIPs (sort_strings nets)
                     (negb (bool_decide (rewriteHubPeerEndpoint allowedRewritten configuredHubHost = allowedRewritten)))
                     (negb (bool_decide (join "," newAllowedIPs = sorted_text (parseHubPeerAllowedIPs text)))),
                   Some newText)
    end.

Definition store_config (newText : string) (a : agent_row) : agent_row :=
  { a with ag_config_text := Some newText; ag_config_hash := hashConfig newText }.

(** * The sync of the fleet *)

(** One iteration of the loop: an error of one agent is reported and the loop goes on. *)
Definition sync_step (m : mesh) (st : agent_db * list sync_result) (a : agent_row) : agent_db * list sync_result :=
  let '(db, results) := st in
  match syncOneAgent a m with
  | Ok (outcome, patch) =>
      (match patch with Some t => patch_row (ag_id a) (store_config t) db | None => db end,
       results ++ [SyncResult (ag_id a) (ag_name a) outcome])
  | Throw e => (db, results ++ [SyncResult (ag_id a) (ag_name a) (SyncFailed e)])
  end.

Definition sync_agents (db : agent_db) : list agent_row :=
  bfilter (fun a => negb (ag_is_deleted a) && bool_decide (is_Some (ag_wg_link_name a))) db.

Definition syncAgentConfigs (links : links_map) (db : agent_db) : agent_db * list sync_result :=
  fold_left (sync_step (meshIndex links)) (sync_agents db) (db, []).
End sync.

(** * Who may reach what *)

Lemma set_has_spec l x : set_has l x = true <-> x ∈ l.
Proof. unfold set_has. apply bool_decide_eq_true. Qed.

Lemma NoDup_count l : (forall x, (count_name x l <= 1)%nat) -> NoDup l.
Proof.
  induction l as [|x l IH]; intros H; constructor.
  - intros Hx. specialize (H x). unfold count_name, bfilter in H. cbn [List.filter] in H.
    rewrite bool_decide_true in H by done. cbn [length] in H.
    assert (x ∈ bfilter (fun m => bool_decide (m = x)) l) as Hin by (apply elem_of_bfilter; by rewrite bool_decide_true).
    unfold bfilter in Hin. destruct (List.filter _ l); [by apply elem_of_nil in Hin|]. cbn in H. lia.
  - apply IH. intros y. specialize (H y). unfold count_name, bfilter in *. cbn [List.filter] in H.
    destruct (bool_decide (x = y)); cbn [length] in H; lia.
Qed.

Lemma count_name_filter (p : link_meta -> bool) ls x : (forall l, p l = true -> nonempty (lm_name l) = true) ->
  (count_name x (lm_name <$> bfilter p ls) <= count_name x (bfilter nonempty (lm_name <$> ls)))%nat.
Proof.
  intros Hp. unfold count_name, bfilter. induction ls as [|l ls IH]; [done|]. cbn [List.filter fmap list_fmap].
  destruct (p l) eqn:Hl; [rewrite (Hp l Hl)|destruct (nonempty (lm_name l))]; cbn [List.filter fmap list_fmap];
    try destruct (bool_decide (lm_name l = x)); cbn [length]; lia.
Qed.

Section index.
Context (links : links_map).

Definition ambiguous_names : list string := ambiguousLinkNames (meshIndex links).

Lemma elem_of_ambiguous n : n ∈ ambiguous_names <-> (1 < count_name n (link_names links))%nat.
Proof.
  unfold ambiguous_names, meshIndex. cbn [ambiguousLinkNames]. rewrite elem_of_bfilter, elem_of_uniq, Nat.ltb_lt.
  split; [by intros []|]. intros H. split; [|done]. unfold count_name, bfilter in H.
  destruct (List.filter (fun m => bool_decide (m = n)) (link_names links)) as [|y l] eqn:He; [cbn in H; lia|].
  assert (y ∈ bfilter (fun m => bool_decide (m = n)) (link_names links)) as Hy by (unfold bfilter; rewrite He; left).
  apply elem_of_bfilter in Hy as [Hy Hn]. apply bool_decide_eq_true in Hn. by subst.
Qed.

(** A link that is indexed by its name. *)
Definition indexed (l : link_meta) : bool := nonempty (lm_name l) && negb (set_has ambiguous_names (lm_name l)).

Lemma indexed_names_NoDup : NoDup (lm_name <$> bfilter indexed links.*2).
Proof.
  apply NoDup_count. intros x. destruct (decide (x ∈ lm_name <$> bfilter indexed links.*2)) as [Hx|Hx].
  - apply list_elem_of_fmap in Hx as (l & -> & [_ Hi]%elem_of_bfilter).
    unfold indexed in Hi. apply andb_true_iff in Hi as [_ Hi].
    assert (~ lm_name l ∈ ambiguous_names) as Hn by (rewrite <- set_has_spec; by apply negb_true_iff in Hi as ->).
    rewrite elem_of_ambiguous in Hn. etransitivity; [apply count_name_filter|unfold link_names in Hn; lia].
    unfold indexed. intros k Hk. by apply andb_true_iff in Hk as [? _].
  - unfold count_name. destruct (bfilter _ (lm_name <$> _)) as [|y l] eqn:He; [cbn; lia|].
    assert (y ∈ bfilter (fun m => bool_decide (m = x)) (lm_name <$> bfilter indexed links.*2)) as Hy by (rewrite He; left).
    apply elem_of_bfilter in Hy as [Hy Hn]. apply bool_decide_eq_true in Hn. subst. done.
Qed.

Lemma fold_index ls m : NoDup (m.*1 ++ (lm_name <$> bfilter indexed ls)) ->
  fold_left (fun m l => if nonempty (lm_name l) && negb (set_has ambiguous_names (lm_name l)) then mset (lm_name l) l m else m) ls m =
  m ++ ((fun l => (lm_name l, l)) <$> bfilter indexed ls).
Proof.
  revert m. induction ls as [|l ls IH]; intros m Hn; [by rewrite app_nil_r|].
  cbn [fold_left bfilter List.filter] in *. unfold indexed at 1. unfold bfilter in Hn. cbn [List.filter] in Hn.
  unfold indexed at 1 in Hn. destruct (nonempty (lm_name l) && _); [|by apply IH].
  cbn [fmap list_fmap] in *. assert (mset (lm_name l) l m = m ++ [(lm_name l, l)]) as ->.
  { apply NoDup_app in Hn as (_ & Hd & _). assert (lm_name l ∉ m.*1) as Hl by (intros Hin; apply (Hd _ Hin); left).
    clear -Hl. induction m as [|[k v] m IH]; [done|]. cbn in *. rewrite not_elem_of_cons in Hl. destruct Hl as [Hk Hl].
    rewrite decide_False by congruence. f_equal. by apply IH. }
  rewrite IH; [by rewrite <- app_assoc|]. rewrite fmap_app, <- app_assoc. exact Hn.
Qed.

Lemma linksByName_eq : linksByName (meshIndex links) = (fun l => (lm_name l, l)) <$> bfilter indexed links.*2.
Proof. exact (fold_index links.*2 [] indexed_names_NoDup). Qed.

Lemma elem_of_linksByName l : l ∈ (linksByName (meshIndex links)).*2 <->
  l ∈ links.*2 /\ lm_name l <> "" /\ count_name (lm_name l) (link_names links) = 1%nat.
Proof.
  rewrite linksByName_eq, <- list_fmap_compose. rewrite list_elem_of_fmap. unfold compose. cbn [snd].
  assert (forall x, indexed x = true /\ x ∈ links.*2 <-> x ∈ links.*2 /\ lm_name x <> "" /\ count_name (lm_name x) (link_names links) = 1%nat) as H.
  { intros x. unfold indexed, nonempty. rewrite andb_true_iff, bool_decide_eq_true, negb_true_iff.
    rewrite <- not_true_iff_false, set_has_spec, elem_of_ambiguous.
    assert (x ∈ links.*2 -> lm_name x <> "" -> (0 < count_name (lm_name x) (link_names links))%nat) as Hp.
    { intros Hx Hn. assert (lm_name x ∈ bfilter (fun m => bool_decide (m = lm_name x)) (link_names links)) as Hin.
      { apply elem_of_bfilter. split; [|by apply bool_decide_true]. apply elem_of_bfilter.
        split; [by apply list_elem_of_fmap_2|]. by apply bool_decide_true. }
      unfold count_name. destruct (bfilter _ _); [by apply elem_of_nil in Hin|cbn; lia]. }
    split; intros; destruct_and?; split_and!; try done; naive_solver lia. }
  rewrite <- H. setoid_rewrite elem_of_bfilter. split; [by intros (x & -> & ? & ?)|intros [? ?]; by exists l].
Qed.
End index.

Lemma elem_of_site_nets links n : n ∈ collectSiteNetworks links <->
  isAcceptableNetworkPrefix n = true /\ exists l, l ∈ links.*2 /\ is_client l = false /\ n ∈ imported_nets l.
Proof.
  unfold collectSiteNetworks. rewrite elem_of_uniq, elem_of_bfilter, list_elem_of_bind.
  setoid_rewrite elem_of_bfilter. setoid_rewrite negb_true_iff. naive_solver.
Qed.

(** The access lists of an agent let it reach a network: a list of networks decides alone,
    else a list of sites with an unambiguous name that export it, else nothing restricts. *)
Definition acl_permits (a : agent_row) (links : links_map) (n : string) : Prop :=
  match parseAllowedSites (ag_allowed_networks a), parseAllowedSites (ag_allowed_sites a) with
  | Some nets, _ => n ∈ nets
  | None, Some sites =>
      exists l, l ∈ links.*2 /\ is_client l = false /\ lm_name l <> "" /\
        count_name (lm_name l) (link_names links) = 1%nat /\ lm_name l ∈ sites /\ n ∈ imported_nets l
  | None, None => True
  end.

Lemma site_allows_spec links sites n : site_allows (linksByName (meshIndex links)) sites n = true <->
  exists l, l ∈ links.*2 /\ is_client l = false /\ lm_name l <> "" /\
        count_name (lm_name l) (link_names links) = 1%nat /\ lm_name l ∈ sites /\ n ∈ imported_nets l.
Proof.
  unfold site_allows. rewrite existsb_exists. setoid_rewrite <- list_elem_of_In. setoid_rewrite elem_of_linksByName.
  setoid_rewrite andb_true_iff. setoid_rewrite andb_true_iff. setoid_rewrite negb_true_iff. setoid_rewrite set_has_spec. naive_solver.
Qed.

Lemma existsb_false_iff {A} (p : A -> bool) l : existsb p l = false <-> forall x, x ∈ l -> p x = false.
Proof.
  rewrite <- not_true_iff_false, existsb_exists. setoid_rewrite <- list_elem_of_In.
  split; [intros H x Hx; apply not_true_iff_false; eauto|intros H (x & Hx & Hp); rewrite H in Hp by done; done].
Qed.

Lemma on_nets_split d own nets orphans n : n ∈ on_nets (split_nets d own nets orphans) <->
  n ∈ nets /\ (d = true -> forall o, o ∈ own -> cidrContains o n = false).
Proof.
  cbn [split_nets on_nets]. rewrite elem_of_bfilter, negb_true_iff. destruct d; cbn [andb].
  - rewrite existsb_false_iff. naive_solver.
  - naive_solver.
Qed.

Lemma other_nets_iff a lm links n : n ∈ on_nets (agentOtherSiteNets a lm (meshIndex links)) <->
  n ∈ collectSiteNetworks links /\ n ∉ imported_nets lm /\ acl_permits a links n /\
  (is_client lm = false -> forall o, o ∈ imported_nets lm -> cidrContains o n = false).
Proof.
  unfold agentOtherSiteNets, computeOtherSiteNets, acl_permits. change (allSiteNets (meshIndex links)) with (collectSiteNetworks links).
  assert (forall x, x ∈ uniq (imported_nets lm) <-> x ∈ imported_nets lm) as Hu by (intros; apply elem_of_uniq).
  destruct (parseAllowedSites (ag_allowed_networks a)) as [nets|]; [|destruct (parseAllowedSites (ag_allowed_sites a)) as [sites|]];
    rewrite on_nets_split, elem_of_bfilter, ?andb_true_iff, !negb_true_iff, <- !not_true_iff_false, ?site_allows_spec, !set_has_spec;
    setoid_rewrite Hu; naive_solver.
Qed.

(** C30. Deny by default: an agent may route exactly the networks some site imports (no client's
    reach list, no prefix shorter than /8) that are not its own, that its access lists
    permit, and that do not lie inside one of its own networks when it has a LAN. *)
Theorem agent_reach_spec a lm links n : n ∈ on_nets (agentOtherSiteNets a lm (meshIndex links)) <->
  (exists l, l ∈ links.*2 /\ is_client l = false /\ n ∈ imported_nets l) /\ isAcceptableNetworkPrefix n = true /\
  n ∉ imported_nets lm /\ acl_permits a links n /\
  (is_client lm = false -> forall o, o ∈ imported_nets lm -> cidrContains o n = false).
Proof. rewrite other_nets_iff, elem_of_site_nets. naive_solver. Qed.

(** ** A configuration with an interface section is not rewritten to nothing *)

Lemma sall_join_inv p sep l x : sall p (join sep l) = true -> x ∈ l -> sall p x = true.
Proof.
  induction l as [|y l IH]; [by intros _ ?%elem_of_nil|]. destruct l as [|z l].
  - intros H ->%list_elem_of_singleton. exact H.
  - change (join sep (y :: z :: l)) with (y +:+ sep +:+ join sep (z :: l)). rewrite !sall_app, !andb_true_iff.
    intros (Hy & _ & Hr) [->|Hx]%elem_of_cons; [done|by apply IH].
Qed.

Lemma split_lines_empty s : Forall (fun l => l = "") (split_lines s) -> sall is_eol s = true.
Proof.
  assert (forall n s, (String.length s <= n)%nat -> Forall (fun l => l = "") (split_lines s) -> sall is_eol s = true) as H; [|by eapply H].
  clear s. induction n as [|n IH]; intros s Hlen.
  - destruct s; [done|cbn in Hlen; lia].
  - destruct s as [|c s]; [done|]. cbn [split_lines sall]. cbn in Hlen. rewrite andb_true_iff.
    destruct (decide (c = nl)) as [->|Hc].
    + intros [_ Hs]%Forall_cons. split; [done|apply IH; [lia|done]].
    + destruct s as [|d s]; [by intros [? _]%Forall_cons|].
      destruct (decide (c = cr /\ d = nl)) as [[-> ->]|_].
      * intros [_ Hs]%Forall_cons. split; [done|]. cbn [sall]. cbn in Hlen. rewrite IH; [done|lia|done].
      * destruct (split_lines_cons (String d s)) as (x & xs & ->). by intros [? _]%Forall_cons.
Qed.

Lemma new_endpoint_ne h raw : endpoint_line raw -> new_endpoint h raw <> "".
Proof.
  intros Hl He. unfold new_endpoint in He. assert (raw <> "") as Hne by (by intros ->).
  destruct (endpoint_match _) as [[? [? ?]]|]; [|done]. destruct (_ && _); [done|]. by destruct (decide _).
Qed.

Lemma rewrite_endpoint_empty h idx p r ls : Forall (fun l => l = "") (rewrite_endpoint h idx p r ls) -> Forall (fun l => l = "") ls.
Proof.
  revert idx p r. induction ls as [|x ls IH]; intros idx p r; [done|]. cbn [rewrite_endpoint].
  destruct (is_peer_header _); [intros [? ?]%Forall_cons; constructor; eauto|].
  destruct (starts_with "[" _); [intros [? ?]%Forall_cons; constructor; eauto|].
  destruct (p && Nat.eqb idx 1 && negb r && _) eqn:He; [|intros [? ?]%Forall_cons; constructor; eauto].
  apply andb_true_iff in He as [_ He]. intros [Hx _]%Forall_cons. by apply new_endpoint_ne in Hx.
Qed.

Lemma rewrite_allowed_header ips idx b r ls x : x ∈ ls -> starts_with "[" (trim x) = true -> x ∈ rewrite_allowed ips idx b r ls.
Proof.
  intros Hx Hh. revert idx b r. induction ls as [|y ls IH]; intros idx b r; [by apply elem_of_nil in Hx|].
  apply elem_of_cons in Hx as [<-|Hx]; cbn [rewrite_allowed].
  - destruct (is_peer_header _); [left|]. rewrite Hh. left.
  - specialize (IH Hx). repeat case_match; try apply elem_of_cons; auto.
Qed.

Lemma tidy_header text : tidy_config text = true -> exists x, x ∈ split_lines text /\ trim x = "[Interface]".
Proof.
  intros (_ & _ & Hi)%tidy_clean. revert Hi. generalize (split_lines text) as ls.
  assert (forall ls b, iface_before_peer b ls = true -> b = true \/ exists x, x ∈ ls /\ trim x = "[Interface]") as H.
  { induction ls as [|y ls IH]; intros b; cbn [iface_before_peer]; [by left|]. destruct (is_peer_header _); [by left|].
    intros [Hb|(x & Hx & Ht)]%IH; [|right; exists x; split; [by right|done]].
    unfold iface_after in Hb. destruct (decide (trim y = "[Interface]")); [right; exists y; split; [left|done]|].
    destruct (starts_with _ _); [done|by left]. }
  intros ls [?|?]%H; done.
Qed.

Lemma sync_rewrites_ne text ips host : tidy_config text = true ->
  rewriteHubPeerEndpoint (rewrite_allowed_if text ips) host <> "".
Proof.
  intros Ht. destruct (tidy_header text Ht) as (x & Hx & Htr).
  assert (forall s, sall is_eol s = true -> sall is_eol (trim s) = true) as Htrim by (intros; by apply sall_trim).
  assert (sall is_eol (rewrite_allowed_if text ips) = true -> False) as H1.
  { intros Hs. unfold rewrite_allowed_if in Hs.
    assert (forall ls, x ∈ ls -> sall is_eol (join (String nl "") ls) = true -> False) as Hls.
    { intros ls Hin Hj. pose proof (Htrim _ (sall_join_inv _ _ _ _ Hj Hin)) as Hc. by rewrite Htr in Hc. }
    destruct (decide _).
    - apply (Hls (split_lines text) Hx). rewrite join_split_lines; [done|]. apply (tidy_clean _ Ht).
    - eapply Hls; [|exact Hs]. apply rewrite_allowed_header; [exact Hx|by rewrite Htr]. }
  unfold rewriteHubPeerEndpoint. destruct host as [h|]; [|intros He; apply H1; by rewrite He].
  destruct (bool_decide_reflect (rewrite_allowed_if text ips = "" \/ h = "")) as [_|_].
  { intros He. apply H1. by rewrite He. }
  intros He. apply H1, split_lines_empty, (rewrite_endpoint_empty h 0 false false), Forall_forall.
  intros y Hy. assert (sall (fun _ => false) y = true) as Hf by (eapply sall_join_inv; [|exact Hy]; by rewrite He).
  by destruct y.
Qed.

(** * What a sync leaves behind *)

Lemma CIDR_chars n : re_test CIDR_RE n = true -> csv_token n /\ no_char cr n.
Proof.
  intros H. split; [apply csv_token_word|]; [by intros ->|by apply (re_chars _ _ _ H)|by apply (re_chars _ _ _ H)].
Qed.

Lemma check_hook_nets_CIDR t remote peers localNets u : check_hook_nets t remote peers localNets = Ok u ->
  Forall (fun n => re_test CIDR_RE n = true) remote.
Proof.
  unfold check_hook_nets. intros (us & H%mapM_Ok & _)%bind_Ok.
  assert (Forall (fun n => re_test CIDR_RE n = true) (t :: localNets ++ remote ++ peers)) as Hf.
  { clear -H. induction H as [|n u l us Hn _ IH]; constructor; [|done].
    unfold assertCIDR in Hn. apply throw_if_Ok in Hn. by apply negb_false_iff. }
  rewrite Forall_cons, !Forall_app in Hf. tauto.
Qed.

(** A configuration that was normalised had CIDRs for the networks to masquerade. *)
Lemma normalize_remote text remote v localNets text' : text <> "" ->
  normalizeAgentConfig text remote v localNets = Ok text' -> Forall (fun n => re_test CIDR_RE n = true) remote.
Proof.
  intros Ht. unfold normalizeAgentConfig. destruct (decide (text = "")); [done|].
  rewrite normalize_lines_eq. destruct (hook_lines _ _ _ _) as [hooks|] eqn:Hh; [|done]. intros _.
  unfold hook_lines in Hh. apply bind_Ok in Hh as (up & Hu & _). unfold buildHubPostUp in Hu.
  apply bind_Ok in Hu as (i & _ & (u & Hc & _)%bind_Ok). by eapply check_hook_nets_CIDR.
Qed.

Section one_agent.
Variable WG_HUB_HOST : string.
Context (text : string) (nets : list string) (iface : string) (localNets : list string) (text' : string).
Hypothesis Htidy : tidy_config text = true.
Hypothesis Hsync : sync_text WG_HUB_HOST text nets iface localNets = Ok text'.

Let host := configuredHubHost WG_HUB_HOST.
Let wanted := new_allowed text nets.
Let text1 := rewrite_allowed_if text wanted.
Let text2 := rewriteHubPeerEndpoint text1 host.

Lemma elem_of_hub_wanted n : n ∈ wanted <-> n = deriveTunnelSubnet text \/ n ∈ nets.
Proof. unfold wanted, new_allowed, computeHubPeerAllowedIPs. by rewrite elem_of_sort_strings, elem_of_uniq, elem_of_cons. Qed.

Lemma wanted_text : join "," wanted = sorted_text wanted.
Proof.
  unfold sorted_text, wanted, new_allowed, computeHubPeerAllowedIPs. f_equal. apply sort_strings_unique. symmetry. apply sort_strings_perm.
Qed.

Lemma sync_normalizes : exists i, sanitizeWgInterface (VStr iface) = Ok i /\
  normalizeAgentConfig text2 (sort_strings nets) (VStr i) localNets = Ok text'.
Proof. apply bind_Ok. exact Hsync. Qed.

Lemma hub_wanted_tokens : Forall (fun n => csv_token n /\ no_char cr n) wanted.
Proof.
  destruct sync_normalizes as (i & _ & Hn). apply normalize_remote in Hn; [|by apply sync_rewrites_ne].
  apply Forall_forall. intros n [->|Hin]%elem_of_hub_wanted; [apply derive_token|].
  apply CIDR_chars. rewrite Forall_forall in Hn. apply Hn. by apply elem_of_sort_strings.
Qed.

Lemma text1_facts : tidy_config text1 = true /\ deriveTunnelSubnet text1 = deriveTunnelSubnet text /\
  (if has_allowed 0 false (split_lines text) then parseHubPeerAllowedIPs text1 ≡ₚ wanted
   else hub_lines 0 false (split_lines text1) = []).
Proof.
  pose proof hub_wanted_tokens as Htok. assert (Forall csv_token wanted) as Hcsv by (eapply Forall_impl; [exact Htok|]; by intros ? []).
  unfold text1, rewrite_allowed_if. destruct (decide _) as [He|_].
  - split_and!; [done..|]. destruct (has_allowed 0 false (split_lines text)) eqn:Hh.
    + rewrite wanted_text in He. symmetry. apply sorted_text_perm; [done|apply parseHub_tokens|done].
    + unfold has_allowed in Hh. apply bool_decide_eq_false, dec_stable in Hh. exact Hh.
  - destruct (reframed_tidy text _ Htidy (reframed_allowed wanted 0 false false (split_lines text)
      ltac:(eapply Forall_impl; [exact Htok|]; intros n [[_ [_ [? _]]] ?]; done))) as (Ht & _ & Hd).
    split_and!; [done..|]. destruct (has_allowed 0 false (split_lines text)) eqn:Hh.
    + by rewrite parse_rewriteHubPeerAllowedIPs, Hh.
    + by rewrite hub_lines_rewriteHub, Hh.
Qed.

(** The endpoint rewrite, as lines. *)
Definition host_lines (ls : list string) : list string :=
  match host with Some h => rewrite_endpoint h 0 false false ls | None => ls end.

Lemma host_ok : match host with Some h => hub_host h | None => True end.
Proof. unfold host, configuredHubHost. destruct (sanitizeHubHost _) eqn:Hh; [by eapply sanitizeHubHost_ok|done]. Qed.

Lemma host_text t : tidy_config t = true -> rewriteHubPeerEndpoint t host = join (String nl "") (host_lines (split_lines t)).
Proof.
  intros Ht. pose proof host_ok as Hh. unfold rewriteHubPeerEndpoint, host_lines. destruct host as [h|].
  - rewrite bool_decide_false; [done|]. destruct Hh as [Hne _]. intros [->|He]; [done|by apply Hne].
  - symmetry. apply join_split_lines. apply (tidy_clean _ Ht).
Qed.

Lemma host_lines_facts ls : Forall clean_line ls -> reframed ls (host_lines ls) /\
  hub_lines 0 false (host_lines ls) = hub_lines 0 false ls /\ host_lines (host_lines ls) = host_lines ls.
Proof.
  intros Hc. pose proof host_ok as Hh. unfold host_lines. destruct host as [h|].
  - split_and!; [by apply reframed_endpoint|by apply hub_lines_endpoint|by apply rewrite_endpoint_idemp].
  - split_and!; [|done..]. clear. induction ls; constructor; done.
Qed.

Lemma text2_facts : tidy_config text2 = true /\ deriveTunnelSubnet text2 = deriveTunnelSubnet text1 /\
  split_lines text2 = host_lines (split_lines text1) /\
  hub_lines 0 false (split_lines text2) = hub_lines 0 false (split_lines text1).
Proof.
  destruct text1_facts as (Ht1 & _ & _). destruct (tidy_clean _ Ht1) as (_ & Hc & _).
  destruct (host_lines_facts _ Hc) as (Hr & Hl & _). unfold text2. rewrite host_text by done.
  destruct (reframed_tidy text1 _ Ht1 Hr) as (Ht & Hs & Hd). by rewrite Hs.
Qed.

Lemma synced_facts : tidy_config text' = true /\ deriveTunnelSubnet text' = deriveTunnelSubnet text /\
  (if has_allowed 0 false (split_lines text) then parseHubPeerAllowedIPs text' ≡ₚ wanted
   else hub_lines 0 false (split_lines text') = []).
Proof.
  destruct text1_facts as (_ & Hd1 & Hp). destruct text2_facts as (Ht2 & Hd2 & _ & Hl2).
  destruct sync_normalizes as (i & _ & Hn). destruct (normalizeAgentConfig_fixed _ _ _ _ _ Ht2 Hn) as (Ht & Hd & Hl & _).
  split_and!; [done|by rewrite Hd, Hd2|]. unfold parseHubPeerAllowedIPs in *.
  rewrite parse_hub_lines, Hl, Hl2, <- parse_hub_lines. exact Hp.
Qed.

Lemma synced_host_lines : host_lines (split_lines text') = split_lines text'.
Proof.
  destruct text1_facts as (Ht1 & _ & _). destruct (tidy_clean _ Ht1) as (_ & Hc & _).
  destruct text2_facts as (Ht2 & _ & Hs2 & _). destruct sync_normalizes as (i & _ & Hn).
  destruct (normalized_lines _ _ _ _ _ Ht2 Hn) as (A & ins & B & Hs & HAB & Hins). rewrite Hs.
  pose proof host_ok as Hh. unfold host_lines in *. destruct host as [h|]; [|done].
  apply rewrite_endpoint_insert; [done|]. rewrite HAB, rewrite_endpoint_norm by done. f_equal.
  by rewrite Hs2, rewrite_endpoint_idemp.
Qed.

(** The second sync finds nothing to change. *)
Lemma sync_again : sync_text WG_HUB_HOST text' nets iface localNets = Ok text'.
Proof.
  destruct synced_facts as (Ht & Hd & Hp). destruct text2_facts as (Ht2 & _).
  destruct sync_normalizes as (i & Hi & Hn). destruct (normalizeAgentConfig_fixed _ _ _ _ _ Ht2 Hn) as (_ & _ & _ & Hf).
  assert (new_allowed text' nets = wanted) as Hw by (unfold wanted, new_allowed; by rewrite Hd).
  assert (no_char cr text') as Hcr by apply (tidy_clean _ Ht).
  assert (rewrite_allowed_if text' wanted = text') as Hra.
  { unfold rewrite_allowed_if. destruct (decide _) as [|Hne]; [done|].
    destruct (has_allowed 0 false (split_lines text)).
    - exfalso. apply Hne. rewrite wanted_text. by apply sorted_text_eq.
    - unfold rewriteHubPeerAllowedIPs. rewrite rewrite_allowed_none by done. by apply join_split_lines. }
  unfold sync_text. rewrite Hw, Hra. fold host. rewrite host_text, synced_host_lines, join_split_lines by done.
  rewrite Hi. exact Hf.
Qed.
End one_agent.

(** * The fleet, one agent at a time *)

Section fleet.
Variable sha256 : string -> string.
Variable WG_HUB_HOST : string.
Variable m : mesh.

Definition patch_of (a : agent_row) : option string :=
  match syncOneAgent sha256 WG_HUB_HOST a m with Ok (_, p) => p | Throw _ => None end.

Definition outcome_of (a : agent_row) : sync_outcome :=
  match syncOneAgent sha256 WG_HUB_HOST a m with Ok (o, _) => o | Throw e => SyncFailed e end.

(** The row of an agent that is synced on its own. *)
Definition synced_row (a : agent_row) : agent_row :=
  if negb (ag_is_deleted a) && bool_decide (is_Some (ag_wg_link_name a))
  then match patch_of a with Some t => store_config sha256 t a | None => a end else a.

Definition report (a : agent_row) : sync_result := SyncResult (ag_id a) (ag_name a) (outcome_of a).

Definition act (a b : agent_row) : agent_row :=
  if ag_id b =? ag_id a then match patch_of a with Some t => store_config sha256 t b | None => b end else b.

Lemma sync_step_eq db rs a : sync_step sha256 WG_HUB_HOST m (db, rs) a = (act a <$> db, rs ++ [report a]).
Proof.
  assert (forall db : agent_db, (fun b => if ag_id b =? ag_id a then b else b) <$> db = db) as Hid.
  { intros d. rewrite <- (list_fmap_id d) at 2. apply list_fmap_ext. intros _ b _. by destruct (_ =? _). }
  unfold sync_step, act, report, outcome_of, patch_of.
  destruct (syncOneAgent _ _ a m) as [[o [t|]]|e]; [done|by rewrite Hid..].
Qed.

Lemma fold_sync l db rs : fold_left (sync_step sha256 WG_HUB_HOST m) l (db, rs) =
  ((fun b => fold_left (fun b a => act a b) l b) <$> db, rs ++ (report <$> l)).
Proof.
  revert db rs. induction l as [|a l IH]; intros db rs; cbn [fold_left].
  - by rewrite list_fmap_id, app_nil_r.
  - rewrite sync_step_eq, IH, <- list_fmap_compose, <- app_assoc. done.
Qed.

Lemma act_id a b : ag_id (act a b) = ag_id b.
Proof. unfold act. destruct (_ =? _); [|done]. by destruct (patch_of a). Qed.

Lemma fold_act_other l b : ag_id b ∉ ag_id <$> l -> fold_left (fun b a => act a b) l b = b.
Proof.
  revert b. induction l as [|a l IH]; intros b; [done|]. rewrite fmap_cons, not_elem_of_cons. intros [Ha Hl].
  cbn [fold_left]. rewrite IH by (by rewrite act_id). unfold act. by rewrite (proj2 (Z.eqb_neq _ _)).
Qed.

Lemma fold_act_self l a : NoDup (ag_id <$> l) -> a ∈ l -> fold_left (fun b a => act a b) l a = act a a.
Proof.
  intros Hn Ha. induction l as [|c l IH]; [by apply elem_of_nil in Ha|]. rewrite fmap_cons in Hn.
  apply NoDup_cons in Hn as [Hc Hn]. apply elem_of_cons in Ha as [->|Ha]; cbn [fold_left].
  - rewrite fold_act_other; [done|]. by rewrite act_id.
  - assert (act c a = a) as ->; [|by apply IH]. unfold act. rewrite (proj2 (Z.eqb_neq _ _)); [done|].
    intros He. apply Hc. rewrite <- He. by apply list_elem_of_fmap_2.
Qed.

Lemma syncAgents_eq db : unique_ids db ->
  fold_left (sync_step sha256 WG_HUB_HOST m) (sync_agents db) (db, []) = (synced_row <$> db, report <$> sync_agents db).
Proof.
  intros Hu. rewrite fold_sync. f_equal. apply list_fmap_ext. intros i b Hb. apply list_elem_of_lookup_2 in Hb.
  assert (NoDup (ag_id <$> sync_agents db)) as Hn.
  { assert (sublist (ag_id <$> sync_agents db) (ag_id <$> db)) as Hs; [|by eapply sublist_NoDup].
    unfold sync_agents, bfilter. clear. induction db as [|a db IH]; [done|]. cbn [List.filter].
    destruct (_ && _); cbn [fmap list_fmap]; by constructor. }
  unfold synced_row. destruct (negb (ag_is_deleted b) && _) eqn:Hs.
  - rewrite fold_act_self; [|done|by apply elem_of_bfilter]. unfold act. by rewrite Z.eqb_refl.
  - apply fold_act_other. intros (a & He & Ha)%list_elem_of_fmap. apply elem_of_bfilter in Ha as [Ha Hsel].
    assert (b = a) as -> by (by apply (unique_row db)). by rewrite Hs in Hsel.
Qed.
End fleet.

(** * Access lists are stable *)

Definition acl_normal (n : string) : Prop := canonicalizeIpv4Network n = Some n /\ isAcceptableNetworkPrefix n = true.

Lemma canonicalize_idemp s c : canonicalizeIpv4Network s = Some c -> canonicalizeIpv4Network c = Some c.
Proof.
  rewrite canonicalizeIpv4Network_eq. destruct (decide (length _ = 1%nat)) as [|_]; [done|].
  intros (n & _ & Hn & ->)%canonicalCidr_Some. rewrite canonicalizeIpv4Network_eq, canonicalCidr_show by done.
  pose proof (net_wf_addr n Hn) as [Ha Hl]. rewrite show_net_trim by (done || lia). destruct n as [x p].
  by rewrite show_net_split by (done || (cbn in *; lia)).
Qed.

Lemma acl_fold_normal nets out l : foldM acl_entry out nets = Ok l ->
  NoDup out -> Forall acl_normal out -> NoDup l /\ Forall acl_normal l /\ (out <> [] \/ nets <> [] -> l <> []).
Proof.
  revert out. induction nets as [|n nets IH]; intros out; cbn [foldM].
  - intros [= <-]. naive_solver.
  - intros (out' & Hn & Hf)%bind_Ok Hd Ho. unfold acl_entry in Hn.
    destruct (canonicalizeIpv4Network n) as [c|] eqn:Hc; [|done].
    destruct (isAcceptableNetworkPrefix c) eqn:Hp; [|done]. injection Hn as <-.
    assert (acl_normal c) as Hnc by (split; [by eapply canonicalize_idemp|done]).
    apply IH in Hf as (? & ? & Hne); [|destruct (decide _); [done|apply NoDup_app; split_and!; [done|set_solver|apply NoDup_singleton]]
      |destruct (decide _); [done|apply Forall_app; split; [done|by apply Forall_singleton]]].
    split_and!; [done..|]. intros _. apply Hne. left.
    destruct (decide (c ∈ out)) as [Hin|_]; [intros ->; by apply elem_of_nil in Hin|by destruct out].
Qed.

Lemma acl_fold_id out l : NoDup (out ++ l) -> Forall acl_normal l -> foldM acl_entry out l = Ok (out ++ l).
Proof.
  intros Hd Hl. revert out Hd. induction Hl as [|n l [Hc Hp] Hl IH]; intros out Hd; [cbn; by rewrite app_nil_r|].
  assert (acl_entry out n = Ok (out ++ [n])) as Hn.
  { unfold acl_entry. rewrite Hc, Hp, decide_False; [done|].
    intros Hin. apply NoDup_app in Hd as (_ & Hd & _). apply (Hd n Hin). left. }
  cbn [foldM]. rewrite Hn. cbn [mbind result_bind]. rewrite IH; by rewrite <- app_assoc.
Qed.

Lemma acl_tokens l : Forall acl_normal l -> bfilter nonempty (trim ∘ str_truthy "" <$> (VStr <$> l)) = l.
Proof.
  induction 1 as [|n l [Hc _] _ IH]; [done|]. apply canonicalize_token in Hc as [(Hne & _ & _ & Ht) _].
  rewrite !fmap_cons. unfold compose at 1. assert (str_truthy "" (VStr n) = n) as ->.
  { unfold str_truthy. cbn [truthy to_string]. by rewrite bool_decide_true. }
  rewrite Ht. unfold bfilter in *. cbn [List.filter]. unfold nonempty at 1. rewrite bool_decide_true by done. by rewrite IH.
Qed.

Lemma parse_strings l : l <> [] -> parseAllowedSites (Some (json_strings l)) = Some (uniq (bfilter nonempty (trim <$> l))).
Proof.
  intros Hne. unfold parseAllowedSites. rewrite json_parse_strings. destruct l as [|x l]; [done|].
  cbn [fmap list_fmap]. change (list_fmap _ _ VStr l) with (VStr <$> l). by rewrite <- list_fmap_compose.
Qed.

(** * Properties *)

(** Every agent is synced as if it were alone: its row depends on its own data only, and an
    agent whose configuration cannot be built keeps its row and stops nobody else's sync. *)
Theorem syncAgentConfigs_isolated sha256 host links db : unique_ids db ->
  syncAgentConfigs sha256 host links db =
  (synced_row sha256 host (meshIndex links) <$> db, report sha256 host (meshIndex links) <$> sync_agents db) /\
  forall a e, syncOneAgent sha256 host a (meshIndex links) = Throw e -> synced_row sha256 host (meshIndex links) a = a.
Proof.
  intros Hu. split; [by apply syncAgents_eq|]. intros a e He. unfold synced_row, patch_of. rewrite He. by destruct (_ && _).
Qed.

Definition ex_row (id : Z) (link : string) (text : string) : agent_row :=
  AgentRow id "site" "native" None (Some "t") None "wg0" (Some text) None None None (Some link) None "active"
    None None None false "open" None None None None None None false.

Definition ex_links : links_map :=
  [("wg0:k1", LinkMeta "berlin" "site-to-site" (Some ["192.168.1.0/24"]));
   ("wg0:k2", LinkMeta "wien" "site-to-site" (Some ["192.168.2.0/24"]));
   ("wg0:k3", LinkMeta "phone" "client" (Some ["192.168.9.0/24"]))].

Definition ex_sha (s : string) : string := showZ (Z.of_nat (String.length s)).

Lemma syncAgentConfigs_isolated_witness :
  syncAgentConfigs ex_sha "hub.example" ex_links [ex_row 1 "berlin" ex_conf; ex_row 2 "wien" ex_conf] =
  (synced_row ex_sha "hub.example" (meshIndex ex_links) <$> [ex_row 1 "berlin" ex_conf; ex_row 2 "wien" ex_conf],
   report ex_sha "hub.example" (meshIndex ex_links) <$> sync_agents [ex_row 1 "berlin" ex_conf; ex_row 2 "wien" ex_conf]).
Proof.
  refine (proj1 (syncAgentConfigs_isolated ex_sha "hub.example" ex_links [ex_row 1 "berlin" ex_conf; ex_row 2 "wien" ex_conf] _)).
  vm_compute. repeat constructor; set_solver.
Defined.

Section changed.
Variable sha256 : string -> string.
Variable host : string.
Context (a : agent_row) (m : mesh) (o : sync_outcome) (text' : string).
Hypothesis Hsync : syncOneAgent sha256 host a m = Ok (o, Some text').

(** The run of a sync that stores a configuration. *)
Lemma sync_changed_inv : exists lm text, mget (or_empty (ag_wg_link_name a)) (linksByName m) = Some lm /\
  set_has (ambiguousLinkNames m) (or_empty (ag_wg_link_name a)) = false /\
  ag_config_text a = Some text /\ text <> "" /\
  sync_text host text (on_nets (agentOtherSiteNets a lm m)) (ag_wg_interface a) (local_nets a lm) = Ok text' /\
  hashConfig sha256 text' <> ag_config_hash a.
Proof.
  unfold syncOneAgent in Hsync. destruct (set_has _ _) eqn:Ha; [done|]. destruct (mget _ _) as [lm|] eqn:Hm; [|done].
  destruct (decide _) as [|Hne]; [done|]. apply bind_Ok in Hsync as (t & Ht & Hs).
  destruct (decide (hashConfig sha256 t = _)) as [|Hh]; [done|]. injection Hs as _ <-.
  exists lm. destruct (ag_config_text a) as [text|]; [|by destruct Hne]. exists text. by split_and!.
Qed.
End changed.

Lemma sync_quiet sha256 host a m o : syncOneAgent sha256 host a m = Ok (o, None) ->
  o = SyncUnchanged \/ exists reason, o = SyncSkipped reason.
Proof.
  unfold syncOneAgent. destruct (set_has _ _); [intros [= <-]; eauto|]. destruct (mget _ _); [|intros [= <-]; eauto].
  destruct (decide _); [intros [= <-]; eauto|]. intros (t & _ & Hd)%bind_Ok. destruct (decide _); [injection Hd as <-; eauto|done].
Qed.

(** The run of a sync that finds the configuration as it should be: the text with this hash is
    the one stored, so the rewriting of the stored text gives that text again. *)
Lemma sync_unchanged_inv sha256 host a m text : syncOneAgent sha256 host a m = Ok (SyncUnchanged, None) ->
  ag_config_text a = Some text -> ag_config_hash a = hashConfig sha256 text ->
  (forall t, hashConfig sha256 t = hashConfig sha256 text -> t = text) ->
  exists lm, mget (or_empty (ag_wg_link_name a)) (linksByName m) = Some lm /\
    sync_text host text (on_nets (agentOtherSiteNets a lm m)) (ag_wg_interface a) (local_nets a lm) = Ok text.
Proof.
  intros Hsync Ht Hh Hinj. unfold syncOneAgent in Hsync. destruct (set_has _ _); [done|].
  destruct (mget _ _) as [lm|]; [|done]. exists lm. split; [done|]. rewrite Ht in Hsync.
  change (or_empty (Some text)) with text in Hsync. destruct (decide _); [done|].
  apply bind_Ok in Hsync as (t & Hs & Hd). destruct (decide _) as [He|]; [|done].
  rewrite Hs. f_equal. apply Hinj. by rewrite He, Hh.
Qed.

(** What the row of an agent holds after its sync. *)
Definition text_after (a : agent_row) (p : option string) : string := or_empty (match p with Some t => Some t | None => ag_config_text a end).

(** C10. The hub is authoritative: after a sync of an agent that was not skipped, whether it
    changed the stored configuration or found it right already, the hub peer of that
    configuration holds exactly the tunnel subnet and the networks the agent may reach, each
    once, whatever it listed before; a removed network is gone. This is so when the hub peer has
    an AllowedIPs line at all: one without that line is given none, and grants nothing. The text
    is written as wg-quick files are ([tidy_config]), and the hash stored beside it is that of
    the text and of no other. *)
Theorem sync_authoritative sha256 host links a o p text :
  syncOneAgent sha256 host a (meshIndex links) = Ok (o, p) -> (forall reason, o <> SyncSkipped reason) ->
  ag_config_text a = Some text -> tidy_config text = true -> ag_config_hash a = hashConfig sha256 text ->
  (forall t, hashConfig sha256 t = hashConfig sha256 text -> t = text) ->
  exists lm, mget (or_empty (ag_wg_link_name a)) (linksByName (meshIndex links)) = Some lm /\
    if has_allowed 0 false (split_lines text)
    then NoDup (parseHubPeerAllowedIPs (text_after a p)) /\
      forall n, n ∈ parseHubPeerAllowedIPs (text_after a p) <->
        n = deriveTunnelSubnet (text_after a p) \/ n ∈ on_nets (agentOtherSiteNets a lm (meshIndex links))
    else parseHubPeerAllowedIPs (text_after a p) = [].
Proof.
  intros Hsync Ho Htext Ht Hh Hinj.
  assert (exists lm, mget (or_empty (ag_wg_link_name a)) (linksByName (meshIndex links)) = Some lm /\
    sync_text host text (on_nets (agentOtherSiteNets a lm (meshIndex links))) (ag_wg_interface a) (local_nets a lm) =
      Ok (text_after a p)) as (lm & Hm & Hs).
  { destruct p as [text'|].
    - apply sync_changed_inv in Hsync as (lm & text0 & Hm & _ & Ht0 & _ & Hs & _). rewrite Htext in Ht0.
      injection Ht0 as <-. by exists lm.
    - pose proof (sync_quiet _ _ _ _ _ Hsync) as [->|[reason ->]]; [|by destruct (Ho reason)].
      unfold text_after. rewrite Htext. exact (sync_unchanged_inv _ _ _ _ _ Hsync Htext Hh Hinj). }
  exists lm. split; [done|]. destruct (synced_facts _ _ _ _ _ _ Ht Hs) as (_ & Hd & Hp).
  destruct (has_allowed _ _ _); [|by unfold parseHubPeerAllowedIPs; rewrite parse_hub_lines, Hp].
  split; [rewrite Hp; unfold new_allowed, computeHubPeerAllowedIPs; rewrite sort_strings_perm; apply NoDup_uniq|].
  intros n. rewrite Hp, Hd. apply elem_of_hub_wanted.
Qed.

Definition ex_agent : agent_row := store_config (fun s => s) ex_conf (ex_row 1 "berlin" ex_conf).

Lemma sync_authoritative_witness : exists o text',
  syncOneAgent (fun s => s) "hub.example" ex_agent (meshIndex ex_links) = Ok (o, Some text') /\
  parseHubPeerAllowedIPs text' = ["10.10.0.0/24"; "192.168.2.0/24"] /\ NoDup (parseHubPeerAllowedIPs text') /\
  syncOneAgent (fun s => s) "hub.example" (store_config (fun s => s) text' ex_agent) (meshIndex ex_links) = Ok (SyncUnchanged, None).
Proof.
  eexists _, _. split; [vm_compute; reflexivity|]. split; [vm_compute; reflexivity|].
  split; [|vm_compute; reflexivity]. 
  match goal with |- NoDup (parseHubPeerAllowedIPs ?t) =>
    destruct (sync_authoritative (fun s => s) "hub.example" ex_links ex_agent
      (SyncChanged ["10.10.0.0/24"; "192.168.2.0/24"] ["192.168.2.0/24"] true true) (Some t) ex_conf) as (lm & _ & Hn) end;
    [vm_compute; reflexivity|done|reflexivity|vm_compute; reflexivity|reflexivity| |].
  - intros t. unfold hashConfig. destruct (decide (ex_conf = "")) as [|_]; [discriminate|].
    destruct (decide (t = "")); congruence.
  - exact (proj1 Hn).
Defined.

(** The sync converges in one step: with the same metadata the next run finds the stored
    configuration unchanged, so no agent is told to reconfigure its tunnel again. *)
Theorem sync_converges sha256 host m a o text' :
  syncOneAgent sha256 host a m = Ok (o, Some text') ->
  tidy_config (or_empty (ag_config_text a)) = true ->
  syncOneAgent sha256 host (store_config sha256 text' a) m = Ok (SyncUnchanged, None).
Proof.
  intros (lm & text & Hm & Ha & Ht0 & Hne & Hs & _)%sync_changed_inv Ht. rewrite Ht0 in Ht. change (or_empty (Some text)) with text in Ht.
  pose proof (sync_again _ _ _ _ _ _ Ht Hs) as Hag. destruct (synced_facts _ _ _ _ _ _ Ht Hs) as (Htd & _).
  assert (text' <> "") as Hne' by (by intros ->). unfold syncOneAgent.
  change (ag_wg_link_name (store_config sha256 text' a)) with (ag_wg_link_name a). rewrite Ha, Hm.
  change (or_empty (ag_config_text (store_config sha256 text' a))) with text'. rewrite decide_False by done.
  change (agentOtherSiteNets (store_config sha256 text' a) lm m) with (agentOtherSiteNets a lm m).
  change (local_nets (store_config sha256 text' a) lm) with (local_nets a lm).
  change (ag_wg_interface (store_config sha256 text' a)) with (ag_wg_interface a). rewrite Hag.
  cbn [mbind result_bind]. by rewrite decide_True by done.
Qed.

Lemma sync_converges_witness : exists o text',
  syncOneAgent ex_sha "hub.example" (ex_row 1 "berlin" ex_conf) (meshIndex ex_links) = Ok (o, Some text') /\
  syncOneAgent ex_sha "hub.example" (store_config ex_sha text' (ex_row 1 "berlin" ex_conf)) (meshIndex ex_links) = Ok (SyncUnchanged, None).
Proof.
  eexists _, _. split; [vm_compute; reflexivity|].
  refine (sync_converges ex_sha "hub.example" (meshIndex ex_links) (ex_row 1 "berlin" ex_conf)
    (SyncChanged ["10.10.0.0/24"; "192.168.2.0/24"] ["192.168.2.0/24"] true true) _ _ _); vm_compute; reflexivity.
Defined.

(** An accepted access list is in normal form (canonical networks of at least /8, each
    once), it is accepted again unchanged, and the column it is stored in reads back as it. *)
Theorem sanitizeAclNetworks_roundtrip v l : sanitizeAclNetworks v = Ok (Some l) ->
  l <> [] /\ NoDup l /\
  (forall n, n ∈ l -> canonicalizeIpv4Network n = Some n /\ isAcceptableNetworkPrefix n = true) /\
  sanitizeAclNetworks (VArr (VStr <$> l)) = Ok (Some l) /\
  parseAllowedSites (Some (json_strings l)) = Some l.
Proof.
  unfold sanitizeAclNetworks at 1. destruct (is_nullish v); [done|]. destruct v as [| | | | |vs|]; try done.
  destruct (decide _) as [|Hne]; [done|]. destruct (foldM _ _ _) as [l'|] eqn:Hf; [|done]. intros [= ->].
  apply acl_fold_normal in Hf as (Hd & Hn & Hl); [|constructor..]. specialize (Hl (or_intror Hne)).
  pose proof (acl_tokens l Hn) as Ht. split_and!; [done..|by apply Forall_forall| |].
  - unfold sanitizeAclNetworks. cbn [is_nullish]. rewrite Ht, uniq_NoDup, decide_False by done.
    by rewrite (acl_fold_id [] l).
  - rewrite parse_strings by done. assert (trim <$> l = l) as ->.
    { clear -Hn. induction Hn as [|n l [(Htk & _)%canonicalize_token _] _ IH]; [done|].
      rewrite fmap_cons, csv_token_trim by done. by rewrite IH. }
    assert (bfilter nonempty l = l) as ->; [|by rewrite uniq_NoDup].
    clear -Hn. induction Hn as [|n l [((Hne & _) & _)%canonicalize_token _] _ IH]; [done|].
    unfold bfilter in *. cbn [List.filter]. unfold nonempty at 1. rewrite bool_decide_true by done. by rewrite IH.
Qed.

Lemma sanitizeAclNetworks_roundtrip_witness :
  sanitizeAclNetworks (VArr [VStr " 10.1.2.3/16"; VStr "10.1.0.0/16"; VStr "192.168.4.0/24"]) = Ok (Some ["10.1.0.0/16"; "192.168.4.0/24"]) /\
  parseAllowedSites (Some (json_strings ["10.1.0.0/16"; "192.168.4.0/24"])) = Some ["10.1.0.0/16"; "192.168.4.0/24"].
Proof.
  assert (sanitizeAclNetworks (VArr [VStr " 10.1.2.3/16"; VStr "10.1.0.0/16"; VStr "192.168.4.0/24"]) =
    Ok (Some ["10.1.0.0/16"; "192.168.4.0/24"])) as H by (vm_compute; reflexivity).
  split; [exact H|]. destruct (sanitizeAclNetworks_roundtrip _ _ H) as (_ & _ & _ & _ & Hp). exact Hp.
Defined.
