(* ===== verification/WgMeta.v ===== *)
(** The metadata of the hub: the document of [backend/internal/wireguard.js] that names
    interfaces and links.

    An entry is a JavaScript object whose fields the sanitizers write; a patch may hold a
    field with the value [undefined], which clears it. The store is rewritten as a whole
    under one lock: every operation here is one read, change and write. *)

From S2P Require Import Prelude.
From S2P Require Import JsString.
From S2P Require Import JsRegex.
From S2P Require Import Cidr.
From S2P Require Import JsVal.
From S2P Require Import IngressRules.
From S2P Require Import ConfText.
From S2P Require Import WgConf.
From S2P Require Import AgentText.
From S2P Require Import AgentMesh.

Local Open Scope Z_scope.

(** * The document *)

Definition obj : Type := list (string * jsval).

Record meta_store := MetaStore { ms_interfaces : list (string * obj); ms_links : list (string * obj) }.

Inductive meta_error : Type :=
| MetaTypeError
| DnsNotArray
| InvalidDns (s : string)
| InvalidNetwork (s : string)
| Ipv6Network (s : string)
| NetworkTooShort (s : string)
| NameTaken (name : string).

#[export] Instance meta_error_eq_dec : EqDecision meta_error.
Proof. solve_decision. Defined.

(** [o.f] and [Object.hasOwn(o, f)] *)
Definition oget (f : string) (o : obj) : jsval := default VUndef (mget f o).
Definition has_own (v : jsval) (f : string) : bool := match v with VObj l => mhas f l | _ => false end.

(** * Validation of the fields *)

Definition RETURN_PATH_MODES : list string := ["auto"; "routed"; "static-route"; "nat"; "unknown"].
Definition REMOTE_MANAGEMENT_MODES : list string := ["none"; "ssh"; "agent"; "unknown"].
Definition MANAGEMENT_MODES : list string := ["local"; "imported"; "unknown"].
Definition INTERFACE_ROLES : list string := ["client-hub"; "site-to-site"; "hub-link"; "auxiliary"; "unknown"].

(** "" is [undefined]. *)
Definition normalizeInterfaceRole (role : string) : string :=
  if decide (role = "") then ""
  else if decide (role = "site-link") then "site-to-site"
  else if set_has INTERFACE_ROLES role then role else "".

Definition str_val (s : string) : jsval := if decide (s = "") then VUndef else VStr s.

Definition strs (l : list string) : jsval := VArr (VStr <$> l).

Definition sanitizeStringArray (value : jsval) : list string :=
  match value with
  | VArr l => uniq (bfilter (fun s => negb (bool_decide (s = ""))) ((fun item => trim (str_truthy "" item)) <$> l))
  | _ => []
  end.

(** ** Names of hosts and addresses: [net.isIP] of node and [DNS_NAME_RE] *)

Definition rhex : re := RChar (fun c => is_digit c || in_range "a" "f" c || in_range "A" "F" c).
Definition v4Seg : re :=
  RAlt (RSeq (rlit "25") (RChar (in_range "0" "5")))
    (RAlt (RSeq (rlit "2") (RSeq (RChar (in_range "0" "4")) rdigit))
      (RAlt (RSeq (rlit "1") (RSeq rdigit rdigit)) (RAlt (RSeq (RChar (in_range "1" "9")) rdigit) rdigit))).
Definition v4Str : re := RSeq (rrep 3 0 (RSeq v4Seg (rlit "."))) v4Seg.
Definition v6Seg : re := rrep 1 3 rhex.
Definition colon : re := rlit ":".
Definition segs (n : nat) : re := rrep n 0 (RSeq v6Seg colon).
Definition colon_segs (n m : nat) : re := rrep n m (RSeq colon v6Seg).

(** After [n] groups and their colons: the dotted tail, further groups, or an end. *)
Definition v6_line (n m : nat) : re :=
  RSeq (segs n) (RAlt (RSeq (colon_segs 0 m) (RSeq colon v4Str)) (RAlt (colon_segs 1 (S m)) colon)).

Definition IPV6_RE : re :=
  RSeq
    (RAlt (RSeq (segs 7) (RAlt v6Seg colon))
      (RAlt (RSeq (segs 6) (RAlt v4Str (RAlt (RSeq colon v6Seg) colon)))
        (RAlt (v6_line 5 0) (RAlt (v6_line 4 1) (RAlt (v6_line 3 2) (RAlt (v6_line 2 3) (RAlt (v6_line 1 4)
          (RSeq colon (RAlt (RSeq (colon_segs 0 5) (RSeq colon v4Str)) (RAlt (colon_segs 1 6) colon))))))))))
    (ropt (RSeq (rlit "%") (rplus (RChar (fun c => is_alnum c || one_of ["-"; "."; ":"]%char c))))).

Definition isIP (s : string) : bool := re_test v4Str s || re_test IPV6_RE s.

Definition rlabel : re := RSeq (RChar is_alnum) (rupto 62 (RChar (fun c => is_alnum c || is_char "-" c))).
Definition DNS_NAME_RE : re :=
  RAnd (rrep 1 252 rany) (RSeq rlabel (RSeq (RStar (RSeq (rlit ".") rlabel)) (ropt (rlit ".")))).

Definition isValidDnsEntry (value : jsval) : bool :=
  let s := trim (str_or "" value) in isIP s || re_test DNS_NAME_RE s.

Definition dns_step (out : list string) (item : jsval) : result meta_error (list string) :=
  let s := trim (str_or "" item) in
  if decide (s = "") then Ok out
  else throw_if (negb (isValidDnsEntry (VStr s))) (InvalidDns s);; Ok (push_new out s).

Definition sanitizeDnsArray (value : jsval) : result meta_error (list string) :=
  match value with
  | VNull | VUndef => Ok []
  | VArr l => foldM dns_step [] l
  | _ => Throw DnsNotArray
  end.

Definition isSafeLinkName (value : jsval) : bool := sall (fun c => negb (is_control c)) (str_or "" value).

Definition stripLinkNameControlChars (value : jsval) : string :=
  smap (fun c => if is_control c then "" else String c "") (to_string value).

Definition network_step (out : list string) (item : jsval) : result meta_error (list string) :=
  let raw := trim (str_or "" item) in
  if decide (raw = "") then Ok out
  else
    match canonicalizeIpv4Network raw with
    | None => Throw (if includes ":" raw then Ipv6Network raw else InvalidNetwork raw)
    | Some canon => throw_if (negb (isAcceptableNetworkPrefix canon)) (NetworkTooShort raw);; Ok (out ++ [canon])
    end.

Definition sanitizeNetworkArray (value : jsval) : result meta_error (list string) :=
  match value with
  | VArr l => out ← foldM network_step [] l; Ok (uniq out)
  | _ => Ok []
  end.

(** * Patches *)

(** [if (Object.hasOwn(input, f)) sanitized.f = clean(input.f);] *)
Definition field (input : jsval) (f : string) (clean : jsval -> result meta_error jsval) (out : obj) : result meta_error obj :=
  if has_own input f then v ← clean (vget input f); Ok (out ++ [(f, v)]) else Ok out.

(** [SET.has(v ? String(v) : undefined) ? String(v) : undefined] *)
Definition one_of_set (set : list string) (v : jsval) : jsval :=
  if truthy v && set_has set (to_string v) then VStr (to_string v) else VUndef.

Definition networks (v : jsval) : result meta_error jsval := l ← sanitizeNetworkArray v; Ok (strs l).
Definition dns_list (v : jsval) : result meta_error jsval := l ← sanitizeDnsArray v; Ok (strs l).
Definition pure_field (f : jsval -> jsval) (v : jsval) : result meta_error jsval := Ok (f v).
Definition opt_text (v : jsval) : jsval := if truthy v then VStr (to_string v) else VUndef.

(** The default [{}] stands in for [undefined]; [null] makes [Object.hasOwn] throw. *)
Definition sanitizeInterfaceMetadataPatch (input : jsval) : result meta_error obj :=
  throw_if (match input with VNull => true | _ => false end) MetaTypeError;;
  out ← field input "role" (pure_field (fun v => str_val (normalizeInterfaceRole (str_truthy "" v)))) [];
  out ← field input "managementMode" (pure_field (one_of_set MANAGEMENT_MODES)) out;
  out ← field input "exportedNetworks" networks out;
  out ← field input "importedNetworks" networks out;
  out ← field input "routeTargets" networks out;
  out ← field input "notes" (pure_field (fun v => strs (sanitizeStringArray v))) out;
  field input "dns" dns_list out.

Definition clean_name (v : jsval) : jsval := if truthy v then VStr (stripLinkNameControlChars v) else VUndef.
Definition clean_platform (v : jsval) : jsval :=
  match v with VStr s => if set_has ["desktop"; "mobile"] s then v else VUndef | _ => VUndef end.

Definition sanitizeLinkMetadataPatch (input : jsval) : result meta_error obj :=
  throw_if (match input with VNull => true | _ => false end) MetaTypeError;;
  out ← field input "name" (pure_field clean_name) [];
  out ← field input "type" (pure_field (fun v => str_val (normalizeLinkType (str_truthy "" v)))) out;
  out ← field input "exportedNetworks" networks out;
  out ← field input "importedNetworks" networks out;
  out ← field input "returnPathMode" (pure_field (one_of_set RETURN_PATH_MODES)) out;
  out ← field input "remoteManagementMode" (pure_field (one_of_set REMOTE_MANAGEMENT_MODES)) out;
  out ← field input "planIntent" (pure_field opt_text) out;
  out ← field input "planState" (pure_field opt_text) out;
  out ← field input "dns" dns_list out;
  out ← field input "fullTunnel" (pure_field (fun v => VBool (truthy v))) out;
  out ← field input "platform" (pure_field clean_platform) out;
  field input "notes" (pure_field (fun v => strs (sanitizeStringArray v))) out.

(** * The store *)

(** [{ ...current, ...patch }], then without the fields that are [undefined]. *)
Definition mergeMetadataEntry (current patch : obj) : obj :=
  bfilter (fun kv => negb (is_undef kv.2)) (foldl (fun m kv => mset kv.1 kv.2 m) current patch).

(** [for (const [k, v] of Object.entries(patch)) entries[k] = merge(entries[k] || {}, sanitize(v))] *)
Definition merge_entries (clean : jsval -> result meta_error obj) (entries : list (string * obj)) (patch : jsval)
    : result meta_error (list (string * obj)) :=
  match patch with
  | VObj l =>
      foldM (fun es kv => p ← clean kv.2; Ok (mset kv.1 (mergeMetadataEntry (default [] (mget kv.1 es)) p) es)) entries l
  | _ => Ok entries
  end.

Definition mergeMetadataStorePatch (store : meta_store) (patch : jsval) : result meta_error meta_store :=
  interfaces ← merge_entries sanitizeInterfaceMetadataPatch (ms_interfaces store) (vget patch "interfaces");
  links ← merge_entries sanitizeLinkMetadataPatch (ms_links store) (vget patch "links");
  Ok (MetaStore interfaces links).

(** [l.name], as a text; "" when absent. *)
Definition name_of (o : obj) : string := match oget "name" o with VStr s => s | _ => "" end.

Definition type_of (o : obj) : string := match oget "type" o with VStr s => s | _ => "" end.

(** [newName] and [oldName] "" stand for [undefined] and empty names. *)
Definition assertUniqueLinkName (store : meta_store) (linkId newName oldName : string) : result meta_error unit :=
  if bool_decide (newName = "" \/ newName = oldName) then Ok tt
  else throw_if (existsb (fun kl => negb (bool_decide (kl.1 = linkId)) && bool_decide (name_of kl.2 = newName)) (ms_links store))
         (NameTaken newName).

(** [applyMetadataPatch]: the check of the caller, then the merge; [previous] is the store read. *)
Definition applyMetadataPatch (validate : meta_store -> result meta_error unit) (store : meta_store) (patch : jsval)
    : result meta_error (meta_store * meta_store) :=
  validate store;;
  next ← mergeMetadataStorePatch store patch;
  Ok (next, store).

(** ** The check of PUT /metadata on the projected store *)

(** A live link as the check reads it: id, type, key and name. *)
Record live_link := LiveLink { lv_id : string; lv_type : string; lv_key : string; lv_name : string }.

(** [projected[id] = { ...(projected[id] || {}), ...p }] for every patched link. *)
Definition project_links (links sLinks : list (string * obj)) : list (string * obj) :=
  foldl (fun es kp => mset kp.1 (foldl (fun m kv => mset kv.1 kv.2 m) (default [] (mget kp.1 es)) kp.2) es) links sLinks.

(** The stored name, else the generated one of a live peer; "" when there is none. *)
Definition effective_name (live : list live_link) (projected : list (string * obj)) (id : string) : string :=
  let entry := default [] (mget id projected) in
  if decide (name_of entry <> "") then name_of entry
  else
    match bfind (fun l => bool_decide (lv_id l = id)) (rev live) with
    | None => ""
    | Some l =>
        if decide (lv_key l = "") then lv_name l
        else (if decide (type_of entry = "") then lv_type l else type_of entry)
             +:+ "-" +:+ stake 8 (lv_key l)
    end.

Definition check_name (patched : list string) (name : string -> string) (owner : list (string * string)) (id : string)
    : result meta_error (list (string * string)) :=
  if decide (name id = "") then Ok owner
  else
    match mget (name id) owner with
    | Some other =>
        throw_if (bool_decide (id ∈ patched \/ other ∈ patched)) (NameTaken (name id));; Ok (mset (name id) id owner)
    | None => Ok (mset (name id) id owner)
    end.

Definition checkProjectedNames (live : list live_link) (sLinks : list (string * obj)) (store : meta_store) : result meta_error unit :=
  let projected := project_links (ms_links store) sLinks in
  foldM (check_name sLinks.*1 (effective_name live projected)) [] (uniq ((lv_id <$> live) ++ projected.*1));;
  Ok tt.

(** ** The writes of the peer handlers *)

(** The fields of [updatePeer] that the request gives. *)
Definition update_patch (changes : jsval) : result meta_error obj :=
  let given f clean out := if negb (is_undef (vget changes f)) then v ← clean (vget changes f); Ok (out ++ [(f, v)]) else Ok out in
  out ← given "importedNetworks" networks [];
  out ← given "name" (pure_field clean_name) out;
  out ← given "type" (pure_field (fun v => str_val (normalizeLinkType (match v with VStr s => s | _ => "" end)))) out;
  out ← given "dns" dns_list out;
  out ← given "fullTunnel" (pure_field (fun v => VBool (truthy v))) out;
  given "platform" (pure_field clean_platform) out.

Definition update_link_meta (store : meta_store) (linkId : string) (patch : obj) : result meta_error meta_store :=
  let current := default [] (mget linkId (ms_links store)) in
  assertUniqueLinkName store linkId (name_of patch) (name_of current);;
  Ok (MetaStore (ms_interfaces store) (mset linkId (mergeMetadataEntry current patch) (ms_links store))).

Definition delete_link_meta (store : meta_store) (linkId : string) : meta_store :=
  MetaStore (ms_interfaces store) (mdel linkId (ms_links store)).

(** The key rotation moves the entry to the new id. *)
Definition move_link_meta (store : meta_store) (oldId newId : string) : meta_store :=
  match mget oldId (ms_links store) with
  | Some e => MetaStore (ms_interfaces store) (mdel oldId (mset newId e (ms_links store)))
  | None => store
  end.

(** [delete store.interfaces[name]] and every link whose id starts with the name and a colon. *)
Definition delete_interface_meta (store : meta_store) (name : string) : meta_store :=
  MetaStore (mdel name (ms_interfaces store))
    (bfilter (fun kl => negb (starts_with (name +:+ ":") kl.1)) (ms_links store)).

(** ** The view of the text functions *)

Definition strings_of (v : jsval) : list string :=
  match v with VArr l => omap as_string l | _ => [] end.

Definition link_meta_of (o : obj) : link_meta :=
  LinkMeta (name_of o) (type_of o)
    (if mhas "importedNetworks" o then Some (strings_of (oget "importedNetworks" o)) else None).

Definition links_of_store (store : meta_store) : list (string * link_meta) :=
  (fun kl => (kl.1, link_meta_of kl.2)) <$> ms_links store.

(** * Networks claimed twice *)

(** The entries of [findLinkNetworkConflicts]: the networks of the links that are not clients. *)
Record claim := Claim { cl_id : string; cl_name : string; cl_net : string }.

Definition claims_of (kl : string * obj) : list claim :=
  if bool_decide (type_of kl.2 = "client") then []
  else
    (fun net => Claim kl.1 (if decide (name_of kl.2 = "") then kl.1 else name_of kl.2) net) <$>
      bfilter (fun net => negb (isHostRoute net)) (strings_of (oget "importedNetworks" kl.2)).

Definition clashing (changed : option (list string)) (a b : claim) : bool :=
  negb (bool_decide (cl_id a = cl_id b)) &&
  match changed with Some c => bool_decide (cl_id a ∈ c \/ cl_id b ∈ c) | None => true end &&
  networksOverlap (cl_net a) (cl_net b).

Fixpoint clashes (changed : option (list string)) (l : list claim) : list (claim * claim) :=
  match l with
  | [] => []
  | a :: l => ((a,.) <$> bfilter (clashing changed a) l) ++ clashes changed l
  end.

(** The conflicts as pairs of claims; the source renders each as a text. *)
Definition findLinkNetworkConflicts (links : list (string * obj)) (changed : option (list string)) : list (claim * claim) :=
  clashes changed (links ≫= claims_of).

Record peer_nets := PeerNets { pn_name : string; pn_allowedIps : list string }.

(** [checkAllowedIPsConflicts]: the network, the one it overlaps, and its peer. *)
Definition checkAllowedIPsConflicts (proposed : list string) (existing : list peer_nets) : list (string * string * string) :=
  bfilter (fun n => negb (isHostRoute n)) proposed ≫= fun net =>
    existing ≫= fun link =>
      match bfind (networksOverlap net) (bfilter (fun ip => negb (isHostRoute ip)) (pn_allowedIps link)) with
      | Some hit => [(net, hit, pn_name link)]
      | None => []
      end.

(** * What the store holds *)

(** A field as the sanitizers write it. *)
Definition field_ok (f : string) (v : jsval) : Prop :=
  v = VUndef \/
  if decide (f ∈ ["exportedNetworks"; "importedNetworks"; "routeTargets"])
  then exists l, v = strs l /\ NoDup l /\ Forall acl_normal l
  else if decide (f = "name") then exists s, v = VStr s /\ sall (fun c => negb (is_control c)) s = true
  else if decide (f = "type") then exists t, v = VStr t /\ t ∈ LINK_TYPES
  else if decide (f = "dns") then exists l, v = strs l /\ NoDup l /\ forall s, s ∈ l -> isValidDnsEntry (VStr s) = true
  else True.

Definition patch_fields_ok (o : obj) : Prop := forall f v, (f, v) ∈ o -> field_ok f v.

(** An entry of the store: no field is [undefined]. *)
Definition entry_ok (o : obj) : Prop := forall f v, (f, v) ∈ o -> v <> VUndef /\ field_ok f v.

Lemma network_step_Ok out item out' : network_step out item = Ok out' ->
  out' = out \/ exists c, out' = out ++ [c] /\ acl_normal c.
Proof.
  unfold network_step. destruct (decide _); [intros [= <-]; by left|].
  destruct (canonicalizeIpv4Network _) as [c|] eqn:Hc; [|done]. intros (u & Ha%throw_if_Ok & [= <-])%bind_Ok.
  right. exists c. split; [done|]. split; [by eapply canonicalize_idemp|by apply negb_false_iff].
Qed.

Lemma sanitizeNetworkArray_Ok v l : sanitizeNetworkArray v = Ok l -> NoDup l /\ Forall acl_normal l.
Proof.
  unfold sanitizeNetworkArray. destruct v; try by intros [= <-]; split; constructor.
  intros (out & Hout & [= <-])%bind_Ok. split; [apply NoDup_uniq|].
  assert (Forall acl_normal out) as Hf.
  { apply (foldM_inv _ (Forall acl_normal) _ _ _) in Hout; [done| |constructor].
    intros b x c _ Hb [->|(d & -> & Hd)]%network_step_Ok; [done|]. apply Forall_app. split; [done|by apply Forall_singleton]. }
  rewrite Forall_forall in *. intros x. rewrite elem_of_uniq. apply Hf.
Qed.

Lemma sanitizeDnsArray_Ok v l : sanitizeDnsArray v = Ok l -> NoDup l /\ forall s, s ∈ l -> isValidDnsEntry (VStr s) = true.
Proof.
  unfold sanitizeDnsArray. destruct v; try done; try (intros [= <-]; split; [constructor|by intros s ?%elem_of_nil]).
  intros H. apply (foldM_inv _ (fun out => NoDup out /\ forall s, s ∈ out -> isValidDnsEntry (VStr s) = true) _ _ _) in H; [done| |].
  - intros b x c _ [Hn Hb] Hs. unfold dns_step in Hs. destruct (decide _); [by injection Hs as <-|].
    apply bind_Ok in Hs as (u & Hv%throw_if_Ok%negb_false_iff & [= <-]). split; [by apply push_new_NoDup|].
    intros s [Hs| ->]%elem_of_push_new; [by apply Hb|done].
  - split; [constructor|by intros s ?%elem_of_nil].
Qed.

(** What a cleaner of the field [f] returns. *)
Definition cleans (f : string) (clean : jsval -> result meta_error jsval) : Prop :=
  forall v w, clean v = Ok w -> field_ok f w.

Lemma field_Ok input f clean out out' : cleans f clean -> patch_fields_ok out ->
  field input f clean out = Ok out' -> patch_fields_ok out'.
Proof.
  intros Hc Hout. unfold field. destruct (has_own input f); [|by intros [= <-]].
  intros (v & Hv & [= <-])%bind_Ok. intros g w [Hin|[= -> ->]%list_elem_of_singleton]%elem_of_app; [by apply Hout|by eapply Hc].
Qed.

Lemma cleans_networks f : f ∈ ["exportedNetworks"; "importedNetworks"; "routeTargets"] -> cleans f networks.
Proof.
  intros Hf v w (l & Hl & [= <-])%bind_Ok. right. rewrite decide_True by done. exists l. split; [done|]. by eapply sanitizeNetworkArray_Ok.
Qed.

Lemma cleans_dns : cleans "dns" dns_list.
Proof.
  intros v w (l & Hl & [= <-])%bind_Ok. right. rewrite decide_False by (vm_compute; set_solver).
  do 2 rewrite decide_False by done. rewrite decide_True by done. exists l. split; [done|]. by eapply sanitizeDnsArray_Ok.
Qed.

Lemma cleans_name : cleans "name" (pure_field clean_name).
Proof.
  intros v w [= <-]. unfold clean_name. destruct (truthy v); [|by left]. right.
  rewrite decide_False by (vm_compute; set_solver). rewrite decide_True by done. eexists. split; [done|].
  apply sall_smap. intros c. destruct (is_control c) eqn:Hc; [done|]. cbn. by rewrite Hc.
Qed.

Lemma normalizeLinkType_types s : normalizeLinkType s <> "" -> normalizeLinkType s ∈ LINK_TYPES.
Proof.
  unfold normalizeLinkType. destruct (decide (s = "")); [done|]. destruct (decide (s = "site-link")); [intros _; set_solver|].
  destruct (set_has LINK_TYPES s) eqn:H; [|done]. intros _. by apply set_has_spec.
Qed.

Lemma cleans_type g : cleans "type" (pure_field (fun v => str_val (normalizeLinkType (g v)))).
Proof.
  intros v w [= <-]. unfold str_val. destruct (decide _) as [|Hne]; [by left|]. right.
  rewrite decide_False by (vm_compute; set_solver). rewrite decide_False by done. rewrite decide_True by done.
  eexists. split; [done|]. by apply normalizeLinkType_types.
Qed.

Lemma cleans_other f g : f ∉ ["exportedNetworks"; "importedNetworks"; "routeTargets"; "name"; "type"; "dns"] -> cleans f (pure_field g).
Proof.
  rewrite !not_elem_of_cons. intros (? & ? & ? & ? & ? & ? & _) v w [= <-]. right.
  rewrite decide_False by (rewrite !elem_of_cons, elem_of_nil; naive_solver). do 3 rewrite decide_False by done. done.
Qed.

Create HintDb cleaners.
#[export] Hint Resolve cleans_dns cleans_name cleans_type : cleaners.
#[export] Hint Extern 1 (cleans _ networks) => apply cleans_networks; set_solver : cleaners.
#[export] Hint Extern 2 (cleans _ (pure_field _)) => apply cleans_other; set_solver : cleaners.

(** Follows a chain of [field] calls. *)
Ltac fields_ok :=
  repeat match goal with
  | H : (_ ≫= _) = Ok _ |- _ => apply bind_Ok in H as (? & ? & ?)
  | H : field _ _ _ ?o = Ok ?o', Ho : patch_fields_ok ?o |- _ => apply field_Ok in H; [|eauto with cleaners|exact Ho]
  end; try done.

Lemma nothing_ok : patch_fields_ok [].
Proof. by intros f v ?%elem_of_nil. Qed.

Lemma sanitizeLink_ok input p : sanitizeLinkMetadataPatch input = Ok p -> patch_fields_ok p.
Proof. pose proof nothing_ok. unfold sanitizeLinkMetadataPatch. intros. fields_ok. Qed.

Lemma sanitizeInterface_ok input p : sanitizeInterfaceMetadataPatch input = Ok p -> patch_fields_ok p.
Proof. pose proof nothing_ok. unfold sanitizeInterfaceMetadataPatch. intros. fields_ok. Qed.

Lemma mset_entries {V} (k k' : string) (v v' : V) m : (k', v') ∈ mset k v m -> (k' = k /\ v' = v) \/ (k', v') ∈ m.
Proof.
  induction m as [|[q w] m IH]; csimpl.
  - intros [= -> ->]%list_elem_of_singleton. by left.
  - destruct (decide (q = k)) as [->|]; rewrite !elem_of_cons; [intros [[= -> ->]|?]; auto|intros [?|?%IH]; naive_solver].
Qed.

Lemma elem_of_msets {V} (p : list (string * V)) m k v : (k, v) ∈ foldl (fun m kv => mset kv.1 kv.2 m) m p -> (k, v) ∈ m \/ (k, v) ∈ p.
Proof.
  revert m. induction p as [|[q w] p IH]; intros m; [by left|]. cbn [foldl]. intros [[[-> ->]|H]%mset_entries|H]%IH.
  - right. left.
  - by left.
  - right. by right.
Qed.

Lemma merge_ok current p : entry_ok current -> patch_fields_ok p -> entry_ok (mergeMetadataEntry current p).
Proof.
  intros Hc Hp f v [H Hv]%elem_of_bfilter. split; [by intros ->|].
  apply elem_of_msets in H as [H|H]; [by apply Hc|by apply Hp].
Qed.

Lemma no_entry_ok : entry_ok [].
Proof. by intros f v ?%elem_of_nil. Qed.

Definition entries_ok (es : list (string * obj)) : Prop := NoDup es.*1 /\ forall k o, (k, o) ∈ es -> entry_ok o.

Lemma entries_get es k : entries_ok es -> entry_ok (default [] (mget k es)).
Proof.
  intros [_ H]. destruct (mget k es) as [o|] eqn:Ho; [|apply no_entry_ok]. by apply (H k), mget_elem_of.
Qed.

Lemma entries_set es k o : entries_ok es -> entry_ok o -> entries_ok (mset k o es).
Proof.
  intros [Hn H] Ho. split; [by apply NoDup_mset|]. intros k' o' [[-> ->]|Hin]%mset_entries; [done|by apply (H k')].
Qed.

Lemma entries_filter es p : entries_ok es -> entries_ok (bfilter p es).
Proof.
  intros [Hn H]. split; [|intros k o [Hin _]%elem_of_bfilter; by apply (H k)].
  eapply sublist_NoDup; [exact Hn|]. apply fmap_sublist. unfold bfilter. clear. induction es as [|x es IH]; [done|]. cbn.
  destruct (p x); by constructor.
Qed.

Lemma entries_del es k : entries_ok es -> entries_ok (mdel k es).
Proof.
  intros [Hn H]. split; [by apply NoDup_mdel|]. intros k' o Hin. apply (H k'). unfold mdel in Hin. by apply list_elem_of_filter in Hin as [_ ?].
Qed.

Lemma merge_entries_ok clean es patch es' : (forall v p, clean v = Ok p -> patch_fields_ok p) ->
  entries_ok es -> merge_entries clean es patch = Ok es' -> entries_ok es'.
Proof.
  intros Hc He H. unfold merge_entries in H. destruct patch as [| | | | | |l]; try by injection H as <-.
  apply (foldM_inv _ entries_ok _ _ _) in H; [done| |done].
  intros b [k v] c _ Hb (p & Hp & [= <-])%bind_Ok. apply entries_set; [done|]. apply merge_ok; [by apply entries_get|by eapply Hc].
Qed.

Definition store_fine (st : meta_store) : Prop := entries_ok (ms_interfaces st) /\ entries_ok (ms_links st).

Lemma merge_store_ok st patch st' : store_fine st -> mergeMetadataStorePatch st patch = Ok st' -> store_fine st'.
Proof.
  intros [Hi Hl] H. unfold mergeMetadataStorePatch in H. apply bind_Ok in H as (ifs & Hifs & H). apply bind_Ok in H as (ls & Hls & [= <-]).
  split; [apply (merge_entries_ok _ _ _ _ sanitizeInterface_ok Hi Hifs)|apply (merge_entries_ok _ _ _ _ sanitizeLink_ok Hl Hls)].
Qed.

Lemma given_ok changes f clean out out' : cleans f clean -> patch_fields_ok out ->
  (if negb (is_undef (vget changes f)) then v ← clean (vget changes f); Ok (out ++ [(f, v)]) else Ok out) = Ok out' -> patch_fields_ok out'.
Proof.
  intros Hc Hout. destruct (negb _); [|by intros [= <-]].
  intros (v & Hv & [= <-])%bind_Ok. intros g w [Hin|[= -> ->]%list_elem_of_singleton]%elem_of_app; [by apply Hout|by eapply Hc].
Qed.

Lemma update_patch_ok changes p : update_patch changes = Ok p -> patch_fields_ok p.
Proof.
  pose proof nothing_ok as H0. unfold update_patch. intros H.
  repeat match goal with
  | H : (_ ≫= _) = Ok _ |- _ => apply bind_Ok in H as (? & ? & ?)
  | H : (if negb (is_undef (vget changes _)) then _ else _) = Ok ?o', Ho : patch_fields_ok _ |- _ =>
      apply given_ok in H; [|eauto with cleaners|exact Ho]; clear Ho
  end. done.
Qed.

(** * The life of the store *)

(** One write of the store. A new entry is written whole; its [undefined] fields do not
    survive the JSON of the file. *)
Inductive meta_step (st : meta_store) : meta_store -> Prop :=
| MetaApply validate patch st' previous : applyMetadataPatch validate st patch = Ok (st', previous) -> meta_step st st'
| MetaUpdate linkId changes p st' : update_patch changes = Ok p -> update_link_meta st linkId p = Ok st' -> meta_step st st'
| MetaCreate linkId input p : sanitizeLinkMetadataPatch input = Ok p ->
    meta_step st (MetaStore (ms_interfaces st) (mset linkId (mergeMetadataEntry [] p) (ms_links st)))
| MetaCreateInterface name input p : sanitizeInterfaceMetadataPatch input = Ok p ->
    meta_step st (MetaStore (mset name (mergeMetadataEntry [] p) (ms_interfaces st)) (ms_links st))
| MetaDelete linkId : meta_step st (delete_link_meta st linkId)
| MetaMove oldId newId : meta_step st (move_link_meta st oldId newId)
| MetaDeleteInterface name : meta_step st (delete_interface_meta st name).

Lemma meta_step_fine st st' : store_fine st -> meta_step st st' -> store_fine st'.
Proof.
  intros Hst H. pose proof Hst as [Hi Hl]. destruct H as
    [validate patch st' previous H|linkId changes p st' Hp H|linkId input p Hp|name input p Hp|linkId|oldId newId|name].
  - unfold applyMetadataPatch in H. apply bind_Ok in H as (u & _ & H). apply bind_Ok in H as (n & Hn & [= <- _]). by eapply merge_store_ok.
  - unfold update_link_meta in H. apply bind_Ok in H as (u & _ & [= <-]). split; [done|].
    apply entries_set; [done|]. apply merge_ok; [by apply entries_get|by eapply update_patch_ok].
  - split; [done|]. apply entries_set; [done|]. apply merge_ok; [apply no_entry_ok|by eapply sanitizeLink_ok].
  - split; [|done]. apply entries_set; [done|]. apply merge_ok; [apply no_entry_ok|by eapply sanitizeInterface_ok].
  - split; [done|]. by apply entries_del.
  - unfold move_link_meta. destruct (mget oldId _) as [e|] eqn:He; [|done]. split; [done|].
    apply entries_del, entries_set; [done|]. apply mget_elem_of in He. by apply (proj2 Hl oldId).
  - split; [by apply entries_del|by apply entries_filter].
Qed.

(** * Names stay unique *)

(** Two links, one of them patched, that would carry the same name. *)
Definition name_clash (patched : list string) (name : string -> string) (ids : list string) : Prop :=
  exists a b, a ∈ ids /\ b ∈ ids /\ a <> b /\ name a = name b /\ name a <> "" /\ (a ∈ patched \/ b ∈ patched).

Section names.
Variables (patched : list string) (name : string -> string).

(** What the map of owners holds when the links [done] went in without a clash. *)
Definition owners (owner : list (string * string)) (done : list string) : Prop :=
  (forall n o, mget n owner = Some o -> o ∈ done /\ name o = n) /\
  forall d, d ∈ done -> name d <> "" ->
    exists o, mget (name d) owner = Some o /\ (o = d \/ (d ∉ patched /\ o ∉ patched)).

Lemma owners_skip owner done id : name id = "" -> owners owner done -> owners owner (done ++ [id]).
Proof.
  intros Hid [H1 H2]. split.
  - intros n o Ho. destruct (H1 n o Ho). by rewrite elem_of_app; auto.
  - intros d [Hd|Hd%list_elem_of_singleton]%elem_of_app Hne; [by apply H2|congruence].
Qed.

Lemma owners_add owner done id : name id <> "" -> owners owner done ->
  (forall o, mget (name id) owner = Some o -> id ∉ patched /\ o ∉ patched) ->
  owners (mset (name id) id owner) (done ++ [id]).
Proof.
  intros Hid [H1 H2] Hfree. split.
  - intros n o. rewrite mget_mset. destruct (decide (name id = n)) as [<-|]; [intros [= ->]; by rewrite elem_of_app, list_elem_of_singleton; auto|].
    intros Ho. destruct (H1 n o Ho). by rewrite elem_of_app; auto.
  - intros d Hd Hne. rewrite mget_mset. apply elem_of_app in Hd as [Hd| ->%list_elem_of_singleton].
    + destruct (decide (name id = name d)) as [Heq|]; [|by apply H2]. exists id. split; [done|].
      destruct (H2 d Hd Hne) as (o & Ho & Hod). rewrite <- Heq in Ho. destruct (Hfree o Ho) as [Hi Hop].
      right. destruct Hod as [->|[Hdp _]]; by split.
    + exists id. split; [|by left]. by rewrite decide_True.
Qed.

Lemma name_clash_app ids id : name_clash patched name ids -> name_clash patched name (ids ++ [id]).
Proof. intros (a & b & Ha & Hb & H). exists a, b. rewrite !elem_of_app. auto. Qed.

Lemma check_names_loop ids : NoDup ids ->
  match foldM (check_name patched name) [] ids with
  | Ok owner => owners owner ids /\ ~ name_clash patched name ids
  | Throw e => name_clash patched name ids
  end.
Proof.
  induction ids as [|id ids IH] using rev_ind; intros Hnd.
  { split; [split|]; [by intros n o ?|by intros d ?%elem_of_nil|by intros (a & b & ?%elem_of_nil & _)]. }
  apply NoDup_app in Hnd as (Hnd & Hfresh & _). specialize (IH Hnd). rewrite foldM_app.
  destruct (foldM _ [] ids) as [owner|e]; [|by apply name_clash_app]. destruct IH as [Hown Hno].
  cbn [mbind result_bind foldM]. unfold check_name.
  assert (forall a b, a ∈ ids ++ [id] -> b ∈ ids ++ [id] -> a <> b -> name a = name b -> name a <> "" -> a ∈ patched \/ b ∈ patched ->
    (forall d, d ∈ ids -> name d = name id -> name id <> "" -> d ∉ patched /\ id ∉ patched) -> False) as Hpair.
  { intros a b [Ha| ->%list_elem_of_singleton]%elem_of_app [Hb| ->%list_elem_of_singleton]%elem_of_app Hab Heq Hne Hp Hd; [| | |done].
    - apply Hno. by exists a, b.
    - destruct (Hd a Ha Heq); [congruence|]. by destruct Hp.
    - destruct (Hd b Hb (eq_sym Heq)); [congruence|]. by destruct Hp. }
  destruct (decide (name id = "")) as [He|He].
  { split; [by apply owners_skip|]. intros (a & b & Ha & Hb & Hab & Heq & Hne & Hp). apply (Hpair a b Ha Hb Hab Heq Hne Hp). by intros d _ _ ?. }
  destruct (mget (name id) owner) as [o|] eqn:Ho.
  - destruct Hown as [H1 H2]. destruct (H1 _ _ Ho) as [Hoin Hon]. destruct (bool_decide (id ∈ patched \/ o ∈ patched)) eqn:Hp; cbn.
    + exists id, o. rewrite !elem_of_app, list_elem_of_singleton. apply bool_decide_eq_true in Hp.
      assert (id <> o) by (intros ->; apply (Hfresh o Hoin); by left). split_and!; auto.
    + apply bool_decide_eq_false in Hp.
      assert (id ∉ patched /\ o ∉ patched) as [Hi Hop] by (split; intros ?; apply Hp; auto).
      split; [apply owners_add; [done|by split|]; intros o' [= <-]%(eq_trans (eq_sym Ho)); by split|].
      intros (a & b & Ha & Hb & Hab & Heq & Hne & Hpp). apply (Hpair a b Ha Hb Hab Heq Hne Hpp).
      intros d Hd Hdn _. split; [|done]. rewrite <- Hdn in He. destruct (H2 d Hd He) as (o' & Ho' & [->|[? _]]); [|done].
      rewrite Hdn, Ho in Ho'. by injection Ho' as <-.
  - cbn. split; [apply owners_add; [done..|congruence]|].
    intros (a & b & Ha & Hb & Hab & Heq & Hne & Hpp). apply (Hpair a b Ha Hb Hab Heq Hne Hpp).
    intros d Hd Hdn _. rewrite <- Hdn in He. destruct (proj2 Hown d Hd He) as (o' & Ho' & _). congruence.
Qed.
End names.

(** PUT /metadata refuses a patch exactly when, after it, two links would carry the same
    name and the patch touched one of them: links renamed in one patch are compared with
    each other, a swap of two names passes, and an old clash of two other links does not
    block the patch. *)
Theorem metadata_names_unique live sLinks store :
  let projected := project_links (ms_links store) sLinks in
  checkProjectedNames live sLinks store = Ok tt <->
  ~ name_clash sLinks.*1 (effective_name live projected) ((lv_id <$> live) ++ projected.*1).
Proof.
  cbv zeta. unfold checkProjectedNames. set (name := effective_name _ _). set (ids := (lv_id <$> live) ++ _).
  assert (name_clash sLinks.*1 name (uniq ids) <-> name_clash sLinks.*1 name ids) as Hu.
  { unfold name_clash. by setoid_rewrite elem_of_uniq. }
  pose proof (check_names_loop sLinks.*1 name (uniq ids) (NoDup_uniq ids)) as H.
  destruct (foldM _ [] (uniq ids)) as [owner|e]; cbn; rewrite <- Hu; [by destruct H|].
  by split; [|intros []].
Qed.

(** * Networks claimed twice *)

Lemma elem_of_claims kl c : c ∈ claims_of kl <->
  type_of kl.2 <> "client" /\ isHostRoute (cl_net c) = false /\ cl_net c ∈ strings_of (oget "importedNetworks" kl.2) /\
  cl_id c = kl.1 /\ cl_name c = (if decide (name_of kl.2 = "") then kl.1 else name_of kl.2).
Proof.
  unfold claims_of. destruct (bool_decide _) eqn:Ht.
  - apply bool_decide_eq_true in Ht. rewrite elem_of_nil. naive_solver.
  - apply bool_decide_eq_false in Ht. rewrite list_elem_of_fmap. setoid_rewrite elem_of_bfilter. setoid_rewrite negb_true_iff.
    destruct c as [i n t]. cbn. split; [intros (net & [= -> -> ->] & ? & ?); auto|intros (_ & ? & ? & -> & ->); eauto].
Qed.

Lemma clashes_nil changed l : clashes changed l = [] <->
  forall i j a b, (i < j)%nat -> l !! i = Some a -> l !! j = Some b -> clashing changed a b = false.
Proof.
  induction l as [|c l IH]; cbn [clashes]; [split; [intros _ i j a b _ H; by rewrite lookup_nil in H|done]|].
  split.
  - intros [Hf Hr]%app_eq_nil i j a b Hij Ha Hb. destruct j as [|j]; [lia|]. cbn in Hb. destruct i as [|i]; cbn in Ha.
    + injection Ha as <-. apply fmap_nil_inv in Hf. destruct (clashing changed c b) eqn:Hc; [|done].
      assert (b ∈ bfilter (clashing changed c) l) as Hin by (apply elem_of_bfilter; eauto using list_elem_of_lookup_2).
      rewrite Hf in Hin. by apply elem_of_nil in Hin.
    + apply (proj1 IH Hr i j); [lia|done..].
  - intros H. destruct (bfilter (clashing changed c) l) as [|b bs] eqn:Hf.
    + cbn. apply IH. intros i j a b Hij Ha Hb. apply (H (S i) (S j)); [lia|done..].
    + assert (b ∈ bfilter (clashing changed c) l) as [Hin Hc]%elem_of_bfilter by (rewrite Hf; left).
      apply list_elem_of_lookup in Hin as [j Hj]. rewrite (H 0%nat (S j) c b) in Hc; [done|lia|done|done].
Qed.

Lemma clashing_spec changed a b : clashing changed a b = true <->
  cl_id a <> cl_id b /\ match changed with Some c => cl_id a ∈ c \/ cl_id b ∈ c | None => True end /\
  (cl_net a = cl_net b \/ exists x, in_cidr x (cl_net a) /\ in_cidr x (cl_net b)).
Proof.
  unfold clashing. rewrite !andb_true_iff, negb_true_iff, bool_decide_eq_false, (proj2 (networksOverlap_spec _ _)).
  destruct changed; [rewrite bool_decide_eq_true|]; tauto.
Qed.

Lemma clashing_sym changed a b : clashing changed a b = true -> clashing changed b a = true.
Proof. rewrite !clashing_spec. destruct changed; naive_solver. Qed.

(** A save is free of conflicts exactly when no two different site links claim a common
    address: no network of the one equals or overlaps a network of the other, host routes
    and clients apart; with a list of changed links, only pairs with one of them count. *)
Theorem link_conflicts_complete links changed :
  findLinkNetworkConflicts links changed = [] <->
  forall i o j p n m, (i, o) ∈ links -> (j, p) ∈ links -> i <> j ->
    type_of o <> "client" -> type_of p <> "client" ->
    n ∈ strings_of (oget "importedNetworks" o) -> m ∈ strings_of (oget "importedNetworks" p) ->
    isHostRoute n = false -> isHostRoute m = false ->
    match changed with Some c => i ∈ c \/ j ∈ c | None => True end ->
    n <> m /\ ~ exists x, in_cidr x n /\ in_cidr x m.
Proof.
  unfold findLinkNetworkConflicts. set (cs := links ≫= claims_of).
  assert (forall c, c ∈ cs <-> exists kl, c ∈ claims_of kl /\ kl ∈ links) as Hcs by (intros c; apply list_elem_of_bind).
  rewrite clashes_nil. split.
  - intros H i o j p n m Ho Hp Hij Hto Htp Hn Hm Hhn Hhm Hch.
    set (a := Claim i (if decide (name_of o = "") then i else name_of o) n).
    set (b := Claim j (if decide (name_of p = "") then j else name_of p) m).
    assert (a ∈ cs) as [x Hx]%list_elem_of_lookup by (apply Hcs; exists (i, o); by rewrite elem_of_claims).
    assert (b ∈ cs) as [y Hy]%list_elem_of_lookup by (apply Hcs; exists (j, p); by rewrite elem_of_claims).
    assert (clashing changed a b = false) as Hf.
    { destruct (clashing changed a b) eqn:Hc; [|done]. destruct (decide (x < y)%nat) as [Hlt|Hge].
      - by rewrite (H x y a b Hlt Hx Hy) in Hc.
      - apply clashing_sym in Hc. assert (x <> y) by (intros ->; rewrite Hx in Hy; by injection Hy).
        rewrite (H y x b a) in Hc; [done|lia|done..]. }
    apply not_true_iff_false in Hf. rewrite clashing_spec in Hf. cbn in Hf. tauto.
  - intros H x y a b _ [[i o] [Ha Hi]]%list_elem_of_lookup_2%Hcs [[j p] [Hb Hj]]%list_elem_of_lookup_2%Hcs.
    apply elem_of_claims in Ha as (Hto & Hhn & Hn & Hia & _), Hb as (Htp & Hhm & Hm & Hjb & _). cbn in *.
    apply not_true_iff_false. rewrite clashing_spec, Hia, Hjb. intros (Hij & Hch & Hov).
    destruct (H i o j p _ _ Hi Hj Hij Hto Htp Hn Hm Hhn Hhm Hch) as [? ?]. tauto.
Qed.

(** * What requests can put on the hub *)

Definition empty_meta : meta_store := MetaStore [] [].

Lemma meta_history_fine st : rtc meta_step empty_meta st -> store_fine st.
Proof.
  intros H. assert (store_fine empty_meta) as H0 by (split; (split; [constructor|by intros k o ?%elem_of_nil])).
  revert H0. induction H as [|s1 s2 s3 Hs _ IH]; [done|]. intros H0. apply IH. by eapply meta_step_fine.
Qed.

Lemma oget_ok f o : entry_ok o -> oget f o = VUndef \/ field_ok f (oget f o).
Proof.
  intros H. unfold oget. destruct (mget f o) as [v|] eqn:Hv; [|by left]. right. by apply mget_elem_of, H in Hv as [_ ?].
Qed.

Lemma strings_of_strs l : strings_of (strs l) = l.
Proof. cbn. induction l as [|s l IH]; cbn; [done|by rewrite IH]. Qed.

Lemma imported_ok o : entry_ok o -> Forall acl_normal (strings_of (oget "importedNetworks" o)).
Proof.
  intros [->|[->|H]]%(oget_ok "importedNetworks"); [constructor..|].
  rewrite decide_True in H by set_solver. destruct H as (l & -> & _ & Hl). by rewrite strings_of_strs.
Qed.

Lemma links_of_store_get store id meta : mget id (links_of_store store) = Some meta ->
  exists o, (id, o) ∈ ms_links store /\ meta = link_meta_of o.
Proof.
  intros ([i o] & [= -> ->] & Hin)%mget_elem_of%list_elem_of_fmap. by exists o.
Qed.

Lemma reachable_networks st id meta nets : rtc meta_step empty_meta st ->
  mget id (links_of_store st) = Some meta -> lm_importedNetworks meta = Some nets -> Forall acl_normal nets.
Proof.
  intros [_ [_ Hl]]%meta_history_fine (o & Ho & ->)%links_of_store_get Hn. cbn in Hn.
  destruct (mhas _ o); [|done]. injection Hn as <-. by eapply imported_ok, Hl.
Qed.

Lemma reachable_plain st : rtc meta_step empty_meta st -> meta_plain (links_of_store st).
Proof.
  intros Hst id meta nets Hid Hn. eapply Forall_impl; [by eapply reachable_networks|].
  intros n [Hc _]. by apply canonicalize_token in Hc as [? _].
Qed.

(** Whatever requests wrote the metadata, a hub sync routes to a peer with recorded networks
    exactly those networks and the host routes it had: every other AllowedIPs entry is a
    canonical network of /8 or longer, none for a client, and the file stays readable. *)
Theorem hub_routes_only_recorded st confText iface live nics :
  let linksMeta := links_of_store st in
  let plan := syncHubPlan confText linksMeta iface live nics in
  let peers := parsePeersFromConf (split_lines confText) in
  rtc meta_step empty_meta st -> no_char nl iface ->
  Forall (fun n => no_char nl (nic_name n) /\ no_char nl (nic_cidr n)) nics ->
  conf_regular (hp_updates plan) (split_lines confText) = true ->
  forall k ips meta nets, (k, ips) ∈ parsePeersFromConf (split_lines (hp_text plan)) ->
    mget (iface +:+ ":" +:+ k) linksMeta = Some meta -> lm_importedNetworks meta = Some nets ->
    forall net, isHostRoute net = false ->
      (net ∈ ips <-> net ∈ nets /\ normalizeLinkType (lm_type meta) <> "client") /\
      (net ∈ ips -> canonicalizeIpv4Network net = Some net /\ isAcceptableNetworkPrefix net = true).
Proof.
  cbv zeta. intros Hst Hi Hnics Hreg k ips meta nets Hin Hmeta Hnets net Hnet.
  pose proof (reachable_plain st Hst) as Hplain. pose proof (reachable_networks _ _ _ _ Hst Hmeta Hnets) as Hnorm.
  rewrite Forall_forall in Hnorm.
  destruct (plan_peers confText (links_of_store st) iface live nics Hplain Hi Hnics Hreg) as [Hp Heff].
  rewrite Hp in Hin. unfold apply_updates in Hin. apply list_elem_of_fmap in Hin as ([k' cur] & [= <- ->] & Hcur).
  assert (effective_ips (hp_updates (syncHubPlan confText (links_of_store st) iface live nics)) (k, cur) ≡ₚ wanted_ips meta cur) as Hw.
  { rewrite Heff by done. apply new_ips_wanted; [done| |done].
    revert Hcur. apply peers_tokens, split_lines_no_nl_all. }
  assert (net ∈ wanted_ips meta cur <-> net ∈ nets /\ normalizeLinkType (lm_type meta) <> "client") as Hiff.
  { rewrite elem_of_wanted, Hnets. split; [intros [[_ ?]|(? & _ & ? & _)]; [congruence|done]|].
    intros [? ?]. right. split_and!; [done..|]. by apply Hnorm. }
  rewrite Hw. rewrite Hiff. split; [done|]. intros [? _]. by apply Hnorm.
Qed.

Definition ex_meta_store : meta_store :=
  MetaStore [] [("wg0:AAA=", [("type", VStr "site-to-site"); ("importedNetworks", strs ["10.10.5.0/24"])])].

Lemma hub_routes_only_recorded_witness :
  let plan := syncHubPlan WgConf.ex_conf (links_of_store ex_meta_store) "wg0" [] WgConf.ex_nics in
  "10.10.5.0/24" ∈ ["10.10.0.2/32"; "10.10.5.0/24"] /\ canonicalizeIpv4Network "10.10.5.0/24" = Some "10.10.5.0/24" /\
  ("AAA=", ["10.10.0.2/32"; "10.10.5.0/24"]) ∈ parsePeersFromConf (split_lines (hp_text plan)).
Proof.
  assert (("AAA=", ["10.10.0.2/32"; "10.10.5.0/24"]) ∈
    parsePeersFromConf (split_lines (hp_text (syncHubPlan WgConf.ex_conf (links_of_store ex_meta_store) "wg0" [] WgConf.ex_nics)))) as Hin.
  { vm_compute. left. }
  assert (rtc meta_step empty_meta ex_meta_store) as Hst.
  { apply rtc_once. apply (MetaCreate empty_meta "wg0:AAA="
      (VObj [("type", VStr "site-to-site"); ("importedNetworks", VArr [VStr "10.10.5.0/24"])])
      [("type", VStr "site-to-site"); ("importedNetworks", strs ["10.10.5.0/24"])]). vm_compute. reflexivity. }
  destruct (hub_routes_only_recorded ex_meta_store WgConf.ex_conf "wg0" [] WgConf.ex_nics Hst eq_refl
    ltac:(repeat constructor) ltac:(vm_compute; reflexivity) "AAA=" ["10.10.0.2/32"; "10.10.5.0/24"]
    (LinkMeta "" "site-to-site" (Some ["10.10.5.0/24"])) ["10.10.5.0/24"] Hin ltac:(vm_compute; reflexivity) eq_refl
    "10.10.5.0/24" ltac:(vm_compute; reflexivity)) as [H1 H2].
  split_and!; [right; left|apply H2; right; left|exact Hin].
Defined.
