(* ===== verification/WgStatus.v ===== *)
(** What the hub shows of itself: the status functions of [backend/internal/wireguard.js].

    The output of [wg show all dump] and of [ip route show] is read, joined with the
    configuration files and the metadata, and judged: types of links, roles of interfaces,
    routes that are missing, warnings and the next actions.

    The fields of a metadata entry are read in the shapes the sanitizers write. Byte counters
    are integers. Interface names are sorted by code units, which is the order of
    [localeCompare] for the names of lower-case letters and digits the code creates. *)

From S2P Require Import Prelude.
From S2P Require Import JsString.
From S2P Require Import JsVal.
From S2P Require Import Cidr.
From S2P Require Import ConfText.
From S2P Require Import IngressRules.
From S2P Require Import WgConf.
From S2P Require Import WgMeta.
From coqutil Require Import Datatypes.RecordSetters.
Import OCamlLikeNotations.

Local Open Scope Z_scope.

(** * The dump of the live interfaces *)

Definition ACTIVE_HANDSHAKE_WINDOW : Z := 180.

(** [null] is [None]. *)
Record wg_peer := WgPeer {
  pe_publicKey : option string;
  pe_endpoint : option string;
  pe_allowedIps : list string;
  pe_latestHandshake : Z;
  pe_rxBytes : Z;
  pe_txBytes : Z;
  pe_isActive : bool }.

Record wg_iface := WgIface {
  wi_publicKey : option string;
  wi_listenPort : option Z;
  wi_peers : list wg_peer;
  wi_peerCount : Z;
  wi_activePeerCount : Z;
  wi_rxBytes : Z;
  wi_txBytes : Z }.

(** [parts[i]], "" when it is missing; both are falsy. *)
Definition part (parts : list string) (i : nat) : string := default "" (parts !! i).

(** [x || null] *)
Definition or_null (s : string) : option string := if decide (s = "") then None else Some s.

(** [Number.parseInt(x || "0", 10) || 0] *)
Definition int_or_0 (s : string) : Z := default 0 (parse_int (if decide (s = "") then "0" else s)).

Definition dump_peer (now : Z) (parts : list string) : wg_peer :=
  let latestHandshake := int_or_0 (part parts 5) in
  WgPeer (or_null (part parts 1)) (or_null (part parts 3)) (csv_list (part parts 4)) latestHandshake
    (int_or_0 (part parts 6)) (int_or_0 (part parts 7))
    ((0 <? latestHandshake) && (now - latestHandshake <? ACTIVE_HANDSHAKE_WINDOW)).

Definition blank_iface : wg_iface := WgIface None None [] 0 0 0 0.

Definition add_peer (e : wg_iface) (p : wg_peer) : wg_iface :=
  WgIface (wi_publicKey e) (wi_listenPort e) (wi_peers e ++ [p]) (wi_peerCount e + 1)
    (wi_activePeerCount e + (if pe_isActive p then 1 else 0)) (wi_rxBytes e + pe_rxBytes p) (wi_txBytes e + pe_txBytes p).

(** The line of an interface has five fields. *)
Definition dump_iface (parts : list string) : wg_iface :=
  WgIface (or_null (part parts 2))
    (match parse_int (part parts 3) with Some n => if decide (n = 0) then None else Some n | None => None end) [] 0 0 0 0.

Definition dump_line (now : Z) (byInterface : list (string * wg_iface)) (rawLine : string) : list (string * wg_iface) :=
  let line := trim rawLine in
  if decide (line = "") then byInterface
  else
    let parts := split_char tab line in
    let iface := part parts 0 in
    if decide (iface = "") then byInterface
    else if decide (length parts = 5%nat) then mset iface (dump_iface parts) byInterface
    else mset iface (add_peer (default blank_iface (mget iface byInterface)) (dump_peer now parts)) byInterface.

(** [now] is the time in seconds. *)
Definition parseDump (now : Z) (stdout : string) : list (string * wg_iface) :=
  foldl (dump_line now) [] (split_lines stdout).

(** * Links *)

Definition dedupe (values : list string) : list string := uniq (bfilter nonempty values).

Definition classifyLinkType (allowedIps : list string) (ifaceName : string) : string :=
  let privateNetworks := bfilter isPrivateNetwork allowedIps in
  let networkRoutes := bfilter (fun entry => negb (isHostRoute entry)) privateNetworks in
  let hostRoutes := bfilter isHostRoute privateNetworks in
  if bool_decide (ifaceName = "wg0") && (length networkRoutes <=? 1)%nat then "client"
  else if (2 <=? length networkRoutes)%nat then "hub-link"
  else if (1 <=? length networkRoutes)%nat then "site-to-site"
  else if (0 <? length hostRoutes)%nat then "client"
  else if decide (ifaceName = "wg0") then "client" else "unknown".

Definition inferInterfaceRole (name : string) (peers : list wg_peer) : string :=
  if decide (name = "wg0") then "client-hub"
  else
    let linkTypes := (fun p => classifyLinkType (pe_allowedIps p) name) <$> peers in
    if decide ("hub-link" ∈ linkTypes) then "hub-link"
    else if decide ("site-to-site" ∈ linkTypes) then "site-to-site"
    else if (0 <? length peers)%nat then "auxiliary" else "unknown".

Record link_rec := LinkRec {
  lk_id : string;
  lk_interfaceName : string;
  lk_type : string;
  lk_typeExplicit : bool;
  lk_name : string;
  lk_peerPublicKey : option string;
  lk_remoteEndpoint : option string;
  lk_allowedIps : list string;
  lk_tunnelAddresses : list string;
  lk_exportedNetworks : list string;
  lk_importedNetworks : list string;
  lk_latestHandshake : Z;
  lk_rxBytes : Z;
  lk_txBytes : Z;
  lk_active : bool;
  lk_hasMetadata : bool;
  lk_returnPathMode : string;
  lk_remoteManagementMode : string;
  lk_platform : option string;
  lk_dns : list string;
  lk_fullTunnel : bool;
  lk_planIntent : string;
  lk_planState : option string;
  lk_notes : list string;
  lk_warnings : list string;
  lk_nextActions : list string }.

(** The text and the list in a field of an entry; "" and [] when it has none. *)
Definition text_of (f : string) (o : obj) : string := match oget f o with VStr s => s | _ => "" end.
Definition list_of (f : string) (o : obj) : list string := strings_of (oget f o).

(** [xs?.length ? xs : ys] *)
Definition list_or (xs ys : list string) : list string := match xs with [] => ys | _ => xs end.

(** [s || t] *)
Definition text_or (s t : string) : string := if decide (s = "") then t else s.

(** The networks of the AllowedIPs that are routed. *)
Definition routed_nets (allowedIps : list string) : list string :=
  bfilter (fun entry => isPrivateNetwork entry && negb (isHostRoute entry)) allowedIps.

Definition link_id (ifaceName : string) (peer : wg_peer) (index : Z) : string :=
  ifaceName +:+ ":" +:+ default (showZ index) (pe_publicKey peer).

Definition buildLinkRecord (ifaceName : string) (peer : wg_peer) (index : Z) (metadata : obj) : link_rec :=
  let importedNetworks := list_or (list_of "importedNetworks" metadata) (dedupe (routed_nets (pe_allowedIps peer))) in
  let type := text_or (normalizeLinkType (text_of "type" metadata)) (classifyLinkType (pe_allowedIps peer) ifaceName) in
  {| lk_id := link_id ifaceName peer index;
     lk_interfaceName := ifaceName;
     lk_type := type;
     lk_typeExplicit := nonempty (normalizeLinkType (text_of "type" metadata));
     lk_name := text_or (text_of "name" metadata)
       (match pe_publicKey peer with Some k => type +:+ "-" +:+ stake 8 k | None => type +:+ "-" +:+ showZ (index + 1) end);
     lk_peerPublicKey := pe_publicKey peer;
     lk_remoteEndpoint := pe_endpoint peer;
     lk_allowedIps := pe_allowedIps peer;
     lk_tunnelAddresses := dedupe (bfilter isHostRoute (pe_allowedIps peer));
     lk_exportedNetworks := list_of "exportedNetworks" metadata;
     lk_importedNetworks := importedNetworks;
     lk_latestHandshake := pe_latestHandshake peer;
     lk_rxBytes := pe_rxBytes peer;
     lk_txBytes := pe_txBytes peer;
     lk_active := pe_isActive peer;
     lk_hasMetadata := negb (bool_decide (metadata.*1 = []));
     lk_returnPathMode :=
       if set_has RETURN_PATH_MODES (text_of "returnPathMode" metadata) then text_of "returnPathMode" metadata
       else match importedNetworks with [] => "routed" | _ => "unknown" end;
     lk_remoteManagementMode :=
       if set_has REMOTE_MANAGEMENT_MODES (text_of "remoteManagementMode" metadata) then text_of "remoteManagementMode" metadata
       else "none";
     lk_platform := or_null (text_of "platform" metadata);
     lk_dns := list_of "dns" metadata;
     lk_fullTunnel := truthy (oget "fullTunnel" metadata);
     lk_planIntent := text_or (text_of "planIntent" metadata) type;
     lk_planState := or_null (text_of "planState" metadata);
     lk_notes := list_of "notes" metadata;
     lk_warnings := [];
     lk_nextActions := [] |}.

(** * Routes of the host *)

Record route := Route { rt_destination : string; rt_device : option string; rt_via : option string; rt_raw : string }.

(** [\w] *)
Definition is_word (c : ascii) : bool := is_alnum c || is_char "_" c.

(** [\s+(\S+)] at the start of [s]: at least one space, then the word. *)
Fixpoint nonspaces (s : string) : string :=
  match s with "" => "" | String c r => if is_space c then "" else String c (nonspaces r) end.

Definition spaced_word (s : string) : option string :=
  match s with
  | String c r => if is_space c then or_null (nonspaces (trim_start r)) else None
  | "" => None
  end.

(** [/\bword\s+(\S+)/]: the first match; [after_word] holds when the character before is one of [\w]. *)
Fixpoint word_value (word : string) (after_word : bool) (s : string) : option string :=
  let here := if negb after_word && starts_with word s then spaced_word (sdrop (String.length word) s) else None in
  match here, s with
  | Some v, _ => Some v
  | None, "" => None
  | None, String c r => word_value word (is_word c) r
  end.

Definition parse_route (line : string) : route :=
  Route (nonspaces line) (word_value "dev" false line) (word_value "via" false line) line.

Record route_table := RouteTable { rs_all : list route; rs_wireguard : list route; rs_privateRoutes : list route }.

Definition is_wg_device (r : route) : bool := starts_with "wg" (default "" (rt_device r)).

(** The output of the command; [None]: it failed. *)
Definition getRoutes (stdout : option string) : route_table :=
  match stdout with
  | None => RouteTable [] [] []
  | Some out =>
      let parsed := parse_route <$> bfilter nonempty (trim <$> split_lines out) in
      RouteTable parsed (bfilter is_wg_device parsed)
        (bfilter (fun r => negb (bool_decide (rt_destination r = "default")) && isPrivateNetwork (rt_destination r)) parsed)
  end.

(** * Interfaces *)

Record iface_status := IfaceStatus {
  if_name : string;
  if_isHub : bool;
  if_role : string;
  if_managementMode : string;
  if_configExists : bool;
  if_active : bool;
  if_addresses : list string;
  if_listenPort : option Z;
  if_publicKey : option string;
  if_peerCount : Z;
  if_activePeerCount : Z;
  if_rxBytes : Z;
  if_txBytes : Z;
  if_privateKeyPresent : bool;
  if_peerNetworks : list string;
  if_importedNetworks : list string;
  if_exportedNetworks : list string;
  if_dns : list string;
  if_routeTargets : list string;
  if_health : string;
  if_notes : list string;
  if_peers : list wg_peer }.

(** The text of the configuration file ("" when there is none) and the counters of
    /sys/class/net are read outside. *)
Definition getInterfaceStatus (name configText : string) (rxBytes txBytes : Z) (dumpByInterface : list (string * wg_iface))
    (metadataStore : meta_store) : iface_status :=
  let parsedConfig := parseConfig configText in
  let dump := mget name dumpByInterface in
  let peers := match dump with Some d => wi_peers d | None => [] end in
  let metadata := default [] (mget name (ms_interfaces metadataStore)) in
  let importedNetworks := list_or (list_of "importedNetworks" metadata) (dedupe (peers ≫= fun p => routed_nets (pe_allowedIps p))) in
  let active := bool_decide (is_Some dump) in
  {| if_name := name;
     if_isHub := bool_decide (name = "wg0");
     if_role := text_or (normalizeInterfaceRole (text_of "role" metadata)) (inferInterfaceRole name peers);
     if_managementMode := if set_has MANAGEMENT_MODES (text_of "managementMode" metadata) then text_of "managementMode" metadata else "local";
     if_configExists := nonempty configText;
     if_active := active;
     if_addresses := pc_addresses parsedConfig;
     if_listenPort := match dump ≫= wi_listenPort with Some n => Some n | None => pc_listenPort parsedConfig end;
     if_publicKey := dump ≫= wi_publicKey;
     if_peerCount := match dump with Some d => wi_peerCount d | None => Z.of_nat (length (pc_peers parsedConfig)) end;
     if_activePeerCount := match dump with Some d => wi_activePeerCount d | None => 0 end;
     if_rxBytes := rxBytes;
     if_txBytes := txBytes;
     if_privateKeyPresent := pc_privateKeyPresent parsedConfig;
     if_peerNetworks := dedupe (pc_peers parsedConfig ≫= fun p => csv_list (default "" (mget "AllowedIPs" p)));
     if_importedNetworks := importedNetworks;
     if_exportedNetworks := list_of "exportedNetworks" metadata;
     if_dns := list_of "dns" metadata;
     if_routeTargets := list_or (list_of "routeTargets" metadata) (dedupe (peers ≫= pe_allowedIps));
     if_health := if active then "healthy" else "inactive";
     if_notes := list_or (list_of "notes" metadata)
       (match importedNetworks with
        | [] => []
        | _ => [showZ (Z.of_nat (length importedNetworks)) +:+ " imported network(s) detected"]
        end);
     if_peers := peers |}.

(** * Topology and routes *)

Record topology := Topology {
  tp_exportedNetworks : list string;
  tp_importedNetworks : list string;
  tp_undecidedReturnPathNetworks : list string;
  tp_siteLinks : list string;
  tp_clientLinks : list string;
  tp_hubLinks : list string }.

Definition undecided_path (link : link_rec) : bool := set_has ["auto"; "unknown"] (lk_returnPathMode link).

Definition links_of_type (t : string) (links : list link_rec) : list string :=
  lk_id <$> bfilter (fun l => bool_decide (lk_type l = t)) links.

Definition buildTopology (interfaces : list iface_status) (links : list link_rec) : topology :=
  Topology
    (dedupe ((interfaces ≫= if_exportedNetworks) ++ (links ≫= lk_exportedNetworks)))
    (dedupe ((interfaces ≫= if_importedNetworks) ++ (links ≫= lk_importedNetworks)))
    (dedupe (bfilter (fun l => negb (bool_decide (lk_type l = "client")) && undecided_path l) links ≫= lk_importedNetworks))
    (links_of_type "site-to-site" links) (links_of_type "client" links) (links_of_type "hub-link" links).

(** The missing routes and the NAT candidates are networks; their reasons are constants. *)
Record route_analysis := RouteAnalysis {
  ra_routes : route_table;
  ra_staticRoutes : list route;
  ra_missingReturnRoutes : list string;
  ra_natCandidates : list string;
  ra_splitTunnelCandidates : list string;
  ra_observations : list string }.

Definition given {A} (l : list A) (x : string) : list string := match l with [] => [] | _ => [x] end.

Definition buildRouteAnalysis (routes : route_table) (topology : topology) : route_analysis :=
  let staticRoutes := bfilter (fun r => negb (is_wg_device r)) (rs_privateRoutes routes) in
  let missing := bfilter (fun network => negb (set_has (rt_destination <$> rs_wireguard routes) network) &&
                                         negb (set_has (rt_destination <$> staticRoutes) network)) (tp_importedNetworks topology) in
  RouteAnalysis routes staticRoutes missing (tp_undecidedReturnPathNetworks topology)
    (dedupe (tp_importedNetworks topology ++ (rt_destination <$> staticRoutes)))
    (given missing "Some imported networks are not visible as live WireGuard routes yet" ++
     given staticRoutes "Static private routes exist outside WireGuard and may affect reachability decisions").

(** * Judgements *)

Definition getMissingImportedNetworks (link : link_rec) (ra : route_analysis) : list string :=
  bfilter (set_has (ra_missingReturnRoutes ra)) (lk_importedNetworks link).

Definition has_items {A} (l : list A) : bool := match l with [] => false | _ => true end.

Definition inferPlanState (link : link_rec) (missing : list string) : string :=
  let readinessChecks :=
    [negb (set_has [""; "unknown"] (lk_planIntent link)); has_items (lk_exportedNetworks link); has_items (lk_importedNetworks link);
     negb (set_has [""; "none"; "unknown"] (lk_remoteManagementMode link));
     negb (set_has [""; "auto"; "unknown"] (lk_returnPathMode link)); negb (has_items missing)] in
  let completed := length (bfilter (fun b => b) readinessChecks) in
  if (completed <=? 2)%nat then "discover"
  else if (completed <=? 4)%nat then "shape"
  else if (completed <=? 5)%nat then "validate" else "ready".

Definition when (c : bool) (x : string) : list string := if c then [x] else [].

(** The findings on a link that the warnings and the next actions share. *)
Section judge.
Variables (link : link_rec) (ra : route_analysis).

Let missing := getMissingImportedNetworks link ra.
Let imported := has_items (lk_importedNetworks link).
Let exported := has_items (lk_exportedNetworks link).
Let unexported := set_has ["site-to-site"; "hub-link"] (lk_type link) && negb exported.
Let unmanaged := set_has ["none"; "unknown"] (lk_remoteManagementMode link) && negb (bool_decide (lk_type link = "client")).
Let down := negb (lk_active link) && (imported || exported) && negb (bool_decide (lk_type link = "client")).

Definition link_warnings : list string :=
  dedupe (lk_warnings link ++
    when (negb (bool_decide (is_Some (lk_remoteEndpoint link)))) "remote-endpoint-missing" ++
    when (has_items missing) "imported-network-missing-live-route" ++
    when (has_items missing && undecided_path link) "nat-likely-needed" ++
    when unexported "exported-networks-missing" ++
    when (imported && undecided_path link) "return-path-mode-undefined" ++
    when unmanaged "remote-management-mode-undefined" ++
    when down "link-not-currently-active").

Definition link_nextActions : list string :=
  dedupe (lk_nextActions link ++
    when imported "verify-return-path" ++
    when (has_items missing) "fix-return-path" ++
    when (has_items missing && undecided_path link) "decide-nat-or-static-route" ++
    when unexported "model-exported-networks" ++
    when (imported && undecided_path link) "define-return-path-mode" ++
    when unmanaged "define-remote-management-mode" ++
    when down "verify-live-tunnel-state").

Definition enrichLinkRecord : link_rec :=
  { link with
    lk_warnings := link_warnings;
    lk_nextActions := link_nextActions;
    lk_planState := Some (default (inferPlanState link missing) (lk_planState link)) }.
End judge.

(** Links whose interface is [item]. *)
Definition warningCount (item : iface_status) (links : list link_rec) : Z :=
  Z.of_nat (length (bfilter (fun l => bool_decide (lk_interfaceName l = if_name item) && has_items (lk_warnings l)) links)).

Definition iface_health (item : iface_status) (warnings : Z) : string :=
  if negb (if_active item) && ((0 <? if_peerCount item) || has_items (if_importedNetworks item)) then "warning"
  else if negb (if_active item) then "inactive"
  else if (0 <? warnings) || negb (if_configExists item) || negb (if_privateKeyPresent item) then "warning"
  else "healthy".

Definition enrichInterfaceStatus (item : iface_status) (links : list link_rec) : iface_status :=
  let warnings := warningCount item links in
  { item with
    if_health := iface_health item warnings;
    if_notes := dedupe (if_notes item ++
      when (negb (if_configExists item)) "config file missing" ++
      when (negb (if_privateKeyPresent item) && if_configExists item) "private key missing from config" ++
      when (negb (if_active item) && has_items (if_importedNetworks item)) "inactive interface with imported networks" ++
      when (0 <? warnings) (showZ warnings +:+ " link(s) on this interface need review")) }.

Definition deriveGlobalNextActions (interfaces : list iface_status) (links : list link_rec) (ra : route_analysis) : list string :=
  dedupe (given (ra_missingReturnRoutes ra) "fix-return-path" ++ given (ra_natCandidates ra) "review-nat-requirements" ++
    (interfaces ≫= fun item => when (bool_decide (if_health item = "warning")) "review-interface-health") ++
    (links ≫= lk_nextActions)).

Definition deriveGlobalWarnings (interfaces : list iface_status) (ra : route_analysis) : list string :=
  dedupe (given (ra_missingReturnRoutes ra) "Imported networks exist without matching live WireGuard route entries" ++
    given (ra_natCandidates ra) "Some imported networks may still require NAT or explicit return-path handling" ++
    (interfaces ≫= fun item => when (bool_decide (if_health item = "warning")) ("Interface " +:+ if_name item +:+ " needs review"))).

Record summary := Summary {
  su_interfaceCount : Z;
  su_activeInterfaceCount : Z;
  su_totalPeers : Z;
  su_activePeers : Z;
  su_totalRxBytes : Z;
  su_totalTxBytes : Z;
  su_peerNetworkCount : Z;
  su_wireguardRouteCount : Z;
  su_privateRouteCount : Z;
  su_linkCount : Z;
  su_siteLinkCount : Z;
  su_hubLinkCount : Z;
  su_clientLinkCount : Z }.

Definition zlength {A} (l : list A) : Z := Z.of_nat (length l).
Definition zsum {A} (f : A -> Z) (l : list A) : Z := foldl (fun sum x => sum + f x) 0 l.

Definition buildSummary (interfaces : list iface_status) (links : list link_rec) (tp : topology) (ra : route_analysis) : summary :=
  Summary (zlength interfaces) (zlength (bfilter if_active interfaces)) (zsum if_peerCount interfaces)
    (zsum if_activePeerCount interfaces) (zsum if_rxBytes interfaces) (zsum if_txBytes interfaces)
    (zlength (dedupe (interfaces ≫= if_peerNetworks))) (zlength (rs_wireguard (ra_routes ra))) (zlength (rs_privateRoutes (ra_routes ra)))
    (zlength links) (zlength (tp_siteLinks tp)) (zlength (tp_hubLinks tp)) (zlength (tp_clientLinks tp)).

(** * The status *)

(** A warning is a text, or a network in the AllowedIPs of several peers. *)
Inductive warning :=
| WarnText (s : string)
| WarnConflict (subnet : string) (peers : list string).

(** The claims per network, in the order of the first one. *)
Definition add_claim (m : list (string * list string)) (name cidr : string) : list (string * list string) :=
  if isHostRoute cidr then m else mset cidr (default [] (mget cidr m) ++ [name]) m.

Definition subnetToPeers (links : list link_rec) : list (string * list string) :=
  foldl (fun m l => foldl (fun m cidr => add_claim m (lk_name l) cidr) m (lk_allowedIps l)) [] links.

Definition conflict_warnings (links : list link_rec) : list warning :=
  omap (fun c => if (1 <? length c.2)%nat then Some (WarnConflict c.1 c.2) else None) (subnetToPeers links).

(** What the commands and files give: the dump ("" when the command failed), the names and
    texts of the configuration files, the counters of an interface, the routes, and whether
    /sys/class/net is there. *)
Record host_view := HostView {
  hv_dump : string;
  hv_configNames : list string;
  hv_configText : string -> string;
  hv_counters : string -> Z * Z;
  hv_routes : option string;
  hv_sysClassNet : bool }.

Record status := Status {
  st_available : bool;
  st_hub : option iface_status;
  st_interfaces : list iface_status;
  st_links_of : list link_rec;
  st_routes : route_analysis;
  st_topology : topology;
  st_metadata : meta_store;
  st_summary : option summary;
  st_warnings : list warning;
  st_nextActions : list string }.

Definition interface_names (host : host_view) (dump : list (string * wg_iface)) : list string :=
  sort_strings (uniq (hv_configNames host ++ dump.*1)).

(** The links of an interface, with the index of the peer. *)
Definition links_of_iface (metadataStore : meta_store) (item : iface_status) : list link_rec :=
  imap (fun i peer => let id := link_id (if_name item) peer (Z.of_nat i) in
    buildLinkRecord (if_name item) peer (Z.of_nat i) (default [] (mget id (ms_links metadataStore)))) (if_peers item).

(** Without the configuration directory. *)
Definition unavailable (wireGuardConfDir : string) (metadataStore : meta_store) : status :=
  {| st_available := false;
     st_hub := None;
     st_interfaces := [];
     st_links_of := [];
     st_routes := RouteAnalysis (RouteTable [] [] []) [] [] [] [] [];
     st_topology := Topology [] [] [] [] [] [];
     st_metadata := metadataStore;
     st_summary := None;
     st_warnings := [WarnText ("WireGuard config directory is not available at " +:+ wireGuardConfDir)];
     st_nextActions := ["mount-wireguard-config-directory"] |}.

(** With it; the names of the commands stand in the texts of two warnings. *)
Definition live_status (now : Z) (wireGuardBin ipBin : string) (host : host_view) (metadataStore : meta_store) : status :=
  let dump := parseDump now (hv_dump host) in
  let statuses := (fun name => let (rx, tx) := hv_counters host name in
    getInterfaceStatus name (hv_configText host name) rx tx dump metadataStore) <$> interface_names host dump in
  let rawLinks := statuses ≫= links_of_iface metadataStore in
  let routes := getRoutes (hv_routes host) in
  let tp := buildTopology statuses rawLinks in
  let ra := buildRouteAnalysis routes tp in
  let links := (fun l => enrichLinkRecord l ra) <$> rawLinks in
  let interfaces := (fun i => enrichInterfaceStatus i links) <$> statuses in
  {| st_available := true;
     st_hub := bfind (fun i => bool_decide (if_name i = "wg0")) interfaces;
     st_interfaces := interfaces;
     st_links_of := links;
     st_routes := ra;
     st_topology := tp;
     st_metadata := metadataStore;
     st_summary := Some (buildSummary interfaces links tp ra);
     st_warnings :=
       (WarnText <$> deriveGlobalWarnings interfaces ra) ++ conflict_warnings links ++
       (WarnText <$> when (negb (hv_sysClassNet host)) "/sys/class/net is not mounted; traffic counters are unavailable" ++
          when (negb (has_items dump)) ("No live output from " +:+ String dquote (wireGuardBin +:+ " show all dump" +:+ String dquote "; data may be config-only")) ++
          when (negb (has_items (rs_all routes))) ("No route data from " +:+ String dquote (ipBin +:+ " route show" +:+ String dquote "; gateway summary is incomplete")) ++
          when (negb (has_items interfaces)) "No WireGuard interfaces were discovered from config files or live runtime data");
     st_nextActions := deriveGlobalNextActions interfaces links ra |}.

(** [None]: there is no configuration directory. The capabilities are constants. *)
Definition getStatus (now : Z) (wireGuardConfDir wireGuardBin ipBin : string) (host : option host_view) (metadataStore : meta_store) : status :=
  match host with
  | None => unavailable wireGuardConfDir metadataStore
  | Some h => live_status now wireGuardBin ipBin h metadataStore
  end.

(** * The dump is read as it was written *)

(** One peer and one interface as [wg show all dump] prints them: fields between tabs, the
    AllowedIPs between commas. *)
Record dumped_peer := DumpedPeer {
  dp_key : string; dp_psk : string; dp_endpoint : string; dp_allowed : list string;
  dp_handshake : Z; dp_rx : Z; dp_tx : Z; dp_keepalive : string }.

Record dumped_iface := DumpedIface {
  di_name : string; di_private : string; di_public : string; di_port : Z; di_fwmark : string; di_peers : list dumped_peer }.

Definition TAB : string := String tab "".
Definition NL : string := String nl "".

Definition peer_line (name : string) (p : dumped_peer) : string :=
  join TAB [name; dp_key p; dp_psk p; dp_endpoint p; join "," (dp_allowed p); showZ (dp_handshake p); showZ (dp_rx p); showZ (dp_tx p); dp_keepalive p].

Definition iface_lines (d : dumped_iface) : list string :=
  join TAB [di_name d; di_private d; di_public d; showZ (di_port d); di_fwmark d] :: (peer_line (di_name d) <$> di_peers d).

Definition print_dump (ds : list dumped_iface) : string := join NL (ds ≫= iface_lines) +:+ NL.

(** A field: some characters, no white space. *)
Definition field_text (s : string) : Prop := s <> "" /\ sall (fun c => negb (is_space c)) s = true.

Definition peer_fine (p : dumped_peer) : Prop :=
  Forall field_text [dp_key p; dp_psk p; dp_endpoint p; dp_keepalive p] /\
  dp_allowed p <> [] /\ Forall (fun s => field_text s /\ no_char "," s) (dp_allowed p) /\
  0 <= dp_handshake p /\ 0 <= dp_rx p /\ 0 <= dp_tx p.

Definition iface_fine (d : dumped_iface) : Prop :=
  Forall field_text [di_name d; di_private d; di_public d; di_fwmark d] /\ 0 < di_port d /\ Forall peer_fine (di_peers d).

Definition read_peer (now : Z) (p : dumped_peer) : wg_peer :=
  WgPeer (Some (dp_key p)) (Some (dp_endpoint p)) (dp_allowed p) (dp_handshake p) (dp_rx p) (dp_tx p)
    ((0 <? dp_handshake p) && (now - dp_handshake p <? ACTIVE_HANDSHAKE_WINDOW)).

Definition read_iface (now : Z) (d : dumped_iface) : wg_iface :=
  let peers := read_peer now <$> di_peers d in
  WgIface (Some (di_public d)) (Some (di_port d)) peers (zlength peers) (zlength (bfilter pe_isActive peers))
    (zsum pe_rxBytes peers) (zsum pe_txBytes peers).

Lemma field_no_char d s : is_space d = true -> field_text s -> no_char d s.
Proof.
  intros Hd [_ Hs]. eapply sall_impl; [|exact Hs]. intros c Hc. apply negb_true_iff in Hc. unfold is_char.
  apply negb_true_iff, bool_decide_eq_false. congruence.
Qed.

Lemma showZ_field n : 0 <= n -> field_text (showZ n).
Proof.
  intros Hn. split.
  - intros He. pose proof (num_showZ n Hn) as Hz. rewrite He in Hz. cbn in Hz. subst n. discriminate He.
  - eapply sall_impl_dec; [|by apply showZ_digits]. vm_compute. reflexivity.
Qed.

Lemma digit_no_space c : is_digit c = true -> is_space c = false.
Proof.
  assert (forall c, negb (is_digit c && is_space c) = true) as H by (apply forall_char; vm_compute; reflexivity).
  intros Hc. specialize (H c). rewrite Hc in H. by destruct (is_space c).
Qed.

Lemma parse_int_showZ n : 0 <= n -> parse_int (showZ n) = Some n.
Proof.
  intros Hn. pose proof (showZ_digits n Hn) as Hd. pose proof (num_showZ n Hn) as Hv. pose proof (showZ_field n Hn) as [Hne _].
  unfold parse_int. destruct (showZ n) as [|c s]; [done|]. cbn [sall] in Hd. apply andb_true_iff in Hd as [Hc Hs].
  assert (trim_start (String c s) = String c s) as ->.
  { cbn. by rewrite digit_no_space. }
  assert (c <> "-"%char /\ c <> "+"%char) as [Hm Hp] by (split; intros ->; done).
  assert (leading_digits (String c s) = String c s) as Hl.
  { clear -Hc Hs. cbn. rewrite Hc. f_equal. induction s as [|d s IH]; [done|]. cbn in *. apply andb_true_iff in Hs as [-> Hs]. by rewrite IH. }
  destruct c as [[] [] [] [] [] [] [] []]; try discriminate Hc; rewrite Hl, decide_False by done; by rewrite Hv.
Qed.

Lemma split_join_tab l : l <> [] -> Forall (no_char tab) l -> split_char tab (join TAB l) = l.
Proof.
  intros Hne H. induction H as [|x l Hx Hl IH]; [done|]. destruct l as [|y l]; [by apply split_char_no|].
  change (join TAB (x :: y :: l)) with (x +:+ String tab (join TAB (y :: l))). rewrite split_char_app by done. by rewrite IH.
Qed.

Lemma csv_join_plain l : Forall csv_token l -> csv_list (join "," l) = l.
Proof.
  induction 1 as [|x l Hx Hl IH]; [done|]. destruct l as [|y l]; [by apply csv_list_one|].
  change (join "," (x :: y :: l)) with (x +:+ String "," (join "," (y :: l))). rewrite csv_list_cons by done. by rewrite IH.
Qed.

Lemma field_csv s : field_text s -> no_char "," s -> csv_token s.
Proof. intros Hs Hc. split_and!; [apply Hs|done|by apply field_no_char|by apply trim_id, Hs]. Qed.

Lemma field_join l : l <> [] -> Forall field_text l -> field_text (join "," l).
Proof.
  intros Hne H. induction H as [|x l [Hx1 Hx2] Hl IH]; [done|]. destruct l as [|y l]; [done|].
  change (join "," (x :: y :: l)) with (x +:+ String "," (join "," (y :: l))). destruct IH as [_ IH]; [done|]. split.
  - by destruct x.
  - rewrite sall_app, Hx2. cbn [sall]. by rewrite IH.
Qed.

Lemma field_cons s : field_text s -> exists c r, s = String c r /\ is_space c = false.
Proof.
  intros [Hne Hs]. destruct s as [|c r]; [done|]. exists c, r. split; [done|]. cbn in Hs. apply andb_true_iff in Hs as [Hc _].
  by apply negb_true_iff.
Qed.

Lemma trim_join_fields l : l <> [] -> Forall field_text l -> trim (join TAB l) = join TAB l.
Proof.
  intros Hne H. unfold trim.
  assert (exists c r, join TAB l = String c r /\ is_space c = false) as (c & r & Hj & Hc).
  { destruct H as [|x l Hx _]; [done|]. apply field_cons in Hx as (c & r & -> & Hc). destruct l as [|y l]; [by exists c, r|].
    exists c, (r +:+ TAB +:+ join TAB (y :: l)). split; [|done]. cbn [join]. by rewrite !sapp_String. }
  assert (trim_start (join TAB l) = join TAB l) as -> by (rewrite Hj; cbn; by rewrite Hc).
  clear c r Hj Hc. induction H as [|x l Hx Hl IH]; [done|]. destruct l as [|y l].
  - cbn [join]. assert (trim x = x) as Ht by by apply trim_id, Hx. unfold trim in Ht.
    apply field_cons in Hx as (c & r & -> & Hc). cbn [trim_start] in Ht. by rewrite Hc in Ht.
  - specialize (IH ltac:(done)). inversion_clear Hl as [|?? Hy Hl'].
    assert (exists c r, join TAB (y :: l) = String c r /\ is_space c = false) as (c & r & Hj & Hc).
    { apply field_cons in Hy as (c & r & -> & Hc). destruct l as [|z l]; [by exists c, r|].
      exists c, (r +:+ TAB +:+ join TAB (z :: l)). split; [|done]. cbn [join]. by rewrite !sapp_String. }
    change (join TAB (x :: y :: l)) with (x +:+ TAB +:+ join TAB (y :: l)). rewrite Hj in *.
    rewrite <- sapp_assoc, trim_end_keep by done. f_equal.
    pose proof (trim_end_keep "" c r Hc) as Hk. rewrite !sapp_nil_l in Hk. by rewrite Hk in IH.
Qed.

Lemma dump_line_fields now m parts : parts <> [] -> Forall field_text parts ->
  dump_line now m (join TAB parts) =
  if decide (length parts = 5%nat) then mset (part parts 0) (dump_iface parts) m
  else mset (part parts 0) (add_peer (default blank_iface (mget (part parts 0) m)) (dump_peer now parts)) m.
Proof.
  intros Hne Hp. unfold dump_line. rewrite trim_join_fields by done.
  assert (field_text (part parts 0)) as [Hname _] by (destruct Hp; done).
  rewrite (decide_False (P := join TAB parts = "")).
  - rewrite split_join_tab by (done || (eapply Forall_impl; [exact Hp|]; intros s; by apply field_no_char)).
    by rewrite decide_False.
  - intros He. destruct parts as [|x l]; [done|]. cbn [part lookup list_lookup default from_option] in Hname.
    destruct x as [|c r]; [done|]. by destruct l.
Qed.

Lemma or_null_field s : field_text s -> or_null s = Some s.
Proof. intros [Hne _]. unfold or_null. by rewrite decide_False. Qed.

Lemma int_or_0_showZ n : 0 <= n -> int_or_0 (showZ n) = n.
Proof.
  intros Hn. unfold int_or_0. destruct (showZ_field n Hn) as [Hne _]. rewrite decide_False by done. by rewrite parse_int_showZ.
Qed.

Lemma peer_fields now name p : field_text name -> peer_fine p -> forall m,
  dump_line now m (peer_line name p) = mset name (add_peer (default blank_iface (mget name m)) (read_peer now p)) m.
Proof.
  intros Hn (Hf & Ha & Hal & Hh & Hr & Ht) m. unfold peer_line. rewrite !Forall_cons in Hf. destruct Hf as (H1 & H2 & H3 & H4 & _).
  assert (Forall field_text (dp_allowed p)) as Hal' by (eapply Forall_impl; [exact Hal|]; by intros s []).
  rewrite dump_line_fields; [|done|].
  - cbn [length decide part lookup list_lookup default from_option]. rewrite decide_False by done. do 2 f_equal.
    unfold dump_peer, read_peer, part. cbn [lookup list_lookup default from_option].
    unfold id. rewrite !or_null_field, !int_or_0_showZ by done. rewrite csv_join_plain; [done|]. eapply Forall_impl; [exact Hal|]. intros s []. by apply field_csv.
  - repeat (constructor; [by auto using field_join, showZ_field|]). constructor.
Qed.

Lemma iface_fields now d m : iface_fine d ->
  dump_line now m (join TAB [di_name d; di_private d; di_public d; showZ (di_port d); di_fwmark d]) =
  mset (di_name d) (WgIface (Some (di_public d)) (Some (di_port d)) [] 0 0 0 0) m.
Proof.
  intros (Hf & Hp & _). rewrite !Forall_cons in Hf. destruct Hf as (H1 & H2 & H3 & H4 & _). rewrite dump_line_fields; [|done|].
  - cbn [length]. rewrite decide_True by done. unfold dump_iface, part. cbn [lookup list_lookup default from_option].
    unfold id. rewrite or_null_field, parse_int_showZ by (done || lia). by rewrite decide_False by lia.
  - repeat (constructor; [by auto using showZ_field with lia|]). constructor.
Qed.

Lemma add_peers pk port ps ps0 a b c d :
  foldl add_peer (WgIface pk port ps0 a b c d) ps =
  WgIface pk port (ps0 ++ ps) (a + zlength ps) (b + zlength (bfilter pe_isActive ps)) (foldl (fun s p => s + pe_rxBytes p) c ps)
    (foldl (fun s p => s + pe_txBytes p) d ps).
Proof.
  revert ps0 a b c d. induction ps as [|p ps IH]; intros ps0 a b c d.
  - cbn. rewrite app_nil_r. f_equal; unfold zlength; cbn; lia.
  - cbn [foldl]. unfold add_peer at 2. cbn [wi_publicKey wi_listenPort wi_peers wi_peerCount wi_activePeerCount wi_rxBytes wi_txBytes].
    rewrite IH, <- app_assoc. cbn [app]. f_equal; unfold zlength, bfilter; cbn [length List.filter]; [lia|].
    destruct (pe_isActive p); cbn [length]; lia.
Qed.

Lemma mset_fresh {V} (k : string) (v : V) m : k ∉ m.*1 -> mset k v m = m ++ [(k, v)].
Proof.
  induction m as [|[q w] m IH]; [done|]. cbn. rewrite not_elem_of_cons. intros [Hq Hm]. rewrite decide_False by done. by rewrite IH.
Qed.

Lemma mset_last {V} (k : string) (v w : V) m : k ∉ m.*1 -> mset k v (m ++ [(k, w)]) = m ++ [(k, v)].
Proof.
  induction m as [|[q x] m IH]; cbn; [by rewrite decide_True|]. rewrite not_elem_of_cons. intros [Hq Hm]. rewrite decide_False by done.
  by rewrite IH.
Qed.

Lemma mget_last {V} (k : string) (w : V) m : k ∉ m.*1 -> mget k (m ++ [(k, w)]) = Some w.
Proof.
  induction m as [|[q x] m IH]; cbn; [by rewrite decide_True|]. rewrite not_elem_of_cons. intros [Hq Hm]. rewrite decide_False by done.
  by apply IH.
Qed.

Lemma dump_one now d m : iface_fine d -> di_name d ∉ m.*1 ->
  foldl (dump_line now) m (iface_lines d) = m ++ [(di_name d, read_iface now d)].
Proof.
  intros Hd Hm. unfold iface_lines. cbn [foldl]. rewrite iface_fields by done. rewrite mset_fresh by done.
  destruct Hd as (Hf & _ & Hps). rewrite Forall_cons in Hf. destruct Hf as [Hn _].
  assert (forall e, foldl (dump_line now) (m ++ [(di_name d, e)]) (peer_line (di_name d) <$> di_peers d) =
    m ++ [(di_name d, foldl add_peer e (read_peer now <$> di_peers d))]) as Hgo.
  { induction Hps as [|p ps Hp _ IH]; intros e; [done|]. rewrite !fmap_cons. cbn [foldl].
    rewrite peer_fields, mget_last, mset_last by done. apply IH. }
  rewrite Hgo, add_peers. unfold read_iface, zsum. rewrite app_nil_l. done.
Qed.

Lemma dump_all now ds m : Forall iface_fine ds -> NoDup (m.*1 ++ (di_name <$> ds)) ->
  foldl (dump_line now) m (ds ≫= iface_lines) = m ++ ((fun d => (di_name d, read_iface now d)) <$> ds).
Proof.
  intros Hds. revert m. induction Hds as [|d ds Hd _ IH]; intros m Hnd; [by rewrite app_nil_r|].
  rewrite bind_cons, foldl_app. rewrite fmap_cons in Hnd. rewrite dump_one; [|done|].
  - rewrite IH; [by rewrite fmap_cons, <- app_assoc|]. rewrite fmap_app, <- app_assoc. done.
  - apply NoDup_app in Hnd as (_ & Hd' & _). intros Hin. apply (Hd' _ Hin). left.
Qed.

Lemma line_clean l : l <> [] -> Forall field_text l -> no_char nl (join TAB l) /\ no_char cr (join TAB l).
Proof.
  intros _ H. split; apply no_char_join; done || (eapply Forall_impl; [exact H|]; intros s; by apply field_no_char).
Qed.

Lemma iface_lines_clean d : iface_fine d -> Forall (no_char nl) (iface_lines d) /\ Forall (no_char cr) (iface_lines d).
Proof.
  intros (Hf & Hp & Hps). rewrite !Forall_cons in Hf. destruct Hf as (H1 & H2 & H3 & H4 & _).
  assert (forall p, peer_fine p -> no_char nl (peer_line (di_name d) p) /\ no_char cr (peer_line (di_name d) p)) as Hpl.
  { intros p (Hpf & Ha & Hal & Hh & Hr & Ht). rewrite !Forall_cons in Hpf. destruct Hpf as (? & ? & ? & ? & _).
    assert (Forall field_text (dp_allowed p)) by (eapply Forall_impl; [exact Hal|]; by intros s []).
    apply line_clean; [done|]. repeat (constructor; [by auto using field_join, showZ_field|]). constructor. }
  assert (no_char nl (join TAB [di_name d; di_private d; di_public d; showZ (di_port d); di_fwmark d]) /\
          no_char cr (join TAB [di_name d; di_private d; di_public d; showZ (di_port d); di_fwmark d])) as [Hi1 Hi2].
  { apply line_clean; [done|]. repeat (constructor; [by auto using showZ_field with lia|]). constructor. }
  split; (constructor; [done|]); rewrite Forall_fmap; (eapply Forall_impl; [exact Hps|]); intros p ?; by apply Hpl.
Qed.

(** The dump of the live interfaces is read back as it was printed: every interface once, in
    order, with its key, port and peers, and the counts and sums are those of its peers. *)
Theorem dump_roundtrip now ds : ds <> [] -> Forall iface_fine ds -> NoDup (di_name <$> ds) ->
  parseDump now (print_dump ds) = (fun d => (di_name d, read_iface now d)) <$> ds.
Proof.
  intros Hne Hds Hnd. unfold parseDump, print_dump.
  assert (forall d, d ∈ ds -> Forall (no_char nl) (iface_lines d) /\ Forall (no_char cr) (iface_lines d)) as Hclean.
  { intros d Hd. apply iface_lines_clean. rewrite Forall_forall in Hds. by apply Hds. }
  assert (Forall (no_char nl) (ds ≫= iface_lines) /\ Forall (no_char cr) (ds ≫= iface_lines)) as [Hn Hc].
  { split; apply Forall_forall; intros s (d & Hs & Hd)%list_elem_of_bind; destruct (Hclean d Hd) as [H1 H2];
      rewrite Forall_forall in *; auto. }
  assert (join NL (ds ≫= iface_lines) +:+ NL = join NL ((ds ≫= iface_lines) ++ [""])) as ->.
  { assert (ds ≫= iface_lines <> []) as Hl by (destruct ds; done). clear -Hl. induction (ds ≫= iface_lines) as [|x l IH]; [done|].
    destruct l as [|y l]; [cbn; by rewrite sapp_nil_r|]. specialize (IH ltac:(done)).
    change (join NL (x :: y :: l)) with (x +:+ NL +:+ join NL (y :: l)). rewrite !sapp_assoc, IH. done. }
  rewrite split_lines_join; [|by destruct (ds ≫= iface_lines)|apply Forall_app; by repeat constructor..].
  rewrite foldl_app. cbn [foldl]. rewrite dump_all by done. cbn [app]. done.
Qed.

Definition ex_dump : list dumped_iface :=
  [DumpedIface "wg0" "priv0" "pub0" 51820 "off"
     [DumpedPeer "AAA=" "(none)" "198.51.100.4:51820" ["10.10.0.2/32"; "192.168.2.0/24"] 1700000000 10 20 "25";
      DumpedPeer "BBB=" "(none)" "(none)" ["10.10.0.3/32"] 0 0 0 "off"];
   DumpedIface "wg1" "priv1" "pub1" 51821 "off" []].

Lemma ex_dump_fine : Forall iface_fine ex_dump.
Proof.
  repeat match goal with
  | |- Forall _ _ => constructor
  | |- iface_fine _ => split_and!
  | |- peer_fine _ => split_and!
  | |- field_text _ => split; [discriminate|vm_compute; reflexivity]
  | |- _ /\ _ => split
  | |- no_char _ _ => vm_compute; reflexivity
  | |- _ <> _ => discriminate
  | |- _ => cbn; lia
  end.
Qed.

Lemma dump_roundtrip_witness :
  parseDump 1700000100 (print_dump ex_dump) = (fun d => (di_name d, read_iface 1700000100 d)) <$> ex_dump /\
  wi_activePeerCount (read_iface 1700000100 (DumpedIface "wg0" "priv0" "pub0" 51820 "off"
     [DumpedPeer "AAA=" "(none)" "198.51.100.4:51820" ["10.10.0.2/32"; "192.168.2.0/24"] 1700000000 10 20 "25"])) = 1.
Proof.
  split; [|vm_compute; reflexivity]. apply dump_roundtrip; [discriminate|apply ex_dump_fine|vm_compute; repeat constructor; set_solver].
Defined.

Lemma elem_of_when c x y : y ∈ when c x <-> c = true /\ y = x.
Proof. unfold when. destruct c; [rewrite list_elem_of_singleton|rewrite elem_of_nil]; naive_solver. Qed.

Lemma elem_of_dedupe x l : x ∈ dedupe l <-> x ∈ l /\ x <> "".
Proof. unfold dedupe. rewrite elem_of_uniq, elem_of_bfilter. unfold nonempty. by rewrite bool_decide_eq_true. Qed.

Lemma endpoint_warning link ra : "remote-endpoint-missing" ∈ lk_warnings (enrichLinkRecord link ra) <->
  "remote-endpoint-missing" ∈ lk_warnings link \/ lk_remoteEndpoint link = None.
Proof.
  assert (lk_warnings (enrichLinkRecord link ra) = link_warnings link ra) as -> by by destruct link.
  unfold link_warnings. rewrite elem_of_dedupe, !elem_of_app, !elem_of_when, negb_true_iff, bool_decide_eq_false, <- eq_None_not_Some.
  naive_solver.
Qed.

(** A peer without an endpoint is printed with the word (none), which counts as an endpoint:
    the warning about a missing endpoint is never given for a live peer. *)
Lemma live_peer_has_endpoint now m parts : parts <> [] -> length parts <> 5%nat -> Forall field_text parts -> (4 <= length parts)%nat ->
  exists e ps p, mget (part parts 0) (dump_line now m (join TAB parts)) = Some e /\ wi_peers e = ps ++ [p] /\
    pe_endpoint p = Some (part parts 3) /\
    forall iface i metadata ra, "remote-endpoint-missing" ∉ lk_warnings (enrichLinkRecord (buildLinkRecord iface p i metadata) ra).
Proof.
  intros Hne Hlen Hf H4. rewrite dump_line_fields by done. rewrite decide_False by done.
  eexists _, _, _. split; [apply mget_mset_eq|]. split; [reflexivity|].
  assert (field_text (part parts 3)) as H3.
  { rewrite Forall_forall in Hf. apply Hf. unfold part. destruct (lookup_lt_is_Some_2 parts 3 ltac:(lia)) as [x Hx].
    rewrite Hx. by eapply list_elem_of_lookup_2. }
  split; [cbn; by apply or_null_field|]. intros iface i metadata ra. rewrite endpoint_warning. cbn. rewrite (or_null_field _ H3). intros [H|H]; [by apply elem_of_nil in H|done].
Qed.

(** * Networks claimed twice *)

(** The links that claim a network, once per claim. *)
Definition claims_on (net : string) (links : list link_rec) : list string :=
  links ≫= fun l => (fun _ => lk_name l) <$> bfilter (fun cidr => bool_decide (cidr = net)) (lk_allowedIps l).

Section claims.
Variable net : string.

Lemma add_claim_get m name cidr : isHostRoute net = false ->
  default [] (mget net (add_claim m name cidr)) = default [] (mget net m) ++ (if decide (cidr = net) then [name] else []).
Proof.
  intros Hnet. unfold add_claim. destruct (isHostRoute cidr) eqn:Hc.
  - rewrite decide_False by congruence. by rewrite app_nil_r.
  - rewrite mget_mset. destruct (decide (cidr = net)) as [->|]; [done|]. by rewrite app_nil_r.
Qed.

Lemma add_claims_get ips m name : isHostRoute net = false ->
  default [] (mget net (foldl (fun m cidr => add_claim m name cidr) m ips)) =
  default [] (mget net m) ++ ((fun _ => name) <$> bfilter (fun cidr => bool_decide (cidr = net)) ips).
Proof.
  intros Hnet. revert m. induction ips as [|cidr ips IH]; intros m; [by rewrite app_nil_r|]. cbn [foldl].
  rewrite IH, add_claim_get, <- app_assoc by done. f_equal. unfold bfilter. cbn [List.filter].
  destruct (decide (cidr = net)) as [->|]; [by rewrite bool_decide_true|by rewrite bool_decide_false].
Qed.

Lemma subnetToPeers_get links : isHostRoute net = false -> default [] (mget net (subnetToPeers links)) = claims_on net links.
Proof.
  intros Hnet. unfold subnetToPeers.
  assert (forall m, default [] (mget net (foldl (fun m l => foldl (fun m cidr => add_claim m (lk_name l) cidr) m (lk_allowedIps l)) m links)) =
    default [] (mget net m) ++ claims_on net links) as H; [|apply (H [])].
  induction links as [|l links IH]; intros m; [by rewrite app_nil_r|]. cbn [foldl]. rewrite IH, add_claims_get by done.
  unfold claims_on. by rewrite bind_cons, app_assoc.
Qed.
End claims.

Lemma claim_keys links : NoDup (subnetToPeers links).*1 /\ forall net, net ∈ (subnetToPeers links).*1 -> isHostRoute net = false.
Proof.
  unfold subnetToPeers.
  assert (forall m, NoDup m.*1 /\ (forall net, net ∈ m.*1 -> isHostRoute net = false) ->
    let m' := foldl (fun m l => foldl (fun m cidr => add_claim m (lk_name l) cidr) m (lk_allowedIps l)) m links in
    NoDup m'.*1 /\ forall net, net ∈ m'.*1 -> isHostRoute net = false) as H.
  { induction links as [|l links IH]; intros m Hm; [done|]. cbn [foldl]. apply IH. clear IH. revert m Hm.
    induction (lk_allowedIps l) as [|cidr ips IH]; intros m Hm; [done|]. cbn [foldl]. apply IH. unfold add_claim.
    destruct (isHostRoute cidr) eqn:Hc; [done|]. destruct Hm as [Hn Hh]. split; [by apply NoDup_mset|].
    intros net. rewrite mset_keys. destruct (decide _); [by apply Hh|]. rewrite elem_of_app, list_elem_of_singleton.
    intros [?| ->]; [by apply Hh|done]. }
  apply (H []). split; [constructor|by intros net ?%elem_of_nil].
Qed.

(** The administrator is warned of exactly the networks, host routes apart, that occur more
    than once in the AllowedIPs of the live peers, with the name of every claimant. *)
Theorem status_warns_of_conflicts now dir bin ip host metadata net names :
  let st := getStatus now dir bin ip host metadata in
  WarnConflict net names ∈ st_warnings st <->
  isHostRoute net = false /\ names = claims_on net (st_links_of st) /\ (2 <= length names)%nat.
Proof.
  cbv zeta. set (st := getStatus now dir bin ip host metadata).
  assert (WarnConflict net names ∈ st_warnings st <-> WarnConflict net names ∈ conflict_warnings (st_links_of st)) as ->.
  { unfold st, getStatus. destruct host as [h|]; [|cbn; rewrite list_elem_of_singleton, elem_of_nil; naive_solver].
    unfold live_status. cbn [st_warnings st_links_of]. rewrite !elem_of_app, !list_elem_of_fmap. naive_solver. }
  generalize (st_links_of st). clear st. intros links.
  unfold conflict_warnings. destruct (claim_keys links) as [Hn Hh]. rewrite list_elem_of_omap. split.
  - intros ([k v] & Hin & Hw). cbn [fst snd] in Hw. destruct (1 <? length v)%nat eqn:Hl; [|done]. injection Hw as <- <-.
    assert (isHostRoute k = false) as Hk by (apply Hh; apply list_elem_of_fmap; by exists (k, v)).
    split; [done|]. apply Nat.ltb_lt in Hl. split; [|lia].
    rewrite <- subnetToPeers_get by done. by rewrite (elem_of_mget _ _ _ Hn Hin).
  - intros (Hnet & -> & Hl). exists (net, claims_on net links).
    pose proof (subnetToPeers_get net links Hnet) as Hg.
    destruct (mget net (subnetToPeers links)) as [v|] eqn:Hm; cbn in Hg; [|rewrite <- Hg in Hl; cbn in Hl; lia].
    rewrite Hg in Hm. split; [by apply mget_elem_of|]. cbn [fst snd]. by rewrite (proj2 (Nat.ltb_lt _ _)) by lia.
Qed.
