(* ===== verification/AgentStore.v ===== *)
(** The tables the agent services share: agents, ingress rules, direct links, the pairs of
    separated sites, and the links of the hub's metadata. *)

From S2P Require Import Prelude.
From S2P Require Import JsString.
From S2P Require Import JsVal.
From S2P Require Import IngressRules.
From S2P Require Import SiteRules.
From S2P Require Import DirectLink.
From S2P Require Import WgConf.
From S2P Require Import AgentText.
From S2P Require Export AgentRow.
From S2P Require Import AgentMesh.

Local Open Scope Z_scope.

(** ** Rows *)

(** A rule with the agent it belongs to. The JSON columns are kept as the lists they are
    read back as ([json_parse_strings]). *)
Record rule_entry := RuleEntry { re_agent_id : Z; re_rule : rule }.

(** The columns of one side of a direct link; the status column as the object it holds. *)
Record side_cols := SideCols {
  sc_public_key : option string;
  sc_status : option dstatus;
  sc_seen : option Z }.

Definition no_cols : side_cols := SideCols None None None.

Record link_row := LinkRow { lr_link : dlink; lr_a : side_cols; lr_b : side_cols }.

Definition lr_id (r : link_row) : Z := dl_id (lr_link r).

Record store := Store {
  st_agents : agent_db;
  st_rules : list rule_entry;
  st_links : list link_row;
  st_pairs : list pair;
  st_meta : links_map }.

(** ** Queries *)

(** [where("id", id).where("is_deleted", 0).first()] *)
Definition live_agent (id : Z) (db : agent_db) : option agent_row :=
  first_row (fun a => (ag_id a =? id) && negb (ag_is_deleted a)) db.

(** [where((q) => q.where("agent_a_id", id).orWhere("agent_b_id", id))] *)
Definition side_of_agent (id : Z) (r : link_row) : bool :=
  (dl_agent_a_id (lr_link r) =? id) || (dl_agent_b_id (lr_link r) =? id).

Definition links_of (id : Z) (st : store) : list link_row := bfilter (side_of_agent id) (st_links st).

Definition enabled_links_of (id : Z) (st : store) : list link_row :=
  bfilter (fun r => dl_enabled (lr_link r) && side_of_agent id r) (st_links st).

Definition link_id_le (x y : link_row) : Prop := lr_id x <= lr_id y.
#[export] Instance link_id_le_dec x y : Decision (link_id_le x y).
Proof. unfold link_id_le. apply _. Defined.

(** [loadRules] *)
Definition loadRules (agentId : Z) (st : store) : list rule :=
  merge_sort id_le (re_rule <$> bfilter (fun e => re_agent_id e =? agentId) (st_rules st)).

(** [ifacesFor]: the interfaces of the enabled links, by id. *)
Definition ifacesFor (agentId : Z) (st : store) : list string :=
  directIface <$> merge_sort Z.le (lr_id <$> enabled_links_of agentId st).

Definition ifaceCountOf (agentId : Z) (st : store) : Z := 1 + Z.of_nat (length (ifacesFor agentId st)).

(** ** Errors of the services *)

(** Refusals of the bulk requests of the ingress service. *)
Inductive bulk_error := BulkSize | BulkRule (index : nat) (e : ingress_error) | BulkIds | BulkId | BulkNotCandidate (id : Z).

#[export] Instance bulk_error_eq_dec : EqDecision bulk_error.
Proof. solve_decision. Defined.

Inductive svc_error : Type :=
| EAgent (e : agent_error)
| EIngress (e : ingress_error)
| ELink (e : dl_error)
| EBulk (e : bulk_error)
| ENotFound (id : Z)
| EEmptyRestricted
| ETooManyRules
| ELinkIdLimit
| EAuth (message : string)
| ENotTornDown (reason : string).

#[export] Instance svc_error_eq_dec : EqDecision svc_error.
Proof. solve_decision. Defined.

Definition lift {E A} (f : E -> svc_error) (m : result E A) : result svc_error A :=
  match m with Ok x => Ok x | Throw e => Throw (f e) end.

Lemma lift_Ok {E A} (f : E -> svc_error) (m : result E A) x : lift f m = Ok x <-> m = Ok x.
Proof. destruct m; cbn; split; congruence. Qed.

Definition or_not_found {A} (id : Z) (x : option A) : result svc_error A :=
  match x with Some y => Ok y | None => Throw (ENotFound id) end.

Lemma or_not_found_Ok {A} id (x : option A) y : or_not_found id x = Ok y <-> x = Some y.
Proof. destruct x; cbn; split; congruence. Qed.

Lemma live_agent_Some id db a : live_agent id db = Some a <-> live_agent id db = Some a /\ a ∈ db /\ ag_id a = id /\ ag_is_deleted a = false.
Proof.
  split; [|by intros []]. intros H. split; [done|]. apply first_row_Some in H as [Ha Hp].
  apply andb_true_iff in Hp as [Hi Hd]. split_and!; [done|by apply Z.eqb_eq|by apply negb_true_iff].
Qed.

Lemma elem_of_loadRules id st r : r ∈ loadRules id st <-> RuleEntry id r ∈ st_rules st.
Proof.
  unfold loadRules. rewrite merge_sort_Permutation, list_elem_of_fmap. setoid_rewrite elem_of_bfilter. split.
  - intros ([i q] & -> & Hin & Hi). cbn in *. apply Z.eqb_eq in Hi. by subst.
  - intros H. exists (RuleEntry id r). split_and!; [done..|]. cbn. apply Z.eqb_refl.
Qed.
