(* ===== verification/AgentLinks.v ===== *)
(** The direct link service: [backend/internal/agent-direct-link.js].

    The admin creates, changes and deletes links, each call as a check and a later write; the agents' configuration poll computes
    the payload of each side, and their heartbeats report keys and health. *)

From S2P Require Import Prelude.
From S2P Require Import JsString.
From S2P Require Import JsRegex.
From S2P Require Import Cidr.
From S2P Require Import JsVal.
From S2P Require Import ConfText.
From S2P Require Import IngressRules.
From S2P Require Import SiteRules.
From S2P Require Import DirectLink.
From S2P Require Import WgConf.
From S2P Require Import AgentText.
From S2P Require Import AgentMesh.
From S2P Require Import AgentStore.

Local Open Scope Z_scope.

Definition KEY_CHANGED_ERROR : string := "public key changed — confirm in FloppyGuard (Schlüssel neu lernen)".

(** * The mesh of the links *)

(** [pairKey(x, y)] *)
Definition pairKey (x y : string) : string := pair_key (normalizePair x y).

(** The links by name; a name used twice is [None]. *)
Definition name_entry (m : list (string * option (string * link_meta))) (kl : string * link_meta)
    : list (string * option (string * link_meta)) :=
  if decide (lm_name kl.2 = "") then m
  else mset (lm_name kl.2) (if mhas (lm_name kl.2) m then None else Some kl) m.

Definition names_index (meta : links_map) : list (string * option (string * link_meta)) := fold_left name_entry meta [].

Definition siteLinkOf (meta : links_map) (a : option agent_row) : option (string * link_meta) :=
  match a with
  | None => None
  | Some a =>
      let name := or_empty (ag_wg_link_name a) in
      if decide (name = "") then None
      else match mget name (names_index meta) with
           | Some (Some hit) => if is_client hit.2 then None else Some hit
           | _ => None
           end
  end.

Definition isolated (pairs : list pair) (x y : string) : bool :=
  bool_decide (pairKey x y ∈ (fun p => pairKey (pa p) (pb p)) <$> pairs).

(** The value of an [Address] setting at the head of [s]. *)
Definition address_value (s : string) : option string :=
  let r := trim_start s in
  if decide (to_lower (stake 7 r) = "address") then
    match trim_start (sdrop 7 r) with
    | String "=" r => Some (trim_start r)
    | _ => None
    end
  else None.

(** The first start of line at which [f] matches. *)
Fixpoint find_at_start {A} (f : string -> option A) (at_start : bool) (s : string) : option A :=
  match (if at_start then f s else None) with
  | Some m => Some m
  | None => match s with "" => None | String c r => find_at_start f (is_eol c) r end
  end.

Definition address_cidr (s : string) : option string := v ← address_value s; cidr_at v.

Definition address_host (s : string) : option string :=
  v ← address_value s;
  a ← octet_then "." v; b ← octet_then "." a.2; c ← octet_then "." b.2; d ← octet_then "/" c.2;
  Some (a.1 +:+ "." +:+ b.1 +:+ "." +:+ c.1 +:+ "." +:+ d.1).

Definition tunnel_subnet_of (text : string) : option string :=
  m ← find_at_start address_cidr true text;
  match split_char "/" m with
  | [ip; p] => canonicalizeIpv4Network (ip +:+ "/" +:+ showZ (if num_of_digits p =? 32 then 24 else num_of_digits p))
  | _ => None
  end.

Definition agentTunnelSubnets (agents : list agent_row) : list string :=
  uniq (omap (fun a => tunnel_subnet_of (or_empty (ag_config_text a))) agents).

(** The agents that are not deleted, and one of them by id. *)
Definition live_agents (st : store) : list agent_row := bfilter (fun a => negb (ag_is_deleted a)) (st_agents st).
Definition by_id (st : store) (id : Z) : option agent_row := bfind (fun a => ag_id a =? id) (live_agents st).

Definition meshNets (st : store) : list string :=
  collectSiteNetworks (st_meta st) ++ agentTunnelSubnets (live_agents st).

(** * Validation of a complete link *)

Definition site_link_id (st : store) (id : Z) : string :=
  match siteLinkOf (st_meta st) (by_id st id) with Some hit => hit.1 | None => "" end.

Definition mesh_context (st : store) : mesh_ctx :=
  MeshCtx ((fun a => (ag_id a, ag_ingress_mode a)) <$> live_agents st) (site_link_id st) (isolated (st_pairs st))
    (collectSiteNetworks (st_meta st)) (agentTunnelSubnets (live_agents st)) (lr_link <$> st_links st).

(** The line cap of one agent once the link is enabled. *)
Definition check_lines (st : store) (link : dlink) (agentId : Z) : result svc_error unit :=
  let enabledOthers := length (bfilter (fun r => negb (lr_id r =? dl_id link)) (enabled_links_of agentId st)) in
  lift EIngress (assertTotalLineCount (loadRules agentId st) (2 + Z.of_nat enabledOthers)).

Definition validateComplete (st : store) (link : dlink) : result svc_error unit :=
  lift ELink (assertDirectLinkFits link (mesh_context st));;
  if dl_enabled link then
    check_lines st link (dl_agent_a_id link);; check_lines st link (dl_agent_b_id link)
  else Ok tt.

(** * Handlers of the admin *)

(** The row of a new link. *)
Definition link_of (id : Z) (p : dlink_patch) : dlink :=
  DLink id (default "" (dp_name p)) (default 0 (dp_agent_a_id p)) (default 0 (dp_agent_b_id p))
    (default 0 (dp_listen_port p)) (default "" (dp_endpoint_host p)) (default "" (dp_tunnel_subnet p))
    (default None (dp_mtu p)) (default false (dp_enabled p)) (default false (dp_nat_a p)) (default false (dp_nat_b p)).

Definition merge_link (l : dlink) (p : dlink_patch) : dlink :=
  DLink (dl_id l) (default (dl_name l) (dp_name p)) (default (dl_agent_a_id l) (dp_agent_a_id p))
    (default (dl_agent_b_id l) (dp_agent_b_id p)) (default (dl_listen_port l) (dp_listen_port p))
    (default (dl_endpoint_host l) (dp_endpoint_host p)) (default (dl_tunnel_subnet l) (dp_tunnel_subnet p))
    (default (dl_mtu l) (dp_mtu p)) (default (dl_enabled l) (dp_enabled p))
    (default (dl_nat_a l) (dp_nat_a p)) (default (dl_nat_b l) (dp_nat_b p)).

(** The handlers of links take no lock: what they check is of one moment, what they write of a later
    one, and other calls may come in between. This is what a call is about to write. *)
Inductive link_write :=
| InsertLink (clean : dlink_patch)
| PatchLink (id : Z) (patch : dlink_patch) (resetKeys moved_a moved_b : bool)
| DropLink (id : Z).

Definition load_link (st : store) (id : Z) : result svc_error link_row :=
  or_not_found id (bfind (fun r => lr_id r =? id) (st_links st)).

Definition set_link (st : store) (id : Z) (f : link_row -> link_row) : store :=
  { st with st_links := (fun r => if lr_id r =? id then f r else r) <$> st_links st }.

Definition drop_link (st : store) (id : Z) : store :=
  { st with st_links := bfilter (fun r => negb (lr_id r =? id)) (st_links st) }.

(** A new link is checked without an id, which no row has; here it is 0. *)
Definition check_create (st : store) (body : jsval) : result svc_error link_write :=
  clean ← lift ELink (sanitizeDirectLinkInput body false);
  validateComplete st (link_of 0 clean);;
  Ok (InsertLink clean).

Definition check_update (st : store) (id : Z) (body : jsval) : result svc_error link_write :=
  existing ← load_link st id;
  let resetKeys := match vget body "reset_keys" with VBool b => b | _ => false end in
  patch ← lift ELink (sanitizeDirectLinkInput body true);
  let old := lr_link existing in
  let merged := merge_link old patch in
  throw_if (dl_agent_a_id merged =? dl_agent_b_id merged) (ELink SameAgent);;
  validateComplete st merged;;
  Ok (PatchLink id patch resetKeys (negb (dl_agent_a_id merged =? dl_agent_a_id old)) (negb (dl_agent_b_id merged =? dl_agent_b_id old))).

Definition check_delete (st : store) (id : Z) : result svc_error link_write := load_link st id;; Ok (DropLink id).

(** The columns of one side after an update. *)
Definition side_after (resetKeys moved : bool) (c : side_cols) : side_cols :=
  let c := if resetKeys then SideCols None None (sc_seen c) else c in if moved then no_cols else c.

(** The write: the columns that were sent, over the row as it is by then. [id] is the id the
    database gives a new row; over the limit the next statement of the call deletes it again. *)
Definition write_link (st : store) (id : Z) (w : link_write) : store * option link_write :=
  match w with
  | InsertLink clean =>
      ({ st with st_links := st_links st ++ [LinkRow (link_of id clean) no_cols no_cols] },
       if MAX_DIRECT_LINK_ID <? id then Some (DropLink id) else None)
  | PatchLink i patch resetKeys moved_a moved_b =>
      (set_link st i (fun r => LinkRow (merge_link (lr_link r) patch)
         (side_after resetKeys moved_a (lr_a r)) (side_after resetKeys moved_b (lr_b r))), None)
  | DropLink i => (drop_link st i, None)
  end.

(** The calls that nothing comes in between. *)
Definition create_link (st : store) (id : Z) (body : jsval) : result svc_error store :=
  w ← check_create st body;
  match write_link st id w with
  | (st, None) => Ok st
  | (_, Some _) => Throw ELinkIdLimit
  end.

Definition update_link (st : store) (id : Z) (body : jsval) : result svc_error store :=
  w ← check_update st id body; Ok (write_link st id w).1.

Definition delete_link (st : store) (id : Z) : result svc_error store :=
  w ← check_delete st id; Ok (write_link st id w).1.

Definition deleteForAgent (st : store) (agentId : Z) : store :=
  { st with st_links := bfilter (fun r => negb (side_of_agent agentId r)) (st_links st) }.

(** * The admin view *)

Inductive blocked_reason :=
| AgentMissingView | SiteLinkMissing | SameSiteView | SitesIsolated | SubnetOverlap | NatRestrictedView.

(** The reason the view shows for a link that is not up. *)
Definition view_blocked (st : store) (l : dlink) : option blocked_reason :=
  match by_id st (dl_agent_a_id l), by_id st (dl_agent_b_id l) with
  | Some a, Some b =>
      match siteLinkOf (st_meta st) (Some a), siteLinkOf (st_meta st) (Some b) with
      | Some la, Some lb =>
          if decide (la.1 = lb.1) then Some SameSiteView
          else if isolated (st_pairs st) la.1 lb.1 then Some SitesIsolated
          else match directNetConflict l (meshNets st) with
               | Some _ => Some SubnetOverlap
               | None => if natRestrictedConflict l (ag_ingress_mode a) (ag_ingress_mode b)
                         then Some NatRestrictedView else None
               end
      | _, _ => Some SiteLinkMissing
      end
  | _, _ => Some AgentMissingView
  end.

(** * The payload of an agent *)

Section payload.
Variable sha256hex : string -> string.
(** The hub-side reach of an agent ([otherSiteNetsFor]). *)
Variable otherSiteNetsFor : agent_row -> list string.

Definition row_side (agentId : Z) (l : dlink) : side := if dl_agent_a_id l =? agentId then SideA else SideB.
Definition partner_id (s : side) (l : dlink) : Z := match s with SideA => dl_agent_b_id l | SideB => dl_agent_a_id l end.

(** The site links of both sides when the link is to be up. *)
Definition active_links (st : store) (self : agent_row) (l : dlink) : option (link_meta * link_meta) :=
  let s := row_side (ag_id self) l in
  match by_id st (partner_id s l) with
  | None => None
  | Some partner =>
      match siteLinkOf (st_meta st) (Some self), siteLinkOf (st_meta st) (Some partner) with
      | Some own, Some other =>
          let '(mode_a, mode_b) := match s with
                                   | SideA => (ag_ingress_mode self, ag_ingress_mode partner)
                                   | SideB => (ag_ingress_mode partner, ag_ingress_mode self)
                                   end in
          if dl_enabled l && negb (bool_decide (own.1 = other.1)) && negb (isolated (st_pairs st) own.1 other.1) &&
             negb (bool_decide (is_Some (directNetConflict l (meshNets st)))) && negb (natRestrictedConflict l mode_a mode_b)
          then Some (own.2, other.2) else None
      | _, _ => None
      end
  end.

Definition hub_iface_of (a : agent_row) : string :=
  if re_test VALID_WG_INTERFACE_RE (ag_wg_interface a) then ag_wg_interface a else "wg0".

Definition opt_str (x : option string) : jsval := match x with Some s => VStr s | None => VNull end.

Definition payload_entry (st : store) (self : agent_row) (r : link_row) : result dl_error payload :=
  let l := lr_link r in
  let s := row_side (ag_id self) l in
  let key := opt_str (sc_public_key (match s with SideA => lr_b r | SideB => lr_a r end)) in
  match active_links st self l with
  | None => directPayloadEntry sha256hex l s (hub_iface_of self) key [] false []
  | Some (own, other) =>
      directPayloadEntry sha256hex l s (hub_iface_of self) key
        (directPeerNets (otherSiteNetsFor self) (imported_nets other) (imported_nets own ++ agentTunnelSubnets [self]))
        true (sort_strings (uniq (bfilter (re_test IPV4_HOST_CIDR_RE) (imported_nets own))))
  end.

Definition payloadFor (st : store) (self : agent_row) : result dl_error (list payload) :=
  mapM (payload_entry st self) (merge_sort link_id_le (links_of (ag_id self) st)).
End payload.

(** Per enabled link: the partner's hub address and its address on the link. *)
Definition alias_of (st : store) (agentId : Z) (r : link_row) : option alias :=
  let l := lr_link r in
  let s := row_side agentId l in
  m ← (p ← by_id st (partner_id s l); find_at_start address_host true (or_empty (ag_config_text p)));
  Some (Alias (directIface (dl_id l)) m (peer_addr s (tunnelAddresses (dl_tunnel_subnet l)))).

Definition ingressAliasesFor (st : store) (agentId : Z) : list alias :=
  omap (alias_of st agentId) (merge_sort link_id_le (enabled_links_of agentId st)).

(** * The heartbeat *)

Definition learn_cols (now : Z) (c : side_cols) (r : option string * dstatus) : side_cols :=
  let '(key, status) := r in
  match key with
  | None => SideCols (sc_public_key c) (Some status) (Some now)
  | Some k =>
      if decide (or_empty (sc_public_key c) = "") then SideCols (Some k) (Some status) (Some now)
      else if decide (sc_public_key c = Some k) then SideCols (sc_public_key c) (Some status) (Some now)
      else SideCols (sc_public_key c)
             (Some (DStatus (ds_up status) (ds_path status) (ds_handshake_age status) (ds_rtt_tenths status) (Some KEY_CHANGED_ERROR)))
             (Some now)
  end.

Definition record_row (now agentId : Z) (reported : list (Z * (option string * dstatus))) (r : link_row) : link_row :=
  if side_of_agent agentId r then
    match mget (lr_id r) reported with
    | None => r
    | Some rep => match row_side agentId (lr_link r) with
                  | SideA => LinkRow (lr_link r) (learn_cols now (lr_a r) rep) (lr_b r)
                  | SideB => LinkRow (lr_link r) (lr_a r) (learn_cols now (lr_b r) rep)
                  end
    end
  else r.

Definition recordStatus (st : store) (agentId : Z) (raw : jsval) (now : Z) : store :=
  let reported := sanitizeDirectStatus raw (lr_id <$> links_of agentId st) in
  { st with st_links := record_row now agentId reported <$> st_links st }.

(** * Both sides agree with the admin view *)

Lemma normalizePair_comm x y : normalizePair x y = normalizePair y x.
Proof.
  unfold normalizePair. destruct (sltb x y) eqn:Hxy, (sltb y x) eqn:Hyx; [apply sltb_asym in Hxy; congruence|done|done|].
  destruct (decide (x = y)) as [->|Hne]; [done|]. by destruct (sltb_total x y Hne); congruence.
Qed.

Lemma isolated_comm pairs x y : isolated pairs x y = isolated pairs y x.
Proof. unfold isolated, pairKey. by rewrite normalizePair_comm. Qed.

Lemma by_id_Some st id a : by_id st id = Some a -> a ∈ st_agents st /\ ag_id a = id /\ ag_is_deleted a = false.
Proof.
  intros [[Hin Hd]%elem_of_bfilter Hi]%bfind_Some. apply negb_true_iff in Hd. apply Z.eqb_eq in Hi. done.
Qed.

(** The checks of the payload, as those of the view. *)
Definition link_up (st : store) (l : dlink) (a b : agent_row) : option (link_meta * link_meta) :=
  match siteLinkOf (st_meta st) (Some a), siteLinkOf (st_meta st) (Some b) with
  | Some la, Some lb =>
      if dl_enabled l && negb (bool_decide (la.1 = lb.1)) && negb (isolated (st_pairs st) la.1 lb.1) &&
         negb (bool_decide (is_Some (directNetConflict l (meshNets st)))) &&
         negb (natRestrictedConflict l (ag_ingress_mode a) (ag_ingress_mode b))
      then Some (la.2, lb.2) else None
  | _, _ => None
  end.

Definition swap_pair (p : link_meta * link_meta) : link_meta * link_meta := (p.2, p.1).

Section agree.
Context (st : store) (l : dlink) (a b : agent_row).
Hypothesis (Ha : by_id st (dl_agent_a_id l) = Some a) (Hb : by_id st (dl_agent_b_id l) = Some b).
Hypothesis Hne : dl_agent_a_id l <> dl_agent_b_id l.

Lemma active_side_a : active_links st a l = link_up st l a b.
Proof.
  destruct (by_id_Some _ _ _ Ha) as (_ & Hid & _). unfold active_links, row_side. rewrite Hid, Z.eqb_refl.
  cbn [partner_id]. by rewrite Hb.
Qed.

Lemma active_side_b : active_links st b l = swap_pair <$> link_up st l a b.
Proof.
  destruct (by_id_Some _ _ _ Hb) as (_ & Hid & _). unfold active_links, row_side, link_up.
  rewrite Hid. destruct (Z.eqb_spec (dl_agent_a_id l) (dl_agent_b_id l)); [done|]. cbn [partner_id]. rewrite Ha.
  destruct (siteLinkOf (st_meta st) (Some b)) as [lb|], (siteLinkOf (st_meta st) (Some a)) as [la|]; [|done..].
  rewrite (isolated_comm _ lb.1). rewrite (bool_decide_ext (lb.1 = la.1) (la.1 = lb.1)) by (split; congruence).
  by destruct (_ && _).
Qed.

(** Neither side of the equivalence can hold. *)
Ltac no_side := split; [by intros []|by intros []].

Lemma link_up_view : is_Some (link_up st l a b) <-> dl_enabled l = true /\ view_blocked st l = None.
Proof.
  unfold link_up, view_blocked. rewrite Ha, Hb.
  destruct (siteLinkOf (st_meta st) (Some a)) as [la|], (siteLinkOf (st_meta st) (Some b)) as [lb|]; try (no_side).
  destruct (dl_enabled l); cbn [andb]; [|no_side].
  destruct (decide (la.1 = lb.1)); [rewrite bool_decide_true by done; no_side|].
  rewrite bool_decide_false by done. cbn [negb andb]. destruct (isolated _ _ _); [no_side|].
  cbn [negb andb]. destruct (directNetConflict _ _); [rewrite bool_decide_true by (by eexists); no_side|].
  rewrite bool_decide_false by (by intros []). cbn [negb andb].
  destruct (natRestrictedConflict _ _ _); cbn; split; try (by intros []); done.
Qed.
End agree.

(** A direct link comes up on both sides or on neither: each agent is told to bring it up
    exactly when it is enabled and the admin view names no reason against it, and the two
    agents then work with the same pair of sites. *)
Theorem direct_link_sides_agree st l a b :
  by_id st (dl_agent_a_id l) = Some a -> by_id st (dl_agent_b_id l) = Some b -> dl_agent_a_id l <> dl_agent_b_id l ->
  (is_Some (active_links st a l) <-> dl_enabled l = true /\ view_blocked st l = None) /\
  active_links st b l = swap_pair <$> active_links st a l.
Proof.
  intros Ha Hb Hne. rewrite (active_side_a st l a b), (active_side_b st l a b), (link_up_view st l a b) by done. done.
Qed.

(** Two sites with a network each, and a link between them. *)
Definition ex_agent_row (id : Z) (name : string) : agent_row :=
  AgentRow id name "native" None None None "wg0" None None None None (Some name) None "online" None None None false "open"
    None None None None None None false.

Definition ex_link (id : Z) : dlink := DLink id "direct" 1 2 51820 "gw.example" "10.99.0.0/30" None true false false.

Definition ex_store : store :=
  Store [ex_agent_row 1 "berlin"; ex_agent_row 2 "bonn"] [] [LinkRow (ex_link 1) (SideCols (Some "keyA") None None) no_cols] []
    [("wg0:k1", LinkMeta "berlin" "site-to-site" (Some ["192.168.1.0/24"]));
     ("wg0:k2", LinkMeta "bonn" "site-to-site" (Some ["192.168.2.0/24"]))].

Lemma direct_link_sides_agree_witness :
  view_blocked ex_store (ex_link 1) = None /\ is_Some (active_links ex_store (ex_agent_row 1 "berlin") (ex_link 1)).
Proof.
  split; [vm_compute; reflexivity|].
  apply (direct_link_sides_agree ex_store (ex_link 1) (ex_agent_row 1 "berlin") (ex_agent_row 2 "bonn")).
  - vm_compute. reflexivity.
  - vm_compute. reflexivity.
  - discriminate.
  - split; vm_compute; reflexivity.
Defined.

(** * Keys are pinned *)

Definition cols_of (s : side) (r : link_row) : side_cols := match s with SideA => lr_a r | SideB => lr_b r end.

Lemma learn_cols_pins now c rep k : sc_public_key c = Some k -> k <> "" -> sc_public_key (learn_cols now c rep) = Some k.
Proof.
  intros Hk Hne. destruct rep as [[k'|] status]; cbn; [|done]. rewrite Hk. cbn. rewrite decide_False by done. by case_decide.
Qed.

(** A different key is refused and flagged. *)
Lemma learn_cols_changed now c k k' status : sc_public_key c = Some k -> k <> "" -> k' <> k ->
  exists d, sc_status (learn_cols now c (Some k', status)) = Some d /\ ds_error d = Some KEY_CHANGED_ERROR.
Proof.
  intros Hk Hne Hd. cbn. rewrite Hk. cbn. rewrite decide_False by done. rewrite decide_False by congruence. by eexists.
Qed.

(** The columns of a row after a report: only those of the reporting agent's side change. *)
Lemma record_row_cols now agentId reported r s :
  lr_link (record_row now agentId reported r) = lr_link r /\
  cols_of s (record_row now agentId reported r) =
    match mget (lr_id r) reported with
    | Some rep => if decide (side_of_agent agentId r = true /\ row_side agentId (lr_link r) = s)
                  then learn_cols now (cols_of s r) rep else cols_of s r
    | None => cols_of s r
    end.
Proof.
  unfold record_row. destruct (side_of_agent agentId r).
  - destruct (mget (lr_id r) reported) as [rep|]; [|done]. destruct (row_side agentId (lr_link r)) eqn:Hs, s; cbn;
      (split; [done|]); (rewrite decide_True by done) || (rewrite decide_False by (by intros [])); done.
  - split; [done|]. destruct (mget _ _); [|done]. rewrite decide_False by (by intros []). done.
Qed.

(** The heartbeat of an agent cannot touch more than its own side of its own links, and it
    can never replace a key: a known key stays whatever is reported, a different one is
    refused with an error the admin sees, and only an unknown key is learned. *)
Theorem recordStatus_pins_keys st agentId raw now i r :
  st_links st !! i = Some r ->
  let reported := sanitizeDirectStatus raw (lr_id <$> links_of agentId st) in
  exists r', st_links (recordStatus st agentId raw now) !! i = Some r' /\ lr_link r' = lr_link r /\
    (forall s, row_side agentId (lr_link r) <> s \/ side_of_agent agentId r = false -> cols_of s r' = cols_of s r) /\
    (forall s k, sc_public_key (cols_of s r) = Some k -> k <> "" -> sc_public_key (cols_of s r') = Some k) /\
    (forall k k' status, side_of_agent agentId r = true -> mget (lr_id r) reported = Some (Some k', status) ->
       let s := row_side agentId (lr_link r) in
       sc_public_key (cols_of s r) = Some k -> k <> "" -> k' <> k ->
       exists d, sc_status (cols_of s r') = Some d /\ ds_error d = Some KEY_CHANGED_ERROR).
Proof.
  intros Hi reported. exists (record_row now agentId reported r). split; [|split; [by apply (record_row_cols _ _ _ _ SideA)|]].
  { change (st_links _) with (record_row now agentId reported <$> st_links st). by rewrite list_lookup_fmap, Hi. }
  split_and!.
  - intros s Hs. rewrite (proj2 (record_row_cols now agentId reported r s)). destruct (mget _ _); [|done].
    rewrite decide_False; [done|]. intros [? ?]. destruct Hs; congruence.
  - intros s k Hk Hne. rewrite (proj2 (record_row_cols now agentId reported r s)). destruct (mget _ _); [|done].
    case_decide; [by apply learn_cols_pins|done].
  - intros k k' status Hside Hrep s Hk Hne Hd. rewrite (proj2 (record_row_cols now agentId reported r s)), Hrep.
    rewrite decide_True by done. by apply (learn_cols_changed now _ k).
Qed.

Lemma recordStatus_pins_keys_witness : exists r',
  st_links (recordStatus ex_store 1 (VObj [("1", VObj [("public_key", VStr "other")])]) 7) !! 0%nat = Some r' /\
  sc_public_key (lr_a r') = Some "keyA".
Proof.
  destruct (recordStatus_pins_keys ex_store 1 (VObj [("1", VObj [("public_key", VStr "other")])]) 7 0
    (LinkRow (ex_link 1) (SideCols (Some "keyA") None None) no_cols) eq_refl) as (r' & Hr & _ & _ & Hk & _).
  exists r'. split; [exact Hr|]. apply (Hk SideA); [reflexivity|discriminate].
Defined.

(** * The table of links *)

(** Two links that can be up at the same time. *)
Definition apart (o l : dlink) : Prop :=
  cidrOverlaps (dl_tunnel_subnet o) (dl_tunnel_subnet l) = false /\
  ~ (dl_agent_a_id o = dl_agent_a_id l /\ dl_agent_b_id o = dl_agent_b_id l) /\
  ~ (dl_agent_a_id o = dl_agent_b_id l /\ dl_agent_b_id o = dl_agent_a_id l) /\
  ~ (dl_agent_a_id o = dl_agent_a_id l /\ dl_listen_port o = dl_listen_port l).

Lemma apart_sym o l : apart o l -> apart l o.
Proof.
  unfold apart, cidrOverlaps. rewrite !orb_false_iff. intros ([? ?] & ? & ? & ?). split_and!; naive_solver.
Qed.

(** The invariant of the table: distinct ids, two sides each, and no two links in each other's way. *)
Record links_ok (ls : list link_row) : Prop := LinksOk {
  lo_ids : NoDup (lr_id <$> ls);
  lo_sides : forall r, r ∈ ls -> dl_agent_a_id (lr_link r) <> dl_agent_b_id (lr_link r);
  lo_apart : forall r q, r ∈ ls -> q ∈ ls -> lr_id r <> lr_id q -> apart (lr_link r) (lr_link q) }.

Lemma fits_clash l st : lift ELink (assertDirectLinkFits l (mesh_context st)) = Ok tt ->
  forall r, r ∈ st_links st -> link_clash l (lr_link r) = None.
Proof.
  intros H%lift_Ok r Hr. unfold assertDirectLinkFits in H. apply bind_Ok in H as ([] & H & _).
  apply (link_clash_loop _ _ _ H). by apply list_elem_of_fmap_2.
Qed.

Lemma sanitize_sides b partial p a : sanitizeDirectLinkInput b partial = Ok p ->
  dp_agent_a_id p = Some a -> dp_agent_b_id p <> Some a.
Proof.
  unfold sanitizeDirectLinkInput. intros H. inv_ok. cbn. intros -> Hb.
  match goal with H : bool_decide (is_Some _ /\ _) = false |- _ => apply bool_decide_eq_false in H; apply H end.
  by split; [eexists|].
Qed.

Lemma sanitize_complete b p : sanitizeDirectLinkInput b false = Ok p ->
  is_Some (dp_agent_a_id p) /\ is_Some (dp_agent_b_id p).
Proof.
  unfold sanitizeDirectLinkInput. intros H. apply bind_Ok in H as (n & _ & H).
  apply bind_Ok in H as (oa & (a & -> & _)%need_Ok & H). apply bind_Ok in H as (ob & (b' & -> & _)%need_Ok & H).
  inv_ok. cbn. split; by eexists.
Qed.

(** What an uninterrupted creation did. *)
Lemma create_link_inv st id body st' : create_link st id body = Ok st' -> exists p,
  sanitizeDirectLinkInput body false = Ok p /\ validateComplete st (link_of 0 p) = Ok tt /\ id <= MAX_DIRECT_LINK_ID /\
  st' = { st with st_links := st_links st ++ [LinkRow (link_of id p) no_cols no_cols] }.
Proof.
  intros H. unfold create_link in H. apply bind_Ok in H as (w & Hw & H). unfold check_create in Hw.
  apply bind_Ok in Hw as (p & Hp%lift_Ok & Hw). apply bind_Ok in Hw as ([] & Hv & [= <-]). cbn [write_link] in H.
  destruct (Z.ltb_spec MAX_DIRECT_LINK_ID id); [done|]. injection H as <-. by exists p.
Qed.

(** What an uninterrupted update did. *)
Lemma update_link_inv st id body st' : update_link st id body = Ok st' -> exists old p resetKeys ma mb,
  old ∈ st_links st /\ lr_id old = id /\ dl_agent_a_id (merge_link (lr_link old) p) <> dl_agent_b_id (merge_link (lr_link old) p) /\
  validateComplete st (merge_link (lr_link old) p) = Ok tt /\
  st' = set_link st id (fun r => LinkRow (merge_link (lr_link r) p) (side_after resetKeys ma (lr_a r)) (side_after resetKeys mb (lr_b r))).
Proof.
  intros H. unfold update_link in H. apply bind_Ok in H as (w & Hw & [= <-]). unfold check_update, load_link in Hw.
  apply bind_Ok in Hw as (old & Hold & Hw). apply or_not_found_Ok, bfind_Some in Hold as [Hold Hid]. apply Z.eqb_eq in Hid.
  apply bind_Ok in Hw as (p & _ & Hw). apply bind_Ok in Hw as ([] & Hne%throw_if_Ok & Hw). apply Z.eqb_neq in Hne.
  apply bind_Ok in Hw as ([] & Hv & [= <-]). eexists old, p, _, _, _. by split_and!.
Qed.

Lemma delete_link_inv st id st' : delete_link st id = Ok st' -> st' = drop_link st id.
Proof. intros H. unfold delete_link, check_delete in H. apply bind_Ok in H as (w & Hw & [= <-]). apply bind_Ok in Hw as (? & _ & [= <-]). done. Qed.

Lemma create_links_ok st id body st' : links_ok (st_links st) -> id ∉ (lr_id <$> st_links st) -> 0 ∉ (lr_id <$> st_links st) ->
  create_link st id body = Ok st' -> links_ok (st_links st').
Proof.
  intros [Hi Hs Ha] Hfresh H0 (p & Hp & Hv & _ & ->)%create_link_inv. unfold validateComplete in Hv.
  apply bind_Ok in Hv as ([] & Hfit & _). pose proof (fits_clash _ _ Hfit) as Hc.
  change (st_links _) with (st_links st ++ [LinkRow (link_of id p) no_cols no_cols]).
  assert (forall r, r ∈ st_links st -> apart (lr_link r) (link_of id p)) as Hnew.
  { intros r Hr. change (apart (lr_link r) (link_of 0 p)). apply link_clash_None; [by apply Hc|]. intros He. apply H0.
    change (lr_id r = 0) in He. rewrite <- He. by apply list_elem_of_fmap_2. }
  split.
  - rewrite fmap_app. apply NoDup_app. split_and!; [done| |apply NoDup_singleton]. intros x Hx ->%list_elem_of_singleton. by apply Hfresh.
  - intros r [Hr | ->%list_elem_of_singleton]%elem_of_app; [by apply Hs|]. cbn.
    destruct (sanitize_complete _ _ Hp) as [[a Hpa] [b Hpb]]. rewrite Hpa, Hpb. cbn. intros ->.
    by apply (sanitize_sides _ _ _ _ Hp Hpa).
  - intros r q [Hr | ->%list_elem_of_singleton]%elem_of_app [Hq | ->%list_elem_of_singleton]%elem_of_app Hne;
      [by apply Ha|by apply Hnew|by apply apart_sym, Hnew|done].
Qed.

(** Replacing the link of one row by a link with the same id that is apart from the others. *)
Lemma replace_links_ok ls i l (f : link_row -> link_row) : links_ok ls -> dl_id l = i ->
  dl_agent_a_id l <> dl_agent_b_id l ->
  (forall r, r ∈ ls -> lr_id r <> i -> apart (lr_link r) l) ->
  (forall r, r ∈ ls -> lr_id r = i -> lr_link (f r) = l) -> (forall r, lr_id (f r) = lr_id r) ->
  links_ok ((fun r => if lr_id r =? i then f r else r) <$> ls).
Proof.
  intros [Hi Hs Ha] Hid Hne Hnew Hf Hfi. set (g := fun r => if lr_id r =? i then f r else r).
  assert (forall r, lr_id (g r) = lr_id r) as Hg.
  { intros r. unfold g. destruct (lr_id r =? i); [apply Hfi|done]. }
  assert (forall r, r ∈ ls -> lr_id r = i -> lr_link (g r) = l) as Hgm.
  { intros r Hr He. unfold g. rewrite (proj2 (Z.eqb_eq _ _) He). by apply Hf. }
  assert (forall r, lr_id r <> i -> g r = r) as Hgo.
  { intros r He. unfold g. by rewrite (proj2 (Z.eqb_neq _ _) He). }
  split.
  - rewrite <- list_fmap_compose. by rewrite (list_fmap_ext _ lr_id) by (intros; apply Hg).
  - intros r (q & -> & Hq)%list_elem_of_fmap. destruct (decide (lr_id q = i)); [by rewrite (Hgm q Hq)|]. rewrite Hgo by done. by apply Hs.
  - intros r q (r0 & -> & Hr)%list_elem_of_fmap (q0 & -> & Hq)%list_elem_of_fmap. rewrite !Hg. intros Hd.
    destruct (decide (lr_id r0 = i)) as [Hr0|Hr0], (decide (lr_id q0 = i)) as [Hq0|Hq0].
    + congruence.
    + rewrite (Hgm r0 Hr), (Hgo q0) by done. by apply apart_sym, Hnew.
    + rewrite (Hgo r0), (Hgm q0 Hq) by done. by apply Hnew.
    + rewrite (Hgo r0), (Hgo q0) by done. by apply Ha.
Qed.

Lemma same_row ls (r q : link_row) : NoDup (lr_id <$> ls) -> r ∈ ls -> q ∈ ls -> lr_id r = lr_id q -> r = q.
Proof.
  intros Hn [i Hi]%list_elem_of_lookup [j Hj]%list_elem_of_lookup He.
  assert (i = j) as ->; [|congruence]. eapply NoDup_lookup; [exact Hn|..]; rewrite list_lookup_fmap.
  - by rewrite Hi.
  - rewrite Hj. cbn. by rewrite He.
Qed.

Lemma update_links_ok st id body st' : links_ok (st_links st) -> update_link st id body = Ok st' -> links_ok (st_links st').
Proof.
  intros Hok (old & p & resetKeys & ma & mb & Hold & Hid & Hne & Hv & ->)%update_link_inv. unfold validateComplete in Hv.
  apply bind_Ok in Hv as ([] & Hfit & _). pose proof (fits_clash _ _ Hfit) as Hc.
  apply (replace_links_ok _ _ (merge_link (lr_link old) p)); [done|exact Hid|done| | |done].
  - intros r Hr Hrid. apply link_clash_None; [by apply Hc|]. intros He. apply Hrid. rewrite <- Hid. exact He.
  - intros r Hr Hrid. by rewrite (same_row (st_links st) r old) by (done || apply Hok || congruence).
Qed.

Lemma filter_links_ok p ls : links_ok ls -> links_ok (bfilter p ls).
Proof.
  intros [Hi Hs Ha]. split.
  - clear Hs Ha. induction ls as [|r ls IH]; [done|]. apply NoDup_cons in Hi as [Hn Hi]. specialize (IH Hi).
    unfold bfilter in *. cbn. destruct (p r); [|done]. apply NoDup_cons. split; [|done].
    intros (q & He & [Hq _]%elem_of_bfilter)%list_elem_of_fmap. apply Hn. rewrite He. by apply list_elem_of_fmap_2.
  - intros r [Hr _]%elem_of_bfilter. by apply Hs.
  - intros r q [Hr _]%elem_of_bfilter [Hq _]%elem_of_bfilter. by apply Ha.
Qed.

Lemma delete_links_ok st id st' : links_ok (st_links st) -> delete_link st id = Ok st' -> links_ok (st_links st').
Proof. intros H ->%delete_link_inv. by apply filter_links_ok. Qed.

Lemma same_links_ok ls f : (forall r, lr_link (f r) = lr_link r) -> links_ok ls -> links_ok (f <$> ls).
Proof.
  intros Hf [Hi Hs Ha]. assert (forall r, lr_id (f r) = lr_id r) as Hid by (intros r; unfold lr_id; by rewrite Hf). split.
  - rewrite <- list_fmap_compose. by rewrite (list_fmap_ext _ lr_id) by (intros; apply Hid).
  - intros r (q & -> & Hq)%list_elem_of_fmap. rewrite Hf. by apply Hs.
  - intros r q (r0 & -> & Hr)%list_elem_of_fmap (q0 & -> & Hq)%list_elem_of_fmap. rewrite !Hid, !Hf. by apply Ha.
Qed.

Lemma record_links_ok st agentId raw now : links_ok (st_links st) -> links_ok (st_links (recordStatus st agentId raw now)).
Proof. apply same_links_ok. intros r. by apply (record_row_cols _ _ _ _ SideA). Qed.
