(* ===== verification/AgentIngress.v ===== *)
(** The ingress service ("Freigaben"): [backend/internal/agent-ingress.js] and the pure
    parts of [agent-ingress-catalog.js].

    The admin creates, changes, switches and deletes rules one by one or in bulk, tests
    flows against them and is offered unused rules to switch off. Every change runs in a
    transaction with the agent row locked: here it is one step of the store. *)

From S2P Require Import Prelude.
From S2P Require Import JsString.
From S2P Require Import JsRegex.
From S2P Require Import Cidr.
From S2P Require Import JsVal.
From S2P Require Import Json.
From S2P Require Import IngressRules.
From S2P Require Import SiteRules.
From S2P Require Import DirectLink.
From S2P Require Import AgentText.
From S2P Require Import AgentStore.
From S2P Require Import AgentLinks.

Local Open Scope Z_scope.

(** * The flow test *)

Record flow := Flow { fl_src : string; fl_dst : string; fl_port : option Z; fl_proto : string }.

Inductive flow_error := BadSource | BadDestination | BadFlowPort | BadFlowProto.

#[export] Instance flow_error_eq_dec : EqDecision flow_error.
Proof. solve_decision. Defined.

(** [v === undefined || v === null || v === ""] *)
Definition left_out (v : jsval) : bool :=
  match v with VUndef | VNull => true | VStr s => bool_decide (s = "") | _ => false end.

(** [typeof v === "number" ? v : /^\d{1,n}$/.test(String(v).trim()) ? Number(v) : NaN] *)
Definition digits_or_nan (max : nat) (v : jsval) : jsnum :=
  match v with
  | VNum n => n
  | _ => let s := trim (to_string v) in
         if bool_decide (s <> "") && sall is_digit s && Nat.leb (String.length s) max then to_number v else NaN
  end.

(** [canonicalCidr(v)] of a body field. *)
Definition body_cidr (v : jsval) : option string := canonicalCidr (str_or "" v).

Definition sanitizeFlowQuery (b : jsval) : result flow_error flow :=
  match body_cidr (vget b "source") with
  | None => Throw BadSource
  | Some src =>
      match body_cidr (vget b "destination") with
      | None => Throw BadDestination
      | Some dst =>
          port ← (if left_out (vget b "port") then Ok None
                  else match num_int (digits_or_nan 5 (vget b "port")) with
                       | Some n => if (n <? 1) || (65535 <? n) then Throw BadFlowPort else Ok (Some n)
                       | None => Throw BadFlowPort
                       end);
          let proto := if left_out (vget b "proto") then "tcp" else to_lower (to_string (vget b "proto")) in
          throw_if (negb (bool_decide (proto = "tcp" \/ proto = "udp"))) BadFlowProto;;
          Ok (Flow src dst port proto)
      end
  end.

Inductive flow_reason :=
| ReasonSiteIsolation | ReasonNotViaAgent | ReasonSameSite | ReasonOpenMode | ReasonRule | ReasonNoRule.

#[export] Instance flow_reason_eq_dec : EqDecision flow_reason.
Proof. solve_decision. Defined.

(** What the test answers; [fr_allowed] is [None] for [null]. *)
Record flow_result := FlowResult {
  fr_allowed : option bool;
  fr_filtered : bool;
  fr_reason : flow_reason;
  fr_rule : option Z;
  fr_matched : list Z;
  fr_disabled : option Z;
  fr_port_unknown : bool }.

Definition with_enabled (b : bool) (r : rule) : rule :=
  Rule (r_id r) (r_name r) (r_sources r) (r_destinations r) (r_ports r) b (r_note r) (r_hit_packets r) (r_last_hit_at r) (r_armed_on r).

Definition without_ports (r : rule) : rule :=
  Rule (r_id r) (r_name r) (r_sources r) (r_destinations r) [] (r_enabled r) (r_note r) (r_hit_packets r) (r_last_hit_at r) (r_armed_on r).

Definition covers (r : rule) (f : flow) : bool := ruleCovers r (fl_src f) (fl_dst f) (fl_port f) (fl_proto f).

(** [blocked]: the site isolation verdict on the flow. *)
Definition evaluateFlow (mode : string) (rules : list rule) (ownNets hubNets : list string) (f : flow) (blocked : bool) : flow_result :=
  if blocked then FlowResult (Some false) true ReasonSiteIsolation None [] None false
  else if negb (existsb (fun n => cidrContains n (fl_dst f)) ownNets) || existsb (fun n => cidrContains n (fl_dst f)) hubNets
  then FlowResult None false ReasonNotViaAgent None [] None false
  else if existsb (fun n => cidrContains n (fl_src f)) ownNets then FlowResult None false ReasonSameSite None [] None false
  else
    let sorted := merge_sort id_le rules in
    let matches := bfilter (fun r => covers r f) sorted in
    let disabled := bfind (fun r => negb (r_enabled r) && covers (with_enabled true r) f) sorted in
    let portUnknown := bool_decide (fl_port f = None) && bool_decide (matches = []) &&
                       existsb (fun r => r_enabled r && bool_decide (r_ports r <> []) && covers (without_ports r) f) sorted in
    let first := r_id <$> head matches in
    let answer allowed filtered reason :=
      FlowResult (Some allowed) filtered reason first (r_id <$> matches) (r_id <$> disabled) portUnknown in
    if negb (bool_decide (mode = "restricted")) then answer true false ReasonOpenMode
    else match first with
         | Some _ => answer true true ReasonRule
         | None => answer false true ReasonNoRule
         end.

(** * Unused rules *)

Definition STALE_RULE_SECONDS : Z := 30 * 24 * 3600.
Definition MAX_BULK_RULES : Z := 100.
Definition MAX_BULK_DISABLE : Z := 500.

(** A time as the database returns it: an integer (or its digits), or a date with the
    milliseconds it parses to. *)
Inductive timestamp := TsInt (n : Z) | TsDate (ms : option Z).

Definition toUnixSeconds (v : option timestamp) : option Z :=
  match v with
  | Some (TsInt n) => if n <=? 0 then None else Some (if 10 ^ 12 <? n then n / 1000 else n)
  | Some (TsDate (Some ms)) => Some (ms / 1000)
  | _ => None
  end.

(** A rule with the time it was created. *)
Record dated_rule := DatedRule { dr_rule : rule; dr_created_on : option timestamp }.

Definition max_list (l : list Z) : option Z :=
  match l with [] => None | x :: l => Some (fold_left Z.max l x) end.

Definition ruleReferenceTime (r : dated_rule) : option Z :=
  max_list (omap toUnixSeconds [TsInt <$> r_last_hit_at (dr_rule r); dr_created_on r; TsInt <$> r_armed_on (dr_rule r)]).

Definition armed_time (r : dated_rule) : option Z :=
  match toUnixSeconds (TsInt <$> r_armed_on (dr_rule r)) with Some t => Some t | None => toUnixSeconds (dr_created_on r) end.

Definition older (now : Z) (t : option Z) : bool := match t with Some t => STALE_RULE_SECONDS <? now - t | None => false end.

(** An upstream behind the agent needs the rule. *)
Definition needed_by (hubSrcs : list string) (r : rule) (u : upstream) : bool :=
  existsb (fun h => ruleCovers r h (u_host u) (u_port u) (if decide (u_proto u = "") then "tcp" else u_proto u))
    (hubSrcs ++ (if decide (u_source u = "") then [] else [u_source u])).

Definition prunable (behind : list upstream) (hubSrcs : list string) (now : Z) (r : dated_rule) : bool :=
  isHubSourced (dr_rule r) hubSrcs && older now (ruleReferenceTime r) && older now (armed_time r) &&
  negb (existsb (needed_by hubSrcs (dr_rule r)) behind).

(** The index of the newest entry, the first of several. *)
Fixpoint newest (i best : nat) (best_ref : Z) (l : list Z) : nat :=
  match l with [] => best | x :: l => if best_ref <? x then newest (S i) i x l else newest (S i) best best_ref l end.

Definition newest_index (l : list Z) : nat := match l with [] => 0%nat | x :: l => newest 1 0 x l end.

Definition pruneCandidates (rules : list dated_rule) (behind : list upstream) (hubSrcs : list string) (mode : string)
    (now : Z) (linkFound applied : bool) : list Z :=
  if negb linkFound || negb applied then []
  else
    let enabled := bfilter (fun r => r_enabled (dr_rule r)) rules in
    let out := bfilter (prunable behind hubSrcs now) enabled in
    let out := if bool_decide (mode = "restricted") && bool_decide (out <> []) && Nat.eqb (length out) (length enabled)
               then let n := newest_index ((fun r => default 0 (ruleReferenceTime r)) <$> out) in take n out ++ drop (S n) out
               else out in
    (fun r => r_id (dr_rule r)) <$> out.

(** * Bulk requests *)

Definition sanitizeBulkList (v : jsval) : result bulk_error (list rule_patch) :=
  match v with
  | VArr l =>
      throw_if ((Z.of_nat (length l) <? 1) || (MAX_BULK_RULES <? Z.of_nat (length l))) BulkSize;;
      mapM (fun id : nat * jsval => match sanitizeIngressRule id.2 false with
                                    | Ok p => Ok p
                                    | Throw e => Throw (BulkRule id.1 e)
                                    end) (imap (fun i x => (i, x)) l)
  | _ => Throw BulkSize
  end.

(** One list of the key: canonical networks in order, as JSON. *)
Definition json_opt (x : option string) : string := match x with Some s => json_string s | None => "null" end.

Definition opt_le (x y : option string) : Prop := String.le (default "null" x) (default "null" y).
#[export] Instance opt_le_dec x y : Decision (opt_le x y).
Proof. unfold opt_le. apply _. Defined.

Definition key_list (l : list (option string)) : string := "[" +:+ join "," (json_opt <$> merge_sort opt_le l) +:+ "]".

Definition targetKey (sources destinations : list string) (ports : list port_spec) : string :=
  "[" +:+ key_list (canonicalCidr <$> sources) +:+ "," +:+ key_list (canonicalCidr <$> destinations) +:+ "," +:+
  key_list ((fun p => Some (port_key p)) <$> ports) +:+ "]".

Definition rule_key (r : rule) : string := targetKey (r_sources r) (r_destinations r) (r_ports r).

Definition patch_key (p : rule_patch) : string :=
  targetKey (default [] (rp_sources p)) (default [] (rp_destinations p)) (default [] (rp_ports p)).

Record bulk_plan := BulkPlan {
  bp_create : list (nat * rule_patch);
  bp_reenable : list (nat * Z);
  bp_skipped : list (nat * option Z) }.

(** The first id of every key among the rules with the given switch. *)
Definition ids_by_key (enabled : bool) (existing : list rule) : list (string * Z) :=
  fold_left (fun m r => if Bool.eqb (r_enabled r) enabled && negb (mhas (rule_key r) m) then mset (rule_key r) (r_id r) m else m)
    existing [].

Definition dedupe_step (disabledByKey : list (string * Z)) (st : list (string * option Z) * bulk_plan) (ir : nat * rule_patch)
    : list (string * option Z) * bulk_plan :=
  let '(seen, bp) := st in
  let '(index, p) := ir in
  let k := patch_key p in
  match mget k seen with
  | Some id => (seen, BulkPlan (bp_create bp) (bp_reenable bp) (bp_skipped bp ++ [(index, id)]))
  | None =>
      match mget k disabledByKey with
      | Some ruleId => (mset k (Some ruleId) seen, BulkPlan (bp_create bp) (bp_reenable bp ++ [(index, ruleId)]) (bp_skipped bp))
      | None => (mset k None seen, BulkPlan (bp_create bp ++ [(index, p)]) (bp_reenable bp) (bp_skipped bp))
      end
  end.

Definition bulkDedupe (existing : list rule) (clean : list rule_patch) : bulk_plan :=
  let seen := (fun kv => (kv.1, Some kv.2)) <$> ids_by_key true existing in
  (fold_left (dedupe_step (ids_by_key false existing)) (imap (fun i x => (i, x)) clean) (seen, BulkPlan [] [] [])).2.

Definition bulk_id (out : list Z) (v : jsval) : result bulk_error (list Z) :=
  let n := match v with
           | VNum n => n
           | _ => let s := to_string v in if bool_decide (s <> "") && sall is_digit s then to_number v else NaN
           end in
  match num_int n with
  | Some n => if n <? 1 then Throw BulkId else Ok (push_new out n)
  | None => Throw BulkId
  end.

Definition sanitizeRuleIds (v : jsval) : result bulk_error (list Z) :=
  match v with
  | VArr l =>
      throw_if ((Z.of_nat (length l) <? 1) || (MAX_BULK_DISABLE <? Z.of_nat (length l))) BulkIds;;
      foldM bulk_id [] l
  | _ => Throw BulkIds
  end.

(** * The state the agent reports *)

Inductive ingress_state := StApplied | StUnknown | StFailed | StPending | StOffline.

#[export] Instance ingress_state_eq_dec : EqDecision ingress_state.
Proof. solve_decision. Defined.

Record applied_info := AppliedInfo { ai_state : ingress_state; ai_applied_hash : option string; ai_desired_hash : option string }.

Definition AGENT_OFFLINE_AFTER_S : Z := 5 * 60.

(** A nullable text that counts as missing when empty. *)
Definition non_empty_opt (x : option string) : option string := match x with Some "" => None | _ => x end.

(** [desired] is [None] when the ruleset cannot be built. *)
Definition ingressAppliedState (desired : option string) (appliedHash error : option string) (lastSeen : option Z) (now : Z)
    : applied_info :=
  let applied := non_empty_opt appliedHash in
  match desired with
  | None => AppliedInfo StFailed applied None
  | Some d =>
      let state := match applied with
                   | None => if decide (d = "NONE") then StApplied else StUnknown
                   | Some a => if decide (non_empty_opt error <> None) then StFailed
                               else if decide (a = d) then StApplied else StPending
                   end in
      let never := match lastSeen with Some t => (t =? 0) || (AGENT_OFFLINE_AFTER_S <? now - t) | None => true end in
      AppliedInfo (if bool_decide (state = StPending) && never then StOffline else state) applied (Some d)
  end.

(** * The service *)

Definition assertNotEmptyRestricted (mode : string) (rules : list rule) : result svc_error unit :=
  throw_if (bool_decide (mode = "restricted") && negb (existsb r_enabled rules)) EEmptyRestricted.

Definition updateCanGrow (p : rule_patch) : bool :=
  bool_decide (is_Some (rp_sources p)) || bool_decide (is_Some (rp_destinations p)) || bool_decide (is_Some (rp_ports p)) ||
  bool_decide (rp_enabled p = Some true).

(** The rule a complete patch describes. *)
Definition rule_of (id : Z) (armed_on : Z) (p : rule_patch) : rule :=
  Rule id (default "" (rp_name p)) (default [] (rp_sources p)) (default [] (rp_destinations p)) (default [] (rp_ports p))
    (default true (rp_enabled p)) (default None (rp_note p)) 0 None (Some armed_on).

Definition merge_rule (r : rule) (p : rule_patch) : rule :=
  Rule (r_id r) (default (r_name r) (rp_name p)) (default (r_sources r) (rp_sources p))
    (default (r_destinations r) (rp_destinations p)) (default (r_ports r) (rp_ports p))
    (default (r_enabled r) (rp_enabled p)) (default (r_note r) (rp_note p)) (r_hit_packets r) (r_last_hit_at r) (r_armed_on r).

Definition arm (t : option Z) (r : rule) : rule :=
  match t with
  | None => r
  | Some t => Rule (r_id r) (r_name r) (r_sources r) (r_destinations r) (r_ports r) (r_enabled r) (r_note r)
                (r_hit_packets r) (r_last_hit_at r) (Some t)
  end.

(** [patch(...).where("id", ruleId)], optionally also [where("agent_id", ...)]. *)
Definition map_rules (sel : rule_entry -> bool) (f : rule -> rule) (st : store) : store :=
  { st with st_rules := (fun e => if sel e then RuleEntry (re_agent_id e) (f (re_rule e)) else e) <$> st_rules st }.

Definition is_rule (ruleId : Z) (e : rule_entry) : bool := r_id (re_rule e) =? ruleId.

Definition create_rule (st : store) (agentId : Z) (data : jsval) (id now : Z) : result svc_error store :=
  agent ← or_not_found agentId (live_agent agentId (st_agents st));
  clean ← lift EIngress (sanitizeIngressRule data false);
  let existing := loadRules agentId st in
  throw_if (MAX_RULES_PER_AGENT <=? Z.of_nat (length existing)) ETooManyRules;;
  lift EIngress (assertTotalLineCount (existing ++ [rule_of id now clean]) (ifaceCountOf agentId st));;
  Ok { st with st_rules := st_rules st ++ [RuleEntry agentId (rule_of id now clean)] }.

Definition update_rule (st : store) (agentId ruleId : Z) (data : jsval) (now : Z) : result svc_error store :=
  agent ← or_not_found agentId (live_agent agentId (st_agents st));
  clean ← lift EIngress (sanitizeIngressRule data true);
  let all := loadRules agentId st in
  existing ← or_not_found ruleId (bfind (fun r => r_id r =? ruleId) all);
  let merged := merge_rule existing clean in
  let rules := (fun r => if r_id r =? ruleId then merged else r) <$> all in
  (if updateCanGrow clean then
     lift EIngress (assertRuleLineCount (ruleLineCount merged));;
     lift EIngress (assertTotalLineCount rules (ifaceCountOf agentId st))
   else Ok tt);;
  assertNotEmptyRestricted (ag_ingress_mode agent) rules;;
  Ok (map_rules (is_rule ruleId) (fun r => arm (armedOnPatch existing clean now) (merge_rule r clean)) st).

Definition delete_rule (st : store) (agentId ruleId : Z) : result svc_error store :=
  agent ← or_not_found agentId (live_agent agentId (st_agents st));
  let all := loadRules agentId st in
  existing ← or_not_found ruleId (bfind (fun r => r_id r =? ruleId) all);
  assertNotEmptyRestricted (ag_ingress_mode agent) (bfilter (fun r => negb (r_id r =? ruleId)) all);;
  Ok { st with st_rules := bfilter (fun e => negb (is_rule ruleId e)) (st_rules st) }.

Definition set_mode (m : string) (a : agent_row) : agent_row := { a with ag_ingress_mode := m }.

Definition setMode (st : store) (agentId : Z) (mode : jsval) : result svc_error store :=
  agent ← or_not_found agentId (live_agent agentId (st_agents st));
  m ← lift EIngress (sanitizeIngressMode mode);
  let rules := loadRules agentId st in
  assertNotEmptyRestricted m rules;;
  lift EIngress (assertTotalLineCount rules (ifaceCountOf agentId st));;
  Ok { st with st_agents := patch_row agentId (set_mode m) (st_agents st) }.

(** The rules with the given ids switched on or off. *)
Definition switch_rules (b : bool) (ids : list Z) (rules : list rule) : list rule :=
  (fun r => if bool_decide (r_id r ∈ ids) then with_enabled b r else r) <$> rules.

(** [ids]: the ids the database gives the new rows. *)
Definition createBulk (st : store) (agentId : Z) (l : jsval) (ids : list Z) (now : Z) : result svc_error (store * bulk_plan) :=
  agent ← or_not_found agentId (live_agent agentId (st_agents st));
  clean ← lift EBulk (sanitizeBulkList l);
  let existing := loadRules agentId st in
  let plan := bulkDedupe existing clean in
  let fresh := zip_with (fun id ip => rule_of id now ip.2) ids (bp_create plan) in
  let reIds := (bp_reenable plan).*2 in
  throw_if (MAX_RULES_PER_AGENT <? Z.of_nat (length existing + length fresh)) ETooManyRules;;
  lift EIngress (assertTotalLineCount (switch_rules true reIds existing ++ fresh) (ifaceCountOf agentId st));;
  let st1 := map_rules (fun e => (re_agent_id e =? agentId) && bool_decide (r_id (re_rule e) ∈ reIds))
               (fun r => arm (Some now) (with_enabled true r)) st in
  Ok ({ st1 with st_rules := st_rules st1 ++ (RuleEntry agentId <$> fresh) }, plan).

(** [prune]: the candidates of the catalog at this moment, when the request names them. *)
Definition disableBulk (st : store) (agentId : Z) (ids : jsval) (prune : option (list Z)) : result svc_error store :=
  agent ← or_not_found agentId (live_agent agentId (st_agents st));
  ruleIds ← lift EBulk (sanitizeRuleIds ids);
  match bfind (fun id => match prune with Some allowed => negb (bool_decide (id ∈ allowed)) | None => false end) ruleIds with
  | Some id => Throw (EBulk (BulkNotCandidate id))
  | None =>
      let rules := loadRules agentId st in
      match bfind (fun id => negb (existsb (fun r => r_id r =? id) rules)) ruleIds with
      | Some id => Throw (ENotFound id)
      | None =>
          assertNotEmptyRestricted (ag_ingress_mode agent) (switch_rules false ruleIds rules);;
          Ok (map_rules (fun e => (re_agent_id e =? agentId) && bool_decide (r_id (re_rule e) ∈ ruleIds)) (with_enabled false) st)
      end
  end.

Definition hit (now : Z) (counters : list (Z * Z)) (r : rule) : rule :=
  match mget (r_id r) counters with
  | None => r
  | Some packets =>
      let '(p, t) := nextHitState (r_hit_packets r) (r_last_hit_at r) packets now in
      Rule (r_id r) (r_name r) (r_sources r) (r_destinations r) (r_ports r) (r_enabled r) (r_note r) p t (r_armed_on r)
  end.

Definition recordCounters (st : store) (agentId : Z) (raw : jsval) (now : Z) : store :=
  map_rules (fun e => re_agent_id e =? agentId) (hit now (sanitizeIngressCounters raw)) st.

Section payload.
Variable sha256hex : string -> string.

Definition ifaceOf (a : agent_row) : string := if isWgIface (ag_wg_interface a) then ag_wg_interface a else "wg0".

Definition ingress_agent (st : store) (a : agent_row) : agent :=
  Agent (if decide (ag_ingress_mode a = "") then "open" else ag_ingress_mode a) (ifaceOf a)
    (ifacesFor (ag_id a) st) (ingressAliasesFor st (ag_id a)).

Definition ingressPayloadFor (st : store) (a : agent_row) : result ingress_error (option (string * string)) :=
  b ← buildIngressRestore sha256hex (ingress_agent st a) (loadRules (ag_id a) st);
  Ok (option_map (fun b => (b_hash b, b_text b)) b).

Definition appliedFor (st : store) (a : agent_row) (now : Z) : applied_info :=
  let desired := match ingressPayloadFor st a with
                 | Ok (Some hr) => Some hr.1
                 | Ok None => Some "NONE"
                 | Throw _ => None
                 end in
  ingressAppliedState desired (ag_ingress_applied_hash a) (ag_ingress_error a) (ag_last_seen a) now.
End payload.

(** * The flow test and the chain *)

Lemma ruleCovers_conj r src dst port proto : ruleCovers r src dst port proto =
  r_enabled r && (existsb (fun s => cidrContains s src) (r_sources r) &&
  ((bool_decide (r_destinations r = []) || existsb (fun d => cidrContains d dst) (r_destinations r)) &&
  (bool_decide (r_ports r = []) ||
   match port with Some n => existsb (fun p => bool_decide (p_proto p = proto) && port_covers p n) (r_ports r) | None => false end))).
Proof.
  unfold ruleCovers. destruct (r_enabled r); [|done]. cbn [negb andb].
  destruct (existsb (fun s => cidrContains s src) _); [|done]. cbn [negb andb].
  rewrite bool_decide_not. destruct (bool_decide (r_destinations r = [])); cbn [negb andb orb].
  - case_bool_decide; [by rewrite decide_True|]. rewrite decide_False by done. by destruct port.
  - destruct (existsb (fun d => cidrContains d dst) _); [|done]. cbn [negb andb].
    case_bool_decide; [by rewrite decide_True|]. rewrite decide_False by done. by destruct port.
Qed.

Lemma ruleCovers_true r src dst port proto : ruleCovers r src dst port proto = true <->
  r_enabled r = true /\ (exists s, s ∈ r_sources r /\ cidrContains s src = true) /\
  (r_destinations r = [] \/ exists d, d ∈ r_destinations r /\ cidrContains d dst = true) /\
  (r_ports r = [] \/ exists n p, port = Some n /\ p ∈ r_ports r /\ p_proto p = proto /\ port_covers p n = true).
Proof.
  rewrite ruleCovers_conj, !andb_true_iff, !orb_true_iff, !bool_decide_eq_true, !existsb_true.
  do 3 (apply and_iff_compat_l). apply or_iff_compat_l. destruct port as [n|]; [|split; [done|by intros (? & ? & ? & _)]].
  rewrite existsb_true. setoid_rewrite andb_true_iff. setoid_rewrite bool_decide_eq_true. split.
  - intros (p & ? & ? & ?). by exists n, p.
  - intros (m & p & [= <-] & ?). by exists p.
Qed.

(** A packet of a flow: an address of either range, the port when the flow names one. *)
Definition flow_packet (f : flow) (pk : packet) : Prop :=
  in_cidr (pk_src pk) (fl_src f) /\ in_cidr (pk_dst pk) (fl_dst f) /\ pk_proto pk = fl_proto f /\
  (forall n, fl_port f = Some n -> pk_dport pk = n).

(** The flow is a single packet's. *)
Definition flow_of (pk : packet) : flow := Flow (host32 (pk_src pk)) (host32 (pk_dst pk)) (Some (pk_dport pk)) (pk_proto pk).

Lemma contains_host s t x : cidrContains s t = true -> in_cidr x t -> cidrContains s (host32 x) = true.
Proof.
  intros Hc Hx. rewrite cidrContains_host32 by (by eapply in_cidr_addr). apply in_cidrb_spec.
  by apply (cidrContains_in_cidr s t).
Qed.

(** A rule that covers a flow covers every packet of it. *)
Lemma covers_packet r f pk : covers r f = true -> flow_packet f pk -> covers r (flow_of pk) = true.
Proof.
  intros (He & (s & Hs & Hsc) & Hd & Hp)%ruleCovers_true (Hsi & Hdi & Hpr & Hpo). apply ruleCovers_true. cbn.
  split_and!; [done|..].
  - exists s. split; [done|]. by apply (contains_host _ (fl_src f)).
  - destruct Hd as [->|(d & Hd & Hdc)]; [by left|right]. exists d. split; [done|]. by apply (contains_host _ (fl_dst f)).
  - destruct Hp as [->|(n & p & Hn & Hp & Hpp & Hpc)]; [by left|right]. exists (pk_dport pk), p.
    rewrite (Hpo n Hn). split_and!; congruence.
Qed.

Lemma direct_not_wg d : re_test FGD_RE d = true -> isWgIface d = true -> False.
Proof.
  unfold isWgIface. intros (s1 & s2 & -> & H1 & _)%re_test_seq_inv (t1 & t2 & He & H2 & _)%re_test_seq_inv.
  apply re_test_seq_inv in H1 as (c1 & r1 & -> & (c & -> & Hc)%re_test_char & _).
  apply re_test_seq_inv in H2 as (c2 & r2 & -> & (d & -> & Hd)%re_test_char & _).
  cbn in He. injection He as <- _. revert Hc Hd. unfold is_char. rewrite !bool_decide_eq_true. congruence.
Qed.

Lemma own_covers_packet ag rules pk : ifaces_ok ag -> pk_iface pk = a_iface ag ->
  packet_covered ag rules pk <-> exists r, r ∈ rules /\ covers r (flow_of pk) = true.
Proof.
  intros [Hw Hf] Hi. unfold packet_covered, covers. cbn. split; [|naive_solver].
  intros (r & Hr & [H|(al & _ & Hd & Ha & _)]); [by exists r|]. exfalso. rewrite Forall_forall in Hf.
  apply (direct_not_wg (al_iface al)); [by apply Hf|]. by rewrite <- Ha, Hi.
Qed.

Lemma head_sorted_least rules p r : head (bfilter p (merge_sort id_le rules)) = Some r ->
  r ∈ rules /\ p r = true /\ forall q, q ∈ rules -> p q = true -> r_id r <= r_id q.
Proof.
  assert (Sorted id_le (merge_sort id_le rules)) as HS.
  { apply Sorted_merge_sort. intros x y. unfold id_le. lia. }
  apply Sorted_StronglySorted in HS; [|intros x y z; unfold id_le; lia].
  pose proof (merge_sort_Permutation id_le rules) as HP. revert HS HP.
  generalize (merge_sort id_le rules). intros l HS HP Hh.
  assert (r ∈ l /\ p r = true /\ forall q, q ∈ l -> p q = true -> r_id r <= r_id q) as (Hin & Hp & Hl).
  { clear HP. induction HS as [|x l HS IH Hall]; [done|]. cbn [bfilter List.filter] in Hh.
    destruct (p x) eqn:Hx.
    - injection Hh as ->. split_and!; [left|done|]. intros q [-> | Hq]%elem_of_cons _; [done|].
      rewrite Forall_forall in Hall. by apply Hall.
    - destruct (IH Hh) as (Hin & Hp & Hl). split_and!; [by right|done|].
      intros q [-> | Hq]%elem_of_cons Hpq; [congruence|by apply Hl]. }
  split_and!; [by rewrite <- HP|done|]. intros q Hq. apply Hl. by rewrite HP.
Qed.

Lemma head_bfilter_None {A} (p : A -> bool) l : head (bfilter p l) = None <-> forall x, x ∈ l -> p x = false.
Proof.
  destruct (bfilter p l) as [|y k] eqn:He; cbn.
  - split; [|done]. intros _ x Hx. apply not_true_iff_false. intros Hp.
    assert (x ∈ bfilter p l) as Hin by (by apply elem_of_bfilter). rewrite He in Hin. by apply elem_of_nil in Hin.
  - split; [done|]. intros H. assert (y ∈ bfilter p l) as [Hy Hp]%elem_of_bfilter by (rewrite He; left).
    by rewrite H in Hp.
Qed.

(** What the test answers when site isolation does not block the flow and it is not answered
    as passing elsewhere, for a restricted agent. *)
Lemma evaluateFlow_restricted rules own hub f r : evaluateFlow "restricted" rules own hub f false = r ->
  fr_allowed r <> None ->
  fr_rule r = r_id <$> head (bfilter (fun q => covers q f) (merge_sort id_le rules)) /\
  fr_allowed r = Some (bool_decide (is_Some (fr_rule r))).
Proof.
  intros <-. unfold evaluateFlow. destruct (_ || _); [done|]. destruct (existsb _ own); [done|].
  rewrite bool_decide_true by done. cbn [negb].
  destruct (head (bfilter _ (merge_sort id_le rules))) as [q|]; by cbn.
Qed.

Section flow_spec.
Variable sha256hex : string -> string.

(** C34. The flow test tells the truth about a restricted agent: a flow it calls allowed passes
    the installed chain with every packet, a single packet it calls blocked is dropped,
    and the rule it names is the first, by id, that covers the flow. *)
Theorem flow_test_agrees_with_chain ag rules b own hub f r pk :
  buildIngressRestore sha256hex ag rules = Ok (Some b) -> ingress_mode ag = "restricted" ->
  evaluateFlow (ingress_mode ag) rules own hub f false = r ->
  pk_established pk = false -> pk_iface pk = a_iface ag -> flow_packet f pk ->
  (fr_allowed r = Some true -> chain_verdict (b_lines b) pk = VAccept) /\
  (f = flow_of pk -> fr_allowed r = Some false -> chain_verdict (b_lines b) pk = VDrop) /\
  (forall i, fr_rule r = Some i -> exists q, q ∈ rules /\ r_id q = i /\ covers q f = true /\
     forall q', q' ∈ rules -> covers q' f = true -> i <= r_id q').
Proof.
  intros Hb Hm He Hest Hif Hpk. rewrite Hm in He.
  assert (is_addr (pk_src pk) /\ is_addr (pk_dst pk)) as [Hs Hd].
  { destruct Hpk as (Hs & Hd & _). split; by eapply in_cidr_addr. }
  pose proof Hb as (Hio & _)%buildIngressRestore_iff.
  destruct (restricted_chain_verdict sha256hex ag rules b pk Hb Hm Hs Hd) as (_ & [Hacc Hdrop] & _);
    [done|rewrite Hif; left|].
  rewrite own_covers_packet in Hacc, Hdrop by done. split_and!.
  - intros Ha. destruct (evaluateFlow_restricted _ _ _ _ _ He) as [Hr Hv]; [congruence|]. apply Hacc.
    rewrite Hv in Ha. injection Ha as Hi%bool_decide_eq_true. rewrite Hr in Hi.
    destruct (head _) as [q|] eqn:Hh; [|by destruct Hi].
    apply head_sorted_least in Hh as (Hq & Hc & _). exists q. split; [done|]. by apply (covers_packet q f).
  - intros Hf Ha. destruct (evaluateFlow_restricted _ _ _ _ _ He) as [Hr Hv]; [congruence|]. apply Hdrop.
    rewrite Hv in Ha. injection Ha as Hi%bool_decide_eq_false. rewrite Hr in Hi.
    intros (q & Hq & Hc). destruct (head _) as [q'|] eqn:Hh; [by apply Hi; eexists|].
    rewrite head_bfilter_None in Hh. rewrite <- Hf in Hc. rewrite Hh in Hc; [done|]. by rewrite merge_sort_Permutation.
  - intros i Hi. destruct (decide (fr_allowed r = None)) as [Hn|Hn].
    { exfalso. revert Hn Hi. rewrite <- He. unfold evaluateFlow. destruct (_ || _); [done|]. destruct (existsb _ own); [done|].
      rewrite bool_decide_true by done. cbn [negb]. by destruct (r_id <$> head _). }
    destruct (evaluateFlow_restricted _ _ _ _ _ He Hn) as [Hr _]. rewrite Hi in Hr.
    destruct (head _) as [q|] eqn:Hh; [|done]. injection Hr as ->.
    apply head_sorted_least in Hh as (Hq & Hc & Hl). by exists q.
Qed.
End flow_spec.

Definition ex_flow : flow := flow_of ex_packet.

Lemma flow_test_agrees_with_chain_witness :
  exists b, buildIngressRestore id (ex_agent "restricted") [ex_rule] = Ok (Some b) /\
    fr_allowed (evaluateFlow "restricted" [ex_rule] ["192.168.5.0/24"] [] ex_flow false) = Some true /\
    chain_verdict (b_lines b) ex_packet = VAccept.
Proof.
  eexists. split; [vm_compute; reflexivity|]. split; [vm_compute; reflexivity|].
  eapply (flow_test_agrees_with_chain id (ex_agent "restricted") [ex_rule] _ ["192.168.5.0/24"] [] ex_flow).
  - vm_compute. reflexivity.
  - reflexivity.
  - reflexivity.
  - reflexivity.
  - reflexivity.
  - split_and!; [by apply in_cidr_host32; [split; vm_compute; congruence|]..|done|by intros n [= <-]].
  - vm_compute. reflexivity.
Defined.

(** * Unused rules *)

Lemma newest_lt i best ref l n : (best < n)%nat -> (i + length l <= n)%nat -> (newest i best ref l < n)%nat.
Proof.
  revert i best ref. induction l as [|x l IH]; intros i best ref Hb Hl; cbn in *; [done|].
  destruct (ref <? x); apply IH; lia.
Qed.

Lemma newest_index_lt l : l <> [] -> (newest_index l < length l)%nat.
Proof. destruct l as [|x l]; [done|]. intros _. apply newest_lt; cbn; lia. Qed.

Lemma bfilter_short {A} (p : A -> bool) l : length (bfilter p l) <> length l -> exists x, x ∈ l /\ p x = false.
Proof.
  induction l as [|y l IH]; [done|]. cbn. destruct (p y) eqn:Hy; cbn.
  - intros Hl. destruct IH as (x & Hx & Hp); [congruence|]. exists x. by split; [right|].
  - intros _. exists y. by split; [left|].
Qed.

Definition dr_id (r : dated_rule) : Z := r_id (dr_rule r).

Lemma drop_one {A} (l : list A) n x : l !! n = Some x -> NoDup l ->
  x ∉ take n l ++ drop (S n) l /\ forall y, y ∈ take n l ++ drop (S n) l -> y ∈ l.
Proof.
  intros Hx Hn. rewrite <- (take_drop_middle l n x Hx) in Hn. split.
  - apply NoDup_app in Hn as (_ & Hd & [Hx' _]%NoDup_cons). rewrite elem_of_app. intros [H|H]; [|done].
    apply (Hd _ H). left.
  - intros y [H|H]%elem_of_app; [by apply elem_of_take in H as (? & ?%list_elem_of_lookup_2 & _)|].
    rewrite <- (take_drop_middle l n x Hx). rewrite elem_of_app, elem_of_cons. auto.
Qed.

Section prune.
Context (rules : list dated_rule) (behind : list upstream) (hubSrcs : list string) (mode : string) (now : Z).
Hypothesis Hids : NoDup (dr_id <$> rules).

(** The rules offered are unused by every upstream, and one enabled rule stays. *)
Lemma pruneCandidates_rules linkFound applied : exists out,
  pruneCandidates rules behind hubSrcs mode now linkFound applied = dr_id <$> out /\
  (forall r, r ∈ out -> r ∈ rules /\ r_enabled (dr_rule r) = true /\ prunable behind hubSrcs now r = true) /\
  (mode = "restricted" -> existsb (fun r => r_enabled (dr_rule r)) rules = true ->
     exists r, r ∈ rules /\ r_enabled (dr_rule r) = true /\ r ∉ out).
Proof.
  unfold pruneCandidates. destruct (_ || _).
  { exists []. split_and!; [done|by intros r ?%elem_of_nil|]. intros _ (r & Hr & He)%existsb_true. exists r.
    by split_and!; [..|apply not_elem_of_nil]. }
  set (enabled := bfilter (fun r => r_enabled (dr_rule r)) rules). set (cand := bfilter (prunable behind hubSrcs now) enabled).
  assert (NoDup cand) as Hnd by (do 2 apply NoDup_bfilter; by apply (NoDup_fmap_1 dr_id)).
  assert (forall r, r ∈ cand -> r ∈ rules /\ r_enabled (dr_rule r) = true /\ prunable behind hubSrcs now r = true) as Hc.
  { intros r [[Hr He]%elem_of_bfilter Hp]%elem_of_bfilter. done. }
  assert (forall r, r ∈ enabled -> r ∈ rules /\ r_enabled (dr_rule r) = true) as Hen by (intros r ?%elem_of_bfilter; done).
  destruct (bool_decide (mode = "restricted") && bool_decide (cand <> []) && Nat.eqb (length cand) (length enabled)) eqn:Hall.
  - apply andb_true_iff in Hall as [[_ Hne%bool_decide_eq_true]%andb_true_iff _].
    set (n := newest_index _). assert (n < length cand)%nat as Hn.
    { rewrite <- (length_fmap (fun r => default 0 (ruleReferenceTime r)) cand). apply newest_index_lt. by destruct cand. }
    apply lookup_lt_is_Some in Hn as [x Hx]. destruct (drop_one _ _ _ Hx Hnd) as [Hout Hsub].
    exists (take n cand ++ drop (S n) cand). split_and!; [done|by intros r ?%Hsub%Hc|].
    intros _ _. exists x. apply list_elem_of_lookup_2 in Hx. by destruct (Hc x Hx) as (? & ? & _).
  - exists cand. split_and!; [done|done|]. intros Hm Hex. apply existsb_true in Hex as (r0 & Hr0 & He0).
    rewrite bool_decide_true in Hall by done. cbn [andb] in Hall.
    destruct (decide (cand = [])) as [Hnil|Hne].
    { exists r0. rewrite Hnil. by split_and!; [..|apply not_elem_of_nil]. }
    rewrite bool_decide_true in Hall by done. cbn [andb] in Hall. apply Nat.eqb_neq in Hall.
    apply bfilter_short in Hall as (x & Hx & Hp). exists x. destruct (Hen x Hx). split_and!; [done..|].
    intros (_ & _ & Hp')%Hc. congruence.
Qed.
End prune.

Lemma elem_of_switch b ids rules q : q ∈ switch_rules b ids rules <->
  exists r, r ∈ rules /\ q = (if bool_decide (r_id r ∈ ids) then with_enabled b r else r).
Proof. unfold switch_rules. rewrite list_elem_of_fmap. naive_solver. Qed.

Lemma covered_off r src dst port proto : ruleCovers (with_enabled false r) src dst port proto = false.
Proof. reflexivity. Qed.

Lemma enabled_rules_Ok mode rules : assertNotEmptyRestricted mode rules = Ok tt <->
  (mode = "restricted" -> exists r, r ∈ rules /\ r_enabled r = true).
Proof.
  unfold assertNotEmptyRestricted. rewrite throw_if_Ok, andb_false_iff, bool_decide_eq_false, negb_false_iff, existsb_true.
  destruct (decide (mode = "restricted")); naive_solver.
Qed.

Lemma dated_rule_by_id rules r q : NoDup (dr_id <$> rules) -> r ∈ rules -> q ∈ rules -> dr_id r = dr_id q -> r = q.
Proof.
  intros Hn [i Hi]%list_elem_of_lookup [j Hj]%list_elem_of_lookup He.
  assert (i = j) as ->; [|congruence]. eapply NoDup_lookup; [exact Hn|..]; rewrite list_lookup_fmap.
  - by rewrite Hi.
  - rewrite Hj. cbn. by rewrite He.
Qed.

(** Switching off unused rules is harmless: whichever of the offered rules are switched
    off, every upstream behind the agent is reached as before, and a restricted agent keeps
    an enabled rule, so the service does not refuse. *)
Theorem prune_is_harmless rules behind hubSrcs mode now linkFound applied ids :
  NoDup (dr_id <$> rules) ->
  (forall i, i ∈ ids -> i ∈ pruneCandidates rules behind hubSrcs mode now linkFound applied) ->
  let before := dr_rule <$> rules in
  let after := switch_rules false ids before in
  (forall u, u ∈ behind -> upstreamCovered u after hubSrcs = upstreamCovered u before hubSrcs) /\
  (assertNotEmptyRestricted mode before = Ok tt -> assertNotEmptyRestricted mode after = Ok tt).
Proof.
  intros Hn Hids before after. destruct (pruneCandidates_rules rules behind hubSrcs mode now Hn linkFound applied)
    as (out & Hout & Hcand & Hkeep). rewrite Hout in Hids.
  assert (forall r, r ∈ rules -> dr_id r ∈ ids -> r ∈ out) as Hid.
  { intros r Hr Hi. apply Hids in Hi. apply list_elem_of_fmap in Hi as (q & He & Hq).
    destruct (Hcand q Hq) as [Hq' _]. by rewrite (dated_rule_by_id rules r q). }
  split.
  - intros u Hu. apply eq_bool_prop_intro. rewrite !Is_true_true. unfold upstreamCovered.
    rewrite !existsb_true. setoid_rewrite existsb_true. split; intros (src & Hsrc & r & Hr & Hc); exists src; (split; [done|]).
    + apply elem_of_switch in Hr as (r0 & Hr0 & ->). destruct (bool_decide _); [by rewrite covered_off in Hc|]. by exists r0.
    + exists r. split; [|done]. apply elem_of_switch. exists r. split; [done|]. rewrite bool_decide_false; [done|].
      intros Hi. apply list_elem_of_fmap in Hr as (d & -> & Hd). destruct (Hcand d) as (_ & _ & Hp); [by apply Hid|].
      unfold prunable in Hp. apply andb_true_iff in Hp as [_ Hneed]. apply negb_true_iff in Hneed.
      rewrite existsb_false in Hneed. specialize (Hneed u Hu). unfold needed_by in Hneed. rewrite existsb_false in Hneed.
      rewrite Hneed in Hc; [done|]. apply elem_of_app. case_decide; [by left|by right].
  - rewrite !enabled_rules_Ok. intros Hb Hm. destruct (Hb Hm) as (r & Hr & He). apply list_elem_of_fmap in Hr as (d & -> & Hd).
    destruct (Hkeep Hm) as (e & Hin & Hen & Hno); [apply existsb_true; by exists d|].
    exists (dr_rule e). split; [|done]. apply elem_of_switch. exists (dr_rule e). split; [by apply list_elem_of_fmap_2|].
    rewrite bool_decide_false; [done|]. intros Hi. by apply Hno, Hid.
Qed.

Definition ex_stale (id : Z) : dated_rule :=
  DatedRule (Rule id "old" ["10.10.0.1/32"] ["192.168.5.20/32"] [] true None 0 None (Some 1)) (Some (TsInt 1)).

Lemma prune_is_harmless_witness :
  pruneCandidates [ex_stale 1; ex_stale 2] [] ["10.10.0.1/32"] "restricted" 10000000 true true = [2] /\
  assertNotEmptyRestricted "restricted" (switch_rules false [2] (dr_rule <$> [ex_stale 1; ex_stale 2])) = Ok tt.
Proof.
  split; [vm_compute; reflexivity|].
  apply (prune_is_harmless [ex_stale 1; ex_stale 2] [] ["10.10.0.1/32"] "restricted" 10000000 true true [2]).
  - apply (bool_decide_unpack _). vm_compute. exact I.
  - intros i ->%list_elem_of_singleton. apply (bool_decide_unpack _). vm_compute. exact I.
  - vm_compute. reflexivity.
Defined.

(** * Bulk creation *)

Lemma ids_by_key_snoc b l r : ids_by_key b (l ++ [r]) =
  if Bool.eqb (r_enabled r) b && negb (mhas (rule_key r) (ids_by_key b l)) then mset (rule_key r) (r_id r) (ids_by_key b l)
  else ids_by_key b l.
Proof. unfold ids_by_key. by rewrite fold_left_app. Qed.

(** A key maps to a rule with the switch, and every such rule's key is mapped. *)
Lemma ids_by_key_spec b l :
  (forall k id, mget k (ids_by_key b l) = Some id -> exists r, r ∈ l /\ r_enabled r = b /\ rule_key r = k /\ r_id r = id) /\
  (forall r, r ∈ l -> r_enabled r = b -> is_Some (mget (rule_key r) (ids_by_key b l))).
Proof.
  induction l as [|r l [IH1 IH2]] using rev_ind; [by split; [done|intros r ?%elem_of_nil]|].
  rewrite ids_by_key_snoc. split.
  - intros k id Hk. assert (mget k (ids_by_key b l) = Some id -> exists r0, r0 ∈ l ++ [r] /\ r_enabled r0 = b /\ rule_key r0 = k /\ r_id r0 = id) as Hold.
    { intros (q & Hq & ?)%IH1. exists q. split; [|done]. apply elem_of_app. by left. }
    destruct (Bool.eqb (r_enabled r) b && _) eqn:Hc; [|by apply Hold].
    apply andb_true_iff in Hc as [He _]. apply eqb_prop in He. rewrite mget_mset in Hk. case_decide as Hkk; [|by apply Hold].
    injection Hk as <-. exists r. split_and!; [apply elem_of_app; right; left|done..].
  - intros q Hq He. assert (is_Some (mget (rule_key q) (ids_by_key b l)) -> is_Some (mget (rule_key q)
      (if Bool.eqb (r_enabled r) b && negb (mhas (rule_key r) (ids_by_key b l)) then mset (rule_key r) (r_id r) (ids_by_key b l)
       else ids_by_key b l))) as Hkeep.
    { intros Hs. destruct (_ && _); [|done]. rewrite mget_mset. case_decide; [by eexists|done]. }
    apply elem_of_app in Hq as [Hq | ->%list_elem_of_singleton]; [by apply Hkeep, IH2|].
    rewrite He, eqb_reflx. cbn [andb]. destruct (mhas (rule_key r) _) eqn:Hh; cbn [negb].
    + apply mget_is_Some. by apply mhas_spec.
    + rewrite mget_mset_eq. by eexists.
Qed.

(** What the dedupe has decided after the entries [clean]. *)
Record dedupe_ok (existing : list rule) (clean : list rule_patch) (seen : list (string * option Z)) (bp : bulk_plan) : Prop := DedupeOk {
  do_seen : forall k, k ∈ seen.*1 <->
    (exists r, r ∈ existing /\ r_enabled r = true /\ rule_key r = k) \/ (exists j q, clean !! j = Some q /\ patch_key q = k);
  do_perm : (bp_create bp).*1 ++ (bp_reenable bp).*1 ++ (bp_skipped bp).*1 ≡ₚ seq 0 (length clean);
  do_create : forall i p, (i, p) ∈ bp_create bp -> clean !! i = Some p /\
    (forall r, r ∈ existing -> rule_key r <> patch_key p) /\
    (forall j q, clean !! j = Some q -> patch_key q = patch_key p -> (i <= j)%nat);
  do_reenable : forall i id, (i, id) ∈ bp_reenable bp -> exists p r, clean !! i = Some p /\
    r ∈ existing /\ r_enabled r = false /\ r_id r = id /\ rule_key r = patch_key p /\
    (forall q, q ∈ existing -> r_enabled q = true -> rule_key q <> patch_key p);
  do_skipped : forall i id, (i, id) ∈ bp_skipped bp -> exists p, clean !! i = Some p /\
    ((exists r, r ∈ existing /\ r_enabled r = true /\ rule_key r = patch_key p) \/
     (exists j q, (j < i)%nat /\ clean !! j = Some q /\ patch_key q = patch_key p)) }.

Lemma dedupe_init existing : dedupe_ok existing [] ((fun kv => (kv.1, Some kv.2)) <$> ids_by_key true existing) (BulkPlan [] [] []).
Proof.
  split; cbn; try done; try (by intros ? ? ?%elem_of_nil).
  intros k. rewrite <- list_fmap_compose. change (fst ∘ (fun kv : string * Z => (kv.1, Some kv.2))) with (@fst string Z).
  rewrite <- mget_is_Some. destruct (ids_by_key_spec true existing) as [H1 H2]. split.
  - intros [id Hk]. left. destruct (H1 _ _ Hk) as (r & ? & ? & ? & _). by exists r.
  - intros [(r & Hr & He & <-)|(j & q & Hj & _)]; [by apply H2|done].
Qed.

Lemma lookup_grow (clean : list rule_patch) p i q : clean !! i = Some q -> (clean ++ [p]) !! i = Some q.
Proof. intros H. rewrite lookup_app_l; [done|]. by eapply lookup_lt_Some. Qed.

Lemma lookup_snoc_cases (clean : list rule_patch) p j q : (clean ++ [p]) !! j = Some q ->
  clean !! j = Some q \/ (j = length clean /\ q = p).
Proof.
  intros [H|(H & Hl)]%lookup_app_Some; [by left|right]. apply list_lookup_singleton_Some in Hl as [? ->]. split; [lia|done].
Qed.

Lemma elem_of_mset_keys {V} k k0 (v : V) (m : list (string * V)) : k ∈ (mset k0 v m).*1 <-> k = k0 \/ k ∈ m.*1.
Proof. rewrite mset_keys. case_decide; [naive_solver|]. rewrite elem_of_app, list_elem_of_singleton. tauto. Qed.

Section dedupe.
Context (existing : list rule) (clean : list rule_patch) (p : rule_patch) (seen : list (string * option Z)) (bp : bulk_plan).
Hypothesis Hok : dedupe_ok existing clean seen bp.

Lemma seen_snoc k v :
  k ∈ (mset (patch_key p) v seen).*1 <->
  (exists r, r ∈ existing /\ r_enabled r = true /\ rule_key r = k) \/ (exists j q, (clean ++ [p]) !! j = Some q /\ patch_key q = k).
Proof.
  rewrite elem_of_mset_keys, (do_seen _ _ _ _ Hok). split.
  - intros [->|[H|(j & q & Hj & Hk)]]; [right; exists (length clean), p|by left|right; exists j, q].
    + split; [|done]. by apply list_lookup_middle.
    + split; [by apply lookup_grow|done].
  - intros [H|(j & q & [Hj|[-> ->]]%lookup_snoc_cases & Hk)]; [by right; left|right; right; by exists j, q|by left].
Qed.

(** The facts about the earlier entries are stable. *)
Lemma skipped_grow i id : (i, id) ∈ bp_skipped bp -> exists q, (clean ++ [p]) !! i = Some q /\
  ((exists r, r ∈ existing /\ r_enabled r = true /\ rule_key r = patch_key q) \/
   (exists j q', (j < i)%nat /\ (clean ++ [p]) !! j = Some q' /\ patch_key q' = patch_key q)).
Proof.
  intros H. destruct (do_skipped _ _ _ _ Hok _ _ H) as (q & Hq & Hc). exists q. split; [by apply lookup_grow|].
  destruct Hc as [Hc|(j & q' & Hj & Hq' & Hk)]; [by left|right]. exists j, q'. split_and!; [done|by apply lookup_grow|done].
Qed.

Lemma create_grow i q : (i, q) ∈ bp_create bp -> (clean ++ [p]) !! i = Some q /\
  (forall r, r ∈ existing -> rule_key r <> patch_key q) /\
  (forall j q', (clean ++ [p]) !! j = Some q' -> patch_key q' = patch_key q -> (i <= j)%nat).
Proof.
  intros H. destruct (do_create _ _ _ _ Hok _ _ H) as (Hq & He & Hf). split_and!; [by apply lookup_grow|done|].
  intros j q' [Hj|[-> _]]%lookup_snoc_cases Hk; [by apply (Hf j q')|]. apply lookup_lt_Some in Hq. lia.
Qed.

Lemma reenable_grow i id : (i, id) ∈ bp_reenable bp -> exists q r, (clean ++ [p]) !! i = Some q /\
  r ∈ existing /\ r_enabled r = false /\ r_id r = id /\ rule_key r = patch_key q /\
  (forall q', q' ∈ existing -> r_enabled q' = true -> rule_key q' <> patch_key q).
Proof.
  intros H. destruct (do_reenable _ _ _ _ Hok _ _ H) as (q & r & Hq & Hr). exists q, r. split; [by apply lookup_grow|done].
Qed.

(** The entry is decided at its own index. *)
Lemma unseen_free : mget (patch_key p) seen = None ->
  (forall r, r ∈ existing -> r_enabled r = true -> rule_key r <> patch_key p) /\
  (forall j q, clean !! j = Some q -> patch_key q <> patch_key p).
Proof.
  rewrite mget_None, (do_seen _ _ _ _ Hok). intros Hn. split.
  - intros r Hr He Hk. apply Hn. left. by exists r.
  - intros j q Hj Hk. apply Hn. right. by exists j, q.
Qed.

Lemma dedupe_perm_snoc (c r s c' r' s' : list nat) n : c ++ r ++ s ≡ₚ seq 0 n ->
  c' ++ r' ++ s' ≡ₚ (c ++ r ++ s) ++ [n] -> c' ++ r' ++ s' ≡ₚ seq 0 (n + 1).
Proof. intros H ->. rewrite seq_app, H. done. Qed.

Lemma dedupe_step_ok : let '(seen', bp') := dedupe_step (ids_by_key false existing) (seen, bp) (length clean, p) in
  dedupe_ok existing (clean ++ [p]) seen' bp'.
Proof.
  pose proof (list_lookup_middle clean [] p (length clean) eq_refl) as Hp. cbn [dedupe_step].
  destruct (mget (patch_key p) seen) as [id|] eqn:Hseen.
  - assert (patch_key p ∈ seen.*1) as Hin by (apply mget_is_Some; rewrite Hseen; by eexists).
    split; cbn; [| |apply create_grow|apply reenable_grow|].
    + intros k. rewrite <- (seen_snoc k None), elem_of_mset_keys. naive_solver.
    + rewrite length_app. eapply dedupe_perm_snoc; [apply (do_perm _ _ _ _ Hok)|]. rewrite fmap_app. by rewrite !app_assoc.
    + intros i id' [H|H]%elem_of_app; [by apply (skipped_grow i id')|].
      apply list_elem_of_singleton in H as [= -> ->]. exists p. split; [done|].
      apply (do_seen _ _ _ _ Hok) in Hin as [Hr|(j & q & Hj & Hk)]; [by left|right]. exists j, q.
      split_and!; [by apply lookup_lt_Some in Hj|by apply lookup_grow|done].
  - destruct (unseen_free Hseen) as [Hfree Hfirst].
    destruct (mget (patch_key p) (ids_by_key false existing)) as [ruleId|] eqn:Hdis.
    + split; cbn; [by intros k; apply seen_snoc| |apply create_grow| |apply skipped_grow].
      * rewrite length_app. eapply dedupe_perm_snoc; [apply (do_perm _ _ _ _ Hok)|]. rewrite fmap_app. cbn.
        rewrite <- !app_assoc. do 2 apply Permutation_app_head. by rewrite Permutation_app_comm.
      * intros i id [H|H]%elem_of_app; [by apply reenable_grow|]. apply list_elem_of_singleton in H as [= -> ->].
        destruct (proj1 (ids_by_key_spec false existing) _ _ Hdis) as (r & Hr & He & Hk & Hid). exists p, r. by split_and!.
    + split; cbn; [by intros k; apply seen_snoc| | |apply reenable_grow|apply skipped_grow].
      * rewrite length_app. eapply dedupe_perm_snoc; [apply (do_perm _ _ _ _ Hok)|]. rewrite fmap_app. cbn.
        rewrite <- !app_assoc. apply Permutation_app_head. etrans; [apply (Permutation_app_comm [_])|]. by rewrite <- app_assoc.
      * intros i q [H|H]%elem_of_app; [by apply create_grow|]. apply list_elem_of_singleton in H as [= -> ->].
        split_and!; [done| |].
        -- intros r Hr Hk. destruct (r_enabled r) eqn:He; [by apply (Hfree r)|].
           destruct (proj2 (ids_by_key_spec false existing) r Hr He) as [x Hx]. rewrite Hk in Hx. congruence.
        -- intros j q' [Hj|[-> _]]%lookup_snoc_cases Hk; [by destruct (Hfirst j q')|done].
Qed.
End dedupe.

Lemma dedupe_all existing clean : let '(seen, bp) :=
    fold_left (dedupe_step (ids_by_key false existing)) (imap (fun i x => (i, x)) clean)
      ((fun kv => (kv.1, Some kv.2)) <$> ids_by_key true existing, BulkPlan [] [] []) in
  dedupe_ok existing clean seen bp.
Proof.
  induction clean as [|p clean IH] using rev_ind; [apply dedupe_init|].
  rewrite imap_app, fold_left_app. cbn [imap fold_left]. rewrite Nat.add_0_r.
  destruct (fold_left _ _ _) as [seen bp]. by apply dedupe_step_ok.
Qed.

(** A bulk request is decided completely and without duplicates: every entry is created,
    switched on again or skipped, exactly once; an entry is created only when no rule and
    no earlier entry has its targets, it is skipped only when an enabled rule or an earlier
    entry has them, and otherwise the disabled rule with these targets comes back. *)
Theorem bulkDedupe_decides existing clean : let bp := bulkDedupe existing clean in
  (bp_create bp).*1 ++ (bp_reenable bp).*1 ++ (bp_skipped bp).*1 ≡ₚ seq 0 (length clean) /\
  (forall i p, (i, p) ∈ bp_create bp -> clean !! i = Some p /\
     (forall r, r ∈ existing -> rule_key r <> patch_key p) /\
     (forall j q, clean !! j = Some q -> patch_key q = patch_key p -> (i <= j)%nat)) /\
  (forall i id, (i, id) ∈ bp_reenable bp -> exists p r, clean !! i = Some p /\
     r ∈ existing /\ r_enabled r = false /\ r_id r = id /\ rule_key r = patch_key p /\
     (forall q, q ∈ existing -> r_enabled q = true -> rule_key q <> patch_key p)) /\
  (forall i id, (i, id) ∈ bp_skipped bp -> exists p, clean !! i = Some p /\
     ((exists r, r ∈ existing /\ r_enabled r = true /\ rule_key r = patch_key p) \/
      (exists j q, (j < i)%nat /\ clean !! j = Some q /\ patch_key q = patch_key p))).
Proof.
  unfold bulkDedupe. pose proof (dedupe_all existing clean) as H. destruct (fold_left _ _ _) as [seen bp].
  destruct H as [_ H1 H2 H3 H4]. by split_and!.
Qed.
