(* ===== verification/AgentService.v ===== *)
(** The agent service: [backend/internal/agent.js], the life of an agent.

    The admin creates, changes, deletes agents and resets their tokens; an installed agent
    registers with its registration token, polls its configuration, reports heartbeats and
    uploads its first configuration. Every handler is one step of the store; the token a
    handler draws and the current time are arguments. *)

From S2P Require Import Prelude.
From S2P Require Import JsString.
From S2P Require Import JsRegex.
From S2P Require Import Cidr.
From S2P Require Import JsVal.
From S2P Require Import Json.
From S2P Require Import ConfText.
From S2P Require Import IngressRules.
From S2P Require Import SiteRules.
From S2P Require Import DirectLink.
From S2P Require Import WgConf.
From S2P Require Import AgentText.
From S2P Require Import AgentMesh.
From S2P Require Import AgentStore.
From S2P Require Import AgentLinks.
From S2P Require Import AgentIngress.

Local Open Scope Z_scope.

(** * Tokens *)

Definition is_hex (c : ascii) : bool := is_digit c || in_range "a" "f" c || in_range "A" "F" c.

(** [/^[0-9a-fA-F]{32,128}$/] of a string. *)
Definition isWellFormedToken (token : jsval) : bool :=
  match token with
  | VStr s => sall is_hex s && Nat.leb 32 (String.length s) && Nat.leb (String.length s) 128
  | _ => false
  end.

(** The token of the bytes drawn. *)
Definition randomToken (bytes : string) : string :=
  smap (fun c => String (hex_digit (code c / 16)) (String (hex_digit (code c mod 16)) "")) bytes.

Inductive token_column := AgentToken | RegToken.

Definition token_of (col : token_column) (a : agent_row) : option string :=
  match col with AgentToken => ag_agent_token a | RegToken => ag_reg_token a end.

Definition has_token (col : token_column) (t : string) (a : agent_row) : bool :=
  bool_decide (token_of col a = Some t) && negb (ag_is_deleted a).

Definition auth_message (col : token_column) : string :=
  match col with AgentToken => "Invalid agent token" | RegToken => "Invalid registration token" end.

Definition requireAgentByToken (col : token_column) (token : jsval) (db : agent_db) : result svc_error agent_row :=
  match token with
  | VStr t =>
      throw_if (negb (isWellFormedToken token)) (EAuth (auth_message col));;
      match first_row (has_token col t) db with
      | Some a => Ok a
      | None => Throw (EAuth (auth_message col))
      end
  | _ => Throw (EAuth (auth_message col))
  end.

(** * Validation of the fields *)

Definition VALID_AGENT_MODES : list string := ["native"].

Definition sanitizeAgentMode (mode : jsval) : result agent_error string :=
  match (if truthy mode then mode else VStr "native") with
  | VStr m => throw_if (negb (set_has VALID_AGENT_MODES m)) BadMode;; Ok m
  | _ => Throw BadMode
  end.

Definition sanitizeAgentName (value : jsval) : result agent_error string :=
  match value with
  | VStr s => throw_if (bool_decide (trim s = "") || Nat.ltb 255 (String.length (trim s))) BadAgentName;; Ok (trim s)
  | _ => Throw BadAgentName
  end.

Definition sanitizeOptionalString (value : jsval) (field : string) : result agent_error (option string) :=
  match value with
  | VNull | VUndef => Ok None
  | VStr s => if decide (s = "") then Ok None
              else throw_if (Nat.ltb 255 (String.length s)) (BadOptionalString field);; Ok (Some s)
  | _ => Throw (BadOptionalString field)
  end.

Definition sanitizeBool (value : jsval) (dflt : bool) : bool :=
  match value with
  | VUndef | VNull => dflt
  | VBool b => b
  | VNum n => bool_decide (num_int n = Some 1)
  | VStr s => bool_decide (s = "true" \/ s = "1")
  | _ => false
  end.

Definition assertNoConfigText (data : jsval) : result agent_error unit :=
  throw_if (negb (is_undef (vget data "config_text"))) ConfigTextGiven.

Definition assertUnambiguousLinkName (links : links_map) (name : option string) : result agent_error unit :=
  let n := or_empty name in
  if decide (n = "") then Ok tt
  else
    let matches := length (bfilter (fun m => bool_decide (lm_name m = n)) links.*2) in
    throw_if (Nat.ltb 1 matches) (AmbiguousLinkName n matches).

Definition isPrivateIpv4 (ip : jsval) : bool :=
  match ip with
  | VStr s =>
      re_test IPV4_RE s &&
      match num_of_digits <$> split_char "." s with
      | [a; b; c; d] =>
          negb (existsb (fun n => 255 <? n) [a; b; c; d]) &&
          ((a =? 10) || ((a =? 172) && (16 <=? b) && (b <=? 31)) || ((a =? 192) && (b =? 168)))
      | _ => false
      end
  | _ => false
  end.

(** [JSON.stringify] of a value parsed from JSON. *)
Fixpoint json_text (v : jsval) : string :=
  match v with
  | VUndef | VNull => "null"
  | VBool b => if b then "true" else "false"
  | VNum n => if num_finite n then num_to_string n else "null"
  | VStr s => json_string s
  | VArr l => "[" +:+ join "," (map json_text l) +:+ "]"
  | VObj l => "{" +:+ join "," (map (fun kv => json_string kv.1 +:+ ":" +:+ json_text kv.2) l) +:+ "}"
  end.

Definition MAX_AGENT_SERVICES : nat := 50.

Section service.
(** The SHA-256 of node:crypto, the protocol of the WHATWG URL parser ([None]: it throws),
    the environment variable WG_HUB_HOST, and the hub URLs of the settings. *)
Variable sha256 : string -> string.
Variable url_protocol : string -> option string.
Variable WG_HUB_HOST : string.

Definition is_web_url (s : string) : bool := bool_decide (url_protocol s = Some "http:" \/ url_protocol s = Some "https:").

(** An entry of the list an agent reports: kept with a name and a plain web address. *)
Definition service_entry (entry : jsval) : option (string * string) :=
  match vget entry "name", vget entry "url" with
  | VStr n, VStr u =>
      let name := stake 100 (trim n) in
      let url := stake 255 (trim u) in
      if bool_decide (name <> "" /\ url <> "") && is_web_url url then Some (name, url) else None
  | _, _ => None
  end.

Fixpoint take_services (room : nat) (l : list jsval) : list (string * string) :=
  match room, l with
  | S k, e :: l => match service_entry e with
                   | Some s => s :: take_services k l
                   | None => take_services room l
                   end
  | _, _ => []
  end.

Definition sanitizeAgentServices (value : jsval) : list (string * string) :=
  match value with VArr l => take_services MAX_AGENT_SERVICES l | _ => [] end.

Definition services_json (l : list (string * string)) : string :=
  json_text (VArr ((fun s => VObj [("name", VStr s.1); ("url", VStr s.2)]) <$> l)).

Definition sanitizeMgmtUrl (value : jsval) : result agent_error (option string) :=
  match value with
  | VNull | VUndef => Ok None
  | VStr s =>
      let t := trim s in
      if decide (t = "") then Ok None
      else throw_if (negb (is_web_url t) || Nat.ltb 512 (String.length t)) BadMgmtUrl;; Ok (Some t)
  | _ => Throw BadMgmtUrl
  end.

(** * Hub URLs *)

Definition is_url_char (c : ascii) : bool :=
  is_alnum c || one_of ["."; "_"; "~"; "%"; ":"; "@"; "+"; "="; ","; "/"; "-"]%char c.

(** [/^https?:\/\/[A-Za-z0-9._~%:@+=,/-]+$/] *)
Definition HUB_HTTP_URL_REGEX : re :=
  RSeq (rlit "http") (RSeq (ropt (rlit "s")) (RSeq (rlit "://") (rplus (RChar is_url_char)))).

(** [s.replace(/\/+$/, "")] *)
Fixpoint drop_end_slashes (s : string) : string :=
  match s with
  | "" => ""
  | String c r => let t := drop_end_slashes r in
                  if bool_decide (c = "/"%char) && bool_decide (t = "") then "" else String c t
  end.

Definition sanitizeHubUrl (url : jsval) : option string :=
  match url with
  | VStr s =>
      let t := drop_end_slashes (trim s) in
      if bool_decide (t <> "") && is_web_url t && re_test HUB_HTTP_URL_REGEX t then Some t else None
  | _ => None
  end.

Definition sanitizeFallbackHubUrl (url : jsval) : option string :=
  match sanitizeHubUrl url with
  | Some t => if starts_with "https://" (to_lower t) then Some t else None
  | None => None
  end.

(** The settings row as its two values ([None]: no row or no table) and the environment. *)
Definition getAgentHubUrls (setting : option (jsval * jsval)) (env_primary env_fallback : jsval) : option string * option string :=
  let '(fallback, primary) := match setting with
                              | Some (value, meta_primary) => (sanitizeFallbackHubUrl value, sanitizeHubUrl meta_primary)
                              | None => (None, None)
                              end in
  (match primary with Some p => Some p | None => sanitizeHubUrl env_primary end,
   match fallback with Some f => Some f | None => sanitizeFallbackHubUrl env_fallback end).

(** * Handlers of the admin *)

Definition with_agents (st : store) (db : agent_db) : store := { st with st_agents := db }.

Definition patch_agent (st : store) (id : Z) (f : agent_row -> agent_row) : store :=
  with_agents st (patch_row id f (st_agents st)).

(** [withWriteLock(... syncAgentConfigs(metadata))] *)
Definition resync (st : store) : store :=
  with_agents st (syncAgentConfigs sha256 WG_HUB_HOST (st_meta st) (st_agents st)).1.

(** [id]: the id of the new row. The columns not set take their defaults. *)
Definition create_agent (st : store) (id : Z) (data : jsval) (token : string) : result svc_error store :=
  lift EAgent (assertNoConfigText data);;
  name ← lift EAgent (sanitizeAgentName (vget data "name"));
  wgLinkName ← lift EAgent (sanitizeOptionalString (vget data "wg_link_name") "wg_link_name");
  lift EAgent (assertUnambiguousLinkName (st_meta st) wgLinkName);;
  mode ← lift EAgent (sanitizeAgentMode (vget data "mode"));
  hostname ← lift EAgent (sanitizeOptionalString (vget data "hostname") "hostname");
  wg_interface ← lift EAgent (sanitizeWgInterface (vget data "wg_interface"));
  mgmt_url ← lift EAgent (sanitizeMgmtUrl (vget data "mgmt_url"));
  public_host ← lift ELink (sanitizePublicHost (vget data "public_host"));
  Ok (with_agents st (st_agents st ++
    [AgentRow id name mode (Some token) None hostname wg_interface None None mgmt_url None wgLinkName None "pending" None
       None None (sanitizeBool (vget data "preserve_lan_source_ip") false) "open" None None public_host None None None false])).

Record agent_patch := AgentPatch {
  ap_name : option string;
  ap_wg_interface : option string;
  ap_mode : option string;
  ap_mgmt_url : option (option string);
  ap_public_host : option (option string);
  ap_wg_link_name : option (option string);
  ap_allowed_sites : option (option string);
  ap_allowed_networks : option (option string);
  ap_preserve : option bool }.

(** [if (typeof data.f !== "undefined") patch.f = clean(data.f)] *)
Definition if_given {A} (data : jsval) (f : string) (clean : jsval -> result svc_error A) : result svc_error (option A) :=
  if is_undef (vget data f) then Ok None else Some <$> clean (vget data f).

(** [existing.wg_interface || "wg0"] *)
Definition iface_or_default (a : agent_row) : string := if decide (ag_wg_interface a = "") then "wg0" else ag_wg_interface a.

Definition changes_iface (existing : agent_row) (w : option string) : bool :=
  match w with Some w => negb (bool_decide (w = iface_or_default existing)) | None => false end.

Definition sanitize_update (existing : agent_row) (data : jsval) : result svc_error agent_patch :=
  name ← if_given data "name" (fun v => lift EAgent (sanitizeAgentName v));
  wg_interface ← if_given data "wg_interface" (fun v => lift EAgent (sanitizeWgInterface v));
  throw_if (changes_iface existing wg_interface && bool_decide (or_empty (ag_agent_token existing) <> "")) (EAgent InterfaceLocked);;
  mode ← if_given data "mode" (fun v => lift EAgent (sanitizeAgentMode v));
  mgmt_url ← if_given data "mgmt_url" (fun v => lift EAgent (sanitizeMgmtUrl v));
  public_host ← if_given data "public_host" (fun v => lift ELink (sanitizePublicHost v));
  wg_link_name ← if_given data "wg_link_name" (fun v => lift EAgent (sanitizeOptionalString v "wg_link_name"));
  allowed_sites ← if_given data "allowed_sites" (fun v => Ok (json_strings <$> sanitizeAclSites v));
  allowed_networks ← if_given data "allowed_networks" (fun v => lift EAgent (option_map json_strings <$> sanitizeAclNetworks v));
  Ok (AgentPatch name wg_interface mode mgmt_url public_host wg_link_name allowed_sites allowed_networks
        (if is_undef (vget data "preserve_lan_source_ip") then None
         else Some (sanitizeBool (vget data "preserve_lan_source_ip") false))).

(** [typeof patch.f !== "undefined" && patch.f !== existing.f] *)
Definition differs {A} `{EqDecision A} (new : option A) (old : A) : bool :=
  match new with Some x => negb (bool_decide (x = old)) | None => false end.

(** The stored configuration after the update: stripped when the agent is unbound, and
    normalised again when its interface changes. *)
Definition update_config (existing : agent_row) (p : agent_patch) : result agent_error (option string) :=
  let text := or_empty (ag_config_text existing) in
  if bool_decide (ap_wg_link_name p = Some None) && bool_decide (or_empty (ag_wg_link_name existing) <> "") && bool_decide (text <> "")
  then iface ← sanitizeWgInterface (VStr (default (ag_wg_interface existing) (ap_wg_interface p)));
       Some <$> stripToTunnelOnly text (VStr iface)
  else if changes_iface existing (ap_wg_interface p) && bool_decide (text <> "")
  then let iface := VStr (default "" (ap_wg_interface p)) in
       let bound := default (ag_wg_link_name existing) (ap_wg_link_name p) in
       Some <$> (if decide (or_empty bound = "") then stripToTunnelOnly text iface else normalizeAgentConfig text [] iface [])
  else Ok None.

Definition needs_resync (existing : agent_row) (p : agent_patch) : bool :=
  differs (ap_allowed_networks p) (ag_allowed_networks existing) ||
  differs (ap_allowed_sites p) (ag_allowed_sites existing) ||
  differs (ap_preserve p) (ag_preserve_lan_source_ip existing) ||
  differs (ap_wg_link_name p) (ag_wg_link_name existing) ||
  changes_iface existing (ap_wg_interface p).

Definition apply_patch (p : agent_patch) (config : option string) (a : agent_row) : agent_row :=
  let a := { a with
    ag_name := default (ag_name a) (ap_name p);
    ag_wg_interface := default (ag_wg_interface a) (ap_wg_interface p);
    ag_mode := default (ag_mode a) (ap_mode p);
    ag_mgmt_url := default (ag_mgmt_url a) (ap_mgmt_url p);
    ag_public_host := default (ag_public_host a) (ap_public_host p);
    ag_wg_link_name := default (ag_wg_link_name a) (ap_wg_link_name p);
    ag_allowed_sites := default (ag_allowed_sites a) (ap_allowed_sites p);
    ag_allowed_networks := default (ag_allowed_networks a) (ap_allowed_networks p);
    ag_preserve_lan_source_ip := default (ag_preserve_lan_source_ip a) (ap_preserve p) } in
  match config with
  | Some text => store_config sha256 text a
  | None => a
  end.

Definition update_agent (st : store) (id : Z) (data : jsval) : result svc_error store :=
  existing ← or_not_found id (live_agent id (st_agents st));
  lift EAgent (assertNoConfigText data);;
  p ← sanitize_update existing data;
  (if differs (ap_wg_link_name p) (ag_wg_link_name existing)
   then lift EAgent (assertUnambiguousLinkName (st_meta st) (default None (ap_wg_link_name p))) else Ok tt);;
  config ← lift EAgent (update_config existing p);
  let st1 := patch_agent st id (apply_patch p config) in
  Ok (if needs_resync existing p then resync st1 else st1).

(** * Renaming a link *)

Definition is_str (n : string) (v : jsval) : bool := match v with VStr s => bool_decide (s = n) | _ => false end.

(** The whitelist after the rename, when it names the link. *)
Definition rename_sites (oldName newName : string) (raw : option string) : option string :=
  match raw with
  | None => None
  | Some s => match json_parse s with
              | Some (VArr l) => if existsb (is_str oldName) l
                                 then Some (json_text (VArr ((fun v => if is_str oldName v then VStr newName else v) <$> l)))
                                 else raw
              | _ => raw
              end
  end.

Definition rename_row (oldName newName : string) (a : agent_row) : agent_row :=
  let a := if decide (ag_wg_link_name a = Some oldName) then { a with ag_wg_link_name := Some newName } else a in
  if ag_is_deleted a then a else { a with ag_allowed_sites := rename_sites oldName newName (ag_allowed_sites a) }.

Definition renameLinkBinding (st : store) (oldName newName : string) : store :=
  if bool_decide (oldName = "" \/ newName = "" \/ oldName = newName) then st
  else with_agents st (rename_row oldName newName <$> st_agents st).

(** * Deletion *)

Definition FORCE_DELETE_OFFLINE_S : Z := 60 * 60.

Definition assertForceDeleteAllowed (a : agent_row) (now : Z) : result agent_error unit :=
  let lastSeen := default 0 (ag_last_seen a) in
  throw_if (negb (lastSeen =? 0) && (now - lastSeen <? FORCE_DELETE_OFFLINE_S)) ForceWhileOnline.

Definition assertIngressTornDown (a : agent_row) (applied : applied_info) : result agent_error unit :=
  throw_if (bool_decide (ag_ingress_mode a = "restricted")) StillRestricted;;
  match ai_applied_hash applied with
  | Some h => throw_if (bool_decide (h <> "") && bool_decide (h <> "NONE") && negb (bool_decide (ai_state applied = StApplied))) OpenNotApplied
  | None => Ok tt
  end.

(** The reason against a deletion, and whether a forced one would be accepted. *)
Definition deleteBlocker (st : store) (existing : agent_row) (force : bool) (now : Z) : option (agent_error * bool) :=
  match assertForceDeleteAllowed existing now, force with
  | Throw e, true => Some (e, false)
  | Ok _, true => None
  | r, false =>
      match assertIngressTornDown existing (appliedFor sha256 st existing now) with
      | Throw e => Some (e, is_ok r)
      | Ok _ => if decide (ifacesFor (ag_id existing) st = []) then None else Some (HasDirectLinks, is_ok r)
      end
  end.

Definition retire (force : bool) (a : agent_row) : agent_row :=
  if force then { a with ag_is_deleted := true; ag_agent_token := None; ag_reg_token := None }
  else { a with ag_is_deleted := true }.

Definition delete_agent (st : store) (id : Z) (force : bool) (now : Z) : result svc_error store :=
  existing ← or_not_found id (live_agent id (st_agents st));
  match deleteBlocker st existing force now with
  | Some (e, _) => Throw (EAgent e)
  | None =>
      let st1 := patch_agent st id (retire force) in
      let st2 := { st1 with st_rules := bfilter (fun e => negb (re_agent_id e =? id)) (st_rules st1) } in
      Ok (deleteForAgent st2 id)
  end.

Definition new_reg_token (token : string) (a : agent_row) : agent_row :=
  { a with ag_reg_token := Some token; ag_agent_token := None; ag_status := "pending" }.

Definition resetToken (st : store) (id : Z) (token : string) : result svc_error store :=
  existing ← or_not_found id (live_agent id (st_agents st));
  Ok (patch_agent st id (new_reg_token token)).

(** * Handlers of the agents *)

Record register_response := RegisterResponse { rr_agent_token : string; rr_agent_id : Z; rr_config_hash : option string }.

Definition activate (token : string) (a : agent_row) : agent_row :=
  { a with ag_agent_token := Some token; ag_status := "active" }.

(** [token]: the token drawn when the agent has none yet. *)
Definition register (st : store) (regToken : jsval) (token : string) : result svc_error (store * register_response) :=
  agent ← requireAgentByToken RegToken regToken (st_agents st);
  let known := or_empty (ag_agent_token agent) in
  let hash := non_empty_opt (ag_config_hash agent) in
  Ok (if decide (known = "")
      then (patch_agent st (ag_id agent) (activate token), RegisterResponse token (ag_id agent) hash)
      else (st, RegisterResponse known (ag_id agent) hash)).

(** What the poll returns; [cr_ingress] and [cr_direct_links] are [None] when the key is
    left out, and [cr_ingress] is [Some None] for [null]: remove the filter. *)
Record config_response := ConfigResponse {
  cr_ingress : option (option (string * string));
  cr_direct_links : option (list payload);
  cr_config_text : option string;
  cr_config_hash : option string;
  cr_wg_interface : string;
  cr_primary_url : option string;
  cr_fallback_url : option string }.

Definition result_opt {E A} (r : result E A) : option A := match r with Ok x => Some x | Throw _ => None end.

(** The hub-side reach of an agent, for its direct links. *)
Definition reach_of (st : store) (a : agent_row) : list string :=
  let m := meshIndex (st_meta st) in
  match (if decide (or_empty (ag_wg_link_name a) = "") then None else mget (or_empty (ag_wg_link_name a)) (linksByName m)) with
  | Some linkMeta => on_nets (agentOtherSiteNets a linkMeta m)
  | None => []
  end.

Definition clear_reg_token (a : agent_row) : agent_row := { a with ag_reg_token := None }.

Definition getConfig (st : store) (agentToken : jsval) (urls : option string * option string)
    : result svc_error (store * config_response) :=
  agent ← requireAgentByToken AgentToken agentToken (st_agents st);
  let st1 := if decide (or_empty (ag_reg_token agent) = "") then st else patch_agent st (ag_id agent) clear_reg_token in
  let ingress := result_opt (ingressPayloadFor sha256 st1 agent) in
  let directLinks :=
    if bool_decide (is_Some ingress) || negb (bool_decide (ag_ingress_mode agent = "restricted"))
    then result_opt (payloadFor sha256 (reach_of st1) st1 agent) else None in
  Ok (st1, ConfigResponse ingress directLinks (non_empty_opt (ag_config_text agent)) (non_empty_opt (ag_config_hash agent))
             (iface_or_default agent) urls.1 urls.2).

(** [/[\u0000-\u001f\u007f]/g] removed. *)
Definition strip_controls (s : string) : string := smap (fun c => if is_control c then "" else String c "") s.

(** [/\p{Cc}/gu] replaced by a space: the C0 and C1 controls. *)
Definition is_cc (c : ascii) : bool := is_control c || ((128 <=? code c) && (code c <=? 159)).
Definition blank_controls (s : string) : string := smap (fun c => if is_cc c then " " else String c "") s.

Definition strip_spaces (s : string) : string := smap (fun c => if is_space c then "" else String c "") s.

Definition is_lower_hex (c : ascii) : bool := is_digit c || in_range "a" "f" c.
Definition is_sha256 (h : string) : bool := sall is_lower_hex h && Nat.eqb (String.length h) 64.

(** [e || null] of the cleaned error text. *)
Definition clean_error (v : jsval) : option string := non_empty_opt (Some (stake 255 (trim (blank_controls (str_or "" v))))).

Definition heartbeat_patch (data : jsval) (now : Z) (a : agent_row) : agent_row :=
  let hostname :=
    if truthy (vget data "hostname") then
      let host := trim (strip_controls (to_string (vget data "hostname"))) in
      let lanIp := if isPrivateIpv4 (vget data "lan_ip") then " (" +:+ to_string (vget data "lan_ip") +:+ ")" else "" in
      Some (stake 255 (host +:+ lanIp))
    else ag_hostname a in
  let services := match vget data "services" with
                  | VArr _ => Some (services_json (sanitizeAgentServices (vget data "services")))
                  | _ => ag_services a
                  end in
  let version := if truthy (vget data "script_version") then Some (stake 32 (to_string (vget data "script_version"))) else ag_agent_version a in
  let server := if truthy (vget data "server") then Some (stake 255 (strip_spaces (to_string (vget data "server")))) else ag_last_server_url a in
  let '(ingressHash, ingressError) :=
    match vget data "ingress_hash" with
    | VStr s => let h := trim s in
                (if is_sha256 h then Some h else if bool_decide (h = "" \/ h = "NONE") then Some "NONE" else None,
                 clean_error (vget data "ingress_error"))
    | _ => (ag_ingress_applied_hash a, ag_ingress_error a)
    end in
  let '(configHash, configError) :=
    match vget data "config_applied_hash" with
    | VStr s => let h := trim s in (if is_sha256 h then Some h else None, clean_error (vget data "config_error"))
    | _ => (ag_config_applied_hash a, ag_config_error a)
    end in
  { a with ag_last_seen := Some now; ag_status := "active"; ag_hostname := hostname; ag_services := services;
    ag_agent_version := version; ag_last_server_url := server; ag_ingress_applied_hash := ingressHash;
    ag_ingress_error := ingressError; ag_config_applied_hash := configHash; ag_config_error := configError }.

Definition heartbeat (st : store) (agentToken data : jsval) (now : Z) : result svc_error store :=
  agent ← requireAgentByToken AgentToken agentToken (st_agents st);
  let st1 := patch_agent st (ag_id agent) (heartbeat_patch data now) in
  let st2 := if truthy (vget data "direct_links") then recordStatus st1 (ag_id agent) (vget data "direct_links") now else st1 in
  Ok (if truthy (vget data "ingress_counters") then recordCounters st2 (ag_id agent) (vget data "ingress_counters") now else st2).

Inductive upload_result := Stored | NotStored (reason : string).

Definition uploadConfig (st : store) (agentToken data : jsval) : result svc_error (store * upload_result) :=
  agent ← requireAgentByToken AgentToken agentToken (st_agents st);
  if decide (or_empty (ag_config_text agent) <> "") then Ok (st, NotStored "config-already-exists")
  else
    match vget data "config_text" with
    | VNull | VUndef => Ok (st, NotStored "empty-config")
    | VStr text =>
        if decide (trim text = "") then Ok (st, NotStored "empty-config")
        else
          let bound := bool_decide (or_empty (ag_wg_link_name agent) <> "") in
          iface ← lift EAgent (sanitizeWgInterface (VStr (ag_wg_interface agent)));
          finalConfig ← lift EAgent (if bound then normalizeAgentConfig text [] (VStr iface) [] else stripToTunnelOnly text (VStr iface));
          let st1 := patch_agent st (ag_id agent) (store_config sha256 finalConfig) in
          Ok (if bound then resync st1 else st1, Stored)
    | _ => Throw (EAgent ConfigTextNotString)
    end.

(** * The install script's inputs *)

(** The values interpolated into the install script ([None] when none is given). *)
Record install_inputs := InstallInputs {
  ii_regToken : string; ii_primary : option string; ii_fallback : option string; ii_mode : string; ii_wgInterface : string }.

(** [if (publicUrl)]: a clean https address, or an error. *)
Definition install_fallback (url : jsval) : result agent_error (option string) :=
  if truthy url then
    match sanitizeHubUrl url with
    | None => Throw BadHubUrl
    | Some u => match sanitizeFallbackHubUrl (VStr u) with Some _ => Ok (Some u) | None => Throw HubUrlNotHttps end
    end
  else Ok None.

Definition install_primary (url : jsval) : result agent_error (option string) :=
  if truthy url then match sanitizeHubUrl url with Some u => Ok (Some u) | None => Throw BadHubUrl end else Ok None.

Definition install_inputs_of (st : store) (id : Z) (publicUrl tunnelUrl : jsval) : result svc_error install_inputs :=
  fallback ← lift EAgent (install_fallback publicUrl);
  primary ← lift EAgent (install_primary tunnelUrl);
  agent ← or_not_found id (live_agent id (st_agents st));
  throw_if (bool_decide (or_empty (ag_reg_token agent) = "")) (EAgent NoPendingToken);;
  wgInterface ← lift EAgent (sanitizeWgInterface (VStr (ag_wg_interface agent)));
  mode ← lift EAgent (sanitizeAgentMode (VStr (ag_mode agent)));
  Ok (InstallInputs (or_empty (ag_reg_token agent)) primary fallback mode wgInterface).
End service.

(** * Authentication *)

Lemma requireAgentByToken_Ok col token db a : requireAgentByToken col token db = Ok a ->
  a ∈ db /\ ag_is_deleted a = false /\ exists t, token = VStr t /\ isWellFormedToken token = true /\ token_of col a = Some t.
Proof.
  unfold requireAgentByToken. destruct token as [| | | |t| |]; try done. intros ([] & Hw%throw_if_Ok & H)%bind_Ok.
  apply negb_false_iff in Hw. destruct (first_row _ db) as [b|] eqn:Hf; [|done]. injection H as ->.
  apply first_row_Some in Hf as [Hin [Ht Hd]%andb_true_iff]. apply bool_decide_eq_true in Ht. apply negb_true_iff in Hd.
  split_and!; [done..|]. by exists t.
Qed.

(** * The poll fails closed *)

(** C3. A restricted agent is never told to remove its filter, whatever goes wrong on the hub:
    it gets a rule set, or no word on the filter at all, in which case it keeps the one it
    runs and is told nothing about direct links either. The rule set it gets accepts a new
    packet from the hub tunnel exactly when an enabled rule stored for the agent covers it,
    and drops every other one. *)
Theorem restricted_poll_fails_closed sha256 st token urls st' r a :
  getConfig sha256 st token urls = Ok (st', r) -> requireAgentByToken AgentToken token (st_agents st) = Ok a ->
  ag_ingress_mode a = "restricted" ->
  cr_ingress r <> Some None /\ (cr_ingress r = None -> cr_direct_links r = None) /\
  (forall hash text, cr_ingress r = Some (Some (hash, text)) -> exists b, text = b_text b /\ hash = b_hash b /\
     buildIngressRestore sha256 (ingress_agent st' a) (loadRules (ag_id a) st') = Ok (Some b) /\
     forall pk, is_addr (pk_src pk) -> is_addr (pk_dst pk) -> pk_established pk = false -> pk_iface pk = ifaceOf a ->
       let covered := exists q, q ∈ loadRules (ag_id a) st' /\ covers q (flow_of pk) = true in
       (chain_verdict (b_lines b) pk = VAccept <-> covered) /\ (chain_verdict (b_lines b) pk = VDrop <-> ~ covered)).
Proof.
  intros H Ha Hm. unfold getConfig in H. rewrite Ha in H. cbn in H.
  set (st1 := if decide _ then st else _) in H. injection H as <- <-. cbn [cr_ingress cr_direct_links].
  assert (ingress_mode (ingress_agent st1 a) = "restricted") as Hr by (cbn; by rewrite Hm).
  unfold ingressPayloadFor. pose proof (restricted_never_none sha256 _ (loadRules (ag_id a) st1) Hr) as Hn.
  destruct (buildIngressRestore _ _ _) as [[b|]|e] eqn:Hb; cbn.
  - split_and!; [done|done|]. intros hash text [= <- <-]. exists b. split_and!; [done..|].
    intros pk Hs Hd Hest Hif. pose proof Hb as (Hio & _)%buildIngressRestore_iff.
    destruct (restricted_chain_verdict sha256 _ _ b pk Hb Hr Hs Hd) as (_ & Hv & _).
    destruct Hv as [Hacc Hdrop]; [done|rewrite Hif; left|]. by rewrite own_covers_packet in Hacc, Hdrop.
  - by destruct Hn.
  - rewrite Hm. split_and!; done.
Qed.

Definition ex_token : string := "0123456789abcdef0123456789abcdef".

Definition ex_gateway (mode : string) : agent_row :=
  AgentRow 1 "berlin" "native" None (Some ex_token) None "wg0" None None None None (Some "berlin") None "active" None None None
    false mode None None None None None None false.

Definition ex_service (mode : string) : store :=
  Store [ex_gateway mode; ex_agent_row 2 "bonn"] [RuleEntry 1 ex_rule] [] []
    [("wg0:k1", LinkMeta "berlin" "site-to-site" (Some ["192.168.5.0/24"]))].

Lemma restricted_poll_fails_closed_witness : exists st' r,
  getConfig id (ex_service "restricted") (VStr ex_token) (None, None) = Ok (st', r) /\
  cr_ingress r <> Some None /\ bool_decide (is_Some (cr_ingress r)) = true.
Proof.
  eexists _, _. split; [vm_compute; reflexivity|]. split; [|vm_compute; reflexivity].
  eapply (restricted_poll_fails_closed id (ex_service "restricted") (VStr ex_token) (None, None)).
  - vm_compute. reflexivity.
  - vm_compute. reflexivity.
  - reflexivity.
Defined.

(** * What an agent's report can change *)

(** The row as the admin and the hub wrote it: everything a report must not touch. *)
Definition policy (a : agent_row) : agent_row :=
  { a with ag_last_seen := None; ag_status := ""; ag_hostname := None; ag_services := None; ag_agent_version := None;
    ag_last_server_url := None; ag_ingress_applied_hash := None; ag_ingress_error := None; ag_config_applied_hash := None;
    ag_config_error := None }.

(** A rule without its hit counter. *)
Definition policy_rule (e : rule_entry) : rule_entry :=
  let r := re_rule e in
  RuleEntry (re_agent_id e)
    (Rule (r_id r) (r_name r) (r_sources r) (r_destinations r) (r_ports r) (r_enabled r) (r_note r) 0 None (r_armed_on r)).

Lemma heartbeat_policy url data now a : policy (heartbeat_patch url data now a) = policy a.
Proof.
  unfold heartbeat_patch. destruct (vget data "ingress_hash"), (vget data "config_applied_hash"); by destruct a.
Qed.

Lemma map_rules_id sel f st : map_rules sel f st = {| st_agents := st_agents st;
  st_rules := (fun e => if sel e then RuleEntry (re_agent_id e) (f (re_rule e)) else e) <$> st_rules st;
  st_links := st_links st; st_pairs := st_pairs st; st_meta := st_meta st |}.
Proof. done. Qed.

Lemma hit_policy id now counters r : policy_rule (RuleEntry id (hit now counters r)) = policy_rule (RuleEntry id r).
Proof. unfold hit. destruct (mget _ _); [|by destruct r]. by destruct (nextHitState _ _ _ _). Qed.

(** The store after a report, row by row. *)
Lemma heartbeat_rows url st token data now st' : heartbeat url st token data now = Ok st' -> exists a f g,
  requireAgentByToken AgentToken token (st_agents st) = Ok a /\
  st_agents st' = patch_row (ag_id a) (heartbeat_patch url data now) (st_agents st) /\
  st_rules st' = f <$> st_rules st /\
  (forall e, policy_rule (f e) = policy_rule e /\ (re_agent_id e <> ag_id a -> f e = e)) /\
  st_links st' = g <$> st_links st /\
  (forall r, lr_link (g r) = lr_link r /\ (side_of_agent (ag_id a) r = false -> g r = r) /\
     forall s k, sc_public_key (cols_of s r) = Some k -> k <> "" -> sc_public_key (cols_of s (g r)) = Some k) /\
  st_pairs st' = st_pairs st /\ st_meta st' = st_meta st.
Proof.
  unfold heartbeat. intros (a & Ha & H)%bind_Ok. injection H as <-.
  set (reported := sanitizeDirectStatus (vget data "direct_links") (lr_id <$> links_of (ag_id a) st)).
  set (counters := sanitizeIngressCounters (vget data "ingress_counters")).
  exists a, (if truthy (vget data "ingress_counters")
             then fun e => if re_agent_id e =? ag_id a then RuleEntry (re_agent_id e) (hit now counters (re_rule e)) else e else id),
    (if truthy (vget data "direct_links") then record_row now (ag_id a) reported else id).
  assert (forall r, lr_link (record_row now (ag_id a) reported r) = lr_link r /\
    (side_of_agent (ag_id a) r = false -> record_row now (ag_id a) reported r = r) /\
    forall s k, sc_public_key (cols_of s r) = Some k -> k <> "" -> sc_public_key (cols_of s (record_row now (ag_id a) reported r)) = Some k) as Hg.
  { intros r. split_and!; [by apply (record_row_cols _ _ _ _ SideA)|by unfold record_row; intros ->|].
    intros s k Hk Hne. rewrite (proj2 (record_row_cols now (ag_id a) reported r s)). destruct (mget _ _); [|done].
    case_decide; [by apply learn_cols_pins|done]. }
  split_and!; [done|by destruct (truthy _), (truthy _)| | | |by destruct (truthy (vget data "direct_links"))|
               by destruct (truthy _), (truthy _)|by destruct (truthy _), (truthy _)].
  - destruct (truthy (vget data "direct_links")), (truthy (vget data "ingress_counters")); cbn; by rewrite ?list_fmap_id.
  - intros e. destruct (truthy _); [|done]. destruct (Z.eqb_spec (re_agent_id e) (ag_id a)); [|done].
    split; [|done]. rewrite hit_policy. by destruct e.
  - destruct (truthy (vget data "direct_links")), (truthy (vget data "ingress_counters")); cbn; by rewrite ?list_fmap_id.
Qed.

(** A report cannot change policy: whatever a gateway sends with its token, the only rows
    that differ afterwards are its own, and of these only the columns that show its state
    (hostname, services, versions, hashes, errors, hit counters, link status). Names,
    tokens, access lists, modes, rules, links and every known key stay. *)
Theorem heartbeat_changes_no_policy url st token data now st' a :
  heartbeat url st token data now = Ok st' -> requireAgentByToken AgentToken token (st_agents st) = Ok a ->
  policy <$> st_agents st' = policy <$> st_agents st /\
  (forall i b, st_agents st !! i = Some b -> ag_id b <> ag_id a -> st_agents st' !! i = Some b) /\
  policy_rule <$> st_rules st' = policy_rule <$> st_rules st /\
  (forall i e, st_rules st !! i = Some e -> re_agent_id e <> ag_id a -> st_rules st' !! i = Some e) /\
  lr_link <$> st_links st' = lr_link <$> st_links st /\
  (forall i r, st_links st !! i = Some r -> exists r', st_links st' !! i = Some r' /\
     (side_of_agent (ag_id a) r = false -> r' = r) /\
     forall s k, sc_public_key (cols_of s r) = Some k -> k <> "" -> sc_public_key (cols_of s r') = Some k) /\
  st_pairs st' = st_pairs st /\ st_meta st' = st_meta st.
Proof.
  intros H Ha. apply heartbeat_rows in H as (b & f & g & Hb & Hag & Hru & Hf & Hli & Hg & Hp & Hme).
  assert (b = a) as -> by congruence. rewrite Hag, Hru, Hli. split_and!; [| | | | | |done|done].
  - unfold patch_row. rewrite <- list_fmap_compose. apply list_fmap_ext. intros _ b _. cbn.
    destruct (_ =? _); [|done]. apply heartbeat_policy.
  - intros i b' Hi Hne. rewrite lookup_patch_row, Hi. cbn. by rewrite (proj2 (Z.eqb_neq _ _) Hne).
  - rewrite <- list_fmap_compose. apply list_fmap_ext. intros _ e _. apply Hf.
  - intros i e Hi Hne. rewrite list_lookup_fmap, Hi. cbn. f_equal. by apply Hf.
  - rewrite <- list_fmap_compose. apply list_fmap_ext. intros _ r _. apply Hg.
  - intros i r Hi. exists (g r). rewrite list_lookup_fmap, Hi. split; [done|]. apply Hg.
Qed.

Lemma heartbeat_changes_no_policy_witness : exists st',
  heartbeat (fun _ => None) (ex_service "restricted") (VStr ex_token)
    (VObj [("hostname", VStr "gw"); ("ingress_hash", VStr "NONE"); ("ingress_mode", VStr "open")]) 99 = Ok st' /\
  policy <$> st_agents st' = policy <$> st_agents (ex_service "restricted").
Proof.
  eexists. split; [vm_compute; reflexivity|].
  eapply (heartbeat_changes_no_policy (fun _ => None) (ex_service "restricted") (VStr ex_token)
    (VObj [("hostname", VStr "gw"); ("ingress_hash", VStr "NONE"); ("ingress_mode", VStr "open")]) 99).
  - vm_compute. reflexivity.
  - vm_compute. reflexivity.
Defined.
