(* ===== verification/AgentSystem.v ===== *)
(** The agent services together: every handler of the agent, ingress and direct link
    services as a step of one store, and the invariants of the states they reach.

    A step draws at most one token; the tokens drawn so far are kept as ghost state. New
    rows get ids no row of their table has. *)

From S2P Require Import Prelude.
From S2P Require Import JsString.
From S2P Require Import Cidr.
From S2P Require Import JsVal.
From S2P Require Import IngressRules.
From S2P Require Import SiteRules.
From S2P Require Import DirectLink.
From S2P Require Import AgentText.
From S2P Require Import AgentMesh.
From S2P Require Import AgentStore.
From S2P Require Import AgentLinks.
From S2P Require Import AgentIngress.
From S2P Require Import AgentService.

Local Open Scope Z_scope.

(** * What the ingress checks depend on *)

Definition shape (r : rule) : bool * Z := (r_enabled r, ruleLineCount r).

Definition rules_of (id : Z) (st : store) : list rule := re_rule <$> bfilter (fun e => re_agent_id e =? id) (st_rules st).

Definition shapes (id : Z) (st : store) : list (bool * Z) := shape <$> rules_of id st.

Definition weight (x : bool * Z) : Z := if x.1 then x.2 else 0.

Definition total (s : list (bool * Z)) : Z := foldr (fun x n => weight x + n) 0 s.

Lemma total_app s t : total (s ++ t) = total s + total t.
Proof. unfold total. induction s as [|x s IH]; cbn; [done|]. rewrite IH. lia. Qed.

Lemma total_perm s t : s ≡ₚ t -> total s = total t.
Proof. unfold total. induction 1; cbn; lia. Qed.

Lemma total_le {A} (f g : A -> bool * Z) l : (forall x, x ∈ l -> weight (f x) <= weight (g x)) ->
  total (f <$> l) <= total (g <$> l).
Proof.
  induction l as [|x l IH]; intros H; cbn; [lia|]. pose proof (H x (list_elem_of_here _ _)).
  assert (total (f <$> l) <= total (g <$> l)) by (apply IH; intros y Hy; apply H; by right). unfold total in *. lia.
Qed.

Lemma ruleLineCount_nonneg r : 0 <= ruleLineCount r.
Proof. unfold ruleLineCount, lineCount, n_or_1. repeat apply Z.mul_nonneg_nonneg; lia. Qed.

Lemma weight_nonneg r : 0 <= weight (shape r).
Proof. unfold weight, shape. cbn. pose proof (ruleLineCount_nonneg r). destruct (r_enabled r); lia. Qed.

Lemma total_nonneg rules : 0 <= total (shape <$> rules).
Proof. induction rules as [|r rules IH]; cbn; [lia|]. pose proof (weight_nonneg r). unfold total in *. lia. Qed.

Lemma totalLineCount_Ok rules n : assertTotalLineCount rules n = Ok tt <->
  total (shape <$> rules) * Z.max 1 n <= MAX_LINES_TOTAL.
Proof.
  unfold assertTotalLineCount. rewrite throw_if_Ok, Z.ltb_ge, foldl_add, Z.add_0_l.
  assert (foldr (fun r m => ruleLineCount r + m) 0 (bfilter r_enabled rules) = total (shape <$> rules)) as ->; [|done].
  induction rules as [|r rules IH]; [done|]. rewrite fmap_cons. change (total (_ :: ?l)) with (weight (shape r) + total (shape <$> rules)).
  rewrite <- IH. unfold bfilter, weight. cbn. by destruct (r_enabled r).
Qed.

Lemma loadRules_perm id st : loadRules id st ≡ₚ rules_of id st.
Proof. apply merge_sort_Permutation. Qed.

Lemma load_shapes id st : shape <$> loadRules id st ≡ₚ shapes id st.
Proof. apply fmap_Permutation, loadRules_perm. Qed.

Lemma load_total id st n : assertTotalLineCount (loadRules id st) n = Ok tt <-> total (shapes id st) * Z.max 1 n <= MAX_LINES_TOTAL.
Proof. by rewrite totalLineCount_Ok, (total_perm _ _ (load_shapes id st)). Qed.

Lemma length_load id st : length (loadRules id st) = length (shapes id st).
Proof. unfold shapes. by rewrite length_fmap, (Permutation_length (loadRules_perm id st)). Qed.

Definition some_enabled (s : list (bool * Z)) : Prop := exists x, x ∈ s /\ x.1 = true.

Lemma notEmpty_Ok mode rules : assertNotEmptyRestricted mode rules = Ok tt <-> (mode = "restricted" -> some_enabled (shape <$> rules)).
Proof.
  rewrite enabled_rules_Ok. unfold some_enabled. setoid_rewrite list_elem_of_fmap. split; intros H Hm.
  - destruct (H Hm) as (r & Hr & He). exists (shape r). split; [by exists r|done].
  - destruct (H Hm) as (x & (r & -> & Hr) & He). by exists r.
Qed.

Lemma some_enabled_perm s t : s ≡ₚ t -> some_enabled s -> some_enabled t.
Proof. intros Hp (x & Hx & He). exists x. split; [by rewrite <- Hp|done]. Qed.

(** * Interfaces *)

Lemma ifaceCount_eq id st : ifaceCountOf id st = 1 + Z.of_nat (length (enabled_links_of id st)).
Proof.
  unfold ifaceCountOf, ifacesFor. rewrite length_fmap.
  by rewrite (Permutation_length (merge_sort_Permutation Z.le _)), length_fmap.
Qed.

Lemma ifaceCount_pos id st : 1 <= ifaceCountOf id st.
Proof. rewrite ifaceCount_eq. lia. Qed.

(** * What the builder demands of the stored rules *)

Definition rules_sane (st : store) : Prop := Forall (fun e => rule_ok (re_rule e)) (st_rules st).

(** A patch whose lists the builder takes. *)
Definition patch_ok (p : rule_patch) : Prop :=
  (forall l, rp_sources p = Some l -> l <> [] /\ is_Some (mapM canonicalCidr l)) /\
  (forall l, rp_destinations p = Some l -> is_Some (mapM canonicalCidr l)) /\
  (forall l, rp_ports p = Some l -> Forall (fun q => port_ok q = true) l).

Lemma field_of_Ok {A} partial v (m : res A) o x : field_of partial v m = Ok o -> o = Some x -> m = Ok x.
Proof. unfold field_of. destruct (_ || _); [|by intros [= <-]]. destruct m; cbn; [by intros [= <-] [= ->]|done]. Qed.

Lemma cidrs_mapM l : cidrs_ok l -> is_Some (mapM canonicalCidr l).
Proof. intros (_ & _ & H). exists l. by apply mapM_canonical_id. Qed.

Lemma sanitize_patch_ok data partial p : sanitizeIngressRule data partial = Ok p ->
  patch_ok p /\ (partial = false -> is_Some (rp_sources p)).
Proof.
  unfold sanitizeIngressRule. intros H. apply bind_Ok in H as (o1 & _ & H). apply bind_Ok in H as (o2 & Hs & H).
  apply bind_Ok in H as (o3 & Hd & H). apply bind_Ok in H as (o4 & Hp & H). apply bind_Ok in H as (o5 & _ & H).
  apply bind_Ok in H as (o6 & _ & H). apply bind_Ok in H as (u & _ & [= <-]). unfold patch_ok. cbn. split_and!.
  - intros l Hl. apply (field_of_Ok _ _ _ _ _ Hs), sanitizeCidrList_Ok in Hl as (Hc & Hne & _). split; [by apply Hne|by apply cidrs_mapM].
  - intros l Hl. apply (field_of_Ok _ _ _ _ _ Hd), sanitizeCidrList_Ok in Hl as (Hc & _). by apply cidrs_mapM.
  - intros l Hl. apply (field_of_Ok _ _ _ _ _ Hp), sanitizePorts_Ok in Hl as (_ & _ & Hf). eapply Forall_impl; [exact Hf|]. by intros ? [? _].
  - intros ->. apply field_of_full in Hs as (x & -> & _). by eexists.
Qed.

Lemma new_rule_ok data p id now : sanitizeIngressRule data false = Ok p -> 1 <= id -> rule_ok (rule_of id now p).
Proof.
  intros H Hid. apply sanitize_patch_ok in H as [(Hs & Hd & Hp) Hc]. destruct (Hc eq_refl) as [l Hl].
  unfold rule_ok. cbn -[mapM]. rewrite Hl. cbn [default]. split_and!; [done|by apply Hs|by apply Hs| |].
  - destruct (rp_destinations p); [by apply Hd|by eexists].
  - destruct (rp_ports p); [by apply Hp|constructor].
Qed.

Lemma merged_rule_ok data p r : sanitizeIngressRule data true = Ok p -> rule_ok r -> rule_ok (merge_rule r p).
Proof.
  intros H (H1 & H2 & H3 & H4 & H5). apply sanitize_patch_ok in H as [(Hs & Hd & Hp) _]. unfold rule_ok. cbn -[mapM]. split_and!.
  - done.
  - destruct (rp_sources p); [by apply Hs|done].
  - destruct (rp_sources p); [by apply Hs|done].
  - destruct (rp_destinations p); [by apply Hd|done].
  - destruct (rp_ports p); [by apply Hp|done].
Qed.

Lemma arm_ok t r : rule_ok r -> rule_ok (arm t r).
Proof. by destruct t. Qed.

(** * The invariant of the rules *)

Definition entry_id (e : rule_entry) : Z := r_id (re_rule e).

Record ingress_ok (st : store) : Prop := IngressOk {
  io_ids : NoDup (entry_id <$> st_rules st);
  io_live : forall e, e ∈ st_rules st -> is_Some (live_agent (re_agent_id e) (st_agents st));
  io_count : forall id, Z.of_nat (length (shapes id st)) <= MAX_RULES_PER_AGENT;
  io_restricted : forall id a, live_agent id (st_agents st) = Some a -> ag_ingress_mode a = "restricted" ->
    some_enabled (shapes id st) }.

(** Every agent's rules fit the line cap on its interfaces. *)
Definition lines_ok (st : store) : Prop := forall id, total (shapes id st) * ifaceCountOf id st <= MAX_LINES_TOTAL.

(** The rules of every agent fit the line cap on the hub interface alone. *)
Definition hub_lines_ok (st : store) : Prop := forall id, total (shapes id st) <= MAX_LINES_TOTAL.

Lemma lines_le st st' id : lines_ok st -> total (shapes id st') <= total (shapes id st) ->
  ifaceCountOf id st' <= ifaceCountOf id st -> total (shapes id st') * ifaceCountOf id st' <= MAX_LINES_TOTAL.
Proof.
  intros H Ht Hi. etrans; [|apply (H id)]. pose proof (ifaceCount_pos id st'). pose proof (total_nonneg (rules_of id st')).
  unfold shapes in *. apply Z.mul_le_mono_nonneg; lia.
Qed.

(** A change of the rows that keeps agent, id and shape. *)
Definition same_shape (f : rule_entry -> rule_entry) : Prop :=
  forall e, re_agent_id (f e) = re_agent_id e /\ entry_id (f e) = entry_id e /\ shape (re_rule (f e)) = shape (re_rule e).

Lemma bfilter_fmap {A B} (p : B -> bool) (f : A -> B) l : bfilter p (f <$> l) = f <$> bfilter (fun x => p (f x)) l.
Proof. unfold bfilter. induction l as [|x l IH]; [done|]. cbn. destruct (p (f x)); cbn; by rewrite IH. Qed.

Lemma bfilter_ext {A} (p q : A -> bool) l : (forall x, x ∈ l -> p x = q x) -> bfilter p l = bfilter q l.
Proof.
  unfold bfilter. induction l as [|x l IH]; intros H; [done|]. cbn. rewrite (H x (list_elem_of_here _ _)).
  rewrite IH; [done|]. intros y Hy. apply H. by right.
Qed.

Lemma shapes_map f st st' id : st_rules st' = f <$> st_rules st -> same_shape f -> shapes id st' = shapes id st.
Proof.
  intros He Hf. unfold shapes, rules_of. rewrite He, bfilter_fmap.
  rewrite (bfilter_ext _ (fun e => re_agent_id e =? id)) by (intros e _; by rewrite (proj1 (Hf e))).
  rewrite <- !list_fmap_compose. apply list_fmap_ext. intros _ e _. apply Hf.
Qed.

Lemma shapes_same st st' id : st_rules st' = st_rules st -> shapes id st' = shapes id st.
Proof. intros He. unfold shapes, rules_of. by rewrite He. Qed.

Lemma ingress_frame st st' f : ingress_ok st -> st_rules st' = f <$> st_rules st -> same_shape f ->
  (forall id, is_Some (live_agent id (st_agents st)) -> is_Some (live_agent id (st_agents st'))) ->
  (forall id a', live_agent id (st_agents st') = Some a' -> ag_ingress_mode a' = "restricted" ->
     exists a, live_agent id (st_agents st) = Some a /\ ag_ingress_mode a = "restricted") ->
  ingress_ok st'.
Proof.
  intros [H1 H2 H3 H4] He Hf Hl Hm. split.
  - rewrite He, <- list_fmap_compose. rewrite (list_fmap_ext _ entry_id) by (intros; apply Hf). done.
  - intros e' Hin. rewrite He in Hin. apply list_elem_of_fmap in Hin as (e & -> & Hin). rewrite (proj1 (Hf e)). by apply Hl, H2.
  - intros id. rewrite (shapes_map f st st') by done. apply H3.
  - intros id a' Ha Hr. rewrite (shapes_map f st st') by done. destruct (Hm id a' Ha Hr) as (a & ? & ?). by apply (H4 id a).
Qed.

(** * The rule handlers *)

(** What a handler of the rules of one agent may do: replace the shapes of that agent by
    shapes that pass the checks, and nothing else. *)
Record rules_changed (agentId : Z) (st st' : store) : Prop := RulesChanged {
  rc_agents : st_agents st' = st_agents st;
  rc_links : st_links st' = st_links st;
  rc_ids : NoDup (entry_id <$> st_rules st) -> NoDup (entry_id <$> st_rules st');
  rc_owner : forall e, e ∈ st_rules st' -> re_agent_id e = agentId \/ exists e0, e0 ∈ st_rules st /\ re_agent_id e0 = re_agent_id e;
  rc_known : is_Some (live_agent agentId (st_agents st));
  rc_other : forall id, id <> agentId -> shapes id st' = shapes id st;
  rc_count : Z.of_nat (length (shapes agentId st)) <= MAX_RULES_PER_AGENT -> Z.of_nat (length (shapes agentId st')) <= MAX_RULES_PER_AGENT;
  rc_restricted : forall a, live_agent agentId (st_agents st) = Some a -> ag_ingress_mode a = "restricted" ->
    some_enabled (shapes agentId st) -> some_enabled (shapes agentId st');
  rc_sane : rules_sane st -> rules_sane st';
  rc_total : total (shapes agentId st') <= total (shapes agentId st) \/
    total (shapes agentId st') * ifaceCountOf agentId st <= MAX_LINES_TOTAL }.

Lemma rules_changed_ok agentId st st' : rules_changed agentId st st' -> ingress_ok st -> ingress_ok st'.
Proof.
  intros [Ha Hl Hi Ho Hk Hs Hc Hr _ _] [H1 H2 H3 H4]. split.
  - by apply Hi.
  - intros e He. rewrite Ha. destruct (Ho e He) as [-> | (e0 & He0 & <-)]; [done|by apply H2].
  - intros id. destruct (decide (id = agentId)) as [->|Hne]; [by apply Hc|]. by rewrite Hs.
  - intros id a. rewrite Ha. intros Hla Hm. destruct (decide (id = agentId)) as [->|Hne]; [by apply (Hr a), (H4 _ a)|].
    rewrite Hs by done. by apply (H4 _ a).
Qed.

Lemma rules_changed_ifaces agentId st st' id : rules_changed agentId st st' -> ifaceCountOf id st' = ifaceCountOf id st.
Proof. intros [_ Hl _ _ _ _ _ _ _ _]. rewrite !ifaceCount_eq. unfold enabled_links_of. by rewrite Hl. Qed.

Lemma rules_changed_lines agentId st st' : rules_changed agentId st st' -> lines_ok st -> lines_ok st'.
Proof.
  intros Hc Hl id. pose proof (rules_changed_ifaces _ _ _ id Hc) as Hi. destruct (decide (id = agentId)) as [->|Hne].
  - destruct (rc_total _ _ _ Hc) as [Ht|Ht]; [|by rewrite Hi]. apply (lines_le st); [done|done|by rewrite Hi].
  - apply (lines_le st); [done| |by rewrite Hi]. by rewrite (rc_other _ _ _ Hc).
Qed.

Lemma rules_changed_hub agentId st st' : rules_changed agentId st st' -> hub_lines_ok st -> hub_lines_ok st'.
Proof.
  intros Hc Hl id. destruct (decide (id = agentId)) as [->|Hne]; [|rewrite (rc_other _ _ _ Hc) by done; apply Hl].
  destruct (rc_total _ _ _ Hc) as [Ht|Ht]; [specialize (Hl agentId); lia|]. pose proof (ifaceCount_pos agentId st).
  pose proof (total_nonneg (rules_of agentId st')). unfold shapes in *. nia.
Qed.

Lemma shapes_app id st st' new : st_rules st' = st_rules st ++ new ->
  shapes id st' = shapes id st ++ (shape ∘ re_rule <$> bfilter (fun e => re_agent_id e =? id) new).
Proof.
  intros He. unfold shapes, rules_of. rewrite He. unfold bfilter. by rewrite List.filter_app, !fmap_app, <- !list_fmap_compose.
Qed.

Lemma filter_entries agentId (rules : list rule) id :
  bfilter (fun e => re_agent_id e =? id) (RuleEntry agentId <$> rules) = if agentId =? id then RuleEntry agentId <$> rules else [].
Proof.
  unfold bfilter. induction rules as [|r rules IH]; [by destruct (_ =? _)|]. cbn. rewrite IH. by destruct (agentId =? id).
Qed.

Lemma shapes_new agentId st st' fresh id : st_rules st' = st_rules st ++ (RuleEntry agentId <$> fresh) ->
  shapes id st' = shapes id st ++ (if agentId =? id then shape <$> fresh else []).
Proof.
  intros He. rewrite (shapes_app id st st' _ He), filter_entries. destruct (agentId =? id); [|done].
  by rewrite <- list_fmap_compose.
Qed.

Lemma some_enabled_app s t : some_enabled s -> some_enabled (s ++ t).
Proof. intros (x & Hx & He). exists x. split; [|done]. apply elem_of_app. by left. Qed.

Lemma append_rules_changed agentId st fresh : is_Some (live_agent agentId (st_agents st)) -> Forall rule_ok fresh ->
  NoDup (r_id <$> fresh) -> (forall r, r ∈ fresh -> r_id r ∉ (entry_id <$> st_rules st)) ->
  Z.of_nat (length (shapes agentId st) + length fresh) <= MAX_RULES_PER_AGENT ->
  (total (shapes agentId st) + total (shape <$> fresh)) * ifaceCountOf agentId st <= MAX_LINES_TOTAL ->
  rules_changed agentId st {| st_agents := st_agents st; st_rules := st_rules st ++ (RuleEntry agentId <$> fresh);
    st_links := st_links st; st_pairs := st_pairs st; st_meta := st_meta st |}.
Proof.
  intros Hk Hok Hnd Hfresh Hc Ht. set (st' := {| st_agents := _ |}).
  assert (forall id, shapes id st' = shapes id st ++ (if agentId =? id then shape <$> fresh else [])) as Hs by (intros id; by apply shapes_new).
  split; [done|done| | |done| | | | |].
  - intros Hn. change (st_rules st') with (st_rules st ++ (RuleEntry agentId <$> fresh)). rewrite fmap_app, <- list_fmap_compose.
    apply NoDup_app. split_and!; [done| |exact Hnd]. intros x Hx (r & -> & Hr)%list_elem_of_fmap. by apply (Hfresh r Hr).
  - intros e [He|(r & -> & _)%list_elem_of_fmap]%elem_of_app; [right; by exists e|by left].
  - intros id Hne. rewrite Hs. rewrite (proj2 (Z.eqb_neq agentId id)) by done. by rewrite app_nil_r.
  - intros _. rewrite Hs, Z.eqb_refl, length_app, length_fmap. exact Hc.
  - intros a _ _ Hen. rewrite Hs. by apply some_enabled_app.
  - intros Hsane. apply Forall_app. split; [done|]. by apply Forall_fmap.
  - right. rewrite Hs, Z.eqb_refl, total_app. exact Ht.
Qed.

Lemma rules_changed_trans agentId st1 st2 st3 : rules_changed agentId st1 st2 -> rules_changed agentId st2 st3 ->
  rules_changed agentId st1 st3.
Proof.
  intros H12 H23. pose proof (rules_changed_ifaces _ _ _ agentId H12) as Hi.
  destruct H12 as [A1 L1 I1 O1 K1 S1 C1 R1 Y1 T1], H23 as [A2 L2 I2 O2 K2 S2 C2 R2 Y2 T2]. split.
  - congruence.
  - congruence.
  - auto.
  - intros e He. destruct (O2 e He) as [|(e0 & He0 & Hea)]; [by left|]. rewrite <- Hea. by apply O1.
  - done.
  - intros id Hne. by rewrite S2, S1.
  - auto.
  - intros a Ha Hm Hen. apply (R2 a); [congruence|done|]. by apply (R1 a).
  - auto.
  - rewrite Hi in T2. destruct T2 as [T2|T2]; [|by right]. destruct T1 as [T1|T1]; [left; lia|right].
    etrans; [|exact T1]. apply Z.mul_le_mono_nonneg_r; [|done]. pose proof (ifaceCount_pos agentId st1). lia.
Qed.

Lemma create_rule_changed st agentId data id now st' : 1 <= id -> id ∉ (entry_id <$> st_rules st) ->
  create_rule st agentId data id now = Ok st' -> rules_changed agentId st st'.
Proof.
  intros Hid Hfresh H. unfold create_rule in H. apply bind_Ok in H as (a & Ha%or_not_found_Ok & H).
  apply bind_Ok in H as (p & Hp%lift_Ok & H). apply bind_Ok in H as ([] & Hc%throw_if_Ok & H). apply Z.leb_gt in Hc.
  apply bind_Ok in H as ([] & Ht%lift_Ok & H). injection H as <-.
  apply (append_rules_changed agentId st [rule_of id now p]).
  - by rewrite Ha.
  - apply Forall_singleton. by apply (new_rule_ok data).
  - apply NoDup_singleton.
  - by intros r ->%list_elem_of_singleton.
  - rewrite length_load in Hc. cbn. lia.
  - rewrite totalLineCount_Ok, fmap_app, total_app, (total_perm _ _ (load_shapes agentId st)) in Ht.
    by rewrite Z.max_r in Ht by apply ifaceCount_pos.
Qed.

Lemma map_rules_shapes sel f st id : shapes id (map_rules sel f st) =
  (fun e => shape (if sel e then f (re_rule e) else re_rule e)) <$> bfilter (fun e => re_agent_id e =? id) (st_rules st).
Proof.
  unfold shapes, rules_of. change (st_rules (map_rules sel f st)) with
    ((fun e => if sel e then RuleEntry (re_agent_id e) (f (re_rule e)) else e) <$> st_rules st).
  rewrite bfilter_fmap, <- !list_fmap_compose.
  rewrite (bfilter_ext _ (fun e => re_agent_id e =? id)) by (intros e _; by destruct (sel e)).
  apply list_fmap_ext. intros _ e _. cbn. by destruct (sel e).
Qed.

Lemma fmap_ext_filter {A B} (p : A -> bool) (f g : A -> B) l : (forall x, x ∈ l -> p x = true -> f x = g x) ->
  f <$> bfilter p l = g <$> bfilter p l.
Proof.
  intros H. apply list_fmap_ext. intros i x Hx%list_elem_of_lookup_2. apply elem_of_bfilter in Hx as [? ?]. by apply H.
Qed.

(** [g] is what the checks saw of the change. *)
Lemma map_rules_changed agentId st sel f (g : rule -> rule) :
  (forall r, r_id (f r) = r_id r) ->
  (forall e, e ∈ st_rules st -> sel e = true -> re_agent_id e = agentId) ->
  (forall e, e ∈ st_rules st -> re_agent_id e = agentId ->
     shape (if sel e then f (re_rule e) else re_rule e) = shape (g (re_rule e))) ->
  is_Some (live_agent agentId (st_agents st)) ->
  (forall e, e ∈ st_rules st -> sel e = true -> rule_ok (re_rule e) -> rule_ok (f (re_rule e))) ->
  (forall a, live_agent agentId (st_agents st) = Some a -> ag_ingress_mode a = "restricted" ->
     some_enabled (shapes agentId st) -> some_enabled (shape <$> (g <$> rules_of agentId st))) ->
  (total (shape <$> (g <$> rules_of agentId st)) <= total (shapes agentId st) \/
   total (shape <$> (g <$> rules_of agentId st)) * ifaceCountOf agentId st <= MAX_LINES_TOTAL) ->
  rules_changed agentId st (map_rules sel f st).
Proof.
  intros Hid Hsel Hg Hk Hok Hr Ht.
  assert (shapes agentId (map_rules sel f st) = shape <$> (g <$> rules_of agentId st)) as Hs.
  { rewrite map_rules_shapes. unfold rules_of. rewrite <- !list_fmap_compose. apply fmap_ext_filter.
    intros e He Ha%Z.eqb_eq. by apply Hg. }
  split; [done|done| | |done| | | | |].
  - change (st_rules (map_rules sel f st)) with
      ((fun e => if sel e then RuleEntry (re_agent_id e) (f (re_rule e)) else e) <$> st_rules st).
    rewrite <- list_fmap_compose. intros Hn. erewrite list_fmap_ext; [exact Hn|]. intros _ e _. unfold entry_id. cbn.
    destruct (sel e); [apply Hid|done].
  - intros e' (e & -> & He)%list_elem_of_fmap. right. exists e. split; [done|]. by destruct (sel e).
  - intros id Hne. rewrite map_rules_shapes. unfold shapes, rules_of. rewrite <- list_fmap_compose.
    apply fmap_ext_filter. intros e He Ha%Z.eqb_eq. destruct (sel e) eqn:Hse; [|done]. by apply Hsel in Hse; [congruence|].
  - rewrite Hs. unfold shapes. by rewrite !length_fmap.
  - by rewrite Hs.
  - unfold rules_sane. rewrite !Forall_forall. intros Hsane e' (e & -> & He)%list_elem_of_fmap.
    destruct (sel e) eqn:Hse; [cbn; apply Hok; auto|auto].
  - by rewrite Hs.
Qed.

Lemma entry_unique st e1 e2 : NoDup (entry_id <$> st_rules st) -> e1 ∈ st_rules st -> e2 ∈ st_rules st ->
  entry_id e1 = entry_id e2 -> e1 = e2.
Proof.
  intros Hn [i Hi]%list_elem_of_lookup [j Hj]%list_elem_of_lookup He.
  assert (i = j) as ->; [|congruence]. eapply NoDup_lookup; [exact Hn|..]; rewrite list_lookup_fmap.
  - by rewrite Hi.
  - rewrite Hj. cbn. by rewrite He.
Qed.

(** The rule a handler found by id: the only entry with this id is the agent's. *)
Lemma found_rule st agentId ruleId r : NoDup (entry_id <$> st_rules st) ->
  bfind (fun q => r_id q =? ruleId) (loadRules agentId st) = Some r ->
  RuleEntry agentId r ∈ st_rules st /\ r_id r = ruleId /\
  forall e, e ∈ st_rules st -> entry_id e = ruleId -> e = RuleEntry agentId r.
Proof.
  intros Hn [Hr Hid]%bfind_Some. apply elem_of_loadRules in Hr. apply Z.eqb_eq in Hid. split_and!; [done..|].
  intros e He Hei. apply (entry_unique st); [done..|]. by rewrite Hei.
Qed.

Lemma shape_arm t r : shape (arm t r) = shape r.
Proof. by destruct t. Qed.

Lemma perm_checked (g : rule -> rule) agentId st : shape <$> (g <$> loadRules agentId st) ≡ₚ shape <$> (g <$> rules_of agentId st).
Proof. do 2 apply fmap_Permutation. apply loadRules_perm. Qed.

(** A merge that cannot grow the rule set keeps the targets. *)
Lemma merge_no_growth r p : updateCanGrow p = false -> weight (shape (merge_rule r p)) <= weight (shape r).
Proof.
  unfold updateCanGrow. rewrite !orb_false_iff, !bool_decide_eq_false. intros [[[Hs Hd] Hp] He].
  apply eq_None_not_Some in Hs, Hd, Hp. pose proof (ruleLineCount_nonneg r). unfold weight, shape, ruleLineCount, merge_rule in *. cbn.
  rewrite Hs, Hd, Hp. cbn. destruct (rp_enabled p) as [[]|]; [done| |]; cbn; destruct (r_enabled r); lia.
Qed.

Lemma update_rule_changed st agentId ruleId data now st' : NoDup (entry_id <$> st_rules st) ->
  update_rule st agentId ruleId data now = Ok st' -> rules_changed agentId st st'.
Proof.
  intros Hn H. unfold update_rule in H. apply bind_Ok in H as (a & Ha%or_not_found_Ok & H).
  apply bind_Ok in H as (p & Hp%lift_Ok & H). apply bind_Ok in H as (r & Hr%or_not_found_Ok & H).
  destruct (found_rule _ _ _ _ Hn Hr) as (Hin & Hid & Honly). apply bind_Ok in H as ([] & Hgrow & H).
  apply bind_Ok in H as ([] & Hne & H). injection H as <-.
  set (g := fun q => if r_id q =? ruleId then merge_rule r p else q) in *.
  assert (forall q, r_id q = ruleId -> g q = merge_rule r p) as Hg by (intros q He; unfold g; by rewrite (proj2 (Z.eqb_eq _ _) He)).
  apply (map_rules_changed _ _ _ _ g).
  - intros q. unfold arm, armedOnPatch. by destruct (_ || _).
  - intros e He Hsel%Z.eqb_eq. by rewrite (Honly e He Hsel).
  - intros e He _. unfold is_rule, g. destruct (Z.eqb_spec (r_id (re_rule e)) ruleId) as [Hei|]; [|done].
    rewrite (Honly e He Hei). cbn. apply shape_arm.
  - by rewrite Ha.
  - intros e _ _ Hok. by apply arm_ok, (merged_rule_ok data).
  - intros b Hb Hm _. assert (b = a) as -> by congruence.
    rewrite notEmpty_Ok in Hne. by apply (some_enabled_perm _ _ (perm_checked g agentId st)), Hne.
  - destruct (updateCanGrow p) eqn:Hup.
    + right. apply bind_Ok in Hgrow as ([] & _ & Ht%lift_Ok). rewrite totalLineCount_Ok in Ht.
      rewrite (total_perm _ _ (perm_checked g agentId st)) in Ht. by rewrite Z.max_r in Ht by apply ifaceCount_pos.
    + left. unfold shapes, rules_of. rewrite <- !list_fmap_compose. apply total_le. intros e [He _]%elem_of_bfilter. cbn.
      unfold g. destruct (Z.eqb_spec (r_id (re_rule e)) ruleId) as [Hei|]; [|lia].
      rewrite (Honly e He Hei). cbn. by apply merge_no_growth.
Qed.

Lemma bfilter_comm {A} (p q : A -> bool) l : bfilter p (bfilter q l) = bfilter q (bfilter p l).
Proof.
  unfold bfilter. induction l as [|x l IH]; [done|]. cbn.
  destruct (q x) eqn:Hq, (p x) eqn:Hp; cbn; rewrite ?Hq, ?Hp; congruence.
Qed.

Lemma shapes_filter p st st' id : st_rules st' = bfilter p (st_rules st) ->
  shapes id st' = shape ∘ re_rule <$> bfilter p (bfilter (fun e => re_agent_id e =? id) (st_rules st)).
Proof.
  intros He. unfold shapes, rules_of. by rewrite He, <- list_fmap_compose, bfilter_comm.
Qed.

Lemma total_sublist s t : s `sublist_of` t -> Forall (fun x => 0 <= weight x) t -> total s <= total t.
Proof.
  induction 1 as [|x s t H IH|x s t H IH]; [done|..]; intros [Hx Ht]%Forall_cons; specialize (IH Ht); unfold total in *; cbn; lia.
Qed.

Lemma shapes_nonneg id st : Forall (fun x => 0 <= weight x) (shapes id st).
Proof. apply Forall_fmap, Forall_true. intros r. apply weight_nonneg. Qed.

Lemma shapes_filter_sub p st st' id : st_rules st' = bfilter p (st_rules st) -> shapes id st' `sublist_of` shapes id st.
Proof.
  intros He. rewrite (shapes_filter p st st' id He). unfold shapes, rules_of. rewrite <- list_fmap_compose.
  apply fmap_sublist, bfilter_sublist.
Qed.

Lemma bfilter_all {A} (p : A -> bool) l : (forall x, x ∈ l -> p x = true) -> bfilter p l = l.
Proof.
  unfold bfilter. induction l as [|x l IH]; intros H; [done|]. cbn. rewrite (H x (list_elem_of_here _ _)).
  f_equal. apply IH. intros y Hy. apply H. by right.
Qed.

Lemma delete_rule_changed st agentId ruleId st' : NoDup (entry_id <$> st_rules st) ->
  delete_rule st agentId ruleId = Ok st' -> rules_changed agentId st st'.
Proof.
  intros Hn H. unfold delete_rule in H. apply bind_Ok in H as (a & Ha%or_not_found_Ok & H).
  apply bind_Ok in H as (r & Hr%or_not_found_Ok & H). destruct (found_rule _ _ _ _ Hn Hr) as (Hin & Hid & Honly).
  apply bind_Ok in H as ([] & Hne & H). injection H as <-. set (st' := {| st_agents := _ |}).
  assert (st_rules st' = bfilter (fun e => negb (is_rule ruleId e)) (st_rules st)) as Hst by done.
  pose proof (shapes_filter_sub _ st st' agentId Hst) as Hsub. split; [done|done| | |by rewrite Ha| | | | |].
  - intros _. eapply sublist_NoDup; [exact Hn|]. rewrite Hst. apply fmap_sublist, bfilter_sublist.
  - intros e [He _]%elem_of_bfilter. right. by exists e.
  - intros id Hd. rewrite (shapes_filter _ st st' id Hst), bfilter_all.
    { unfold shapes, rules_of. by rewrite <- list_fmap_compose. }
    intros e [He Hae%Z.eqb_eq]%elem_of_bfilter. apply negb_true_iff, Z.eqb_neq. intros Hei.
    rewrite (Honly e He Hei) in Hae. cbn in Hae. congruence.
  - intros Hc. apply sublist_length in Hsub. lia.
  - intros b Hb Hm _. assert (b = a) as -> by congruence. rewrite notEmpty_Ok in Hne.
    destruct (Hne Hm) as (x & Hx & He). exists x. split; [|done].
    apply list_elem_of_fmap in Hx as (q & -> & [Hq Hqid]%elem_of_bfilter). apply elem_of_loadRules in Hq.
    rewrite (shapes_filter _ st st' agentId Hst). apply list_elem_of_fmap. exists (RuleEntry agentId q). split; [done|].
    apply elem_of_bfilter. split; [|done]. apply elem_of_bfilter. split; [done|apply Z.eqb_refl].
  - intros Hsane. apply Forall_forall. intros e [He _]%elem_of_bfilter. unfold rules_sane in Hsane. rewrite Forall_forall in Hsane. auto.
  - left. apply total_sublist; [done|apply shapes_nonneg].
Qed.

Lemma switch_checked b ids agentId st : shape <$> switch_rules b ids (loadRules agentId st) ≡ₚ shape <$> switch_rules b ids (rules_of agentId st).
Proof. apply (perm_checked (fun r => if bool_decide (r_id r ∈ ids) then with_enabled b r else r)). Qed.

Lemma disableBulk_changed st agentId ids prune st' : disableBulk st agentId ids prune = Ok st' -> rules_changed agentId st st'.
Proof.
  intros H. unfold disableBulk in H. apply bind_Ok in H as (a & Ha%or_not_found_Ok & H).
  apply bind_Ok in H as (l & _ & H). destruct (bfind _ l); [done|]. destruct (bfind _ l); [done|].
  apply bind_Ok in H as ([] & Hne & H). injection H as <-.
  apply (map_rules_changed _ _ _ _ (fun r => if bool_decide (r_id r ∈ l) then with_enabled false r else r)).
  - done.
  - intros e _ [He _]%andb_true_iff. by apply Z.eqb_eq.
  - intros e _ ->. rewrite Z.eqb_refl. done.
  - by rewrite Ha.
  - done.
  - intros b Hb Hm _. assert (b = a) as -> by congruence. rewrite notEmpty_Ok in Hne.
    by apply (some_enabled_perm _ _ (switch_checked false l agentId st)), Hne.
  - left. unfold shapes. rewrite <- !list_fmap_compose. apply total_le. intros r _. cbn.
    destruct (bool_decide _); [|lia]. apply weight_nonneg.
Qed.

Lemma setMode_inv st agentId mode st' : setMode st agentId mode = Ok st' -> exists a m,
  live_agent agentId (st_agents st) = Some a /\ st' = with_agents st (patch_row agentId (set_mode m) (st_agents st)) /\
  (m = "restricted" -> some_enabled (shapes agentId st)).
Proof.
  intros H. unfold setMode in H. apply bind_Ok in H as (a & Ha%or_not_found_Ok & H).
  apply bind_Ok in H as (m & _ & H). apply bind_Ok in H as ([] & Hne & H). apply bind_Ok in H as ([] & _ & H).
  injection H as <-. exists a, m. split_and!; [done|done|]. intros Hm. rewrite notEmpty_Ok in Hne.
  by apply (some_enabled_perm _ _ (load_shapes agentId st)), Hne.
Qed.

Lemma NoDup_zip {A B} (f : Z -> A -> B) (g : B -> Z) ids l : (forall i x, g (f i x) = i) -> NoDup ids ->
  NoDup (g <$> zip_with f ids l).
Proof.
  intros Hg Hn. revert l. induction ids as [|i ids IH]; intros [|x l]; cbn; try apply NoDup_nil_2.
  apply NoDup_cons in Hn as [Hi Hn]. apply NoDup_cons. split; [|by apply IH]. rewrite Hg.
  intros (b & -> & Hb)%list_elem_of_fmap. apply elem_of_lookup_zip_with in Hb as (k & j & y & -> & Hj & _).
  rewrite Hg in Hi. apply Hi. by eapply list_elem_of_lookup_2.
Qed.

(** Every entry of a bulk request passed the same check as a single rule. *)
Lemma bulk_list_Ok l clean : sanitizeBulkList l = Ok clean -> forall p, p ∈ clean -> exists data, sanitizeIngressRule data false = Ok p.
Proof.
  unfold sanitizeBulkList. destruct l as [| | | | |l|]; try done. intros (_ & _ & H)%bind_Ok p Hp.
  apply mapM_Ok in H. apply list_elem_of_lookup in Hp as [n Hn].
  destruct (Forall2_lookup_r _ _ _ _ _ H Hn) as ([i data] & _ & Hq). exists data.
  cbn [snd fst] in Hq. destruct (sanitizeIngressRule data false); congruence.
Qed.

Lemma bulk_create_clean existing clean i p : (i, p) ∈ bp_create (bulkDedupe existing clean) -> p ∈ clean.
Proof.
  unfold bulkDedupe. pose proof (dedupe_all existing clean) as H. destruct (fold_left _ _ _) as [seen bp]. cbn. intros Hp.
  apply (do_create _ _ _ _ H) in Hp as [Hp _]. by eapply list_elem_of_lookup_2.
Qed.

Lemma createBulk_changed st agentId l ids now st' plan : NoDup ids -> (forall i, i ∈ ids -> 1 <= i /\ i ∉ (entry_id <$> st_rules st)) ->
  createBulk st agentId l ids now = Ok (st', plan) -> rules_changed agentId st st'.
Proof.
  intros Hids Hfresh H. unfold createBulk in H. apply bind_Ok in H as (a & Ha%or_not_found_Ok & H).
  apply bind_Ok in H as (clean & Hclean%lift_Ok & H). set (bp := bulkDedupe _ clean) in H. set (reIds := (bp_reenable bp).*2) in H.
  set (fresh := zip_with _ ids (bp_create bp)) in H.
  apply bind_Ok in H as ([] & Hc%throw_if_Ok & H). apply Z.ltb_ge in Hc. rewrite length_load in Hc.
  apply bind_Ok in H as ([] & Ht%lift_Ok & H). injection H as <- _.
  rewrite totalLineCount_Ok, fmap_app, total_app, (total_perm _ _ (switch_checked true reIds agentId st)) in Ht.
  rewrite Z.max_r in Ht by apply ifaceCount_pos. set (g := fun r => if bool_decide (r_id r ∈ reIds) then with_enabled true r else r).
  change (switch_rules true reIds (rules_of agentId st)) with (g <$> rules_of agentId st) in Ht.
  pose proof (total_nonneg fresh) as Hf. pose proof (ifaceCount_pos agentId st) as Hi.
  set (sel := fun e => (re_agent_id e =? agentId) && bool_decide (r_id (re_rule e) ∈ reIds)).
  set (f := fun r => arm (Some now) (with_enabled true r)).
  assert (forall e, e ∈ st_rules st -> re_agent_id e = agentId ->
    shape (if sel e then f (re_rule e) else re_rule e) = shape (g (re_rule e))) as Hg.
  { intros e _ He. unfold sel, g. rewrite He, Z.eqb_refl. cbn [andb]. by destruct (bool_decide _). }
  assert (rules_changed agentId st (map_rules sel f st)) as H1.
  { apply (map_rules_changed _ _ _ _ g); [done| |exact Hg|by rewrite Ha|done| |].
    - intros e _ [He _]%andb_true_iff. by apply Z.eqb_eq.
    - intros _ _ _ (x & Hx & He). apply list_elem_of_fmap in Hx as (r & -> & Hr). exists (shape (g r)).
      split; [by do 2 apply list_elem_of_fmap_2|]. unfold g. by destruct (bool_decide _).
    - right. nia. }
  assert (shapes agentId (map_rules sel f st) = shape <$> (g <$> rules_of agentId st)) as Hs.
  { rewrite map_rules_shapes. unfold rules_of. rewrite <- !list_fmap_compose. apply fmap_ext_filter. intros e He Hea%Z.eqb_eq. by apply Hg. }
  assert (entry_id <$> st_rules (map_rules sel f st) = entry_id <$> st_rules st) as Hent.
  { change (st_rules (map_rules sel f st)) with ((fun e => if sel e then RuleEntry (re_agent_id e) (f (re_rule e)) else e) <$> st_rules st).
    rewrite <- list_fmap_compose. apply list_fmap_ext. intros _ e _. cbn. by destruct (sel e). }
  eapply rules_changed_trans; [exact H1|]. apply (append_rules_changed agentId (map_rules sel f st) fresh).
  - by rewrite (rc_agents _ _ _ H1), Ha.
  - apply Forall_forall. intros r Hr. apply elem_of_lookup_zip_with in Hr as (k & i & [j p] & -> & Hk & Hp).
    apply list_elem_of_lookup_2, bulk_create_clean in Hp. destruct (bulk_list_Ok _ _ Hclean p Hp) as [data Hd].
    apply (new_rule_ok data); [done|]. apply Hfresh. by eapply list_elem_of_lookup_2.
  - by apply NoDup_zip.
  - intros r Hr. rewrite Hent. apply elem_of_lookup_zip_with in Hr as (k & i & y & -> & Hk & _). cbn.
    apply Hfresh. by eapply list_elem_of_lookup_2.
  - rewrite Hs, !length_fmap. unfold shapes in Hc. by rewrite length_fmap in Hc.
  - by rewrite Hs, (rules_changed_ifaces _ _ _ _ H1).
Qed.

(** * The link handlers *)

Lemma lines_links st st' : st_rules st' = st_rules st ->
  (forall id, ifaceCountOf id st' <= ifaceCountOf id st \/ total (shapes id st) * ifaceCountOf id st' <= MAX_LINES_TOTAL) ->
  lines_ok st -> lines_ok st'.
Proof.
  intros Hr Hi Hl id. pose proof (shapes_same st st' id Hr) as Hs. destruct (Hi id) as [H|H]; [|by rewrite Hs].
  apply (lines_le st); [done|by rewrite Hs|done].
Qed.

Definition up_at (id : Z) (r : link_row) : bool := dl_enabled (lr_link r) && side_of_agent id r.

Lemma ifaceCount_up id st : ifaceCountOf id st = 1 + Z.of_nat (length (bfilter (up_at id) (st_links st))).
Proof. apply ifaceCount_eq. Qed.

(** What the check of an enabled link counts. *)
Lemma check_lines_Ok st l agentId : check_lines st l agentId = Ok tt ->
  total (shapes agentId st) * (2 + Z.of_nat (length (bfilter (fun r => negb (lr_id r =? dl_id l)) (bfilter (up_at agentId) (st_links st)))))
    <= MAX_LINES_TOTAL.
Proof. intros H%lift_Ok. rewrite load_total in H. by rewrite Z.max_r in H by lia. Qed.

Lemma validate_lines st l id : validateComplete st l = Ok tt -> dl_enabled l = true ->
  (dl_agent_a_id l =? id) || (dl_agent_b_id l =? id) = true ->
  total (shapes id st) * (2 + Z.of_nat (length (bfilter (fun r => negb (lr_id r =? dl_id l)) (bfilter (up_at id) (st_links st)))))
    <= MAX_LINES_TOTAL.
Proof.
  intros H He Hs. unfold validateComplete in H. apply bind_Ok in H as ([] & _ & H). rewrite He in H.
  apply bind_Ok in H as ([] & Ha & Hb). apply check_lines_Ok in Ha, Hb.
  apply orb_true_iff in Hs as [<-%Z.eqb_eq | <-%Z.eqb_eq]; done.
Qed.

Lemma length_bfilter_snoc {A} (p : A -> bool) l x :
  length (bfilter p (l ++ [x])) = (length (bfilter p l) + if p x then 1 else 0)%nat.
Proof. unfold bfilter. rewrite List.filter_app, length_app. cbn. by destruct (p x). Qed.

Lemma create_link_lines st id body st' : 0 ∉ (lr_id <$> st_links st) -> create_link st id body = Ok st' ->
  lines_ok st -> lines_ok st'.
Proof.
  intros H0 (p & _ & Hv & _ & ->)%create_link_inv. match goal with |- _ -> lines_ok ?x => set (st' := x) end. set (l := link_of id p) in *.
  apply lines_links; [done|]. intros x. rewrite !ifaceCount_up.
  change (st_links st') with (st_links st ++ [LinkRow l no_cols no_cols]). rewrite !length_bfilter_snoc.
  destruct (up_at x (LinkRow l no_cols no_cols)) eqn:Hup; [right|left; lia].
  unfold up_at, side_of_agent in Hup. cbn [lr_link] in Hup. apply andb_true_iff in Hup as [He Hs].
  pose proof (validate_lines st (link_of 0 p) x Hv He Hs) as Ht. rewrite (bfilter_all _ (bfilter (up_at x) (st_links st))) in Ht.
  - etrans; [|exact Ht]. apply Z.mul_le_mono_nonneg_l; [apply total_nonneg|lia].
  - intros r [Hr _]%elem_of_bfilter. apply negb_true_iff, Z.eqb_neq. intros Hid. apply H0. change (dl_id _) with 0 in Hid.
    rewrite <- Hid. by apply list_elem_of_fmap_2.
Qed.

(** Replacing the row with one id. *)
Lemma length_replace (p : link_row -> bool) i (f : link_row -> link_row) ls : NoDup (lr_id <$> ls) ->
  (length (bfilter p ((fun r => if (lr_id r =? i)%Z then f r else r) <$> ls)) <=
   length (bfilter (fun r => negb (lr_id r =? i)%Z) (bfilter p ls)) +
   (if existsb (fun r => (lr_id r =? i)%Z && p (f r)) ls then 1 else 0))%nat.
Proof.
  induction ls as [|r ls IH]; intros Hn; [cbn; lia|]. apply NoDup_cons in Hn as [Hr Hn]. specialize (IH Hn).
  unfold bfilter in *. cbn [fmap list_fmap List.filter existsb].
  destruct (Z.eqb_spec (lr_id r) i) as [He|He]; cbn [andb].
  - assert (existsb (fun q => (lr_id q =? i)%Z && p (f q)) ls = false) as Hex.
    { apply existsb_false. intros q Hq. apply andb_false_iff. left. apply Z.eqb_neq. intros Hqi. apply Hr. rewrite He, <- Hqi.
      by apply list_elem_of_fmap_2. }
    rewrite Hex in IH |- *. rewrite orb_false_r. destruct (p (f r)), (p r); cbn [List.filter length];
      rewrite ?(proj2 (Z.eqb_eq _ _) He); cbn [negb length]; lia.
  - destruct (p r); cbn [List.filter]; rewrite ?(proj2 (Z.eqb_neq _ _) He); cbn [negb length orb]; lia.
Qed.

Lemma length_bfilter {A} (p : A -> bool) l : (length (bfilter p l) <= length l)%nat.
Proof. apply sublist_length, bfilter_sublist. Qed.

Lemma update_link_lines st id body st' : NoDup (lr_id <$> st_links st) -> update_link st id body = Ok st' ->
  lines_ok st -> lines_ok st'.
Proof.
  intros Hn (old & p & resetKeys & ma & mb & Hold & Hid & _ & Hv & ->)%update_link_inv.
  set (m := merge_link (lr_link old) p) in *. set (f := fun r : link_row => LinkRow (merge_link (lr_link r) p) _ _). set (st' := set_link _ _ _).
  apply lines_links; [done|]. intros x. rewrite !ifaceCount_up.
  change (st_links st') with ((fun r => if lr_id r =? id then f r else r) <$> st_links st).
  pose proof (length_replace (up_at x) id f (st_links st) Hn) as Hlen.
  destruct (existsb _ (st_links st)) eqn:Hex.
  - right. apply existsb_true in Hex as (r & Hr & [Hri%Z.eqb_eq Hup]%andb_true_iff).
    assert (r = old) as -> by (apply (same_row (st_links st)); [done..|congruence]).
    unfold up_at, side_of_agent in Hup. change (lr_link (f old)) with m in Hup. apply andb_true_iff in Hup as [He Hs].
    pose proof (validate_lines st m x Hv He Hs) as Ht. change (dl_id m) with (lr_id old) in Ht. rewrite Hid in Ht.
    etrans; [|exact Ht]. apply Z.mul_le_mono_nonneg_l; [apply total_nonneg|lia].
  - left. pose proof (length_bfilter (fun r => negb (lr_id r =? id)) (bfilter (up_at x) (st_links st))). lia.
Qed.

Lemma filter_links_lines st st' p : st_rules st' = st_rules st -> st_links st' = bfilter p (st_links st) -> lines_ok st -> lines_ok st'.
Proof.
  intros Hr Hl. apply lines_links; [done|]. intros id. left. rewrite !ifaceCount_up, Hl, bfilter_comm.
  pose proof (length_bfilter p (bfilter (up_at id) (st_links st))). lia.
Qed.

(** * The table of agents *)

(** A change of rows that keeps what the other services depend on. *)
Record quiet (g : agent_row -> agent_row) : Prop := Quiet {
  q_id : forall a, ag_id (g a) = ag_id a;
  q_deleted : forall a, ag_is_deleted (g a) = ag_is_deleted a;
  q_mode : forall a, ag_ingress_mode (g a) = ag_ingress_mode a }.

(** The tokens after the change: those of the same row, or the drawn one in one place. *)
Record tokens_from (draw : string) (g : agent_row -> agent_row) : Prop := TokensFrom {
  tf_id : forall a, ag_id (g a) = ag_id a;
  tf_deleted : forall a, ag_is_deleted a = true -> ag_is_deleted (g a) = true;
  tf_token : forall a col t, token_of col (g a) = Some t -> token_of col a = Some t \/ t = draw;
  tf_draw : exists i c, forall a col, token_of col (g a) = Some draw -> token_of col a = Some draw \/ (ag_id a = i /\ col = c) }.

(** A quiet change that keeps the tokens. *)
Definition plain_rows (g : agent_row -> agent_row) : Prop := quiet g /\ forall a col, token_of col (g a) = token_of col a.

Lemma plain_rows_id : plain_rows id.
Proof. by split. Qed.

Lemma plain_rows_compose g h : plain_rows g -> plain_rows h -> plain_rows (h ∘ g).
Proof.
  intros [[? ? ?] Hg] [[? ? ?] Hh]. split; [split; intros a; cbn; congruence|]. intros a col. cbn. by rewrite Hh, Hg.
Qed.

Lemma plain_rows_at i f : plain_rows f -> plain_rows (fun a => if ag_id a =? i then f a else a).
Proof. intros [[? ? ?] Hf]. split; [split|]; intros a; intros; by destruct (_ =? _). Qed.

Lemma plain_tokens draw g : plain_rows g -> tokens_from draw g.
Proof.
  intros [[Hi Hd _] Ht]. split; [done| | |].
  - intros a. by rewrite Hd.
  - intros a col t. rewrite Ht. by left.
  - exists 0, AgentToken. intros a col. rewrite Ht. by left.
Qed.

(** A handler that changes rows of agents only. *)
Record agents_only (R : (agent_row -> agent_row) -> Prop) (st st' : store) : Prop := AgentsOnly {
  ao_map : exists g, R g /\ st_agents st' = g <$> st_agents st;
  ao_rules : st_rules st' = st_rules st;
  ao_links : st_links st' = st_links st }.

Lemma patch_only (R : (agent_row -> agent_row) -> Prop) st id f :
  R (fun a => if ag_id a =? id then f a else a) -> agents_only R st (patch_agent st id f).
Proof. intros HR. split; [|done|done]. by exists (fun a => if ag_id a =? id then f a else a). Qed.

Lemma same_only st : agents_only plain_rows st st.
Proof. split; [|done|done]. exists id. split; [apply plain_rows_id|]. by rewrite list_fmap_id. Qed.

Lemma plain_trans st1 st2 st3 : agents_only plain_rows st1 st2 -> agents_only plain_rows st2 st3 -> agents_only plain_rows st1 st3.
Proof.
  intros [(g & Hg & H1) R1 L1] [(h & Hh & H2) R2 L2]. split; [|congruence|congruence].
  exists (h ∘ g). split; [by apply plain_rows_compose|]. by rewrite H2, H1, list_fmap_compose.
Qed.

Lemma store_config_plain sha256 text : plain_rows (store_config sha256 text).
Proof. split; [by split|]. by intros a []. Qed.

Lemma fmap_unique (g : agent_row -> agent_row) db : (forall a, ag_id (g a) = ag_id a) -> unique_ids db -> unique_ids (g <$> db).
Proof.
  intros Hg Hu. unfold unique_ids in *. rewrite <- list_fmap_compose. erewrite list_fmap_ext; [exact Hu|]. intros _ a _. apply Hg.
Qed.

Section handlers.
Context (sha256 : string -> string) (url_protocol : string -> option string) (host : string).

Lemma resync_plain st : unique_ids (st_agents st) -> agents_only plain_rows st (resync sha256 host st).
Proof.
  intros Hu. split; [|done|done]. exists (synced_row sha256 host (meshIndex (st_meta st))). split.
  - split; [split|]; intros a; intros; unfold synced_row; destruct (_ && _); try done; by destruct (patch_of _ _ _ _).
  - change (st_agents (resync sha256 host st)) with (syncAgentConfigs sha256 host (st_meta st) (st_agents st)).1.
    unfold syncAgentConfigs. by rewrite syncAgents_eq.
Qed.

Lemma resync_after st st' : unique_ids (st_agents st) -> agents_only plain_rows st st' ->
  agents_only plain_rows st (resync sha256 host st').
Proof.
  intros Hu H. eapply plain_trans; [exact H|]. apply resync_plain. destruct H as [(g & [[Hid _ _] _] & ->) _ _].
  by apply fmap_unique.
Qed.

Lemma apply_patch_plain p config : plain_rows (apply_patch sha256 p config).
Proof. split; [split|]; intros a; intros; unfold apply_patch; by destruct config as [t|], a; try destruct col. Qed.

Lemma update_agent_plain st id data st' : unique_ids (st_agents st) ->
  update_agent sha256 url_protocol host st id data = Ok st' -> agents_only plain_rows st st'.
Proof.
  intros Hu H. unfold update_agent in H. apply bind_Ok in H as (a & _ & H). apply bind_Ok in H as ([] & _ & H).
  apply bind_Ok in H as (p & _ & H). apply bind_Ok in H as ([] & _ & H). apply bind_Ok in H as (c & _ & H). injection H as <-.
  assert (agents_only plain_rows st (patch_agent st id (apply_patch sha256 p c))) as Hp.
  { apply patch_only, plain_rows_at, apply_patch_plain. }
  destruct (needs_resync a p); [by apply resync_after|exact Hp].
Qed.

Lemma rename_plain st o n : agents_only plain_rows st (renameLinkBinding st o n).
Proof.
  unfold renameLinkBinding. destruct (bool_decide _); [apply same_only|]. split; [|done|done]. exists (rename_row o n).
  split; [|done]. split; [split|]; intros a; intros; unfold rename_row; destruct (decide _);
    destruct a as [? ? ? ? ? ? ? ? ? ? ? ? ? ? ? ? ? ? ? ? ? ? ? ? ? []]; try destruct col; done.
Qed.

Lemma upload_plain st token data st' r : unique_ids (st_agents st) ->
  uploadConfig sha256 host st token data = Ok (st', r) -> agents_only plain_rows st st'.
Proof.
  intros Hu H. unfold uploadConfig in H. apply bind_Ok in H as (a & _ & H).
  destruct (decide _); [injection H as <- _; apply same_only|].
  destruct (vget data "config_text") as [| | | |text| |]; try done; try (injection H as <- _; apply same_only).
  destruct (decide _); [injection H as <- _; apply same_only|].
  apply bind_Ok in H as (i & _ & H). apply bind_Ok in H as (c & _ & H). injection H as <- _.
  assert (agents_only plain_rows st (patch_agent st (ag_id a) (store_config sha256 c))) as Hp.
  { apply patch_only, plain_rows_at, store_config_plain. }
  destruct (bool_decide _); [by apply resync_after|exact Hp].
Qed.
End handlers.

(** ** Tokens drawn and retired *)

Lemma tokens_at draw i f c :
  (forall a, ag_id (f a) = ag_id a) -> (forall a, ag_is_deleted a = true -> ag_is_deleted (f a) = true) ->
  (forall a col t, token_of col (f a) = Some t -> token_of col a = Some t \/ (t = draw /\ col = c)) ->
  tokens_from draw (fun a => if ag_id a =? i then f a else a).
Proof.
  intros Hid Hd Ht. split.
  - intros a. by destruct (_ =? _).
  - intros a. destruct (_ =? _); auto.
  - intros a col t. destruct (_ =? _); [|by left]. intros [?|[? _]]%Ht; auto.
  - exists i, c. intros a col. destruct (Z.eqb_spec (ag_id a) i) as [He|]; [|by left]. intros [?|[_ ?]]%Ht; auto.
Qed.

Lemma quiet_at i f : quiet f -> quiet (fun a => if ag_id a =? i then f a else a).
Proof. intros [? ? ?]. split; intros a; by destruct (_ =? _). Qed.

(** Rows change quietly, tokens as [tokens_from] allows. *)
Definition token_rows (draw : string) (g : agent_row -> agent_row) : Prop := quiet g /\ tokens_from draw g.

Lemma plain_token_rows draw st st' : agents_only plain_rows st st' -> agents_only (token_rows draw) st st'.
Proof.
  intros [(g & Hg & H) R L]. split; [|done|done]. exists g. split; [|done]. split; [apply Hg|by apply plain_tokens].
Qed.

Lemma register_rows st reg draw st' r : register st reg draw = Ok (st', r) -> agents_only (token_rows draw) st st'.
Proof.
  intros H. unfold register in H. apply bind_Ok in H as (a & _ & H).
  destruct (decide _); injection H as <- _; [|apply plain_token_rows, same_only].
  apply patch_only. split; [by apply quiet_at|]. apply (tokens_at draw _ _ AgentToken); [done|done|].
  intros b [] t; cbn; [|by left]. intros [= <-]. by right.
Qed.

Lemma reset_rows st id draw st' : resetToken st id draw = Ok st' -> agents_only (token_rows draw) st st'.
Proof.
  intros H. unfold resetToken in H. apply bind_Ok in H as (a & _ & H). injection H as <-.
  apply patch_only. split; [by apply quiet_at|]. apply (tokens_at draw _ _ RegToken); [done|done|].
  intros b [] t; cbn; [done|]. intros [= <-]. by right.
Qed.

Lemma getConfig_rows sha256 st token urls draw st' r : getConfig sha256 st token urls = Ok (st', r) ->
  agents_only (token_rows draw) st st'.
Proof.
  intros H. unfold getConfig in H. apply bind_Ok in H as (a & _ & H). injection H as <- _.
  destruct (decide _); [apply plain_token_rows, same_only|].
  apply patch_only. split; [by apply quiet_at|]. apply (tokens_at draw _ _ RegToken); [done|done|].
  intros b [] t; cbn; [by left|done].
Qed.

(** ** Live agents *)

Lemma live_agent_fmap (g : agent_row -> agent_row) id db : (forall a, ag_id (g a) = ag_id a) -> (forall a, ag_is_deleted (g a) = ag_is_deleted a) ->
  live_agent id (g <$> db) = g <$> live_agent id db.
Proof.
  intros Hi Hd. unfold live_agent, first_row, bfind. induction db as [|a db IH]; [done|]. cbn.
  rewrite Hi, Hd. by destruct (_ && _).
Qed.

Lemma live_agent_app id db a : live_agent id (db ++ [a]) = match live_agent id db with
  | Some b => Some b
  | None => if (ag_id a =? id) && negb (ag_is_deleted a) then Some a else None
  end.
Proof.
  unfold live_agent, first_row, bfind. induction db as [|b db IH]; cbn; [by destruct (_ && _)|].
  destruct ((ag_id b =? id) && negb (ag_is_deleted b)); [done|exact IH].
Qed.

Lemma live_agent_retire id i force db : live_agent id (patch_row i (retire force) db) =
  if id =? i then None else live_agent id db.
Proof.
  unfold live_agent, first_row, bfind, patch_row. induction db as [|a db IH]; cbn; [by destruct (_ =? _)|].
  destruct (Z.eqb_spec (ag_id a) i) as [He|He].
  - assert (ag_id (retire force a) = ag_id a /\ ag_is_deleted (retire force a) = true) as [-> ->] by (by destruct force).
    rewrite He. destruct (Z.eqb_spec i id) as [->|Hne]; cbn [negb andb]; [|exact IH]. rewrite Z.eqb_refl in IH |- *. exact IH.
  - destruct (Z.eqb_spec (ag_id a) id) as [Hid|Hid]; cbn [andb]; [|exact IH].
    destruct (ag_is_deleted a); cbn [negb]; [exact IH|]. by rewrite (proj2 (Z.eqb_neq id i)) by congruence.
Qed.

Lemma quiet_ingress st st' g f : ingress_ok st -> st_agents st' = g <$> st_agents st -> quiet g ->
  st_rules st' = f <$> st_rules st -> same_shape f -> ingress_ok st'.
Proof.
  intros Hok Ha [Hi Hd Hm] Hr Hf. apply (ingress_frame st st' f); [done|done|done|..]; intros id; rewrite Ha, live_agent_fmap by done.
  - by intros [a ->].
  - intros a' (a & Hla & ->)%fmap_Some. rewrite Hm. by exists a.
Qed.

Lemma agents_only_ingress R st st' : (forall g, R g -> quiet g) -> agents_only R st st' -> ingress_ok st -> ingress_ok st'.
Proof.
  intros HR [(g & Hg & Ha) Hr _] Hok. apply (quiet_ingress st st' g id); [done|done|by apply HR|by rewrite list_fmap_id|done].
Qed.

Lemma frame_lines st st' f : lines_ok st -> st_rules st' = f <$> st_rules st -> same_shape f ->
  (forall id, ifaceCountOf id st' <= ifaceCountOf id st) -> lines_ok st'.
Proof. intros Hl Hr Hf Hi id. apply (lines_le st); [done| |done]. by rewrite (shapes_map f st st'). Qed.

Lemma frame_hub st st' f : hub_lines_ok st -> st_rules st' = f <$> st_rules st -> same_shape f -> hub_lines_ok st'.
Proof. intros Hl Hr Hf id. rewrite (shapes_map f st st') by done. apply Hl. Qed.

Lemma agents_only_hub R st st' : agents_only R st st' -> hub_lines_ok st -> hub_lines_ok st'.
Proof. intros [_ Hr _] Hok. apply (frame_hub st st' id); [done|by rewrite Hr, list_fmap_id|done]. Qed.

Lemma agents_only_lines R st st' : agents_only R st st' -> lines_ok st -> lines_ok st'.
Proof.
  intros [_ Hr Hl] Hok. apply (frame_lines st st' id); [done|by rewrite Hr, list_fmap_id|done|].
  intros id. rewrite !ifaceCount_up, Hl. lia.
Qed.

(** ** The invariant of the tokens *)

(** Every token in the table was drawn, and no token stands in two places. *)
Record tokens_ok (used : list string) (db : agent_db) : Prop := TokensOk {
  to_used : forall a col t, a ∈ db -> token_of col a = Some t -> t ∈ used;
  to_unique : forall a b col col' t, a ∈ db -> b ∈ db -> token_of col a = Some t -> token_of col' b = Some t ->
    ag_id a = ag_id b /\ col = col' }.

(** No live agent holds the token. *)
Definition revoked (t : string) (db : agent_db) : Prop :=
  forall a col, a ∈ db -> ag_is_deleted a = false -> token_of col a <> Some t.

(** The two ways the table of agents changes. *)
Inductive agents_change (draw : string) (db : agent_db) : agent_db -> Prop :=
| ChangeRows g : tokens_from draw g -> agents_change draw db (g <$> db)
| ChangeNew a : ag_id a ∉ (ag_id <$> db) -> (forall col t, token_of col a = Some t -> col = RegToken /\ t = draw) ->
    agents_change draw db (db ++ [a]).

Lemma change_unique draw db db' : agents_change draw db db' -> unique_ids db -> unique_ids db'.
Proof.
  intros [g [Hi _ _ _]|a Ha _] Hu; [by apply fmap_unique|]. unfold unique_ids in *. rewrite fmap_app. apply NoDup_app.
  split_and!; [done| |apply NoDup_singleton]. intros x Hx ->%list_elem_of_singleton. by apply Ha.
Qed.

Lemma change_tokens draw used db db' : agents_change draw db db' -> draw ∉ used -> tokens_ok used db -> tokens_ok (draw :: used) db'.
Proof.
  intros [g [Hi _ Ht (i & c & Hd)]|a _ Hn] Hdraw [Hused Huniq].
  - assert (forall a col, a ∈ db -> token_of col a <> Some draw) as Hfresh by (intros a col Ha He; by apply Hdraw, (Hused a col)).
    split.
    + intros a' col t (a & -> & Ha)%list_elem_of_fmap [He| ->]%Ht; [right; by apply (Hused a col)|left].
    + intros a' b' col col' t (a & -> & Ha)%list_elem_of_fmap (b & -> & Hb)%list_elem_of_fmap Hta Htb. rewrite !Hi.
      destruct (decide (t = draw)) as [->|Hne].
      * destruct (Hd a col Hta) as [?|[<- ->]]; [by destruct (Hfresh a col)|].
        destruct (Hd b col' Htb) as [?|[-> ->]]; [by destruct (Hfresh b col')|done].
      * apply Ht in Hta as [Hta|?]; [|done]. apply Ht in Htb as [Htb|?]; [|done]. by apply (Huniq a b col col' t).
  - assert (forall b col, b ∈ db -> token_of col b <> Some draw) as Hfresh by (intros b col Hb He; by apply Hdraw, (Hused b col)).
    split.
    + intros b col t [Hb| ->%list_elem_of_singleton]%elem_of_app Ht; [right; by apply (Hused b col)|].
      apply Hn in Ht as [_ ->]. left.
    + intros b b' col col' t [Hb| ->%list_elem_of_singleton]%elem_of_app [Hb'| ->%list_elem_of_singleton]%elem_of_app Ht Ht'.
      * by apply (Huniq b b' col col' t).
      * apply Hn in Ht' as [_ ->]. by destruct (Hfresh b col).
      * apply Hn in Ht as [_ ->]. by destruct (Hfresh b' col').
      * apply Hn in Ht as [-> _], Ht' as [-> _]. done.
Qed.

Lemma change_revoked draw t db db' : agents_change draw db db' -> t <> draw -> revoked t db -> revoked t db'.
Proof.
  intros [g [_ Hdel Ht _]|a _ Hn] Hne Hr.
  - intros a' col (a & -> & Ha)%list_elem_of_fmap Hd He. apply Ht in He as [He|?]; [|done].
    apply (Hr a col Ha); [|done]. destruct (ag_is_deleted a) eqn:Hda; [|done]. by rewrite (Hdel a Hda) in Hd.
  - intros b col [Hb| ->%list_elem_of_singleton]%elem_of_app Hd He; [by apply (Hr b col)|]. by apply Hn in He as [_ ?].
Qed.

Lemma agents_only_change R draw st st' : (forall g, R g -> tokens_from draw g) -> agents_only R st st' ->
  agents_change draw (st_agents st) (st_agents st').
Proof. intros HR [(g & Hg & ->) _ _]. by apply ChangeRows, HR. Qed.

Lemma no_change draw db : agents_change draw db db.
Proof. rewrite <- (list_fmap_id db) at 2. apply ChangeRows, plain_tokens, plain_rows_id. Qed.

Lemma revoked_refused col t db : revoked t db -> requireAgentByToken col (VStr t) db = Throw (EAuth (auth_message col)).
Proof.
  intros Hr. unfold requireAgentByToken. destruct (negb _); [done|]. cbn. destruct (first_row _ db) as [a|] eqn:Hf; [|done].
  apply first_row_Some in Hf as [Ha [Ht Hd]%andb_true_iff]. apply bool_decide_eq_true in Ht. apply negb_true_iff in Hd.
  by destruct (Hr a col Ha Hd).
Qed.

(** ** Creation, deletion, mode and report *)

Lemma create_agent_inv url st id data draw st' : create_agent url st id data draw = Ok st' -> exists a,
  st' = with_agents st (st_agents st ++ [a]) /\ ag_id a = id /\ ag_ingress_mode a = "open" /\
  forall col t, token_of col a = Some t -> col = RegToken /\ t = draw.
Proof.
  intros H. unfold create_agent in H. do 9 (apply bind_Ok in H as (? & _ & H)). injection H as <-.
  eexists. split; [done|]. split_and!; [done|done|]. by intros [] t; cbn; [|intros [= <-]].
Qed.

Lemma create_agent_ingress url st id data draw st' : create_agent url st id data draw = Ok st' -> ingress_ok st -> ingress_ok st'.
Proof.
  intros (a & -> & _ & Hm & _)%create_agent_inv Hok. apply (ingress_frame st _ (fun e => e)); [done|symmetry; apply list_fmap_id|done|..];
    intros i; change (st_agents (with_agents st ?db)) with (st_agents st ++ [a]); rewrite live_agent_app.
  - by intros [b ->].
  - intros b. destruct (live_agent i (st_agents st)); [intros [= ->]; eauto|]. destruct (_ && _); [|done]. intros [= <-]. congruence.
Qed.

Lemma setMode_rows st id mode draw st' : setMode st id mode = Ok st' ->
  agents_change draw (st_agents st) (st_agents st') /\ (ingress_ok st -> ingress_ok st').
Proof.
  intros (a & m & Ha & -> & Hm)%setMode_inv. split.
  { apply ChangeRows. apply (tokens_at draw _ _ AgentToken); [done|done|]. intros b [] t; by left. }
  intros [H1 H2 H3 H4]. assert (forall i, live_agent i (patch_row id (set_mode m) (st_agents st)) =
    (fun b => if ag_id b =? id then set_mode m b else b) <$> live_agent i (st_agents st)) as Hl.
  { intros i. apply live_agent_fmap; intros b; by destruct (_ =? _). }
  split; [done| |done|].
  - intros e He. change (st_agents (with_agents st ?db)) with db. rewrite Hl. destruct (H2 e He) as [b ->]. by eexists.
  - intros i b'. change (st_agents (with_agents st ?db)) with (patch_row id (set_mode m) (st_agents st)). rewrite Hl.
    intros (b & Hb & ->)%fmap_Some. pose proof Hb as (_ & _ & Hi & _)%live_agent_Some. rewrite Hi.
    destruct (Z.eqb_spec i id) as [->|Hne]; [cbn; apply Hm|]. by apply (H4 i b).
Qed.

(** What holds as long as nothing comes in between the check and the write of a link. *)
Record in_order (st : store) : Prop := InOrder {
  or_lines : lines_ok st;
  or_links : links_ok (st_links st);
  or_named : Forall (fun r => 1 <= lr_id r <= MAX_DIRECT_LINK_ID) (st_links st) }.

(** The tables of rules and links; [serial]: no call on a link was interrupted so far. *)
Record tables_ok (serial : bool) (st : store) : Prop := TablesOk {
  tb_ingress : ingress_ok st;
  tb_hub : hub_lines_ok st;
  tb_sane : rules_sane st;
  tb_order : serial = true -> in_order st }.

Lemma Forall_map_le {A} (P : A -> Prop) f l : (forall x, P x -> P (f x)) -> Forall P l -> Forall P (f <$> l).
Proof. intros Hf H. apply Forall_fmap. by eapply Forall_impl. Qed.

Lemma Forall_bfilter {A} (P : A -> Prop) p l : Forall P l -> Forall P (bfilter p l).
Proof. rewrite !Forall_forall. intros H x [Hx _]%elem_of_bfilter. auto. Qed.

Lemma policy_rule_ok e e' : policy_rule e' = policy_rule e -> rule_ok (re_rule e) -> rule_ok (re_rule e').
Proof.
  destruct e as [? []], e' as [? []]. unfold policy_rule, rule_ok. cbn -[mapM]. intros [= -> -> -> -> -> -> -> -> ->]. done.
Qed.

Lemma report_rows url draw st token data now st' : heartbeat url st token data now = Ok st' ->
  agents_change draw (st_agents st) (st_agents st') /\ forall serial, tables_ok serial st -> tables_ok serial st'.
Proof.
  intros (a & f & g & _ & Ha & Hr & Hf & Hl & Hg & _)%heartbeat_rows.
  assert (same_shape f) as Hsf.
  { intros e. destruct (Hf e) as [He _]. destruct (f e) as [? []], e as [? []]. unfold policy_rule in He. cbn in He.
    injection He as -> -> -> -> -> -> -> -> ->. done. }
  assert (plain_rows (heartbeat_patch url data now)) as Hp.
  { split; [split|]; intros b; intros; pose proof (heartbeat_policy url data now b) as He; destruct (heartbeat_patch url data now b), b;
      unfold policy in He; cbn in He; injection He; intros; subst; try destruct col; done. }
  apply (plain_rows_at (ag_id a)) in Hp. split; [rewrite Ha; by apply ChangeRows, plain_tokens|].
  intros serial [Hi Hh Hs Ho]. split.
  - by apply (quiet_ingress st st' _ f Hi Ha (proj1 Hp)).
  - by apply (frame_hub st st' f).
  - unfold rules_sane. rewrite Hr. apply Forall_map_le; [|done]. intros e. apply policy_rule_ok, Hf.
  - intros Hserial. destruct (Ho Hserial) as [Hln Hlk Hn]. split.
    + apply (frame_lines st st' f); [done..|]. intros id. rewrite !ifaceCount_up, Hl, bfilter_fmap, length_fmap.
      rewrite (bfilter_ext _ (up_at id)); [lia|]. intros r _. unfold up_at, side_of_agent. by rewrite (proj1 (Hg r)).
    + rewrite Hl. by apply same_links_ok; [apply Hg|].
    + rewrite Hl. apply Forall_map_le; [|done]. intros r. unfold lr_id. by rewrite (proj1 (Hg r)).
Qed.

Lemma delete_agent_inv sha256 st id force now st' : delete_agent sha256 st id force now = Ok st' ->
  st' = {| st_agents := patch_row id (retire force) (st_agents st);
           st_rules := bfilter (fun e => negb (re_agent_id e =? id)) (st_rules st);
           st_links := bfilter (fun r => negb (side_of_agent id r)) (st_links st);
           st_pairs := st_pairs st; st_meta := st_meta st |}.
Proof.
  intros H. unfold delete_agent in H. apply bind_Ok in H as (a & _ & H). destruct (deleteBlocker _ _ _ _ _) as [[]|]; [done|].
  by injection H as <-.
Qed.

Lemma delete_agent_rows sha256 st id force now draw st' : delete_agent sha256 st id force now = Ok st' ->
  agents_change draw (st_agents st) (st_agents st') /\ forall serial, tables_ok serial st -> tables_ok serial st'.
Proof.
  intros ->%delete_agent_inv. set (st' := {| st_agents := _ |}).
  assert (forall i, shapes i st' `sublist_of` shapes i st) as Hsub by (intros i; by eapply shapes_filter_sub).
  assert (forall i, i <> id -> shapes i st' = shapes i st) as Hs.
  { intros i Hd. rewrite (shapes_filter _ st st' i eq_refl), bfilter_all.
    { unfold shapes, rules_of. by rewrite <- list_fmap_compose. }
    intros e [_ He%Z.eqb_eq]%elem_of_bfilter. apply negb_true_iff, Z.eqb_neq. congruence. }
  split.
  { apply ChangeRows. apply (tokens_at draw _ _ AgentToken); [by destruct force..|].
    intros a [] t; destruct force; cbn; by first [left|intros ?]. }
  intros serial [[H1 H2 H3 H4] Hh Hsane Ho]. split.
  - split.
    + eapply sublist_NoDup; [exact H1|]. apply fmap_sublist, bfilter_sublist.
    + intros e [He Hid%negb_true_iff%Z.eqb_neq]%elem_of_bfilter. cbn [st_agents st']. rewrite live_agent_retire.
      rewrite (proj2 (Z.eqb_neq _ _)) by congruence. by apply H2.
    + intros i. etrans; [|apply (H3 i)]. apply Nat2Z.inj_le, sublist_length, Hsub.
    + intros i a. cbn [st_agents st']. rewrite live_agent_retire. destruct (Z.eqb_spec i id); [intros [=]|].
      rewrite Hs by done. apply H4.
  - intros i. etrans; [|apply (Hh i)]. apply total_sublist; [apply Hsub|apply shapes_nonneg].
  - by apply Forall_bfilter.
  - intros Hserial. destruct (Ho Hserial) as [Hl Hk Hn]. split.
    + intros i. apply (lines_le st); [done| |].
      * apply total_sublist; [apply Hsub|apply shapes_nonneg].
      * rewrite !ifaceCount_up. cbn [st_links st']. rewrite bfilter_comm.
        pose proof (length_bfilter (fun r => negb (side_of_agent id r)) (bfilter (up_at i) (st_links st))). lia.
    + by apply filter_links_ok.
    + by apply Forall_bfilter.
Qed.

(** * The system *)

(** Everything a handler needs of the tables. *)
Record inv (serial : bool) (st : store) : Prop := Inv {
  inv_ids : unique_ids (st_agents st);
  inv_tables : tables_ok serial st }.

(** What a step leaves: tokens as drawn, the tables in order. *)
Definition step_ok (serial : bool) (draw : string) (st st' : store) : Prop :=
  agents_change draw (st_agents st) (st_agents st') /\ tables_ok serial st'.

Lemma step_ok_inv serial draw st st' : inv serial st -> step_ok serial draw st st' -> inv serial st'.
Proof. intros [Hu _] [Hc Ht]. split; [by apply (change_unique draw (st_agents st))|done]. Qed.

(** The links stay what they are. *)
Lemma same_links_order st st' : in_order st -> lines_ok st' -> st_links st' = st_links st -> in_order st'.
Proof. intros [_ Hk Hn] Hl He. by split; [done|rewrite He..]. Qed.

Lemma rules_step_ok serial draw id st st' : inv serial st -> rules_changed id st st' -> step_ok serial draw st st'.
Proof.
  intros [_ [Hi Hh Hs Ho]] H. split; [rewrite (rc_agents _ _ _ H); apply no_change|]. split.
  - by apply (rules_changed_ok id st).
  - by apply (rules_changed_hub id st).
  - by apply (rc_sane _ _ _ H).
  - intros Hserial. specialize (Ho Hserial). apply (same_links_order st); [done| |apply (rc_links _ _ _ H)].
    apply (rules_changed_lines id st); [done|apply Ho].
Qed.

Lemma agents_step_ok serial draw st st' : inv serial st -> agents_only (token_rows draw) st st' -> step_ok serial draw st st'.
Proof.
  intros [_ [Hi Hh Hs Ho]] H. split.
  { apply (agents_only_change (token_rows draw)); [|done]. by intros g [_ ?]. }
  split.
  - apply (agents_only_ingress (token_rows draw) st); [|done..]. by intros g [? _].
  - by apply (agents_only_hub (token_rows draw) st).
  - unfold rules_sane. by rewrite (ao_rules _ _ _ H).
  - intros Hserial. specialize (Ho Hserial). apply (same_links_order st); [done| |apply (ao_links _ _ _ H)].
    apply (agents_only_lines (token_rows draw) st); [done|apply Ho].
Qed.

Lemma plain_step_ok serial draw st st' : inv serial st -> agents_only plain_rows st st' -> step_ok serial draw st st'.
Proof. intros Hi H. by apply agents_step_ok, plain_token_rows. Qed.

(** A change of the links alone. *)
Lemma links_step_ok serial draw st st' : inv serial st -> st_agents st' = st_agents st -> st_rules st' = st_rules st ->
  (serial = true -> in_order st -> in_order st') -> step_ok serial draw st st'.
Proof.
  intros [_ [Hi Hh Hs Ho]] Ha Hr Hl. split; [rewrite Ha; apply no_change|]. split; [| |by unfold rules_sane; rewrite Hr|auto].
  - apply (quiet_ingress st st' (fun a => a) (fun e => e)); [done| |by split| |done]; rewrite list_fmap_id; done.
  - apply (frame_hub st st' (fun e => e)); [done|by rewrite Hr, list_fmap_id|done].
Qed.

Lemma named_nonzero (ls : list link_row) : Forall (fun r => 1 <= lr_id r <= MAX_DIRECT_LINK_ID) ls -> 0 ∉ (lr_id <$> ls).
Proof. rewrite Forall_forall. intros H (r & Hz & Hr)%list_elem_of_fmap. specialize (H r Hr). lia. Qed.

(** A creation, an update and a deletion that nothing comes in between keep the order. *)
Lemma create_link_order st id body st' : 1 <= id -> id ∉ (lr_id <$> st_links st) -> create_link st id body = Ok st' -> in_order st -> in_order st'.
Proof.
  intros Hpos Hid H [Hl Hk Hn]. pose proof (named_nonzero _ Hn) as H0. split; [by eapply create_link_lines|by apply (create_links_ok st id body st')|].
  apply create_link_inv in H as (p & _ & _ & Hmax & ->). apply Forall_app. split; [done|]. by apply Forall_singleton.
Qed.

Lemma update_link_order st id body st' : update_link st id body = Ok st' -> in_order st -> in_order st'.
Proof.
  intros H [Hl Hk Hn]. split; [eapply update_link_lines; [apply Hk|done..]|by eapply update_links_ok|].
  apply update_link_inv in H as (old & p & resetKeys & ma & mb & _ & _ & _ & _ & ->). apply Forall_fmap.
  eapply Forall_impl; [exact Hn|]. intros r Hr. cbn. by destruct (_ =? _).
Qed.

Lemma drop_link_order st id : in_order st -> in_order (drop_link st id).
Proof.
  intros [Hl Hk Hn]. split; [by apply (filter_links_lines st _ (fun r => negb (lr_id r =? id)))|by apply filter_links_ok|by apply Forall_bfilter].
Qed.

Section system.
Context (sha256 : string -> string) (url_protocol : string -> option string) (host : string).

(** One handler call, with the token it may draw; the calls on links are not one step, see
    [link_checked] below. The last three are the writes of other parts of the hub: its metadata, the pairs of separated sites, and the sync of the
    agents' configs after either. *)
Inductive handler_step (draw : string) (st : store) : store -> Prop :=
| StepCreate id data st' : id ∉ (ag_id <$> st_agents st) -> create_agent url_protocol st id data draw = Ok st' -> handler_step draw st st'
| StepUpdate id data st' : update_agent sha256 url_protocol host st id data = Ok st' -> handler_step draw st st'
| StepRename oldName newName : handler_step draw st (renameLinkBinding st oldName newName)
| StepDelete id force now st' : delete_agent sha256 st id force now = Ok st' -> handler_step draw st st'
| StepReset id st' : resetToken st id draw = Ok st' -> handler_step draw st st'
| StepRegister token st' r : register st token draw = Ok (st', r) -> handler_step draw st st'
| StepPoll token urls st' r : getConfig sha256 st token urls = Ok (st', r) -> handler_step draw st st'
| StepReport token data now st' : heartbeat url_protocol st token data now = Ok st' -> handler_step draw st st'
| StepUpload token data st' r : uploadConfig sha256 host st token data = Ok (st', r) -> handler_step draw st st'
| StepMode id mode st' : setMode st id mode = Ok st' -> handler_step draw st st'
| StepRuleCreate agentId data id now st' : 1 <= id -> id ∉ (entry_id <$> st_rules st) -> create_rule st agentId data id now = Ok st' ->
    handler_step draw st st'
| StepRuleUpdate agentId ruleId data now st' : update_rule st agentId ruleId data now = Ok st' -> handler_step draw st st'
| StepRuleDelete agentId ruleId st' : delete_rule st agentId ruleId = Ok st' -> handler_step draw st st'
| StepBulkCreate agentId l ids now st' plan : NoDup ids -> (forall i, i ∈ ids -> 1 <= i /\ i ∉ (entry_id <$> st_rules st)) ->
    length ids = length (bp_create plan) -> createBulk st agentId l ids now = Ok (st', plan) -> handler_step draw st st'
| StepBulkDisable agentId ids prune st' : disableBulk st agentId ids prune = Ok st' -> handler_step draw st st'
| StepMeta meta : handler_step draw st { st with st_meta := meta }
| StepPairs pairs : handler_step draw st { st with st_pairs := pairs }
| StepSync : handler_step draw st (resync sha256 host st).

Lemma handler_step_ok serial draw st st' : inv serial st -> handler_step draw st st' -> step_ok serial draw st st'.
Proof.
  intros Hi H. pose proof Hi as [Hu Ht]. pose proof Ht as [Hg Hh Hs Ho]. destruct H as
    [id data st' Hid H|id data st' H|o n|id force now st' H|id st' H|token st' r H|token urls st' r H|token data now st' H
    |token data st' r H|id mode st' H|agentId data id now st' Hpos Hid H|agentId ruleId data now st' H|agentId ruleId st' H
    |agentId l ids now st' plan Hnd Hids _ H|agentId ids prune st' H|meta|pairs|].
  - pose proof H as (a & -> & <- & _ & Hta)%create_agent_inv. split; [by apply ChangeNew|]. split; [by eapply create_agent_ingress|done|done|].
    intros Hserial. specialize (Ho Hserial). apply (same_links_order st); [done| |done].
    apply (frame_lines st _ (fun e => e)); [apply Ho|symmetry; apply list_fmap_id|done|done].
  - by apply plain_step_ok, (update_agent_plain sha256 url_protocol host _ id data).
  - by apply plain_step_ok, rename_plain.
  - apply (delete_agent_rows _ _ _ _ _ draw) in H as [? ?]. split; auto.
  - by apply agents_step_ok; [|eapply reset_rows].
  - by apply agents_step_ok; [|eapply register_rows].
  - by apply agents_step_ok; [|eapply getConfig_rows].
  - apply (report_rows _ draw) in H as [? ?]. split; auto.
  - by apply plain_step_ok, (upload_plain sha256 host _ token data st' r).
  - pose proof H as (a & m & _ & Heq & _)%setMode_inv. apply (setMode_rows _ _ _ draw) in H as [? ?]. split; [done|].
    split; [auto|by subst st'|by subst st'|]. subst st'. intros Hserial. specialize (Ho Hserial). apply (same_links_order st); [done| |done].
    apply (frame_lines st _ (fun e => e)); [apply Ho|symmetry; apply list_fmap_id|done|done].
  - by apply (rules_step_ok _ _ agentId), (create_rule_changed _ _ data id now).
  - apply (rules_step_ok _ _ agentId), (update_rule_changed _ _ ruleId data now); [done|apply Hg|done].
  - apply (rules_step_ok _ _ agentId), (delete_rule_changed _ _ ruleId); [done|apply Hg|done].
  - by apply (rules_step_ok _ _ agentId), (createBulk_changed _ _ l ids now _ plan).
  - by apply (rules_step_ok _ _ agentId), (disableBulk_changed _ _ ids prune).
  - apply links_step_ok; [done..|]. intros _ [? ? ?]. by split.
  - apply links_step_ok; [done..|]. intros _ [? ? ?]. by split.
  - by apply plain_step_ok, resync_plain.
Qed.

(** What a call on a link found in order at some moment, and will write. *)
Inductive link_checked (st : store) : link_write -> Prop :=
| CheckedCreate body w : check_create st body = Ok w -> link_checked st w
| CheckedUpdate id body w : check_update st id body = Ok w -> link_checked st w
| CheckedDelete id w : check_delete st id = Ok w -> link_checked st w.

(** Whatever it writes whenever, it touches links only. *)
Lemma write_link_ok draw st id w : inv false st -> step_ok false draw st (write_link st id w).1.
Proof. intros Hi. by destruct w; apply links_step_ok. Qed.

(** A call on a link that nothing comes in between. *)
Inductive link_call (st : store) : store -> Prop :=
| CallCreate id body st' : 1 <= id -> id ∉ (lr_id <$> st_links st) -> create_link st id body = Ok st' -> link_call st st'
| CallUpdate id body st' : update_link st id body = Ok st' -> link_call st st'
| CallDelete id st' : delete_link st id = Ok st' -> link_call st st'.

Lemma link_call_ok serial draw st st' : inv serial st -> link_call st st' -> step_ok serial draw st st'.
Proof.
  intros Hi [id body st1 Hpos Hid H|id body st1 H|id st1 H].
  - pose proof H as (p & _ & _ & _ & Heq)%create_link_inv. apply links_step_ok; [done|by subst st1..|].
    intros _. by eapply create_link_order.
  - pose proof H as (old & p & resetKeys & ma & mb & _ & _ & _ & _ & Heq)%update_link_inv.
    apply links_step_ok; [done|by subst st1..|]. intros _. by eapply update_link_order.
  - apply delete_link_inv in H as ->. apply links_step_ok; [done..|]. intros _. apply drop_link_order.
Qed.

End system.
