(* ===== verification/AgentHistory.v ===== *)
(** The histories of the agent services: the states the handlers of [AgentSystem] can reach
    from empty tables, and what holds in all of them.

    [sys] adds to the tables the tokens drawn so far, of which a step draws a new one, and the
    writes of links that were checked and are still to come. *)

From S2P Require Import Prelude.
From S2P Require Import JsString.
From S2P Require Import JsRegex.
From S2P Require Import JsVal.
From S2P Require Import IngressRules.
From S2P Require Import DirectLink.
From S2P Require Import WgConf.
From S2P Require Import AgentText.
From S2P Require Import AgentMesh.
From S2P Require Import AgentStore.
From S2P Require Import AgentLinks.
From S2P Require Import AgentIngress.
From S2P Require Import AgentService.
From S2P Require Import AgentSystem.

Local Open Scope Z_scope.

(** * Histories *)

Record sys := Sys { sy_store : store; sy_used : list string; sy_pending : list link_write }.

Definition empty_store : store := Store [] [] [] [] [].
Definition empty_sys : sys := Sys empty_store [] [].

Section history.
Context (sha256 : string -> string) (url_protocol : string -> option string) (host : string).

(** A handler, but a call on a link is two steps or three: it checks, later it writes, and over the
    limit of the ids it deletes what it wrote. *)
Inductive sys_step : sys -> sys -> Prop :=
| SysStep bytes st st' used pending : String.length bytes = 32%nat -> randomToken bytes ∉ used ->
    handler_step sha256 url_protocol host (randomToken bytes) st st' ->
    sys_step (Sys st used pending) (Sys st' (randomToken bytes :: used) pending)
| SysCheck st used pending w : link_checked st w -> sys_step (Sys st used pending) (Sys st used (w :: pending))
| SysWrite st used before w after id : match w with InsertLink _ => 1 <= id /\ id ∉ (lr_id <$> st_links st) | _ => True end ->
    sys_step (Sys st used (before ++ w :: after))
      (Sys (write_link st id w).1 used (before ++ match (write_link st id w).2 with Some d => d :: after | None => after end)).

Definition reachable (s : sys) : Prop := rtc sys_step empty_sys s.

(** A history in which nothing comes in between the check and the write of a link. *)
Inductive serial_step : sys -> sys -> Prop :=
| SerialStep bytes st st' used : String.length bytes = 32%nat -> randomToken bytes ∉ used ->
    handler_step sha256 url_protocol host (randomToken bytes) st st' ->
    serial_step (Sys st used []) (Sys st' (randomToken bytes :: used) [])
| SerialCall st st' used : link_call st st' -> serial_step (Sys st used []) (Sys st' used []).

Definition serially_reachable (s : sys) : Prop := rtc serial_step empty_sys s.

Lemma serial_steps s s' : serial_step s s' -> rtc sys_step s s'.
Proof.
  intros [bytes st st1 used Hb Hn H|st st1 used H]; [by apply rtc_once, SysStep|].
  destruct H as [id body st1 Hpos Hid H|id body st1 H|id st1 H].
  - unfold create_link in H. apply bind_Ok in H as (w & Hw & H). destruct (write_link st id w) as [st2 [d|]] eqn:Hl; [done|]. injection H as <-.
    apply (rtc_l _ _ (Sys st used [w])); [by eapply SysCheck, CheckedCreate|]. apply rtc_once.
    pose proof (SysWrite st used [] w [] id) as Hs. rewrite Hl in Hs. apply Hs. by destruct w.
  - unfold update_link in H. apply bind_Ok in H as (w & Hw & [= <-]). apply (rtc_l _ _ (Sys st used [w])); [by eapply SysCheck, CheckedUpdate|].
    assert (exists i p r ma mb, w = PatchLink i p r ma mb) as (i & p & r & ma & mb & ->).
    { unfold check_update in Hw. inv_ok. by eexists _, _, _, _, _. }
    apply rtc_once. by apply (SysWrite st used [] (PatchLink i p r ma mb) [] id).
  - unfold delete_link in H. apply bind_Ok in H as (w & Hw & [= <-]). apply (rtc_l _ _ (Sys st used [w])); [by eapply SysCheck, CheckedDelete|].
    assert (w = DropLink id) as -> by (unfold check_delete in Hw; inv_ok; done).
    apply rtc_once. by apply (SysWrite st used [] (DropLink id) [] id).
Qed.

Lemma serial_reachable s : serially_reachable s -> reachable s.
Proof.
  unfold serially_reachable, reachable. intros H. induction H as [s|s1 s2 s3 H _ IH]; [apply rtc_refl|].
  etrans; [by apply serial_steps|exact IH].
Qed.

(** ** The tokens drawn *)

Lemma randomToken_length bytes : String.length (randomToken bytes) = (2 * String.length bytes)%nat.
Proof.
  induction bytes as [|c s IH]; [done|]. change (randomToken (String c s)) with
    (String (Json.hex_digit (code c / 16)) (String (Json.hex_digit (code c mod 16)) (randomToken s))).
  cbn [String.length]. rewrite IH. lia.
Qed.

Lemma randomToken_hex bytes : sall is_hex (randomToken bytes) = true.
Proof. apply sall_smap. apply forall_char. vm_compute. reflexivity. Qed.

Lemma randomToken_well_formed bytes : String.length bytes = 32%nat -> isWellFormedToken (VStr (randomToken bytes)) = true.
Proof. intros H. cbn [isWellFormedToken]. by rewrite randomToken_hex, randomToken_length, H. Qed.

Record sys_ok (s : sys) : Prop := SysOk {
  so_inv : inv false (sy_store s);
  so_tokens : tokens_ok (sy_used s) (st_agents (sy_store s));
  so_formed : forall t, t ∈ sy_used s -> isWellFormedToken (VStr t) = true }.

Lemma empty_inv serial : inv serial empty_store.
Proof.
  assert (forall A (x : A), x ∈ [] -> False) as Hnil by (intros A x H; by apply elem_of_nil in H).
  split; [constructor|]. split; [|done|constructor|].
  - split; [constructor|by intros e []%Hnil|done|done].
  - intros _. split; [done|split; [constructor|by intros r []%Hnil|by intros r q []%Hnil]|constructor].
Qed.

Lemma empty_ok : sys_ok empty_sys.
Proof.
  assert (forall A (x : A), x ∈ [] -> False) as Hnil by (intros A x H; by apply elem_of_nil in H).
  split.
  - apply empty_inv.
  - split; [by intros a c t []%Hnil|by intros a b c d t []%Hnil].
  - by intros t []%Hnil.
Qed.

Lemma sys_step_ok s s' : sys_ok s -> sys_step s s' -> sys_ok s'.
Proof.
  intros [Hi Ht Hf] H. destruct H as [bytes st st' used pending Hb Hn H|st used pending w H|st used before w after id Hid]; cbn in *; [|by split|].
  2:{ pose proof (write_link_ok "" st id w Hi) as Hw. split; cbn; [by eapply step_ok_inv| |done].
      assert (st_agents (write_link st id w).1 = st_agents st) as -> by (by destruct w). done. }
  apply (handler_step_ok _ _ _ false) in H; [|done]. split; cbn.
  - by eapply step_ok_inv.
  - apply (change_tokens (randomToken bytes) _ (st_agents st)); [apply H|done..].
  - intros t [->|Hin]%elem_of_cons; [by apply randomToken_well_formed|by apply Hf].
Qed.

Lemma steps_ok s s' : sys_ok s -> rtc sys_step s s' -> sys_ok s'.
Proof. intros Hs H. induction H as [|s1 s2 s3 H _ IH]; [done|]. by apply IH, (sys_step_ok s1). Qed.

Lemma reachable_sys_ok s : reachable s -> sys_ok s.
Proof. apply steps_ok, empty_ok. Qed.

Lemma serial_inv s : serially_reachable s -> inv true (sy_store s).
Proof.
  assert (inv true (sy_store empty_sys)) as H0 by apply empty_inv. unfold serially_reachable. revert H0.
  intros H0 H. induction H as [s|s1 s2 s3 H _ IH]; [done|]. apply IH. clear IH.
  destruct H as [bytes st st' used Hb Hn H|st st' used H]; cbn in *.
  - eapply step_ok_inv; [done|]. by eapply handler_step_ok.
  - eapply (step_ok_inv _ ""); [done|]. by apply link_call_ok.
Qed.

(** A live row is found by each of its tokens. *)
Lemma found_by_token s a col t : sys_ok s -> a ∈ st_agents (sy_store s) -> ag_is_deleted a = false -> token_of col a = Some t ->
  requireAgentByToken col (VStr t) (st_agents (sy_store s)) = Ok a.
Proof.
  intros [[Hu _] [Hused Huniq] Hf] Ha Hd Ht. unfold requireAgentByToken. rewrite (Hf t) by (by apply (Hused a col)). cbn.
  destruct (first_row _ _) as [b|] eqn:Hb.
  - apply first_row_Some in Hb as [Hb [Htb%bool_decide_eq_true _]%andb_true_iff].
    destruct (Huniq b a col col t Hb Ha Htb Ht) as [Hid _]. f_equal. by apply (unique_row (st_agents (sy_store s))).
  - apply (first_row_None _ _) with (a := a) in Hb; [|done]. unfold has_token in Hb. by rewrite bool_decide_eq_true_2, Hd in Hb.
Qed.

(** A token no live row holds stays dead once it was drawn. *)
Lemma steps_revoked s s' t : sys_ok s -> rtc sys_step s s' -> t ∈ sy_used s -> revoked t (st_agents (sy_store s)) ->
  revoked t (st_agents (sy_store s')).
Proof.
  intros Hs H. revert Hs. induction H as [|s1 s2 s3 H _ IH]; intros Hs; [done|]. intros Ht Hr. apply IH.
  - by apply (sys_step_ok s1).
  - destruct H; [by right|done|done].
  - destruct Hs as [Hi _ _]. destruct H as [bytes st st' used pending Hb Hn H|st used pending w H|st used before w after id Hid]; cbn in *; [|done|by destruct w].
    apply (handler_step_ok _ _ _ false) in H as [Hc _]; [|done].
    apply (change_revoked _ _ _ _ Hc); [|done]. intros ->. done.
Qed.

(** * The rules *)

(** C2. Whatever the admins and the agents did so far, the calls on direct links overtaking each
    other and the others included: every rule belongs to a live agent, a restricted agent has an
    enabled rule (it never locks its site out), and the rules of every agent respect the cap on
    their number and the cap on their lines on the hub interface. On all interfaces of the agent
    they respect the cap on the lines when nothing came in between the check of a direct link and
    its write; a link that is written late exceeds it, see [late_link_exceeds_cap]. Every other
    handler is one step here, the deletion of an agent with its rules among them. *)
Theorem reachable_rules_respect_caps s : reachable s ->
  let st := sy_store s in
  (forall e, e ∈ st_rules st -> exists a, live_agent (re_agent_id e) (st_agents st) = Some a) /\
  forall id a, live_agent id (st_agents st) = Some a ->
    assertNotEmptyRestricted (ag_ingress_mode a) (loadRules id st) = Ok tt /\
    Z.of_nat (length (loadRules id st)) <= MAX_RULES_PER_AGENT /\
    assertTotalLineCount (loadRules id st) 1 = Ok tt /\
    (serially_reachable s -> assertTotalLineCount (loadRules id st) (ifaceCountOf id st) = Ok tt).
Proof.
  intros H%reachable_sys_ok. destruct H as [[_ [[_ Hl Hc Hr] Hh _ _]] _ _]. cbn. split.
  - intros e He. apply (Hl e He).
  - intros id a Ha. split_and!.
    + apply notEmpty_Ok. intros Hm. apply (some_enabled_perm (shapes id (sy_store s))); [symmetry; apply load_shapes|by apply (Hr id a)].
    + rewrite length_load. apply Hc.
    + apply load_total. specialize (Hh id). lia.
    + intros Hs%serial_inv. apply load_total. rewrite Z.max_r by apply ifaceCount_pos.
      apply (or_lines _ (tb_order _ _ (inv_tables _ _ Hs) eq_refl)).
Qed.

Lemma fgd_name id : 1 <= id <= MAX_DIRECT_LINK_ID -> re_test FGD_RE (directIface id) = true.
Proof.
  intros H. assert ((id =? 0) || re_test FGD_RE (directIface id) = true) as Ht.
  { apply (forall_range 10000 (fun z => (z =? 0) || re_test FGD_RE (directIface z))); [vm_compute; reflexivity|].
    unfold MAX_DIRECT_LINK_ID in H. lia. }
  apply orb_true_iff in Ht as [Ht%Z.eqb_eq|Ht]; [lia|done].
Qed.

(** The links of an agent have ids within the limit. *)
Definition ids_in_limit (st : store) (id : Z) : Prop := Forall (fun r => 1 <= lr_id r <= MAX_DIRECT_LINK_ID) (enabled_links_of id st).

Lemma ifaces_in_order st a : ids_in_limit st (ag_id a) -> ifaces_ok (ingress_agent st a).
Proof.
  intros Hn. split.
  - cbn. unfold ifaceOf. destruct (isWgIface (ag_wg_interface a)) eqn:Hw; [done|reflexivity].
  - apply Forall_forall. intros d Hd. cbn in Hd. unfold ifacesFor in Hd. apply list_elem_of_fmap in Hd as (id & -> & Hid).
    rewrite merge_sort_Permutation in Hid. apply list_elem_of_fmap in Hid as (r & -> & Hr).
    apply fgd_name. unfold ids_in_limit in Hn. rewrite Forall_forall in Hn. by apply Hn.
Qed.

Lemma order_limits st id : in_order st ->
  ids_in_limit st id /\ assertTotalLineCount (loadRules id st) (ifaceCountOf id st) = Ok tt.
Proof.
  intros [Hl _ Hn]. split; [by apply Forall_bfilter|]. apply load_total. rewrite Z.max_r by apply ifaceCount_pos. apply Hl.
Qed.

Lemma payload_builds serial st a : tables_ok serial st -> ids_in_limit st (ag_id a) ->
  assertTotalLineCount (loadRules (ag_id a) st) (ifaceCountOf (ag_id a) st) = Ok tt ->
  ingressAliasesFor st (ag_id a) = [] -> exists o, ingressPayloadFor sha256 st a = Ok o /\
    (o = None <-> ag_ingress_mode a <> "restricted" /\ forall r, r ∈ loadRules (ag_id a) st -> r_enabled r = false).
Proof.
  intros Ht Hids Hlines Hal. pose proof Ht as [[_ _ Hc _] _ Hs _]. set (rs := loadRules (ag_id a) st).
  destruct (assertTotalLineCount_builds sha256 (ingress_agent st a) rs) as (o & Ho & Hnone).
  - cbn [directIfaces ingress_agent]. replace (Z.of_nat (S (length (ifacesFor (ag_id a) st)))) with (ifaceCountOf (ag_id a) st); [done|].
    unfold ifaceCountOf. lia.
  - exact Hal.
  - by apply ifaces_in_order.
  - etrans; [|apply (Hc (ag_id a))]. rewrite <- length_load. unfold active_rules.
    rewrite (Permutation_length (merge_sort_Permutation _ _)). apply inj_le, length_bfilter.
  - apply Forall_forall. intros r [Hr _]%elem_of_active. apply elem_of_loadRules in Hr.
    unfold rules_sane in Hs. rewrite Forall_forall in Hs. apply (Hs _ Hr).
  - exists (option_map (fun b => (b_hash b, b_text b)) o). unfold ingressPayloadFor. fold rs. rewrite Ho. split; [done|].
    assert (active_rules rs = [] <-> forall r, r ∈ rs -> r_enabled r = false) as Hact.
    { split.
      - intros He r Hr. destruct (r_enabled r) eqn:Hen; [|done]. exfalso. eapply not_elem_of_nil. rewrite <- He. by apply elem_of_active.
      - intros Hoff. destruct (active_rules rs) as [|r l] eqn:He; [done|]. exfalso.
        assert (r ∈ active_rules rs) as [Hr Hen]%elem_of_active by (rewrite He; left). by rewrite Hoff in Hen. }
    rewrite <- Hact. transitivity (o = None); [destruct o; cbn; split; congruence|]. rewrite Hnone. cbn [ingress_mode ingress_agent].
    case_decide as Hm; [|done]. rewrite Hm. split; (intros [_ ?]; split; [intros [=]|done]).
Qed.

(** * The poll *)

Lemma getConfig_Ok st token urls a : requireAgentByToken AgentToken token (st_agents st) = Ok a -> exists st' r,
  getConfig sha256 st token urls = Ok (st', r) /\ cr_ingress r = result_opt (ingressPayloadFor sha256 st' a) /\
  st' = if decide (or_empty (ag_reg_token a) = "") then st else patch_agent st (ag_id a) clear_reg_token.
Proof. intros Ha. unfold getConfig. rewrite Ha. cbn. eexists _, _. split; [done|]. by split. Qed.

(** C11. No agent is left without an answer: in every state the services reach, the poll of a
    live agent succeeds. Unless one of its direct links needs an alias rule, the answer says what
    its filter has to be, when nothing came in between the check of a direct link and its write, or
    else when its rules fit the cap on its interfaces and its links have ids within the limit (a
    link that is written late may break this, see [late_link_exceeds_cap]). It is told to remove the
    filter only when it is not restricted and none of its rules is enabled. *)
Theorem reachable_poll_is_answered s token urls a : reachable s ->
  requireAgentByToken AgentToken token (st_agents (sy_store s)) = Ok a ->
  exists st' r, getConfig sha256 (sy_store s) token urls = Ok (st', r) /\
    (ingressAliasesFor st' (ag_id a) = [] ->
     serially_reachable s \/
       (ids_in_limit st' (ag_id a) /\ assertTotalLineCount (loadRules (ag_id a) st') (ifaceCountOf (ag_id a) st') = Ok tt) ->
     exists o, cr_ingress r = Some o /\
       (o = None <-> ag_ingress_mode a <> "restricted" /\ forall q, q ∈ loadRules (ag_id a) st' -> r_enabled q = false)).
Proof.
  intros [Hi _ _]%reachable_sys_ok Ha. destruct (getConfig_Ok _ _ urls _ Ha) as (st' & r & H & Hr & _). exists st', r. split; [done|].
  intros Hal Hfit. rewrite Hr. pose proof (getConfig_rows _ _ _ _ "" _ _ H) as Hrows.
  pose proof (agents_step_ok _ "" _ _ Hi Hrows) as [Hc Ht'].
  assert (ids_in_limit st' (ag_id a) /\ assertTotalLineCount (loadRules (ag_id a) st') (ifaceCountOf (ag_id a) st') = Ok tt) as [Hids Hlines].
  { destruct Hfit as [Hs%serial_inv|Hfit]; [|done]. apply order_limits. destruct (agents_step_ok _ "" _ _ Hs Hrows) as [_ Hto].
    by apply (tb_order _ _ Hto). }
  destruct (payload_builds false st' a Ht' Hids Hlines Hal) as (o & Ho & Hiff). exists o. by rewrite Ho.
Qed.

(** * Tokens *)

(** A token names one agent in one role: no two agents, and no agent token that also
    registers. *)
Theorem token_identifies_agent s token col col' a b : reachable s ->
  requireAgentByToken col token (st_agents (sy_store s)) = Ok a ->
  requireAgentByToken col' token (st_agents (sy_store s)) = Ok b -> a = b /\ col = col'.
Proof.
  intros [[Hu _] [_ Huniq] _]%reachable_sys_ok (Ha & _ & t & -> & _ & Hta)%requireAgentByToken_Ok
    (Hb & _ & t' & [= <-] & _ & Htb)%requireAgentByToken_Ok.
  destruct (Huniq a b col col' t Ha Hb Hta Htb) as [Hid ->]. split; [|done]. by apply (unique_row (st_agents (sy_store s))).
Qed.

Lemma reset_revokes st id draw st' a col t used : tokens_ok used (st_agents st) -> draw ∉ used ->
  a ∈ st_agents st -> token_of col a = Some t -> ag_id a = id -> resetToken st id draw = Ok st' -> revoked t (st_agents st').
Proof.
  intros [Hused Huniq] Hn Ha Ht <- H. unfold resetToken in H. apply bind_Ok in H as (x & _ & [= <-]).
  intros b' col' (b & -> & Hb)%list_elem_of_fmap _. destruct (Z.eqb_spec (ag_id b) (ag_id a)) as [He|He].
  - destruct col'; [done|]. intros [= <-]. apply Hn. by apply (Hused a col).
  - intros Hbt. destruct (Huniq a b col col' t Ha Hb Ht Hbt). congruence.
Qed.

Lemma delete_revokes st id force now st' a col t used : tokens_ok used (st_agents st) ->
  a ∈ st_agents st -> token_of col a = Some t -> ag_id a = id -> delete_agent sha256 st id force now = Ok st' -> revoked t (st_agents st').
Proof.
  intros [_ Huniq] Ha Ht <- ->%delete_agent_inv. intros b' col' (b & -> & Hb)%list_elem_of_fmap.
  destruct (Z.eqb_spec (ag_id b) (ag_id a)) as [He|He].
  - by destruct force.
  - intros _ Hbt. destruct (Huniq a b col col' t Ha Hb Ht Hbt). congruence.
Qed.

(** C4. Revocation is final: once an admin resets the tokens of an agent or deletes it, no
    token it held authenticates again, in either role and in no later state. *)
Theorem revocation_is_final st used pending token col a bytes st1 s2 col' : reachable (Sys st used pending) ->
  requireAgentByToken col token (st_agents st) = Ok a ->
  String.length bytes = 32%nat -> randomToken bytes ∉ used ->
  resetToken st (ag_id a) (randomToken bytes) = Ok st1 \/ (exists force now, delete_agent sha256 st (ag_id a) force now = Ok st1) ->
  rtc sys_step (Sys st1 (randomToken bytes :: used) pending) s2 ->
  requireAgentByToken col' token (st_agents (sy_store s2)) = Throw (EAuth (auth_message col')).
Proof.
  intros Hs%reachable_sys_ok (Ha & _ & t & -> & _ & Ht)%requireAgentByToken_Ok Hb Hn H H2.
  pose proof Hs as [_ Htok _]. cbn in Htok. apply revoked_refused.
  apply (steps_revoked (Sys st1 (randomToken bytes :: used) pending) s2); [|done| |].
  - apply (sys_step_ok (Sys st used pending)); [done|]. apply SysStep; [done..|]. destruct H as [H|(force & now & H)].
    + by eapply StepReset.
    + by eapply StepDelete.
  - right. by apply (to_used _ _ Htok a col).
  - destruct H as [H|(force & now & H)].
    + by apply (reset_revokes st (ag_id a) (randomToken bytes) st1 a col t used).
    + by apply (delete_revokes st (ag_id a) force now st1 a col t used).
Qed.

Lemma well_formed_not_empty t : isWellFormedToken (VStr t) = true -> t <> "".
Proof. intros H ->. by vm_compute in H. Qed.

(** The row an agent has after it registered. *)
Lemma register_inv st token draw st1 r : unique_ids (st_agents st) -> register st token draw = Ok (st1, r) -> exists a t b,
  requireAgentByToken RegToken token (st_agents st) = Ok a /\ token = VStr t /\ b ∈ st_agents st1 /\ ag_id b = ag_id a /\
  ag_is_deleted b = false /\ ag_reg_token b = Some t /\ or_empty (ag_agent_token b) = rr_agent_token r /\
  (or_empty (ag_agent_token a) = "" -> rr_agent_token r = draw) /\ rr_agent_id r = ag_id a /\
  (or_empty (ag_agent_token a) <> "" -> st1 = st).
Proof.
  intros Hu H. unfold register in H. apply bind_Ok in H as (a & Ha & H). exists a.
  pose proof Ha as (Hin & Hd & t & -> & _ & Ht)%requireAgentByToken_Ok. exists t.
  destruct (decide (or_empty (ag_agent_token a) = "")) as [He|He]; injection H as <- <-.
  - exists (activate draw a). split_and!; [done|done| |done|done|done|done|done|done|by intros ?].
    change (st_agents (patch_agent st ?x ?f)) with (patch_row x f (st_agents st)). apply elem_of_patch_row.
    exists a. by rewrite Z.eqb_refl.
  - exists a. split_and!; [done..|by intros ?|done|done].
Qed.

(** Registering is safe to repeat until the agent shows it has its token: a second call with
    the same registration token, whatever token it would draw, returns the same agent token
    and id and changes nothing; the first poll with that token succeeds and retires the
    registration token. *)
Theorem registration_is_idempotent st used pending token bytes st1 r : reachable (Sys st used pending) ->
  String.length bytes = 32%nat -> randomToken bytes ∉ used ->
  register st token (randomToken bytes) = Ok (st1, r) ->
  (forall draw, exists r', register st1 token draw = Ok (st1, r') /\
     rr_agent_token r' = rr_agent_token r /\ rr_agent_id r' = rr_agent_id r) /\
  (forall urls, exists st2 c, getConfig sha256 st1 (VStr (rr_agent_token r)) urls = Ok (st2, c) /\
     forall draw, register st2 token draw = Throw (EAuth "Invalid registration token")).
Proof.
  intros Hs%reachable_sys_ok Hb Hn H. assert (sys_ok (Sys st1 (randomToken bytes :: used) pending)) as Hs1.
  { apply (sys_step_ok (Sys st used pending)); [done|]. apply SysStep; [done..|]. by eapply StepRegister. }
  pose proof Hs as [[Hu _] _ Hf]. pose proof Hs1 as [[Hu1 _] [Hused1 Huniq1] Hf1]. cbn in *.
  destruct (register_inv _ _ _ _ _ Hu H) as (a & t & b & Ha & -> & Hbin & Hid & Hbd & Hreg & Htok & Hdraw & Hrid & _).
  assert (ag_agent_token b = Some (rr_agent_token r) /\ rr_agent_token r <> "") as [Hagent Hne].
  { assert (or_empty (ag_agent_token b) <> "") as Hbe.
    { rewrite Htok. destruct (decide (or_empty (ag_agent_token a) = "")) as [He|He].
      - rewrite (Hdraw He). by apply well_formed_not_empty, randomToken_well_formed.
      - unfold register in H. rewrite Ha in H. cbn in H. rewrite decide_False in H by done. by injection H as _ <-. }
    rewrite <- Htok. split; [|done]. by destruct (ag_agent_token b). }
  assert (requireAgentByToken RegToken (VStr t) (st_agents st1) = Ok b) as Hfound by (by apply (found_by_token (Sys st1 _ pending) b RegToken t Hs1)).
  split.
  - intros draw. unfold register. rewrite Hfound. cbn. rewrite Hagent. cbn. rewrite decide_False by done.
    eexists. split; [done|]. cbn. by rewrite Hrid.
  - intros urls. assert (requireAgentByToken AgentToken (VStr (rr_agent_token r)) (st_agents st1) = Ok b) as Hpoll
      by (by apply (found_by_token (Sys st1 _ pending) b AgentToken _ Hs1)).
    destruct (getConfig_Ok _ _ urls _ Hpoll) as (st2 & c & Hget & _ & Hst2). exists st2, c. split; [done|].
    intros draw. unfold register.
    assert (isWellFormedToken (VStr t) = true) as Hwf by (apply Hf1, (Hused1 b RegToken); done).
    rewrite Hreg in Hst2. cbn [or_empty default] in Hst2. rewrite decide_False in Hst2 by (by apply well_formed_not_empty).
    unfold requireAgentByToken. rewrite Hwf. cbn. assert (first_row (has_token RegToken t) (st_agents st2) = None) as ->; [|done].
    apply first_row_None. subst st2. intros x' (x & -> & Hx)%list_elem_of_fmap. unfold has_token. apply andb_false_iff. left.
    apply bool_decide_eq_false. destruct (Z.eqb_spec (ag_id x) (ag_id b)) as [He|He]; [done|]. intros Hxt.
    destruct (Huniq1 x b RegToken RegToken t Hx Hbin Hxt Hreg). congruence.
Qed.


(** * The install script *)

(** Characters that are not themselves between double quotes of a sourced file. *)
Definition shell_active (c : ascii) : bool := one_of [dquote; "$"; "`"; "\"]%char c || is_control c.

Definition inert (v : string) : Prop := sall (fun c => negb (shell_active c)) v = true.

Definition given (v : option string) : list string := match v with Some u => [u] | None => [] end.

Lemma hub_url_inert url u : sanitizeHubUrl url_protocol url = Some u -> inert u.
Proof.
  unfold sanitizeHubUrl. destruct url as [| | | |t| |]; try done.
  destruct (bool_decide _ && _ && re_test HUB_HTTP_URL_REGEX _) eqn:H; [|done]. intros [= <-]. apply andb_true_iff in H as [_ H].
  apply (re_chars _ _ _ H). vm_compute. reflexivity.
Qed.

Lemma drop_end_slashes_idemp s : drop_end_slashes (drop_end_slashes s) = drop_end_slashes s.
Proof.
  induction s as [|c s IH]; [done|]. cbn [drop_end_slashes]. destruct (bool_decide _ && bool_decide _) eqn:H; [done|].
  cbn [drop_end_slashes]. by rewrite IH, H.
Qed.

(** A cleaned address is clean. *)
Lemma hub_url_clean url u : sanitizeHubUrl url_protocol url = Some u -> sanitizeHubUrl url_protocol (VStr u) = Some u.
Proof.
  unfold sanitizeHubUrl. destruct url as [| | | |t| |]; try done.
  set (x := drop_end_slashes (trim t)). destruct (bool_decide (x <> "") && _ && re_test HUB_HTTP_URL_REGEX x) eqn:H; [|done].
  intros [= <-]. assert (trim x = x) as ->.
  { apply trim_id. apply andb_true_iff in H as [_ H]. apply (re_chars _ _ _ H). vm_compute. reflexivity. }
  assert (drop_end_slashes x = x) as -> by apply drop_end_slashes_idemp. by rewrite H.
Qed.

Lemma hex_inert t : isWellFormedToken (VStr t) = true -> inert t.
Proof.
  cbn. rewrite !andb_true_iff. intros [[H _] _]. revert H. apply sall_impl_dec. vm_compute. reflexivity.
Qed.

(** Nothing the hub writes into the root-sourced config.env of an install script can leave
    its quotes: in every state the services reach, the registration token, the mode, the
    interface and both URLs hold no quote, dollar, backtick, backslash or control character,
    the token is not empty, and the address used across the internet is https. *)
Theorem install_values_are_inert s id publicUrl tunnelUrl ii : reachable s ->
  install_inputs_of url_protocol (sy_store s) id publicUrl tunnelUrl = Ok ii ->
  Forall inert (ii_regToken ii :: ii_mode ii :: ii_wgInterface ii :: given (ii_primary ii) ++ given (ii_fallback ii)) /\
  ii_regToken ii <> "" /\ (forall u, ii_fallback ii = Some u -> starts_with "https://" (to_lower u) = true).
Proof.
  intros [_ [Hused _] Hf]%reachable_sys_ok H. unfold install_inputs_of in H. apply bind_Ok in H as (fb & Hfb%lift_Ok & H).
  apply bind_Ok in H as (pr & Hpr%lift_Ok & H). apply bind_Ok in H as (a & Ha%or_not_found_Ok & H).
  apply bind_Ok in H as ([] & Hne%throw_if_Ok%bool_decide_eq_false & H). apply bind_Ok in H as (w & Hw%lift_Ok & H).
  apply bind_Ok in H as (m & Hm%lift_Ok & [= <-]). cbn [ii_regToken ii_mode ii_wgInterface ii_primary ii_fallback].
  apply live_agent_Some in Ha as (_ & Hin & _).
  assert (inert (or_empty (ag_reg_token a))) as Htok.
  { destruct (ag_reg_token a) as [t|] eqn:Ht; [|done]. apply hex_inert, Hf, (Hused a RegToken t Hin Ht). }
  assert (inert m) as Hmode.
  { unfold sanitizeAgentMode in Hm. destruct (truthy _) in Hm; apply bind_Ok in Hm as ([] & Hset%throw_if_Ok & [= <-]);
      [|reflexivity]. apply negb_false_iff, bool_decide_eq_true in Hset. apply list_elem_of_singleton in Hset as ->. reflexivity. }
  assert (inert w) as Hwg.
  { unfold sanitizeWgInterface in Hw. destruct (truthy _) in Hw; [|by injection Hw as <-].
    apply bind_Ok in Hw as ([] & Hre%throw_if_Ok%negb_false_iff & [= <-]). apply (re_chars _ _ _ Hre). vm_compute. reflexivity. }
  split_and!; [|done|].
  - repeat (apply Forall_cons; split; [done|]). apply Forall_app. split.
    + unfold install_primary in Hpr. destruct (truthy tunnelUrl); [|by injection Hpr as <-].
      destruct (sanitizeHubUrl url_protocol tunnelUrl) as [u|] eqn:Hu; [|done]. injection Hpr as <-.
      apply Forall_singleton. by apply (hub_url_inert tunnelUrl).
    + unfold install_fallback in Hfb. destruct (truthy publicUrl); [|by injection Hfb as <-].
      destruct (sanitizeHubUrl url_protocol publicUrl) as [u|] eqn:Hu; [|done]. destruct (sanitizeFallbackHubUrl _ _); [|done].
      injection Hfb as <-. apply Forall_singleton. by apply (hub_url_inert publicUrl).
  - intros u ->. unfold install_fallback in Hfb. destruct (truthy publicUrl); [|done].
    destruct (sanitizeHubUrl url_protocol publicUrl) as [v|] eqn:Hu; [|done].
    destruct (sanitizeFallbackHubUrl url_protocol (VStr v)) as [v'|] eqn:Hv; [|done]. injection Hfb as <-.
    unfold sanitizeFallbackHubUrl in Hv. destruct (sanitizeHubUrl _ (VStr v)) as [v2|] eqn:Hv2; [|done].
    destruct (starts_with "https://" (to_lower v2)) eqn:Hs; [|done].
    assert (Some v2 = Some v) as [= <-]; [|done]. rewrite <- Hv2. by apply (hub_url_clean publicUrl).
Qed.

End history.

(** * A history: an agent is created, given a rule, restricted, and registers *)

Definition web_protocol (s : string) : option string := if starts_with "https://" s then Some "https:" else None.

Definition ex_bytes (c : ascii) : string := smap (fun _ => String c "") ex_token.

Definition ok_or_empty {E} (m : result E store) : store := match m with Ok st => st | Throw _ => empty_store end.

Definition ex_reg : string := randomToken (ex_bytes "a").
Definition ex_agent_data : jsval := VObj [("name", VStr "berlin"); ("mode", VStr "native")].
Definition ex_created : store := ok_or_empty (create_agent web_protocol empty_store 1 ex_agent_data ex_reg).
Definition ex_ruled : store := ok_or_empty (create_rule ex_created 1 ex_payload 1 90).
Definition ex_restricted : store := ok_or_empty (setMode ex_ruled 1 (VStr "restricted")).
Definition ex_registered : store :=
  match register ex_restricted (VStr ex_reg) (randomToken (ex_bytes "d")) with Ok (st, _) => st | Throw _ => empty_store end.

Definition ex_used (cs : list ascii) : list string := (fun c => randomToken (ex_bytes c)) <$> cs.

Lemma ex_create : create_agent web_protocol empty_store 1 ex_agent_data ex_reg = Ok ex_created.
Proof. vm_compute. reflexivity. Qed.

Lemma ex_rule_step : create_rule ex_created 1 ex_payload 1 90 = Ok ex_ruled.
Proof. vm_compute. reflexivity. Qed.

Lemma ex_mode_step : setMode ex_ruled 1 (VStr "restricted") = Ok ex_restricted.
Proof. vm_compute. reflexivity. Qed.

Lemma ex_fresh c cs : bool_decide (randomToken (ex_bytes c) ∈ ex_used cs) = false -> randomToken (ex_bytes c) ∉ ex_used cs.
Proof. by intros ?%bool_decide_eq_false. Qed.

Lemma ex_restricted_serial : serially_reachable id web_protocol "" (Sys ex_restricted (ex_used ["c"; "b"; "a"]%char) []).
Proof.
  eapply rtc_l; [|eapply rtc_l; [|eapply rtc_l; [|apply rtc_refl]]].
  - apply (SerialStep _ _ _ (ex_bytes "a") empty_store ex_created []); [reflexivity|apply not_elem_of_nil|].
    apply (StepCreate _ _ _ _ _ 1 ex_agent_data); [apply not_elem_of_nil|apply ex_create].
  - apply (SerialStep _ _ _ (ex_bytes "b") ex_created ex_ruled (ex_used ["a"%char])); [reflexivity|apply ex_fresh; vm_compute; reflexivity|].
    apply (StepRuleCreate _ _ _ _ _ 1 ex_payload 1 90); [lia|apply not_elem_of_nil|apply ex_rule_step].
  - apply (SerialStep _ _ _ (ex_bytes "c") ex_ruled ex_restricted (ex_used ["b"; "a"]%char)); [reflexivity|apply ex_fresh; vm_compute; reflexivity|].
    apply (StepMode _ _ _ _ _ 1 (VStr "restricted")). apply ex_mode_step.
Qed.

Lemma ex_restricted_reachable : reachable id web_protocol "" (Sys ex_restricted (ex_used ["c"; "b"; "a"]%char) []).
Proof. apply serial_reachable, ex_restricted_serial. Qed.

Lemma reachable_rules_respect_caps_witness :
  reachable id web_protocol "" (Sys ex_restricted (ex_used ["c"; "b"; "a"]%char) []) /\
  assertNotEmptyRestricted "restricted" (loadRules 1 ex_restricted) = Ok tt /\
  assertTotalLineCount (loadRules 1 ex_restricted) (ifaceCountOf 1 ex_restricted) = Ok tt.
Proof.
  split; [apply ex_restricted_reachable|].
  destruct (reachable_rules_respect_caps id web_protocol "" (Sys ex_restricted (ex_used ["c"; "b"; "a"]%char) [])
    ex_restricted_reachable) as [_ H].
  destruct (live_agent 1 (st_agents ex_restricted)) as [a|] eqn:Ha; [|vm_compute in Ha; discriminate].
  destruct (H 1 a Ha) as (Hr & _ & _ & Hl). vm_compute in Ha. injection Ha as <-. split; [exact Hr|apply Hl, ex_restricted_serial].
Defined.

Lemma ex_register_step : exists r, register ex_restricted (VStr ex_reg) (randomToken (ex_bytes "d")) = Ok (ex_registered, r).
Proof. eexists. vm_compute. reflexivity. Qed.

Lemma ex_registered_serial : serially_reachable id web_protocol "" (Sys ex_registered (ex_used ["d"; "c"; "b"; "a"]%char) []).
Proof.
  eapply rtc_r; [apply ex_restricted_serial|]. destruct ex_register_step as [r Hr].
  apply (SerialStep _ _ _ (ex_bytes "d") ex_restricted ex_registered (ex_used ["c"; "b"; "a"]%char)); [reflexivity|apply ex_fresh; vm_compute; reflexivity|].
  apply (StepRegister _ _ _ _ _ (VStr ex_reg) _ r Hr).
Qed.

Lemma ex_registered_reachable : reachable id web_protocol "" (Sys ex_registered (ex_used ["d"; "c"; "b"; "a"]%char) []).
Proof. apply serial_reachable, ex_registered_serial. Qed.

Lemma reachable_poll_is_answered_witness : exists st' r,
  getConfig id ex_registered (VStr (randomToken (ex_bytes "d"))) (None, None) = Ok (st', r) /\
  exists h, cr_ingress r = Some (Some h).
Proof.
  destruct (requireAgentByToken AgentToken (VStr (randomToken (ex_bytes "d"))) (st_agents ex_registered)) as [a|e] eqn:Ha;
    [|vm_compute in Ha; discriminate].
  destruct (reachable_poll_is_answered id web_protocol "" (Sys ex_registered (ex_used ["d"; "c"; "b"; "a"]%char) [])
    (VStr (randomToken (ex_bytes "d"))) (None, None) a ex_registered_reachable Ha) as (st' & r & H & Hr).
  exists st', r. split; [exact H|]. vm_compute in Ha. injection Ha as <-. vm_compute in H. injection H as <- <-.
  destruct Hr as (o & Ho & Hn); [vm_compute; reflexivity|left; apply ex_registered_serial|].
  destruct o as [h|]; [by exists h|]. destruct Hn as [[Hm _] _]; [done|]. by destruct Hm.
Defined.

Lemma token_identifies_agent_witness : exists a,
  requireAgentByToken AgentToken (VStr (randomToken (ex_bytes "d"))) (st_agents ex_registered) = Ok a /\
  forall b col, requireAgentByToken col (VStr (randomToken (ex_bytes "d"))) (st_agents ex_registered) = Ok b -> a = b /\ AgentToken = col.
Proof.
  eexists. split; [vm_compute; reflexivity|]. intros b col Hb.
  apply (token_identifies_agent id web_protocol "" (Sys ex_registered (ex_used ["d"; "c"; "b"; "a"]%char) [])
    (VStr (randomToken (ex_bytes "d")))); [apply ex_registered_reachable|vm_compute; reflexivity|exact Hb].
Defined.

Lemma revocation_is_final_witness : exists st1,
  resetToken ex_registered 1 (randomToken (ex_bytes "e")) = Ok st1 /\
  requireAgentByToken AgentToken (VStr (randomToken (ex_bytes "d"))) (st_agents st1) = Throw (EAuth "Invalid agent token").
Proof.
  destruct (requireAgentByToken AgentToken (VStr (randomToken (ex_bytes "d"))) (st_agents ex_registered)) as [a|e] eqn:Ha;
    [|vm_compute in Ha; discriminate].
  destruct (resetToken ex_registered 1 (randomToken (ex_bytes "e"))) as [st1|e] eqn:Hr; [|vm_compute in Hr; discriminate].
  exists st1. split; [reflexivity|].
  eapply (revocation_is_final id web_protocol "" ex_registered (ex_used ["d"; "c"; "b"; "a"]%char) []
    (VStr (randomToken (ex_bytes "d"))) AgentToken a (ex_bytes "e") st1 (Sys st1 _ []) AgentToken).
  - apply ex_registered_reachable.
  - exact Ha.
  - reflexivity.
  - apply ex_fresh. vm_compute. reflexivity.
  - left. assert (ag_id a = 1) as -> by (vm_compute in Ha; injection Ha as <-; reflexivity). exact Hr.
  - apply rtc_refl.
Defined.

Lemma registration_is_idempotent_witness : exists r r',
  register ex_restricted (VStr ex_reg) (randomToken (ex_bytes "d")) = Ok (ex_registered, r) /\
  register ex_registered (VStr ex_reg) "other" = Ok (ex_registered, r') /\ rr_agent_token r' = rr_agent_token r.
Proof.
  destruct ex_register_step as [r Hr].
  destruct (registration_is_idempotent id web_protocol "" ex_restricted (ex_used ["c"; "b"; "a"]%char) [] (VStr ex_reg)
    (ex_bytes "d") ex_registered r) as [H _].
  - apply ex_restricted_reachable.
  - reflexivity.
  - apply ex_fresh. vm_compute. reflexivity.
  - exact Hr.
  - destruct (H "other") as (r' & Hr' & Ht & _). exists r, r'. by split_and!.
Defined.

Lemma install_values_are_inert_witness : exists ii,
  install_inputs_of web_protocol ex_restricted 1 (VStr "https://hub.example/") (VUndef) = Ok ii /\
  ii_fallback ii = Some "https://hub.example" /\ inert (ii_regToken ii).
Proof.
  destruct (install_inputs_of web_protocol ex_restricted 1 (VStr "https://hub.example/") VUndef) as [ii|e] eqn:H;
    [|vm_compute in H; discriminate].
  exists ii. split; [reflexivity|]. split; [vm_compute in H; injection H as <-; reflexivity|].
  destruct (install_values_are_inert id web_protocol "" (Sys ex_restricted (ex_used ["c"; "b"; "a"]%char) []) 1
    (VStr "https://hub.example/") VUndef ii) as [Hall _].
  - apply ex_restricted_reachable.
  - exact H.
  - by inversion Hall.
Defined.

(** * Two links at once *)

(** Agent 1 has six rules of 256 lines each, which fit the cap on two interfaces. *)
Definition late_nets (b : Z) : list string := (fun i => "10." +:+ showZ b +:+ "." +:+ showZ i +:+ ".0/24") <$> seqZ 1 16.
Definition late_rule (id : Z) : rule_entry := RuleEntry 1 (Rule id "rule" (late_nets 1) (late_nets (10 + id)) [] true None 0 None None).
Definition late_agent (id : Z) (name mode : string) : agent_row :=
  AgentRow id name "native" None None None "wg0" None None None None (Some name) None "online" None None None false mode
    None None None None None None false.
Definition late_store : store :=
  Store [late_agent 1 "berlin" "restricted"; late_agent 2 "bonn" "open"; late_agent 3 "wien" "open"] (late_rule <$> seqZ 1 6) [] []
    [("wg0:k1", LinkMeta "berlin" "site-to-site" (Some ["192.168.1.0/24"]));
     ("wg0:k2", LinkMeta "bonn" "site-to-site" (Some ["192.168.2.0/24"]));
     ("wg0:k3", LinkMeta "wien" "site-to-site" (Some ["192.168.3.0/24"]))].
Definition late_body (partner port : Z) (subnet : string) : jsval :=
  VObj [("name", VStr "direct"); ("agent_a_id", VInt 1); ("agent_b_id", VInt partner); ("listen_port", VInt port);
        ("endpoint_host", VStr "gw.example"); ("tunnel_subnet", VStr subnet); ("enabled", VBool true)].

(** Two requests for links of agent 1 are checked while neither is written: each finds that the rules
    fit two interfaces, and with both written there are three. The filter cannot be built any
    more. *)
Lemma late_link_exceeds_cap : exists w1 w2 e,
  check_create late_store (late_body 2 51820 "10.99.0.0/30") = Ok w1 /\
  check_create late_store (late_body 3 51821 "10.99.0.4/30") = Ok w2 /\
  let st := (write_link (write_link late_store 1 w1).1 2 w2).1 in
  assertTotalLineCount (loadRules 1 late_store) (ifaceCountOf 1 late_store) = Ok tt /\
  assertTotalLineCount (loadRules 1 st) (ifaceCountOf 1 st) = Throw (TooManyTotalLines 4608) /\
  ingressPayloadFor id st (late_agent 1 "berlin" "restricted") = Throw e.
Proof. eexists _, _, _. split; [vm_compute; reflexivity|]. split; [vm_compute; reflexivity|]. split_and!; vm_compute; reflexivity. Qed.
