(* ===== verification/WgRename.v ===== *)
(** Renames of links carried to the agents that name them: [diffLinkRenames] of
    [backend/internal/wireguard-plan.js] and [cascadeLinkRenames] of
    [backend/internal/wireguard.js] over [renameLinkBinding] of the agent service.

    The call of the agent service may fail after any number of its row updates; the
    outcomes of the calls, in their order, are an input. *)

From S2P Require Import Prelude.
From S2P Require Import JsString.
From S2P Require Import JsVal.
From S2P Require Import Json.
From S2P Require Import AgentRow.
From S2P Require Import AgentStore.
From S2P Require Import AgentService.
From S2P Require Import WgMeta.

Local Open Scope Z_scope.

(** * The renames of a write *)

Record link_rename := LinkRename { rn_oldName : string; rn_newName : string }.

#[export] Instance link_rename_eq_dec : EqDecision link_rename.
Proof. solve_decision. Defined.

(** [entry?.name || fallback?.[id]], "" when there is neither *)
Definition name_or (o : obj) (fallback : list (string * string)) (id : string) : string :=
  if decide (name_of o = "") then default "" (mget id fallback) else name_of o.

Definition diff_entry (before : meta_store) (fallbackNames afterNames : list (string * string)) (kl : string * obj)
    : option link_rename :=
  let oldName := name_or (default [] (mget kl.1 (ms_links before))) fallbackNames kl.1 in
  let newName := name_or kl.2 afterNames kl.1 in
  if bool_decide (oldName <> "" /\ newName <> "" /\ oldName <> newName) then Some (LinkRename oldName newName) else None.

Definition diffLinkRenames (before after : meta_store) (fallbackNames afterNames : list (string * string)) : list link_rename :=
  omap (diff_entry before fallbackNames afterNames) (ms_links after).

(** The names of the live links by id; a later link with the same id wins. *)
Definition statusLinkNames (links : list live_link) : list (string * string) :=
  mfrom ((fun l => (lv_id l, lv_name l)) <$> bfilter (fun l => bool_decide (lv_id l <> "" /\ lv_name l <> "")) links).

(** * A rename that fails half-way *)

(** The loop updates the rows that [upd] changes and throws at update number [n]; the second
    part is the number of updates left, [None] when it threw. *)
Fixpoint update_upto (upd : agent_row -> option agent_row) (n : nat) (db : agent_db) : agent_db * option nat :=
  match db with
  | [] => ([], Some n)
  | a :: db =>
      match upd a, n with
      | None, _ => let r := update_upto upd n db in (a :: r.1, r.2)
      | Some a', S n => let r := update_upto upd n db in (a' :: r.1, r.2)
      | Some _, O => (a :: db, None)
      end
  end.

Definition upd_link_name (oldName newName : string) (a : agent_row) : option agent_row :=
  if decide (ag_wg_link_name a = Some oldName) then Some { a with ag_wg_link_name := Some newName } else None.

Definition names_site (oldName : string) (raw : option string) : bool :=
  match raw with
  | Some s => match json_parse s with Some (VArr l) => existsb (is_str oldName) l | _ => false end
  | None => false
  end.

Definition upd_sites (oldName newName : string) (a : agent_row) : option agent_row :=
  if negb (ag_is_deleted a) && names_site oldName (ag_allowed_sites a)
  then Some { a with ag_allowed_sites := rename_sites oldName newName (ag_allowed_sites a) } else None.

(** [renameLinkBinding] whose update number [n] throws: first the link names of all rows,
    then the whitelists. *)
Definition rename_upto (n : nat) (st : store) (oldName newName : string) : store :=
  let r := update_upto (upd_link_name oldName newName) n (st_agents st) in
  match r.2 with
  | None => with_agents st r.1
  | Some n => with_agents st (update_upto (upd_sites oldName newName) n r.1).1
  end.

(** * The cascade *)

Record cascade_error := CascadeError { ce_from : string; ce_to : string }.

Record cascade := Cascade {
  ca_store : store;
  ca_outcomes : list (option nat);
  ca_errors : list cascade_error }.

(** [await doRename(from, to)], [true] when it throws. *)
Definition run (c : cascade) (from to : string) : cascade * bool :=
  if bool_decide (from = "" \/ to = "" \/ from = to) then (Cascade (ca_store c) (tail (ca_outcomes c)) (ca_errors c), false)
  else
    match ca_outcomes c with
    | Some n :: os => (Cascade (rename_upto n (ca_store c) from to) os (ca_errors c), true)
    | _ => (Cascade (renameLinkBinding (ca_store c) from to) (tail (ca_outcomes c)) (ca_errors c), false)
    end.

Definition push_error (c : cascade) (from to : string) : cascade :=
  Cascade (ca_store c) (ca_outcomes c) (ca_errors c ++ [CascadeError from to]).

(** A step whose failure is reported. *)
Definition run_step (c : cascade) (r : string * string) : cascade :=
  let (c', failed) := run c r.1 r.2 in if failed then push_error c' r.1 r.2 else c'.

(** [(await run(tmp, new)) && (await run(tmp, new))] *)
Definition run_twice (c : cascade) (r : string * string) : cascade :=
  let (c1, failed) := run c r.1 r.2 in
  if failed then let (c2, failed) := run c1 r.1 r.2 in if failed then push_error c2 r.1 r.2 else c2 else c1.

(** The first phase stops at the first failure; [moved] is the list of the steps done, the last first. *)
Fixpoint temp_phase (c : cascade) (moved l : list (string * string)) : cascade * list (string * string) * bool :=
  match l with
  | [] => (c, moved, false)
  | r :: l =>
      let (c', failed) := run c r.1 r.2 in
      if failed then (push_error c' r.1 r.2, moved, true) else temp_phase c' (r :: moved) l
  end.

Definition tmp_name (stamp : Z) (i : nat) : string := "__fg_rename_" +:+ showZ stamp +:+ "_" +:+ showZ (Z.of_nat i) +:+ "__".
Definition tmp_names (stamp : Z) (renames : list link_rename) : list string := tmp_name stamp <$> seq 0 (length renames).

Record cascade_result := CascadeResult { cr_errors : list cascade_error; cr_rolledBack : bool }.

Definition needsTemp (renames : list link_rename) : bool :=
  existsb (fun r => bool_decide (rn_newName r ∈ (rn_oldName <$> renames))) renames.

(** The result repeats the renames, which do not change. *)
Definition cascadeLinkRenames (stamp : Z) (renames : list link_rename) (outcomes : list (option nat)) (st : store)
    : store * cascade_result :=
  let c := Cascade st outcomes [] in
  if negb (needsTemp renames) then
    let c := foldl run_step c ((fun r => (rn_oldName r, rn_newName r)) <$> renames) in
    (ca_store c, CascadeResult (ca_errors c) false)
  else
    let tmp := tmp_names stamp renames in
    let '(c, moved, failed) := temp_phase c [] (zip (rn_oldName <$> renames) tmp) in
    if failed then
      let c := foldl run_step c ((fun m => (m.2, m.1)) <$> moved) in
      (ca_store c, CascadeResult (ca_errors c) true)
    else
      let c := foldl run_twice c (zip tmp (rn_newName <$> renames)) in
      (ca_store c, CascadeResult (ca_errors c) false).

(** * What a rename does to a row *)

Definition single (o n s : string) : string := if decide (s = o) then n else s.

Definition map_sites (f : string -> string) (raw : option string) : option string :=
  match raw with
  | Some s => match json_parse s with Some (VArr l) => Some (json_strings (f <$> omap as_string l)) | _ => raw end
  | None => None
  end.

#[local] Arguments map_sites : simpl never.

Definition map_row (f : string -> string) (a : agent_row) : agent_row :=
  let a := { a with ag_wg_link_name := f <$> ag_wg_link_name a } in
  if ag_is_deleted a then a else { a with ag_allowed_sites := map_sites f (ag_allowed_sites a) }.

(** The whitelist as the sanitizers write it. *)
Definition plain_row (a : agent_row) : Prop :=
  ag_is_deleted a = true \/ ag_allowed_sites a = None \/ exists l, ag_allowed_sites a = Some (json_strings l).

(** The link names a row holds. *)
Definition row_names (a : agent_row) : list string :=
  option_list (ag_wg_link_name a) ++
  match ag_allowed_sites a with
  | Some s => match json_parse s with Some (VArr l) => omap as_string l | _ => [] end
  | None => []
  end.

Lemma omap_strings (l : list string) : omap as_string (VStr <$> l) = l.
Proof. induction l as [|s l IH]; csimpl; [done|by rewrite IH]. Qed.

Lemma map_sites_plain f l : map_sites f (Some (json_strings l)) = Some (json_strings (f <$> l)).
Proof. unfold map_sites. by rewrite json_parse_strings, omap_strings. Qed.

Lemma json_text_strings l : json_text (VArr (VStr <$> l)) = json_strings l.
Proof. cbn [json_text]. unfold json_strings. do 3 f_equal. induction l as [|s l IH]; [done|]. cbn. by f_equal. Qed.

Lemma rename_sites_plain o n l : rename_sites o n (Some (json_strings l)) = Some (json_strings (single o n <$> l)).
Proof.
  unfold rename_sites. rewrite json_parse_strings.
  assert ((fun v => if is_str o v then VStr n else v) <$> (VStr <$> l) = VStr <$> (single o n <$> l)) as ->.
  { rewrite <- !list_fmap_compose. apply list_fmap_ext. intros _ s _. unfold compose, is_str, single. cbn.
    by destruct (decide (s = o)) as [->|]; [rewrite bool_decide_true|rewrite bool_decide_false]. }
  rewrite json_text_strings. destruct (existsb _ _) eqn:He; [done|]. do 2 f_equal. symmetry. rewrite <- (list_fmap_id l) at 2.
  apply list_fmap_ext. intros i s Hs%list_elem_of_lookup_2. unfold single. destruct (decide (s = o)) as [->|]; [|done].
  rewrite existsb_false in He. specialize (He (VStr o)). cbn in He. rewrite bool_decide_true in He by done.
  discriminate He. apply list_elem_of_fmap. by exists o.
Qed.

Lemma rename_row_map o n a : plain_row a -> rename_row o n a = map_row (single o n) a.
Proof.
  intros Ha. unfold rename_row, map_row.
  assert ((if decide (ag_wg_link_name a = Some o) then { a with ag_wg_link_name := Some n } else a) =
    { a with ag_wg_link_name := single o n <$> ag_wg_link_name a }) as ->.
  { destruct a. cbn. unfold single. destruct (decide _) as [->|Hne]; cbn; [by rewrite decide_True|].
    destruct ag_wg_link_name as [s|]; [|done]. cbn. by rewrite decide_False by congruence. }
  destruct a. cbn in *. destruct ag_is_deleted; [done|]. unfold plain_row in Ha. cbn in Ha.
  destruct Ha as [|[-> |[l ->]]]; [done|done|]. by rewrite rename_sites_plain, map_sites_plain.
Qed.

Lemma map_row_plain f a : plain_row a -> plain_row (map_row f a).
Proof.
  destruct a. unfold plain_row, map_row. cbn. destruct ag_is_deleted; [by left|]. cbn.
  intros [?|[-> |[l ->]]]; [done|by right; left|]. right. right. rewrite map_sites_plain. by eexists.
Qed.

Lemma map_row_compose f g a : plain_row a -> map_row g (map_row f a) = map_row (g ∘ f) a.
Proof.
  destruct a. unfold plain_row, map_row. cbn. destruct ag_is_deleted; cbn.
  - intros _. by destruct ag_wg_link_name.
  - intros [?|[-> |[l ->]]]; [done|by destruct ag_wg_link_name|]. rewrite !map_sites_plain. cbv [RecordSetters.constant]. rewrite !map_sites_plain, <- list_fmap_compose.
    by destruct ag_wg_link_name.
Qed.

Lemma map_row_ext f g a : plain_row a -> (forall s, s ∈ row_names a -> f s = g s) -> map_row f a = map_row g a.
Proof.
  destruct a. unfold plain_row, map_row, row_names. cbn. intros Hp Hfg.
  assert (f <$> ag_wg_link_name = g <$> ag_wg_link_name) as ->.
  { destruct ag_wg_link_name as [s|]; [|done]. cbn. rewrite (Hfg s); [done|left]. }
  destruct ag_is_deleted; cbn; [done|]. destruct Hp as [?|[-> |[l ->]]]; [done|done|].
  rewrite !map_sites_plain. rewrite json_parse_strings, omap_strings in Hfg. do 3 f_equal.
  assert (f <$> l = g <$> l) as ->; [|done]. apply list_fmap_ext. intros i s Hs%list_elem_of_lookup_2. apply Hfg, elem_of_app. by right.
Qed.

Lemma map_row_id a : plain_row a -> map_row (fun s => s) a = a.
Proof.
  destruct a. unfold plain_row, map_row. cbn. intros Hp. rewrite option_fmap_id. destruct ag_is_deleted; cbn; [done|].
  destruct Hp as [?|[-> |[l ->]]]; [done|done|]. by rewrite map_sites_plain, list_fmap_id.
Qed.

(** ** ... and to the table *)

Definition all_plain (st : store) : Prop := Forall plain_row (st_agents st).
Definition rename_with (f : string -> string) (st : store) : store := with_agents st (map_row f <$> st_agents st).

#[local] Arguments rename_with : simpl never.

Lemma rename_with_agents f st db : rename_with f (with_agents st db) = with_agents st (map_row f <$> db).
Proof. done. Qed.

Lemma rename_with_plain f st : all_plain st -> all_plain (rename_with f st).
Proof. intros H. change (Forall plain_row (map_row f <$> st_agents st)). rewrite Forall_fmap. eapply Forall_impl; [exact H|]. intros a. apply map_row_plain. Qed.

Lemma rename_with_compose f g st : all_plain st -> rename_with g (rename_with f st) = rename_with (g ∘ f) st.
Proof.
  unfold all_plain, rename_with. intros H. destruct st. cbn in *. unfold with_agents. cbn. f_equal.
  rewrite <- list_fmap_compose. apply list_fmap_ext. intros i a Ha%list_elem_of_lookup_2. apply map_row_compose.
  rewrite Forall_forall in H. by apply H.
Qed.

Lemma rename_with_ext f g st : all_plain st -> (forall a s, a ∈ st_agents st -> s ∈ row_names a -> f s = g s) ->
  rename_with f st = rename_with g st.
Proof.
  unfold all_plain, rename_with. intros H Hfg. f_equal. apply list_fmap_ext. intros i a Ha%list_elem_of_lookup_2.
  rewrite Forall_forall in H. apply map_row_ext; [by apply H|]. intros s. by apply Hfg.
Qed.

Lemma rename_with_id st : all_plain st -> rename_with (fun s => s) st = st.
Proof.
  unfold all_plain, rename_with. intros H. destruct st. cbn in *. unfold with_agents. cbn. f_equal.
  rewrite <- (list_fmap_id st_agents) at 2. apply list_fmap_ext. intros i a Ha%list_elem_of_lookup_2.
  rewrite Forall_forall in H. by apply map_row_id, H.
Qed.

Lemma renameLinkBinding_map st o n : all_plain st -> o <> "" -> n <> "" ->
  renameLinkBinding st o n = rename_with (single o n) st.
Proof.
  intros Hp Ho Hn. unfold renameLinkBinding. destruct (bool_decide _) eqn:Hb.
  - apply bool_decide_eq_true in Hb as [?|[?| ->]]; [done..|]. symmetry. rewrite <- (rename_with_id st Hp) at 2.
    apply rename_with_ext; [done|]. intros a s _ _. unfold single. by destruct (decide _).
  - unfold rename_with. f_equal. apply list_fmap_ext. intros i a Ha%list_elem_of_lookup_2.
    apply rename_row_map. unfold all_plain in Hp. rewrite Forall_forall in Hp. by apply Hp.
Qed.

(** ** A failed call can be made up for *)

(** A row on its way from [a] to its renamed form. *)
Definition on_the_way (o n : string) (a a' : agent_row) : Prop :=
  plain_row a' /\ map_row (single o n) a' = map_row (single o n) a.

Lemma on_the_way_trans o n a b c : on_the_way o n a b -> on_the_way o n b c -> on_the_way o n a c.
Proof. intros [_ H1] [H2 H3]. split; [done|congruence]. Qed.

Lemma update_upto_rows (R : agent_row -> agent_row -> Prop) upd n db :
  (forall a, a ∈ db -> R a a) -> (forall a a', a ∈ db -> upd a = Some a' -> R a a') -> Forall2 R db (update_upto upd n db).1.
Proof.
  intros Hr Hu. revert n. induction db as [|a db IH]; intros n; [constructor|].
  assert (forall n, Forall2 R db (update_upto upd n db).1) as IH'.
  { apply IH; [intros b Hb; apply Hr; by right|intros b b' Hb; apply Hu; by right]. }
  cbn. destruct (upd a) as [a'|] eqn:Ha; [destruct n as [|n]|]; cbn; constructor; auto using list_elem_of_here.
  apply Forall2_same_length_lookup. split; [done|]. intros i x y Hx Hy.
  assert (x = y) as -> by congruence. apply Hr. right. by eapply list_elem_of_lookup_2.
Qed.

Lemma update_upto_0 upd db : (update_upto upd 0 db).1 = db /\ ((update_upto upd 0 db).2 = None \/ (update_upto upd 0 db).2 = Some 0%nat).
Proof.
  induction db as [|a db [IH1 IH2]]; cbn; [by auto|]. destruct (upd a); cbn; [by auto|]. by rewrite IH1.
Qed.

Lemma rename_upto_0 st o n : rename_upto 0 st o n = st.
Proof.
  unfold rename_upto. destruct (update_upto_0 (upd_link_name o n) (st_agents st)) as [H [-> | ->]]; rewrite H.
  - by destruct st.
  - destruct (update_upto_0 (upd_sites o n) (st_agents st)) as [-> _]. by destruct st.
Qed.

Lemma single_idemp o n s : single o n (single o n s) = single o n s.
Proof. unfold single. repeat case_decide; congruence. Qed.

Lemma upd_link_name_way o n a a' : plain_row a -> upd_link_name o n a = Some a' -> on_the_way o n a a'.
Proof.
  intros Hp. unfold upd_link_name. destruct (decide _) as [Ha|]; [|done]. intros [= <-]. split; [done|].
  unfold map_row. destruct a. cbn in *. rewrite Ha. cbn. unfold single.
  destruct (decide (n = o)) as [->|]; rewrite ?decide_True by done; done.
Qed.

Lemma upd_sites_way o n a a' : plain_row a -> upd_sites o n a = Some a' -> on_the_way o n a a'.
Proof.
  intros Hp. unfold upd_sites. destruct (ag_is_deleted a) eqn:Hd; [done|]. destruct (names_site o _) eqn:Hs; [|done]. intros [= <-].
  destruct Hp as [?|[Hn|[l Hl]]]; [congruence|by rewrite Hn in Hs|]. rewrite Hl, rename_sites_plain. split.
  - right. right. by eexists.
  - unfold map_row. destruct a. cbn in *. subst. cbn. cbv [RecordSetters.constant]. rewrite !map_sites_plain.
    assert (single o n <$> (single o n <$> l) = single o n <$> l) as ->; [|done].
    rewrite <- list_fmap_compose. apply list_fmap_ext. intros _ s _. apply single_idemp.
Qed.

Lemma on_the_way_refl o n a : plain_row a -> on_the_way o n a a.
Proof. by split. Qed.

Lemma way_plain o n db db' : Forall2 (on_the_way o n) db db' -> Forall plain_row db'.
Proof. induction 1 as [|a b db db' [? _]]; by constructor. Qed.

Lemma way_map o n db db' : Forall2 (on_the_way o n) db db' -> map_row (single o n) <$> db' = map_row (single o n) <$> db.
Proof. induction 1 as [|a b db db' [_ H] _ IH]; [done|]. by rewrite !fmap_cons, H, IH. Qed.

Lemma update_upto_way upd o n k db : Forall plain_row db ->
  (forall a a', plain_row a -> upd a = Some a' -> on_the_way o n a a') -> Forall2 (on_the_way o n) db (update_upto upd k db).1.
Proof.
  rewrite Forall_forall. intros Hp Hu. apply update_upto_rows; [intros a Ha; by apply on_the_way_refl, Hp|].
  intros a a' Ha. by apply Hu, Hp.
Qed.

(** What a failed call leaves behind, a second call completes. *)
Lemma rename_upto_way k st o n : all_plain st ->
  all_plain (rename_upto k st o n) /\ rename_with (single o n) (rename_upto k st o n) = rename_with (single o n) st.
Proof.
  intros Hp. unfold rename_upto. set (r := update_upto (upd_link_name o n) k (st_agents st)).
  assert (Forall2 (on_the_way o n) (st_agents st) r.1) as H1 by (apply update_upto_way, upd_link_name_way; exact Hp).
  destruct r.2 as [k'|].
  - assert (Forall2 (on_the_way o n) r.1 (update_upto (upd_sites o n) k' r.1).1) as H2.
    { apply update_upto_way, upd_sites_way. by eapply way_plain. }
    split; [by eapply way_plain|]. rewrite rename_with_agents. unfold rename_with.
    by rewrite (way_map _ _ _ _ H2), (way_map _ _ _ _ H1).
  - split; [by eapply way_plain|]. rewrite rename_with_agents. unfold rename_with. by rewrite (way_map _ _ _ _ H1).
Qed.

(** * Sequences of renames *)

Definition steps_map (l : list (string * string)) (s : string) : string := foldl (fun s r => single r.1 r.2 s) s l.

Lemma steps_map_app l k s : steps_map (l ++ k) s = steps_map k (steps_map l s).
Proof. apply foldl_app. Qed.

Lemma steps_map_fresh l s : s ∉ l.*1 -> steps_map l s = s.
Proof.
  revert s. induction l as [|[o n] l IH]; intros s; [done|]. rewrite fmap_cons, not_elem_of_cons. intros [Ho Hl].
  cbn. unfold single. rewrite decide_False by done. by apply IH.
Qed.

(** With distinct old names that are not new names, the order does not matter. *)
Lemma steps_map_lookup l s : NoDup l.*1 -> (forall v, v ∈ l.*2 -> v ∉ l.*1) -> steps_map l s = default s (mget s l).
Proof.
  revert s. induction l as [|[o n] l IH]; intros s Hn Hv; [done|]. rewrite fmap_cons, NoDup_cons in Hn. destruct Hn as [Ho Hn].
  cbn in *. unfold single. destruct (decide (s = o)) as [->|Hs].
  - rewrite decide_True by done. apply steps_map_fresh. specialize (Hv n ltac:(left)). rewrite not_elem_of_cons in Hv. by destruct Hv.
  - rewrite decide_False by congruence. apply IH; [done|]. intros v Hin. specialize (Hv v ltac:(by right)).
    rewrite not_elem_of_cons in Hv. by destruct Hv.
Qed.

(** The outcomes after which a failed call has changed nothing. *)
Definition calm (c : cascade) : Prop := Forall (fun o => o = None \/ o = Some 0%nat) (ca_outcomes c).

Definition named (r : string * string) : Prop := r.1 <> "" /\ r.2 <> "".

Lemma run_spec c r c' failed : named r -> all_plain (ca_store c) -> run c r.1 r.2 = (c', failed) ->
  all_plain (ca_store c') /\ ca_errors c' = ca_errors c /\
  rename_with (single r.1 r.2) (ca_store c') = rename_with (single r.1 r.2) (rename_with (single r.1 r.2) (ca_store c)) /\
  (calm c -> calm c') /\
  (if failed then calm c -> ca_store c' = ca_store c else ca_store c' = rename_with (single r.1 r.2) (ca_store c)).
Proof.
  intros [H1 H2] Hp Hrun. unfold run in Hrun.
  assert (rename_with (single r.1 r.2) (rename_with (single r.1 r.2) (ca_store c)) = rename_with (single r.1 r.2) (ca_store c)) as Hid.
  { rewrite rename_with_compose by done. apply rename_with_ext; [done|]. intros a s _ _. apply single_idemp. }
  assert (forall o os, ca_outcomes c = o :: os -> calm c -> Forall (fun o => o = None \/ o = Some 0%nat) os) as Htl.
  { unfold calm. by intros o os -> [_ ?]%Forall_cons. }
  assert (calm c -> Forall (fun o => o = None \/ o = Some 0%nat) (tail (ca_outcomes c))) as Ht.
  { intros Hc. destruct (ca_outcomes c) eqn:Ho; [constructor|]. by eapply Htl. }
  destruct (bool_decide _) eqn:Hb.
  - injection Hrun as <- <-. cbn. apply bool_decide_eq_true in Hb as [?|[?|Heq]]; [done..|].
    assert (rename_with (single r.1 r.2) (ca_store c) = ca_store c) as Hsame.
    { rewrite <- (rename_with_id (ca_store c) Hp) at 2. apply rename_with_ext; [done|]. intros a s _ _. rewrite Heq. unfold single. by case_decide. }
    by rewrite !Hsame.
  - pose proof (rename_with_plain (single r.1 r.2) _ Hp) as Hp'.
    assert (renameLinkBinding (ca_store c) r.1 r.2 = rename_with (single r.1 r.2) (ca_store c)) as Hren by by apply renameLinkBinding_map.
    destruct (ca_outcomes c) as [|[n|] os] eqn:Ho; injection Hrun as <- <-; cbn; rewrite ?Hren.
    + split_and!; [done..|intros _; constructor|done].
    + destruct (rename_upto_way n (ca_store c) r.1 r.2 Hp) as [Hpn Hw]. split_and!; [done|done|congruence|exact (Htl _ _ eq_refl)|].
      unfold calm. rewrite Ho. intros [[?|[= ->]] _]%Forall_cons; [done|]. apply rename_upto_0.
    + split_and!; [done..|exact (Htl _ _ eq_refl)|done].
Qed.

(** A step of the cascade does its rename, or reports an error. *)
Definition good_step (step : cascade -> string * string -> cascade) : Prop := forall c r, named r -> all_plain (ca_store c) ->
  all_plain (ca_store (step c r)) /\
  ((exists e, ca_errors (step c r) = ca_errors c ++ [e]) \/
   (ca_errors (step c r) = ca_errors c /\ ca_store (step c r) = rename_with (single r.1 r.2) (ca_store c))).

Lemma run_step_good : good_step run_step.
Proof.
  intros c r Hr Hp. unfold run_step. destruct (run c r.1 r.2) as [c' failed] eqn:Hrun.
  apply run_spec in Hrun as (Hp' & He & _ & _ & Hf); [|done..]. destruct failed; cbn; [|by split; [|right]].
  split; [done|]. left. rewrite He. by eexists.
Qed.

Lemma run_twice_good : good_step run_twice.
Proof.
  intros c r Hr Hp. unfold run_twice. destruct (run c r.1 r.2) as [c1 failed1] eqn:Hrun1.
  apply run_spec in Hrun1 as (Hp1 & He1 & Hw & _ & Hf1); [|done..]. destruct failed1; [|by split; [|right]].
  destruct (run c1 r.1 r.2) as [c2 failed2] eqn:Hrun2. apply run_spec in Hrun2 as (Hp2 & He2 & _ & _ & Hf2); [|done..].
  destruct failed2; cbn.
  - split; [done|]. left. rewrite He2, He1. by eexists.
  - split; [done|]. right. split; [congruence|]. rewrite Hf2, Hw, rename_with_compose by done.
    apply rename_with_ext; [done|]. intros a s _ _. apply single_idemp.
Qed.

Lemma rename_with_steps l f st : all_plain st -> rename_with (steps_map l) (rename_with f st) = rename_with (steps_map l ∘ f) st.
Proof. apply rename_with_compose. Qed.

Lemma good_steps step c l : good_step step -> Forall named l -> all_plain (ca_store c) ->
  (length (ca_errors c) <= length (ca_errors (foldl step c l)))%nat /\
  (length (ca_errors (foldl step c l)) = length (ca_errors c) -> ca_store (foldl step c l) = rename_with (steps_map l) (ca_store c)).
Proof.
  intros Hs Hl. revert c. induction Hl as [|r l Hr _ IH]; intros c Hp.
  { split; [done|]. intros _. symmetry. by apply rename_with_id. }
  cbn [foldl]. destruct (Hs c r Hr Hp) as [Hp' Hc]. destruct (IH _ Hp') as [IH1 IH2]. destruct Hc as [[e He]|[He Hst]].
  - rewrite He, length_app in IH1. cbn in IH1. split; [lia|]. intros; lia.
  - rewrite He in IH1, IH2. split; [done|]. intros Hlen. rewrite IH2 by done. rewrite Hst. by apply rename_with_steps.
Qed.

Lemma temp_phase_spec c moved l c' moved' failed : Forall named l -> all_plain (ca_store c) ->
  temp_phase c moved l = (c', moved', failed) ->
  exists k, moved' = rev (take k l) ++ moved /\ all_plain (ca_store c') /\
    if failed then (exists e, ca_errors c' = ca_errors c ++ [e]) /\
      (calm c -> calm c' /\ ca_store c' = rename_with (steps_map (take k l)) (ca_store c))
    else ca_errors c' = ca_errors c /\ ca_store c' = rename_with (steps_map l) (ca_store c).
Proof.
  intros Hl. revert c moved. induction Hl as [|r l Hr _ IH]; intros c moved Hp Ht; cbn [temp_phase] in Ht.
  { injection Ht as <- <- <-. exists 0%nat. split_and!; try done. symmetry. by apply rename_with_id. }
  destruct (run c r.1 r.2) as [c1 f1] eqn:Hrun. apply run_spec in Hrun as (Hp1 & He & _ & Hcalm & Hf); [|done..]. destruct f1.
  - injection Ht as <- <- <-. exists 0%nat. split_and!; [done..| |].
    + exists (CascadeError r.1 r.2). cbn. by rewrite He.
    + intros Hc. split; [by apply Hcalm|]. cbn. rewrite Hf by done. symmetry. by apply rename_with_id.
  - apply IH in Ht as (k & -> & Hp' & Hk); [|done]. exists (S k). rewrite firstn_cons. cbn [rev]. rewrite <- app_assoc.
    split_and!; [done..|]. destruct failed.
    + destruct Hk as [[e He'] Hc]. split; [exists e; by rewrite He', He|]. intros Hcc. destruct (Hc (Hcalm Hcc)) as [? Hst].
      split; [done|]. rewrite Hst, Hf. by apply rename_with_steps.
    + destruct Hk as [He' Hst]. split; [congruence|]. rewrite Hst, Hf. by apply rename_with_steps.
Qed.

(** * The cascade as a whole *)

Definition pairs_of (renames : list link_rename) : list (string * string) := (fun r => (rn_oldName r, rn_newName r)) <$> renames.

(** All the renames at once. *)
Definition at_once (renames : list link_rename) (s : string) : string := default s (mget s (pairs_of renames)).

(** What the diff of two stores with unique names gives. *)
Definition proper_renames (renames : list link_rename) : Prop :=
  NoDup (rn_oldName <$> renames) /\ Forall (fun r => rn_oldName r <> "" /\ rn_newName r <> "") renames.

(** No link or agent uses one of the temporary names. *)
Definition unused_tmp (stamp : Z) (renames : list link_rename) (st : store) : Prop := forall t, t ∈ tmp_names stamp renames ->
  t ∉ rn_oldName <$> renames /\ t ∉ rn_newName <$> renames /\ forall a, a ∈ st_agents st -> t ∉ row_names a.

Lemma tmp_names_NoDup stamp renames : NoDup (tmp_names stamp renames).
Proof.
  unfold tmp_names. apply NoDup_fmap_2_strong; [|apply NoDup_seq]. intros i j _ _ H. unfold tmp_name in H.
  apply (inj (String.append _)), (inj (String.append _)), (inj (String.append _)) in H.
  assert (forall s t : string, s +:+ "__" = t +:+ "__" -> s = t) as Hinj.
  { clear. induction s as [|c s IH]; intros [|d t]; rewrite ?sapp_nil_l, ?sapp_String; intros H; [done| | |].
    - apply (f_equal String.length) in H. cbn [String.length] in H. rewrite slength_app in H. cbn in H. lia.
    - apply (f_equal String.length) in H. cbn [String.length] in H. rewrite slength_app in H. cbn in H. lia.
    - injection H as -> H. by rewrite (IH t). }
  apply Hinj, showZ_inj in H; lia.
Qed.

Lemma tmp_names_named stamp renames : Forall (fun t => t <> "") (tmp_names stamp renames).
Proof. apply Forall_forall. intros t (i & -> & _)%list_elem_of_fmap. done. Qed.

Lemma mget_zip_in (s : string) (ks vs : list string) v : mget s (zip ks vs) = Some v -> v ∈ vs.
Proof.
  intros H%mget_elem_of. apply list_elem_of_lookup in H as [i Hi]. apply lookup_zip_Some in Hi as [_ Hi]. by eapply list_elem_of_lookup_2.
Qed.

Lemma mget_zip_through (s : string) olds tmps news : NoDup tmps -> s ∉ tmps -> length olds = length tmps -> length news = length tmps ->
  default (default s (mget s (zip olds tmps))) (mget (default s (mget s (zip olds tmps))) (zip tmps news)) =
  default s (mget s (zip olds news)).
Proof.
  revert olds news. induction tmps as [|t tmps IH]; intros [|o olds] [|n news] Hn Hs Hl1 Hl2; try done.
  apply NoDup_cons in Hn as [Ht Hn]. apply not_elem_of_cons in Hs as [Hst Hs]. cbn.
  destruct (decide (o = s)) as [->|Ho]; cbn; [by rewrite decide_True|]. rewrite decide_False; [apply IH; auto with lia|].
  destruct (mget s (zip olds tmps)) as [v|] eqn:Hv; cbn; [|congruence]. intros ->. apply Ht. by eapply mget_zip_in.
Qed.

Lemma zip_named ks vs : Forall (fun s => s <> "") ks -> Forall (fun s => s <> "") vs -> Forall named (zip ks vs).
Proof.
  intros Hk. revert vs. induction Hk as [|k ks Hk _ IH]; intros [|v vs] Hv; cbn; try constructor; inversion Hv; subst; [done|by apply IH].
Qed.

Lemma elem_of_take_sub {A} (x : A) k l : x ∈ take k l -> x ∈ l.
Proof. intros H. rewrite <- (take_drop k l). apply elem_of_app. by left. Qed.

Lemma NoDup_take_sub {A} k (l : list A) : NoDup l -> NoDup (take k l).
Proof. intros H. rewrite <- (take_drop k l) in H. by apply NoDup_app in H as [? _]. Qed.

Lemma elem_of_rev {A} (x : A) l : x ∈ rev l <-> x ∈ l.
Proof. by rewrite !list_elem_of_In, <- in_rev. Qed.

Lemma NoDup_rev_back {A} (l : list A) : NoDup l -> NoDup (rev l).
Proof. rewrite !NoDup_ListNoDup. apply NoDup_rev. Qed.

Section cascade_facts.
Variables (stamp : Z) (renames : list link_rename).
Hypothesis Hrenames : proper_renames renames.

Let olds := rn_oldName <$> renames.
Let news := rn_newName <$> renames.
Let tmp := tmp_names stamp renames.

Lemma tmp_length : length tmp = length renames.
Proof. unfold tmp, tmp_names. by rewrite length_fmap, length_seq. Qed.

Lemma pairs_zip : pairs_of renames = zip olds news.
Proof. unfold pairs_of, olds, news. clear. induction renames as [|r l IH]; [done|]. cbn. f_equal. apply IH. Qed.

Lemma names_given : Forall (fun s => s <> "") olds /\ Forall (fun s => s <> "") news.
Proof. unfold olds, news. rewrite !Forall_fmap. destruct Hrenames as [_ H]. split; (eapply Forall_impl; [exact H|]); by intros r []. Qed.

Lemma keys_zip (ks vs : list string) : length vs = length ks -> (zip ks vs).*1 = ks /\ (zip ks vs).*2 = vs.
Proof. intros H. split; [apply fst_zip|apply snd_zip]; lia. Qed.

(** Without temporary names. *)
Lemma direct_steps s : needsTemp renames = false -> steps_map (pairs_of renames) s = at_once renames s.
Proof.
  intros Ht. apply steps_map_lookup.
  - unfold pairs_of. rewrite <- list_fmap_compose. apply Hrenames.
  - unfold pairs_of. rewrite <- !list_fmap_compose. intros v (r & -> & Hr)%list_elem_of_fmap Hin.
    unfold needsTemp in Ht. rewrite existsb_false in Ht. specialize (Ht r Hr). by apply bool_decide_eq_false in Ht.
Qed.

(** By way of the temporary names. *)
Lemma detour_steps s : s ∉ tmp -> (forall t, t ∈ tmp -> t ∉ olds /\ t ∉ news) ->
  steps_map (zip olds tmp ++ zip tmp news) s = at_once renames s.
Proof.
  intros Hs Hfresh. assert (length olds = length tmp /\ length news = length tmp) as [Hlo Hln].
  { rewrite tmp_length. unfold olds, news. by rewrite !length_fmap. }
  destruct (keys_zip olds tmp (eq_sym Hlo)) as [Hk1 Hv1], (keys_zip tmp news Hln) as [Hk2 Hv2].
  rewrite steps_map_app, !steps_map_lookup.
  - unfold at_once. rewrite pairs_zip. apply mget_zip_through; [apply tmp_names_NoDup|done..].
  - rewrite Hk1. apply Hrenames.
  - rewrite Hk1, Hv1. intros v Hv. by apply Hfresh.
  - rewrite Hk2. apply tmp_names_NoDup.
  - rewrite Hk2, Hv2. intros v Hv Hin. by apply Hfresh in Hin as [_ ?].
Qed.

(** There and back. *)
Lemma back_steps k s : s ∉ tmp -> (forall t, t ∈ tmp -> t ∉ olds) ->
  steps_map (take k (zip olds tmp) ++ ((fun m => (m.2, m.1)) <$> rev (take k (zip olds tmp)))) s = s.
Proof.
  intros Hs Hfresh. assert (length olds = length tmp) as Hlo by (rewrite tmp_length; unfold olds; by rewrite length_fmap).
  destruct (keys_zip olds tmp (eq_sym Hlo)) as [Hk1 Hv1]. set (l := take k (zip olds tmp)).
  assert (NoDup l.*1) as Hn1 by (unfold l; rewrite fmap_take, Hk1; apply NoDup_take_sub, Hrenames).
  assert (NoDup l.*2) as Hn2 by (unfold l; rewrite fmap_take, Hv1; apply NoDup_take_sub, tmp_names_NoDup).
  assert (forall o, o ∈ l.*1 -> o ∈ olds) as Ho by (unfold l; rewrite fmap_take, Hk1; intros o; apply elem_of_take_sub).
  assert (forall t, t ∈ l.*2 -> t ∈ tmp) as Ht by (unfold l; rewrite fmap_take, Hv1; intros t; apply elem_of_take_sub).
  set (b := (fun m => (m.2, m.1)) <$> rev l).
  assert (b.*1 = rev l.*2) as Hb1 by (unfold b; rewrite <- list_fmap_compose; unfold compose; cbn; apply map_rev).
  assert (b.*2 = rev l.*1) as Hb2 by (unfold b; rewrite <- list_fmap_compose; unfold compose; cbn; apply map_rev).
  rewrite steps_map_app, !steps_map_lookup; [|done|..].
  - destruct (mget s l) as [t|] eqn:Hm; cbn.
    + rewrite (elem_of_mget t s b); [done| |].
      * rewrite Hb1. by apply NoDup_rev_back.
      * unfold b. apply list_elem_of_fmap. exists (s, t). split; [done|]. rewrite elem_of_rev. by apply mget_elem_of.
    + assert (mget s b = None) as ->; [|done]. apply mget_None. rewrite Hb1, elem_of_rev. intros Hin. by apply Hs, Ht.
  - intros t Hin Hino. by apply (Hfresh t); [apply Ht|apply Ho].
  - rewrite Hb1. by apply NoDup_rev_back.
  - rewrite Hb1, Hb2. intros o. rewrite !elem_of_rev. intros Hino Hin. by apply (Hfresh o); [apply Ht|apply Ho].
Qed.
End cascade_facts.

Lemma cascade_named stamp renames : proper_renames renames ->
  Forall named (pairs_of renames) /\ Forall named (zip (rn_oldName <$> renames) (tmp_names stamp renames)) /\
  Forall named (zip (tmp_names stamp renames) (rn_newName <$> renames)).
Proof.
  intros H. destruct (names_given renames H) as [Ho Hn]. rewrite (pairs_zip renames).
  split_and!; apply zip_named; done || apply tmp_names_named.
Qed.

Lemma back_named k l : Forall named l -> Forall named ((fun m : string * string => (m.2, m.1)) <$> rev (take k l)).
Proof.
  rewrite !Forall_forall. intros H r (m & -> & Hm)%list_elem_of_fmap. rewrite elem_of_rev in Hm.
  apply elem_of_take_sub, H in Hm as []. by split.
Qed.

(** ** Calls that do not fail *)

Definition quiet (c : cascade) : Prop := Forall (fun o => o = None) (ca_outcomes c).

Lemma run_quiet c from to : quiet c -> exists c', run c from to = (c', false) /\ quiet c' /\ ca_errors c' = ca_errors c.
Proof.
  intros Hq. unfold run. assert (Forall (fun o => o = None) (tail (ca_outcomes c))) as Ht by (destruct Hq; [constructor|done]).
  destruct (bool_decide _); [by eexists|]. unfold quiet in Hq. destruct (ca_outcomes c) as [|[n|] os]; [by eexists| |by eexists].
  by apply Forall_cons in Hq as [? _].
Qed.

Lemma quiet_steps step c l : step = run_step \/ step = run_twice -> quiet c -> ca_errors (foldl step c l) = ca_errors c.
Proof.
  intros Hs. revert c. induction l as [|r l IH]; intros c Hq; [done|]. cbn [foldl].
  destruct (run_quiet c r.1 r.2 Hq) as (c' & Hrun & Hq' & He). rewrite <- He.
  destruct Hs as [-> | ->]; unfold run_step, run_twice; rewrite Hrun; by apply IH.
Qed.

Lemma temp_phase_quiet c moved l : quiet c -> exists c' moved', temp_phase c moved l = (c', moved', false) /\ quiet c'.
Proof.
  revert c moved. induction l as [|r l IH]; intros c moved Hq; cbn [temp_phase]; [by eexists _, _|].
  destruct (run_quiet c r.1 r.2 Hq) as (c' & -> & Hq' & _). by apply IH.
Qed.

(** C12. A rename cascade without reported errors moved every binding and every whitelist entry
    from the old to the new names at once, swaps and chains included, whatever calls failed
    half-way and were retried; without failing calls there are no errors. *)
Theorem cascade_is_simultaneous stamp renames outcomes st :
  let r := cascadeLinkRenames stamp renames outcomes st in
  proper_renames renames -> all_plain st -> unused_tmp stamp renames st ->
  (cr_errors r.2 = [] -> r.1 = rename_with (at_once renames) st /\ cr_rolledBack r.2 = false) /\
  (Forall (fun o => o = None) outcomes -> cr_errors r.2 = []).
Proof.
  cbv zeta. intros Hr Hp Hu. destruct (cascade_named stamp renames Hr) as (Hn0 & Hn1 & Hn2). unfold cascadeLinkRenames.
  destruct (needsTemp renames) eqn:Ht; cbn [negb].
  - destruct (temp_phase _ _ _) as [[c moved] failed] eqn:Hph. pose proof Hph as Hcalls.
    apply temp_phase_spec in Hph as (k & Hmoved & Hpc & Hc); [|done..]. destruct failed.
    + destruct Hc as [[e He] _]. cbn in He. split.
      * cbn. intros Herr. destruct (good_steps run_step c ((fun m => (m.2, m.1)) <$> moved) run_step_good) as [Hlen _]; [|done|].
        { rewrite Hmoved, app_nil_r. by apply back_named. }
        rewrite Herr, He in Hlen. cbn in Hlen. lia.
      * intros Ho. destruct (temp_phase_quiet (Cascade st outcomes []) [] (zip (rn_oldName <$> renames) (tmp_names stamp renames)) Ho) as (? & ? & Hq & _).
        congruence.
    + destruct Hc as [He Hst]. cbn in He, Hst. cbn. split.
      * intros Herr. split; [|done]. destruct (good_steps run_twice c _ run_twice_good Hn2 Hpc) as [_ Hgo].
        rewrite Hgo by (by rewrite Herr, He). rewrite Hst, rename_with_steps by done.
        apply rename_with_ext; [done|]. intros a s Ha Hs. unfold compose. rewrite <- steps_map_app. apply detour_steps; [done| |].
        -- intros Hin. destruct (Hu s Hin) as (_ & _ & Hf). by apply (Hf a).
        -- intros t Hin. destruct (Hu t Hin) as (? & ? & _). done.
      * intros Ho. rewrite quiet_steps; [done|by right|].
        destruct (temp_phase_quiet (Cascade st outcomes []) [] (zip (rn_oldName <$> renames) (tmp_names stamp renames)) Ho) as (? & ? & Hq & ?).
        by assert (c = x) as -> by congruence.
  - change ((fun r => (rn_oldName r, rn_newName r)) <$> renames) with (pairs_of renames). cbn [fst snd cr_errors cr_rolledBack]. split.
    + intros Herr. split; [|done]. destruct (good_steps run_step (Cascade st outcomes []) _ run_step_good Hn0 Hp) as [_ Hgo].
      rewrite Hgo by (by rewrite Herr). apply rename_with_ext; [done|]. intros a s _ _. by apply direct_steps.
    + intros Ho. rewrite quiet_steps; [done|by left|done].
Qed.

(** A cascade that reports a failure of the first phase and nothing else has left every
    binding as it was, provided a failing call changes nothing. *)
Theorem cascade_rolls_back stamp renames outcomes st :
  let r := cascadeLinkRenames stamp renames outcomes st in
  proper_renames renames -> all_plain st -> unused_tmp stamp renames st ->
  Forall (fun o => o = None \/ o = Some 0%nat) outcomes ->
  cr_rolledBack r.2 = true -> (length (cr_errors r.2) <= 1)%nat -> r.1 = st.
Proof.
  cbv zeta. intros Hr Hp Hu Hcalm. destruct (cascade_named stamp renames Hr) as (_ & Hn1 & _). unfold cascadeLinkRenames.
  destruct (needsTemp renames); cbn [negb]; [|done].
  destruct (temp_phase _ _ _) as [[c moved] failed] eqn:Hph.
  apply temp_phase_spec in Hph as (k & Hmoved & Hpc & Hc); [|done..]. destruct failed; [|done].
  rewrite app_nil_r in Hmoved. subst moved. destruct Hc as [[e He] Hst]. specialize (Hst Hcalm) as [_ Hst]. cbn in He, Hst.
  intros _ Hlen. cbn [fst snd cr_errors] in Hlen |- *.
  set (back := (fun m : string * string => (m.2, m.1)) <$> rev (take k (zip (rn_oldName <$> renames) (tmp_names stamp renames)))) in *.
  destruct (good_steps run_step c back run_step_good (back_named _ _ Hn1) Hpc) as [Hge Hgo]. rewrite He in Hge, Hgo. cbn in Hge, Hgo.
  rewrite Hgo by lia. rewrite Hst, rename_with_steps by done. rewrite <- (rename_with_id st Hp) at 2.
  apply rename_with_ext; [done|]. intros a s Ha Hs. unfold compose. rewrite <- steps_map_app. apply back_steps; [done| |].
  - intros Hin. destruct (Hu s Hin) as (_ & _ & Hf). by apply (Hf a).
  - intros t Hin. by destruct (Hu t Hin) as (? & _).
Qed.

(** * Examples *)

Definition ex_bound (id : Z) (link site : string) : agent_row :=
  AgentRow id link "native" None None None "wg0" None None None None (Some link) None "active" None
    (Some (json_strings [site; "mainz"])) None false "open" None None None None None None false.

Definition ex_fleet : store := Store [ex_bound 1 "berlin" "koeln"; ex_bound 2 "koeln" "berlin"] [] [] [] [].
Definition ex_swap : list link_rename := [LinkRename "berlin" "koeln"; LinkRename "koeln" "berlin"].

Lemma ex_swap_proper : proper_renames ex_swap.
Proof. split; [vm_compute; repeat constructor; set_solver|repeat constructor; done]. Qed.

Lemma ex_fleet_plain : all_plain ex_fleet.
Proof. do 2 (constructor; [right; right; by eexists|]). constructor. Qed.

Lemma ex_fleet_unused : unused_tmp 17 ex_swap ex_fleet.
Proof.
  assert (forallb (fun t => bool_decide (t ∉ rn_oldName <$> ex_swap) && bool_decide (t ∉ rn_newName <$> ex_swap) &&
    forallb (fun a => bool_decide (t ∉ row_names a)) (st_agents ex_fleet)) (tmp_names 17 ex_swap) = true) as H by (vm_compute; reflexivity).
  rewrite forallb_true in H. intros t Ht. specialize (H t Ht). rewrite !andb_true_iff, !bool_decide_eq_true, forallb_true in H.
  destruct H as [[Ho Hn] Ha]. split_and!; [done..|]. intros a Hin. by apply Ha, bool_decide_eq_true in Hin.
Qed.

(** The first call of the second phase fails after one update and succeeds when repeated. *)
Lemma cascade_is_simultaneous_witness :
  (cascadeLinkRenames 17 ex_swap [None; None; Some 1%nat] ex_fleet).1 = rename_with (at_once ex_swap) ex_fleet /\
  (ag_wg_link_name <$> st_agents (rename_with (at_once ex_swap) ex_fleet)) = [Some "koeln"; Some "berlin"].
Proof.
  split; [|vm_compute; reflexivity].
  apply (cascade_is_simultaneous 17 ex_swap [None; None; Some 1%nat] ex_fleet ex_swap_proper ex_fleet_plain ex_fleet_unused).
  vm_compute. reflexivity.
Defined.

Lemma cascade_rolls_back_witness :
  (cascadeLinkRenames 17 ex_swap [None; Some 0%nat] ex_fleet).1 = ex_fleet.
Proof.
  apply (cascade_rolls_back 17 ex_swap [None; Some 0%nat] ex_fleet ex_swap_proper ex_fleet_plain ex_fleet_unused).
  - constructor; [by left|]. constructor; [by right|constructor].
  - vm_compute. reflexivity.
  - vm_compute. lia.
Defined.

(** A call of the first phase that fails after an update is not undone: the roll back passes
    it over, and the agent stays on the temporary name. *)
Example partial_failure_strands_binding :
  let r := cascadeLinkRenames 17 ex_swap [Some 1%nat] ex_fleet in
  cr_rolledBack r.2 = true /\ length (cr_errors r.2) = 1%nat /\
  (ag_wg_link_name <$> st_agents r.1) = [Some "__fg_rename_17_0__"; Some "koeln"].
Proof. vm_compute. done. Qed.
