(* ===== verification/WgPlan.v ===== *)
(** The planning of metadata changes: [backend/internal/wireguard-plan.js].

    A patch is normalised, previewed against the status of the hub, checked, applied through
    the metadata store and carried to the agents; a backup is merged back into the live store.
    A backup is a document of the shape the store has. *)

From S2P Require Import Prelude.
From S2P Require Import JsString.
From S2P Require Import JsVal.
From S2P Require Import Json.
From S2P Require Import ConfText.
From S2P Require Import Cidr.
From S2P Require Import IngressRules.
From S2P Require Import WgConf.
From S2P Require Import AgentText.
From S2P Require Import AgentMesh.
From S2P Require Import AgentStore.
From S2P Require Import AgentService.
From S2P Require Import WgMeta.
From S2P Require Import WgStatus.
From S2P Require Import WgRename.
From coqutil Require Import Datatypes.RecordSetters.
Import OCamlLikeNotations.

Local Open Scope Z_scope.

(** * Patches and differences *)

(** [JSON.stringify(left) === JSON.stringify(right)]; [undefined] has no text. *)
Definition isEqual (left right : jsval) : bool :=
  match left, right with
  | VUndef, VUndef => true
  | VUndef, _ | _, VUndef => false
  | _, _ => bool_decide (json_text left = json_text right)
  end.

Record norm_patch := NormPatch { np_interfaces : list (string * obj); np_links : list (string * obj) }.

Definition entries_of (v : jsval) : list (string * jsval) := match v with VObj l => l | _ => [] end.

Definition clean_entries (clean : jsval -> result meta_error obj) (v : jsval) : result meta_error (list (string * obj)) :=
  es ← mapM (fun kv => o ← clean kv.2; Ok (kv.1, o)) (entries_of v);
  Ok (bfilter (fun ko => has_items ko.2) es).

Definition normalizePatch (patch : jsval) : result meta_error norm_patch :=
  interfaces ← clean_entries sanitizeInterfaceMetadataPatch (vget patch "interfaces");
  links ← clean_entries sanitizeLinkMetadataPatch (vget patch "links");
  Ok (NormPatch interfaces links).

Record diff_item := DiffItem {
  df_id : string; df_kind : string; df_changedFields : list string; df_before : obj; df_after : obj }.

Definition changed_fields (before after : obj) : list string :=
  bfilter (fun f => negb (isEqual (oget f before) (oget f after))) (uniq (before.*1 ++ after.*1)).

Definition diff_of (currentEntries : list (string * obj)) (kind : string) (ip : string * obj) : list diff_item :=
  let before := default [] (mget ip.1 currentEntries) in
  let after := mergeMetadataEntry before ip.2 in
  match changed_fields before after with
  | [] => []
  | fields => [DiffItem ip.1 kind fields before after]
  end.

Definition buildDiffEntries (currentEntries patchedEntries : list (string * obj)) (kind : string) : list diff_item :=
  patchedEntries ≫= diff_of currentEntries kind.

Record diff := Diff { di_interfaces : list diff_item; di_links : list diff_item }.

(** * The projected status *)

(** [Object.hasOwn(metadata, f) ? metadata[f] : xs]; also [metadata[f] || xs] of a list. *)
Definition own_list (f : string) (metadata : obj) (xs : list string) : list string :=
  if mhas f metadata then list_of f metadata else xs.

(** [metadata[f] || t || "unknown"] *)
Definition text_or_unknown (f : string) (metadata : obj) (t : string) : string :=
  text_or (text_of f metadata) (text_or t "unknown").

Definition buildProjectedInterface (item : iface_status) (metadata : obj) : iface_status :=
  { item with
    if_role := text_or_unknown "role" metadata (if_role item);
    if_managementMode := text_or_unknown "managementMode" metadata (if_managementMode item);
    if_importedNetworks := own_list "importedNetworks" metadata (if_importedNetworks item);
    if_exportedNetworks := own_list "exportedNetworks" metadata (if_exportedNetworks item);
    if_routeTargets := own_list "routeTargets" metadata (if_routeTargets item);
    if_notes := own_list "notes" metadata (if_notes item) }.

Definition projected_type (link : link_rec) (metadata : obj) : string := text_or_unknown "type" metadata (lk_type link).

Definition projected_name (link : link_rec) (metadata : obj) : string :=
  text_or (text_of "name" metadata)
    (match lk_peerPublicKey link with
     | Some k => projected_type link metadata +:+ "-" +:+ stake 8 k
     | None => lk_name link
     end).

Definition buildProjectedLink (link : link_rec) (metadata : obj) : link_rec :=
  {| lk_id := lk_id link;
     lk_interfaceName := lk_interfaceName link;
     lk_type := projected_type link metadata;
     lk_typeExplicit := lk_typeExplicit link;
     lk_name := projected_name link metadata;
     lk_peerPublicKey := lk_peerPublicKey link;
     lk_remoteEndpoint := lk_remoteEndpoint link;
     lk_allowedIps := lk_allowedIps link;
     lk_tunnelAddresses := lk_tunnelAddresses link;
     lk_exportedNetworks := own_list "exportedNetworks" metadata (lk_exportedNetworks link);
     lk_importedNetworks := own_list "importedNetworks" metadata (lk_importedNetworks link);
     lk_latestHandshake := lk_latestHandshake link;
     lk_rxBytes := lk_rxBytes link;
     lk_txBytes := lk_txBytes link;
     lk_active := lk_active link;
     lk_hasMetadata := has_items metadata;
     lk_returnPathMode := text_or_unknown "returnPathMode" metadata (lk_returnPathMode link);
     lk_remoteManagementMode := text_or_unknown "remoteManagementMode" metadata (lk_remoteManagementMode link);
     lk_platform := lk_platform link;
     lk_dns := lk_dns link;
     lk_fullTunnel := lk_fullTunnel link;
     lk_planIntent := text_or (text_of "planIntent" metadata) (text_or (lk_planIntent link) (projected_type link metadata));
     lk_planState := WgStatus.or_null (text_of "planState" metadata);
     lk_notes := own_list "notes" metadata (lk_notes link);
     lk_warnings := [];
     lk_nextActions := [] |}.

(** * What an apply needs *)

Definition configRelevantFields : list string :=
  ["name"; "type"; "importedNetworks"; "exportedNetworks"; "returnPathMode"; "remoteManagementMode"; "planIntent"; "planState";
   "role"; "managementMode"; "routeTargets"].

Inductive change_scope := ScopeNone | ScopeConfig | ScopeMetadata.

#[export] Instance change_scope_eq_dec : EqDecision change_scope.
Proof. solve_decision. Defined.

Definition diff_fields (d : diff) : list string :=
  (di_interfaces d ≫= df_changedFields) ++ (di_links d ≫= df_changedFields).

Definition classifyChangeScope (d : diff) : change_scope :=
  let fields := dedupe (diff_fields d) in
  if negb (has_items fields) then ScopeNone
  else if existsb (set_has configRelevantFields) fields then ScopeConfig else ScopeMetadata.

Record apply_contract := ApplyContract {
  ac_canApply : bool;
  ac_blockedBy : list string;
  ac_requiresBackup : bool;
  ac_changeScope : change_scope;
  ac_changeCount : Z;
  ac_recommendedSteps : list string }.

Definition buildApplyContract (errors nextActions : list string) (d : diff) : apply_contract :=
  let changedFieldCount := zsum (fun i => zlength (df_changedFields i)) (di_interfaces d) + zsum (fun i => zlength (df_changedFields i)) (di_links d) in
  let changeScope := classifyChangeScope d in
  let blockedBy := dedupe ((fun e => "error:" +:+ e) <$> errors) in
  let requiresBackup := negb (bool_decide (changeScope = ScopeNone)) && (0 <? changedFieldCount) in
  {| ac_canApply := negb (has_items blockedBy) && (0 <? changedFieldCount);
     ac_blockedBy := blockedBy;
     ac_requiresBackup := requiresBackup;
     ac_changeScope := changeScope;
     ac_changeCount := changedFieldCount;
     ac_recommendedSteps := dedupe (when requiresBackup "create-backup-before-apply" ++
       when (bool_decide (changeScope = ScopeConfig)) "implement-write-layer-before-apply" ++ take 5 nextActions) |}.

(** * The preview *)

Definition quoted (s : string) : string := String dquote (s +:+ String dquote "").

(** The message of one conflict. *)
Definition conflict_text (c : claim * claim) : string :=
  if decide (cl_net c.1 = cl_net c.2) then cl_net c.1 +:+ " claimed by " +:+ cl_name c.1 +:+ ", " +:+ cl_name c.2
  else cl_net c.1 +:+ " (" +:+ cl_name c.1 +:+ ") overlaps " +:+ cl_net c.2 +:+ " (" +:+ cl_name c.2 +:+ ")".

(** The fields of a link that [findLinkNetworkConflicts] reads. *)
Definition link_obj (l : link_rec) : obj :=
  [("name", VStr (lk_name l)); ("type", VStr (lk_type l)); ("importedNetworks", strs (lk_importedNetworks l))].

(** The names that occur twice, each once, in the order of the second occurrence. *)
Definition duplicate_step (st : list string * list string) (name : string) : list string * list string :=
  if decide (name = "") then st
  else if set_has st.1 name then (st.1, push_new st.2 name) else (st.1 ++ [name], st.2).

Definition duplicate_names (names : list string) : list string := (foldl duplicate_step ([], []) names).2.

Definition patch_entries (current patch : list (string * obj)) : list (string * obj) :=
  foldl (fun es kv => mset kv.1 (mergeMetadataEntry (default [] (mget kv.1 current)) kv.2) es) current patch.

Definition next_metadata (current : meta_store) (p : norm_patch) : meta_store :=
  MetaStore (patch_entries (ms_interfaces current) (np_interfaces p)) (patch_entries (ms_links current) (np_links p)).

Definition projected_links (st : status) (next : meta_store) : list link_rec :=
  (fun l => buildProjectedLink l (default [] (mget (lk_id l) (ms_links next)))) <$> st_links_of st.
Definition projected_interfaces (st : status) (next : meta_store) : list iface_status :=
  (fun i => buildProjectedInterface i (default [] (mget (if_name i) (ms_interfaces next)))) <$> st_interfaces st.

Definition preview_errors (st : status) (p : norm_patch) : list string :=
  let links := projected_links st (next_metadata (st_metadata st) p) in
  ((fun name => "Unknown interface " +:+ quoted name) <$>
     bfilter (fun name => negb (set_has (if_name <$> st_interfaces st) name)) (np_interfaces p).*1) ++
  ((fun id => "Unknown link " +:+ quoted id) <$> bfilter (fun id => negb (set_has (lk_id <$> st_links_of st) id)) (np_links p).*1) ++
  ((fun name => "Duplicate link name " +:+ quoted name +:+ " — link names must be unique for agent assignment") <$>
     duplicate_names (lk_name <$> links)) ++
  ((fun c => "Subnet conflict: " +:+ conflict_text c +:+ " — only one peer can route a subnet") <$>
     findLinkNetworkConflicts (mfrom ((fun l => (lk_id l, link_obj l)) <$> links)) None).

Record preview := Preview {
  pv_valid : bool;
  pv_errors : list string;
  pv_warnings : list string;
  pv_nextActions : list string;
  pv_apply : apply_contract;
  pv_patch : norm_patch;
  pv_diff : diff;
  pv_interfaces : list iface_status;
  pv_links : list link_rec;
  pv_topology : topology;
  pv_routes : route_analysis;
  pv_summary : summary }.

Definition buildPlanPreview (st : status) (patch : jsval) : result meta_error preview :=
  p ← normalizePatch patch;
  let current := st_metadata st in
  let next := next_metadata current p in
  let errors := preview_errors st p in
  let interfacesBase := projected_interfaces st next in
  let linksBase := projected_links st next in
  let tp := buildTopology interfacesBase linksBase in
  let ra := buildRouteAnalysis (ra_routes (st_routes st)) tp in
  let links := (fun l => enrichLinkRecord l ra) <$> linksBase in
  let interfaces := (fun i => enrichInterfaceStatus i links) <$> interfacesBase in
  let warnings := dedupe (deriveGlobalWarnings interfaces ra ++ ["Preview only applies metadata; live WireGuard config is unchanged"]) in
  let nextActions := dedupe (deriveGlobalNextActions interfaces links ra ++ when (has_items errors) "resolve-preview-errors") in
  let d := Diff (buildDiffEntries (ms_interfaces current) (np_interfaces p) "interface") (buildDiffEntries (ms_links current) (np_links p) "link") in
  Ok {| pv_valid := negb (has_items errors);
        pv_errors := errors;
        pv_warnings := warnings;
        pv_nextActions := nextActions;
        pv_apply := buildApplyContract errors nextActions d;
        pv_patch := p;
        pv_diff := d;
        pv_interfaces := interfaces;
        pv_links := links;
        pv_topology := tp;
        pv_routes := ra;
        pv_summary := buildSummary interfaces links tp ra |}.

(** * Applying a patch *)

Inductive plan_error :=
| MetaFailed (e : meta_error)
| PreviewInvalid (errors : list string)
| ApplyBlocked (blockedBy : list string)
| UnknownBackup
| CorruptBackup
| Unavailable.

Definition lift_meta {A} (m : result meta_error A) : result plan_error A :=
  match m with Ok x => Ok x | Throw e => Throw (MetaFailed e) end.

(** An entry of the audit file; the time and the results of the syncs are left out. *)
Record audit_entry := AuditEntry {
  au_changeScope : change_scope;
  au_changeCount : Z;
  au_interfaceTargets : list string;
  au_linkTargets : list string;
  au_restoredFrom : option string }.

(** [entries.unshift(entry)], then the first 25. *)
Definition appendApplyAudit (entries : list audit_entry) (entry : audit_entry) : list audit_entry := take 25 (entry :: entries).

(** What the planner writes: the metadata, its backups (file name and document, the newest
    last), the audit file, and the tables the rename cascade changes. *)
Record plan_world := PlanWorld {
  pw_meta : meta_store;
  pw_backups : list (string * meta_store);
  pw_audit : list audit_entry;
  pw_agents : store }.

(** The view the metadata checks have of a status link. *)
Definition live_of (l : link_rec) : live_link := LiveLink (lk_id l) (lk_type l) (default "" (lk_peerPublicKey l)) (lk_name l).

(** [finishMetadataWrite] up to the syncs: the cascade of the renames between the two stores,
    with the names of the status before and after the write. *)
Definition finishMetadataWrite (stamp : Z) (outcomes : list (option nat)) (previous written : meta_store) (statusBefore statusAfter : status)
    (agents : store) : store * cascade_result :=
  cascadeLinkRenames stamp
    (diffLinkRenames previous written (statusLinkNames (live_of <$> st_links_of statusBefore)) (statusLinkNames (live_of <$> st_links_of statusAfter)))
    outcomes agents.

(** What the caller syncs after the write: the confs of these interfaces, and the agents. *)
Record applied := Applied {
  ap_preview : preview;
  ap_cascade : cascade_result;
  ap_syncConfs : option (list string) }.

(** A normalised patch as the object it is. *)
Definition as_objects (es : list (string * obj)) : list (string * jsval) := (fun ko => (ko.1, VObj ko.2)) <$> es.
Definition patch_value (p : norm_patch) : jsval :=
  VObj [("interfaces", VObj (as_objects (np_interfaces p))); ("links", VObj (as_objects (np_links p)))].

Section apply.
(** The status of the hub as a function of the metadata (the interfaces do not change), the
    name of the new backup, and how the calls of the cascade end. *)
Variable status_of : meta_store -> status.
Variable backupName : string.
Variable stamp : Z.
Variable outcomes : list (option nat).

(** [stored] is the store read under the lock, [w] the world when the handler starts. *)
Definition applyMetadata (w : plan_world) (stored : meta_store) (patch : jsval) : result plan_error (plan_world * applied) :=
  let statusBefore := status_of (pw_meta w) in
  pv ← lift_meta (buildPlanPreview statusBefore patch);
  throw_if (negb (pv_valid pv)) (PreviewInvalid (pv_errors pv));;
  throw_if (negb (ac_canApply (pv_apply pv))) (ApplyBlocked (ac_blockedBy (pv_apply pv)));;
  let np := pv_patch pv in
  written ← lift_meta (applyMetadataPatch (fun _ => Ok tt) stored (patch_value np));
  let scope := ac_changeScope (pv_apply pv) in
  let statusAfter := status_of written.1 in
  let (agents, cascade) := finishMetadataWrite stamp outcomes written.2 written.1 statusBefore statusAfter (pw_agents w) in
  Ok (PlanWorld written.1 (pw_backups w ++ [(backupName, pw_meta w)])
        (appendApplyAudit (pw_audit w) (AuditEntry scope (ac_changeCount (pv_apply pv)) (np_interfaces np).*1 (np_links np).*1 None)) agents,
      Applied pv cascade (if decide (scope = ScopeConfig) then Some (if_name <$> st_interfaces statusAfter) else None)).

(** * Restoring a backup *)

Definition RESTORE_KEEP_IF_MISSING : list string := ["name"; "type"; "importedNetworks"].

Definition keep_field (current : obj) (merged : obj) (key : string) : obj :=
  let missing := if decide (key = "name") then bool_decide (name_of merged = "") else negb (mhas key merged) in
  match mget key current with
  | Some v => if missing && match v with VUndef => false | VStr s => nonempty s | _ => true end then mset key v merged else merged
  | None => merged
  end.

Definition mergeRestoredLink (current : option obj) (backupEntry : obj) : obj :=
  match current with
  | None => backupEntry
  | Some cur => foldl (keep_field cur) backupEntry RESTORE_KEEP_IF_MISSING
  end.

Record merge_info := MergeInfo {
  mi_store : meta_store;
  mi_restoredLinks : list string;
  mi_keptLinks : list string;
  mi_skippedLinks : list string;
  mi_skippedInterfaces : list string }.

Definition restore_link (bakLinks : list (string * obj)) (links : list (string * obj)) (id : string) : list (string * obj) :=
  match mget id bakLinks with
  | Some e => mset id (mergeRestoredLink (mget id links) e) links
  | None => links
  end.

Definition mergeBackupIntoLive (current backup : meta_store) (liveLinkIds liveInterfaceNames : list string) : merge_info :=
  {| mi_store := MetaStore
       (foldl (fun m kv => if set_has liveInterfaceNames kv.1 then mset kv.1 kv.2 m else m) (ms_interfaces current) (ms_interfaces backup))
       (foldl (restore_link (ms_links backup)) (ms_links current) liveLinkIds);
     mi_restoredLinks := bfilter (fun id => mhas id (ms_links backup)) liveLinkIds;
     mi_keptLinks := bfilter (fun id => negb (mhas id (ms_links backup))) liveLinkIds;
     mi_skippedLinks := bfilter (fun id => negb (set_has liveLinkIds id)) (ms_links backup).*1;
     mi_skippedInterfaces := bfilter (fun n => negb (set_has liveInterfaceNames n)) (ms_interfaces backup).*1 |}.

(** The backup file as it reads: [None] when it is not JSON. *)
Definition restoreMetadataBackup (w : plan_world) (stored : meta_store) (read : string -> option meta_store) (backupPath : string)
    : result plan_error (plan_world * (merge_info * cascade_result)) :=
  throw_if (negb (set_has (pw_backups w).*1 backupPath)) UnknownBackup;;
  backup ← match read backupPath with Some b => Ok b | None => Throw CorruptBackup end;
  let statusBefore := status_of (pw_meta w) in
  throw_if (negb (st_available statusBefore)) Unavailable;;
  let liveLinkIds := uniq (lk_id <$> st_links_of statusBefore) in
  let liveInterfaceNames := uniq (if_name <$> st_interfaces statusBefore) in
  let info := mergeBackupIntoLive stored backup liveLinkIds liveInterfaceNames in
  let written := mi_store info in
  let (agents, cascade) := finishMetadataWrite stamp outcomes stored written statusBefore (status_of written) (pw_agents w) in
  Ok (PlanWorld written (pw_backups w ++ [(backupName, pw_meta w)])
        (appendApplyAudit (pw_audit w) (AuditEntry ScopeConfig 0
           (bfilter (set_has liveInterfaceNames) (ms_interfaces backup).*1) (mi_restoredLinks info) (Some backupPath))) agents,
      (info, cascade)).
End apply.

(** * Sanitizing twice *)

(** A sanitizer as the list of its fields. *)
Definition cleaner : Type := string * (jsval -> result meta_error jsval).
Definition run_fields (fs : list cleaner) (input : jsval) (out : obj) : result meta_error obj :=
  foldM (fun out fc => field input fc.1 fc.2 out) out fs.

Definition link_fields : list cleaner :=
  [("name", pure_field clean_name);
   ("type", pure_field (fun v => str_val (normalizeLinkType (str_truthy "" v))));
   ("exportedNetworks", networks); ("importedNetworks", networks);
   ("returnPathMode", pure_field (one_of_set RETURN_PATH_MODES));
   ("remoteManagementMode", pure_field (one_of_set REMOTE_MANAGEMENT_MODES));
   ("planIntent", pure_field opt_text); ("planState", pure_field opt_text);
   ("dns", dns_list); ("fullTunnel", pure_field (fun v => VBool (truthy v)));
   ("platform", pure_field clean_platform); ("notes", pure_field (fun v => strs (sanitizeStringArray v)))].

Definition interface_fields : list cleaner :=
  [("role", pure_field (fun v => str_val (normalizeInterfaceRole (str_truthy "" v))));
   ("managementMode", pure_field (one_of_set MANAGEMENT_MODES));
   ("exportedNetworks", networks); ("importedNetworks", networks); ("routeTargets", networks);
   ("notes", pure_field (fun v => strs (sanitizeStringArray v))); ("dns", dns_list)].

Lemma bind_ret {A} (m : result meta_error A) : (x ← m; Ok x) = m.
Proof. by destruct m. Qed.

Lemma sanitizeLink_fields input : input <> VNull -> sanitizeLinkMetadataPatch input = run_fields link_fields input [].
Proof.
  intros Hn. unfold sanitizeLinkMetadataPatch, run_fields, link_fields. assert ((match input with VNull => true | _ => false end) = false) as -> by by destruct input.
  cbn [throw_if mbind result_bind foldM fst snd].
  repeat match goal with |- context [field ?i ?f ?c ?o] => destruct (field i f c o); cbn [mbind result_bind]; [|done] end. done.
Qed.

Lemma sanitizeInterface_fields input : input <> VNull -> sanitizeInterfaceMetadataPatch input = run_fields interface_fields input [].
Proof.
  intros Hn. unfold sanitizeInterfaceMetadataPatch, run_fields, interface_fields.
  assert ((match input with VNull => true | _ => false end) = false) as -> by by destruct input.
  cbn [throw_if mbind result_bind foldM fst snd].
  repeat match goal with |- context [field ?i ?f ?c ?o] => destruct (field i f c o); cbn [mbind result_bind]; [|done] end. done.
Qed.

(** A cleaner leaves what it returned as it is, the empty text apart. *)
Definition stable (clean : jsval -> result meta_error jsval) : Prop :=
  forall v w, clean v = Ok w -> w <> VStr "" -> clean w = Ok w.

Lemma run_fields_Ok fs input out p : run_fields fs input out = Ok p ->
  exists q, p = out ++ q /\ (forall f, f ∈ q.*1 -> f ∈ fs.*1) /\ (NoDup fs.*1 -> NoDup q.*1) /\
    forall P, (forall f c w, (f, c) ∈ fs -> c (vget input f) = Ok w -> (f, w) ∈ q -> mget f P = Some w /\ c w = Ok w) ->
      (forall f, f ∈ fs.*1 -> f ∉ q.*1 -> mget f P = None) ->
      NoDup fs.*1 -> forall out', run_fields fs (VObj P) out' = Ok (out' ++ q).
Proof.
  unfold run_fields. revert out. induction fs as [|[f c] fs IH]; intros out H.
  { injection H as <-. exists []. rewrite app_nil_r. split_and!; [done..|constructor|]. intros P _ _ _ out'. by rewrite app_nil_r. }
  cbn [foldM fst snd] in H. apply bind_Ok in H as (o & Ho & H). apply IH in H as (q & -> & Hq & Hnq & Hgo). unfold field in Ho.
  destruct (has_own input f) eqn:Hh.
  - apply bind_Ok in Ho as (w & Hw & [= <-]). exists ((f, w) :: q). rewrite <- app_assoc. split_and!.
    + done.
    + intros g. cbn. rewrite !elem_of_cons. intros [->|Hg]; [by left|right; by apply Hq].
    + cbn. rewrite !NoDup_cons. intros [Hf Hn]. split; [|by apply Hnq]. intros Hin. by apply Hf, Hq.
    + intros P HP HN. cbn [fmap list_fmap] in *. rewrite NoDup_cons. intros [Hf Hn] out'.
      destruct (HP f c w) as [Hm Hc]; [by left|done|by left|].
      assert (field (VObj P) f c out' = Ok (out' ++ [(f, w)])) as Hfield.
      { unfold field, has_own, vget, mhas. rewrite Hm. cbn [default from_option]. unfold id. by rewrite Hc. }
      cbn [foldM fst snd]. rewrite Hfield. cbn [mbind result_bind].
      rewrite Hgo; [by rewrite <- app_assoc|..|done].
      * intros g d x Hg Hx Hin. apply (HP g d x); [by right|done|by right].
      * intros g Hg Hnin. apply HN; [by right|]. cbn. rewrite not_elem_of_cons. split; [|done]. by intros ->.
  - injection Ho as <-. exists q. split_and!; [done| | |].
    + intros g Hg. right. by apply Hq.
    + cbn. rewrite NoDup_cons. intros [_ Hn]. by apply Hnq.
    + intros P HP HN. cbn [fmap list_fmap] in *. rewrite NoDup_cons. intros [Hf Hn] out'.
      assert (field (VObj P) f c out' = Ok out') as Hfield.
      { unfold field, has_own, mhas. rewrite (HN f); [done|by left|]. intros Hin. by apply Hf, Hq. }
      cbn [foldM fst snd]. rewrite Hfield. cbn [mbind result_bind]. apply Hgo; [|intros g Hg Hnin; apply HN; [by right|done]|done].
      intros g d x Hg Hx Hin. apply (HP g d x); [by right|done..].
Qed.

Lemma networks_stable : stable networks.
Proof.
  intros v w (l & Hl & [= <-])%bind_Ok _. apply sanitizeNetworkArray_Ok in Hl as [Hn Hf]. unfold networks, sanitizeNetworkArray, strs.
  assert (forall out, foldM network_step out (VStr <$> l) = Ok (out ++ l)) as ->.
  { clear Hn. induction Hf as [|n l [Hc Hp] _ IH]; intros out; [by rewrite app_nil_r|]. rewrite fmap_cons. cbn [foldM].
    assert (network_step out (VStr n) = Ok (out ++ [n])) as ->.
    { apply canonicalize_token in Hc as Hk. destruct Hk as [(Hne & _ & _ & Ht) _]. unfold network_step. cbn [str_or is_nullish to_string].
      rewrite Ht, decide_False, Hc by done. by rewrite Hp. }
    cbn [mbind result_bind]. by rewrite IH, <- app_assoc. }
  cbn [mbind result_bind app]. by rewrite uniq_NoDup.
Qed.

Lemma dns_step_shape out item out' : dns_step out item = Ok out' -> out' = out \/ exists s, out' = push_new out s /\ s <> "" /\ trim s = s /\ isValidDnsEntry (VStr s) = true.
Proof.
  unfold dns_step. destruct (decide _) as [|Hne]; [intros [= <-]; by left|]. intros (u & Hv%throw_if_Ok%negb_false_iff & [= <-])%bind_Ok.
  right. eexists. split_and!; [done|done|apply trim_idemp|done].
Qed.

Lemma dns_stable : stable dns_list.
Proof.
  intros v w (l & Hl & [= <-])%bind_Ok _.
  assert (NoDup l /\ Forall (fun s => s <> "" /\ trim s = s /\ isValidDnsEntry (VStr s) = true) l) as [Hn Hf].
  { unfold sanitizeDnsArray in Hl. destruct v; try done; try (injection Hl as <-; split; constructor).
    apply (foldM_inv _ (fun out => NoDup out /\ Forall (fun s => s <> "" /\ trim s = s /\ isValidDnsEntry (VStr s) = true) out) _ _ _) in Hl;
      [done| |split; constructor].
    intros b x c _ [Hb Hfb] [->|(s & -> & Hs)]%dns_step_shape; [done|]. split; [by apply push_new_NoDup|].
    rewrite Forall_forall in *. intros t [Ht| ->]%elem_of_push_new; [by apply Hfb|done]. }
  unfold dns_list, sanitizeDnsArray, strs.
  assert (forall out, NoDup (out ++ l) -> foldM dns_step out (VStr <$> l) = Ok (out ++ l)) as Hgo.
  { clear Hn Hl. induction Hf as [|s l (Hne & Ht & Hv) _ IH]; intros out Hn; [by rewrite app_nil_r|]. rewrite fmap_cons. cbn [foldM].
    assert (dns_step out (VStr s) = Ok (out ++ [s])) as ->.
    { unfold dns_step. cbn [str_or is_nullish to_string]. rewrite Ht, decide_False, Hv by done. cbn. unfold push_new. rewrite decide_False; [done|].
      apply NoDup_app in Hn as (_ & Hd & _). intros Hin. apply (Hd s Hin). left. }
    cbn [mbind result_bind]. rewrite IH; [by rewrite <- app_assoc|by rewrite <- app_assoc]. }
  by rewrite Hgo.
Qed.

Lemma notes_stable : stable (pure_field (fun v => strs (sanitizeStringArray v))).
Proof.
  intros v w [= <-] _. unfold pure_field. do 2 f_equal. set (l := sanitizeStringArray v).
  assert (NoDup l /\ Forall (fun s => s <> "" /\ trim s = s) l) as [Hn Hf].
  { subst l. destruct v; try (split; constructor). cbn [sanitizeStringArray]. split; [apply NoDup_uniq|]. apply Forall_forall. intros s.
    rewrite elem_of_uniq, elem_of_bfilter, negb_true_iff, bool_decide_eq_false.
    intros [(x & -> & _)%list_elem_of_fmap Hne]. split; [done|apply trim_idemp]. }
  unfold strs. cbn [sanitizeStringArray]. rewrite <- list_fmap_compose.
  assert ((fun item => trim (str_truthy "" item)) ∘ VStr <$> l = l) as ->.
  { rewrite <- (list_fmap_id l) at 2. apply list_fmap_ext. intros i s Hs%list_elem_of_lookup_2. rewrite Forall_forall in Hf.
    destruct (Hf s Hs) as [Hne Ht]. unfold compose, str_truthy. cbn [truthy]. by rewrite bool_decide_true. }
  assert (bfilter (fun s => negb (bool_decide (s = ""))) l = l) as ->; [|by apply uniq_NoDup].
  clear Hn. induction Hf as [|s l' [Hne _] _ IH]; [done|]. unfold bfilter in *. cbn [List.filter]. rewrite bool_decide_false by done. cbn. by rewrite IH.
Qed.

(** A field that is cleared, or holds a text that its cleaner keeps. *)
Lemma pure_stable g : (forall v, g v = VUndef \/ exists s, g v = VStr s /\ (s <> "" -> g (VStr s) = VStr s)) -> g VUndef = VUndef ->
  stable (pure_field g).
Proof.
  intros Hg Hu v w [= <-] Hne. unfold pure_field. f_equal. destruct (Hg v) as [Hv|(s & Hv & Hs)]; rewrite Hv in *; [done|].
  apply Hs. congruence.
Qed.

Lemma str_truthy_str s : str_truthy "" (VStr s) = s.
Proof. unfold str_truthy. cbn [truthy to_string]. destruct (bool_decide _) eqn:H; [done|]. apply bool_decide_eq_false in H. destruct s; [done|]. by destruct H. Qed.

Lemma smap_id s : sall (fun c => negb (is_control c)) s = true -> smap (fun c => if is_control c then "" else String c "") s = s.
Proof.
  induction s as [|c s IH]; [done|]. cbn. rewrite andb_true_iff, negb_true_iff. intros [Hc Hs]. rewrite Hc, IH by done. done.
Qed.

Lemma one_of_set_stable set : stable (pure_field (one_of_set set)).
Proof.
  apply pure_stable; [|by cbn]. intros v. unfold one_of_set at 1 2. destruct (truthy v && set_has set (to_string v)) eqn:H; [|by left].
  right. eexists. split; [done|]. intros Hne. apply andb_true_iff in H as [_ H]. unfold one_of_set. cbn [truthy to_string].
  by rewrite bool_decide_true, H by done.
Qed.

Lemma normal_stable norm : norm "" = "" -> (forall s, norm (norm s) = norm s) ->
  stable (pure_field (fun v => str_val (norm (str_truthy "" v)))).
Proof.
  intros H0 Hi. apply pure_stable.
  - intros v. unfold str_val at 1 2. destruct (decide _) as [|Hne]; [by left|]. right. eexists. split; [done|]. intros _.
    rewrite str_truthy_str, Hi. unfold str_val. by rewrite decide_False.
  - cbn. by rewrite H0.
Qed.

Lemma normalizeLinkType_idemp s : normalizeLinkType (normalizeLinkType s) = normalizeLinkType s.
Proof.
  destruct (decide (normalizeLinkType s = "")) as [->|Hne]; [done|]. apply normalizeLinkType_types in Hne. revert Hne.
  generalize (normalizeLinkType s). intros t Ht. unfold LINK_TYPES in Ht. rewrite !elem_of_cons, elem_of_nil in Ht. naive_solver.
Qed.

Lemma normalizeInterfaceRole_idemp s : normalizeInterfaceRole (normalizeInterfaceRole s) = normalizeInterfaceRole s.
Proof.
  assert (normalizeInterfaceRole s = "" \/ normalizeInterfaceRole s ∈ INTERFACE_ROLES) as [->|Ht]; [|done|].
  { unfold normalizeInterfaceRole. destruct (decide _); [by left|]. destruct (decide _); [right; set_solver|].
    destruct (set_has _ s) eqn:H; [right; by apply set_has_spec|by left]. }
  revert Ht. generalize (normalizeInterfaceRole s). intros t Ht. unfold INTERFACE_ROLES in Ht. rewrite !elem_of_cons, elem_of_nil in Ht. naive_solver.
Qed.

Lemma name_stable : stable (pure_field clean_name).
Proof.
  apply pure_stable; [|done]. intros v. unfold clean_name at 1 2. destruct (truthy v); [|by left]. right. eexists. split; [done|].
  intros Hne. unfold clean_name. cbn [truthy]. rewrite bool_decide_true by done. f_equal. unfold stripLinkNameControlChars. cbn [to_string].
  apply smap_id, sall_smap. intros c. destruct (is_control c) eqn:Hc; [done|]. cbn. by rewrite Hc.
Qed.

Lemma opt_text_stable : stable (pure_field opt_text).
Proof.
  apply pure_stable; [|done]. intros v. unfold opt_text at 1 2. destruct (truthy v); [|by left]. right. eexists. split; [done|].
  intros Hne. unfold opt_text. cbn [truthy to_string]. by rewrite bool_decide_true.
Qed.

Lemma platform_stable : stable (pure_field clean_platform).
Proof.
  apply pure_stable; [|done]. intros v. unfold clean_platform at 1 2. destruct v; try by left. destruct (set_has _ s) eqn:H; [|by left].
  right. eexists. split; [done|]. intros _. unfold clean_platform. by rewrite H.
Qed.

Lemma bool_stable : stable (pure_field (fun v => VBool (truthy v))).
Proof. intros v w [= <-] _. unfold pure_field. cbn. by destruct (truthy v). Qed.

Definition settled (p : obj) : Prop := forall f, (f, VStr "") ∉ p.

(** What a sanitizer returns, it returns again; an empty text, left by a name of control
    characters, is the exception. *)
Lemma run_fields_twice fs input p : NoDup fs.*1 -> Forall (fun fc => stable fc.2) fs ->
  run_fields fs input [] = Ok p -> settled p -> run_fields fs (VObj p) [] = Ok p.
Proof.
  intros Hn Hs H Hp. apply run_fields_Ok in H as (q & -> & Hq & Hnq & Hgo). cbn [app] in *. apply Hgo; [| |done].
  - intros f c w Hfc Hw Hin. split; [apply elem_of_mget; [by apply Hnq|done]|]. rewrite Forall_forall in Hs. apply (Hs _ Hfc _ _ Hw).
    intros ->. by apply (Hp f).
  - intros f _ Hf. by apply mget_None.
Qed.

Lemma link_fields_stable : NoDup link_fields.*1 /\ Forall (fun fc => stable fc.2) link_fields.
Proof.
  split; [vm_compute; repeat constructor; set_solver|].
  repeat (apply Forall_cons; split; cbn [snd]); [..|by constructor];
    auto using name_stable, networks_stable, one_of_set_stable, opt_text_stable, dns_stable, bool_stable, platform_stable, notes_stable.
  by apply normal_stable, normalizeLinkType_idemp.
Qed.

Lemma interface_fields_stable : NoDup interface_fields.*1 /\ Forall (fun fc => stable fc.2) interface_fields.
Proof.
  split; [vm_compute; repeat constructor; set_solver|].
  repeat (apply Forall_cons; split; cbn [snd]); [..|by constructor];
    auto using networks_stable, one_of_set_stable, dns_stable, notes_stable.
  by apply normal_stable, normalizeInterfaceRole_idemp.
Qed.

(** * What is applied is what was shown *)

Lemma merge_is_patch (clean : jsval -> result meta_error obj) (es current patch : list (string * obj)) :
  (forall id p, (id, p) ∈ patch -> clean (VObj p) = Ok p) -> NoDup patch.*1 ->
  (forall id, id ∈ patch.*1 -> mget id es = mget id current) ->
  foldM (fun es kv => p ← clean kv.2; Ok (mset kv.1 (mergeMetadataEntry (default [] (mget kv.1 es)) p) es)) es (as_objects patch) =
  Ok (foldl (fun es kv => mset kv.1 (mergeMetadataEntry (default [] (mget kv.1 current)) kv.2) es) es patch).
Proof.
  revert es. induction patch as [|[id p] patch IH]; intros es Hc Hn Heq; [done|]. unfold as_objects in *. rewrite !fmap_cons in *. apply NoDup_cons in Hn as [Hid Hn].
  cbn [foldM foldl fst snd]. rewrite (Hc id p) by (by left). cbn [mbind result_bind fst snd]. unfold obj in *. rewrite (Heq id) by (by left).
  apply IH; [intros j q Hin; apply (Hc j); by right|done|]. intros j Hj. rewrite mget_mset_ne by (intros ->; done). apply Heq. by right.
Qed.

Definition settled_patch (p : norm_patch) : Prop :=
  (forall id o, (id, o) ∈ np_interfaces p -> settled o) /\ (forall id o, (id, o) ∈ np_links p -> settled o).

(** An object has every key once. *)
Definition distinct_keys (patch : jsval) : Prop :=
  NoDup (entries_of (vget patch "interfaces")).*1 /\ NoDup (entries_of (vget patch "links")).*1.

Lemma mapM_keys clean (l : list (string * jsval)) (k : list (string * obj)) :
  mapM (fun kv => o ← clean kv.2; Ok (kv.1, o)) l = Ok k ->
  k.*1 = l.*1 /\ forall id o, (id, o) ∈ k -> exists v, (id, v) ∈ l /\ (clean v = Ok o :> result meta_error obj).
Proof.
  intros H%mapM_Ok. induction H as [|[i v] [j o] l k Hx _ [IH1 IH2]]; [split; [done|by intros id o ?%elem_of_nil]|].
  apply bind_Ok in Hx as (o' & Ho & [= <- <-]). split; [by rewrite !fmap_cons, IH1|].
  intros id q [[= -> ->]|Hin]%elem_of_cons; [exists v; split; [by left|done]|]. destruct (IH2 _ _ Hin) as (x & Hx & ?). exists x. split; [by right|done].
Qed.

Lemma clean_entries_Ok clean v es : clean_entries clean v = Ok es -> NoDup (entries_of v).*1 ->
  NoDup es.*1 /\ forall id o, (id, o) ∈ es -> exists x, clean x = Ok o.
Proof.
  unfold clean_entries. intros (k & Hk & [= <-])%bind_Ok Hn. apply mapM_keys in Hk as [Hkeys Hin]. split.
  - rewrite <- Hkeys in Hn. eapply sublist_NoDup; [exact Hn|]. apply fmap_sublist. unfold bfilter. clear.
    induction k as [|x k IH]; cbn; [done|]. destruct (has_items x.2); by constructor.
  - intros id o [Ho _]%elem_of_bfilter. destruct (Hin _ _ Ho) as (x & _ & ?). by exists x.
Qed.

Lemma sanitizeLink_twice v p : sanitizeLinkMetadataPatch v = Ok p -> settled p -> sanitizeLinkMetadataPatch (VObj p) = Ok p.
Proof.
  intros H Hp. destruct link_fields_stable as [Hn Hs]. rewrite sanitizeLink_fields by done. apply (run_fields_twice _ v); [done..| |done].
  rewrite <- sanitizeLink_fields; [done|]. by intros ->.
Qed.

Lemma sanitizeInterface_twice v p : sanitizeInterfaceMetadataPatch v = Ok p -> settled p -> sanitizeInterfaceMetadataPatch (VObj p) = Ok p.
Proof.
  intros H Hp. destruct interface_fields_stable as [Hn Hs]. rewrite sanitizeInterface_fields by done. apply (run_fields_twice _ v); [done..| |done].
  rewrite <- sanitizeInterface_fields; [done|]. by intros ->.
Qed.

Lemma normalized_merge patch p current : normalizePatch patch = Ok p -> distinct_keys patch -> settled_patch p ->
  mergeMetadataStorePatch current (patch_value p) = Ok (next_metadata current p).
Proof.
  unfold normalizePatch. intros (ifs & Hi & (ls & Hl & [= <-])%bind_Ok)%bind_Ok [Hdi Hdl] [Hsi Hsl]. cbn [np_interfaces np_links] in *.
  apply clean_entries_Ok in Hi as [Hni Hi]; [|done]. apply clean_entries_Ok in Hl as [Hnl Hl]; [|done].
  unfold mergeMetadataStorePatch, merge_entries, next_metadata, patch_entries.
  change (vget (patch_value _) "interfaces") with (VObj (as_objects ifs)).
  change (vget (patch_value _) "links") with (VObj (as_objects ls)). cbv iota. cbn [np_interfaces np_links].
  rewrite (merge_is_patch _ _ (ms_interfaces current) ifs); [|intros id o Hin; destruct (Hi _ _ Hin) as [x Hx]; by eapply sanitizeInterface_twice, Hsi|done..].
  cbn [mbind result_bind].
  rewrite (merge_is_patch _ _ (ms_links current) ls); [|intros id o Hin; destruct (Hl _ _ Hin) as [x Hx]; by eapply sanitizeLink_twice, Hsl|done..].
  done.
Qed.

Lemma lift_meta_Ok {A} (m : result meta_error A) x : lift_meta m = Ok x <-> m = Ok x.
Proof. destruct m; cbn; split; congruence. Qed.

Lemma buildPlanPreview_Ok st patch pv : buildPlanPreview st patch = Ok pv ->
  normalizePatch patch = Ok (pv_patch pv) /\ pv_errors pv = preview_errors st (pv_patch pv) /\
  pv_valid pv = negb (has_items (pv_errors pv)).
Proof. unfold buildPlanPreview. by intros (p & Hp & [= <-])%bind_Ok. Qed.

(** What an apply stores is the metadata its preview was computed with, the patch merged
    into the store it was shown for; the old store is kept as a backup. *)
Theorem apply_stores_the_preview status_of backupName stamp outcomes w patch w' res :
  (forall m, st_metadata (status_of m) = m) -> distinct_keys patch ->
  applyMetadata status_of backupName stamp outcomes w (pw_meta w) patch = Ok (w', res) ->
  settled_patch (pv_patch (ap_preview res)) ->
  let next := next_metadata (pw_meta w) (pv_patch (ap_preview res)) in
  pw_meta w' = next /\ pw_backups w' = pw_backups w ++ [(backupName, pw_meta w)] /\
  preview_errors (status_of (pw_meta w)) (pv_patch (ap_preview res)) = [] /\
  (pw_agents w', ap_cascade res) = finishMetadataWrite stamp outcomes (pw_meta w) next (status_of (pw_meta w)) (status_of next) (pw_agents w).
Proof.
  intros Hst Hk H Hs. unfold applyMetadata in H. apply bind_Ok in H as (pv & Hpv%lift_meta_Ok & H).
  apply bind_Ok in H as (u & Hv%throw_if_Ok & H). apply bind_Ok in H as (u' & _ & H). apply bind_Ok in H as (wr & Hwr%lift_meta_Ok & H).
  destruct (finishMetadataWrite _ _ _ _ _ _ _) as [agents cascade] eqn:Hf. injection H as <- <-. cbn [pw_meta pw_backups pw_agents ap_preview ap_cascade] in *.
  destruct (buildPlanPreview_Ok _ _ _ Hpv) as (Hn & He & Hvalid).
  unfold applyMetadataPatch in Hwr. cbn [mbind result_bind] in Hwr. rewrite (normalized_merge _ _ _ Hn Hk Hs) in Hwr.
  cbn [mbind result_bind] in Hwr. injection Hwr as <-. cbn [fst snd] in *. split_and!; [done|done| |done].
  rewrite <- He. rewrite Hvalid in Hv. by destruct (pv_errors pv).
Qed.

(** * What a restore changes *)

Lemma restore_links_get bak ids links id : NoDup ids ->
  mget id (foldl (restore_link bak) links ids) =
  if decide (id ∈ ids) then match mget id bak with Some e => Some (mergeRestoredLink (mget id links) e) | None => mget id links end
  else mget id links.
Proof.
  revert links. induction ids as [|j ids IH]; intros links Hn; [done|]. apply NoDup_cons in Hn as [Hj Hn]. cbn [foldl]. rewrite IH by done.
  assert (mget id (restore_link bak links j) =
    if decide (id = j) then match mget id bak with Some e => Some (mergeRestoredLink (mget id links) e) | None => mget id links end else mget id links) as ->.
  { unfold restore_link. destruct (decide (id = j)) as [->|Hne].
    - destruct (mget j bak); [apply mget_mset_eq|done].
    - destruct (mget j bak); [by rewrite mget_mset_ne by congruence|done]. }
  destruct (decide (id = j)) as [->|Hne].
  - rewrite (decide_True (P := j ∈ j :: ids)) by left. by rewrite decide_False.
  - destruct (decide (id ∈ ids)) as [Hin|Hnin].
    + by rewrite (decide_True (P := id ∈ j :: ids)) by (by right).
    + rewrite (decide_False (P := id ∈ j :: ids)); [done|]. by rewrite not_elem_of_cons.
Qed.

Lemma restore_ifaces_get live bak ifs n : n ∉ live ->
  mget n (foldl (fun m (kv : string * obj) => if set_has live kv.1 then mset kv.1 kv.2 m else m) ifs bak) = mget n ifs.
Proof.
  intros Hn. revert ifs. induction bak as [|[k v] bak IH]; intros ifs; [done|]. cbn [foldl fst snd]. rewrite IH.
  destruct (set_has live k) eqn:Hk; [|done]. apply set_has_spec in Hk. apply mget_mset_ne. by intros ->.
Qed.

Lemma name_of_mset key v o : name_of (mset key v o) = if decide (key = "name") then match v with VStr s => s | _ => "" end else name_of o.
Proof.
  unfold name_of, oget. rewrite mget_mset. destruct (decide (key = "name")); done.
Qed.

Lemma mhas_mset {V} (k k' : string) (v : V) m : mhas k' (mset k v m) = bool_decide (k = k') || mhas k' m.
Proof. unfold mhas. rewrite mget_mset. destruct (decide (k = k')) as [->|]; [by rewrite bool_decide_true|by rewrite bool_decide_false]. Qed.

Lemma keep_field_keeps cur merged key f : mhas f merged = true -> mhas f (keep_field cur merged key) = true.
Proof.
  intros H. unfold keep_field. destruct (mget key cur); [|done]. destruct (_ && _); [|done]. rewrite mhas_mset, H. apply orb_true_r.
Qed.

Lemma keep_field_name cur merged key : name_of merged <> "" -> name_of (keep_field cur merged key) = name_of merged.
Proof.
  intros H. unfold keep_field. destruct (mget key cur) as [v|]; [|done]. destruct (decide (key = "name")) as [->|Hne].
  - by rewrite bool_decide_false.
  - destruct (_ && _); [|done]. rewrite name_of_mset. by rewrite decide_False.
Qed.

(** The identity of a link survives: a field the backup lacks keeps its current value. *)
Lemma restored_identity cur e : let m := mergeRestoredLink (Some cur) e in
  (name_of m = if decide (name_of e = "") then name_of cur else name_of e) /\
  (mhas "type" cur = true -> oget "type" cur <> VUndef -> oget "type" cur <> VStr "" -> mhas "type" m = true) /\
  (mhas "importedNetworks" cur = true -> oget "importedNetworks" cur <> VUndef -> oget "importedNetworks" cur <> VStr "" ->
     mhas "importedNetworks" m = true).
Proof.
  cbv zeta. unfold mergeRestoredLink, RESTORE_KEEP_IF_MISSING. cbn [foldl].
  set (m1 := keep_field cur e "name"). set (m2 := keep_field cur m1 "type").
  assert (name_of m1 = if decide (name_of e = "") then name_of cur else name_of e) as Hn1.
  { assert (name_of cur = match mget "name" cur with Some (VStr s) => s | _ => "" end) as ->.
    { unfold name_of, oget. by destruct (mget "name" cur) as [[]|]. }
    unfold m1, keep_field. rewrite decide_True by done. destruct (mget "name" cur) as [v|].
    - destruct (decide (name_of e = "")) as [He|He].
      + rewrite bool_decide_true by done. cbn [andb].
        destruct v; rewrite ?name_of_mset, ?decide_True by done; try done.
        unfold nonempty. destruct (bool_decide (s <> "")) eqn:Hs; [by rewrite name_of_mset, decide_True|].
        apply bool_decide_eq_false in Hs. rewrite He. destruct s; [done|by destruct Hs].
      + by rewrite bool_decide_false.
    - by destruct (decide (name_of e = "")) as [He|]. }
  assert (forall m key, key <> "name" -> name_of (keep_field cur m key) = name_of m) as Hkn.
  { intros m key Hk. unfold keep_field. destruct (mget key cur); [|done]. destruct (_ && _); [|done]. rewrite name_of_mset. by rewrite decide_False. }
  assert (forall m key, key <> "name" -> mhas key cur = true -> oget key cur <> VUndef -> oget key cur <> VStr "" -> mhas key (keep_field cur m key) = true) as Hkh.
  { intros m key Hk Hh Hu He. unfold keep_field, mhas in *. unfold oget in *. destruct (mget key cur) as [v|]; [|done]. rewrite decide_False by done.
    destruct (mget key m) as [x|] eqn:Hm; cbn [negb andb]; [by rewrite Hm|]. cbn in Hu, He.
    assert (match v with VUndef => false | VStr s => nonempty s | _ => true end = true) as ->; [|by rewrite mget_mset_eq].
    destruct v; try done. unfold nonempty. apply bool_decide_eq_true. congruence. }
  split_and!.
  - rewrite Hkn by done. unfold m2. rewrite Hkn by done. done.
  - intros. apply keep_field_keeps. by apply Hkh.
  - intros. by apply Hkh.
Qed.

(** A restore touches the live links and interfaces only: the entry of a link that is not live
    is as before, a live link the backup lacks keeps its entry, a live link it has gets the
    backup's entry, its name kept when the backup has none. *)
Theorem restore_changes_live_only current backup liveIds liveNames :
  let info := mergeBackupIntoLive current backup liveIds liveNames in
  NoDup liveIds ->
  (forall id, id ∉ liveIds -> mget id (ms_links (mi_store info)) = mget id (ms_links current)) /\
  (forall n, n ∉ liveNames -> mget n (ms_interfaces (mi_store info)) = mget n (ms_interfaces current)) /\
  (forall id, id ∈ liveIds -> mget id (ms_links backup) = None -> mget id (ms_links (mi_store info)) = mget id (ms_links current)) /\
  (forall id e cur, id ∈ liveIds -> mget id (ms_links backup) = Some e -> mget id (ms_links current) = Some cur ->
     exists m, mget id (ms_links (mi_store info)) = Some m /\
       name_of m = (if decide (name_of e = "") then name_of cur else name_of e) /\
       (forall f, f ∉ RESTORE_KEEP_IF_MISSING -> mget f m = mget f e)) /\
  mi_restoredLinks info ++ mi_keptLinks info ≡ₚ liveIds /\
  (forall id, id ∈ mi_skippedLinks info <-> id ∈ (ms_links backup).*1 /\ id ∉ liveIds).
Proof.
  cbv zeta. intros Hn. unfold mergeBackupIntoLive. cbn [mi_store ms_links ms_interfaces mi_restoredLinks mi_keptLinks mi_skippedLinks]. split_and!.
  - intros id Hid. rewrite restore_links_get by done. by rewrite decide_False.
  - intros n Hl. by apply restore_ifaces_get.
  - intros id Hid Hb. rewrite restore_links_get by done. rewrite decide_True by done. by rewrite Hb.
  - intros id e cur Hid Hb Hc. rewrite restore_links_get by done. rewrite decide_True by done. rewrite Hb, Hc. eexists. split; [done|].
    split; [apply restored_identity|]. intros f Hf. unfold RESTORE_KEEP_IF_MISSING in Hf. rewrite !not_elem_of_cons in Hf.
    destruct Hf as (Hf1 & Hf2 & Hf3 & _). cbn [mergeRestoredLink RESTORE_KEEP_IF_MISSING foldl].
    assert (forall m key, f <> key -> mget f (keep_field cur m key) = mget f m) as Hk.
    { intros m key Hne. unfold keep_field. destruct (mget key cur); [|done]. destruct (_ && _); [|done]. by rewrite mget_mset_ne by congruence. }
    unfold mergeRestoredLink, RESTORE_KEEP_IF_MISSING. cbn [foldl]. by rewrite !Hk by done.
  - clear Hn. unfold bfilter. induction liveIds as [|id l IH]; [done|]. cbn. destruct (mhas id (ms_links backup)); cbn.
    + by rewrite IH.
    + rewrite <- Permutation_middle. by rewrite IH.
  - intros id. rewrite elem_of_bfilter, negb_true_iff. unfold set_has. rewrite bool_decide_eq_false. done.
Qed.

(** * Changes that need no sync *)

(** The values the sanitizers write are equal when their texts are. *)
Definition text_value (v : jsval) : Prop := v = VUndef \/ (exists s, v = VStr s) \/ exists l, v = strs l.

Lemma text_value_parse v : text_value v -> v = VUndef \/ json_parse (json_text v) = Some v.
Proof.
  intros [->|[[s ->]|[l ->]]]; [by left|right..].
  - cbn [json_text]. apply json_parse_string.
  - unfold strs. rewrite json_text_strings. apply json_parse_strings.
Qed.

Lemma isEqual_eq v w : text_value v -> text_value w -> isEqual v w = true -> v = w.
Proof.
  intros [->|Hv]%text_value_parse [->|Hw]%text_value_parse H; [done|by destruct w|by destruct v|].
  assert (json_text v = json_text w) as He.
  { destruct v, w; try discriminate H; (by apply bool_decide_eq_true in H) || done. }
  rewrite He, Hw in Hv. by injection Hv.
Qed.

Lemma field_text_value f o : entry_ok o -> f ∈ ["name"; "type"; "importedNetworks"] -> text_value (oget f o).
Proof.
  intros Ho Hf. destruct (oget_ok f o Ho) as [->|[->|H]]; [by left..|]. unfold text_value.
  rewrite !elem_of_cons, elem_of_nil in Hf. destruct Hf as [->|[->|[->|[]]]].
  - rewrite decide_False in H by (vm_compute; set_solver). rewrite decide_True in H by done. destruct H as (s & -> & _). eauto.
  - rewrite decide_False in H by (vm_compute; set_solver). rewrite decide_False in H by done. rewrite decide_True in H by done.
    destruct H as (s & -> & _). eauto.
  - rewrite decide_True in H by set_solver. destruct H as (l & -> & _). eauto.
Qed.

Lemma changed_fields_none f before after : f ∉ changed_fields before after -> isEqual (oget f before) (oget f after) = true.
Proof.
  unfold changed_fields. rewrite elem_of_bfilter, elem_of_uniq, elem_of_app, negb_true_iff. intros H.
  destruct (isEqual _ _) eqn:He; [done|]. exfalso. apply H. split; [|done]. unfold oget in He.
  destruct (mget f before) eqn:Hb; [left; apply mget_is_Some; by eexists|]. right.
  destruct (mget f after) eqn:Ha; [apply mget_is_Some; by eexists|done].
Qed.

Lemma scope_fields d item f : classifyChangeScope d <> ScopeConfig -> item ∈ di_links d -> f ∈ configRelevantFields -> f <> "" -> f ∉ df_changedFields item.
Proof.
  intros Hs Hi Hf Hne Hin. apply Hs. unfold classifyChangeScope.
  assert (f ∈ dedupe (diff_fields d)) as Hd.
  { apply elem_of_dedupe. split; [|done]. unfold diff_fields. apply elem_of_app. right. apply list_elem_of_bind. by exists item. }
  assert (has_items (dedupe (diff_fields d)) = true) as -> by (destruct (dedupe _); [by apply elem_of_nil in Hd|done]).
  assert (existsb (set_has configRelevantFields) (dedupe (diff_fields d)) = true) as ->; [|done].
  apply existsb_true. exists f. split; [done|]. by apply set_has_spec.
Qed.

Lemma patch_entries_get current patch id : NoDup patch.*1 ->
  mget id (patch_entries current patch) =
  match mget id patch with Some p => Some (mergeMetadataEntry (default [] (mget id current)) p) | None => mget id current end.
Proof.
  intros Hn. unfold patch_entries.
  assert (forall es, mget id (foldl (fun es kv => mset kv.1 (mergeMetadataEntry (default [] (mget kv.1 current)) kv.2) es) es patch) =
    match mget id patch with Some p => Some (mergeMetadataEntry (default [] (mget id current)) p) | None => mget id es end) as H; [|apply H].
  induction patch as [|[j p] patch IH]; intros es; [done|]. rewrite fmap_cons in Hn. apply NoDup_cons in Hn as [Hj Hn].
  cbn [foldl fst snd]. rewrite IH by done. cbn [mget fst snd]. destruct (decide (j = id)) as [->|Hne].
  - apply mget_None in Hj. cbn in Hj. rewrite Hj. by rewrite mget_mset_eq.
  - by rewrite mget_mset_ne.
Qed.

Lemma mget_links_of_store store id : mget id (links_of_store store) = link_meta_of <$> mget id (ms_links store).
Proof.
  unfold links_of_store. induction (ms_links store) as [|[k o] l IH]; [done|]. cbn. destruct (decide (k = id)); [done|apply IH].
Qed.

(** Fields that read alike. *)
Lemma link_meta_same o o' : entry_ok o -> entry_ok o' ->
  (forall f, f ∈ ["name"; "type"; "importedNetworks"] -> isEqual (oget f o) (oget f o') = true) -> link_meta_of o = link_meta_of o'.
Proof.
  intros Ho Ho' H.
  assert (forall f, f ∈ ["name"; "type"; "importedNetworks"] -> oget f o = oget f o') as Heq.
  { intros f Hf. apply isEqual_eq; [by apply field_text_value..|by apply H]. }
  assert (forall p, entry_ok p -> mhas "importedNetworks" p = negb (is_undef (oget "importedNetworks" p))) as Hh.
  { intros p Hp. unfold mhas, oget. destruct (mget "importedNetworks" p) as [v|] eqn:Hv; [|done].
    apply mget_elem_of, Hp in Hv as [Hv _]. by destruct v. }
  unfold link_meta_of, name_of, type_of. rewrite !Hh by done. rewrite (Heq "name"), (Heq "type"), (Heq "importedNetworks") by set_solver. done.
Qed.

Lemma buildPeerUpdates_ext peerMap m m' iface : (forall id, mget id m = mget id m') ->
  buildPeerUpdates peerMap m iface = buildPeerUpdates peerMap m' iface.
Proof.
  intros H. unfold buildPeerUpdates.
  assert (forall us, fold_left (build_peer_update m iface) peerMap us = fold_left (build_peer_update m' iface) peerMap us) as Hgo; [|apply Hgo].
  induction peerMap as [|p l IH]; intros us; [done|]. cbn [fold_left]. rewrite IH. f_equal. unfold build_peer_update. by rewrite H.
Qed.

Lemma normalizePatch_links patch p : normalizePatch patch = Ok p -> NoDup (entries_of (vget patch "links")).*1 ->
  NoDup (np_links p).*1 /\ forall id o, (id, o) ∈ np_links p -> patch_fields_ok o.
Proof.
  unfold normalizePatch. intros (ifs & _ & (ls & Hl & [= <-])%bind_Ok)%bind_Ok Hn. cbn [np_links].
  apply clean_entries_Ok in Hl as [Hnd Hl]; [|done]. split; [done|]. intros id o Hin. destruct (Hl _ _ Hin) as [x Hx]. by eapply sanitizeLink_ok.
Qed.

(** A change the planner calls metadata-only leaves the hub as it is: over the changed store
    a sync plans the same text, peers, routes and NAT rules for every configuration file. *)
Theorem metadata_only_needs_no_sync st patch pv :
  buildPlanPreview st patch = Ok pv -> distinct_keys patch -> store_fine (st_metadata st) ->
  ac_changeScope (pv_apply pv) <> ScopeConfig ->
  (forall id, id ∈ (np_links (pv_patch pv)).*1 -> id ∈ (ms_links (st_metadata st)).*1) ->
  forall confText iface live nics,
    syncHubPlan confText (links_of_store (next_metadata (st_metadata st) (pv_patch pv))) iface live nics =
    syncHubPlan confText (links_of_store (st_metadata st)) iface live nics.
Proof.
  intros Hpv [_ Hk] [_ Hfine] Hscope Hknown confText iface live nics.
  unfold buildPlanPreview in Hpv. apply bind_Ok in Hpv as (p & Hp & [= <-]). cbn [pv_patch pv_apply] in *.
  set (links := ms_links (st_metadata st)) in *. destruct (normalizePatch_links _ _ Hp Hk) as [Hn Hok].
  assert (forall id, mget id (links_of_store (next_metadata (st_metadata st) p)) = mget id (links_of_store (st_metadata st))) as Heq.
  { intros lid. rewrite !mget_links_of_store. cbn [next_metadata ms_links]. rewrite patch_entries_get by done.
    destruct (mget lid (np_links p)) as [o|] eqn:Ho; [|done]. apply mget_elem_of in Ho.
    assert (lid ∈ links.*1) as [cur Hcur]%mget_is_Some by (apply Hknown, list_elem_of_fmap; by exists (lid, o)).
    fold links. rewrite Hcur. cbn [default from_option fmap option_fmap option_map]. unfold id at 1. f_equal. symmetry.
    assert (entry_ok cur) as Hce by (eapply (proj2 Hfine), mget_elem_of, Hcur).
    assert (entry_ok (mergeMetadataEntry cur o)) as Hme by (apply merge_ok; [done|by eapply Hok]).
    apply link_meta_same; [done..|]. intros f Hf. destruct (isEqual _ _) eqn:He; [done|exfalso].
    destruct (changed_fields cur (mergeMetadataEntry cur o)) as [|g gs] eqn:Hg.
    { pose proof (changed_fields_none f cur (mergeMetadataEntry cur o)) as Hc. rewrite Hg, He in Hc. by specialize (Hc (not_elem_of_nil _)). }
    set (item := DiffItem lid "link" (g :: gs) cur (mergeMetadataEntry cur o)).
    set (d := Diff (buildDiffEntries (ms_interfaces (st_metadata st)) (np_interfaces p) "interface") (buildDiffEntries links (np_links p) "link")).
    assert (f ∉ df_changedFields item) as Hnf.
    { apply (scope_fields d); [exact Hscope| |set_solver|intros ->; set_solver]. cbn [di_links d]. unfold buildDiffEntries.
      apply list_elem_of_bind. exists (lid, o). split; [|done]. unfold diff_of. cbn [fst snd]. rewrite Hcur. cbn [default from_option].
      unfold id. rewrite Hg. left. }
    cbn [df_changedFields item] in Hnf. rewrite <- Hg in Hnf. apply changed_fields_none in Hnf. congruence. }
  unfold syncHubPlan. rewrite (buildPeerUpdates_ext _ _ _ iface Heq). done.
Qed.

(** * The names after an apply *)

Lemma duplicates_stay names seen d ds : (foldl duplicate_step (seen, d :: ds) names).2 <> [].
Proof.
  revert seen d ds. induction names as [|n names IH]; intros seen d ds; [done|]. cbn [foldl]. unfold duplicate_step at 2. cbn [fst snd].
  destruct (decide (n = "")); [apply IH|]. destruct (set_has seen n); [|apply IH]. unfold push_new. destruct (decide _); apply IH.
Qed.

Lemma duplicate_names_nil names : Forall (fun n => n <> "") names -> duplicate_names names = [] -> NoDup names.
Proof.
  unfold duplicate_names. intros Hne.
  assert (forall seen, NoDup seen -> (foldl duplicate_step (seen, []) names).2 = [] -> NoDup (seen ++ names)) as H; [|by apply (H []); constructor].
  induction Hne as [|n names Hn _ IH]; intros seen Hs; [by rewrite app_nil_r|]. cbn [foldl]. unfold duplicate_step at 2. cbn [fst snd].
  rewrite decide_False by done. destruct (set_has seen n) eqn:Hin.
  - unfold push_new. rewrite decide_False by (apply not_elem_of_nil). intros H. by apply duplicates_stay in H.
  - intros H. rewrite cons_middle, app_assoc. apply IH; [|done]. apply NoDup_app. split_and!; [done| |apply NoDup_singleton].
    intros x Hx ->%list_elem_of_singleton. apply bool_decide_eq_false in Hin. done.
Qed.

Lemma Forall2_bind {A B C} (R : B -> C -> Prop) (f : A -> list B) (g : A -> list C) xs :
  (forall x, x ∈ xs -> Forall2 R (f x) (g x)) -> Forall2 R (xs ≫= f) (xs ≫= g).
Proof.
  induction xs as [|x xs IH]; intros H; [constructor|]. rewrite !bind_cons. apply Forall2_app; [apply H; left|apply IH; intros y Hy; apply H; by right].
Qed.

Lemma Forall2_imap {A B C} (R : B -> C -> Prop) (f : nat -> A -> B) (g : nat -> A -> C) xs :
  (forall i x, xs !! i = Some x -> R (f i x) (g i x)) -> Forall2 R (imap f xs) (imap g xs).
Proof.
  intros H. apply Forall2_same_length_lookup. rewrite !length_imap. split; [done|]. intros i b c. rewrite !list_lookup_imap.
  destruct (xs !! i) as [x|] eqn:Hx; [|done]. intros [= <-] [= <-]. by apply H.
Qed.

Lemma Forall2_names {A B} (f : A -> string) (g : B -> string) xs ys : Forall2 (fun x y => f x = g y) xs ys -> f <$> xs = g <$> ys.
Proof. induction 1 as [|x y xs ys H _ IH]; [done|]. by rewrite !fmap_cons, H, IH. Qed.

Lemma bind_of_fmap {A B C} (f : A -> B) (g : B -> list C) xs : (f <$> xs) ≫= g = xs ≫= (fun x => g (f x)).
Proof. induction xs as [|x xs IH]; [done|]. by rewrite fmap_cons, !bind_cons, IH. Qed.

(** The record of one peer over two stores. *)
Definition same_peer (m m' : meta_store) (l l' : link_rec) : Prop := exists n p i,
  l = buildLinkRecord n p i (default [] (mget (link_id n p i) (ms_links m))) /\
  l' = buildLinkRecord n p i (default [] (mget (link_id n p i) (ms_links m'))).

Definition raw_links (now : Z) (host : host_view) (m : meta_store) : list link_rec :=
  let dump := parseDump now (hv_dump host) in
  ((fun name => let (rx, tx) := hv_counters host name in getInterfaceStatus name (hv_configText host name) rx tx dump m)
     <$> interface_names host dump) ≫= links_of_iface m.

Lemma raw_links_same now host m m' : Forall2 (same_peer m m') (raw_links now host m) (raw_links now host m').
Proof.
  unfold raw_links. rewrite !bind_of_fmap. apply Forall2_bind. intros name _. destruct (hv_counters host name) as [rx tx].
  unfold links_of_iface. cbn [getInterfaceStatus if_peers if_name]. apply Forall2_imap. intros i p _. by exists name, p, (Z.of_nat i).
Qed.

Lemma status_links now dir bin ip host m : exists ra,
  st_links_of (getStatus now dir bin ip (Some host) m) = (fun l => enrichLinkRecord l ra) <$> raw_links now host m.
Proof. eexists. reflexivity. Qed.

Lemma enriched l ra : let e := enrichLinkRecord l ra in
  lk_id e = lk_id l /\ lk_name e = lk_name l /\ lk_type e = lk_type l /\ lk_peerPublicKey e = lk_peerPublicKey l.
Proof. by destruct l. Qed.

Lemma classify_named ips name : classifyLinkType ips name <> "".
Proof. unfold classifyLinkType. by repeat case_match. Qed.

Lemma text_or_left s t : s <> "" -> text_or s t = s.
Proof. intros H. unfold text_or. by rewrite decide_False. Qed.

Lemma link_type_known o : entry_ok o -> text_of "type" o <> "" -> normalizeLinkType (text_of "type" o) = text_of "type" o.
Proof.
  intros Ho Hne. unfold text_of in *. destruct (oget_ok "type" o Ho) as [Hu|[Hu|H]]; [by rewrite Hu in Hne..|].
  rewrite decide_False in H by (vm_compute; set_solver). rewrite decide_False in H by done. rewrite decide_True in H by done.
  destruct H as (t & -> & Ht). unfold LINK_TYPES in Ht. rewrite !elem_of_cons, elem_of_nil in Ht. naive_solver.
Qed.

(** The stored type is kept, set, or was absent before. *)
Definition type_kept (o o' : obj) : Prop := text_of "type" o' <> "" \/ text_of "type" o = "".

(** The projected name of a live peer is the name it has after the write. *)
Lemma projection_is_final n p i o o' ra k : pe_publicKey p = Some k -> entry_ok o' -> type_kept o o' ->
  projected_name (enrichLinkRecord (buildLinkRecord n p i o) ra) o' = lk_name (buildLinkRecord n p i o').
Proof.
  intros Hk Ho' Ht. destruct (enriched (buildLinkRecord n p i o) ra) as (_ & _ & Hty & Hkey).
  unfold projected_name, projected_type, text_or_unknown. rewrite Hty, Hkey. cbn [buildLinkRecord lk_name lk_type lk_peerPublicKey]. rewrite Hk.
  assert (text_or (text_of "type" o') (text_or (text_or (normalizeLinkType (text_of "type" o)) (classifyLinkType (pe_allowedIps p) n)) "unknown") =
    text_or (normalizeLinkType (text_of "type" o')) (classifyLinkType (pe_allowedIps p) n)) as ->; [|done].
  pose proof (classify_named (pe_allowedIps p) n) as Hc.
  destruct (decide (text_of "type" o' = "")) as [He|He].
  - destruct Ht as [?|Ht]; [done|]. rewrite He, Ht. change (normalizeLinkType "") with "".
    assert (forall t, text_or "" t = t) as H0 by done. rewrite !H0. by apply text_or_left.
  - rewrite (link_type_known o' Ho' He). by rewrite !(text_or_left _ _ He).
Qed.

Lemma append_named (s t : string) : s <> "" -> s +:+ t <> "".
Proof. by destruct s. Qed.

Lemma record_named n p i o k : pe_publicKey p = Some k -> lk_name (buildLinkRecord n p i o) <> "".
Proof.
  intros Hk. cbn [buildLinkRecord lk_name]. rewrite Hk. unfold text_or at 1. destruct (decide _); [|done].
  apply append_named. unfold text_or. destruct (decide _); [apply classify_named|done].
Qed.

(** After a valid preview is written, the hub shows every live link under the name the preview
    gave it, and no two links share a name: an agent bound to a name finds one link. *)
Theorem valid_preview_names_unique now dir bin ip host m patch pv :
  let st := getStatus now dir bin ip (Some host) m in
  let next := next_metadata m (pv_patch pv) in
  let after := getStatus now dir bin ip (Some host) next in
  buildPlanPreview st patch = Ok pv -> distinct_keys patch -> store_fine m -> pv_valid pv = true ->
  (forall l, l ∈ st_links_of st -> lk_peerPublicKey l <> None) ->
  (forall id, type_kept (default [] (mget id (ms_links m))) (default [] (mget id (ms_links next)))) ->
  lk_name <$> st_links_of after = lk_name <$> projected_links st next /\ NoDup (lk_name <$> st_links_of after).
Proof.
  cbv zeta. intros Hpv [_ Hk] Hfine Hvalid Hkeys Htypes. destruct (buildPlanPreview_Ok _ _ _ Hpv) as (Hp & He & Hv).
  destruct (normalizePatch_links _ _ Hp Hk) as [Hn Hok]. set (next := next_metadata m (pv_patch pv)) in *.
  assert (forall id, entry_ok (default [] (mget id (ms_links next)))) as Hnext.
  { intros i. unfold next. cbn [next_metadata ms_links]. rewrite patch_entries_get by done. destruct (mget i (np_links (pv_patch pv))) as [o|] eqn:Ho.
    - cbn. apply merge_ok; [apply entries_get, Hfine|]. by eapply Hok, mget_elem_of.
    - apply entries_get, Hfine. }
  destruct (status_links now dir bin ip host m) as [ra Hst], (status_links now dir bin ip host next) as [ra' Haf].
  assert (lk_name <$> projected_links (getStatus now dir bin ip (Some host) m) next = lk_name <$> raw_links now host next /\
          Forall (fun n => n <> "") (lk_name <$> raw_links now host next)) as [Hnames Hne].
  { unfold projected_links. rewrite Hst in *. rewrite <- !list_fmap_compose. pose proof (raw_links_same now host m next) as Hsame.
    assert (forall l, l ∈ raw_links now host m -> lk_peerPublicKey l <> None) as Hkey.
    { intros l Hl. specialize (Hkeys (enrichLinkRecord l ra)). destruct (enriched l ra) as (_ & _ & _ & Hek). rewrite Hek in Hkeys.
      apply Hkeys, list_elem_of_fmap. by exists l. }
    clear -Hsame Hkey Hnext Htypes. induction Hsame as [|l l' ls ls' (n & p & i & Hl & Hl') _ IH]; [by split; [|constructor]|].
    rewrite !fmap_cons. destruct IH as [IH1 IH2]; [intros x Hx; apply Hkey; by right|].
    assert (exists k, pe_publicKey p = Some k) as [k Hpk].
    { specialize (Hkey l ltac:(left)). rewrite Hl in Hkey. cbn in Hkey. destruct (pe_publicKey p); [by eexists|done]. }
    split; [|constructor; [rewrite Hl'; by eapply record_named|done]]. rewrite IH1. f_equal. unfold compose. cbn [buildProjectedLink lk_name].
    destruct (enriched l ra) as (Hid & _). rewrite Hid, Hl, Hl'. cbn [buildLinkRecord lk_id]. by apply (projection_is_final _ _ _ _ _ _ k). }
  assert (lk_name <$> st_links_of (getStatus now dir bin ip (Some host) next) = lk_name <$> raw_links now host next) as Hafter.
  { rewrite Haf, <- list_fmap_compose. apply list_fmap_ext. intros i l _. unfold compose. by destruct (enriched l ra') as (_ & ? & _). }
  rewrite Hafter, Hnames. split; [done|]. apply duplicate_names_nil; [done|]. rewrite <- Hnames.
  rewrite Hvalid in Hv. symmetry in Hv. apply negb_true_iff in Hv. destruct (pv_errors pv) eqn:Herr; [|done]. symmetry in He. unfold preview_errors in He.
  apply app_eq_nil in He as [_ He]. apply app_eq_nil in He as [_ He]. apply app_eq_nil in He as [He _]. by apply fmap_nil_inv in He.
Qed.

(** * Examples *)

Definition ex_host : host_view :=
  HostView (print_dump ex_dump) ["wg0"] (fun _ => "") (fun _ => (0, 0)) (Some "default via 192.0.2.1 dev eth0") true.

(** A site and a client that reaches it. *)
Definition ex_site : obj := [("name", VStr "berlin"); ("type", VStr "site-to-site"); ("importedNetworks", strs ["192.168.2.0/24"])].
Definition ex_client : obj := [("name", VStr "laptop"); ("type", VStr "client"); ("importedNetworks", strs ["192.168.2.0/24"])].
Definition ex_site_meta : meta_store := MetaStore [] [("wg0:AAA=", ex_site)].
Definition ex_hub_meta : meta_store := MetaStore [] [("wg0:AAA=", ex_site); ("wg0:BBB=", ex_client)].

Definition ex_status (m : meta_store) : status := getStatus 1700000100 "/etc/wireguard" "wg" "ip" (Some ex_host) m.

Definition link_patch (id : string) (fields : obj) : jsval := VObj [("links", VObj [(id, VObj fields)])].

Definition ex_rename : jsval := link_patch "wg0:AAA=" [("name", VStr "koeln")].
Definition ex_note : jsval := link_patch "wg0:AAA=" [("notes", VArr [VStr "rack 4"])].

Definition ex_world : plan_world := PlanWorld ex_hub_meta [] [] ex_fleet.

Lemma ex_keys id fields : distinct_keys (link_patch id fields).
Proof. split; cbn; [constructor|apply NoDup_singleton]. Qed.

Lemma ex_hub_meta_reachable : rtc meta_step empty_meta ex_hub_meta.
Proof.
  apply (rtc_l _ empty_meta ex_site_meta); [|apply rtc_once].
  - apply (MetaCreate empty_meta "wg0:AAA=" (VObj ex_site) ex_site). vm_compute. reflexivity.
  - apply (MetaCreate ex_site_meta "wg0:BBB=" (VObj ex_client) ex_client). vm_compute. reflexivity.
Qed.

Lemma ex_hub_meta_fine : store_fine ex_hub_meta.
Proof. apply meta_history_fine, ex_hub_meta_reachable. Qed.

(** A status of one live peer, without the commands. *)
Definition ex_peer : wg_peer := WgPeer (Some "AAA=") (Some "198.51.100.4:51820") ["10.10.0.2/32"; "192.168.2.0/24"] 0 0 0 false.
Definition ex_small (m : meta_store) : status :=
  Status true None [] [buildLinkRecord "wg0" ex_peer 0 (default [] (mget "wg0:AAA=" (ms_links m)))]
    (RouteAnalysis (RouteTable [] [] []) [] [] [] [] []) (Topology [] [] [] [] [] []) m None [] [].

Definition ex_applied : result plan_error (plan_world * applied) :=
  applyMetadata ex_small "b1" 17 [] ex_world (pw_meta ex_world) ex_rename.

Definition ex_after : option (plan_world * applied) :=
  Eval vm_compute in match ex_applied with Ok x => Some x | Throw _ => None end.

Lemma apply_stores_the_preview_witness : exists x, ex_after = Some x /\
  pw_meta x.1 = MetaStore [] [("wg0:AAA=", mset "name" (VStr "koeln") ex_site); ("wg0:BBB=", ex_client)] /\
  ag_wg_link_name <$> st_agents (pw_agents x.1) = [Some "koeln"; Some "koeln"].
Proof.
  eexists. split; [reflexivity|]. split; [|reflexivity].
  match goal with |- pw_meta ?x.1 = _ =>
    refine (proj1 (apply_stores_the_preview ex_small "b1" 17 [] ex_world ex_rename x.1 x.2 (fun m => eq_refl) (ex_keys _ _) _ _))
  end.
  - vm_compute. reflexivity.
  - split; [intros i o Hin; by apply elem_of_nil in Hin|]. intros i o Hin f Hf. apply list_elem_of_singleton in Hin.
    injection Hin as -> ->. apply list_elem_of_singleton in Hf. discriminate Hf.
Defined.

Lemma restore_changes_live_only_witness :
  let info := mergeBackupIntoLive (MetaStore [] [("wg0:AAA=", ex_site); ("wg0:CCC=", ex_client)])
                (MetaStore [] [("wg0:AAA=", [("notes", strs ["old"])]); ("wg0:DDD=", ex_client)]) ["wg0:AAA="; "wg0:BBB="] [] in
  mget "wg0:CCC=" (ms_links (mi_store info)) = Some ex_client /\ mget "wg0:DDD=" (ms_links (mi_store info)) = None /\
  mi_skippedLinks info = ["wg0:DDD="].
Proof.
  destruct (restore_changes_live_only (MetaStore [] [("wg0:AAA=", ex_site); ("wg0:CCC=", ex_client)])
    (MetaStore [] [("wg0:AAA=", [("notes", strs ["old"])]); ("wg0:DDD=", ex_client)]) ["wg0:AAA="; "wg0:BBB="] []) as (H & _).
  - repeat constructor; set_solver.
  - split; [|split; [|reflexivity]].
    + apply (H "wg0:CCC="). set_solver.
    + apply (H "wg0:DDD="). set_solver.
Defined.

Definition ex_preview : option preview :=
  Eval vm_compute in match buildPlanPreview (ex_small ex_hub_meta) ex_note with Ok pv => Some pv | Throw _ => None end.

Lemma metadata_only_needs_no_sync_witness : exists pv, ex_preview = Some pv /\ ac_canApply (pv_apply pv) = true /\
  syncHubPlan WgConf.ex_conf (links_of_store (next_metadata ex_hub_meta (pv_patch pv))) "wg0" [] [] =
  syncHubPlan WgConf.ex_conf (links_of_store ex_hub_meta) "wg0" [] [].
Proof.
  eexists. split; [reflexivity|]. split; [reflexivity|].
  match goal with |- syncHubPlan _ (links_of_store (next_metadata _ (pv_patch ?pv))) _ _ _ = _ =>
    refine (metadata_only_needs_no_sync (ex_small ex_hub_meta) ex_note pv _ (ex_keys _ _) ex_hub_meta_fine _ _ WgConf.ex_conf "wg0" [] [])
  end.
  - vm_compute. reflexivity.
  - discriminate.
  - intros i Hi. apply list_elem_of_singleton in Hi. subst i. left.
Defined.

Definition ex_renamed : option preview :=
  Eval vm_compute in match buildPlanPreview (ex_status ex_hub_meta) ex_rename with Ok pv => Some pv | Throw _ => None end.

Lemma valid_preview_names_unique_witness : exists pv, ex_renamed = Some pv /\
  NoDup (lk_name <$> st_links_of (ex_status (next_metadata ex_hub_meta (pv_patch pv)))) /\
  lk_name <$> st_links_of (ex_status (next_metadata ex_hub_meta (pv_patch pv))) = ["koeln"; "laptop"].
Proof.
  eexists. split; [reflexivity|]. split; [|vm_compute; reflexivity].
  match goal with |- NoDup (lk_name <$> st_links_of (ex_status (next_metadata _ (pv_patch ?pv)))) =>
    refine (proj2 (valid_preview_names_unique 1700000100 "/etc/wireguard" "wg" "ip" ex_host ex_hub_meta ex_rename pv _ (ex_keys _ _) ex_hub_meta_fine _ _ _))
  end.
  - vm_compute. reflexivity.
  - reflexivity.
  - assert (Forall (fun l => lk_peerPublicKey l <> None) (st_links_of (ex_status ex_hub_meta))) as H.
    { assert (lk_peerPublicKey <$> st_links_of (ex_status ex_hub_meta) = [Some "AAA="; Some "BBB="]) as Hk by (vm_compute; reflexivity).
      apply Forall_forall. intros l Hl Hn. apply (list_elem_of_fmap_2 lk_peerPublicKey) in Hl. rewrite Hk, Hn, !elem_of_cons, elem_of_nil in Hl.
      destruct Hl as [Hl|[Hl|[]]]; discriminate Hl. }
    rewrite Forall_forall in H. exact H.
  - intros i. destruct (decide ("wg0:AAA=" = i)) as [<-|Ha]; [left; vm_compute; discriminate|].
    destruct (decide ("wg0:BBB=" = i)) as [<-|Hb]; [left; vm_compute; discriminate|].
    right. cbn [ex_hub_meta ms_links mget]. by rewrite !decide_False.
Defined.

(** Clearing the type of a client keeps the live type in the preview, and the networks it
    reaches are not checked; but the hub sync takes an untyped peer for a site and routes
    them to it: a valid preview lets a client take over the network of a site. *)
Example cleared_type_escapes_the_check :
  let clear := link_patch "wg0:BBB=" [("type", VStr "")] in
  match buildPlanPreview (ex_status ex_hub_meta) clear with
  | Ok pv =>
      let next := next_metadata ex_hub_meta (pv_patch pv) in
      pv_valid pv = true /\ has_items (findLinkNetworkConflicts (ms_links next) None) = true /\
      (mget "wg0:BBB=" (links_of_store next) ≫= fun meta => Some (wanted_ips meta ["10.10.0.3/32"])) = Some ["10.10.0.3/32"; "192.168.2.0/24"]
  | Throw _ => False
  end.
Proof. vm_compute. done. Qed.

(** A restore does not check that names are unique: the name of the backup may since have
    gone to a link the backup does not have. *)
Example restore_can_duplicate_names :
  let current := MetaStore [] [("wg0:AAA=", mset "name" (VStr "koeln") ex_site); ("wg0:BBB=", mset "name" (VStr "berlin") ex_client)] in
  let backup := MetaStore [] [("wg0:AAA=", ex_site)] in
  name_of ∘ snd <$> ms_links (mi_store (mergeBackupIntoLive current backup ["wg0:AAA="; "wg0:BBB="] [])) = ["berlin"; "berlin"].
Proof. vm_compute. done. Qed.
