(* ===== verification/WgPeer.v ===== *)
(** The life of peers and interfaces on the hub: [buildClientConfig], [createPeer],
    [updatePeer], [deletePeer], [createInterface] and [deleteInterface] of
    [backend/internal/wireguard.js], with the agents bound to a link.

    The status of the hub at the start of a handler, the generated keys and the outcomes of
    the commands are inputs; the configuration files, the metadata, the agents, the cached
    client configurations and the commands run are the state. *)

From S2P Require Import Prelude.
From S2P Require Import JsString.
From S2P Require Import JsRegex.
From S2P Require Import JsVal.
From S2P Require Import ConfText.
From S2P Require Import Cidr.
From S2P Require Import IngressRules.
From S2P Require Import WgConf.
From S2P Require Import AgentText.
From S2P Require Import AgentRow.
From S2P Require Import AgentMesh.
From S2P Require Import AgentStore.
From S2P Require Import AgentService.
From S2P Require Import WgMeta.
From S2P Require Import WgStatus.
From S2P Require Import WgRename.
From coqutil Require Import Datatypes.RecordSetters.
Import OCamlLikeNotations.

Local Open Scope Z_scope.

(** * The client configuration *)

Record client_args := ClientArgs {
  ca_displayName : string;
  ca_filenameBase : string;
  ca_privateKey : string;
  ca_publicKey : option string;
  ca_tunnelAddress : option string;
  ca_linkDns : list string;
  ca_ifaceDns : list string;
  ca_fullTunnel : bool;
  ca_platform : string;
  ca_importedNets : list string;
  ca_tunnelSubnets : list string;
  ca_links : list link_rec;
  ca_excludeLinkId : string;
  ca_ifaceName : string;
  ca_hubPublicKey : option string;
  ca_hubHost : string;
  ca_hubListenPort : Z }.

Record client_config := ClientConfig { cc_filename : string; cc_content : string }.

(** [WG_DNS] is the environment variable, [None] or "" when unset. *)
Definition dns_servers (WG_DNS : option string) (a : client_args) : list string :=
  bfilter (fun s => isValidDnsEntry (VStr s))
    (list_or (ca_linkDns a) (list_or (ca_ifaceDns a)
      (match WG_DNS with Some s => if decide (s = "") then [] else trim <$> split_char "," s | None => [] end))).

Definition client_ips (a : client_args) : list string :=
  if ca_fullTunnel a then
    if decide (ca_platform a = "mobile") then ["0.0.0.0/0"; "::/0"] else ["0.0.0.0/1"; "128.0.0.0/1"; "::/1"; "8000::/1"]
  else
    list_or (ca_importedNets a)
      (uniq (ca_tunnelSubnets a ++
        (bfilter (fun l => negb (bool_decide (lk_id l = ca_excludeLinkId a)) && bool_decide (lk_interfaceName l = ca_ifaceName a)) (ca_links a)
           ≫= lk_exportedNetworks))).

(** [if (x) lines.push(text(x))] *)
Definition push_opt (x : option string) (text : string -> string) : list string :=
  match x with Some s => if decide (s = "") then [] else [text s] | None => [] end.

Definition client_lines (WG_DNS : option string) (a : client_args) : list string :=
  ["# WireGuard peer config — " +:+ ca_displayName a; "# Generated by FloppyGuard"; ""; "[Interface]";
   "PrivateKey = " +:+ ca_privateKey a] ++
  push_opt (ca_publicKey a) (fun k => "# PublicKey = " +:+ k +:+ "  # (registered on hub — do not share)") ++
  push_opt (ca_tunnelAddress a) (fun t => "Address = " +:+ t) ++
  when (has_items (dns_servers WG_DNS a)) ("DNS = " +:+ join ", " (dns_servers WG_DNS a)) ++
  [""; "[Peer]"; "# Hub interface: " +:+ ca_ifaceName a] ++
  push_opt (ca_hubPublicKey a) (fun k => "PublicKey = " +:+ k) ++
  ["Endpoint = " +:+ ca_hubHost a +:+ ":" +:+ showZ (ca_hubListenPort a);
   "AllowedIPs = " +:+ text_or (join ", " (client_ips a)) "0.0.0.0/0";
   "PersistentKeepalive = 25"].

(** [/[^\w.-]/g] *)
Definition file_char (c : ascii) : bool := is_word c || one_of ["."; "-"]%char c.

Definition buildClientConfig (WG_DNS : option string) (a : client_args) : client_config :=
  ClientConfig (smap (fun c => String (if file_char c then c else "_"%char) "") (ca_filenameBase a +:+ ".conf"))
    (join NL (client_lines WG_DNS a) +:+ NL).

(** * The hub *)

Definition PEER_CONFIG_CACHE_TTL_MS : Z := 120000.

Record peer_config := PeerConfig { pf_config : client_config; pf_publicKey : string }.

(** [hb_confs]: the text of each configuration file; [hb_commands]: the commands run, the
    last one last. *)
Record hub := Hub {
  hb_confs : list (string * string);
  hb_meta : meta_store;
  hb_backups : list meta_store;
  hb_agents : store;
  hb_cache : list (string * (peer_config * Z));
  hb_commands : list (list string) }.

Inductive peer_error :=
| PMeta (e : meta_error)
| PInvalidName
| PInvalidType
| PInvalidPlatform
| PInvalidLinkId
| PUnavailable
| PNoInterface
| PNoLink
| PInvalidAddress
| PNoFreeIp
| PNetworkConflict (conflicts : list (string * string * string))
| PLiveFailed
| PConfFailed
| PBoundAgents (names : list string)
| PAgentsBlocked (reasons : list (string * agent_error))
| PNoFreeName
| PInterfaceExists
| PInvalidPort
| PPortUsed
| PNoFreePort
| PHubInterface
| PAddressRequired
| PNameRequired
| PNotClient
| PUntypedSite
| PAgentManaged
| PAgentBound.

Definition lift_peer {A} (m : result meta_error A) : result peer_error A :=
  match m with Ok x => Ok x | Throw e => Throw (PMeta e) end.

(** * The address of a new peer *)

(** [/\/\d+$/] removed *)
Fixpoint drop_prefix (s : string) : string :=
  match s with
  | "" => ""
  | String c r => if is_char "/" c && nonempty r && sall is_digit r then "" else String c (drop_prefix r)
  end.

(** The first address of the interface, its mask as written, and the range of its hosts. *)
Record subnet := Subnet { sn_hubIp : string; sn_mask : string; sn_network : Z; sn_broadcast : Z }.

Definition octet_of (s : string) : option Z :=
  match num_int (string_to_num s) with Some n => if (0 <=? n) && (n <=? 255) then Some n else None | None => None end.

Definition hub_subnet (addresses : list string) : option subnet :=
  let hubAddr := split_char "/" (default "10.10.0.1/24" (head addresses)) in
  let hubIp := part hubAddr 0 in
  let mask := text_or (part hubAddr 1) "24" in
  match octet_of <$> split_char "." hubIp, parse_int mask with
  | [Some o0; Some o1; Some o2; Some o3], Some prefix =>
      if (0 <=? prefix) && (prefix <=? 32) then
        let hubInt := js_ushr (js_shl o0 24) 0 + js_shl o1 16 + js_shl o2 8 + o3 in
        let maskBits := cidr_mask prefix in
        let network := js_ushr (js_and hubInt maskBits) 0 in
        Some (Subnet hubIp mask network (js_ushr (js_or network (js_ushr (js_not maskBits) 0)) 0))
      else None
  | _, _ => None
  end.

Definition used_ips (hubIp : string) (links : list link_rec) : list string :=
  hubIp :: (links ≫= fun l => drop_prefix <$> lk_tunnelAddresses l).

(** The loop over the hosts. [fuel] is one more than the number of addresses in use: the
    loop passes over a host only when it is in use. *)
Fixpoint find_host (fuel : nat) (used : list string) (host broadcast : Z) : option string :=
  match fuel with
  | O => None
  | S fuel =>
      if host <? broadcast then
        let candidate := intToIp (js_ushr host 0) in
        if set_has used candidate then find_host fuel used (host + 1) broadcast else Some candidate
      else None
  end.

Definition next_ip (sn : subnet) (links : list link_rec) : option string :=
  let used := used_ips (sn_hubIp sn) links in
  find_host (S (length used)) used (sn_network sn + 1) (sn_broadcast sn).

(** * Creating a peer *)

Record peer_request := PeerRequest {
  rq_name : jsval; rq_type : jsval; rq_dns : jsval; rq_fullTunnel : jsval; rq_platform : jsval; rq_importedNetworks : jsval;
  rq_ifaceName : string }.

(** [normalizeLinkType] of any value: only a text can be in the set. *)
Definition norm_type (v : jsval) : string := match v with VStr s => normalizeLinkType s | _ => "" end.

(** The view [assertUniqueLinkName] gets of the live links. *)
Definition names_view (links : list link_rec) : meta_store :=
  MetaStore [] (mfrom ((fun l => (lk_id l, [("name", VStr (lk_name l))])) <$> links)).

Definition peer_nets_of (l : link_rec) : peer_nets := PeerNets (text_or (lk_name l) (lk_id l)) (lk_allowedIps l).

Definition peer_block (name publicKey : string) (hubAllowedIPs : list string) : string :=
  join NL [""; "# " +:+ name; "[Peer]"; "PublicKey = " +:+ publicKey; "AllowedIPs = " +:+ join ", " hubAllowedIPs; ""].

(** [s.replace(p, "")]: the first occurrence. *)
Fixpoint remove_first (p s : string) : string :=
  if starts_with p s then sdrop (String.length p) s
  else match s with "" => "" | String c r => String c (remove_first p r) end.

Record created := Created { cd_linkId : string; cd_publicKey : string; cd_tunnelAddress : string; cd_config : client_config }.

Definition conf_of (h : hub) (iface : string) : string := default "" (mget iface (hb_confs h)).
Definition set_conf (iface text : string) (h : hub) : hub := { h with hb_confs := mset iface text (hb_confs h) }.
Definition set_meta (m : meta_store) (h : hub) : hub := { h with hb_meta := m }.
Definition cache_config (linkId : string) (config : peer_config) (now : Z) (h : hub) : hub :=
  { h with hb_cache := mset linkId (config, now + PEER_CONFIG_CACHE_TTL_MS) (hb_cache h) }.
Definition run_command (cmd : list string) (h : hub) : hub := { h with hb_commands := hb_commands h ++ [cmd] }.

Section peers.
(** The SHA-256 of node:crypto, the environment (WG_HUB_HOST, WG_DNS), the host name, and
    what a hub sync reads of the live interface: the peers of [wg show] and the NICs. *)
Variable sha256 : string -> string.
Variable WG_HUB_HOST : string.
Variable WG_DNS : option string.
Variable hostname : string.
Variable live_peers : string -> list (string * list string).
Variable nics : list nic.

Definition resolveHubHost : string :=
  text_or (default "" (sanitizeHubHost WG_HUB_HOST)) (text_or hostname "<server-ip>").

(** [_syncHubConfCore] writes the plan; a missing file is left alone. *)
Definition synced_confs (iface : string) (confs : list (string * string)) (m : meta_store) : list (string * string) :=
  match mget iface confs with
  | Some text => mset iface (hp_text (syncHubPlan text (links_of_store m) iface (live_peers iface) nics)) confs
  | None => confs
  end.

Definition sync_conf (iface : string) (h : hub) : hub := { h with hb_confs := synced_confs iface (hb_confs h) (hb_meta h) }.

(** [syncAgentConfigs(store)] *)
Definition sync_agents_of (h : hub) : hub :=
  let agents := { hb_agents h with st_meta := links_of_store (hb_meta h) } in
  { h with hb_agents := resync sha256 WG_HUB_HOST agents }.

(** The checks before the lock: the name, the type and the DNS list. *)
Definition check_request (rq : peer_request) : result peer_error (string * list string) :=
  throw_if (negb (is_nullish (rq_name rq)) && negb (isSafeLinkName (rq_name rq))) PInvalidName;;
  throw_if (truthy (rq_type rq) && bool_decide (norm_type (rq_type rq) = "")) PInvalidType;;
  dnsList ← lift_peer (sanitizeDnsArray (rq_dns rq));
  Ok (text_or (norm_type (rq_type rq)) "client", dnsList).

(** What the status and the request determine: the address, the networks on the hub side and
    the networks given. *)
Record peer_plan := PeerPlan { pp_iface : iface_status; pp_tunnelAddress : string; pp_hubAllowedIPs : list string; pp_importedNets : list string }.

Definition plan_peer (st : status) (rq : peer_request) (linkType publicKey : string) : result peer_error peer_plan :=
  throw_if (negb (st_available st)) PUnavailable;;
  iface ← match bfind (fun i => bool_decide (if_name i = rq_ifaceName rq)) (st_interfaces st) with Some i => Ok i | None => Throw PNoInterface end;
  sn ← match hub_subnet (if_addresses iface) with Some sn => Ok sn | None => Throw PInvalidAddress end;
  nextIP ← match next_ip sn (st_links_of st) with Some ip => Ok ip | None => Throw PNoFreeIp end;
  importedNets ← lift_peer (sanitizeNetworkArray (rq_importedNetworks rq));
  let isClientType := bool_decide (linkType = "client") in
  let conflicts := if isClientType then [] else checkAllowedIPsConflicts importedNets (peer_nets_of <$> st_links_of st) in
  throw_if (has_items conflicts) (PNetworkConflict conflicts);;
  lift_peer (assertUniqueLinkName (names_view (st_links_of st)) (rq_ifaceName rq +:+ ":" +:+ publicKey) (str_truthy "" (rq_name rq)) "");;
  Ok (PeerPlan iface (nextIP +:+ "/" +:+ sn_mask sn) ((nextIP +:+ "/32") :: (if isClientType then [] else importedNets)) importedNets).

(** The fields of the new entry; its [undefined] fields do not survive the JSON of the file. *)
Definition new_entry (rq : peer_request) (linkType : string) (importedNets dnsList : list string) : result meta_error obj :=
  p ← sanitizeLinkMetadataPatch (VObj
    [("name", if truthy (rq_name rq) then rq_name rq else VUndef); ("type", VStr linkType); ("importedNetworks", strs importedNets);
     ("dns", strs dnsList); ("fullTunnel", VBool (truthy (rq_fullTunnel rq)));
     ("platform", if truthy (rq_platform rq) then rq_platform rq else VUndef)]);
  Ok (mergeMetadataEntry [] p).

Definition created_config (st : status) (rq : peer_request) (plan : peer_plan) (dnsList : list string) (h : hub) (privateKey publicKey : string)
    : client_config :=
  let linkId := rq_ifaceName rq +:+ ":" +:+ publicKey in
  buildClientConfig WG_DNS {|
    ca_displayName := str_truthy linkId (rq_name rq);
    ca_filenameBase := str_truthy "peer" (rq_name rq);
    ca_privateKey := privateKey;
    ca_publicKey := Some publicKey;
    ca_tunnelAddress := Some (pp_tunnelAddress plan);
    ca_linkDns := dnsList;
    ca_ifaceDns := list_of "dns" (default [] (mget (rq_ifaceName rq) (ms_interfaces (hb_meta h))));
    ca_fullTunnel := truthy (rq_fullTunnel rq);
    ca_platform := match rq_platform rq with VStr s => s | _ => "" end;
    ca_importedNets := pp_importedNets plan;
    ca_tunnelSubnets := if_addresses (pp_iface plan);
    ca_links := st_links_of st;
    ca_excludeLinkId := linkId;
    ca_ifaceName := rq_ifaceName rq;
    ca_hubPublicKey := if_publicKey (pp_iface plan);
    ca_hubHost := resolveHubHost;
    ca_hubListenPort := default 51820 (if_listenPort (pp_iface plan)) |}.

(** [st]: the status read under the lock; [privateKey], [publicKey]: the generated pair;
    [set_ok]: whether [wg set] succeeds; [now]: the time in milliseconds. The hub after a
    failure is given with the error. *)
Definition createPeer (h : hub) (st : status) (rq : peer_request) (privateKey publicKey : string) (set_ok : bool) (now : Z)
    : hub * result peer_error created :=
  match check_request rq with
  | Throw e => (h, Throw e)
  | Ok (linkType, dnsList) =>
      match plan_peer st rq linkType publicKey with
      | Throw e => (h, Throw e)
      | Ok plan =>
          let iface := rq_ifaceName rq in
          let linkId := iface +:+ ":" +:+ publicKey in
          let block := peer_block (stripLinkNameControlChars (VStr (str_truthy "new-peer" (rq_name rq)))) publicKey (pp_hubAllowedIPs plan) in
          let h1 := set_conf iface (conf_of h iface +:+ block) h in
          if negb set_ok then (set_conf iface (remove_first block (conf_of h1 iface)) h1, Throw PLiveFailed)
          else
            let h2 := run_command ["set"; iface; "peer"; publicKey; "allowed-ips"; join "," (pp_hubAllowedIPs plan)] h1 in
            match new_entry rq linkType (pp_importedNets plan) dnsList with
            | Throw e => (h2, Throw (PMeta e))
            | Ok entry =>
                let m := hb_meta h2 in
                let h3 := set_meta (MetaStore (ms_interfaces m) (mset linkId entry (ms_links m))) h2 in
                let h4 := if has_items (pp_importedNets plan) && negb (bool_decide (linkType = "client")) then sync_conf iface h3 else h3 in
                let h5 := sync_agents_of h4 in
                let config := created_config st rq plan dnsList h privateKey publicKey in
                let h6 := cache_config linkId (PeerConfig config publicKey) now h5 in
                (h6, Ok (Created linkId publicKey (pp_tunnelAddress plan) config))
            end
      end
  end.

End peers.

(** * The address given is the lowest free one *)

Definition host_used (used : list string) (h : Z) : Prop := intToIp h ∈ used.

Lemma find_host_Some fuel used host b ip : 0 <= host -> b <= 2 ^ 32 -> find_host fuel used host b = Some ip ->
  exists h, host <= h < b /\ ip = intToIp h /\ ~ host_used used h /\ forall k, host <= k < h -> host_used used k.
Proof.
  revert host. induction fuel as [|fuel IH]; intros host H0 Hb H; [done|]. cbn [find_host] in H.
  destruct (Z.ltb_spec host b); [|done]. cbv zeta in H. rewrite js_ushr0, Z.mod_small in H by lia.
  destruct (set_has used (intToIp host)) eqn:Hu; unfold set_has in Hu.
  - apply bool_decide_eq_true in Hu. destruct (IH (host + 1)) as (h & Hh & -> & Hfree & Hall); try (done || lia).
    exists h. split_and!; try (done || lia). intros k Hk. destruct (decide (k = host)) as [-> |]; [done|]. apply Hall. lia.
  - apply bool_decide_eq_false in Hu. injection H as <-. exists host. split_and!; (done || lia).
Qed.

Lemma find_host_None fuel used host b : 0 <= host -> b <= 2 ^ 32 -> find_host fuel used host b = None ->
  (forall k, host <= k < b -> host_used used k) \/
  (host + Z.of_nat fuel <= b /\ forall k, host <= k < host + Z.of_nat fuel -> host_used used k).
Proof.
  revert host. induction fuel as [|fuel IH]; intros host H0 Hb H.
  - destruct (Z.ltb_spec host b); [right|left]; [split; [lia|]|]; intros k Hk; lia.
  - cbn [find_host] in H. destruct (Z.ltb_spec host b); [|left; intros k Hk; lia].
    cbv zeta in H. rewrite js_ushr0, Z.mod_small in H by lia.
    destruct (set_has used (intToIp host)) eqn:Hu; [|done]. apply bool_decide_eq_true in Hu.
    destruct (IH (host + 1)) as [Hall|[Hle Hall]]; try (done || lia); [left|right; split; [lia|]]; intros k Hk;
      (destruct (decide (k = host)) as [-> |]; [done|]; apply Hall; lia).
Qed.

(** More hosts than addresses in use cannot all be in use. *)
Lemma hosts_pigeonhole used host n : 0 <= host -> host + Z.of_nat n <= 2 ^ 32 ->
  (forall k, host <= k < host + Z.of_nat n -> host_used used k) -> (n <= length used)%nat.
Proof.
  intros H0 Hb Hall. replace n with (length (intToIp <$> seqZ host (Z.of_nat n))) by (rewrite length_fmap, length_seqZ; lia).
  apply submseteq_length, NoDup_submseteq.
  - apply NoDup_fmap_2_strong; [|apply NoDup_seqZ]. intros x y Hx Hy Hxy. rewrite elem_of_seqZ in Hx, Hy.
    assert (Some x = Some y) as [= ->]; [|done].
    rewrite <- (ipToInt_intToIp x) by (unfold is_addr; lia). rewrite Hxy. apply ipToInt_intToIp. unfold is_addr; lia.
  - intros ip (k & -> & Hk%elem_of_seqZ)%list_elem_of_fmap. apply Hall. lia.
Qed.

Lemma hub_subnet_range addresses sn : hub_subnet addresses = Some sn ->
  0 <= sn_network sn < 2 ^ 32 /\ 0 <= sn_broadcast sn < 2 ^ 32.
Proof.
  unfold hub_subnet. cbv zeta. intros H. repeat case_match; try discriminate H. injection H as <-. cbn [sn_network sn_broadcast].
  rewrite !js_ushr0. split; apply Z.mod_pos_bound; lia.
Qed.

(** C38. The search for an address ends with the lowest free host strictly inside the subnet of
    the interface, and without one exactly when every host is in use. *)
Theorem next_ip_lowest_free addresses sn links : hub_subnet addresses = Some sn ->
  match next_ip sn links with
  | Some ip => exists h, sn_network sn < h < sn_broadcast sn /\ ip = intToIp h /\
      ~ host_used (used_ips (sn_hubIp sn) links) h /\
      forall k, sn_network sn < k < h -> host_used (used_ips (sn_hubIp sn) links) k
  | None => forall k, sn_network sn < k < sn_broadcast sn -> host_used (used_ips (sn_hubIp sn) links) k
  end.
Proof.
  intros Hsn. apply hub_subnet_range in Hsn as [Hn Hb]. destruct (next_ip sn links) as [ip|] eqn:Hip; unfold next_ip in Hip; cbv zeta in Hip.
  - apply find_host_Some in Hip as (h & Hh & -> & Hfree & Hall); try lia. exists h. split_and!; try (done || lia).
    intros k Hk. apply Hall. lia.
  - apply find_host_None in Hip as [Hall|[Hle Hall]]; try lia; [intros k Hk; apply Hall; lia|].
    apply hosts_pigeonhole in Hall; lia.
Qed.

Definition ex_link (key : string) (tunnel : list string) : link_rec :=
  buildLinkRecord "wg0" (WgStatus.WgPeer (Some key) None tunnel 0 0 0 false) 0 [].

(** * A new entry is always written *)

Lemma network_step_normal out n : acl_normal n -> network_step out (VStr n) = Ok (out ++ [n]).
Proof.
  intros [Hc Hp]. pose proof (canonicalize_token _ _ Hc) as [(Hne & _ & _ & Ht) _].
  unfold network_step. change (str_or "" (VStr n)) with n. cbv zeta. by rewrite Ht, decide_False, Hc, Hp.
Qed.

Lemma networks_again l : NoDup l -> Forall acl_normal l -> sanitizeNetworkArray (strs l) = Ok l.
Proof.
  intros Hd Hl. unfold sanitizeNetworkArray, strs.
  enough (forall out, foldM network_step out (VStr <$> l) = Ok (out ++ l)) as ->.
  { cbn [mbind result_bind app]. by rewrite uniq_NoDup. }
  clear Hd.
  induction Hl as [|n l Hn _ IH]; intros out; [by rewrite app_nil_r|]. rewrite fmap_cons. cbn [foldM].
  rewrite network_step_normal by done. cbn [mbind result_bind]. rewrite IH. by rewrite <- app_assoc.
Qed.

Lemma dns_trimmed v l : sanitizeDnsArray v = Ok l -> Forall (fun s => trim s = s /\ isValidDnsEntry (VStr s) = true) l.
Proof.
  unfold sanitizeDnsArray. destruct v; try done; try by intros [= <-]; constructor.
  intros H. apply (foldM_inv _ (Forall (fun s => trim s = s /\ isValidDnsEntry (VStr s) = true)) _ _ _) in H; [done| |constructor].
  intros b x c _ Hb Hs. unfold dns_step in Hs. destruct (decide _); [by injection Hs as <-|].
  apply bind_Ok in Hs as (u & Hv%throw_if_Ok%negb_false_iff & [= <-]). rewrite Forall_forall in *.
  intros s [Hs| ->]%elem_of_push_new; [by apply Hb|]. split; [apply trim_idemp|done].
Qed.

Lemma dns_again l : Forall (fun s => trim s = s /\ isValidDnsEntry (VStr s) = true) l -> exists k, sanitizeDnsArray (strs l) = Ok k.
Proof.
  intros Hl. unfold sanitizeDnsArray, strs. generalize (@nil string) as out.
  induction Hl as [|s l [Ht Hv] _ IH]; intros out; [by eexists|]. rewrite fmap_cons. cbn [foldM].
  assert (exists out', dns_step out (VStr s) = Ok out') as (out' & ->); [|apply IH].
  unfold dns_step. change (str_or "" (VStr s)) with s. cbv zeta. rewrite Ht, Hv. destruct (decide _); by eexists.
Qed.

Lemma field_given l f clean out v : mget f l = Some v -> field (VObj l) f clean out = (w ← clean v; Ok (out ++ [(f, w)])).
Proof.
  intros H. unfold field, has_own. rewrite (proj2 (mhas_spec f l)) by (apply mget_is_Some; by eexists).
  cbn [vget]. by rewrite H.
Qed.

Lemma field_absent l f clean out : mget f l = None -> field (VObj l) f clean out = Ok out.
Proof.
  intros H. unfold field, has_own. destruct (mhas f l) eqn:Hm; [|done]. apply mhas_spec, mget_is_Some in Hm as [v Hv]. congruence.
Qed.

Ltac fields := repeat first
  [ erewrite field_absent by reflexivity; cbn [mbind result_bind]
  | erewrite field_given by reflexivity; unfold pure_field; cbn [mbind result_bind] ].

Lemma msets_fresh {V} (p m : list (string * V)) : NoDup (m.*1 ++ p.*1) -> foldl (fun m kv => mset kv.1 kv.2 m) m p = m ++ p.
Proof.
  revert m. induction p as [|[k v] p IH]; intros m H; [by rewrite app_nil_r|]. cbn [foldl fst snd]. rewrite fmap_cons in H.
  rewrite mset_fresh by (apply NoDup_app in H as (_ & H & _); intros Hk; apply (H k Hk); left).
  rewrite IH by (rewrite fmap_app, <- app_assoc; exact H). by rewrite <- app_assoc.
Qed.

Lemma merged_field p f v : NoDup p.*1 -> mget f p = Some v -> v <> VUndef -> mget f (mergeMetadataEntry [] p) = Some v.
Proof.
  intros Hd Hf Hv. unfold mergeMetadataEntry. rewrite msets_fresh by done. apply elem_of_mget.
  - cbn [app]. eapply sublist_NoDup; [exact Hd|]. apply fmap_sublist, bfilter_sublist.
  - apply elem_of_bfilter. cbn [snd]. split; [by apply mget_elem_of|]. destruct v; (reflexivity || congruence).
Qed.

Lemma norm_type_again s : normalizeLinkType (normalizeLinkType s) = normalizeLinkType s.
Proof.
  destruct (decide (normalizeLinkType s = "")) as [-> |H]; [done|]. apply normalizeLinkType_types in H. revert H.
  generalize (normalizeLinkType s). intros t Ht. unfold LINK_TYPES in Ht. set_unfold. by destruct Ht as [->|[->|[->|[->|[->|[]]]]]].
Qed.

(** The new entry carries the type and the networks of the request. *)
Lemma new_entry_written rq linkType v nets w dnsList : normalizeLinkType linkType = linkType -> linkType <> "" ->
  sanitizeNetworkArray v = Ok nets -> sanitizeDnsArray w = Ok dnsList ->
  exists entry, new_entry rq linkType nets dnsList = Ok entry /\
    lm_type (link_meta_of entry) = linkType /\ lm_importedNetworks (link_meta_of entry) = Some nets.
Proof.
  intros Hl Hne [Hnd Hk]%sanitizeNetworkArray_Ok (d & Hd)%dns_trimmed%dns_again. apply networks_again in Hk; [|done].
  unfold new_entry, sanitizeLinkMetadataPatch. cbn [throw_if mbind result_bind]. fields.
  unfold networks. rewrite Hk. cbn [mbind result_bind]. fields. unfold dns_list. rewrite Hd. cbn [mbind result_bind]. fields.
  match goal with |- context [mergeMetadataEntry [] ?p] => set (q := p) end.
  assert (NoDup q.*1) as Hq by (subst q; cbn; repeat constructor; set_solver).
  assert (str_val linkType = VStr linkType) as Ht by (unfold str_val; by rewrite decide_False).
  eexists. split; [done|]. split.
  - unfold link_meta_of, type_of, oget. cbn [lm_type]. erewrite merged_field; [|done|reflexivity|]; unfold str_truthy; cbn [truthy to_string];
      rewrite (bool_decide_eq_true_2 _ Hne), Hl, Ht; done.
  - unfold link_meta_of, oget, mhas. cbn [lm_importedNetworks]. erewrite merged_field; [|done|reflexivity|done].
    cbn [from_option]. unfold id. by rewrite strings_of_strs.
Qed.

(** * The block appended to the file *)

Lemma first_char d s : no_char d s \/ exists x r, s = x +:+ String d r /\ no_char d x.
Proof.
  unfold no_char. induction s as [|c s IH]; [by left|]. cbn [sall]. destruct (is_char d c) eqn:Hc.
  - apply bool_decide_eq_true in Hc as ->. right. by exists "", s.
  - destruct IH as [IH|(x & r & -> & Hx)]; [by left|]. right. exists (String c x), r. split; [done|]. cbn [sall]. by rewrite Hc.
Qed.

Lemma trims_app s t : trim <$> split_lines (s +:+ String nl t) = (trim <$> split_lines s) ++ (trim <$> split_lines t).
Proof.
  remember (String.length s) as n eqn:Hn. revert s Hn. induction (lt_wf n) as [n _ IH]. intros s ->.
  destruct (first_char nl s) as [Hs|(x & r & -> & Hx)].
  - destruct (split_lines_step s t Hs) as (x' & -> & Ht). rewrite (split_lines_no_nl s) by done.
    rewrite !fmap_cons. cbn [fmap list_fmap app]. by rewrite (trim_of_eq _ _ Ht).
  - rewrite sapp_assoc, sapp_String. destruct (split_lines_step x (r +:+ String nl t) Hx) as (x1 & -> & H1).
    destruct (split_lines_step x r Hx) as (x2 & -> & H2). rewrite !fmap_cons. cbn [app].
    rewrite (trim_of_eq x1 x2) by congruence. f_equal. eapply IH; [|done]. rewrite slength_app. cbn [String.length]. lia.
Qed.

(** A text that is one word of the file: a key. *)
Definition wg_key (k : string) : Prop := k <> "" /\ no_char nl k /\ trim k = k.

Lemma key_line_parse st k : ps_inPeer st = true -> wg_key k ->
  parse_peer_line st ("PublicKey = " +:+ k) = PeerScan (ps_peers st) true k (ps_ips st).
Proof.
  intros Hin (Hne & _ & Ht). change ("PublicKey = " +:+ k) with ("PublicKey" +:+ " = " +:+ k).
  rewrite (setting_step _ _ _ eq_refl Hin); [|by apply setting_no_header|left; by apply setting_line_key].
  rewrite setting_line_key by done. rewrite decide_True by done. rewrite decide_False by done.
  rewrite setting_value by done. rewrite trim_of_trim_end. change (" " +:+ k) with (String " " k). by rewrite trim_space_l, Ht.
Qed.

(** The lines of the file after a block is appended, up to white space. *)
Lemma block_trims text name key ips : no_char nl name -> wg_key key -> Forall csv_token ips ->
  trim <$> split_lines (text +:+ peer_block name key ips) =
  (trim <$> split_lines text) ++ (trim <$> ["# " +:+ name; "[Peer]"; "PublicKey = " +:+ key; "AllowedIPs = " +:+ join ", " ips; ""]).
Proof.
  intros Hname (_ & Hnl & _) Hips. set (lines := ["# " +:+ name; "[Peer]"; "PublicKey = " +:+ key; "AllowedIPs = " +:+ join ", " ips; ""]).
  assert (peer_block name key ips = String nl (join NL lines)) as -> by done.
  rewrite trims_app. f_equal. apply trims_split_join; [done|]. subst lines.
  repeat constructor; try (by apply no_char_app). apply no_char_app; [done|]. apply no_char_join; [done|].
  eapply Forall_impl; [exact Hips|]. intros x. apply csv_token_no_nl.
Qed.

(** A block appended to a file is one more peer, whatever the file ends with. *)
Lemma block_parse text name key ips : no_char nl name -> wg_key key -> Forall csv_token ips ->
  parsePeersFromConf (split_lines (text +:+ peer_block name key ips)) = mset key ips (parsePeersFromConf (split_lines text)).
Proof.
  intros Hname Hkey Hips. pose proof Hkey as (Hne & _). rewrite (parsePeers_trims _ (split_lines text ++ _)) by (rewrite fmap_app; by apply block_trims).
  unfold parsePeersFromConf. rewrite fold_left_app. generalize (fold_left parse_peer_line (split_lines text) (PeerScan [] false "" [])) as st.
  intros st. cbn [fold_left]. rewrite (marker_neutral st) by done.
  change (parse_peer_line st "[Peer]") with (PeerScan (flush_peer st) true "" []).
  rewrite key_line_parse by done. rewrite allowed_line_parse by done. cbn [ps_peers ps_ips ps_key].
  change (parse_peer_line ?s "") with s. unfold flush_peer at 1. cbn [ps_inPeer ps_key ps_ips ps_peers].
  unfold nonempty. by rewrite bool_decide_true.
Qed.

(** * The rollback removes what was appended *)

Lemma includes_intro k a b : includes k (a +:+ k +:+ b) = true.
Proof.
  induction a as [|c a IH].
  - rewrite sapp_nil_l. pose proof (starts_with_app k b) as H. unfold starts_with in H. destruct (k +:+ b); cbn [includes]; by rewrite H.
  - rewrite sapp_String. cbn [includes]. rewrite IH. by destruct (String.prefix _ _).
Qed.

Lemma split_char_String sep c s : split_char sep (String c s) =
  if decide (c = sep) then "" :: split_char sep s else match split_char sep s with x :: xs => String c x :: xs | [] => [String c ""] end.
Proof. reflexivity. Qed.

Lemma split_char_sep sep s t : split_char sep (s +:+ String sep t) = split_char sep s ++ split_char sep t.
Proof.
  induction s as [|c s IH].
  - apply (split_char_app sep "" t). done.
  - rewrite sapp_String, !split_char_String, IH. destruct (decide _); [done|].
    destruct (split_char_cons sep s) as (x & xs & ->). done.
Qed.

(** Two ways to cut one text. *)
Lemma sapp_cut a b c d : a +:+ b = c +:+ d -> (exists z, a = c +:+ z /\ d = z +:+ b) \/ (exists z, z <> "" /\ c = a +:+ z /\ b = z +:+ d).
Proof.
  revert c. induction a as [|x a IH]; intros c H.
  - rewrite sapp_nil_l in H. subst b. destruct c as [|y c]; [left; by exists ""|right; by exists (String y c)].
  - destruct c as [|y c]; [left; exists (String x a); split; [done|by rewrite sapp_nil_l in H]|].
    rewrite !sapp_String in H. injection H as <- H. apply IH in H as [(z & -> & ->)|(z & Hz & -> & ->)]; [left|right]; exists z; by rewrite ?sapp_String.
Qed.

Lemma block_text n p k a : join NL [""; n; p; k; a; ""] = String nl (n +:+ NL +:+ p +:+ NL +:+ k) +:+ NL +:+ a +:+ NL.
Proof. cbn [join]. rewrite sapp_nil_l, sapp_nil_r, sapp_String, !sapp_assoc. reflexivity. Qed.

Lemma front_text n p q k : String nl (n +:+ NL +:+ p +:+ NL +:+ q +:+ k) = String nl (n +:+ NL +:+ p +:+ NL +:+ q) +:+ k.
Proof. rewrite sapp_String, !sapp_assoc. reflexivity. Qed.

Section rollback.
Variables (name key : string) (ips : list string).
Hypothesis Hname : no_char nl name.
Hypothesis Hkey : no_char nl key.

Let front : string := String nl ("# " +:+ name +:+ NL +:+ "[Peer]" +:+ NL +:+ "PublicKey = " +:+ key).
Let back : string := NL +:+ "AllowedIPs = " +:+ join ", " ips +:+ NL.

Lemma block_front : peer_block name key ips = front +:+ back.
Proof. exact (block_text ("# " +:+ name) "[Peer]" ("PublicKey = " +:+ key) ("AllowedIPs = " +:+ join ", " ips)). Qed.

(** The only line of the block that starts with a comment is its first one. *)
Lemma front_comment c r : front = c +:+ String nl (String "#" r) -> c = "".
Proof.
  intros H. apply (f_equal (split_char nl)) in H. rewrite split_char_sep in H.
  assert (split_char nl front = [""; "# " +:+ name; "[Peer]"; "PublicKey = " +:+ key]) as Hf.
  { change front with ("" +:+ String nl (("# " +:+ name) +:+ String nl ("[Peer]" +:+ String nl ("PublicKey = " +:+ key)))).
    rewrite split_char_app by done. f_equal. rewrite split_char_app by by apply no_char_app. f_equal.
    rewrite split_char_app by done. f_equal. apply split_char_no. by apply no_char_app. }
  rewrite Hf in H. destruct (split_char_cons nl (String "#" r)) as (x & xs & Hx). rewrite Hx in H.
  assert (exists y, x = String "#" y) as (y & ->).
  { assert (no_char nl "#") as Hh by done. change (String "#" r) with ("#" +:+ r) in Hx.
    destruct (first_char nl r) as [Hr|(u & v & -> & Hu)].
    - rewrite split_char_no in Hx by by apply no_char_app. injection Hx as <- _. by exists r.
    - rewrite <- sapp_assoc, split_char_app in Hx by by apply no_char_app. injection Hx as <- _. by exists u. }
  pose proof (join_split nl c) as Hc.
  destruct (split_char nl c) as [|c0 [|c1 [|c2 [|c3 [|]]]]]; try discriminate H.
  by injection H as <- _ _.
Qed.

Lemma block_not_early c : includes key c = false -> c <> "" -> starts_with (peer_block name key ips) (c +:+ peer_block name key ips) = false.
Proof.
  intros Hinc Hc. apply not_true_iff_false. intros (t & H)%starts_with_split. rewrite block_front, !sapp_assoc in H.
  apply sapp_cut in H as [(z & -> & _)|(z & Hz & Hf & Hr)].
  - assert (front = (String nl ("# " +:+ name +:+ NL +:+ "[Peer]" +:+ NL +:+ "PublicKey = ")) +:+ key) as Hf.
    { exact (front_text ("# " +:+ name) "[Peer]" "PublicKey = " key). }
    rewrite Hf, sapp_assoc, includes_intro in Hinc. done.
  - apply Hc. destruct z as [|x z]; [done|]. rewrite sapp_String in Hr. unfold front in Hr at 1. rewrite sapp_String in Hr. injection Hr as <- Hr. destruct z as [|y z].
    + rewrite sapp_nil_l in Hr. injection Hr as Hr _. done.
    + rewrite sapp_String in Hr. injection Hr as <- _. by apply (front_comment _ z).
Qed.

Lemma rollback_block text : includes key text = false -> remove_first (peer_block name key ips) (text +:+ peer_block name key ips) = text.
Proof.
  intros Hinc. induction text as [|x text IH].
  - rewrite sapp_nil_l. set (b := peer_block name key ips). assert (starts_with b b = true) as Hb.
    { rewrite <- (sapp_nil_r b) at 2. apply starts_with_app. }
    unfold remove_first. destruct b as [|y b]; [done|]. rewrite Hb. clear. cbn. induction b; [done|exact IHb].
  - pose proof (block_not_early _ Hinc ltac:(done)) as Hs. rewrite sapp_String in Hs |- *. cbn [remove_first]. rewrite Hs. f_equal.
    apply IH. cbn [includes] in Hinc. by destruct (String.prefix _ _).
Qed.
End rollback.

(** * A creation succeeds as a whole or changes nothing *)

Lemma stripped_no_nl v : no_char nl (stripLinkNameControlChars v).
Proof.
  unfold no_char, stripLinkNameControlChars. apply sall_smap. intros c. destruct (is_control c) eqn:Hc; [done|].
  cbn [sall]. rewrite andb_true_r, negb_true_iff. unfold is_char. apply bool_decide_eq_false. intros ->. done.
Qed.

(** What the checks of a creation establish. *)
Record planned (st : status) (rq : peer_request) (linkType publicKey : string) (plan : peer_plan) : Prop := Planned {
  pl_iface : pp_iface plan ∈ st_interfaces st /\ if_name (pp_iface plan) = rq_ifaceName rq;
  pl_subnet : exists sn ip, hub_subnet (if_addresses (pp_iface plan)) = Some sn /\ next_ip sn (st_links_of st) = Some ip /\
    pp_tunnelAddress plan = ip +:+ "/" +:+ sn_mask sn /\
    pp_hubAllowedIPs plan = (ip +:+ "/32") :: (if decide (linkType = "client") then [] else pp_importedNets plan);
  pl_networks : sanitizeNetworkArray (rq_importedNetworks rq) = Ok (pp_importedNets plan);
  pl_conflicts : linkType = "client" \/ checkAllowedIPsConflicts (pp_importedNets plan) (peer_nets_of <$> st_links_of st) = [];
  pl_name : assertUniqueLinkName (names_view (st_links_of st)) (rq_ifaceName rq +:+ ":" +:+ publicKey) (str_truthy "" (rq_name rq)) "" = Ok tt }.

Lemma lift_peer_Ok {A} (m : result meta_error A) x : lift_peer m = Ok x <-> m = Ok x.
Proof. destruct m; cbn; split; congruence. Qed.

Lemma plan_peer_Ok st rq linkType publicKey plan : plan_peer st rq linkType publicKey = Ok plan -> planned st rq linkType publicKey plan.
Proof.
  unfold plan_peer. intros (? & _ & H)%bind_Ok. apply bind_Ok in H as (iface & Hi & H).
  destruct (bfind _ _) as [i|] eqn:Hf in Hi; [injection Hi as ->|done]. apply bfind_Some in Hf as [Hin Hn]. apply bool_decide_eq_true in Hn.
  apply bind_Ok in H as (sn & Hsn & H). destruct (hub_subnet _) as [sn'|] eqn:Hs; [injection Hsn as ->|done].
  apply bind_Ok in H as (ip & Hip & H). destruct (next_ip _ _) as [ip'|] eqn:Hnip; [injection Hip as ->|done].
  apply bind_Ok in H as (nets & Hnets & H). rewrite lift_peer_Ok in Hnets. cbv zeta in H.
  apply bind_Ok in H as (? & Hc%throw_if_Ok & H). apply bind_Ok in H as ([] & Hu & [= <-]). rewrite lift_peer_Ok in Hu.
  split; cbn [pp_iface pp_tunnelAddress pp_hubAllowedIPs pp_importedNets]; try done.
  - exists sn, ip. split_and!; try done. by repeat case_bool_decide || case_decide.
  - destruct (decide (linkType = "client")) as [|Hl]; [by left|right]. rewrite bool_decide_eq_false_2 in Hc by done.
    by destruct (checkAllowedIPsConflicts _ _).
Qed.

Lemma planned_ips st rq linkType publicKey plan : planned st rq linkType publicKey plan -> Forall csv_token (pp_hubAllowedIPs plan).
Proof.
  intros []. destruct pl_subnet0 as (sn & ip & Hsn & Hip & _ & ->). constructor.
  - pose proof (hub_subnet_range _ _ Hsn) as [Hn Hb]. unfold next_ip in Hip. cbv zeta in Hip.
    apply find_host_Some in Hip as (h & Hh & -> & _); try lia.
    change (intToIp h +:+ "/32") with (host32 h). rewrite host32_show. apply show_net_token.
    apply read_net_wf with (host32 h). apply read_host32. unfold is_addr. lia.
  - destruct (decide _); [constructor|]. apply sanitizeNetworkArray_Ok in pl_networks0 as [_ Hn].
    eapply Forall_impl; [exact Hn|]. intros net [Hc _]. by apply canonicalize_token in Hc as [? _].
Qed.

Lemma mset_same {V} (k : string) (v w : V) m : mget k m = Some w -> mset k w (mset k v m) = m.
Proof.
  induction m as [|[k' v'] m IH]; cbn [mget mset]; [done|]. destruct (decide (k' = k)) as [-> |Hk]; cbn [mset].
  - intros [= ->]. by rewrite decide_True.
  - intros H. rewrite decide_False by done. by rewrite IH.
Qed.

Lemma conf_set_conf iface text h : conf_of (set_conf iface text h) iface = text.
Proof. unfold conf_of, set_conf. destruct h; cbn. by rewrite mget_mset_eq. Qed.

Lemma set_conf_back iface text h : is_Some (mget iface (hb_confs h)) -> set_conf iface (conf_of h iface) (set_conf iface text h) = h.
Proof. intros [t Ht]. unfold conf_of, set_conf. destruct h; cbn in *. rewrite Ht. cbn. by rewrite mset_same. Qed.

Section handler.
Variable sha256 : string -> string.
Variable WG_HUB_HOST : string.
Variable WG_DNS : option string.
Variable hostname : string.
Variable live_peers : string -> list (string * list string).
Variable nics : list nic.

Notation create := (createPeer sha256 WG_HUB_HOST WG_DNS hostname live_peers nics).

(** The block a creation appends. *)
Definition block_of (rq : peer_request) (publicKey : string) (ips : list string) : string :=
  peer_block (stripLinkNameControlChars (VStr (str_truthy "new-peer" (rq_name rq)))) publicKey ips.

Lemma check_request_Ok rq linkType dnsList : check_request rq = Ok (linkType, dnsList) ->
  sanitizeDnsArray (rq_dns rq) = Ok dnsList /\ normalizeLinkType linkType = linkType /\ linkType <> "" /\
  linkType = text_or (norm_type (rq_type rq)) "client".
Proof.
  unfold check_request. intros (? & _ & H)%bind_Ok. apply bind_Ok in H as (? & _ & H).
  apply bind_Ok in H as (d & Hd & [= <- <-]). rewrite lift_peer_Ok in Hd. split; [done|]. unfold text_or.
  destruct (decide (norm_type (rq_type rq) = "")); [done|]. split; [|done]. unfold norm_type in *. destruct (rq_type rq); try done.
  apply norm_type_again.
Qed.

(** Every error of a creation is found before the first change, or the change is undone:
    the hub is what it was. The new key is not in the file yet, and the file is there. *)
Theorem createPeer_failure_changes_nothing h st rq privateKey publicKey set_ok now h' e :
  is_Some (mget (rq_ifaceName rq) (hb_confs h)) -> no_char nl publicKey -> includes publicKey (conf_of h (rq_ifaceName rq)) = false ->
  create h st rq privateKey publicKey set_ok now = (h', Throw e) -> h' = h.
Proof.
  intros Hf Hk Hi. unfold createPeer. destruct (check_request rq) as [[linkType dnsList]|] eqn:Hc; [|by intros [= <- _]].
  apply check_request_Ok in Hc as (Hd & Hn & Hne & _).
  destruct (plan_peer st rq linkType publicKey) as [plan|] eqn:Hp; [|by intros [= <- _]]. apply plan_peer_Ok in Hp. cbv zeta.
  destruct set_ok; cbn [negb].
  - destruct (new_entry_written rq linkType _ _ _ _ Hn Hne (pl_networks _ _ _ _ _ Hp) Hd) as (entry & -> & _). by intros [=].
  - intros [= <- _]. rewrite conf_set_conf, rollback_block by (done || apply stripped_no_nl). by apply set_conf_back.
Qed.
Lemma host_route ip : isHostRoute (ip +:+ "/32") = true.
Proof.
  assert (forall a s, ends_with s (a +:+ s) = true) as H; [|unfold isHostRoute; by rewrite H]. intros a s. induction a as [|c a IH].
  - rewrite sapp_nil_l. destruct s; cbn [ends_with]; by rewrite decide_True.
  - rewrite sapp_String. cbn [ends_with]. by destruct (decide _).
Qed.

(** The AllowedIPs of a block are those the new entry wants for the peer. *)
Lemma block_wanted linkType ip nets entry x :
  normalizeLinkType linkType = linkType -> lm_type (link_meta_of entry) = linkType -> lm_importedNetworks (link_meta_of entry) = Some nets ->
  isHostRoute ip = true -> Forall acl_normal nets ->
  let ips := ip :: (if decide (linkType = "client") then [] else nets) in x ∈ wanted_ips (link_meta_of entry) ips <-> x ∈ ips.
Proof.
  cbv zeta. intros Hn Ht Hi Hip Hnets. rewrite elem_of_wanted, Ht, Hi, Hn. rewrite !elem_of_cons. rewrite Forall_forall in Hnets.
  destruct (decide (linkType = "client")) as [Hc|Hc].
  - split; [tauto|]. intros [-> |H]; [tauto|by apply elem_of_nil in H].
  - split; [naive_solver|]. intros [-> |H]; [tauto|]. destruct (isHostRoute x) eqn:Hx; [tauto|]. right. destruct (Hnets x H). tauto.
Qed.

(** C28. A successful creation adds exactly one peer: the file reads as before with the new key
    and its AllowedIPs, the command gives the live interface the same AllowedIPs, the store
    has one entry more and wants exactly these AllowedIPs, the sync of a site starts from
    this file, and the configuration handed out is the one that is served again. *)
Theorem createPeer_adds_one h st rq privateKey publicKey now h' c : wg_key publicKey ->
  create h st rq privateKey publicKey true now = (h', Ok c) ->
  let iface := rq_ifaceName rq in
  exists ips entry,
    let text := conf_of h iface +:+ block_of rq publicKey ips in
    let confs := mset iface text (hb_confs h) in
    parsePeersFromConf (split_lines text) = mset publicKey ips (parsePeersFromConf (split_lines (conf_of h iface))) /\
    hb_commands h' = hb_commands h ++ [["set"; iface; "peer"; publicKey; "allowed-ips"; join "," ips]] /\
    cd_linkId c = iface +:+ ":" +:+ publicKey /\
    hb_meta h' = MetaStore (ms_interfaces (hb_meta h)) (mset (cd_linkId c) entry (ms_links (hb_meta h))) /\
    (forall x, x ∈ wanted_ips (link_meta_of entry) ips <-> x ∈ ips) /\
    hb_confs h' = (match ips with [_] => confs | _ => synced_confs live_peers nics iface confs (hb_meta h') end) /\
    mget (cd_linkId c) (hb_cache h') = Some (PeerConfig (cd_config c) publicKey, now + PEER_CONFIG_CACHE_TTL_MS).
Proof.
  intros Hkey H. cbv zeta. unfold createPeer in H. destruct (check_request rq) as [[linkType dnsList]|] eqn:Hc; [|done].
  apply check_request_Ok in Hc as (Hd & Hn & Hne & _). destruct (plan_peer st rq linkType publicKey) as [plan|] eqn:Hp; [|done].
  apply plan_peer_Ok in Hp. cbv zeta in H. cbn [negb] in H. pose proof (planned_ips _ _ _ _ _ Hp) as Htok.
  destruct (new_entry_written rq linkType _ _ _ _ Hn Hne (pl_networks _ _ _ _ _ Hp) Hd) as (entry & He & Ht & Hi). rewrite He in H.
  injection H as <- <-. exists (pp_hubAllowedIPs plan), entry. cbn [cd_linkId cd_config].
  split; [by apply block_parse; [apply stripped_no_nl|..]|].
  pose proof (pl_subnet _ _ _ _ _ Hp) as (sn & ip & Hsn & Hip & _ & Hips).
  pose proof (pl_networks _ _ _ _ _ Hp) as [_ Hnets]%sanitizeNetworkArray_Ok.
  pose proof (host_route ip) as Hhost.
  pose proof (fun x => block_wanted linkType (ip +:+ "/32") _ entry x Hn Ht Hi Hhost Hnets) as Hw. cbv zeta in Hw. rewrite <- Hips in Hw.
  set (cond := has_items (pp_importedNets plan) && negb (bool_decide (linkType = "client"))) in *.
  assert (cond = match pp_hubAllowedIPs plan with [_] => false | _ => true end) as Hcond.
  { subst cond. rewrite Hips. destruct (decide (linkType = "client")) as [Hl|Hl];
      [rewrite (bool_decide_eq_true_2 _ Hl)|rewrite (bool_decide_eq_false_2 _ Hl)]; destruct (pp_importedNets plan); done. }
  rewrite Hcond. destruct h as [confs meta backups agents cache commands].
  destruct (pp_hubAllowedIPs plan) as [|i0 [|i1 ips]]; (split; [done|]; split; [done|]; split; [done|]; split; [exact Hw|]; split; [done|]; apply mget_mset_eq).
Qed.

Lemma names_view_fresh links id name : NoDup (lk_id <$> links) -> name <> "" ->
  assertUniqueLinkName (names_view links) id name "" = Ok tt -> forall l, l ∈ links -> lk_id l <> id -> lk_name l <> name.
Proof.
  intros Hd Hn H l Hl Hid <-. unfold assertUniqueLinkName in H. rewrite bool_decide_eq_false_2 in H by naive_solver.
  apply throw_if_Ok in H. rewrite existsb_false in H. unfold names_view, mfrom in H. cbn [ms_links] in H.
  rewrite msets_fresh in H by (cbn [fmap list_fmap app]; rewrite <- list_fmap_compose; exact Hd).
  assert ((lk_id l, [("name", VStr (lk_name l))]) ∈ (fun l => (lk_id l, [("name", VStr (lk_name l))])) <$> links) as Hin
    by (apply list_elem_of_fmap; by exists l).
  specialize (H _ Hin). cbn [fst snd] in H. rewrite bool_decide_eq_false_2 in H by done. cbn in H.
  rewrite bool_decide_eq_true_2 in H by done. done.
Qed.

Lemma no_conflicts nets links l net x : checkAllowedIPsConflicts nets (peer_nets_of <$> links) = [] -> l ∈ links ->
  net ∈ nets -> x ∈ lk_allowedIps l -> isHostRoute net = false -> isHostRoute x = false -> networksOverlap net x = true -> False.
Proof.
  unfold checkAllowedIPsConflicts. intros H Hl Hnet Hx Hn1 Hn2 Hov.
  destruct (bfind (networksOverlap net) (bfilter (fun ip => negb (isHostRoute ip)) (lk_allowedIps l))) as [hit|] eqn:Hf.
  - assert ((net, hit, pn_name (peer_nets_of l)) ∈ @nil (string * string * string)) as Hin; [|by apply elem_of_nil in Hin].
    rewrite <- H. apply list_elem_of_bind. exists net. split; [|apply elem_of_bfilter; by rewrite Hn1].
    apply list_elem_of_bind. exists (peer_nets_of l). split; [|apply list_elem_of_fmap; by exists l].
    cbn [pn_allowedIps peer_nets_of]. rewrite Hf. left.
  - pose proof (bfind_None _ _ Hf x) as Hx0. rewrite Hx0 in Hov; [done|]. apply elem_of_bfilter. by rewrite Hn2.
Qed.

(** A creation takes nothing from the links there are: its tunnel address lies strictly
    inside the subnet of the interface and is neither the hub's nor another link's, its
    name is no other link's, and no network of a site overlaps one of another link. *)
Theorem createPeer_takes_nothing h st rq privateKey publicKey set_ok now h' c : NoDup (lk_id <$> st_links_of st) ->
  create h st rq privateKey publicKey set_ok now = (h', Ok c) ->
  exists iface sn addr nets, iface ∈ st_interfaces st /\ if_name iface = rq_ifaceName rq /\ hub_subnet (if_addresses iface) = Some sn /\
    sn_network sn < addr < sn_broadcast sn /\ cd_tunnelAddress c = intToIp addr +:+ "/" +:+ sn_mask sn /\
    intToIp addr <> sn_hubIp sn /\
    sanitizeNetworkArray (rq_importedNetworks rq) = Ok nets /\
    forall l, l ∈ st_links_of st ->
      (forall t, t ∈ lk_tunnelAddresses l -> drop_prefix t <> intToIp addr) /\
      (lk_id l <> cd_linkId c -> str_truthy "" (rq_name rq) <> "" -> lk_name l <> str_truthy "" (rq_name rq)) /\
      (forall net x, text_or (norm_type (rq_type rq)) "client" <> "client" -> net ∈ nets -> x ∈ lk_allowedIps l ->
         isHostRoute net = false -> isHostRoute x = false -> networksOverlap net x = false).
Proof.
  intros Hids H. unfold createPeer in H. destruct (check_request rq) as [[linkType dnsList]|] eqn:Hc; [|done].
  apply check_request_Ok in Hc as (_ & _ & _ & ->). destruct (plan_peer st rq _ publicKey) as [plan|] eqn:Hp; [|done].
  apply plan_peer_Ok in Hp. cbv zeta in H. destruct set_ok; [|done]. cbn [negb] in H.
  destruct (new_entry _ _ _ _) as [entry|]; [|done]. injection H as _ <-. cbn [cd_tunnelAddress cd_linkId].
  destruct Hp as [[Hin Hname] (sn & ip & Hsn & Hip & -> & _) Hnets Hconf Hu].
  pose proof (hub_subnet_range _ _ Hsn) as [Hn Hb]. unfold next_ip in Hip. cbv zeta in Hip.
  apply find_host_Some in Hip as (h0 & Hh & -> & Hfree & _); [|lia..]. unfold host_used, used_ips in Hfree. rewrite elem_of_cons in Hfree.
  exists (pp_iface plan), sn, h0, (pp_importedNets plan). split_and!; try (done || lia); [naive_solver|].
  intros l Hl. split_and!.
  - intros t Ht He. apply Hfree. right. apply list_elem_of_bind. exists l. split; [|done]. apply list_elem_of_fmap. by exists t.
  - intros Hid Hne. by eapply names_view_fresh.
  - intros net x Ht Hnet Hx Hn1 Hn2. destruct Hconf as [|Hconf]; [done|]. apply not_true_iff_false. intros Hov.
    by eapply no_conflicts in Hov.
Qed.
End handler.

(** * Examples *)

Definition ex_peer_host : host_view :=
  HostView (print_dump [DumpedIface "wg0" "priv" "HUB=" 51820 "off"
     [DumpedPeer "AAA=" "(none)" "198.51.100.4:51820" ["10.10.0.2/32"; "192.168.1.0/24"] 0 0 0 "off"]])
    ["wg0"] (fun _ => WgConf.ex_conf) (fun _ => (0, 0)) None true.

Definition ex_peer_status : status := Eval vm_compute in live_status 0 "wg" "ip" ex_peer_host empty_meta.
Definition ex_hub : hub := Hub [("wg0", WgConf.ex_conf)] empty_meta [] (Store [] [] [] [] []) [] [].
Definition ex_request : peer_request :=
  PeerRequest (VStr "lager") (VStr "site-to-site") (VArr [VStr "1.1.1.1"]) VUndef VUndef (VArr [VStr "192.168.7.9/24"]) "wg0".
Definition ex_create (set_ok : bool) : hub * result peer_error created :=
  createPeer ex_sha "hub.example" None "hub" (fun _ => []) ex_nics ex_hub ex_peer_status ex_request "PRIV=" "CCC=" set_ok 5.

Definition ex_result : hub * result peer_error created := Eval vm_compute in ex_create true.
Definition ex_created : created := Eval vm_compute in match ex_result.2 with Ok c => c | Throw _ => Created "" "" "" (ClientConfig "" "") end.

Lemma ex_create_eq : ex_create true = (ex_result.1, Ok ex_created).
Proof. vm_compute. reflexivity. Qed.

Lemma next_ip_lowest_free_witness : exists sn h, hub_subnet ["10.9.0.1/29"] = Some sn /\
  next_ip sn [ex_link "AAA=" ["10.9.0.2/32"]; ex_link "BBB=" ["10.9.0.4/32"]] = Some (intToIp h) /\ sn_network sn < h < sn_broadcast sn.
Proof.
  pose proof (next_ip_lowest_free ["10.9.0.1/29"] _ [ex_link "AAA=" ["10.9.0.2/32"]; ex_link "BBB=" ["10.9.0.4/32"]] eq_refl) as H.
  destruct (next_ip _ _) as [ip|] eqn:He in H; [|vm_compute in He; discriminate He].
  destruct H as (h & Hh & -> & _). eexists _, h. split; [reflexivity|]. split; [exact He|exact Hh].
Defined.

Lemma createPeer_failure_changes_nothing_witness : (ex_create false).1 = ex_hub /\ is_ok (ex_create false).2 = false.
Proof.
  split; [|vm_compute; reflexivity].
  apply (createPeer_failure_changes_nothing ex_sha "hub.example" None "hub" (fun _ => []) ex_nics ex_hub ex_peer_status ex_request
    "PRIV=" "CCC=" false 5 _ PLiveFailed); [by eexists|reflexivity|vm_compute; reflexivity|vm_compute; reflexivity].
Defined.

Lemma createPeer_adds_one_witness : exists ips entry,
  parsePeersFromConf (split_lines (WgConf.ex_conf +:+ block_of ex_request "CCC=" ips)) = mset "CCC=" ips (parsePeersFromConf (split_lines WgConf.ex_conf)) /\
  ms_links (hb_meta ex_result.1) = [("wg0:CCC=", entry)].
Proof.
  destruct (createPeer_adds_one ex_sha "hub.example" None "hub" (fun _ => []) ex_nics ex_hub ex_peer_status ex_request
    "PRIV=" "CCC=" 5 ex_result.1 ex_created ltac:(split_and!; done) ex_create_eq) as (ips & entry & H1 & _ & _ & H2 & _).
  exists ips, entry. split; [exact H1|]. by rewrite H2.
Defined.

Lemma createPeer_takes_nothing_witness : exists addr, cd_tunnelAddress ex_created = intToIp addr +:+ "/24" /\
  forall l t, l ∈ st_links_of ex_peer_status -> t ∈ lk_tunnelAddresses l -> drop_prefix t <> intToIp addr.
Proof.
  destruct (createPeer_takes_nothing ex_sha "hub.example" None "hub" (fun _ => []) ex_nics ex_hub ex_peer_status ex_request
    "PRIV=" "CCC=" true 5 ex_result.1 ex_created) as (iface & sn & addr & nets & Hin & _ & Hsn & _ & Ht & _ & _ & Hl).
  - apply NoDup_singleton.
  - exact ex_create_eq.
  - exists addr. split; [|intros l t Hll Htt; by apply (Hl l Hll)]. rewrite Ht. f_equal. f_equal.
    apply list_elem_of_singleton in Hin as ->. vm_compute in Hsn. by injection Hsn as <-.
Defined.
