(* ===== verification/WgLife.v ===== *)
(** The handlers that change and remove peers and interfaces of the hub: the rule that
    protects the agents bound to a link, [updatePeer], [deletePeer], [createInterface] and
    [deleteInterface] of [backend/internal/wireguard.js].

    A handler reads the status, checks, and takes the write lock; [deletePeer] and
    [deleteInterface] check the bound agents again under the lock, so they get the hub twice:
    as it was at the first check and as it is under the lock. *)

From S2P Require Import Prelude.
From S2P Require Import JsString.
From S2P Require Import JsRegex.
From S2P Require Import JsVal.
From S2P Require Import ConfText.
From S2P Require Import Cidr.
From S2P Require Import IngressRules.
From S2P Require Import DirectLink.
From S2P Require Import WgConf.
From S2P Require Import AgentText.
From S2P Require Import AgentRow.
From S2P Require Import AgentMesh.
From S2P Require Import AgentStore.
From S2P Require Import AgentLinks.
From S2P Require Import AgentIngress.
From S2P Require Import AgentService.
From S2P Require Import AgentSystem.
From S2P Require Import WgMeta.
From S2P Require Import WgStatus.
From S2P Require Import WgRename.
From S2P Require Import WgPeer.
From coqutil Require Import Datatypes.RecordSetters.
Import OCamlLikeNotations.

Local Open Scope Z_scope.

(** * The agents bound to a link *)

(** [whereIn("wg_link_name", [...new Set(names.filter(Boolean))])] *)
Definition boundAgentRows (names : list string) (db : agent_db) : list agent_row :=
  bfilter (fun a => negb (ag_is_deleted a) && bool_decide (or_empty (ag_wg_link_name a) <> "") && set_has names (or_empty (ag_wg_link_name a))) db.

Record bound_plan := BoundPlan {
  bp_id : Z; bp_name : string; bp_linkName : string; bp_force : bool; bp_blocker : option (agent_error * bool) }.

Record bound_view := BoundView { bv_id : Z; bv_name : string; bv_linkName : string; bv_blocked : option agent_error; bv_forceable : bool }.

Definition cascadeView (plan : list bound_plan) : list bound_view :=
  (fun p => BoundView (bp_id p) (bp_name p) (bp_linkName p) (fst <$> bp_blocker p) (match bp_blocker p with Some b => b.2 | None => false end)) <$> plan.

(** Throws unless the cascade may run as planned. *)
Definition assertBoundAgentCascade (plan : list bound_plan) (deleteBoundAgents : bool) : result peer_error unit :=
  match plan with
  | [] => Ok tt
  | _ =>
      throw_if (negb deleteBoundAgents) (PBoundAgents (bp_name <$> plan));;
      let blocked := omap (fun p => (fun b => (bp_name p, fst b)) <$> bp_blocker p) plan in
      throw_if (has_items blocked) (PAgentsBlocked blocked)
  end.

Record bound_deleted := BoundDeleted { bd_deleted : list Z; bd_errors : list (Z * svc_error) }.

(** ** A configuration may be given out for a client only *)

Definition assertPeerConfigAllowed (link : link_rec) (linkMeta : obj) (db : agent_db) : result peer_error unit :=
  let metaType := normalizeLinkType (type_of linkMeta) in
  let effectiveType := text_or (lk_type link) (text_or metaType (classifyLinkType (lk_allowedIps link) (lk_interfaceName link))) in
  throw_if (negb (bool_decide (effectiveType = "client"))) PNotClient;;
  throw_if (negb (bool_decide (metaType = "client")) && existsb (fun c => negb (isHostRoute c)) (lk_allowedIps link)) PUntypedSite;;
  throw_if (bool_decide (text_of "remoteManagementMode" linkMeta = "agent")) PAgentManaged;;
  throw_if (bool_decide (lk_name link <> "") &&
            existsb (fun a => bool_decide (ag_wg_link_name a = Some (lk_name link))) (boundAgentRows [lk_name link] db)) PAgentBound.

(** * Finding the link *)

(** The interface and the key of "ifaceName:publicKey". *)
Definition split_link_id (linkId : string) : option (string * string) :=
  match index_of ":" linkId with
  | Some n =>
      let ifaceName := stake n linkId in
      let publicKey := sdrop (S n) linkId in
      if bool_decide (ifaceName = "" \/ publicKey = "") then None else Some (ifaceName, publicKey)
  | None => None
  end.

Definition resolveLink (st : status) (linkId : string) : result peer_error (link_rec * (string * string)) :=
  match split_link_id linkId with
  | None => Throw PInvalidLinkId
  | Some (ifaceName, publicKey) =>
      throw_if (negb (st_available st)) PUnavailable;;
      throw_if (negb (existsb (fun i => bool_decide (if_name i = ifaceName)) (st_interfaces st))) PNoInterface;;
      match bfind (fun l => bool_decide (lk_id l = linkId)) (st_links_of st) with
      | Some link => Ok (link, (ifaceName, publicKey))
      | None => Throw PNoLink
      end
  end.

Definition backup_meta (h : hub) : hub := { h with hb_backups := hb_backups h ++ [hb_meta h] }.
Definition drop_cache (h : hub) : hub := { h with hb_cache := [] }.
Definition set_agents (agents : store) (h : hub) : hub := { h with hb_agents := agents }.
Definition drop_conf (iface : string) (h : hub) : hub := { h with hb_confs := mdel iface (hb_confs h) }.

Record delete_opts := DeleteOpts { do_deleteBoundAgents : bool; do_forceAgentIds : list Z; do_dryRun : bool }.

Inductive delete_result :=
| DryRun (agents : list bound_view)
| Deleted (agents : bound_deleted).

Section life.
Variable sha256 : string -> string.
Variable WG_HUB_HOST : string.
Variable live_peers : string -> list (string * list string).
Variable nics : list nic.

Definition planBoundAgentCascade (names : list string) (forceAgentIds : list Z) (now : Z) (st : store) : list bound_plan :=
  (fun a => let force := bool_decide (ag_id a ∈ forceAgentIds) in
    BoundPlan (ag_id a) (ag_name a) (or_empty (ag_wg_link_name a)) force (deleteBlocker sha256 st a force now)) <$>
  boundAgentRows names (st_agents st).

Definition delete_bound_step (now : Z) (acc : store * bound_deleted) (p : bound_plan) : store * bound_deleted :=
  let '(st, BoundDeleted deleted errors) := acc in
  match delete_agent sha256 st (bp_id p) (bp_force p) now with
  | Ok st' => (st', BoundDeleted (deleted ++ [bp_id p]) errors)
  | Throw (ENotFound _) => (st, BoundDeleted (deleted ++ [bp_id p]) errors)
  | Throw e => (st, BoundDeleted deleted (errors ++ [(bp_id p, e)]))
  end.

Definition deleteBoundAgents (plan : list bound_plan) (now : Z) (st : store) : store * bound_deleted :=
  foldl (delete_bound_step now) (st, BoundDeleted [] []) plan.

(** * Deleting a peer *)

(** The names by which agents are bound: the link's, unless another link has it too. *)
Definition peer_bound_names (st : status) (link : link_rec) : list string :=
  if bool_decide (lk_name link <> "") &&
     negb (existsb (fun l => negb (bool_decide (lk_id l = lk_id link)) && bool_decide (lk_name l = lk_name link)) (st_links_of st))
  then [lk_name link] else [].

(** What the write of the configuration file does; a file that is not there is no error. *)
Definition remove_from_conf (iface publicKey : string) (write_ok : bool) (h : hub) : result peer_error hub :=
  match mget iface (hb_confs h) with
  | None => Ok h
  | Some text => throw_if (negb write_ok) PConfFailed;; Ok (set_conf iface (removePeerFromConf text publicKey) h)
  end.

(** [h0]: the hub at the first check, with the status [st]; [h]: the hub under the lock.
    [write_ok], [set_ok]: whether the file can be written and [wg set ... remove] succeeds. *)
Definition deletePeer (h0 h : hub) (st : status) (linkId : string) (opts : delete_opts) (write_ok set_ok : bool) (now : Z)
    : hub * result peer_error delete_result :=
  match resolveLink st linkId with
  | Throw e => (h, Throw e)
  | Ok (link, (iface, publicKey)) =>
      let boundNames := peer_bound_names st link in
      let plan_of h := planBoundAgentCascade boundNames (do_forceAgentIds opts) now (hb_agents h) in
      if do_dryRun opts then (h, Ok (DryRun (cascadeView (plan_of h0))))
      else
        match assertBoundAgentCascade (plan_of h0) (do_deleteBoundAgents opts) with
        | Throw e => (h, Throw e)
        | Ok _ =>
            let h := backup_meta h in
            let plan := plan_of h in
            match assertBoundAgentCascade plan (do_deleteBoundAgents opts);; remove_from_conf iface publicKey write_ok h with
            | Throw e => (h, Throw e)
            | Ok h =>
                let h := if set_ok then run_command ["set"; iface; "peer"; publicKey; "remove"] h else h in
                let h := drop_cache (set_meta (delete_link_meta (hb_meta h) linkId) h) in
                let '(agents, deleted) := deleteBoundAgents plan now (hb_agents h) in
                let h := sync_conf live_peers nics iface (set_agents agents h) in
                (sync_agents_of sha256 WG_HUB_HOST h, Ok (Deleted deleted))
            end
        end
  end.

(** * Updating a peer *)

Definition known_platform (v : jsval) : bool := match v with VStr s => set_has ["desktop"; "mobile"] s | _ => false end.
Definition is_given (changes : jsval) (f : string) : bool := negb (is_undef (vget changes f)).

(** The networks the update would claim overlap none of another link; a client claims none. *)
Definition check_claims (m : meta_store) (st : status) (link : link_rec) (changes : jsval) : result peer_error unit :=
  if is_given changes "importedNetworks" || is_given changes "type" then
    let stored := default [] (mget (lk_id link) (ms_links m)) in
    let effectiveType := if is_given changes "type" then norm_type (vget changes "type") else normalizeLinkType (type_of stored) in
    if decide (effectiveType = "client") then Ok tt
    else
      newNets ← (if is_given changes "importedNetworks" then lift_peer (sanitizeNetworkArray (vget changes "importedNetworks"))
                 else Ok (omap canonicalizeIpv4Network (lk_importedNetworks link)));
      let otherLinks := bfilter (fun l => negb (bool_decide (lk_id l = lk_id link))) (st_links_of st) in
      let conflicts := checkAllowedIPsConflicts newNets (peer_nets_of <$> otherLinks) in
      throw_if (has_items conflicts) (PNetworkConflict conflicts)
  else Ok tt.

Definition check_update (m : meta_store) (st : status) (link : link_rec) (changes : jsval) : result peer_error unit :=
  throw_if (truthy (vget changes "type") && bool_decide (norm_type (vget changes "type") = "")) PInvalidType;;
  throw_if (truthy (vget changes "platform") && negb (known_platform (vget changes "platform"))) PInvalidPlatform;;
  check_claims m st link changes.

(** [st'] is the status read after the write, [stamp] and [outcomes] belong to the cascade. *)
Definition updatePeer (h : hub) (st st' : status) (linkId : string) (changes : jsval) (stamp : Z) (outcomes : list (option nat))
    : hub * result peer_error unit :=
  match resolveLink st linkId with
  | Throw e => (h, Throw e)
  | Ok (link, (iface, _)) =>
      match check_update (hb_meta h) st link changes with
      | Throw e => (h, Throw e)
      | Ok _ =>
          let h := backup_meta h in
          match (p ← update_patch changes; update_link_meta (hb_meta h) linkId p) with
          | Throw e => (h, Throw (PMeta e))
          | Ok m =>
              let h := drop_cache (set_meta m h) in
              let oldName := lk_name link in
              let newName := match bfind (fun l => bool_decide (lk_id l = linkId)) (st_links_of st') with Some l => lk_name l | None => "" end in
              let h := if bool_decide (oldName <> "" /\ newName <> "" /\ oldName <> newName)
                       then set_agents (cascadeLinkRenames stamp [LinkRename oldName newName] outcomes (hb_agents h)).1 h else h in
              (sync_agents_of sha256 WG_HUB_HOST (sync_conf live_peers nics iface h), Ok tt)
          end
      end
  end.

(** * Interfaces *)

Definition VALID_IFACE_NAME : re := RSeq (rlit "wg") D13.

Record iface_request := IfaceRequest { ir_name : string; ir_address : string; ir_listenPort : option jsnum; ir_role : string }.
Record iface_created := IfaceCreated { ic_name : string; ic_address : string; ic_listenPort : Z; ic_publicKey : string }.

Definition auto_name (existing : list string) : option string :=
  bfind (fun n => negb (set_has existing n)) ((fun i => "wg" +:+ showZ i) <$> seqZ 0 100).

Definition used_ports (confs : list (string * string)) : list Z :=
  omap (fun kt => match pc_listenPort (parseConfig kt.2) with Some p => if p =? 0 then None else Some p | None => None end) confs.

Definition choose_port (listenPort : option jsnum) (used : list Z) : result peer_error Z :=
  match listenPort with
  | Some n =>
      match num_int n with
      | Some p =>
          throw_if (negb ((1 <=? p) && (p <=? 65535))) PInvalidPort;;
          throw_if (bool_decide (p ∈ used)) PPortUsed;;
          Ok p
      | None => Throw PInvalidPort
      end
  | None =>
      match bfind (fun p => negb (bool_decide (p ∈ used))) (seqZ 51820 100) with
      | Some p => Ok p
      | None => Throw PNoFreePort
      end
  end.

Definition iface_lines (name address : string) (listenPort : Z) (privateKey : string) : list string :=
  ["[Interface]"; "Address = " +:+ trim address; "ListenPort = " +:+ showZ listenPort; "PrivateKey = " +:+ privateKey; "Table = off";
   "PostUp = iptables -A FORWARD -i " +:+ name +:+ " -j ACCEPT; iptables -A FORWARD -o " +:+ name +:+ " -j ACCEPT";
   "PostDown = iptables -D FORWARD -i " +:+ name +:+ " -j ACCEPT; iptables -D FORWARD -o " +:+ name +:+ " -j ACCEPT"; ""].

(** The name and the port of a new interface. *)
Definition choose_iface (h : hub) (rq : iface_request) : result peer_error (string * Z) :=
  throw_if (bool_decide (trim (ir_address rq) = "")) PAddressRequired;;
  throw_if (negb (isValidInterfaceAddress (ir_address rq))) PInvalidAddress;;
  name ← (if decide (ir_name rq = "") then match auto_name (hb_confs h).*1 with Some n => Ok n | None => Throw PNoFreeName end
          else Ok (ir_name rq));
  throw_if (negb (re_test VALID_IFACE_NAME name)) PInvalidName;;
  throw_if (mhas name (hb_confs h)) PInterfaceExists;;
  port ← choose_port (ir_listenPort rq) (used_ports (hb_confs h));
  Ok (name, port).

Definition iface_entry (role : string) : result meta_error obj :=
  p ← sanitizeInterfaceMetadataPatch (VObj [("role", VStr (text_or role "auxiliary")); ("managementMode", VStr "local")]);
  Ok (mergeMetadataEntry [] p).

(** [up_ok]: whether [wg-quick up] succeeds; the file is removed when it does not. *)
Definition createInterface (h : hub) (rq : iface_request) (privateKey publicKey : string) (up_ok : bool) : hub * result peer_error iface_created :=
  match choose_iface h rq with
  | Throw e => (h, Throw e)
  | Ok (name, port) =>
      let h1 := set_conf name (join NL (iface_lines name (ir_address rq) port privateKey)) h in
      if negb up_ok then (drop_conf name h1, Throw PLiveFailed)
      else
        match iface_entry (ir_role rq) with
        | Throw e => (h1, Throw (PMeta e))
        | Ok entry =>
            let m := hb_meta h1 in
            (set_meta (MetaStore (mset name entry (ms_interfaces m)) (ms_links m)) h1,
             Ok (IfaceCreated name (trim (ir_address rq)) port publicKey))
        end
  end.

(** The names of the links on the interface that no link elsewhere has; [st] is [None] when
    the status cannot be read. *)
Definition interfaceBoundNames (st : option status) (m : meta_store) (name : string) : list string :=
  let live := match st with Some s => if st_available s then st_links_of s else [] | None => [] end in
  let own := (lk_name <$> bfilter (fun l => bool_decide (lk_interfaceName l = name)) live) ++
             (name_of ∘ snd <$> bfilter (fun kl => starts_with (name +:+ ":") kl.1) (ms_links m)) in
  let other := (lk_name <$> bfilter (fun l => negb (bool_decide (lk_interfaceName l = name))) live) ++
               (name_of ∘ snd <$> bfilter (fun kl => negb (starts_with (name +:+ ":") kl.1)) (ms_links m)) in
  bfilter (fun n => bool_decide (n <> "") && negb (set_has other n)) (uniq own).

Definition deleteInterface (h0 h : hub) (st : option status) (rawName : string) (opts : delete_opts) (now : Z)
    : hub * result peer_error delete_result :=
  let name := trim rawName in
  if decide (name = "") then (h, Throw PNameRequired)
  else if negb (re_test VALID_IFACE_NAME name) then (h, Throw PInvalidName)
  else if decide (name = "wg0") then (h, Throw PHubInterface)
  else if negb (mhas name (hb_confs h0)) then (h, Throw PNoInterface)
  else
    let boundNames := interfaceBoundNames st (hb_meta h0) name in
    let plan_of h := planBoundAgentCascade boundNames (do_forceAgentIds opts) now (hb_agents h) in
    if do_dryRun opts then (h, Ok (DryRun (cascadeView (plan_of h0))))
    else
      match assertBoundAgentCascade (plan_of h0) (do_deleteBoundAgents opts) with
      | Throw e => (h, Throw e)
      | Ok _ =>
          let h := backup_meta h in
          let plan := plan_of h in
          match assertBoundAgentCascade plan (do_deleteBoundAgents opts) with
          | Throw e => (h, Throw e)
          | Ok _ =>
              if negb (mhas name (hb_confs h)) then (h, Throw PConfFailed)
              else
                let h := drop_cache (set_meta (delete_interface_meta (hb_meta h) name) (drop_conf name h)) in
                let '(agents, deleted) := deleteBoundAgents plan now (hb_agents h) in
                (sync_agents_of sha256 WG_HUB_HOST (set_agents agents h), Ok (Deleted deleted))
          end
      end.
End life.

(** * A cascade that passed the check completes *)

Section cascade.
Variable sha256 : string -> string.
Variable now : Z.

Notation blocker := (deleteBlocker sha256).

Lemma ifaces_nil id st : ifacesFor id st = [] <-> enabled_links_of id st = [].
Proof.
  unfold ifacesFor. split; [|by intros ->]. intros H. apply (f_equal length) in H. rewrite length_fmap in H.
  rewrite (Permutation_length (merge_sort_Permutation _ _)), length_fmap in H. by destruct (enabled_links_of id st).
Qed.

Lemma other_rules id i l : i <> id ->
  bfilter (fun e => re_agent_id e =? i) (bfilter (fun e => negb (re_agent_id e =? id)) l) = bfilter (fun e => re_agent_id e =? i) l.
Proof.
  intros Hd. rewrite bfilter_comm. apply bfilter_all. intros e [_ He%Z.eqb_eq]%elem_of_bfilter. apply negb_true_iff, Z.eqb_neq. congruence.
Qed.

(** The deletion of another agent does not raise an obstacle. *)
Lemma blocker_stable st id force st' b f : delete_agent sha256 st id force now = Ok st' -> ag_id b <> id ->
  blocker st b f now = None -> blocker st' b f now = None.
Proof.
  intros Hd Hid. apply delete_agent_inv in Hd. unfold deleteBlocker. destruct (assertForceDeleteAllowed b now) as [[]|e], f; try done.
  all: destruct (decide (ifacesFor (ag_id b) st = [])) as [Hi|]; [|by destruct (assertIngressTornDown _ _)].
  all: assert (enabled_links_of (ag_id b) st' = []) as Hl' by
    (apply ifaces_nil in Hi; subst st'; unfold enabled_links_of in *; cbn [st_links]; by rewrite bfilter_comm, Hi).
  all: pose proof (proj2 (ifaces_nil _ _) Hl') as Hi'; apply ifaces_nil in Hi as Hl.
  all: assert (appliedFor sha256 st' b now = appliedFor sha256 st b now) as ->;
    [unfold appliedFor, ingressPayloadFor, ingress_agent, ingressAliasesFor; rewrite Hi, Hi', Hl, Hl';
     unfold loadRules; subst st'; cbn [st_rules]; by rewrite other_rules
    |by rewrite (decide_True _ _ Hi')].
Qed.

(** A planned deletion that nothing stands against. *)
Definition may_delete (st : store) (p : bound_plan) : Prop :=
  exists a, live_agent (bp_id p) (st_agents st) = Some a /\ ag_id a = bp_id p /\ blocker st a (bp_force p) now = None.

(** What the deletions do to a row. *)
Record retired (ids : list Z) (g : agent_row -> agent_row) : Prop := Retired {
  rt_id : forall a, ag_id (g a) = ag_id a;
  rt_link : forall a, ag_wg_link_name (g a) = ag_wg_link_name a;
  rt_deleted : forall a, ag_is_deleted (g a) = ag_is_deleted a || bool_decide (ag_id a ∈ ids);
  rt_other : forall a, ag_id a ∉ ids -> g a = a }.

Lemma delete_one st p : may_delete st p -> exists st', delete_agent sha256 st (bp_id p) (bp_force p) now = Ok st' /\
  (exists g, retired [bp_id p] g /\ st_agents st' = g <$> st_agents st) /\
  forall q, bp_id q <> bp_id p -> may_delete st q -> may_delete st' q.
Proof.
  intros (a & Hl & Hid & Hb). assert (exists st', delete_agent sha256 st (bp_id p) (bp_force p) now = Ok st') as (st' & Hd).
  { unfold delete_agent. rewrite Hl. cbn [or_not_found mbind result_bind]. rewrite Hb. by eexists. }
  exists st'. split; [done|]. pose proof (delete_agent_inv _ _ _ _ _ _ Hd) as He. split.
  - exists (fun a => if ag_id a =? bp_id p then retire (bp_force p) a else a). split; [|by rewrite He].
    split; intros b; destruct (Z.eqb_spec (ag_id b) (bp_id p)) as [Hi|Hi]; try (by destruct (bp_force p), b).
    + rewrite bool_decide_eq_true_2 by (rewrite Hi; left). rewrite orb_true_r. by destruct (bp_force p), b.
    + rewrite bool_decide_eq_false_2 by (by intros ?%list_elem_of_singleton). by rewrite orb_false_r.
    + intros Hn. destruct Hn. rewrite Hi. left.
  - intros q Hq (b & Hbl & Hbid & Hbb). exists b. split; [|split; [done|]].
    + rewrite He. cbn [st_agents]. rewrite live_agent_retire. by rewrite (proj2 (Z.eqb_neq _ _)).
    + eapply blocker_stable; [exact Hd|congruence|done].
Qed.

Lemma retired_trans ids ids' g g' : retired ids g -> retired ids' g' -> retired (ids ++ ids') (g' ∘ g).
Proof.
  intros [H1 H2 H3 H4] [K1 K2 K3 K4]. split; intros a; cbn; try congruence.
  - rewrite K3, H3, H1. rewrite <- orb_assoc. f_equal. rewrite <- bool_decide_or. apply bool_decide_ext. by rewrite elem_of_app.
  - intros Hn. rewrite elem_of_app in Hn. rewrite H4 by naive_solver. apply K4. naive_solver.
Qed.

Lemma delete_all plan st deleted : NoDup (bp_id <$> plan) -> Forall (may_delete st) plan -> exists st' g,
  foldl (delete_bound_step sha256 now) (st, BoundDeleted deleted []) plan = (st', BoundDeleted (deleted ++ (bp_id <$> plan)) []) /\
  retired (bp_id <$> plan) g /\ st_agents st' = g <$> st_agents st.
Proof.
  revert st deleted. induction plan as [|p plan IH]; intros st deleted Hn Hall.
  - exists st, id. split_and!; [by rewrite app_nil_r| |by rewrite list_fmap_id].
    split; intros a; try done. rewrite bool_decide_eq_false_2 by (by intros ?%elem_of_nil). by rewrite orb_false_r.
  - rewrite fmap_cons in Hn. apply NoDup_cons in Hn as [Hp Hn]. apply Forall_cons in Hall as [Hd Hall].
    destruct (delete_one st p Hd) as (st1 & He & (g1 & Hg1 & Ha1) & Hst).
    destruct (IH st1 (deleted ++ [bp_id p]) Hn) as (st2 & g2 & Hf & Hg2 & Ha2).
    { rewrite Forall_forall in *. intros q Hq. apply Hst; [|by apply Hall]. intros Heq. apply Hp. rewrite <- Heq. by apply list_elem_of_fmap_2. }
    exists st2, (g2 ∘ g1). cbn [foldl]. unfold delete_bound_step at 2. rewrite He, Hf. split; [by rewrite <- app_assoc|].
    split; [by apply (retired_trans [bp_id p])|]. by rewrite Ha2, Ha1, list_fmap_compose.
Qed.

Lemma live_agent_of a db : unique_ids db -> a ∈ db -> ag_is_deleted a = false -> live_agent (ag_id a) db = Some a.
Proof.
  intros Hu Ha Hd. unfold live_agent, first_row. destruct (bfind _ db) as [b|] eqn:Hb.
  - apply bfind_Some in Hb as [Hb [He%Z.eqb_eq _]%andb_true_iff]. f_equal. by apply (unique_row db).
  - pose proof (bfind_None _ _ Hb a Ha) as Hn. cbn in Hn. rewrite Z.eqb_refl, Hd in Hn. done.
Qed.

Lemma elem_of_bound a names db : a ∈ boundAgentRows names db <->
  a ∈ db /\ ag_is_deleted a = false /\ or_empty (ag_wg_link_name a) <> "" /\ or_empty (ag_wg_link_name a) ∈ names.
Proof.
  unfold boundAgentRows, set_has. rewrite elem_of_bfilter, !andb_true_iff, negb_true_iff, !bool_decide_eq_true. tauto.
Qed.

Lemma assert_cascade_Ok plan flag : assertBoundAgentCascade plan flag = Ok tt -> Forall (fun p => bp_blocker p = None) plan.
Proof.
  unfold assertBoundAgentCascade. destruct plan as [|p0 plan]; [constructor|]. intros (? & _ & H)%bind_Ok.
  apply throw_if_Ok in H. revert H. generalize (p0 :: plan). clear. intros plan H. induction plan as [|p plan IH]; [constructor|].
  cbn [omap list_omap] in H. destruct (bp_blocker p) as [b|] eqn:Hb; cbn in H; [done|]. constructor; [done|by apply IH].
Qed.

(** The deletions of a plan that passed the check all succeed, and no live agent is bound to
    one of the names any more. *)
Lemma cascade_completes names forceIds flag st : unique_ids (st_agents st) ->
  let plan := planBoundAgentCascade sha256 names forceIds now st in
  assertBoundAgentCascade plan flag = Ok tt -> exists st' g,
  deleteBoundAgents sha256 plan now st = (st', BoundDeleted (bp_id <$> plan) []) /\
  retired (bp_id <$> plan) g /\ st_agents st' = g <$> st_agents st /\ boundAgentRows names (st_agents st') = [].
Proof.
  cbv zeta. intros Hu H. set (plan := planBoundAgentCascade sha256 names forceIds now st) in *.
  assert (bp_id <$> plan = ag_id <$> boundAgentRows names (st_agents st)) as Hids.
  { subst plan. unfold planBoundAgentCascade. by rewrite <- list_fmap_compose. }
  destruct (delete_all plan st []) as (st' & g & Hf & Hg & Ha).
  - rewrite Hids. eapply sublist_NoDup; [exact Hu|]. apply fmap_sublist, bfilter_sublist.
  - apply assert_cascade_Ok in H. rewrite Forall_forall in *. intros p Hp. specialize (H p Hp). subst plan.
    apply list_elem_of_fmap in Hp as (a & -> & Hin). apply elem_of_bound in Hin as (Hin & Hd & _). exists a. cbn [bp_id bp_force].
    split; [by apply live_agent_of|]. split; [done|exact H].
  - exists st', g. split_and!; try done. destruct (boundAgentRows names (st_agents st')) as [|b l] eqn:Hb; [done|].
    assert (b ∈ boundAgentRows names (st_agents st')) as Hin by (rewrite Hb; left).
    apply elem_of_bound in Hin as (Hin & Hd & Hn). rewrite Ha in Hin. apply list_elem_of_fmap in Hin as (a & -> & Hin).
    rewrite (rt_link _ _ Hg) in Hn. rewrite (rt_deleted _ _ Hg) in Hd. apply orb_false_iff in Hd as [Hd Hni].
    apply bool_decide_eq_false in Hni. destruct Hni. rewrite Hids. apply list_elem_of_fmap_2. by apply elem_of_bound.
Qed.

Lemma bound_frame names (db db' : agent_db) (g : agent_row -> agent_row) : db' = g <$> db -> (forall a, ag_is_deleted (g a) = ag_is_deleted a) ->
  (forall a, ag_wg_link_name (g a) = ag_wg_link_name a) -> boundAgentRows names db = [] -> boundAgentRows names db' = [].
Proof.
  intros -> Hd Hl H. destruct (boundAgentRows names (g <$> db)) as [|b l] eqn:Hb; [done|].
  assert (b ∈ boundAgentRows names (g <$> db)) as Hin by (rewrite Hb; left).
  apply elem_of_bound in Hin as (Hin & Hdb & Hn). apply list_elem_of_fmap in Hin as (a & -> & Hin). rewrite Hd in Hdb. rewrite Hl in Hn.
  assert (a ∈ boundAgentRows names db) as Ha by by apply elem_of_bound. rewrite H in Ha. by apply elem_of_nil in Ha.
Qed.

(** The sync of the agents touches no binding. *)
Lemma sync_agents_bound WG_HUB_HOST names h : unique_ids (st_agents (hb_agents h)) -> boundAgentRows names (st_agents (hb_agents h)) = [] ->
  boundAgentRows names (st_agents (hb_agents (sync_agents_of sha256 WG_HUB_HOST h))) = [].
Proof.
  intros Hu. destruct h as [confs m backups agents cache commands]. cbn [hb_agents].
  eapply bound_frame with (g := synced_row sha256 WG_HUB_HOST (meshIndex (links_of_store m))).
  - cbn. unfold syncAgentConfigs. destruct agents. cbn in *. by rewrite syncAgents_eq.
  - intros a. unfold synced_row. destruct (_ && _); [|done]. by destruct (patch_of _ _ _ _), a.
  - intros a. unfold synced_row. destruct (_ && _); [|done]. by destruct (patch_of _ _ _ _), a.
Qed.

Lemma retired_unique ids g db : retired ids g -> unique_ids db -> unique_ids (g <$> db).
Proof.
  intros Hg Hu. unfold unique_ids in *. rewrite <- list_fmap_compose. erewrite list_fmap_ext; [exact Hu|]. intros _ a _. apply (rt_id _ _ Hg).
Qed.
End cascade.

(** * A deletion undoes a creation *)

Lemma regular_trims bs ls ls' : trim <$> ls = trim <$> ls' -> blocks_regular [] bs ls = blocks_regular [] bs ls'.
Proof.
  revert bs ls'. induction ls as [|l ls IH]; intros bs [|l' ls']; rewrite ?fmap_nil, ?fmap_cons; try done.
  intros [= Hl Hls]. cbn [blocks_regular]. rewrite Hl. by rewrite !(IH _ _ Hls).
Qed.

Lemma regular_app l k : (forall bs, blocks_regular [] bs k = true) -> forall bs, blocks_regular [] bs l = true ->
  blocks_regular [] bs (l ++ k) = true.
Proof.
  intros Hk. induction l as [|raw l IH]; intros bs; [by intros _|]. cbn [app blocks_regular]. cbv zeta.
  destruct (is_header (trim raw)).
  - rewrite !andb_true_iff. intros [? ?]. split; [done|by apply IH].
  - destruct (negb (bs_inPeer bs)); [apply IH|]. rewrite !andb_true_iff. intros [? H]. split; [done|].
    destruct (starts_with "PublicKey" _); [|destruct (starts_with "AllowedIPs" _)]; rewrite ?andb_true_iff in *; intuition.
Qed.

(** The block of a new peer is regular wherever it starts. *)
Lemma block_regular name key ips bs : wg_key key ->
  blocks_regular [] bs ["# " +:+ name; "[Peer]"; "PublicKey = " +:+ key; "AllowedIPs = " +:+ join ", " ips; ""] = true.
Proof.
  intros (Hne & Hnl & Ht).
  assert (forall bs ls, blocks_regular [] bs (("# " +:+ name) :: ls) = blocks_regular [] bs ls) as ->.
  { clear. intros bs ls. cbn [blocks_regular]. cbv zeta. change ("# " +:+ name) with (String "#" (" " +:+ name)). rewrite trim_head by done.
    generalize (trim_end (" " +:+ name)). intros t. change (is_header (String "#" t)) with (starts_with "[" (String "#" t)).
    assert (starts_with "[" (String "#" t) = false) as -> by (by destruct t). destruct (bs_inPeer bs); [cbn [negb]|done].
    assert (line_regular (String "#" t) = true) as -> by (by destruct t). by destruct t. }
  cbn [blocks_regular]. change (trim "[Peer]") with "[Peer]". cbv zeta. change (is_header "[Peer]") with true. cbv iota.
  unfold block_done at 1, mhas. cbn [mget]. rewrite andb_false_r. cbn [negb orb andb]. rewrite bool_decide_eq_true_2 by done.
  set (k := trim ("PublicKey = " +:+ key)). set (a := trim ("AllowedIPs = " +:+ join ", " ips)).
  pose proof (setting_no_header "PublicKey" key eq_refl eq_refl) as Hk1. pose proof (setting_line_key "PublicKey" key eq_refl eq_refl eq_refl) as Hk2.
  pose proof (starts_with_setting "PublicKey" key eq_refl) as Hk3.
  assert (trim (after_eq k) = key) as Hk4.
  { subst k. change ("PublicKey = " +:+ key) with ("PublicKey" +:+ " = " +:+ key). rewrite setting_value by done.
    rewrite trim_of_trim_end. change (" " +:+ key) with (String " " key). by rewrite trim_space_l. }
  pose proof (setting_no_header "AllowedIPs" (join ", " ips) eq_refl eq_refl) as Ha1.
  pose proof (setting_line_key "AllowedIPs" (join ", " ips) eq_refl eq_refl eq_refl) as Ha2.
  pose proof (starts_with_setting "AllowedIPs" (join ", " ips) eq_refl) as Ha3.
  change (trim ("PublicKey" +:+ " = " +:+ key)) with k in *. change (trim ("AllowedIPs" +:+ " = " +:+ join ", " ips)) with a in *.
  clearbody k a. apply starts_with_split in Hk3 as [t1 ->]. apply starts_with_split in Ha3 as [t2 ->].
  rewrite Hk1, Ha1. cbn [bs_inPeer negb]. unfold line_regular. rewrite Hk2, Ha2. rewrite !starts_with_app.
  change (starts_with "AllowedIPs" ("PublicKey" +:+ t1)) with false. change (starts_with "PublicKey" ("AllowedIPs" +:+ t2)) with false.
  rewrite Hk4. cbn [bs_key bs_allowed negb]. unfold nonempty. rewrite (bool_decide_eq_true_2 (key <> "")) by done. done.
Qed.

Lemma appended_regular text name key ips : no_char nl name -> wg_key key -> Forall csv_token ips ->
  conf_regular [] (split_lines text) = true -> conf_regular [] (split_lines (text +:+ peer_block name key ips)) = true.
Proof.
  intros Hname Hkey Hips Hreg. unfold conf_regular.
  rewrite (regular_trims _ _ (split_lines text ++ ["# " +:+ name; "[Peer]"; "PublicKey = " +:+ key; "AllowedIPs = " +:+ join ", " ips; ""])).
  - apply regular_app; [|done]. intros bs. by apply block_regular.
  - rewrite fmap_app. by apply block_trims.
Qed.

(** Deleting the peer just created gives back the peers there were. *)
Theorem delete_undoes_create text name key ips : no_char nl name -> wg_key key -> Forall csv_token ips ->
  conf_regular [] (split_lines text) = true -> mget key (parsePeersFromConf (split_lines text)) = None ->
  parsePeersFromConf (split_lines (removePeerFromConf (text +:+ peer_block name key ips) key)) = parsePeersFromConf (split_lines text).
Proof.
  intros Hname Hkey Hips Hreg Hfresh. pose proof Hkey as (Hne & _).
  rewrite removePeer_removes_one by (done || by apply appended_regular). rewrite block_parse by done. rewrite mdel_mset_eq.
  unfold mdel. apply filter_all, Forall_forall. intros [k v] Hin Hk. cbn in Hk. subst k. apply mget_None in Hfresh. apply Hfresh.
  apply list_elem_of_fmap. by exists (key, v).
Qed.

(** * Removing a peer *)

Section handlers.
Variable sha256 : string -> string.
Variable WG_HUB_HOST : string.
Variable live_peers : string -> list (string * list string).
Variable nics : list nic.

Notation delete := (deletePeer sha256 WG_HUB_HOST live_peers nics).
Notation delete_iface := (deleteInterface sha256 WG_HUB_HOST).
Notation update := (updatePeer sha256 WG_HUB_HOST live_peers nics).

Lemma backup_frame h : hb_confs (backup_meta h) = hb_confs h /\ hb_meta (backup_meta h) = hb_meta h /\ hb_agents (backup_meta h) = hb_agents h.
Proof. by destruct h. Qed.

(** A deletion of a peer that is refused or fails changes nothing; a backup of the metadata
    may have been written. A dry run changes nothing at all. *)
Theorem deletePeer_failure h0 h st linkId opts write_ok set_ok now h' r : delete h0 h st linkId opts write_ok set_ok now = (h', r) ->
  match r with
  | Throw _ => h' = h \/ h' = backup_meta h
  | Ok (DryRun _) => h' = h
  | Ok (Deleted _) => do_dryRun opts = false
  end.
Proof.
  unfold deletePeer. destruct (resolveLink st linkId) as [[link [iface key]]|e]; [|intros [= <- <-]; by left].
  cbv zeta. destruct (do_dryRun opts); [by intros [= <- <-]|].
  destruct (assertBoundAgentCascade _ _) as [u|e]; [|intros [= <- <-]; by left].
  destruct (_ ≫= _) as [h1|e]; [|intros [= <- <-]; by right].
  by destruct (deleteBoundAgents _ _ _ _) as [agents deleted]; intros [= <- <-].
Qed.

Lemma remove_frame iface key write_ok h h1 : remove_from_conf iface key write_ok h = Ok h1 ->
  h1 = {| hb_confs := match mget iface (hb_confs h) with Some text => mset iface (removePeerFromConf text key) (hb_confs h) | None => hb_confs h end;
          hb_meta := hb_meta h; hb_backups := hb_backups h; hb_agents := hb_agents h; hb_cache := hb_cache h; hb_commands := hb_commands h |}.
Proof.
  unfold remove_from_conf. destruct (mget iface (hb_confs h)) as [text|] eqn:Ht.
  - intros (? & _ & [= <-])%bind_Ok. destruct h; cbn in *. done.
  - intros [= <-]. by destruct h.
Qed.

(** C29. A deleted peer leaves no agent bound to its name, whatever was bound between the check
    and the lock; the file loses the peer before the hub sync, the store loses the link, no
    cached configuration survives. *)
Theorem deletePeer_leaves_no_binding h0 h st linkId opts write_ok set_ok now h' deleted : unique_ids (st_agents (hb_agents h)) ->
  delete h0 h st linkId opts write_ok set_ok now = (h', Ok (Deleted deleted)) ->
  exists link iface key, resolveLink st linkId = Ok (link, (iface, key)) /\
    boundAgentRows (peer_bound_names st link) (st_agents (hb_agents h')) = [] /\
    bd_deleted deleted = ag_id <$> boundAgentRows (peer_bound_names st link) (st_agents (hb_agents h)) /\ bd_errors deleted = [] /\
    (do_deleteBoundAgents opts = false -> bd_deleted deleted = []) /\
    hb_meta h' = delete_link_meta (hb_meta h) linkId /\ hb_cache h' = [] /\ hb_backups h' = hb_backups h ++ [hb_meta h] /\
    hb_confs h' = match mget iface (hb_confs h) with
                  | Some text => synced_confs live_peers nics iface (mset iface (removePeerFromConf text key) (hb_confs h)) (hb_meta h')
                  | None => hb_confs h
                  end.
Proof.
  intros Hu. unfold deletePeer. destruct (resolveLink st linkId) as [[link [iface key]]|e]; [|by intros [=]].
  cbv zeta. destruct (do_dryRun opts); [by intros [=]|].
  destruct (assertBoundAgentCascade _ _) as [u|e]; [|by intros [=]].
  destruct (_ ≫= _) as [h1|e] eqn:Hc; [|by intros [=]]. apply bind_Ok in Hc as ([] & Hc & Hr).
  rewrite (proj2 (proj2 (backup_frame h))) in *. set (names := peer_bound_names st link) in *.
  set (plan := planBoundAgentCascade sha256 names (do_forceAgentIds opts) now (hb_agents h)) in *.
  destruct (cascade_completes sha256 now names (do_forceAgentIds opts) _ (hb_agents h) Hu Hc) as (st' & g & Hd & Hg & Ha & Hb).
  fold plan in Hd. apply remove_frame in Hr. destruct h as [confs m backups agents cache commands]. cbn [hb_agents hb_confs hb_meta] in *.
  set (conf1 := match mget iface confs with Some text => mset iface (removePeerFromConf text key) confs | None => confs end).
  assert (exists cmds, (if set_ok then run_command ["set"; iface; "peer"; key; "remove"] h1 else h1) =
    Hub conf1 m (backups ++ [m]) agents cache cmds) as (cmds & ->) by (subst h1 conf1; destruct set_ok; cbn; by eexists).
  cbn [hb_agents drop_cache set_meta hb_meta]. change (deleteBoundAgents sha256 plan now _) with (deleteBoundAgents sha256 plan now agents).
  rewrite Hd. intros [= <- <-]. exists link, iface, key. cbn [bd_deleted bd_errors]. split; [done|]. split.
  { apply sync_agents_bound; change (hb_agents (sync_conf _ _ _ _)) with st'; [rewrite Ha; by eapply retired_unique|done]. }
  split; [subst plan; unfold planBoundAgentCascade; by rewrite <- list_fmap_compose|]. split; [done|]. split.
  { intros Hf. rewrite Hf in Hc. unfold assertBoundAgentCascade in Hc. by destruct plan. }
  split; [done|]. split; [done|]. split; [done|]. cbn. subst conf1. destruct (mget iface confs) as [text|] eqn:Ht; [done|].
  unfold synced_confs. by rewrite Ht.
Qed.

(** A deleted interface leaves no file, no entry and no agent bound to one of its links;
    a refusal changes nothing but the backup. *)
Theorem deleteInterface_leaves_no_binding h0 h st rawName opts now h' r : unique_ids (st_agents (hb_agents h)) ->
  delete_iface h0 h st rawName opts now = (h', r) ->
  let name := trim rawName in
  let names := interfaceBoundNames st (hb_meta h0) name in
  match r with
  | Throw _ => h' = h \/ h' = backup_meta h
  | Ok (DryRun _) => h' = h
  | Ok (Deleted d) =>
      name <> "wg0" /\ re_test VALID_IFACE_NAME name = true /\
      boundAgentRows names (st_agents (hb_agents h')) = [] /\
      bd_deleted d = ag_id <$> boundAgentRows names (st_agents (hb_agents h)) /\ bd_errors d = [] /\
      (do_deleteBoundAgents opts = false -> bd_deleted d = []) /\
      hb_confs h' = mdel name (hb_confs h) /\ hb_meta h' = delete_interface_meta (hb_meta h) name /\ hb_cache h' = [] /\
      hb_backups h' = hb_backups h ++ [hb_meta h]
  end.
Proof.
  intros Hu. cbv zeta. unfold deleteInterface. set (name := trim rawName). destruct (decide (name = "")); [intros [= <- <-]; by left|].
  destruct (re_test VALID_IFACE_NAME name) eqn:Hv; cbn [negb]; [|intros [= <- <-]; by left].
  destruct (decide (name = "wg0")); [intros [= <- <-]; by left|]. destruct (mhas name (hb_confs h0)); cbn [negb]; [|intros [= <- <-]; by left].
  destruct (do_dryRun opts); [by intros [= <- <-]|].
  destruct (assertBoundAgentCascade _ _) as [u|e]; [|intros [= <- <-]; by left].
  set (names := interfaceBoundNames st (hb_meta h0) name). rewrite !(proj2 (proj2 (backup_frame h))).
  set (plan := planBoundAgentCascade sha256 names (do_forceAgentIds opts) now (hb_agents h)).
  destruct (assertBoundAgentCascade plan (do_deleteBoundAgents opts)) as [[]|e] eqn:Hc; [|intros [= <- <-]; by right].
  destruct (mhas name (hb_confs (backup_meta h))); cbn [negb]; [|intros [= <- <-]; by right].
  destruct (cascade_completes sha256 now names (do_forceAgentIds opts) _ (hb_agents h) Hu Hc) as (st' & g & Hd & Hg & Ha & Hb).
  fold plan in Hd. destruct h as [confs m backups agents cache commands]. change (deleteBoundAgents sha256 plan now _) with (deleteBoundAgents sha256 plan now agents).
  cbn [hb_agents] in *. rewrite Hd. intros [= <- <-]. cbn [bd_deleted bd_errors]. split_and!; try done.
  - apply sync_agents_bound; change (hb_agents (set_agents _ _)) with st'; [rewrite Ha; by eapply retired_unique|done].
  - subst plan. unfold planBoundAgentCascade. by rewrite <- list_fmap_compose.
  - intros Hf. rewrite Hf in Hc. unfold assertBoundAgentCascade in Hc. by destruct plan.
Qed.
End handlers.

(** * Updating a peer *)

Lemma mget_msets {V} (p m : list (string * V)) f : NoDup p.*1 ->
  mget f (foldl (fun m kv => mset kv.1 kv.2 m) m p) = match mget f p with Some v => Some v | None => mget f m end.
Proof.
  revert m. induction p as [|[k v] p IH]; intros m Hn; [done|]. rewrite fmap_cons in Hn. apply NoDup_cons in Hn as [Hk Hn].
  cbn [foldl fst snd mget]. rewrite IH by done. rewrite mget_mset. destruct (decide (k = f)) as [<-|]; [|done].
  by rewrite (proj2 (mget_None _ _) Hk).
Qed.

Lemma msets_NoDup {V} (p m : list (string * V)) : NoDup m.*1 -> NoDup (foldl (fun m kv => mset kv.1 kv.2 m) m p).*1.
Proof. revert m. induction p as [|kv p IH]; intros m Hn; [done|]. apply IH. by apply NoDup_mset. Qed.

(** A field of a merged entry: the patch's, else the old one. *)
Lemma oget_merged cur p f : NoDup cur.*1 -> NoDup p.*1 ->
  oget f (mergeMetadataEntry cur p) = match mget f p with Some v => v | None => oget f cur end.
Proof.
  intros Hc Hp. unfold mergeMetadataEntry. set (all := foldl _ cur p).
  assert (mget f all = match mget f p with Some v => Some v | None => mget f cur end) as Hf by by apply mget_msets.
  assert (NoDup all.*1) as Hn by by apply msets_NoDup. unfold oget.
  destruct (mget f (bfilter (fun kv => negb (is_undef kv.2)) all)) as [w|] eqn:Hw.
  - apply mget_elem_of, elem_of_bfilter in Hw as [Hw _]. apply elem_of_mget in Hw; [|done]. rewrite Hf in Hw.
    destruct (mget f p); [by injection Hw as ->|by rewrite Hw].
  - apply mget_None in Hw. destruct (mget f all) as [v|] eqn:Hv.
    + assert (v = VUndef) as ->; [|by destruct (mget f p); [injection Hf as <-|rewrite <- Hf]].
      destruct (is_undef v) eqn:Hund; [by destruct v|]. destruct Hw. apply list_elem_of_fmap. exists (f, v). split; [done|].
      apply elem_of_bfilter. cbn [snd]. rewrite Hund. split; [by apply mget_elem_of|done].
    + destruct (mget f p); [done|]. by rewrite <- Hf.
Qed.

(** The fields of the patch of an update. *)
Record update_fields (changes : jsval) (p : obj) : Prop := UpdateFields {
  uf_keys : NoDup p.*1;
  uf_type : mget "type" p = if is_given changes "type" then Some (str_val (norm_type (vget changes "type"))) else None;
  uf_name : mget "name" p = if is_given changes "name" then Some (clean_name (vget changes "name")) else None;
  uf_nets : if is_given changes "importedNetworks"
            then exists l, sanitizeNetworkArray (vget changes "importedNetworks") = Ok l /\ mget "importedNetworks" p = Some (strs l)
            else mget "importedNetworks" p = None }.

Lemma norm_type_eq v : normalizeLinkType (match v with VStr s => s | _ => "" end) = norm_type v.
Proof. by destruct v. Qed.

Lemma update_patch_fields changes p : update_patch changes = Ok p -> update_fields changes p.
Proof.
  unfold update_patch, pure_field, networks, dns_list. intros H.
  fold (is_given changes "importedNetworks") (is_given changes "name") (is_given changes "type") (is_given changes "dns")
    (is_given changes "fullTunnel") (is_given changes "platform") in H.
  repeat match type of H with
  | context [is_given changes ?f] => let Hf := fresh "Hf" in destruct (is_given changes f) eqn:Hf
  end; cbn [mbind result_bind app] in H;
  repeat match goal with H : (_ ≫= _) = Ok _ |- _ => apply bind_Ok in H as (? & ? & ?); cbn [mbind result_bind app] in * end;
  repeat match goal with H : Ok _ = Ok _ |- _ => injection H as <- end.
  all: rewrite ?norm_type_eq; split; rewrite ?Hf, ?Hf0, ?Hf1, ?Hf2, ?Hf3, ?Hf4; try reflexivity.
  all: try (apply (bool_decide_eq_true_1 _); vm_compute; reflexivity).
  all: by eexists.
Qed.
Lemma text_of_str_val s : match str_val s with VStr t => t | _ => "" end = s.
Proof. unfold str_val. by destruct (decide (s = "")) as [-> |]. Qed.

Lemma cascaded_frame (b : bool) agents h : hb_meta (if b then set_agents agents h else h) = hb_meta h /\
  hb_cache (if b then set_agents agents h else h) = hb_cache h.
Proof. by destruct b, h. Qed.

Section update.
Variable sha256 : string -> string.
Variable WG_HUB_HOST : string.
Variable live_peers : string -> list (string * list string).
Variable nics : list nic.

Lemma synced_frame iface h : hb_meta (sync_agents_of sha256 WG_HUB_HOST (sync_conf live_peers nics iface h)) = hb_meta h /\
  hb_cache (sync_agents_of sha256 WG_HUB_HOST (sync_conf live_peers nics iface h)) = hb_cache h.
Proof. by destruct h. Qed.

Lemma resolveLink_id st linkId link p : resolveLink st linkId = Ok (link, p) -> lk_id link = linkId /\ link ∈ st_links_of st.
Proof.
  unfold resolveLink. destruct (split_link_id linkId) as [[iface key]|]; [|done]. intros (? & _ & H)%bind_Ok.
  apply bind_Ok in H as (? & _ & H). destruct (bfind _ _) as [l|] eqn:Hl; [|done]. injection H as -> _.
  apply bfind_Some in Hl as [Hin Hid]. by apply bool_decide_eq_true in Hid.
Qed.

(** What a successful update leaves: the networks it gives to a link that is no client
    overlap none of another link, a new name is no other link's, the other links keep their
    entries and no cached configuration survives. A refused update changes nothing but the
    backup. *)
Theorem updatePeer_claims_only_free h st st' linkId changes stamp outcomes h' r :
  NoDup (default [] (mget linkId (ms_links (hb_meta h)))).*1 ->
  updatePeer sha256 WG_HUB_HOST live_peers nics h st st' linkId changes stamp outcomes = (h', r) ->
  let old := default [] (mget linkId (ms_links (hb_meta h))) in
  let entry := default [] (mget linkId (ms_links (hb_meta h'))) in
  match r with
  | Throw _ => h' = h \/ h' = backup_meta h
  | Ok _ =>
      (is_given changes "importedNetworks" = true -> normalizeLinkType (type_of entry) <> "client" ->
         forall net l x, net ∈ list_of "importedNetworks" entry -> l ∈ st_links_of st -> lk_id l <> linkId -> x ∈ lk_allowedIps l ->
           isHostRoute net = false -> isHostRoute x = false -> networksOverlap net x = false) /\
      (name_of entry <> "" -> name_of entry <> name_of old ->
         forall id o, (id, o) ∈ ms_links (hb_meta h) -> id <> linkId -> name_of o <> name_of entry) /\
      (forall id, id <> linkId -> mget id (ms_links (hb_meta h')) = mget id (ms_links (hb_meta h))) /\
      ms_interfaces (hb_meta h') = ms_interfaces (hb_meta h) /\ hb_cache h' = []
  end.
Proof.
  intros Hnd. cbv zeta. unfold updatePeer. destruct (resolveLink st linkId) as [[link [iface key]]|] eqn:Hr; [|intros [= <- <-]; by left].
  apply resolveLink_id in Hr as [Hid _]. destruct (check_update (hb_meta h) st link changes) as [u|] eqn:Hcu; [|intros [= <- <-]; by left].
  rewrite (proj1 (proj2 (backup_frame h))). destruct (_ ≫= _) as [m|] eqn:Hm; [|intros [= <- <-]; by right].
  apply bind_Ok in Hm as (p & Hp & Hm). unfold update_link_meta in Hm. apply bind_Ok in Hm as ([] & Hu & [= <-]).
  set (old := default [] (mget linkId (ms_links (hb_meta h)))) in *. set (entry := mergeMetadataEntry old p) in *.
  cbv zeta. intros [= <- <-]. rewrite !(proj1 (synced_frame _ _)), !(proj2 (synced_frame _ _)).
  rewrite !(proj1 (cascaded_frame _ _ _)), !(proj2 (cascaded_frame _ _ _)).
  set (m' := MetaStore _ _). change (hb_meta (drop_cache (set_meta m' (backup_meta h)))) with m'.
  change (hb_cache (drop_cache (set_meta m' (backup_meta h)))) with (@nil (string * (peer_config * Z))).
  subst m'. cbn [ms_links ms_interfaces]. rewrite mget_mset_eq. change (default [] (Some entry)) with entry.
  apply update_patch_fields in Hp as [Hk Ht Hn Hnets].
  split; [|split; [|split; [by intros id Hne; apply mget_mset_ne|done]]].
  - intros Hg Hty net l x Hnet Hl Hlid Hx Hn1 Hn2. rewrite Hg in Hnets. destruct Hnets as (nets & Hsn & Hnp).
    unfold list_of in Hnet. unfold entry in Hnet. rewrite oget_merged, Hnp, strings_of_strs in Hnet by done.
    unfold check_update in Hcu. apply bind_Ok in Hcu as (? & _ & Hcu). apply bind_Ok in Hcu as (? & _ & Hcu).
    unfold check_claims in Hcu. rewrite Hg, Hid in Hcu. cbn [orb] in Hcu. fold old in Hcu. cbv zeta in Hcu.
    rewrite decide_False in Hcu.
    + rewrite Hsn in Hcu. cbn [lift_peer mbind result_bind] in Hcu. apply throw_if_Ok in Hcu.
      apply not_true_iff_false. intros Hov.
      eapply (no_conflicts nets (bfilter (fun l => negb (bool_decide (lk_id l = linkId))) (st_links_of st)) l); try done.
      * by destruct (checkAllowedIPsConflicts _ _).
      * apply elem_of_bfilter. split; [done|]. by rewrite bool_decide_eq_false_2.
    + intros He. apply Hty. rewrite <- He. unfold type_of, entry. rewrite oget_merged, Ht by done.
      destruct (is_given changes "type"); [|done]. rewrite text_of_str_val. unfold norm_type. destruct (vget changes "type"); try done. apply norm_type_again.
  - intros Hne Hdiff id o Hin Hio. unfold assertUniqueLinkName in Hu.
    assert (name_of p = name_of entry) as Hname.
    { unfold name_of, entry in *. rewrite oget_merged in * by done. unfold oget at 1. destruct (mget "name" p); [done|]. done. }
    rewrite Hname in Hu. rewrite bool_decide_eq_false_2 in Hu by (intros [|]; done). apply throw_if_Ok in Hu.
    rewrite existsb_false in Hu. specialize (Hu _ Hin). cbn [fst snd] in Hu. rewrite bool_decide_eq_false_2 in Hu by done.
    cbn [negb andb] in Hu. by apply bool_decide_eq_false in Hu.
Qed.
End update.

(** * A new interface *)

Lemma parse_setting p k v y ys : setting_key k = true -> trim k = k -> starts_with "#" k = false -> starts_with "[" k = false ->
  trim_end (" " +:+ v) = " " +:+ v -> split_char "=" (" " +:+ v) = y :: ys ->
  parse_config_line (SecInterface, p) (k +:+ " = " +:+ v) =
  (SecInterface, ParsedConfig (if decide (k = "Address") then csv_list (trim y) else pc_addresses p)
     (if decide (k = "ListenPort") then parse_int (trim y) else pc_listenPort p)
     (if decide (k = "PrivateKey") then nonempty (trim y) else pc_privateKeyPresent p) (pc_peers p)).
Proof.
  intros Hk Ht Hh Hb Hv Hs. pose proof Hk as Hk'. unfold setting_key in Hk'. apply andb_true_iff in Hk' as [Hc He].
  assert (trim (k +:+ " = " +:+ v) = k +:+ " " +:+ String "=" (" " +:+ v)) as Hl by (rewrite trim_setting, Hv by done; reflexivity).
  unfold parse_config_line. rewrite Hl. destruct k as [|c k]; [done|]. rewrite sapp_String.
  rewrite !decide_False by (intros Heq; try done; injection Heq as -> _; by destruct k).
  assert (starts_with "#" (String c (k +:+ " " +:+ String "=" (" " +:+ v))) = false) as ->.
  { unfold starts_with in *. cbn [String.prefix] in *. destruct (ascii_dec "#" c); [by destruct k|done]. }
  rewrite <- sapp_String, <- sapp_assoc. rewrite split_char_app.
  - rewrite Hs, !fmap_cons. assert (trim (String c k +:+ " ") = String c k) as ->; [|done].
    change (String c k +:+ " ") with (String c k +:+ String " " ""). by rewrite trim_space_r.
  - unfold no_char. rewrite sall_app, He. done.
Qed.

(** A line of the interface section that sets none of the three fields. *)
Lemma parse_other a b c d k v : setting_key k = true -> trim k = k -> starts_with "#" k = false -> starts_with "[" k = false ->
  k ∉ ["Address"; "ListenPort"; "PrivateKey"] -> trim_end (" " +:+ v) = " " +:+ v ->
  parse_config_line (SecInterface, ParsedConfig a b c d) (k +:+ " = " +:+ v) = (SecInterface, ParsedConfig a b c d).
Proof.
  intros Hk Ht Hh Hb Hn Hv. destruct (split_char_cons "=" (" " +:+ v)) as (y & ys & Hy). rewrite !not_elem_of_cons in Hn.
  erewrite parse_setting by done. cbn [pc_addresses pc_listenPort pc_privateKeyPresent pc_peers]. by rewrite !decide_False by tauto.
Qed.

Lemma trim_end_field v : field_text v -> trim_end (" " +:+ v) = " " +:+ v.
Proof.
  intros [Hne Hv]. change (" " +:+ v) with (String " " v).
  assert (forall v, sall (fun c => negb (is_space c)) v = true -> trim_end v = v) as Ht.
  { clear. induction v as [|c v IH]; [done|]. cbn [sall trim_end]. rewrite andb_true_iff, negb_true_iff. intros [Hc Hv].
    by rewrite Hc, IH. }
  cbn [trim_end]. rewrite Ht by done. rewrite bool_decide_eq_false_2 by done. by rewrite andb_false_r.
Qed.

Lemma trim_field v : field_text v -> trim (" " +:+ v) = v.
Proof. intros [_ Hv]. change (" " +:+ v) with (String " " v). rewrite trim_space_l by done. by apply trim_id. Qed.

(** A key as [wg genkey] prints it: base64 with one padding character at the end. *)
Definition base64_key (k : string) : Prop := exists b, k = b +:+ "=" /\ b <> "" /\ sall (fun c => is_alnum c || one_of ["+"; "/"]%char c) b = true.

Lemma base64_field k : base64_key k -> field_text k /\ exists y ys, split_char "=" (" " +:+ k) = y :: ys /\ nonempty (trim y) = true.
Proof.
  intros (b & -> & Hne & Hb).
  assert (sall (fun c => negb (is_space c)) b = true) as Hs by (eapply sall_impl_dec; [|exact Hb]; vm_compute; reflexivity).
  assert (no_char "=" b) as He by (eapply sall_impl_dec; [|exact Hb]; vm_compute; reflexivity).
  split; [split; [by destruct b|by rewrite sall_app, Hs]|]. exists (" " +:+ b), [""]. split.
  - rewrite <- sapp_assoc. rewrite (split_char_app "=" (" " +:+ b) "") by (by apply no_char_app). done.
  - rewrite trim_field by done. unfold nonempty. by rewrite bool_decide_eq_true_2.
Qed.

Lemma trim_end_accept a : trim_end (a +:+ " -j ACCEPT") = a +:+ " -j ACCEPT".
Proof.
  change (" -j ACCEPT") with (" -j ACCEP" +:+ String "T" ""). by rewrite <- !sapp_assoc, trim_end_keep.
Qed.

Lemma parse_address a b c d v : field_text v -> no_char "=" v -> no_char "," v ->
  parse_config_line (SecInterface, ParsedConfig a b c d) ("Address = " +:+ v) = (SecInterface, ParsedConfig [v] b c d).
Proof.
  intros Hv He Hc. change ("Address = " +:+ v) with ("Address" +:+ " = " +:+ v).
  rewrite (parse_setting _ "Address" v (" " +:+ v) []) by (done || by apply trim_end_field || by apply split_char_no, no_char_app).
  cbn [pc_addresses pc_listenPort pc_privateKeyPresent pc_peers]. rewrite decide_True, !decide_False by done.
  by rewrite trim_field, csv_list_one by (done || by apply field_csv).
Qed.

Lemma parse_port a b c d n : 0 <= n ->
  parse_config_line (SecInterface, ParsedConfig a b c d) ("ListenPort = " +:+ showZ n) = (SecInterface, ParsedConfig a (Some n) c d).
Proof.
  intros Hn. pose proof (showZ_field n Hn) as Hv. change ("ListenPort = " +:+ showZ n) with ("ListenPort" +:+ " = " +:+ showZ n).
  rewrite (parse_setting _ "ListenPort" (showZ n) (" " +:+ showZ n) []) by (done || by apply trim_end_field ||
    (apply split_char_no, no_char_app; [done|]; apply digits_no_char; [done|by apply showZ_digits])).
  cbn [pc_addresses pc_listenPort pc_privateKeyPresent pc_peers]. rewrite !(decide_False (P := "ListenPort" = _)) by done. rewrite decide_True by done.
  by rewrite trim_field, parse_int_showZ.
Qed.

Lemma parse_private a b c d k : base64_key k ->
  parse_config_line (SecInterface, ParsedConfig a b c d) ("PrivateKey = " +:+ k) = (SecInterface, ParsedConfig a b true d).
Proof.
  intros (Hk & y & ys & Hy & Hyn)%base64_field. change ("PrivateKey = " +:+ k) with ("PrivateKey" +:+ " = " +:+ k).
  rewrite (parse_setting _ "PrivateKey" k y ys) by (done || by apply trim_end_field).
  cbn [pc_addresses pc_listenPort pc_privateKeyPresent pc_peers]. rewrite Hyn. rewrite !(decide_False (P := "PrivateKey" = _)) by done. by rewrite decide_True.
Qed.

Lemma address_field a : isValidInterfaceAddress a = true -> field_text (trim a) /\ no_char "=" (trim a) /\ no_char "," (trim a).
Proof.
  unfold isValidInterfaceAddress. cbv zeta. destruct (bool_decide (trim a = "")) eqn:He; [done|]. apply bool_decide_eq_false in He.
  destruct (sall _ (trim a)) eqn:Hs; [|done]. cbn [negb orb]. intros H. split; [done|].
  assert (sall (fun c => negb (is_char "=" c) && negb (is_char "," c)) (trim a) = true) as Hc.
  { destruct (re_test IPV4_HOST_CIDR_RE (trim a)) eqn:H4; [by eapply re_chars; [exact H4|vm_compute; reflexivity]|].
    apply andb_true_iff in H as [_ H6]. eapply re_chars; [exact H6|vm_compute; reflexivity]. }
  split; eapply sall_impl; try exact Hc; intros c [? ?]%andb_true_iff; done.
Qed.

Lemma field_eol s : field_text s -> no_char nl s /\ no_char cr s.
Proof. intros H. split; by apply field_no_char. Qed.

Definition iface_char (c : ascii) : bool := is_alnum c.

Lemma iface_name_chars name : re_test VALID_IFACE_NAME name = true -> sall iface_char name = true.
Proof. intros H. eapply re_chars; [exact H|vm_compute; reflexivity]. Qed.

Section iface_text.
Variables (name address privateKey : string) (port : Z).
Hypothesis Hname : re_test VALID_IFACE_NAME name = true.
Hypothesis Haddr : isValidInterfaceAddress address = true.
Hypothesis Hport : 1 <= port.
Hypothesis Hkey : base64_key privateKey.

Let lines := iface_lines name address port privateKey.

Lemma name_no d : iface_char d = false -> no_char d name.
Proof.
  intros Hd. apply iface_name_chars in Hname. unfold no_char. eapply sall_impl; [|exact Hname]. intros c Hc. apply negb_true_iff.
  unfold is_char. apply bool_decide_eq_false. congruence.
Qed.

(** The file has exactly the lines it was built from: no input adds one. *)
Lemma iface_text_lines : split_lines (join NL lines) = lines.
Proof.
  assert (Forall (fun l => no_char nl l /\ no_char cr l) lines) as H.
  { pose proof (proj1 (address_field _ Haddr)) as Ha%field_eol. pose proof (proj1 (base64_field _ Hkey)) as Hk%field_eol.
    pose proof (showZ_field port ltac:(lia)) as Hp%field_eol.
    pose proof (name_no nl eq_refl). pose proof (name_no cr eq_refl). subst lines. unfold iface_lines.
    destruct Ha, Hk, Hp. repeat apply Forall_cons_2; try apply Forall_nil_2; split; repeat apply no_char_app; (assumption || reflexivity). }
  apply split_lines_join; [done| |]; (eapply Forall_impl; [exact H|]; intros l Hl; apply Hl).
Qed.

(** Read back, the file has the address, the port and a private key. *)
Lemma iface_text_parse : parseConfig (join NL lines) = ParsedConfig [trim address] (Some port) true [].
Proof.
  unfold parseConfig. rewrite iface_text_lines. subst lines. unfold iface_lines. cbn [fold_left].
  change (parse_config_line (SecNone, ?p) "[Interface]") with (SecInterface, p).
  destruct (address_field _ Haddr) as (Ha & Hae & Hac). rewrite parse_address by done. rewrite parse_port by lia. rewrite parse_private by done.
  change (parse_config_line (SecInterface, ?p) "Table = off") with (SecInterface, p).
  change ("PostUp = iptables -A FORWARD -i " +:+ ?x) with ("PostUp" +:+ " = " +:+ "iptables -A FORWARD -i " +:+ x).
  change ("PostDown = iptables -D FORWARD -i " +:+ ?x) with ("PostDown" +:+ " = " +:+ "iptables -D FORWARD -i " +:+ x).
  rewrite !parse_other; try done; try (by rewrite !not_elem_of_cons; set_solver).
  all: rewrite <- !sapp_assoc; apply trim_end_accept.
Qed.
End iface_text.

Lemma choose_port_Ok n used p : choose_port n used = Ok p -> 1 <= p <= 65535 /\ p ∉ used.
Proof.
  unfold choose_port. destruct n as [n|].
  - destruct (num_int n) as [q|]; [|done]. intros (? & Hr%throw_if_Ok & H)%bind_Ok. apply bind_Ok in H as (? & Hu%throw_if_Ok & [= ->]).
    apply negb_false_iff, andb_true_iff in Hr as [? ?]. apply bool_decide_eq_false in Hu. split; [lia|done].
  - destruct (bfind _ _) as [q|] eqn:Hq; [|done]. intros [= ->]. apply bfind_Some in Hq as [Hin%elem_of_seqZ Hu].
    apply negb_true_iff, bool_decide_eq_false in Hu. split; [lia|done].
Qed.

Lemma elem_of_used_ports confs p n t : (n, t) ∈ confs -> pc_listenPort (parseConfig t) = Some p -> p <> 0 -> p ∈ used_ports confs.
Proof.
  intros Hin Hp Hz. unfold used_ports. apply list_elem_of_omap. exists (n, t). split; [done|]. cbn [snd]. rewrite Hp.
  by rewrite (proj2 (Z.eqb_neq _ _)).
Qed.

Lemma iface_entry_written role : exists entry, iface_entry role = Ok entry.
Proof.
  unfold iface_entry, sanitizeInterfaceMetadataPatch. cbn [throw_if mbind result_bind]. fields. by eexists.
Qed.

Lemma mdel_mset_fresh {V} (k : string) (v : V) m : mget k m = None -> mdel k (mset k v m) = m.
Proof.
  intros Hk. rewrite mdel_mset_eq. unfold mdel. apply filter_all, Forall_forall. intros [j w] Hin Hj. cbn in Hj. subst j.
  apply mget_None in Hk. apply Hk, list_elem_of_fmap. by exists (k, w).
Qed.

Lemma drop_set_conf name text h : mget name (hb_confs h) = None -> drop_conf name (set_conf name text h) = h.
Proof.
  destruct h as [confs m backups agents cache commands]. intros H. change (mget name confs = None) in H.
  change (Hub (mdel name (mset name text confs)) m backups agents cache commands = Hub confs m backups agents cache commands).
  by rewrite mdel_mset_fresh.
Qed.

(** A new interface has a free valid name and a free port; its file is read back as the
    address and the port that were reported and holds exactly the lines it was built from;
    no other file changes, and the metadata gets one entry. A creation that fails changes
    nothing. *)
Theorem createInterface_spec h rq privateKey publicKey up_ok h' r : base64_key privateKey ->
  createInterface h rq privateKey publicKey up_ok = (h', r) ->
  match r with
  | Throw _ => h' = h
  | Ok c =>
      let text := join NL (iface_lines (ic_name c) (ir_address rq) (ic_listenPort c) privateKey) in
      re_test VALID_IFACE_NAME (ic_name c) = true /\ mget (ic_name c) (hb_confs h) = None /\ (ir_name rq <> "" -> ic_name c = ir_name rq) /\
      1 <= ic_listenPort c <= 65535 /\
      (forall n t, (n, t) ∈ hb_confs h -> pc_listenPort (parseConfig t) <> Some (ic_listenPort c)) /\
      split_lines text = iface_lines (ic_name c) (ir_address rq) (ic_listenPort c) privateKey /\
      parseConfig text = ParsedConfig [ic_address c] (Some (ic_listenPort c)) true [] /\
      hb_confs h' = hb_confs h ++ [(ic_name c, text)] /\ ms_links (hb_meta h') = ms_links (hb_meta h) /\
      exists entry, ms_interfaces (hb_meta h') = mset (ic_name c) entry (ms_interfaces (hb_meta h))
  end.
Proof.
  intros Hkey. unfold createInterface. destruct (choose_iface h rq) as [[name port]|e] eqn:Hc; [|by intros [= <- <-]].
  unfold choose_iface in Hc. apply bind_Ok in Hc as (? & _ & Hc). apply bind_Ok in Hc as (? & Ha%throw_if_Ok & Hc).
  apply bind_Ok in Hc as (n & Hn & Hc). apply bind_Ok in Hc as (? & Hv%throw_if_Ok & Hc). apply bind_Ok in Hc as (? & Hf%throw_if_Ok & Hc).
  apply bind_Ok in Hc as (p & Hp & [= -> ->]). apply choose_port_Ok in Hp as [Hr Hu]. apply negb_false_iff in Ha, Hv.
  assert (mget name (hb_confs h) = None) as Hg by (unfold mhas in Hf; by destruct (mget _ _)).
  cbv zeta. destruct (iface_entry_written (ir_role rq)) as (entry & ->). destruct up_ok; cbn [negb]; intros [= <- <-].
  - cbn [ic_name ic_listenPort ic_address]. split_and!; try done; try lia.
    + intros Hne. rewrite decide_False in Hn by done. congruence.
    + intros m t Hin Hport. apply Hu. eapply elem_of_used_ports; [exact Hin|exact Hport|lia].
    + apply iface_text_lines; done || lia.
    + apply iface_text_parse; done || lia.
    + destruct h; cbn in *. apply mset_fresh. by apply mget_None.
    + destruct h; by eexists.
  - by apply drop_set_conf.
Qed.

(** * Every history of the handlers is a history of the store *)

Section history.
Variable sha256 : string -> string.
Variable WG_HUB_HOST : string.
Variable WG_DNS : option string.
Variable hostname : string.
Variable live_peers : string -> list (string * list string).
Variable nics : list nic.

(** One run of a handler, whatever it reads and however the commands end. *)
Inductive hub_step (h : hub) : hub -> Prop :=
| StepCreatePeer st rq privateKey publicKey set_ok now h' r :
    createPeer sha256 WG_HUB_HOST WG_DNS hostname live_peers nics h st rq privateKey publicKey set_ok now = (h', r) -> hub_step h h'
| StepUpdatePeer st st' linkId changes stamp outcomes h' r :
    updatePeer sha256 WG_HUB_HOST live_peers nics h st st' linkId changes stamp outcomes = (h', r) -> hub_step h h'
| StepDeletePeer h0 st linkId opts write_ok set_ok now h' r :
    deletePeer sha256 WG_HUB_HOST live_peers nics h0 h st linkId opts write_ok set_ok now = (h', r) -> hub_step h h'
| StepCreateInterface rq privateKey publicKey up_ok h' r :
    createInterface h rq privateKey publicKey up_ok = (h', r) -> hub_step h h'
| StepDeleteInterface h0 st rawName opts now h' r :
    deleteInterface sha256 WG_HUB_HOST h0 h st rawName opts now = (h', r) -> hub_step h h'.

Definition agent_ids (h : hub) : list Z := ag_id <$> st_agents (hb_agents h).

(** What a run of a handler may do to the metadata and to the table of agents. *)
Definition tame (h h' : hub) : Prop := rtc meta_step (hb_meta h) (hb_meta h') /\ agent_ids h' = agent_ids h.

Lemma tame_refl h h' : hb_meta h' = hb_meta h -> hb_agents h' = hb_agents h -> tame h h'.
Proof. intros Hm Ha. unfold tame, agent_ids. by rewrite Hm, Ha. Qed.

Lemma tame_trans h1 h2 h3 : tame h1 h2 -> tame h2 h3 -> tame h1 h3.
Proof. intros [H1 I1] [H2 I2]. split; [by etrans|congruence]. Qed.

Lemma tame_meta h m : meta_step (hb_meta h) m -> tame h (set_meta m h).
Proof. intros H. split; [by apply rtc_once; destruct h|by destruct h]. Qed.

Lemma tame_agents h agents : ag_id <$> st_agents agents = agent_ids h -> tame h (set_agents agents h).
Proof. intros H. split; [by destruct h|]. unfold agent_ids in *. by destruct h. Qed.

Lemma map_ids (g : agent_row -> agent_row) (db : agent_db) : (forall a, ag_id (g a) = ag_id a) -> ag_id <$> (g <$> db) = ag_id <$> db.
Proof. intros Hg. rewrite <- list_fmap_compose. apply list_fmap_ext. intros _ a _. apply Hg. Qed.

Lemma tame_sync h : tame h (sync_agents_of sha256 WG_HUB_HOST h).
Proof.
  destruct h as [confs m backups agents cache commands]. split; [done|]. unfold agent_ids, sync_agents_of, resync. destruct agents as [db rules links pairs meta].
  cbn. unfold syncAgentConfigs. rewrite fold_sync. cbn [fst]. apply map_ids. intros a. match goal with |- context [fold_left _ ?l a] => generalize l end. intros l. revert a.
  induction l as [|b l IH]; intros a; [done|]. cbn [fold_left]. rewrite IH. apply act_id.
Qed.

Lemma tame_conf iface h : tame h (sync_conf live_peers nics iface h).
Proof. by apply tame_refl; destruct h. Qed.

Lemma delete_bound_ids now plan st acc : ag_id <$> st_agents (foldl (delete_bound_step sha256 now) (st, acc) plan).1 = ag_id <$> st_agents st.
Proof.
  revert st acc. induction plan as [|p plan IH]; intros st acc; [done|]. cbn [foldl]. destruct acc as [deleted errors].
  unfold delete_bound_step at 2. destruct (delete_agent sha256 st (bp_id p) (bp_force p) now) as [st'|[]] eqn:Hd; rewrite IH; try done.
  rewrite (delete_agent_inv _ _ _ _ _ _ Hd). apply patch_row_ids. intros a. by destruct (bp_force p), a.
Qed.

Lemma update_upto_ids upd n db : (forall a a', upd a = Some a' -> ag_id a' = ag_id a) -> ag_id <$> (update_upto upd n db).1 = ag_id <$> db.
Proof.
  intros Hu. revert n. induction db as [|a db IH]; intros n; [done|]. cbn [update_upto]. destruct (upd a) as [a'|] eqn:Ha, n; cbn [fst];
    rewrite ?fmap_cons, ?IH; rewrite ?(Hu _ _ Ha); done.
Qed.

Lemma rename_upto_ids n st o n' : ag_id <$> st_agents (rename_upto n st o n') = ag_id <$> st_agents st.
Proof.
  unfold rename_upto. assert (forall a a', upd_link_name o n' a = Some a' -> ag_id a' = ag_id a) as H1.
  { intros a a'. unfold upd_link_name. destruct (decide _); [|done]. intros [= <-]. by destruct a. }
  assert (forall a a', upd_sites o n' a = Some a' -> ag_id a' = ag_id a) as H2.
  { intros a a'. unfold upd_sites. destruct (_ && _); [|done]. intros [= <-]. by destruct a. }
  destruct (update_upto (upd_link_name o n') n (st_agents st)).2; change (st_agents (with_agents st ?x)) with x;
    rewrite !update_upto_ids by done; done.
Qed.

Lemma rename_ids st o n : ag_id <$> st_agents (renameLinkBinding st o n) = ag_id <$> st_agents st.
Proof.
  unfold renameLinkBinding. destruct (bool_decide _); [done|]. destruct st. cbn. apply map_ids. intros a. unfold rename_row.
  destruct (decide _), a; cbn; by case_match.
Qed.

Lemma run_ids c o n : ag_id <$> st_agents (ca_store (run c o n).1) = ag_id <$> st_agents (ca_store c).
Proof.
  unfold run. destruct (bool_decide _); [done|]. destruct (ca_outcomes c) as [|[k|] os]; cbn; try apply rename_ids. apply rename_upto_ids.
Qed.

Lemma one_rename_ids stamp o n outcomes st : ag_id <$> st_agents (cascadeLinkRenames stamp [LinkRename o n] outcomes st).1 = ag_id <$> st_agents st.
Proof.
  unfold cascadeLinkRenames. destruct (needsTemp _).
  - cbn [fmap list_fmap zip tmp_names rn_oldName rn_newName]. unfold tmp_names. cbn [length seq fmap list_fmap zip zip_with temp_phase fst snd].
    pose proof (run_ids (Cascade st outcomes []) o (tmp_name stamp 0)) as H1. destruct (run (Cascade st outcomes []) o (tmp_name stamp 0)) as [c1 [|]]; cbn in H1.
    + by destruct c1.
    + cbn [foldl fst snd]. unfold run_twice. cbn [fst snd]. pose proof (run_ids c1 (tmp_name stamp 0) n) as H2. destruct (run c1 _ n) as [c2 [|]]; cbn in H2; [|cbn; congruence].
      pose proof (run_ids c2 (tmp_name stamp 0) n) as H3. destruct (run c2 _ n) as [c3 [|]]; cbn in *; congruence.
  - cbn [fmap list_fmap foldl rn_oldName rn_newName fst snd]. unfold run_step. cbn [fst snd].
    pose proof (run_ids (Cascade st outcomes []) o n) as H1. destruct (run _ o n) as [c1 [|]]; cbn in *; done.
Qed.

(** Follows a handler from its last change to its first. *)
Ltac tame := cbn [fst]; repeat match goal with
  | H : tame ?h ?x |- tame ?h ?x => exact H
  | |- tame ?h ?h => by apply tame_refl
  | |- tame _ (cache_config _ _ _ ?x) => apply (tame_trans _ x); [|by apply tame_refl; destruct x]
  | |- tame _ (set_conf _ _ ?x) => apply (tame_trans _ x); [|by apply tame_refl; destruct x]
  | |- tame _ (drop_conf _ ?x) => apply (tame_trans _ x); [|by apply tame_refl; destruct x]
  | |- tame _ (drop_cache ?x) => apply (tame_trans _ x); [|by apply tame_refl; destruct x]
  | |- tame _ (backup_meta ?x) => apply (tame_trans _ x); [|by apply tame_refl; destruct x]
  | |- tame _ (run_command _ ?x) => apply (tame_trans _ x); [|by apply tame_refl; destruct x]
  | |- tame _ (sync_agents_of _ _ ?x) => apply (tame_trans _ x); [|apply tame_sync]
  | |- tame _ (sync_conf _ _ _ ?x) => apply (tame_trans _ x); [|apply tame_conf]
  | |- tame _ (set_agents _ ?x) => apply (tame_trans _ x); [|apply tame_agents]
  | |- tame _ (set_meta _ ?x) => apply (tame_trans _ x); [|apply tame_meta]
  | |- tame _ (if ?b then _ else _) => destruct b
  end.

Lemma tame_create_peer h st rq privateKey publicKey set_ok now :
  tame h (createPeer sha256 WG_HUB_HOST WG_DNS hostname live_peers nics h st rq privateKey publicKey set_ok now).1.
Proof.
  unfold createPeer. destruct (check_request rq) as [[linkType dnsList]|]; [|tame].
  destruct (plan_peer st rq linkType publicKey) as [plan|]; [|tame]. cbv zeta.
  destruct set_ok; cbn [negb fst]; [|tame].
  destruct (new_entry rq linkType _ dnsList) as [entry|] eqn:He; cbn [fst]; [|tame].
  unfold new_entry in He. apply bind_Ok in He as (p & Hp & [= <-]). tame; by eapply MetaCreate.
Qed.

Lemma tame_update_peer h st st' linkId changes stamp outcomes :
  tame h (updatePeer sha256 WG_HUB_HOST live_peers nics h st st' linkId changes stamp outcomes).1.
Proof.
  unfold updatePeer. destruct (resolveLink st linkId) as [[link [iface key]]|]; [|tame].
  destruct (check_update (hb_meta h) st link changes); [|tame]. cbv zeta.
  destruct (_ ≫= _) as [m|] eqn:Hm; cbn [fst]; [|tame]. apply bind_Ok in Hm as (p & Hp & Hm).
  tame; try apply one_rename_ids; by eapply MetaUpdate.
Qed.

Lemma tame_bound h plan now : ag_id <$> st_agents (deleteBoundAgents sha256 plan now (hb_agents h)).1 = agent_ids h.
Proof. apply delete_bound_ids. Qed.

Lemma tame_remove iface key write_ok h h1 : remove_from_conf iface key write_ok h = Ok h1 -> tame h h1.
Proof. intros ->%remove_frame. by apply tame_refl. Qed.

Lemma tame_delete_peer h0 h st linkId opts write_ok set_ok now :
  tame h (deletePeer sha256 WG_HUB_HOST live_peers nics h0 h st linkId opts write_ok set_ok now).1.
Proof.
  unfold deletePeer. destruct (resolveLink st linkId) as [[link [iface key]]|]; [|tame].
  cbv zeta. destruct (do_dryRun opts); [tame|]. destruct (assertBoundAgentCascade _ _); [|tame].
  destruct (_ ≫= _) as [h1|] eqn:Hm; cbn [fst]; [|tame]. apply bind_Ok in Hm as (u & _ & Hm%tame_remove).
  destruct (deleteBoundAgents _ _ _ _) as [agents deleted] eqn:Hd. apply (f_equal fst) in Hd. cbn [fst] in Hd |- *. rewrite <- Hd.
  apply (tame_trans _ h1); [apply (tame_trans _ (backup_meta h)); [tame|done]|]. tame; try apply tame_bound; apply MetaDelete.
Qed.

Lemma tame_create_interface h rq privateKey publicKey up_ok : tame h (createInterface h rq privateKey publicKey up_ok).1.
Proof.
  unfold createInterface. destruct (choose_iface h rq) as [[name port]|]; [|tame]. cbv zeta.
  destruct up_ok; cbn [negb fst]; [|tame]. destruct (iface_entry (ir_role rq)) as [entry|] eqn:He; cbn [fst]; [|tame].
  unfold iface_entry in He. apply bind_Ok in He as (p & Hp & [= <-]). tame. by eapply MetaCreateInterface.
Qed.

Lemma tame_delete_interface h0 h st rawName opts now : tame h (deleteInterface sha256 WG_HUB_HOST h0 h st rawName opts now).1.
Proof.
  unfold deleteInterface. cbv zeta. set (name := trim rawName). destruct (decide (name = "")); [tame|].
  destruct (negb (re_test VALID_IFACE_NAME name)); [tame|]. destruct (decide (name = "wg0")); [tame|].
  destruct (negb (mhas name (hb_confs h0))); [tame|].
  destruct (do_dryRun opts); [tame|]. destruct (assertBoundAgentCascade _ _); [|tame].
  destruct (assertBoundAgentCascade _ _); cbn [fst]; [|tame]. destruct (negb _); cbn [fst]; [tame|].
  destruct (deleteBoundAgents _ _ _ _) as [agents deleted] eqn:Hd. apply (f_equal fst) in Hd. cbn [fst] in Hd |- *. rewrite <- Hd.
  tame; try apply tame_bound. 
  exact (MetaDeleteInterface _ name).
Qed.

Lemma step_tame h h' : hub_step h h' -> tame h h'.
Proof.
  destruct 1 as [? ? ? ? ? ? ? ? H|? ? ? ? ? ? ? ? H|? ? ? ? ? ? ? ? ? H|? ? ? ? ? ? H|? ? ? ? ? ? ? H]; apply (f_equal fst) in H; cbn [fst] in H; rewrite <- H.
  - apply tame_create_peer.
  - apply tame_update_peer.
  - apply tame_delete_peer.
  - apply tame_create_interface.
  - apply tame_delete_interface.
Qed.

(** The handlers refine the metadata store: every history of them is one of its writes, so
    what the store promises holds on the hub; the table of agents keeps its ids, and in a
    history from an empty store every entry has only sanitized fields. *)
Theorem hub_refines_meta h h' : rtc hub_step h h' ->
  rtc meta_step (hb_meta h) (hb_meta h') /\ agent_ids h' = agent_ids h /\
  (hb_meta h = empty_meta -> store_fine (hb_meta h') /\ meta_plain (links_of_store (hb_meta h'))).
Proof.
  intros H. assert (tame h h') as [Hm Hi].
  { induction H as [h|h1 h2 h3 Hs _ IH]; [by apply tame_refl|]. eapply tame_trans; [by apply step_tame|done]. }
  split; [done|]. split; [done|]. intros He. rewrite He in Hm. split; [by apply meta_history_fine|by apply reachable_plain].
Qed.
End history.

(** * Examples *)

(** A hub with a site whose name an agent is bound to, and an agent of another link. *)
Definition ex_life_hub : hub := Eval vm_compute in
  set_agents (Store [ex_row 1 "lager" ""; ex_row 2 "berlin" ""] [] [] [] []) ex_result.1.

Definition ex_life_host : host_view :=
  HostView (print_dump [DumpedIface "wg0" "priv" "HUB=" 51820 "off"
     [DumpedPeer "AAA=" "(none)" "198.51.100.4:51820" ["10.10.0.2/32"; "192.168.1.0/24"] 0 0 0 "off";
      DumpedPeer "CCC=" "(none)" "(none)" ["10.10.0.3/32"; "192.168.7.0/24"] 0 0 0 "off"]])
    ["wg0"] (fun _ => WgConf.ex_conf) (fun _ => (0, 0)) None true.

Definition ex_life_status : status := Eval vm_compute in live_status 0 "wg" "ip" ex_life_host (hb_meta ex_result.1).

Definition ex_delete (deleteBound : bool) : hub * result peer_error delete_result :=
  deletePeer ex_sha "hub.example" (fun _ => []) ex_nics ex_life_hub ex_life_hub ex_life_status "wg0:CCC="
    (DeleteOpts deleteBound [] false) true true 9.
Definition ex_deleted : hub := Eval vm_compute in (ex_delete true).1.

Lemma ex_delete_eq : ex_delete true = (ex_deleted, Ok (Deleted (BoundDeleted [1] []))).
Proof. vm_compute. reflexivity. Qed.

Lemma ex_life_ids : unique_ids (st_agents (hb_agents ex_life_hub)).
Proof. apply (bool_decide_eq_true_1 _). vm_compute. reflexivity. Qed.

Lemma deletePeer_failure_witness : (ex_delete false).1 = ex_life_hub /\ (ex_delete false).2 = Throw (PBoundAgents ["site"]).
Proof.
  assert ((ex_delete false).2 = Throw (PBoundAgents ["site"])) as Hr by (vm_compute; reflexivity). split; [|exact Hr].
  pose proof (deletePeer_failure ex_sha "hub.example" (fun _ => []) ex_nics ex_life_hub ex_life_hub ex_life_status "wg0:CCC="
    (DeleteOpts false [] false) true true 9 _ _ (surjective_pairing (ex_delete false))) as H.
  rewrite Hr in H. destruct H as [H|H]; [exact H|]. exfalso. apply (f_equal (fun h => length (hb_backups h))) in H. vm_compute in H. discriminate H.
Defined.

Lemma deletePeer_leaves_no_binding_witness : boundAgentRows ["lager"] (st_agents (hb_agents ex_life_hub)) <> [] /\
  boundAgentRows ["lager"] (st_agents (hb_agents ex_deleted)) = [].
Proof.
  split; [vm_compute; discriminate|].
  destruct (deletePeer_leaves_no_binding ex_sha "hub.example" (fun _ => []) ex_nics ex_life_hub ex_life_hub ex_life_status "wg0:CCC="
    (DeleteOpts true [] false) true true 9 _ _ ex_life_ids ex_delete_eq) as (link & iface & key & Hr & Hb & _).
  assert (peer_bound_names ex_life_status link = ["lager"]) as Hn; [|rewrite Hn in Hb; exact Hb].
  vm_compute in Hr. injection Hr as <- <- <-. vm_compute. reflexivity.
Defined.

Lemma delete_undoes_create_witness :
  parsePeersFromConf (split_lines (removePeerFromConf (WgConf.ex_conf +:+ peer_block "lager" "CCC=" ["10.10.0.4/32"]) "CCC=")) =
  parsePeersFromConf (split_lines WgConf.ex_conf).
Proof.
  apply (delete_undoes_create WgConf.ex_conf "lager" "CCC=" ["10.10.0.4/32"]); [reflexivity|split; [discriminate|split; reflexivity]| |vm_compute; reflexivity|vm_compute; reflexivity].
  repeat constructor; discriminate.
Defined.

Definition ex_iface_request : iface_request := IfaceRequest "" "10.20.0.1/24" None "".

Definition ex_iface_result : hub * result peer_error iface_created := Eval vm_compute in
  createInterface ex_life_hub ex_iface_request "QUJD=" "PUB=" true.

Lemma createInterface_spec_witness : exists h' c, ex_iface_result = (h', Ok c) /\ ic_name c = "wg1" /\ re_test VALID_IFACE_NAME (ic_name c) = true.
Proof.
  assert (base64_key "QUJD=") as Hk by (exists "QUJD"; split_and!; [reflexivity|discriminate|reflexivity]).
  assert (createInterface ex_life_hub ex_iface_request "QUJD=" "PUB=" true = ex_iface_result) as He by (vm_compute; reflexivity).
  pose proof (createInterface_spec ex_life_hub ex_iface_request "QUJD=" "PUB=" true ex_iface_result.1 ex_iface_result.2 Hk) as H.
  specialize (H He). destruct H as [Hv _]. eexists _, _. split; [reflexivity|]. split; [reflexivity|exact Hv].
Defined.

(** The hub with an interface more, and its deletion. *)
Definition ex_two_hub : hub := Eval vm_compute in ex_iface_result.1.

Lemma deleteInterface_leaves_no_binding_witness :
  hb_confs (deleteInterface ex_sha "hub.example" ex_two_hub ex_two_hub (Some ex_life_status) " wg1" (DeleteOpts false [] false) 9).1 = hb_confs ex_life_hub.
Proof.
  pose proof (deleteInterface_leaves_no_binding ex_sha "hub.example" ex_two_hub ex_two_hub (Some ex_life_status) " wg1" (DeleteOpts false [] false) 9
    _ _ ltac:(apply (bool_decide_eq_true_1 _); vm_compute; reflexivity) (surjective_pairing _)) as H. cbv zeta in H.
  assert ((deleteInterface ex_sha "hub.example" ex_two_hub ex_two_hub (Some ex_life_status) " wg1" (DeleteOpts false [] false) 9).2 =
    Ok (Deleted (BoundDeleted [] []))) as Hr by (vm_compute; reflexivity).
  rewrite Hr in H. destruct H as (_ & _ & _ & _ & _ & _ & Hc & _). rewrite Hc. vm_compute. reflexivity.
Defined.

Definition ex_changes : jsval := VObj [("importedNetworks", VArr [VStr "192.168.8.0/24"]); ("name", VStr "depot")].

Lemma updatePeer_claims_only_free_witness : exists h',
  updatePeer ex_sha "hub.example" (fun _ => []) ex_nics ex_life_hub ex_life_status ex_life_status "wg0:CCC=" ex_changes 7 [] = (h', Ok tt) /\ hb_cache h' = [].
Proof.
  assert ((updatePeer ex_sha "hub.example" (fun _ => []) ex_nics ex_life_hub ex_life_status ex_life_status "wg0:CCC=" ex_changes 7 []).2 = Ok tt) as Hr
    by (vm_compute; reflexivity).
  eexists. split; [rewrite <- Hr; apply surjective_pairing|].
  pose proof (updatePeer_claims_only_free ex_sha "hub.example" (fun _ => []) ex_nics ex_life_hub ex_life_status ex_life_status "wg0:CCC=" ex_changes 7 []
    _ _ ltac:(apply (bool_decide_eq_true_1 _); vm_compute; reflexivity) (surjective_pairing _)) as H. cbv zeta in H. rewrite Hr in H. apply H.
Defined.

Lemma hub_refines_meta_witness : rtc meta_step (hb_meta ex_hub) (hb_meta ex_result.1) /\ agent_ids ex_result.1 = agent_ids ex_hub.
Proof.
  destruct (hub_refines_meta ex_sha "hub.example" None "hub" (fun _ => []) ex_nics ex_hub ex_result.1) as (H1 & H2 & _); [|split; [exact H1|exact H2]].
  apply rtc_once. eapply StepCreatePeer. exact ex_create_eq.
Defined.

(** ** An address that is in use is given again

    The addresses in use are those of the live peers. A peer that only the configuration
    file has, as a rotation leaves it when [wg set] fails for the new key, keeps its address
    in the file; the next peer gets the same one. *)
Lemma conf_only_address_given_again :
  ("BBB=", ["10.10.0.3/32"]) ∈ parsePeersFromConf (split_lines WgConf.ex_conf) /\ cd_tunnelAddress ex_created = "10.10.0.3/24".
Proof. split; [|reflexivity]. apply (bool_decide_eq_true_1 _). vm_compute. reflexivity. Qed.
