(* ===== verification/WgCache.v ===== *)
(** The client configurations the hub gives out: [generatePeerConfig] of
    [backend/internal/wireguard.js] with the rotation of the peer's key, the cache of the
    generated material and the generations in flight.

    A generation is a run of steps between which other handlers run; [generatePeerConfig] is
    the run nothing interleaves. *)

From S2P Require Import Prelude.
From S2P Require Import JsString.
From S2P Require Import JsVal.
From S2P Require Import ConfText.
From S2P Require Import Cidr.
From S2P Require Import IngressRules.
From S2P Require Import WgConf.
From S2P Require Import AgentText.
From S2P Require Import AgentRow.
From S2P Require Import AgentMesh.
From S2P Require Import AgentStore.
From S2P Require Import WgMeta.
From S2P Require Import WgStatus.
From S2P Require Import WgPeer.
From S2P Require Import WgLife.
From coqutil Require Import Datatypes.RecordSetters.
Import OCamlLikeNotations.

Local Open Scope Z_scope.

(** * The cache *)

Definition getCachedPeerConfig (cache : list (string * (peer_config * Z))) (linkId : string) (now : Z)
    : list (string * (peer_config * Z)) * option peer_config :=
  match mget linkId cache with
  | None => (cache, None)
  | Some (config, expires) => if expires <=? now then (mdel linkId cache, None) else (cache, Some config)
  end.

Definition set_cache (cache : list (string * (peer_config * Z))) (h : hub) : hub := { h with hb_cache := cache }.

(** * A generation *)

(** The link and its interface, as the status read at the start has them. *)
Record gen_plan := GenPlan { gp_status : status; gp_link : link_rec; gp_iface : option iface_status }.

Definition plan_config (st : status) (db : agent_db) (linkId : string) : result peer_error gen_plan :=
  throw_if (negb (st_available st)) PUnavailable;;
  link ← match bfind (fun l => bool_decide (lk_id l = linkId)) (st_links_of st) with Some l => Ok l | None => Throw PNoLink end;
  assertPeerConfigAllowed link (default [] (mget linkId (ms_links (st_metadata st)))) db;;
  Ok (GenPlan st link (bfind (fun i => bool_decide (if_name i = lk_interfaceName link)) (st_interfaces st))).

Definition new_link_id (link : link_rec) (newPubKey : string) : string := lk_interfaceName link +:+ ":" +:+ newPubKey.

(** [_rotatePeerPublicKey]: [rm_ok] and [add_ok] tell whether the two commands succeed; their
    failures are only logged. *)
Definition rotatePeerPublicKey (iface oldPubKey newPubKey : string) (allowedIps : list string) (rm_ok add_ok : bool) (h : hub) : hub * bool :=
  match mget iface (hb_confs h) with
  | None => (h, false)
  | Some text =>
      let '(newText, swapped) := rewriteRotatedPeer text oldPubKey newPubKey in
      if negb swapped then (h, false)
      else
        let h := set_conf iface newText h in
        let h := if rm_ok then run_command ["set"; iface; "peer"; oldPubKey; "remove"] h else h in
        let h := if add_ok then run_command (["set"; iface; "peer"; newPubKey] ++
                   (if has_items allowedIps then ["allowed-ips"; join "," allowedIps] else [])) h else h in
        (h, true)
  end.

(** The locked rotation, when the peer has another key. *)
Definition rotate_peer (p : gen_plan) (newPubKey : string) (rm_ok add_ok : bool) (h : hub) : hub * bool :=
  let oldPubKey := or_empty (lk_peerPublicKey (gp_link p)) in
  if bool_decide (oldPubKey <> "" /\ oldPubKey <> newPubKey)
  then rotatePeerPublicKey (lk_interfaceName (gp_link p)) oldPubKey newPubKey (lk_allowedIps (gp_link p)) rm_ok add_ok h
  else (h, false).

(** The entry of the link moves to the new id, in a second locked step. *)
Definition move_link (p : gen_plan) (linkId newPubKey : string) (rotated : bool) (h : hub) : hub :=
  if rotated then set_meta (move_link_meta (hb_meta h) linkId (new_link_id (gp_link p) newPubKey)) h else h.

(** The store the configuration is built from. *)
Definition read_store (p : gen_plan) (rotated : bool) (h : hub) : meta_store :=
  if rotated then hb_meta h else st_metadata (gp_status p).

Section generate.
Variable WG_HUB_HOST : string.
Variable WG_DNS : option string.
Variable hostname : string.

Definition build_config (p : gen_plan) (linkId privateKey newPubKey : string) (rotated : bool) (m : meta_store) : peer_config :=
  let link := gp_link p in
  let effectiveLinkId := if rotated then new_link_id link newPubKey else linkId in
  let ifaceMeta := default [] (mget (lk_interfaceName link) (ms_interfaces m)) in
  let linkMeta := match mget effectiveLinkId (ms_links m) with Some e => e | None => default [] (mget linkId (ms_links m)) end in
  PeerConfig (buildClientConfig WG_DNS {|
    ca_displayName := text_or (lk_name link) (lk_id link);
    ca_filenameBase := text_or (lk_name link) (lk_id link);
    ca_privateKey := privateKey;
    ca_publicKey := Some newPubKey;
    ca_tunnelAddress := head (lk_tunnelAddresses link);
    ca_linkDns := list_of "dns" linkMeta;
    ca_ifaceDns := list_of "dns" ifaceMeta;
    ca_fullTunnel := truthy (oget "fullTunnel" linkMeta);
    ca_platform := text_of "platform" linkMeta;
    ca_importedNets := lk_importedNetworks link;
    ca_tunnelSubnets := match gp_iface p with Some i => if_addresses i | None => [] end;
    ca_links := st_links_of (gp_status p);
    ca_excludeLinkId := linkId;
    ca_ifaceName := lk_interfaceName link;
    ca_hubPublicKey := match gp_iface p with Some i => if_publicKey i | None => None end;
    ca_hubHost := resolveHubHost WG_HUB_HOST hostname;
    ca_hubListenPort := match gp_iface p with Some i => default 51820 (if_listenPort i) | None => 51820 end |}) newPubKey.

(** The material is cached under the id asked for and, after a rotation, under the new one. *)
Definition cache_result (p : gen_plan) (linkId newPubKey : string) (rotated : bool) (result : peer_config) (now : Z) (h : hub) : hub :=
  let h := cache_config linkId result now h in
  if rotated then cache_config (new_link_id (gp_link p) newPubKey) result now h else h.

(** [st]: the status read; [privateKey], [newPubKey]: the generated pair. *)
Definition generatePeerConfigUncached (h : hub) (st : status) (linkId privateKey newPubKey : string) (rm_ok add_ok : bool) (now : Z)
    : hub * result peer_error peer_config :=
  match plan_config st (st_agents (hb_agents h)) linkId with
  | Throw e => (h, Throw e)
  | Ok p =>
      let '(h, rotated) := rotate_peer p newPubKey rm_ok add_ok h in
      let h := move_link p linkId newPubKey rotated h in
      let result := build_config p linkId privateKey newPubKey rotated (read_store p rotated h) in
      (cache_result p linkId newPubKey rotated result now h, Ok result)
  end.

Definition generatePeerConfig (h : hub) (st : status) (linkId privateKey newPubKey : string) (rm_ok add_ok : bool) (now : Z)
    : hub * result peer_error peer_config :=
  let '(cache, hit) := getCachedPeerConfig (hb_cache h) linkId now in
  match hit with
  | Some config => (h, Ok config)
  | None => generatePeerConfigUncached (set_cache cache h) st linkId privateKey newPubKey rm_ok add_ok now
  end.
End generate.

(** * Generations in flight *)

(** How far a generation is; the promise of a generation is shared by the requests that ask
    for its id meanwhile. *)
Inductive progress :=
| Started
| Checked (p : gen_plan)
| Rotated (p : gen_plan) (privateKey newPubKey : string) (rotated : bool)
| Moved (p : gen_plan) (privateKey newPubKey : string) (rotated : bool)
| HasStore (p : gen_plan) (privateKey newPubKey : string) (rotated : bool) (m : meta_store).

Record world := World { w_hub : hub; w_inFlight : list (string * progress) }.

(** What a step gives to the requests that wait. *)
Inductive answer := Waiting | Joined | Served (config : peer_config) | Failed (e : peer_error).

Section steps.
Variable WG_HUB_HOST : string.
Variable WG_DNS : option string.
Variable hostname : string.

(** The synchronous part of a request. *)
Definition ask (w : world) (linkId : string) (now : Z) : world * answer :=
  let '(cache, hit) := getCachedPeerConfig (hb_cache (w_hub w)) linkId now in
  let h := set_cache cache (w_hub w) in
  match hit with
  | Some config => (World h (w_inFlight w), Served config)
  | None =>
      match mget linkId (w_inFlight w) with
      | Some _ => (World h (w_inFlight w), Joined)
      | None => (World h (mset linkId Started (w_inFlight w)), Waiting)
      end
  end.

(** What the awaited calls of a generation return. *)
Record inputs := Inputs { in_status : status; in_privateKey : string; in_newPubKey : string; in_rm_ok : bool; in_add_ok : bool; in_now : Z }.

(** The next step of the generation of [linkId]. *)
Definition advance (w : world) (linkId : string) (i : inputs) : world * answer :=
  let h := w_hub w in
  let at_ g := (World h (mset linkId g (w_inFlight w)), Waiting) in
  match mget linkId (w_inFlight w) with
  | None => (w, Waiting)
  | Some Started =>
      match plan_config (in_status i) (st_agents (hb_agents h)) linkId with
      | Throw e => (World h (mdel linkId (w_inFlight w)), Failed e)
      | Ok p => at_ (Checked p)
      end
  | Some (Checked p) =>
      let '(h', rotated) := rotate_peer p (in_newPubKey i) (in_rm_ok i) (in_add_ok i) h in
      (World h' (mset linkId (Rotated p (in_privateKey i) (in_newPubKey i) rotated) (w_inFlight w)), Waiting)
  | Some (Rotated p privateKey newPubKey rotated) =>
      (World (move_link p linkId newPubKey rotated h) (mset linkId (Moved p privateKey newPubKey rotated) (w_inFlight w)), Waiting)
  | Some (Moved p privateKey newPubKey rotated) => at_ (HasStore p privateKey newPubKey rotated (read_store p rotated h))
  | Some (HasStore p privateKey newPubKey rotated m) =>
      let result := build_config WG_HUB_HOST WG_DNS hostname p linkId privateKey newPubKey rotated m in
      (World (cache_result p linkId newPubKey rotated result (in_now i) h) (mdel linkId (w_inFlight w)), Served result)
  end.

Fixpoint advances (n : nat) (w : world) (linkId : string) (i : inputs) : world * answer :=
  match n with
  | O => (w, Waiting)
  | S n =>
      match advance w linkId i with
      | (w, Waiting) => advances n w linkId i
      | r => r
      end
  end.

(** A request that nothing interleaves: the synchronous part and at most five steps. *)
Definition request (w : world) (linkId : string) (i : inputs) : world * answer :=
  match ask w linkId (in_now i) with
  | (w, Waiting) => advances 5 w linkId i
  | r => r
  end.

Definition answer_of (r : result peer_error peer_config) : answer := match r with Ok c => Served c | Throw e => Failed e end.

(** ** A request alone is [generatePeerConfig] *)

Lemma mdel_mset_none {V} (k : string) (v : V) m : mget k m = None -> mdel k (mset k v m) = m.
Proof. apply mdel_mset_fresh. Qed.

Lemma mset_mset {V} (k : string) (v w : V) m : mset k v (mset k w m) = mset k v m.
Proof.
  induction m as [|[j x] m IH]; cbn [mset]; [by rewrite decide_True|]. destruct (decide (j = k)) as [-> |Hne]; cbn [mset].
  - by rewrite decide_True.
  - by rewrite decide_False, IH by done.
Qed.

(** A request that no other handler interleaves is answered: it ends after its five steps
    with the answer and the hub of [generatePeerConfig], and leaves nothing in flight. *)
Theorem request_is_generatePeerConfig w linkId i : mget linkId (w_inFlight w) = None ->
  let '(h, r) := generatePeerConfig WG_HUB_HOST WG_DNS hostname (w_hub w) (in_status i) linkId (in_privateKey i) (in_newPubKey i)
                   (in_rm_ok i) (in_add_ok i) (in_now i) in
  request w linkId i = (World h (w_inFlight w), answer_of r).
Proof.
  intros Hf. destruct w as [h fl]. cbn [w_hub w_inFlight] in *. unfold generatePeerConfig, request, ask. cbn [w_hub w_inFlight].
  destruct (getCachedPeerConfig (hb_cache h) linkId (in_now i)) as [cache [config|]] eqn:Hc.
  - assert (set_cache cache h = h) as ->; [|done]. unfold getCachedPeerConfig in Hc. destruct (mget linkId (hb_cache h)) as [[c e]|]; [|done].
    destruct (e <=? in_now i); [done|]. injection Hc as <- _. by destruct h.
  - rewrite Hf. unfold generatePeerConfigUncached. set (h1 := set_cache cache h). cbn [advances].
    unfold advance at 1. cbn [w_hub w_inFlight]. rewrite mget_mset_eq.
    destruct (plan_config (in_status i) (st_agents (hb_agents h1)) linkId) as [p|e]; [|by rewrite mdel_mset_none].
    unfold advance at 1. cbn [w_hub w_inFlight]. rewrite mget_mset_eq, mset_mset.
    destruct (rotate_peer p (in_newPubKey i) (in_rm_ok i) (in_add_ok i) h1) as [h2 rotated].
    unfold advance at 1. cbn [w_hub w_inFlight]. rewrite mget_mset_eq, mset_mset.
    unfold advance at 1. cbn [w_hub w_inFlight]. rewrite mget_mset_eq, mset_mset.
    unfold advance at 1. cbn [w_hub w_inFlight]. rewrite mget_mset_eq, mset_mset. by rewrite mdel_mset_none.
Qed.
End steps.

(** * Repeated requests *)

Lemma getCached_later cache linkId config now now' : now' < now + PEER_CONFIG_CACHE_TTL_MS ->
  mget linkId cache = Some (config, now + PEER_CONFIG_CACHE_TTL_MS) -> getCachedPeerConfig cache linkId now' = (cache, Some config).
Proof. intros Hn Hg. unfold getCachedPeerConfig. rewrite Hg. destruct (Z.leb_spec (now + PEER_CONFIG_CACHE_TTL_MS) now'); [lia|done]. Qed.

(** For two minutes a request under the old id, and after a rotation under the new one,
    returns the same material and rotates nothing. *)
Theorem generate_again WG_HUB_HOST WG_DNS hostname h st linkId privateKey newPubKey rm_ok add_ok now h' config p :
  let generate := generatePeerConfig WG_HUB_HOST WG_DNS hostname in
  let h1 := set_cache (getCachedPeerConfig (hb_cache h) linkId now).1 h in
  (getCachedPeerConfig (hb_cache h) linkId now).2 = None ->
  plan_config st (st_agents (hb_agents h1)) linkId = Ok p ->
  generate h st linkId privateKey newPubKey rm_ok add_ok now = (h', Ok config) ->
  forall linkId' st' privateKey' newPubKey' rm_ok' add_ok' now',
    linkId' = linkId \/ ((rotate_peer p newPubKey rm_ok add_ok h1).2 = true /\ linkId' = new_link_id (gp_link p) newPubKey) ->
    now' < now + PEER_CONFIG_CACHE_TTL_MS ->
    generate h' st' linkId' privateKey' newPubKey' rm_ok' add_ok' now' = (h', Ok config).
Proof.
  cbv zeta. intros Hmiss Hp Hg linkId' st' privateKey' newPubKey' rm_ok' add_ok' now' Hid Hnow.
  unfold generatePeerConfig in Hg. destruct (getCachedPeerConfig (hb_cache h) linkId now) as [cache hit]. cbn [fst snd] in *. subst hit.
  unfold generatePeerConfigUncached in Hg. rewrite Hp in Hg. destruct (rotate_peer p newPubKey rm_ok add_ok (set_cache cache h)) as [h2 rotated].
  cbn [snd] in Hid. injection Hg as <- <-. set (c := build_config _ _ _ _ _ _ _ _ _).
  assert (mget linkId' (hb_cache (cache_result p linkId newPubKey rotated c now (move_link p linkId newPubKey rotated h2))) =
    Some (c, now + PEER_CONFIG_CACHE_TTL_MS)) as Hc.
  { generalize (move_link p linkId newPubKey rotated h2). intros h3. unfold cache_result. destruct rotated.
    - destruct h3; cbn. rewrite mget_mset. destruct (decide _) as [|Hne]; [done|].
      destruct Hid as [-> |[_ ->]]; [by rewrite mget_mset_eq|done].
    - destruct Hid as [-> |[? _]]; [|done]. destruct h3; cbn. by rewrite mget_mset_eq. }
  unfold generatePeerConfig. by rewrite (getCached_later _ _ _ _ _ Hnow Hc).
Qed.

(** * Only clients get a new key *)

Lemma plan_config_Ok st db linkId p : plan_config st db linkId = Ok p ->
  gp_status p = st /\ gp_link p ∈ st_links_of st /\ lk_id (gp_link p) = linkId /\
  let meta := default [] (mget linkId (ms_links (st_metadata st))) in
  (normalizeLinkType (type_of meta) = "client" \/ forall c, c ∈ lk_allowedIps (gp_link p) -> isHostRoute c = true) /\
  text_of "remoteManagementMode" meta <> "agent" /\
  (lk_name (gp_link p) <> "" -> forall a, a ∈ db -> ag_is_deleted a = false -> ag_wg_link_name a <> Some (lk_name (gp_link p))).
Proof.
  unfold plan_config. intros (? & _ & H)%bind_Ok. apply bind_Ok in H as (link & Hl & H).
  destruct (bfind _ _) as [l|] eqn:Hf in Hl; [injection Hl as ->|done]. apply bfind_Some in Hf as [Hin Hid%bool_decide_eq_true].
  apply bind_Ok in H as (u & Ha & [= <-]). cbn [gp_status gp_link]. cbv zeta.
  unfold assertPeerConfigAllowed in Ha. cbv zeta in Ha. apply bind_Ok in Ha as (? & _ & Ha).
  apply bind_Ok in Ha as (? & Ht%throw_if_Ok & Ha). apply bind_Ok in Ha as (? & Hm%throw_if_Ok & Ha%throw_if_Ok).
  split_and!; try done.
  - apply andb_false_iff in Ht as [Ht|Ht].
    + left. by apply negb_false_iff, bool_decide_eq_true in Ht.
    + right. intros c Hc. apply negb_false_iff. rewrite existsb_false in Ht. by apply Ht.
  - by apply bool_decide_eq_false in Hm.
  - intros Hne a Hin' Hd Hb. rewrite bool_decide_eq_true_2 in Ha by done. cbn [andb] in Ha. rewrite existsb_false in Ha.
    assert (a ∈ boundAgentRows [lk_name link] db) as Hbound by (apply elem_of_bound; rewrite Hb; cbn; split_and!; try done; left).
    specialize (Ha a Hbound). by apply bool_decide_eq_false in Ha.
Qed.

Lemma rotate_peer_frame p newPubKey rm_ok add_ok h :
  let h' := (rotate_peer p newPubKey rm_ok add_ok h).1 in
  hb_meta h' = hb_meta h /\ hb_backups h' = hb_backups h /\ hb_agents h' = hb_agents h /\ hb_cache h' = hb_cache h /\
  forall n, n <> lk_interfaceName (gp_link p) -> mget n (hb_confs h') = mget n (hb_confs h).
Proof.
  cbv zeta. unfold rotate_peer. destruct (bool_decide _); [|done]. unfold rotatePeerPublicKey. destruct (mget _ (hb_confs h)) as [text|]; [|done].
  destruct (rewriteRotatedPeer _ _ _) as [newText swapped]. destruct swapped; [|done]. cbn [negb].
  destruct rm_ok, add_ok, h; cbn; (split_and!; [done..|]); intros n Hn; by rewrite mget_mset_ne.
Qed.

(** A request for a configuration changes a file, the metadata or the live interface only
    for a link that is a client by its metadata or carries host routes only, that no agent
    manages and no live agent is bound to; and then only the file of its interface and the
    entry of its id. *)
Theorem generate_only_for_clients WG_HUB_HOST WG_DNS hostname h st linkId privateKey newPubKey rm_ok add_ok now h' r :
  generatePeerConfig WG_HUB_HOST WG_DNS hostname h st linkId privateKey newPubKey rm_ok add_ok now = (h', r) ->
  (hb_confs h' = hb_confs h /\ hb_meta h' = hb_meta h /\ hb_commands h' = hb_commands h) \/
  exists link config, r = Ok config /\ link ∈ st_links_of st /\ lk_id link = linkId /\
    let meta := default [] (mget linkId (ms_links (st_metadata st))) in
    (normalizeLinkType (type_of meta) = "client" \/ forall c, c ∈ lk_allowedIps link -> isHostRoute c = true) /\
    text_of "remoteManagementMode" meta <> "agent" /\
    (lk_name link <> "" -> forall a, a ∈ st_agents (hb_agents h) -> ag_is_deleted a = false -> ag_wg_link_name a <> Some (lk_name link)) /\
    (forall n, n <> lk_interfaceName link -> mget n (hb_confs h') = mget n (hb_confs h)) /\
    (forall id, id <> linkId -> id <> new_link_id link newPubKey -> mget id (ms_links (hb_meta h')) = mget id (ms_links (hb_meta h))) /\
    ms_interfaces (hb_meta h') = ms_interfaces (hb_meta h).
Proof.
  unfold generatePeerConfig. destruct (getCachedPeerConfig (hb_cache h) linkId now) as [cache [config|]]; [by intros [= <- <-]; left|].
  unfold generatePeerConfigUncached. destruct (plan_config st _ linkId) as [p|e] eqn:Hp; [|intros [= <- <-]; left; by destruct h].
  apply plan_config_Ok in Hp as (_ & Hin & Hid & Ht & Hm & Hb).
  pose proof (rotate_peer_frame p newPubKey rm_ok add_ok (set_cache cache h)) as Hfr. cbv zeta in Hfr.
  destruct (rotate_peer p newPubKey rm_ok add_ok (set_cache cache h)) as [h2 rotated]. cbn [fst] in Hfr.
  destruct Hfr as (Hf1 & _ & _ & _ & Hf2). intros [= <- <-]. right. eexists (gp_link p), _. split; [done|]. split; [done|]. split; [done|].
  cbv zeta. split; [done|]. split; [done|]. split; [by destruct h|].
  set (c := build_config _ _ _ _ _ _ _ _ _). 
  assert (forall h3, hb_confs (cache_result p linkId newPubKey rotated c now h3) = hb_confs h3 /\
    hb_meta (cache_result p linkId newPubKey rotated c now h3) = hb_meta h3) as Hcr by (intros h3; unfold cache_result; by destruct rotated, h3).
  rewrite !(proj1 (Hcr _)), !(proj2 (Hcr _)). unfold move_link. destruct rotated.
  - change (hb_meta (set_meta ?m h2)) with m. change (hb_confs (set_meta ?m h2)) with (hb_confs h2). rewrite Hf1.
    split; [intros n Hn; rewrite Hf2 by done; by destruct h|]. unfold move_link_meta.
    change (hb_meta (set_cache cache h)) with (hb_meta h). destruct (mget linkId (ms_links (hb_meta h))) as [e|]; [|done].
    split; [|done]. intros id H1 H2. cbn [ms_links]. rewrite mget_mdel. rewrite decide_False by done. by apply mget_mset_ne.
  - rewrite Hf1. split; [intros n Hn; rewrite Hf2 by done; by destruct h|]. by destruct h.
Qed.

(** * All interleavings *)

Section history.
Variable sha256 : string -> string.
Variable WG_HUB_HOST : string.
Variable WG_DNS : option string.
Variable hostname : string.
Variable live_peers : string -> list (string * list string).
Variable nics : list nic.

(** A request, a step of a generation in flight, or a whole handler. *)
Inductive world_step (w : world) : world -> Prop :=
| WAsk linkId now : world_step w (ask w linkId now).1
| WAdvance linkId i : world_step w (advance WG_HUB_HOST WG_DNS hostname w linkId i).1
| WHandler h' : hub_step sha256 WG_HUB_HOST WG_DNS hostname live_peers nics (w_hub w) h' -> world_step w (World h' (w_inFlight w)).

Lemma tame_ask w linkId now : tame (w_hub w) (w_hub (ask w linkId now).1).
Proof.
  unfold ask. destruct (getCachedPeerConfig _ _ _) as [cache [config|]]; [|destruct (mget _ _)]; apply tame_refl; by destruct w as [[] ?].
Qed.

Lemma tame_advance w linkId i : tame (w_hub w) (w_hub (advance WG_HUB_HOST WG_DNS hostname w linkId i).1).
Proof.
  unfold advance. destruct w as [h fl]. cbn [w_hub w_inFlight]. destruct (mget linkId fl) as [[| | | |]|]; cbn [fst w_hub]; try by apply tame_refl.
  - by destruct (plan_config _ _ _); apply tame_refl.
  - pose proof (rotate_peer_frame p (in_newPubKey i) (in_rm_ok i) (in_add_ok i) h) as Hf. cbv zeta in Hf.
    destruct (rotate_peer _ _ _ _ _) as [h' rotated]. apply tame_refl; apply Hf.
  - unfold move_link. destruct rotated; [|by apply tame_refl]. apply tame_meta, MetaMove.
  - apply tame_refl; unfold cache_result; by destruct rotated, h.
Qed.

(** C9. Whatever requests, generations and handlers interleave, the metadata goes through writes
    of the store only and the table of agents keeps its ids; from an empty store every entry
    stays sanitized, so a hub sync routes recorded networks only. *)
Theorem world_refines_meta w w' : rtc world_step w w' ->
  rtc meta_step (hb_meta (w_hub w)) (hb_meta (w_hub w')) /\ agent_ids (w_hub w') = agent_ids (w_hub w) /\
  (hb_meta (w_hub w) = empty_meta -> store_fine (hb_meta (w_hub w')) /\ meta_plain (links_of_store (hb_meta (w_hub w')))).
Proof.
  intros H. assert (tame (w_hub w) (w_hub w')) as [Hm Hi].
  { induction H as [w|w1 w2 w3 Hs _ IH]; [by apply tame_refl|]. eapply tame_trans; [|exact IH].
    destruct Hs as [linkId now|linkId i|h' Hs]; [apply tame_ask|apply tame_advance|by eapply step_tame]. }
  split; [done|]. split; [done|]. intros He. rewrite He in Hm. split; [by apply meta_history_fine|by apply reachable_plain].
Qed.
End history.

(** * Examples *)

(** The hub after a client was created, once its configuration is no longer cached. *)
Definition ex_client_request : peer_request :=
  PeerRequest (VStr "phone") (VStr "client") (VArr [VStr "1.1.1.1"]) VUndef VUndef (VArr []) "wg0".
Definition ex_client_hub : hub := Eval vm_compute in set_cache []
  (createPeer ex_sha "hub.example" None "hub" (fun _ => []) ex_nics ex_hub ex_peer_status ex_client_request "PRIV=" "CCC=" true 5).1.

Definition ex_cache_host (key : string) : host_view :=
  HostView (print_dump [DumpedIface "wg0" "priv" "HUB=" 51820 "off"
     [DumpedPeer "AAA=" "(none)" "198.51.100.4:51820" ["10.10.0.2/32"; "192.168.1.0/24"] 0 0 0 "off";
      DumpedPeer key "(none)" "(none)" ["10.10.0.3/32"] 0 0 0 "off"]])
    ["wg0"] (fun _ => WgConf.ex_conf) (fun _ => (0, 0)) None true.
Definition ex_cache_status (key : string) (m : meta_store) : status := live_status 0 "wg" "ip" (ex_cache_host key) m.

Definition ex_world : world := World ex_client_hub [].
Definition ex_inputs (st : status) (privateKey newPubKey : string) : inputs := Inputs st privateKey newPubKey true true 1000.
Notation ex_request := (request "hub.example" None "hub").
Notation ex_advance := (advance "hub.example" None "hub").
Definition ex_first : inputs := Eval vm_compute in ex_inputs (ex_cache_status "CCC=" (hb_meta ex_client_hub)) "PRIV2=" "DDD=".

Definition ex_served : world := Eval vm_compute in (ex_request ex_world "wg0:CCC=" ex_first).1.
Definition ex_config : peer_config := Eval vm_compute in
  match (ex_request ex_world "wg0:CCC=" ex_first).2 with Served c => c | _ => PeerConfig (ClientConfig "" "") "" end.

Lemma ex_generate_eq : generatePeerConfig "hub.example" None "hub" ex_client_hub (in_status ex_first) "wg0:CCC=" "PRIV2=" "DDD=" true true 1000 =
  (w_hub ex_served, Ok ex_config).
Proof. vm_compute. reflexivity. Qed.

Lemma request_is_generatePeerConfig_witness : ex_request ex_world "wg0:CCC=" ex_first = (ex_served, Served ex_config).
Proof.
  pose proof (request_is_generatePeerConfig "hub.example" None "hub" ex_world "wg0:CCC=" ex_first eq_refl) as H.
  change (w_hub ex_world) with ex_client_hub in H. change (in_privateKey ex_first) with "PRIV2=" in H. change (in_newPubKey ex_first) with "DDD=" in H.
  change (in_rm_ok ex_first) with true in H. change (in_add_ok ex_first) with true in H. change (in_now ex_first) with 1000 in H.
  rewrite ex_generate_eq in H. exact H.
Defined.

Lemma generate_again_witness : generatePeerConfig "hub.example" None "hub" (w_hub ex_served) (in_status ex_first) "wg0:DDD=" "PRIV3=" "EEE=" true true 120999 =
  (w_hub ex_served, Ok ex_config).
Proof.
  destruct (plan_config (in_status ex_first) (st_agents (hb_agents (set_cache [] ex_client_hub))) "wg0:CCC=") as [p|] eqn:Hp; [|vm_compute in Hp; discriminate Hp].
  apply (generate_again "hub.example" None "hub" ex_client_hub (in_status ex_first) "wg0:CCC=" "PRIV2=" "DDD=" true true 1000 _ ex_config p eq_refl Hp ex_generate_eq);
    [right|reflexivity].
  vm_compute in Hp. injection Hp as <-. split; vm_compute; reflexivity.
Defined.

Lemma generate_only_for_clients_witness : hb_confs (w_hub ex_served) <> hb_confs ex_client_hub /\
  exists link, link ∈ st_links_of (in_status ex_first) /\ lk_id link = "wg0:CCC=".
Proof.
  assert (hb_confs (w_hub ex_served) <> hb_confs ex_client_hub) as Hne by (vm_compute; discriminate). split; [exact Hne|].
  destruct (generate_only_for_clients "hub.example" None "hub" _ _ _ _ _ _ _ _ _ _ ex_generate_eq) as [[He _]|(link & c & _ & Hin & Hid & _)].
  - exfalso. exact (Hne He).
  - exists link. split; [exact Hin|exact Hid].
Defined.

Lemma world_refines_meta_witness : exists w', (w_hub w') = w_hub ex_served /\ rtc meta_step (hb_meta (w_hub ex_world)) (hb_meta (w_hub w')).
Proof.
  exists ex_served. split; [reflexivity|].
  apply (world_refines_meta ex_sha "hub.example" None "hub" (fun _ => []) ex_nics ex_world ex_served).
  pose (w1 := (ask ex_world "wg0:CCC=" 1000).1). pose (w2 := (ex_advance w1 "wg0:CCC=" ex_first).1). pose (w3 := (ex_advance w2 "wg0:CCC=" ex_first).1).
  pose (w4 := (ex_advance w3 "wg0:CCC=" ex_first).1). pose (w5 := (ex_advance w4 "wg0:CCC=" ex_first).1).
  assert ((ex_advance w5 "wg0:CCC=" ex_first).1 = ex_served) as <- by (vm_compute; reflexivity).
  apply (rtc_l _ _ w1); [apply WAsk|]. apply (rtc_l _ _ w2); [apply WAdvance|]. apply (rtc_l _ _ w3); [apply WAdvance|].
  apply (rtc_l _ _ w4); [apply WAdvance|]. apply (rtc_l _ _ w5); [apply WAdvance|]. apply rtc_once, WAdvance.
Defined.

(** * What a generation in flight can leave behind *)

(** The first generation up to the point where it has read the store. *)
Definition ex_in_flight : world := Eval vm_compute in
  let w := (ask ex_world "wg0:CCC=" 1000).1 in
  let step w := (ex_advance w "wg0:CCC=" ex_first).1 in step (step (step (step w))).

Definition ex_new_dns : jsval := VObj [("dns", VArr [VStr "9.9.9.9"])].

(** The DNS servers change meanwhile: the update clears the cache, then the generation ends. *)
Definition ex_updated : hub := Eval vm_compute in
  let st := ex_cache_status "DDD=" (hb_meta (w_hub ex_in_flight)) in
  (updatePeer ex_sha "hub.example" (fun _ => []) ex_nics (w_hub ex_in_flight) st st "wg0:DDD=" ex_new_dns 7 []).1.
Definition ex_stale : world := Eval vm_compute in (ex_advance (World ex_updated (w_inFlight ex_in_flight)) "wg0:CCC=" ex_first).1.

(** A configuration built before an update is cached after the update cleared the cache: for
    two minutes the old DNS server is served, though the entry has the new one. *)
Lemma cleared_cache_is_refilled_stale :
  hb_cache ex_updated = [] /\
  list_of "dns" (default [] (mget "wg0:DDD=" (ms_links (hb_meta (w_hub ex_stale))))) = ["9.9.9.9"] /\
  exists c, (ask ex_stale "wg0:DDD=" 2000).2 = Served c /\ includes "DNS = 1.1.1.1" (cc_content (pf_config c)) = true.
Proof. split; [reflexivity|]. split; [reflexivity|]. eexists. split; vm_compute; reflexivity. Qed.

(** A second request under the new id, between the move of the entry and the end of the
    first generation, is neither cached nor in flight and rotates again. *)
Definition ex_second : inputs := Eval vm_compute in
  ex_inputs (ex_cache_status "DDD=" (hb_meta (w_hub ex_in_flight))) "PRIV3=" "EEE=".
Definition ex_both : world := Eval vm_compute in (ex_request ex_in_flight "wg0:DDD=" ex_second).1.
Definition ex_dead : world * answer := Eval vm_compute in ex_advance ex_both "wg0:CCC=" ex_first.

(** The first requester then gets a configuration whose key the hub no longer has, and this
    configuration is served again for both ids. *)
Lemma overlapping_ids_serve_a_dead_key : exists c,
  ex_dead.2 = Served c /\ pf_publicKey c = "DDD=" /\
  mget "DDD=" (parsePeersFromConf (split_lines (conf_of (w_hub ex_dead.1) "wg0"))) = None /\
  mget "EEE=" (parsePeersFromConf (split_lines (conf_of (w_hub ex_dead.1) "wg0"))) = Some ["10.10.0.3/32"] /\
  (ask ex_dead.1 "wg0:DDD=" 2000).2 = Served c /\ (ask ex_dead.1 "wg0:CCC=" 2000).2 = Served c.
Proof. eexists. split; [reflexivity|]. split; [reflexivity|]. split; [vm_compute; reflexivity|]. split; [vm_compute; reflexivity|]. split; vm_compute; reflexivity. Qed.
