(* ===== verification/IpRange.v ===== *)
(** Address ranges as networks: the arbitrary-width part of
    [backend/internal/geo-filter.js] ([v4ToBig], [v6ToBig], [bigToV4], [bigToV6],
    [bigRangeToCidrs]).

    A range is cut greedily into aligned blocks. The theorems say that the cutting ends, that
    the blocks are exactly the range, and that no list of blocks with this union is shorter. *)

From S2P Require Import Prelude.
From S2P Require Import JsString.
From S2P Require Import JsVal.
From S2P Require Import ConfText.
From S2P Require Import Cidr.

Local Open Scope Z_scope.

(** * Numbers *)

(** What the conversions throw: a SyntaxError of [BigInt], the RangeError of [Array(n)], the
    messages of the file. *)
Inductive geo_error :=
| NotANumber
| BadLength
| BadIpv6
| MixedFamilies
| ReversedRange
| BadNetwork.
#[export] Instance geo_error_eq_dec : EqDecision geo_error.
Proof. solve_decision. Defined.

(** [BigInt(s)]: surrounding white space, a sign before decimal digits, the prefixes of the
    other bases; the empty text is zero. *)
Fixpoint radix_go (base a : Z) (s : string) : option Z :=
  match s with
  | "" => Some a
  | String c r => match hex_value c with Some d => if d <? base then radix_go base (a * base + d) r else None | None => None end
  end.

Definition big_digits (base : Z) (s : string) : result geo_error Z :=
  match s with "" => Throw NotANumber | _ => match radix_go base 0 s with Some n => Ok n | None => Throw NotANumber end end.

Definition big_int (s : string) : result geo_error Z :=
  match trim s with
  | "" => Ok 0
  | String "0" (String x r) =>
      if one_of ["x"; "X"]%char x then big_digits 16 r
      else if one_of ["o"; "O"]%char x then big_digits 8 r
      else if one_of ["b"; "B"]%char x then big_digits 2 r
      else big_digits 10 (String "0" (String x r))
  | String "-" r => Z.opp <$> big_digits 10 r
  | String "+" r => big_digits 10 r
  | t => big_digits 10 t
  end.

(** [n.toString(16)] *)
Definition hex_char (d : Z) : ascii := if d <? 10 then digit_char d else chr (87 + d).

Fixpoint hex_show_go (fuel : nat) (n : Z) (acc : string) : string :=
  match fuel with
  | O => acc
  | S f => let acc := String (hex_char (n mod 16)) acc in if n <? 16 then acc else hex_show_go f (n / 16) acc
  end.
Definition hex_show (n : Z) : string := hex_show_go (S (Z.to_nat (Z.log2 n))) n "".

(** * Addresses *)

Definition v4ToBig (a : string) : result geo_error Z :=
  foldM (fun n o => o ← big_int o; Ok (Z.shiftl n 8 + o)) 0 (split_char "." a).

(** [a.split("::")] *)
Fixpoint split_colons (s : string) : list string :=
  match s with
  | "" => [""]
  | String c r =>
      match c, r with
      | ":"%char, String ":" r' => "" :: split_colons r'
      | _, _ => match split_colons r with x :: xs => String c x :: xs | [] => [String c ""] end
      end
  end.

Definition groups_of (s : string) : list string := if decide (s = "") then [] else split_char ":" s.

Definition v6_groups (a : string) : result geo_error (list string) :=
  match split_colons a with
  | head :: tail :: _ =>
      let h := groups_of head in
      let t := groups_of tail in
      throw_if (bool_decide (8 < length h + length t)%nat) BadLength;;
      Ok (h ++ replicate (8 - length h - length t) "0" ++ t)
  | _ => Ok (groups_of a)
  end.

Definition v6ToBig (a : string) : result geo_error Z :=
  groups ← v6_groups a;
  throw_if (negb (bool_decide (length groups = 8%nat))) BadIpv6;;
  foldM (fun n g => g ← big_int ("0x" +:+ (if decide (g = "") then "0" else g)); Ok (Z.shiftl n 16 + g)) 0 groups.

Definition bigToV4 (n : Z) : string := join "." ((fun s => showZ (Z.land (Z.shiftr n s) 255)) <$> [24; 16; 8; 0]).

Definition hextets (n : Z) : list Z := (fun s => Z.land (Z.shiftr n s) 65535) <$> [112; 96; 80; 64; 48; 32; 16; 0].

Fixpoint zero_run (l : list string) : nat :=
  match l with g :: r => if decide (g = "0") then S (zero_run r) else O | [] => O end.

(** The loop for the longest run of zero groups: where it begins and its length. *)
Fixpoint best_run (fuel i : nat) (l : list string) (best : option (nat * nat)) : option (nat * nat) :=
  match fuel, l with
  | S fuel, g :: r =>
      if decide (g = "0") then
        let k := zero_run l in
        let known := match best with Some b => b.2 | None => O end in
        best_run fuel (i + k) (drop k l) (if bool_decide (known < k)%nat && bool_decide (1 < k)%nat then Some (i, k) else best)
      else best_run fuel (S i) r best
  | _, _ => best
  end.

Definition shorten (groups : list string) : string :=
  match best_run (length groups) 0 groups None with
  | None => join ":" groups
  | Some (i, k) => join ":" (take i groups) +:+ "::" +:+ join ":" (drop (i + k) groups)
  end.

Definition bigToV6 (n : Z) : string := shorten (hex_show <$> hextets n).

(** * Ranges *)

(** A block: its first address and the number of its free bits. *)
Definition block : Type := Z * Z.

(** The inner loop: the block at [lo] doubles while it stays aligned and inside the range. *)
Fixpoint grow (fuel : nat) (bits lo hi size : Z) : Z :=
  match fuel with
  | O => size
  | S fuel =>
      if (size <? bits) && (Z.land lo (Z.shiftl 1 (size + 1) - 1) =? 0) && (lo + Z.shiftl 1 (size + 1) - 1 <=? hi)
      then grow fuel bits lo hi (size + 1) else size
  end.

(** The outer loop; [None] when the fuel is spent, which [blocks_end] excludes. *)
Fixpoint blocks (fuel : nat) (bits lo hi : Z) : option (list block) :=
  if lo <=? hi then
    match fuel with
    | O => None
    | S fuel =>
        let size := grow (Z.to_nat bits) bits lo hi 0 in
        cons (lo, size) <$> blocks fuel bits (lo + Z.shiftl 1 size) hi
    end
  else Some [].

Definition blocks_fuel (bits lo hi : Z) : nat := S (S (2 * Z.to_nat bits)) + Z.to_nat ((hi - lo) / 2 ^ bits).
Definition range_blocks (bits lo hi : Z) : list block := default [] (blocks (blocks_fuel bits lo hi) bits lo hi).

Definition bits_of (v6 : bool) : Z := if v6 then 128 else 32.
Definition show_block (v6 : bool) (b : block) : string :=
  (if v6 then bigToV6 b.1 else bigToV4 b.1) +:+ "/" +:+ showZ (bits_of v6 - b.2).

Definition bigRangeToCidrs (start hi : Z) (v6 : bool) : list string := show_block v6 <$> range_blocks (bits_of v6) start hi.

Definition to_big (v6 : bool) (a : string) : result geo_error Z := if v6 then v6ToBig a else v4ToBig a.

Definition rangeToCidrs (start end_ : string) : result geo_error (list string) :=
  let v6 := has_char ":" start in
  throw_if (negb (Bool.eqb v6 (has_char ":" end_))) MixedFamilies;;
  lo ← to_big v6 start;
  hi ← to_big v6 end_;
  Ok (bigRangeToCidrs lo hi v6).

(** * What a block is *)

Definition in_block (x : Z) (b : block) : Prop := b.1 <= x < b.1 + 2 ^ b.2.
Definition aligned (bits : Z) (b : block) : Prop := 0 <= b.2 <= bits /\ (2 ^ b.2 | b.1).

(** Some block of the list has the address. *)
Definition in_blocks (x : Z) (l : list block) : Prop := exists b, b ∈ l /\ in_block x b.

(** Two aligned blocks with a common address are nested. *)
Lemma blocks_nested bits a b x : aligned bits a -> aligned bits b -> in_block x a -> in_block x b -> a.2 <= b.2 ->
  forall y, in_block y a -> in_block y b.
Proof.
  destruct a as [a s], b as [b t]. unfold aligned, in_block. cbn. intros [Hs [k ->]] [Ht [m ->]] Hx Hx' Hle y Hy.
  assert (0 < 2 ^ s) as Hp by (apply Z.pow_pos_nonneg; lia).
  assert (2 ^ t = 2 ^ (t - s) * 2 ^ s) as He by (rewrite <- Z.pow_add_r by lia; f_equal; lia).
  rewrite He in *. assert (0 < 2 ^ (t - s)) as Hq by (apply Z.pow_pos_nonneg; lia).
  generalize dependent (2 ^ (t - s)). generalize dependent (2 ^ s). intros P Hx Hy HP Q Hx' _ HQ.
  assert (m * Q < k + 1) as H1 by (apply (Z.mul_lt_mono_pos_r P); lia).
  assert (k < m * Q + Q) as H2 by (apply (Z.mul_lt_mono_pos_r P); lia).
  assert (m * Q * P <= k * P) by (apply Z.mul_le_mono_pos_r; lia).
  assert ((k + 1) * P <= (m * Q + Q) * P) by (apply Z.mul_le_mono_pos_r; lia). lia.
Qed.

(** * The inner loop *)

Lemma land_ones_divide lo s : 0 <= s -> (Z.land lo (Z.shiftl 1 s - 1) =? 0) = true <-> (2 ^ s | lo).
Proof.
  intros Hs. rewrite Z.shiftl_1_l. replace (2 ^ s - 1) with (Z.ones s) by (rewrite Z.ones_equiv; lia).
  rewrite Z.land_ones, Z.eqb_eq by done. rewrite Z.mod_divide by (apply Z.pow_nonzero; lia). done.
Qed.

(** Why the loop stops at [s]. *)
Definition blocked (bits lo hi s : Z) : Prop := s = bits \/ ~ (2 ^ (s + 1) | lo) \/ hi < lo + 2 ^ (s + 1) - 1.

Lemma grow_spec fuel bits lo hi s : 0 <= s <= bits -> bits - s <= Z.of_nat fuel -> (2 ^ s | lo) -> lo + 2 ^ s - 1 <= hi ->
  let r := grow fuel bits lo hi s in
  s <= r <= bits /\ (2 ^ r | lo) /\ lo + 2 ^ r - 1 <= hi /\ blocked bits lo hi r.
Proof.
  cbv zeta. revert s. induction fuel as [|fuel IH]; intros s Hs Hf Hd Hh; cbn [grow].
  { split_and!; [lia..|done|done|]. left. lia. }
  destruct (Z.ltb_spec s bits) as [Hlt|]; cbn [andb]; [|split_and!; [lia..|done|done|]; left; lia].
  pose proof (land_ones_divide lo (s + 1) ltac:(lia)) as Hl.
  destruct (_ =? 0); cbn [andb].
  - rewrite Z.shiftl_1_l. destruct (Z.leb_spec (lo + 2 ^ (s + 1) - 1) hi).
    + destruct (IH (s + 1)) as (? & ? & ? & ?); [lia|lia|by apply Hl|done|]. split_and!; [lia..|done|done|done].
    + split_and!; [lia..|done|done|]. right; right. lia.
  - split_and!; [lia..|done|done|]. right; left. intros Hn. apply Hl in Hn. done.
Qed.

(** The block the outer loop takes at [lo]. *)
Lemma first_block bits lo hi : 0 <= bits -> lo <= hi ->
  let r := grow (Z.to_nat bits) bits lo hi 0 in
  0 <= r <= bits /\ (2 ^ r | lo) /\ lo + 2 ^ r - 1 <= hi /\ blocked bits lo hi r.
Proof. intros Hb Hl. apply grow_spec; [lia|lia|apply Z.divide_1_l|cbn; lia]. Qed.

Section range.
Variable bits : Z.
Hypothesis Hbits : 0 <= bits.

(** * The outer loop ends *)

(** Once the end of the range has stopped a block, every further block is smaller. *)
Lemma tail_ends fuel lo hi s : 0 <= s <= bits -> (2 ^ s | lo) -> hi - lo + 1 < 2 ^ s -> s <= Z.of_nat fuel ->
  exists l, blocks fuel bits lo hi = Some l.
Proof.
  revert lo s. induction fuel as [|fuel IH]; intros lo s Hs Hd Hr Hf; cbn [blocks]; destruct (Z.leb_spec lo hi) as [Hle|]; try by eexists.
  { replace s with 0 in Hr by lia. lia. }
  destruct (first_block bits lo hi Hbits Hle) as (Hb & Hd' & Hin & Hblk). set (r := grow _ _ _ _ _) in *.
  assert (r < s) as Hrs. { apply Z.nle_gt. intros Hge. pose proof (Z.pow_le_mono_r 2 s r). lia. }
  destruct Hblk as [->|[Hn|Hhi]]; [lia| |].
  { destruct Hn. eapply Z.divide_trans; [|exact Hd]. exists (2 ^ (s - (r + 1))). rewrite <- Z.pow_add_r by lia. f_equal. lia. }
  rewrite Z.shiftl_1_l. destruct (IH (lo + 2 ^ r) r) as [l Hl]; [lia|by apply Z.divide_add_r, Z.divide_refl| |lia|rewrite Hl; by eexists].
  rewrite Z.pow_add_r in Hhi by lia. lia.
Qed.

(** Two to the [r] divides [lo] exactly: behind the block [lo] is aligned to more. *)
Lemma next_aligned lo r : 0 <= r -> (2 ^ r | lo) -> ~ (2 ^ (r + 1) | lo) -> (2 ^ (r + 1) | lo + 2 ^ r).
Proof.
  intros Hr [k ->] Hn. rewrite Z.pow_add_r in * by lia. destruct (Z.Even_or_Odd k) as [[m ->]|[m ->]].
  - destruct Hn. exists m. lia.
  - exists (m + 1). lia.
Qed.

Lemma head_ends fuel lo hi a : 0 <= a <= bits -> (2 ^ a | lo) -> lo <= hi + 1 ->
  bits - a + (hi - lo + 1) / 2 ^ bits + bits + 1 <= Z.of_nat fuel -> exists l, blocks fuel bits lo hi = Some l.
Proof.
  assert (0 < 2 ^ bits) as Hp by (apply Z.pow_pos_nonneg; lia).
  revert lo a. induction fuel as [|fuel IH]; intros lo a Ha Hd Hlo Hf; cbn [blocks]; destruct (Z.leb_spec lo hi) as [Hle|]; try by eexists.
  { pose proof (Z.div_pos (hi - lo + 1) (2 ^ bits)). lia. }
  destruct (first_block bits lo hi Hbits Hle) as (Hb & Hd' & Hin & Hblk). set (r := grow _ _ _ _ _) in *. rewrite Z.shiftl_1_l.
  assert (0 < 2 ^ r) as Hpr by (apply Z.pow_pos_nonneg; lia).
  assert (forall l, exists l', cons (lo, r) <$> Some l = Some l') as Hsome by (intros; by eexists).
  destruct (decide (r = bits)) as [Heq|Hne].
  - replace (hi - lo + 1) with (hi - (lo + 2 ^ r) + 1 + 1 * 2 ^ r) in Hf by lia. rewrite Heq, Z.div_add, <- Heq in Hf by lia.
    destruct (IH (lo + 2 ^ r) r) as [l ->]; [lia|by apply Z.divide_add_r, Z.divide_refl|lia|rewrite <- Heq; lia|done].
  - destruct Hblk as [?|[Hn|Hhi]]; [done| |].
    + assert (a <= r) as Har.
      { apply Z.nlt_ge. intros Hlt. destruct Hn. eapply Z.divide_trans; [|exact Hd]. exists (2 ^ (a - (r + 1))).
        rewrite <- Z.pow_add_r by lia. f_equal. lia. }
      pose proof (Z.div_le_mono (hi - (lo + 2 ^ r) + 1) (hi - lo + 1) (2 ^ bits) Hp ltac:(lia)).
      destruct (IH (lo + 2 ^ r) (r + 1)) as [l ->]; [lia|apply next_aligned; [lia|done|done]|lia|lia|done].
    + pose proof (Z.div_pos (hi - lo + 1) (2 ^ bits)).
      destruct (tail_ends fuel (lo + 2 ^ r) hi r) as [l ->]; [lia|by apply Z.divide_add_r, Z.divide_refl| |lia|done].
      rewrite Z.pow_add_r in Hhi by lia. lia.
Qed.

Lemma range_blocks_Some lo hi : exists l, blocks (blocks_fuel bits lo hi) bits lo hi = Some l /\ range_blocks bits lo hi = l.
Proof.
  assert (exists l, blocks (blocks_fuel bits lo hi) bits lo hi = Some l) as [l Hl].
  { destruct (Z.le_gt_cases lo hi) as [Hle|Hgt].
    - apply (head_ends _ lo hi 0); [lia|apply Z.divide_1_l|lia|]. unfold blocks_fuel.
      assert (0 < 2 ^ bits) as Hp by (apply Z.pow_pos_nonneg; lia).
      pose proof (Z.div_le_mono (hi - lo + 1) (hi - lo + 1 * 2 ^ bits) (2 ^ bits) Hp ltac:(lia)) as Hm.
      rewrite Z.div_add in Hm by lia. pose proof (Z.div_pos (hi - lo) (2 ^ bits)). lia.
    - unfold blocks_fuel. cbn [blocks Nat.add]. destruct (Z.leb_spec lo hi); [lia|]. by eexists. }
  exists l. split; [done|]. unfold range_blocks. by rewrite Hl.
Qed.

(** * The blocks are the range *)

(** Every block lies behind the one before it. *)
Definition behind (a b : block) : Prop := a.1 + 2 ^ a.2 <= b.1.

Lemma blocks_exact fuel lo hi l : blocks fuel bits lo hi = Some l ->
  Forall (aligned bits) l /\ (forall x, in_blocks x l <-> lo <= x <= hi) /\ StronglySorted behind l /\ Forall (fun b => lo <= b.1) l.
Proof.
  revert lo l. induction fuel as [|fuel IH]; intros lo l; cbn [blocks]; destruct (Z.leb_spec lo hi) as [Hle|Hgt].
  1: done. 1,3: intros [= <-]; split_and!; [constructor| |constructor..]; intros x; split; [by intros (? & ?%elem_of_nil & _)|lia].
  destruct (first_block bits lo hi Hbits Hle) as (Hb & Hd & Hin & _). set (r := grow _ _ _ _ _) in *. rewrite Z.shiftl_1_l.
  destruct (blocks fuel bits (lo + 2 ^ r) hi) as [k|] eqn:Hk; [|done]. intros [= <-].
  destruct (IH _ _ Hk) as (Hal & Hex & Hs & Hlo). assert (0 < 2 ^ r) as Hp by (apply Z.pow_pos_nonneg; lia). split_and!.
  - constructor; [by split|done].
  - intros x. split.
    + intros (b & [->|Hbk]%elem_of_cons & Hx); [unfold in_block in Hx; cbn in Hx; lia|].
      assert (lo + 2 ^ r <= x <= hi) by (apply Hex; by exists b). lia.
    + intros Hx. destruct (Z.lt_ge_cases x (lo + 2 ^ r)).
      * exists (lo, r). split; [by left|]. unfold in_block. cbn. lia.
      * destruct (proj2 (Hex x)) as (b & Hbk & Hxb); [lia|]. exists b. split; [by right|done].
  - constructor; [done|]. done.
  - constructor; [cbn; lia|]. eapply Forall_impl; [exact Hlo|]. cbn. lia.
Qed.

(** * No list of blocks is shorter *)

Lemma bfilter_shorter {A} (p : A -> bool) l x : x ∈ l -> p x = false -> (length (bfilter p l) < length l)%nat.
Proof.
  unfold bfilter. induction l as [|y l IH]; [by intros ?%elem_of_nil|]. intros [->|Hx]%elem_of_cons Hp; cbn.
  - rewrite Hp. pose proof (List.filter_length_le p l). lia.
  - specialize (IH Hx Hp). destruct (p y); cbn; lia.
Qed.

Lemma block_start b : 0 <= b.2 -> in_block b.1 b.
Proof. intros Hb. unfold in_block. pose proof (Z.pow_pos_nonneg 2 b.2 ltac:(lia) Hb). lia. Qed.

Lemma blocks_minimal fuel lo hi l k : blocks fuel bits lo hi = Some l -> Forall (aligned bits) k ->
  (forall x, in_blocks x k <-> lo <= x <= hi) -> (length l <= length k)%nat.
Proof.
  revert lo l k. induction fuel as [|fuel IH]; intros lo l k; cbn [blocks]; destruct (Z.leb_spec lo hi) as [Hle|Hgt].
  1: done. 1,3: intros [= <-] _ _; cbn; lia.
  destruct (first_block bits lo hi Hbits Hle) as (Hb & Hd & Hin & Hblk). set (r := grow _ _ _ _ _) in *. rewrite Z.shiftl_1_l.
  destruct (blocks fuel bits (lo + 2 ^ r) hi) as [l'|] eqn:Hl; [|done]. intros [= <-] Hal Hex. cbn [length].
  assert (0 < 2 ^ r) as Hp by (apply Z.pow_pos_nonneg; lia). rewrite Forall_forall in Hal.
  (* a block of [k] is behind the first block or inside it *)
  assert (forall b x, b ∈ k -> in_block x b -> b.1 < lo + 2 ^ r -> lo <= x < lo + 2 ^ r) as Hinside.
  { intros b x Hbk Hx Hlt. pose proof (Hal _ Hbk) as [Hb2 Hdb]. assert (aligned bits (lo, r)) as Hal0 by (by split).
    assert (forall y, in_block y b -> lo <= y <= hi) as Hsub by (intros y Hy; apply Hex; by exists b).
    pose proof (block_start b ltac:(lia)) as Hst. pose proof (Hsub _ Hst).
    destruct (Z.le_gt_cases b.2 r) as [Hbr|Hbr].
    { apply (blocks_nested bits b (lo, r) b.1); [by split|done|done|unfold in_block; cbn; lia|done|done]. }
    exfalso. assert (b.1 = lo) as Hb1.
    { assert (in_block lo b) as Hlo; [|unfold in_block in Hlo; lia].
      apply (blocks_nested bits (lo, r) b b.1); [done|by split|unfold in_block; cbn; lia|done|cbn; lia|]. unfold in_block. cbn. lia. }
    assert (2 ^ (r + 1) <= 2 ^ b.2) as Hpow by (apply Z.pow_le_mono_r; lia). destruct Hblk as [?|[Hn|Hhi]]; [lia| |].
    - destruct Hn. rewrite <- Hb1. eapply Z.divide_trans; [|exact Hdb]. exists (2 ^ (b.2 - (r + 1))). rewrite <- Z.pow_add_r by lia. f_equal. lia.
    - assert (in_block (lo + 2 ^ b.2 - 1) b) as He%Hsub; [|lia]. unfold in_block. lia. }
  set (k' := bfilter (fun b => lo + 2 ^ r <=? b.1) k).
  assert (length l' <= length k')%nat as Hlen.
  { apply (IH _ _ k' Hl).
    - apply Forall_forall. intros b [Hbk _]%elem_of_bfilter. by apply Hal.
    - intros x. split.
      + intros (b & [Hbk Hge%Z.leb_le]%elem_of_bfilter & Hx). split; [unfold in_block in Hx; lia|]. apply Hex. by exists b.
      + intros Hx. destruct (proj2 (Hex x)) as (b & Hbk & Hxb); [lia|]. exists b. split; [|done]. apply elem_of_bfilter. split; [done|].
        apply Z.leb_le, Z.nlt_ge. intros Hlt. pose proof (Hinside b x Hbk Hxb Hlt). lia. }
  destruct (proj2 (Hex lo)) as (b & Hbk & Hxb); [lia|].
  pose proof (bfilter_shorter (fun b => lo + 2 ^ r <=? b.1) k b Hbk) as Hs. fold k' in Hs.
  assert ((length k' < length k)%nat); [|lia]. apply Hs. apply Z.leb_gt. unfold in_block in Hxb. lia.
Qed.
End range.

(** * The texts are read back *)

(** The network a text names: the address and the prefix length. *)
Definition read_block (s : string) : option (bool * block) :=
  match split_char "/" s with
  | [a; p] =>
      let v6 := has_char ":" a in
      match to_big v6 a with
      | Ok n => if sall is_digit p && nonempty p then Some (v6, (n, bits_of v6 - num_of_digits p)) else None
      | Throw _ => None
      end
  | _ => None
  end.

Definition is_address (v6 : bool) (n : Z) : Prop := 0 <= n < 2 ^ bits_of v6.

(** ** IPv4 *)

Definition octet_ok (o : Z) : bool := bool_decide (big_int (showZ o) = Ok o).

Lemma big_int_octet o : 0 <= o < 256 -> big_int (showZ o) = Ok o.
Proof.
  intros Ho. assert (octet_ok o = true) as H by (apply (forall_range 256); [vm_compute; reflexivity|exact Ho]).
  by apply bool_decide_eq_true in H.
Qed.

Lemma land_255 n : Z.land n 255 = n mod 256.
Proof. change 255 with (Z.ones 8). by rewrite Z.land_ones. Qed.

Lemma bigToV4_eq n : bigToV4 n = join "." [showZ (n / 2 ^ 24 mod 256); showZ (n / 2 ^ 16 mod 256); showZ (n / 2 ^ 8 mod 256); showZ (n mod 256)].
Proof. unfold bigToV4. cbn [fmap list_fmap]. by rewrite !land_255, !Z.shiftr_div_pow2, Z.div_1_r by done. Qed.

Lemma bigToV4_intToIp n : is_address false n -> bigToV4 n = intToIp n.
Proof. intros Hn. rewrite bigToV4_eq. symmetry. by apply intToIp_eq. Qed.

Lemma v4_back n : is_address false n -> v4ToBig (bigToV4 n) = Ok n.
Proof.
  intros Hn. rewrite bigToV4_intToIp by done. destruct (intToIp_octets n Hn) as (a & b & c & d & Ha & Hb & Hc & Hd & -> & ->).
  unfold v4ToBig. rewrite split_intToIp by lia. cbn [foldM]. rewrite !big_int_octet by done. cbn.
  f_equal. rewrite !Z.shiftl_mul_pow2 by done. lia.
Qed.

(** ** IPv6 *)

Definition is_hex (c : ascii) : bool := is_digit c || in_range "a" "f" c.

Definition group_text (g : string) : Prop := g <> "" /\ sall is_hex g = true /\ (String.length g <= 4)%nat.

Definition hex_char_ok (d : Z) : bool := is_hex (hex_char d) && bool_decide (hex_value (hex_char d) = Some d).

Lemma hex_char_spec d : 0 <= d < 16 -> is_hex (hex_char d) = true /\ hex_value (hex_char d) = Some d.
Proof.
  intros Hd. assert (hex_char_ok d = true) as H by (apply (forall_range 16); [vm_compute; reflexivity|exact Hd]).
  apply andb_true_iff in H as [? H%bool_decide_eq_true]. done.
Qed.

Lemma hex_show_go_S f n acc : hex_show_go (S f) n acc =
  if n <? 16 then String (hex_char (n mod 16)) acc else hex_show_go f (n / 16) (String (hex_char (n mod 16)) acc).
Proof. done. Qed.

Lemma hex_show_go_app f n acc : hex_show_go f n acc = hex_show_go f n "" +:+ acc.
Proof.
  revert n acc. induction f as [|f IH]; intros n acc; cbn [hex_show_go]; [done|].
  case_match; [done|]. rewrite IH. rewrite (IH _ (String _ "")). by rewrite sapp_assoc.
Qed.

Lemma radix_go_app base a s t : radix_go base a (s +:+ t) = (b ← radix_go base a s; radix_go base b t).
Proof.
  revert a. induction s as [|c s IH]; intros a; [done|]. rewrite sapp_String. cbn [radix_go].
  destruct (hex_value c) as [d|]; [|done]. destruct (d <? base); [apply IH|done].
Qed.

Lemma hex_show_go_spec f n k : (0 < k)%nat -> 0 <= n < 16 ^ Z.of_nat k -> n < 2 ^ Z.of_nat (S f) ->
  let s := hex_show_go (S f) n "" in
  s <> "" /\ sall is_hex s = true /\ (String.length s <= k)%nat /\ forall a, exists p, 0 <= p /\ radix_go 16 a s = Some (a * p + n).
Proof.
  cbv zeta. revert n k. induction f as [|f IH]; intros n k Hk Hn Hf; rewrite hex_show_go_S;
    (destruct (hex_char_spec (n mod 16)) as [Hh Hv]; [by apply Z.mod_pos_bound|]); destruct (Z.ltb_spec n 16) as [Hlt|Hge].
  1, 3: rewrite Z.mod_small in * by lia; split_and!; [done|cbn [sall]; by rewrite Hh|cbn; lia|].
  1, 2: intros a; exists 16; split; [lia|]; cbn [radix_go]; rewrite Hv; destruct (Z.ltb_spec n 16); [do 2 f_equal; lia|lia].
  { change (2 ^ Z.of_nat 1) with 2 in Hf. lia. }
  destruct k as [|[|k]]; [lia|change (16 ^ Z.of_nat 1) with 16 in Hn; lia|].
  assert (n < 16 * 16 ^ Z.of_nat (S k)) as H16 by (rewrite <- Z.pow_succ_r, <- Nat2Z.inj_succ by lia; apply Hn).
  assert (n < 2 * 2 ^ Z.of_nat (S f)) as H2 by (rewrite <- Z.pow_succ_r, <- Nat2Z.inj_succ by lia; apply Hf).
  pose proof (Z.pow_pos_nonneg 2 (Z.of_nat (S f)) ltac:(lia) ltac:(lia)).
  destruct (IH (n / 16) (S k)) as (Hne & Hs & Hl & Hr); [lia| |apply Z.div_lt_upper_bound; lia|].
  { split; [apply Z.div_pos; lia|]. apply Z.div_lt_upper_bound; lia. }
  rewrite hex_show_go_app.
  set (s := hex_show_go (S f) (n / 16) "") in *. split_and!.
  - intros Hn0. apply (f_equal String.length) in Hn0. rewrite slength_app in Hn0. cbn in Hn0. lia.
  - rewrite sall_app, Hs. cbn [sall]. by rewrite Hh.
  - rewrite slength_app. cbn [String.length]. lia.
  - intros a. destruct (Hr a) as (p & Hp & He). exists (p * 16). split; [lia|]. rewrite radix_go_app, He. cbn [mbind option_bind radix_go].
    rewrite Hv. pose proof (Z.mod_pos_bound n 16 ltac:(lia)). destruct (Z.ltb_spec (n mod 16) 16); [|lia].
    f_equal. pose proof (Z.div_mod n 16). lia.
Qed.

Lemma hex_show_group g : 0 <= g < 65536 -> group_text (hex_show g) /\ big_int ("0x" +:+ hex_show g) = Ok g.
Proof.
  intros Hg. destruct (hex_show_go_spec (Z.to_nat (Z.log2 g)) g 4) as (Hne & Hs & Hl & Hr); [lia|exact Hg| |].
  { rewrite Nat2Z.inj_succ, Z2Nat.id by apply Z.log2_nonneg. destruct (decide (g = 0)) as [->|]; [done|]. apply Z.log2_spec. lia. }
  fold (hex_show g) in *. generalize dependent (hex_show g). intros s Hne Hs Hl Hr. split; [done|]. unfold big_int. rewrite trim_id.
  - destruct (Hr 0) as (p & _ & He). change ("0x" +:+ s) with (String "0" (String "x" s)).
    change (big_digits 16 s = Ok g). unfold big_digits. rewrite He. by destruct s.
  - rewrite sall_app. apply andb_true_iff. split; [done|]. revert Hs. apply sall_impl_dec. vm_compute. reflexivity.
Qed.

Lemma group_no_colon g : group_text g -> no_char ":" g.
Proof. intros (_ & Hs & _). revert Hs. unfold no_char. apply sall_impl_dec. vm_compute. reflexivity. Qed.

(** The texts [join ":" A], [A] groups, hold no "::" and end with no colon. *)
Definition groups (A : list string) : Prop := Forall (fun g => g <> "" /\ no_char ":" g) A.

Lemma split_colons_char c r : c <> ":"%char -> split_colons (String c r) =
  match split_colons r with x :: xs => String c x :: xs | [] => [String c ""] end.
Proof. intros Hc. cbn [split_colons]. destruct c as [[] [] [] [] [] [] [] []]; try done. Qed.

Lemma split_colons_colon d r : d <> ":"%char -> split_colons (String ":" (String d r)) =
  match split_colons (String d r) with x :: xs => String ":" x :: xs | [] => [String ":" ""] end.
Proof. intros Hd. remember (String d r) as t eqn:Ht. cbn [split_colons]. rewrite Ht. destruct d as [[] [] [] [] [] [] [] []]; try done. Qed.

Lemma split_colons_group g r x xs : no_char ":" g -> split_colons r = x :: xs -> split_colons (g +:+ r) = (g +:+ x) :: xs.
Proof.
  unfold no_char. induction g as [|c g IH]; [done|]. cbn [sall]. rewrite andb_true_iff. intros [Hc Hg] Hr. rewrite !sapp_String.
  rewrite split_colons_char; [by rewrite (IH Hg Hr)|]. unfold is_char in Hc. by apply negb_true_iff, bool_decide_eq_false in Hc.
Qed.

Lemma split_colons_join A r x xs : groups A -> A <> [] -> split_colons r = x :: xs ->
  split_colons (join ":" A +:+ r) = (join ":" A +:+ x) :: xs.
Proof.
  intros HA Hne Hr. revert Hne. induction HA as [|g A [Hg Hc] HA IH]; [done|]. intros _. destruct A as [|h A].
  { by apply split_colons_group. }
  cbn [join]. rewrite !sapp_assoc. apply split_colons_group; [done|]. specialize (IH ltac:(done)).
  apply Forall_cons in HA as [[Hh Hhc] _]. destruct h as [|d h]; [done|].
  assert (d <> ":"%char) as Hd. { intros ->. unfold no_char in Hhc. cbn in Hhc. done. }
  assert (exists u, join ":" (String d h :: A) = String d u) as [u Hu] by (destruct A; by eexists).
  cbn [join] in Hu, IH |- *. rewrite Hu in *. rewrite !sapp_String in *. rewrite sapp_nil_l, split_colons_colon by done. by rewrite IH.
Qed.

Lemma groups_of_join A : groups A -> groups_of (join ":" A) = A.
Proof.
  intros HA. unfold groups_of. destruct HA as [|g A [Hg Hc] HA]; [done|].
  rewrite decide_False by (destruct g; [done|]; by destruct A). revert g Hg Hc. induction HA as [|h A [Hh Hhc] HA IH]; intros g Hg Hc.
  - by apply split_char_no.
  - change (join ":" (g :: h :: A)) with (g +:+ String ":" (join ":" (h :: A))). rewrite split_char_app by done. by rewrite IH.
Qed.

(** ** The longest run of zeros *)

Lemma zero_run_spec l : take (zero_run l) l = replicate (zero_run l) "0" /\ (zero_run l <= length l)%nat.
Proof. induction l as [|g l [IH1 IH2]]; [done|]. cbn. destruct (decide (g = "0")) as [->|]; cbn; [split; [by rewrite IH1|lia]|split; [done|lia]]. Qed.

(** A run of at least two zero groups inside the list. *)
Definition run_in (gs : list string) (b : nat * nat) : Prop :=
  (1 < b.2)%nat /\ (b.1 + b.2 <= length gs)%nat /\ take b.2 (drop b.1 gs) = replicate b.2 "0".

Lemma best_run_spec fuel gs i best : (forall b, best = Some b -> run_in gs b) ->
  forall b, best_run fuel i (drop i gs) best = Some b -> run_in gs b.
Proof.
  revert i best. induction fuel as [|fuel IH]; intros i best Hb b; cbn [best_run]; [apply Hb|].
  destruct (drop i gs) as [|g r] eqn:Hd; [apply Hb|]. destruct (decide (g = "0")) as [->|].
  - assert (zero_run ("0" :: r) = zero_run (drop i gs)) as -> by (by rewrite Hd).
    rewrite <- Hd, drop_drop. apply IH. intros b' Hb'. destruct (_ && _) eqn:Hk; [|by apply Hb]. injection Hb' as <-.
    apply andb_true_iff in Hk as [_ Hk%bool_decide_eq_true]. destruct (zero_run_spec (drop i gs)) as [Ht Hl].
    split; [done|]. cbn. split; [|done]. rewrite length_drop in Hl. lia.
  - assert (r = drop (S i) gs) as ->. { change (r = drop (S i) gs). rewrite <- (drop_drop gs i 1) || idtac. replace (S i) with (i + 1)%nat by lia. by rewrite <- drop_drop, Hd. }
    by apply IH.
Qed.

Lemma run_cut gs i k : run_in gs (i, k) -> gs = take i gs ++ replicate k "0" ++ drop (i + k) gs.
Proof. intros (_ & _ & Hr). cbn in Hr. rewrite <- Hr, <- drop_drop. by rewrite !take_drop. Qed.

Lemma v6_groups_shorten gs : groups gs -> length gs = 8%nat -> v6_groups (shorten gs) = Ok gs.
Proof.
  intros Hg Hlen. unfold shorten. destruct (best_run _ _ _ _) as [[i k]|] eqn:Hb.
  - apply (best_run_spec _ gs 0 None) in Hb; [|done]. pose proof (run_cut _ _ _ Hb) as Hcut. destruct Hb as (Hk & Hik & _). cbn in Hk, Hik.
    set (A := take i gs) in *. set (B := drop (i + k) gs) in *.
    assert (groups A) as HA by (by apply Forall_take). assert (groups B) as HB by (by apply Forall_drop).
    assert (length A = i) as HlA by (subst A; rewrite length_take; lia). assert (length B = 8 - i - k)%nat as HlB by (subst B; rewrite length_drop; lia).
    assert (split_colons (join ":" B) = [join ":" B]) as HsB.
    { destruct (decide (B = [])) as [->|Hne]; [done|]. pose proof (split_colons_join B "" "" [] HB Hne eq_refl) as H. by rewrite !sapp_nil_r in H. }
    assert (split_colons ("::" +:+ join ":" B) = ["" ; join ":" B]) as Hr.
    { change (split_colons ("::" +:+ join ":" B)) with ("" :: split_colons (join ":" B)). by rewrite HsB. }
    assert (split_colons (join ":" A +:+ "::" +:+ join ":" B) = [join ":" A; join ":" B]) as Hs.
    { destruct (decide (A = [])) as [->|Hne]; [exact Hr|]. rewrite (split_colons_join A _ _ _ HA Hne Hr). by rewrite sapp_nil_r. }
    unfold v6_groups. rewrite Hs, !groups_of_join by done. rewrite bool_decide_eq_false_2 by lia. cbn. f_equal.
    replace (8 - length A - length B)%nat with k by lia. by rewrite <- Hcut.
  - unfold v6_groups. pose proof (split_colons_join gs "" "" [] Hg ltac:(by destruct gs) eq_refl) as H. rewrite !sapp_nil_r in H. rewrite H.
    by rewrite groups_of_join.
Qed.

(** ** The number comes back *)

Lemma land_65535 n : Z.land n 65535 = n mod 65536.
Proof. change 65535 with (Z.ones 16). by rewrite Z.land_ones. Qed.

Lemma hextets_range n : Forall (fun g => 0 <= g < 65536) (hextets n).
Proof. unfold hextets. apply Forall_fmap, Forall_forall. intros s _. cbn. rewrite land_65535. by apply Z.mod_pos_bound. Qed.

Lemma hextets_value n : is_address true n -> foldl (fun n g => Z.shiftl n 16 + g) 0 (hextets n) = n.
Proof.
  intros Hn. unfold is_address, bits_of in Hn. unfold hextets. cbn [fmap list_fmap foldl]. rewrite !land_65535, !Z.shiftl_mul_pow2, !Z.shiftr_div_pow2 by lia. change (2 ^ 0) with 1. rewrite Z.div_1_r.
  assert (forall s t, 0 <= s -> t = s + 16 -> n / 2 ^ s = n / 2 ^ t * 65536 + n / 2 ^ s mod 65536) as Hs.
  { intros s t Hs ->. pose proof (Z.pow_nonzero 2 s ltac:(lia) Hs). rewrite Z.pow_add_r by lia. rewrite <- Z.div_div by (first [done|lia]).
    pose proof (Z.div_mod (n / 2 ^ s) 65536 ltac:(done)). change (2 ^ 16) with 65536. lia. }
  pose proof (Hs 112 128 ltac:(done) eq_refl) as H7. rewrite (Z.div_small n (2 ^ 128) Hn) in H7.
  pose proof (Hs 96 112 ltac:(done) eq_refl) as H6. pose proof (Hs 80 96 ltac:(done) eq_refl) as H5.
  pose proof (Hs 64 80 ltac:(done) eq_refl) as H4. pose proof (Hs 48 64 ltac:(done) eq_refl) as H3.
  pose proof (Hs 32 48 ltac:(done) eq_refl) as H2. pose proof (Hs 16 32 ltac:(done) eq_refl) as H1.
  pose proof (Hs 0 16 ltac:(done) eq_refl) as H0. change (2 ^ 0) with 1 in H0. rewrite Z.div_1_r in H0. clear Hs Hn.
  lia.
Qed.

Lemma foldM_groups gs n : Forall (fun g => 0 <= g < 65536) gs ->
  foldM (fun n g => g ← big_int ("0x" +:+ (if decide (g = "") then "0" else g)); Ok (Z.shiftl n 16 + g)) n (hex_show <$> gs)
  = Ok (E := geo_error) (foldl (fun n g => Z.shiftl n 16 + g) n gs).
Proof.
  intros H. revert n. induction H as [|g gs Hg Hgs IH]; intros n; [done|]. cbn [fmap list_fmap foldM foldl].
  destruct (hex_show_group g Hg) as [(Hne & _) Hb]. rewrite decide_False, Hb by done. apply IH.
Qed.

Lemma hex_groups gs : Forall (fun g => 0 <= g < 65536) gs -> Forall group_text (hex_show <$> gs) /\ groups (hex_show <$> gs).
Proof.
  intros H. assert (Forall group_text (hex_show <$> gs)) as Ht. { apply Forall_fmap. eapply Forall_impl; [exact H|]. intros g Hg. by apply hex_show_group. }
  split; [done|]. eapply Forall_impl; [exact Ht|]. intros g Hg. split; [by destruct Hg|by apply group_no_colon].
Qed.

Lemma v6_back n : is_address true n -> v6ToBig (bigToV6 n) = Ok n.
Proof.
  intros Hn. pose proof (hextets_range n) as Hr. destruct (hex_groups _ Hr) as [_ Hg]. unfold v6ToBig, bigToV6.
  rewrite v6_groups_shorten by done. cbn [mbind result_bind].
  assert (bool_decide (length (hex_show <$> hextets n) = 8%nat) = true) as -> by done. cbn [negb throw_if mbind result_bind].
  rewrite foldM_groups by done. by rewrite hextets_value.
Qed.

(** ** Networks *)

Lemma sall_join p sep l : sall p sep = true -> Forall (fun s => sall p s = true) l -> sall p (join sep l) = true.
Proof.
  intros Hsep. induction 1 as [|x l Hx Hl IH]; [done|]. destruct l as [|y l]; [done|].
  change (join sep (x :: y :: l)) with (x +:+ sep +:+ join sep (y :: l)). by rewrite !sall_app, Hx, Hsep, IH.
Qed.

Definition v6_char (c : ascii) : bool := is_hex c || is_char ":" c.

Lemma sall_shorten p gs : p ":"%char = true -> Forall (fun g => sall p g = true) gs -> sall p (shorten gs) = true.
Proof.
  intros Hc Hg. assert (sall p ":" = true) as H1 by (cbn; by rewrite Hc). unfold shorten. destruct (best_run _ _ _ _) as [[i k]|].
  - rewrite !sall_app. cbn [sall]. rewrite Hc, !sall_join; [done|done|by apply Forall_drop|done|by apply Forall_take].
  - by apply sall_join.
Qed.

Lemma v6_chars n : sall v6_char (bigToV6 n) = true.
Proof.
  apply sall_shorten; [done|]. destruct (hex_groups _ (hextets_range n)) as [Ht _]. eapply Forall_impl; [exact Ht|].
  intros g (_ & Hg & _). revert Hg. apply sall_impl_dec. vm_compute. reflexivity.
Qed.

Lemma has_char_app d s t : has_char d (s +:+ t) = has_char d s || has_char d t.
Proof. unfold has_char. rewrite sall_app. by destruct (sall _ s). Qed.

Lemma v6_has_colon n : has_char ":" (bigToV6 n) = true.
Proof.
  unfold bigToV6, shorten. destruct (best_run _ _ _ _) as [[i k]|].
  - rewrite !has_char_app. change (has_char ":" "::") with true. by rewrite orb_true_r.
  - unfold hextets. cbn [fmap list_fmap]. generalize (hex_show (Z.land (Z.shiftr n 112) 65535)). intros g.
    cbn [join]. rewrite !has_char_app. change (has_char ":" ":") with true. by rewrite orb_true_r.
Qed.

Definition v4_char (c : ascii) : bool := is_digit c || is_char "." c.

Lemma v4_chars n : sall v4_char (bigToV4 n) = true.
Proof.
  rewrite bigToV4_eq. apply sall_join; [done|]. repeat constructor; (eapply sall_impl_dec; [|apply showZ_digits; by apply Z.mod_pos_bound]); vm_compute; reflexivity.
Qed.

Lemma address_text (v6 : bool) n : no_char "/" (if v6 then bigToV6 n else bigToV4 n) /\ has_char ":" (if v6 then bigToV6 n else bigToV4 n) = v6 /\
  (is_address v6 n -> to_big v6 (if v6 then bigToV6 n else bigToV4 n) = Ok n).
Proof.
  destruct v6; cbn [to_big].
  - split; [|split; [apply v6_has_colon|apply v6_back]]. eapply sall_impl_dec; [|apply v6_chars]. vm_compute. reflexivity.
  - split; [|split; [|apply v4_back]].
    + eapply sall_impl_dec; [|apply v4_chars]. vm_compute. reflexivity.
    + apply negb_false_iff. eapply sall_impl_dec; [|apply v4_chars]. vm_compute. reflexivity.
Qed.

(** The text of a block names the block. *)
Lemma read_show_block v6 b : is_address v6 b.1 -> 0 <= b.2 <= bits_of v6 -> read_block (show_block v6 b) = Some (v6, b).
Proof.
  destruct b as [n s]. cbn [fst snd]. intros Hn Hs. destruct (address_text v6 n) as (Hno & Hc & Hb). unfold show_block. cbn [fst snd].
  set (a := if v6 then bigToV6 n else bigToV4 n) in *. set (p := showZ _).
  assert (sall is_digit p = true) as Hp by (apply showZ_digits; lia). assert (p <> "") as Hpne.
  { subst p. unfold showZ. destruct (_ <? 0); [done|]. unfold show_pos. cbn [show_go]. destruct (_ <? 10); [done|]. rewrite show_go_app.
    intros H. apply (f_equal String.length) in H. rewrite slength_app in H. cbn in H. lia. }
  unfold read_block. change (a +:+ "/" +:+ p) with (a +:+ String "/" p). rewrite split_char_app by done.
  rewrite split_char_no by (eapply sall_impl_dec; [|exact Hp]; vm_compute; reflexivity).
  rewrite Hc, Hb by done. rewrite Hp. unfold nonempty. rewrite bool_decide_eq_true_2 by done. cbn [andb].
  subst p. rewrite num_showZ by lia. do 3 f_equal. lia.
Qed.
