(* ===== verification/GeoFilter.v ===== *)
(** The country filter: [backend/internal/geo-filter.js].

    The list of address ranges per country becomes the smallest list of networks with the
    same addresses; a file of nginx admits these networks and the private ones. The file is
    refreshed by a request in flight at a time, which the steps of [geo_step] show. *)

From S2P Require Import Prelude.
From S2P Require Import JsString.
From S2P Require Import JsRegex.
From S2P Require Import JsVal.
From S2P Require Import ConfText.
From S2P Require Import Cidr.
From S2P Require Import IngressRules.
From S2P Require Import WgConf.
From S2P Require Import WgMeta.
From S2P Require Import WgStatus.
From S2P Require Import IpRange.
From coqutil Require Import Datatypes.RecordSetters.
Import OCamlLikeNotations.

Local Open Scope Z_scope.

(** * The list *)

(** The strict check of a network: it goes into a file root loads. *)
Definition isCidr (value : string) : bool :=
  match index_of "/" value with
  | Some (S _ as idx) =>
      let addr := stake idx value in
      let prefix := sdrop (S idx) value in
      if negb (re_test (rrep 1 2 rdigit) prefix) then false
      else if re_test v4Str addr then (num_of_digits prefix <=? 32) && nonempty addr && sall (fun c => is_digit c || is_char "." c) addr
      else nonempty addr && sall is_hex_or_colon addr && re_test IPV6_RE addr && (num_of_digits prefix <=? 128)
  | _ => false
  end.

(** The ranges read so far, per family, the rows and the rows per country. *)
Record spans := Spans { sp_v4 : list (Z * Z); sp_v6 : list (Z * Z); sp_rows : Z; sp_perCountry : list (string * Z) }.

Definition add_span (v6 : bool) (span : Z * Z) (cc : string) (s : spans) : spans :=
  Spans (if v6 then sp_v4 s else sp_v4 s ++ [span]) (if v6 then sp_v6 s ++ [span] else sp_v6 s) (sp_rows s)
        (mset cc (default 0 (mget cc (sp_perCountry s)) + 1) (sp_perCountry s)).

(** The range of a row: its first and last address, of one family. *)
Definition row_span (start end_ : string) : result geo_error (bool * (Z * Z)) :=
  let v6 := has_char ":" start in
  throw_if (negb (Bool.eqb v6 (has_char ":" end_))) MixedFamilies;;
  lo ← to_big v6 start;
  hi ← to_big v6 end_;
  throw_if (hi <? lo) ReversedRange;;
  Ok (v6, (lo, hi)).

Definition dbip_row (countries : list string) (s : spans) (line : string) : result geo_error spans :=
  if decide (line = "") then Ok s
  else
    let s := Spans (sp_v4 s) (sp_v6 s) (sp_rows s + 1) (sp_perCountry s) in
    let parts := split_char "," (trim line) in
    match parts !! 2%nat with
    | Some cc =>
        if set_has countries cc then
          r ← row_span (part parts 0) (part parts 1);
          Ok (add_span r.1 r.2 cc s)
        else Ok s
    | None => Ok s
    end.

(** Ranges that overlap or touch become one; [cur] is the range not yet flushed. *)
Fixpoint merge_spans (cur : option (Z * Z)) (l : list (Z * Z)) : list (Z * Z) :=
  match l with
  | [] => option_list cur
  | (lo, hi) :: l =>
      match cur with
      | Some (a, b) =>
          if lo <=? b + 1 then merge_spans (Some (a, if b <? hi then hi else b)) l
          else (a, b) :: merge_spans (Some (lo, hi)) l
      | None => merge_spans (Some (lo, hi)) l
      end
  end.

Definition span_le (a b : Z * Z) : Prop := a.1 <= b.1.
#[export] Instance span_le_dec : RelDecision span_le.
Proof. intros a b. unfold span_le. apply _. Defined.

Definition family_ranges (v6 : bool) (l : list (Z * Z)) : list string :=
  merge_spans None (merge_sort span_le l) ≫= fun r => bigRangeToCidrs r.1 r.2 v6.

Record dbip := Dbip { db_ranges : list string; db_rows : Z; db_perCountry : list (string * Z) }.

Definition parseDbip (csvText : string) (countries : list string) : result geo_error dbip :=
  s ← foldM (dbip_row countries) (Spans [] [] 0 (mfrom ((fun c => (c, 0)) <$> countries))) (split_char nl csvText);
  let ranges := family_ranges false (sp_v4 s) ++ family_ranges true (sp_v6 s) in
  throw_if (existsb (fun cidr => negb (isCidr cidr)) ranges) BadNetwork;;
  Ok (Dbip ranges (sp_rows s) (sp_perCountry s)).

(** * The countries *)

Definition upper_char (c : ascii) : string :=
  if is_lower c then String (chr (code c - 32)) ""
  else if code c =? 223 then "SS"
  else if (224 <=? code c) && (code c <=? 254) && negb (code c =? 247) then String (chr (code c - 32)) ""
  else String c "".
Definition to_upper (s : string) : string := smap upper_char s.

Definition ISO_CODES : list string := split_char " "
  ("AD AE AF AG AI AL AM AO AQ AR AS AT AU AW AX AZ BA BB BD BE BF BG BH BI BJ BL BM BN BO BQ BR BS BT BV BW BY " +:+
   "BZ CA CC CD CF CG CH CI CK CL CM CN CO CR CU CV CW CX CY CZ DE DJ DK DM DO DZ EC EE EG EH ER ES ET FI FJ FK " +:+
   "FM FO FR GA GB GD GE GF GG GH GI GL GM GN GP GQ GR GS GT GU GW GY HK HM HN HR HT HU ID IE IL IM IN IO IQ IR " +:+
   "IS IT JE JM JO JP KE KG KH KI KM KN KP KR KW KY KZ LA LB LC LI LK LR LS LT LU LV LY MA MC MD ME MF MG MH MK " +:+
   "ML MM MN MO MP MQ MR MS MT MU MV MW MX MY MZ NA NC NE NF NG NI NL NO NP NR NU NZ OM PA PE PF PG PH PK PL PM " +:+
   "PN PR PS PT PW PY QA RE RO RS RU RW SA SB SC SD SE SG SH SI SJ SK SL SM SN SO SR SS ST SV SX SY SZ TC TD TF " +:+
   "TG TH TJ TK TL TM TN TO TR TT TV TW TZ UA UG UM US UY UZ VA VC VE VG VI VN VU WF WS YE YT ZA ZM ZW").

Definition EU_COUNTRIES : list string :=
  ["AT"; "BE"; "BG"; "HR"; "CY"; "CZ"; "DK"; "EE"; "FI"; "FR"; "DE"; "GR"; "HU"; "IE";
   "IT"; "LV"; "LT"; "LU"; "MT"; "NL"; "PL"; "PT"; "RO"; "SK"; "SI"; "ES"; "SE"].
Definition DEFAULT_COUNTRIES : list string := EU_COUNTRIES ++ ["CH"].
Definition MAX_COUNTRIES : Z := 250.

Inductive countries_error := NotAList | UnknownCodes (codes : list string) | NoCountry | TooManyCountries.

Definition normalizeCountries (input : jsval) : result countries_error (list string) :=
  match input with
  | VArr l =>
      let out := sort_strings (uniq ((fun c => to_upper (trim (to_string c))) <$> l)) in
      let bad := bfilter (fun c => negb (set_has ISO_CODES c)) out in
      throw_if (negb (bool_decide (bad = []))) (UnknownCodes (take 5 bad));;
      throw_if (bool_decide (out = [])) NoCountry;;
      throw_if (MAX_COUNTRIES <? Z.of_nat (length out)) TooManyCountries;;
      Ok out
  | _ => Throw NotAList
  end.

(** The stored settings: [None] when there is no file or it is not JSON. *)
Definition readSettings (stored : option jsval) : list string :=
  match stored with
  | Some raw => match normalizeCountries (vget raw "countries") with Ok c => c | Throw _ => sort_strings DEFAULT_COUNTRIES end
  | None => sort_strings DEFAULT_COUNTRIES
  end.

(** * The flag of a host *)

Definition is_true (v : jsval) : bool := match v with VBool b => b | _ => false end.

Definition hostUsesGeoFilter (host : jsval) : bool :=
  let m := vget host "meta" in is_true (vget m "geo_filter") || is_true (vget m "geoFilter").

(** Only [true] switches the filter on; the other spelling of the field goes away. *)
Definition sanitizeGeoMeta (meta : jsval) : jsval :=
  match meta with
  | VObj m =>
      if mhas "geo_filter" m || mhas "geoFilter" m
      then VObj (mdel "geoFilter" (mset "geo_filter" (VBool (is_true (vget meta "geo_filter") || is_true (vget meta "geoFilter"))) m))
      else meta
  | _ => meta
  end.

(** * Ranges that are merged *)

Definition in_spans (x : Z) (l : list (Z * Z)) : Prop := exists s, s ∈ l /\ s.1 <= x <= s.2.

(** Between two merged ranges there is an address of neither. *)
Definition apart (a b : Z * Z) : Prop := a.2 + 1 < b.1.

Lemma merge_spans_spec l cur : Forall (fun s => s.1 <= s.2) l -> StronglySorted span_le l ->
  (forall c, cur = Some c -> c.1 <= c.2 /\ Forall (span_le c) l) ->
  let r := merge_spans cur l in
  Forall (fun s => s.1 <= s.2) r /\ StronglySorted apart r /\
  (forall x, in_spans x r <-> in_spans x (option_list cur ++ l)) /\
  (forall s, s ∈ r -> exists c, c ∈ option_list cur ++ l /\ s.1 = c.1) /\
  (forall s, s ∈ r -> exists c, c ∈ option_list cur ++ l /\ s.2 = c.2).
Proof.
  cbv zeta. revert cur. induction l as [|[lo hi] l IH]; intros cur Hl Hs Hc; cbn [merge_spans].
  { rewrite app_nil_r. destruct cur as [c|]; cbn; split_and!; try constructor; try done; try constructor; try (by apply (Hc c)); intros s Hs'; by exists s. }
  apply Forall_cons in Hl as [Hlh Hl]. cbn in Hlh. apply StronglySorted_inv in Hs as [Hs Hle].
  destruct cur as [[a b]|].
  2:{ destruct (IH (Some (lo, hi))) as (H1 & H2 & H3 & H4 & H5); [done|done|by intros ? [= <-]|]. by split_and!. }
  destruct (Hc _ eq_refl) as [Hab Hc']. cbn in Hab. apply Forall_cons in Hc' as [Halo Hc']. unfold span_le in Halo. cbn in Halo.
  destruct (Z.leb_spec lo (b + 1)) as [Hlo|Hlo].
  - set (b' := if b <? hi then hi else b). assert (b <= b' /\ hi <= b' /\ (b' = b \/ b' = hi)) as (Hb1 & Hb2 & Hb3) by (subst b'; destruct (Z.ltb_spec b hi); lia).
    clearbody b'. destruct (IH (Some (a, b'))) as (H1 & H2 & H3 & H4 & H5); [done|done|intros ? [= <-]; cbn; split; [lia|done]|].
    split_and!; [done|done| | |].
    + intros x. rewrite H3. unfold in_spans. cbn. split.
      * intros (s & [->|Hs']%elem_of_cons & Hx); cbn in *.
        { destruct (Z.le_gt_cases x b); [exists (a, b); split; [left|cbn; lia]|exists (lo, hi); split; [right; left|cbn; lia]]. }
        { exists s. split; [by do 2 right|done]. }
      * intros (s & [->|[->|Hs']%elem_of_cons]%elem_of_cons & Hx); cbn in *.
        { exists (a, b'). split; [left|cbn; lia]. } { exists (a, b'). split; [left|cbn; lia]. } { exists s. split; [by right|done]. }
    + intros s Hs'. destruct (H4 s Hs') as (c & [->|Hc0]%elem_of_cons & He); [exists (a, b); split; [left|done]|]. exists c. split; [by do 2 right|done].
    + intros s Hs'. destruct (H5 s Hs') as (c & [->|Hc0]%elem_of_cons & He); [|exists c; split; [by do 2 right|done]]. cbn in He.
      destruct Hb3 as [Hb3|Hb3]; [exists (a, b); split; [left|cbn; congruence]|exists (lo, hi); split; [right; left|cbn; congruence]].
  - destruct (IH (Some (lo, hi))) as (H1 & H2 & H3 & H4 & H5); [done|done|by intros ? [= <-]|]. split_and!.
    + constructor; [cbn; lia|done].
    + constructor; [done|]. apply Forall_forall. intros s Hs'. destruct (H4 s Hs') as (c & [->|Hc0]%elem_of_cons & He); unfold apart; cbn in *; [lia|].
      rewrite Forall_forall in Hle. specialize (Hle c Hc0). unfold span_le in Hle. cbn in Hle. lia.
    + intros x. unfold in_spans in *. cbn in *. split.
      * intros (s & [->|Hs']%elem_of_cons & Hx); [exists (a, b); split; [left|done]|]. destruct (proj1 (H3 x)) as (t & Ht & Hx'); [by exists s|].
        exists t. split; [by right|done].
      * intros (s & [->|Hs']%elem_of_cons & Hx); [exists (a, b); split; [left|done]|]. destruct (proj2 (H3 x)) as (t & Ht & Hx'); [by exists s|].
        exists t. split; [by right|done].
    + intros s [->|Hs']%elem_of_cons; [exists (a, b); split; [left|done]|]. destruct (H4 s Hs') as (c & Hc0 & He). exists c. split; [by right|done].
    + intros s [->|Hs']%elem_of_cons; [exists (a, b); split; [left|done]|]. destruct (H5 s Hs') as (c & Hc0 & He). exists c. split; [by right|done].
Qed.

(** The least list of blocks of ranges apart from each other is the lists of the ranges. *)
Definition spans_blocks (bits : Z) (l : list (Z * Z)) : list block := l ≫= fun r => range_blocks bits r.1 r.2.

Lemma spans_blocks_exact bits l : 0 <= bits -> Forall (aligned bits) (spans_blocks bits l) /\ forall x, in_blocks x (spans_blocks bits l) <-> in_spans x l.
Proof.
  intros Hb. unfold spans_blocks. induction l as [|[lo hi] l [IH1 IH2]].
  { split; [constructor|]. intros x. split; intros (s & Hs & _); by apply elem_of_nil in Hs. }
  cbn [mbind list_bind fst snd]. destruct (range_blocks_Some bits Hb lo hi) as (k & Hk & ->). destruct (blocks_exact bits Hb _ _ _ _ Hk) as (Hal & Hex & _).
  split; [by apply Forall_app|]. intros x. specialize (IH2 x). specialize (Hex x). unfold in_blocks, in_spans in *. setoid_rewrite elem_of_app. split.
  - intros (b & [Hb1|Hb1] & Hx); [exists (lo, hi); split; [left|apply Hex; by exists b]|]. destruct (proj1 IH2) as (s & Hs & ?); [by exists b|]. exists s. split; [by right|done].
  - intros (s & [->|Hs]%elem_of_cons & Hx); [destruct (proj2 Hex Hx) as (b & ? & ?); exists b; tauto|].
    destruct (proj2 IH2) as (b & ? & ?); [by exists s|]. exists b. tauto.
Qed.

Lemma bfilter_halves {A} (p : A -> bool) l : (length (bfilter p l) + length (bfilter (fun x => negb (p x)) l) = length l)%nat.
Proof. unfold bfilter. induction l as [|x l IH]; [done|]. cbn. destruct (p x); cbn; lia. Qed.

Lemma spans_blocks_least bits l k : 0 <= bits -> Forall (fun s => s.1 <= s.2) l -> StronglySorted apart l -> Forall (aligned bits) k ->
  (forall x, in_blocks x k <-> in_spans x l) -> (length (spans_blocks bits l) <= length k)%nat.
Proof.
  intros Hb Hl Hs. revert k. induction Hs as [|[lo hi] l Hs IH Hap]; intros k Hk Hex; [cbn; lia|].
  apply Forall_cons in Hl as [Hlh Hl]. cbn in Hlh. rewrite Forall_forall in Hap, Hk. cbn [spans_blocks mbind list_bind fst snd]. rewrite length_app.
  assert (~ in_spans (hi + 1) ((lo, hi) :: l)) as Hgap.
  { intros (s & [->|Hs']%elem_of_cons & Hx); [cbn in Hx; lia|]. specialize (Hap s Hs'). unfold apart in Hap. cbn in Hap. lia. }
  assert (forall b x, b ∈ k -> in_block x b -> b.1 <= hi <-> x <= hi) as Hside.
  { intros b x Hbk Hx. pose proof (Hk b Hbk) as [Hb2 _]. split; intros Hle; [|unfold in_block in Hx; lia].
    apply Z.nlt_ge. intros Hlt. apply Hgap, Hex. exists b. split; [done|]. unfold in_block in *. lia. }
  pose proof (bfilter_halves (fun b : block => b.1 <=? hi) k) as Hhalf. rewrite <- Hhalf. clear Hhalf. apply Nat.add_le_mono.
  - destruct (range_blocks_Some bits Hb lo hi) as (r & Hr & ->). apply (blocks_minimal bits Hb _ _ _ _ _ Hr).
    + apply Forall_forall. intros b [Hbk _]%elem_of_bfilter. by apply Hk.
    + intros x. split.
      * intros (b & [Hbk Hle%Z.leb_le]%elem_of_bfilter & Hx). pose proof (proj1 (Hside b x Hbk Hx) Hle) as Hxh. split; [|done].
        destruct (proj1 (Hex x)) as (s & [->|Hs']%elem_of_cons & Hxs); [by exists b|cbn in Hxs; lia|]. specialize (Hap s Hs'). unfold apart in Hap. cbn in Hap. lia.
      * intros Hx. destruct (proj2 (Hex x)) as (b & Hbk & Hxb); [exists (lo, hi); split; [left|done]|]. exists b. split; [|done].
        apply elem_of_bfilter. split; [done|]. apply Z.leb_le, (Hside b x Hbk Hxb). lia.
  - apply IH; [done|apply Forall_forall; intros b [Hbk _]%elem_of_bfilter; by apply Hk|]. intros x. split.
    + intros (b & [Hbk Hgt%negb_true_iff%Z.leb_gt]%elem_of_bfilter & Hx).
      assert (hi < x) as Hxh by (apply Z.nle_gt; intros Hle; apply (Hside b x Hbk Hx) in Hle; lia).
      destruct (proj1 (Hex x)) as (s & [->|Hs']%elem_of_cons & Hxs); [by exists b|cbn in Hxs; lia|]. by exists s.
    + intros (s & Hs' & Hxs). pose proof (Hap s Hs') as Hlo. unfold apart in Hlo. cbn in Hlo.
      destruct (proj2 (Hex x)) as (b & Hbk & Hxb); [exists s; split; [by right|done]|]. exists b. split; [|done].
      apply elem_of_bfilter. split; [done|]. apply negb_true_iff, Z.leb_gt, Z.nle_gt. intros Hle. apply (Hside b x Hbk Hxb) in Hle. lia.
Qed.

(** * Every network is accepted *)

Lemma rupto_list n r gs (tx : string -> string) : (length gs <= n)%nat -> Forall (fun g => in_re r (tx g)) gs ->
  in_re (rupto n r) (join "" (tx <$> gs)).
Proof.
  revert n. induction gs as [|g gs IH]; intros n Hlen Hg.
  - destruct n; [constructor|]. apply in_alt_l. constructor.
  - destruct n as [|n]; [cbn in Hlen; lia|]. apply Forall_cons in Hg as [Hg Hgs]. cbn in Hlen.
    cbn [rupto fmap list_fmap]. apply in_alt_r. assert (join "" (tx g :: (tx <$> gs)) = tx g +:+ join "" (tx <$> gs)) as ->.
    { destruct gs; cbn; [by rewrite sapp_nil_r|done]. }
    constructor; [done|]. apply IH; [lia|done].
Qed.

Lemma rrep_list n m r gs (tx : string -> string) : (n <= length gs <= n + m)%nat -> Forall (fun g => in_re r (tx g)) gs ->
  in_re (rrep n m r) (join "" (tx <$> gs)).
Proof.
  revert gs. induction n as [|n IH]; intros gs Hlen Hg; [by apply rupto_list; [lia|]|].
  destruct gs as [|g gs]; [cbn in Hlen; lia|]. apply Forall_cons in Hg as [Hg Hgs]. cbn in Hlen.
  cbn [rrep fmap list_fmap]. assert (join "" (tx g :: (tx <$> gs)) = tx g +:+ join "" (tx <$> gs)) as ->.
  { destruct gs; cbn; [by rewrite sapp_nil_r|done]. }
  constructor; [done|]. apply IH; [lia|done].
Qed.

Lemma rupto_chars n p s : sall p s = true -> (String.length s <= n)%nat -> in_re (rupto n (RChar p)) s.
Proof.
  revert n. induction s as [|c s IH]; intros n Hs Hn.
  - destruct n; [constructor|]. apply in_alt_l. constructor.
  - destruct n as [|n]; [cbn in Hn; lia|]. cbn [sall] in Hs. apply andb_true_iff in Hs as [Hc Hs]. cbn in Hn.
    cbn [rupto]. apply in_alt_r. change (String c s) with (String c "" +:+ s). constructor; [by constructor|]. apply IH; [done|lia].
Qed.

Lemma group_seg g : group_text g -> in_re v6Seg g.
Proof.
  intros (Hne & Hs & Hl). assert (sall (fun c => is_digit c || in_range "a" "f" c || in_range "A" "F" c) g = true) as Hs'.
  { revert Hs. apply sall_impl_dec. vm_compute. reflexivity. }
  destruct g as [|c g]; [done|]. cbn [sall] in Hs'. apply andb_true_iff in Hs' as [Hc Hs']. cbn in Hl.
  change (String c g) with (String c "" +:+ g). change v6Seg with (RSeq rhex (rupto 3 rhex)). constructor; [by constructor|]. apply rupto_chars; [done|lia].
Qed.

Definition closed (A : list string) : string := join "" ((fun g => g +:+ ":") <$> A).
Definition opened (B : list string) : string := join "" ((fun g => ":" +:+ g) <$> B).

Lemma join_cons_any sep x l : l <> [] -> join sep (x :: l) = x +:+ sep +:+ join sep l.
Proof. by destruct l. Qed.

Lemma join_nil_cons x l : join "" (x :: l) = x +:+ join "" l.
Proof. destruct l; [cbn; by rewrite sapp_nil_r|done]. Qed.

Lemma closed_cons g A : closed (g :: A) = g +:+ ":" +:+ closed A.
Proof. unfold closed. cbn [fmap list_fmap]. by rewrite join_nil_cons, sapp_assoc. Qed.

Lemma opened_cons g B : opened (g :: B) = ":" +:+ g +:+ opened B.
Proof. unfold opened. cbn [fmap list_fmap]. by rewrite join_nil_cons, sapp_assoc. Qed.

Lemma closed_join A r : A <> [] -> join ":" A +:+ ":" +:+ r = closed A +:+ r.
Proof.
  intros Hne. induction A as [|g A IH]; [done|]. rewrite closed_cons, !sapp_assoc. destruct (decide (A = [])) as [->|HA]; [done|].
  rewrite join_cons_any, !sapp_assoc by done. by rewrite IH.
Qed.

Lemma opened_join B : B <> [] -> ":" +:+ join ":" B = opened B.
Proof.
  intros Hne. induction B as [|g B IH]; [done|]. rewrite opened_cons. destruct (decide (B = [])) as [->|HB]; [by rewrite sapp_nil_r|].
  rewrite join_cons_any by done. by rewrite IH.
Qed.

Lemma closed_re n A : length A = n -> Forall group_text A -> in_re (segs n) (closed A).
Proof.
  intros Hn HA. apply rrep_list; [lia|]. eapply Forall_impl; [exact HA|]. intros g Hg. constructor; [by apply group_seg|].
  apply re_test_spec. reflexivity.
Qed.

Lemma opened_re n m B : (n <= length B <= n + m)%nat -> Forall group_text B -> in_re (colon_segs n m) (opened B).
Proof.
  intros Hn HB. apply rrep_list; [done|]. eapply Forall_impl; [exact HB|]. intros g Hg. constructor; [apply re_test_spec; reflexivity|by apply group_seg].
Qed.

Lemma colon_re : in_re colon ":".
Proof. apply re_test_spec. reflexivity. Qed.

(** The groups behind "::": none, or up to one more than [m]. *)
Lemma opened_or_end m B X : (length B <= S (S m))%nat -> Forall group_text B ->
  in_re (RAlt X (RAlt (colon_segs 1 (S m)) colon)) (":" +:+ join ":" B).
Proof.
  intros Hl HB. apply in_alt_r. destruct (decide (B = [])) as [->|Hne]; [apply in_alt_r, colon_re|].
  apply in_alt_l. rewrite opened_join by done. apply opened_re; [|done]. destruct B; [done|cbn in *; lia].
Qed.

Lemma line_re n m A B : length A = n -> (0 < n)%nat -> (length B <= S (S m))%nat -> Forall group_text A -> Forall group_text B ->
  in_re (v6_line n m) (join ":" A +:+ "::" +:+ join ":" B).
Proof.
  intros HA Hn HB HgA HgB. change ("::" +:+ join ":" B) with (":" +:+ ":" +:+ join ":" B). rewrite closed_join by (by intros ->; cbn in HA; lia).
  constructor; [by apply closed_re|by apply opened_or_end].
Qed.

Lemma v6_re n : re_test IPV6_RE (bigToV6 n) = true.
Proof.
  apply re_test_spec. unfold IPV6_RE. rewrite <- (sapp_nil_r (bigToV6 n)). constructor; [|apply in_alt_l; constructor].
  unfold bigToV6. destruct (hex_groups _ (hextets_range n)) as [Ht _]. assert (length (hex_show <$> hextets n) = 8%nat) as Hlen by done.
  generalize dependent (hex_show <$> hextets n). intros gs Ht Hlen. unfold shorten. destruct (best_run _ _ _ _) as [[i k]|] eqn:Hb.
  - apply (best_run_spec _ gs 0 None) in Hb; [|done]. destruct Hb as (Hk & Hik & _). cbn in Hk, Hik.
    assert (length (take i gs) = i) as HA by (rewrite length_take; lia). assert (length (drop (i + k) gs) <= 6 - i)%nat as HB by (rewrite length_drop; lia).
    assert (Forall group_text (take i gs)) as HgA by (by apply Forall_take). assert (Forall group_text (drop (i + k) gs)) as HgB by (by apply Forall_drop).
    generalize dependent (take i gs). generalize dependent (drop (i + k) gs). intros B HB HgB A HA HgA. apply in_alt_r.
    assert (i <= 6)%nat as Hi by lia. destruct i as [|[|[|[|[|[|[|i]]]]]]]; [..|lia]; cbn in HB.
    + destruct A; [|done]. change (join ":" [] +:+ "::" +:+ join ":" B) with (":" +:+ (":" +:+ join ":" B)). do 6 apply in_alt_r.
      constructor; [apply colon_re|]. apply opened_or_end; [lia|done].
    + do 5 apply in_alt_r. apply in_alt_l. apply line_re; [done|lia|lia|done|done].
    + do 4 apply in_alt_r. apply in_alt_l. apply line_re; [done|lia|lia|done|done].
    + do 3 apply in_alt_r. apply in_alt_l. apply line_re; [done|lia|lia|done|done].
    + do 2 apply in_alt_r. apply in_alt_l. apply line_re; [done|lia|lia|done|done].
    + do 1 apply in_alt_r. apply in_alt_l. apply line_re; [done|lia|lia|done|done].
    + apply in_alt_l. destruct B; [|cbn in HB; lia]. change (join ":" A +:+ "::" +:+ join ":" []) with (join ":" A +:+ ":" +:+ ":").
      rewrite closed_join by (by intros ->). constructor; [by apply closed_re|]. do 2 apply in_alt_r. apply colon_re.
  - apply in_alt_l. assert (exists A g, gs = A ++ [g] /\ length A = 7%nat) as (A & g & -> & HA).
    { exists (take 7 gs). destruct (drop 7 gs) as [|g r] eqn:Hd; [apply (f_equal length) in Hd; rewrite length_drop in Hd; cbn in Hd; lia|].
      exists g. split; [|rewrite length_take; lia]. rewrite <- (take_drop 7 gs) at 1. rewrite Hd. f_equal.
      apply (f_equal length) in Hd. rewrite length_drop in Hd. destruct r; [done|cbn in Hd; lia]. }
    apply Forall_app in Ht as [HgA Hg]. assert (join ":" (A ++ [g]) = closed A +:+ g) as ->.
    { clear. induction A as [|a A IH]; [done|]. rewrite closed_cons, <- app_comm_cons, join_cons_any by (by destruct A). by rewrite IH, !sapp_assoc. }
    constructor; [by apply closed_re|]. apply in_alt_l, group_seg. by apply Forall_cons in Hg as [? _].
Qed.

Lemma index_of_app d s t : no_char d s -> index_of d (s +:+ String d t) = Some (String.length s).
Proof.
  unfold no_char. induction s as [|c s IH]; cbn [sall].
  - intros _. rewrite sapp_nil_l. cbn [index_of]. by rewrite decide_True.
  - rewrite andb_true_iff. intros [Hc Hs]. rewrite sapp_String. cbn [index_of]. unfold is_char in Hc.
    rewrite decide_False by (by apply negb_true_iff, bool_decide_eq_false in Hc). by rewrite IH.
Qed.

Lemma cut_app d s t : stake (String.length s) (s +:+ String d t) = s /\ sdrop (S (String.length s)) (s +:+ String d t) = t.
Proof. induction s as [|c s [IH1 IH2]]; [done|]. rewrite sapp_String. cbn [String.length stake sdrop]. by rewrite IH1. Qed.

Definition octet_seg (o : Z) : bool := re_test v4Seg (showZ o).

Lemma v4_re n : is_address false n -> re_test v4Str (bigToV4 n) = true.
Proof.
  intros Hn. rewrite bigToV4_eq. assert (forall x, in_re v4Seg (showZ (x mod 256))) as Ho.
  { intros x. apply re_test_spec. assert (octet_seg (x mod 256) = true) as H; [|exact H].
    apply (forall_range 256); [vm_compute; reflexivity|by apply Z.mod_pos_bound]. }
  rewrite <- (Z.mod_small n (2 ^ 32)) at 4 by done. apply re_test_spec. change v4Str with (RSeq (rrep 3 0 (RSeq v4Seg (rlit "."))) v4Seg).
  pose proof (Ho (n / 2 ^ 24)) as H1. pose proof (Ho (n / 2 ^ 16)) as H2. pose proof (Ho (n / 2 ^ 8)) as H3. pose proof (Ho (n mod 2 ^ 32)) as H4.
  generalize dependent (showZ (n / 2 ^ 24 mod 256)). intros a H1. generalize dependent (showZ (n / 2 ^ 16 mod 256)). intros b H2.
  generalize dependent (showZ (n / 2 ^ 8 mod 256)). intros c H3. generalize dependent (showZ ((n mod 2 ^ 32) mod 256)). intros d H4.
  assert (join "." [a; b; c; d] = join "" ((fun g => g +:+ ".") <$> [a; b; c]) +:+ d) as ->.
  { cbn. by rewrite !sapp_assoc. }
  constructor; [|done]. apply rrep_list; [cbn; lia|]. assert (in_re (rlit ".") ".") as Hdot by (apply re_test_spec; reflexivity).
  repeat (apply Forall_cons_2; [by apply in_seq|]). apply Forall_nil_2.
Qed.

Definition prefix_ok (p : Z) : bool := re_test (rrep 1 2 rdigit) (showZ p).

Lemma isCidr_show v6 b : is_address v6 b.1 -> 0 <= b.2 <= bits_of v6 -> isCidr (show_block v6 b) = true.
Proof.
  destruct b as [n s]. cbn [fst snd]. intros Hn Hs. destruct (address_text v6 n) as (Hno & Hc & _). unfold show_block. cbn [fst snd].
  assert (0 <= bits_of v6 - s <= 128) as Hp by (destruct v6; cbn in *; lia). set (p := bits_of v6 - s) in *.
  set (a := if v6 then bigToV6 n else bigToV4 n) in *. assert (a <> "") as Hne by (intros Ha; subst a; destruct v6; [pose proof (v6_re n) as H; rewrite Ha in H; vm_compute in H; done|pose proof (v4_re n Hn) as H; rewrite Ha in H; vm_compute in H; done]).
  unfold isCidr. change (a +:+ "/" +:+ showZ p) with (a +:+ String "/" (showZ p)). rewrite index_of_app by done.
  destruct (String.length a) as [|l] eqn:Hl; [by destruct a|]. rewrite <- Hl. destruct (cut_app "/" a (showZ p)) as [-> ->].
  assert (prefix_ok p = true) as Hpre by (apply (forall_range 129); [vm_compute; reflexivity|lia]). unfold prefix_ok in Hpre. rewrite Hpre. cbn [negb].
  rewrite num_showZ by lia. unfold nonempty. rewrite bool_decide_eq_true_2 by done. destruct v6; subst a.
  - assert (re_test v4Str (bigToV6 n) = false) as ->.
    { destruct (re_test v4Str (bigToV6 n)) eqn:Hv; [|done]. apply (re_chars (fun c => negb (is_char ":" c))) in Hv; [|vm_compute; reflexivity].
      unfold has_char in Hc. rewrite Hv in Hc. done. }
    rewrite v6_re. assert (sall is_hex_or_colon (bigToV6 n) = true) as ->.
    { eapply sall_impl_dec; [|apply v6_chars]. vm_compute. reflexivity. }
    cbn [andb]. apply Z.leb_le. lia.
  - rewrite v4_re by done. assert (sall (fun c => is_digit c || is_char "." c) (bigToV4 n) = true) as -> by apply v4_chars. cbn [andb].
    rewrite !andb_true_r. apply Z.leb_le. cbn in *. lia.
Qed.

(** * The least list of networks *)

(** A row of one of the countries, with its first and last address. *)
Definition wanted_row (countries : list string) (line : string) : option (string * string) :=
  if decide (line = "") then None
  else
    let parts := split_char "," (trim line) in
    cc ← parts !! 2%nat;
    if set_has countries cc then Some (part parts 0, part parts 1) else None.

Definition in_rows (csv : string) (countries : list string) (v6 : bool) (x : Z) : Prop :=
  exists line a b lo hi, line ∈ split_char nl csv /\ wanted_row countries line = Some (a, b) /\ row_span a b = Ok (v6, (lo, hi)) /\ lo <= x <= hi.

(** The rows of the countries name ranges of one family that exist. *)
Definition rows_fine (csv : string) (countries : list string) : Prop :=
  forall line a b, line ∈ split_char nl csv -> wanted_row countries line = Some (a, b) ->
  exists v6 lo hi, row_span a b = Ok (v6, (lo, hi)) /\ 0 <= lo /\ hi < 2 ^ bits_of v6.

(** The addresses of a list of networks, by the texts alone. *)
Definition admits (ranges : list string) (v6 : bool) (x : Z) : Prop :=
  exists s b, s ∈ ranges /\ read_block s = Some (v6, b) /\ in_block x b.

Definition family (v6 : bool) (s : spans) : list (Z * Z) := if v6 then sp_v6 s else sp_v4 s.

Lemma dbip_row_spec countries s line :
  match wanted_row countries line with
  | Some (a, b) => forall v6 sp, row_span a b = Ok (v6, sp) -> exists s', dbip_row countries s line = Ok s' /\
      forall f, family f s' = family f s ++ (if Bool.eqb f v6 then [sp] else [])
  | None => exists s', dbip_row countries s line = Ok s' /\ forall f, family f s' = family f s
  end.
Proof.
  unfold wanted_row, dbip_row. destruct (decide (line = "")); [by exists s|].
  destruct (split_char "," (trim line) !! 2%nat) as [cc|]; cbn [mbind option_bind]; [|by eexists].
  destruct (set_has countries cc); [|by eexists]. intros v6 sp ->. eexists. split; [reflexivity|].
  intros []; destruct v6; cbn; by rewrite ?app_nil_r.
Qed.

Lemma dbip_rows_spec countries lines s :
  (forall line a b, line ∈ lines -> wanted_row countries line = Some (a, b) -> exists r, row_span a b = Ok r) ->
  exists s', foldM (dbip_row countries) s lines = Ok s' /\
    forall f sp, sp ∈ family f s' <-> sp ∈ family f s \/ exists line a b, line ∈ lines /\ wanted_row countries line = Some (a, b) /\ row_span a b = Ok (f, sp).
Proof.
  revert s. induction lines as [|line lines IH]; intros s Hl.
  { exists s. split; [done|]. intros f sp. split; [by left|]. intros [?|(? & ? & ? & ?%elem_of_nil & _)]; done. }
  cbn [foldM]. pose proof (dbip_row_spec countries s line) as Hrow.
  assert (forall line0 a b, line0 ∈ lines -> wanted_row countries line0 = Some (a, b) -> exists r, row_span a b = Ok r) as Hl' by (intros; eapply Hl; [by right|done]).
  destruct (wanted_row countries line) as [[a b]|] eqn:Hw.
  - destruct (Hl line a b ltac:(left) Hw) as [[v6 sp0] Hr]. destruct (Hrow v6 sp0 Hr) as (s1 & -> & Hf). cbn [mbind result_bind].
    destruct (IH s1 Hl') as (s' & -> & Hs). exists s'. split; [done|]. intros f sp. rewrite Hs, Hf, elem_of_app. split.
    + intros [[?|Hin]|(l & a' & b' & ? & ? & ?)]; [by left| |right; exists l, a', b'; split; [by right|done]].
      right. exists line, a, b. destruct (Bool.eqb f v6) eqn:He; [|by apply elem_of_nil in Hin]. apply Bool.eqb_prop in He as ->.
      apply list_elem_of_singleton in Hin as ->. split; [left|done].
    + intros [?|(l & a' & b' & [->|Hin]%elem_of_cons & Hw' & Hr')]; [tauto| |right; by exists l, a', b'].
      left; right. rewrite Hw in Hw'. injection Hw' as <- <-. rewrite Hr in Hr'. injection Hr' as <- <-. rewrite Bool.eqb_reflx. left.
  - destruct Hrow as (s1 & -> & Hf). cbn [mbind result_bind]. destruct (IH s1 Hl') as (s' & -> & Hs). exists s'. split; [done|].
    intros f sp. rewrite Hs, Hf. split.
    + intros [?|(l & a' & b' & ? & ? & ?)]; [by left|right; exists l, a', b'; split; [by right|done]].
    + intros [?|(l & a' & b' & [->|Hin]%elem_of_cons & Hw' & Hr')]; [by left|congruence|right; by exists l, a', b'].
Qed.

(** ** One family *)

Definition span_in (v6 : bool) (s : Z * Z) : Prop := 0 <= s.1 /\ s.1 <= s.2 /\ s.2 < 2 ^ bits_of v6.

Lemma family_ranges_blocks v6 l : family_ranges v6 l = show_block v6 <$> spans_blocks (bits_of v6) (merge_spans None (merge_sort span_le l)).
Proof.
  unfold family_ranges, spans_blocks, bigRangeToCidrs. induction (merge_spans _ _) as [|r k IH]; [done|].
  cbn [mbind list_bind]. by rewrite fmap_app, IH.
Qed.

#[local] Instance span_le_total : Total span_le.
Proof. intros a b. unfold span_le. lia. Qed.
#[local] Instance span_le_trans : Transitive span_le.
Proof. intros a b c. unfold span_le. lia. Qed.

Lemma merged_spec v6 l : Forall (span_in v6) l -> let m := merge_spans None (merge_sort span_le l) in
  Forall (fun s => s.1 <= s.2) m /\ StronglySorted apart m /\ forall x, in_spans x m <-> in_spans x l.
Proof.
  cbv zeta. intros Hl. assert (forall s, s ∈ merge_sort span_le l <-> s ∈ l) as Hp by (intros s; by rewrite merge_sort_Permutation).
  rewrite Forall_forall in Hl. destruct (merge_spans_spec (merge_sort span_le l) None) as (H1 & H2 & H3 & _).
  - apply Forall_forall. intros s Hs%Hp. by apply Hl.
  - by apply StronglySorted_merge_sort; try apply _.
  - done.
  - split_and!; [done|done|]. intros x. rewrite H3. unfold in_spans. cbn [option_list app]. by setoid_rewrite Hp.
Qed.

Lemma family_spec v6 l : Forall (span_in v6) l -> let bs := spans_blocks (bits_of v6) (merge_spans None (merge_sort span_le l)) in
  Forall (fun b => is_address v6 b.1 /\ 0 <= b.2 <= bits_of v6) bs /\ (forall x, in_blocks x bs <-> in_spans x l) /\
  forall k, Forall (aligned (bits_of v6)) k -> (forall x, in_blocks x k <-> in_spans x l) -> (length bs <= length k)%nat.
Proof.
  cbv zeta. intros Hl. destruct (merged_spec v6 l Hl) as (H1 & H2 & H3). assert (0 <= bits_of v6) as Hb by (by destruct v6).
  set (m := merge_spans _ _) in *. destruct (spans_blocks_exact (bits_of v6) m Hb) as [Hal Hex].
  assert (forall x, in_blocks x (spans_blocks (bits_of v6) m) <-> in_spans x l) as Hex' by (intros x; by rewrite Hex, H3). split_and!; [|done|].
  - rewrite Forall_forall in Hal, Hl |- *. intros b Hin. destruct (Hal b Hin) as [Hs _]. split; [|done].
    destruct (proj1 (Hex' b.1)) as (s & Hs' & Hx); [exists b; split; [done|by apply block_start; destruct Hs]|].
    destruct (Hl s Hs') as (? & ? & ?). unfold is_address. lia.
  - intros k Hk He. apply spans_blocks_least; [done|done|done|done|]. intros x. by rewrite He, H3.
Qed.

Lemma admits_shown v6 f bs x : Forall (fun b => is_address v6 b.1 /\ 0 <= b.2 <= bits_of v6) bs ->
  admits (show_block v6 <$> bs) f x <-> f = v6 /\ in_blocks x bs.
Proof.
  rewrite Forall_forall. intros Hbs. split.
  - intros (s & b & (b' & -> & Hin)%list_elem_of_fmap & Hr & Hx). destruct (Hbs _ Hin) as [? ?]. rewrite read_show_block in Hr by done.
    injection Hr as <- <-. split; [done|by exists b'].
  - intros (-> & b & Hin & Hx). destruct (Hbs _ Hin) as [? ?]. exists (show_block v6 b), b. split; [|split; [by apply read_show_block|done]].
    apply list_elem_of_fmap. by exists b.
Qed.

(** ** Both families *)

Lemma admits_app l k v6 x : admits (l ++ k) v6 x <-> admits l v6 x \/ admits k v6 x.
Proof.
  unfold admits. split.
  - intros (s & b & [?|?]%elem_of_app & ? & ?); [left|right]; by exists s, b.
  - intros [(s & b & ? & ? & ?)|(s & b & ? & ? & ?)]; exists s, b; (split; [apply elem_of_app; tauto|done]).
Qed.

Definition of_family (v6 : bool) (s : string) : option block :=
  match read_block s with Some (f, b) => if Bool.eqb f v6 then Some b else None | None => None end.

Lemma of_family_lengths other : (length (omap (of_family false) other) + length (omap (of_family true) other) <= length other)%nat.
Proof.
  induction other as [|s other IH]; [done|]. cbn [omap list_omap length].
  assert (of_family false s = None \/ of_family true s = None) as Hn by (unfold of_family; destruct (read_block s) as [[[] b]|]; auto).
  destruct Hn as [Hn|Hn]; rewrite Hn; [destruct (of_family true s)|destruct (of_family false s)]; cbn [length]; lia.
Qed.

Lemma of_family_admits v6 other x : in_blocks x (omap (of_family v6) other) <-> admits other v6 x.
Proof.
  unfold in_blocks, admits. setoid_rewrite list_elem_of_omap. unfold of_family. split.
  - intros (b & (s & Hs & Hr) & Hx). exists s, b. split; [done|]. split; [|done]. destruct (read_block s) as [[f b']|]; [|done].
    destruct (Bool.eqb f v6) eqn:He; [|done]. apply Bool.eqb_prop in He as ->. by injection Hr as ->.
  - intros (s & b & Hs & Hr & Hx). exists b. split; [|done]. exists s. split; [done|]. by rewrite Hr, Bool.eqb_reflx.
Qed.

(** C35. A list with fine rows is accepted; its networks have exactly the addresses of the rows of
    the countries, in both families, and no list of networks with these addresses is
    shorter. *)
Theorem parseDbip_least csv countries : rows_fine csv countries -> exists r, parseDbip csv countries = Ok r /\
  (forall v6 x, admits (db_ranges r) v6 x <-> in_rows csv countries v6 x) /\
  forall other, (forall s, s ∈ other -> exists v6 b, read_block s = Some (v6, b) /\ aligned (bits_of v6) b) ->
    (forall v6 x, admits other v6 x <-> in_rows csv countries v6 x) -> (length (db_ranges r) <= length other)%nat.
Proof.
  intros Hfine. unfold parseDbip. set (s0 := Spans _ _ _ _). destruct (dbip_rows_spec countries (split_char nl csv) s0) as (s & -> & Hs).
  { intros line a b Hin Hw. destruct (Hfine line a b Hin Hw) as (v6 & lo & hi & Hr & _). by eexists. }
  assert (forall f sp, sp ∈ family f s <-> exists line a b, line ∈ split_char nl csv /\ wanted_row countries line = Some (a, b) /\ row_span a b = Ok (f, sp)) as Hs'.
  { intros f sp. rewrite Hs. subst s0. split; [|by right]. intros [Hin|?]; [|done]. destruct f; by apply elem_of_nil in Hin. }
  assert (forall f, Forall (span_in f) (family f s)) as Hin.
  { intros f. apply Forall_forall. intros [lo hi] (line & a & b & Hl & Hw & Hr)%Hs'. destruct (Hfine line a b Hl Hw) as (v6 & lo' & hi' & Hr' & Hlo & Hhi).
    rewrite Hr in Hr'. injection Hr' as <- <- <-. unfold span_in. cbn. split; [done|]. split; [|done].
    unfold row_span in Hr. inv_ok. lia. }
  assert (forall f x, in_spans x (family f s) <-> in_rows csv countries f x) as Hrows.
  { intros f x. unfold in_spans, in_rows. split.
    - intros ([lo hi] & (line & a & b & ? & ? & ?)%Hs' & ?). by exists line, a, b, lo, hi.
    - intros (line & a & b & lo & hi & ? & ? & ? & ?). exists (lo, hi). split; [|done]. apply Hs'. by exists line, a, b. }
  change (sp_v4 s) with (family false s). change (sp_v6 s) with (family true s). cbn [mbind result_bind]. rewrite !family_ranges_blocks.
  destruct (family_spec false _ (Hin false)) as (H4a & H4x & H4m). destruct (family_spec true _ (Hin true)) as (H6a & H6x & H6m).
  set (b4 := spans_blocks (bits_of false) _) in *. set (b6 := spans_blocks (bits_of true) _) in *. clearbody b4 b6.
  assert (existsb (fun cidr => negb (isCidr cidr)) ((show_block false <$> b4) ++ (show_block true <$> b6)) = false) as ->.
  { apply existsb_false. intros c [(b & -> & Hb)%list_elem_of_fmap|(b & -> & Hb)%list_elem_of_fmap]%elem_of_app; apply negb_false_iff.
    - rewrite Forall_forall in H4a. destruct (H4a b Hb). by apply isCidr_show. - rewrite Forall_forall in H6a. destruct (H6a b Hb). by apply isCidr_show. }
  cbn [throw_if mbind result_bind]. eexists. split; [reflexivity|]. cbn [db_ranges]. split.
  - intros v6 x. rewrite <- Hrows, admits_app, (admits_shown false v6 b4 x H4a), (admits_shown true v6 b6 x H6a), H4x, H6x.
    clear. destruct v6; intuition congruence.
  - intros other Hother Hex. rewrite length_app, !length_fmap. pose proof (of_family_lengths other).
    assert (forall f, Forall (aligned (bits_of f)) (omap (of_family f) other)) as Hal.
    { intros f. apply Forall_forall. intros b (s1 & Hs1 & Hr)%list_elem_of_omap. destruct (Hother s1 Hs1) as (v6 & b' & Hr' & Hal). unfold of_family in Hr.
      rewrite Hr' in Hr. destruct (Bool.eqb v6 f) eqn:He; [|done]. apply Bool.eqb_prop in He as ->. by injection Hr as ->. }
    assert (forall f x, in_blocks x (omap (of_family f) other) <-> in_spans x (family f s)) as Hk by (intros f x; by rewrite of_family_admits, Hex, Hrows).
    specialize (H4m _ (Hal false) (Hk false)). specialize (H6m _ (Hal true) (Hk true)). lia.
Qed.

(** * The file *)

Definition PRIVATE_RANGES : list string :=
  ["127.0.0.0/8"; "10.0.0.0/8"; "172.16.0.0/12"; "192.168.0.0/16"; "100.64.0.0/10"; "::1/128"; "fc00::/7"; "fe80::/10"].
Definition SOURCE_LABEL : string := "IP Geolocation by DB-IP (db-ip.com, CC BY 4.0)".
Definition CONF_FORMAT : Z := 2.
Definition HEADER_FORMAT : string := "# Format: ".
Definition HEADER_COUNTRIES : string := "# Länder: ".
Definition HEADER_STAND : string := "# Stand: ".
Definition HEADER_COUNT : string := "# Netze: ".
Definition MARK_FALLBACK : string := "NOTFASSUNG".

Definition dq : string := String dquote "".
Definition allow_line (r : string) : string := "  " +:+ r +:+ " 1;".

(** The rules: the private networks, the list, and what passes. *)
Definition conf_tail (ranges : list string) : list string :=
  ["log_format fg_geo '$msec $remote_addr $host';";
   "geo $fg_geo_allowed {";
   "  default 0;"] ++
  (allow_line <$> PRIVATE_RANGES) ++ (allow_line <$> ranges) ++
  ["}";
   "map " +:+ dq +:+ "$fg_geo_allowed:$uri" +:+ dq +:+ " $fg_geo_deny {";
   "  default 1;";
   "  " +:+ dq +:+ "~^1:" +:+ dq +:+ " 0;";
   "  " +:+ dq +:+ "~^0:/\.well-known/acme-challenge/" +:+ dq +:+ " 0;";
   "}";
   ""].

(** The lines of the file; [stand] is the time as [toISOString] writes it. *)
Definition conf_lines (ranges countries : list string) (stand : string) (complete : bool) : list string :=
  ["# Von FloppyGuard erzeugt – Länder-Filter (Proxy-Host-Option, Einstellungen → Länder-Filter). Nicht von Hand ändern.";
   HEADER_FORMAT +:+ showZ CONF_FORMAT;
   HEADER_COUNTRIES +:+ join "," countries;
   HEADER_STAND +:+ stand +:+ " · " +:+ SOURCE_LABEL;
   if complete then HEADER_COUNT +:+ showZ (Z.of_nat (length ranges))
   else "# NOTFASSUNG: Länderliste fehlt – nur private Netze erlaubt (fail-closed)"] ++ conf_tail ranges.

Definition renderConf (ranges countries : list string) (stand : string) (complete : bool) : string :=
  join (String nl "") (conf_lines ranges countries stand complete).

Record conf_info := ConfInfo {
  ci_exists : bool; ci_countries : list string; ci_updatedAt : option string; ci_ranges : jsnum; ci_fallback : bool; ci_format : jsnum }.

(** The rest of the first line that begins with the prefix. *)
Definition header_value (head : list string) (prefix : string) : string :=
  match bfind (starts_with prefix) head with Some l => sdrop (String.length prefix) l | None => "" end.

Definition num_or (d : Z) (n : jsnum) : jsnum := if num_truthy n then n else NInt d.

Definition readConfInfo (file : option string) : conf_info :=
  match file with
  | None => ConfInfo false [] None (NInt 0) true (NInt 0)
  | Some text =>
      let head := take 8 (split_char nl text) in
      let stand := part (split_char " " (header_value head HEADER_STAND)) 0 in
      ConfInfo true
        (bfilter nonempty (split_char "," (header_value head HEADER_COUNTRIES)))
        (if decide (stand = "") then None else Some stand)
        (num_or 0 (string_to_num (header_value head HEADER_COUNT)))
        (includes MARK_FALLBACK text)
        (num_or 1 (string_to_num (header_value head HEADER_FORMAT)))
  end.

(** The text without its time stamp. *)
Definition conf_body (text : string) : string :=
  join (String nl "") (bfilter (fun l => negb (starts_with HEADER_STAND l)) (split_char nl text)).

Definition sameList (a b : list string) : bool := bool_decide (a = b).

(** * The refresh *)

Definition MIN_ROWS : Z := 200000.
Definition MAX_AGE_MS : Z := 7 * 24 * 60 * 60 * 1000.

Inductive geo_failure :=
| FetchFailed
| BadList (e : geo_error)
| TooFewRows (rows : Z)
| NoNetworks
| ReloadFailed.

(** The settings file, the file of nginx with its age, and the request in flight with the
    countries it read at its start. [g_reloads] counts the reloads of nginx that succeeded. *)
Record geo := Geo {
  g_settings : option jsval; g_conf : option string; g_mtime : Z; g_lastError : option geo_failure;
  g_processing : option (list string); g_reloads : nat }.

(** The body of a file that is there counts as unchanged; its age is reset either way. *)
Definition writeIfChanged (text : string) (now : Z) (g : geo) : geo * bool :=
  match g_conf g with
  | Some current =>
      if bool_decide (conf_body current = conf_body text) then ({ g with g_mtime := now }, false)
      else ({ g with g_conf := Some text; g_mtime := now }, true)
  | None => ({ g with g_conf := Some text; g_mtime := now }, true)
  end.

Definition ensureConf (stand : string) (now : Z) (g : geo) : geo :=
  match g_conf g with
  | Some _ => g
  | None => (writeIfChanged (renderConf [] (readSettings (g_settings g)) stand false) now g).1
  end.

Definition conf_stale (now : Z) (g : geo) : bool :=
  let info := readConfInfo (g_conf g) in
  match g_conf g with Some _ => MAX_AGE_MS <=? now - g_mtime g | None => true end || ci_fallback info ||
  negb (bool_decide (num_int (ci_format info) = Some CONF_FORMAT)) || negb (sameList (ci_countries info) (readSettings (g_settings g))).

(** What a call of [refresh] does at once: it joins the request in flight, finds nothing to do
    or starts a request. *)
Inductive started := Joined | NotNeeded | Started.

Definition refresh_start (force : bool) (now : Z) (g : geo) : geo * started :=
  match g_processing g with
  | Some _ => (g, Joined)
  | None => if negb force && negb (conf_stale now g) then (g, NotNeeded)
            else ({ g with g_processing := Some (readSettings (g_settings g)) }, Started)
  end.

(** The networks of a fetched list, or why it is not used. *)
Definition load_list (fetched : option string) (countries : list string) : result geo_failure (list string) :=
  match fetched with
  | None => Throw FetchFailed
  | Some csv =>
      match parseDbip csv countries with
      | Throw e => Throw (BadList e)
      | Ok db =>
          throw_if (db_rows db <? MIN_ROWS) (TooFewRows (db_rows db));;
          let empty := bfilter (fun c => default 0 (mget c (db_perCountry db)) =? 0) countries in
          throw_if (length empty =? length countries)%nat NoNetworks;;
          Ok (uniq (db_ranges db))
      end
  end.

(** The end of the request in flight; [fetched] is the unpacked list, [stand] and [now] the
    time, [reload_ok] whether nginx takes the new file. *)
Definition refresh_end (fetched : option string) (reload reload_ok : bool) (stand : string) (now : Z) (g : geo) : geo * bool :=
  match g_processing g with
  | None => (g, false)
  | Some countries =>
      let g := { g with g_processing := None } in
      match load_list fetched countries with
      | Throw e => (ensureConf stand now { g with g_lastError := Some e }, false)
      | Ok ranges =>
          let '(g, changed) := writeIfChanged (renderConf ranges countries stand true) now { g with g_lastError := None } in
          if changed && reload then
            if reload_ok then ({ g with g_reloads := S (g_reloads g) }, true)
            else ({ g with g_lastError := Some ReloadFailed }, false)
          else (g, changed)
      end
  end.

(** [save]: the settings are written; a changed choice calls [refresh] with [force]. *)
Definition save_countries (input : jsval) (now : Z) (g : geo) : result countries_error (geo * bool) :=
  countries ← normalizeCountries (vget input "countries");
  let before := readSettings (g_settings g) in
  let g := { g with g_settings := Some (VObj [("countries", strs countries)]) } in
  let changed := negb (sameList before countries) in
  Ok (if changed then ((refresh_start true now g).1, true) else (g, false)).

(** A time as [toISOString] writes it. *)
Definition iso_char (c : ascii) : bool := is_digit c || one_of ["-"; ":"; "."; "T"; "Z"; "+"]%char c.
Definition iso_text (stand : string) : Prop := stand <> "" /\ sall iso_char stand = true.

(** The steps of the service: a request, its start and its end, a saved choice, the check at
    the start of the program. *)
Inductive geo_step (g : geo) : geo -> Prop :=
| StepStart force now : geo_step g (refresh_start force now g).1
| StepEnd fetched reload reload_ok stand now : iso_text stand ->
    geo_step g (refresh_end fetched reload reload_ok stand now g).1
| StepSave input now g' changed : save_countries input now g = Ok (g', changed) -> geo_step g g'
| StepEnsure stand now : iso_text stand -> geo_step g (ensureConf stand now g).

(** * The file is read back *)

Lemma prefix_sep d p s t : no_char d p -> String.prefix p (s +:+ String d t) = String.prefix p s.
Proof.
  unfold no_char. revert s. induction p as [|c p IH]; intros s; [by destruct s|]. cbn [sall]. rewrite andb_true_iff. intros [Hc Hp].
  destruct s as [|e s]; [rewrite sapp_nil_l|rewrite sapp_String]; cbn [String.prefix].
  - destruct (ascii_dec c d) as [->|]; [|done]. unfold is_char in Hc. by rewrite bool_decide_eq_true_2 in Hc.
  - destruct (ascii_dec c e); [by apply IH|done].
Qed.

(** A text without the separator lies in one of the parts. *)
Lemma includes_sep d p s t : p <> "" -> no_char d p -> includes p (s +:+ String d t) = includes p s || includes p t.
Proof.
  intros Hne Hp. induction s as [|c s IH].
  - rewrite sapp_nil_l. cbn [includes]. pose proof (prefix_sep d p "" t Hp) as H. rewrite sapp_nil_l in H. rewrite H.
    destruct p as [|e p]; [done|]. done.
  - rewrite sapp_String. cbn [includes]. rewrite <- sapp_String, prefix_sep by done. rewrite IH.
    cbn [includes]. by destruct (String.prefix p (String c s)).
Qed.

Lemma includes_join d p ls : p <> "" -> no_char d p -> includes p (join (String d "") ls) = existsb (includes p) ls.
Proof.
  intros Hne Hp. induction ls as [|x ls IH]; [cbn; by destruct p|]. destruct ls as [|y ls]; [cbn; by rewrite orb_false_r|].
  change (join (String d "") (x :: y :: ls)) with (x +:+ String d "" +:+ join (String d "") (y :: ls)).
  rewrite sapp_String, sapp_nil_l, includes_sep by done. by rewrite IH.
Qed.

Lemma prefix_sall q p s : String.prefix p s = true -> sall q s = true -> sall q p = true.
Proof.
  revert s. induction p as [|c p IH]; intros s; [done|]. destruct s as [|e s]; [done|]. cbn [String.prefix sall].
  destruct (ascii_dec c e) as [->|]; [|done]. rewrite !andb_true_iff. intros Hp [Hc Hs]. split; [done|by eapply IH].
Qed.

Lemma includes_sall q p s : includes p s = true -> sall q s = true -> sall q p = true.
Proof.
  induction s as [|c s IH]; cbn [includes]; destruct (String.prefix p _) eqn:Hp; intros Hi Hs; try done.
  - by eapply prefix_sall. - by eapply prefix_sall. - cbn [sall] in Hs. apply andb_true_iff in Hs as [_ Hs]. by apply IH.
Qed.

Lemma not_in_text q p s : sall q s = true -> sall q p = false -> includes p s = false.
Proof. intros Hs Hp. destruct (includes p s) eqn:Hi; [|done]. rewrite (includes_sall q p s Hi Hs) in Hp. done. Qed.

(** ** Its lines *)

(** What the lines are made of. *)
Definition code_ok (c : string) : bool :=
  sall is_upper c && nonempty c && negb (includes MARK_FALLBACK (HEADER_COUNTRIES +:+ c)) && negb (includes MARK_FALLBACK c).

Lemma iso_codes_ok : forallb code_ok ISO_CODES = true.
Proof. vm_compute. reflexivity. Qed.

Definition net_char (c : ascii) : bool := is_digit c || is_hex_or_colon c || one_of ["."; "/"]%char c.
Definition nets_ok (ranges : list string) : Prop := Forall (fun r => sall net_char r = true) ranges.
Definition codes_ok (countries : list string) : Prop := Forall (fun c => code_ok c = true) countries.

Lemma codes_char p countries : codes_ok countries -> forallb (fun c => implb (is_upper c) (p c)) all_chars = true ->
  Forall (fun c => sall p c = true) countries.
Proof.
  intros Hc Hp. eapply Forall_impl; [exact Hc|]. intros c. unfold code_ok. rewrite !andb_true_iff. intros [[[Hu _] _] _].
  revert Hu. by apply sall_impl_dec.
Qed.

Definition line_char (c : ascii) : bool := negb (is_char nl c).

Lemma conf_lines_no_nl ranges countries stand complete : nets_ok ranges -> codes_ok countries -> iso_text stand ->
  Forall (no_char nl) (conf_lines ranges countries stand complete).
Proof.
  intros Hr Hc [_ Hs]. unfold conf_lines, conf_tail. repeat apply Forall_app_2.
  - repeat apply Forall_cons_2; try apply Forall_nil_2; try (vm_compute; reflexivity).
    + apply no_char_app; [vm_compute; reflexivity|]. apply no_char_join; [vm_compute; reflexivity|]. apply (codes_char _ _ Hc). vm_compute. reflexivity.
    + apply no_char_app; [vm_compute; reflexivity|]. apply no_char_app; [|vm_compute; reflexivity]. revert Hs. apply sall_impl_dec. vm_compute. reflexivity.
    + destruct complete; [|vm_compute; reflexivity]. apply no_char_app; [vm_compute; reflexivity|].
      eapply sall_impl_dec; [|apply showZ_digits; lia]. vm_compute. reflexivity.
  - repeat apply Forall_cons_2; try apply Forall_nil_2; vm_compute; reflexivity.
  - apply Forall_fmap, (Forall_impl (fun r => sall net_char r = true)); [repeat constructor|].
    intros r Hr'. cbn. unfold allow_line. apply no_char_app; [vm_compute; reflexivity|]. apply no_char_app; [|vm_compute; reflexivity].
    revert Hr'. apply sall_impl_dec. vm_compute. reflexivity.
  - apply Forall_fmap, (Forall_impl (fun r => sall net_char r = true)); [done|].
    intros r Hr'. cbn. unfold allow_line. apply no_char_app; [vm_compute; reflexivity|]. apply no_char_app; [|vm_compute; reflexivity].
    revert Hr'. apply sall_impl_dec. vm_compute. reflexivity.
  - repeat apply Forall_cons_2; try apply Forall_nil_2; vm_compute; reflexivity.
Qed.

Lemma split_conf ranges countries stand complete : nets_ok ranges -> codes_ok countries -> iso_text stand ->
  split_char nl (renderConf ranges countries stand complete) = conf_lines ranges countries stand complete.
Proof. intros. apply split_join_sep; [done|by apply conf_lines_no_nl]. Qed.

Lemma allow_no_mark r : sall net_char r = true -> includes MARK_FALLBACK (allow_line r) = false.
Proof.
  intros Hr. apply (not_in_text (fun c => negb (is_char "N" c))); [|vm_compute; reflexivity]. unfold allow_line. rewrite !sall_app.
  apply andb_true_iff. split; [done|]. apply andb_true_iff. split; [|done]. revert Hr. apply sall_impl_dec. vm_compute. reflexivity.
Qed.

Lemma countries_no_mark countries : codes_ok countries -> includes MARK_FALLBACK (HEADER_COUNTRIES +:+ join "," countries) = false.
Proof.
  intros Hc. destruct countries as [|c countries]; [vm_compute; reflexivity|]. apply Forall_cons in Hc as [Hc Hcs].
  unfold code_ok in Hc. rewrite !andb_true_iff, !negb_true_iff in Hc. destruct Hc as [[_ H1] _].
  destruct countries as [|d countries]; [done|]. change (join "," (c :: d :: countries)) with (c +:+ String "," (join "," (d :: countries))).
  rewrite <- sapp_assoc, includes_sep, H1, includes_join by (try done; vm_compute; reflexivity). apply existsb_false. intros x Hx.
  rewrite Forall_forall in Hcs. specialize (Hcs x Hx). unfold code_ok in Hcs. rewrite !andb_true_iff, !negb_true_iff in Hcs. tauto.
Qed.

Lemma stand_no_mark stand : sall iso_char stand = true -> includes MARK_FALLBACK (HEADER_STAND +:+ stand +:+ " · " +:+ SOURCE_LABEL) = false.
Proof.
  intros Hs. change (HEADER_STAND +:+ stand +:+ " · " +:+ SOURCE_LABEL) with ("# Stand:" +:+ String " " (stand +:+ String " " ("· " +:+ SOURCE_LABEL))).
  rewrite !includes_sep by (try done; vm_compute; reflexivity). rewrite (not_in_text iso_char _ stand) by (try done; vm_compute; reflexivity).
  vm_compute. reflexivity.
Qed.

Lemma count_no_mark n : 0 <= n -> includes MARK_FALLBACK (HEADER_COUNT +:+ showZ n) = false.
Proof.
  intros Hn. change (HEADER_COUNT +:+ showZ n) with ("# Netze:" +:+ String " " (showZ n)).
  rewrite includes_sep by (try done; vm_compute; reflexivity). rewrite (not_in_text is_digit _ (showZ n)) by (try (by apply showZ_digits); vm_compute; reflexivity).
  vm_compute. reflexivity.
Qed.

Lemma conf_mark ranges countries stand complete : nets_ok ranges -> codes_ok countries -> iso_text stand ->
  includes MARK_FALLBACK (renderConf ranges countries stand complete) = negb complete.
Proof.
  intros Hr Hc [_ Hs]. unfold renderConf. rewrite includes_join by (try done; vm_compute; reflexivity). unfold conf_lines, conf_tail.
  rewrite !existsb_app. assert (existsb (includes MARK_FALLBACK) (allow_line <$> ranges) = false) as ->.
  { apply existsb_false. intros l (r & -> & Hin)%list_elem_of_fmap. unfold nets_ok in Hr. rewrite Forall_forall in Hr. by apply allow_no_mark, Hr. }
  cbn [existsb]. rewrite countries_no_mark, stand_no_mark by done. destruct complete.
  - rewrite count_no_mark by lia. vm_compute. reflexivity.
  - vm_compute. reflexivity.
Qed.

Lemma bfilter_same {A} (p : A -> bool) l : (forall x, x ∈ l -> p x = true) -> bfilter p l = l.
Proof.
  unfold bfilter. induction l as [|x l IH]; intros H; [done|]. cbn. rewrite (H x) by left. f_equal. apply IH. intros y Hy. apply H. by right.
Qed.

Lemma csv_codes countries : codes_ok countries -> bfilter nonempty (split_char "," (join "," countries)) = countries.
Proof.
  intros Hc. destruct (decide (countries = [])) as [->|Hne]; [done|].
  rewrite (split_join_sep ",") by (try done; apply (codes_char _ _ Hc); vm_compute; reflexivity).
  unfold codes_ok in Hc. rewrite Forall_forall in Hc. apply bfilter_same. intros c Hin. specialize (Hc c Hin).
  unfold code_ok in Hc. rewrite !andb_true_iff in Hc. tauto.
Qed.

Lemma string_to_num_show n : 0 <= n -> string_to_num (showZ n) = NInt n.
Proof.
  intros Hn. rewrite string_to_num_digits; [by rewrite num_showZ| |by apply showZ_digits].
  unfold showZ. destruct (n <? 0); [done|]. unfold show_pos. cbn [show_go]. destruct (_ <? 10); [done|]. rewrite show_go_app.
  intros H. apply (f_equal String.length) in H. rewrite slength_app in H. cbn in H. lia.
Qed.

Lemma num_or_int d n : 0 <= n -> num_or d (NInt n) = NInt (if n =? 0 then d else n).
Proof. intros Hn. unfold num_or. cbn. destruct (Z.eqb_spec n 0); done. Qed.

Lemma header_skip l head p : starts_with p l = false -> header_value (l :: head) p = header_value head p.
Proof. intros H. unfold header_value. unfold bfind. cbn [List.find]. by rewrite H. Qed.

Lemma header_hit head p x : header_value ((p +:+ x) :: head) p = x.
Proof.
  unfold header_value, bfind. cbn [List.find]. rewrite starts_with_app. induction p as [|c p IH]; [done|]. rewrite sapp_String. cbn [String.length sdrop]. apply IH.
Qed.

(** The header of the file that was written is what is read: the countries, the time, the
    number of networks, whether it is the emergency file, and its format. *)
Theorem conf_reads_back ranges countries stand complete : nets_ok ranges -> codes_ok countries -> iso_text stand ->
  readConfInfo (Some (renderConf ranges countries stand complete)) =
  ConfInfo true countries (Some stand) (NInt (if complete then Z.of_nat (length ranges) else 0)) (negb complete) (NInt CONF_FORMAT).
Proof.
  intros Hr Hc Hs. unfold readConfInfo. rewrite split_conf, conf_mark by done.
  unfold conf_lines, conf_tail. cbn [app take].
  rewrite !(header_skip _ _ HEADER_COUNTRIES) by reflexivity. rewrite header_hit.
  rewrite (header_skip _ _ HEADER_FORMAT), header_hit by reflexivity.
  rewrite !(header_skip _ _ HEADER_STAND) by reflexivity. rewrite header_hit.
  rewrite !(header_skip _ _ HEADER_COUNT) by reflexivity.
  destruct Hs as [Hne Hs]. change (stand +:+ " · " +:+ SOURCE_LABEL) with (stand +:+ String " " ("· " +:+ SOURCE_LABEL)).
  rewrite split_char_app by (revert Hs; apply sall_impl_dec; vm_compute; reflexivity).
  unfold part at 1 2. cbn [lookup list_lookup default]. rewrite decide_False by done. rewrite csv_codes by done. f_equal.
  destruct complete.
  - rewrite header_hit, string_to_num_show, num_or_int by lia. destruct (Z.eqb_spec (Z.of_nat (length ranges)) 0); congruence.
  - rewrite !(header_skip _ _ HEADER_COUNT) by reflexivity. reflexivity.
Qed.

(** ** The body *)

Definition not_stand (l : string) : bool := negb (starts_with HEADER_STAND l).

(** The lines that count for a change. *)
Definition body_lines (ranges countries : list string) (complete : bool) : list string :=
  let ls := conf_lines ranges countries "" complete in take 3 ls ++ drop 4 ls.

Lemma tail_not_stand ranges l : l ∈ conf_tail ranges -> not_stand l = true.
Proof.
  unfold conf_tail. rewrite !elem_of_app. intros [H|[(r & -> & _)%list_elem_of_fmap|[(r & -> & _)%list_elem_of_fmap|H]]]; [|reflexivity..|];
    revert l H; apply Forall_forall; repeat apply Forall_cons_2; try apply Forall_nil_2; vm_compute; reflexivity.
Qed.

Lemma body_of_lines ranges countries stand complete : bfilter not_stand (conf_lines ranges countries stand complete) = body_lines ranges countries complete.
Proof.
  unfold body_lines, conf_lines. cbn [app take drop].
  assert (bfilter not_stand (conf_tail ranges) = conf_tail ranges) as Ht by (apply bfilter_same; intros; by eapply tail_not_stand).
  unfold bfilter in *. cbn [List.filter]. rewrite Ht.
  assert (forall x, not_stand (HEADER_STAND +:+ x) = false) as -> by (intros x; unfold not_stand; by rewrite starts_with_app).
  by destruct complete.
Qed.

Lemma body_no_nl ranges countries complete : nets_ok ranges -> codes_ok countries -> Forall (no_char nl) (body_lines ranges countries complete).
Proof.
  intros Hr Hc. assert (iso_text "T") as Hs by done. rewrite <- (body_of_lines _ _ "T"). apply Forall_forall. intros l [Hl _]%elem_of_bfilter.
  pose proof (conf_lines_no_nl _ _ _ complete Hr Hc Hs) as H. rewrite Forall_forall in H. by apply H.
Qed.

Lemma conf_body_render ranges countries stand complete : nets_ok ranges -> codes_ok countries -> iso_text stand ->
  conf_body (renderConf ranges countries stand complete) = join (String nl "") (body_lines ranges countries complete).
Proof. intros. unfold conf_body. rewrite split_conf by done. f_equal. apply body_of_lines. Qed.

Lemma allow_line_inj r s : allow_line r = allow_line s -> r = s.
Proof.
  unfold allow_line. intros [= H]. revert s H. induction r as [|c r IH]; intros [|d s]; rewrite ?sapp_nil_l, ?sapp_String; intros H; [done| | |].
  - apply (f_equal String.length) in H. cbn in H. rewrite slength_app in H. cbn in H. lia.
  - apply (f_equal String.length) in H. cbn in H. rewrite slength_app in H. cbn in H. lia.
  - injection H as Hcd H. rewrite Hcd. f_equal. by apply IH.
Qed.

(** Two files with the same body admit the same networks for the same countries. *)
Lemma conf_body_inj r c k r' c' k' : nets_ok r -> codes_ok c -> nets_ok r' -> codes_ok c' ->
  join (String nl "") (body_lines r c k) = join (String nl "") (body_lines r' c' k') -> r = r' /\ c = c' /\ k = k'.
Proof.
  intros Hr Hc Hr' Hc' He. apply (f_equal (split_char nl)) in He. rewrite !split_join_sep in He by (try done; by apply body_no_nl).
  unfold body_lines, conf_lines in He. cbn [app take drop] in He. injection He as Hcs Hk Ht.
  assert (c = c') as ->.
  { rewrite <- (csv_codes c Hc), <- (csv_codes c' Hc'). do 2 f_equal. revert Hcs. clear. unfold HEADER_COUNTRIES. by intros [= ?]. }
  split; [|split; [done|]].
  - apply app_inv_tail in Ht.
    by apply (list_fmap_eq_inj _ allow_line_inj) in Ht.
  - destruct k, k'; try done; unfold HEADER_COUNT in Hk; discriminate Hk.
Qed.

(** * The states of the service *)

Lemma iso_in_ok c : c ∈ ISO_CODES -> code_ok c = true.
Proof. intros Hc. pose proof iso_codes_ok as H. rewrite forallb_true in H. by apply H. Qed.

Lemma no_bad_codes codes l : bfilter (fun c => negb (set_has codes c)) l = [] -> forall c, c ∈ l -> c ∈ codes.
Proof.
  intros H c Hc. destruct (set_has codes c) eqn:Hi; [by apply bool_decide_eq_true in Hi|]. exfalso.
  assert (c ∈ bfilter (fun c => negb (set_has codes c)) l) as Hin by (apply elem_of_bfilter; split; [done|by rewrite Hi]).
  rewrite H in Hin. by apply elem_of_nil in Hin.
Qed.

Lemma normalizeCountries_list l out : normalizeCountries (VArr l) = Ok out ->
  bfilter (fun c => negb (set_has ISO_CODES c)) out = [].
Proof.
  unfold normalizeCountries. generalize ISO_CODES. intros codes. set (o := sort_strings _). clearbody o. intros H.
  apply bind_Ok in H as (? & H1%throw_if_Ok & H). apply bind_Ok in H as (? & _ & H). apply bind_Ok in H as (? & _ & [= <-]).
  by apply negb_false_iff, bool_decide_eq_true in H1.
Qed.

Lemma normalizeCountries_ok input out : normalizeCountries input = Ok out -> codes_ok out.
Proof.
  destruct input as [| | | | |l|]; try done. intros H%normalizeCountries_list. apply Forall_forall. intros c Hc.
  by apply iso_in_ok, (no_bad_codes _ _ H).
Qed.

Lemma default_countries_ok : codes_ok (sort_strings DEFAULT_COUNTRIES).
Proof. apply Forall_forall. intros c Hc%elem_of_sort_strings. revert c Hc. apply Forall_forall. apply (bool_decide_eq_true_1 _). vm_compute. reflexivity. Qed.

Lemma readSettings_ok stored : codes_ok (readSettings stored).
Proof.
  unfold readSettings. destruct stored as [raw|]; [|apply default_countries_ok].
  destruct (normalizeCountries _) eqn:Hn; [by eapply normalizeCountries_ok|apply default_countries_ok].
Qed.
