(* ===== verification/GeoService.v ===== *)
(** The country filter as a service: [backend/internal/geo-filter.js].

    What is true of the file of nginx over all histories of requests, saves and failures. *)

From S2P Require Import Prelude.
From S2P Require Import JsString.
From S2P Require Import JsRegex.
From S2P Require Import JsVal.
From S2P Require Import ConfText.
From S2P Require Import Cidr.
From S2P Require Import IngressRules.
From S2P Require Import WgConf.
From S2P Require Import WgMeta.
From S2P Require Import WgStatus.
From S2P Require Import IpRange.
From S2P Require Import GeoFilter.
From coqutil Require Import Datatypes.RecordSetters.
Import OCamlLikeNotations.

Local Open Scope Z_scope.

Lemma isCidr_chars r : isCidr r = true -> sall net_char r = true.
Proof.
  unfold isCidr. destruct (index_of "/" r) as [[|idx]|] eqn:Hi; try done. intros H.
  assert (forall s n, index_of "/" s = Some n -> s = stake n s +:+ String "/" (sdrop (S n) s)) as Hcut.
  { clear. induction s as [|c s IH]; intros n; cbn [index_of]; [done|]. destruct (decide (c = "/"%char)) as [->|]; [intros [= <-]; by destruct s|].
    destruct (index_of "/" s) as [m|] eqn:Hm; cbn [fmap option_fmap option_map]; [|done]. intros [= <-]. cbn [stake sdrop]. rewrite sapp_String. f_equal.
    by apply IH. }
  rewrite (Hcut r _ Hi), sall_app. cbn [sall]. destruct (negb _) eqn:Hp; [done|]. apply negb_false_iff in Hp.
  assert (sall net_char (sdrop (S (S idx)) r) = true) as ->. { apply (re_chars _ _ _ Hp). vm_compute. reflexivity. }
  rewrite !andb_true_r. destruct (re_test v4Str _).
  - rewrite !andb_true_iff in H. destruct H as [_ H]. revert H. apply sall_impl_dec. vm_compute. reflexivity.
  - rewrite !andb_true_iff in H. destruct H as [[[_ H] _] _]. revert H. apply sall_impl_dec. vm_compute. reflexivity.
Qed.

Lemma load_list_nets fetched countries ranges : load_list fetched countries = Ok ranges -> nets_ok ranges.
Proof.
  unfold load_list. destruct fetched as [csv|]; [|done]. destruct (parseDbip csv countries) as [db|] eqn:Hp; [|done].
  intros H. apply bind_Ok in H as (? & _ & H). apply bind_Ok in H as (? & _ & [= <-]).
  unfold parseDbip in Hp. apply bind_Ok in Hp as (s & _ & Hp). apply bind_Ok in Hp as (? & Hc%throw_if_Ok & [= <-]). cbn [db_ranges].
  apply Forall_forall. intros r Hr. apply isCidr_chars, negb_false_iff. apply (proj1 (existsb_false _ _) Hc r). by apply (elem_of_uniq r).
Qed.

(** The file as the service writes it: a whole list that was fetched for its countries, or the
    emergency file, which admits the private networks only. *)
Definition written (text : string) (ranges countries : list string) (complete : bool) : Prop :=
  nets_ok ranges /\ codes_ok countries /\
  (exists stand, iso_text stand /\ text = renderConf ranges countries stand complete) /\
  if complete then exists csv, load_list (Some csv) countries = Ok ranges else ranges = [].

Definition geo_ok (g : geo) : Prop :=
  match g_conf g with None => True | Some text => exists ranges countries complete, written text ranges countries complete end /\
  match g_processing g with None => True | Some countries => codes_ok countries end.

Lemma write_ok g ranges countries stand complete now : geo_ok g -> written (renderConf ranges countries stand complete) ranges countries complete -> iso_text stand ->
  let g' := (writeIfChanged (renderConf ranges countries stand complete) now g).1 in
  geo_ok g' /\ (exists text, g_conf g' = Some text /\ written text ranges countries complete) /\
  g_settings g' = g_settings g /\ g_processing g' = g_processing g /\ g_lastError g' = g_lastError g /\ g_mtime g' = now /\ g_reloads g' = g_reloads g.
Proof.
  cbv zeta. intros [Hc Hp] Hw Hs. unfold writeIfChanged. destruct g as [settings conf mtime err proc reloads]. cbn [g_conf g_processing] in *.
  destruct conf as [current|].
  - destruct (bool_decide _) eqn:Hb; cbn -[written]; (split; [split; cbn -[written]; [eauto|done]|]); (split; [|done]).
    + exists current. split; [done|]. apply bool_decide_eq_true in Hb. destruct Hc as (r & c & k & Hr & Hco & (s & Hs' & ->) & Hl).
      destruct Hw as (Hr' & Hc' & _ & Hl'). rewrite !conf_body_render in Hb by done.
      destruct (conf_body_inj _ _ _ _ _ _ Hr Hco Hr' Hc' Hb) as (-> & -> & ->). split_and!; [done|done|by exists s|done].
    + by eexists.
  - cbn -[written]. split; [split; cbn -[written]; [eauto|done]|]. split; [by eexists|done].
Qed.

Lemma written_list stand countries ranges csv : iso_text stand -> codes_ok countries -> load_list (Some csv) countries = Ok ranges ->
  written (renderConf ranges countries stand true) ranges countries true.
Proof. intros. split; [by eapply load_list_nets|]. split; [done|]. split; [by exists stand|by exists csv]. Qed.

Lemma written_emergency stand stored : iso_text stand -> written (renderConf [] (readSettings stored) stand false) [] (readSettings stored) false.
Proof. intros. split; [constructor|]. split; [apply readSettings_ok|]. split; [by exists stand|done]. Qed.

Lemma ensure_ok stand now g : iso_text stand -> geo_ok g -> geo_ok (ensureConf stand now g) /\ g_processing (ensureConf stand now g) = g_processing g /\
  g_settings (ensureConf stand now g) = g_settings g.
Proof.
  intros Hs Hok. unfold ensureConf. destruct (g_conf g) as [c|] eqn:Hc; [done|].
  destruct (write_ok g _ _ stand false now Hok (written_emergency stand (g_settings g) Hs) Hs) as (H & _ & ? & ? & _). done.
Qed.

Lemma load_list_csv fetched countries ranges : load_list fetched countries = Ok ranges -> exists csv, fetched = Some csv.
Proof. destruct fetched; [by eexists|done]. Qed.

(** The request that ends, without the result of the reload. *)
Definition ended (g : geo) (e : option geo_failure) : geo := { g with g_processing := None; g_lastError := e }.

Lemma ended_ok g e : geo_ok g -> geo_ok (ended g e).
Proof. destruct g. intros [H _]. by split. Qed.

Lemma refresh_end_eq fetched reload reload_ok stand now g countries : g_processing g = Some countries ->
  refresh_end fetched reload reload_ok stand now g =
  match load_list fetched countries with
  | Throw e => (ensureConf stand now (ended g (Some e)), false)
  | Ok ranges =>
      let '(g, changed) := writeIfChanged (renderConf ranges countries stand true) now (ended g None) in
      if changed && reload then
        if reload_ok then ({ g with g_reloads := S (g_reloads g) }, true) else ({ g with g_lastError := Some ReloadFailed }, false)
      else (g, changed)
  end.
Proof. intros Hp. unfold refresh_end. rewrite Hp. by destruct g. Qed.

Lemma reload_frame (g : geo) (b reload_ok changed : bool) :
  let g' := (if b then if reload_ok then ({ g with g_reloads := S (g_reloads g) }, true) else ({ g with g_lastError := Some ReloadFailed }, false)
             else (g, changed)).1 in
  g_conf g' = g_conf g /\ g_processing g' = g_processing g /\ g_settings g' = g_settings g /\ g_mtime g' = g_mtime g.
Proof. by destruct g, b, reload_ok. Qed.

Lemma geo_ok_frame g g' : g_conf g' = g_conf g -> g_processing g' = g_processing g -> geo_ok g -> geo_ok g'.
Proof. unfold geo_ok. by intros -> ->. Qed.

Lemma refresh_end_ok fetched reload reload_ok stand now g : iso_text stand -> geo_ok g -> geo_ok (refresh_end fetched reload reload_ok stand now g).1.
Proof.
  intros Hs Hok. destruct (g_processing g) as [countries|] eqn:Hp; [|unfold refresh_end; by rewrite Hp].
  rewrite (refresh_end_eq _ _ _ _ _ _ _ Hp). assert (codes_ok countries) as Hc by (destruct Hok as [_ Hok]; by rewrite Hp in Hok).
  destruct (load_list fetched countries) as [ranges|e] eqn:Hl; [|by apply ensure_ok, ended_ok].
  destruct (load_list_csv _ _ _ Hl) as [csv ->].
  destruct (write_ok _ _ _ _ _ now (ended_ok g None Hok) (written_list stand _ _ _ Hs Hc Hl) Hs) as (H & _).
  destruct (writeIfChanged _ _ _) as [g' changed]. cbn [fst] in H.
  destruct (reload_frame g' (changed && reload) reload_ok changed) as (Hf & Hpr & _). by eapply geo_ok_frame.
Qed.

Lemma start_ok force now g : geo_ok g -> geo_ok (refresh_start force now g).1.
Proof.
  intros Hok. unfold refresh_start. destruct (g_processing g) as [c|]; [done|].
  destruct (negb force && _); [done|]. destruct Hok as [Hc _]. destruct g. split; [done|]. apply readSettings_ok.
Qed.

Lemma geo_step_ok g g' : geo_step g g' -> geo_ok g -> geo_ok g'.
Proof.
  destruct 1 as [force now|fetched reload reload_ok stand now Hs|input now g' changed H|stand now Hs]; intros Hok.
  - by apply start_ok. - by apply refresh_end_ok.
  - unfold save_countries in H. apply bind_Ok in H as (countries & _ & H). destruct (negb _); injection H as <- _; [apply start_ok|]; by destruct g.
  - by apply ensure_ok.
Qed.

(** C36. Whatever requests start, fail, end or are joined and whatever choices are saved meanwhile:
    once there is a file it is always a whole list fetched for its countries or the emergency
    file with no network but the private ones, and it never goes away. *)
Theorem geo_file_is_whole g g' : g_conf g = None -> g_processing g = None -> rtc geo_step g g' ->
  (forall text, g_conf g' = Some text -> exists ranges countries complete, written text ranges countries complete) /\
  forall g'', rtc geo_step g' g'' -> is_Some (g_conf g') -> is_Some (g_conf g'').
Proof.
  intros Hc Hp Hs. split.
  - assert (geo_ok g') as [H _].
    { assert (geo_ok g) as Hok by (split; [by rewrite Hc|by rewrite Hp]). clear Hc Hp. induction Hs as [|g1 g2 g3 H1 _ IH]; [done|]. by eapply IH, geo_step_ok. }
    intros text Ht. by rewrite Ht in H.
  - clear. intros g'' Hs. induction Hs as [|g1 g2 g3 H1 _ IH]; [done|]. intros Hc. apply IH. clear IH. destruct Hc as [text Ht].
    assert (forall t now h, is_Some (g_conf h) -> is_Some (g_conf (writeIfChanged t now h).1)) as Hw.
    { intros t now h [u Hu]. unfold writeIfChanged. rewrite Hu. destruct (bool_decide _); destruct h; cbn in *; [by rewrite Hu|by eexists]. }
    assert (forall st now h, is_Some (g_conf h) -> is_Some (g_conf (ensureConf st now h))) as He by (intros st now h [u Hu]; unfold ensureConf; by rewrite Hu).
    assert (forall force now h, g_conf (refresh_start force now h).1 = g_conf h) as Hst.
    { intros force now h. unfold refresh_start. destruct (g_processing h); [done|]. destruct (negb force && _); [done|by destruct h]. }
    assert (is_Some (g_conf g1)) as Hc by (by exists text).
    destruct H1 as [force now|fetched reload reload_ok stand now _|input now g' changed H|stand now _].
    + by rewrite Hst. 
    + destruct (g_processing g1) as [countries|] eqn:Hp; [|unfold refresh_end; by rewrite Hp]. rewrite (refresh_end_eq _ _ _ _ _ _ _ Hp).
      assert (forall e, is_Some (g_conf (ended g1 e))) as Hen by (intros e; by destruct g1).
      destruct (load_list _ _) as [ranges|e]; [|by apply He, Hen]. pose proof (Hw (renderConf ranges countries stand true) now (ended g1 None) (Hen _)) as H.
      destruct (writeIfChanged _ _ _) as [h changed]. destruct (reload_frame h (changed && reload) reload_ok changed) as (-> & _). done.
    + unfold save_countries in H. apply bind_Ok in H as (countries & _ & H). destruct (negb _); injection H as <- _; [rewrite Hst|]; by destruct g1.
    + by apply He.
Qed.

(** A request that ends with a list of the chosen countries leaves the file of this list, and
    for seven days there is nothing to do; a request that fails leaves the file that was there
    and reloads nothing. *)
Theorem geo_refresh_settles g0 g fetched reload reload_ok stand now countries : g_conf g0 = None -> g_processing g0 = None -> rtc geo_step g0 g ->
  iso_text stand -> g_processing g = Some countries ->
  let g' := (refresh_end fetched reload reload_ok stand now g).1 in
  match load_list fetched countries with
  | Ok ranges =>
      (exists stand', iso_text stand' /\ g_conf g' = Some (renderConf ranges countries stand' true)) /\
      (readSettings (g_settings g) = countries -> forall now', now' < now + MAX_AGE_MS -> refresh_start false now' g' = (g', NotNeeded))
  | Throw e => (is_Some (g_conf g) -> g_conf g' = g_conf g) /\ g_lastError g' = Some e /\ g_reloads g' = g_reloads g
  end /\ g_processing g' = None.
Proof.
  cbv zeta. intros Hc Hp Hs Hst Hpr. rewrite (refresh_end_eq _ _ _ _ _ _ _ Hpr).
  assert (geo_ok g) as Hok.
  { assert (geo_ok g0) as Hok by (split; [by rewrite Hc|by rewrite Hp]). clear Hc Hp Hpr. induction Hs as [|g1 g2 g3 H1 _ IH]; [done|]. by eapply IH, geo_step_ok. }
  assert (codes_ok countries) as Hco by (destruct Hok as [_ H]; by rewrite Hpr in H).
  destruct (load_list fetched countries) as [ranges|e] eqn:Hl.
  - destruct (load_list_csv _ _ _ Hl) as [csv ->].
    destruct (write_ok _ _ _ _ _ now (ended_ok g None Hok) (written_list stand _ _ _ Hst Hco Hl) Hst) as (_ & (text & Htext & Hr & _ & (s & Hss & ->) & _) & Hset & Hproc & _ & Hm & _).
    destruct (writeIfChanged _ _ _) as [h changed]. cbn [fst] in *.
    destruct (reload_frame h (changed && reload) reload_ok changed) as (Hf1 & Hf2 & Hf3 & Hf4). set (g' := (if changed && reload then _ else _).1) in *. clearbody g'.
    split; [|rewrite Hf2, Hproc; by destruct g]. split; [exists s; split; [done|congruence]|]. intros Hsett now' Hn. unfold refresh_start. rewrite Hf2, Hproc.
    assert (g_processing (ended g None) = None) as -> by (by destruct g). assert (conf_stale now' g' = false) as ->; [|done].
    unfold conf_stale. rewrite Hf1, Htext, conf_reads_back by done. cbn [ci_fallback ci_format ci_countries negb]. rewrite num_int_NInt.
    rewrite Hf4, Hm, Hf3, Hset. assert (g_settings (ended g None) = g_settings g) as -> by (by destruct g). rewrite Hsett.
    unfold sameList. rewrite !bool_decide_eq_true_2 by done. destruct (Z.leb_spec MAX_AGE_MS (now' - now)); [lia|done].
  - cbn [fst]. assert (g_conf (ended g (Some e)) = g_conf g /\ g_lastError (ended g (Some e)) = Some e /\ g_reloads (ended g (Some e)) = g_reloads g) as (H1 & H2 & H3) by (by destruct g).
    destruct (ensure_ok stand now _ Hst (ended_ok g (Some e) Hok)) as (_ & -> & _). split; [|by destruct g].
    unfold ensureConf. rewrite H1. destruct (g_conf g) as [text|] eqn:Hg.
    + rewrite H2, H3. split; [done|done].
    + pose proof (write_ok _ _ _ stand false now (ended_ok g (Some e) Hok) (written_emergency stand (g_settings (ended g (Some e))) Hst) Hst) as (_ & _ & _ & _ & -> & _ & ->).
      split; [by intros [? ?]|done].
Qed.

(** * Examples *)

Definition row_fine (countries : list string) (line : string) : bool :=
  match wanted_row countries line with
  | Some (a, b) => match row_span a b with Ok (v6, (lo, hi)) => (0 <=? lo) && (hi <? 2 ^ bits_of v6) | Throw _ => false end
  | None => true
  end.

Lemma rows_fine_all csv countries : forallb (row_fine countries) (split_char nl csv) = true -> rows_fine csv countries.
Proof.
  rewrite forallb_true. intros H line a b Hin Hw. specialize (H line Hin). unfold row_fine in H. rewrite Hw in H.
  destruct (row_span a b) as [[v6 [lo hi]]|]; [|done]. apply andb_true_iff in H as [?%Z.leb_le ?%Z.ltb_lt]. by exists v6, lo, hi.
Qed.

Definition ex_csv : string :=
  "192.0.2.0,192.0.2.9,DE" +:+ String nl ("192.0.2.10,192.0.2.15,DE" +:+ String nl ("198.51.100.0,198.51.100.255,US" +:+ String nl "2001:db8::,2001:db8::ff,DE")).

(** Two rows that touch become one network. *)
Example ex_csv_ranges : db_ranges <$> (match parseDbip ex_csv ["DE"] with Ok r => Some r | Throw _ => None end) = Some ["192.0.2.0/28"; "2001:db8::/120"].
Proof. vm_compute. reflexivity. Qed.

Lemma parseDbip_least_witness : exists r, parseDbip ex_csv ["DE"] = Ok r /\
  (forall v6 x, admits (db_ranges r) v6 x <-> in_rows ex_csv ["DE"] v6 x) /\
  forall other, (forall s, s ∈ other -> exists v6 b, read_block s = Some (v6, b) /\ aligned (bits_of v6) b) ->
    (forall v6 x, admits other v6 x <-> in_rows ex_csv ["DE"] v6 x) -> (length (db_ranges r) <= length other)%nat.
Proof. apply (parseDbip_least ex_csv ["DE"]), rows_fine_all. vm_compute. reflexivity. Defined.

(** A row with octets that are not of an address is not refused: [v4ToBig] takes them as they
    are, [bigToV4] cuts them to 8 bits, and the file admits a network of no row. *)
Lemma octets_wrap_around : exists r, parseDbip "999.0.0.0,999.0.0.255,DE" ["DE"] = Ok r /\ db_ranges r = ["231.0.0.0/24"].
Proof. eexists. split; vm_compute; reflexivity. Qed.

Definition ex_stand : string := "2026-01-01T00:00:00.000Z".

Lemma conf_reads_back_witness :
  readConfInfo (Some (renderConf ["192.0.2.0/28"; "2001:db8::/120"] ["DE"] ex_stand true)) =
  ConfInfo true ["DE"] (Some ex_stand) (NInt 2) false (NInt CONF_FORMAT).
Proof.
  apply (conf_reads_back ["192.0.2.0/28"; "2001:db8::/120"] ["DE"] ex_stand true).
  - repeat constructor.
  - repeat constructor.
  - done.
Defined.

(** Saved while a request is under way: the request keeps the countries it read at its start,
    and the call joins it, so the new choice is not fetched. *)
Lemma save_joins_old_request input old now g g' changed : g_processing g = Some old -> save_countries input now g = Ok (g', changed) ->
  g_processing g' = Some old.
Proof.
  intros Hp H. unfold save_countries in H. apply bind_Ok in H as (countries & _ & H). unfold refresh_start in H.
  destruct g as [settings conf mtime err proc reloads]. cbn in Hp. subst proc. destruct (negb _); injection H as <- _; done.
Qed.

Definition ex_geo : geo := Geo None None 0 None None 0.

Lemma geo_fails : rtc geo_step ex_geo (refresh_end None true true ex_stand 5 (refresh_start false 0 ex_geo).1).1.
Proof.
  eapply rtc_l; [exact (StepStart _ false 0)|]. eapply rtc_l; [|apply rtc_refl]. by apply StepEnd.
Qed.

(** The first request fails: the emergency file is there, and stays. *)
Lemma geo_file_is_whole_witness :
  let g' := (refresh_end None true true ex_stand 5 (refresh_start false 0 ex_geo).1).1 in
  (forall text, g_conf g' = Some text -> exists ranges countries complete, written text ranges countries complete) /\
  forall g'', rtc geo_step g' g'' -> is_Some (g_conf g') -> is_Some (g_conf g'').
Proof. apply (geo_file_is_whole ex_geo); [done|done|exact geo_fails]. Defined.

Lemma geo_refresh_settles_witness :
  let g := (refresh_start false 0 ex_geo).1 in
  let g' := (refresh_end None true true ex_stand 5 g).1 in
  let countries := sort_strings DEFAULT_COUNTRIES in
  match load_list None countries with
  | Ok ranges =>
      (exists stand', iso_text stand' /\ g_conf g' = Some (renderConf ranges countries stand' true)) /\
      (readSettings (g_settings g) = countries -> forall now', now' < 5 + MAX_AGE_MS -> refresh_start false now' g' = (g', NotNeeded))
  | Throw e => (is_Some (g_conf g) -> g_conf g' = g_conf g) /\ g_lastError g' = Some e /\ g_reloads g' = g_reloads g
  end /\ g_processing g' = None.
Proof.
  apply (geo_refresh_settles ex_geo); [done|done|eapply rtc_l; [exact (StepStart _ false 0)|apply rtc_refl]|done|done].
Defined.
