(* ===== verification/NginxText.v ===== *)
(** The texts nginx reads: the gates of [backend/internal/nginx.js].

    A fragment of configuration is cut into statements the way the service does it before a
    fragment of a user goes into a file root loads. *)

From S2P Require Import Prelude.
From S2P Require Import JsString.
From S2P Require Import JsRegex.
From S2P Require Import JsVal.
From S2P Require Import ConfText.
From S2P Require Import IngressRules.
From S2P Require Import WgMeta.

Local Open Scope Z_scope.

(** * Statements *)

Record statement := Stmt { st_name : string; st_raw : string; st_args : list string }.

#[export] Instance statement_eq_dec : EqDecision statement.
Proof. solve_decision. Defined.

Definition is_quote (c : ascii) : bool := is_char dquote c || is_char "'" c.
Definition ends_statement (c : ascii) : bool := one_of [";"; "{"; "}"]%char c.
Definition ends_word (c : ascii) : bool := is_space c || ends_statement c.

(** A comment ends before the newline. *)
Fixpoint skip_comment (s : string) : string :=
  match s with
  | "" => ""
  | String c t => if is_char nl c then s else skip_comment t
  end.

(** The word and the rest, which begins with the closing quote; a backslash at the very end
    stands for itself. *)
Fixpoint read_quoted (quote : ascii) (s : string) : string * string :=
  match s with
  | "" => ("", "")
  | String c t =>
      if is_char quote c then ("", s)
      else match t with
           | String d u =>
               if is_char "\" c then let r := read_quoted quote u in (String d r.1, r.2)
               else let r := read_quoted quote t in (String c r.1, r.2)
           | "" => (String c "", "")
           end
  end.

Fixpoint read_word (s : string) : string * string :=
  match s with
  | "" => ("", "")
  | String c t =>
      if ends_word c then ("", s)
      else match t with
           | String d u =>
               if is_char "\" c then let r := read_word u in (String d r.1, r.2)
               else let r := read_word t in (String c r.1, r.2)
           | "" => (String c "", "")
           end
  end.

Definition read_token (s : string) : string * string :=
  match s with
  | String c t => if is_quote c then let r := read_quoted c t in (r.1, sdrop 1 r.2) else read_word s
  | "" => ("", "")
  end.

Definition endStatement (words : list string) (rawFirst : string) : list statement :=
  match words with [] => [] | w :: args => [Stmt w rawFirst args] end.

(** The part of [s] before its rest. *)
Definition slice_to (s rest : string) : string := stake (String.length s - String.length rest) s.

Fixpoint tokenize_go (fuel : nat) (words : list string) (rawFirst s : string) : list statement :=
  match fuel with
  | O => endStatement words rawFirst
  | S fuel =>
      match s with
      | "" => endStatement words rawFirst
      | String ch t =>
          if is_space ch then tokenize_go fuel words rawFirst t
          else if is_char "#" ch then tokenize_go fuel words rawFirst (skip_comment s)
          else if ends_statement ch then endStatement words rawFirst ++ tokenize_go fuel [] "" t
          else
            let r := read_token s in
            tokenize_go fuel (words ++ [r.1]) (if decide (words = []) then slice_to s r.2 else rawFirst) r.2
      end
  end.

Definition tokenize (words : list string) (rawFirst s : string) : list statement :=
  tokenize_go (String.length s) words rawFirst s.

Definition tokenizeNginxStatements (cfg : string) : list statement := tokenize [] "" cfg.

(** * The gates *)

Inductive nginx_error :=
| QuotedDirective (directive : string)
| ForbiddenDirective (directive : string)
| BadLocationPath
| BadForwardField (fieldName : string)
| NoCertificateLoaded (hostType : string)
| NoAccessListLoaded (hostType : string)
| NoTemplate (message : string)
| RenderFailed (message : string).

Definition FORBIDDEN_ADVANCED_CONFIG_DIRECTIVES : list string :=
  ["include"; "alias"; "root"; "load_module"; "ssl_certificate"; "ssl_certificate_key"; "ssl_password_file";
   "perl"; "perl_set"; "perl_modules"; "perl_require"].

(** [\w] *)
Definition is_word (c : ascii) : bool := is_alnum c || is_char "_" c.
Definition rword : re := RChar is_word.
Definition rsome : re := RStar (RChar (fun _ => true)).

(** A pattern without [^] is found anywhere, the [$] still ends it. *)
Definition FORBIDDEN_ADVANCED_CONFIG_DIRECTIVE_PATTERN : re :=
  RAlt (RSeq rsome (RAlt (RSeq (rlit "_by_lua") (RStar rword))
                   (RAlt (RSeq (rlit "lua_") (rplus rword))
                   (RAlt (RSeq (rlit "perl") (RStar rword))
                         (RSeq (rlit "_by_perl") (RStar rword))))))
       (RSeq (rlit "js_") (rplus rword)).

Definition FILE_DIRECTIVE_SUFFIXES : list string :=
  ["_certificate"; "_certificate_key"; "_certificate_cache"; "_password_file"; "_crl"; "_dhparam"; "_temp_path";
   "_user_file"; "_store"; "_ticket_key"; "_stapling_file"].
Definition FORBIDDEN_FILE_DIRECTIVE_PATTERN : re :=
  RSeq rsome (foldr (fun x r => RAlt (rlit x) r) RNone FILE_DIRECTIVE_SUFFIXES).

Definition forbidden (directive : string) : bool :=
  bool_decide (directive ∈ FORBIDDEN_ADVANCED_CONFIG_DIRECTIVES) ||
  re_test FORBIDDEN_ADVANCED_CONFIG_DIRECTIVE_PATTERN directive ||
  re_test FORBIDDEN_FILE_DIRECTIVE_PATTERN directive.

(** Only switching the access log off is allowed. *)
Definition forbidden_log (directive : string) (args : list string) : bool :=
  bool_decide (directive = "error_log") || (bool_decide (directive = "access_log") && negb (bool_decide (args = ["off"]))).

Definition check_statement (statement : statement) : result nginx_error unit :=
  let directive := to_lower (st_name statement) in
  throw_if (negb (sall (fun c => negb (is_quote c || is_char "\" c)) (st_raw statement))) (QuotedDirective (stake 64 directive));;
  if decide (directive = "") then Ok tt
  else
    throw_if (forbidden directive) (ForbiddenDirective directive);;
    throw_if (forbidden_log directive (st_args statement)) (ForbiddenDirective directive).

(** A value that is no text, or empty, is no configuration. *)
Definition assertSafeAdvancedConfig (cfg : jsval) : result nginx_error unit :=
  match cfg with
  | VStr s => foldM (fun _ st => check_statement st) tt (tokenizeNginxStatements s)
  | _ => Ok tt
  end.

Definition path_char (c : ascii) : bool :=
  negb (is_space c || one_of [";"; "{"; "}"; "'"; "#"; "`"; dquote]%char c).
Definition SAFE_LOCATION_PATH_PATTERN : re :=
  RSeq (ropt (RSeq (RAlt (rlit "=") (RAlt (rlit "~") (RAlt (rlit "~*") (rlit "^~")))) (rplus (rlit " "))))
       (RSeq (RStar (RChar path_char)) (RChar (fun c => path_char c && negb (is_char "\" c)))).

Definition assertSafeLocationPath (value : jsval) : result nginx_error unit :=
  match value with
  | VStr s => throw_if (negb (re_test SAFE_LOCATION_PATH_PATTERN s)) BadLocationPath
  | _ => Throw BadLocationPath
  end.

Definition forward_char (c : ascii) : bool :=
  is_alnum c || one_of ["."; "_"; ":"; "/"; "%"; "?"; "#"; "="; "&"; "+"; "~"; "-"]%char c.

Definition assertSafeForwardField (value : jsval) (fieldName : string) : result nginx_error unit :=
  match value with
  | VStr s => throw_if (negb (sall forward_char s)) (BadForwardField fieldName)
  | _ => Ok tt
  end.

(** [net.isIPv6] *)
Definition streamUpstreamHost (forwardingHost : jsval) : jsval :=
  match forwardingHost with
  | VStr s => if re_test IPV6_RE s then VStr ("[" +:+ s +:+ "]") else forwardingHost
  | _ => forwardingHost
  end.

(** [Number(v) > 0] *)
Definition positive_num (v : jsval) : bool := match to_number v with NFin m _ => 0 <? m | NInf neg => negb neg | NaN => false end.

Definition assertHostRelationsLoaded (niceHostType : string) (host : jsval) : result nginx_error unit :=
  if decide (niceHostType = "default") then Ok tt
  else
    throw_if (positive_num (vget host "certificate_id") && is_undef (vget host "certificate")) (NoCertificateLoaded niceHostType);;
    if bool_decide (niceHostType = "proxy_host") && positive_num (vget host "access_list_id") then
      let list := vget host "access_list" in
      let unloaded f := match as_array (vget list f) with Some _ => false | None => true end in
      throw_if (is_undef list || (truthy list && (unloaded "items" || unloaded "clients"))) (NoAccessListLoaded niceHostType)
    else Ok tt.

(** [host_type.replace(/-/g, "_")] *)
Definition getFileFriendlyHostType (host_type : string) : string :=
  smap (fun c => String (if decide (c = "-"%char) then "_"%char else c) "") host_type.

(** [typeof v === "object" && v] *)
Definition is_object (v : jsval) : bool := match v with VObj _ | VArr _ => true | _ => false end.

Definition check_location (location : jsval) : result nginx_error unit :=
  if is_object location then
    assertSafeAdvancedConfig (vget location "advanced_config");;
    assertSafeLocationPath (vget location "path");;
    assertSafeForwardField (vget location "forward_host") "forward_host";;
    assertSafeForwardField (vget location "forward_path") "forward_path"
  else Ok tt.

(** The targets of the hosts that are not proxy hosts. *)
Definition check_target (nice_host_type : string) (data : jsval) : result nginx_error unit :=
  (if decide (nice_host_type = "redirection_host")
   then assertSafeForwardField (vget data "forward_domain_name") "forward_domain_name" else Ok tt);;
  (if decide (nice_host_type = "stream")
   then assertSafeForwardField (vget data "forwarding_host") "forwarding_host" else Ok tt).

Definition assertSafeHostFields (host_type : string) (data : jsval) : result nginx_error unit :=
  if is_object data then
    assertSafeAdvancedConfig (vget data "advanced_config");;
    check_target (getFileFriendlyHostType host_type) data;;
    match vget data "locations" with
    | VArr l => foldM (fun _ location => check_location location) tt l
    | _ => Ok tt
    end
  else Ok tt.

(** [/^(?:.*;)?\s*?location\s*?\/\s*?{/im], at the start of any line. *)
Definition DEFAULT_LOCATION : re :=
  RSeq (ropt (RSeq (RStar rany) (rlit ";"))) (RSeq (RStar (RChar is_space)) (RSeq (rlit "location")
       (RSeq (RStar (RChar is_space)) (RSeq (rlit "/") (RSeq (RStar (RChar is_space)) (RSeq (rlit "{") rsome)))))).

Fixpoint at_line_starts (p : string -> bool) (start : bool) (s : string) : bool :=
  (start && p s) ||
  match s with "" => false | String c t => at_line_starts p (is_char nl c || is_char cr c) t end.

Definition advancedConfigHasDefaultLocation (cfg : string) : bool :=
  at_line_starts (re_test DEFAULT_LOCATION) true (to_lower cfg).

(** * The reading ends *)

Lemma skip_comment_length s : (String.length (skip_comment s) <= String.length s)%nat.
Proof. induction s as [|c s IH]; [done|]. cbn [skip_comment]. destruct (is_char nl c); cbn [String.length]; lia. Qed.

(** Induction that passes over two characters at once. *)
Lemma string_ind2 (P : string -> Prop) : P "" -> (forall c, P (String c "")) -> (forall c d u, P u -> P (String d u) -> P (String c (String d u))) -> forall s, P s.
Proof.
  intros H0 H1 H2 s. assert (P s /\ forall c, P (String c s)) as [? _]; [|done].
  induction s as [|d u [IH1 IH2]]; [by split|]. split; [done|]. intros c. by apply H2.
Qed.

Lemma read_quoted_cons q c d u : read_quoted q (String c (String d u)) =
  if is_char q c then ("", String c (String d u))
  else if is_char "\" c then (String d (read_quoted q u).1, (read_quoted q u).2)
  else (String c (read_quoted q (String d u)).1, (read_quoted q (String d u)).2).
Proof. done. Qed.

Lemma read_word_cons c d u : read_word (String c (String d u)) =
  if ends_word c then ("", String c (String d u))
  else if is_char "\" c then (String d (read_word u).1, (read_word u).2)
  else (String c (read_word (String d u)).1, (read_word (String d u)).2).
Proof. done. Qed.

Lemma read_quoted_length q s : (String.length (read_quoted q s).2 <= String.length s)%nat.
Proof.
  induction s as [|c|c d u IH1 IH2] using string_ind2; [done|cbn [read_quoted]; destruct (is_char q c); cbn; lia|].
  rewrite read_quoted_cons. destruct (is_char q c); [done|]. cbn [String.length] in *. destruct (is_char "\" c); cbn [snd]; lia.
Qed.

Lemma read_word_length s : (String.length (read_word s).2 <= String.length s)%nat.
Proof.
  induction s as [|c|c d u IH1 IH2] using string_ind2; [done|cbn [read_word]; destruct (ends_word c); cbn; lia|].
  rewrite read_word_cons. destruct (ends_word c); [done|]. cbn [String.length] in *. destruct (is_char "\" c); cbn [snd]; lia.
Qed.

Lemma sdrop_length n s : (String.length (sdrop n s) <= String.length s)%nat.
Proof. revert s. induction n as [|n IH]; intros [|c s]; cbn; try lia. specialize (IH s). lia. Qed.

Lemma read_token_length c t : ends_word c = false -> (String.length (read_token (String c t)).2 <= String.length t)%nat.
Proof.
  intros Hc. unfold read_token. destruct (is_quote c).
  - cbn [snd]. pose proof (sdrop_length 1 (read_quoted c t).2). pose proof (read_quoted_length c t). lia.
  - destruct t as [|d u]; [cbn [read_word]; by rewrite Hc|]. rewrite read_word_cons, Hc.
    pose proof (read_word_length u). pose proof (read_word_length (String d u)). destruct (is_char "\" c); cbn [snd String.length] in *; lia.
Qed.

Lemma tokenize_fuel f g words raw s : (String.length s <= f)%nat -> (String.length s <= g)%nat ->
  tokenize_go f words raw s = tokenize_go g words raw s.
Proof.
  revert g words raw s. induction f as [|f IH]; intros g words raw [|c t] Hf Hg; cbn in Hf; try lia; try (by destruct g).
  destruct g as [|g]; [cbn in Hg; lia|]. cbn in Hg. cbn [tokenize_go].
  destruct (is_space c) eqn:Hs; [apply IH; lia|]. destruct (is_char "#" c) eqn:Hc.
  { pose proof (skip_comment_length t). assert (skip_comment (String c t) = skip_comment t) as ->.
    { cbn [skip_comment]. destruct (is_char nl c) eqn:Hn; [|done]. apply bool_decide_eq_true in Hc as ->. by vm_compute in Hn. }
    apply IH; lia. }
  destruct (ends_statement c) eqn:He; [f_equal; apply IH; lia|].
  assert (ends_word c = false) as Hw by (unfold ends_word; by rewrite Hs, He). pose proof (read_token_length c t Hw). apply IH; lia.
Qed.

(** The fuel is enough: the loop goes on until the text is at its end. *)
Lemma tokenize_step words raw ch t :
  tokenize words raw (String ch t) =
  if is_space ch then tokenize words raw t
  else if is_char "#" ch then tokenize words raw (skip_comment (String ch t))
  else if ends_statement ch then endStatement words raw ++ tokenize [] "" t
  else let r := read_token (String ch t) in
       tokenize (words ++ [r.1]) (if decide (words = []) then slice_to (String ch t) r.2 else raw) r.2.
Proof.
  unfold tokenize at 1. cbn [String.length tokenize_go]. destruct (is_space ch) eqn:Hs; [done|].
  destruct (is_char "#" ch) eqn:Hc.
  { apply tokenize_fuel; [|done]. cbn [skip_comment]. destruct (is_char nl ch) eqn:Hn; [|apply skip_comment_length].
    apply bool_decide_eq_true in Hc as ->. by vm_compute in Hn. }
  destruct (ends_statement ch) eqn:He; [done|]. cbv zeta. apply tokenize_fuel; [|done].
  apply read_token_length. unfold ends_word. by rewrite Hs, He.
Qed.

Lemma tokenize_nil words raw : tokenize words raw "" = endStatement words raw.
Proof. done. Qed.

Lemma tokenize_space words raw c t : is_space c = true -> tokenize words raw (String c t) = tokenize words raw t.
Proof. intros Hc. by rewrite tokenize_step, Hc. Qed.

Lemma tokenize_spaces words raw s t : sall is_space s = true -> tokenize words raw (s +:+ t) = tokenize words raw t.
Proof.
  induction s as [|c s IH]; [done|]. cbn [sall]. rewrite andb_true_iff. intros [Hc Hs]. rewrite sapp_String, tokenize_space by done. by apply IH.
Qed.

Lemma tokenize_end words raw c t : ends_statement c = true -> tokenize words raw (String c t) = endStatement words raw ++ tokenize [] "" t.
Proof.
  intros Hc. rewrite tokenize_step, Hc. unfold ends_statement, one_of in Hc. apply bool_decide_eq_true in Hc.
  assert (is_space c = false /\ is_char "#" c = false) as [-> ->]; [|done]. revert c Hc. apply Forall_forall.
  repeat apply Forall_cons_2; try apply Forall_nil_2; done.
Qed.

(** * What is read *)

(** A character of a word, behind a backslash or as it is. *)
Notation spelled := (bool * ascii)%type.
Definition unit_text (u : spelled) : string := if u.1 then String "\" (String u.2 "") else String u.2 "".
Definition spell (us : list spelled) : string := foldr (fun u s => unit_text u +:+ s) "" us.
Definition meant (us : list spelled) : string := foldr (fun u s => String u.2 s) "" us.

Definition plain_unit (u : spelled) : bool := u.1 || negb (ends_word u.2 || is_char "\" u.2).
Definition quoted_unit (q : ascii) (u : spelled) : bool := u.1 || negb (is_char q u.2 || is_char "\" u.2).

(** The end of the text, or a character that ends a word. *)
Definition at_word_end (s : string) : bool := match s with "" => true | String c _ => ends_word c end.

Lemma backslash_in_word : ends_word "\" = false.
Proof. reflexivity. Qed.

Lemma is_char_eq d c : is_char d c = true <-> c = d.
Proof. unfold is_char. by rewrite bool_decide_eq_true. Qed.

Lemma read_word_spell us rest : forallb plain_unit us = true -> at_word_end rest = true -> read_word (spell us +:+ rest) = (meant us, rest).
Proof.
  intros Hus Hr. induction us as [|[e c] us IH].
  { change (spell []) with "". rewrite sapp_nil_l. destruct rest as [|c t]; [done|]. cbn [at_word_end] in Hr. cbn [read_word]. by rewrite Hr. }
  cbn [forallb] in Hus. apply andb_true_iff in Hus as [Hu Hus]. specialize (IH Hus).
  change (spell ((e, c) :: us)) with (unit_text (e, c) +:+ spell us). cbn [meant foldr snd]. change (foldr _ "" us) with (meant us). rewrite sapp_assoc.
  destruct e; cbn [unit_text fst snd]; rewrite !sapp_String, sapp_nil_l.
  - rewrite read_word_cons, backslash_in_word. change (is_char "\" "\") with true. by rewrite IH.
  - unfold plain_unit in Hu. cbn [fst snd orb] in Hu. apply negb_true_iff, orb_false_iff in Hu as [Hw Hb].
    destruct (spell us +:+ rest) as [|d u] eqn:Ht.
    + cbn [read_word]. rewrite Hw. cbn [read_word] in IH. injection IH as <- <-. done.
    + rewrite read_word_cons, Hw, Hb, IH. done.
Qed.

Lemma read_quoted_spell q us rest : is_quote q = true -> forallb (quoted_unit q) us = true ->
  read_quoted q (spell us +:+ String q rest) = (meant us, String q rest).
Proof.
  intros Hq Hus. assert (is_char q "\" = false) as Hqb.
  { destruct (is_char q "\") eqn:Hb; [|done]. apply is_char_eq in Hb as <-. by vm_compute in Hq. }
  induction us as [|[e c] us IH].
  { change (spell []) with "". rewrite sapp_nil_l. cbn [read_quoted]. assert (is_char q q = true) as -> by (by apply is_char_eq). done. }
  cbn [forallb] in Hus. apply andb_true_iff in Hus as [Hu Hus]. specialize (IH Hus).
  change (spell ((e, c) :: us)) with (unit_text (e, c) +:+ spell us). cbn [meant foldr snd]. change (foldr _ "" us) with (meant us). rewrite sapp_assoc.
  destruct e; cbn [unit_text fst snd]; rewrite !sapp_String, sapp_nil_l.
  - rewrite read_quoted_cons, Hqb. change (is_char "\" "\") with true. by rewrite IH.
  - unfold quoted_unit in Hu. cbn [fst snd orb] in Hu. apply negb_true_iff, orb_false_iff in Hu as [Hw Hb].
    destruct (spell us +:+ String q rest) as [|d u] eqn:Ht.
    + by destruct us as [|[[] ?] ?].
    + rewrite read_quoted_cons, Hw, Hb, IH. done.
Qed.

Lemma stake_app a b : stake (String.length a) (a +:+ b) = a.
Proof. induction a as [|c a IH]; [by destruct b|]. rewrite sapp_String. cbn [String.length stake]. by rewrite IH. Qed.

Lemma slice_to_app a b : slice_to (a +:+ b) b = a.
Proof.
  unfold slice_to. rewrite slength_app. replace (String.length a + String.length b - String.length b)%nat with (String.length a) by lia.
  apply stake_app.
Qed.

(** The first character of a plain word does not begin a comment or a quoted string. *)
Definition plain_word (us : list spelled) : bool :=
  forallb plain_unit us && match us with (e, c) :: _ => e || negb (is_char "#" c || is_quote c) | [] => false end.

Lemma tokenize_word words raw us rest : plain_word us = true -> at_word_end rest = true ->
  tokenize words raw (spell us +:+ rest) = tokenize (words ++ [meant us]) (if decide (words = []) then spell us else raw) rest.
Proof.
  unfold plain_word. rewrite andb_true_iff. intros [Hus Hf] Hr. pose proof (read_word_spell us rest Hus Hr) as Hread.
  destruct us as [|[e c] us]; [done|]. cbn [forallb] in Hus. apply andb_true_iff in Hus as [Hu _].
  assert (exists ch t, spell ((e, c) :: us) +:+ rest = String ch t /\ ends_word ch = false /\ is_char "#" ch = false /\ is_quote ch = false) as (ch & t & Ht & Hw & Hc & Hq).
  { change (spell ((e, c) :: us)) with (unit_text (e, c) +:+ spell us). destruct e; cbn [unit_text fst snd]; rewrite !sapp_String.
    - by eexists _, _.
    - unfold plain_unit in Hu. cbn [fst snd orb] in *. apply negb_true_iff, orb_false_iff in Hu as [Hu _]. apply negb_true_iff, orb_false_iff in Hf as [??].
      by eexists _, _. }
  pose proof (slice_to_app (spell ((e, c) :: us)) rest) as Hsl. rewrite Ht in Hsl, Hread |- *. rewrite tokenize_step. unfold ends_word in Hw.
  apply orb_false_iff in Hw as [-> ->]. rewrite Hc. unfold read_token. rewrite Hq, Hread. cbv zeta. cbn [fst snd]. by rewrite Hsl.
Qed.

Lemma tokenize_quoted words raw q us rest : is_quote q = true -> forallb (quoted_unit q) us = true ->
  tokenize words raw (String q (spell us +:+ String q rest)) =
  tokenize (words ++ [meant us]) (if decide (words = []) then String q (spell us +:+ String q "") else raw) rest.
Proof.
  intros Hq Hus. rewrite tokenize_step. assert (is_space q = false /\ is_char "#" q = false /\ ends_statement q = false) as (-> & -> & ->).
  { unfold is_quote in Hq. apply orb_true_iff in Hq as [Hq%is_char_eq|Hq%is_char_eq]; by rewrite Hq. }
  unfold read_token. rewrite Hq, (read_quoted_spell q us rest Hq Hus). cbv zeta. cbn [fst snd sdrop].
  pose proof (slice_to_app (String q (spell us +:+ String q "")) rest) as Hs. rewrite sapp_String, sapp_assoc, sapp_String, sapp_nil_l in Hs. by rewrite Hs.
Qed.

Lemma skip_comment_app s t : no_char nl s -> skip_comment (s +:+ String nl t) = String nl t.
Proof.
  unfold no_char. induction s as [|c s IH]; [rewrite sapp_nil_l; by cbn|]. cbn [sall]. rewrite andb_true_iff, negb_true_iff. intros [Hc Hs].
  rewrite sapp_String. cbn [skip_comment]. rewrite Hc. by apply IH.
Qed.

Lemma tokenize_comment words raw text rest : no_char nl text ->
  tokenize words raw (String "#" (text +:+ String nl rest)) = tokenize words raw rest.
Proof.
  intros Ht. rewrite tokenize_step. cbn [is_space]. change (is_space "#") with false. change (is_char "#" "#") with true. cbv iota.
  rewrite <- sapp_String, skip_comment_app; [by apply tokenize_space|]. unfold no_char in *. by cbn [sall].
Qed.

(** ** Any spelling of a configuration *)

Inductive piece :=
| Blank (c : ascii)
| Comment (text : string)
| Plain (us : list spelled)
| Quoted (q : ascii) (us : list spelled)
| End (c : ascii).

Definition show_piece (p : piece) : string :=
  match p with
  | Blank c | End c => String c ""
  | Comment text => String "#" (text +:+ String nl "")
  | Plain us => spell us
  | Quoted q us => String q (spell us +:+ String q "")
  end.
Definition show (ps : list piece) : string := foldr (fun p s => show_piece p +:+ s) "" ps.

Definition piece_ok (p : piece) : bool :=
  match p with
  | Blank c => is_space c
  | Comment text => sall (fun c => negb (is_char nl c)) text
  | Plain us => plain_word us
  | Quoted q us => is_quote q && forallb (quoted_unit q) us
  | End c => ends_statement c
  end.

(** White space or the end of the statement follows a plain word. *)
Fixpoint pieces_ok (ps : list piece) : bool :=
  match ps with
  | [] => true
  | p :: ps =>
      piece_ok p && pieces_ok ps &&
      match p, ps with
      | Plain _, [] | Plain _, Blank _ :: _ | Plain _, End _ :: _ => true
      | Plain _, _ => false
      | _, _ => true
      end
  end.

(** The statements, by what the pieces mean. *)
Fixpoint statements_of (words : list string) (raw : string) (ps : list piece) : list statement :=
  match ps with
  | [] => endStatement words raw
  | p :: ps =>
      let word us := statements_of (words ++ [meant us]) (if decide (words = []) then show_piece p else raw) ps in
      match p with
      | Blank _ | Comment _ => statements_of words raw ps
      | End _ => endStatement words raw ++ statements_of [] "" ps
      | Plain us | Quoted _ us => word us
      end
  end.

Lemma tokenize_pieces words raw ps : pieces_ok ps = true -> tokenize words raw (show ps) = statements_of words raw ps.
Proof.
  revert words raw. induction ps as [|p ps IH]; intros words raw Hok; [done|].
  cbn [pieces_ok] in Hok. rewrite !andb_true_iff in Hok. destruct Hok as [[Hp Hps] Hn]. specialize (fun w r => IH w r Hps).
  change (show (p :: ps)) with (show_piece p +:+ show ps). destruct p as [c|text|us|q us|c]; cbn [show_piece statements_of piece_ok] in *.
  - rewrite sapp_String, sapp_nil_l, tokenize_space by done. apply IH.
  - rewrite sapp_String, sapp_assoc, sapp_String, sapp_nil_l, tokenize_comment by done. apply IH.
  - rewrite tokenize_word; [apply IH|done|]. destruct ps as [|[d|?|?|? ?|d] ps]; try done.
    + cbn [pieces_ok] in Hps. rewrite !andb_true_iff in Hps. destruct Hps as [[Hd _] _]. cbn [piece_ok] in Hd. change (ends_word d = true). unfold ends_word. by rewrite Hd.
    + cbn [pieces_ok] in Hps. rewrite !andb_true_iff in Hps. destruct Hps as [[Hd _] _]. cbn [piece_ok] in Hd. change (ends_word d = true). unfold ends_word. by rewrite Hd, orb_true_r.
  - apply andb_true_iff in Hp as [Hq Hus]. rewrite sapp_String, sapp_assoc, sapp_String, sapp_nil_l, tokenize_quoted by done. apply IH.
  - rewrite sapp_String, sapp_nil_l, tokenize_end by done. f_equal. apply IH.
Qed.

(** ** The gate *)

(** The next word is the first of its statement. *)
Fixpoint at_start (start : bool) (ps : list piece) : bool :=
  match ps with
  | [] => start
  | (Blank _ | Comment _) :: ps => at_start start ps
  | (Plain _ | Quoted _ _) :: ps => at_start false ps
  | End _ :: ps => at_start true ps
  end.

Lemma at_start_app pre ps words raw : at_start (bool_decide (words = [])) pre = true ->
  exists l raw', statements_of words raw (pre ++ ps) = l ++ statements_of [] raw' ps.
Proof.
  revert words raw. induction pre as [|p pre IH]; intros words raw Hs.
  { cbn in Hs. apply bool_decide_eq_true in Hs as ->. by exists [], raw. }
  assert (forall us (w : string), at_start false pre = true -> exists l raw', statements_of (words ++ [us]) w (pre ++ ps) = l ++ statements_of [] raw' ps) as Hw.
  { intros us w H. apply IH. rewrite bool_decide_eq_false_2; [done|]. by destruct words. }
  destruct p as [c|text|us|q us|c]; cbn [at_start app statements_of] in *; [by apply IH|by apply IH|by apply Hw|by apply Hw|].
  destruct (IH [] "" Hs) as (l & raw' & ->). exists (endStatement words raw ++ l), raw'. by rewrite app_assoc.
Qed.

Lemma statements_of_head w ws raw ps : exists args rest, statements_of (w :: ws) raw ps = Stmt w raw args :: rest.
Proof.
  revert ws. induction ps as [|p ps IH]; intros ws; [by eexists _, _|].
  destruct p as [c|text|us|q us|c]; cbn [statements_of]; [apply IH|apply IH|apply IH|apply IH|by eexists _, _].
Qed.

Lemma foldM_each {E A} (f : A -> result E unit) l : foldM (fun _ x => f x) tt l = Ok tt <-> Forall (fun x => f x = Ok tt) l.
Proof.
  induction l as [|x l IH]; cbn [foldM]; [split; [constructor|done]|]. rewrite Forall_cons, <- IH.
  destruct (f x) as [[]|e]; cbn; [tauto|]. split; [done|by intros [? _]].
Qed.

Lemma to_lower_nil s : to_lower s = "" -> s = "".
Proof. by destruct s. Qed.

Definition bare (c : ascii) : bool := negb (is_quote c || is_char "\" c).

Lemma bare_meant us : sall bare (spell us) = true -> spell us = meant us.
Proof.
  induction us as [|[e c] us IH]; [done|]. change (spell ((e, c) :: us)) with (unit_text (e, c) +:+ spell us). rewrite sall_app, andb_true_iff.
  intros [Hu Hus]. destruct e; [done|]. cbn [unit_text fst snd meant foldr]. rewrite sapp_String, sapp_nil_l, IH by done. done.
Qed.

Lemma check_statement_Ok name raw args : name <> "" -> check_statement (Stmt name raw args) = Ok tt ->
  sall bare raw = true /\ forbidden (to_lower name) = false /\ forbidden_log (to_lower name) args = false.
Proof.
  unfold check_statement. cbn [st_name st_raw st_args]. intros Hne H. apply bind_Ok in H as (? & H1%throw_if_Ok & H).
  apply negb_false_iff in H1. split; [done|]. rewrite decide_False in H by (by intros ?%to_lower_nil).
  apply bind_Ok in H as (? & H2%throw_if_Ok & H3%throw_if_Ok). done.
Qed.

(** ** The words of nginx

    The grammar nginx reads a file by, in characters of its own: its white space and the ends of
    its words are not those of the service. *)

Definition nginx_space (c : ascii) : bool := one_of [" "; "009"; "010"; "013"]%char c.
Definition nginx_quote (c : ascii) : bool := one_of ["'"; "034"]%char c.

(** The characters of a word behind its first. An opening brace after a dollar sign belongs to
    the word, a closing brace always; [var] says that a dollar sign is open. *)
Fixpoint nginx_chars (var : bool) (us : list spelled) : bool :=
  match us with
  | [] => true
  | (true, _) :: us => nginx_chars false us
  | (false, c) :: us =>
      if bool_decide (c = "{"%char) then var && nginx_chars var us
      else negb (nginx_space c || one_of [";"; "\"]%char c) && nginx_chars (bool_decide (c = "$"%char)) us
  end.

Definition nginx_word (us : list spelled) : bool :=
  match us with
  | [] => false
  | (true, _) :: us => nginx_chars false us
  | (false, c) :: _ => negb (nginx_quote c || one_of ["#"; "}"]%char c) && nginx_chars false us
  end.

Definition nginx_piece (p : piece) : bool :=
  match p with
  | Blank c => nginx_space c
  | Comment text => sall (fun c => negb (bool_decide (c = "010"%char))) text
  | Plain us => nginx_word us
  | Quoted q us => nginx_quote q && forallb (fun u => u.1 || negb (one_of [q; "\"%char] u.2)) us
  | End c => one_of [";"; "{"; "}"]%char c
  end.

(** A word without quotes goes on until white space, a semicolon or an opening brace. *)
Fixpoint nginx_reads (ps : list piece) : bool :=
  match ps with
  | [] => true
  | p :: ps =>
      nginx_piece p && nginx_reads ps &&
      match p, ps with
      | Plain _, [] | Plain _, Blank _ :: _ => true
      | Plain _, End c :: _ => one_of [";"; "{"]%char c
      | Plain _, _ => false
      | _, _ => true
      end
  end.

(** What the service takes for the end of a word and nginx for a character of it: braces, the
    vertical tab, the form feed and the no-break space. *)
Definition misread (c : ascii) : bool := one_of ["{"; "}"; "011"; "012"; "160"]%char c.

(** No word without quotes holds such a character, but behind a backslash. *)
Definition told_apart (ps : list piece) : bool :=
  forallb (fun p => match p with Plain us => forallb (fun u => u.1 || negb (misread u.2)) us | _ => true end) ps.

Lemma nginx_space_is_space c : implb (nginx_space c) (is_space c) = true.
Proof. revert c. apply forall_char. vm_compute. reflexivity. Qed.

Lemma in_word_is_plain c :
  implb (negb (misread c)) (implb (negb (nginx_space c || one_of [";"; "\"]%char c)) (plain_unit (false, c))) = true.
Proof. revert c. apply forall_char. vm_compute. reflexivity. Qed.

Lemma nginx_quote_eq c : nginx_quote c = is_quote c.
Proof. apply eqb_prop. revert c. apply forall_char. vm_compute. reflexivity. Qed.

Lemma nginx_chars_plain var us : nginx_chars var us = true -> forallb (fun u => u.1 || negb (misread u.2)) us = true -> forallb plain_unit us = true.
Proof.
  revert var. induction us as [|[[] c] us IH]; intros var; [done| |]; cbn [nginx_chars forallb fst snd orb andb]; [by apply IH|].
  case_bool_decide as Hc; [by subst|]. rewrite !andb_true_iff. intros [Hw Hus] [Hm Hms]. split; [|by eapply IH].
  pose proof (in_word_is_plain c) as H. by rewrite Hm, Hw in H.
Qed.

Lemma nginx_word_plain us : nginx_word us = true -> forallb (fun u => u.1 || negb (misread u.2)) us = true -> plain_word us = true.
Proof.
  intros Hw Hm. unfold plain_word. destruct us as [|[[] c] us]; [done| |].
  - rewrite andb_true_r. exact (nginx_chars_plain false ((true, c) :: us) Hw Hm).
  - cbn [nginx_word] in Hw. apply andb_true_iff in Hw as [Hf Hw]. rewrite (nginx_chars_plain false _ Hw Hm).
    rewrite nginx_quote_eq in Hf. apply negb_true_iff, orb_false_iff in Hf as [Hq Hf]. rewrite Hq, orb_false_r. cbn [andb orb].
    unfold one_of in Hf. apply bool_decide_eq_false in Hf. apply negb_true_iff. unfold is_char. apply bool_decide_eq_false. set_solver.
Qed.

Lemma reads_pieces ps : nginx_reads ps = true -> told_apart ps = true -> pieces_ok ps = true.
Proof.
  induction ps as [|p ps IH]; [done|]. unfold told_apart in *. cbn [nginx_reads forallb pieces_ok]. rewrite !andb_true_iff.
  intros [[Hp Hr] Hn] [Ht Hts]. split_and!; [|by apply IH|by destruct p as [?|?|?|? ?|?], ps as [|[?|?|?|? ?|?] ?]].
  destruct p as [c|text|us|q us|c]; cbn [nginx_piece piece_ok] in *.
  - pose proof (nginx_space_is_space c) as H. by rewrite Hp in H.
  - exact Hp.
  - by apply nginx_word_plain.
  - rewrite nginx_quote_eq in Hp. apply andb_true_iff in Hp as [Hq Hus]. apply andb_true_iff. split; [done|].
    clear Hn Hr Ht Hts IH. induction us as [|[e c] us IH]; [done|]. cbn [forallb fst snd] in *. apply andb_true_iff in Hus as [Hu Hus].
    rewrite IH by done. rewrite andb_true_r. unfold quoted_unit. cbn [fst snd]. destruct e; [done|]. cbn [orb] in *.
    unfold one_of in Hu. apply negb_true_iff, bool_decide_eq_false in Hu. apply negb_true_iff, orb_false_iff.
    split; apply bool_decide_eq_false; set_solver.
  - exact Hp.
Qed.

(** C21. However a configuration is written, with comments, white space, quotes, escapes and blocks
    anywhere as nginx reads them: when it is accepted, the first word of each of its statements is
    written without quotes and escapes, is not a forbidden directive in any case of its letters,
    and is not the error log. This holds when no word written without quotes has a brace, a
    vertical tab, a form feed or a no-break space in it ([told_apart]): nginx reads these as
    characters of the word and the service as its end, so what follows is a comment for the one
    and a directive for the other ([brace_in_word_hides_directive],
    [vertical_tab_hides_directive]). *)
Theorem gate_sees_every_directive pre w us post :
  nginx_reads (pre ++ w :: post) = true -> told_apart (pre ++ w :: post) = true ->
  at_start true pre = true -> w = Plain us \/ (exists q, w = Quoted q us) ->
  assertSafeAdvancedConfig (VStr (show (pre ++ w :: post))) = Ok tt ->
  w = Plain us /\ spell us = meant us /\ forbidden (to_lower (meant us)) = false /\ to_lower (meant us) <> "error_log".
Proof.
  intros Hr Ht Hs Hw. pose proof (reads_pieces _ Hr Ht) as Hok. unfold assertSafeAdvancedConfig, tokenizeNginxStatements.
  rewrite tokenize_pieces by done. destruct (at_start_app pre (w :: post) [] "" Hs) as (l & raw & ->). rewrite foldM_each, Forall_app. intros [_ H].
  assert (piece_ok w = true) as Hp.
  { clear -Hok. induction pre as [|p pre IH]; cbn [app pieces_ok] in Hok; rewrite !andb_true_iff in Hok; [tauto|]. apply IH. tauto. }
  assert (exists args rest, statements_of [] raw (w :: post) = Stmt (meant us) (show_piece w) args :: rest) as (args & rest & Hst).
  { destruct Hw as [->|[q ->]]; cbn [statements_of app]; rewrite decide_True by done; apply statements_of_head. }
  rewrite Hst in H. apply Forall_cons in H as [H _]. unfold check_statement in H. cbn [st_name st_raw st_args] in H.
  apply bind_Ok in H as (? & H1%throw_if_Ok%negb_false_iff & H).
  destruct Hw as [->|[q ->]].
  - split; [done|]. split; [by apply bare_meant|]. cbn [piece_ok] in Hp. unfold plain_word in Hp.
    rewrite decide_False in H. 2:{ intros He%to_lower_nil. by destruct us as [|[??] ?]; [rewrite andb_false_r in Hp|]. }
    apply bind_Ok in H as (? & H2%throw_if_Ok & H3%throw_if_Ok). split; [done|]. intros He. rewrite He in H3. by cbn in H3.
  - exfalso. cbn [piece_ok] in Hp. apply andb_true_iff in Hp as [Hq _]. cbn [show_piece sall] in H1. rewrite Hq in H1. done.
Qed.

(** * The lines of a location *)

(** A text as characters, a backslash with the one behind it. *)
Fixpoint units (s : string) : list spelled :=
  match s with
  | "" => []
  | String c t =>
      match t with
      | String d u => if is_char "\" c then (true, d) :: units u else (false, c) :: units t
      | "" => [(false, c)]
      end
  end.

Fixpoint last_char (s : string) : option ascii :=
  match s with "" => None | String c "" => Some c | String _ t => last_char t end.

Lemma units_spell (p : ascii -> bool) s : forallb (fun c => implb (p c) (negb (ends_word c))) all_chars = true ->
  sall p s = true -> last_char s <> Some "\"%char -> spell (units s) = s /\ forallb plain_unit (units s) = true.
Proof.
  intros Hp. induction s as [|c|c d u IH1 IH2] using string_ind2; intros Hs Hl.
  - done.
  - cbn [sall] in Hs. rewrite andb_true_r in Hs. pose proof (forall_char _ Hp c) as Hc. cbv beta in Hc. rewrite Hs in Hc. cbn [implb] in Hc.
    split; [done|]. cbn [units forallb]. unfold plain_unit. cbn [fst snd orb]. apply negb_true_iff in Hc as ->.
    destruct (is_char "\" c) eqn:Hb; [|done]. apply is_char_eq in Hb as ->. done.
  - cbn [sall] in Hs. rewrite !andb_true_iff in Hs. destruct Hs as (Hc & Hd & Hu).
    assert (units (String c (String d u)) = if is_char "\" c then (true, d) :: units u else (false, c) :: units (String d u)) as -> by done.
    destruct (is_char "\" c) eqn:Hb.
    + apply is_char_eq in Hb as ->. destruct IH1 as [IH Hf]; [done| |].
      { destruct u; [done|]. exact Hl. }
      split; [|by cbn [forallb]]. change (String "\" (String d (spell (units u))) = String "\" (String d u)). by rewrite IH.
    + destruct IH2 as [IH Hf]; [by cbn [sall]; rewrite Hd, Hu|exact Hl|]. split.
      * change (String c (spell (units (String d u))) = String c (String d u)). by rewrite IH.
      * cbn [forallb]. rewrite Hf. unfold plain_unit. cbn [fst snd orb]. rewrite Hb. pose proof (forall_char _ Hp c) as Hw. cbv beta in Hw.
        rewrite Hc in Hw. cbn [implb] in Hw. apply negb_true_iff in Hw as ->. done.
Qed.

Lemma units_plain s p : forallb (fun c => implb (p c) (negb (ends_word c))) all_chars = true -> sall p s = true -> last_char s <> Some "\"%char ->
  s <> "" -> match s with String c _ => negb (is_char "#" c || is_quote c) = true | "" => True end -> plain_word (units s) = true.
Proof.
  intros Hp Hs Hl Hne Hf. destruct (units_spell p s Hp Hs Hl) as [_ Hu]. unfold plain_word. rewrite Hu. cbn [andb].
  destruct s as [|c t]; [done|]. destruct t as [|d u]; cbn [units]; [by rewrite Hf, orb_true_r|].
  destruct (is_char "\" c); [done|]. by rewrite Hf, orb_true_r.
Qed.

Lemma tokenize_text p s words raw rest : forallb (fun c => implb (p c) (negb (ends_word c))) all_chars = true -> sall p s = true ->
  last_char s <> Some "\"%char -> match s with String c _ => negb (is_char "#" c || is_quote c) = true | "" => False end ->
  at_word_end rest = true ->
  tokenize words raw (s +:+ rest) = tokenize (words ++ [meant (units s)]) (if decide (words = []) then s else raw) rest.
Proof.
  intros Hp Hs Hl Hf Hr. destruct (units_spell p s Hp Hs Hl) as [Hsp _]. pose proof (tokenize_word words raw (units s) rest) as H.
  rewrite Hsp in H. apply H; [|done]. apply (units_plain s p); try done; by destruct s.
Qed.

Lemma last_char_app s t : t <> "" -> last_char (s +:+ t) = last_char t.
Proof.
  intros Ht. induction s as [|c s IH]; [done|]. rewrite sapp_String. destruct (s +:+ t) eqn:He; [by destruct s, t|]. exact IH.
Qed.

Lemma last_char_plain p s : p "\"%char = false -> sall p s = true -> last_char s <> Some "\"%char.
Proof.
  intros Hp. induction s as [|c s IH]; [done|]. cbn [sall]. rewrite andb_true_iff. intros [Hc Hs]. destruct s as [|d s]; [|by apply IH].
  cbn. intros [= ->]. by rewrite Hp in Hc.
Qed.

Lemma meant_plain p s : p "\"%char = false -> sall p s = true -> meant (units s) = s.
Proof.
  intros Hp. induction s as [|c|c d u _ IH] using string_ind2; intros Hs; [done|done|]. cbn [sall] in Hs. rewrite !andb_true_iff in Hs.
  destruct Hs as (Hc & Hd & Hu). assert (units (String c (String d u)) = if is_char "\" c then (true, d) :: units u else (false, c) :: units (String d u)) as -> by done.
  destruct (is_char "\" c) eqn:Hb; [apply is_char_eq in Hb as ->; by rewrite Hp in Hc|].
  change (String c (meant (units (String d u))) = String c (String d u)). rewrite IH; [done|]. cbn [sall]. by rewrite Hd, Hu.
Qed.

Lemma rlit_spec s t : re_test (rlit s) t = true <-> t = s.
Proof.
  unfold rlit. revert t. induction s as [|c s IH]; intros t.
  - destruct t as [|d t]; cbn; [done|]. split; [|done]. intros H%re_test_spec. inversion H.
  - cbn [String.list_ascii_of_string foldr]. split.
    + intros (s1 & s2 & -> & (d & -> & ->%is_char_eq)%re_test_char & ->%IH)%re_test_seq_inv. done.
    + intros ->. change (String c s) with (String c "" +:+ s). apply re_test_seq; [|by apply IH]. apply re_test_char. exists c. by rewrite is_char_eq.
Qed.

(** The path of a location: a modifier or none, and one word. *)
Lemma location_path_parts path : re_test SAFE_LOCATION_PATH_PATTERN path = true ->
  exists m sp tok, path = m +:+ sp +:+ tok /\ ((m = "" /\ sp = "") \/ (m ∈ ["="; "~"; "~*"; "^~"] /\ sp <> "" /\ sall is_space sp = true)) /\
  tok <> "" /\ sall path_char tok = true /\ last_char tok <> Some "\"%char.
Proof.
  intros (a & tok & -> & Ha & (s1 & s2 & -> & H1 & H2)%re_test_seq_inv)%re_test_seq_inv.
  apply re_test_char in H2 as (c & -> & [Hc Hb%negb_true_iff]%andb_true_iff).
  assert (sall path_char (s1 +:+ String c "") = true) as Htok.
  { rewrite sall_app. cbn [sall]. rewrite Hc, !andb_true_r. by apply (re_chars _ _ _ H1). }
  assert (last_char (s1 +:+ String c "") <> Some "\"%char) as Hl.
  { rewrite last_char_app by done. cbn. intros [= ->]. by vm_compute in Hb. }
  assert (s1 +:+ String c "" <> "") as Hne by (by destruct s1).
  apply re_test_spec in Ha. inversion Ha as [| | |? ? ? He|? ? ? Hm| | |]; subst.
  - inversion He; subst. exists "", "", (s1 +:+ String c ""). split; [done|]. split; [by left|done].
  - apply re_test_spec in Hm. apply re_test_seq_inv in Hm as (m & sp & -> & Hm & Hsp). rewrite sapp_assoc.
    exists m, sp, (s1 +:+ String c ""). split; [done|]. split; [|done]. right. split; [|split].
    + apply re_test_spec in Hm. inversion Hm as [| | |? ? ? Hl1|? ? ? Hm1| | |]; subst; [apply re_test_spec, rlit_spec in Hl1 as ->; left|].
      inversion Hm1 as [| | |? ? ? Hl1|? ? ? Hm2| | |]; subst; [apply re_test_spec, rlit_spec in Hl1 as ->; right; left|].
      inversion Hm2 as [| | |? ? ? Hl1|? ? ? Hl1| | |]; subst; apply re_test_spec, rlit_spec in Hl1 as ->; [do 2 right; left|do 3 right; left].
    + intros ->. by vm_compute in Hsp.
    + apply (re_chars _ _ _ Hsp). vm_compute. reflexivity.
Qed.

Definition block_text (head path : string) : string := head +:+ " " +:+ path +:+ " {".

Lemma path_word tok words raw rest : tok <> "" -> sall path_char tok = true -> last_char tok <> Some "\"%char -> words <> [] -> at_word_end rest = true ->
  tokenize words raw (tok +:+ rest) = tokenize (words ++ [meant (units tok)]) raw rest.
Proof.
  intros Hne Hs Hl Hw Hr. rewrite (tokenize_text path_char); [by rewrite decide_False|vm_compute; reflexivity|done|done| |done].
  destruct tok as [|c t]; [done|]. cbn [sall] in Hs. apply andb_true_iff in Hs as [Hc _]. apply negb_true_iff, orb_false_iff.
  pose proof (forall_char (fun c => implb (path_char c) (negb (is_char "#" c || is_quote c)))) as H. specialize (H ltac:(vm_compute; reflexivity) c). cbv beta in H.
  rewrite Hc in H. cbn [implb] in H. by apply negb_true_iff, orb_false_iff in H.
Qed.

Lemma location_block path rest : assertSafeLocationPath (VStr path) = Ok tt ->
  exists args, tokenizeNginxStatements (block_text "location" path +:+ rest) = Stmt "location" "location" args :: tokenizeNginxStatements rest /\
  (1 <= length args <= 2)%nat.
Proof.
  intros H%throw_if_Ok%negb_false_iff. destruct (location_path_parts path H) as (m & sp & tok & -> & Hm & Hne & Htok & Hl).
  unfold block_text, tokenizeNginxStatements. rewrite !sapp_assoc.
  rewrite (tokenize_text is_alpha "location") by (try done; vm_compute; reflexivity). rewrite decide_True by done.
  change (meant (units "location")) with "location". change ([] ++ ["location"]) with ["location"].
  rewrite sapp_String, sapp_nil_l, tokenize_space by done.
  assert (forall words, words <> [] -> tokenize words "location" (tok +:+ " {" +:+ rest) =
    endStatement (words ++ [meant (units tok)]) "location" ++ tokenize [] "" rest) as Hend.
  { intros words Hw. rewrite path_word by done. rewrite !sapp_String, sapp_nil_l, tokenize_space, tokenize_end by done. done. }
  destruct Hm as [[-> ->]|(Hm & Hsp & Hspaces)].
  - rewrite !sapp_nil_l, Hend by done. eexists. split; [done|]. cbn. lia.
  - assert (m <> "" /\ sall path_char m = true /\ last_char m <> Some "\"%char) as (H1 & H2 & H3).
    { clear H. revert m Hm. apply Forall_forall. repeat apply Forall_cons_2; try apply Forall_nil_2; by split_and!. }
    rewrite path_word; try done. 2:{ destruct sp as [|c sp]; [done|]. cbn [sall] in Hspaces. apply andb_true_iff in Hspaces as [Hc _].
      rewrite sapp_String. cbn [at_word_end]. unfold ends_word. by rewrite Hc. }
    rewrite tokenize_spaces, Hend by done. eexists. split; [done|]. cbn. lia.
Qed.

Lemma forward_word s words raw rest : s <> "" -> sall forward_char s = true -> match s with String c _ => c <> "#"%char | "" => True end -> at_word_end rest = true ->
  tokenize words raw (s +:+ rest) = tokenize (words ++ [s]) (if decide (words = []) then s else raw) rest.
Proof.
  intros Hne Hs Hf Hr. rewrite (tokenize_text forward_char s words raw rest); [|vm_compute; reflexivity|done|by apply (last_char_plain forward_char)| |done].
  { by rewrite (meant_plain forward_char). }
  destruct s as [|c t]; [done|]. cbn [sall] in Hs. apply andb_true_iff in Hs as [Hc _]. apply negb_true_iff, orb_false_iff. split.
  - by apply bool_decide_eq_false.
  - pose proof (forall_char (fun c => implb (forward_char c) (negb (is_quote c)))) as H. specialize (H ltac:(vm_compute; reflexivity) c). cbv beta in H.
    rewrite Hc in H. by apply negb_true_iff in H.
Qed.

(** The line of templates/_location.conf that names the upstream. *)
Definition proxy_pass_text (scheme host port path : string) : string :=
  "proxy_pass       " +:+ scheme +:+ "://" +:+ host +:+ ":" +:+ port +:+ path +:+ ";".

Lemma proxy_pass_statement scheme host port path rest : scheme <> "" -> sall is_alpha scheme = true -> sall is_digit port = true ->
  sall forward_char host = true -> sall forward_char path = true ->
  tokenizeNginxStatements (proxy_pass_text scheme host port path +:+ rest) =
  Stmt "proxy_pass" "proxy_pass" [scheme +:+ "://" +:+ host +:+ ":" +:+ port +:+ path] :: tokenizeNginxStatements rest.
Proof.
  intros Hne Hsc Hp Hh Hpa. unfold proxy_pass_text, tokenizeNginxStatements. rewrite !sapp_assoc.
  change ("proxy_pass       " +:+ ?x) with ("proxy_pass" +:+ "       " +:+ x).
  rewrite (tokenize_text (fun c => is_lower c || is_char "_" c) "proxy_pass") by (try done; vm_compute; reflexivity). rewrite decide_True by done.
  rewrite tokenize_spaces by done. rewrite <- !sapp_assoc.
  rewrite sapp_assoc. rewrite forward_word.
  - rewrite decide_False by done. rewrite sapp_String, sapp_nil_l, tokenize_end by done. rewrite !sapp_assoc. done.
  - by destruct scheme.
  - rewrite !sall_app, Hh, Hpa. rewrite (sall_impl is_alpha forward_char scheme), (sall_impl is_digit forward_char port); try done.
    + intros c Hc. unfold forward_char, is_alnum. by rewrite Hc, orb_true_r.
    + intros c Hc. unfold forward_char, is_alnum. by rewrite Hc.
  - destruct scheme as [|c scheme]; [done|]. cbn [sall] in Hsc. apply andb_true_iff in Hsc as [Hc _]. rewrite !sapp_String. intros ->. by vm_compute in Hc.
  - done.
Qed.

(** A path behind the host goes to the path of the target. *)
Definition split_target (forward_host forward_path : string) : string * string :=
  if has_char "/" forward_host then
    match split_char "/" forward_host with h :: l => (h, "/" +:+ join "/" l) | [] => (forward_host, forward_path) end
  else (forward_host, forward_path).

Lemma split_target_safe h f : sall forward_char h = true -> sall forward_char f = true ->
  sall forward_char (split_target h f).1 = true /\ sall forward_char (split_target h f).2 = true.
Proof.
  intros Hh Hf. unfold split_target. destruct (has_char "/" h); [|done]. destruct (split_char "/" h) as [|x l] eqn:Hs; [done|].
  assert (forall y, y ∈ x :: l -> sall forward_char y = true) as Hall by (intros y Hy; rewrite <- Hs in Hy; exact (sall_split forward_char "/" h y Hh Hy)).
  cbn [fst snd]. split; [apply Hall; by left|]. rewrite sall_app. apply andb_true_iff. split; [done|].
  assert (forall k, (forall y, y ∈ k -> sall forward_char y = true) -> sall forward_char (join "/" k) = true) as Hj.
  { induction k as [|y k IH]; intros Hk; [done|]. assert (sall forward_char y = true) as Hy by (apply Hk; by left).
    destruct k as [|z k]; [exact Hy|]. change (join "/" (y :: z :: k)) with (y +:+ "/" +:+ join "/" (z :: k)).
    rewrite !sall_app, Hy, IH by (intros w Hw; apply Hk; by right). done. }
  apply Hj. intros y Hy. apply Hall. by right.
Qed.

(** The lines of a location that is accepted are one directive each: the path opens one block,
    the target ends where its line ends, and what follows is read as if it stood alone. *)
Theorem location_lines_are_theirs location path host fpath scheme port rest :
  check_location (VObj location) = Ok tt ->
  vget (VObj location) "path" = VStr path -> vget (VObj location) "forward_host" = VStr host -> vget (VObj location) "forward_path" = VStr fpath ->
  scheme <> "" -> sall is_alpha scheme = true -> 0 <= port ->
  (exists args, tokenizeNginxStatements (block_text "location" path +:+ rest) = Stmt "location" "location" args :: tokenizeNginxStatements rest /\
     (1 <= length args <= 2)%nat) /\
  let target := split_target host fpath in
  tokenizeNginxStatements (proxy_pass_text scheme target.1 (showZ port) target.2 +:+ rest) =
  Stmt "proxy_pass" "proxy_pass" [scheme +:+ "://" +:+ target.1 +:+ ":" +:+ showZ port +:+ target.2] :: tokenizeNginxStatements rest.
Proof.
  intros H Hp Hh Hf Hne Hs Hport. unfold check_location in H. cbn [is_object] in H. rewrite Hp, Hh, Hf in H.
  apply bind_Ok in H as (? & _ & H). apply bind_Ok in H as ([] & H1 & H). apply bind_Ok in H as (? & H2%throw_if_Ok%negb_false_iff & H3%throw_if_Ok%negb_false_iff).
  split; [by apply location_block|]. destruct (split_target_safe host fpath H2 H3) as [H4 H5]. cbv zeta. apply proxy_pass_statement; try done. by apply showZ_digits.
Qed.

Definition ex_location : list (string * jsval) :=
  [("path", VStr "~* ^/api/(v1|v2)$"); ("forward_host", VStr "10.0.0.1/app"); ("forward_path", VStr ""); ("advanced_config", VStr "client_max_body_size 1g;")].

Lemma location_lines_are_theirs_witness :
  (exists args, tokenizeNginxStatements (block_text "location" "~* ^/api/(v1|v2)$" +:+ " deny all; }") =
     Stmt "location" "location" args :: tokenizeNginxStatements " deny all; }" /\ (1 <= length args <= 2)%nat) /\
  let target := split_target "10.0.0.1/app" "" in
  tokenizeNginxStatements (proxy_pass_text "http" target.1 (showZ 8080) target.2 +:+ " deny all; }") =
  Stmt "proxy_pass" "proxy_pass" ["http" +:+ "://" +:+ target.1 +:+ ":" +:+ showZ 8080 +:+ target.2] :: tokenizeNginxStatements " deny all; }".
Proof. apply (location_lines_are_theirs ex_location); [vm_compute; reflexivity|done|done|done|done|done|lia]. Defined.

(** [proxy_pass http://10.0.0.1; # comment], a tab and the directive in capitals. *)
Definition ex_pieces : list piece :=
  [Plain (units "proxy_pass"); Blank " "; Plain (units "http://10.0.0.1"); End ";"; Blank " "; Comment " include x;"; Blank tab].

Lemma gate_sees_every_directive_witness :
  Plain (units "Client_Max_Body_Size") = Plain (units "Client_Max_Body_Size") /\
  spell (units "Client_Max_Body_Size") = meant (units "Client_Max_Body_Size") /\
  forbidden (to_lower (meant (units "Client_Max_Body_Size"))) = false /\ to_lower (meant (units "Client_Max_Body_Size")) <> "error_log".
Proof.
  apply (gate_sees_every_directive ex_pieces (Plain (units "Client_Max_Body_Size")) (units "Client_Max_Body_Size") [Blank " "; Plain (units "1g"); End ";"]);
    [vm_compute; reflexivity|vm_compute; reflexivity|vm_compute; reflexivity|by left|vm_compute; reflexivity].
Defined.

(** In any spelling the directive is refused. *)
Example gate_refuses : 
  assertSafeAdvancedConfig (VStr "location / { INCLUDE /etc/passwd; }") = Throw (ForbiddenDirective "include") /\
  assertSafeAdvancedConfig (VStr "in\clude /etc/passwd;") = Throw (QuotedDirective "include") /\
  assertSafeAdvancedConfig (VStr "a#b; 'alias' /;") = Throw (QuotedDirective "alias") /\
  assertSafeAdvancedConfig (VStr "content_by_lua_block { x }") = Throw (ForbiddenDirective "content_by_lua_block").
Proof. split_and!; vm_compute; reflexivity. Qed.

(** A closing brace ends a word here; for nginx it is a character of the word, so the rest of the
    line is no comment, and the forbidden directive in it is one. *)
Definition brace_pieces : list piece :=
  [Plain (units "set"); Blank " "; Plain (units "$a"); Blank " "; Plain (units "b}#"); End ";"; Blank " ";
   Plain (units "include"); Blank " "; Plain (units "/etc/passwd"); End ";"].

Lemma brace_in_word_hides_directive :
  nginx_reads brace_pieces = true /\ at_start true (take 7 brace_pieces) = true /\
  brace_pieces !! 7%nat = Some (Plain (units "include")) /\
  assertSafeAdvancedConfig (VStr (show brace_pieces)) = Ok tt /\
  tokenizeNginxStatements (show brace_pieces) = [Stmt "set" "set" ["$a"; "b"]] /\
  assertSafeAdvancedConfig (VStr "set $a ${host}#; include /etc/passwd;") = Ok tt.
Proof. split_and!; vm_compute; reflexivity. Qed.

(** The white space of the service has characters that the words of a file may hold. *)
Definition vertical_tab_pieces : list piece :=
  [Plain (units "set"); Blank " "; Plain (units "$a"); Blank " "; Plain (units ("b" +:+ String (chr 11) "#")); End ";"; Blank " ";
   Plain (units "include"); Blank " "; Plain (units "/etc/passwd"); End ";"].

Lemma vertical_tab_hides_directive :
  nginx_reads vertical_tab_pieces = true /\ vertical_tab_pieces !! 7%nat = Some (Plain (units "include")) /\
  assertSafeAdvancedConfig (VStr (show vertical_tab_pieces)) = Ok tt.
Proof. split_and!; vm_compute; reflexivity. Qed.

(** A target that begins with the comment sign swallows the end of its line. *)
Lemma stream_host_comments_out_its_line :
  assertSafeHostFields "stream" (VObj [("forwarding_host", VStr "#x")]) = Ok tt /\
  tokenizeNginxStatements ("proxy_pass #x:80;" +:+ String nl "access_log /data/logs/s.log stream;") =
  [Stmt "proxy_pass" "proxy_pass" ["access_log"; "/data/logs/s.log"; "stream"]].
Proof. split; vm_compute; reflexivity. Qed.

(** A name with "lua" in it is not refused for that. *)
Lemma lua_in_name_accepted : forbidden "rewrite_luajit" = false /\ forbidden "myperl" = true.
Proof. split; vm_compute; reflexivity. Qed.
