(* ===== verification/NginxConfig.v ===== *)
(** The files of nginx: [backend/internal/nginx.js].

    A host's file is put live before it is tested; the file it replaces waits as a backup and
    comes back when nginx refuses the new one. *)

From S2P Require Import Prelude.
From S2P Require Import JsString.
From S2P Require Import JsRegex.
From S2P Require Import JsVal.
From S2P Require Import ConfText.
From S2P Require Import NginxText.
From coqutil Require Import Datatypes.RecordSetters.
Import OCamlLikeNotations.

Local Open Scope Z_scope.

(** * The files *)

Notation files := (gmap string string).

(** What [include *.conf] takes. *)
Definition is_live (name : string) : bool := ends_with ".conf" name.
Definition live (fs : files) : files := filter (fun p => is_live p.1 = true) fs.

(** The files, the [meta] patched into the rows by type and id, and the files nginx runs with
    since its last reload. *)
Record nginx := Nginx { n_files : files; n_meta : gmap (string * string) jsval; n_loaded : files }.

Definition set_files (fs : files) (n : nginx) : nginx := Nginx fs (n_meta n) (n_loaded n).

Inductive config_error :=
| TestFailed (output : string)
| Gate (e : nginx_error)
| PatchFailed (message : string)
| ReloadFailed
| ConfigRejected (output : string)
| BaseFails (output : string)
| HostsRejected (ids : list (string * bool)).

Definition id_of (host : jsval) : string := to_string (vget host "id").

Definition getConfigName (host_type host_id : string) : string :=
  if decide (host_type = "default") then "/data/nginx/default_host/site.conf"
  else "/data/nginx/" +:+ getFileFriendlyHostType host_type +:+ "/" +:+ host_id +:+ ".conf".

Definition conf_of (host_type : string) (host : jsval) : string := getConfigName (getFileFriendlyHostType host_type) (id_of host).

Definition deleteFile (filename : string) (fs : files) : files := delete filename fs.

(** [fs.rename]: whether there was such a file. *)
Definition rename (a b : string) (fs : files) : files * bool :=
  match fs !! a with Some text => (<[b := text]> (delete a fs), true) | None => (fs, false) end.

Definition backupConfig (host_type : string) (host : jsval) (fs : files) : files * bool :=
  let config_file := conf_of host_type host in
  match fs !! config_file with
  | None => rename (config_file +:+ ".disabled") (config_file +:+ ".bak") fs
  | Some text => (<[config_file +:+ ".bak" := text]> fs, true)
  end.

Definition stashConfig (host_type : string) (host : jsval) (fs : files) : files * bool :=
  let config_file := conf_of host_type host in rename config_file (config_file +:+ ".disabled") fs.

Definition bulkStashConfigs (host_type : string) (hosts : list jsval) (fs : files) : files :=
  foldl (fun fs host => (stashConfig host_type host fs).1) fs hosts.

Definition restoreConfigBackup (host_type : string) (host : jsval) (fs : files) : files * bool :=
  let config_file := conf_of host_type host in rename (config_file +:+ ".bak") config_file fs.

Definition dropConfigBackup (host_type : string) (host : jsval) (fs : files) : files :=
  deleteFile (conf_of host_type host +:+ ".bak") fs.

(** Without a host the id is 0. *)
Definition deleteConfig (host_type : string) (host : option jsval) (delete_err_file : bool) (fs : files) : files :=
  let config_file := match host with Some h => conf_of host_type h | None => getConfigName (getFileFriendlyHostType host_type) "0" end in
  let fs := deleteFile config_file fs in
  if delete_err_file then deleteFile (config_file +:+ ".disabled") (deleteFile (config_file +:+ ".err") fs) else fs.

Definition renameConfigAsError (host_type : string) (host : jsval) (fs : files) : files :=
  let config_file := conf_of host_type host in (rename config_file (config_file +:+ ".err") fs).1.

(** [ipv6Enabled]: the environment variable may switch it off. *)
Definition ipv6Enabled (DISABLE_IPV6 : option string) : bool :=
  match DISABLE_IPV6 with
  | Some d => negb (bool_decide (to_lower d ∈ ["on"; "true"; "1"; "yes"]))
  | None => true
  end.

(** * The text of a file *)

(** [JSON.parse(JSON.stringify(v))] *)
Fixpoint json_clone (v : jsval) : jsval :=
  match v with
  | VNum n => if num_finite n then v else VNull
  | VArr l => VArr (map (fun x => if is_undef x then VNull else json_clone x) l)
  | VObj l => VObj (flat_map (fun p => match p with (k, x) => if is_undef x then [] else [(k, json_clone x)] end) l)
  | _ => v
  end.

Definition vset (k : string) (x v : jsval) : jsval := match v with VObj l => VObj (mset k x l) | _ => v end.

(** [Object.assign({}, ...)] *)
Definition props (v : jsval) : list (string * jsval) := match v with VObj l => l | _ => [] end.
Definition assign (a b : list (string * jsval)) : list (string * jsval) := foldl (fun m p => mset p.1 p.2 m) a b.

Definition LOCATION_KEYS : list string :=
  ["access_list_id"; "certificate_id"; "ssl_forced"; "caching_enabled"; "block_exploits"; "allow_websocket_upgrade"; "http2_support";
   "hsts_enabled"; "hsts_subdomains"; "access_list"; "certificate"].

(** The location with what it takes from its host. *)
Definition location_copy (host location : jsval) : jsval :=
  VObj (assign ((fun k => (k, vget host k)) <$> LOCATION_KEYS) (props location)).

(** A target that is no text has no [indexOf]. *)
Definition split_location (location : jsval) : result nginx_error jsval :=
  match vget location "forward_host" with
  | VStr h =>
      if has_char "/" h then
        let target := split_target h "" in
        Ok (vset "forward_path" (VStr target.2) (vset "forward_host" (VStr target.1) location))
      else Ok location
  | _ => Throw (RenderFailed "forward_host")
  end.

(** The locations column holds a list. *)
Definition locations_of (host : jsval) : list jsval := match vget host "locations" with VArr l => l | _ => [] end.

Section Rendering.

(** The template files by name; the template engine; the environment; [nginx -t] on the files it
    includes: its message when it fails. *)
Variable templates : string -> option string.
Variable parseAndRender : string -> jsval -> result string string.
Variable DISABLE_IPV6 : option string.
Variable nginx_t : files -> option string.

Definition render (template : string) (data : jsval) : result nginx_error string :=
  match parseAndRender template data with Ok text => Ok text | Throw message => Throw (RenderFailed message) end.

Definition readTemplate (name : string) : result nginx_error string :=
  match templates name with Some text => Ok text | None => Throw (NoTemplate name) end.

Definition renderLocation (template : string) (host location : jsval) : result nginx_error string :=
  let copy := location_copy host location in
  assertSafeAdvancedConfig (vget copy "advanced_config");;
  assertSafeLocationPath (vget copy "path");;
  assertSafeForwardField (vget copy "forward_host") "forward_host";;
  assertSafeForwardField (vget copy "forward_path") "forward_path";;
  copy ← split_location copy;
  render template copy.

Definition renderLocations (host : jsval) : result nginx_error string :=
  template ← readTemplate "_location.conf";
  foldM (fun renderedLocations location => text ← renderLocation template host location; Ok (renderedLocations +:+ text)) "" (locations_of host).

(** What the gates refuse, and the address of a stream in the form nginx takes. *)
Definition gated_host (nice_host_type : string) (host : jsval) : result nginx_error jsval :=
  assertSafeAdvancedConfig (vget host "advanced_config");;
  assertHostRelationsLoaded nice_host_type host;;
  check_target nice_host_type host;;
  Ok (if decide (nice_host_type = "stream") then vset "forwarding_host" (streamUpstreamHost (vget host "forwarding_host")) host else host).

(** A configuration that is no text cannot be searched. *)
Definition use_default_location (nice_host_type : string) (host : jsval) : result nginx_error jsval :=
  if decide (nice_host_type = "default") then Ok host
  else match vget host "advanced_config" with
       | VStr cfg => Ok (vset "use_default_location" (VBool (bool_decide (cfg = "") || negb (advancedConfigHasDefaultLocation cfg))) host)
       | v => if truthy v then Throw (RenderFailed "advanced_config") else Ok (vset "use_default_location" (VBool true) host)
       end.

Definition fix_scheme (nice_host_type : string) (host : jsval) : result nginx_error jsval :=
  if decide (nice_host_type = "redirection_host") then
    match vget host "forward_scheme" with
    | VStr s => Ok (if bool_decide (to_lower s ∈ ["http"; "https"]) then host else vset "forward_scheme" (VStr "$scheme") host)
    | _ => Throw (RenderFailed "forward_scheme")
    end
  else Ok host.

(** A location for "/" takes the place of the default one. *)
Definition place_locations (host : jsval) : result nginx_error jsval :=
  if truthy (vget host "locations") then
    throw_if (existsb is_nullish (locations_of host)) (RenderFailed "locations");;
    renderedLocations ← renderLocations host;
    let host' := vset "locations" (VStr renderedLocations) host in
    Ok (if existsb (fun l => bool_decide (as_string (vget l "path") = Some "/")) (locations_of host)
        then vset "use_default_location" (VBool false) host' else host')
  else Ok host.

(** The text of the file of a host. *)
Definition config_text (host_type : string) (host_row : jsval) : result nginx_error string :=
  let nice_host_type := getFileFriendlyHostType host_type in
  template ← readTemplate (nice_host_type +:+ ".conf");
  host ← gated_host nice_host_type (json_clone host_row);
  host ← use_default_location nice_host_type host;
  host ← fix_scheme nice_host_type host;
  host ← place_locations host;
  render template (vset "ipv6" (VBool (ipv6Enabled DISABLE_IPV6)) host).

Definition generateConfig (host_type : string) (host_row : jsval) (fs : files) : result nginx_error files :=
  text ← config_text host_type host_row;
  Ok (<[conf_of host_type (json_clone host_row) := text]> fs).

(** The file of a pending certificate. *)
Definition request_conf (certificate : jsval) : string := "/data/nginx/temp/letsencrypt_" +:+ id_of certificate +:+ ".conf".

Definition generateLetsEncryptRequestConfig (certificate : jsval) (fs : files) : result nginx_error files :=
  template ← readTemplate "letsencrypt-request.conf";
  text ← render template (vset "ipv6" (VBool (ipv6Enabled DISABLE_IPV6)) certificate);
  Ok (<[request_conf certificate := text]> fs).

Definition deleteLetsEncryptRequestConfig (certificate : jsval) (fs : files) : files := deleteFile (request_conf certificate) fs.

(** * Testing and reloading *)

Definition test (fs : files) : option string := nginx_t (live fs).

(** [reload_ok]: whether [nginx -s reload] succeeds. *)
Definition reloadTested (reload_ok : bool) (n : nginx) : nginx * result config_error unit :=
  if reload_ok then (Nginx (n_files n) (n_meta n) (live (n_files n)), Ok tt) else (n, Throw ReloadFailed).

Definition reload (reload_ok : bool) (n : nginx) : nginx * result config_error unit :=
  match test (n_files n) with Some output => (n, Throw (TestFailed output)) | None => reloadTested reload_ok n end.

(** The lines of a message that say something. *)
Definition valid_lines (message : string) : string :=
  join (String nl "") (bfilter (fun line => negb (includes "/var/log/nginx/error.log" line)) (split_char nl message)).

Definition online_meta (host : jsval) : jsval := VObj (assign (props (vget host "meta")) [("nginx_online", VBool true); ("nginx_err", VNull)]).
Definition kept_meta (text : string) (host : jsval) : jsval := VObj (assign (props (vget host "meta")) [("nginx_online", VBool true); ("nginx_err", VStr text)]).
Definition offline_meta (output : string) (host : jsval) : jsval := VObj (assign (props (vget host "meta")) [("nginx_online", VBool false); ("nginx_err", VStr output)]).

Definition patch (host_type : string) (host meta : jsval) (n : nginx) : nginx :=
  Nginx (n_files n) (<[(getFileFriendlyHostType host_type, id_of host) := meta]> (n_meta n)) (n_loaded n).

(** What the database and the reload answer: the message of a failing patch, after a test that
    passed and after one that did not. *)
Record outcomes := Outcomes { o_patch_ok : option string; o_patch_bad : option string; o_reload : bool }.

(** After a failed test, or a failed patch behind it: the new file is kept as an error, the
    old one comes back. *)
Definition reject_new (o : outcomes) (host_type : string) (host : jsval) (hadBackup : bool) (message : string) (n : nginx) :
  nginx * result config_error (jsval * option string) :=
  let output := valid_lines message in
  let fs := deleteConfig host_type (Some host) false (renameConfigAsError host_type host (n_files n)) in
  let '(fs, restored) := if hadBackup then restoreConfigBackup host_type host fs else (fs, false) in
  let n := set_files fs n in
  let meta := if restored
              then kept_meta ("New config rejected by nginx -t; the previous config is still active:" +:+ String nl output) host
              else offline_meta output host in
  match o_patch_bad o with
  | Some m => (n, Throw (PatchFailed m))
  | None => (patch host_type host meta n, Ok (meta, if restored then Some output else None))
  end.

Definition configure (o : outcomes) (host_type : string) (host : jsval) (n : nginx) : nginx * result config_error jsval :=
  match test (n_files n) with
  | Some output => (n, Throw (TestFailed output))
  | None =>
      match assertSafeHostFields host_type host with
      | Throw e => (n, Throw (Gate e))
      | Ok _ =>
          let '(fs, hadBackup) := backupConfig host_type host (n_files n) in
          let fs := deleteConfig host_type (Some host) true fs in
          match generateConfig host_type host fs with
          | Throw e =>
              let fs := deleteConfig host_type (Some host) false fs in
              (set_files (if hadBackup then (restoreConfigBackup host_type host fs).1 else fs) n, Throw (Gate e))
          | Ok fs =>
              let n := set_files fs n in
              let '(n, decided) :=
                match test fs with
                | None =>
                    match o_patch_ok o with
                    | None => (set_files (dropConfigBackup host_type host fs) (patch host_type host (online_meta host) n),
                               Ok (online_meta host, None))
                    | Some message => reject_new o host_type host hadBackup message n
                    end
                | Some message => reject_new o host_type host hadBackup message n
                end in
              match decided with
              | Throw e => (n, Throw e)
              | Ok (combined_meta, rejectedOutput) =>
                  let '(n, reloaded) := reloadTested (o_reload o) n in
                  match reloaded with
                  | Throw e => (n, Throw e)
                  | Ok _ => (n, match rejectedOutput with Some output => Throw (ConfigRejected output) | None => Ok combined_meta end)
                  end
              end
          end
      end
  end.

(** * Many hosts at once *)

(** The hosts with whether their file was saved. *)
Fixpoint backup_all (host_type : string) (hosts : list jsval) (fs : files) : files * list (jsval * bool) :=
  match hosts with
  | [] => (fs, [])
  | host :: hosts =>
      let '(fs, saved) := backupConfig host_type host fs in
      let '(fs, rest) := backup_all host_type hosts fs in
      (fs, (host, saved) :: rest)
  end.

(** [copyFileSync] of the backup, or no file. *)
Definition putBack (host_type : string) (hb : jsval * bool) (fs : files) : files :=
  let conf := conf_of host_type hb.1 in
  if hb.2 then match fs !! (conf +:+ ".bak") with Some text => <[conf := text]> fs | None => fs end
  else deleteConfig host_type (Some hb.1) false fs.

Definition dropBackups (host_type : string) (hbs : list (jsval * bool)) (fs : files) : files :=
  foldl (fun fs hb => if (hb : jsval * bool).2 then dropConfigBackup host_type hb.1 fs else fs) fs hbs.

(** Every file is written before the outcome counts, and the first error of a host is the one
    reported. *)
Definition generate_all (host_type : string) (hosts : list jsval) (fs : files) : files * option nginx_error :=
  foldl (fun acc host =>
    match generateConfig host_type host acc.1 with
    | Ok fs => (fs, acc.2)
    | Throw e => (acc.1, Some (default e acc.2))
    end) (fs, None) hosts.

Record rejection := Rejection { rj_host : jsval; rj_kept : bool; rj_output : string }.

(** The message of a gate: its text is not modelled. *)
Variable message_of : nginx_error -> string.

(** One host at a time, each new file kept when nginx takes it. *)
Definition isolate (host_type : string) (acc : files * list jsval * list rejection) (hb : jsval * bool) : files * list jsval * list rejection :=
  let '(fs, accepted, rejected) := acc in
  let '(host, kept) := hb in
  let refuse (fs : files) (message : string) :=
    (putBack host_type hb (renameConfigAsError host_type host fs), accepted, rejected ++ [Rejection host kept (valid_lines message)]) in
  match generateConfig host_type host fs with
  | Throw e => refuse fs (message_of e)
  | Ok fs =>
      match test fs with
      | Some message => refuse fs message
      | None => (fs, accepted ++ [host], rejected)
      end
  end.

Definition has_model (host_type : string) : bool :=
  bool_decide (getFileFriendlyHostType host_type ∈ ["proxy_host"; "redirection_host"; "dead_host"; "stream"]).

(** The patches up to the first that fails. *)
Fixpoint patch_all (patch_ok : string -> bool) (host_type : string) (l : list (jsval * jsval)) (n : nginx) : nginx :=
  match l with
  | [] => n
  | (host, meta) :: l => if patch_ok (id_of host) then patch_all patch_ok host_type l (patch host_type host meta n) else n
  end.

Definition markHostsRejected (patch_ok : string -> bool) (host_type : string) (rejected : list rejection) (n : nginx) : nginx :=
  if has_model host_type then
    patch_all patch_ok host_type
      ((fun r => (rj_host r,
          if rj_kept r
          then kept_meta ("Regenerated config rejected by nginx -t; the previous config is still active:" +:+ String nl (rj_output r)) (rj_host r)
          else offline_meta (rj_output r) (rj_host r))) <$> rejected) n
  else n.

(** [v === false], [v === 0] *)
Definition is_false (v : jsval) : bool := match v with VBool b => negb b | _ => false end.
Definition is_zero (v : jsval) : bool := match v with VNum n => bool_decide (num_int n = Some 0) | _ => false end.

(** A host that is switched on and still shows an error. *)
Definition is_stale (host : jsval) : bool :=
  truthy host && negb (is_false (vget host "enabled")) && negb (is_zero (vget host "enabled")) &&
  (truthy (vget (vget host "meta") "nginx_err") || is_false (vget (vget host "meta") "nginx_online")).

Definition clearHostErrors (patch_ok : string -> bool) (host_type : string) (hosts : list jsval) (n : nginx) : nginx :=
  if has_model host_type then
    patch_all patch_ok host_type ((fun h => (h, online_meta h)) <$> bfilter is_stale hosts) n
  else n.

Definition bulkGenerateConfigs (patch_ok : string -> bool) (reload_ok : bool) (host_type : string) (hosts : list jsval) (n : nginx) :
  nginx * result config_error (list jsval) :=
  if bool_decide (hosts = []) then (n, Ok [])
  else
    let '(fs, hbs) := backup_all host_type hosts (n_files n) in
    let '(fs1, failed) := generate_all host_type hosts fs in
    let first := match failed with Some e => Some (message_of e) | None => test fs1 end in
    match first with
    | None => (clearHostErrors patch_ok host_type hosts (set_files (dropBackups host_type hbs fs1) n), Ok hosts)
    | Some _ =>
        let fs := foldl (fun fs hb => putBack host_type hb fs) fs1 hbs in
        match test fs with
        | Some message => (set_files (dropBackups host_type hbs fs) n, Throw (BaseFails (valid_lines message)))
        | None =>
            let '(fs, accepted, rejected) := foldl (isolate host_type) (fs, [], []) hbs in
            let n := set_files (dropBackups host_type hbs fs) n in
            let n := clearHostErrors patch_ok host_type accepted n in
            let n := markHostsRejected patch_ok host_type rejected n in
            if bool_decide (length rejected = 0%nat) then (n, Ok hosts)
            else ((reloadTested reload_ok n).1, Throw (HostsRejected ((fun r => (id_of (rj_host r), rj_kept r)) <$> rejected)))
        end
    end.

End Rendering.

(** * Names *)

Lemma ends_with_spec suf s : ends_with suf s = true <-> exists p, s = p +:+ suf.
Proof.
  induction s as [|c s IH]; cbn [ends_with].
  - destruct (decide ("" = suf)) as [<-|Hn]; [split; [by exists ""|done]|]. split; [done|]. intros ([|? ?] & Hp); [|done]. by destruct suf.
  - destruct (decide (String c s = suf)) as [<-|Hn]; [split; [by exists ""|done]|]. rewrite IH. split.
    + intros (p & ->). by exists (String c p).
    + intros ([|d p] & Hp); [by rewrite sapp_nil_l in Hp|]. rewrite sapp_String in Hp. injection Hp as -> ->. by exists p.
Qed.

Lemma conf_live t h : is_live (conf_of t h) = true.
Proof.
  unfold is_live, conf_of, getConfigName. apply ends_with_spec. destruct (decide _); [by exists "/data/nginx/default_host/site"|].
  exists ("/data/nginx/" +:+ getFileFriendlyHostType (getFileFriendlyHostType t) +:+ "/" +:+ id_of h). by rewrite !sapp_assoc.
Qed.

(** The last characters of the endings tell them apart. *)
Lemma last_char_end c e : e <> "" -> last_char (c +:+ e) = last_char e.
Proof. apply last_char_app. Qed.

Lemma not_live c e : e <> "" -> last_char e <> Some "f"%char -> is_live (c +:+ e) = false.
Proof.
  intros Hne He. destruct (is_live (c +:+ e)) eqn:Hl; [|done]. apply ends_with_spec in Hl as (p & Hp). exfalso. apply He.
  by rewrite <- (last_char_end c e Hne), Hp, last_char_end.
Qed.

Lemma live_last k : is_live k = true -> last_char k = Some "f"%char.
Proof. intros (p & ->)%ends_with_spec. by rewrite last_char_end. Qed.

Lemma sapp_inj_r a b e : a +:+ e = b +:+ e -> a = b.
Proof.
  revert b. induction a as [|c a IH]; intros [|d b]; rewrite ?sapp_nil_l, ?sapp_String; intros H; [done| | |].
  - apply (f_equal String.length) in H. cbn in H. rewrite slength_app in H. lia.
  - apply (f_equal String.length) in H. cbn in H. rewrite slength_app in H. lia.
  - injection H as -> H. f_equal. by apply IH.
Qed.

Definition bak (t : string) (h : jsval) : string := conf_of t h +:+ ".bak".
Definition err (t : string) (h : jsval) : string := conf_of t h +:+ ".err".
Definition dis (t : string) (h : jsval) : string := conf_of t h +:+ ".disabled".

Lemma bak_last t h : last_char (bak t h) = Some "k"%char.
Proof. by apply last_char_end. Qed.
Lemma err_last t h : last_char (err t h) = Some "r"%char.
Proof. by apply last_char_end. Qed.
Lemma dis_last t h : last_char (dis t h) = Some "d"%char.
Proof. by apply last_char_end. Qed.
Lemma conf_last t h : last_char (conf_of t h) = Some "f"%char.
Proof. apply live_last, conf_live. Qed.

Lemma bak_inj t h h' : bak t h = bak t h' <-> conf_of t h = conf_of t h'.
Proof. unfold bak. split; [apply sapp_inj_r|by intros ->]. Qed.
Lemma dis_inj t h h' : dis t h = dis t h' <-> conf_of t h = conf_of t h'.
Proof. unfold dis. split; [apply sapp_inj_r|by intros ->]. Qed.

(** Two names differ because their last characters do. *)
Ltac by_last :=
  let H := fresh in intros H; apply (f_equal last_char) in H; rewrite ?bak_last, ?err_last, ?dis_last, ?conf_last in H;
  repeat match goal with Hl : is_live ?k = true |- _ => rewrite (live_last k Hl) in H end; discriminate H.

Lemma live_lookup fs k : live fs !! k = if is_live k then fs !! k else None.
Proof.
  unfold live. destruct (is_live k) eqn:Hk.
  - apply option_eq. intros x. rewrite map_lookup_filter_Some. split; [by intros [? _]|by intros ?].
  - apply map_lookup_filter_None. right. intros x _ H. change (is_live k = true) in H. congruence.
Qed.

Lemma live_ext fs gs : (forall k, is_live k = true -> fs !! k = gs !! k) -> live fs = live gs.
Proof. intros H. apply map_eq. intros k. rewrite !live_lookup. destruct (is_live k) eqn:Hk; [by apply H|done]. Qed.

(** * One host *)

(** The file that works: the live one, or the one taken out for a certificate. *)
Definition working (t : string) (h : jsval) (fs : files) : option string :=
  match fs !! conf_of t h with Some text => Some text | None => fs !! dis t h end.

Lemma backup_spec t h fs :
  let r := backupConfig t h fs in
  r.2 = bool_decide (is_Some (working t h fs)) /\ (r.2 = true -> r.1 !! bak t h = working t h fs) /\
  (forall k, k <> bak t h -> k <> dis t h -> r.1 !! k = fs !! k) /\ (r.2 = false -> r.1 = fs).
Proof.
  cbv zeta. unfold backupConfig, working. fold (bak t h) (dis t h). destruct (fs !! conf_of t h) as [text|] eqn:Hc; cbn [fst snd].
  - rewrite bool_decide_eq_true_2 by done. split; [done|]. split; [intros _; apply lookup_insert_eq|]. split; [|done].
    intros k Hk _. by rewrite lookup_insert_ne.
  - unfold rename. destruct (fs !! dis t h) as [text|] eqn:Hd; cbn [fst snd].
    + rewrite bool_decide_eq_true_2 by done. split; [done|]. split; [intros _; apply lookup_insert_eq|]. split; [|done].
      intros k Hk Hk'. by rewrite lookup_insert_ne, lookup_delete_ne.
    + rewrite bool_decide_eq_false_2 by (by intros [? ?]). split; [done|]. split; [done|]. done.
Qed.

Lemma delete_err_lookup t h fs k : k <> conf_of t h -> k <> err t h -> k <> dis t h -> deleteConfig t (Some h) true fs !! k = fs !! k.
Proof. intros H1 H2 H3. unfold deleteConfig, deleteFile. rewrite !lookup_delete_ne; [done|by intros <-|by intros <-|by intros <-]. Qed.

Lemma delete_err_conf t h fs : deleteConfig t (Some h) true fs !! conf_of t h = None.
Proof.
  unfold deleteConfig, deleteFile. rewrite lookup_delete_ne, lookup_delete_ne; [apply lookup_delete_eq|change (err t h <> conf_of t h); by_last|change (dis t h <> conf_of t h); by_last].
Qed.

Lemma delete_lookup t h fs k : deleteConfig t (Some h) false fs !! k = if decide (k = conf_of t h) then None else fs !! k.
Proof.
  unfold deleteConfig, deleteFile. destruct (decide _) as [->|Hk]; [apply lookup_delete_eq|]. by rewrite lookup_delete_ne.
Qed.

Lemma rename_err_lookup t h fs k : k <> err t h -> renameConfigAsError t h fs !! k = if decide (k = conf_of t h) then None else fs !! k.
Proof.
  intros Hk. unfold renameConfigAsError, rename. fold (err t h). destruct (fs !! conf_of t h) as [text|] eqn:Hc; cbn [fst].
  - rewrite lookup_insert_ne by done. destruct (decide _) as [->|Hn]; [apply lookup_delete_eq|by rewrite lookup_delete_ne].
  - destruct (decide _) as [->|Hn]; [done|done].
Qed.

(** A number is an id that is the same in the copy of the row. *)
Lemma clone_conf t l z : mget "id" l = Some (VInt z) -> conf_of t (json_clone (VObj l)) = conf_of t (VObj l).
Proof.
  intros Hid. unfold conf_of, id_of. f_equal. cbn [json_clone vget]. rewrite Hid. cbn [default].
  assert (mget "id" (flat_map (fun p => match p with (k, x) => if is_undef x then [] else [(k, json_clone x)] end) l) = Some (VInt z)) as ->; [|done].
  clear t. induction l as [|[j x] l IH]; [done|]. cbn [mget flat_map] in *. destruct (decide (j = "id")) as [->|Hn].
  - injection Hid as ->. change (json_clone (VInt z)) with (VInt z). cbn [is_undef VInt app mget]. by rewrite decide_True.
  - destruct (is_undef x); [by apply IH|]. cbn [app mget]. rewrite decide_False by done. by apply IH.
Qed.

Section Serving.

Variable templates : string -> option string.
Variable parseAndRender : string -> jsval -> result string string.
Variable DISABLE_IPV6 : option string.
Variable nginx_t : files -> option string.
Variable message_of : nginx_error -> string.

Notation text_of := (config_text templates parseAndRender DISABLE_IPV6).
Notation generate := (generateConfig templates parseAndRender DISABLE_IPV6).
Notation passes fs := (nginx_t (live fs) = None).

(** The id of a row is a number. *)
Definition row_id (h : jsval) : Prop := exists l z, h = VObj l /\ mget "id" l = Some (VInt z).

Lemma generate_spec t h fs : row_id h ->
  generate t h fs = match text_of t h with Ok text => Ok (<[conf_of t h := text]> fs) | Throw e => Throw e end.
Proof. intros (l & z & -> & Hid). unfold generateConfig. rewrite (clone_conf t l z Hid). by destruct (text_of t (VObj l)). Qed.

(** The files after the new one is refused: the old one is back, if there was one. *)
Definition settled (t : string) (h : jsval) (old : option string) (fs gs : files) : Prop :=
  gs !! conf_of t h = old /\ forall k, k <> conf_of t h -> k <> bak t h -> k <> err t h -> gs !! k = fs !! k.

Lemma restore_spec t h fs old (saved : bool) : (saved = true -> fs !! bak t h = old /\ is_Some old) -> (saved = false -> fs !! conf_of t h = None /\ old = None) ->
  let r := if saved then restoreConfigBackup t h fs else (fs, false) in
  r.2 = saved /\ settled t h old fs r.1.
Proof.
  cbv zeta. intros Hs Hn. destruct saved.
  - destruct (Hs eq_refl) as [Hb [text Ht]]. unfold restoreConfigBackup, rename. fold (bak t h). rewrite Hb, Ht. cbn [fst snd]. split; [done|]. split.
    + apply lookup_insert_eq.
    + intros k H1 H2 _. rewrite lookup_insert_ne, lookup_delete_ne by done. done.
  - destruct (Hn eq_refl) as [Hc ->]. by split_and!.
Qed.

Lemma settled_trans t h old (fs gs hs : files) : (forall k, k <> conf_of t h -> k <> err t h -> gs !! k = fs !! k) -> settled t h old gs hs -> settled t h old fs hs.
Proof. intros Hg [H1 H2]. split; [done|]. intros k ???. by rewrite H2, Hg. Qed.

Lemma cleared_lookup t h fs k : k <> err t h -> deleteConfig t (Some h) false (renameConfigAsError t h fs) !! k = if decide (k = conf_of t h) then None else fs !! k.
Proof. intros Hk. rewrite delete_lookup. destruct (decide _) as [|Hn]; [done|]. by rewrite rename_err_lookup, decide_False. Qed.

Lemma reject_spec o t h saved m n old : (saved = true -> n_files n !! bak t h = old /\ is_Some old) -> (saved = false -> old = None) ->
  let r := reject_new o t h saved m n in
  settled t h old (n_files n) (n_files r.1) /\ n_loaded r.1 = n_loaded n /\
  match r.2 with
  | Ok (meta, rejected) => o_patch_bad o = None /\ (if saved then rejected = Some (valid_lines m) else rejected = None /\ meta = offline_meta (valid_lines m) h)
  | Throw e => exists db, e = PatchFailed db
  end.
Proof.
  cbv zeta. intros Hs Hn. unfold reject_new. set (fs := deleteConfig _ _ _ _).
  destruct (restore_spec t h fs old saved) as [Hr Hset].
  { intros Ht. destruct (Hs Ht) as [Hb Hold]. split; [|done]. subst fs. rewrite cleared_lookup by by_last. rewrite decide_False by by_last. done. }
  { intros Hf. split; [|by apply Hn]. subst fs. rewrite cleared_lookup by by_last. by rewrite decide_True. }
  apply (settled_trans _ _ _ (n_files n)) in Hset. 2:{ intros k H1 H2. subst fs. by rewrite cleared_lookup, decide_False. }
  clearbody fs. destruct (if saved then restoreConfigBackup t h fs else (fs, false)) as [gs restored]. cbn [fst snd] in *. subst restored.
  destruct (o_patch_bad o); cbn; split_and!; try done; [by eexists|]. by destruct saved.
Qed.

Lemma settled_passes t h fs gs : passes fs -> settled t h (fs !! conf_of t h) fs gs -> passes gs.
Proof.
  intros Hp [Hc Hk]. rewrite <- Hp. f_equal. apply live_ext. intros k Hl. destruct (decide (k = conf_of t h)) as [->|Hn]; [done|].
  apply Hk; [done|by_last|by_last].
Qed.

(** What a save of a host leaves: the files still pass, only those of the host changed, its file
    is the new one or the old one, and what nginx was told to run are files that pass. A
    save that reports success has put its file live, or found none it could keep. *)
Definition serving (t : string) (h : jsval) (n : nginx) (r : nginx * result config_error jsval) : Prop :=
  let c := conf_of t h in
  passes (n_files r.1) /\
  (forall k, k <> c -> k <> bak t h -> k <> err t h -> k <> dis t h -> n_files r.1 !! k = n_files n !! k) /\
  (n_loaded r.1 = live (n_files r.1) \/ n_loaded r.1 = n_loaded n) /\
  match r.2 with
  | Ok meta =>
      n_loaded r.1 = live (n_files r.1) /\
      ((exists text, text_of t h = Ok text /\ n_files r.1 !! c = Some text /\ meta = online_meta h) \/
       (n_files n !! c = None /\ n_files r.1 !! c = None /\ exists output, meta = offline_meta output h))
  | Throw (ConfigRejected _) => n_loaded r.1 = live (n_files r.1) /\ n_files r.1 !! c = n_files n !! c /\ is_Some (n_files n !! c)
  | Throw ReloadFailed => n_files r.1 !! c = n_files n !! c \/ exists text, text_of t h = Ok text /\ n_files r.1 !! c = Some text
  | Throw _ => n_files r.1 !! c = n_files n !! c
  end.

(** The end of [configure]: the reload, and the answer. *)
Definition answer (o : outcomes) (p : nginx * result config_error (jsval * option string)) : nginx * result config_error jsval :=
  match p.2 with
  | Throw e => (p.1, Throw e)
  | Ok (combined_meta, rejectedOutput) =>
      let '(n, reloaded) := reloadTested (o_reload o) p.1 in
      match reloaded with
      | Throw e => (n, Throw e)
      | Ok _ => (n, match rejectedOutput with Some output => Throw (ConfigRejected output) | None => Ok combined_meta end)
      end
  end.

Lemma configure_eq o t h n :
  configure templates parseAndRender DISABLE_IPV6 nginx_t o t h n =
  match test nginx_t (n_files n) with
  | Some output => (n, Throw (TestFailed output))
  | None =>
      match assertSafeHostFields t h with
      | Throw e => (n, Throw (Gate e))
      | Ok _ =>
          let b := backupConfig t h (n_files n) in
          let fs1 := deleteConfig t (Some h) true b.1 in
          match generate t h fs1 with
          | Throw e =>
              let fs2 := deleteConfig t (Some h) false fs1 in
              (set_files (if b.2 then restoreConfigBackup t h fs2 else (fs2, false)).1 n, Throw (Gate e))
          | Ok fs2 =>
              answer o
                match test nginx_t fs2, o_patch_ok o with
                | None, None => (set_files (dropConfigBackup t h fs2) (patch t h (online_meta h) (set_files fs2 n)), Ok (online_meta h, None))
                | Some message, _ | None, Some message => reject_new o t h b.2 message (set_files fs2 n)
                end
          end
      end
  end.
Proof.
  unfold configure. destruct (test nginx_t (n_files n)); [done|]. destruct (assertSafeHostFields t h); [|done].
  destruct (backupConfig t h (n_files n)) as [fs saved]. cbn [fst snd]. destruct (generate t h _) as [fs2|e]; [|by destruct saved].
  unfold answer. destruct (test nginx_t fs2); [by destruct (reject_new _ _ _ _ _ _)|]. destruct (o_patch_ok o); [by destruct (reject_new _ _ _ _ _ _)|done].
Qed.

(** After the backup and the deletion: the files without those of the host, the working one saved. *)
Lemma cleared_spec t h fs : (fs !! conf_of t h = None -> fs !! dis t h = None) ->
  let b := backupConfig t h fs in
  let fs1 := deleteConfig t (Some h) true b.1 in
  (b.2 = true -> fs1 !! bak t h = fs !! conf_of t h /\ is_Some (fs !! conf_of t h)) /\ (b.2 = false -> fs !! conf_of t h = None) /\
  (forall k, k <> conf_of t h -> k <> bak t h -> k <> err t h -> k <> dis t h -> fs1 !! k = fs !! k).
Proof.
  cbv zeta. intros Hdis. pose proof (backup_spec t h fs) as (Hsaved & Hbak & Hframe & _). cbv zeta in *.
  assert (working t h fs = fs !! conf_of t h) as Hw.
  { unfold working. destruct (fs !! conf_of t h) eqn:Hc; [done|]. by apply Hdis. }
  rewrite Hw in Hsaved, Hbak. split_and!.
  - intros Ht. split; [|rewrite Hsaved in Ht; by apply bool_decide_eq_true in Ht]. rewrite delete_err_lookup by by_last. by apply Hbak.
  - intros Hf. rewrite Hsaved in Hf. apply bool_decide_eq_false in Hf. destruct (fs !! conf_of t h) as [x|]; [|done]. destruct Hf. by exists x.
  - intros k ????. rewrite delete_err_lookup by done. by apply Hframe.
Qed.

Lemma settled_serving t h (fs fs1 gs : files) : passes fs ->
  (forall k, k <> conf_of t h -> k <> bak t h -> k <> err t h -> k <> dis t h -> fs1 !! k = fs !! k) ->
  settled t h (fs !! conf_of t h) fs1 gs ->
  passes gs /\ gs !! conf_of t h = fs !! conf_of t h /\ forall k, k <> conf_of t h -> k <> bak t h -> k <> err t h -> k <> dis t h -> gs !! k = fs !! k.
Proof.
  intros Hp Hfs1 [H1 H2]. split_and!; [|done|intros; rewrite H2; by auto]. rewrite <- Hp. f_equal. apply live_ext. intros k Hl.
  destruct (decide (k = conf_of t h)) as [->|Hk]; [done|]. rewrite H2, Hfs1; [done|done|by_last|by_last|by_last|done|by_last|by_last].
Qed.

Lemma rejected_serving o t h n (fs1 fs2 : files) saved m : passes (n_files n) ->
  (saved = true -> fs1 !! bak t h = n_files n !! conf_of t h /\ is_Some (n_files n !! conf_of t h)) -> (saved = false -> n_files n !! conf_of t h = None) ->
  (forall k, k <> conf_of t h -> k <> bak t h -> k <> err t h -> k <> dis t h -> fs1 !! k = n_files n !! k) ->
  (forall k, k <> conf_of t h -> fs2 !! k = fs1 !! k) ->
  serving t h n (answer o (reject_new o t h saved m (set_files fs2 n))).
Proof.
  intros Hp Hs Hn Hfs1 Hfs2. pose proof (reject_spec o t h saved m (set_files fs2 n) (n_files n !! conf_of t h)) as H. cbv zeta in H.
  cbn [set_files n_files n_loaded] in H. destruct H as (Hset & Hl & Hr); [|done|].
  { intros Ht. destruct (Hs Ht). split; [|done]. rewrite Hfs2 by by_last. done. }
  apply (settled_trans _ _ _ fs1) in Hset; [|intros k Hk _; by apply Hfs2].
  destruct (settled_serving t h (n_files n) fs1 _ Hp Hfs1 Hset) as (Hpass & Hc & Hk). unfold serving, answer.
  destruct (reject_new o t h saved m (set_files fs2 n)) as [n' [[meta rejected]|e]]; cbn [fst snd] in *.
  2:{ destruct Hr as [db ->]. cbn [fst snd]. split_and!; try done. by right. }
  destruct Hr as [_ Hr]. unfold reloadTested. destruct (o_reload o); cbn [fst snd n_files n_loaded].
  - destruct saved.
    + subst rejected. split_and!; try done; [by left|]. by apply Hs.
    + destruct Hr as [-> ->]. split_and!; try done; [by left|]. right. rewrite Hc. split_and!; [by apply Hn|by apply Hn|by eexists].
  - split_and!; try done; [by right|]. by left.
Qed.

(** C19. When the files passed before and none of the host waits for a certificate, a save keeps
    nginx serving: [serving]. *)
Theorem configure_keeps_serving o t h n : row_id h -> passes (n_files n) ->
  (n_files n !! conf_of t h = None -> n_files n !! dis t h = None) ->
  serving t h n (configure templates parseAndRender DISABLE_IPV6 nginx_t o t h n).
Proof.
  intros Hid Hp Hdis. rewrite configure_eq. assert (test nginx_t (n_files n) = None) as -> by done.
  destruct (assertSafeHostFields t h) as [?|e]; [|unfold serving; cbn [fst snd]; split_and!; try done; by right].
  destruct (cleared_spec t h (n_files n) Hdis) as (Hs & Hn & Hfs1). cbv zeta. set (b := backupConfig t h (n_files n)) in *.
  set (fs1 := deleteConfig t (Some h) true b.1) in *. clearbody b fs1. rewrite generate_spec by done. destruct (text_of t h) as [text|e] eqn:Htext.
  2:{ set (fs2 := deleteConfig t (Some h) false fs1). destruct (restore_spec t h fs2 (n_files n !! conf_of t h) b.2) as [_ Hset].
      { intros Ht. destruct (Hs Ht). split; [|done]. subst fs2. rewrite delete_lookup, decide_False by by_last. done. }
      { intros Hf. split; [|by apply Hn]. subst fs2. by rewrite delete_lookup, decide_True. }
      apply (settled_trans _ _ _ fs1) in Hset. 2:{ intros k Hk _. subst fs2. by rewrite delete_lookup, decide_False. }
      destruct (settled_serving t h (n_files n) fs1 _ Hp Hfs1 Hset) as (H1 & H2 & H3). unfold serving. cbn [fst snd set_files n_files n_loaded].
      split_and!; try done. by right. }
  set (fs2 := <[conf_of t h := text]> fs1).
  assert (forall k, k <> conf_of t h -> fs2 !! k = fs1 !! k) as Hfs2 by (intros k Hk; subst fs2; by rewrite lookup_insert_ne).
  pose proof (fun m => rejected_serving o t h n fs1 fs2 b.2 m Hp Hs Hn Hfs1 Hfs2) as Hrej.
  destruct (test nginx_t fs2) as [m|] eqn:Ht2; [apply Hrej|]. destruct (o_patch_ok o) as [m|]; [apply Hrej|]. clear Hrej.
  assert (forall k, k <> bak t h -> dropConfigBackup t h fs2 !! k = fs2 !! k) as Hdrop.
  { intros k Hk. unfold dropConfigBackup, deleteFile. fold (bak t h). by rewrite lookup_delete_ne. }
  assert (live (dropConfigBackup t h fs2) = live fs2) as Hlive by (apply live_ext; intros k Hl; apply Hdrop; by_last).
  assert (dropConfigBackup t h fs2 !! conf_of t h = Some text) as Hnew by (rewrite Hdrop by by_last; apply lookup_insert_eq).
  assert (forall k, k <> conf_of t h -> k <> bak t h -> k <> err t h -> k <> dis t h -> dropConfigBackup t h fs2 !! k = n_files n !! k) as Hk.
  { intros k ????. by rewrite Hdrop, Hfs2, Hfs1. }
  unfold answer, serving, reloadTested. destruct (o_reload o); cbn [fst snd set_files patch n_files n_loaded]; rewrite ?Hlive; split_and!; try done.
  - by left. - left. by exists text. - by right. - right. by exists text.
Qed.

(** * Many hosts *)

Notation confs t hosts := (conf_of t <$> (hosts : list jsval)).

Lemma working_frame t h fs gs : gs !! conf_of t h = fs !! conf_of t h -> gs !! dis t h = fs !! dis t h -> working t h gs = working t h fs.
Proof. unfold working. by intros -> ->. Qed.

Lemma conf_fresh t h hosts h' : conf_of t h ∉ confs t hosts -> h' ∈ hosts -> conf_of t h <> conf_of t h'.
Proof. intros Hn Hin He. apply Hn. rewrite He. by apply list_elem_of_fmap_2. Qed.

Lemma backup_all_spec t hosts fs : NoDup (confs t hosts) ->
  let r := backup_all t hosts fs in
  r.2.*1 = hosts /\
  (forall hb, hb ∈ r.2 -> hb.2 = bool_decide (is_Some (working t hb.1 fs)) /\ (hb.2 = true -> r.1 !! bak t hb.1 = working t hb.1 fs)) /\
  (forall k, (forall h, h ∈ hosts -> k <> bak t h /\ k <> dis t h) -> r.1 !! k = fs !! k).
Proof.
  cbv zeta. revert fs. induction hosts as [|h hosts IH]; intros fs Hnd.
  { cbn. split_and!; [done|intros hb Hin; by apply elem_of_nil in Hin|done]. }
  cbn [fmap list_fmap] in Hnd. apply NoDup_cons in Hnd as [Hn Hnd]. cbn [backup_all].
  pose proof (backup_spec t h fs) as (Hsaved & Hbak & Hframe & _). destruct (backupConfig t h fs) as [fs' saved]. cbn [fst snd] in *.
  specialize (IH fs' Hnd). destruct (backup_all t hosts fs') as [gs rest]. cbn [fst snd] in *. destruct IH as (H1 & H2 & H3).
  assert (forall h', h' ∈ hosts -> working t h' fs' = working t h' fs) as Hw.
  { intros h' Hin. pose proof (conf_fresh t h hosts h' Hn Hin). apply working_frame; apply Hframe; try by_last. rewrite dis_inj. congruence. }
  split_and!.
  - cbn. by rewrite H1.
  - intros hb [->|Hin]%elem_of_cons.
    + cbn [fst snd]. split; [done|]. intros Ht. rewrite H3; [by apply Hbak|]. intros h' Hin. pose proof (conf_fresh t h hosts h' Hn Hin).
      split; [by rewrite bak_inj|by_last].
    + destruct (H2 hb Hin) as [Ha Hb]. rewrite <- (Hw hb.1); [done|]. rewrite <- H1. by apply list_elem_of_fmap_2.
  - intros k Hk. rewrite H3 by (intros h' Hin; apply Hk; by right). apply Hframe; apply Hk; left.
Qed.

Lemma generate_all_spec t hosts fs e0 : NoDup (confs t hosts) -> Forall row_id hosts ->
  let r := foldl (fun acc host => match generate t host acc.1 with Ok fs => (fs, acc.2) | Throw e => (acc.1, Some (default e acc.2)) end) (fs, e0) hosts in
  (forall k, k ∉ confs t hosts -> r.1 !! k = fs !! k) /\
  (r.2 = None -> e0 = None /\ forall h, h ∈ hosts -> exists text, text_of t h = Ok text /\ r.1 !! conf_of t h = Some text).
Proof.
  cbv zeta. revert fs e0. induction hosts as [|h hosts IH]; intros fs e0 Hnd Hids.
  { cbn. split; [done|]. intros ->. split; [done|]. intros h Hin. by apply elem_of_nil in Hin. }
  cbn [fmap list_fmap] in *. apply NoDup_cons in Hnd as [Hn Hnd]. apply Forall_cons in Hids as [Hid Hids]. cbn [foldl fst snd].
  rewrite generate_spec by done. destruct (text_of t h) as [text|e] eqn:Ht.
  - destruct (IH (<[conf_of t h := text]> fs) e0 Hnd Hids) as [H1 H2]. split.
    + intros k Hk. rewrite elem_of_cons in Hk. rewrite H1 by tauto. rewrite lookup_insert_ne; [done|]. intros <-. tauto.
    + intros He. destruct (H2 He) as [-> H3]. split; [done|]. intros h' [->|Hin]%elem_of_cons; [|by apply H3]. exists text. split; [done|].
      rewrite H1 by done. apply lookup_insert_eq.
  - destruct (IH fs (Some (default e e0)) Hnd Hids) as [H1 H2]. split; [intros k Hk; apply H1; rewrite elem_of_cons in Hk; tauto|].
    intros He. by destruct (H2 He).
Qed.

(** The backup holds what worked, and there is one exactly when something did. *)
Definition saved_ok (t : string) (fs0 : files) (fs : files) (hb : jsval * bool) : Prop :=
  hb.2 = bool_decide (is_Some (working t hb.1 fs0)) /\ (hb.2 = true -> fs !! bak t hb.1 = working t hb.1 fs0).

Lemma saved_ok_frame t fs0 fs gs hb : gs !! bak t hb.1 = fs !! bak t hb.1 -> saved_ok t fs0 fs hb -> saved_ok t fs0 gs hb.
Proof. intros He [H1 H2]. split; [done|]. by rewrite He. Qed.

Lemma putBack_lookup t fs0 fs hb k : saved_ok t fs0 fs hb ->
  putBack t hb fs !! k = if decide (k = conf_of t hb.1) then working t hb.1 fs0 else fs !! k.
Proof.
  intros [H1 H2]. unfold putBack. destruct hb as [h saved]. cbn [fst snd] in *. fold (bak t h). destruct saved.
  - symmetry in H1. apply bool_decide_eq_true in H1 as [text Ht]. rewrite (H2 eq_refl), Ht.
    destruct (decide _) as [->|Hn]; [apply lookup_insert_eq|by rewrite lookup_insert_ne].
  - symmetry in H1. apply bool_decide_eq_false in H1. rewrite delete_lookup. destruct (decide _); [|done].
    destruct (working t h fs0) as [x|]; [|done]. destruct H1. by exists x.
Qed.

Lemma put_all_spec t fs0 fs hbs : NoDup (confs t hbs.*1) -> (forall hb, hb ∈ hbs -> saved_ok t fs0 fs hb) ->
  let gs := foldl (fun fs hb => putBack t hb fs) fs hbs in
  (forall k, k ∉ confs t hbs.*1 -> gs !! k = fs !! k) /\ (forall hb, hb ∈ hbs -> gs !! conf_of t hb.1 = working t hb.1 fs0).
Proof.
  cbv zeta. revert fs. induction hbs as [|hb hbs IH]; intros fs Hnd Hs.
  { cbn. split; [done|]. intros hb Hin. by apply elem_of_nil in Hin. }
  cbn [fmap list_fmap] in *. apply NoDup_cons in Hnd as [Hn Hnd]. cbn [foldl]. assert (saved_ok t fs0 fs hb) as Hhb by (apply Hs; left).
  destruct (IH (putBack t hb fs) Hnd) as [H1 H2].
  { intros hb' Hin. apply (saved_ok_frame t fs0 fs); [|apply Hs; by right]. rewrite (putBack_lookup t fs0 fs hb _ Hhb), decide_False by by_last. done. }
  split.
  - intros k Hk. rewrite elem_of_cons in Hk. rewrite H1 by tauto. rewrite (putBack_lookup t fs0 fs hb k Hhb), decide_False by tauto. done.
  - intros hb' [->|Hin]%elem_of_cons; [|by apply H2]. by rewrite H1, (putBack_lookup t fs0 fs hb _ Hhb), decide_True.
Qed.

Notation step := (isolate templates parseAndRender DISABLE_IPV6 nginx_t message_of).

(** What one host leaves: the new file, or the one that worked. *)
Definition placed (t : string) (fs0 gs : files) (hb : jsval * bool) (kept : bool) : Prop :=
  if kept then gs !! conf_of t hb.1 = working t hb.1 fs0 else exists text, text_of t hb.1 = Ok text /\ gs !! conf_of t hb.1 = Some text.

Lemma isolate_spec t fs0 fs acc rej hb : row_id hb.1 -> passes fs -> saved_ok t fs0 fs hb -> fs !! conf_of t hb.1 = working t hb.1 fs0 ->
  exists gs kept output, step t (fs, acc, rej) hb =
    (gs, if kept : bool then acc else acc ++ [hb.1], if kept then rej ++ [Rejection hb.1 hb.2 output] else rej) /\
  passes gs /\ (forall k, k <> conf_of t hb.1 -> k <> err t hb.1 -> gs !! k = fs !! k) /\ placed t fs0 gs hb kept.
Proof.
  intros Hid Hp Hs Hc. unfold isolate. destruct hb as [h saved]. cbn [fst snd] in *. rewrite generate_spec by done.
  assert (forall gs m, (forall k, k <> conf_of t h -> gs !! k = fs !! k) ->
    exists gs' kept output, (putBack t (h, saved) (renameConfigAsError t h gs), acc, rej ++ [Rejection h saved (valid_lines m)]) =
    (gs', if kept : bool then acc else acc ++ [h], if kept then rej ++ [Rejection h saved output] else rej) /\
    passes gs' /\ (forall k, k <> conf_of t h -> k <> err t h -> gs' !! k = fs !! k) /\ placed t fs0 gs' (h, saved) kept) as Hrefuse.
  { intros gs m Hgs. set (gs1 := renameConfigAsError t h gs). assert (forall k, k <> conf_of t h -> k <> err t h -> gs1 !! k = fs !! k) as H1.
    { intros k Hk He. subst gs1. rewrite rename_err_lookup, decide_False by done. by apply Hgs. }
    assert (saved_ok t fs0 gs1 (h, saved)) as Hs1 by (apply (saved_ok_frame t fs0 fs); [cbn [fst]; apply H1; by_last|done]).
    assert (forall k, k <> err t h -> putBack t (h, saved) gs1 !! k = fs !! k) as H2.
    { intros k He. rewrite (putBack_lookup t fs0 gs1 _ k Hs1). cbn [fst]. destruct (decide _) as [->|Hk]; [done|by apply H1]. }
    exists (putBack t (h, saved) gs1), true, (valid_lines m). split; [done|]. split_and!.
    - rewrite <- Hp. f_equal. apply live_ext. intros k Hl. apply H2. by_last.
    - intros k _ He. by apply H2.
    - unfold placed. cbn [fst]. rewrite H2 by by_last. done. }
  destruct (text_of t h) as [text|e] eqn:Ht; [|by apply Hrefuse]. unfold test.
  destruct (nginx_t (live (<[conf_of t h := text]> fs))) as [m|] eqn:Hm; [apply Hrefuse; intros k Hk; by rewrite lookup_insert_ne|].
  exists (<[conf_of t h := text]> fs), false, "". split; [done|]. split_and!; [done|intros k Hk _; by rewrite lookup_insert_ne|].
  exists text. split; [done|apply lookup_insert_eq].
Qed.

Lemma placed_frame t fs0 fs gs hb kept : gs !! conf_of t hb.1 = fs !! conf_of t hb.1 -> placed t fs0 fs hb kept -> placed t fs0 gs hb kept.
Proof. unfold placed. by intros ->. Qed.

Lemma id_conf t h h' : id_of h = id_of h' -> conf_of t h = conf_of t h'.
Proof. unfold conf_of. by intros ->. Qed.

Lemma isolate_all_spec t fs0 fs acc rej hbs : NoDup (confs t hbs.*1) -> (forall hb, hb ∈ hbs -> row_id hb.1 /\ saved_ok t fs0 fs hb /\ fs !! conf_of t hb.1 = working t hb.1 fs0) ->
  passes fs ->
  exists gs new rs, foldl (step t) (fs, acc, rej) hbs = (gs, acc ++ new, rej ++ rs) /\ passes gs /\
    (forall k, is_live k = true -> k ∉ confs t hbs.*1 -> gs !! k = fs !! k) /\
    (forall r, r ∈ rs -> exists hb, hb ∈ hbs /\ rj_host r = hb.1 /\ rj_kept r = hb.2) /\
    forall hb, hb ∈ hbs -> placed t fs0 gs hb (bool_decide (id_of hb.1 ∈ id_of ∘ rj_host <$> rs)).
Proof.
  revert fs acc rej. induction hbs as [|hb hbs IH]; intros fs acc rej Hnd Hall Hp.
  { exists fs, [], []. cbn. rewrite !app_nil_r. split_and!; [done|done|done|intros r Hin; by apply elem_of_nil in Hin|intros hb Hin; by apply elem_of_nil in Hin]. }
  cbn [fmap list_fmap] in *. apply NoDup_cons in Hnd as [Hn Hnd]. destruct (Hall hb) as (Hid & Hs & Hc); [left|].
  destruct (isolate_spec t fs0 fs acc rej hb Hid Hp Hs Hc) as (gs & kept & output & He & Hpg & Hframe & Hplaced). cbn [foldl]. rewrite He.
  destruct (IH gs (if kept then acc else acc ++ [hb.1]) (if kept then rej ++ [Rejection hb.1 hb.2 output] else rej) Hnd) as (gs' & new & rs & Hf & Hpg' & Hfr & Hrs & Hpl); [|done|].
  { intros hb' Hin. destruct (Hall hb') as (Hid' & Hs' & Hc'); [by right|]. split; [done|].
    assert (conf_of t hb.1 <> conf_of t hb'.1) by (intros Hx; apply Hn; rewrite Hx; by apply (list_elem_of_fmap_2 (conf_of t)), (list_elem_of_fmap_2 fst)).
    split; [apply (saved_ok_frame t fs0 fs); [apply Hframe; by_last|done]|]. rewrite Hframe; [done|done|by_last]. }
  assert (forall r, r ∈ rs -> id_of (rj_host r) <> id_of hb.1) as Hother.
  { intros r (hb' & Hin & Hr & _)%Hrs Hx. apply Hn. rewrite Hr in Hx. rewrite <- (id_conf t _ _ Hx). by apply (list_elem_of_fmap_2 (conf_of t)), (list_elem_of_fmap_2 fst). }
  exists gs', ((if kept then [] else [hb.1]) ++ new), ((if kept then [Rejection hb.1 hb.2 output] else []) ++ rs). split_and!.
  - rewrite Hf. destruct kept; by rewrite ?app_nil_l, <- ?app_assoc.
  - done.
  - intros k Hl Hk. rewrite elem_of_cons in Hk. rewrite Hfr by tauto. apply Hframe; [tauto|by_last].
  - intros r [Hr|Hr]%elem_of_app.
    + destruct kept; [|by apply elem_of_nil in Hr]. apply list_elem_of_singleton in Hr as ->. exists hb. split; [left|done].
    + destruct (Hrs r Hr) as (hb' & ? & ?). exists hb'. split; [by right|done].
  - intros hb' [->|Hin]%elem_of_cons.
    + assert (bool_decide (id_of hb.1 ∈ id_of ∘ rj_host <$> (if kept then [Rejection hb.1 hb.2 output] else []) ++ rs) = kept) as ->.
      { destruct kept; [apply bool_decide_eq_true_2; left|]. apply bool_decide_eq_false_2. intros (r & Hr & Hin)%list_elem_of_fmap. by apply (Hother r Hin). }
      revert Hplaced. apply placed_frame, Hfr; [apply conf_live|done].
    + specialize (Hpl hb' Hin). assert (bool_decide (id_of hb'.1 ∈ id_of ∘ rj_host <$> (if kept then [Rejection hb.1 hb.2 output] else []) ++ rs) =
        bool_decide (id_of hb'.1 ∈ id_of ∘ rj_host <$> rs)) as ->; [|done]. apply bool_decide_ext. rewrite fmap_app, elem_of_app. split; [|by right].
      intros [Hx|?]; [|done]. destruct kept; [|by apply elem_of_nil in Hx]. apply list_elem_of_singleton in Hx. exfalso. apply Hn.
      cbn in Hx. rewrite <- (id_conf t _ _ Hx). by apply (list_elem_of_fmap_2 (conf_of t)), (list_elem_of_fmap_2 fst).
Qed.

Lemma dropBackups_lookup t hbs fs k : is_live k = true -> dropBackups t hbs fs !! k = fs !! k.
Proof.
  intros Hl. unfold dropBackups. revert fs. induction hbs as [|hb hbs IH]; intros fs; [done|]. cbn [foldl]. rewrite IH. destruct hb.2; [|done].
  unfold dropConfigBackup, deleteFile. fold (bak t hb.1). rewrite lookup_delete_ne; [done|]. intros Hx. symmetry in Hx. revert Hx. by_last.
Qed.

Lemma patch_all_frame ok t l n : n_files (patch_all ok t l n) = n_files n /\ n_loaded (patch_all ok t l n) = n_loaded n.
Proof. revert n. induction l as [|[h m] l IH]; intros n; [done|]. cbn [patch_all]. destruct (ok _); [|done]. destruct (IH (patch t h m n)) as [-> ->]. done. Qed.

Lemma clear_frame ok t l n : n_files (clearHostErrors ok t l n) = n_files n /\ n_loaded (clearHostErrors ok t l n) = n_loaded n.
Proof. unfold clearHostErrors. destruct (has_model t); [apply patch_all_frame|done]. Qed.

Lemma mark_frame ok t l n : n_files (markHostsRejected ok t l n) = n_files n /\ n_loaded (markHostsRejected ok t l n) = n_loaded n.
Proof. unfold markHostsRejected. destruct (has_model t); [apply patch_all_frame|done]. Qed.

(** The files with those of the hosts that wait for a certificate put back. *)
Definition unstashed (t : string) (hosts : list jsval) (fs : files) : files :=
  foldl (fun gs h => match working t h fs with Some text => <[conf_of t h := text]> gs | None => gs end) fs hosts.

Lemma unstashed_lookup t hosts fs k : is_live k = true ->
  (k ∉ confs t hosts -> unstashed t hosts fs !! k = fs !! k) /\
  (forall h, h ∈ hosts -> k = conf_of t h -> NoDup (confs t hosts) -> unstashed t hosts fs !! k = working t h fs).
Proof.
  intros Hl. unfold unstashed.
  assert (forall (gs : files), k ∉ confs t hosts -> foldl (fun gs h => match working t h fs with Some text => <[conf_of t h := text]> gs | None => gs end) gs hosts !! k = gs !! k) as Hframe.
  { induction hosts as [|h hosts IH]; intros gs Hk; [done|]. cbn [fmap list_fmap foldl] in *. rewrite elem_of_cons in Hk. rewrite IH by tauto.
    destruct (working t h fs); [|done]. rewrite lookup_insert_ne; [done|]. intros <-. tauto. }
  split; [apply Hframe|]. intros h Hin -> Hnd.
  assert (forall gs : files, gs !! conf_of t h = fs !! conf_of t h ->
    foldl (fun gs h => match working t h fs with Some text => <[conf_of t h := text]> gs | None => gs end) gs hosts !! conf_of t h = working t h fs) as Hg; [|by apply Hg].
  clear Hframe. induction hosts as [|h' hosts IH]; intros gs Hgs; [by apply elem_of_nil in Hin|]. cbn [fmap list_fmap foldl] in *. apply NoDup_cons in Hnd as [Hn Hnd].
  apply elem_of_cons in Hin as [<-|Hin].
  - assert (forall (gs : files), foldl (fun gs h => match working t h fs with Some text => <[conf_of t h := text]> gs | None => gs end) gs hosts !! conf_of t h = gs !! conf_of t h) as ->.
    { clear IH Hgs gs Hnd. induction hosts as [|h' hosts IH]; intros gs; [done|]. cbn [fmap list_fmap foldl] in *. rewrite elem_of_cons in Hn. rewrite IH by tauto.
      destruct (working t h' fs); [|done]. rewrite lookup_insert_ne; [done|]. intros Hx. apply Hn. by left. }
    destruct (working t h fs) as [x|] eqn:Hw; [apply lookup_insert_eq|]. rewrite Hgs. unfold working in Hw. by destruct (fs !! conf_of t h).
  - apply IH; [done|done|]. pose proof (conf_fresh t h' hosts h Hn Hin). destruct (working t h' fs); [|done]. by rewrite lookup_insert_ne.
Qed.

(** What many saves at once leave: the files pass, only those of the hosts changed, an answer
    without error has put every new file live, and an error names the hosts whose files are
    the ones that worked, all others having the new ones. *)
Definition bulk_serving (t : string) (hosts : list jsval) (n : nginx) (r : nginx * result config_error (list jsval)) : Prop :=
  passes (n_files r.1) /\
  (forall k, is_live k = true -> k ∉ confs t hosts -> n_files r.1 !! k = n_files n !! k) /\
  (n_loaded r.1 = live (n_files r.1) \/ n_loaded r.1 = n_loaded n) /\
  match r.2 with
  | Ok l => l = hosts /\ forall h, h ∈ hosts -> exists text, text_of t h = Ok text /\ n_files r.1 !! conf_of t h = Some text
  | Throw (HostsRejected ids) =>
      (exists h, h ∈ hosts /\ id_of h ∈ ids.*1) /\
      forall h, h ∈ hosts ->
        if decide (id_of h ∈ ids.*1) then n_files r.1 !! conf_of t h = working t h (n_files n)
        else exists text, text_of t h = Ok text /\ n_files r.1 !! conf_of t h = Some text
  | Throw _ => False
  end.

(** C20. When the files pass with every waiting file put back, regenerating many hosts keeps nginx
    serving, however the new files fail, alone or together: [bulk_serving]. *)
Theorem bulk_keeps_serving ok reload_ok t hosts n : Forall row_id hosts -> NoDup (confs t hosts) -> hosts <> [] -> passes (unstashed t hosts (n_files n)) ->
  bulk_serving t hosts n (bulkGenerateConfigs templates parseAndRender DISABLE_IPV6 nginx_t message_of ok reload_ok t hosts n).
Proof.
  intros Hids Hnd Hne Hp. unfold bulkGenerateConfigs. rewrite bool_decide_eq_false_2 by done.
  pose proof (backup_all_spec t hosts (n_files n) Hnd) as (Hfst & Hsaved & Hframe). destruct (backup_all t hosts (n_files n)) as [fs hbs]. cbn [fst snd] in *.
  assert (forall k, is_live k = true -> fs !! k = n_files n !! k) as Hfs by (intros k Hl; apply Hframe; intros h _; split; by_last).
  pose proof (generate_all_spec t hosts fs None Hnd Hids) as [Hg1 Hg2]. unfold generate_all.
  destruct (foldl _ (fs, None) hosts) as [fs1 failed]. cbn [fst snd] in *. rewrite <- Hfst in Hnd.
  assert (forall gs k, is_live k = true -> dropBackups t hbs gs !! k = gs !! k) as Hdrop by (intros; by apply dropBackups_lookup).
  assert (forall gs, live (dropBackups t hbs gs) = live gs) as Hlive by (intros gs; apply live_ext; intros k Hl; by apply Hdrop).
  destruct (match failed with Some e => Some (message_of e) | None => test nginx_t fs1 end) as [m|] eqn:Hfirst.
  2:{ destruct failed as [e|]; [done|]. destruct (Hg2 eq_refl) as [_ Hnew]. unfold bulk_serving. cbn [fst snd].
      destruct (clear_frame ok t hosts (set_files (dropBackups t hbs fs1) n)) as [-> ->]. cbn [set_files n_files n_loaded]. rewrite Hlive. split_and!; [done| |by right|done|].
      - intros k Hl Hk. by rewrite Hdrop, Hg1, Hfs.
      - intros h Hin. destruct (Hnew h Hin) as (text & ? & ?). exists text. split; [done|]. rewrite Hdrop; [done|apply conf_live]. }
  clear m Hfirst Hg2.
  assert (forall hb, hb ∈ hbs -> saved_ok t (n_files n) fs1 hb) as Hs1.
  { intros hb Hin. destruct (Hsaved hb Hin) as [H1 H2]. split; [done|]. intros Ht. rewrite Hg1; [by apply H2|].
    intros (h & Hx & _)%list_elem_of_fmap. revert Hx. by_last. }
  destruct (put_all_spec t (n_files n) fs1 hbs Hnd Hs1) as [Hb1 Hb2]. set (fs2 := foldl _ fs1 hbs) in *. rewrite Hfst in Hb1.
  assert (forall k, is_live k = true -> k ∉ confs t hosts -> fs2 !! k = n_files n !! k) as Hfs2 by (intros k Hl Hk; by rewrite Hb1, Hg1, Hfs).
  assert (passes fs2) as Hp2.
  { rewrite <- Hp. f_equal. apply live_ext. intros k Hl. destruct (unstashed_lookup t hosts (n_files n) k Hl) as [H1 H2].
    destruct (decide (k ∈ confs t hosts)) as [Hin|Hn]; [|by rewrite H1, Hfs2]. apply list_elem_of_fmap in Hin as (h & -> & Hin).
    rewrite (H2 h Hin eq_refl) by (by rewrite <- Hfst). rewrite <- Hfst in Hin. apply list_elem_of_fmap in Hin as (hb & -> & Hin). by apply Hb2. }
  clearbody fs2. unfold test at 1. rewrite Hp2.
  destruct (isolate_all_spec t (n_files n) fs2 [] [] hbs Hnd) as (gs & new & rs & -> & Hpg & Hgf & Hrs & Hpl).
  { intros hb Hin. split_and!.
    - rewrite Forall_forall in Hids. apply Hids. rewrite <- Hfst. by apply list_elem_of_fmap_2.
    - apply (saved_ok_frame t (n_files n) fs1); [|by apply Hs1]. apply Hb1. intros (h & Hx & _)%list_elem_of_fmap. revert Hx. by_last.
    - by apply Hb2. }
  { done. }
  rewrite !app_nil_l. set (n1 := set_files (dropBackups t hbs gs) n). set (n2 := clearHostErrors ok t new n1). set (n3 := markHostsRejected ok t rs n2).
  assert (n_files n3 = dropBackups t hbs gs /\ n_loaded n3 = n_loaded n) as [Hn3 Hl3].
  { destruct (mark_frame ok t rs n2) as [H1 H2]. destruct (clear_frame ok t new n1) as [H3 H4]. fold n2 in H3, H4. fold n3 in H1, H2. by rewrite H1, H2, H3, H4. }
  assert (passes (n_files n3)) as Hpass by (by rewrite Hn3, Hlive).
  assert (forall k, is_live k = true -> k ∉ confs t hosts -> n_files n3 !! k = n_files n !! k) as Hk3.
  { intros k Hl Hk. rewrite Hn3, Hdrop, Hgf by (try done; by rewrite Hfst). by apply Hfs2. }
  assert (forall h, h ∈ hosts -> if bool_decide (id_of h ∈ id_of ∘ rj_host <$> rs) then n_files n3 !! conf_of t h = working t h (n_files n)
    else exists text, text_of t h = Ok text /\ n_files n3 !! conf_of t h = Some text) as Hpl3.
  { intros h Hin. rewrite <- Hfst in Hin. apply list_elem_of_fmap in Hin as (hb & -> & Hin). specialize (Hpl hb Hin). rewrite Hn3, Hdrop by apply conf_live. exact Hpl. }
  clearbody n3. destruct (decide (length rs = 0%nat)) as [H0|H0].
  - rewrite bool_decide_eq_true_2 by done. apply length_zero_iff_nil in H0 as ->. unfold bulk_serving. cbn [fst snd]. split_and!; [done|done|by right|done|].
    intros h Hin. specialize (Hpl3 h Hin). rewrite bool_decide_eq_false_2 in Hpl3 by (apply not_elem_of_nil). done.
  - rewrite bool_decide_eq_false_2 by done. unfold bulk_serving. cbn [fst snd].
    assert (((fun r => (id_of (rj_host r), rj_kept r)) <$> rs).*1 = (id_of ∘ rj_host <$> rs)) as Hids1 by (rewrite <- list_fmap_compose; done).
    assert (exists h, h ∈ hosts /\ id_of h ∈ id_of ∘ rj_host <$> rs) as Hex.
    { destruct rs as [|r rs]; [done|]. destruct (Hrs r) as (hb & Hin & Hr & _); [left|]. exists hb.1. split; [rewrite <- Hfst; by apply list_elem_of_fmap_2|].
      rewrite <- Hr. left. }
    assert (n_files (reloadTested reload_ok n3).1 = n_files n3) as Hnf by (by destruct reload_ok).
    rewrite !Hnf. split_and!; [done|done| |by rewrite Hids1|].
    + unfold reloadTested. destruct reload_ok; [by left|by right].
    + intros h Hin. specialize (Hpl3 h Hin). rewrite Hids1. destruct (decide _) as [Hd|Hd]; [by rewrite bool_decide_eq_true_2 in Hpl3|by rewrite bool_decide_eq_false_2 in Hpl3].
Qed.

End Serving.

(** * Examples *)

Definition ex_templates (name : string) : option string := Some name.
Definition ex_engine (template : string) (data : jsval) : result string string := Ok (to_string (vget data "advanced_config")).
(** A test that refuses a file with "bad" in it. *)
Definition ex_nginx_t (fs : files) : option string :=
  if forallb (fun p => negb (includes "bad" p.2)) (map_to_list fs) then None else Some "nginx: [emerg] unknown directive".
Definition ex_message (e : nginx_error) : string := "refused".

Definition ex_host (id : Z) (cfg : string) : jsval := VObj [("id", VInt id); ("advanced_config", VStr cfg)].
Definition ex_files : files := list_to_map [("/data/nginx/proxy_host/5.conf", "gzip on;"); ("/data/nginx/stream/1.conf", "x;")].
Definition ex_nginx : nginx := Nginx ex_files ∅ (live ex_files).
Definition ex_outcomes : outcomes := Outcomes None None true.

Lemma ex_row id cfg : row_id (ex_host id cfg).
Proof. by eexists _, id. Qed.

(** The new file is refused and the old one stays. *)
Example configure_refused :
  (configure ex_templates ex_engine None ex_nginx_t ex_outcomes "proxy_host" (ex_host 5 "bad;") ex_nginx).2 =
  Throw (ConfigRejected "nginx: [emerg] unknown directive").
Proof. vm_compute. reflexivity. Qed.

Lemma configure_keeps_serving_witness :
  serving ex_templates ex_engine None ex_nginx_t "proxy_host" (ex_host 5 "bad;") ex_nginx
    (configure ex_templates ex_engine None ex_nginx_t ex_outcomes "proxy_host" (ex_host 5 "bad;") ex_nginx).
Proof.
  apply (configure_keeps_serving ex_templates ex_engine None ex_nginx_t ex_outcomes "proxy_host" (ex_host 5 "bad;") ex_nginx);
    [apply ex_row|vm_compute; reflexivity|vm_compute; discriminate].
Defined.

(** One of two hosts is refused: it has no file, the other has its new one. *)
Example bulk_refused :
  let r := bulkGenerateConfigs ex_templates ex_engine None ex_nginx_t ex_message (fun _ => true) true "proxy_host" [ex_host 6 "bad;"; ex_host 5 "gzip off;"] ex_nginx in
  r.2 = Throw (HostsRejected [("6", false)]) /\ n_files r.1 !! "/data/nginx/proxy_host/5.conf" = Some "gzip off;".
Proof. vm_compute. split; reflexivity. Qed.

Lemma bulk_keeps_serving_witness :
  bulk_serving ex_templates ex_engine None ex_nginx_t "proxy_host" [ex_host 6 "bad;"; ex_host 5 "gzip off;"] ex_nginx
    (bulkGenerateConfigs ex_templates ex_engine None ex_nginx_t ex_message (fun _ => true) true "proxy_host" [ex_host 6 "bad;"; ex_host 5 "gzip off;"] ex_nginx).
Proof.
  apply (bulk_keeps_serving ex_templates ex_engine None ex_nginx_t ex_message).
  - repeat constructor; apply ex_row.
  - apply (bool_decide_eq_true_1 _). vm_compute. reflexivity.
  - discriminate.
  - vm_compute. reflexivity.
Defined.

(** A test that refuses two files that do not go together. *)
Definition pair_t (fs : files) : option string := if bool_decide (size fs <= 1)%nat then None else Some "conflict".

(** A file that waited for a certificate comes back untested: what passed before the save was
    the files without it, and nginx is told to run files that do not pass. *)
Lemma stashed_file_restored_untested :
  let fs : files := list_to_map [("/data/nginx/proxy_host/5.conf.disabled", "a;"); ("/data/nginx/stream/1.conf", "x;")] in
  let n := Nginx fs ∅ (live fs) in
  let r := configure ex_templates ex_engine None pair_t ex_outcomes "proxy_host" (ex_host 5 "b;") n in
  pair_t (live fs) = None /\ r.2 = Throw (ConfigRejected "conflict") /\ pair_t (n_loaded r.1) = Some "conflict".
Proof. vm_compute. split_and!; reflexivity. Qed.

(** A database that fails after a test that passed: the file nginx took is withdrawn, and the
    answer says nginx refused it. *)
Lemma failed_patch_blamed_on_nginx :
  let r := configure ex_templates ex_engine None ex_nginx_t (Outcomes (Some "SQLITE_BUSY") None true) "proxy_host" (ex_host 5 "gzip off;") ex_nginx in
  r.2 = Throw (ConfigRejected "SQLITE_BUSY") /\ n_files r.1 !! "/data/nginx/proxy_host/5.conf" = Some "gzip on;".
Proof. vm_compute. split; reflexivity. Qed.
