(* ===== verification/WgTraffic.v ===== *)
(** The traffic of the peers: [backend/internal/wireguard.js].

    Every poll of the live interfaces turns counters into rates of a ring per peer and into
    bytes of a table with three resolutions. The writes to the table are separate steps, which
    key rotations and failures interleave. *)

From S2P Require Import Prelude.
From S2P Require Import JsString.
From S2P Require Import JsVal.
From S2P Require Import ConfText.
From S2P Require Import WgStatus.

Local Open Scope Z_scope.

(** * Counters, buckets *)

Definition BW_HISTORY_SIZE : nat := 60.
Definition BW_POLL_INTERVAL : Z := 10000.

Record bucket := Bucket { b_resolution : string; b_seconds : Z; b_retention : Z }.

Definition BW_BUCKETS : list bucket :=
  [Bucket "1m" 60 (24 * 60 * 60); Bucket "15m" (15 * 60) (30 * 24 * 60 * 60); Bucket "1d" (24 * 60 * 60) (365 * 24 * 60 * 60)].

Record counters := Counters { c_rx : Z; c_tx : Z }.
Record sample := Sample { s_ts : Z; s_rx : Z; s_tx : Z }.
Record bytes := Bytes { y_rx : Z; y_tx : Z; y_samples : Z }.

(** [peer_key], [resolution], [bucket_start]: the unique key of the table. *)
Notation row_key := (string * string * Z)%type.

(** Counters restart at 0. *)
Definition counterDelta (curr prev : Z) : Z := if prev <=? curr then curr - prev else curr.

(** [Math.round(a / b)], exactly. *)
Definition round_div (a b : Z) : Z := (2 * a * Z.sgn b + Z.abs b) / (2 * Z.abs b).

(** The rings, the counters of the last poll with its time, the table, and the writes of the
    poll under way; there is none when no poll is. *)
Record traffic := Traffic {
  bw_history : list (string * list sample);
  bw_prev : option (Z * list (string * counters));
  bw_rows : list (row_key * bytes);
  bw_pending : option (Z * list (string * Z * Z)) }.

(** [snap]: the counters by interface and key. *)
Definition snapshot (dump : list (string * wg_iface)) : list (string * counters) :=
  foldl (fun snap d =>
    foldl (fun snap peer =>
      match pe_publicKey peer with
      | Some pk => mset (d.1 +:+ ":" +:+ pk) (Counters (pe_rxBytes peer) (pe_txBytes peer)) snap
      | None => snap
      end) snap (wi_peers d.2)) [] dump.

(** Seconds between two polls as a fraction of 1000; the interval when the clock stood still. *)
Definition elapsed (now prev : Z) : Z := if now - prev =? 0 then BW_POLL_INTERVAL else now - prev.

(** [history.push], [history.shift] *)
Definition push_sample (s : sample) (history : list sample) : list sample :=
  let history := history ++ [s] in if (BW_HISTORY_SIZE <? length history)%nat then drop 1 history else history.

(** One peer of the snapshot: its new sample and its bytes. *)
Definition count_peer (now prev_ts : Z) (prev : list (string * counters)) (acc : list (string * list sample) * list (string * Z * Z)) (entry : string * counters) :
  list (string * list sample) * list (string * Z * Z) :=
  match mget entry.1 prev with
  | None => acc
  | Some p =>
      let rxDelta := counterDelta (c_rx entry.2) (c_rx p) in
      let txDelta := counterDelta (c_tx entry.2) (c_tx p) in
      let dt := elapsed now prev_ts in
      (mset entry.1 (push_sample (Sample now (round_div (rxDelta * 1000) dt) (round_div (txDelta * 1000) dt)) (default [] (mget entry.1 acc.1))) acc.1,
       acc.2 ++ [(entry.1, rxDelta, txDelta)])
  end.

(** The part of a poll that nothing interleaves; [raw] is the dump, [None] when it failed. *)
Definition begin_poll (now : Z) (raw : option string) (t : traffic) : traffic :=
  match bw_pending t, raw with
  | Some _, _ | _, None => t
  | None, Some stdout =>
      let snap := snapshot (parseDump (now / 1000) stdout) in
      let history := bfilter (fun h => mhas h.1 snap) (bw_history t) in
      match bw_prev t with
      | None => Traffic history (Some (now, snap)) (bw_rows t) None
      | Some (prev_ts, prev) =>
          let '(history, deltas) := foldl (count_peer now prev_ts prev) (history, []) snap in
          Traffic history (Some (now, snap)) (bw_rows t) (Some (now, deltas))
      end
  end.

Section Table.

(** Local midnight of the hub before a time, in seconds. *)
Variable day_start : Z -> Z.

Definition bandwidthBucketStart (b : bucket) (nowMs : Z) : Z :=
  if decide (b_resolution b = "1d") then day_start nowMs else nowMs / 1000 / b_seconds b * b_seconds b.

(** Insert, or add to the row that is there. *)
Definition upsert (key : row_key) (rxBytes txBytes : Z) (rows : list (row_key * bytes)) : list (row_key * bytes) :=
  mset key (match mget key rows with
            | Some y => Bytes (y_rx y + rxBytes) (y_tx y + txBytes) (y_samples y + 1)
            | None => Bytes rxBytes txBytes 1
            end) rows.

(** The statements run one after the other until one fails; [written] of them succeed. *)
Definition persistBandwidthDelta (written : nat) (peerKey : string) (now rxBytes txBytes : Z) (rows : list (row_key * bytes)) : list (row_key * bytes) :=
  foldl (fun rows b => upsert (peerKey, b_resolution b, bandwidthBucketStart b now) rxBytes txBytes rows) rows (take written BW_BUCKETS).

(** The next peer of the poll under way. *)
Definition persist_next (written : nat) (t : traffic) : traffic :=
  match bw_pending t with
  | Some (now, (key, rxDelta, txDelta) :: rest) =>
      Traffic (bw_history t) (bw_prev t) (persistBandwidthDelta written key now rxDelta txDelta (bw_rows t)) (Some (now, rest))
  | _ => t
  end.

(** [prune_ok]: whether the deletion of a resolution succeeds. *)
Definition pruneBandwidthHistory (prune_ok : string -> bool) (now : Z) (rows : list (row_key * bytes)) : list (row_key * bytes) :=
  bfilter (fun r => negb (existsb (fun b => bool_decide (r.1.1.2 = b_resolution b) && (r.1.2 <? now / 1000 - b_retention b) && prune_ok (b_resolution b)) BW_BUCKETS)) rows.

(** The end of a poll whose writes are done; once an hour it prunes. *)
Definition end_poll (prune_ok : string -> bool) (t : traffic) : traffic :=
  match bw_pending t with
  | Some (now, []) =>
      Traffic (bw_history t) (bw_prev t)
        (if (now / 1000) mod 3600 <? BW_POLL_INTERVAL / 1000 then pruneBandwidthHistory prune_ok now (bw_rows t) else bw_rows t) None
  | _ => t
  end.

End Table.

(** A map entry under another key, at the end. *)
Definition move_key {V} (oldKey newKey : string) (m : list (string * V)) : list (string * V) :=
  match mget oldKey m with Some v => mdel oldKey (mset newKey v m) | None => m end.

Definition migrateBandwidthHistoryKey (oldKey newKey : string) (t : traffic) : traffic :=
  Traffic (move_key oldKey newKey (bw_history t)) ((fun p => (p.1, move_key oldKey newKey p.2)) <$> bw_prev t) (bw_rows t) (bw_pending t).

(** The rows of a peer under another key: all of them, or none when one would be there twice. *)
Definition rename_rows (oldKey newKey : string) (t : traffic) : traffic :=
  let new_key (k : row_key) : row_key := if decide (k.1.1 = oldKey) then (newKey, k.1.2, k.2) else k in
  let rows := (fun r : row_key * bytes => (new_key r.1, r.2)) <$> bw_rows t in
  if bool_decide (NoDup rows.*1) then Traffic (bw_history t) (bw_prev t) rows (bw_pending t) else t.

(** ** The view *)

Record peer_traffic := PeerTraffic { pt_id : string; pt_name : string; pt_history : list sample }.

Definition range_resolution (range : string) : option (string * Z * Z) :=
  if decide (range = "24h") then Some ("1m", 60, 86400)
  else if decide (range = "30d") then Some ("15m", 900, 2592000)
  else if decide (range = "12m") then Some ("1d", 86400, 31536000)
  else None.

(** A bucket that is open covers the time since its start only. *)
Definition covered (seconds nowSec bucket_start : Z) : Z := Z.min seconds (Z.max 1 (nowSec - bucket_start)).

Definition row_le (a b : row_key * bytes) : Prop := a.1.2 <= b.1.2.
#[export] Instance row_le_dec : RelDecision row_le.
Proof. intros a b. unfold row_le. apply _. Defined.

Definition range_rows (resolution : string) (since : Z) (rows : list (row_key * bytes)) : list (row_key * bytes) :=
  merge_sort row_le (bfilter (fun r => bool_decide (r.1.1.2 = resolution) && (since <=? r.1.2)) rows).

(** [names]: the names of the metadata by key. *)
Definition add_row (names : string -> string) (seconds nowSec : Z) (peers : list (string * peer_traffic)) (r : row_key * bytes) : list (string * peer_traffic) :=
  let key := r.1.1.1 in
  let peer := default (PeerTraffic key (if decide (names key = "") then key else names key) []) (mget key peers) in
  let c := covered seconds nowSec r.1.2 in
  mset key (PeerTraffic (pt_id peer) (pt_name peer) (pt_history peer ++ [Sample (r.1.2 * 1000) (round_div (y_rx r.2) c) (round_div (y_tx r.2) c)])) peers.

Definition last_rate (h : list sample) : Z := match last h with Some s => s_rx s + s_tx s | None => 0 end.
Definition rate_ge (a b : peer_traffic) : Prop := last_rate (pt_history b) <= last_rate (pt_history a).
#[export] Instance rate_ge_dec : RelDecision rate_ge.
Proof. intros a b. unfold rate_ge. apply _. Defined.

Definition getBandwidth (names : string -> string) (range : string) (nowSec : Z) (t : traffic) : list peer_traffic :=
  match range_resolution range with
  | Some (resolution, seconds, span) =>
      (foldl (add_row names seconds nowSec) [] (range_rows resolution (nowSec - span) (bw_rows t))).*2
  | None =>
      merge_sort rate_ge ((fun h => PeerTraffic h.1 (if decide (names h.1 = "") then h.1 else names h.1) h.2) <$> bw_history t)
  end.

(** ** The steps *)

Inductive event :=
| BeginPoll (now : Z) (raw : option string)
| PersistNext (written : nat)
| EndPoll (prune_ok : string -> bool)
| MigrateKey (oldKey newKey : string)
| RenameRows (oldKey newKey : string).

Definition bw_step (day_start : Z -> Z) (e : event) (t : traffic) : traffic :=
  match e with
  | BeginPoll now raw => begin_poll now raw t
  | PersistNext written => persist_next day_start written t
  | EndPoll prune_ok => end_poll prune_ok t
  | MigrateKey oldKey newKey => migrateBandwidthHistoryKey oldKey newKey t
  | RenameRows oldKey newKey => rename_rows oldKey newKey t
  end.

(** * Sums *)

Definition sumZ {A} (f : A -> Z) (l : list A) : Z := foldr (fun x a => f x + a) 0 l.

Lemma sumZ_app {A} (f : A -> Z) l k : sumZ f (l ++ k) = sumZ f l + sumZ f k.
Proof. induction l as [|x l IH]; [done|]. cbn. unfold sumZ in *. lia. Qed.

Lemma sumZ_cons {A} (f : A -> Z) x l : sumZ f (x :: l) = f x + sumZ f l.
Proof. done. Qed.

Lemma sumZ_ext {A} (f g : A -> Z) l : (forall x, x ∈ l -> f x = g x) -> sumZ f l = sumZ g l.
Proof. induction l as [|x l IH]; intros H; [done|]. rewrite !sumZ_cons, IH by (intros y Hy; apply H; by right). by rewrite (H x) by left. Qed.

Lemma sumZ_zero {A} (f : A -> Z) l : (forall x, x ∈ l -> f x = 0) -> sumZ f l = 0.
Proof. intros H. rewrite (sumZ_ext f (fun _ => 0)) by done. induction l; [done|]. rewrite sumZ_cons, IHl; [done|]. intros x Hx. apply H. by right. Qed.

Lemma sumZ_fmap {A B} (f : B -> Z) (g : A -> B) l : sumZ f (g <$> l) = sumZ (fun x => f (g x)) l.
Proof. induction l as [|x l IH]; [done|]. cbn [fmap list_fmap]. by rewrite !sumZ_cons, IH. Qed.

Lemma sumZ_bfilter {A} (f : A -> Z) p l : sumZ f l = sumZ f (bfilter p l) + sumZ f (bfilter (fun x => negb (p x)) l).
Proof. induction l as [|x l IH]; [done|]. unfold bfilter in *. cbn [List.filter]. destruct (p x); cbn [negb]; rewrite !sumZ_cons; lia. Qed.

(** Setting a key changes the sum by the difference of its entry. *)
Lemma sumZ_mset {K V} `{EqDecision K} (f : K * V -> Z) k v (m : list (K * V)) : NoDup m.*1 ->
  sumZ f (mset k v m) = sumZ f m + f (k, v) - (match mget k m with Some old => f (k, old) | None => 0 end).
Proof.
  induction m as [|[j w] m IH]; intros Hnd; [cbn; lia|]. cbn [fmap list_fmap fst] in Hnd. apply NoDup_cons in Hnd as [Hn Hnd]. cbn [mset mget].
  destruct (decide _) as [->|Hne]; rewrite !sumZ_cons; [lia|]. rewrite IH by done. lia.
Qed.

(** * The account *)

Definition amount (tx : bool) (y : bytes) : Z := if tx then y_tx y else y_rx y.
Definition delta (tx : bool) (d : string * Z * Z) : Z := if tx then d.2 else d.1.2.

(** The bytes of one resolution of the peers in question. *)
Definition stored (p : string -> bool) (res : string) (tx : bool) (rows : list (row_key * bytes)) : Z :=
  sumZ (fun r => if p r.1.1.1 && bool_decide (r.1.1.2 = res) then amount tx r.2 else 0) rows.

(** The bytes of the poll under way that are still to be written. *)
Definition owed (p : string -> bool) (tx : bool) (t : traffic) : Z :=
  match bw_pending t with Some (_, ds) => sumZ (fun d => if p d.1.1 then delta tx d else 0) ds | None => 0 end.

(** What a step counts, loses to a failed statement or deletes for its age. *)
Definition counted (p : string -> bool) (tx : bool) (e : event) (t : traffic) : Z :=
  match e with BeginPoll now raw => owed p tx (begin_poll now raw t) - owed p tx t | _ => 0 end.

(** The statement of a resolution is among those that succeeded. *)
Definition written_to (res : string) (written : nat) : bool := existsb (fun b => bool_decide (b_resolution b = res)) (take written BW_BUCKETS).

Definition lost (p : string -> bool) (res : string) (tx : bool) (e : event) (t : traffic) : Z :=
  match e, bw_pending t with
  | PersistNext written, Some (_, d :: _) =>
      if written_to res written then 0 else if p d.1.1 then delta tx d else 0
  | _, _ => 0
  end.

Definition too_old (res : string) (now retention : Z) (r : row_key * bytes) : bool := bool_decide (r.1.1.2 = res) && (r.1.2 <? now / 1000 - retention).

Definition pruned (p : string -> bool) (res : string) (tx : bool) (e : event) (t : traffic) : Z :=
  match e, bw_pending t with
  | EndPoll prune_ok, Some (now, []) =>
      if ((now / 1000) mod 3600 <? BW_POLL_INTERVAL / 1000) && prune_ok res
      then stored p res tx (bfilter (fun r => existsb (fun b => too_old (b_resolution b) now (b_retention b) r) BW_BUCKETS) (bw_rows t)) else 0
  | _, _ => 0
  end.

Lemma stored_upsert p res tx key rx txb rows : NoDup rows.*1 ->
  stored p res tx (upsert key rx txb rows) = stored p res tx rows + (if p key.1.1 && bool_decide (key.1.2 = res) then if tx then txb else rx else 0).
Proof.
  intros Hnd. unfold stored, upsert. rewrite sumZ_mset by done. cbn [fst snd]. destruct (p key.1.1 && bool_decide (key.1.2 = res)); [|destruct (mget key rows); lia].
  destruct (mget key rows) as [y|]; unfold amount; destruct tx; cbn; lia.
Qed.

Lemma upsert_NoDup key rx txb rows : NoDup rows.*1 -> NoDup (upsert key rx txb rows).*1.
Proof. apply NoDup_mset. Qed.

Section Accounting.

Variable day_start : Z -> Z.

Lemma persist_stored p res tx written key now rx txb rows : NoDup rows.*1 ->
  NoDup (persistBandwidthDelta day_start written key now rx txb rows).*1 /\
  stored p res tx (persistBandwidthDelta day_start written key now rx txb rows) =
  stored p res tx rows + if written_to res written then if p key then if tx then txb else rx else 0 else 0.
Proof.
  unfold persistBandwidthDelta, written_to. assert (NoDup (b_resolution <$> take written BW_BUCKETS)) as Hbs.
  { rewrite fmap_take. apply (sublist_NoDup _ (b_resolution <$> BW_BUCKETS)); [|apply sublist_take]. apply (bool_decide_eq_true_1 _). vm_compute. reflexivity. }
  revert rows Hbs. generalize (take written BW_BUCKETS). intros bs. induction bs as [|b bs IH]; intros rows Hbs Hnd; [split; [done|cbn [foldl existsb]; by rewrite Z.add_0_r]|].
  cbn [fmap list_fmap] in Hbs. apply NoDup_cons in Hbs as [Hb Hbs]. cbn [foldl existsb].
  destruct (IH _ Hbs (upsert_NoDup (key, b_resolution b, bandwidthBucketStart day_start b now) rx txb rows Hnd)) as [H1 ->]. split; [done|].
  rewrite stored_upsert by done. cbn [fst snd]. destruct (decide (b_resolution b = res)) as [<-|Hne].
  - rewrite !bool_decide_eq_true_2, andb_true_r by done. cbn [orb]. assert (existsb (fun b' => bool_decide (b_resolution b' = b_resolution b)) bs = false) as ->.
    { apply existsb_false. intros b' Hin. apply bool_decide_eq_false. intros He. apply Hb. rewrite <- He. by apply list_elem_of_fmap_2. }
    lia.
  - rewrite !bool_decide_eq_false_2, andb_false_r by done. cbn [orb]. cbv iota. lia.
Qed.

Lemma sumZ_filter_if {A} (f : A -> Z) q l : sumZ f (bfilter q l) = sumZ (fun x => if q x then f x else 0) l.
Proof. induction l as [|x l IH]; [done|]. unfold bfilter in *. cbn [List.filter]. destruct (q x) eqn:Hq; rewrite ?sumZ_cons, ?Hq, IH; lia. Qed.

Lemma stored_prune p res tx prune_ok now rows :
  stored p res tx rows = stored p res tx (pruneBandwidthHistory prune_ok now rows) +
    if prune_ok res then stored p res tx (bfilter (fun r => existsb (fun b => too_old (b_resolution b) now (b_retention b) r) BW_BUCKETS) rows) else 0.
Proof.
  unfold pruneBandwidthHistory. set (q := fun r : row_key * bytes => existsb (fun b => bool_decide (r.1.1.2 = b_resolution b) && (r.1.2 <? now / 1000 - b_retention b) && prune_ok (b_resolution b)) BW_BUCKETS). unfold stored at 1. rewrite (sumZ_bfilter _ (fun r => negb (q r))).
  f_equal. unfold stored. rewrite sumZ_filter_if. assert (forall r, p r.1.1.1 && bool_decide (r.1.1.2 = res) = true ->
    negb (negb (q r)) = existsb (fun b => too_old (b_resolution b) now (b_retention b) r) BW_BUCKETS && prune_ok res) as Hq.
  { intros r [_ Hr%bool_decide_eq_true]%andb_true_iff. rewrite negb_involutive. subst q. cbv beta. unfold too_old. generalize BW_BUCKETS. intros bs.
    induction bs as [|b bs IH]; [done|]. cbn [existsb]. rewrite IH. destruct (decide (r.1.1.2 = b_resolution b)) as [He|He].
    - rewrite !bool_decide_eq_true_2 by done. rewrite <- He, Hr. set (e := existsb _ bs). destruct (r.1.2 <? now / 1000 - b_retention b), e, (prune_ok res); done.
    - rewrite !bool_decide_eq_false_2 by done. done. }
  destruct (prune_ok res) eqn:Hp.
  - rewrite sumZ_filter_if. apply sumZ_ext. intros r _. destruct (p _ && _) eqn:Hb; [|by destruct (negb _), (existsb _ _)]. by rewrite (Hq r Hb), andb_true_r.
  - apply sumZ_zero. intros r _. destruct (p _ && _) eqn:Hb; [|by destruct (negb _)]. by rewrite (Hq r Hb), andb_false_r.
Qed.

Lemma prune_NoDup prune_ok now rows : NoDup rows.*1 -> NoDup (pruneBandwidthHistory prune_ok now rows).*1.
Proof. intros H. apply (sublist_NoDup _ rows.*1); [done|]. apply fmap_sublist, bfilter_sublist. Qed.

(** The peers in question are not renamed into others. *)
Definition keeps (p : string -> bool) (e : event) : Prop := match e with RenameRows o n => p o = p n | _ => True end.

Lemma step_account p res tx e t : NoDup (bw_rows t).*1 -> keeps p e ->
  let t' := bw_step day_start e t in
  NoDup (bw_rows t').*1 /\
  stored p res tx (bw_rows t') + owed p tx t' + lost p res tx e t + pruned p res tx e t = stored p res tx (bw_rows t) + owed p tx t + counted p tx e t.
Proof.
  intros Hnd Hk. destruct e as [now raw|written|prune_ok|o n|o n]; cbn [bw_step lost pruned counted].
  - assert (bw_rows (begin_poll now raw t) = bw_rows t) as ->; [|split; [done|lia]]. unfold begin_poll. destruct (bw_pending t), raw; try done.
    destruct (bw_prev t) as [[? ?]|]; [|done]. by destruct (foldl _ _ _).
  - unfold persist_next. destruct (bw_pending t) as [[now [|[[key rx] txb] ds]]|] eqn:Hp; [split; [done|lia]| |split; [done|lia]].
    destruct (persist_stored p res tx written key now rx txb (bw_rows t) Hnd) as [H1 H2]. unfold owed. rewrite Hp. cbn [bw_rows bw_pending]. split; [exact H1|]. rewrite H2, sumZ_cons. unfold delta. cbn [fst snd].
    destruct (written_to res written), (p key), tx; lia.
  - unfold end_poll. destruct (bw_pending t) as [[now [|d ds]]|] eqn:Hp; [|split; [done|lia]|split; [done|lia]].
    unfold owed. rewrite Hp. cbn [bw_rows bw_pending sumZ foldr].
    destruct ((now / 1000) mod 3600 <? BW_POLL_INTERVAL / 1000); cbn [andb]; [|split; [done|lia]]. split; [by apply prune_NoDup|].
    rewrite (stored_prune p res tx prune_ok now (bw_rows t)). lia.
  - split; [done|]. unfold owed. cbn [migrateBandwidthHistoryKey bw_rows bw_pending]. lia.
  - unfold rename_rows. set (rows := _ <$> bw_rows t). destruct (bool_decide (NoDup rows.*1)) eqn:Hd; [|split; [done|lia]]. apply bool_decide_eq_true in Hd.
    assert (stored p res tx rows = stored p res tx (bw_rows t)) as Hs.
    { unfold stored. subst rows. rewrite sumZ_fmap. apply sumZ_ext. intros r _. cbn [fst snd]. destruct (decide (r.1.1.1 = o)) as [->|Hn]; [|done]. cbn [fst snd]. by rewrite Hk. }
    clearbody rows. cbn [bw_rows]. split; [exact Hd|]. rewrite Hs. unfold owed. cbn [bw_pending]. lia.
Qed.

Definition run (es : list event) (t : traffic) : traffic := foldl (fun t e => bw_step day_start e t) t es.

(** What a run counts, less what it loses and prunes. *)
Fixpoint ledger (p : string -> bool) (res : string) (tx : bool) (es : list event) (t : traffic) : Z :=
  match es with
  | [] => 0
  | e :: es => counted p tx e t - lost p res tx e t - pruned p res tx e t + ledger p res tx es (bw_step day_start e t)
  end.

Lemma traffic_is_accounted_aux p res tx es t : NoDup (bw_rows t).*1 -> Forall (keeps p) es ->
  NoDup (bw_rows (run es t)).*1 /\
  stored p res tx (bw_rows (run es t)) + owed p tx (run es t) = stored p res tx (bw_rows t) + owed p tx t + ledger p res tx es t.
Proof.
  unfold run. revert t. induction es as [|e es IH]; intros t Hnd Hk; [split; [done|cbn; lia]|]. apply Forall_cons in Hk as [He Hk]. cbn [foldl ledger].
  destruct (step_account p res tx e t Hnd He) as [H1 H2]. destruct (IH _ H1 Hk) as [H3 H4]. split; [done|lia].
Qed.

(** Whatever polls, writes, failures, rotations and prunings follow each other: in each
    resolution the table and the writes still to be done hold every byte counted once, less
    those of failed statements and those deleted for their age. *)
Theorem traffic_is_accounted p res tx es t : NoDup (bw_rows t).*1 -> Forall (keeps p) es ->
  NoDup (bw_rows (run es t)).*1 /\
  stored p res tx (bw_rows (run es t)) + owed p tx (run es t) = stored p res tx (bw_rows t) + owed p tx t + ledger p res tx es t.
Proof. apply traffic_is_accounted_aux. Qed.

(** ** What a poll counts *)

Definition deltas_of (prev snap : list (string * counters)) : list (string * Z * Z) :=
  flat_map (fun e => match mget e.1 prev with Some p => [(e.1, counterDelta (c_rx e.2) (c_rx p), counterDelta (c_tx e.2) (c_tx p))] | None => [] end) snap.

Lemma count_deltas now ts prev h ds snap : (foldl (count_peer now ts prev) (h, ds) snap).2 = ds ++ deltas_of prev snap.
Proof.
  revert h ds. induction snap as [|[k c] snap IH]; intros h ds; [by rewrite app_nil_r|]. cbn [foldl deltas_of flat_map]. unfold count_peer at 2. cbn [fst snd].
  destruct (mget k prev) as [q|]; rewrite IH; [by rewrite <- app_assoc|done].
Qed.

Lemma snapshot_NoDup dump : NoDup (snapshot dump).*1.
Proof.
  unfold snapshot. assert (NoDup (@nil (string * counters)).*1) as H0 by constructor. revert H0. generalize (@nil (string * counters)).
  induction dump as [|d dump IH]; intros m Hm; [done|]. cbn [foldl]. apply IH. revert m Hm. induction (wi_peers d.2) as [|q qs IHq]; intros m Hm; [done|].
  cbn [foldl]. apply IHq. destruct (pe_publicKey q); [by apply NoDup_mset|done].
Qed.

Definition only (key : string) (k : string) : bool := bool_decide (k = key).
Definition counter (tx : bool) (c : counters) : Z := if tx then c_tx c else c_rx c.

Lemma deltas_of_key key tx prev snap : NoDup snap.*1 ->
  sumZ (fun d => if only key d.1.1 then delta tx d else 0) (deltas_of prev snap) =
  match mget key snap, mget key prev with Some c, Some p => counterDelta (counter tx c) (counter tx p) | _, _ => 0 end.
Proof.
  induction snap as [|[k c] snap IH]; intros Hnd; [done|]. cbn [fmap list_fmap fst] in Hnd. apply NoDup_cons in Hnd as [Hn Hnd]. cbn [deltas_of flat_map mget fst snd].
  rewrite sumZ_app. fold (deltas_of prev snap). rewrite IH by done. unfold only. destruct (decide (k = key)) as [->|Hne].
  - assert (mget key snap = None) as -> by (by apply mget_None). destruct (mget key prev) as [q|]; [|done]. rewrite sumZ_cons. cbn [fst snd sumZ foldr].
    rewrite bool_decide_eq_true_2 by done. unfold delta, counter. cbn [fst snd]. destruct tx; lia.
  - destruct (mget k prev) as [q|]; [|done]. rewrite sumZ_cons. cbn [fst snd sumZ foldr]. rewrite bool_decide_eq_false_2 by done. done.
Qed.

(** The last reading of a peer. *)
Definition reading (key : string) (tx : bool) (t : traffic) : option Z := '(_, snap) ← bw_prev t; counter tx <$> mget key snap.

(** Runs in which every poll sees the peer, its counter not below the last reading, and the
    peer keeps its key; statements may fail and rows may be pruned. *)
Fixpoint unreset (key : string) (tx : bool) (es : list event) (t : traffic) : Prop :=
  match es with
  | [] => True
  | e :: es =>
      match e with
      | BeginPoll _ _ => exists a b, reading key tx t = Some a /\ reading key tx (bw_step day_start e t) = Some b /\ a <= b
      | MigrateKey o n | RenameRows o n => o <> key /\ n <> key
      | _ => True
      end /\ unreset key tx es (bw_step day_start e t)
  end.

(** What failed statements lose and what the pruning deletes over a run. *)
Fixpoint gone (p : string -> bool) (res : string) (tx : bool) (es : list event) (t : traffic) : Z :=
  match es with
  | [] => 0
  | e :: es => lost p res tx e t + pruned p res tx e t + gone p res tx es (bw_step day_start e t)
  end.

Lemma begin_counted key tx now raw t a b : reading key tx t = Some a -> reading key tx (begin_poll now raw t) = Some b -> a <= b ->
  counted (only key) tx (BeginPoll now raw) t = b - a.
Proof.
  unfold counted, begin_poll. intros Ha Hb Hle. destruct (bw_pending t) as [pend|] eqn:Hp.
  { rewrite Ha in Hb. injection Hb as ->. lia. }
  destruct raw as [stdout|]; [|rewrite Ha in Hb; injection Hb as ->; lia]. destruct t as [hist prev rows pend]. cbn in Hp. subst pend.
  unfold reading in *. cbn [bw_prev bw_history bw_rows] in *. destruct prev as [[ts prev]|]; [|done]. cbn in Ha. cbn [option_bind mbind] in *.
  pose proof (count_deltas now ts prev (bfilter (fun h => mhas h.1 (snapshot (parseDump (now / 1000) stdout))) hist) [] (snapshot (parseDump (now / 1000) stdout))) as Hd.
  pose proof (snapshot_NoDup (parseDump (now / 1000) stdout)) as Hnd. set (snap := snapshot _) in *. clearbody snap.
  destruct (foldl _ _ snap) as [h ds]. cbn [snd app] in Hd. subst ds. unfold owed. cbn [bw_pending bw_prev] in *. rewrite deltas_of_key by done.
  cbn in Hb. destruct (mget key snap) as [c|]; [|done]. destruct (mget key prev) as [q|]; [|done]. cbn in Ha, Hb. injection Ha as <-. injection Hb as <-.
  unfold counterDelta. destruct (Z.leb_spec (counter tx q) (counter tx c)); lia.
Qed.

Lemma mget_move {V} key o n (m : list (string * V)) : o <> key -> n <> key -> mget key (move_key o n m) = mget key m.
Proof.
  intros Ho Hn. unfold move_key. destruct (mget o m); [|done]. rewrite mget_mdel. rewrite decide_False by done. by apply mget_mset_ne.
Qed.

Lemma unreset_step key tx e es t : unreset key tx (e :: es) t -> is_Some (reading key tx t) ->
  keeps (only key) e /\
  counted (only key) tx e t = default 0 (reading key tx (bw_step day_start e t)) - default 0 (reading key tx t) /\
  is_Some (reading key tx (bw_step day_start e t)).
Proof.
  intros [He _] [r Hr]. destruct e as [now raw|written|prune_ok|o n|o n]; cbn [keeps bw_step] in *.
  - destruct He as (a & b & Ha & Hb & Hle). split; [done|]. rewrite (begin_counted key tx now raw t a b) by done.
    rewrite Ha, Hb. cbn. split; [lia|by eexists].
  - split; [done|]. assert (reading key tx (persist_next day_start written t) = reading key tx t) as ->.
    { unfold persist_next. destruct (bw_pending t) as [[? [|[[? ?] ?] ?]]|]; [done| |done]. by destruct t. }
    split; [cbn; lia|by eexists].
  - split; [done|]. assert (reading key tx (end_poll prune_ok t) = reading key tx t) as ->.
    { unfold end_poll. destruct (bw_pending t) as [[? [|? ?]]|]; [|done|done]. by destruct t. }
    split; [cbn; lia|by eexists].
  - split; [done|]. assert (reading key tx (migrateBandwidthHistoryKey o n t) = reading key tx t) as ->; [|split; [cbn; lia|by eexists]].
    destruct He as [Ho Hn]. destruct t as [hist [[ts prev]|] rows pend]; [|done]. unfold reading. cbn. by rewrite mget_move.
  - destruct He as [Ho Hn]. split; [unfold only; by rewrite !bool_decide_eq_false_2|]. assert (reading key tx (rename_rows o n t) = reading key tx t) as ->; [|split; [cbn; lia|by eexists]].
    unfold rename_rows. destruct (bool_decide _); [|done]. by destruct t.
Qed.

(** C37. Nothing is counted twice, and nothing is missed but what is accounted for: over a run whose
    polls see the peer under one key and without a reset of its counter, whichever statements
    fail and whatever is pruned, each resolution with the writes still to be done grows by what
    the counter grew, less the bytes of the failed statements and of the rows pruned. *)
Theorem traffic_telescopes key tx res es t : NoDup (bw_rows t).*1 -> is_Some (reading key tx t) -> unreset key tx es t ->
  stored (only key) res tx (bw_rows (run es t)) + owed (only key) tx (run es t) + gone (only key) res tx es t -
    (stored (only key) res tx (bw_rows t) + owed (only key) tx t) =
  default 0 (reading key tx (run es t)) - default 0 (reading key tx t).
Proof.
  intros Hnd Hr Hs.
  assert (Forall (keeps (only key)) es /\
    ledger (only key) res tx es t + gone (only key) res tx es t = default 0 (reading key tx (run es t)) - default 0 (reading key tx t)) as [Hk Hl].
  { clear Hnd. unfold run. revert t Hr Hs. induction es as [|e es IH]; intros t Hr Hs; [split; [constructor|cbn; lia]|].
    destruct (unreset_step key tx e es t Hs Hr) as (H1 & H2 & H3). destruct Hs as [_ Hs]. destruct (IH _ H3 Hs) as [H4 H5].
    split; [by constructor|]. cbn [foldl ledger gone]. lia. }
  destruct (traffic_is_accounted_aux (only key) res tx es t Hnd Hk) as [_ H]. lia.
Qed.

End Accounting.

(** * The rings *)

(** A ring has between one and 60 samples and belongs to a peer of the last snapshot. *)
Definition rings_ok (t : traffic) : Prop :=
  NoDup (bw_history t).*1 /\
  forall k h, (k, h) ∈ bw_history t -> (1 <= length h <= BW_HISTORY_SIZE)%nat /\ exists ts snap, bw_prev t = Some (ts, snap) /\ k ∈ snap.*1.

Lemma push_sample_length s h : (length h <= BW_HISTORY_SIZE)%nat -> (1 <= length (push_sample s h) <= BW_HISTORY_SIZE)%nat.
Proof.
  intros Hh. unfold push_sample. destruct (Nat.ltb_spec BW_HISTORY_SIZE (length (h ++ [s]))) as [Hl|Hl]; [rewrite length_drop|]; rewrite length_app in *; cbn [length] in *;
    unfold BW_HISTORY_SIZE in *; lia.
Qed.

Lemma elem_of_mset_inv {K V} `{EqDecision K} (k k' : K) (v v' : V) m : (k', v') ∈ mset k v m -> (k' = k /\ v' = v) \/ (k', v') ∈ m.
Proof.
  induction m as [|[j w] m IH]; cbn [mset].
  - intros H%list_elem_of_singleton. injection H as -> ->. by left.
  - destruct (decide _) as [->|Hn]; intros [H|H]%elem_of_cons.
    + injection H as -> ->. by left.
    + right. by right.
    + right. rewrite H. left.
    + destruct (IH H) as [?|?]; [by left|right; by right].
Qed.

Lemma count_rings now ts prev snap (P : string -> Prop) h ds : (forall k, k ∈ snap.*1 -> P k) -> NoDup h.*1 ->
  (forall k r, (k, r) ∈ h -> (1 <= length r <= BW_HISTORY_SIZE)%nat /\ P k) ->
  let h' := (foldl (count_peer now ts prev) (h, ds) snap).1 in
  NoDup h'.*1 /\ forall k r, (k, r) ∈ h' -> (1 <= length r <= BW_HISTORY_SIZE)%nat /\ P k.
Proof.
  cbv zeta. revert h ds. induction snap as [|[k c] snap IH]; intros h ds HP Hnd Hh; [done|]. cbn [foldl]. unfold count_peer at 2 4. cbn [fst snd].
  assert (forall k0, k0 ∈ snap.*1 -> P k0) as HP' by (intros k0 Hk0; apply HP; by right). destruct (mget k prev) as [q|]; [|by apply IH]. apply IH; [done|by apply NoDup_mset|].
  intros k' r Hin. apply elem_of_mset_inv in Hin as [[-> ->]|Hin]; [|by apply Hh]. split; [|apply HP; left]. apply push_sample_length.
  destruct (mget k h) as [r|] eqn:Hm; [|cbn; lia]. apply mget_elem_of, Hh in Hm as [[_ Hm] _]. exact Hm.
Qed.

Lemma move_key_in {V} o n (m : list (string * V)) k v : NoDup m.*1 -> (k, v) ∈ move_key o n m -> k <> o /\ ((k = n /\ mget o m = Some v) \/ (k, v) ∈ m).
Proof.
  intros Hnd. unfold move_key. destruct (mget o m) as [w|] eqn:Hm; intros H.
  - assert (mget k (mdel o (mset n w m)) = Some v) as Hg by (apply elem_of_mget; [by apply NoDup_mdel, NoDup_mset|done]).
    rewrite mget_mdel in Hg. destruct (decide (o = k)) as [->|Hk]; [done|]. split; [congruence|]. rewrite mget_mset in Hg. destruct (decide (n = k)) as [->|Hn].
    + injection Hg as ->. by left.
    + right. by apply mget_elem_of.
  - split; [|by right]. intros ->. apply elem_of_mget in H; [|done]. congruence.
Qed.

Lemma move_key_keys {V} o n (m : list (string * V)) k : k <> o -> k ∈ m.*1 \/ (k = n /\ o ∈ m.*1) -> k ∈ (move_key o n m).*1.
Proof.
  intros Hk. rewrite <- !mget_is_Some. unfold move_key. destruct (mget o m) as [w|] eqn:Hm.
  - intros H. rewrite mget_mdel, decide_False by congruence. rewrite mget_mset. destruct (decide (n = k)) as [->|Hn]; [by eexists|]. by destruct H as [H|[-> _]].
  - intros [H|[_ [? H]]]; done.
Qed.

(** The live view holds at most ten minutes of each peer, and no peer that is gone from the
    last dump. *)
Theorem rings_bounded day_start es : rings_ok (run day_start es (Traffic [] None [] None)).
Proof.
  unfold run. assert (rings_ok (Traffic [] None [] None)) as H0 by (split; [constructor|intros k h Hin; by apply elem_of_nil in Hin]). revert H0.
  generalize (Traffic [] None [] None). induction es as [|e es IH]; intros t Ht; [done|]. cbn [foldl]. apply IH. clear IH. destruct Ht as [Hnd Hh].
  destruct e as [now raw|written|prune_ok|o n|o n]; cbn [bw_step].
  - unfold begin_poll. destruct (bw_pending t) as [pend|]; [done|]. destruct raw as [stdout|]; [|done]. set (snap := snapshot _).
    set (h0 := bfilter _ (bw_history t)).
    assert (NoDup h0.*1) as Hnd0 by (apply (sublist_NoDup _ (bw_history t).*1); [done|apply fmap_sublist, bfilter_sublist]).
    assert (forall k r, (k, r) ∈ h0 -> (1 <= length r <= BW_HISTORY_SIZE)%nat /\ k ∈ snap.*1) as Hh0.
    { intros k r [Hin Hs]%elem_of_bfilter. split; [by apply Hh in Hin as [? _]|]. by apply mhas_spec. }
    destruct (bw_prev t) as [[ts prev]|].
    + pose proof (count_rings now ts prev snap (fun k => k ∈ snap.*1) h0 [] (fun k H => H) Hnd0 Hh0) as [H1 H2]. destruct (foldl _ _ snap) as [h' ds]. cbn [fst] in *.
      split; [done|]. intros k r Hin. destruct (H2 k r Hin). split; [done|]. by exists now, snap.
    + split; [done|]. intros k r Hin. destruct (Hh0 k r Hin). split; [done|]. by exists now, snap.
  - unfold persist_next. destruct (bw_pending t) as [[? [|[[? ?] ?] ?]]|]; done.
  - unfold end_poll. destruct (bw_pending t) as [[? [|? ?]]|]; done.
  - unfold rings_ok. cbn [migrateBandwidthHistoryKey bw_history bw_prev]. split.
    { unfold move_key. destruct (mget o (bw_history t)); [|done]. by apply NoDup_mdel, NoDup_mset. }
    intros k r Hin. apply move_key_in in Hin as [Hko Hin]; [|done].
    assert (exists k0, (k0, r) ∈ bw_history t /\ (k0 = k \/ (k = n /\ k0 = o))) as (k0 & Hin0 & Hk0).
    { destruct Hin as [[-> Hm]|Hin]; [exists o; split; [by apply mget_elem_of|by right]|exists k; split; [done|by left]]. }
    apply Hh in Hin0 as [Hlen (ts & snap & Hprev & Hs)]. split; [done|]. rewrite Hprev. exists ts, (move_key o n snap). split; [done|].
    apply move_key_keys; [done|]. destruct Hk0 as [->|[-> ->]]; [by left|by right].
  - unfold rename_rows. destruct (bool_decide _); done.
Qed.

(** * The view of the table *)

Definition row_sample (seconds nowSec : Z) (r : row_key * bytes) : sample :=
  let c := covered seconds nowSec r.1.2 in Sample (r.1.2 * 1000) (round_div (y_rx r.2) c) (round_div (y_tx r.2) c).
Definition shown_name (names : string -> string) (key : string) : string := if decide (names key = "") then key else names key.

Lemma add_rows names seconds nowSec key rs peers :
  mget key (foldl (add_row names seconds nowSec) peers rs) =
  match mget key peers, row_sample seconds nowSec <$> bfilter (fun r : row_key * bytes => only key r.1.1.1) rs with
  | None, [] => None
  | None, h => Some (PeerTraffic key (shown_name names key) h)
  | Some p, h => Some (PeerTraffic (pt_id p) (pt_name p) (pt_history p ++ h))
  end.
Proof.
  revert peers. induction rs as [|r rs IH]; intros peers.
  { cbn. destruct (mget key peers) as [[i n h]|]; [|done]. cbn. by rewrite app_nil_r. }
  cbn [foldl]. rewrite IH. unfold bfilter. cbn [List.filter]. unfold add_row. rewrite mget_mset. destruct (decide (r.1.1.1 = key)) as [->|Hn].
  - assert (only key key = true) as -> by (by apply bool_decide_eq_true). cbn [fmap list_fmap]. fold (row_sample seconds nowSec r). fold (shown_name names key).
    destruct (mget key peers) as [[i n h]|]; cbn [default pt_id pt_name pt_history]; [|done]. by rewrite <- app_assoc.
  - assert (only key r.1.1.1 = false) as -> by (by apply bool_decide_eq_false). done.
Qed.

(** The table behind a range: a peer is shown exactly when it has rows in it, with each of
    these rows once, the oldest first. *)
Theorem range_view_is_the_table names range resolution seconds span nowSec t key h : range_resolution range = Some (resolution, seconds, span) ->
  (exists n, PeerTraffic key n h ∈ getBandwidth names range nowSec t) <->
  h <> [] /\ h = row_sample seconds nowSec <$> bfilter (fun r : row_key * bytes => only key r.1.1.1) (range_rows resolution (nowSec - span) (bw_rows t)).
Proof.
  intros Hr. unfold getBandwidth. rewrite Hr. set (rs := range_rows _ _ _).
  assert (forall peers, NoDup peers.*1 -> (forall k p, (k, p) ∈ peers -> pt_id p = k) ->
    NoDup (foldl (add_row names seconds nowSec) peers rs).*1 /\ forall k p, (k, p) ∈ foldl (add_row names seconds nowSec) peers rs -> pt_id p = k) as Hinv.
  { clear Hr. induction rs as [|r rs IH]; intros peers Hnd Hid; [done|]. cbn [foldl]. apply IH; [by apply NoDup_mset|]. intros k p Hin. unfold add_row in Hin.
    apply elem_of_mset_inv in Hin as [[-> ->]|Hin]; [|by apply Hid]. cbn [pt_id]. destruct (mget r.1.1.1 peers) as [q|] eqn:Hm; [|done]. apply mget_elem_of in Hm. by apply Hid. }
  destruct (Hinv [] (NoDup_nil_2)) as [Hnd Hid]; [intros k p Hin; by apply elem_of_nil in Hin|]. pose proof (add_rows names seconds nowSec key rs []) as Hm. cbn [mget] in Hm.
  set (view := foldl _ _ rs) in *. clearbody view. clear Hinv. split.
  - intros [n Hin]. apply list_elem_of_fmap in Hin as ([k p] & Hp & Hin). cbn in Hp. subst p. pose proof (Hid _ _ Hin) as Hk. cbn in Hk. subst k.
    rewrite (elem_of_mget _ _ _ Hnd Hin) in Hm. destruct (row_sample seconds nowSec <$> _) as [|s l]; [done|]. injection Hm as _ ->. done.
  - intros [Hne ->]. destruct (row_sample seconds nowSec <$> _) as [|s l] eqn:Hs; [done|]. eexists. apply mget_elem_of in Hm. apply (list_elem_of_fmap_2 snd) in Hm. exact Hm.
Qed.

(** * Examples *)

Definition ex_tab : string := String tab "".
Definition ex_dump (key : string) (rx tx : Z) : option string :=
  Some (join ex_tab ["wg0"; "PRIV"; "PUB"; "51820"; "off"] +:+ String nl (join ex_tab ["wg0"; key; "(none)"; "(none)"; "10.0.0.2/32"; "0"; showZ rx; showZ tx; "off"])).

(** Midnight UTC. *)
Definition ex_day (nowMs : Z) : Z := nowMs / 1000 / 86400 * 86400.
Definition no_prune (res : string) : bool := false.
Definition ex_traffic : traffic := bw_step ex_day (BeginPoll 1000000 (ex_dump "K1" 1000 10)) (Traffic [] None [] None).

(** Two polls, the second with its writes. *)
Definition ex_polls : list event :=
  [BeginPoll 1010000 (ex_dump "K1" 4000 20); PersistNext 3; EndPoll no_prune; BeginPoll 1020000 None; BeginPoll 1030000 (ex_dump "K1" 4500 20); PersistNext 3; EndPoll no_prune].

Example ex_rates : bw_history (run ex_day ex_polls ex_traffic) = [("wg0:K1", [Sample 1010000 300 1; Sample 1030000 25 0])].
Proof. vm_compute. reflexivity. Qed.

Lemma traffic_is_accounted_witness :
  let es := [BeginPoll 1010000 (ex_dump "K1" 4000 20); PersistNext 1; EndPoll no_prune; RenameRows "wg0:K1" "wg0:K2"] in
  NoDup (bw_rows (run ex_day es ex_traffic)).*1 /\
  stored (fun _ => true) "15m" false (bw_rows (run ex_day es ex_traffic)) + owed (fun _ => true) false (run ex_day es ex_traffic) =
  stored (fun _ => true) "15m" false (bw_rows ex_traffic) + owed (fun _ => true) false ex_traffic + ledger ex_day (fun _ => true) "15m" false es ex_traffic.
Proof. apply (traffic_is_accounted ex_day (fun _ => true) "15m" false); [vm_compute; constructor|repeat constructor]. Defined.

(** The second statement of the second poll fails, and the pruning of an hour takes rows. *)
Definition ex_failing : list event :=
  [BeginPoll 1010000 (ex_dump "K1" 4000 20); PersistNext 3; EndPoll no_prune;
   BeginPoll 1030000 (ex_dump "K1" 4500 20); PersistNext 1; EndPoll no_prune;
   BeginPoll 61200000000 (ex_dump "K1" 4600 20); PersistNext 3; EndPoll (fun _ => true)].

Lemma traffic_telescopes_witness :
  gone ex_day (only "wg0:K1") "15m" false ex_failing ex_traffic = 3000 + 500 /\
  stored (only "wg0:K1") "15m" false (bw_rows (run ex_day ex_failing ex_traffic)) + owed (only "wg0:K1") false (run ex_day ex_failing ex_traffic) +
    gone ex_day (only "wg0:K1") "15m" false ex_failing ex_traffic -
    (stored (only "wg0:K1") "15m" false (bw_rows ex_traffic) + owed (only "wg0:K1") false ex_traffic) =
  default 0 (reading "wg0:K1" false (run ex_day ex_failing ex_traffic)) - default 0 (reading "wg0:K1" false ex_traffic).
Proof.
  split; [vm_compute; reflexivity|].
  apply (traffic_telescopes ex_day "wg0:K1" false "15m" ex_failing ex_traffic).
  - vm_compute. constructor.
  - vm_compute. by eexists.
  - cbn [ex_failing unreset]. split; [exists 1000, 4000; vm_compute; split_and!; congruence|]. do 2 (split; [done|]).
    split; [exists 4000, 4500; vm_compute; split_and!; congruence|]. do 2 (split; [done|]).
    split; [exists 4500, 4600; vm_compute; split_and!; congruence|]. done.
Defined.

(** The counters of a rotated key begin at 0, but the reading of the old key is carried over:
    of the 1500 bytes the new key received 500 are counted. *)
Lemma rotation_undercounts :
  let t := run ex_day [MigrateKey "wg0:K1" "wg0:K2"] ex_traffic in
  counted (only "wg0:K2") false (BeginPoll 1010000 (ex_dump "K2" 1500 0)) t = 500.
Proof. vm_compute. reflexivity. Qed.
