(* ===== verification/Accounts.v ===== *)
(** Accounts: [backend/lib/access.js], [backend/internal/user.js] and the models behind them.

    The tables of users, of their sign-in rows and of their permissions; what a token may do;
    the handlers that create, change and delete accounts. *)

From S2P Require Import Prelude.
From S2P Require Import JsString.
From S2P Require Import JsVal.

Local Open Scope Z_scope.

(** * The tables *)

Record user := User {
  u_id : Z; u_email : string; u_name : string; u_nickname : string; u_avatar : string;
  u_roles : list string; u_is_disabled : bool; u_is_deleted : bool }.

(** The document [meta] of a sign-in row: what two factor, a change of the password and a
    sign-in over the provider leave there. *)
Record auth_meta := AuthMeta {
  totp_enabled : bool; totp_enabled_at : option Z; totp_secret : option string;
  totp_pending_secret : option string; backup_codes : option (list string);
  password_changed_at : option Z; sso_sub : option string; last_login : option Z }.

Definition no_meta : auth_meta := AuthMeta false None None None None None None None.

Record auth_row := AuthRow { au_id : Z; au_user_id : Z; au_type : string; au_secret : string; au_meta : auth_meta; au_is_deleted : bool }.

Record permission_row := PermissionRow {
  pm_user_id : Z; pm_visibility : string; pm_proxy_hosts : string; pm_redirection_hosts : string;
  pm_dead_hosts : string; pm_streams : string; pm_access_lists : string; pm_certificates : string }.

Record accounts := Accounts { t_users : list user; t_auth : list auth_row; t_permissions : list permission_row }.

#[export] Instance auth_meta_eq_dec : EqDecision auth_meta.
Proof. solve_decision. Defined.
#[export] Instance auth_row_eq_dec : EqDecision auth_row.
Proof. solve_decision. Defined.

(** A failed request: the error of the source with what tells it apart. *)
Inductive auth_error :=
| PermissionDenied
| Unauthorized
| InvalidScope
| TokenRevoked
| ItemNotFound
| InvalidAuth
| InvalidToken
| EmptyToken
| InvalidChallenge
| InvalidExpiry
| ExpiryTooLong
| SsoSessionExpired
| InvalidTokenUser
| SignFailed
| EmailInUse
| IdMismatch
| DeleteYourself
| NoCurrentPassword
| NoInitialAuth
| DisabledUser
| TwoFactorAlreadyEnabled
| TwoFactorNotEnabled
| NoPendingSetup
| NoTwoFactorSecret
| InvalidCode
| TotpFailed
| SsoExpired
| SsoNoEmail
| SsoNoGroup
| SsoLinked
| SsoDisabled.

(** What a token says. [c_id] is 0 when [attrs] has no id. *)
Record claims := Claims { c_iss : string; c_id : Z; c_sso_exp : option Z; c_scope : list string; c_iat : Z; c_exp : Z; c_jti : string }.

(** Who asks: the server itself during the setup, nobody, or a token whose signature holds. *)
Inductive caller := Internal | Anonymous | Bearer (c : claims).

Definition getUserId (who : caller) : Z := match who with Bearer c => c_id c | _ => 0 end.

(** * Queries *)

Definition live_user (db : accounts) (id : Z) : option user := bfind (fun u => (u_id u =? id) && negb (u_is_deleted u)) (t_users db).
Definition active_user (db : accounts) (id : Z) : option user :=
  bfind (fun u => (u_id u =? id) && negb (u_is_deleted u) && negb (u_is_disabled u)) (t_users db).
Definition auth_of (db : accounts) (userId : Z) (type : string) : option auth_row :=
  bfind (fun a => (au_user_id a =? userId) && bool_decide (au_type a = type)) (t_auth db).
Definition permissions_of (db : accounts) (userId : Z) : option permission_row := bfind (fun p => pm_user_id p =? userId) (t_permissions db).

Fixpoint update_first {A} (p : A -> bool) (f : A -> A) (l : list A) : list A :=
  match l with [] => [] | x :: l => if p x then f x :: l else x :: update_first p f l end.
Definition update_rows {A} (p : A -> bool) (f : A -> A) (l : list A) : list A := (fun x => if p x then f x else x) <$> l.

Definition patch_user (id : Z) (f : user -> user) (db : accounts) : accounts :=
  Accounts (update_rows (fun u => u_id u =? id) f (t_users db)) (t_auth db) (t_permissions db).
Definition patch_auth (p : auth_row -> bool) (f : auth_row -> auth_row) (db : accounts) : accounts :=
  Accounts (t_users db) (update_rows p f (t_auth db)) (t_permissions db).
Definition add_auth (a : auth_row) (db : accounts) : accounts := Accounts (t_users db) (t_auth db ++ [a]) (t_permissions db).

(** ** Rows after an update *)

Lemma elem_of_update_rows {A} (p : A -> bool) f (l : list A) x : x ∈ update_rows p f l <-> exists y, y ∈ l /\ x = if p y then f y else y.
Proof. unfold update_rows. rewrite list_elem_of_fmap. naive_solver. Qed.

Lemma fmap_update_rows {A B} (g : A -> B) (p : A -> bool) f (l : list A) : (forall x, x ∈ l -> p x = true -> g (f x) = g x) -> g <$> update_rows p f l = g <$> l.
Proof.
  intros H. unfold update_rows. rewrite <- list_fmap_compose. apply list_fmap_ext. intros i x Hx. cbn.
  destruct (p x) eqn:Hp; [|done]. apply H; [by apply list_elem_of_lookup_2 in Hx|done].
Qed.

(** * What a token may do *)

Definition has_scope (s : string) (c : claims) : bool := bool_decide (s ∈ c_scope c).

(** A token from before the last change of the password is refused. *)
Definition assertTokenNotRevoked (db : accounts) (userId iat : Z) : result auth_error unit :=
  let changedAt := default 0 (a ← auth_of db userId "password"; password_changed_at (au_meta a)) in
  throw_if ((0 <? changedAt) && (iat <? changedAt)) TokenRevoked.

(** [Access.init]: the roles and the permissions of the account behind a token. *)
Definition access_init (db : accounts) (c : claims) : result auth_error (list string * option permission_row) :=
  if negb (c_id c =? 0) || has_scope "user" c then
    match active_user db (c_id c) with
    | None => Throw Unauthorized
    | Some u =>
        let roles := u_roles u ++ ["user"] in
        throw_if (negb (forallb (fun s => bool_decide (s ∈ roles)) (c_scope c))) InvalidScope;;
        assertTokenNotRevoked db (u_id u) (c_iat c);;
        Ok (roles, permissions_of db (u_id u))
    end
  else Ok ([], None).

(** The schemas of [lib/access]: what a request needs besides, or instead of, the admin role. *)
Inductive rule :=
| AdminOnly
| UserScope
| OwnId
| NeedsView (field : permission_row -> string)
| NeedsManage (field : permission_row -> string).

Definition is_admin (scope roles : list string) : bool := bool_decide ("user" ∈ scope) && bool_decide ("admin" ∈ roles).
Definition perm_view (value : string) : bool := bool_decide (value = "view" \/ value = "manage").
Definition perm_manage (value : string) : bool := bool_decide (value = "manage").

(** The file of a permission. *)
Definition permission_rule (permission : string) : option rule :=
  let on_objects (p : string * (permission_row -> string)) :=
    [(p.1 +:+ ":create", NeedsManage p.2); (p.1 +:+ ":delete", NeedsManage p.2); (p.1 +:+ ":update", NeedsManage p.2);
     (p.1 +:+ ":get", NeedsView p.2); (p.1 +:+ ":list", NeedsView p.2)] in
  mget permission
    (concat (on_objects <$> [("access_lists", pm_access_lists); ("certificates", pm_certificates); ("dead_hosts", pm_dead_hosts);
                             ("proxy_hosts", pm_proxy_hosts); ("redirection_hosts", pm_redirection_hosts); ("streams", pm_streams)]) ++
     [("auditlog:list", AdminOnly); ("reports:hosts", UserScope); ("settings:get", AdminOnly); ("settings:list", AdminOnly);
      ("settings:update", AdminOnly); ("users:create", AdminOnly); ("users:delete", AdminOnly); ("users:get", OwnId);
      ("users:list", AdminOnly); ("users:loginas", AdminOnly); ("users:password", OwnId); ("users:permissions", AdminOnly);
      ("users:update", OwnId)]).

Definition rule_holds (r : rule) (c : claims) (roles : list string) (perms : permission_row) (data : Z) : bool :=
  match r with
  | AdminOnly => is_admin (c_scope c) roles
  | UserScope => has_scope "user" c
  | OwnId => is_admin (c_scope c) roles || (has_scope "user" c && (data =? c_id c) && (1 <=? data))
  | NeedsView field => is_admin (c_scope c) roles || (perm_view (field perms) && forallb (fun r => bool_decide (r = "user")) roles)
  | NeedsManage field => is_admin (c_scope c) roles || (perm_manage (field perms) && forallb (fun r => bool_decide (r = "user")) roles)
  end.

(** An [Access] reads the account once, at the first permission it is asked for. *)
Record access := Access { ac_who : caller; ac_init : result auth_error (list string * option permission_row) }.
Definition open_access (db : accounts) (who : caller) : access :=
  Access who (match who with Bearer c => access_init db c | _ => Throw PermissionDenied end).

(** [Access.can]: every failure is a denial, except that a dead token or account says so. *)
Definition can (a : access) (permission : string) (data : Z) : result auth_error unit :=
  match ac_who a with
  | Internal => Ok tt
  | Anonymous => Throw PermissionDenied
  | Bearer c =>
      match ac_init a with
      | Throw e => Throw e
      | Ok (roles, Some perms) =>
          match permission_rule permission with
          | Some r => throw_if (negb (rule_holds r c roles perms data)) PermissionDenied
          | None => Throw PermissionDenied
          end
      | Ok (_, None) => Throw PermissionDenied
      end
  end.

(** * The handlers of user.js *)

(** [internalUser.get]: without an id, the account of the token. *)
Definition get_user (db : accounts) (a : access) (id : Z) : result auth_error user :=
  let id := if id =? 0 then getUserId (ac_who a) else id in
  can a "users:get" id;;
  match live_user db id with Some u => Ok u | None => Throw ItemNotFound end.

(** [user_id]: an account that does not count. *)
Definition isEmailAvailable (db : accounts) (email : string) (user_id : option Z) : bool :=
  negb (existsb (fun u => bool_decide (u_email u = trim (to_lower email)) && negb (u_is_deleted u) &&
                          match user_id with Some id => negb (u_id u =? id) | None => true end) (t_users db)).

Section Handlers.

(** The avatar of an address and the hash of a password (its cost, the password, the salt). *)
Variable gravatar : string -> string.
Variable bcrypt_hash : Z -> string -> string -> string.

(** [encryptPassword] before an insert or an update. *)
Definition encryptPassword (type secret salt : string) : string :=
  if decide (type = "password") then (if decide (secret = "") then secret else bcrypt_hash 13 secret salt) else secret.

Definition insertDefaults (userId : Z) (isAdmin : bool) : permission_row :=
  PermissionRow userId (if isAdmin then "all" else "user") "manage" "manage" "manage" "manage" "manage" "manage".

Record new_user := NewUser {
  nu_email : string; nu_name : string; nu_nickname : string; nu_roles : option (list string);
  nu_is_disabled : option bool; nu_auth : option string }.

(** There is an account. *)
Definition isSetup (db : accounts) : bool := existsb (fun u => negb (u_is_deleted u) && (0 <? u_id u)) (t_users db).

(** The route: before there is an account anybody creates the first one, as an admin. Who asks from
    there on, and for what. *)
Definition post_user (db : accounts) (who : caller) (data : new_user) : result auth_error (caller * new_user) :=
  if isSetup db then Ok (who, data)
  else
    let roles := default [] (nu_roles data) in
    let roles := if bool_decide ("admin" ∈ roles) then roles else roles ++ ["admin"] in
    match nu_auth data with
    | None => Throw NoInitialAuth
    | Some _ => Ok (Internal, NewUser (nu_email data) (nu_name data) (nu_nickname data) (Some roles) (Some false) (nu_auth data))
    end.

(** [create] up to the lock. *)
Definition create_check (db : accounts) (who : caller) : result auth_error unit := can (open_access db who) "users:create" 0.

(** Under the lock of the addresses: the row of the account. [uid]: its id. *)
Definition create_insert (db : accounts) (data : new_user) (uid : Z) : result auth_error accounts :=
  let email := trim (to_lower (nu_email data)) in
  throw_if (negb (isEmailAvailable db email None)) EmailInUse;;
  Ok (Accounts (t_users db ++ [User uid email (nu_name data) (nu_nickname data) (gravatar email) (default [] (nu_roles data)) (default false (nu_is_disabled data)) false])
        (t_auth db) (t_permissions db)).

(** After it: the password, the one type the schema of the route allows ([aid]: the id of its row),
    and the permissions. *)
Definition create_rows (db : accounts) (data : new_user) (uid aid : Z) (salt : string) : accounts :=
  Accounts (t_users db)
    (match nu_auth data with
     | Some secret => t_auth db ++ [AuthRow aid uid "password" (encryptPassword "password" secret salt) no_meta false]
     | None => t_auth db
     end)
    (t_permissions db ++ [insertDefaults uid (bool_decide ("admin" ∈ default [] (nu_roles data)))]).

Record user_patch := UserPatch {
  up_id : Z; up_email : option string; up_name : option string; up_nickname : option string;
  up_roles : option (list string); up_is_disabled : option bool }.

(** Roles and the lock of an account are the admin's to change. *)
Definition privileged (data : user_patch) : bool := match up_roles data, up_is_disabled data with None, None => false | _, _ => true end.

Definition apply_patch (data : user_patch) (u : user) : user :=
  let email := from_option (fun e => trim (to_lower e)) (u_email u) (up_email data) in
  User (u_id u) email (default (u_name u) (up_name data)) (default (u_nickname u) (up_nickname data))
    (gravatar (if decide (email = "") then u_email u else email)) (default (u_roles u) (up_roles data))
    (default (u_is_disabled u) (up_is_disabled data)) (u_is_deleted u).

(** [update] up to the lock: what the [Access] knows of the caller from there on. *)
Definition update_check (db : accounts) (who : caller) (data : user_patch) : result auth_error access :=
  let a := open_access db who in
  can a "users:update" (up_id data);;
  (if privileged data
   then match live_user db (getUserId who) with
        | Some r => throw_if (negb (bool_decide ("admin" ∈ u_roles r))) PermissionDenied
        | None => Throw PermissionDenied
        end
   else Ok tt);;
  Ok a.

(** Under the lock of the addresses. *)
Definition update_write (db : accounts) (a : access) (data : user_patch) : result auth_error accounts :=
  u ← get_user db a (up_id data);
  match up_email data with
  | Some e =>
      let e := trim (to_lower e) in
      throw_if (negb (bool_decide (u_email u = e)) && negb (isEmailAvailable db e (Some (up_id data)))) EmailInUse
  | None => Ok tt
  end;;
  throw_if (negb (u_id u =? up_id data)) IdMismatch;;
  Ok (patch_user (u_id u) (apply_patch data) db).

(** [delete] up to its write, which no lock ties to it: the account to delete. *)
Definition delete_check (db : accounts) (who : caller) (id : Z) : result auth_error Z :=
  let a := open_access db who in
  can a "users:delete" id;;
  u ← get_user db a id;
  throw_if (u_id u =? getUserId who) DeleteYourself;;
  Ok (u_id u).

Definition delete_write (db : accounts) (id : Z) : accounts :=
  patch_user id (fun u => User (u_id u) (u_email u) (u_name u) (u_nickname u) (u_avatar u) (u_roles u) (u_is_disabled u) true) db.

(** [setPermissions] up to its write: whether the account has a row. *)
Definition permissions_check (db : accounts) (who : caller) (id : Z) : result auth_error bool :=
  let a := open_access db who in
  can a "users:permissions" id;;
  u ← get_user db a id;
  throw_if (negb (u_id u =? id)) IdMismatch;;
  Ok (match permissions_of db id with Some _ => true | None => false end).

(** [perms]: a row with the values that were sent; [unsent]: the other columns of a new row. *)
Definition permissions_write (db : accounts) (id : Z) (perms : permission_row -> permission_row) (unsent : permission_row) (known : bool) : accounts :=
  Accounts (t_users db) (t_auth db)
    (if known then update_first (fun p => pm_user_id p =? id) perms (t_permissions db) else t_permissions db ++ [perms unsent]).

End Handlers.

(** * The tables behind each handler *)

Ltac ok_steps :=
  repeat match goal with
  | H : (_ ← _; _) = Ok _ |- _ => apply bind_Ok in H as (? & ? & ?)
  | H : throw_if _ _ = Ok _ |- _ => apply throw_if_Ok in H
  | H : Ok _ = Ok _ |- _ => injection H as ?; subst
  | H : Throw _ = Ok _ |- _ => discriminate
  end.

Lemma get_user_live db a id u : get_user db a id = Ok u -> exists i, live_user db i = Some u /\ (id <> 0 -> i = id).
Proof.
  unfold get_user. intros H. ok_steps. exists (if id =? 0 then getUserId (ac_who a) else id).
  destruct (live_user db _) as [v|]; [|done]. ok_steps. split; [done|]. intros Hne. by apply Z.eqb_neq in Hne as ->.
Qed.

Lemma live_user_spec db id u : live_user db id = Some u -> u ∈ t_users db /\ u_id u = id /\ u_is_deleted u = false.
Proof. unfold live_user. intros [H1 H2]%bfind_Some. apply andb_true_iff in H2 as [H2%Z.eqb_eq H3%negb_true_iff]. done. Qed.

Section Tables.

Variable gravatar : string -> string.
Variable bcrypt_hash : Z -> string -> string -> string.

(** A new account. *)
Lemma create_insert_tables db data uid db' : create_insert gravatar db data uid = Ok db' -> exists v,
  isEmailAvailable db (u_email v) None = true /\ (exists e, u_email v = trim (to_lower e)) /\ u_id v = uid /\ u_is_deleted v = false /\
  t_users db' = t_users db ++ [v] /\ t_auth db' = t_auth db.
Proof.
  unfold create_insert. intros H. ok_steps. match goal with H : negb _ = false |- _ => apply negb_false_iff in H as Hav end.
  refine (ex_intro _ (User uid _ _ _ _ _ _ false) _). cbn [u_email u_id u_is_deleted]. split_and!; [exact Hav|by eexists|done..].
Qed.

(** The rows beside it: a password or none. *)
Lemma create_rows_tables db data uid aid salt : let db' := create_rows bcrypt_hash db data uid aid salt in
  t_users db' = t_users db /\ (t_auth db' = t_auth db \/ exists secret, t_auth db' = t_auth db ++ [AuthRow aid uid "password" secret no_meta false]).
Proof. split; [done|]. unfold create_rows. destruct (nu_auth data); [right; by eexists|by left]. Qed.

Lemma update_check_spec db who data a : update_check db who data = Ok a ->
  can (open_access db who) "users:update" (up_id data) = Ok tt /\
  (privileged data = true -> exists r, live_user db (getUserId who) = Some r /\ "admin" ∈ u_roles r).
Proof.
  unfold update_check. intros H. apply bind_Ok in H as ([] & Hcan & H). apply bind_Ok in H as (x & Hp & H). split; [done|]. intros Hpr. rewrite Hpr in Hp.
  destruct (live_user db (getUserId who)) as [r|]; [|done]. ok_steps. exists r. split; [done|]. by apply negb_false_iff, bool_decide_eq_true_1 in Hp.
Qed.

Lemma update_write_tables db a data db' : update_write gravatar db a data = Ok db' -> exists v,
  v ∈ t_users db /\ u_id v = up_id data /\ u_is_deleted v = false /\ db' = patch_user (up_id data) (apply_patch gravatar data) db /\
  (forall e, up_email data = Some e -> u_email v <> trim (to_lower e) -> isEmailAvailable db (trim (to_lower e)) (Some (up_id data)) = true).
Proof.
  unfold update_write. intros H. apply bind_Ok in H as (v & Hg & H). apply bind_Ok in H as (x & Hm & H). ok_steps.
  match goal with H : negb (u_id v =? _) = false |- _ => apply negb_false_iff, Z.eqb_eq in H as Hid end. apply get_user_live in Hg as (i & Hl & _). apply live_user_spec in Hl as (Hin & _ & Hd).
  exists v. rewrite Hid. split_and!; try done. intros e He Hne. rewrite He in Hm. ok_steps. rewrite bool_decide_eq_false_2 in Hm by done. cbn in Hm. by apply negb_false_iff in Hm.
Qed.

Lemma delete_check_spec db who id i : delete_check db who id = Ok i -> i <> getUserId who /\ can (open_access db who) "users:delete" id = Ok tt.
Proof.
  unfold delete_check. intros H. apply bind_Ok in H as ([] & Hcan & H). apply bind_Ok in H as (v & Hg & H). ok_steps. split; [|done]. by apply Z.eqb_neq.
Qed.

End Tables.
