(* ===== verification/Sessions.v ===== *)
(** Sessions: [backend/models/token.js], [backend/internal/token.js], [backend/internal/2fa.js],
    the password of [backend/internal/user.js] and [backend/internal/oidc.js].

    Handlers that compute hashes between reading a sign-in row and writing it come in two
    parts, a read that returns a [write] and the [commit] of that write; the check of a code
    comes as a scan and the [consume] of the backup code it found. The sign-in over the provider
    comes in the parts between its waits, of which one alone holds a lock. *)

From S2P Require Import Prelude.
From S2P Require Import JsString.
From S2P Require Import JsVal.
From S2P Require Import Accounts.

Local Open Scope Z_scope.

(** * Periods *)

(** Digits, and the unit behind them. *)
Definition period_parts (s : string) : option (string * string) :=
  let '(digits, unit) := take_digits s in if decide (digits = "") then None else Some (digits, unit).

Lemma period_digits s digits unit : period_parts s = Some (digits, unit) -> sall is_digit digits = true.
Proof.
  unfold period_parts. assert (sall is_digit (take_digits s).1 = true) as H.
  { induction s as [|c s IH]; [done|]. cbn [take_digits]. destruct (is_digit c) eqn:Hc; [|done]. destruct (take_digits s) as [a b]. cbn in *. by rewrite Hc, IH. }
  destruct (take_digits s) as [a b]. destruct (decide (a = "")); [done|]. by intros [= <- <-].
Qed.

(** [parseDatePeriod]: the amount and the unit [moment] adds. *)
Definition parse_period (v : jsval) : option (Z * string) :=
  match v with
  | VStr s =>
      '(digits, unit) ← period_parts s;
      if decide (unit ∈ ["y"; "Q"; "M"; "w"; "d"; "h"; "m"; "s"; "ms"]) then Some (num_of_digits digits, unit) else None
  | _ => None
  end.

Definition EXPIRY_UNIT_SECONDS : list (string * Z) := [("y", 365 * 86400); ("w", 7 * 86400); ("d", 86400); ("h", 3600); ("m", 60)].
Definition EXPIRY_MAX_SECONDS : Z := 366 * 86400.

(** The lifetime of a session over the provider. *)
Definition expirySeconds (v : jsval) : option Z :=
  match v with
  | VStr s =>
      '(digits, unit) ← period_parts s;
      if decide (stake 1 digits <> "0" /\ (String.length digits <= 5)%nat) then
        factor ← mget unit EXPIRY_UNIT_SECONDS;
        let seconds := num_of_digits digits * factor in
        if (0 <? seconds) && (seconds <=? EXPIRY_MAX_SECONDS) then Some seconds else None
      else None
  | _ => None
  end.

(** [expiresIn] of a token: a text, which its library reads, or seconds. *)
Inductive expires_in := Period (v : jsval) | Seconds (n : Z).

(** [moment().add(n, unit)]: a date that can be beyond all dates, which then compares with nothing. *)
Inductive moment := At (ms : Z) | InvalidDate.
Definition later (m : moment) (ms : Z) : bool := match m with At t => ms <? t | InvalidDate => false end.

Section Sessions.

(** The end of a token signed at a second; [None] when its library cannot read the lifetime. *)
Variable jwt_exp : Z -> expires_in -> option Z.
(** What a text says whose signature holds at a second. *)
Variable jwt_verify : Z -> string -> option claims.
(** A time with an amount of a unit added. *)
Variable date_add : Z -> Z -> string -> moment.
Variable bcrypt_hash : Z -> string -> string -> string.
Variable bcrypt_compare : string -> string -> bool.
(** A code against a secret at a time; [None] when the check throws. *)
Variable verifyTotp : string -> string -> Z -> option bool.

(** * The token *)

Definition create_token (now : Z) (iss : string) (id : Z) (sso_exp : option Z) (scope : list string) (lifetime : expires_in) (jti : string) : result auth_error claims :=
  let iat := now / 1000 in
  match jwt_exp iat lifetime with Some exp => Ok (Claims iss id sso_exp scope iat exp jti) | None => Throw SignFailed end.

(** A scope [all] is read as [user]. *)
Definition load_token (now : Z) (token : string) : result auth_error claims :=
  throw_if (bool_decide (token = "") || bool_decide (token = "null")) EmptyToken;;
  match jwt_verify (now / 1000) token with
  | None => Throw InvalidToken
  | Some c =>
      Ok (if decide ("all" ∈ c_scope c) then Claims (c_iss c) (c_id c) (c_sso_exp c) ["user"] (c_iat c) (c_exp c) (c_jti c) else c)
  end.

(** * Two factor *)

Definition getUserPasswordAuth (db : accounts) (userId : Z) : result auth_error auth_row :=
  match auth_of db userId "password" with Some a => Ok a | None => Throw ItemNotFound end.

Definition twofa_isEnabled (db : accounts) (userId : Z) : result auth_error bool :=
  a ← getUserPasswordAuth db userId; Ok (totp_enabled (au_meta a)).

(** Whether it is on, and how many codes are left. *)
Definition twofa_status (db : accounts) (who : caller) (userId : Z) : result auth_error (bool * nat) :=
  let a := open_access db who in
  can a "users:password" userId;;
  get_user db a userId;;
  auth ← getUserPasswordAuth db userId;
  let m := au_meta auth in
  Ok (totp_enabled m, if totp_enabled m then length (default [] (backup_codes m)) else 0%nat).

(** What a handler writes when its hashes are done: the row read, and its new content. *)
Inductive write :=
| PatchMeta (base : auth_row) (m : auth_meta)
| PatchPassword (base : auth_row) (secret : string) (m : auth_meta)
| InsertPassword (aid userId : Z) (secret : string) (m : auth_meta).

Definition commit (w : write) (db : accounts) : accounts :=
  match w with
  | PatchMeta b m =>
      patch_auth (fun a => (au_id a =? au_id b) && (au_user_id a =? au_user_id b) && bool_decide (au_type a = "password"))
        (fun a => AuthRow (au_id a) (au_user_id a) (au_type a) (au_secret a) m (au_is_deleted a)) db
  | PatchPassword b secret m =>
      patch_auth (fun a => (au_user_id a =? au_user_id b) && bool_decide (au_type a = "password"))
        (fun a => AuthRow (au_id a) (au_user_id a) "password" secret m (au_is_deleted a)) db
  | InsertPassword aid userId secret m => add_auth (AuthRow aid userId "password" secret m false) db
  end.

(** The codes handed out, and their hashes. *)
Definition generateBackupCodes (drawn : list (string * string)) : list string * list string :=
  (drawn.*1, (fun c => bcrypt_hash 10 c.1 c.2) <$> drawn).

Definition startSetup (db : accounts) (who : caller) (userId : Z) (secret : string) : result auth_error write :=
  let a := open_access db who in
  can a "users:password" userId;;
  get_user db a userId;;
  auth ← getUserPasswordAuth db userId;
  let m := au_meta auth in
  throw_if (totp_enabled m) TwoFactorAlreadyEnabled;;
  Ok (PatchMeta auth (AuthMeta (totp_enabled m) (totp_enabled_at m) (totp_secret m) (Some secret) (backup_codes m)
                               (password_changed_at m) (sso_sub m) (last_login m))).

(** An empty secret counts as none. *)
Definition truthy_text (o : option string) : option string := s ← o; if decide (s = "") then None else Some s.

Definition check_totp (secret code : string) (now : Z) (e : auth_error) : result auth_error unit :=
  match verifyTotp secret code now with Some true => Ok tt | Some false => Throw e | None => Throw TotpFailed end.

Definition enable (db : accounts) (who : caller) (userId : Z) (code : string) (now : Z) (drawn : list (string * string)) : result auth_error (write * list string) :=
  let a := open_access db who in
  can a "users:password" userId;;
  get_user db a userId;;
  auth ← getUserPasswordAuth db userId;
  let m := au_meta auth in
  match truthy_text (totp_pending_secret m) with
  | None => Throw NoPendingSetup
  | Some secret =>
      check_totp secret code now InvalidCode;;
      let '(plain, hashed) := generateBackupCodes drawn in
      Ok (PatchMeta auth (AuthMeta true (Some now) (Some secret) None (Some hashed) (password_changed_at m) (sso_sub m) (last_login m)), plain)
  end.

Definition disable (db : accounts) (who : caller) (userId : Z) (code : string) (now : Z) : result auth_error write :=
  let a := open_access db who in
  can a "users:password" userId;;
  get_user db a userId;;
  auth ← getUserPasswordAuth db userId;
  let m := au_meta auth in
  throw_if (negb (totp_enabled m)) TwoFactorNotEnabled;;
  check_totp (default "" (totp_secret m)) code now InvalidCode;;
  Ok (PatchMeta auth (AuthMeta false None None (totp_pending_secret m) None (password_changed_at m) (sso_sub m) (last_login m))).

Definition regenerateBackupCodes (db : accounts) (who : caller) (userId : Z) (code : string) (now : Z) (drawn : list (string * string)) :
  result auth_error (write * list string) :=
  let a := open_access db who in
  can a "users:password" userId;;
  get_user db a userId;;
  auth ← getUserPasswordAuth db userId;
  let m := au_meta auth in
  throw_if (negb (totp_enabled m)) TwoFactorNotEnabled;;
  match truthy_text (totp_secret m) with
  | None => Throw NoTwoFactorSecret
  | Some secret =>
      check_totp secret code now InvalidCode;;
      let '(plain, hashed) := generateBackupCodes drawn in
      Ok (PatchMeta auth (AuthMeta (totp_enabled m) (totp_enabled_at m) (totp_secret m) (totp_pending_secret m) (Some hashed)
                                   (password_changed_at m) (sso_sub m) (last_login m)), plain)
  end.

(** ** The code of a sign-in *)

Definition BACKUP_CODE_LENGTH : nat := 8.

Definition upper_char (c : ascii) : ascii := if is_lower c then chr (code c - 32) else c.
Definition to_upper (s : string) : string := smap (fun c => String (upper_char c) "") s.

(** A wrong code, a right one, or a backup code whose hash is in the row and must be consumed. *)
Inductive scanned := Wrong | Right | Found (auth : auth_row) (hash : string).

Definition verifyForLogin (db : accounts) (userId : Z) (token : string) (now : Z) : result auth_error scanned :=
  auth ← getUserPasswordAuth db userId;
  match truthy_text (totp_secret (au_meta auth)) with
  | None => Ok Wrong
  | Some secret =>
      valid ← (if decide (String.length token = 6%nat)
               then match verifyTotp secret token now with Some v => Ok v | None => Throw TotpFailed end
               else Ok false);
      if valid : bool then Ok Right
      else if negb (bool_decide (String.length token = BACKUP_CODE_LENGTH)) then Ok Wrong
      else match bfind (bcrypt_compare (to_upper token)) (default [] (backup_codes (au_meta auth))) with
           | Some hash => Ok (Found auth hash)
           | None => Ok Wrong
           end
  end.

Definition set_codes (codes : list string) (m : auth_meta) : auth_meta :=
  AuthMeta (totp_enabled m) (totp_enabled_at m) (totp_secret m) (totp_pending_secret m) (Some codes) (password_changed_at m) (sso_sub m) (last_login m).

(** The transaction: the code leaves the row if it is still there. *)
Definition consume (db : accounts) (auth : auth_row) (userId : Z) (hash : string) : accounts * bool :=
  match bfind (fun a => (au_id a =? au_id auth) && (au_user_id a =? userId) && bool_decide (au_type a = "password")) (t_auth db) with
  | Some fresh =>
      let current := default [] (backup_codes (au_meta fresh)) in
      if decide (hash ∈ current) then
        (patch_auth (fun a => au_id a =? au_id auth)
           (fun a => AuthRow (au_id a) (au_user_id a) (au_type a) (au_secret a) (set_codes (bfilter (fun h => negb (bool_decide (h = hash))) current) (au_meta fresh)) (au_is_deleted a)) db, true)
      else (db, false)
  | None => (db, false)
  end.

(** * The handlers of token.js *)

Definition or_default (expiry : jsval) : jsval := if truthy expiry then expiry else VStr "1d".

(** What a sign-in answers. *)
Inductive answer := Challenge (c : claims) | Session (c : claims) (expires : moment).

Definition user_session (now : Z) (iss : string) (id : Z) (expiry : jsval) (jti : string) : result auth_error answer :=
  match parse_period expiry with
  | None => Throw InvalidExpiry
  | Some (n, unit) => c ← create_token now iss id None ["user"] (Period expiry) jti; Ok (Session c (date_add now n unit))
  end.

Definition getTokenFromEmail (db : accounts) (identity secret : string) (expiry : jsval) (now : Z) (jti : string) : result auth_error answer :=
  let email := trim (to_lower identity) in
  match bfind (fun u => bool_decide (u_email u = email) && negb (u_is_deleted u) && negb (u_is_disabled u)) (t_users db) with
  | None => Throw InvalidAuth
  | Some u =>
      match auth_of db (u_id u) "password" with
      | None => Throw InvalidAuth
      | Some auth =>
          throw_if (negb (bcrypt_compare secret (au_secret auth))) InvalidAuth;;
          if totp_enabled (au_meta auth)
          then c ← create_token now "api" (u_id u) None ["2fa-challenge"] (Period (VStr "5m")) jti; Ok (Challenge c)
          else user_session now "api" (u_id u) (or_default expiry) jti
      end
  end.

Definition MAX_REFRESH : Z := 30 * 24 * 60 * 60 * 1000.

Definition getFreshToken (db : accounts) (who : caller) (expiry : jsval) (now : Z) (jti : string) : result auth_error answer :=
  let expiry := or_default expiry in
  match who with
  | Internal | Anonymous => Throw InvalidTokenUser
  | Bearer t =>
      throw_if (c_id t =? 0) InvalidTokenUser;;
      throw_if (has_scope "2fa-challenge" t || negb (has_scope "user" t)) InvalidToken;;
      match active_user db (c_id t) with
      | None => Throw Unauthorized
      | Some _ =>
          assertTokenNotRevoked db (c_id t) (c_iat t);;
          match parse_period expiry with
          | None => Throw InvalidExpiry
          | Some (n, unit) =>
              let until := date_add now n unit in
              throw_if (later until (now + MAX_REFRESH)) ExpiryTooLong;;
              match c_sso_exp t with
              | Some sso =>
                  if sso =? 0 then c ← create_token now "api" (c_id t) None (c_scope t) (Period expiry) jti; Ok (Session c until)
                  else
                    throw_if (sso * 1000 - 5000 <=? now) SsoSessionExpired;;
                    let '(until, lifetime) := if later until (sso * 1000) then (At (sso * 1000), Seconds (Z.max 1 ((sso * 1000 - now) / 1000))) else (until, Period expiry) in
                    c ← create_token now "api" (c_id t) (Some sso) (c_scope t) lifetime jti; Ok (Session c until)
              | None => c ← create_token now "api" (c_id t) None (c_scope t) (Period expiry) jti; Ok (Session c until)
              end
          end
      end
  end.

(** The second step of a sign-in up to the check of the code. *)
Definition verify2FA_begin (db : accounts) (challengeToken code : string) (now : Z) : result auth_error (Z * scanned) :=
  match load_token now challengeToken with
  | Throw _ => Throw InvalidChallenge
  | Ok t =>
      throw_if (negb (bool_decide (head (c_scope t) = Some "2fa-challenge"))) InvalidChallenge;;
      throw_if (c_id t =? 0) InvalidChallenge;;
      match assertTokenNotRevoked db (c_id t) (c_iat t) with
      | Throw _ => Throw InvalidChallenge
      | Ok _ => s ← verifyForLogin db (c_id t) code now; Ok (c_id t, s)
      end
  end.

(** From there on; the route asks for no lifetime. *)
Definition verify2FA_end (db : accounts) (userId : Z) (s : scanned) (now : Z) (jti : string) : accounts * result auth_error answer :=
  let '(db, valid) := match s with Wrong => (db, false) | Right => (db, true) | Found auth hash => consume db auth userId hash end in
  (db, if valid then user_session now "api" userId (VStr "1d") jti else Throw InvalidCode).

Definition getTokenFromUser (id : Z) (now : Z) (jti : string) : result auth_error answer := user_session now "api" id (VStr "1d") jti.

(** [loginAs] of user.js. *)
Definition loginAs (db : accounts) (who : caller) (id now : Z) (jti : string) : result auth_error answer :=
  let a := open_access db who in
  can a "users:loginas" id;;
  u ← get_user db a id;
  throw_if (u_is_disabled u) DisabledUser;;
  getTokenFromUser (u_id u) now jti.

(** ** The password *)

Definition changed (now : Z) (m : auth_meta) : auth_meta :=
  AuthMeta (totp_enabled m) (totp_enabled_at m) (totp_secret m) (totp_pending_secret m) (backup_codes m) (Some (now / 1000)) (sso_sub m) (last_login m).

(** [setPassword] up to its write; the schema of the route allows the type [password] only. *)
Definition setPassword (db : accounts) (who : caller) (id : Z) (current : option string) (secret : string) (now aid : Z) (salt : string) : result auth_error write :=
  let a := open_access db who in
  can a "users:password" id;;
  u ← get_user db a id;
  throw_if (negb (u_id u =? id)) IdMismatch;;
  (if u_id u =? getUserId who then
     match truthy_text current with
     | None => Throw NoCurrentPassword
     | Some current =>
         match auth_of db (u_id u) "password" with
         | None => Throw InvalidAuth
         | Some auth => throw_if (negb (bcrypt_compare current (au_secret auth))) InvalidAuth
         end
     end
   else Ok tt);;
  let hashed := encryptPassword bcrypt_hash "password" secret salt in
  Ok (match auth_of db (u_id u) "password" with
      | Some auth => PatchPassword auth hashed (changed now (au_meta auth))
      | None => InsertPassword aid (u_id u) hashed (changed now no_meta)
      end).

(** * The sign-in over the provider *)

(** [String(claims[f] || "")] *)
Definition claim (info : jsval) (f : string) : string := str_truthy "" (vget info f).

(** [existing] is bound to another identity, has a password, or its address is unconfirmed. *)
Definition ssoLinkRefusal (storedSub : string) (hasPassword : bool) (info : jsval) : bool :=
  if decide (storedSub = "") then hasPassword || match vget info "email_verified" with VBool false => true | _ => false end
  else negb (bool_decide (storedSub = claim info "sub")).

Definition groupsFrom (info : jsval) (claimName : string) : list string :=
  match vget info claimName with
  | VStr g => [to_lower (trim g)]
  | VArr l => (fun g => to_lower (trim (to_string g))) <$> l
  | _ => []
  end.

Definition sub_of (a : auth_row) : string := default "" (sso_sub (au_meta a)).

(** What a sign-in leaves in the row that marks an account. *)
Definition sso_meta (info : jsval) (now : Z) : auth_meta := AuthMeta false None None None None None (Some (claim info "sub")) (Some now).

(** [markSso] reads the row and writes it, without a lock. *)
Definition mark_read (db : accounts) (userId : Z) : option auth_row := auth_of db userId "oidc".
Definition mark_write (db : accounts) (userId : Z) (row : option auth_row) (m : auth_meta) (aid : Z) : accounts :=
  match row with
  | Some row => patch_auth (fun a => au_id a =? au_id row) (fun a => AuthRow (au_id a) (au_user_id a) (au_type a) (au_secret a) m false) db
  | None => add_auth (AuthRow aid userId "oidc" "" m false) db
  end.

(** The account that is bound to the identity. *)
Definition bound_user (db : accounts) (sub : string) : option user :=
  if decide (sub = "") then None
  else row ← bfind (fun a => bool_decide (sub_of a = sub)) (bfilter (fun a => bool_decide (au_type a = "oidc") && negb (au_is_deleted a)) (t_auth db));
       live_user db (au_user_id row).

(** The name of a new account. *)
Definition sso_name (email : string) (info : jsval) : string :=
  let or v d := if truthy v then to_string v else d in
  trim (or (vget info "name") (or (vget info "preferred_username") (default "" (head (split_char "@" email))))).

Definition live_auth (db : accounts) (userId : Z) (type : string) : option auth_row :=
  bfind (fun a => (au_user_id a =? userId) && bool_decide (au_type a = type) && negb (au_is_deleted a)) (t_auth db).

(** Under the lock of the addresses: the account a sign-in is for, found by its address or new. *)
Definition find_or_create (db : accounts) (email : string) (info : jsval) (uid : Z) : result auth_error (accounts * user * bool) :=
  match bfind (fun u => bool_decide (u_email u = email) && negb (u_is_deleted u)) (t_users db) with
  | Some u =>
      let storedSub := default "" (sub_of <$> live_auth db (u_id u) "oidc") in
      let hasPassword := match live_auth db (u_id u) "password" with Some a => negb (bool_decide (au_secret a = "")) | None => false end in
      throw_if (ssoLinkRefusal storedSub hasPassword info) SsoLinked;;
      Ok (db, u, true)
  | None =>
      let name := sso_name email info in
      let nickname := trim (if truthy (vget info "given_name") then to_string (vget info "given_name") else name) in
      let u := User uid email name nickname "" ["admin"] false false in
      Ok (Accounts (t_users db ++ [u]) (t_auth db) (t_permissions db ++ [insertDefaults uid true]), u, false)
  end.

(** [ensureUser] from the lookup of the binding on: the account, and whether it was there. *)
Definition ensure_account (db : accounts) (bound : option user) (info : jsval) (uid : Z) : result auth_error (accounts * user * bool) :=
  '(db, u, existing) ← match bound with Some u => Ok (db, u, true) | None => find_or_create db (trim (to_lower (claim info "email"))) info uid end;
  throw_if (existing && u_is_disabled u) SsoDisabled;;
  Ok (db, u, existing).

(** The account that was there becomes an admin. *)
Definition raised (u v : user) : user :=
  User (u_id v) (u_email v) (u_name v) (u_nickname v) (u_avatar v) (u_roles u ++ ["admin"]) (u_is_disabled v) (u_is_deleted v).
Definition ensure_admin (db : accounts) (u : user) (existing : bool) : accounts :=
  if existing && negb (bool_decide ("admin" ∈ u_roles u)) then patch_user (u_id u) (raised u) db else db.

Record oidc_config := OidcConfig { oc_required_group : string; oc_groups_claim : string; oc_expiry : jsval }.

(** [completeLogin] from the answers of the provider to the lookup of the binding; [flow_ok]: the
    cookie holds the state the provider gave back. *)
Definition completeLogin (cfg : oidc_config) (flow_ok : bool) (db : accounts) (info : jsval) : result auth_error (option user) :=
  throw_if (negb flow_ok) SsoExpired;;
  throw_if (bool_decide (trim (to_lower (claim info "email")) = "")) SsoNoEmail;;
  throw_if (negb (bool_decide (to_lower (oc_required_group cfg) ∈ groupsFrom info (oc_groups_claim cfg)))) SsoNoGroup;;
  Ok (bound_user db (claim info "sub")).

(** The token at its end. *)
Definition sso_token (cfg : oidc_config) (u : user) (now : Z) (jti : string) : result auth_error answer :=
  match expirySeconds (oc_expiry cfg) with
  | None => Throw InvalidExpiry
  | Some lifetime =>
      c ← create_token now "oidc" (u_id u) (Some ((now + lifetime * 1000) / 1000)) ["user"] (Seconds lifetime) jti;
      Ok (Session c (At (now + lifetime * 1000)))
  end.

End Sessions.

(** * The tables behind a sign-in over the provider *)

(** The account of a sign-in over the provider. *)
Inductive sso_account (db : accounts) (bound : option user) (info : jsval) (uid : Z) : user -> bool -> Prop :=
| sso_bound u : bound = Some u -> sso_account db bound info uid u true
| sso_found u : bound = None -> u ∈ t_users db -> u_email u = trim (to_lower (claim info "email")) -> u_is_deleted u = false ->
    ssoLinkRefusal (default "" (sub_of <$> live_auth db (u_id u) "oidc"))
      (match live_auth db (u_id u) "password" with Some a => negb (bool_decide (au_secret a = "")) | None => false end) info = false ->
    sso_account db bound info uid u true
| sso_new u : bound = None -> (forall v, v ∈ t_users db -> u_email v = trim (to_lower (claim info "email")) -> u_is_deleted v = true) ->
    u_id u = uid -> u_email u = trim (to_lower (claim info "email")) -> u_roles u = ["admin"] -> u_is_deleted u = false -> sso_account db bound info uid u false.

Lemma ensure_account_spec db bound info uid db' u existing : ensure_account db bound info uid = Ok (db', u, existing) ->
  sso_account db bound info uid u existing /\ (existing = true -> u_is_disabled u = false) /\ t_auth db' = t_auth db /\
  t_users db' = if existing then t_users db else t_users db ++ [u].
Proof.
  unfold ensure_account. intros H. apply bind_Ok in H as ([[db0 v] ex] & Hf & H). ok_steps.
  assert (existing = true -> u_is_disabled u = false) as Hd by (intros ->; done).
  destruct bound as [b|]; [injection Hf as <- <- <-; split; [by constructor|done]|]. unfold find_or_create in Hf.
  destruct (bfind _ (t_users db)) as [v|] eqn:Hv.
  - ok_steps. apply bfind_Some in Hv as [Hin Hv]. apply andb_true_iff in Hv as [He%bool_decide_eq_true_1 Hdel%negb_true_iff]. split; [by apply sso_found|done].
  - injection Hf as <- <- <-. split; [|done]. apply sso_new; try done. intros y Hin He. pose proof (bfind_None _ _ Hv y Hin) as Hx. cbn in Hx.
    rewrite bool_decide_eq_true_2 in Hx by done. cbn in Hx. by apply negb_false_iff in Hx.
Qed.

Lemma completeLogin_Ok cfg flow_ok db info bound : completeLogin cfg flow_ok db info = Ok bound ->
  flow_ok = true /\ to_lower (oc_required_group cfg) ∈ groupsFrom info (oc_groups_claim cfg) /\ bound = bound_user db (claim info "sub").
Proof.
  unfold completeLogin. intros H. apply bind_Ok in H as (_ & Hf%throw_if_Ok%negb_false_iff & H). apply bind_Ok in H as (_ & _ & H).
  apply bind_Ok in H as (_ & Hg%throw_if_Ok%negb_false_iff%bool_decide_eq_true_1 & H). by injection H as <-.
Qed.
