(* ===== verification/AccountHistory.v ===== *)
(** Histories of accounts and sessions.

    The handlers of [Accounts] and [Sessions] as steps that follow each other in any order: a
    handler that waits between a read and a write leaves a task, a write or a check of a code
    under way, and any other step may come in between. The theorems are about every history;
    where one of two handlers that run at once spoils what the other found, the theorem says
    which, and a lemma at the end shows it. *)

From S2P Require Import Prelude.
From S2P Require Import JsString.
From S2P Require Import JsVal.
From S2P Require Import Cidr.
From S2P Require Import Accounts.
From S2P Require Import Sessions.

Local Open Scope Z_scope.

(** * Steps *)

(** Where a sign-in over the provider is: the binding was looked up; the account is known; it is
    an admin; the row that marks it was read; it is marked. *)
Inductive sso_stage :=
| Looked (bound : option user)
| Known (u : user) (existing : bool)
| Raised (u : user)
| Marking (u : user) (row : option auth_row) (m : auth_meta)
| Marked (u : user).

(** A handler that waits: whether there is an account was asked; it was allowed; the row of the
    new account is there; a change of an account, of its permissions or its deletion was allowed;
    a sign-in over the provider. *)
Inductive task :=
| Creating (who : caller) (data : new_user)
| Inserting (who : caller) (data : new_user)
| Inserted (data : new_user) (uid : Z)
| Updating (a : access) (data : user_patch)
| Deleting (who : caller) (id : Z)
| Permitting (id : Z) (perms : permission_row -> permission_row) (unsent : permission_row) (known : bool)
| Sso (cfg : oidc_config) (info : jsval) (st : sso_stage).

(** The time of the last step, the tables, the tokens signed, the writes and the checks of
    codes under way, the backup codes that were consumed, by row and hash, and the handlers that wait. *)
Record world := World {
  w_now : Z; w_db : accounts; w_issued : list claims; w_writes : list write;
  w_scans : list (Z * scanned); w_used : list (Z * string); w_tasks : list task }.

Inductive event :=
| ECreate (token : option string) (data : new_user)
| EUpdate (token : option string) (data : user_patch)
| EDelete (token : option string) (id : Z)
| EPermissions (token : option string) (id : Z) (perms : permission_row -> permission_row) (unsent : permission_row)
| ESso (cfg : oidc_config) (flow_ok : bool) (info : jsval)
| ENext (n : nat) (uid aid : Z) (salt jti : string)
| EStartSetup (token : option string) (id : Z) (secret : string)
| EEnable (token : option string) (id : Z) (code : string) (drawn : list (string * string))
| EDisable (token : option string) (id : Z) (code : string)
| ERegenerate (token : option string) (id : Z) (code : string) (drawn : list (string * string))
| EPassword (token : option string) (id : Z) (current : option string) (secret : string) (aid : Z) (salt : string)
| ECommit (n : nat)
| ELogin (identity secret : string) (expiry : jsval) (jti : string)
| ERefresh (token : option string) (expiry : jsval) (jti : string)
| EVerify (challenge code : string)
| EVerified (n : nat) (jti : string)
| ELoginAs (token : option string) (id : Z) (jti : string).

(** What a waiting handler does next: it waits again, is done, or signs a token. *)
Inductive outcome := Goes (tk : task) | Ends | Signs (c : claims).

(** The token of an answer. *)
Definition answer_token (a : answer) : claims := match a with Challenge c | Session c _ => c end.

Section History.

Variable jwt_exp : Z -> expires_in -> option Z.
Variable jwt_verify : Z -> string -> option claims.
Variable date_add : Z -> Z -> string -> moment.
Variable gravatar : string -> string.
Variable bcrypt_hash : Z -> string -> string -> string.
Variable bcrypt_compare : string -> string -> bool.
Variable verifyTotp : string -> string -> Z -> option bool.

(** [jwtdecode]: who sends a request. *)
Definition caller_of (now : Z) (token : option string) : result auth_error caller :=
  match truthy_text token with
  | None => Ok Anonymous
  | Some s => match load_token jwt_verify now s with Ok c => Ok (Bearer c) | Throw _ => Throw Unauthorized end
  end.

Definition asked {A} (now : Z) (token : option string) (f : caller -> result auth_error A) : result auth_error A :=
  who ← caller_of now token; f who.

(** What a step leaves behind when it answers with a task, a write or a session. *)
Definition to_task (r : result auth_error task) (w : world) : world :=
  match r with Ok tk => World (w_now w) (w_db w) (w_issued w) (w_writes w) (w_scans w) (w_used w) (w_tasks w ++ [tk]) | Throw _ => w end.
Definition to_write (r : result auth_error write) (w : world) : world :=
  match r with Ok wr => World (w_now w) (w_db w) (w_issued w) (w_writes w ++ [wr]) (w_scans w) (w_used w) (w_tasks w) | Throw _ => w end.
Definition to_session (r : result auth_error answer) (w : world) : world :=
  match r with
  | Ok a => World (w_now w) (w_db w) (w_issued w ++ [answer_token a]) (w_writes w) (w_scans w) (w_used w) (w_tasks w)
  | Throw _ => w
  end.

(** The code a check consumes. *)
Definition used_by (db : accounts) (id : Z) (s : scanned) : list (Z * string) :=
  match s with Found auth hash => if (consume db auth id hash).2 then [(au_id auth, hash)] else [] | _ => [] end.

(** A handler up to its first wait before a write. *)
Definition begun (now : Z) (e : event) (db : accounts) : result auth_error task :=
  match e with
  | ECreate token data => asked now token (fun who => r ← post_user db who data; Ok (Creating r.1 r.2))
  | EUpdate token data => asked now token (fun who => a ← update_check db who data; Ok (Updating a data))
  | EDelete token id => asked now token (fun who => i ← delete_check db who id; Ok (Deleting who i))
  | EPermissions token id perms unsent => asked now token (fun who => known ← permissions_check db who id; Ok (Permitting id perms unsent known))
  | ESso cfg flow_ok info => bound ← completeLogin cfg flow_ok db info; Ok (Sso cfg info (Looked bound))
  | _ => Throw PermissionDenied
  end.

(** A waiting handler up to its next wait. *)
Definition next (now : Z) (tk : task) (db : accounts) (uid aid : Z) (salt jti : string) : result auth_error (accounts * outcome) :=
  match tk with
  | Creating who data => create_check db who;; Ok (db, Goes (Inserting who data))
  | Inserting who data => db' ← create_insert gravatar db data uid; Ok (db', Goes (Inserted data uid))
  | Inserted data id => Ok (create_rows bcrypt_hash db data id aid salt, Ends)
  | Updating a data => db' ← update_write gravatar db a data; Ok (db', Ends)
  | Deleting who id => Ok (delete_write db id, Ends)
  | Permitting id perms unsent known => Ok (permissions_write db id perms unsent known, Ends)
  | Sso cfg info (Looked bound) => r ← ensure_account db bound info uid; Ok (r.1.1, Goes (Sso cfg info (Known r.1.2 r.2)))
  | Sso cfg info (Known u existing) => Ok (ensure_admin db u existing, Goes (Sso cfg info (Raised u)))
  | Sso cfg info (Raised u) => Ok (db, Goes (Sso cfg info (Marking u (mark_read db (u_id u)) (sso_meta info now))))
  | Sso cfg info (Marking u row m) => Ok (mark_write db (u_id u) row m aid, Goes (Sso cfg info (Marked u)))
  | Sso cfg info (Marked u) => a ← sso_token jwt_exp cfg u now jti; Ok (db, Signs (answer_token a))
  end.

Definition goes_on (n : nat) (r : result auth_error (accounts * outcome)) (w : world) : world :=
  match r with
  | Ok (db, Goes tk) => World (w_now w) db (w_issued w) (w_writes w) (w_scans w) (w_used w) (<[n:=tk]> (w_tasks w))
  | Ok (db, Ends) => World (w_now w) db (w_issued w) (w_writes w) (w_scans w) (w_used w) (delete n (w_tasks w))
  | Ok (db, Signs c) => World (w_now w) db (w_issued w ++ [c]) (w_writes w) (w_scans w) (w_used w) (delete n (w_tasks w))
  | Throw _ => World (w_now w) (w_db w) (w_issued w) (w_writes w) (w_scans w) (w_used w) (delete n (w_tasks w))
  end.

Definition act (now : Z) (e : event) (w : world) : world :=
  let db := w_db w in
  match e with
  | ECreate _ _ | EUpdate _ _ | EDelete _ _ | EPermissions _ _ _ _ | ESso _ _ _ => to_task (begun now e db) w
  | ENext n uid aid salt jti =>
      match w_tasks w !! n with Some tk => goes_on n (next now tk db uid aid salt jti) w | None => w end
  | EStartSetup token id secret => to_write (asked now token (fun who => startSetup db who id secret)) w
  | EEnable token id code drawn => to_write (asked now token (fun who => fst <$> enable bcrypt_hash verifyTotp db who id code now drawn)) w
  | EDisable token id code => to_write (asked now token (fun who => disable verifyTotp db who id code now)) w
  | ERegenerate token id code drawn => to_write (asked now token (fun who => fst <$> regenerateBackupCodes bcrypt_hash verifyTotp db who id code now drawn)) w
  | EPassword token id current secret aid salt => to_write (asked now token (fun who => setPassword bcrypt_hash bcrypt_compare db who id current secret now aid salt)) w
  | ECommit n =>
      match w_writes w !! n with
      | Some wr => World (w_now w) (commit wr db) (w_issued w) (delete n (w_writes w)) (w_scans w) (w_used w) (w_tasks w)
      | None => w
      end
  | ELogin identity secret expiry jti => to_session (getTokenFromEmail jwt_exp date_add bcrypt_compare db identity secret expiry now jti) w
  | ERefresh token expiry jti => to_session (asked now token (fun who => getFreshToken jwt_exp date_add db who expiry now jti)) w
  | EVerify challenge code =>
      match verify2FA_begin jwt_verify bcrypt_compare verifyTotp db challenge code now with
      | Ok s => World (w_now w) db (w_issued w) (w_writes w) (w_scans w ++ [s]) (w_used w) (w_tasks w)
      | Throw _ => w
      end
  | EVerified n jti =>
      match w_scans w !! n with
      | Some (id, s) =>
          let r := verify2FA_end jwt_exp date_add db id s now jti in
          to_session r.2 (World (w_now w) r.1 (w_issued w) (w_writes w) (delete n (w_scans w)) (w_used w ++ used_by db id s) (w_tasks w))
      | None => w
      end
  | ELoginAs token id jti => to_session (asked now token (fun who => loginAs jwt_exp date_add db who id now jti)) w
  end.

Definition step (now : Z) (e : event) (w : world) : world :=
  act now e (World now (w_db w) (w_issued w) (w_writes w) (w_scans w) (w_used w) (w_tasks w)).

(** A history: steps with their times. *)
Notation history := (list (Z * event)).
Definition run (es : history) (w : world) : world := foldl (fun w te => step te.1 te.2 w) w es.

(** [P] holds at every step of a history. *)
Fixpoint always (P : Z -> event -> world -> Prop) (es : history) (w : world) : Prop :=
  match es with
  | [] => True
  | (t, e) :: es => P t e w /\ always P es (step t e w)
  end.

(** ** What the world around the handlers guarantees *)

Definition token_of_event (e : event) : option string :=
  match e with
  | ECreate token _ | EUpdate token _ | EDelete token _ | EPermissions token _ _ _ | EStartSetup token _ _
  | EEnable token _ _ _ | EDisable token _ _ | ERegenerate token _ _ _ | EPassword token _ _ _ _ _ | ERefresh token _ _
  | ELoginAs token _ _ => token
  | EVerify challenge _ => Some challenge
  | _ => None
  end.

(** Nobody forges a signature: a text that verifies was signed before. *)
Definition authentic (now : Z) (e : event) (w : world) : Prop :=
  forall s t c, token_of_event e = Some s -> jwt_verify t s = Some c -> c ∈ w_issued w.

(** The clock does not go back. *)
Definition timely (now : Z) (e : event) (w : world) : Prop := w_now w <= now.

(** The ids the database gives are new. *)
Definition new_ids (now : Z) (e : event) (w : world) : Prop :=
  let auth_ids := au_id <$> t_auth (w_db w) in
  match e with
  | ENext _ uid aid _ _ => 0 < uid /\ uid ∉ (u_id <$> t_users (w_db w)) /\ uid ∉ (au_user_id <$> t_auth (w_db w)) /\ aid ∉ auth_ids
  | ECommit n => match w_writes w !! n with Some (InsertPassword aid _ _ _) => aid ∉ auth_ids | _ => True end
  | _ => True
  end.

(** * What a step changes *)

Lemma asked_Ok {A} now token (f : caller -> result auth_error A) x : asked now token f = Ok x ->
  exists who, f who = Ok x /\ (who = Anonymous \/ exists s c, token = Some s /\ load_token jwt_verify now s = Ok c /\ who = Bearer c).
Proof.
  unfold asked, caller_of. intros (who & Hw & Hf)%bind_Ok. exists who. split; [done|]. destruct token as [s|]; cbn in Hw; [|injection Hw as <-; by left].
  destruct (decide (s = "")); cbn in Hw; [injection Hw as <-; by left|]. destruct (load_token jwt_verify now s) as [c|] eqn:Hl; [|done]. injection Hw as <-. right. by exists s, c.
Qed.

(** What each kind of step leaves as it is. *)
Lemma to_session_same r w : w_now (to_session r w) = w_now w /\ w_db (to_session r w) = w_db w /\ w_writes (to_session r w) = w_writes w /\ w_scans (to_session r w) = w_scans w /\
  w_used (to_session r w) = w_used w /\ w_tasks (to_session r w) = w_tasks w.
Proof. by destruct r. Qed.

Lemma to_write_same r w : w_now (to_write r w) = w_now w /\ w_db (to_write r w) = w_db w /\ w_issued (to_write r w) = w_issued w /\ w_scans (to_write r w) = w_scans w /\
  w_used (to_write r w) = w_used w /\ w_tasks (to_write r w) = w_tasks w.
Proof. by destruct r. Qed.

Lemma to_task_same r w : w_now (to_task r w) = w_now w /\ w_db (to_task r w) = w_db w /\ w_issued (to_task r w) = w_issued w /\ w_writes (to_task r w) = w_writes w /\
  w_scans (to_task r w) = w_scans w /\ w_used (to_task r w) = w_used w.
Proof. by destruct r. Qed.

Lemma goes_on_same n r w : w_now (goes_on n r w) = w_now w /\ w_writes (goes_on n r w) = w_writes w /\ w_scans (goes_on n r w) = w_scans w /\ w_used (goes_on n r w) = w_used w.
Proof. by destruct r as [[db [tk| |c]]|]. Qed.

(** The tables after a step of a waiting handler. *)
Lemma goes_on_db n r w : w_db (goes_on n r w) = match r with Ok (db, _) => db | Throw _ => w_db w end.
Proof. by destruct r as [[db [tk| |c]]|]. Qed.

(** A step that is of none of the three kinds that write tables leaves them. *)
Lemma step_db now e w : w_db (step now e w) = w_db w \/
  (exists n uid aid salt jti tk db o, e = ENext n uid aid salt jti /\ w_tasks w !! n = Some tk /\ next now tk (w_db w) uid aid salt jti = Ok (db, o) /\ w_db (step now e w) = db) \/
  (exists n wr, e = ECommit n /\ w_writes w !! n = Some wr /\ w_db (step now e w) = commit wr (w_db w)) \/
  (exists n jti id auth hash, e = EVerified n jti /\ w_scans w !! n = Some (id, Found auth hash) /\ (consume (w_db w) auth id hash).2 = true /\
     w_db (step now e w) = (consume (w_db w) auth id hash).1).
Proof.
  unfold step. destruct e; cbn [act w_db w_writes w_scans w_issued w_used w_now w_tasks];
    try (left; match goal with
      | |- context [to_task ?r ?w] => by destruct (to_task_same r w) as (_ & H & _)
      | |- context [to_write ?r ?w] => by destruct (to_write_same r w) as (_ & H & _)
      | |- context [to_session (asked ?a ?b ?c) ?w] => by destruct (to_session_same (asked a b c) w) as (_ & H & _)
      end).
  - destruct (w_tasks w !! n) as [tk|] eqn:Hn; [|by left]. rewrite goes_on_db. destruct (next _ _ _ _ _ _ _) as [[db o]|] eqn:Hx; [|by left]. right. left. by exists n, uid, aid, salt, jti, tk, db, o.
  - destruct (w_writes w !! n) as [wr|] eqn:Hn; [|by left]. right. right. left. by exists n, wr.
  - left. match goal with |- context [to_session ?r ?w] => by destruct (to_session_same r w) as (_ & H & _) end.
  - destruct (verify2FA_begin _ _ _ _ _ _ _); by left.
  - destruct (w_scans w !! n) as [[id s]|] eqn:Hn; [|by left]. match goal with |- context [to_session ?r ?w] => destruct (to_session_same r w) as (_ & H & _); rewrite H; clear H end. cbn [w_db]. unfold verify2FA_end.
    destruct s as [| |auth hash]; [by left|by left|]. destruct (consume (w_db w) auth id hash) as [db' valid] eqn:Hc. cbn [fst]. destruct valid.
    + right. right. right. exists n, jti, id, auth, hash. by rewrite Hc.
    + left. unfold consume in Hc. destruct (bfind _ _); [destruct (decide _)|]; congruence.
Qed.

(** The handlers that wait after a step: they waited, began, or are the next part of one that waited. *)
Lemma step_tasks now e w tk : tk ∈ w_tasks (step now e w) -> tk ∈ w_tasks w \/ begun now e (w_db w) = Ok tk \/
  exists n uid aid salt jti tk0 db, e = ENext n uid aid salt jti /\ w_tasks w !! n = Some tk0 /\ next now tk0 (w_db w) uid aid salt jti = Ok (db, Goes tk) /\ w_db (step now e w) = db.
Proof.
  unfold step. destruct e; cbn [act w_db w_writes w_scans w_issued w_used w_now w_tasks];
    try (match goal with
      | |- context [to_task ?r ?w] => destruct r eqn:Hr; [|by left]; cbn; intros [H| ->%list_elem_of_singleton]%elem_of_app; [by left|by right; left]
      | |- context [to_write ?r ?w] => destruct (to_write_same r w) as (_ & _ & _ & _ & _ & H); rewrite H; by left
      | |- context [to_session (asked ?a ?b ?c) ?w] => destruct (to_session_same (asked a b c) w) as (_ & _ & _ & _ & _ & H); rewrite H; by left
      end).
  - destruct (w_tasks w !! n) as [tk0|] eqn:Hn; [|by left]. destruct (next _ _ _ _ _ _ _) as [[db [tk'| |c]]|] eqn:Hx; cbn; intros H; try (left; by eapply list_elem_of_delete_inv).
    apply list_elem_of_lookup in H as [k H]. apply list_lookup_insert_Some in H as [(<- & <- & _)|(_ & H)]; [|left; by eapply list_elem_of_lookup_2].
    right. right. by exists n, uid, aid, salt, jti, tk0, db.
  - destruct (w_writes w !! n); by left.
  - match goal with |- context [to_session ?r ?w] => destruct (to_session_same r w) as (_ & _ & _ & _ & _ & H); rewrite H; by left end.
  - destruct (verify2FA_begin _ _ _ _ _ _ _); by left.
  - destruct (w_scans w !! n) as [[id s]|]; [|by left]. match goal with |- context [to_session ?r ?w] => destruct (to_session_same r w) as (_ & _ & _ & _ & _ & H); rewrite H; by left end.
Qed.

Lemma always_app P es1 es2 w : always P (es1 ++ es2) w -> always P es1 w /\ always P es2 (run es1 w).
Proof. revert w. induction es1 as [|[t e] es1 IH]; intros w; [done|]. intros [H1 H2]. destruct (IH _ H2) as [H3 H4]. done. Qed.

Lemma step_now now e w : w_now (step now e w) = now.
Proof.
  unfold step. destruct e; cbn [act w_db w_writes w_scans w_issued w_used w_now w_tasks];
    try (match goal with
      | |- context [to_task ?r ?w] => by destruct (to_task_same r w) as (H & _)
      | |- context [to_write ?r ?w] => by destruct (to_write_same r w) as (H & _)
      | |- context [to_session ?r ?w] => by destruct (to_session_same r w) as (H & _)
      end).
  - destruct (w_tasks w !! n); [|done]. match goal with |- context [goes_on ?n ?r ?w] => by destruct (goes_on_same n r w) as (H & _) end.
  - by destruct (w_writes w !! n).
  - by destruct (verify2FA_begin _ _ _ _ _ _ _).
  - destruct (w_scans w !! n) as [[id s]|]; [|done]. match goal with |- context [to_session ?r ?w] => by destruct (to_session_same r w) as (H & _) end.
Qed.

Lemma Ok_pair {E A B} (a a' : A) (b b' : B) : Ok (E := E) (a, b) = Ok (a', b') -> a = a' /\ b = b'.
Proof. by intros [= -> ->]. Qed.

Lemma Goes_inj a b : Goes a = Goes b -> a = b.
Proof. by intros [= ->]. Qed.

(** The cases of a waiting handler that went on. *)
Ltac next_part tk Hx :=
  destruct tk as [who data|who data|data id|a data|who id|id perms unsent known|cf nf [bound|v ex|v|v row0 m0|v]]; cbn [next] in Hx;
  try (let x := fresh "x" in let Hf := fresh "Hf" in apply bind_Ok in Hx as (x & Hf & Hx)); apply Ok_pair in Hx as [<- Ho].

(** ** The sign-in rows *)

Inductive auth_change (now : Z) (e : event) (w : world) : list auth_row -> Prop :=
| auth_same : auth_change now e w (t_auth (w_db w))
| auth_created n uid aid salt jti data id secret : e = ENext n uid aid salt jti -> w_tasks w !! n = Some (Inserted data id) ->
    auth_change now e w (t_auth (w_db w) ++ [AuthRow aid id "password" secret no_meta false])
| auth_committed n wr : e = ECommit n -> w_writes w !! n = Some wr -> auth_change now e w (t_auth (commit wr (w_db w)))
| auth_consumed n jti id auth hash : e = EVerified n jti -> w_scans w !! n = Some (id, Found auth hash) -> (consume (w_db w) auth id hash).2 = true ->
    auth_change now e w (t_auth (consume (w_db w) auth id hash).1)
| auth_marked n uid aid salt jti cfg info u row m : e = ENext n uid aid salt jti -> w_tasks w !! n = Some (Sso cfg info (Marking u row m)) ->
    auth_change now e w (t_auth (mark_write (w_db w) (u_id u) row m aid)).

Lemma step_auth now e w : auth_change now e w (t_auth (w_db (step now e w))).
Proof.
  destruct (step_db now e w) as [->|[(n & uid & aid & salt & jti & tk & db & o & -> & Hn & Hx & ->)|[(n & wr & -> & Hn & ->)|(n & jti & id & auth & hash & -> & Hn & Hc & ->)]]].
  - apply auth_same.
  - next_part tk Hx; try apply auth_same.
    + apply create_insert_tables in Hf as (y & _ & _ & _ & _ & _ & ->). apply auth_same.
    + destruct (create_rows_tables bcrypt_hash (w_db w) data id aid salt) as [_ [->|[secret ->]]]; [apply auth_same|by eapply auth_created].
    + apply update_write_tables in Hf as (y & _ & _ & _ & -> & _). apply auth_same.
    + destruct x as [[db' u] ex]. apply ensure_account_spec in Hf as (_ & _ & Ha & _). cbn. rewrite Ha. apply auth_same.
    + unfold ensure_admin. destruct (_ && _); apply auth_same.
    + by eapply auth_marked.
  - by eapply auth_committed.
  - by eapply auth_consumed.
Qed.

(** ** A row keeps its id, its account and its type, and no two rows have one id *)

Definition auth_key (a : auth_row) : Z * string := (au_user_id a, au_type a).
Definition row_name (a : auth_row) : Z * (Z * string) := (au_id a, auth_key a).

Lemma update_rows_keys {A B} (key : A -> B) p f (l : list A) : (forall a, a ∈ l -> p a = true -> key (f a) = key a) -> key <$> update_rows p f l = key <$> l.
Proof.
  unfold update_rows. intros H. rewrite <- list_fmap_compose. apply list_fmap_ext. intros i x Hx. cbn. apply list_elem_of_lookup_2 in Hx.
  destruct (p x) eqn:Hp; [by apply H|done].
Qed.

Lemma row_unique l a b : NoDup (au_id <$> l) -> a ∈ l -> b ∈ l -> au_id a = au_id b -> a = b.
Proof.
  intros H1 Ha Hb He. apply list_elem_of_lookup in Ha as [i Hi]. apply list_elem_of_lookup in Hb as [j Hj]. assert (i = j) as ->; [|congruence].
  apply (NoDup_lookup _ i j (au_id a) H1); rewrite list_lookup_fmap; [by rewrite Hi|by rewrite Hj, He].
Qed.

(** The row of an account and a type, by any of the queries. *)
Lemma auth_of_spec db id type a : auth_of db id type = Some a -> a ∈ t_auth db /\ auth_key a = (id, type).
Proof. unfold auth_of. intros [H1 H2]%bfind_Some. apply andb_true_iff in H2 as [H2%Z.eqb_eq H3%bool_decide_eq_true_1]. unfold auth_key. by rewrite H2, H3. Qed.

Lemma auth_of_None db id type : auth_of db id type = None -> (id, type) ∉ auth_key <$> t_auth db.
Proof.
  unfold auth_of. intros H Hin. apply list_elem_of_fmap in Hin as (a & Hk & Ha). pose proof (bfind_None _ _ H a Ha) as Hf. unfold auth_key in Hk. injection Hk as -> ->. cbn in Hf.
  by rewrite Z.eqb_refl, bool_decide_eq_true_2 in Hf.
Qed.

Definition codes (m : auth_meta) : list string := default [] (backup_codes m).

(** The row a consumption rewrites. *)
Lemma consume_spec db auth id hash : (consume db auth id hash).2 = true -> exists fresh,
  fresh ∈ t_auth db /\ au_id fresh = au_id auth /\ auth_key fresh = (id, "password") /\ hash ∈ codes (au_meta fresh) /\
  (consume db auth id hash).1 =
    patch_auth (fun a => au_id a =? au_id auth)
      (fun a => AuthRow (au_id a) (au_user_id a) (au_type a) (au_secret a) (set_codes (bfilter (fun h => negb (bool_decide (h = hash))) (codes (au_meta fresh))) (au_meta fresh)) (au_is_deleted a)) db.
Proof.
  unfold consume. destruct (bfind _ _) as [fresh|] eqn:Hf; [|done]. destruct (decide (hash ∈ _)) as [Hin|]; [|done]. intros _. apply bfind_Some in Hf as [H1 H2].
  apply andb_true_iff in H2 as [H2 H3%bool_decide_eq_true_1]. apply andb_true_iff in H2 as [H2%Z.eqb_eq H4%Z.eqb_eq]. exists fresh. split_and!; try done. unfold auth_key. by rewrite H3, H4.
Qed.

(** Every change of the sign-in rows rewrites some and adds at most one. *)
Lemma step_rows now e w : exists p f new, t_auth (w_db (step now e w)) = update_rows p f (t_auth (w_db w)) ++ new /\
  (forall a, a ∈ t_auth (w_db w) -> p a = true -> row_name (f a) = row_name a) /\
  (new = [] \/ exists a, new = [a] /\ (new_ids now e w -> au_id a ∉ au_id <$> t_auth (w_db w))).
Proof.
  assert (forall l : list auth_row, l = update_rows (fun _ => false) id l ++ []) as Hsame by (intros l; unfold update_rows; rewrite list_fmap_id, app_nil_r; done).
  assert (forall (l : list auth_row) a, l ++ [a] = update_rows (fun _ => false) id l ++ [a]) as Hadd by (intros l a; unfold update_rows; by rewrite list_fmap_id).
  destruct (step_auth now e w) as [|n uid aid salt jti data id secret -> Hn|n wr -> Hn|n jti id auth hash -> Hn Hc|n uid aid salt jti cfg info u row m -> Hn].
  - eexists _, _, _. split_and!; [apply Hsame|done|by left].
  - eexists _, _, _. split_and!; [apply Hadd|done|]. right. eexists. split; [done|]. cbn. by intros (_ & _ & _ & H).
  - destruct wr as [b m|b s m|aid id s m]; cbn [commit patch_auth add_auth t_auth].
    + eexists _, _, []. split_and!; [symmetry; apply app_nil_r|done|by left].
    + eexists _, _, []. split_and!; [symmetry; apply app_nil_r| |by left]. intros a _ [_ Hp%bool_decide_eq_true_1]%andb_true_iff. unfold row_name, auth_key. cbn. by rewrite Hp.
    + eexists _, _, _. split_and!; [apply Hadd|done|]. right. eexists. split; [done|]. cbn. by rewrite Hn.
  - destruct (consume_spec _ _ _ _ Hc) as (fresh & _ & _ & _ & _ & ->). eexists _, _, []. split_and!; [symmetry; apply app_nil_r|done|by left].
  - destruct row as [r|]; cbn [mark_write patch_auth add_auth t_auth].
    + eexists _, _, []. split_and!; [symmetry; apply app_nil_r|done|by left].
    + eexists _, _, _. split_and!; [apply Hadd|done|]. right. eexists. split; [done|]. cbn. by intros (_ & _ & _ & H).
Qed.

Lemma step_names now e w : (row_name <$> t_auth (w_db w)) ⊆ (row_name <$> t_auth (w_db (step now e w))).
Proof.
  destruct (step_rows now e w) as (p & f & new & -> & Hf & _). rewrite fmap_app, (update_rows_keys row_name p f) by done. set_solver.
Qed.

Lemma step_ids now e w : new_ids now e w -> NoDup (au_id <$> t_auth (w_db w)) -> NoDup (au_id <$> t_auth (w_db (step now e w))).
Proof.
  intros Hids Hok. destruct (step_rows now e w) as (p & f & new & -> & Hf & Hnew). rewrite fmap_app, (update_rows_keys au_id p f).
  - destruct Hnew as [->|(a & -> & Ha)]; [by rewrite app_nil_r|]. apply NoDup_app. split_and!; [done| |apply NoDup_singleton].
    intros x Hx ->%list_elem_of_singleton. by apply (Ha Hids).
  - intros a Ha Hp. pose proof (Hf a Ha Hp) as H. by injection H.
Qed.

(** ** The sign-ins that are about to mark an account *)

(** The row that was read is a row of the account for its identity. *)
Definition marks_ok (w : world) : Prop := forall cfg info u row m, Sso cfg info (Marking u row m) ∈ w_tasks w ->
  (exists t, m = sso_meta info t) /\ forall r, row = Some r -> (au_id r, (u_id u, "oidc")) ∈ row_name <$> t_auth (w_db w).

(** The ids of rows are unique, and a sign-in marks the row it read. *)
Definition rows_ok (w : world) : Prop := NoDup (au_id <$> t_auth (w_db w)) /\ marks_ok w.

Lemma begun_marks now e db cfg info u row m : begun now e db <> Ok (Sso cfg info (Marking u row m)).
Proof.
  destruct e; cbn; try done; intros H; try (apply asked_Ok in H as (who & H & _); ok_steps; done). ok_steps. done.
Qed.

Lemma step_rows_ok now e w : new_ids now e w -> rows_ok w -> rows_ok (step now e w).
Proof.
  intros Hids [Hok Hm]. split; [by apply step_ids|]. intros cfg info u row m Hin. pose proof (step_names now e w) as Hn.
  apply step_tasks in Hin as [Hin|[Hin|(n & uid & aid & salt & jti & tk & db & -> & Htk & Hx & _)]]; [|by apply begun_marks in Hin|].
  - destruct (Hm _ _ _ _ _ Hin) as [H1 H2]. split; [done|]. intros r Hr. by apply Hn, H2.
  - next_part tk Hx; try done. injection Ho as <- <- <- <- <-. split; [by eexists|]. intros r Hr. apply Hn. apply auth_of_spec in Hr as [Hr1 Hr2]. apply list_elem_of_fmap. exists r. split; [|done]. unfold row_name. by rewrite Hr2.
Qed.

Lemma marked_row w cfg info u r m a : rows_ok w -> Sso cfg info (Marking u (Some r) m) ∈ w_tasks w -> a ∈ t_auth (w_db w) -> au_id a = au_id r -> auth_key a = (u_id u, "oidc").
Proof.
  intros [Hok Hm] Hin Ha He. destruct (Hm _ _ _ _ _ Hin) as [_ H]. specialize (H r eq_refl). apply list_elem_of_fmap in H as (b & Hb & Hin'). injection Hb as Hb1 Hb2 Hb3.
  assert (a = b) as -> by (apply (row_unique (t_auth (w_db w))); [done..|congruence]). unfold auth_key. congruence.
Qed.

(** ** The writes under way *)

Inductive new_write (now : Z) (w : world) : write -> Prop :=
| new_meta b m : auth_of (w_db w) (au_user_id b) "password" = Some b -> password_changed_at m = password_changed_at (au_meta b) -> new_write now w (PatchMeta b m)
| new_password b s : auth_of (w_db w) (au_user_id b) "password" = Some b -> new_write now w (PatchPassword b s (changed now (au_meta b)))
| new_insert aid id s : auth_of (w_db w) id "password" = None -> new_write now w (InsertPassword aid id s (changed now no_meta)).

Lemma password_auth_Ok db id a : getUserPasswordAuth db id = Ok a -> auth_of db id "password" = Some a /\ au_user_id a = id.
Proof.
  unfold getUserPasswordAuth. destruct (auth_of db id "password") as [b|] eqn:Hb; [|done]. intros [= ->]. split; [done|]. apply auth_of_spec in Hb as [_ Hk]. by injection Hk as -> _.
Qed.

Lemma to_write_writes r w wr : wr ∈ w_writes (to_write r w) -> wr ∈ w_writes w \/ r = Ok wr.
Proof. destruct r; cbn; [|by left]. intros [H|H%list_elem_of_singleton]%elem_of_app; [by left|]. subst. by right. Qed.

Ltac auth_row_read :=
  match goal with H : getUserPasswordAuth _ _ = Ok _ |- _ => apply password_auth_Ok in H as [?Hrow <-] end.

(** The writes after a step but a commit: those before, and one that begins. *)
Lemma step_writes now e w wr : wr ∈ w_writes (step now e w) -> wr ∈ w_writes w \/ new_write now w wr.
Proof.
  unfold step. destruct e; cbn [act w_db w_writes w_scans w_issued w_used w_now w_tasks];
    try (match goal with
      | |- context [to_task ?r ?w] => destruct (to_task_same r w) as (_ & _ & _ & H & _); rewrite H; by left
      | |- context [to_session ?r ?w] => destruct (to_session_same r w) as (_ & _ & H & _); rewrite H; by left
      end).
  - destruct (w_tasks w !! n); [|by left]. match goal with |- context [goes_on ?n ?r ?w] => destruct (goes_on_same n r w) as (_ & H & _); rewrite H; by left end.
  - intros [H|H]%to_write_writes; [by left|right]. apply asked_Ok in H as (who & H & _). unfold startSetup in H. ok_steps. auth_row_read. by apply new_meta.
  - intros [H|H]%to_write_writes; [by left|right]. apply asked_Ok in H as (who & H & _). destruct (enable _ _ _ _ _ _ _ _) as [[wr' ?]|] eqn:He; [|done]. injection H as <-.
    unfold enable, generateBackupCodes in He. ok_steps. destruct (truthy_text _); [|done]. ok_steps. auth_row_read. by apply new_meta.
  - intros [H|H]%to_write_writes; [by left|right]. apply asked_Ok in H as (who & H & _). unfold disable in H. ok_steps. auth_row_read. by apply new_meta.
  - intros [H|H]%to_write_writes; [by left|right]. apply asked_Ok in H as (who & H & _). destruct (regenerateBackupCodes _ _ _ _ _ _ _ _) as [[wr' ?]|] eqn:He; [|done]. injection H as <-.
    unfold regenerateBackupCodes, generateBackupCodes in He. ok_steps. destruct (truthy_text _); [|done]. ok_steps. auth_row_read. by apply new_meta.
  - intros [H|H]%to_write_writes; [by left|right]. apply asked_Ok in H as (who & H & _). unfold setPassword in H.
    apply bind_Ok in H as (_ & _ & H). apply bind_Ok in H as (u & _ & H). apply bind_Ok in H as (_ & _ & H). apply bind_Ok in H as (_ & _ & H). injection H as <-.
    destruct (auth_of (w_db w) (u_id u) "password") as [b|] eqn:Hb; [|by apply new_insert]. pose proof (auth_of_spec _ _ _ _ Hb) as [_ Hk]. injection Hk as Hk _. apply new_password. by rewrite Hk.
  - destruct (w_writes w !! n) as [wr'|]; [|by left]. cbn. intros H. left. by apply list_elem_of_delete_inv in H.
  - destruct (verify2FA_begin _ _ _ _ _ _ _); by left.
  - destruct (w_scans w !! n) as [[id s]|]; [|by left]. match goal with |- context [to_session ?r ?w] => destruct (to_session_same r w) as (_ & _ & H & _); rewrite H; by left end.
Qed.

(** * Backup codes *)

(** The hashes of new codes are no hashes of codes that were consumed: each has its own salt. *)
Definition new_salts (now : Z) (e : event) (w : world) : Prop :=
  match e with
  | ECommit n =>
      match w_writes w !! n with
      | Some (PatchMeta b m) => forall h i, h ∈ codes m -> h ∈ codes (au_meta b) \/ (i, h) ∉ w_used w
      | _ => True
      end
  | _ => True
  end.

(** No code of an account is consumed or replaced between a handler's read of the row and its write. *)
Definition codes_kept (now : Z) (e : event) (w : world) : Prop :=
  match e with
  | ECommit n =>
      match w_writes w !! n with
      | Some (PatchMeta b _ | PatchPassword b _ _) =>
          forall a, a ∈ t_auth (w_db w) -> auth_key a = (au_user_id b, "password") -> codes (au_meta a) = codes (au_meta b)
      | _ => True
      end
  | _ => True
  end.

(** Only a write of [2fa.js] brings codes. *)
Definition brings_codes (wr : write) : Prop :=
  match wr with PatchMeta _ _ => True | PatchPassword b _ m => codes m = codes (au_meta b) | InsertPassword _ _ _ m => codes m = [] end.

(** What was consumed is in no row any more. *)
Definition codes_spent (w : world) : Prop :=
  rows_ok w /\ NoDup (w_used w) /\ Forall brings_codes (w_writes w) /\
  (forall a h, a ∈ t_auth (w_db w) -> (au_id a, h) ∈ w_used w -> h ∉ codes (au_meta a)) /\
  forall i h, (i, h) ∈ w_used w -> i ∈ au_id <$> t_auth (w_db w).

Lemma step_used now e w : w_used (step now e w) = w_used w \/
  exists n jti id auth hash, e = EVerified n jti /\ w_scans w !! n = Some (id, Found auth hash) /\ (consume (w_db w) auth id hash).2 = true /\
  w_used (step now e w) = w_used w ++ [(au_id auth, hash)] /\ w_db (step now e w) = (consume (w_db w) auth id hash).1.
Proof.
  unfold step. destruct e; cbn [act w_db w_writes w_scans w_issued w_used w_now w_tasks];
    try (match goal with
      | |- context [to_task ?r ?w] => destruct (to_task_same r w) as (_ & _ & _ & _ & _ & H); rewrite H; by left
      | |- context [to_write ?r ?w] => destruct (to_write_same r w) as (_ & _ & _ & _ & H & _); rewrite H; by left
      | |- context [to_session ?r ?w] => destruct (to_session_same r w) as (_ & _ & _ & _ & H & _); rewrite H; by left
      end).
  - left. destruct (w_tasks w !! n); [|done]. match goal with |- context [goes_on ?n ?r ?w] => by destruct (goes_on_same n r w) as (_ & _ & _ & H) end.
  - left. by destruct (w_writes w !! n).
  - left. by destruct (verify2FA_begin _ _ _ _ _ _ _).
  - destruct (w_scans w !! n) as [[id s]|] eqn:Hn; [|by left]. match goal with |- context [to_session ?r ?w] => destruct (to_session_same r w) as (_ & H1 & _ & _ & H2 & _); rewrite H1, H2 end.
    cbn [w_used w_db]. destruct s as [| |auth hash]; [left; apply app_nil_r|left; apply app_nil_r|]. cbn [used_by]. destruct (consume (w_db w) auth id hash).2 eqn:Hc; [|left; apply app_nil_r].
    right. exists n, jti, id, auth, hash. split_and!; try done. unfold verify2FA_end. by destruct (consume (w_db w) auth id hash).
Qed.

(** The rows after a step hold none of the codes consumed before it. *)
Lemma step_old_codes now e w : codes_kept now e w -> new_salts now e w -> codes_spent w ->
  forall a h, a ∈ t_auth (w_db (step now e w)) -> (au_id a, h) ∈ w_used w -> h ∉ codes (au_meta a).
Proof.
  intros Hkept Hsalt (Hok & Hnd & Hwr & Hsp & Hur) a h.
  assert (forall b, codes (au_meta b) = [] -> a ∈ t_auth (w_db w) ++ [b] -> (au_id a, h) ∈ w_used w -> h ∉ codes (au_meta a)) as Hadd.
  { intros b Hb [Ha| ->%list_elem_of_singleton]%elem_of_app; [by apply Hsp|]. rewrite Hb. intros _ []%elem_of_nil. }
  destruct (step_auth now e w) as [|n uid aid salt jti data id secret -> Hn|n wr -> Hn|n jti id auth hash -> Hn Hc|n uid aid salt jti cfg info u row m -> Hn].
  - apply Hsp.
  - by apply Hadd.
  - cbn in Hkept, Hsalt. rewrite Hn in Hkept, Hsalt. rewrite Forall_forall in Hwr. pose proof (Hwr wr (list_elem_of_lookup_2 _ _ _ Hn)) as Hb.
    destruct wr as [b m|b s m|aid id s m]; cbn [commit patch_auth add_auth t_auth brings_codes] in *; [| |by apply Hadd].
    + intros (y & Hy & ->)%elem_of_update_rows. destruct (_ && _) eqn:Hp; [|by apply Hsp]. cbn [au_id au_meta].
      apply andb_true_iff in Hp as [Hp Hp3%bool_decide_eq_true_1]. apply andb_true_iff in Hp as [Hp1%Z.eqb_eq Hp2%Z.eqb_eq].
      assert (codes (au_meta y) = codes (au_meta b)) as He by (apply Hkept; [done|]; unfold auth_key; by rewrite Hp2, Hp3).
      intros Hu Hin. destruct (Hsalt h (au_id y) Hin) as [H|H]; [|done]. rewrite <- He in H. by apply (Hsp y h).
    + intros (y & Hy & ->)%elem_of_update_rows. destruct (_ && _) eqn:Hp; [|by apply Hsp]. cbn [au_id au_meta].
      apply andb_true_iff in Hp as [Hp1%Z.eqb_eq Hp2%bool_decide_eq_true_1].
      assert (codes (au_meta y) = codes (au_meta b)) as He by (apply Hkept; [done|]; unfold auth_key; by rewrite Hp1, Hp2). intros Hu. rewrite Hb, <- He. by apply Hsp.
  - destruct (consume_spec _ _ _ _ Hc) as (fresh & Hf1 & Hf2 & Hf3 & Hf4 & ->). cbn [patch_auth t_auth]. intros (y & Hy & ->)%elem_of_update_rows.
    destruct (au_id y =? au_id auth) eqn:Hp; [|by apply Hsp]. cbn [au_id au_meta]. apply Z.eqb_eq in Hp. assert (y = fresh) as -> by (apply (row_unique (t_auth (w_db w))); [apply Hok|done..|congruence]).
    intros Hu Hin. unfold codes, set_codes in Hin. cbn in Hin. apply elem_of_bfilter in Hin as [Hin _]. by apply (Hsp fresh h).
  - assert (codes m = []) as Hm by (destruct Hok as [_ Hm]; apply list_elem_of_lookup_2, Hm in Hn as [[t ->] _]; done).
    destruct row as [r|]; cbn [mark_write patch_auth add_auth t_auth]; [|by apply Hadd].
    intros (y & Hy & ->)%elem_of_update_rows. destruct (_ =? _); [|by apply Hsp]. cbn [au_meta]. rewrite Hm. intros _ []%elem_of_nil.
Qed.

Lemma step_spent now e w : new_ids now e w -> codes_kept now e w -> new_salts now e w -> codes_spent w -> codes_spent (step now e w).
Proof.
  intros Hids Hkept Hsalt Hinv. pose proof (step_old_codes now e w Hkept Hsalt Hinv) as Hold. destruct Hinv as (Hok & Hnd & Hwr & Hsp & Hur).
  assert ((au_id <$> t_auth (w_db w)) ⊆ (au_id <$> t_auth (w_db (step now e w)))) as Hgrow.
  { intros i (a & -> & Ha)%list_elem_of_fmap. pose proof (step_names now e w (row_name a) (list_elem_of_fmap_2 _ _ _ Ha)) as (b & Hb & Hin)%list_elem_of_fmap.
    injection Hb as -> _ _. by apply list_elem_of_fmap_2. }
  split; [by apply step_rows_ok|].
  assert (Forall brings_codes (w_writes (step now e w))) as Hwr'.
  { apply Forall_forall. intros wr Hin. apply step_writes in Hin as [Hin|Hin]; [rewrite Forall_forall in Hwr; by apply Hwr|]. by destruct Hin. }
  destruct (step_used now e w) as [Hus|(n & jti & id & auth & hash & -> & Hn & Hc & Hus & Hdb)].
  { rewrite Hus. split_and!; [done..|]. intros i h Hin. by apply Hgrow, (Hur i h). }
  pose proof (consume_spec _ _ _ _ Hc) as (fresh & Hf1 & Hf2 & Hf3 & Hf4 & Hcons). rewrite Hus. split_and!; [|done| |].
  - apply NoDup_app. split_and!; [done| |apply NoDup_singleton]. intros x Hx ->%list_elem_of_singleton. rewrite <- Hf2 in Hx. by apply (Hsp fresh hash).
  - intros a h Ha [Hin|Hin%list_elem_of_singleton]%elem_of_app; [by apply Hold|]. injection Hin as Hi ->.
    rewrite Hdb, Hcons in Ha. cbn [patch_auth t_auth] in Ha. apply elem_of_update_rows in Ha as (y & Hy & ->). destruct (au_id y =? au_id auth) eqn:Hp.
    + unfold codes, set_codes. cbn. intros [_ H]%elem_of_bfilter. by rewrite bool_decide_eq_true_2 in H.
    + apply Z.eqb_neq in Hp. done.
  - intros i h [Hin|Hin%list_elem_of_singleton]%elem_of_app; [by apply Hgrow, (Hur i h)|]. injection Hin as -> _. apply Hgrow. rewrite <- Hf2. by apply list_elem_of_fmap_2.
Qed.

(** C13. A backup code signs in at most once, in every history in which no code of an account is
    consumed or replaced between the moment a handler reads the sign-in row and the moment it
    writes it back. Checks and consumptions may overlap, and new codes have new salts. *)
Theorem codes_are_single_use es w : rows_ok w -> w_writes w = [] -> w_used w = [] ->
  always new_ids es w -> always codes_kept es w -> always new_salts es w -> NoDup (w_used (run es w)).
Proof.
  intros Hok Hwr Hus. assert (codes_spent w) as H1.
  { split_and!; [done|rewrite Hus; constructor|by rewrite Hwr| |]; rewrite Hus; [intros a h _ []%elem_of_nil|intros i h []%elem_of_nil]. }
  clear Hok Hwr Hus. revert w H1. unfold run. induction es as [|[t e] es IH]; intros w H1; [by intros _ _ _; apply H1|]. cbn [always foldl fst snd]. intros [Hi Hi'] [Hu Hu'] [Hs Hs'].
  apply IH; [by apply step_spent|done..].
Qed.

(** * Where sessions come from *)

(** The account a password is right for. *)
Definition password_at (now : Z) (e : event) (w : world) (id : Z) (auth : auth_row) : Prop :=
  exists identity secret expiry jti u, e = ELogin identity secret expiry jti /\
    u ∈ t_users (w_db w) /\ u_id u = id /\ u_email u = trim (to_lower identity) /\ u_is_deleted u = false /\ u_is_disabled u = false /\
    auth_of (w_db w) id "password" = Some auth /\ bcrypt_compare secret (au_secret auth) = true.

(** A code that is right for an account: of its secret now, or one of its backup codes. *)
Definition code_at (now : Z) (e : event) (w : world) (id : Z) : Prop :=
  exists challenge code auth secret, e = EVerify challenge code /\ auth_of (w_db w) id "password" = Some auth /\ totp_secret (au_meta auth) = Some secret /\
    (verifyTotp secret code now = Some true \/ exists hash, hash ∈ codes (au_meta auth) /\ bcrypt_compare (to_upper code) hash = true).

(** An admin, by a token of a live account. *)
Definition admin_token (db : accounts) (c : claims) : Prop :=
  exists a, active_user db (c_id c) = Some a /\ "admin" ∈ u_roles a /\ "user" ∈ c_scope c /\ assertTokenNotRevoked db (c_id c) (c_iat c) = Ok tt.

Definition admin_at (now : Z) (e : event) (w : world) (id : Z) : Prop :=
  exists s jti c, e = ELoginAs (Some s) id jti /\ load_token jwt_verify now s = Ok c /\ admin_token (w_db w) c.

(** A member of the group comes back from the provider, and the binding of the identity is looked up. *)
Definition member_at (cfg : oidc_config) (info : jsval) (bound : option user) (now : Z) (e : event) (w : world) : Prop :=
  e = ESso cfg true info /\ to_lower (oc_required_group cfg) ∈ groupsFrom info (oc_groups_claim cfg) /\ bound = bound_user (w_db w) (claim info "sub").

(** The account of this sign-in is the bound one, one found by its address, or new. *)
Definition known_at (cfg : oidc_config) (info : jsval) (bound : option user) (id : Z) (now : Z) (e : event) (w : world) : Prop :=
  exists n uid aid salt jti u existing, e = ENext n uid aid salt jti /\ w_tasks w !! n = Some (Sso cfg info (Looked bound)) /\
    sso_account (w_db w) bound info uid u existing /\ u_id u = id.

(** Its session is signed, for a lifetime. *)
Definition sso_at (cfg : oidc_config) (info : jsval) (id lifetime : Z) (now : Z) (e : event) (w : world) : Prop :=
  exists n uid aid salt jti u, e = ENext n uid aid salt jti /\ w_tasks w !! n = Some (Sso cfg info (Marked u)) /\ u_id u = id /\ expirySeconds (oc_expiry cfg) = Some lifetime.

Lemma active_user_spec db id u : active_user db id = Some u -> u ∈ t_users db /\ u_id u = id /\ u_is_deleted u = false /\ u_is_disabled u = false.
Proof.
  unfold active_user. intros [H1 H2]%bfind_Some. apply andb_true_iff in H2 as [H2 H4%negb_true_iff]. apply andb_true_iff in H2 as [H2%Z.eqb_eq H3%negb_true_iff]. done.
Qed.

Lemma can_admin db c permission data : permission_rule permission = Some AdminOnly -> can (open_access db (Bearer c)) permission data = Ok tt -> admin_token db c.
Proof.
  intros Hr. unfold can, open_access. cbn [ac_who ac_init]. rewrite Hr. unfold access_init. destruct (_ || _) eqn:Hc; [|done].
  destruct (active_user db (c_id c)) as [u|] eqn:Hu; [|done]. pose proof (active_user_spec _ _ _ Hu) as (_ & Hid & _).
  destruct (throw_if _ InvalidScope); cbn; [|done]. destruct (assertTokenNotRevoked db (u_id u) (c_iat c)) as [[]|] eqn:Ht; cbn; [|done].
  destruct (permissions_of db (u_id u)) as [p|]; [|done]. intros H. apply throw_if_Ok, negb_false_iff in H. cbn in H. unfold is_admin in H.
  apply andb_true_iff in H as [H1%bool_decide_eq_true_1 H2%bool_decide_eq_true_1]. exists u. rewrite <- Hid at 2. split_and!; try done.
  apply elem_of_app in H2 as [H2|H2]; [done|]. by apply list_elem_of_singleton in H2.
Qed.

Lemma create_token_Ok now iss id sso scope lifetime jti c : create_token jwt_exp now iss id sso scope lifetime jti = Ok c ->
  c_id c = id /\ c_sso_exp c = sso /\ c_scope c = scope /\ c_iat c = now / 1000 /\ jwt_exp (now / 1000) lifetime = Some (c_exp c).
Proof. unfold create_token. destruct (jwt_exp _ lifetime) as [x|] eqn:He; [|done]. intros [= <-]. done. Qed.

Lemma user_session_Ok now iss id expiry jti a : user_session jwt_exp date_add now iss id expiry jti = Ok a -> exists c m, a = Session c m /\ c_id c = id /\ c_scope c = ["user"] /\ c_sso_exp c = None.
Proof.
  unfold user_session. destruct (parse_period expiry) as [[n unit]|]; [|done]. intros H. ok_steps. exists x, (date_add now n unit). apply create_token_Ok in H as (? & ? & ? & _). done.
Qed.

Lemma to_session_issued r w c : c ∈ w_issued (to_session r w) -> c ∈ w_issued w \/ exists a, r = Ok a /\ answer_token a = c.
Proof. destruct r as [a|]; cbn; [|by left]. intros [H|H%list_elem_of_singleton]%elem_of_app; [by left|]; subst; right; by eexists. Qed.

(** The token that is refreshed, and what the new one keeps of it. *)
Definition refresh_at (now : Z) (e : event) (w : world) (c : claims) : Prop :=
  exists s expiry jti t a, e = ERefresh (Some s) expiry jti /\ load_token jwt_verify now s = Ok t /\
    getFreshToken jwt_exp date_add (w_db w) (Bearer t) expiry now jti = Ok a /\ answer_token a = c.

Inductive issues (now : Z) (e : event) (w : world) (c : claims) : Prop :=
| by_password auth : password_at now e w (c_id c) auth -> c_sso_exp c = None ->
    c_scope c = (if totp_enabled (au_meta auth) then ["2fa-challenge"] else ["user"]) -> issues now e w c
| by_refresh : refresh_at now e w c -> issues now e w c
| by_code n jti s : e = EVerified n jti -> w_scans w !! n = Some (c_id c, s) -> s <> Wrong -> c_scope c = ["user"] -> c_sso_exp c = None -> issues now e w c
| by_admin : admin_at now e w (c_id c) \/ (exists s jti, e = ELoginAs (Some s) 0 jti) -> c_scope c = ["user"] -> c_sso_exp c = None -> issues now e w c
| by_sso cfg info lifetime : sso_at cfg info (c_id c) lifetime now e w -> c_scope c = ["user"] -> c_sso_exp c = Some ((now + lifetime * 1000) / 1000) ->
    jwt_exp (now / 1000) (Seconds lifetime) = Some (c_exp c) -> issues now e w c.

Lemma step_issued now e w c : c ∈ w_issued (step now e w) -> c ∈ w_issued w \/ issues now e w c.
Proof.
  unfold step. destruct e; cbn [act w_db w_writes w_scans w_issued w_used w_now w_tasks];
    try (match goal with
      | |- context [to_task ?r ?w] => destruct (to_task_same r w) as (_ & _ & H & _); rewrite H; by left
      | |- context [to_write ?r ?w] => destruct (to_write_same r w) as (_ & _ & H & _); rewrite H; by left
      end).
  - destruct (w_tasks w !! n) as [tk|] eqn:Hn; [|by left]. destruct (next _ _ _ _ _ _ _) as [[db [tk'| |d]]|] eqn:Hx; cbn; try by left.
    intros [H|H%list_elem_of_singleton]%elem_of_app; [by left|right]. subst d. next_part tk Hx; try done. injection Ho as <-. unfold sso_token in Hf.
    destruct (expirySeconds (oc_expiry cf)) as [lifetime|] eqn:Hx; [|done]. ok_steps. cbn [answer_token].
    apply create_token_Ok in H as (H1 & H2 & H3 & _ & H4). apply (by_sso now _ w _ cf nf lifetime); [|done..]. by exists n, uid, aid, salt, jti, v.
  - destruct (w_writes w !! n); by left.
  - intros [H|(a & H & <-)]%to_session_issued; [by left|right]. unfold getTokenFromEmail in H. destruct (bfind _ _) as [u|] eqn:Hu; [|done].
    apply bfind_Some in Hu as [Hin Hu]. apply andb_true_iff in Hu as [Hu Hd%negb_true_iff]. apply andb_true_iff in Hu as [Hu%bool_decide_eq_true_1 Hx%negb_true_iff].
    destruct (auth_of (w_db w) (u_id u) "password") as [auth|] eqn:Ha; [|done]. apply bind_Ok in H as (_ & Hv%throw_if_Ok%negb_false_iff & H).
    assert (c_id (answer_token a) = u_id u -> password_at now (ELogin identity secret expiry jti) w (c_id (answer_token a)) auth) as Hp.
    { intros ->. by exists identity, secret, expiry, jti, u. }
    destruct (totp_enabled (au_meta auth)) eqn:Ht.
    + ok_steps. apply create_token_Ok in H as (H1 & H2 & H3 & _). eapply by_password; [by apply Hp|done|by rewrite Ht].
    + apply user_session_Ok in H as (c & m & -> & H1 & H2 & H3). eapply by_password; [by apply Hp|done|by rewrite Ht].
  - intros [H|(a & H & <-)]%to_session_issued; [by left|right]. apply asked_Ok in H as (who & H & Hw). apply by_refresh. destruct Hw as [->|(s & t & -> & Hl & ->)]; [done|]. by exists s, expiry, jti, t, a.
  - destruct (verify2FA_begin _ _ _ _ _ _ _); by left.
  - destruct (w_scans w !! n) as [[id s]|] eqn:Hn; [|by left]. intros [H|(a & H & <-)]%to_session_issued; [by left|right]. unfold verify2FA_end in H.
    assert (s <> Wrong /\ exists c m, a = Session c m /\ c_id c = id /\ c_scope c = ["user"] /\ c_sso_exp c = None) as (Hs & c & m & -> & Hid & H1 & H2).
    { destruct s as [| |auth hash]; [done|split; [done|by eapply user_session_Ok]|]. destruct (consume (w_db w) auth id hash) as [db' []]; [|done]. split; [done|by eapply user_session_Ok]. }
    cbn [answer_token]. eapply by_code; [done| |done..]. by rewrite Hid.
  - intros [H|(a & H & <-)]%to_session_issued; [by left|right]. apply asked_Ok in H as (who & H & Hw). unfold loginAs, getTokenFromUser in H.
    apply bind_Ok in H as ([] & Hcan & H). apply bind_Ok in H as (u & Hg & H). apply bind_Ok in H as (? & Hd & H). apply user_session_Ok in H as (c & m & -> & Hid & H1 & H2). cbn [answer_token].
    destruct Hw as [->|(s & t & -> & Hl & ->)]; [done|]. apply by_admin; [|done..]. apply get_user_live in Hg as (i & Hlv & Hi). apply live_user_spec in Hlv as (_ & Hlv & _).
    destruct (decide (id = 0)) as [->|Hne]; [right; by eexists _, _|left]. rewrite (Hi Hne) in Hlv. exists s, jti, t. rewrite Hid, Hlv. split_and!; [done|done|]. by apply (can_admin _ _ "users:loginas" id).
Qed.

(** The checks of codes under way. *)
Lemma step_scans now e w id s : (id, s) ∈ w_scans (step now e w) -> (id, s) ∈ w_scans w \/
  exists challenge code t, e = EVerify challenge code /\ load_token jwt_verify now challenge = Ok t /\ head (c_scope t) = Some "2fa-challenge" /\ c_id t = id /\
    assertTokenNotRevoked (w_db w) id (c_iat t) = Ok tt /\ verifyForLogin bcrypt_compare verifyTotp (w_db w) id code now = Ok s.
Proof.
  unfold step. destruct e; cbn [act w_db w_writes w_scans w_issued w_used w_now w_tasks];
    try (match goal with
      | |- context [to_task ?r ?w] => destruct (to_task_same r w) as (_ & _ & _ & _ & H & _); rewrite H; by left
      | |- context [to_write ?r ?w] => destruct (to_write_same r w) as (_ & _ & _ & H & _); rewrite H; by left
      | |- context [to_session ?r ?w] => destruct (to_session_same r w) as (_ & _ & _ & H & _); rewrite H; by left
      end).
  - destruct (w_tasks w !! n); [|by left]. match goal with |- context [goes_on ?n ?r ?w] => destruct (goes_on_same n r w) as (_ & _ & H & _); rewrite H; by left end.
  - destruct (w_writes w !! n); by left.
  - unfold verify2FA_begin. destruct (load_token jwt_verify now challenge) as [t|] eqn:Hl; [|by left]. destruct (_;; _) as [x|] eqn:Hb; [|by left].
    cbn [w_scans]. intros [H|H%list_elem_of_singleton]%elem_of_app; [by left|right]. subst x.
    apply bind_Ok in Hb as (_ & Hs%throw_if_Ok%negb_false_iff%bool_decide_eq_true_1 & Hb). apply bind_Ok in Hb as (? & Hid & Hb).
    destruct (assertTokenNotRevoked (w_db w) (c_id t) (c_iat t)) as [[]|] eqn:Hr; [|done]. apply bind_Ok in Hb as (s' & Hv & Hb). injection Hb as Hi ->.
    exists challenge, code, t. rewrite <- Hi. done.
  - destruct (w_scans w !! n) as [[id' s']|]; [|by left]. match goal with |- context [to_session ?r ?w] => destruct (to_session_same r w) as (_ & _ & _ & H & _); rewrite H; clear H end. cbn [w_scans]. intros H. left. by eapply list_elem_of_delete_inv.
Qed.

(** ** The moments of a history *)

Notation moment_of := (Z * event * world)%type.

Fixpoint trace (es : history) (w : world) : list moment_of :=
  match es with [] => [] | (t, e) :: es => (t, e, w) :: trace es (step t e w) end.

(** What holds at the start and is kept by every step, with the moments so far, holds at the end. *)
Lemma trace_invariant (Inv : list moment_of -> world -> Prop) (P : Z -> event -> world -> Prop) es w :
  Inv [] w -> (forall l t e w, Inv l w -> P t e w -> Inv (l ++ [(t, e, w)]) (step t e w)) -> always P es w -> Inv (trace es w) (run es w).
Proof.
  intros H0 Hs. assert (forall l w, Inv l w -> always P es w -> Inv (l ++ trace es w) (run es w)) as H by (
    induction es as [|[t e] es IH]; intros l v Hl; [intros _; cbn; by rewrite app_nil_r|]; intros [Hp Ha]; cbn [trace];
    replace (l ++ (t, e, v) :: trace es (step t e v)) with ((l ++ [(t, e, v)]) ++ trace es (step t e v)) by (by rewrite <- app_assoc); apply IH; [by apply Hs|done]).
  intros Ha. by apply (H [] w).
Qed.

Definition happened (l : list moment_of) (P : Z -> event -> world -> Prop) : Prop := exists t e w, (t, e, w) ∈ l /\ P t e w.

Lemma happened_app l m P : happened l P -> happened (l ++ m) P.
Proof. intros (t & e & w & Hin & Hp). exists t, e, w. split; [|done]. apply elem_of_app. by left. Qed.

Lemma happened_last l t e w (P : Z -> event -> world -> Prop) : P t e w -> happened (l ++ [(t, e, w)]) P.
Proof. intros Hp. exists t, e, w. split; [|done]. apply elem_of_app. right. left. Qed.

(** The right password, at one moment, and after it the right code. *)
Definition both_factors (l : list moment_of) (id : Z) : Prop :=
  exists l1 l2, l = l1 ++ l2 /\ happened l1 (fun t e w => exists auth, password_at t e w id auth) /\ happened l2 (fun t e w => code_at t e w id).

Lemma both_factors_app l m id : both_factors l id -> both_factors (l ++ m) id.
Proof. intros (l1 & l2 & -> & H1 & H2). exists l1, (l2 ++ m). rewrite app_assoc. split; [done|]. split; [done|by apply happened_app]. Qed.

(** A member of the group came back from the provider, and after it the account was found. *)
Definition member_known (l : list moment_of) (cfg : oidc_config) (info : jsval) (id : Z) : Prop :=
  exists l1 l2 bound, l = l1 ++ l2 /\ happened l1 (member_at cfg info bound) /\ happened l2 (known_at cfg info bound id).

Lemma member_known_app l m cfg info id : member_known l cfg info id -> member_known (l ++ m) cfg info id.
Proof. intros (l1 & l2 & b & -> & H1 & H2). exists l1, (l2 ++ m), b. rewrite app_assoc. split; [done|]. split; [done|by apply happened_app]. Qed.

(** A sign-in over the provider by a member of the group, its session signed at a time for a lifetime. *)
Definition over_provider (l : list moment_of) (id t lifetime : Z) : Prop :=
  exists l1 e w l2 cfg info, l = l1 ++ (t, e, w) :: l2 /\ member_known l1 cfg info id /\ sso_at cfg info id lifetime t e w.

Lemma over_provider_app l m id t lifetime : over_provider l id t lifetime -> over_provider (l ++ m) id t lifetime.
Proof. intros (l1 & e & w & l2 & cfg & info & -> & H). exists l1, e, w, (l2 ++ m), cfg, info. by rewrite <- app_assoc. Qed.

(** How an account may have been entered: by its password while two factor was off, by both
    factors, by an admin, or over the provider. *)
Definition entered (l : list moment_of) (id : Z) : Prop :=
  happened l (fun t e w => exists auth, password_at t e w id auth /\ totp_enabled (au_meta auth) = false) \/
  both_factors l id \/
  happened l (fun t e w => admin_at t e w id) \/
  exists t lifetime, over_provider l id t lifetime.

Lemma entered_app l m id : entered l id -> entered (l ++ m) id.
Proof. unfold entered. intros [H|[H|[H|(t & lifetime & H)]]]; eauto 10 using happened_app, both_factors_app, over_provider_app. Qed.

(** The route never asks to sign in as the account 0. *)
Definition real_id (now : Z) (e : event) (w : world) : Prop := match e with ELoginAs _ id _ => id <> 0 | _ => True end.

(** What a sign-in over the provider under way rests on. *)
Definition task_member (l : list moment_of) (tk : task) : Prop :=
  match tk with
  | Sso cfg info (Looked bound) => happened l (member_at cfg info bound)
  | Sso cfg info (Known u _ | Raised u | Marking u _ _ | Marked u) => member_known l cfg info (u_id u)
  | _ => True
  end.

Lemma task_member_app l m tk : task_member l tk -> task_member (l ++ m) tk.
Proof. destruct tk as [| | | | | |cfg info []]; cbn; eauto using happened_app, member_known_app. Qed.

Lemma step_member l now e w tk : (forall tk, tk ∈ w_tasks w -> task_member l tk) -> tk ∈ w_tasks (step now e w) -> task_member (l ++ [(now, e, w)]) tk.
Proof.
  intros Ht Hin. apply step_tasks in Hin as [Hin|[Hb|(n & uid & aid & salt & jti & tk0 & db & -> & Hn & Hx & _)]]; [by apply task_member_app, Ht| |].
  - destruct e; cbn in Hb; try done; try (apply asked_Ok in Hb as (who & Hb & _); apply bind_Ok in Hb as (x & _ & Hb); by injection Hb as <-).
    apply bind_Ok in Hb as (bound & Hc & Hb). injection Hb as <-. apply completeLogin_Ok in Hc as (-> & Hg & ->). by apply happened_last.
  - pose proof (Ht tk0 (list_elem_of_lookup_2 _ _ _ Hn)) as H0. next_part tk0 Hx; inversion Ho; subst; try done; cbn in *; try by apply member_known_app.
    destruct x as [[db' u] ex]. apply ensure_account_spec in Hf as (Hs & _). exists l, [(now, ENext n uid aid salt jti, w)], bound. split; [done|]. split; [done|].
    apply (happened_last []). by exists n, uid, aid, salt, jti, u, ex.
Qed.

(** Every token is a session of an account that was entered, or the proof of its password. *)
Definition tokens_earned (l : list moment_of) (w : world) : Prop :=
  (forall c, c ∈ w_issued w ->
     (c_scope c = ["user"] /\ entered l (c_id c)) \/
     (c_scope c = ["2fa-challenge"] /\ happened l (fun t e w => exists auth, password_at t e w (c_id c) auth))) /\
  (forall id s, (id, s) ∈ w_scans w -> s <> Wrong -> both_factors l id) /\
  forall tk, tk ∈ w_tasks w -> task_member l tk.

(** A token that is presented is one that was signed. *)
Lemma load_issued now s w l c : tokens_earned l w -> (forall t c, jwt_verify t s = Some c -> c ∈ w_issued w) -> load_token jwt_verify now s = Ok c -> c ∈ w_issued w.
Proof.
  intros [Ht _] Hv H. unfold load_token in H. apply bind_Ok in H as (_ & _ & H). destruct (jwt_verify (now / 1000) s) as [d|] eqn:Hd; [|done]. apply Hv in Hd.
  destruct (decide ("all" ∈ c_scope d)) as [Ha|]; [|by injection H as <-]. exfalso. destruct (Ht d Hd) as [[Hs _]|[Hs _]]; rewrite Hs in Ha; by apply list_elem_of_singleton in Ha.
Qed.

Lemma refreshed now expiry jti db t a : getFreshToken jwt_exp date_add db (Bearer t) expiry now jti = Ok a ->
  "2fa-challenge" ∉ c_scope t /\ "user" ∈ c_scope t /\ c_id (answer_token a) = c_id t /\ c_scope (answer_token a) = c_scope t.
Proof.
  unfold getFreshToken. intros H. apply bind_Ok in H as (_ & _ & H). apply bind_Ok in H as (_ & Hs%throw_if_Ok & H). apply orb_false_iff in Hs as [Hs1%bool_decide_eq_false_1 Hs2%negb_false_iff%bool_decide_eq_true_1].
  split; [done|]. split; [done|]. destruct (active_user db (c_id t)); [|done]. apply bind_Ok in H as (_ & _ & H). destruct (parse_period _) as [[n unit]|]; [|done]. apply bind_Ok in H as (_ & _ & H).
  destruct (c_sso_exp t) as [sso|].
  - destruct (sso =? 0); [|apply bind_Ok in H as (_ & _ & H); destruct (if later _ _ then _ else _) as [until0 lt0]]; ok_steps; cbn [answer_token]; by apply create_token_Ok in H as (-> & _ & -> & _).
  - ok_steps. cbn [answer_token]. by apply create_token_Ok in H as (-> & _ & -> & _).
Qed.

Lemma scan_right now db id code s : verifyForLogin bcrypt_compare verifyTotp db id code now = Ok s -> s <> Wrong -> exists auth secret,
  auth_of db id "password" = Some auth /\ totp_secret (au_meta auth) = Some secret /\
  (verifyTotp secret code now = Some true \/ exists hash, hash ∈ codes (au_meta auth) /\ bcrypt_compare (to_upper code) hash = true).
Proof.
  unfold verifyForLogin. intros H Hs. apply bind_Ok in H as (auth & Ha & H). unfold getUserPasswordAuth in Ha. destruct (auth_of db id "password") as [b|] eqn:Hb; [|done]. injection Ha as <-.
  destruct (totp_secret (au_meta b)) as [secret|] eqn:Hsec; [|cbn in H; congruence]. cbn in H. destruct (decide (secret = "")); cbn in H; [congruence|]. exists b, secret. split; [done|]. split; [done|].
  apply bind_Ok in H as ([] & Hv & H).
  - left. destruct (decide (String.length code = 6%nat)); [|done]. destruct (verifyTotp secret code now) as [[]|]; congruence.
  - right. destruct (negb _); [congruence|]. destruct (bfind _ _) as [h|] eqn:Hf; [|congruence]. apply bfind_Some in Hf. by exists h.
Qed.

Lemma tokens_earned_start w : w_issued w = [] -> w_scans w = [] -> w_tasks w = [] -> tokens_earned [] w.
Proof. intros Hi Hs Ht. unfold tokens_earned. rewrite Hi, Hs, Ht. split_and!; [intros d|intros id s|intros tk]; intros []%elem_of_nil. Qed.

Lemma step_earned l now e w : tokens_earned l w -> authentic now e w /\ real_id now e w -> tokens_earned (l ++ [(now, e, w)]) (step now e w).
Proof.
  intros Hinv [Hau Hreal]. pose proof Hinv as (Ht & Hsc & Htk). split_and!; [| |intros tk; by apply step_member].
  - intros c Hc. apply step_issued in Hc as [Hc|Hc].
    { destruct (Ht c Hc) as [[H1 H2]|[H1 H2]]; [left|right]; (split; [done|]); [by apply entered_app|by apply happened_app]. }
    destruct Hc as [auth Hp Hx Hs|(s & expiry & jti & t & a & -> & Hl & Hf & <-)|n jti s -> Hn Hw Hs Hx|Hadm Hs Hx|cfg info lifetime Hsso Hs Hx].
    + destruct (totp_enabled (au_meta auth)) eqn:Hon; [right|left]; (split; [done|]); [|left]; apply happened_last; by exists auth.
    + pose proof (load_issued _ _ _ _ _ Hinv (fun t0 c0 => Hau s t0 c0 eq_refl) Hl) as Hin. apply refreshed in Hf as (H1 & H2 & -> & ->).
      destruct (Ht t Hin) as [[H3 H4]|[H3 _]]; [left; split; [done|by apply entered_app]|]. rewrite H3 in H1. exfalso. apply H1. left.
    + left. split; [done|]. right. left. apply both_factors_app. by apply (Hsc (c_id c) s), Hw; apply list_elem_of_lookup_2 in Hn.
    + left. split; [done|]. right. right. left. destruct Hadm as [Hadm|(s & jti & ->)]; [by apply happened_last|]. by cbn in Hreal.
    + left. split; [done|]. right. right. right. exists now, lifetime, l, e, w, [], cfg, info. split; [done|]. split; [|done].
      destruct Hsso as (n & uid & aid & salt & jti & u & -> & Hn & <- & _). apply list_elem_of_lookup_2 in Hn. exact (Htk _ Hn).
  - intros id s Hs Hw. apply step_scans in Hs as [Hs|(challenge & code & t & -> & Hl & Hh & Hid & _ & Hv)]; [by apply both_factors_app, (Hsc id s)|].
    pose proof (load_issued _ _ _ _ _ Hinv (fun t0 c0 => Hau challenge t0 c0 eq_refl) Hl) as Hin. exists l, [(now, EVerify challenge code, w)]. split; [done|].
    destruct (Ht t Hin) as [[H1 _]|[_ H1]]; [by rewrite H1 in Hh|]. rewrite Hid in H1. split; [done|].
    destruct (scan_right _ _ _ _ _ Hv Hw) as (auth & secret & H2 & H3 & H4). apply (happened_last []). by exists challenge, code, auth, secret.
Qed.

(** C5. No session without its factors: every session, refreshed ones included, is of an account
    that was entered before, by its password alone only at a moment its second factor was off. *)
Theorem every_session_was_earned es w : w_issued w = [] -> w_scans w = [] -> w_tasks w = [] -> always (fun t e w => authentic t e w /\ real_id t e w) es w ->
  forall c, c ∈ w_issued (run es w) -> "user" ∈ c_scope c -> entered (trace es w) (c_id c).
Proof.
  intros Hi Hs Htk Ha c Hc Hu. destruct (trace_invariant tokens_earned (fun t e w => authentic t e w /\ real_id t e w) es w) as (H & _); [| |exact Ha|].
  - by apply tokens_earned_start.
  - intros l t e v. apply step_earned.
  - destruct (H c Hc) as [[_ H1]|[H1 _]]; [done|]. rewrite H1 in Hu. by apply list_elem_of_singleton in Hu.
Qed.

(** * The end of sessions over the provider *)

Section Bounds.

(** A token of a number of seconds lives as long; one of a period of at most a month lives no
    longer than the date [moment] finds for it, up to [slack] milliseconds for the hours a change of
    the clocks moves. *)
Variable slack : Z.
Hypothesis slack_nonneg : 0 <= slack.
Hypothesis exp_of_seconds : forall iat n exp, jwt_exp iat (Seconds n) = Some exp -> exp = iat + n.
Hypothesis exp_of_period : forall now v n unit until exp, parse_period v = Some (n, unit) -> date_add now n unit = At until -> until <= now + MAX_REFRESH ->
  jwt_exp (now / 1000) (Period v) = Some exp -> exp * 1000 <= until + slack.

(** Refreshes ask for dates there are. *)
Definition real_dates (now : Z) (e : event) (w : world) : Prop :=
  0 <= now /\ match e with
  | ERefresh _ v _ => forall n unit, parse_period (or_default v) = Some (n, unit) -> date_add now n unit <> InvalidDate
  | _ => True
  end.

Lemma refreshed_exp now expiry jti db t a E : getFreshToken jwt_exp date_add db (Bearer t) expiry now jti = Ok a ->
  (forall n unit, parse_period (or_default expiry) = Some (n, unit) -> date_add now n unit <> InvalidDate) ->
  c_sso_exp t = Some E -> E <> 0 -> c_sso_exp (answer_token a) = Some E /\ c_exp (answer_token a) * 1000 <= E * 1000 + slack.
Proof.
  unfold getFreshToken. intros H Hdate HE Hne. apply bind_Ok in H as (_ & _ & H). apply bind_Ok in H as (_ & _ & H). destruct (active_user db (c_id t)); [|done]. apply bind_Ok in H as (_ & _ & H).
  destruct (parse_period _) as [[n unit]|] eqn:Hp; [|done]. apply bind_Ok in H as (_ & Hmax%throw_if_Ok & H). rewrite HE in H. apply Z.eqb_neq in Hne as Hne'. rewrite Hne' in H.
  apply bind_Ok in H as (_ & Hlate%throw_if_Ok & H). apply Z.leb_gt in Hlate. destruct (date_add now n unit) as [until|] eqn:Hd; [|by apply Hdate in Hd]. cbn [later] in *. apply Z.ltb_ge in Hmax.
  destruct (E * 1000 <? until) eqn:Hu; ok_steps; cbn [answer_token]; apply create_token_Ok in H as (_ & -> & _ & _ & Hx); (split; [done|]).
  - apply exp_of_seconds in Hx as ->. pose proof (Z.div_mod now 1000 ltac:(lia)). pose proof (Z.mod_pos_bound now 1000 ltac:(lia)).
    pose proof (Z.div_mod (E * 1000 - now) 1000 ltac:(lia)). pose proof (Z.mod_pos_bound (E * 1000 - now) 1000 ltac:(lia)). lia.
  - apply Z.ltb_ge in Hu. pose proof (exp_of_period _ _ _ _ _ _ Hp Hd ltac:(lia) Hx). lia.
Qed.

(** A session ends with the sign-in over the provider it comes from, or its account was
    entered in another way. *)
Definition bounded_by_sso (l : list moment_of) (c : claims) : Prop :=
  exists E, c_sso_exp c = Some E /\ E <> 0 /\ c_exp c * 1000 <= E * 1000 + slack /\
    exists t lifetime, over_provider l (c_id c) t lifetime /\ E = t / 1000 + lifetime.

Definition entered_otherwise (l : list moment_of) (id : Z) : Prop :=
  happened l (fun t e w => exists auth, password_at t e w id auth) \/ happened l (fun t e w => admin_at t e w id).

Definition tokens_bounded (l : list moment_of) (w : world) : Prop :=
  tokens_earned l w /\ forall c, c ∈ w_issued w -> bounded_by_sso l c \/ entered_otherwise l (c_id c).

Lemma bounded_app l m c : bounded_by_sso l c -> bounded_by_sso (l ++ m) c.
Proof. intros (E & H1 & H2 & H3 & t & lifetime & H4 & H5). exists E. split_and!; try done. exists t, lifetime. split; [by apply over_provider_app|done]. Qed.

Lemma otherwise_app l m id : entered_otherwise l id -> entered_otherwise (l ++ m) id.
Proof. intros [H|H]; [left|right]; by apply happened_app. Qed.

Lemma expirySeconds_pos v n : expirySeconds v = Some n -> 0 < n.
Proof.
  unfold expirySeconds. destruct v; try done. intros ([d u] & _ & H)%bind_Some. destruct (decide _); [|done]. apply bind_Some in H as (f & _ & H).
  destruct ((0 <? _) && _) eqn:Hb; [|done]. injection H as <-. apply andb_true_iff in Hb as [Hb _]. by apply Z.ltb_lt in Hb.
Qed.

Lemma step_bounded l now e w : tokens_bounded l w -> (authentic now e w /\ real_id now e w) /\ real_dates now e w -> tokens_bounded (l ++ [(now, e, w)]) (step now e w).
Proof.
  intros [Hinv Hb] [Hau [Hnow Hdate]]. split; [by apply step_earned|]. pose proof Hinv as (Ht & Hsc & Htk). intros c Hc. apply step_issued in Hc as [Hc|Hc].
  { destruct (Hb c Hc); [left; by apply bounded_app|right; by apply otherwise_app]. }
  destruct Hau as [Hau Hreal]. destruct Hc as [auth Hp Hx Hs|(s & expiry & jti & t & a & -> & Hl & Hf & <-)|n jti s -> Hn Hw Hs Hx|Hadm Hs Hx|cfg info lifetime Hsso Hs Hx He].
  - right. left. apply happened_last. by exists auth.
  - pose proof (load_issued _ _ _ _ _ Hinv (fun t0 c0 => Hau s t0 c0 eq_refl) Hl) as Hin. pose proof (refreshed _ _ _ _ _ _ Hf) as (_ & _ & Hid & _).
    destruct (Hb t Hin) as [(E & HE & Hne & _ & Hm)|H]; [left|right; rewrite Hid; by apply otherwise_app].
    destruct (refreshed_exp _ _ _ _ _ _ _ Hf Hdate HE Hne) as [H1 H2]. exists E. rewrite Hid. split_and!; try done. destruct Hm as (t0 & lt & Hm & HE'). exists t0, lt. split; [by apply over_provider_app|done].
  - right. left. apply happened_app. apply list_elem_of_lookup_2 in Hn. destruct (Hsc _ _ Hn Hw) as (l1 & l2 & -> & H1 & _). by apply happened_app.
  - right. right. destruct Hadm as [Hadm|(s & jti & ->)]; [by apply happened_last|]. by cbn in Hreal.
  - left. apply exp_of_seconds in He. exists (now / 1000 + lifetime). replace ((now + lifetime * 1000) / 1000) with (now / 1000 + lifetime) in Hx by (rewrite Z.div_add; lia).
    destruct Hsso as (n & uid & aid & salt & jti & u & -> & Hn & Hid & Hlt). pose proof (expirySeconds_pos _ _ Hlt). pose proof (Z.div_pos now 1000 ltac:(lia) ltac:(lia)).
    split_and!; [done|lia|lia|]. exists now, lifetime. split; [|done]. exists l, (ENext n uid aid salt jti), w, [], cfg, info. split; [done|]. split; [|by exists n, uid, aid, salt, jti, u].
    rewrite <- Hid. apply list_elem_of_lookup_2 in Hn. exact (Htk _ Hn).
Qed.

(** C14. A session over the provider ends with the sign-in it comes from, at which the provider
    vouched for the group: however often it is refreshed, it ends when the lifetime of a sign-in
    is over, unless the account was also entered by its password or by an admin. This is so when
    no token is forged, no refresh asks for a period that leads beyond all dates, as
    [endless_refresh] does, and nobody asks to sign in as the account 0. *)
Theorem sso_sessions_end es w : w_issued w = [] -> w_scans w = [] -> w_tasks w = [] ->
  always (fun t e w => (authentic t e w /\ real_id t e w) /\ real_dates t e w) es w ->
  forall c, c ∈ w_issued (run es w) -> bounded_by_sso (trace es w) c \/ entered_otherwise (trace es w) (c_id c).
Proof.
  intros Hi Hs Htk Ha. destruct (trace_invariant tokens_bounded (fun t e w => (authentic t e w /\ real_id t e w) /\ real_dates t e w) es w) as [_ H]; [| |exact Ha|exact H].
  - split; [by apply tokens_earned_start|]. intros d Hd. rewrite Hi in Hd. by apply elem_of_nil in Hd.
  - intros l t e v. apply step_bounded.
Qed.

End Bounds.


(** * A change of the password ends the sessions before it *)

Definition stamp_of (m : auth_meta) : Z := default 0 (password_changed_at m).

(** The stamps of the writes under way: what the row had, or the time of the change. *)
Definition stamp_kept (now : Z) (wr : write) : Prop :=
  match wr with
  | PatchMeta b m => stamp_of m = stamp_of (au_meta b) /\ stamp_of m <= now / 1000
  | PatchPassword b _ m => stamp_of (au_meta b) <= stamp_of m <= now / 1000
  | InsertPassword _ _ _ m => stamp_of m <= now / 1000
  end.

(** The row a write was read from. *)
Definition base_of (wr : write) : option auth_row := match wr with PatchMeta b _ | PatchPassword b _ _ => Some b | InsertPassword _ _ _ _ => None end.

(** No stamp is later than the clock, and the writes under way are of rows that are there. *)
Definition stamps_ok (w : world) : Prop :=
  rows_ok w /\ 0 <= w_now w /\ (forall a, a ∈ t_auth (w_db w) -> stamp_of (au_meta a) <= w_now w / 1000) /\
  forall wr, wr ∈ w_writes w -> stamp_kept (w_now w) wr /\ forall b, base_of wr = Some b -> (au_user_id b, "password") ∈ auth_key <$> t_auth (w_db w).

Definition proper (now : Z) (e : event) (w : world) : Prop := timely now e w /\ new_ids now e w.

Lemma div_mono a b : a <= b -> a / 1000 <= b / 1000.
Proof. intros. apply Z.div_le_mono; lia. Qed.

(** The first row of an account and a type, after an update and an insert. *)
Lemma auth_of_rows l p f new id type : (forall a, a ∈ l -> p a = true -> row_name (f a) = row_name a) ->
  forall a, bfind (fun a => (au_user_id a =? id) && bool_decide (au_type a = type)) l = Some a ->
  bfind (fun a => (au_user_id a =? id) && bool_decide (au_type a = type)) (update_rows p f l ++ new) = Some (if p a then f a else a).
Proof.
  induction l as [|x l IH]; [done|]. intros Hf a. cbn. assert (row_name (if p x then f x else x) = row_name x) as Hx by (destruct (p x) eqn:Hp; [apply Hf; [left|done]|done]).
  injection Hx as _ -> ->. destruct (_ && _) eqn:Hq; [by intros [= ->]|]. apply IH. intros y Hy. apply Hf. by right.
Qed.

(** How a step changes a row of a password: not at all, by a write, or by the consumption of a code. *)
Inductive row_change (w : world) (a : auth_row) : auth_row -> Prop :=
| row_same : row_change w a a
| row_written wr b c : wr ∈ w_writes w -> base_of wr = Some b -> au_user_id b = au_user_id a -> match wr with PatchMeta _ m | PatchPassword _ _ m => au_meta c = m | _ => False end -> row_change w a c
| row_consumed c : stamp_of (au_meta c) = stamp_of (au_meta a) -> row_change w a c.

Lemma step_row now e w id a : rows_ok w -> auth_of (w_db w) id "password" = Some a ->
  exists a', auth_of (w_db (step now e w)) id "password" = Some a' /\ row_change w a a'.
Proof.
  intros Hok Ha. pose proof (auth_of_spec _ _ _ _ Ha) as [Hin Hk]. injection Hk as Hk1 Hk2. unfold auth_of in *.
  assert (forall p f new, (forall a, a ∈ t_auth (w_db w) -> p a = true -> row_name (f a) = row_name a) -> (p a = true -> row_change w a (f a)) ->
    exists a', bfind (fun a => (au_user_id a =? id) && bool_decide (au_type a = "password")) (update_rows p f (t_auth (w_db w)) ++ new) = Some a' /\ row_change w a a') as Hupd.
  { intros p f new Hf Hc. eexists. split; [by apply auth_of_rows|]. destruct (p a); [by apply Hc|apply row_same]. }
  assert (forall x, exists a', bfind (fun a => (au_user_id a =? id) && bool_decide (au_type a = "password")) (t_auth (w_db w) ++ [x]) = Some a' /\ row_change w a a') as Hadd.
  { intros x. pose proof (Hupd (fun _ => false) (fun a => a) [x]) as H. unfold update_rows in H. rewrite list_fmap_id in H. by apply H. }
  destruct (step_auth now e w) as [|n uid aid salt jti data i secret -> Hn|n wr -> Hn|n jti i auth hash -> Hn Hc|n uid aid salt jti cfg info u row m -> Hn].
  - exists a. split; [done|apply row_same].
  - apply Hadd.
  - apply list_elem_of_lookup_2 in Hn. destruct wr as [b m|b s m|aid i s m]; cbn [commit patch_auth add_auth t_auth]; [| |apply Hadd]; rewrite <- (app_nil_r (update_rows _ _ _)); apply Hupd.
    + done.
    + intros Hp. apply andb_true_iff in Hp as [Hp _]. apply andb_true_iff in Hp as [_ Hp%Z.eqb_eq]. by eapply row_written.
    + intros x Hx [_ Hp%bool_decide_eq_true_1]%andb_true_iff. unfold row_name, auth_key. cbn. by rewrite Hp.
    + intros [Hp%Z.eqb_eq _]%andb_true_iff. by eapply row_written.
  - destruct (consume_spec _ _ _ _ Hc) as (fresh & Hf1 & Hf2 & Hf3 & Hf4 & ->). cbn [patch_auth t_auth]. rewrite <- (app_nil_r (update_rows _ _ _)). apply Hupd; [done|]. intros Hp%Z.eqb_eq.
    assert (a = fresh) as -> by (apply (row_unique (t_auth (w_db w))); [apply Hok|done..|congruence]). by apply row_consumed.
  - destruct row as [r|]; cbn [mark_write patch_auth add_auth t_auth]; [|apply Hadd]. rewrite <- (app_nil_r (update_rows _ _ _)). apply Hupd; [done|]. intros Hp%Z.eqb_eq.
    apply list_elem_of_lookup_2 in Hn. pose proof (marked_row w cfg info u r m a Hok Hn Hin Hp) as H. unfold auth_key in H. congruence.
Qed.

Lemma step_stamps now e w : proper now e w -> stamps_ok w -> stamps_ok (step now e w).
Proof.
  intros [Ht Hids] (Hok & Hnow & Hst & Hwr). unfold timely in Ht. pose proof (div_mono _ _ Ht) as Hdiv. assert (0 <= now / 1000) as Hpos by (apply Z.div_pos; lia).
  split_and!; [by apply step_rows_ok|rewrite step_now; lia| |].
  - rewrite step_now. assert (forall p f, (forall a, a ∈ t_auth (w_db w) -> p a = true -> stamp_of (au_meta (f a)) <= now / 1000) -> forall a, a ∈ update_rows p f (t_auth (w_db w)) -> stamp_of (au_meta a) <= now / 1000) as Hupd.
    { intros p f Hf a (y & Hy & ->)%elem_of_update_rows. destruct (p y) eqn:Hp; [by apply Hf|]. apply Hst in Hy. lia. }
    assert (forall x, stamp_of (au_meta x) <= now / 1000 -> forall a, a ∈ t_auth (w_db w) ++ [x] -> stamp_of (au_meta a) <= now / 1000) as Hadd.
    { intros x Hx a [Ha| ->%list_elem_of_singleton]%elem_of_app; [|done]. apply Hst in Ha. lia. }
    destruct (step_auth now e w) as [|n uid aid salt jti data i secret -> Hn|n wr -> Hn|n jti i auth hash -> Hn Hc|n uid aid salt jti cfg info u row m -> Hn].
    + intros a Ha. apply Hst in Ha. lia.
    + by apply Hadd.
    + destruct (Hwr wr (list_elem_of_lookup_2 _ _ _ Hn)) as [Hk Hb]. destruct wr as [b m|b s m|aid i s m]; cbn [commit patch_auth add_auth t_auth stamp_kept] in *.
      * apply Hupd. intros a Ha Hp. cbn [au_meta]. lia.
      * apply Hupd. intros a Ha Hp. cbn [au_meta]. lia.
      * apply Hadd. cbn. lia.
    + destruct (consume_spec _ _ _ _ Hc) as (fresh & Hf1 & Hf2 & Hf3 & Hf4 & ->). cbn [patch_auth t_auth]. apply Hupd. intros a Ha Hp. cbn [au_meta]. apply Hst in Hf1. unfold stamp_of in *. cbn. lia.
    + destruct Hok as [_ Hm]. apply list_elem_of_lookup_2, Hm in Hn as [[t ->] _]. destruct row as [r|]; cbn [mark_write patch_auth add_auth t_auth]; [|by apply Hadd]. apply Hupd. by intros a Ha Hp.
  - pose proof (step_names now e w) as Hn. assert (forall k, k ∈ auth_key <$> t_auth (w_db w) -> k ∈ auth_key <$> t_auth (w_db (step now e w))) as Hkeys.
    { intros k (a & -> & Ha)%list_elem_of_fmap. pose proof (Hn (row_name a) (list_elem_of_fmap_2 _ _ _ Ha)) as (b & Hb & Hin)%list_elem_of_fmap. injection Hb as _ Hb1 Hb2.
      apply list_elem_of_fmap. exists b. split; [|done]. unfold auth_key. by rewrite Hb1, Hb2. }
    assert (forall b, auth_of (w_db w) (au_user_id b) "password" = Some b -> (au_user_id b, "password") ∈ auth_key <$> t_auth (w_db w) /\ stamp_of (au_meta b) <= now / 1000) as Hread.
    { intros b Hb. apply auth_of_spec in Hb as [Hb Hk]. split; [rewrite <- Hk; by apply list_elem_of_fmap_2|]. apply Hst in Hb. lia. }
    rewrite step_now. intros wr Hin. apply step_writes in Hin as [Hin|Hin].
    + destruct (Hwr wr Hin) as [H1 H2]. split; [destruct wr; cbn in *; lia|]. intros b Hb. by apply Hkeys, H2.
    + destruct Hin as [b m Hb Hm|b s Hb|aid id s Hb]; [destruct (Hread b Hb)|destruct (Hread b Hb)|]; (split; [unfold stamp_kept, stamp_of in *; rewrite ?Hm; cbn in *; lia|]);
        intros x Hx; try done; injection Hx as <-; by apply Hkeys.
Qed.

(** A token is refused everywhere: as the token of a request, of a refresh, of a second step. *)
Definition refused (db : accounts) (c : claims) : Prop :=
  (forall x, access_init db c <> Ok x) /\
  (forall expiry now jti a, getFreshToken jwt_exp date_add db (Bearer c) expiry now jti <> Ok a) /\
  (forall challenge code now x, load_token jwt_verify now challenge = Ok c -> verify2FA_begin jwt_verify bcrypt_compare verifyTotp db challenge code now <> Ok x).

Lemma revoked_token_refused db c b : auth_of db (c_id c) "password" = Some b -> c_id c <> 0 -> 0 < stamp_of (au_meta b) -> c_iat c < stamp_of (au_meta b) -> refused db c.
Proof.
  intros Hb Hid Hpos Hlt. assert (forall u, u_id u = c_id c -> assertTokenNotRevoked db (u_id u) (c_iat c) = Throw TokenRevoked) as Hr.
  { intros u ->. unfold assertTokenNotRevoked. rewrite Hb. cbn. fold (stamp_of (au_meta b)). apply Z.ltb_lt in Hpos, Hlt. by rewrite Hpos, Hlt. }
  assert (assertTokenNotRevoked db (c_id c) (c_iat c) = Throw TokenRevoked) as Hr'.
  { unfold assertTokenNotRevoked. rewrite Hb. cbn. fold (stamp_of (au_meta b)). apply Z.ltb_lt in Hpos, Hlt. by rewrite Hpos, Hlt. }
  split_and!.
  - intros x. unfold access_init. apply Z.eqb_neq in Hid. rewrite Hid. cbn. destruct (active_user db (c_id c)) as [u|] eqn:Hu; [|done]. apply active_user_spec in Hu as (_ & Hu & _).
    destruct (throw_if _ InvalidScope); cbn; [|done]. by rewrite (Hr u Hu).
  - intros expiry now jti a. unfold getFreshToken. destruct (throw_if (c_id c =? 0) _); cbn; [|done]. destruct (throw_if _ InvalidToken); cbn; [|done].
    destruct (active_user db (c_id c)); [|done]. by rewrite Hr'.
  - intros challenge code now x Hl. unfold verify2FA_begin. rewrite Hl. intros H. apply bind_Ok in H as (_ & _ & H). apply bind_Ok in H as (_ & _ & H). by rewrite Hr' in H.
Qed.

(** The account has a row from after the change, and so were the rows that are going to be written read. *)
Definition changed_since (id S : Z) (w : world) : Prop :=
  (exists a, auth_of (w_db w) id "password" = Some a /\ S <= stamp_of (au_meta a)) /\
  forall wr b, wr ∈ w_writes w -> base_of wr = Some b -> au_user_id b = id -> S <= stamp_of (au_meta b).

Lemma step_changed id S now e w : proper now e w -> stamps_ok w -> changed_since id S w -> changed_since id S (step now e w).
Proof.
  intros Hp (Hok & Hnow & Hst & Hwr) [(a & Ha & Hle) Hb]. split.
  - destruct (step_row now e w id a Hok Ha) as (a' & Ha' & Hc). exists a'. split; [done|]. pose proof (auth_of_spec _ _ _ _ Ha) as [_ Hk]. injection Hk as Hk _.
    destruct Hc as [|wr b c Hin Hbase Hid Hm|c Hs]; [done| |lia]. pose proof (Hb wr b Hin Hbase ltac:(congruence)) as Hs. destruct (Hwr wr Hin) as [Hkept _].
    destruct wr as [x m|x s m|]; cbn in Hkept, Hbase, Hm; [injection Hbase as ->; rewrite Hm; lia|injection Hbase as ->; rewrite Hm; lia|done].
  - intros wr b Hin Hbase Hid. apply step_writes in Hin as [Hin|Hin]; [by eapply Hb|]. destruct Hin as [x m Hx _|x s Hx|]; try done; injection Hbase as <-; rewrite Hid, Ha in Hx; by injection Hx as ->.
Qed.

(** The write of a changed password. *)
Lemma commit_changed now n w b s m : stamps_ok w -> w_writes w !! n = Some (PatchPassword b s m) ->
  (forall k wr c, k <> n -> w_writes w !! k = Some wr -> base_of wr = Some c -> au_user_id c <> au_user_id b) ->
  changed_since (au_user_id b) (stamp_of m) (step now (ECommit n) w).
Proof.
  intros (Hok & Hnow & Hst & Hwr) Hn Halone. unfold step. cbn [act w_writes]. rewrite Hn. split; cbn [w_db w_writes].
  - destruct (Hwr _ (list_elem_of_lookup_2 _ _ _ Hn)) as [_ Hb]. specialize (Hb b eq_refl). destruct (auth_of (w_db w) (au_user_id b) "password") as [a|] eqn:Ha; [|by apply auth_of_None in Ha].
    pose proof (auth_of_spec _ _ _ _ Ha) as [_ Hk]. injection Hk as Hk1 Hk2. unfold auth_of in *. cbn [commit patch_auth t_auth]. rewrite <- (app_nil_r (update_rows _ _ _)). eexists. split.
    + apply auth_of_rows; [|exact Ha]. intros x Hx [_ Hp%bool_decide_eq_true_1]%andb_true_iff. unfold row_name, auth_key. cbn. by rewrite Hp.
    + rewrite Hk1, Hk2, Z.eqb_refl, bool_decide_eq_true_2 by done. cbn. lia.
  - intros wr c Hin Hc Hid. exfalso. apply list_elem_of_lookup in Hin as [k Hk]. destruct (decide (k < n)%nat).
    + rewrite list_lookup_delete_lt in Hk by done. apply (Halone k wr c); [lia|done..].
    + rewrite list_lookup_delete_ge in Hk by lia. apply (Halone (S k) wr c); [lia|done..].
Qed.

(** C6. Once a changed password is written, and no other change of the account's sign-in row was
    under way at that moment, every token of the account from before the change is refused, as the
    token of a request, of a refresh and of a second step, for good, whatever handlers run on the
    account after it and however they overlap. The clock does not go back. A change that was under
    way may end the refusal: [late_write_revives_sessions]. *)
Theorem password_change_is_final es1 es2 now n w b s m c : rows_ok w -> w_writes w = [] -> 0 <= w_now w ->
  Forall (fun a => stamp_of (au_meta a) <= w_now w / 1000) (t_auth (w_db w)) ->
  always proper (es1 ++ (now, ECommit n) :: es2) w ->
  w_writes (run es1 w) !! n = Some (PatchPassword b s m) -> 0 < stamp_of m ->
  (forall k wr c, k <> n -> w_writes (run es1 w) !! k = Some wr -> base_of wr = Some c -> au_user_id c <> au_user_id b) ->
  c_id c = au_user_id b -> c_id c <> 0 -> c_iat c < stamp_of m -> refused (w_db (run (es1 ++ (now, ECommit n) :: es2) w)) c.
Proof.
  intros Hok Hwr Hnow Hst Ha Hn Hpos Halone Hid Hne Hlt. assert (stamps_ok w) as H0.
  { rewrite Forall_forall in Hst. split_and!; [done..|]. rewrite Hwr. intros wr []%elem_of_nil. }
  assert (forall es w, stamps_ok w -> always proper es w -> stamps_ok (run es w)) as Hrun.
  { intros es. induction es as [|[t e] es IH]; intros v Hv; [done|]. intros [Hp Hp']. cbn. apply IH; [by apply step_stamps|done]. }
  assert (forall es w, stamps_ok w -> changed_since (c_id c) (stamp_of m) w -> always proper es w -> changed_since (c_id c) (stamp_of m) (run es w)) as Hgrow.
  { intros es. induction es as [|[t e] es IH]; intros v Hv Hc; [done|]. intros [Hp Hp']. cbn. apply IH; [by apply step_stamps|by apply step_changed|done]. }
  apply always_app in Ha as (Ha1 & Hc & Ha2). pose proof (Hrun es1 w H0 Ha1) as H1. pose proof (commit_changed now n _ b s m H1 Hn Halone) as H2. rewrite <- Hid in H2.
  unfold run at 1. rewrite foldl_app. cbn [foldl fst snd]. destruct (Hgrow es2 _ (step_stamps _ _ _ Hc H1) H2 Ha2) as [(a & Hau & Hle) _]. apply (revoked_token_refused _ _ a); [exact Hau|done|lia|lia].
Qed.

(** * The users *)

Definition deleted (u : user) : user := User (u_id u) (u_email u) (u_name u) (u_nickname u) (u_avatar u) (u_roles u) (u_is_disabled u) true.

Inductive users_change (now : Z) (e : event) (w : world) : list user -> Prop :=
| users_same : users_change now e w (t_users (w_db w))
| users_created n uid aid salt jti who data v : e = ENext n uid aid salt jti -> w_tasks w !! n = Some (Inserting who data) -> isEmailAvailable (w_db w) (u_email v) None = true ->
    (exists x, u_email v = trim (to_lower x)) -> u_id v = uid -> u_is_deleted v = false -> users_change now e w (t_users (w_db w) ++ [v])
| users_updated n uid aid salt jti a data v : e = ENext n uid aid salt jti -> w_tasks w !! n = Some (Updating a data) -> v ∈ t_users (w_db w) -> u_id v = up_id data -> u_is_deleted v = false ->
    (forall x, up_email data = Some x -> u_email v <> trim (to_lower x) -> isEmailAvailable (w_db w) (trim (to_lower x)) (Some (up_id data)) = true) ->
    users_change now e w (update_rows (fun u => u_id u =? up_id data) (apply_patch gravatar data) (t_users (w_db w)))
| users_deleted n uid aid salt jti who id : e = ENext n uid aid salt jti -> w_tasks w !! n = Some (Deleting who id) ->
    users_change now e w (update_rows (fun u => u_id u =? id) deleted (t_users (w_db w)))
| users_raised n uid aid salt jti cfg info u : e = ENext n uid aid salt jti -> w_tasks w !! n = Some (Sso cfg info (Known u true)) ->
    users_change now e w (update_rows (fun v => u_id v =? u_id u) (raised u) (t_users (w_db w)))
| users_sso n uid aid salt jti cfg info bound u : e = ENext n uid aid salt jti -> w_tasks w !! n = Some (Sso cfg info (Looked bound)) ->
    sso_account (w_db w) bound info uid u false -> users_change now e w (t_users (w_db w) ++ [u]).

Lemma step_users now e w : users_change now e w (t_users (w_db (step now e w))).
Proof.
  destruct (step_db now e w) as [->|[(n & uid & aid & salt & jti & tk & db & o & -> & Hn & Hx & ->)|[(n & wr & -> & Hn & ->)|(n & jti & id & auth & hash & -> & Hn & Hc & ->)]]].
  - apply users_same.
  - next_part tk Hx; try apply users_same.
    + apply create_insert_tables in Hf as (y & H1 & H2 & H3 & H4 & -> & _). by eapply users_created.
    + apply update_write_tables in Hf as (y & H1 & H2 & H3 & -> & H4). by eapply users_updated.
    + by eapply (users_deleted _ _ w n _ _ _ _ who id).
    + destruct x as [[db' u] ex]. apply ensure_account_spec in Hf as (Hs & _ & _ & Hu). cbn. rewrite Hu. destruct ex; [apply users_same|by eapply users_sso].
    + unfold ensure_admin. destruct ex; [|apply users_same]. destruct (bool_decide _); [apply users_same|]. by eapply users_raised.
    + destruct row0; apply users_same.
  - destruct wr; apply users_same.
  - destruct (consume_spec _ _ _ _ Hc) as (fresh & _ & _ & _ & _ & ->). apply users_same.
Qed.

(** ** Who may change rights *)

Definition rights (u : user) : Z * list string * bool * bool := (u_id u, u_roles u, u_is_disabled u, u_is_deleted u).

(** The account of a token is there and an admin. *)
Definition live_admin (db : accounts) (c : claims) : Prop := exists r, r ∈ t_users db /\ u_id r = c_id c /\ u_is_deleted r = false /\ "admin" ∈ u_roles r.

(** A request with a token that holds, for a new account. *)
Definition create_asked (c : claims) (data : new_user) (now : Z) (e : event) (w : world) : Prop :=
  exists s, e = ECreate (Some s) data /\ load_token jwt_verify now s = Ok c.

(** A handler that was allowed when the token behind it was an admin's: a creation, a change of an
    account, a deletion. *)
Definition by_an_admin (l : list moment_of) (tk : task) : Prop :=
  match tk with
  | Inserting (Bearer c) data => exists l1 l2, l = l1 ++ l2 /\ happened l1 (create_asked c data) /\
      happened l2 (fun t e w => exists n uid aid salt jti, e = ENext n uid aid salt jti /\ w_tasks w !! n = Some (Creating (Bearer c) data) /\ live_admin (w_db w) c)
  | Updating a data =>
      happened l (fun t e w => exists s c, e = EUpdate (Some s) data /\ load_token jwt_verify t s = Ok c /\ update_check (w_db w) (Bearer c) data = Ok a /\ live_admin (w_db w) c)
  | Deleting (Bearer c) id =>
      happened l (fun t e w => exists s i, e = EDelete (Some s) i /\ load_token jwt_verify t s = Ok c /\ delete_check (w_db w) (Bearer c) i = Ok id /\ live_admin (w_db w) c)
  | _ => False
  end.

(** A sign-in over the provider of a member of the group. *)
Definition by_the_group (l : list moment_of) (tk : task) : Prop := match tk with Sso _ _ _ => task_member l tk | _ => False end.

(** A request for an account at a moment there was none. *)
Definition setup_at (data : new_user) (now : Z) (e : event) (w : world) : Prop :=
  exists token who d, e = ECreate token d /\ isSetup (w_db w) = false /\ post_user (w_db w) who d = Ok (Internal, data).
Definition by_the_setup (l : list moment_of) (tk : task) : Prop := match tk with Inserting Internal data => happened l (setup_at data) | _ => False end.

(** What the handlers under way rest on. *)
Definition task_right (l : list moment_of) (tk : task) : Prop :=
  match tk with
  | Creating (Bearer c) data => happened l (create_asked c data)
  | Creating Internal data => happened l (setup_at data)
  | Creating Anonymous _ | Inserted _ _ | Permitting _ _ _ _ => True
  | Updating a data => privileged data = true -> by_an_admin l tk
  | Inserting _ _ | Deleting _ _ | Sso _ _ _ => by_an_admin l tk \/ by_the_group l tk \/ by_the_setup l tk
  end.

Lemma by_an_admin_app l m tk : by_an_admin l tk -> by_an_admin (l ++ m) tk.
Proof.
  destruct tk as [| [| |c] data| | |[| |c] id| |]; cbn; eauto using happened_app. intros (l1 & l2 & -> & H1 & H2). exists l1, (l2 ++ m). rewrite app_assoc. split; [done|]. split; [done|by apply happened_app].
Qed.

Lemma by_the_group_app l m tk : by_the_group l tk -> by_the_group (l ++ m) tk.
Proof. destruct tk; try done. apply task_member_app. Qed.

Lemma by_the_setup_app l m tk : by_the_setup l tk -> by_the_setup (l ++ m) tk.
Proof. destruct tk as [|[| |c] data| | | | |]; try done. apply happened_app. Qed.

Lemma task_right_app l m tk : task_right l tk -> task_right (l ++ m) tk.
Proof. destruct tk as [[| |c] data| | | | | |]; cbn [task_right]; try tauto; eauto using happened_app, by_an_admin_app; intuition eauto using by_an_admin_app, by_the_group_app, by_the_setup_app. Qed.

Lemma admin_token_live db c : admin_token db c -> live_admin db c.
Proof. intros (r & Hr & Ha & _). apply active_user_spec in Hr as (H1 & H2 & H3 & _). by exists r. Qed.

Lemma can_bearer db who permission data : who = Anonymous \/ (exists c, who = Bearer c) -> can (open_access db who) permission data = Ok tt -> exists c, who = Bearer c.
Proof. intros [->|H] Hc; [done|exact H]. Qed.

(** A handler that begins. *)
Lemma begun_right l now e w tk : begun now e (w_db w) = Ok tk -> task_right (l ++ [(now, e, w)]) tk.
Proof.
  intros Hb. destruct e; cbn in Hb; try done.
  - apply asked_Ok in Hb as (who & Hb & Hw). apply bind_Ok in Hb as ([who' data'] & Hp & Hb). injection Hb as <-. cbn. pose proof Hp as Hp'. unfold post_user in Hp'. destruct (isSetup (w_db w)) eqn:Hs.
    + injection Hp' as -> ->. destruct Hw as [->|(s & c & -> & Hl & ->)]; [done|]. apply happened_last. by exists s.
    + destruct (nu_auth data); [|done]. injection Hp' as <- <-. apply happened_last. by exists token, who, data.
  - apply asked_Ok in Hb as (who & Hb & Hw). apply bind_Ok in Hb as (a & Hc & Hb). injection Hb as <-. intros Hp. pose proof (update_check_spec _ _ _ _ Hc) as [H1 H2].
    destruct Hw as [->|(s & c & -> & Hl & ->)]; [done|]. apply happened_last. exists s, c. split_and!; [done..|]. destruct (H2 Hp) as (r & Hr & Had). apply live_user_spec in Hr as (? & ? & ?). by exists r.
  - apply asked_Ok in Hb as (who & Hb & Hw). apply bind_Ok in Hb as (i & Hc & Hb). injection Hb as <-. left. pose proof (delete_check_spec _ _ _ _ Hc) as [_ H1].
    destruct Hw as [->|(s & c & -> & Hl & ->)]; [done|]. apply happened_last. exists s, id. split_and!; [done..|]. by apply admin_token_live, (can_admin _ _ "users:delete" id).
  - apply asked_Ok in Hb as (who & Hb & Hw). apply bind_Ok in Hb as (known & Hc & Hb). by injection Hb as <-.
  - apply bind_Ok in Hb as (bound & Hc & Hb). injection Hb as <-. right. left. apply completeLogin_Ok in Hc as (-> & Hg & ->). by apply happened_last.
Qed.

Lemma step_right l now e w tk : (forall tk, tk ∈ w_tasks w -> task_right l tk) -> tk ∈ w_tasks (step now e w) -> task_right (l ++ [(now, e, w)]) tk.
Proof.
  intros Ht Hin. pose proof Hin as Hin'. apply step_tasks in Hin as [Hin|[Hb|(n & uid & aid & salt & jti & tk0 & db & -> & Hn & Hx & _)]]; [by apply task_right_app, Ht|by apply begun_right|].
  pose proof (Ht tk0 (list_elem_of_lookup_2 _ _ _ Hn)) as H0.
  assert (forall tk, tk ∈ w_tasks w -> task_member l tk) as Hm.
  { intros [| | | | | |cfg info st] Hk; try done. apply Ht in Hk as [[]|[Hk|[]]]. exact Hk. }
  destruct tk0 as [who data|who data|data id|a data|who id|id perms unsent known|cf nf st].
  - cbn in Hx. apply bind_Ok in Hx as ([] & Hc & Hx). apply Ok_pair in Hx as [<- Ho]. apply Goes_inj in Ho as <-. cbn [task_right]. unfold create_check in Hc. destruct who as [| |c].
    + right. right. by apply happened_app.
    + done.
    + left. exists l, [(now, ENext n uid aid salt jti, w)]. split; [done|]. split; [exact H0|]. apply (happened_last []). exists n, uid, aid, salt, jti. split_and!; [done..|].
      by apply admin_token_live, (can_admin _ _ "users:create" 0).
  - cbn in Hx. apply bind_Ok in Hx as (x & Hc & Hx). apply Ok_pair in Hx as [_ Ho]. by apply Goes_inj in Ho as <-.
  - cbn in Hx. apply Ok_pair in Hx as [_ Ho]. done.
  - cbn in Hx. apply bind_Ok in Hx as (x & Hc & Hx). apply Ok_pair in Hx as [_ Ho]. done.
  - cbn in Hx. apply Ok_pair in Hx as [_ Ho]. done.
  - cbn in Hx. apply Ok_pair in Hx as [_ Ho]. done.
  - assert (exists cfg info st', tk = Sso cfg info st') as (cfg & info & st' & ->); [|right; left; exact (step_member l now _ w _ Hm Hin')].
    destruct st; cbn in Hx; try (apply bind_Ok in Hx as (x & Hf & Hx)); apply Ok_pair in Hx as [_ Ho]; try done; apply Goes_inj in Ho as <-; by eexists _, _, _.
Qed.

Lemma apply_patch_rights data u : privileged data = false -> rights (apply_patch gravatar data u) = rights u.
Proof. unfold privileged, rights. destruct data as [id em nm nn [r|] [d|]]; done. Qed.

(** C16. Who makes accounts and changes their roles and locks: whatever a step of a history leaves
    as a new account, or with other roles, another lock or as deleted, is left by a handler whose
    request was allowed at a moment at which the token behind it was of a live admin, or by the
    sign-in of a member of the group over the provider, or by a request for an account that came at
    a moment at which there was none. Every other step leaves the rights of every account. *)
Theorem rights_come_from_admins es w now e u' : w_tasks w = [] -> u' ∈ t_users (w_db (step now e (run es w))) ->
  (exists u, u ∈ t_users (w_db (run es w)) /\ rights u = rights u') \/
  exists n uid aid salt jti tk, e = ENext n uid aid salt jti /\ w_tasks (run es w) !! n = Some tk /\
    (by_an_admin (trace es w) tk \/ by_the_group (trace es w) tk \/ by_the_setup (trace es w) tk).
Proof.
  intros Hnone Hu. assert (forall tk, tk ∈ w_tasks (run es w) -> task_right (trace es w) tk) as Ht.
  { apply (trace_invariant (fun l w => forall tk, tk ∈ w_tasks w -> task_right l tk) (fun _ _ _ => True)).
    - rewrite Hnone. intros tk []%elem_of_nil.
    - intros l t e' v Hl _ tk. by apply step_right.
    - clear. revert w. induction es as [|[t e] es IH]; intros w; [done|]. by split. }
  assert (forall n tk, w_tasks (run es w) !! n = Some tk -> task_right (trace es w) tk) as Hn by (intros n tk H; eapply Ht, list_elem_of_lookup_2, H).
  destruct (step_users now e (run es w)) as [|n uid aid salt jti who data v -> Htk _ _ _ _|n uid aid salt jti a data v -> Htk _ _ _ _|n uid aid salt jti who id -> Htk|n uid aid salt jti cfg info u -> Htk|n uid aid salt jti cfg info bound u -> Htk Hs].
  - left. by exists u'.
  - right. eexists n, uid, aid, salt, jti, _. split; [done|]. split; [done|]. exact (Hn _ _ Htk).
  - destruct (privileged data) eqn:Hp.
    + right. eexists n, uid, aid, salt, jti, _. split; [done|]. split; [done|]. left. exact (Hn _ _ Htk Hp).
    + apply elem_of_update_rows in Hu as (y & Hy & ->). left. exists y. split; [done|]. destruct (_ =? _); [by rewrite apply_patch_rights|done].
  - right. eexists n, uid, aid, salt, jti, _. split; [done|]. split; [done|]. exact (Hn _ _ Htk).
  - right. eexists n, uid, aid, salt, jti, _. split; [done|]. split; [done|]. exact (Hn _ _ Htk).
  - right. eexists n, uid, aid, salt, jti, _. split; [done|]. split; [done|]. exact (Hn _ _ Htk).
Qed.

(** ** The setup *)

Lemma isSetup_true db : isSetup db = true <-> exists u, u ∈ t_users db /\ u_is_deleted u = false /\ 0 < u_id u.
Proof.
  unfold isSetup. rewrite existsb_true. split; intros (u & Hu & H); exists u; (split; [done|]).
  - apply andb_true_iff in H as [H1%negb_true_iff H2%Z.ltb_lt]. done.
  - destruct H as [-> H]. by apply Z.ltb_lt in H as ->.
Qed.

Definition positive_ids (db : accounts) : Prop := forall u, u ∈ t_users db -> 0 < u_id u.

(** The handlers of deletions under way are not of the account they delete. *)
Definition not_oneself (w : world) : Prop := forall who id, Deleting who id ∈ w_tasks w -> id <> getUserId who.

Lemma step_not_oneself now e w : not_oneself w -> not_oneself (step now e w).
Proof.
  intros H caller i Hin. apply step_tasks in Hin as [Hin|[Hb|(n & uid & aid & salt & jti & tk0 & db & -> & Hn & Hx & _)]]; [by apply H| |].
  - destruct e; cbn in Hb; try done; try (apply asked_Ok in Hb as (x & Hb & _)); apply bind_Ok in Hb as (y & Hc & Hb); try done. injection Hb as <- <-. by apply delete_check_spec in Hc as [Hne _].
  - next_part tk0 Hx; done.
Qed.

(** The caller of a deletion still has his own account when it is written. *)
Definition caller_lives (now : Z) (e : event) (w : world) : Prop :=
  match e with
  | ENext n _ _ _ _ => match w_tasks w !! n with Some (Deleting who _) => live_user (w_db w) (getUserId who) <> None | _ => True end
  | _ => True
  end.

Lemma step_setup now e w : new_ids now e w -> caller_lives now e w -> not_oneself w -> positive_ids (w_db w) ->
  positive_ids (w_db (step now e w)) /\ (isSetup (w_db w) = true -> isSetup (w_db (step now e w)) = true).
Proof.
  intros Hids Hlives Hself Hpos. rewrite !isSetup_true. unfold positive_ids.
  assert (forall p f, (forall u, u_id (f u) = u_id u) -> forall u, u ∈ update_rows p f (t_users (w_db w)) -> 0 < u_id u) as Hupd.
  { intros p f Hf u (y & Hy & ->)%elem_of_update_rows. destruct (p y); rewrite ?Hf; by apply Hpos. }
  assert (forall (p : user -> bool) (f : user -> user) u, u ∈ t_users (w_db w) -> (if p u then f u else u) ∈ update_rows p f (t_users (w_db w))) as Hin.
  { intros p f u Hu. by apply (list_elem_of_fmap_2 (fun x => if p x then f x else x)). }
  assert (forall p f, (forall u, u_id (f u) = u_id u /\ u_is_deleted (f u) = u_is_deleted u) -> (exists u, u ∈ t_users (w_db w) /\ u_is_deleted u = false /\ 0 < u_id u) ->
    exists u, u ∈ update_rows p f (t_users (w_db w)) /\ u_is_deleted u = false /\ 0 < u_id u) as Hkeep.
  { intros p f Hf (u & Hu & H1 & H2). eexists. split; [by apply Hin|]. destruct (Hf u) as [H3 H4]. destruct (p u); by rewrite ?H3, ?H4. }
  assert (forall v, 0 < u_id v -> (forall u, u ∈ t_users (w_db w) ++ [v] -> 0 < u_id u) /\ ((exists u, u ∈ t_users (w_db w) /\ u_is_deleted u = false /\ 0 < u_id u) ->
    exists u, u ∈ t_users (w_db w) ++ [v] /\ u_is_deleted u = false /\ 0 < u_id u)) as Hadd.
  { intros v Hv. split; [intros u [Hu| ->%list_elem_of_singleton]%elem_of_app; [by apply Hpos|done]|]. intros (u & Hu & H). exists u. split; [apply elem_of_app; by left|done]. }
  destruct (step_users now e w) as [|n uid aid salt jti who data v -> Htk _ _ Hid _|n uid aid salt jti a data v -> Htk _ _ _ _|n uid aid salt jti who id -> Htk|n uid aid salt jti cfg info u -> Htk|n uid aid salt jti cfg info bound u -> Htk Hs].
  - done.
  - apply Hadd. rewrite Hid. by destruct Hids.
  - split; [by apply Hupd|by apply Hkeep].
  - split; [by apply Hupd|]. intros _. cbn in Hlives. rewrite Htk in Hlives. destruct (live_user (w_db w) (getUserId who)) as [r|] eqn:Hr; [|done]. apply live_user_spec in Hr as (Hr & Hrid & Hrd).
    exists r. pose proof (Hin (fun u => u_id u =? id) deleted r Hr) as H. assert ((u_id r =? id) = false) as Hf.
    { apply Z.eqb_neq. rewrite Hrid. apply list_elem_of_lookup_2, Hself in Htk. congruence. }
    cbn in H. rewrite Hf in H. split_and!; [done|done|by apply Hpos].
  - split; [by apply Hupd|by apply Hkeep].
  - apply Hadd. inversion Hs; subst. by destruct Hids.
Qed.

(** C32. Once there is an account there is one for ever, and the setup, in which anybody may make
    themselves an admin, never opens again, as long as no deletion is written whose caller lost his
    own account after it was allowed. Two admins who delete each other at once do that:
    [admins_delete_each_other]. *)
Theorem setup_stays_closed es w : positive_ids (w_db w) -> w_tasks w = [] -> isSetup (w_db w) = true ->
  always new_ids es w -> always caller_lives es w -> isSetup (w_db (run es w)) = true.
Proof.
  intros Hp Hnone Hs. assert (not_oneself w) as Hself by (intros who id Hin; rewrite Hnone in Hin; by apply elem_of_nil in Hin). clear Hnone. revert w Hp Hs Hself. unfold run.
  induction es as [|[t e] es IH]; intros w Hp Hs Hself; [done|]. intros [Hi Ha] [Hc Hc']. destruct (step_setup t e w Hi Hc Hself Hp) as [H1 H2]. cbn.
  apply IH; auto using step_not_oneself.
Qed.

(** ** One account for an address *)

Lemma lower_char_idem c : lower_char (lower_char c) = lower_char c.
Proof. destruct c as [[] [] [] [] [] [] [] []]; vm_compute; reflexivity. Qed.

Lemma lower_char_space c : is_space (lower_char c) = is_space c.
Proof. destruct c as [[] [] [] [] [] [] [] []]; vm_compute; reflexivity. Qed.

Lemma to_lower_cons c s : to_lower (String c s) = String (lower_char c) (to_lower s).
Proof. done. Qed.

Lemma to_lower_idem s : to_lower (to_lower s) = to_lower s.
Proof. induction s as [|c s IH]; [done|]. by rewrite !to_lower_cons, lower_char_idem, IH. Qed.

Lemma to_lower_trim s : to_lower (trim s) = trim (to_lower s).
Proof.
  unfold trim. assert (to_lower (trim_start s) = trim_start (to_lower s)) as <-.
  { induction s as [|c s IH]; [done|]. rewrite to_lower_cons. cbn [trim_start]. rewrite lower_char_space. by destruct (is_space c). }
  generalize (trim_start s). clear s. intros s. induction s as [|c s IH]; [done|]. rewrite to_lower_cons. cbn [trim_end]. rewrite lower_char_space, <- IH.
  destruct (is_space c); cbn [andb]; [|by rewrite to_lower_cons]. destruct (trim_end s); [done|]. by rewrite to_lower_cons.
Qed.

Lemma trim_start_nonspace s : match trim_start s with String c _ => is_space c = false | "" => True end.
Proof. induction s as [|c s IH]; [done|]. cbn. by destruct (is_space c) eqn:Hc. Qed.

Lemma trim_end_idem s : trim_end (trim_end s) = trim_end s.
Proof.
  induction s as [|c s IH]; [done|]. cbn [trim_end]. destruct (is_space c && bool_decide (trim_end s = "")) eqn:H; [done|]. cbn [trim_end]. by rewrite IH, H.
Qed.

Lemma trim_idem s : trim (trim s) = trim s.
Proof.
  unfold trim. pose proof (trim_start_nonspace s) as H. destruct (trim_start s) as [|c r]; [done|]. cbn [trim_end]. rewrite H. cbn [andb trim_start]. rewrite H.
  cbn [trim_end]. rewrite H. cbn [andb]. by rewrite trim_end_idem.
Qed.

(** Addresses are kept in the form they are looked up in. *)
Lemma address_idem x : trim (to_lower (trim (to_lower x))) = trim (to_lower x).
Proof. by rewrite to_lower_trim, trim_idem, to_lower_idem. Qed.

Definition addresses_ok (l : list user) : Prop :=
  NoDup (u_id <$> l) /\ (forall u, u ∈ l -> trim (to_lower (u_email u)) = u_email u) /\
  forall u v, u ∈ l -> v ∈ l -> u_is_deleted u = false -> u_is_deleted v = false -> u_email u = u_email v -> u = v.

Lemma available_spec db email id : isEmailAvailable db email id = true -> forall u, u ∈ t_users db -> u_email u = trim (to_lower email) -> u_is_deleted u = false ->
  match id with Some i => u_id u = i | None => False end.
Proof.
  unfold isEmailAvailable. intros H%negb_true_iff u Hu He Hd. rewrite existsb_false in H. specialize (H u Hu). rewrite He, bool_decide_eq_true_2, Hd in H by done. cbn in H.
  destruct id as [i|]; [|done]. apply negb_false_iff in H. by apply Z.eqb_eq in H.
Qed.

Lemma user_unique l u v : NoDup (u_id <$> l) -> u ∈ l -> v ∈ l -> u_id u = u_id v -> u = v.
Proof.
  intros H Hu Hv He. apply list_elem_of_lookup in Hu as [i Hi]. apply list_elem_of_lookup in Hv as [j Hj]. assert (i = j) as ->; [|congruence].
  apply (NoDup_lookup _ i j (u_id u) H); rewrite list_lookup_fmap; [by rewrite Hi|by rewrite Hj, He].
Qed.

(** A new row whose address no live row has. *)
Lemma addresses_add l v : addresses_ok l -> u_id v ∉ u_id <$> l -> trim (to_lower (u_email v)) = u_email v ->
  (forall u, u ∈ l -> u_email u = u_email v -> u_is_deleted u = true) -> addresses_ok (l ++ [v]).
Proof.
  intros (H1 & H2 & H3) Hid Hn Hf. split_and!.
  - rewrite fmap_app. apply NoDup_app. split_and!; [done| |apply NoDup_singleton]. intros x Hx ->%list_elem_of_singleton. done.
  - intros u [Hu| ->%list_elem_of_singleton]%elem_of_app; auto.
  - intros u x [Hu| ->%list_elem_of_singleton]%elem_of_app [Hx| ->%list_elem_of_singleton]%elem_of_app Hdu Hdx He; [auto| | |done].
    + rewrite (Hf u Hu He) in Hdu. done.
    + rewrite (Hf x Hx (eq_sym He)) in Hdx. done.
Qed.

(** A change of one row that keeps its address, or gives it one no other live row has. *)
Lemma addresses_update l id f : addresses_ok l -> (forall u, u_id (f u) = u_id u) -> (forall u, u_is_deleted (f u) = false -> u_is_deleted u = false) ->
  (forall u, u ∈ l -> u_id u = id -> u_is_deleted u = false -> trim (to_lower (u_email (f u))) = u_email (f u) /\
     (u_email (f u) = u_email u \/ forall v, v ∈ l -> u_email v = u_email (f u) -> u_is_deleted v = false -> u_id v = id)) ->
  (forall u, u ∈ l -> u_id u = id -> trim (to_lower (u_email (f u))) = u_email (f u)) ->
  addresses_ok (update_rows (fun u => u_id u =? id) f l).
Proof.
  intros (H1 & H2 & H3) Hid Hdel Hf Hn. split_and!.
  - rewrite update_rows_keys; [done|]. by intros.
  - intros u (y & Hy & ->)%elem_of_update_rows. destruct (u_id y =? id) eqn:Hp; [apply Hn; [done|by apply Z.eqb_eq]|by apply H2].
  - assert (forall x y, x ∈ l -> y ∈ l -> u_id x = id -> u_id y <> id -> u_is_deleted x = false -> u_is_deleted y = false -> u_email (f x) = u_email y -> False) as Hno.
    { intros x y Hx Hy Hxi Hyi Hdx Hdy He. destruct (Hf x Hx Hxi Hdx) as [_ [Hk|Hk]].
      - assert (x = y) as -> by (apply H3; congruence). done.
      - by apply Hyi, Hk. }
    intros u v (x & Hx & ->)%elem_of_update_rows (y & Hy & ->)%elem_of_update_rows Hdu Hdv He.
    destruct (u_id x =? id) eqn:Hp, (u_id y =? id) eqn:Hq; rewrite ?Z.eqb_eq, ?Z.eqb_neq in *.
    + by rewrite (user_unique l x y H1 Hx Hy) by congruence.
    + exfalso. apply (Hno x y); auto.
    + exfalso. apply (Hno y x); auto.
    + auto.
Qed.

Lemma step_addresses now e w : new_ids now e w -> addresses_ok (t_users (w_db w)) -> addresses_ok (t_users (w_db (step now e w))).
Proof.
  intros Hids Hok. pose proof Hok as (H1 & H2 & H3).
  destruct (step_users now e w) as [|n uid aid salt jti who data v -> Htk Hav [x Hx] Hid _|n uid aid salt jti a data v -> Htk Hv Hvi Hvd Hav|n uid aid salt jti who id -> Htk|n uid aid salt jti cfg info u -> Htk|n uid aid salt jti cfg info bound u -> Htk Hs].
  - done.
  - apply addresses_add; [done|rewrite Hid; by destruct Hids as (_ & ? & _)|rewrite Hx; apply address_idem|]. intros u Hu He. destruct (u_is_deleted u) eqn:Hd; [done|].
    exfalso. apply (available_spec _ _ _ Hav u Hu); [|done]. rewrite He, Hx. symmetry. apply address_idem.
  - assert (forall u, u ∈ t_users (w_db w) -> trim (to_lower (u_email (apply_patch gravatar data u))) = u_email (apply_patch gravatar data u)) as Hn.
    { intros u Hu. unfold apply_patch. cbn. destruct (up_email data); cbn; [apply address_idem|by apply H2]. }
    apply addresses_update; [done|done|done| |intros u Hu _; by apply Hn]. intros u Hu Hui Hud. split; [by apply Hn|].
    assert (u = v) as -> by (apply (user_unique (t_users (w_db w))); congruence). unfold apply_patch. cbn. destruct (up_email data) as [x|]; cbn; [|by left].
    destruct (decide (u_email v = trim (to_lower x))) as [He|He]; [left; congruence|right]. intros y Hy Hye Hyd.
    apply (available_spec _ _ _ (Hav x eq_refl He) y Hy); [|done]. rewrite Hye. symmetry. apply address_idem.
  - apply addresses_update; [done..| |]; [intros u Hu _ _; split; [exact (H2 u Hu)|by left]|intros u Hu _; exact (H2 u Hu)].
  - apply addresses_update; [done..| |]; [intros y Hy _ _; split; [exact (H2 y Hy)|by left]|intros y Hy _; exact (H2 y Hy)].
  - inversion Hs as [| |y Hb Hfree Hyi Hye Hyr Hyd]; subst.
    apply addresses_add; [done|by destruct Hids as (_ & ? & _)|rewrite Hye; apply address_idem|]. intros y Hy He. apply Hfree; congruence.
Qed.

(** C33. No two live accounts share an address, whatever is created, changed and signed in. *)
Theorem addresses_stay_unique es w : addresses_ok (t_users (w_db w)) -> always new_ids es w -> addresses_ok (t_users (w_db (run es w))).
Proof.
  revert w. unfold run. induction es as [|[t e] es IH]; intros w Hok; [done|]. intros [Hi Ha]. cbn. apply IH; [by apply step_addresses|done].
Qed.

(** * The identity of the provider *)

(** The account is bound to an identity: it has a row of the provider, and what it has is of this identity. *)
Definition bound_to (l : list auth_row) (id : Z) (sub : string) : Prop :=
  (id, "oidc") ∈ auth_key <$> l /\ forall a, a ∈ l -> auth_key a = (id, "oidc") -> au_is_deleted a = false /\ sub_of a = sub.

(** The account a sign-in has found. *)
Definition stage_id (st : sso_stage) : option Z :=
  match st with Looked bound => u_id <$> bound | Known u _ | Raised u | Marking u _ _ | Marked u => Some (u_id u) end.

(** The sign-ins under way that have found an account are of one identity. *)
Definition of_identity (w : world) (id : Z) (sub : string) : Prop :=
  forall cfg info st, Sso cfg info st ∈ w_tasks w -> stage_id st = Some id -> claim info "sub" = sub.

Lemma bound_live db id sub : bound_to (t_auth db) id sub -> sub <> "" -> exists a, live_auth db id "oidc" = Some a /\ sub_of a = sub.
Proof.
  intros [Hin Hall] Hne. apply list_elem_of_fmap in Hin as (a & Hk & Ha). unfold live_auth. destruct (bfind _ _) as [b|] eqn:Hb.
  - apply bfind_Some in Hb as [Hb H]. apply andb_true_iff in H as [H _]. apply andb_true_iff in H as [H1%Z.eqb_eq H2%bool_decide_eq_true_1]. exists b. split; [done|].
    apply Hall; [done|]. unfold auth_key. by rewrite H1, H2.
  - pose proof (bfind_None _ _ Hb a Ha) as Hf. symmetry in Hk. destruct (Hall a Ha Hk) as [Hd _]. unfold auth_key in Hk. injection Hk as H1 H2. cbn in Hf.
    by rewrite H1, Z.eqb_refl, H2, Hd, bool_decide_eq_true_2 in Hf.
Qed.

(** The account bound to the identity of a sign-in, when it is the bound account. *)
Lemma bound_user_identity db id sub s u : bound_to (t_auth db) id sub -> bound_user db s = Some u -> u_id u = id -> s = sub.
Proof.
  intros [_ Hall] Hb Hu. unfold bound_user in Hb. destruct (decide _); [done|]. apply bind_Some in Hb as (row & Hrow & Hl). apply bfind_Some in Hrow as [Hrow Hs%bool_decide_eq_true_1].
  apply elem_of_bfilter in Hrow as [Hrow Ht]. apply andb_true_iff in Ht as [Ht%bool_decide_eq_true_1 _]. apply live_user_spec in Hl as (_ & Hl & _).
  destruct (Hall row Hrow) as [_ H]; [unfold auth_key; by rewrite Ht, <- Hl, Hu|congruence].
Qed.

(** A sign-in that finds the bound account is by its identity. *)
Lemma account_identity db id sub bound info uid u existing : bound_to (t_auth db) id sub -> sub <> "" -> uid ∉ (au_user_id <$> t_auth db) ->
  (forall b, bound = Some b -> u_id b = id -> claim info "sub" = sub) -> sso_account db bound info uid u existing -> u_id u = id -> claim info "sub" = sub.
Proof.
  intros Hb Hne Hnew Hbound Hs Hid. destruct Hs as [u Hu|u Hu Hin He Hdel Href|u Hu Hf Hui He Hr Hdel].
  - by apply (Hbound u).
  - destruct (bound_live _ _ _ Hb Hne) as (a & Ha & Hsub). rewrite Hid, Ha in Href. cbn in Href. rewrite Hsub in Href. unfold ssoLinkRefusal in Href. rewrite decide_False in Href by done.
    apply negb_false_iff, bool_decide_eq_true_1 in Href. done.
  - exfalso. apply Hnew. destruct Hb as [Hin _]. apply list_elem_of_fmap in Hin as (a & Hk & Ha). unfold auth_key in Hk. injection Hk as Hk _. rewrite <- Hui, Hid, Hk. by apply list_elem_of_fmap_2.
Qed.

Lemma step_of_identity now e w id sub : new_ids now e w -> bound_to (t_auth (w_db w)) id sub -> sub <> "" -> of_identity w id sub -> of_identity (step now e w) id sub.
Proof.
  intros Hids Hb Hne Hof cfg info st Hin Hst. apply step_tasks in Hin as [Hin|[Hbg|(n & uid & aid & salt & jti & tk & db & -> & Hn & Hx & _)]]; [by eapply Hof| |].
  - destruct e; cbn in Hbg; try done; try (apply asked_Ok in Hbg as (who & Hbg & _); apply bind_Ok in Hbg as (x & _ & Hbg); done).
    apply bind_Ok in Hbg as (bound & Hc & Hbg). injection Hbg as -> -> <-. apply completeLogin_Ok in Hc as (_ & _ & ->). cbn in Hst.
    destruct (bound_user (w_db w) _) as [u|] eqn:Hu; [|done]. injection Hst as Hst. by eapply bound_user_identity.
  - apply list_elem_of_lookup_2 in Hn. rename id into bid. next_part tk Hx; try done; apply Goes_inj in Ho; injection Ho as -> -> <-; cbn in Hst.
    + destruct x as [[db' u] ex]. apply ensure_account_spec in Hf as (Hs & _). injection Hst as Hst. destruct Hids as (_ & _ & Hu & _). eapply account_identity; [done..| |exact Hs|done].
      intros b -> Hbid. eapply Hof; [exact Hn|]. cbn. by rewrite Hbid.
    + eapply Hof; [exact Hn|done].
    + eapply Hof; [exact Hn|done].
    + eapply Hof; [exact Hn|done].
Qed.

Lemma step_bound now e w id sub : rows_ok w -> of_identity w id sub -> bound_to (t_auth (w_db w)) id sub -> bound_to (t_auth (w_db (step now e w))) id sub.
Proof.
  intros Hok Hof [Hin Hall]. split.
  { apply list_elem_of_fmap in Hin as (a & Hk & Ha). pose proof (step_names now e w (row_name a) (list_elem_of_fmap_2 _ _ _ Ha)) as (b & Hb & Hin)%list_elem_of_fmap. injection Hb as _ Hb1 Hb2.
    apply list_elem_of_fmap. exists b. split; [|done]. rewrite Hk. unfold auth_key. by rewrite Hb1, Hb2. }
  assert (forall p f, (forall x, x ∈ t_auth (w_db w) -> p x = true -> auth_key (f x) = (id, "oidc") -> au_is_deleted (f x) = false /\ sub_of (f x) = sub) ->
    forall a, a ∈ update_rows p f (t_auth (w_db w)) -> auth_key a = (id, "oidc") -> au_is_deleted a = false /\ sub_of a = sub) as Hupd.
  { intros p f Hf a (y & Hy & ->)%elem_of_update_rows. destruct (p y) eqn:Hp; [by apply Hf|by apply Hall]. }
  assert (forall x, (auth_key x = (id, "oidc") -> au_is_deleted x = false /\ sub_of x = sub) ->
    forall a, a ∈ t_auth (w_db w) ++ [x] -> auth_key a = (id, "oidc") -> au_is_deleted a = false /\ sub_of a = sub) as Hadd.
  { intros x Hx a [Ha| ->%list_elem_of_singleton]%elem_of_app; [by apply Hall|done]. }
  destruct (step_auth now e w) as [|n uid aid salt jti data i secret -> Hn|n wr -> Hn|n jti i auth hash -> Hn Hc|n uid aid salt jti cfg info u row m -> Hn].
  - done.
  - by apply Hadd.
  - destruct wr as [b m|b s m|aid i s m]; cbn [commit patch_auth add_auth t_auth].
    + apply Hupd. intros x Hx [_ Hp%bool_decide_eq_true_1]%andb_true_iff Hk. unfold auth_key in Hk. cbn in Hk. congruence.
    + apply Hupd. done.
    + by apply Hadd.
  - destruct (consume_spec _ _ _ _ Hc) as (fresh & Hf1 & Hf2 & Hf3 & Hf4 & ->). cbn [patch_auth t_auth]. apply Hupd. intros x Hx Hp%Z.eqb_eq Hk.
    assert (x = fresh) as -> by (apply (row_unique (t_auth (w_db w))); [apply Hok|done..|congruence]). unfold auth_key in Hk, Hf3. cbn in Hk. congruence.
  - apply list_elem_of_lookup_2 in Hn. pose proof (proj2 Hok _ _ _ _ _ Hn) as [[t Hm] _].
    assert (u_id u = id -> default "" (sso_sub m) = sub) as Hsub by (intros Hu; rewrite Hm; cbn; by apply (Hof cfg info (Marking u row m)); [|cbn; rewrite Hu]).
    destruct row as [r|]; cbn [mark_write patch_auth add_auth t_auth].
    + apply Hupd. intros x Hx Hp%Z.eqb_eq Hk. split; [done|]. apply Hsub. pose proof (marked_row w cfg info u r m x Hok Hn Hx Hp) as H. unfold auth_key in H, Hk. cbn in Hk. congruence.
    + apply Hadd. intros Hk. split; [done|]. apply Hsub. unfold auth_key in Hk. cbn in Hk. congruence.
Qed.

(** C15. An account that is bound to an identity of the provider, while no sign-in with another
    identity has already found it, stays bound to this identity for ever, and only sign-ins with it
    get a session of the account, whatever addresses the provider reports and however sign-ins
    overlap. Two first sign-ins with the address of an unbound account can overlap before:
    [overlapping_sign_ins_rebind]. *)
Theorem sso_binding_is_final es w id sub : rows_ok w -> bound_to (t_auth (w_db w)) id sub -> sub <> "" -> of_identity w id sub -> always new_ids es w ->
  bound_to (t_auth (w_db (run es w))) id sub /\
  forall t e v cfg info lifetime, (t, e, v) ∈ trace es w -> sso_at cfg info id lifetime t e v -> claim info "sub" = sub.
Proof.
  unfold run. revert w. induction es as [|[t e] es IH]; intros w Hok Hb Hne Hof; [intros _; split; [done|]; intros *; intros H; by apply elem_of_nil in H|].
  intros [Hids Ha]. cbn [foldl trace fst snd].
  destruct (IH (step t e w) (step_rows_ok t e w Hids Hok) (step_bound t e w id sub Hok Hof Hb) Hne (step_of_identity t e w id sub Hids Hb Hne Hof) Ha) as [H1 H2]. split; [done|].
  intros t' e' v cfg info lifetime [Heq|Hin]%elem_of_cons; [|by eapply H2]. injection Heq as -> -> ->. intros (n & uid & aid & salt & jti & u & _ & Hn & Hid & _).
  apply (Hof cfg info (Marked u)); [by eapply list_elem_of_lookup_2|]. cbn. by rewrite Hid.
Qed.

End History.

(** * Examples *)

(** The libraries, by example: a lifetime as [ms] reads it, dates up to the last there is, texts
    that stand for tokens, salted texts for hashes, one code for every secret. *)
Definition ex_units : list (string * Z) := [("w", 604800); ("d", 86400); ("h", 3600); ("m", 60); ("s", 1)].
Definition ex_exp (iat : Z) (l : expires_in) : option Z :=
  match l with
  | Seconds n => Some (iat + n)
  | Period v => '(n, unit) ← parse_period v; factor ← mget unit (("M", 60) :: ex_units); Some (iat + n * factor)
  end.
Definition ex_date (now n : Z) (unit : string) : moment :=
  let ms := now + n * (default 31536000 (mget unit (("M", 2419200) :: ex_units)) * 1000) in
  if ms <=? 8640000000000000 then At ms else InvalidDate.

Definition ex_session : claims := Claims "api" 1 None ["user"] 1000 87400 "j1".
Definition ex_challenge : claims := Claims "api" 1 None ["2fa-challenge"] 1000 1300 "j1".
Definition ex_sso : claims := Claims "oidc" 2 (Some 29800) ["user"] 1000 29800 "j2".
Definition ex_verify (t : Z) (s : string) : option claims :=
  c ← mget s [("session", ex_session); ("challenge", ex_challenge); ("sso", ex_sso)]; if t <? c_exp c then Some c else None.
Definition ex_hash (cost : Z) (plain salt : string) : string := salt +:+ "$" +:+ plain.
Definition ex_compare (plain hash : string) : bool := ends_with ("$" +:+ plain) hash.
Definition ex_totp (secret code : string) (now : Z) : option bool := Some (bool_decide (code = "123456")).
Definition ex_gravatar (email : string) : string := "a".

Definition ex_run : list (Z * event) -> world -> world := run ex_exp ex_verify ex_date ex_gravatar ex_hash ex_compare ex_totp.
Definition ex_trace : list (Z * event) -> world -> list (Z * event * world) := trace ex_exp ex_verify ex_date ex_gravatar ex_hash ex_compare ex_totp.

(** An admin with a password, two factor on or off, and an account of the provider. *)
Definition ex_admin : user := User 1 "root@x.de" "Root" "root" "" ["admin"] false false.
Definition ex_member : user := User 2 "anna@x.de" "Anna" "anna" "" ["admin"] false false.
Definition ex_meta (on : bool) : auth_meta := AuthMeta on None (if on then Some "SECRET" else None) None (if on then Some ["s1$AAAA1111"; "s2$BBBB2222"] else None) None None None.
Definition ex_sso_row (id user : Z) : auth_row := AuthRow id user "oidc" "" (AuthMeta false None None None None None (Some "S") (Some 0)) false.
Definition ex_db (on : bool) : accounts :=
  Accounts [ex_admin; ex_member] [AuthRow 1 1 "password" "s$correct" (ex_meta on) false; ex_sso_row 2 2]
    [PermissionRow 1 "all" "manage" "manage" "manage" "manage" "manage" "manage"; PermissionRow 2 "all" "manage" "manage" "manage" "manage" "manage" "manage"].
Definition ex_world (on : bool) : world := World 1000000 (ex_db on) [] [] [] [] [].
Definition ex_login : event := ELogin "root@x.de" "correct" VUndef "j1".
Definition ex_cfg : oidc_config := OidcConfig "vpn" "groups" (VStr "8h").
Definition ex_info (email : string) : jsval := VObj [("sub", VStr "S"); ("email", VStr email); ("groups", VStr "VPN")].

(** The parts of the handler that waits first, with the ids the database would give. *)
Definition ex_parts (t : Z) (count : nat) (uid aid : Z) (jti : string) : list (Z * event) := repeat (t, ENext 0 uid aid "s3" jti) count.
(** A sign-in over the provider with nothing in between. *)
Definition ex_sign_in (t : Z) (email : string) (uid aid : Z) : list (Z * event) := (t, ESso ex_cfg true (ex_info email)) :: ex_parts t 5 uid aid "j2".

(** Two requests with the same backup code: both find it, one consumes it. *)
Definition ex_double : list (Z * event) :=
  [(1000000, ex_login); (1001000, EVerify "challenge" "aaaa1111"); (1001000, EVerify "challenge" "aaaa1111"); (1002000, EVerified 0 "j3"); (1002000, EVerified 0 "j4")].

Example ex_double_used : w_used (ex_run ex_double (ex_world true)) = [(1, "s1$AAAA1111")] /\ length (w_issued (ex_run ex_double (ex_world true))) = 2%nat.
Proof. vm_compute. done. Qed.

Lemma ex_rows_ok on : rows_ok (ex_world on).
Proof. split; [apply (bool_decide_eq_true_1 _); vm_compute; reflexivity|]. intros cfg info u row m []%elem_of_nil. Qed.

Lemma codes_are_single_use_witness : NoDup (w_used (ex_run ex_double (ex_world true))).
Proof.
  apply (codes_are_single_use ex_exp ex_verify ex_date ex_gravatar ex_hash ex_compare ex_totp ex_double (ex_world true)); [apply ex_rows_ok|reflexivity|reflexivity|..];
    exact (conj I (conj I (conj I (conj I (conj I I))))).
Defined.

Lemma ex_known s t c d (l : list claims) : mget s [("session", ex_session); ("challenge", ex_challenge); ("sso", ex_sso)] = Some d -> d ∈ l -> ex_verify t s = Some c -> c ∈ l.
Proof. unfold ex_verify. intros -> Hd. cbn. destruct (t <? c_exp d); [|done]. by intros [= <-]. Qed.

Lemma ex_authentic e now w s d : token_of_event e = Some s -> mget s [("session", ex_session); ("challenge", ex_challenge); ("sso", ex_sso)] = Some d -> d ∈ w_issued w -> authentic ex_verify now e w.
Proof. intros Hs Hd Hin s' t c. rewrite Hs. intros [= <-]. by eapply ex_known. Qed.

Lemma ex_silent e now w : token_of_event e = None -> authentic ex_verify now e w.
Proof. intros H s t c. by rewrite H. Qed.

Lemma every_session_was_earned_witness : let es := [(1000000, ex_login); (1001000, EVerify "challenge" "123456"); (1002000, EVerified 0 "j3")] in
  exists c, c ∈ w_issued (ex_run es (ex_world true)) /\ "user" ∈ c_scope c /\ entered ex_verify ex_compare ex_totp (ex_trace es (ex_world true)) (c_id c).
Proof.
  intros es. exists (Claims "api" 1 None ["user"] 1002 87402 "j3"). split_and!; [vm_compute; right; left|left|].
  apply (every_session_was_earned ex_exp ex_verify ex_date ex_gravatar ex_hash ex_compare ex_totp es (ex_world true)); [reflexivity|reflexivity|reflexivity| |vm_compute; right; left|left].
  split; [split; [by apply ex_silent|exact I]|]. split; [split; [|exact I]|split; [split; [by apply ex_silent|exact I]|exact I]].
  eapply ex_authentic; [reflexivity|reflexivity|vm_compute; left].
Defined.

Lemma ex_exp_period now v n unit until exp : parse_period v = Some (n, unit) -> ex_date now n unit = At until -> until <= now + MAX_REFRESH ->
  ex_exp (now / 1000) (Period v) = Some exp -> exp * 1000 <= until + 0.
Proof.
  intros Hp Hd _ He. unfold ex_exp in He. rewrite Hp in He. apply bind_Some in He as ([n' unit'] & [= <- <-] & He). apply bind_Some in He as (f & Hf & He). injection He as <-. unfold ex_date in Hd.
  destruct (_ <=? 8640000000000000); [|done]. injection Hd as <-. pose proof (Z.div_mod now 1000 ltac:(lia)). pose proof (Z.mod_pos_bound now 1000 ltac:(lia)).
  assert (0 <= n) as Hn.
  { destruct v; try done. cbn [parse_period] in Hp. apply bind_Some in Hp as ([d u] & Hd & Hp). cbv beta iota in Hp. destruct (decide (u ∈ _)); [|done]. injection Hp as <- _. by apply num_of_digits_nonneg, (period_digits s d u). }
  cbn [mget ex_units] in *. repeat (destruct (decide (_ = unit)); [injection Hf as <-; cbn [from_option]; unfold id; nia|]). done.
Qed.

Lemma sso_sessions_end_witness : let es := ex_sign_in 1000000 "anna@x.de" 3 3 ++ [(2000000, ERefresh (Some "sso") (VStr "1d") "j3")] in
  exists c, c ∈ w_issued (ex_run es (ex_world true)) /\ c_iat c = 2000 /\
    (bounded_by_sso 0 (ex_trace es (ex_world true)) c \/ entered_otherwise ex_verify ex_compare (ex_trace es (ex_world true)) (c_id c)).
Proof.
  intros es. exists (Claims "api" 2 (Some 29800) ["user"] 2000 29800 "j3"). split_and!; [vm_compute; right; left|reflexivity|].
  apply (sso_sessions_end ex_exp ex_verify ex_date ex_gravatar ex_hash ex_compare ex_totp 0 ltac:(lia)); [by intros iat n exp [= <-]|exact ex_exp_period|reflexivity|reflexivity|reflexivity| |vm_compute; right; left].
  unfold es, ex_sign_in, ex_parts. cbn [repeat app always].
  do 6 (split; [split; [split; [by apply ex_silent|exact I]|split; [lia|exact I]]|]). split; [|exact I]. split; [split; [|exact I]|split; [lia|]].
  - eapply ex_authentic; [reflexivity|reflexivity|vm_compute; left].
  - intros n unit [= <- <-]. vm_compute. discriminate.
Defined.

(** The session from before the change, against the account after it. *)
Definition ex_change : list (Z * event) := [(1000000, ex_login); (1050000, EPassword (Some "session") 1 (Some "correct") "newsecret" 9 "s9")].

Lemma password_change_is_final_witness :
  refused ex_exp ex_verify ex_date ex_compare ex_totp (w_db (ex_run (ex_change ++ [(1060000, ECommit 0); (1070000, EStartSetup (Some "session") 1 "X")]) (ex_world false))) ex_session.
Proof.
  apply (password_change_is_final ex_exp ex_verify ex_date ex_gravatar ex_hash ex_compare ex_totp ex_change [(1070000, EStartSetup (Some "session") 1 "X")] 1060000 0 (ex_world false)
    (AuthRow 1 1 "password" "s$correct" (ex_meta false) false) "s9$newsecret" (changed 1050000 (ex_meta false)) ex_session);
    [apply ex_rows_ok|reflexivity|vm_compute; discriminate| | |vm_compute; reflexivity|vm_compute; reflexivity| |reflexivity|vm_compute; discriminate|vm_compute; reflexivity].
  - repeat constructor; vm_compute; discriminate.
  - repeat (split; [split; [vm_compute; discriminate|exact I]|]). exact I.
  - intros [|k] wr c Hk Hw; [done|]. vm_compute in Hw. discriminate.
Defined.

Lemma sso_binding_is_final_witness : let es := ex_sign_in 1000000 "anna@x.de" 3 3 ++ ex_sign_in 2000000 "renamed@y.de" 3 3 in
  bound_to (t_auth (w_db (ex_run es (ex_world true)))) 2 "S" /\
  forall t e v cfg info lifetime, (t, e, v) ∈ ex_trace es (ex_world true) -> sso_at cfg info 2 lifetime t e v -> claim info "sub" = "S".
Proof.
  intros es. apply (sso_binding_is_final ex_exp ex_verify ex_date ex_gravatar ex_hash ex_compare ex_totp es (ex_world true) 2 "S"); [apply ex_rows_ok| |done|intros cfg info st []%elem_of_nil|].
  - split; [apply (bool_decide_eq_true_1 _); vm_compute; reflexivity|]. intros a [->|[->|[]%elem_of_nil]%elem_of_cons]%elem_of_cons; [discriminate|done].
  - unfold es, ex_sign_in, ex_parts. cbn [repeat app always]. do 2 (split; [exact I|]; do 5 (split; [split_and!; [lia|..]; apply (bool_decide_eq_true_1 _); vm_compute; reflexivity|])). exact I.
Defined.

(** A member is locked by an admin. *)
Definition ex_lock : list (Z * event) := [(1000000, ex_login); (1050000, EUpdate (Some "session") (UserPatch 2 None None None (Some []) (Some true)))].

Lemma rights_come_from_admins_witness : let w := ex_run ex_lock (ex_world false) in let e := ENext 0 3 3 "s3" "j3" in let u' := User 2 "anna@x.de" "Anna" "anna" "a" [] true false in
  u' ∈ t_users (w_db (step ex_exp ex_verify ex_date ex_gravatar ex_hash ex_compare ex_totp 1050000 e w)) /\
  ((exists u, u ∈ t_users (w_db w) /\ rights u = rights u') \/
   exists n uid aid salt jti tk, e = ENext n uid aid salt jti /\ w_tasks w !! n = Some tk /\
     (by_an_admin ex_verify (ex_trace ex_lock (ex_world false)) tk \/ by_the_group (ex_trace ex_lock (ex_world false)) tk \/ by_the_setup (ex_trace ex_lock (ex_world false)) tk)).
Proof.
  intros w e u'. assert (u' ∈ t_users (w_db (step ex_exp ex_verify ex_date ex_gravatar ex_hash ex_compare ex_totp 1050000 e w))) as Hu by (vm_compute; right; left).
  split; [exact Hu|]. exact (rights_come_from_admins ex_exp ex_verify ex_date ex_gravatar ex_hash ex_compare ex_totp ex_lock (ex_world false) 1050000 e u' eq_refl Hu).
Defined.

Lemma setup_stays_closed_witness : let es := [(1000000, ex_login); (1050000, EDelete (Some "session") 2); (1051000, ENext 0 3 3 "" "")] in
  live_user (w_db (ex_run es (ex_world false))) 2 = None /\ isSetup (w_db (ex_run es (ex_world false))) = true.
Proof.
  intros es. split; [vm_compute; reflexivity|].
  apply (setup_stays_closed ex_exp ex_verify ex_date ex_gravatar ex_hash ex_compare ex_totp es (ex_world false)); [|reflexivity|reflexivity| |].
  - refine (proj1 (Forall_forall (fun u => 0 < u_id u) _) _). repeat constructor; vm_compute; reflexivity.
  - split; [exact I|]. split; [exact I|]. split; [split_and!; [lia|..]; apply (bool_decide_eq_true_1 _); vm_compute; reflexivity|exact I].
  - split; [exact I|]. split; [exact I|]. split; [vm_compute; discriminate|exact I].
Defined.

(** Two requests for one address, the second under way before the first is written. *)
Definition ex_two : list (Z * event) :=
  [(1000000, ex_login); (1050000, ECreate (Some "session") (NewUser " Carl@X.de" "Carl" "carl" None None (Some "password1")));
   (1050000, ECreate (Some "session") (NewUser "carl@x.DE " "Carl" "carl" None None None)); (1051000, ENext 0 3 3 "s3" ""); (1051000, ENext 1 3 3 "s3" "");
   (1052000, ENext 1 3 3 "s3" ""); (1053000, ENext 0 4 4 "s3" "")].

Lemma addresses_stay_unique_witness :
  u_email <$> t_users (w_db (ex_run ex_two (ex_world false))) = ["root@x.de"; "anna@x.de"; "carl@x.de"] /\ addresses_ok (t_users (w_db (ex_run ex_two (ex_world false)))).
Proof.
  split; [vm_compute; reflexivity|]. apply (addresses_stay_unique ex_exp ex_verify ex_date ex_gravatar ex_hash ex_compare ex_totp ex_two (ex_world false)).
  - split_and!; [apply (bool_decide_eq_true_1 _); vm_compute; reflexivity|refine (proj1 (Forall_forall (fun u => trim (to_lower (u_email u)) = u_email u) _) _); repeat constructor; vm_compute; reflexivity|].
    intros u v [->|[->|[]%elem_of_nil]%elem_of_cons]%elem_of_cons [->|[->|[]%elem_of_nil]%elem_of_cons]%elem_of_cons _ _ He; try reflexivity; vm_compute in He; discriminate.
  - unfold ex_two. cbn [always]. do 3 (split; [exact I|]). do 4 (split; [split_and!; [lia|..]; apply (bool_decide_eq_true_1 _); vm_compute; reflexivity|]). exact I.
Defined.

(** ** What two handlers on one row do to each other *)

(** A new password is hashed while a backup code is used: the write brings the code back. *)
Lemma late_write_revives_code :
  let es := [(1000000, ex_login); (1001000, EVerify "challenge" "AAAA1111"); (1001000, EPassword (Some "sso") 1 None "newsecret" 9 "s9"); (1002000, EVerified 0 "j3"); (1003000, ECommit 0);
             (1004000, ELogin "root@x.de" "newsecret" VUndef "j5"); (1005000, EVerify "challenge" "AAAA1111")] in
  let w := World 1000000 (ex_db true) [ex_sso] [] [] [] [] in
  w_used (ex_run es w) = [(1, "s1$AAAA1111")] /\ "s1$AAAA1111" ∈ default [] (a ← auth_of (w_db (ex_run es w)) 1 "password"; backup_codes (au_meta a)).
Proof. vm_compute. split; [reflexivity|left]. Qed.

(** A password is changed while two factor is switched on: the write of the latter takes the
    stamp away, and the sessions the change had ended work again. *)
Lemma late_write_revives_sessions :
  let es := [(1000000, ex_login); (1010000, EStartSetup (Some "session") 1 "SECRET"); (1011000, ECommit 0);
             (1050000, EEnable (Some "session") 1 "123456" [("CCCC3333", "s3")]); (1051000, EPassword (Some "session") 1 (Some "correct") "newsecret" 9 "s9"); (1052000, ECommit 1)] in
  let w := ex_run es (ex_world false) in
  assertTokenNotRevoked (w_db w) 1 1000 = Throw TokenRevoked /\
  assertTokenNotRevoked (w_db (ex_run [(1053000, ECommit 0)] w)) 1 1000 = Ok tt.
Proof. vm_compute. done. Qed.

(** A period beyond all dates is later than nothing: the session of a month, and that of the
    provider, is refreshed without an end. *)
Lemma endless_refresh :
  (exists c m, getFreshToken ex_exp ex_date (ex_db true) (Bearer ex_sso) (VStr "99999999999d") 2000000 "j3" = Ok (Session c m) /\ c_sso_exp c = Some 29800 /\ c_exp c = 8639999999915600) /\
  getFreshToken ex_exp ex_date (ex_db true) (Bearer ex_session) (VStr "31d") 2000000 "j3" = Throw ExpiryTooLong.
Proof. split; [eexists _, _; split_and!; vm_compute; reflexivity|vm_compute; reflexivity]. Qed.

(** A month for the answer is a minute for the token. *)
Lemma month_is_a_minute : getFreshToken ex_exp ex_date (ex_db true) (Bearer ex_session) (VStr "1M") 2000000 "j3" =
  Ok (Session (Claims "api" 1 None ["user"] 2000 2060 "j3") (At 2421200000)).
Proof. vm_compute. reflexivity. Qed.

(** The row of a deleted account hides the binding of the account that followed it: with a new
    address the same identity is given a third account. *)
Lemma deleted_account_shadows_binding :
  let gone := User 1 "root@x.de" "Root" "root" "" ["admin"] false true in
  let w := World 1000000 (Accounts [gone; ex_member] [ex_sso_row 1 1; ex_sso_row 2 2] []) [] [] [] [] [] in
  c_id <$> w_issued (ex_run (ex_sign_in 1000000 "renamed@y.de" 3 3) w) = [3].
Proof. vm_compute. reflexivity. Qed.

(** Two identities sign in with the address of an account that is not bound yet: both find it so,
    and the second takes over the binding of the first, with a session for each. *)
Lemma overlapping_sign_ins_rebind :
  let other := VObj [("sub", VStr "T"); ("email", VStr "anna@x.de"); ("groups", VStr "VPN")] in
  let w := World 1000000 (Accounts [ex_admin; ex_member] [] []) [] [] [] [] [] in
  let w1 := ex_run ([(1000000, ESso ex_cfg true (ex_info "anna@x.de")); (1000000, ESso ex_cfg true other); (1001000, ENext 0 3 3 "" ""); (1001000, ENext 1 3 3 "" "")] ++ ex_parts 1002000 4 3 3 "j1") w in
  let w2 := ex_run (ex_parts 1003000 4 4 4 "j2") w1 in
  (sub_of <$> t_auth (w_db w1)) = ["S"] /\ (c_id <$> w_issued w1) = [2] /\ (sub_of <$> t_auth (w_db w2)) = ["T"] /\ (c_id <$> w_issued w2) = [2; 2].
Proof. vm_compute. done. Qed.

(** Two requests that both found no account both create an admin. *)
Lemma setup_race :
  let first (email : string) := (1000000, ECreate None (NewUser email "N" "n" None None (Some "password1"))) in
  (fun u => (u_email u, u_roles u)) <$> t_users (w_db (ex_run ([first "a@x.de"; first "b@x.de"] ++ ex_parts 1000000 3 1 1 "" ++ ex_parts 1000000 3 2 2 "") (World 0 (Accounts [] [] []) [] [] [] [] []))) =
  [("a@x.de", ["admin"]); ("b@x.de", ["admin"])].
Proof. vm_compute. reflexivity. Qed.

(** Two admins delete each other at once: no account is left, and anybody may make themselves an admin. *)
Lemma admins_delete_each_other :
  let w := World 1050000 (ex_db true) [ex_session; ex_sso] [] [] [] [] in
  let w1 := ex_run [(1050000, EDelete (Some "session") 2); (1050000, EDelete (Some "sso") 1); (1051000, ENext 0 3 3 "" ""); (1051000, ENext 0 3 3 "" "")] w in
  isSetup (w_db w) = true /\ isSetup (w_db w1) = false /\
  (fun u => (u_email u, u_is_deleted u)) <$> t_users (w_db (ex_run ((1052000, ECreate None (NewUser "eve@x.de" "Eve" "eve" None None (Some "password1"))) :: ex_parts 1053000 3 3 3 "") w1)) =
    [("root@x.de", true); ("anna@x.de", true); ("eve@x.de", false)].
Proof. vm_compute. done. Qed.
