(* ===== verification/CloudflareDns.v ===== *)
(** The DNS records of proxy hosts: [backend/internal/cloudflare-dns.js].

    A synchronisation is a program of calls of Cloudflare's API; what the API answers, or that
    it does not, is up to it. The theorems hold for every sequence of answers. *)

From S2P Require Import Prelude.
From S2P Require Import JsString.
From S2P Require Import JsRegex.
From S2P Require Import JsVal.
From S2P Require Import Accounts.

Local Open Scope Z_scope.

(** * Calls of the API *)

(** The path of a call has the zone and the record as its parts. *)
Inductive request :=
| ListZones (name : string)
| ListRecords (zone type name : string)
| GetRecord (zone id : string)
| PostRecord (zone : string) (body : jsval)
| PutRecord (zone id : string) (body : jsval)
| DeleteRecord (zone id : string).

(** No answer in time, or one with a status and perhaps a document. *)
Inductive response := NoResponse (message : string) | Http (ok : bool) (status : Z) (json : option jsval).

Inductive cf_error :=
| NoAnswer (message : string)
| NoJson (status : Z)
| ApiFailed (payload : jsval)
| NotAnObject
| NoZone (domain : string)
| PointsElsewhere (domain type : string) (contents : list jsval)
| NoTokenForRecords (isAdmin : bool)
| NoTokenToRemove
| NoPublicAddress.

(** A program: a value, or a call with what follows its answer. *)
Inductive prog (A : Type) : Type :=
| Ret (a : A)
| Call (rq : request) (k : response -> prog A).
Arguments Ret {A} a.
Arguments Call {A} rq k.

Fixpoint pbind {A B} (p : prog A) (f : A -> prog B) : prog B :=
  match p with Ret a => f a | Call rq k => Call rq (fun rs => pbind (k rs) f) end.

Notation trace := (list (request * response)).

(** A run: the API answers by what it was asked before. *)
Fixpoint run {A} (api : trace -> request -> response) (tr : trace) (p : prog A) : trace * A :=
  match p with
  | Ret a => (tr, a)
  | Call rq k => let rs := api tr rq in run api (tr ++ [(rq, rs)]) (k rs)
  end.

(** Programs that throw. *)
Notation cf A := (prog (result cf_error A)).
Definition ret {A} (a : A) : cf A := Ret (Ok a).
Definition throw {A} (e : cf_error) : cf A := Ret (Throw e).
Definition cbind {A B} (p : cf A) (f : A -> cf B) : cf B :=
  pbind p (fun r => match r with Ok a => f a | Throw e => throw e end).
(** [try { p } catch { h }] *)
Definition try_catch {A} (p : cf A) (h : cf_error -> cf A) : cf A := pbind p (fun r => match r with Ok a => ret a | Throw e => h e end).
Definition lift {A} (r : result cf_error A) : cf A := Ret r.

Declare Scope cf_scope.
Delimit Scope cf_scope with cf.
Notation "x <- p ;; q" := (cbind p (fun x => q)) (at level 100, p at next level, right associativity) : cf_scope.

(** [for (const x of l)], with the variables the body writes. *)
Fixpoint for_each {A S} (f : S -> A -> cf S) (s : S) (l : list A) : cf S :=
  match l with [] => ret s | x :: l => cbind (f s x) (fun s => for_each f s l) end.

(** The answer as [api] returns it. *)
Definition decode (rs : response) : result cf_error jsval :=
  match rs with
  | NoResponse message => Throw (NoAnswer message)
  | Http _ status None => Throw (NoJson status)
  | Http ok _ (Some payload) => if negb ok || negb (truthy (vget payload "success")) then Throw (ApiFailed payload) else Ok (vget payload "result")
  end.

Definition api (rq : request) : cf jsval := Call rq (fun rs => Ret (decode rs)).

(** * Values *)

Definition MANAGED_COMMENT : string := "Managed by FloppyGuard".
Definition SERVER_FIELDS : list string := ["records"; "status"; "error"; "syncedAt"].
Definition CONFIG_KEYS : list string := ["cloudflareDns"; "cloudflare_dns"].

Definition is_hex_lower (c : ascii) : bool := is_digit c || in_range "a" "f" c.
(** [/^[0-9a-f]{32}$/] *)
Definition RECORD_ID_RE (s : string) : bool := sall is_hex_lower s && (String.length s =? 32)%nat.

(** [v[0]]; a nullish value has no elements to ask for. *)
Definition first_of (v : jsval) : result cf_error jsval :=
  match v with
  | VUndef | VNull => Throw NotAnObject
  | VArr l => Ok (default VUndef (head l))
  | VStr (String c _) => Ok (VStr (String c ""))
  | _ => Ok VUndef
  end.

(** [v.f] where a nullish value throws. *)
Definition prop (v : jsval) (f : string) : result cf_error jsval := if is_nullish v then Throw NotAnObject else Ok (vget v f).

(** [Object.entries(v || {})], [{...v}]: of a list or a text, its parts under their indices. *)
Definition entries_of (v : jsval) : list (string * jsval) :=
  match v with
  | VObj l => l
  | VArr l => imap (fun i x => (showZ (Z.of_nat i), x)) l
  | VStr s => imap (fun i c => (showZ (Z.of_nat i), VStr (String c ""))) (String.list_ascii_of_string s)
  | _ => []
  end.

(** [{...a, ...b}] *)
Definition spread (a b : list (string * jsval)) : list (string * jsval) := foldl (fun m p => mset p.1 p.2 m) a b.

Definition is_str (s : string) (v : jsval) : bool := match v with VStr t => bool_decide (t = s) | _ => false end.

(** * Records *)

Definition recordType (address : string) : string := if has_char ":" address then "AAAA" else "A".

Notation zone_cache := (list (string * jsval)).

(** The zone with this name, [null] without one; asked for once. *)
Definition cached_zone (name : string) (cache : zone_cache) : cf (jsval * zone_cache) :=
  (match mget name cache with
   | Some zone => ret (zone, cache)
   | None =>
       zones <- api (ListZones name);;
       zone <- lift (first_of zones);;
       ret (or_null zone, mset name (or_null zone) cache)
   end)%cf.

(** The zones of the labels, of their tail, and so on; the last label alone is none. *)
Fixpoint find_zone (domain : string) (labels : list string) (cache : zone_cache) : cf (jsval * zone_cache) :=
  (match labels with
   | [] | [_] => throw (NoZone domain)
   | _ :: rest =>
       zc <- cached_zone (join "." labels) cache;;
       if truthy zc.1 then ret zc else find_zone domain rest zc.2
   end)%cf.

Definition findZone (domain : string) (cache : zone_cache) : cf (jsval * zone_cache) := find_zone domain (split_char "." domain) cache.

Definition record_body (type domain content : string) (proxied : bool) : jsval :=
  VObj [("type", VStr type); ("name", VStr domain); ("content", VStr content); ("proxied", VBool proxied); ("ttl", VInt 1); ("comment", VStr MANAGED_COMMENT)].

(** A record Cloudflare itself shows as one of ours: created here, of this name. *)
Definition is_ours (zone_id : jsval) (recordId type domain : string) (existing : jsval) : bool :=
  truthy existing && is_str recordId (vget existing "id") && is_str MANAGED_COMMENT (vget existing "comment") &&
  is_str type (vget existing "type") && bool_decide (to_lower (str_truthy "" (vget existing "name")) = to_lower domain) &&
  (negb (truthy (vget existing "zone_id")) || match zone_id with VStr z => is_str z (vget existing "zone_id") | _ => false end).

(** [records.find(...)] *)
Fixpoint find_matching (content : string) (proxied : bool) (records : list jsval) : result cf_error (option jsval) :=
  match records with
  | [] => Ok None
  | r :: records =>
      if is_nullish r then Throw NotAnObject
      else if is_str content (vget r "content") && match vget r "proxied" with VBool b => Bool.eqb b proxied | _ => false end then Ok (Some r)
      else find_matching content proxied records
  end.

Definition records_list (v : jsval) : result cf_error (list jsval) := match v with VArr l => Ok l | _ => Throw NotAnObject end.

(** Without a record of ours by id: the one that fits, the only one if it points here, or a new one. *)
Definition sync_by_content (zone domain type content : string) (proxied : bool) : cf jsval :=
  (v <- api (ListRecords zone type domain);;
   records <- lift (records_list v);;
   matching <- lift (find_matching content proxied records);;
   match matching with
   | Some r => ret r
   | None =>
       match records with
       | [r] =>
           if is_str content (vget r "content") && RECORD_ID_RE (to_string (vget r "id"))
           then api (PutRecord zone (to_string (vget r "id")) (record_body type domain content proxied))
           else throw (PointsElsewhere domain type [vget r "content"])
       | [] => api (PostRecord zone (record_body type domain content proxied))
       | _ => throw (PointsElsewhere domain type ((fun r => vget r "content") <$> records))
       end
   end)%cf.

Definition syncRecord (zone : jsval) (domain type content : string) (proxied : bool) (recordId : jsval) : cf jsval :=
  (match recordId, vget zone "id" with
   | VStr id, VStr z =>
       if RECORD_ID_RE id && RECORD_ID_RE z then
         existing <- try_catch (api (GetRecord z id)) (fun _ => ret VNull);;
         if is_ours (vget zone "id") id type domain existing
         then api (PutRecord z id (record_body type domain content proxied))
         else sync_by_content z domain type content proxied
       else sync_by_content z domain type content proxied
   | _, z => sync_by_content (to_string z) domain type content proxied
   end)%cf.

(** One entry to remove; whether it has to stay for a later attempt. *)
Definition remove_entry (entry : jsval) (id : string) (keepNames : list string) (cache : zone_cache) : cf (bool * zone_cache) :=
  try_catch
    (zc <- (if truthy (vget entry "zone") then cached_zone (to_string (vget entry "zone")) cache else ret (VNull, cache));;
     let z := to_string (vget zc.1 "id") in
     if negb (truthy zc.1) || negb (RECORD_ID_RE z) then ret (false, zc.2)
     else
       found <- try_catch (existing <- api (GetRecord z id);; ret (Some existing)) (fun _ => ret None);;
       match found with
       | None => ret (false, zc.2)
       | Some existing =>
           let name := to_lower (str_truthy "" (vget existing "name")) in
           if negb (is_str id (vget existing "id")) || negb (is_str MANAGED_COMMENT (vget existing "comment")) || bool_decide (name ∈ keepNames)
           then ret (false, zc.2)
           else try_catch (_ <- api (DeleteRecord z id);; ret (false, zc.2)) (fun _ => ret (true, zc.2))
       end)%cf
    (fun _ => ret (true, cache)).

Fixpoint remove_entries (entries : list (string * jsval)) (done keepNames : list string) (cache : zone_cache) (failed : list (string * jsval)) :
  cf (list (string * jsval)) :=
  (match entries with
   | [] => ret failed
   | (key, entry) :: entries =>
       match vget entry "id" with
       | VStr id =>
           if negb (RECORD_ID_RE id) || bool_decide (id ∈ done) then remove_entries entries done keepNames cache failed
           else
             fc <- remove_entry entry id keepNames cache;;
             remove_entries entries (id :: done) keepNames fc.2 (if fc.1 then mset key entry failed else failed)
       | _ => remove_entries entries done keepNames cache failed
       end
   end)%cf.

Definition removeRecords (records : jsval) (keepIds keepNames : list string) : cf (list (string * jsval)) :=
  remove_entries (entries_of records) keepIds keepNames [] [].

(** * Who synchronises, and with which token *)

Record actor := Actor { userId : Z; isAdmin : bool }.

Definition resolveActor (db : accounts) (who : caller) : actor :=
  let id := getUserId who in
  if id =? 0 then Actor 0 false
  else Actor id (match live_user db id with Some u => bool_decide ("admin" ∈ u_roles u) | None => false end).

(** A row of the certificates. *)
Record certificate := Certificate {
  ct_id : Z; ct_owner : Z; ct_is_deleted : bool; ct_provider : string; ct_nice_name : string; ct_domains : list string; ct_meta : jsval }.

Fixpoint drop_space (s : string) : string := match s with String c t => if is_space c then drop_space t else s | "" => "" end.
Definition is_newline (c : ascii) : bool := is_char nl c || is_char cr c.
Fixpoint line_of (s : string) : string := match s with String c t => if is_newline c then "" else String c (line_of t) | "" => "" end.

(** The last character of a text of spaces that ends no line. *)
Fixpoint last_blank (s : string) : option string :=
  match s with
  | "" => None
  | String c t => match last_blank t with Some b => Some b | None => if is_newline c then None else Some (String c "") end
  end.

(** [/^\s*dns_cloudflare_api_token\s*=\s*(.+?)\s*$/m] where a line starts: the value up to the spaces
    that end its line. *)
Definition token_here (s : string) : option string :=
  let s := drop_space s in
  let key := "dns_cloudflare_api_token" in
  if starts_with key s then
    match drop_space (sdrop (String.length key) s) with
    | String "=" t => match drop_space t with "" => last_blank t | v => Some (trim_end (line_of v)) end
    | _ => None
    end
  else None.

Fixpoint find_token (start : bool) (s : string) : option string :=
  match (if start then token_here s else None) with
  | Some t => Some t
  | None => match s with String c t => find_token (is_newline c) t | "" => None end
  end.

Definition tokenFromCertificate (c : certificate) : option string :=
  if is_str "cloudflare" (vget (ct_meta c) "dns_provider") then
    match vget (ct_meta c) "dns_provider_credentials" with VStr credentials => find_token true credentials | _ => None end
  else None.

(** The settings: the main token, whether every user may use it, the addresses of the records. *)
Record cf_settings := CfSettings { main_token : string; allow_all_users : bool; record_addresses : list string }.

(** The row of a certificate by its id, deleted or not. *)
Definition find_certificate (certs : list certificate) (id : Z) : option certificate := bfind (fun c => ct_id c =? id) certs.

(** The token of the certificate of the host, when it is the actor's or the actor is an admin; else
    the main one. *)
Definition getToken (certs : list certificate) (st : cf_settings) (certificate_id : Z) (a : actor) : option string :=
  let main := if bool_decide (main_token st <> "") && (isAdmin a || allow_all_users st) then Some (main_token st) else None in
  if certificate_id =? 0 then main
  else
    match find_certificate certs certificate_id with
    | Some c =>
        if negb (ct_is_deleted c) && (isAdmin a || (ct_owner c =? userId a))
        then match tokenFromCertificate c with Some t => Some t | None => main end
        else main
    | None => main
    end.

(** * The meta of a host *)

(** Fields only the server writes come from the stored document. *)
Definition sanitize_config (incoming stored : jsval) : jsval :=
  let clean := filter (fun p => p.1 ∉ SERVER_FIELDS) (entries_of incoming) in
  VObj (foldl (fun m f => if is_undef (vget stored f) then m else mset f (vget stored f) m) clean SERVER_FIELDS).

Definition sanitizeMeta (incomingMeta storedMeta : jsval) : jsval :=
  match incomingMeta with
  | VObj m => VObj (foldl (fun m k => match mget k m with
                                      | Some (VObj c) => mset k (sanitize_config (VObj c) (vget storedMeta k)) m
                                      | _ => m
                                      end) m CONFIG_KEYS)
  | _ => incomingMeta
  end.

(** The two spellings of the key, and the settings under it. *)
Definition configOf (meta : jsval) : string * jsval :=
  let configKey := if truthy (vget meta "cloudflareDns") then "cloudflareDns" else "cloudflare_dns" in
  (configKey, vget meta configKey).

Definition hasRecords (config : jsval) : bool := negb (bool_decide (length (entries_of (vget config "records")) = 0%nat)).

(** * The synchronisation *)

Section Sync.

(** The text of an error, and the current time. *)
Variable message_of : cf_error -> string.
Variable now : string.

Definition with_config (meta : jsval) (configKey : string) (config : jsval) (changes : list (string * jsval)) : jsval :=
  VObj (spread (entries_of meta) [(configKey, VObj (spread (entries_of config) changes))]).

Definition failed_config (meta : jsval) (configKey : string) (config : jsval) (e : cf_error) : jsval :=
  with_config meta configKey config [("status", VStr "error"); ("error", VStr (message_of e)); ("syncedAt", VStr now)].

(** The record of a name and an address. *)
Definition sync_address (zone : jsval) (domain : string) (proxied : bool) (previous : jsval) (records : list (string * jsval)) (address : string) :
  cf (list (string * jsval)) :=
  (let type := recordType address in
   let key := domain +:+ "|" +:+ type in
   record <- syncRecord zone domain type address proxied (vget (vget previous key) "id");;
   id <- lift (prop record "id");;
   ret (mset key (VObj [("id", id); ("zone", vget zone "name")]) records))%cf.

Definition sync_domain (addresses : list string) (proxied : bool) (previous : jsval) (acc : list (string * jsval) * zone_cache) (domain : string) :
  cf (list (string * jsval) * zone_cache) :=
  (zc <- findZone domain acc.2;;
   records <- for_each (sync_address zc.1 domain proxied previous) acc.1 addresses;;
   ret (records, zc.2))%cf.

Definition ids_of (records : list (string * jsval)) : list string := omap (fun p => as_string (vget p.2 "id")) records.

(** Names without a wildcard. *)
Definition plain_names (domain_names : list string) : list string := bfilter (fun name => negb (has_char "*" name)) domain_names.

Definition sync_enabled (st : cf_settings) (token : option string) (a : actor) (meta : jsval) (configKey : string) (config : jsval)
  (domain_names : list string) : cf jsval :=
  (_ <- (match token with None => throw (NoTokenForRecords (isAdmin a)) | Some _ => ret tt end);;
   _ <- (if bool_decide (record_addresses st = []) then throw NoPublicAddress else ret tt);;
   let previous := if truthy (vget config "records") then vget config "records" else VObj [] in
   let domains := plain_names domain_names in
   rc <- for_each (sync_domain (record_addresses st) (truthy (vget config "proxied")) previous) ([], []) domains;;
   failed <- removeRecords previous (ids_of rc.1) (to_lower <$> domains);;
   ret (with_config meta configKey config
          [("records", VObj (spread failed rc.1)); ("status", VStr "synced"); ("error", VNull); ("syncedAt", VStr now)]))%cf.

Definition sync_disabled (token : option string) (meta : jsval) (configKey : string) (config : jsval) : cf jsval :=
  (_ <- (match token with None => throw NoTokenToRemove | Some _ => ret tt end);;
   failed <- removeRecords (vget config "records") [] [];;
   let bad := negb (bool_decide (length failed = 0%nat)) in
   ret (with_config meta configKey config
          [("records", VObj failed); ("status", if bad then VStr "error" else VNull);
           ("error", if bad then VStr "Some Cloudflare records could not be removed" else VNull); ("syncedAt", VStr now)]))%cf.

(** The meta to store, if any: an error of the API is stored with the settings as they were. *)
Definition syncProxyHost (certs : list certificate) (st : cf_settings) (a : actor) (certificate_id : Z) (domain_names : list string) (meta : jsval) :
  prog (option jsval) :=
  let '(configKey, config) := configOf meta in
  if negb (truthy config) then Ret None
  else
    let token := getToken certs st certificate_id a in
    let attempt (p : cf jsval) := pbind p (fun r => Ret (Some (match r with Ok m => m | Throw e => failed_config meta configKey config e end))) in
    if negb (truthy (vget config "enabled")) then
      if hasRecords config then attempt (sync_disabled token meta configKey config) else Ret None
    else attempt (sync_enabled st token a meta configKey config domain_names).

(** Behind a deletion; an error is only logged. *)
Definition removeProxyHost (certs : list certificate) (st : cf_settings) (a : actor) (certificate_id : Z) (meta : jsval) : prog unit :=
  let config := (configOf meta).2 in
  if negb (truthy (vget config "enabled")) || negb (hasRecords config) then Ret tt
  else
    match getToken certs st certificate_id a with
    | None => Ret tt
    | Some _ => pbind (removeRecords (vget config "records") [] []) (fun _ => Ret tt)
    end.

End Sync.

(** * Every call of a run *)

(** Each call meets [J] where it is made, and the end meets [Q], whatever the answers. *)
Fixpoint always {A} (J : trace -> request -> Prop) (Q : trace -> A -> Prop) (tr : trace) (p : prog A) : Prop :=
  match p with
  | Ret a => Q tr a
  | Call rq k => J tr rq /\ forall rs, always J Q (tr ++ [(rq, rs)]) (k rs)
  end.

(** After a throw nothing is asked. *)
Definition on_ok {A} (Q : trace -> A -> Prop) (tr : trace) (r : result cf_error A) : Prop := match r with Ok a => Q tr a | Throw _ => True end.

Section Always.

Variable J : trace -> request -> Prop.

Lemma always_bind {A B} (Q : trace -> A -> Prop) (R : trace -> B -> Prop) tr p f :
  always J Q tr p -> (forall tr a, Q tr a -> always J R tr (f a)) -> always J R tr (pbind p f).
Proof. revert tr. induction p as [a|rq k IH]; intros tr Hp Hf; [by apply Hf|]. destruct Hp as [Hj Hk]. split; [done|]. intros rs. apply IH; [apply Hk|done]. Qed.

Lemma always_mono {A} (Q R : trace -> A -> Prop) tr p : always J Q tr p -> (forall tr a, Q tr a -> R tr a) -> always J R tr p.
Proof. revert tr. induction p as [a|rq k IH]; intros tr Hp Hq; [by apply Hq|]. destruct Hp as [Hj Hk]. split; [done|]. intros rs. by apply IH. Qed.

Lemma always_cbind {A B} (Q : trace -> A -> Prop) (R : trace -> B -> Prop) tr (p : cf A) (f : A -> cf B) :
  always J (on_ok Q) tr p -> (forall tr a, Q tr a -> always J (on_ok R) tr (f a)) -> always J (on_ok R) tr (cbind p f).
Proof. intros Hp Hf. apply (always_bind (on_ok Q)); [done|]. intros t [a|e] Ha; [by apply Hf|done]. Qed.

Lemma always_try {A} (Q : trace -> A -> Prop) tr (p : cf A) h :
  always J (on_ok Q) tr p -> (forall tr e, always J (on_ok Q) tr (h e)) -> always J (on_ok Q) tr (try_catch p h).
Proof. intros Hp Hh. apply (always_bind (on_ok Q)); [done|]. intros t [a|e] Ha; [done|apply Hh]. Qed.

Lemma always_lift {A} (Q : trace -> A -> Prop) tr (r : result cf_error A) : (forall a, r = Ok a -> Q tr a) -> always J (on_ok Q) tr (lift r).
Proof. intros H. destruct r as [a|e]; [by apply H|done]. Qed.

Lemma always_for_each {A S} (f : S -> A -> cf S) l : (forall x, x ∈ l -> forall s tr, always J (on_ok (fun _ _ => True)) tr (f s x)) ->
  forall s tr, always J (on_ok (fun _ _ => True)) tr (for_each f s l).
Proof.
  induction l as [|x l IH]; intros Hf s tr; [done|]. cbn [for_each]. apply (always_cbind (fun _ _ => True)); [apply Hf; left|].
  intros t s' _. apply IH. intros y Hy. apply Hf. by right.
Qed.

(** The calls of a run come after the trace before it, each as [J] demands. *)
Lemma always_run {A} (Q : trace -> A -> Prop) tr p api : always J Q tr p ->
  exists calls, (run api tr p).1 = tr ++ calls /\ forall before e after, calls = before ++ e :: after -> J (tr ++ before) e.1.
Proof.
  revert tr. induction p as [a|rq k IH]; intros tr Hp.
  - exists []. split; [by rewrite app_nil_r|]. by intros [|??] e after H.
  - destruct Hp as [Hj Hk]. cbn [run]. destruct (IH (api tr rq) _ (Hk (api tr rq))) as (calls & -> & Hc).
    exists ((rq, api tr rq) :: calls). split; [by rewrite <- app_assoc|].
    intros [|b before] e after [= <- Heq]; [by rewrite app_nil_r|]. specialize (Hc before e after Heq). by rewrite <- app_assoc in Hc.
Qed.

End Always.

(** * Which records a run may touch *)

(** The last call and what it answered. *)
Definition just_answered (tr : trace) (rq : request) (v : jsval) : Prop := exists rs, last tr = Some (rq, rs) /\ decode rs = Ok v.

Definition managed (id : string) (v : jsval) : Prop := vget v "id" = VStr id /\ vget v "comment" = VStr MANAGED_COMMENT.

(** What is written are the records of the names and the addresses; what is overwritten is ours by
    its id, comment, type and name, or the only record of its type and name and points here; what
    is new has no other beside it; what is deleted is one of the [stored] ids of the host and ours,
    under a name that need not be kept. *)
Definition justified (names addresses keep stored : list string) (proxied : bool) (tr : trace) (rq : request) : Prop :=
  let wanted d a body := d ∈ names /\ a ∈ addresses /\ body = record_body (recordType a) d a proxied in
  match rq with
  | PutRecord z id body => exists d a, wanted d a body /\
      ((exists v, just_answered tr (GetRecord z id) v /\ managed id v /\ vget v "type" = VStr (recordType a) /\
                  to_lower (str_truthy "" (vget v "name")) = to_lower d) \/
       (exists r, just_answered tr (ListRecords z (recordType a) d) (VArr [r]) /\ to_string (vget r "id") = id /\ vget r "content" = VStr a))
  | PostRecord z body => exists d a, wanted d a body /\ just_answered tr (ListRecords z (recordType a) d) (VArr [])
  | DeleteRecord z id => id ∈ stored /\ exists v, just_answered tr (GetRecord z id) v /\ managed id v /\ to_lower (str_truthy "" (vget v "name")) ∉ keep
  | _ => True
  end.

Lemma is_str_true s v : is_str s v = true -> v = VStr s.
Proof. destruct v; try done. cbn. by intros <-%bool_decide_eq_true_1. Qed.

Lemma is_ours_true zone_id id type d v : is_ours zone_id id type d v = true ->
  managed id v /\ vget v "type" = VStr type /\ to_lower (str_truthy "" (vget v "name")) = to_lower d.
Proof.
  unfold is_ours. rewrite !andb_true_iff. intros [[[[[_ H1] H2] H3] H4] _]. apply is_str_true in H1, H2, H3. apply bool_decide_eq_true_1 in H4. by split_and!.
Qed.

Section Justified.

Variable names addresses keep stored : list string.
Variable proxied : bool.

Notation J := (justified names addresses keep stored proxied).
Notation ok p := (forall tr, always J (on_ok (fun _ _ => True)) tr p).

(** A call: what it demands, and what is known behind it. *)
Lemma always_api tr rq : J tr rq -> always J (on_ok (fun t v => just_answered t rq v)) tr (api rq).
Proof.
  intros Hj. split; [done|]. intros rs. cbn. unfold on_ok. destruct (decode rs) as [v|e] eqn:Hd; [|done].
  exists rs. split; [apply last_snoc|done].
Qed.

Lemma api_ok tr rq : J tr rq -> always J (on_ok (fun _ _ => True)) tr (api rq).
Proof. intros Hj. apply (always_mono _ _ _ _ _ (always_api tr rq Hj)). by intros t [v|e]. Qed.

Lemma cached_zone_ok name cache : ok (cached_zone name cache).
Proof.
  intros tr. unfold cached_zone. destruct (mget name cache) as [z|]; [done|].
  apply (always_cbind _ (fun _ _ => True)); [by apply api_ok|]. intros t zones _.
  apply (always_cbind _ (fun _ _ => True)); [by apply always_lift|done].
Qed.

Lemma find_zone_ok domain labels cache : ok (find_zone domain labels cache).
Proof.
  revert cache. induction labels as [|l labels IH]; intros cache tr; [done|]. destruct labels as [|l' labels]; [done|].
  cbn [find_zone]. apply (always_cbind _ (fun _ _ => True)); [apply cached_zone_ok|]. intros t [z c] _. destruct (truthy _); [done|apply IH].
Qed.

Lemma sync_by_content_ok z d a : d ∈ names -> a ∈ addresses -> ok (sync_by_content z d (recordType a) a proxied).
Proof.
  intros Hd Ha tr. unfold sync_by_content. apply (always_cbind _ _ _ _ _ _ (always_api tr (ListRecords z (recordType a) d) I)).
  intros t v Hv. destruct v as [| | | | |records|]; try done. cbn [records_list lift cbind pbind].
  destruct (find_matching a proxied records) as [[r|]|e]; [done| |done]. cbn [lift pbind].
  destruct records as [|r [|r' rs]]; [| |done].
  - apply api_ok. by exists d, a.
  - destruct (_ && _) eqn:Hc; [|done]. apply andb_true_iff in Hc as [Hc _]. apply is_str_true in Hc. apply api_ok.
    exists d, a. split; [done|]. right. by exists r.
Qed.

Lemma syncRecord_ok zone d a recordId : d ∈ names -> a ∈ addresses -> ok (syncRecord zone d (recordType a) a proxied recordId).
Proof.
  intros Hd Ha tr. unfold syncRecord. destruct recordId as [| | | |id| |]; try by apply sync_by_content_ok.
  destruct (vget zone "id") as [| | | |z| |] eqn:Hz; try by apply sync_by_content_ok.
  destruct (_ && _); [|by apply sync_by_content_ok].
  set (Q := fun t v => v = VNull \/ just_answered t (GetRecord z id) v).
  apply (always_cbind _ Q).
  - apply always_try; [|by left]. apply (always_mono _ _ _ _ _ (always_api tr (GetRecord z id) I)). intros t [v|e]; [by right|done].
  - intros t v [->|Hv]; [cbn; by apply sync_by_content_ok|]. destruct (is_ours _ id (recordType a) d v) eqn:Ho; [|by apply sync_by_content_ok].
    apply is_ours_true in Ho as (Hm & Ht & Hn). apply api_ok. exists d, a. split; [done|]. left. by exists v.
Qed.

Lemma sync_domain_ok l p previous acc d : d ∈ names -> (forall a, a ∈ l -> a ∈ addresses) -> p = proxied -> ok (sync_domain l p previous acc d).
Proof.
  intros Hd Hl -> tr. unfold sync_domain. apply (always_cbind _ (fun _ _ => True)); [apply find_zone_ok|]. intros t zc _.
  apply (always_cbind _ (fun _ _ => True)); [|done]. apply always_for_each. intros a Ha records t'. unfold sync_address.
  apply (always_cbind _ (fun _ _ => True)); [apply syncRecord_ok; [done|by apply Hl]|]. intros t2 r _.
  apply (always_cbind _ (fun _ _ => True)); [by apply always_lift|done].
Qed.

Lemma remove_entry_ok entry id cache : id ∈ stored -> ok (remove_entry entry id keep cache).
Proof.
  intros Hid tr. unfold remove_entry. apply always_try; [|done].
  apply (always_cbind _ (fun _ _ => True)); [destruct (truthy _); [apply cached_zone_ok|done]|]. intros t zc _. destruct (_ || _); [done|].
  set (z := to_string _). set (Q := fun t (found : option jsval) => match found with Some v => just_answered t (GetRecord z id) v | None => True end).
  apply (always_cbind _ Q).
  - apply always_try; [|done]. apply (always_cbind _ _ _ _ _ _ (always_api t (GetRecord z id) I)). by intros t' v Hv.
  - intros t' [v|] Hv; [|done]. destruct (_ || _) eqn:Hc; [done|]. apply orb_false_iff in Hc as [[H1 H2]%orb_false_iff H3].
    apply negb_false_iff, is_str_true in H1, H2. apply bool_decide_eq_false_1 in H3.
    apply always_try; [|done]. apply (always_cbind _ (fun _ _ => True)); [|done]. apply api_ok. split; [done|]. by exists v.
Qed.

Lemma remove_entries_ok entries done cache failed : (forall id, id ∈ ids_of entries -> id ∈ stored) -> ok (remove_entries entries done keep cache failed).
Proof.
  revert done cache failed. induction entries as [|[key entry] entries IH]; intros dn cache failed Hin tr; [done|]. cbn [remove_entries].
  assert (forall id, id ∈ ids_of entries -> id ∈ stored) as Hrest.
  { intros id H. apply Hin. unfold ids_of in *. cbn [omap list_omap]. destruct (as_string _); [by right|done]. }
  destruct (vget entry "id") eqn:Hv; try by apply IH. destruct (_ || _); [by apply IH|].
  apply (always_cbind _ (fun _ _ => True)); [|intros t fc _; by apply IH]. apply remove_entry_ok, Hin. unfold ids_of. cbn [omap list_omap snd]. rewrite Hv. left.
Qed.

End Justified.

(** * The records of a host *)

Section Records.

Variable message_of : cf_error -> string.
Variable now : string.

Lemma attempt_ok J tr (p : cf jsval) (f : result cf_error jsval -> option jsval) :
  always J (on_ok (fun _ _ => True)) tr p -> always J (fun _ _ => True) tr (pbind p (fun r => Ret (f r))).
Proof. intros Hp. by apply (always_bind _ _ _ _ _ _ Hp). Qed.

Lemma removeRecords_ok names addresses keep stored proxied records ids tr : (forall id, id ∈ ids_of (entries_of records) -> id ∈ stored) ->
  always (justified names addresses keep stored proxied) (on_ok (fun _ _ => True)) tr (removeRecords records ids keep).
Proof. intros H. by apply remove_entries_ok. Qed.

(** The ids of the records the host remembers. *)
Definition remembered (meta : jsval) : list string := ids_of (entries_of (vget (configOf meta).2 "records")).

(** With the switch on, or off: then every record of ours may go. *)
Definition kept_names (meta : jsval) (domain_names : list string) : list string :=
  if truthy (vget (configOf meta).2 "enabled") then to_lower <$> plain_names domain_names else [].

Lemma sync_ok certs st a cid domain_names meta tr :
  always (justified (plain_names domain_names) (record_addresses st) (kept_names meta domain_names) (remembered meta) (truthy (vget (configOf meta).2 "proxied")))
    (fun _ _ => True) tr (syncProxyHost message_of now certs st a cid domain_names meta).
Proof.
  unfold syncProxyHost, kept_names, remembered. destruct (configOf meta) as [key config]. cbn [snd]. destruct (truthy config); [|done]. cbn [negb].
  set (p := truthy (vget config "proxied")).
  destruct (truthy (vget config "enabled")); cbn [negb].
  - apply attempt_ok. unfold sync_enabled. apply (always_cbind _ (fun _ _ => True)); [by destruct (getToken _ _ _ _)|]. intros t1 _ _.
    apply (always_cbind _ (fun _ _ => True)); [by destruct (bool_decide _)|]. intros t2 _ _.
    apply (always_cbind _ (fun _ _ => True)).
    + apply always_for_each. intros d Hd acc t. by apply sync_domain_ok.
    + intros t3 rc _. apply (always_cbind _ (fun _ _ => True)); [|done]. apply removeRecords_ok.
      destruct (truthy (vget config "records")); [done|]. by intros id ?%not_elem_of_nil.
  - destruct (hasRecords config); [|done]. apply attempt_ok. unfold sync_disabled.
    apply (always_cbind _ (fun _ _ => True)); [by destruct (getToken _ _ _ _)|]. intros t1 _ _.
    apply (always_cbind _ (fun _ _ => True)); [by apply removeRecords_ok|done].
Qed.

Lemma remove_ok certs st a cid meta names addresses proxied tr :
  always (justified names addresses [] (remembered meta) proxied) (fun _ _ => True) tr (removeProxyHost certs st a cid meta).
Proof.
  unfold removeProxyHost. destruct (_ || _); [done|]. destruct (getToken _ _ _ _); [|done].
  by apply (always_bind _ (on_ok (fun _ _ => True)) _ _ _ _ (removeRecords_ok _ _ _ (remembered meta) _ _ _ _ (fun id H => H))).
Qed.

(** C27. Whatever the API answers, and whatever it was told before, a synchronisation of a host and its
    removal change only what is [justified]: a record is overwritten when Cloudflare has just shown it
    as ours with this type and name or as the only one, pointing here already; added when there is
    none; deleted when it is one the host remembers, Cloudflare has just shown it as ours by id and
    comment and, while the switch is on, its name is none of the host's (with the switch off and in
    the removal the name is not looked at). The removal, with no names and no addresses, only
    deletes. *)
Theorem only_our_records_change certs st a cid domain_names meta api before e after :
  ((run api [] (syncProxyHost message_of now certs st a cid domain_names meta)).1 = before ++ e :: after ->
   justified (plain_names domain_names) (record_addresses st) (kept_names meta domain_names) (remembered meta) (truthy (vget (configOf meta).2 "proxied")) before e.1) /\
  ((run api [] (removeProxyHost certs st a cid meta)).1 = before ++ e :: after -> justified [] [] [] (remembered meta) false before e.1).
Proof.
  split; intros He.
  - destruct (always_run _ _ _ _ api (sync_ok certs st a cid domain_names meta [])) as (calls & Hr & Hc). rewrite Hr in He. by apply (Hc before e after).
  - destruct (always_run _ _ _ _ api (remove_ok certs st a cid meta [] [] false [])) as (calls & Hr & Hc). rewrite Hr in He. by apply (Hc before e after).
Qed.

End Records.

(** * The fields of the server *)

Lemma stored_fields stored f fs m : f ∈ fs -> mget f m = None ->
  default VUndef (mget f (foldl (fun m f => if is_undef (vget stored f) then m else mset f (vget stored f) m) m fs)) = vget stored f.
Proof.
  intros Hf Hm.
  assert (forall gs m, f ∉ gs \/ mget f m = Some (vget stored f) ->
    mget f (foldl (fun m f => if is_undef (vget stored f) then m else mset f (vget stored f) m) m gs) = mget f m) as Hrest.
  { clear. induction gs as [|g gs IH]; intros m Hg; [done|]. cbn [foldl].
    assert (mget f (if is_undef (vget stored g) then m else mset g (vget stored g) m) = mget f m) as Hone.
    { destruct (is_undef _); [done|]. rewrite mget_mset. destruct (decide (g = f)) as [->|Hn]; [|done]. destruct Hg as [Hg| ->]; [|done]. destruct Hg. left. }
    rewrite IH, Hone; [done|]. rewrite Hone. destruct Hg as [Hg|Hg]; [left; intros H; apply Hg; by right|by right]. }
  revert m Hm. induction fs as [|g fs IH]; intros m Hm; [by apply not_elem_of_nil in Hf|]. cbn [foldl].
  destruct (decide (g = f)) as [->|Hn].
  - destruct (is_undef (vget stored f)) eqn:Hu.
    + destruct (decide (f ∈ fs)) as [Hin|Hout]; [by apply IH|]. rewrite Hrest by (by left). rewrite Hm. by destruct (vget stored f).
    + rewrite Hrest by (right; apply mget_mset_eq). by rewrite mget_mset_eq.
  - apply IH; [|by destruct (is_undef _); rewrite ?mget_mset_ne by done]. apply elem_of_cons in Hf as [->|Hf]; [done|done].
Qed.

Lemma config_fields incoming stored f : f ∈ SERVER_FIELDS -> vget (sanitize_config incoming stored) f = vget stored f.
Proof.
  intros Hf. apply stored_fields; [done|]. apply mget_None. by intros (p & -> & [Hn _]%list_elem_of_filter)%list_elem_of_fmap.
Qed.

(** Whatever document a user sends with a host, in both spellings of the settings the record ids and
    the state of the last synchronisation are the stored ones. *)
Lemma sanitizeMeta_fields incoming stored k f c : k ∈ CONFIG_KEYS -> f ∈ SERVER_FIELDS -> vget incoming k = VObj c ->
  vget (vget (sanitizeMeta incoming stored) k) f = vget (vget stored k) f.
Proof.
  intros Hk Hf Hi. destruct incoming as [| | | | | |m]; try done. cbn [vget] in Hi. cbn [sanitizeMeta vget foldl CONFIG_KEYS].
  assert (mget k m = Some (VObj c)) as Hm by (destruct (mget k m); cbn in Hi; congruence). clear Hi.
  unfold CONFIG_KEYS in Hk. rewrite !elem_of_cons, elem_of_nil in Hk. destruct Hk as [->|[->|[]]].
  - rewrite Hm. destruct (mget "cloudflare_dns" _) as [[]|]; rewrite ?mget_mset_ne, mget_mset_eq by done; cbn [default]; by apply config_fields.
  - assert (forall m', mget "cloudflare_dns" m' = Some (VObj c) ->
      default VUndef (mget "cloudflare_dns" match mget "cloudflare_dns" m' with
        | Some (VObj c0) => mset "cloudflare_dns" (sanitize_config (VObj c0) (vget stored "cloudflare_dns")) m' | _ => m' end) =
      sanitize_config (VObj c) (vget stored "cloudflare_dns")) as Hstep by (intros m' ->; by rewrite mget_mset_eq).
    rewrite Hstep; [by apply config_fields|]. destruct (mget "cloudflareDns" m) as [[]|]; rewrite ?mget_mset_ne by done; done.
Qed.

(** * Examples *)

Definition ex_zone : string := "0000000000000000000000000000000a".
Definition ex_id : string := "00000000000000000000000000000001".
Definition ex_ok (v : jsval) : response := Http true 200 (Some (VObj [("success", VBool true); ("result", v)])).
Definition ex_managed : jsval :=
  VObj [("id", VStr ex_id); ("type", VStr "AAAA"); ("name", VStr "a.example"); ("content", VStr "2001:db8::1"); ("comment", VStr MANAGED_COMMENT)].

(** One zone; a record of ours with an address of the other family. *)
Definition ex_api (tr : trace) (rq : request) : response :=
  match rq with
  | ListZones "a.example" => ex_ok (VArr [VObj [("id", VStr ex_zone); ("name", VStr "a.example")]])
  | ListRecords _ _ _ => ex_ok (VArr [])
  | GetRecord _ _ => ex_ok ex_managed
  | PostRecord _ body => ex_ok (VObj (mset "id" (VStr "00000000000000000000000000000002") (entries_of body)))
  | _ => ex_ok VNull
  end.
Definition ex_meta (enabled : bool) : jsval :=
  VObj [("cloudflare_dns", VObj [("enabled", VBool enabled); ("records", VObj [("a.example|AAAA", VObj [("id", VStr ex_id); ("zone", VStr "a.example")])])])].
Definition ex_settings : cf_settings := CfSettings "token" true ["192.0.2.1"].

(** A new record, and the one of the other family is asked for and stays. *)
Example sync_calls : fst <$> (run ex_api [] (syncProxyHost (fun _ => "") "" [] ex_settings (Actor 2 false) 0 ["a.example"; "*.example"] (ex_meta true))).1 =
  [ListZones "a.example"; ListRecords ex_zone "A" "a.example"; PostRecord ex_zone (record_body "A" "a.example" "192.0.2.1" false);
   ListZones "a.example"; GetRecord ex_zone ex_id].
Proof. vm_compute. reflexivity. Qed.

Lemma only_our_records_change_witness : exists before e after,
  (run ex_api [] (syncProxyHost (fun _ => "") "" [] ex_settings (Actor 2 false) 0 ["a.example"] (ex_meta true))).1 = before ++ e :: after /\
  (exists z b, e.1 = PostRecord z b) /\ justified ["a.example"] ["192.0.2.1"] ["a.example"] [ex_id] false before e.1.
Proof.
  set (tr := (run ex_api [] (syncProxyHost (fun _ => "") "" [] ex_settings (Actor 2 false) 0 ["a.example"] (ex_meta true))).1).
  exists (take 2 tr), (default (ListZones "", NoResponse "") (tr !! 2%nat)), (drop 3 tr).
  assert (tr = take 2 tr ++ default (ListZones "", NoResponse "") (tr !! 2%nat) :: drop 3 tr) as Heq by (vm_compute; reflexivity).
  split; [exact Heq|]. split; [vm_compute; by eexists _, _|].
  exact (proj1 (only_our_records_change (fun _ => "") "" [] ex_settings (Actor 2 false) 0 ["a.example"] (ex_meta true) ex_api _ _ _) Heq).
Defined.

(** A record whose family of addresses is gone is neither deleted nor remembered, since its name is
    still one of the host. *)
Lemma dropped_family_is_forgotten :
  let r := run ex_api [] (syncProxyHost (fun _ => "") "" [] ex_settings (Actor 2 false) 0 ["a.example"] (ex_meta true)) in
  (forall z, DeleteRecord z ex_id ∉ fst <$> r.1) /\
  (fun m => ids_of (entries_of (vget (configOf m).2 "records"))) <$> r.2 = Some ["00000000000000000000000000000002"].
Proof.
  cbv zeta. split; [|vm_compute; reflexivity]. intros z Hin. vm_compute in Hin. repeat (apply elem_of_cons in Hin as [Hin|Hin]; [discriminate|]). by apply not_elem_of_nil in Hin.
Qed.

(** Records that could not be removed when the switch went off stay for ever when the host goes. *)
Lemma switched_off_leaves_records certs st a cid api :
  hasRecords (configOf (ex_meta false)).2 = true /\ (run api [] (removeProxyHost certs st a cid (ex_meta false))).1 = [].
Proof. split; vm_compute; reflexivity. Qed.

(** The first line of credentials that names the token. *)
Example token_of_credentials :
  find_token true ("# x" +:+ String nl "dns_cloudflare_api_token = abc  " +:+ String nl "") = Some "abc" /\ find_token true "dns_cloudflare_api_tokens = abc" = None.
Proof. split; vm_compute; reflexivity. Qed.
