(* ===== verification/CertRenewal.v ===== *)
(** The renewal of a certificate: the part of [backend/internal/certificate.js] that moves the files
    of certbot aside, puts them back and recovers them after an interruption.

    A broken lineage is renewed from scratch: what is there is moved into a backup first. Each
    renaming and each removal is one operation; the server may stop between any two. Renewals of one
    certificate may overlap, since nothing holds them apart. Errors of the file system are not
    modelled, but for the renaming of an entry that is not in the backup. *)

From S2P Require Import Prelude.
From S2P Require Import JsString.
From S2P Require Import JsVal.

Local Open Scope Z_scope.

(** * The files of certbot *)

(** In a directory a file, or a link of certbot's into the archive of the same name. *)
Inductive pem := File (text : string) | Link (file : string).

(** What lies in [archive], [live] and [renewal]: directories of a lineage and its settings. *)
Inductive entry := Dir (files : gmap string pem) | Conf (text : string).

(** By directory and name; [certbot-renewal] is the directory certbot reads its settings from, where
    that is another one than [renewal]. *)
Notation tree := (gmap (string * string) entry).

(** The files, and the backup directory of the lineage if there is one. *)
Record disk := Disk { d_tree : tree; d_saved : option tree }.

Definition saved (d : disk) : tree := default ∅ (d_saved d).

Inductive op := Remove (k : string * string) | Away (k : string * string) | Back (k : string * string) | Drop.

Definition exec (d : disk) (o : op) : disk :=
  match o with
  | Remove k => Disk (delete k (d_tree d)) (d_saved d)
  | Away k => match d_tree d !! k with
              | Some x => Disk (delete k (d_tree d)) (Some (<[k := x]> (saved d)))
              | None => d
              end
  | Back k => match saved d !! k with
              | Some x => Disk (<[k := x]> (d_tree d)) (Some (delete k (saved d)))
              | None => d
              end
  | Drop => Disk (d_tree d) None
  end.

Definition does (d : disk) (ops : list op) : disk := foldl exec d ops.

(** * What is there *)

Definition occupied (t : tree) (k : string * string) : bool := bool_decide (is_Some (t !! k)).

(** The text of [fullchain.pem], links followed. *)
Definition fullchain (live archive : option entry) : option string :=
  match live with
  | Some (Dir files) =>
      match files !! "fullchain.pem" with
      | Some (File text) => Some text
      | Some (Link f) =>
          match archive with
          | Some (Dir a) => match a !! f with Some (File text) => Some text | _ => None end
          | _ => None
          end
      | None => None
      end
  | _ => None
  end.

Definition chain_of (t : tree) (e : string) : option string := fullchain (t !! ("live", e)) (t !! ("archive", e)).

Definition has_text (c : option string) : bool := match c with Some text => bool_decide (text <> "") | None => false end.
Definition liveUsable (t : tree) (e : string) : bool := has_text (chain_of t e).

Section Lineage.

(** The number of the certificate; whether certbot reads its settings elsewhere. *)
Variable certificateId : Z.
Variable separate : bool.

Definition prefix : string := "npm-" +:+ showZ certificateId.

Definition lineageIsIntact (t : tree) : bool :=
  occupied t (if separate then "certbot-renewal" else "renewal", prefix +:+ ".conf") && bool_decide (is_Some (chain_of t prefix)).

Definition renewedLiveCertExists (t : tree) : bool := bool_decide (is_Some (chain_of t prefix)).

(** * Recovery, backup, restore *)

Definition names_in (t : tree) (subdir : string) : list (string * string) := bfilter (fun k => bool_decide (k.1 = subdir)) (map_to_list t).*1.

(** What is in its place is kept when it is verifiably usable. *)
Definition keeps (t : tree) (k : string * string) : bool :=
  occupied t k && (if bool_decide (k.1 = "live" \/ k.1 = "archive") then liveUsable t k.2 else true).

Definition recover_key (d : disk) (k : string * string) : list op :=
  if keeps (d_tree d) k then [] else (if occupied (d_tree d) k then [Remove k] else []) ++ [Back k].

Fixpoint recover_keys (d : disk) (ks : list (string * string)) : list op :=
  match ks with [] => [] | k :: ks => let o := recover_key d k in o ++ recover_keys (does d o) ks end.

(** [live] first: whether it is usable decides about the archive. *)
Definition backup_order (s : tree) : list (string * string) := names_in s "live" ++ names_in s "archive" ++ names_in s "renewal" ++ names_in s "certbot-renewal".

Definition recoverStaleRenewalBackup (d : disk) : list op :=
  match d_saved d with None => [] | Some s => recover_keys d (backup_order s) ++ [Drop] end.

Definition is_lineage (name : string) : bool := bool_decide (name = prefix) || starts_with (prefix +:+ "-") name.
Definition is_settings (name : string) : bool := (bool_decide (name = prefix +:+ ".conf") || starts_with (prefix +:+ "-") name) && ends_with ".conf" name.

(** What is moved aside, in this order. *)
Definition entries (t : tree) : list (string * string) :=
  bfilter (fun k => is_lineage k.2) (names_in t "archive") ++ bfilter (fun k => is_lineage k.2) (names_in t "live") ++
  bfilter (fun k => is_settings k.2) (names_in t "renewal") ++
  (if separate then bfilter (fun k => is_settings k.2) (names_in t "certbot-renewal") else []).

(** A backup left over comes back first. *)
Definition backupCertDirsForRenewal (d : disk) : list op :=
  let recovery := recoverStaleRenewalBackup d in recovery ++ (Away <$> entries (d_tree (does d recovery))).

(** What certbot left is removed before the renaming that may throw: an entry that is not in the
    backup any more ends the restore there, and the error is only logged. *)
Fixpoint restoreCertDirsBackup (d : disk) (ks : list (string * string)) : list op :=
  match ks with
  | [] => [Drop]
  | k :: ks =>
      if occupied (saved d) k then [Remove k; Back k] ++ restoreCertDirsBackup (does d [Remove k; Back k]) ks
      else [Remove k]
  end.

Definition discardCertDirsBackup : list op := [Drop].

(** * Renewals *)

(** The renewals of the certificate behind whose backups certbot runs, each with the entries it
    moved aside: the timer and a request may both renew it, and all share one backup directory. Or
    the server was interrupted. *)
Inductive phase := Up (runs : list (list (string * string))) | Interrupted.

(** What certbot may do: anything to the files of its lineage. *)
Definition certbot_writes (t t' : tree) : Prop := forall k, is_lineage k.2 = false -> is_settings k.2 = false -> t' !! k = t !! k.

(** [certbot_ok]: it ends without an error; the certificate it leaves then has a text. *)
Inductive renewal_step : phase * disk -> phase * disk -> Prop :=
| renew_in_place runs d t : lineageIsIntact (d_tree d) = true -> certbot_writes (d_tree d) t -> liveUsable t prefix = true ->
    renewal_step (Up runs, d) (Up runs, Disk t (d_saved d))
| start_renewal runs d : lineageIsIntact (d_tree d) = false ->
    renewal_step (Up runs, d) (Up (runs ++ [entries (d_tree (does d (recoverStaleRenewalBackup d)))]), does d (backupCertDirsForRenewal d))
| backup_interrupted runs d n : lineageIsIntact (d_tree d) = false -> renewal_step (Up runs, d) (Interrupted, does d (take n (backupCertDirsForRenewal d)))
| certbot_runs runs d t : runs <> [] -> certbot_writes (d_tree d) t -> renewal_step (Up runs, d) (Up runs, Disk t (d_saved d))
| certbot_succeeded before ks after d : renewedLiveCertExists (d_tree d) = true -> chain_of (d_tree d) prefix <> Some "" ->
    renewal_step (Up (before ++ ks :: after), d) (Up (before ++ after), does d discardCertDirsBackup)
| certbot_failed before ks after d : renewal_step (Up (before ++ ks :: after), d) (Up (before ++ after), does d (restoreCertDirsBackup d ks))
| restore_interrupted before ks after d n : renewal_step (Up (before ++ ks :: after), d) (Interrupted, does d (take n (restoreCertDirsBackup d ks)))
| run_interrupted runs d : renewal_step (Up runs, d) (Interrupted, d)
| recovered d : renewal_step (Interrupted, d) (Up [], does d (recoverStaleRenewalBackup d))
| recovery_interrupted d n : renewal_step (Interrupted, d) (Interrupted, does d (take n (recoverStaleRenewalBackup d))).

(** No renewal begins while another of the same certificate goes on. *)
Definition one_at_a_time (s s' : phase * disk) : Prop :=
  renewal_step s s' /\ match s'.1 with Up runs => (length runs <= 1)%nat | Interrupted => True end.

End Lineage.

(** * What survives *)

(** [fullchain.pem] of an entry of [live] and one of [archive] has a text. *)
Definition usable (live archive : option entry) : Prop := has_text (fullchain live archive) = true.

(** An archive that comes later does not hurt. *)
Lemma usable_more live a : usable live None -> usable live a.
Proof.
  unfold usable, fullchain. destruct live as [[files|]|]; [|done..]. destruct (files !! "fullchain.pem") as [[t|f]|]; done.
Qed.

Lemma usable_live live a : usable live a -> is_Some live.
Proof. by destruct live. Qed.

(** An invariant along a list of operations. *)
Fixpoint all_through (I : disk -> Prop) (d : disk) (ops : list op) : Prop :=
  match ops with [] => I d | o :: ops => I d /\ all_through I (exec d o) ops end.

Lemma all_through_app I d a b : all_through I d (a ++ b) <-> all_through I d a /\ all_through I (does d a) b.
Proof.
  revert d. induction a as [|o a IH]; intros d; cbn [app all_through].
  - split; [|by intros [_ ?]]. intros H. split; [|done]. destruct b; [done|apply H].
  - rewrite IH. split; [intros (?&?&?)|intros ((?&?)&?)]; by split_and!.
Qed.

Lemma all_through_take I d ops n : all_through I d ops -> I (does d (take n ops)).
Proof. revert d n. induction ops as [|o ops IH]; intros d [|n] H; cbn in *; [done|done|by destruct H|]. by apply IH, H. Qed.

Lemma all_through_end I d ops : all_through I d ops -> I (does d ops).
Proof. intros H. rewrite <- (firstn_all ops). by apply all_through_take. Qed.

Lemma does_app d a b : does d (a ++ b) = does (does d a) b.
Proof. apply foldl_app. Qed.

Section Survival.

Variable e : string.
Notation L := ("live", e).
Notation A := ("archive", e).

(** What an entry was before the backup. *)
Definition orig (d : disk) (k : string * string) : option entry := match saved d !! k with Some x => Some x | None => d_tree d !! k end.

(** In its place, or once everything saved is back. *)
Definition here (d : disk) : Prop := usable (d_tree d !! L) (d_tree d !! A).
Definition back (d : disk) : Prop := usable (orig d L) (orig d A).
Definition alive (d : disk) : Prop := here d \/ back d.

(** The entries of other lineages do not matter. *)
Definition agree (d d' : disk) : Prop := forall k, k = L \/ k = A -> d_tree d' !! k = d_tree d !! k /\ saved d' !! k = saved d !! k.

Lemma agree_orig d d' k : agree d d' -> k = L \/ k = A -> orig d' k = orig d k.
Proof. intros H Hk. unfold orig. by destruct (H k Hk) as [-> ->]. Qed.

Lemma agree_here d d' : agree d d' -> here d -> here d'.
Proof. intros H. unfold here. destruct (H L) as [-> _]; [by left|]. destruct (H A) as [-> _]; [by right|done]. Qed.

Lemma agree_alive d d' : agree d d' -> alive d -> alive d'.
Proof. intros H [Hh|Hb]; [left; by apply (agree_here d)|right]. unfold back. rewrite !(agree_orig d d') by (tauto || done). done. Qed.

Lemma agree_refl d : agree d d.
Proof. done. Qed.

Lemma agree_trans d1 d2 d3 : agree d1 d2 -> agree d2 d3 -> agree d1 d3.
Proof. intros H1 H2 k Hk. destruct (H1 k Hk) as [<- <-]. by apply H2. Qed.

(** ** One operation *)

Lemma exec_remove d k j : d_tree (exec d (Remove k)) !! j = (if decide (k = j) then None else d_tree d !! j) /\ saved (exec d (Remove k)) !! j = saved d !! j.
Proof. cbn. split; [|done]. destruct (decide (k = j)) as [->|Hn]; [apply lookup_delete_eq|by apply lookup_delete_ne]. Qed.

Lemma exec_back d k x j : saved d !! k = Some x ->
  d_tree (exec d (Back k)) !! j = (if decide (k = j) then Some x else d_tree d !! j) /\
  saved (exec d (Back k)) !! j = (if decide (k = j) then None else saved d !! j).
Proof.
  intros Hk. unfold exec. rewrite Hk. unfold saved at 1. cbn. destruct (decide (k = j)) as [->|Hn].
  - by rewrite lookup_insert_eq, lookup_delete_eq.
  - by rewrite lookup_insert_ne, lookup_delete_ne.
Qed.

Lemma exec_away d k x j : d_tree d !! k = Some x ->
  d_tree (exec d (Away k)) !! j = (if decide (k = j) then None else d_tree d !! j) /\
  saved (exec d (Away k)) !! j = (if decide (k = j) then Some x else saved d !! j).
Proof.
  intros Hk. unfold exec. rewrite Hk. unfold saved at 1. cbn. destruct (decide (k = j)) as [->|Hn].
  - by rewrite lookup_insert_eq, lookup_delete_eq.
  - by rewrite lookup_insert_ne, lookup_delete_ne.
Qed.

Lemma remove_orig d k j : is_Some (saved d !! k) -> orig (exec d (Remove k)) j = orig d j.
Proof.
  intros [x Hk]. unfold orig. destruct (exec_remove d k j) as [-> ->]. destruct (saved d !! j) eqn:Hj; [done|].
  destruct (decide (k = j)) as [->|Hn]; [congruence|done].
Qed.

Lemma back_orig d k j : is_Some (saved d !! k) -> orig (exec d (Back k)) j = orig d j.
Proof.
  intros [x Hk]. unfold orig. destruct (exec_back d k x j Hk) as [-> ->]. destruct (decide (k = j)) as [<-|Hn]; [by rewrite Hk|done].
Qed.

Lemma away_orig d k j : saved d !! k = None -> orig (exec d (Away k)) j = orig d j.
Proof.
  intros Hk. destruct (d_tree d !! k) as [x|] eqn:Ht; [|by unfold exec; rewrite Ht]. unfold orig. destruct (exec_away d k x j Ht) as [-> ->].
  destruct (decide (k = j)) as [<-|Hn]; [by rewrite Hk, Ht|done].
Qed.

Lemma back_ext d d' : (forall j, orig d' j = orig d j) -> back d -> back d'.
Proof. intros H. unfold back. by rewrite !H. Qed.

Lemma remove_back d k : is_Some (saved d !! k) -> back d -> back (exec d (Remove k)).
Proof. intros Hk. apply back_ext. intros j. by apply remove_orig. Qed.

Lemma back_back d k : is_Some (saved d !! k) -> back d -> back (exec d (Back k)).
Proof. intros Hk. apply back_ext. intros j. by apply back_orig. Qed.

(** Nothing of the lineage is saved: what is there counts. *)
Lemma back_here d : saved d !! L = None -> saved d !! A = None -> back d <-> here d.
Proof. intros H1 H2. unfold back, here, orig. by rewrite H1, H2. Qed.

(** ** Recovery *)

Lemma keeps_here d k : k = L \/ k = A -> keeps (d_tree d) k = true <-> is_Some (d_tree d !! k) /\ here d.
Proof.
  intros Hk. unfold keeps, occupied, here, usable, liveUsable, chain_of. rewrite andb_true_iff, bool_decide_eq_true.
  destruct Hk as [-> | ->]; cbn [fst snd]; rewrite bool_decide_eq_true_2 by tauto; done.
Qed.

(** What was saved comes back, over what is there. *)
Lemma recover_key_spec d k x : saved d !! k = Some x -> keeps (d_tree d) k = false ->
  forall j, d_tree (does d (recover_key d k)) !! j = (if decide (k = j) then Some x else d_tree d !! j) /\
            saved (does d (recover_key d k)) !! j = (if decide (k = j) then None else saved d !! j).
Proof.
  intros Hk Hkeep j. unfold recover_key. rewrite Hkeep. destruct (occupied (d_tree d) k).
  - cbn [does foldl app]. assert (saved (exec d (Remove k)) !! k = Some x) as Hk' by done.
    destruct (exec_back (exec d (Remove k)) k x j Hk') as [-> ->]. destruct (exec_remove d k j) as [-> ->]. by destruct (decide (k = j)).
  - by apply exec_back.
Qed.

(** The way there keeps what will come back. *)
Lemma recover_key_back d k x : saved d !! k = Some x -> back d -> all_through alive d (if keeps (d_tree d) k then [] else recover_key d k).
Proof.
  intros Hk Hb. destruct (keeps (d_tree d) k) eqn:Hkeep; [by right|]. unfold recover_key. rewrite Hkeep.
  assert (is_Some (saved d !! k)) as Hs by (by exists x).
  destruct (occupied (d_tree d) k); cbn [app all_through].
  - split_and!; [by right|right; by apply remove_back|]. right. apply back_back; [done|by apply remove_back].
  - split_and!; [by right|right; by apply back_back].
Qed.

Lemma recover_kept d k : keeps (d_tree d) k = true -> recover_key d k = [].
Proof. intros H. unfold recover_key. by rewrite H. Qed.

Lemma recover_other d k : k <> L -> k <> A -> is_Some (saved d !! k) -> alive d -> all_through alive d (recover_key d k) /\ agree d (does d (recover_key d k)).
Proof.
  intros Hl Ha [x Hk] Hal. destruct (keeps (d_tree d) k) eqn:Hkeep; [by rewrite recover_kept|].
  assert (forall d, agree d (exec d (Remove k))) as Hrem.
  { intros d' j Hj. destruct (exec_remove d' k j) as [-> ->]. rewrite decide_False; [done|]. intros ->. by destruct Hj. }
  assert (forall d x, saved d !! k = Some x -> agree d (exec d (Back k))) as Hbk.
  { intros d' y Hy j Hj. destruct (exec_back d' k y j Hy) as [-> ->]. rewrite !decide_False; [done|..]; intros ->; by destruct Hj. }
  unfold recover_key. rewrite Hkeep. destruct (occupied (d_tree d) k); cbn [app all_through does foldl].
  - pose proof (Hrem d) as H1. assert (agree (exec d (Remove k)) (exec (exec d (Remove k)) (Back k))) as H2 by (by apply (Hbk _ x)).
    split; [|by apply (agree_trans _ _ _ H1)]. split_and!; [done|by apply (agree_alive d)|]. apply (agree_alive d); [|done]. by apply (agree_trans _ _ _ H1).
  - pose proof (Hbk d x Hk) as H1. split; [|done]. split; [done|by apply (agree_alive d)].
Qed.

Lemma recover_live d x : saved d !! L = Some x -> alive d ->
  all_through alive d (recover_key d L) /\ (here (does d (recover_key d L)) \/ saved (does d (recover_key d L)) !! L = None).
Proof.
  intros Hk Hal. destruct (keeps (d_tree d) L) eqn:Hkeep.
  - rewrite recover_kept by done. split; [done|]. left. apply (keeps_here d L); [by left|done].
  - assert (back d) as Hb.
    { destruct Hal as [Hh|Hb]; [|done]. exfalso. apply not_true_iff_false in Hkeep. apply Hkeep, (keeps_here d L); [by left|]. split; [|done]. by apply (usable_live _ (d_tree d !! A)). }
    pose proof (recover_key_back d L x Hk Hb) as Hth. rewrite Hkeep in Hth. split; [done|]. right. destruct (recover_key_spec d L x Hk Hkeep L) as [_ ->]. by rewrite decide_True.
Qed.

Lemma recover_archive d x : saved d !! A = Some x -> alive d -> here d \/ saved d !! L = None ->
  all_through alive d (recover_key d A) /\ here (does d (recover_key d A)).
Proof.
  intros Hk Hal Hl. destruct (keeps (d_tree d) A) eqn:Hkeep.
  - rewrite recover_kept by done. split; [done|]. apply (keeps_here d A); [by right|done].
  - assert (usable (d_tree d !! L) (Some x)) as Hu.
    { destruct (d_tree d !! A) as [y|] eqn:HA.
      - assert (~ here d) as Hn. { intros Hh. apply not_true_iff_false in Hkeep. apply Hkeep, (keeps_here d A); [by right|]. by rewrite HA. }
        destruct Hl as [Hh|Hl]; [done|]. destruct Hal as [Hh|Hb]; [done|]. unfold back, orig in Hb. by rewrite Hl, Hk in Hb.
      - destruct Hal as [Hh|Hb]; [unfold here in Hh; rewrite HA in Hh; by apply usable_more|]. destruct Hl as [Hh|Hl]; [unfold here in Hh; rewrite HA in Hh; by apply usable_more|].
        unfold back, orig in Hb. by rewrite Hl, Hk in Hb. }
    assert (here (does d (recover_key d A))) as Hend.
    { unfold here. destruct (recover_key_spec d A x Hk Hkeep A) as [-> _]. destruct (recover_key_spec d A x Hk Hkeep L) as [-> _]. rewrite (decide_True (P := A = A)) by done. by rewrite decide_False. }
    split; [|done]. unfold recover_key in *. rewrite Hkeep in *. destruct (occupied (d_tree d) A) eqn:Hocc; cbn [app all_through] in *; [|by split_and!; [|left]].
    split_and!; [done| |by left]. right. apply bool_decide_eq_true_1 in Hocc as [y Hy].
    assert (saved d !! L = None) as HL.
    { destruct Hl as [Hh|Hl]; [|done]. exfalso. apply not_true_iff_false in Hkeep. apply Hkeep, (keeps_here d A); [by right|]. by rewrite Hy. }
    unfold back, orig. destruct (exec_remove d A L) as [-> ->], (exec_remove d A A) as [_ ->]. by rewrite HL, Hk, decide_False.
Qed.

(** What [recover_key] leaves of the other saved entries. *)
Lemma recover_key_saved d k j : is_Some (saved d !! k) -> k <> j -> saved (does d (recover_key d k)) !! j = saved d !! j.
Proof.
  intros [x Hk] Hn. destruct (keeps (d_tree d) k) eqn:Hkeep; [by rewrite recover_kept|]. destruct (recover_key_spec d k x Hk Hkeep j) as [_ ->]. by rewrite decide_False.
Qed.

(** The entries that still wait are saved. *)
Lemma rest_saved d k (ks : list (string * string)) : k ∉ ks -> is_Some (saved d !! k) -> (forall j, j ∈ ks -> is_Some (saved d !! j)) ->
  forall j, j ∈ ks -> is_Some (saved (does d (recover_key d k)) !! j).
Proof. intros Hn Hk Hs j Hj. rewrite recover_key_saved; [by apply Hs|done|]. by intros ->. Qed.

Lemma recover_keys_app d a b : recover_keys d (a ++ b) = recover_keys d a ++ recover_keys (does d (recover_keys d a)) b.
Proof. revert d. induction a as [|k a IH]; intros d; [done|]. cbn [app recover_keys]. rewrite IH, does_app, <- app_assoc. done. Qed.

Lemma recover_keys_saved (ks : list (string * string)) d : NoDup ks -> (forall k, k ∈ ks -> is_Some (saved d !! k)) ->
  forall j, j ∉ ks -> saved (does d (recover_keys d ks)) !! j = saved d !! j.
Proof.
  revert d. induction ks as [|k ks IH]; intros d Hnd Hs j Hj; [done|]. apply NoDup_cons in Hnd as [Hk Hnd]. cbn [recover_keys]. rewrite does_app.
  assert (is_Some (saved d !! k)) as Hsk by (apply Hs; left). rewrite IH; [|done| |].
  - apply recover_key_saved; [done|]. intros ->. apply Hj. left.
  - apply rest_saved; [done|done|]. intros i Hi. apply Hs. by right.
  - intros Hin. apply Hj. by right.
Qed.

Lemma recover_keys_live (ks : list (string * string)) d : NoDup ks -> (forall k, k ∈ ks -> k.1 = "live" /\ is_Some (saved d !! k)) -> alive d ->
  here d \/ saved d !! L = None \/ L ∈ ks ->
  all_through alive d (recover_keys d ks) /\ (here (does d (recover_keys d ks)) \/ saved (does d (recover_keys d ks)) !! L = None).
Proof.
  revert d. induction ks as [|k ks IH]; intros d Hnd Hs Hal Hl; [by destruct Hl as [?|[?|?%not_elem_of_nil]]; (split; [done|tauto])|].
  apply NoDup_cons in Hnd as [Hk Hnd]. cbn [recover_keys]. rewrite all_through_app, does_app.
  destruct (Hs k) as [Hk1 Hsk]; [left|].
  assert (forall j, j ∈ ks -> j.1 = "live" /\ is_Some (saved (does d (recover_key d k)) !! j)) as Hs'.
  { intros j Hj. split; [apply Hs; by right|]. apply (rest_saved d k ks); [done|done| |done]. intros i Hi. apply Hs. by right. }
  destruct (decide (k = L)) as [->|Hne].
  - destruct Hsk as [x Hx]. destruct (recover_live d x Hx Hal) as [H1 H2]. split_and!; [done|..].
    + apply IH; [done|done|by apply all_through_end|tauto].
    + apply IH; [done|done|by apply all_through_end|tauto].
  - destruct (recover_other d k) as [H1 H2]; [done|by intros ->|done|done|]. split_and!; [done|..].
    all: apply IH; [done|done|by apply all_through_end|].
    all: destruct Hl as [Hh|[Hl|Hl]]; [left; by apply (agree_here d)|right; left; destruct (H2 L) as [_ ->]; [by left|done]|right; right; apply elem_of_cons in Hl as [Hl|Hl]; [by destruct Hne|done]].
Qed.

Lemma recover_keys_archive (ks : list (string * string)) d : NoDup ks -> (forall k, k ∈ ks -> k.1 = "archive" /\ is_Some (saved d !! k)) -> alive d ->
  here d \/ saved d !! L = None -> here d \/ saved d !! A = None \/ A ∈ ks ->
  all_through alive d (recover_keys d ks) /\ here (does d (recover_keys d ks)).
Proof.
  revert d. induction ks as [|k ks IH]; intros d Hnd Hs Hal Hl Ha.
  - split; [done|]. destruct Ha as [Hh|[Ha|Ha%not_elem_of_nil]]; [done| |done]. destruct Hl as [Hh|Hl]; [done|]. destruct Hal as [Hh|Hb]; [done|]. by apply back_here.
  - apply NoDup_cons in Hnd as [Hk Hnd]. cbn [recover_keys]. rewrite all_through_app, does_app.
    destruct (Hs k) as [Hk1 Hsk]; [left|].
    assert (forall j, j ∈ ks -> j.1 = "archive" /\ is_Some (saved (does d (recover_key d k)) !! j)) as Hs'.
    { intros j Hj. split; [apply Hs; by right|]. apply (rest_saved d k ks); [done|done| |done]. intros i Hi. apply Hs. by right. }
    destruct (decide (k = A)) as [->|Hne].
    + destruct Hsk as [x Hx]. destruct (recover_archive d x Hx Hal Hl) as [H1 H2]. split_and!; [done|..]; apply IH; try done; try (by apply all_through_end); by left.
    + destruct (recover_other d k) as [H1 H2]; [by intros ->|done|done|done|]. split_and!; [done|..].
      all: apply IH; [done|done|by apply all_through_end|..].
      all: try (destruct Hl as [Hh|Hl]; [left; by apply (agree_here d)|right; destruct (H2 L) as [_ ->]; [by left|done]]).
      all: destruct Ha as [Hh|[Ha|Ha]]; [left; by apply (agree_here d)|right; left; destruct (H2 A) as [_ ->]; [by right|done]|right; right; apply elem_of_cons in Ha as [Ha|Ha]; [by destruct Hne|done]].
Qed.

Lemma recover_keys_other (ks : list (string * string)) d : NoDup ks -> (forall k, k ∈ ks -> k.1 <> "live" /\ k.1 <> "archive" /\ is_Some (saved d !! k)) -> alive d ->
  all_through alive d (recover_keys d ks) /\ agree d (does d (recover_keys d ks)).
Proof.
  revert d. induction ks as [|k ks IH]; intros d Hnd Hs Hal; [done|]. apply NoDup_cons in Hnd as [Hk Hnd]. cbn [recover_keys]. rewrite all_through_app, does_app.
  destruct (Hs k) as (H1 & H2 & Hsk); [left|]. destruct (recover_other d k) as [H3 H4]; [by intros ->|by intros ->|done|done|].
  destruct (IH (does d (recover_key d k))) as [H5 H6]; [done| |by apply all_through_end|].
  - intros j Hj. destruct (Hs j) as (H5 & H6 & H7); [by right|]. split_and!; [done|done|]. apply (rest_saved d k ks); [done|done| |done]. intros i Hi. apply Hs. by right.
  - split; [done|]. by apply (agree_trans _ _ _ H4).
Qed.

Lemma elem_of_names_in t subdir k : k ∈ names_in t subdir <-> k.1 = subdir /\ is_Some (t !! k).
Proof.
  unfold names_in. rewrite elem_of_bfilter, bool_decide_eq_true, list_elem_of_fmap. split.
  - intros [([k' x] & -> & Hx%elem_of_map_to_list) H]. split; [done|]. by exists x.
  - intros [H [x Hx]]. split; [|done]. exists (k, x). by rewrite elem_of_map_to_list.
Qed.

Lemma NoDup_names_in t subdir : NoDup (names_in t subdir).
Proof. apply NoDup_bfilter, NoDup_fst_map_to_list. Qed.

(** Names of different directories. *)
Lemma NoDup_names_app (a b : list (string * string)) : NoDup a -> NoDup b -> (forall k j, k ∈ a -> j ∈ b -> k.1 <> j.1) -> NoDup (a ++ b).
Proof. intros Ha Hb H. apply NoDup_app. split_and!; [done| |done]. intros k Hk Hj. by apply (H k k). Qed.

(** A recovery, finished or not, loses nothing, and when it is finished the certificate is in its place. *)
Lemma recovery_spec d : alive d ->
  all_through alive d (recoverStaleRenewalBackup d) /\ here (does d (recoverStaleRenewalBackup d)) /\ d_saved (does d (recoverStaleRenewalBackup d)) = None.
Proof.
  intros Hal. unfold recoverStaleRenewalBackup. destruct (d_saved d) as [s|] eqn:Hd.
  2:{ split_and!; [done| |done]. destruct Hal as [Hh|Hb]; [done|]. apply (back_here d); [unfold saved; by rewrite Hd..|done]. }
  assert (saved d = s) as Hsv by (unfold saved; by rewrite Hd).
  unfold backup_order. set (ks1 := names_in s "live"). set (ks2 := names_in s "archive"). set (ks3 := names_in s "renewal" ++ names_in s "certbot-renewal").
  assert (forall k, k ∈ ks3 -> (k.1 = "renewal" \/ k.1 = "certbot-renewal") /\ is_Some (s !! k)) as Hk3.
  { intros k. unfold ks3. rewrite elem_of_app, !elem_of_names_in. tauto. }
  assert (NoDup ks3) as Hn3.
  { apply NoDup_names_app; [apply NoDup_names_in..|]. intros k j [-> _]%elem_of_names_in [-> _]%elem_of_names_in. done. }
  rewrite recover_keys_app, recover_keys_app. rewrite !all_through_app, !does_app.
  destruct (recover_keys_live ks1 d) as [H1 H2]; [apply NoDup_names_in| |done| |].
  { intros k Hk. rewrite Hsv. by apply elem_of_names_in. }
  { destruct (s !! L) as [x|] eqn:Hx; [right; right; apply elem_of_names_in; split; [done|by exists x]|right; left; by rewrite Hsv]. }
  assert (forall j, j ∉ ks1 -> saved (does d (recover_keys d ks1)) !! j = s !! j) as Hs1.
  { intros j Hj. rewrite <- Hsv. apply recover_keys_saved; [apply NoDup_names_in| |done]. intros k Hk. rewrite Hsv. by apply elem_of_names_in in Hk as [_ ?]. }
  set (d1 := does d (recover_keys d ks1)) in *.
  assert (forall k, k ∈ ks2 -> k.1 = "archive" /\ is_Some (saved d1 !! k)) as Hk2.
  { intros k [Hk Hx]%elem_of_names_in. split; [done|]. rewrite Hs1; [done|]. intros [Hk' _]%elem_of_names_in. congruence. }
  destruct (recover_keys_archive ks2 d1) as [H3 H4]; [apply NoDup_names_in|done|by apply all_through_end|done| |].
  { destruct (s !! A) as [x|] eqn:Hx; [right; right; apply elem_of_names_in; split; [done|by exists x]|].
    right; left. rewrite Hs1; [done|]. by intros [? _]%elem_of_names_in. }
  assert (forall j, j ∉ ks2 -> saved (does d1 (recover_keys d1 ks2)) !! j = saved d1 !! j) as Hs2.
  { apply recover_keys_saved; [apply NoDup_names_in|]. intros k Hk. by apply Hk2. }
  set (d2 := does d1 (recover_keys d1 ks2)) in *.
  destruct (recover_keys_other ks3 d2) as [H5 H6]; [done| |by apply all_through_end|].
  { intros k [[Hk|Hk] Hx]%Hk3; (split_and!; [by rewrite Hk|by rewrite Hk|]; rewrite Hs2, Hs1; [done|..]; intros [Hk' _]%elem_of_names_in; congruence). }
  set (d3 := does d2 (recover_keys d2 ks3)) in *.
  assert (here d3) as Hd3 by (by apply (agree_here d2)).
  split_and!; [done|done|done| |done|done]. split; [by left|]. by left.
Qed.

(** ** Backup and restore *)

(** While certbot runs the old certificate is saved whole. *)
Definition kept_aside (ks : list (string * string)) (d : disk) : Prop :=
  usable (saved d !! L) (saved d !! A) /\ NoDup ks /\ L ∈ ks /\ (is_Some (saved d !! A) -> A ∈ ks) /\ forall k, k ∈ ks -> is_Some (saved d !! k).

Lemma aside_back ks d : kept_aside ks d -> back d.
Proof.
  intros (Hu & _). unfold back, orig. destruct (saved d !! L) as [l|] eqn:Hl; [|by apply usable_live in Hu as [? ?]].
  destruct (saved d !! A) eqn:Ha; [done|by apply usable_more].
Qed.

Lemma aside_spec (ks : list (string * string)) d : NoDup ks -> (forall k, k ∈ ks -> is_Some (d_tree d !! k) /\ saved d !! k = None) -> back d ->
  all_through alive d (Away <$> ks) /\
  forall j, saved (does d (Away <$> ks)) !! j = if decide (j ∈ ks) then d_tree d !! j else saved d !! j.
Proof.
  revert d. induction ks as [|k ks IH]; intros d Hnd Hs Hb; [split; [by right|done]|]. apply NoDup_cons in Hnd as [Hk Hnd].
  destruct (Hs k) as [[x Hx] Hn]; [left|]. cbn [fmap list_fmap all_through does foldl].
  destruct (IH (exec d (Away k))) as [H1 H2]; [done| | |].
  - intros j Hj. destruct (Hs j) as [Hj1 Hj2]; [by right|]. destruct (exec_away d k x j Hx) as [-> ->]. rewrite !decide_False; [done|..]; by intros ->.
  - apply (back_ext d); [|done]. intros j. by apply away_orig.
  - split_and!; [by right|done|]. intros j. rewrite H2. destruct (exec_away d k x j Hx) as [-> ->].
    destruct (decide (k = j)) as [->|Hne]; [by rewrite decide_False, decide_True by (done || left)|].
    destruct (decide (j ∈ ks)) as [Hin|Hout]; [by rewrite decide_True by (by right)|]. rewrite decide_False; [done|]. by intros [->|?]%elem_of_cons.
Qed.

Lemma put_back_spec (ks : list (string * string)) d : NoDup ks -> (forall k, k ∈ ks -> is_Some (saved d !! k)) -> back d ->
  (saved d !! L = None \/ L ∈ ks) -> (saved d !! A = None \/ A ∈ ks) ->
  all_through alive d (restoreCertDirsBackup d ks) /\ here (does d (restoreCertDirsBackup d ks)) /\ d_saved (does d (restoreCertDirsBackup d ks)) = None.
Proof.
  revert d. induction ks as [|k ks IH]; intros d Hnd Hs Hb Hl Ha.
  - assert (here d) as Hh. { destruct Hl as [Hl|Hl%not_elem_of_nil]; [|done]. destruct Ha as [Ha|Ha%not_elem_of_nil]; [|done]. by apply back_here. }
    cbn. split_and!; [by left|by left|done|done].
  - apply NoDup_cons in Hnd as [Hk Hnd]. assert (is_Some (saved d !! k)) as Hsk by (apply Hs; left). destruct Hsk as [x Hx].
    cbn [restoreCertDirsBackup]. unfold occupied. rewrite Hx, bool_decide_eq_true_2 by done.
    cbn [app all_through does foldl]. set (d1 := exec d (Remove k)). assert (saved d1 !! k = Some x) as Hx1 by done.
    assert (forall j, saved (exec d1 (Back k)) !! j = if decide (k = j) then None else saved d !! j) as Hsv by (intros j; by destruct (exec_back d1 k x j Hx1) as [_ ->]).
    assert (back d1) as Hb1 by (apply remove_back; [by exists x|done]).
    destruct (IH (exec d1 (Back k))) as (H1 & H2 & H3); [done| | | | |].
    + intros j Hj. rewrite Hsv, decide_False by (by intros ->). apply Hs. by right.
    + apply back_back; [by exists x|done].
    + rewrite Hsv. destruct (decide _) as [|Hn]; [by left|]. destruct Hl as [Hl|[Hl|Hl]%elem_of_cons]; [by left|by destruct Hn|by right].
    + rewrite Hsv. destruct (decide _) as [|Hn]; [by left|]. destruct Ha as [Ha|[Ha|Ha]%elem_of_cons]; [by left|by destruct Hn|by right].
    + split_and!; [by right|by right|done|done|done].
Qed.

End Survival.

Section Renewals.

Variable certificateId : Z.
Variable separate : bool.
Notation e := (prefix certificateId).
Notation step := (renewal_step certificateId separate).

Lemma entries_spec t k : k ∈ entries certificateId separate t ->
  is_Some (t !! k).
Proof.
  unfold entries. rewrite !elem_of_app, !elem_of_bfilter, !elem_of_names_in. destruct separate; rewrite ?elem_of_bfilter, ?elem_of_names_in, ?elem_of_nil; tauto.
Qed.

Lemma entries_lineage t s : s = "live" \/ s = "archive" -> is_Some (t !! (s, e)) -> (s, e) ∈ entries certificateId separate t.
Proof.
  intros Hs Hx. assert (is_lineage certificateId e = true) as He by (unfold is_lineage; by rewrite bool_decide_eq_true_2).
  unfold entries. rewrite !elem_of_app, !elem_of_bfilter, !elem_of_names_in. destruct Hs as [->| ->]; tauto.
Qed.

Lemma NoDup_entries t : NoDup (entries certificateId separate t).
Proof.
  assert (forall (s : string) (p : string * string -> bool) k, k ∈ bfilter p (names_in t s) -> k.1 = s) as Hn by (by intros s p k [[? _]%elem_of_names_in _]%elem_of_bfilter).
  unfold entries. repeat apply NoDup_names_app; try apply NoDup_bfilter, NoDup_names_in.
  - destruct separate; [apply NoDup_bfilter, NoDup_names_in|constructor].
  - intros k j ->%Hn Hj. destruct separate; [apply Hn in Hj; by rewrite Hj|by apply not_elem_of_nil in Hj].
  - intros k j ->%Hn [->%Hn|Hj]%elem_of_app; [done|]. destruct separate; [apply Hn in Hj; by rewrite Hj|by apply not_elem_of_nil in Hj].
  - intros k j ->%Hn [->%Hn|[->%Hn|Hj]%elem_of_app]%elem_of_app; [done..|]. destruct separate; [apply Hn in Hj; by rewrite Hj|by apply not_elem_of_nil in Hj].
Qed.

Lemma moves_spec d : alive e d ->
  all_through (alive e) d (backupCertDirsForRenewal certificateId separate d) /\
  kept_aside e (entries certificateId separate (d_tree (does d (recoverStaleRenewalBackup d)))) (does d (backupCertDirsForRenewal certificateId separate d)).
Proof.
  intros Hal. destruct (recovery_spec e d Hal) as (H1 & H2 & H3). unfold backupCertDirsForRenewal. set (d1 := does d (recoverStaleRenewalBackup d)) in *.
  set (ks := entries certificateId separate (d_tree d1)). assert (saved d1 = ∅) as Hs by (unfold saved; by rewrite H3).
  destruct (aside_spec e ks d1) as [H4 H5]; [apply NoDup_entries| | |].
  - intros k Hk. split; [by apply entries_spec|]. by rewrite Hs, lookup_empty.
  - apply back_here; [by rewrite Hs, lookup_empty..|done].
  - rewrite all_through_app, does_app. fold d1. split; [done|]. unfold kept_aside. rewrite !H5.
    assert (("live", e) ∈ ks) as HL by (apply entries_lineage; [by left|by apply (usable_live _ _ H2)]).
    rewrite (decide_True (P := ("live", e) ∈ ks)) by done. split_and!; [|apply NoDup_entries|done| |].
    + unfold here in H2. destruct (decide (("archive", e) ∈ ks)) as [Hin|Hout]; [done|]. rewrite Hs, lookup_empty.
      destruct (d_tree d1 !! ("archive", e)) eqn:Ha; [|done]. destruct Hout. apply entries_lineage; [by right|]. by rewrite Ha.
    + destruct (decide _) as [|Hout]; [done|]. rewrite Hs, lookup_empty. by intros [? ?].
    + intros k Hk. rewrite H5, decide_True by done. by apply entries_spec.
Qed.

(** The invariant of the renewals: at rest the certificate is in its place, while certbot runs it is
    saved, after an interruption it is in its place or comes back. *)
Definition renewal_inv (s : phase * disk) : Prop :=
  match s.1 with
  | Up [] => here e s.2 /\ d_saved s.2 = None
  | Up [ks] => kept_aside e ks s.2
  | Up _ => False
  | Interrupted => alive e s.2
  end.

Lemma kept_aside_tree ks d t : kept_aside e ks d -> kept_aside e ks (Disk t (d_saved d)).
Proof. done. Qed.

Lemma restore_aside ks d : kept_aside e ks d ->
  all_through (alive e) d (restoreCertDirsBackup d ks) /\ here e (does d (restoreCertDirsBackup d ks)) /\ d_saved (does d (restoreCertDirsBackup d ks)) = None.
Proof.
  intros H. pose proof (aside_back e ks d H) as Hb. destruct H as (_ & Hnd & HL & HA & Hs). apply put_back_spec; [done|done|done|by right|].
  destruct (saved d !! ("archive", e)) as [x|] eqn:Hx; [right; apply HA; by exists x|by left].
Qed.

Lemma inv_one before ks after d : renewal_inv (Up (before ++ ks :: after), d) -> before = [] /\ after = [] /\ kept_aside e ks d.
Proof. unfold renewal_inv. cbn. destruct before as [|b [|b' before]]; cbn; [|done|done]. by destruct after. Qed.

Lemma renewal_step_inv s s' : one_at_a_time certificateId separate s s' -> renewal_inv s -> renewal_inv s'.
Proof.
  intros [Hstep Hone] H. revert Hone H.
  destruct Hstep as [runs d t _ _ Hu|runs d _|runs d n _|runs d t Hr _|before ks after d Hex Hne|before ks after d|before ks after d n|runs d|d|d n]; intros Hone H;
    cbn [fst snd] in *.
  - unfold renewal_inv in *. cbn [fst snd] in *. destruct runs as [|ks [|? ?]]; [|by apply kept_aside_tree|done]. destruct H as [_ H]. by split.
  - rewrite length_app in Hone. cbn in Hone. destruct runs; [|cbn in Hone; lia]. apply moves_spec. by left; apply H.
  - unfold renewal_inv in *. cbn [fst snd] in *. destruct runs as [|ks [|? ?]]; [|  |done]; apply all_through_take, moves_spec; [left; by apply H|].
    right. by apply (aside_back e ks).
  - unfold renewal_inv in *. cbn [fst snd] in *. destruct runs as [|ks [|? ?]]; [done| |done]. by apply kept_aside_tree.
  - apply inv_one in H as (-> & -> & _). split; [|done]. unfold here, usable, renewedLiveCertExists, chain_of in *. apply bool_decide_eq_true_1 in Hex as [text Ht]. cbn. rewrite Ht in *.
    apply bool_decide_eq_true_2. congruence.
  - apply inv_one in H as (-> & -> & H). by apply (restore_aside ks d).
  - apply inv_one in H as (-> & -> & H). by apply all_through_take, (restore_aside ks d).
  - unfold renewal_inv in *. cbn [fst snd] in *. destruct runs as [|ks [|? ?]]; [left; by apply H| |done]. right. by apply (aside_back e ks).
  - by apply recovery_spec.
  - by apply all_through_take, recovery_spec.
Qed.

(** C23. However renewals of a certificate go one after another, whatever certbot leaves behind, and
    wherever a backup, a run, a restore or a recovery is interrupted, any number of times: whenever
    the server is at rest again the certificate is usable in its place and no backup is left; and a
    recovery from any state between ends there. No renewal of the certificate begins while another
    of it goes on ([one_at_a_time]), which nothing in the code sees to: with two the certificate may
    be lost ([overlapping_renewals_lose_certificate]). *)
Theorem valid_certificate_survives d s : liveUsable (d_tree d) e = true -> d_saved d = None ->
  rtc (one_at_a_time certificateId separate) (Up [], d) s ->
  (s.1 = Up [] -> liveUsable (d_tree s.2) e = true /\ d_saved s.2 = None) /\
  (liveUsable (d_tree (does s.2 (recoverStaleRenewalBackup s.2))) e = true).
Proof.
  intros Hu Hd Hr. assert (renewal_inv s) as Hinv.
  { assert (renewal_inv (Up [], d)) as H0 by done. revert H0. clear Hu Hd. induction Hr as [s|s1 s2 s3 H12 _ IH]; [done|]. intros H. by apply IH, (renewal_step_inv s1). }
  assert (alive e s.2) as Hal.
  { unfold renewal_inv in Hinv. destruct s as [[[|ks [|? ?]]|] d']; cbn [fst snd] in *; [left; by apply Hinv|right; by apply (aside_back e ks)|done|done]. }
  split.
  - intros Hs. unfold renewal_inv in Hinv. rewrite Hs in Hinv. done.
  - by apply (recovery_spec e s.2 Hal).
Qed.

End Renewals.

(** * Examples *)

Definition ex_live (version : string) : entry := Dir {["fullchain.pem" := Link ("fullchain" +:+ version +:+ ".pem")]}.
Definition ex_archive (version text : string) : entry := Dir {["fullchain" +:+ version +:+ ".pem" := File text]}.
(** Certificate 5 without its settings. *)
Definition ex_disk : disk := Disk {[("live", "npm-5") := ex_live "3"; ("archive", "npm-5") := ex_archive "3" "old"]} None.
(** What certbot leaves when it dies early. *)
Definition ex_garbage : tree := {[("live", "npm-5") := Dir ∅; ("archive", "npm-5") := ex_archive "1" ""]}.

Example broken_lineage : lineageIsIntact 5 false (d_tree ex_disk) = false /\ liveUsable (d_tree ex_disk) (prefix 5) = true.
Proof. vm_compute. split; reflexivity. Qed.

Lemma garbage_writes t : (forall k, is_Some (t !! k) -> is_lineage 5 k.2 = true) -> certbot_writes 5 ∅ t.
Proof. intros H k Hk _. rewrite lookup_empty. destruct (t !! k) eqn:Hx; [|done]. rewrite H in Hk; [done|by exists e]. Qed.

(** Interrupted behind the backup with certbot's remains in place, and again behind the first
    operation of the recovery. *)
Lemma valid_certificate_survives_witness :
  let d1 := Disk ex_garbage (d_saved (does ex_disk (backupCertDirsForRenewal 5 false ex_disk))) in
  liveUsable (d_tree d1) (prefix 5) = false /\ liveUsable (d_tree (does d1 (take 1 (recoverStaleRenewalBackup d1)))) (prefix 5) = false /\
  liveUsable (d_tree (does (does d1 (take 1 (recoverStaleRenewalBackup d1))) (recoverStaleRenewalBackup (does d1 (take 1 (recoverStaleRenewalBackup d1)))))) (prefix 5) = true.
Proof.
  set (d0 := does ex_disk (backupCertDirsForRenewal 5 false ex_disk)). cbv zeta. set (d1 := Disk ex_garbage (d_saved d0)).
  split; [vm_compute; reflexivity|]. split; [vm_compute; reflexivity|].
  refine (proj2 (valid_certificate_survives 5 false ex_disk (Interrupted, does d1 (take 1 (recoverStaleRenewalBackup d1))) _ _ _)); [vm_compute; reflexivity|reflexivity|].
  apply (rtc_l _ _ (Up [entries 5 false (d_tree ex_disk)], d0)).
  { split; [apply (start_renewal 5 false [] ex_disk); vm_compute; reflexivity|cbn; lia]. }
  apply (rtc_l _ _ (Up [entries 5 false (d_tree ex_disk)], d1)).
  { split; [|cbn; lia]. apply (certbot_runs 5 false _ d0); [done|]. assert (d_tree d0 = ∅) as -> by (vm_compute; reflexivity). apply garbage_writes.
    intros k [x Hx]. apply elem_of_map_to_list in Hx. revert Hx. vm_compute (map_to_list ex_garbage).
    intros [[= -> _]|[[= -> _]|[]%elem_of_nil]%elem_of_cons]%elem_of_cons; vm_compute; reflexivity. }
  apply (rtc_l _ _ (Interrupted, d1)); [split; [apply run_interrupted|exact I]|]. apply rtc_once. split; [apply recovery_interrupted|exact I].
Defined.

(** The timer and a request renew the certificate at once, and both runs of certbot fail. The second
    takes the backup of the first for one left over, moves the files aside itself, puts them back
    and drops the backup; then the first removes the archive to put back its own, which is gone. *)
Definition ex_moved : disk := does ex_disk (backupCertDirsForRenewal 5 false ex_disk).
Definition ex_moved_again : disk := does ex_moved (backupCertDirsForRenewal 5 false ex_moved).
Definition ex_put_back : disk := does ex_moved_again (restoreCertDirsBackup ex_moved_again (entries 5 false (d_tree ex_disk))).
Definition ex_lost : disk := does ex_put_back (restoreCertDirsBackup ex_put_back (entries 5 false (d_tree ex_disk))).

Lemma overlapping_renewals_lose_certificate :
  liveUsable (d_tree ex_disk) (prefix 5) = true /\ rtc (renewal_step 5 false) (Up [], ex_disk) (Up [], ex_lost) /\
  liveUsable (d_tree ex_lost) (prefix 5) = false /\ d_saved ex_lost = None.
Proof.
  split; [vm_compute; reflexivity|]. split; [|split; vm_compute; reflexivity].
  set (ks := entries 5 false (d_tree ex_disk)).
  apply (rtc_l _ _ (Up [ks], ex_moved)); [apply (start_renewal 5 false [] ex_disk); vm_compute; reflexivity|].
  apply (rtc_l _ _ (Up [ks; ks], ex_moved_again)).
  { assert (ks = entries 5 false (d_tree (does ex_moved (recoverStaleRenewalBackup ex_moved)))) as Hk by (vm_compute; reflexivity).
    rewrite Hk at 2. apply (start_renewal 5 false [ks] ex_moved). vm_compute. reflexivity. }
  apply (rtc_l _ _ (Up [ks], ex_put_back)); [apply (certbot_failed 5 false [ks] ks [])|].
  apply rtc_once, (certbot_failed 5 false [] ks []).
Qed.

(** A recovery that asks only whether something is there would keep certbot's remains. *)
Example remains_are_replaced :
  let d1 := Disk ex_garbage (d_saved (does ex_disk (backupCertDirsForRenewal 5 false ex_disk))) in
  recoverStaleRenewalBackup d1 = [Remove ("live", "npm-5"); Back ("live", "npm-5"); Remove ("archive", "npm-5"); Back ("archive", "npm-5"); Drop].
Proof. vm_compute. reflexivity. Qed.
