(* ===== verification/HostTables.v ===== *)
(** The tables of the published hosts: [backend/internal/host.js] and the models behind it.

    Proxy, redirection and 404 hosts and streams share a certificate and, proxy hosts, an access
    list; a handler is a program over these tables, the accounts, the files of nginx and the calls
    of Cloudflare's API, and what it wrote before it throws stays written. *)

From S2P Require Import Prelude.
From S2P Require Import JsString.
From S2P Require Import JsVal.
From S2P Require Import Json.
From S2P Require Import NginxText.
From S2P Require Import NginxConfig.
From S2P Require Import Accounts.
From S2P Require Import Route53.
From S2P Require Import CloudflareDns.

Local Open Scope Z_scope.

(** * Rows *)

Inductive kind := Proxy | Redirection | Dead | Stream.

#[export] Instance kind_eq_dec : EqDecision kind.
Proof. solve_decision. Defined.

Definition kind_type (k : kind) : string :=
  match k with Proxy => "proxy_host" | Redirection => "redirection_host" | Dead => "dead_host" | Stream => "stream" end.
Definition kind_objects (k : kind) : string :=
  match k with Proxy => "proxy_hosts" | Redirection => "redirection_hosts" | Dead => "dead_hosts" | Stream => "streams" end.

Record ssl := Ssl { ssl_forced : bool; http2_support : bool; hsts_enabled : bool; hsts_subdomains : bool }.

(** [h_cert], [h_list]: 0 is none; [h_rest]: the columns no handler looks at. *)
Record host := Host {
  h_kind : kind; h_id : Z; h_owner : Z; h_is_deleted : bool; h_enabled : bool; h_domains : list string; h_cert : Z; h_list : Z;
  h_ssl : ssl; h_meta : jsval; h_rest : list (string * jsval) }.

(** The users and the rules of a list are rows of their own, here in the order of their ids. *)
Record list_item := ListItem { li_username : string; li_password : string }.
Record list_client := ListClient { lc_address : string; lc_directive : string }.
Record access_list := AccessList {
  al_id : Z; al_owner : Z; al_is_deleted : bool; al_name : string; al_satisfy_any : bool; al_pass_auth : bool;
  al_items : list list_item; al_clients : list list_client }.

(** The accounts, the tables, the files and what nginx runs with, the password files of the lists,
    whether a reload is owed, and the calls of the API so far. *)
Record world := World {
  w_accounts : accounts; w_hosts : list host; w_certs : list certificate; w_lists : list access_list;
  w_files : files; w_loaded : files; w_htpasswd : gmap string string; w_reload_pending : bool; w_api : trace }.

Definition set_hosts (l : list host) (w : world) : world :=
  World (w_accounts w) l (w_certs w) (w_lists w) (w_files w) (w_loaded w) (w_htpasswd w) (w_reload_pending w) (w_api w).
Definition set_certs (l : list certificate) (w : world) : world :=
  World (w_accounts w) (w_hosts w) l (w_lists w) (w_files w) (w_loaded w) (w_htpasswd w) (w_reload_pending w) (w_api w).
Definition set_lists (l : list access_list) (w : world) : world :=
  World (w_accounts w) (w_hosts w) (w_certs w) l (w_files w) (w_loaded w) (w_htpasswd w) (w_reload_pending w) (w_api w).
Definition set_nginx (fs loaded : files) (w : world) : world :=
  World (w_accounts w) (w_hosts w) (w_certs w) (w_lists w) fs loaded (w_htpasswd w) (w_reload_pending w) (w_api w).
Definition set_htpasswd (m : gmap string string) (w : world) : world :=
  World (w_accounts w) (w_hosts w) (w_certs w) (w_lists w) (w_files w) (w_loaded w) m (w_reload_pending w) (w_api w).
Definition set_reload_pending (b : bool) (w : world) : world :=
  World (w_accounts w) (w_hosts w) (w_certs w) (w_lists w) (w_files w) (w_loaded w) (w_htpasswd w) b (w_api w).
Definition set_api (tr : trace) (w : world) : world :=
  World (w_accounts w) (w_hosts w) (w_certs w) (w_lists w) (w_files w) (w_loaded w) (w_htpasswd w) (w_reload_pending w) tr.

Inductive host_error :=
| Auth (e : auth_error)
| Nginx_error (e : config_error)
| InvalidCertificate
| CertificateNotAccessible
| InvalidAccessList
| AccessListNotAccessible
| InUse (name : string)
| NotFound (id : Z)
| IdsDoNotMatch
| AlreadyEnabled
| AlreadyDisabled
| DomainsRequired
| CertificateCreationFailed
| CredentialsRefused (e : credentials_error)
| NoEmail
| CertbotFailed
| NoCertificateInfo
| CertificateInUse (hosts : nat)
| InvalidUsername
| HashFailed.

(** What is not in this repository or of no interest here: the templates and their engine, the
    environment, [nginx -t], the texts of errors, [LIKE] of the database, the settings of the
    Cloudflare connection and the answers of its API. *)
Class Env := {
  templates : string -> option string;
  parseAndRender : string -> jsval -> result string string;
  DISABLE_IPV6 : option string;
  nginx_t : files -> option string;
  message_of : nginx_error -> string;
  like : string -> string -> bool;
  cf_message : cf_error -> string;
  cf_state : cf_settings;
  cloudflare : trace -> request -> response }.

(** * Programs over the tables *)

Definition M (A : Type) : Type := world -> world * result host_error A.

Definition retM {A} (a : A) : M A := fun w => (w, Ok a).
Definition fail {A} (e : host_error) : M A := fun w => (w, Throw e).
Definition bindM {A B} (m : M A) (f : A -> M B) : M B := fun w => match m w with (w, Ok a) => f a w | (w, Throw e) => (w, Throw e) end.
Definition read {A} (f : world -> A) : M A := fun w => (w, Ok (f w)).
Definition write (f : world -> world) : M unit := fun w => (f w, Ok tt).
(** [try { m } catch (e) { h; throw e }] *)
Definition on_error {A} (m : M A) (h : M unit) : M A := fun w =>
  match m w with
  | (w, Ok a) => (w, Ok a)
  | (w, Throw e) => match h w with (w, Ok _) => (w, Throw e) | (w, Throw e') => (w, Throw e') end
  end.
(** The outcome as a value. *)
Definition attempt {A} (m : M A) : M (result host_error A) := fun w => let '(w, r) := m w in (w, Ok r).
Definition from {E A} (f : E -> host_error) (r : result E A) : M A := match r with Ok a => retM a | Throw e => fail (f e) end.
Definition check (c : bool) (e : host_error) : M unit := if c then retM tt else fail e.
Definition when (c : bool) (m : M unit) : M unit := if c then m else retM tt.

Declare Scope host_scope.
Delimit Scope host_scope with host.
Notation "x <- m ;; k" := (bindM m (fun x => k)) (at level 100, m at next level, right associativity) : host_scope.
Notation "m ;;; k" := (bindM m (fun _ => k)) (at level 100, right associativity) : host_scope.

(** * Who asks *)

Definition user_id (a : access) : Z := if getUserId (ac_who a) =? 0 then 1 else getUserId (ac_who a).

(** [access_data.permission_visibility === "all"] *)
Definition sees_all (a : access) : bool :=
  match ac_who a, ac_init a with
  | Bearer _, Ok (_, Some perms) => bool_decide (pm_visibility perms = "all")
  | _, _ => false
  end.

Definition internal (a : access) : bool := match ac_who a with Internal => true | _ => false end.

Definition allowed (a : access) (permission : string) : M unit := from Auth (can a permission 0).

(** * Queries *)

(** The row of an id that is not deleted and, for who sees only his own, is his. *)
Definition visible_host (k : kind) (a : access) (id : Z) (h : host) : bool :=
  bool_decide (h_kind h = k) && negb (h_is_deleted h) && (h_id h =? id) && (sees_all a || (h_owner h =? user_id a)).
Definition visible_cert (a : access) (id : Z) (c : certificate) : bool :=
  negb (ct_is_deleted c) && (ct_id c =? id) && (sees_all a || (ct_owner c =? user_id a)).
Definition visible_list (a : access) (id : Z) (l : access_list) : bool :=
  negb (al_is_deleted l) && (al_id l =? id) && (sees_all a || (al_owner l =? user_id a)).

Definition live_cert (certs : list certificate) (id : Z) : option certificate := bfind (fun c => (ct_id c =? id) && negb (ct_is_deleted c)) certs.
Definition live_list (lists : list access_list) (id : Z) : option access_list := bfind (fun l => (al_id l =? id) && negb (al_is_deleted l)) lists.

Definition is_host (k : kind) (id : Z) (h : host) : bool := bool_decide (h_kind h = k) && (h_id h =? id).
Definition patch_host (k : kind) (id : Z) (f : host -> host) (w : world) : world := set_hosts (update_rows (is_host k id) f (w_hosts w)) w.

(** A row as the templates see it; [clean] hides what answers must not show. *)
Definition certificate_value (clean : bool) (c : certificate) : jsval :=
  VObj [("id", VInt (ct_id c)); ("owner_user_id", VInt (ct_owner c)); ("provider", VStr (ct_provider c)); ("nice_name", VStr (ct_nice_name c));
        ("domain_names", VArr (VStr <$> ct_domains c)); ("meta", if clean then VObj [] else ct_meta c)].
Definition list_value (clean : bool) (l : access_list) : jsval :=
  VObj [("id", VInt (al_id l)); ("owner_user_id", VInt (al_owner l)); ("name", VStr (al_name l)); ("satisfy_any", VBool (al_satisfy_any l));
        ("pass_auth", VBool (al_pass_auth l));
        ("items", VArr ((fun i => VObj [("username", VStr (li_username i)); ("password", VStr (if clean then "" else li_password i))]) <$> al_items l));
        ("clients", VArr ((fun c => VObj [("address", VStr (lc_address c)); ("directive", VStr (lc_directive c))]) <$> al_clients l))].

Definition relation {A} (f : A -> jsval) (x : option A) : jsval := match x with Some y => f y | None => VNull end.

(** The row with its certificate and its access list. *)
Definition host_row (h : host) (certificate access_list : jsval) : jsval :=
  VObj ([("id", VInt (h_id h)); ("owner_user_id", VInt (h_owner h)); ("enabled", VBool (h_enabled h)); ("domain_names", VArr (VStr <$> h_domains h));
         ("certificate_id", VInt (h_cert h)); ("access_list_id", VInt (h_list h)); ("ssl_forced", VBool (ssl_forced (h_ssl h)));
         ("http2_support", VBool (http2_support (h_ssl h))); ("hsts_enabled", VBool (hsts_enabled (h_ssl h)));
         ("hsts_subdomains", VBool (hsts_subdomains (h_ssl h))); ("meta", h_meta h); ("certificate", certificate); ("access_list", access_list)] ++ h_rest h).

Definition host_value (clean : bool) (w : world) (h : host) : jsval :=
  host_row h (relation (certificate_value clean) (live_cert (w_certs w) (h_cert h))) (relation (list_value clean) (live_list (w_lists w) (h_list h))).

(** * host.js *)

(** Without a certificate nothing is forced, without that no HSTS, without that none of subdomains. *)
Definition cleanSslHstsData (h : host) : host :=
  let s := h_ssl h in
  let forced := negb (h_cert h =? 0) && ssl_forced s in
  let http2 := negb (h_cert h =? 0) && http2_support s in
  let hsts := forced && hsts_enabled s in
  Host (h_kind h) (h_id h) (h_owner h) (h_is_deleted h) (h_enabled h) (h_domains h) (h_cert h) (h_list h)
    (Ssl forced http2 hsts (hsts && hsts_subdomains s)) (h_meta h) (h_rest h).

(** An id of 0, or none, needs no right. *)
Definition assertCertificateAccess (a : access) (certificateId : option Z) : M unit :=
  (match certificateId with
   | None => retM tt
   | Some id =>
       if id =? 0 then retM tt
       else
         check (0 <? id) InvalidCertificate;;;
         allowed a "certificates:get";;;
         if internal a then retM tt
         else found <- read (fun w => existsb (visible_cert a id) (w_certs w));; check found CertificateNotAccessible
   end)%host.

Definition assertAccessListAccess (a : access) (accessListId : option Z) : M unit :=
  (match accessListId with
   | None => retM tt
   | Some id =>
       if id =? 0 then retM tt
       else
         check (0 <? id) InvalidAccessList;;;
         allowed a "access_lists:get";;;
         if internal a then retM tt
         else found <- read (fun w => existsb (visible_list a id) (w_lists w));; check found AccessListNotAccessible
   end)%host.

Section Names.

Context {E : Env}.

Definition loadHostsUsingDomains (hosts : list host) (k : kind) (domainNames : list string) : list host :=
  bfilter (fun h => bool_decide (h_kind h = k) && negb (h_is_deleted h) &&
                    existsb (fun name => like ("%" +:+ name +:+ "%") (json_strings (h_domains h))) domainNames) hosts.

Definition findTakenHostname (domainNames : list string) (rows : list host) (ignoreId : Z) : option string :=
  let rows := bfilter (fun r => negb (negb (ignoreId =? 0) && (h_id r =? ignoreId))) rows in
  bfind (fun d => existsb (fun r => bool_decide (to_lower d ∈ to_lower <$> h_domains r)) rows) domainNames.

Definition named_kinds : list kind := [Proxy; Redirection; Dead].

(** [ignore]: the row that is updated. *)
Definition assertHostnamesFree (domainNames : option (list string)) (ignore : option (kind * Z)) : M unit :=
  match domainNames with
  | None => retM tt
  | Some names =>
      fun w =>
        let hit k := findTakenHostname names (loadHostsUsingDomains (w_hosts w) k names)
                       match ignore with Some (t, id) => if decide (t = k) then id else 0 | None => 0 end in
        match head (bfilter (fun s => bool_decide (s <> "")) (omap hit named_kinds)) with
        | Some name => (w, Throw (InUse name))
        | None => (w, Ok tt)
        end
  end.

(** The hosts of a kind that use one of the names. *)
Definition getHostsWithDomains (hosts : list host) (domainNames : list string) (k : kind) : list host :=
  bfilter (fun h => existsb (fun n => bool_decide (to_lower n ∈ to_lower <$> domainNames)) (h_domains h)) (loadHostsUsingDomains hosts k domainNames).

End Names.

Definition cleanRowCertificateMeta (row : jsval) : jsval :=
  if truthy (vget row "certificate") then vset "certificate" (vset "meta" (VObj []) (vget row "certificate")) row else row.

Definition cleanRowAccessListPasswords (row : jsval) : jsval :=
  match vget (vget row "access_list") "items" with
  | VArr items =>
      vset "access_list" (vset "items" (VArr ((fun i => if is_undef (vget i "password") then i else vset "password" (VStr "") i) <$> items)) (vget row "access_list")) row
  | _ => row
  end.

(** The answers show neither the documents of certificates nor passwords. *)
Lemma clean_list l : vset "items" (VArr ((fun i => if is_undef (vget i "password") then i else vset "password" (VStr "") i) <$>
    ((fun i => VObj [("username", VStr (li_username i)); ("password", VStr (li_password i))]) <$> al_items l))) (list_value false l) = list_value true l.
Proof. rewrite <- list_fmap_compose. reflexivity. Qed.

Lemma clean_host_value w h : cleanRowAccessListPasswords (cleanRowCertificateMeta (host_value false w h)) = host_value true w h.
Proof.
  unfold host_value. set (cv := live_cert _ _). set (lv := live_list _ _). clearbody cv lv.
  assert (cleanRowCertificateMeta (host_row h (relation (certificate_value false) cv) (relation (list_value false) lv)) =
          host_row h (relation (certificate_value true) cv) (relation (list_value false) lv)) as -> by (by destruct cv).
  destruct lv as [l|]; [|done]. cbn [relation]. rewrite <- (clean_list l). done.
Qed.
