(* ===== verification/Certificates.v ===== *)
(** Certificates: the rows of [backend/internal/certificate.js], their request and their deletion.

    A request over HTTP takes the hosts of its names out of nginx, puts the file of the challenge
    in, runs certbot and puts everything back, whatever fails. *)

From S2P Require Import Prelude.
From S2P Require Import JsString.
From S2P Require Import JsVal.
From S2P Require Import NginxText.
From S2P Require Import NginxConfig.
From S2P Require Import Accounts.
From S2P Require Import Route53.
From S2P Require Import CloudflareDns.
From S2P Require Import HostTables.

Local Open Scope Z_scope.
Local Open Scope host_scope.

(** How the outside answers one request: the id of a new row, certbot, the reading of the
    certificate it wrote, the reloads before it, behind it and after a failure, the patches of the
    rows of hosts. *)
Record cert_answers := CertAnswers {
  ca_id : Z; ca_certbot : bool; ca_info : bool; ca_reload_before : bool; ca_reload_after : bool; ca_reload_failed : bool; ca_bulk_reload : bool;
  ca_patch : string -> bool }.

(** [cleanDomainNames], sorted, as a row has them. *)
Definition cleanDomainNames (names : list string) : list string := bfilter (fun n => bool_decide (trim n <> "")) names.

(** The credentials of Route53 in their checked form. *)
Definition checkDnsCredentials (meta : jsval) : M jsval :=
  if is_str "route53" (vget meta "dns_provider") && negb (is_undef (vget meta "dns_provider_credentials")) then
    match vget meta "dns_provider_credentials" with
    | VStr text => bindM (from CredentialsRefused (normalizeRoute53Credentials text)) (fun out => retM (vset "dns_provider_credentials" (VStr out) meta))
    | _ => fail (CredentialsRefused NotText)
    end
  else retM meta.

Definition cert_id_of (id : Z) (c : certificate) : bool := ct_id c =? id.
Definition drop_cert (id : Z) (w : world) : world := set_certs (bfilter (fun c => negb (cert_id_of id c)) (w_certs w)) w.
Definition patch_cert (id : Z) (f : certificate -> certificate) (w : world) : world := set_certs (update_rows (cert_id_of id) f (w_certs w)) w.

(** [internalCertificate.get] *)
Definition get_certificate (a : access) (id : Z) : M certificate :=
  allowed a "certificates:get";;;
  row <- read (fun w => bfind (visible_cert a id) (w_certs w));;
  match row with Some c => retM c | None => fail (NotFound id) end.

Section Certificates.

Context {E : Env}.

(** ** nginx, with the meta it patches into the rows *)

Definition apply_meta (m : gmap (string * string) jsval) (l : list host) : list host :=
  (fun h => match m !! (kind_type (h_kind h), num_to_string (NInt (h_id h))) with
            | Some meta => Host (h_kind h) (h_id h) (h_owner h) (h_is_deleted h) (h_enabled h) (h_domains h) (h_cert h) (h_list h) (h_ssl h) meta (h_rest h)
            | None => h
            end) <$> l.

Definition with_nginx {A} (f : nginx -> nginx * result config_error A) : M A := fun w =>
  let '(n, r) := f (Nginx (w_files w) ∅ (w_loaded w)) in
  from Nginx_error r (set_nginx (n_files n) (n_loaded n) (set_hosts (apply_meta (n_meta n) (w_hosts w)) w)).

Definition on_files (f : files -> files) : M unit := write (fun w => set_nginx (f (w_files w)) (w_loaded w) w).

Definition reload_nginx (ok : bool) : M unit := with_nginx (reload nginx_t ok).

(** ** The hosts of the names *)

(** The rows with what the templates need, by kind. *)
Definition hosts_in_use (w : world) (domains : list string) (k : kind) : list jsval :=
  host_value false w <$> getHostsWithDomains (w_hosts w) domains k.

Definition disableInUseHosts (in_use : kind -> list jsval) : M unit :=
  on_files (fun fs => foldl (fun fs k => bulkStashConfigs (kind_type k) (in_use k) fs) fs named_kinds).

(** Every kind is tried; the errors are only logged. *)
Definition enableInUseHosts (ca : cert_answers) (in_use : kind -> list jsval) : M unit :=
  let one k := bindM (attempt (with_nginx (bulkGenerateConfigs templates parseAndRender DISABLE_IPV6 nginx_t message_of (ca_patch ca) (ca_bulk_reload ca) (kind_type k) (in_use k))))
                 (fun _ => retM tt) in
  one Proxy;;; one Redirection;;; one Dead.

(** ** Requests *)

Definition certificate_row (c : certificate) : jsval :=
  VObj [("id", VInt (ct_id c)); ("domain_names", VArr (VStr <$> ct_domains c)); ("meta", ct_meta c)].

Definition write_challenge (c : certificate) : M unit :=
  with_nginx (fun n => match generateLetsEncryptRequestConfig templates parseAndRender DISABLE_IPV6 (certificate_row c) (n_files n) with
                       | Ok fs => (set_files fs n, Ok tt)
                       | Throw e => (n, Throw (Gate e))
                       end).
Definition delete_challenge (c : certificate) : M unit := on_files (deleteLetsEncryptRequestConfig (certificate_row c)).

(** The challenge over HTTP. After certbot succeeded a failing reload is only owed. *)
Definition request_over_http (ca : cert_answers) (c : certificate) : M unit :=
  in_use <- read (fun w => hosts_in_use w (ct_domains c));;
  disableInUseHosts in_use;;;
  on_error
    (write_challenge c;;;
     reload_nginx (ca_reload_before ca);;;
     check (ca_certbot ca) CertbotFailed;;;
     delete_challenge c;;;
     enableInUseHosts ca in_use;;;
     r <- attempt (reload_nginx (ca_reload_after ca));;
     write (set_reload_pending (negb (is_ok r))))
    (delete_challenge c;;; enableInUseHosts ca in_use;;; reload_nginx (ca_reload_failed ca)).

Definition request_certificate (ca : cert_answers) (owner : Z) (c : certificate) : M unit :=
  user <- read (fun w => live_user (w_accounts w) owner);;
  check (match user with Some u => bool_decide (u_email u <> "") | None => false end) NoEmail;;;
  if truthy (vget (ct_meta c) "dns_challenge") then check (ca_certbot ca) CertbotFailed else request_over_http ca c.

(** [internalCertificate.create]: without a certificate its row goes again; once there is one it
    stays, even if it cannot be read. *)
Definition create_certificate (a : access) (ca : cert_answers) (provider nice_name : string) (domains : list string) (meta : jsval) : M certificate :=
  allowed a "certificates:create";;;
  meta <- checkDnsCredentials meta;;
  let letsencrypt := bool_decide (provider = "letsencrypt") in
  let c := Certificate (ca_id ca) (user_id a) false provider (if letsencrypt then join ", " domains else nice_name)
             (sort_strings (cleanDomainNames domains)) meta in
  write (fun w => set_certs (w_certs w ++ [c]) w);;;
  (if letsencrypt then
     on_error (request_certificate ca (user_id a) c) (write (drop_cert (ct_id c)));;;
     check (ca_info ca) NoCertificateInfo
   else retM tt);;;
  retM c.

Definition createQuickCertificate (a : access) (ca : cert_answers) (domains : list string) (meta : jsval) : M certificate :=
  create_certificate a ca "letsencrypt" "" domains meta.

(** [internalCertificate.update]: what was sent of the columns. *)
Record cert_patch := CertPatch { cp_nice_name : option string; cp_domains : option (list string); cp_meta : option jsval }.

Definition update_certificate (a : access) (id : Z) (data : cert_patch) : M certificate :=
  allowed a "certificates:update";;;
  meta <- (match cp_meta data with Some m => bindM (checkDnsCredentials m) (fun m => retM (Some m)) | None => retM None end);;
  row <- get_certificate a id;;
  let set c := Certificate (ct_id c) (ct_owner c) (ct_is_deleted c) (ct_provider c) (default (ct_nice_name c) (cp_nice_name data))
                 (match cp_domains data with Some l => sort_strings (cleanDomainNames l) | None => ct_domains c end) (default (ct_meta c) meta) in
  write (patch_cert (ct_id row) set);;;
  retM (set row).

(** A certificate that hosts refer to is not deleted. *)
Definition delete_certificate (a : access) (id : Z) : M unit :=
  allowed a "certificates:delete";;;
  row <- get_certificate a id;;
  inUse <- read (fun w => length (bfilter (fun h => negb (h_is_deleted h) && (h_cert h =? ct_id row)) (w_hosts w)));;
  check (bool_decide (inUse = 0%nat)) (CertificateInUse inUse);;;
  write (patch_cert (ct_id row) (fun c => Certificate (ct_id c) (ct_owner c) true (ct_provider c) (ct_nice_name c) (ct_domains c) (ct_meta c))).

End Certificates.

(** [cleanMeta]: of the files only whether they are there, or not even that. *)
Definition allowedSslFiles : list string := ["certificate"; "certificate_key"; "intermediate_certificate"].
Definition cleanMeta (remove : bool) (meta : jsval) : jsval :=
  match meta with
  | VObj m => VObj (foldl (fun m key => if truthy (default VUndef (mget key m)) then (if remove then mdel key m else mset key (VBool true) m) else m) m allowedSslFiles)
  | _ => meta
  end.

(** [renewalBackoffMs]: 2h, 4h, 8h, 16h, then daily. *)
Definition renewalBackoffMs (failures : Z) : Z := let hour := 60 * 60 * 1000 in Z.min (24 * hour) (hour * 2 ^ Z.max 1 (Z.min failures 5)).
