(* ===== verification/CertAlerts.v ===== *)
(** Failed renewals: the timer of [backend/internal/certificate.js] and the alerts of
    [backend/internal/cert-alerts.js].

    What failed is kept in memory, with the time of the next attempt, and in a file that survives a
    restart and says when a mail went out. *)

From S2P Require Import Prelude.
From S2P Require Import JsString.
From S2P Require Import JsVal.
From S2P Require Import NginxText.
From S2P Require Import NginxConfig.
From S2P Require Import Accounts.
From S2P Require Import CloudflareDns.
From S2P Require Import HostTables.
From S2P Require Import Certificates.

Local Open Scope Z_scope.

(** * The file *)

(** An entry; its state is always "failed". *)
Record failure := Failure {
  fl_name : string; fl_failures : Z; fl_error : string; fl_since : Z; fl_last_attempt : Z; fl_next_attempt : Z; fl_expires_on : option Z;
  fl_last_mail_at : option Z }.
Record alerts := Alerts { al_certs : gmap Z failure; al_expiring_mail_day : option string }.

Definition MAIL_EVERY_MS : Z := 24 * 60 * 60 * 1000.
Definition shortError (msg : string) : string := stake 600 (squeeze (if bool_decide (msg = "") then "unbekannter Fehler" else msg)).

Definition restoreFailures (s : alerts) : gmap Z (Z * Z) := (fun c => (if fl_failures c =? 0 then 1 else fl_failures c, fl_next_attempt c)) <$> al_certs s.

(** [onFailure] up to the mail: the new entry, and whether a mail is due. *)
Definition failure_begin (s : alerts) (id : Z) (name error : string) (expires : option Z) (failures nextAttempt now : Z) : failure * bool :=
  let prev := al_certs s !! id in
  let entry := Failure name failures (shortError error) (match prev with Some p => fl_since p | None => now end) now nextAttempt expires
                 (match prev with Some p => fl_last_mail_at p | None => None end) in
  (entry, match fl_last_mail_at entry with Some m => (m =? 0) || (MAIL_EVERY_MS <=? now - m) | None => true end).

Definition mail_noted (entry : failure) (mailed : bool) (now : Z) : failure :=
  if mailed
  then Failure (fl_name entry) (fl_failures entry) (fl_error entry) (fl_since entry) (fl_last_attempt entry) (fl_next_attempt entry) (fl_expires_on entry) (Some now)
  else entry.

(** What is written behind it is the file as it was before the mail, with the entry. *)
Definition failure_end (s : alerts) (id : Z) (entry : failure) (mailed : bool) (now : Z) : alerts :=
  Alerts (<[id := mail_noted entry mailed now]> (al_certs s)) (al_expiring_mail_day s).

Definition onFailure (s : alerts) (id : Z) (name error : string) (expires : option Z) (failures nextAttempt now : Z) (sent : bool) : alerts * bool :=
  let b := failure_begin s id name error expires failures nextAttempt now in (failure_end s id b.1 (b.2 && sent) now, b.2 && sent).

(** The mail that all is well again follows the write. *)
Definition onSuccess (s : alerts) (id : Z) : alerts * option failure :=
  match al_certs s !! id with
  | None => (s, None)
  | Some prev => (Alerts (delete id (al_certs s)) (al_expiring_mail_day s), Some prev)
  end.

Definition forget (s : alerts) (id : Z) : alerts := (onSuccess s id).1.

(** * What is shown *)

(** A certificate as far as it matters: when it expires, in milliseconds. *)
Record cert_info := CertInfo { ci_id : Z; ci_name : string; ci_provider : string; ci_expires : option Z }.
Inductive problem_kind := Expired | FailedRenewal | Expiring.
Record problem := Problem { pr_cert : cert_info; pr_days_left : option Z; pr_kind : problem_kind; pr_failed : option failure }.

Definition DAY : Z := 86400000.

Definition problem_of (s : alerts) (days now : Z) (c : cert_info) : option problem :=
  let failed := al_certs s !! ci_id c in
  let expired := match ci_expires c with Some exp => exp <=? now | None => false end in
  let expiring := match ci_expires c with Some exp => negb expired && (exp <=? now + days * DAY) | None => false end in
  if bool_decide (failed = None) && negb expired && negb expiring then None
  else Some (Problem c ((fun exp => (exp - now) / DAY) <$> ci_expires c)
               (if expired then Expired else match failed with Some _ => FailedRenewal | None => Expiring end) failed).

Definition kind_rank (k : problem_kind) : Z := match k with Expired => 0 | FailedRenewal => 1 | Expiring => 2 end.
Definition problem_le (p q : problem) : Prop :=
  kind_rank (pr_kind p) < kind_rank (pr_kind q) \/ (kind_rank (pr_kind p) = kind_rank (pr_kind q) /\ default 0 (pr_days_left p) <= default 0 (pr_days_left q)).
#[export] Instance problem_le_dec p q : Decision (problem_le p q).
Proof. unfold problem_le. apply _. Defined.

Definition problems (s : alerts) (days now : Z) (certs : list cert_info) : list problem := merge_sort problem_le (omap (problem_of s days now) certs).

Definition is_failed (p : problem) : bool := match pr_kind p with FailedRenewal => true | _ => false end.

(** [checkExpiring] up to the mail, and behind it; the file written is the one read. *)
Definition expiring_begin (s : alerts) (day : string) (days now : Z) (certs : list cert_info) : option (list problem) :=
  if bool_decide (al_expiring_mail_day s = Some day) then None
  else match bfilter (fun p => negb (is_failed p)) (problems s days now certs) with [] => None | l => Some l end.
Definition expiring_end (s : alerts) (day : string) (sent : bool) (now_file : alerts) : alerts := if sent then Alerts (al_certs s) (Some day) else now_file.

(** * The timer *)

(** What happened, the newest first: an attempt began, failed, was reported, was forgotten with the
    report; a certificate was renewed, and that was reported; the list of a day went out. *)
Inductive event :=
| Started (id t : Z)
| Failed (id t failures : Z)
| Mailed (id t : Z)
| Forgotten (id t failures : Z)
| Renewed (id : Z)
| AllClear (id : Z)
| Listed (day : string).

(** A failure whose mail is on its way: when it was, and the entry to be written behind the mail. *)
Record mail := Mail { ml_id : Z; ml_failed_at : Z; ml_entry : failure }.

Record server := Server {
  sv_now : Z; renewFailures : gmap Z (Z * Z); sv_file : alerts; sv_mail : option mail; sv_log : list event }.

(** [failed && Date.now() < failed.nextAttempt] *)
Definition waits (sv : server) (id : Z) : bool := match renewFailures sv !! id with Some (_, next) => sv_now sv <? next | None => false end.

(** An attempt that fails after [d], with [e] between the two looks at the clock. The failure is in
    memory at once; in the file it is only behind the mail, if one is due. *)
Definition attempt_failed (id d e : Z) (name error : string) (expires : option Z) (sv : server) : server :=
  let failed_at := sv_now sv + d in
  let failures := match renewFailures sv !! id with Some (f, _) => f | None => 0 end + 1 in
  let nextAttempt := failed_at + renewalBackoffMs failures in
  let now := failed_at + e in
  let '(entry, due) := failure_begin (sv_file sv) id name error expires failures nextAttempt now in
  Server now (<[id := (failures, nextAttempt)]> (renewFailures sv))
    (if due then sv_file sv else failure_end (sv_file sv) id entry false now)
    (if due then Some (Mail id failed_at entry) else None)
    (Failed id failed_at failures :: Started id (sv_now sv) :: sv_log sv).

(** The mail is delivered or not; the file is written. *)
Definition mail_ended (m : mail) (sent : bool) (sv : server) : server :=
  let now := fl_last_attempt (ml_entry m) in
  Server (sv_now sv) (renewFailures sv) (failure_end (sv_file sv) (ml_id m) (ml_entry m) sent now) None
    ((if sent then [Mailed (ml_id m) now] else []) ++ sv_log sv).

(** A renewal, by the timer or by hand; that all is well again is told for a failure of the file. *)
Definition attempt_succeeded (id d : Z) (told : bool) (log : list event) (sv : server) : server :=
  let '(file, prev) := onSuccess (sv_file sv) id in
  Server (sv_now sv + d) (delete id (renewFailures sv)) file (sv_mail sv)
    ((if told && bool_decide (is_Some prev) then [AllClear id] else []) ++ Renewed id :: log).

(** The daily list of what expires. *)
Definition day_listed (day : string) (sent : bool) (sv : server) : server :=
  Server (sv_now sv) (renewFailures sv) (expiring_end (sv_file sv) day sent (sv_file sv)) (sv_mail sv)
    ((if sent then [Listed day] else []) ++ sv_log sv).

(** Memory is filled from the file; a mail on its way is not waited for. *)
Definition restarted (sv : server) : server :=
  Server (sv_now sv) (restoreFailures (sv_file sv)) (sv_file sv) None
    (match sv_mail sv with Some m => [Forgotten (ml_id m) (ml_failed_at m) (fl_failures (ml_entry m))] | None => [] end ++ sv_log sv).

(** One thing after another, but for the restarts: nothing else happens while a mail is on its way. *)
Inductive timer_step (sv : server) : server -> Prop :=
| time_passes d : 0 <= d -> timer_step sv (Server (sv_now sv + d) (renewFailures sv) (sv_file sv) (sv_mail sv) (sv_log sv))
| timer_fails id d e name error expires : sv_mail sv = None -> waits sv id = false -> 0 < d -> 0 <= e ->
    timer_step sv (attempt_failed id d e name error expires sv)
| mail_ends m sent : sv_mail sv = Some m -> timer_step sv (mail_ended m sent sv)
| timer_renews id d told : sv_mail sv = None -> waits sv id = false -> 0 <= d ->
    timer_step sv (attempt_succeeded id d told (Started id (sv_now sv) :: sv_log sv) sv)
| renewed_by_hand id d told : sv_mail sv = None -> 0 <= d -> timer_step sv (attempt_succeeded id d told (sv_log sv) sv)
| mail_of_the_day day days certs l sent : sv_mail sv = None -> expiring_begin (sv_file sv) day days (sv_now sv) certs = Some l ->
    timer_step sv (day_listed day sent sv)
| server_restarts : timer_step sv (restarted sv).

(** * The pace of attempts and mails *)

(** What happened to a certificate since it was renewed last. *)
Definition is_renewed (id : Z) (e : event) : bool := match e with Renewed i => i =? id | _ => false end.
Fixpoint since (id : Z) (log : list event) : list event := match log with [] => [] | e :: log => if is_renewed id e then [] else e :: since id log end.

(** A failure since the last renewal that no restart forgot. *)
Definition remembered (id t n : Z) (log : list event) : Prop := Failed id t n ∈ since id log /\ Forgotten id t n ∉ since id log.

Fixpoint last_listed (log : list event) : option string :=
  match log with [] => None | Listed day :: _ => Some day | _ :: log => last_listed log end.

(** An attempt follows a failure by its back-off, failures count up, mails about the failures of a
    certificate are a day apart; only a failure that was in the file is reported as over, behind
    the renewal; and the list goes out once a day. *)
Definition in_pace (e : event) (log : list event) : Prop :=
  match e with
  | Started id t' => forall t n, remembered id t n log -> t + renewalBackoffMs n <= t'
  | Failed id t' n' => forall t n, remembered id t n log -> n < n'
  | Mailed id t' => forall t, Mailed id t ∈ since id log -> t + MAIL_EVERY_MS <= t'
  | Forgotten id t n => remembered id t n log
  | Renewed _ => True
  | AllClear id => exists log', log = Renewed id :: log' /\ exists t n, Failed id t n ∈ since id log'
  | Listed day => last_listed log <> Some day
  end.
Fixpoint paced (log : list event) : Prop := match log with [] => True | e :: log => in_pace e log /\ paced log end.

Lemma backoff_nonneg n : 0 <= renewalBackoffMs n.
Proof. unfold renewalBackoffMs. pose proof (Z.pow_nonneg 2 (Z.max 1 (Z.min n 5))). lia. Qed.

Lemma elem_of_since id e e' log : is_renewed id e' = false -> e ∈ since id (e' :: log) <-> e = e' \/ e ∈ since id log.
Proof. intros H. cbn. rewrite H. apply elem_of_cons. Qed.

Lemma since_renewed i id log : since i (Renewed id :: log) = if id =? i then [] else Renewed id :: since i log.
Proof. done. Qed.

(** The entries of the file as they will be behind the mail. *)
Definition noted (sv : server) : gmap Z failure :=
  match sv_mail sv with Some m => <[ml_id m := ml_entry m]> (al_certs (sv_file sv)) | None => al_certs (sv_file sv) end.

Definition entry_bounds (t n : Z) (c : failure) : Prop := t + renewalBackoffMs n <= fl_next_attempt c /\ n <= fl_failures c.

(** The entry of a mail that is on its way, beside the one it will replace. *)
Record on_its_way (sv : server) (m : mail) : Prop := {
  way_time : 0 < fl_last_attempt (ml_entry m);
  way_count : 1 <= fl_failures (ml_entry m);
  way_next : fl_next_attempt (ml_entry m) = ml_failed_at m + renewalBackoffMs (fl_failures (ml_entry m));
  way_logged : remembered (ml_id m) (ml_failed_at m) (fl_failures (ml_entry m)) (sv_log sv);
  way_grows : forall c, al_certs (sv_file sv) !! ml_id m = Some c ->
    fl_failures c < fl_failures (ml_entry m) /\ fl_next_attempt c <= fl_next_attempt (ml_entry m) /\
    fl_last_mail_at (ml_entry m) = fl_last_mail_at c /\
    forall q, fl_last_mail_at c = Some q -> q = 0 \/ q + MAIL_EVERY_MS <= fl_last_attempt (ml_entry m) }.

Record steady (sv : server) : Prop := {
  steady_now : 0 < sv_now sv;
  steady_memory : renewFailures sv = restoreFailures (Alerts (noted sv) None);
  steady_count : forall id c, al_certs (sv_file sv) !! id = Some c -> 1 <= fl_failures c;
  steady_known : forall id c, al_certs (sv_file sv) !! id = Some c -> exists t n, Failed id t n ∈ since id (sv_log sv);
  steady_failed : forall id t n, remembered id t n (sv_log sv) ->
    (exists c, al_certs (sv_file sv) !! id = Some c /\ entry_bounds t n c) \/
    (exists m, sv_mail sv = Some m /\ id = ml_id m /\ t = ml_failed_at m /\ n = fl_failures (ml_entry m));
  steady_mail : forall m, sv_mail sv = Some m -> on_its_way sv m;
  steady_mailed : forall id t, Mailed id t ∈ since id (sv_log sv) -> exists c m, al_certs (sv_file sv) !! id = Some c /\ fl_last_mail_at c = Some m /\ t <= m /\ 0 < m;
  steady_past : forall id t n, Forgotten id t n ∈ since id (sv_log sv) \/ Failed id t n ∈ since id (sv_log sv) -> t <= sv_now sv;
  steady_listed : al_expiring_mail_day (sv_file sv) = last_listed (sv_log sv);
  steady_paced : paced (sv_log sv) }.

Lemma restore_lookup (f : gmap Z failure) day id : restoreFailures (Alerts f day) !! id =
  (fun c => (if fl_failures c =? 0 then 1 else fl_failures c, fl_next_attempt c)) <$> f !! id.
Proof. unfold restoreFailures. cbn. apply lookup_fmap. Qed.

Lemma restore_insert f day id c : 1 <= fl_failures c ->
  restoreFailures (Alerts (<[id := c]> f) day) = <[id := (fl_failures c, fl_next_attempt c)]> (restoreFailures (Alerts f day)).
Proof. intros H. unfold restoreFailures. cbn. rewrite fmap_insert. destruct (Z.eqb_spec (fl_failures c) 0); [lia|done]. Qed.

(** Memory holds what the file does, when no mail is on its way. *)
Lemma memory_of_file sv id : steady sv -> sv_mail sv = None ->
  renewFailures sv !! id = (fun c => (fl_failures c, fl_next_attempt c)) <$> al_certs (sv_file sv) !! id.
Proof.
  intros Hs Hm. rewrite (steady_memory sv Hs), restore_lookup. unfold noted. rewrite Hm.
  destruct (al_certs (sv_file sv) !! id) as [c|] eqn:Hc; [|done]. pose proof (steady_count sv Hs id c Hc). cbn.
  by rewrite (proj2 (Z.eqb_neq _ _)) by lia.
Qed.

(** What an attempt that does not wait finds. *)
Lemma old_failures sv id t n : steady sv -> sv_mail sv = None -> waits sv id = false -> remembered id t n (sv_log sv) ->
  exists c, al_certs (sv_file sv) !! id = Some c /\ entry_bounds t n c /\ fl_next_attempt c <= sv_now sv /\ renewFailures sv !! id = Some (fl_failures c, fl_next_attempt c).
Proof.
  intros Hs Hm Hw Hf. destruct (steady_failed sv Hs id t n Hf) as [(c & Hc & Hb)|(m & Hx & _)]; [|congruence].
  pose proof (memory_of_file sv id Hs Hm) as Hx. rewrite Hc in Hx. cbn in Hx. exists c. split_and!; [done|done| |done].
  unfold waits in Hw. rewrite Hx in Hw. by apply Z.ltb_ge in Hw.
Qed.

Lemma remembered_cons id t n e log : remembered id t n (e :: log) -> is_renewed id e = false ->
  (forall i k j, e <> Failed i k j) -> remembered id t n log.
Proof. intros [H1 H2] He Hn. rewrite elem_of_since in H1, H2 by done. destruct H1 as [H1|H1]; [by destruct (Hn id t n)|]. split; tauto. Qed.

(** ** An attempt that fails *)

Section fails.
Context (sv : server) (id d e : Z) (name error : string) (expires : option Z).
Hypotheses (Hs : steady sv) (Hmail : sv_mail sv = None) (Hw : waits sv id = false) (Hd : 0 < d) (He : 0 <= e).

Let failures : Z := match renewFailures sv !! id with Some (f, _) => f | None => 0 end + 1.
Let nextAttempt : Z := sv_now sv + d + renewalBackoffMs failures.
Let begun : failure * bool := failure_begin (sv_file sv) id name error expires failures nextAttempt (sv_now sv + d + e).
Let log' : list event := Failed id (sv_now sv + d) failures :: Started id (sv_now sv) :: sv_log sv.

Lemma attempt_failed_eq : attempt_failed id d e name error expires sv =
  Server (sv_now sv + d + e) (<[id := (failures, nextAttempt)]> (renewFailures sv))
    (if begun.2 then sv_file sv else Alerts (<[id := begun.1]> (al_certs (sv_file sv))) (al_expiring_mail_day (sv_file sv)))
    (if begun.2 then Some (Mail id (sv_now sv + d) begun.1) else None) log'.
Proof. done. Qed.

Lemma failures_pos : 1 <= failures.
Proof.
  unfold failures. rewrite (memory_of_file sv id Hs Hmail). destruct (al_certs (sv_file sv) !! id) as [c|] eqn:Hc; cbn; [|lia].
  pose proof (steady_count sv Hs id c Hc). lia.
Qed.

Lemma old_bound t n : remembered id t n (sv_log sv) -> t + renewalBackoffMs n <= sv_now sv /\ n < failures.
Proof.
  intros Hf. destruct (old_failures sv id t n Hs Hmail Hw Hf) as (c & _ & [H1 H2] & H3 & H4). unfold failures. rewrite H4. lia.
Qed.

Lemma remembered_new i t n : remembered i t n log' -> remembered i t n (sv_log sv) \/ (i = id /\ t = sv_now sv + d /\ n = failures).
Proof.
  unfold remembered, log'. rewrite !elem_of_since by done. intros [[H|[H|H]] H2]; [right; by injection H|done|left; tauto].
Qed.

Lemma begun_facts : fl_failures begun.1 = failures /\ fl_next_attempt begun.1 = nextAttempt /\ fl_last_attempt begun.1 = sv_now sv + d + e /\
  (forall c, al_certs (sv_file sv) !! id = Some c -> fl_last_mail_at begun.1 = fl_last_mail_at c) /\
  (begun.2 = true -> forall c q, al_certs (sv_file sv) !! id = Some c -> fl_last_mail_at c = Some q -> q = 0 \/ q + MAIL_EVERY_MS <= sv_now sv + d + e).
Proof.
  unfold begun, failure_begin. cbn. split_and!; try done.
  - intros c Hc. by rewrite Hc.
  - intros H c q Hc Hq. rewrite Hc, Hq in H. apply orb_true_iff in H as [?%Z.eqb_eq|?%Z.leb_le]; [by left|right; lia].
Qed.

Lemma log_paced : paced log'.
Proof.
  unfold log'. cbn [paced in_pace]. split_and!; [|intros t n Hf; by destruct (old_bound t n Hf)|apply Hs].
  intros t n Hf. apply remembered_cons in Hf; [by destruct (old_bound t n Hf)|done|done].
Qed.

(** The entry grows over the one in the file. *)
Lemma entry_grows c : al_certs (sv_file sv) !! id = Some c -> fl_failures c < failures /\ fl_next_attempt c <= nextAttempt.
Proof.
  intros Hc. pose proof (memory_of_file sv id Hs Hmail) as Hx. rewrite Hc in Hx. cbn in Hx. unfold nextAttempt, failures. rewrite Hx.
  unfold waits in Hw. rewrite Hx in Hw. apply Z.ltb_ge in Hw. pose proof (backoff_nonneg (fl_failures c + 1)). lia.
Qed.

Lemma fails_steady : steady (attempt_failed id d e name error expires sv).
Proof.
  rewrite attempt_failed_eq. destruct begun_facts as (F1 & F2 & F3 & F4 & F5). clearbody begun. pose proof failures_pos as Hpos. pose proof (steady_now sv Hs) as Hnow.
  assert (forall i x, x ∈ since i (sv_log sv) -> x ∈ since i log') as Hin by (intros i x Hx; unfold log'; rewrite !elem_of_since by done; tauto).
  assert (Failed id (sv_now sv + d) failures ∈ since id log') as Hnew by (unfold log'; rewrite elem_of_since by done; by left).
  assert (forall i t, Mailed i t ∈ since i log' -> Mailed i t ∈ since i (sv_log sv)) as Hmd.
  { intros i t. unfold log'. rewrite !elem_of_since by done. intros [|[|]]; done. }
  split; cbn [sv_now renewFailures sv_file sv_mail sv_log].
  - lia.
  - unfold noted. cbn [sv_mail sv_file]. destruct begun.2; cbn [ml_id ml_entry al_certs].
    all: rewrite restore_insert by lia; rewrite (steady_memory sv Hs); unfold noted; by rewrite Hmail, F1, F2.
  - destruct begun.2; [apply Hs|]. cbn [al_certs]. intros i c [[<- <-]|[_ Hc]]%lookup_insert_Some; [lia|by apply (steady_count sv Hs i)].
  - intros i c Hc. destruct (decide (i = id)) as [->|Hne]; [eauto|]. destruct (steady_known sv Hs i c) as (t & n & Ht); [|eauto].
    destruct begun.2; [done|]. cbn in Hc. by rewrite lookup_insert_ne in Hc by done.
  - intros i t n [Hf|(-> & -> & ->)]%remembered_new.
    + destruct (steady_failed sv Hs i t n Hf) as [(c & Hc & Hb)|(m & Hx & _)]; [|congruence]. left. destruct begun.2; [by exists c|]. cbn.
      destruct (decide (i = id)) as [->|Hne]; [|rewrite lookup_insert_ne by done; by exists c].
      rewrite lookup_insert_eq. exists begun.1. split; [done|]. destruct (entry_grows c Hc), Hb. split; lia.
    + destruct begun.2; [right; eexists; split; [done|]; by rewrite <- F1|]. left. cbn. rewrite lookup_insert_eq. exists begun.1.
      split; [done|]. split; unfold nextAttempt in *; lia.
  - intros m Hm. destruct begun.2 eqn:Hdue; [|done]. injection Hm as <-. split; cbn [ml_id ml_entry ml_failed_at sv_file sv_log]; rewrite ?F1, ?F2, ?F3.
    + lia.
    + done.
    + done.
    + split; [done|]. unfold log'. rewrite !elem_of_since by done. intros [|[|Hx]]; [done|done|].
      pose proof (steady_past sv Hs id _ _ (or_introl Hx)). lia.
    + intros c Hc. destruct (entry_grows c Hc). split_and!; [done|done|by apply F4|]. intros q. by apply F5.
  - intros i t Hm%Hmd. destruct (steady_mailed sv Hs i t Hm) as (c & q & Hc & Hq & H1 & H2). destruct begun.2; [by exists c, q|]. cbn.
    destruct (decide (i = id)) as [->|Hne]; [|rewrite lookup_insert_ne by done; by exists c, q].
    rewrite lookup_insert_eq. exists begun.1, q. by rewrite (F4 c Hc).
  - intros i t n Hf. unfold log' in Hf. rewrite !elem_of_since in Hf by done.
    destruct Hf as [[Hf|[Hf|Hf]]|[Hf|[Hf|Hf]]]; try done.
    + pose proof (steady_past sv Hs i t n (or_introl Hf)). lia.
    + injection Hf as -> -> ->. lia.
    + pose proof (steady_past sv Hs i t n (or_intror Hf)). lia.
  - destruct begun.2; apply Hs.
  - apply log_paced.
Qed.
End fails.

(** ** The other steps *)

Lemma mail_noted_same entry sent now : fl_failures (mail_noted entry sent now) = fl_failures entry /\
  fl_next_attempt (mail_noted entry sent now) = fl_next_attempt entry /\
  fl_last_mail_at (mail_noted entry sent now) = (if sent then Some now else fl_last_mail_at entry).
Proof. by destruct sent. Qed.

(** Entries are restored by what they say of attempts. *)
Lemma restore_same f g : (forall i : Z, (fun c => (fl_failures c, fl_next_attempt c)) <$> f !! i = (fun c => (fl_failures c, fl_next_attempt c)) <$> g !! i) ->
  restoreFailures (Alerts f None) = restoreFailures (Alerts g None).
Proof.
  intros H. apply map_eq. intros i. rewrite !restore_lookup. specialize (H i).
  destruct (f !! i) as [c|], (g !! i) as [c'|]; cbn in *; [|congruence..]. by injection H as -> ->.
Qed.

Lemma mail_steady m sent sv : steady sv -> sv_mail sv = Some m -> steady (mail_ended m sent sv).
Proof.
  intros Hs Hm. destruct (steady_mail sv Hs m Hm) as [Wt Wc Wn Wl Wg]. unfold mail_ended, failure_end. cbv zeta.
  set (now := fl_last_attempt (ml_entry m)) in *. destruct (mail_noted_same (ml_entry m) sent now) as (M1 & M2 & M3).
  set (c0 := mail_noted (ml_entry m) sent now) in *. clearbody c0. set (log' := _ ++ sv_log sv).
  assert (forall i x, x ∈ since i log' <-> x ∈ since i (sv_log sv) \/ (sent = true /\ x = Mailed (ml_id m) now)) as Hlog.
  { intros i x. unfold log'. destruct sent; cbn [app]; rewrite ?elem_of_since by done; naive_solver. }
  assert (forall i t n, remembered i t n log' <-> remembered i t n (sv_log sv)) as Hrem.
  { intros i t n. unfold remembered. rewrite !Hlog. naive_solver. }
  split; cbn [sv_now renewFailures sv_file sv_mail sv_log al_certs al_expiring_mail_day].
  - apply Hs.
  - rewrite (steady_memory sv Hs). unfold noted. rewrite Hm. cbn [sv_mail sv_file al_certs]. apply restore_same. intros i.
    destruct (decide (i = ml_id m)) as [->|Hne]; [rewrite !lookup_insert_eq; cbn; by rewrite M1, M2|by rewrite !lookup_insert_ne by done].
  - intros i c [[<- <-]|[_ Hc]]%lookup_insert_Some; [lia|by apply (steady_count sv Hs i)].
  - intros i c Hc. destruct (decide (i = ml_id m)) as [->|Hne].
    + destruct Wl as [Wl _]. eexists _, _. apply Hlog. by left.
    + rewrite lookup_insert_ne in Hc by done. destruct (steady_known sv Hs i c Hc) as (t & n & Ht). exists t, n. apply Hlog. by left.
  - intros i t n Hf%Hrem. left. destruct (steady_failed sv Hs i t n Hf) as [(c & Hc & H1 & H2)|(m' & Hm' & -> & -> & ->)].
    + destruct (decide (i = ml_id m)) as [->|Hne]; [|rewrite lookup_insert_ne by done; by exists c].
      rewrite lookup_insert_eq. exists c0. destruct (Wg c Hc) as (G1 & G2 & _). split; [done|]. split; lia.
    + assert (m' = m) as -> by congruence. rewrite lookup_insert_eq. exists c0. split; [done|]. split; lia.
  - done.
  - intros i t Ht%Hlog. destruct Ht as [Ht|[-> [= -> ->]]].
    + destruct (steady_mailed sv Hs i t Ht) as (c & q & Hc & Hq & H1 & H2).
      destruct (decide (i = ml_id m)) as [->|Hne]; [|rewrite lookup_insert_ne by done; by exists c, q].
      rewrite lookup_insert_eq. destruct (Wg c Hc) as (_ & _ & G3 & G4). destruct sent.
      * exists c0, now. split_and!; [done|done| |done]. destruct (G4 q Hq); unfold MAIL_EVERY_MS in *; lia.
      * exists c0, q. by rewrite M3, G3.
    + rewrite lookup_insert_eq. exists c0, now. split_and!; done || lia.
  - intros i t n Hf. apply (steady_past sv Hs i t n). rewrite !Hlog in Hf. naive_solver.
  - rewrite (steady_listed sv Hs). unfold log'. by destruct sent.
  - unfold log'. destruct sent; [|apply Hs]. cbn [app paced in_pace]. split; [|apply Hs]. intros t Ht.
    destruct (steady_mailed sv Hs _ t Ht) as (c & q & Hc & Hq & H1 & H2). destruct (Wg c Hc) as (_ & _ & _ & G4). destruct (G4 q Hq); lia.
Qed.

Lemma renews_steady id d told log sv : steady sv -> sv_mail sv = None -> 0 <= d ->
  (log = sv_log sv \/ (log = Started id (sv_now sv) :: sv_log sv /\ waits sv id = false)) -> steady (attempt_succeeded id d told log sv).
Proof.
  intros Hs Hmail Hd Hlog. unfold attempt_succeeded. destruct (onSuccess (sv_file sv) id) as [file prev] eqn:Hsuc.
  assert (al_certs file = delete id (al_certs (sv_file sv)) /\ al_expiring_mail_day file = al_expiring_mail_day (sv_file sv) /\
    (is_Some prev -> exists c, al_certs (sv_file sv) !! id = Some c)) as (Hfile & Hday & Hprev).
  { unfold onSuccess in Hsuc. destruct (al_certs (sv_file sv) !! id) as [c|] eqn:Hx; injection Hsuc as <- <-; [by eauto|].
    rewrite delete_id by done. split_and!; [done|done|by intros []]. }
  set (log' := _ ++ Renewed id :: log).
  assert (forall i x, x ∈ since i log' -> (exists t, x = Started id t) \/ x = Renewed id \/ x = AllClear id \/ (i <> id /\ x ∈ since i (sv_log sv))) as Hsince.
  { intros i x Hx. assert (x ∈ since i (Renewed id :: log) \/ x = AllClear id) as [H|H]; [|clear Hx|by right; right; left].
    { unfold log' in Hx. destruct (_ && _); cbn [app] in Hx; [|by left]. rewrite elem_of_since in Hx by done. tauto. }
    rewrite since_renewed in H. destruct (Z.eqb_spec id i) as [->|Hne]; [by apply not_elem_of_nil in H|]. apply elem_of_cons in H as [->|H]; [by right; left|].
    destruct Hlog as [->|[-> _]]; [naive_solver|]. apply elem_of_since in H as [->|H]; [eauto|naive_solver|done]. }
  assert (forall i x, i <> id -> x ∈ since i (sv_log sv) -> x ∈ since i log') as Hkept.
  { intros i x Hi Hx. assert (x ∈ since i (Renewed id :: log)) as H.
    { rewrite since_renewed, (proj2 (Z.eqb_neq _ _)) by done. apply elem_of_cons. right. destruct Hlog as [->|[-> _]]; [done|]. rewrite elem_of_since by done. by right. }
    unfold log'. destruct (_ && _); [|done]. cbn [app]. rewrite elem_of_since by done. by right. }
  assert (forall i t n, remembered i t n log' -> i <> id /\ remembered i t n (sv_log sv)) as Hrem.
  { intros i t n [H1 H2]. apply Hsince in H1 as [[? ?]|[?|[?|[Hi H1]]]]; try done. split; [done|]. split; [done|]. intros H. apply H2. by apply Hkept. }
  split; cbn [sv_now renewFailures sv_file sv_mail sv_log].
  - pose proof (steady_now sv Hs). lia.
  - rewrite (steady_memory sv Hs). unfold noted. cbn [sv_mail sv_file]. rewrite Hmail, Hfile. unfold restoreFailures. cbn. by rewrite fmap_delete.
  - rewrite Hfile. intros i x [_ Hx]%lookup_delete_Some. by apply (steady_count sv Hs i).
  - rewrite Hfile. intros i x [Hne Hx]%lookup_delete_Some. destruct (steady_known sv Hs i x Hx) as (t & n & Ht). exists t, n. by apply Hkept.
  - intros i t n [Hi Hf]%Hrem. rewrite Hfile, lookup_delete_ne by done. rewrite Hmail. destruct (steady_failed sv Hs i t n Hf) as [?|(m & Hm & _)]; [by left|congruence].
  - rewrite Hmail. done.
  - intros i t [[? ?]|[?|[?|[Hne He]]]]%Hsince; try done. rewrite Hfile, lookup_delete_ne by done. by apply (steady_mailed sv Hs).
  - intros i t n Hf. pose proof (steady_past sv Hs i t n) as Hp. destruct Hf as [[[? ?]|[?|[?|[_ H]]]]%Hsince|[[? ?]|[?|[?|[_ H]]]]%Hsince]; try done; specialize (Hp ltac:(tauto)); lia.
  - rewrite Hday, (steady_listed sv Hs). unfold log'. assert (last_listed (Renewed id :: log) = last_listed (sv_log sv)) as <-; [|by destruct (_ && _)].
    by destruct Hlog as [->|[-> _]].
  - assert (paced (Renewed id :: log)) as Hp.
    { cbn [paced in_pace]. split; [done|]. destruct Hlog as [->|[-> Hw]]; [apply Hs|]. split; [|apply Hs]. intros t n Hf.
      destruct (old_failures sv id t n Hs Hmail Hw Hf) as (c & _ & [H1 _] & H2 & _). lia. }
    unfold log'. destruct (told && bool_decide (is_Some prev)) eqn:Ht; [|done]. cbn [app paced in_pace]. split; [|done]. exists log. split; [done|].
    apply andb_true_iff in Ht as [_ Ht%bool_decide_eq_true_1]. destruct (Hprev Ht) as [c Hc]. destruct (steady_known sv Hs id c Hc) as (t & n & Hf). exists t, n.
    destruct Hlog as [->|[-> _]]; [done|]. rewrite elem_of_since by done. by right.
Qed.

Lemma listed_steady day days certs l sent sv : steady sv -> expiring_begin (sv_file sv) day days (sv_now sv) certs = Some l -> steady (day_listed day sent sv).
Proof.
  intros Hs Hb. assert (al_expiring_mail_day (sv_file sv) <> Some day) as Hday by (unfold expiring_begin in Hb; by case_bool_decide).
  rewrite (steady_listed sv Hs) in Hday. unfold day_listed. set (log' := _ ++ sv_log sv).
  assert (forall i x, x ∈ since i log' <-> x ∈ since i (sv_log sv) \/ (sent = true /\ x = Listed day)) as Hlog.
  { intros i x. unfold log'. destruct sent; cbn [app]; rewrite ?elem_of_since by done; naive_solver. }
  assert (forall i t n, remembered i t n log' <-> remembered i t n (sv_log sv)) as Hrem by (intros i t n; unfold remembered; rewrite !Hlog; naive_solver).
  assert (al_certs (expiring_end (sv_file sv) day sent (sv_file sv)) = al_certs (sv_file sv)) as Hc by (by destruct sent).
  split; unfold noted; cbn [sv_now renewFailures sv_file sv_mail sv_log]; rewrite ?Hc.
  - apply Hs.
  - apply Hs.
  - apply Hs.
  - intros i c Hx. destruct (steady_known sv Hs i c Hx) as (t & n & Ht). exists t, n. apply Hlog. by left.
  - intros i t n Hf%Hrem. by apply (steady_failed sv Hs).
  - intros m Hm. destruct (steady_mail sv Hs m Hm) as [? ? ? Wl Wg]. split; cbn [sv_log sv_file]; rewrite ?Hc; try done. by apply Hrem.
  - intros i t Ht%Hlog. destruct Ht as [Ht|[_ ?]]; [by apply (steady_mailed sv Hs)|done].
  - intros i t n Hf. apply (steady_past sv Hs i t n). rewrite !Hlog in Hf. naive_solver.
  - unfold log'. destruct sent; [done|apply Hs].
  - unfold log'. destruct sent; [|apply Hs]. split; [done|apply Hs].
Qed.

Lemma restart_steady sv : steady sv -> steady (restarted sv).
Proof.
  intros Hs. unfold restarted. set (log' := _ ++ sv_log sv).
  assert (forall i x, x ∈ since i (sv_log sv) -> x ∈ since i log') as Hkept.
  { intros i x Hx. unfold log'. destruct (sv_mail sv); [|done]. cbn [app]. rewrite elem_of_since by done. by right. }
  assert (forall i x, x ∈ since i log' -> x ∈ since i (sv_log sv) \/ exists m, sv_mail sv = Some m /\ x = Forgotten (ml_id m) (ml_failed_at m) (fl_failures (ml_entry m))) as Hlog.
  { intros i x Hx. unfold log' in Hx. destruct (sv_mail sv) as [m|]; [|by left]. cbn [app] in Hx. rewrite elem_of_since in Hx by done. destruct Hx; eauto. }
  split; unfold noted; cbn [sv_now renewFailures sv_file sv_mail sv_log].
  - apply Hs.
  - done.
  - apply Hs.
  - intros i c Hx. destruct (steady_known sv Hs i c Hx) as (t & n & Ht). exists t, n. by apply Hkept.
  - intros i t n [H1 H2]. left. apply Hlog in H1 as [H1|(? & _ & ?)]; [|done].
    assert (remembered i t n (sv_log sv)) as Hf by (split; [done|]; intros H; apply H2; by apply Hkept).
    destruct (steady_failed sv Hs i t n Hf) as [?|(m & Hm & -> & -> & ->)]; [done|]. destruct H2. unfold log'. rewrite Hm. cbn [app].
    rewrite elem_of_since by done. by left.
  - done.
  - intros i t [Ht|(? & _ & ?)]%Hlog; [by apply (steady_mailed sv Hs)|done].
  - intros i t n [[Hf|(m & Hm & [= -> -> ->])]%Hlog|[Hf|(? & _ & ?)]%Hlog]; [apply (steady_past sv Hs i t n); tauto| |apply (steady_past sv Hs i t n); tauto|done].
    destruct (steady_mail sv Hs m Hm) as [_ _ _ [Hl _] _]. apply (steady_past sv Hs (ml_id m) _ (fl_failures (ml_entry m))). by right.
  - unfold log'. rewrite (steady_listed sv Hs). by destruct (sv_mail sv).
  - unfold log'. destruct (sv_mail sv) as [m|] eqn:Hm; [|apply Hs]. cbn [app paced in_pace]. split; [|apply Hs]. apply (steady_mail sv Hs m Hm).
Qed.

Lemma step_steady sv sv' : steady sv -> timer_step sv sv' -> steady sv'.
Proof.
  intros Hs [d Hd|id d e name error expires Hm Hw Hd He|m sent Hm|id d told Hm Hw Hd|id d told Hm Hd|day days certs l sent Hm Hb|].
  - split; cbn; try apply Hs; [pose proof (steady_now sv Hs); lia| |].
    + intros m Hm. destruct (steady_mail sv Hs m Hm). by split.
    + intros i t n Hf. pose proof (steady_past sv Hs i t n Hf). lia.
  - by apply fails_steady.
  - by apply mail_steady.
  - apply renews_steady; [done..|by right].
  - apply renews_steady; [done..|by left].
  - by eapply listed_steady.
  - by apply restart_steady.
Qed.

(** What the memory of the server holds, by the file and the mail on its way. *)
Definition in_memory (sv : server) : gmap Z (Z * Z) :=
  match sv_mail sv with
  | Some m => <[ml_id m := (fl_failures (ml_entry m), fl_next_attempt (ml_entry m))]> (restoreFailures (sv_file sv))
  | None => restoreFailures (sv_file sv)
  end.


(** What the interface shows: every certificate that failed, has expired or expires soon, once. *)
Lemma problems_spec s days now certs p : p ∈ problems s days now certs <-> exists c, c ∈ certs /\ problem_of s days now c = Some p.
Proof. unfold problems. rewrite (merge_sort_Permutation problem_le), list_elem_of_omap. done. Qed.

(** * Examples *)

Definition ax_start : server := Server 1000 ∅ (Alerts ∅ None) None [].
Definition ax_failed : server := attempt_failed 5 10 0 "a.example" "timeout" None ax_start.
Definition ax_mail : mail := Mail 5 1010 (Failure "a.example" 1 "timeout" 1010 1010 (1010 + 2 * 60 * 60 * 1000) None None).
Definition ax_once : server := mail_ended ax_mail true ax_failed.

Example failed_once : sv_mail ax_failed = Some ax_mail /\ renewFailures ax_once !! 5 = Some (1, 1010 + 2 * 60 * 60 * 1000) /\
  sv_log ax_once = [Mailed 5 1010; Failed 5 1010 1; Started 5 1000].
Proof. vm_compute. split_and!; reflexivity. Qed.


(** A restart while the mail is on its way: the next run of the timer tries again at once. *)
Lemma restart_forgets_unreported_failure :
  waits ax_failed 5 = true /\ waits (restarted ax_failed) 5 = false /\ al_certs (sv_file (restarted ax_failed)) = ∅ /\
  sv_log (restarted ax_failed) = [Forgotten 5 1010 1; Failed 5 1010 1; Started 5 1000].
Proof. vm_compute. split_and!; reflexivity. Qed.

(** The mail that all is well may follow the one about the failure at once. *)
Lemma all_clear_follows_at_once :
  sv_log (attempt_succeeded 5 7 true (sv_log ax_once) ax_once) = [AllClear 5; Renewed 5; Mailed 5 1010; Failed 5 1010 1; Started 5 1000].
Proof. vm_compute. reflexivity. Qed.

Definition ax_two : alerts := (onFailure (sv_file ax_once) 6 "b.example" "timeout" None 1 2000 1100 true).1.

(** A certificate that is renewed while the mail about another goes out is written back as failed,
    and after a restart it waits for its next attempt. *)
Lemma late_mail_revives_failure :
  let '(entry, due) := failure_begin ax_two 5 "a.example" "timeout" None 2 90000000 87000000 in
  let renewed := (onSuccess ax_two 6).1 in
  let s := failure_end ax_two 5 entry due 87000000 in
  due = true /\ al_certs renewed !! 6 = None /\ restoreFailures s !! 6 = Some (1, 2000) /\
  pr_kind <$> problems s 14 87000000 [CertInfo 6 "b.example" "letsencrypt" None] = [FailedRenewal].
Proof. vm_compute. split_and!; reflexivity. Qed.

(** A failure noted while the daily mail goes out is forgotten by it. *)
Lemma daily_mail_forgets_failure :
  let failed := (onFailure (Alerts ∅ None) 5 "a.example" "timeout" None 1 2000 1100 true).1 in
  al_certs (expiring_end (Alerts ∅ None) "2026-01-01" true failed) !! 5 = None.
Proof. vm_compute. reflexivity. Qed.
