(* ===== verification/CertCredentials.v ===== *)
(** The credentials files of DNS challenges: [withDnsCredentials] of [backend/internal/certificate.js].

    A run of certbot finds the secrets of its DNS provider in a file that is there while runs need
    it. Runs of one certificate overlap, and the sweep of old files, a revocation and a restart come
    in between; each part of a handler without an await is one step. *)

From S2P Require Import Prelude.
From S2P Require Import JsString.
From S2P Require Import JsVal.
From S2P Require Import Accounts.
From S2P Require Import Route53.
From S2P Require Import CloudflareDns.

Local Open Scope Z_scope.

(** * Where the file is *)

Notation disk := (gmap string string).

Definition setting_char (c : ascii) : bool := is_lower c || is_digit c || is_char "_" c.
Fixpoint span (p : ascii -> bool) (s : string) : string * string :=
  match s with String c t => if p c then let '(a, b) := span p t in (String c a, b) else ("", s) | "" => ("", "") end.

(** The rest of a line is blank. *)
Fixpoint blank_line (s : string) : bool := match s with "" => true | String c t => is_newline c || (is_space c && blank_line t) end.

(** [/^\s*dns_[a-z0-9_]+_credentials\s*=\s*(\S+)\s*$/m] where a line starts. *)
Definition setting_here (s : string) : option string :=
  let '(word, rest) := span setting_char (drop_space s) in
  if starts_with "dns_" word && ends_with "_credentials" word && (17 <=? String.length word)%nat then
    match drop_space rest with
    | String "=" t =>
        let '(value, rest) := span (fun c => negb (is_space c)) (drop_space t) in
        if bool_decide (value <> "") && blank_line rest then Some value else None
    | _ => None
    end
  else None.

Fixpoint find_setting (start : bool) (s : string) : option string :=
  match (if start then setting_here s else None) with
  | Some t => Some t
  | None => match s with String c t => find_setting (is_newline c) t | "" => None end
  end.

Section Credentials.

(** The root of certificates and the directory certbot is configured with. *)
Variables letsencryptRoot certbotConfigDir : string.

Definition credentials_file (dir : string) (id : Z) : string := dir +:+ "/credentials/credentials-" +:+ showZ id.
Definition credentialsDirs : list string := uniq [letsencryptRoot; certbotConfigDir].
Definition allowed_files (id : Z) : list string := (fun dir => credentials_file dir id) <$> credentialsDirs.

(** The first renewal settings that name a file decide, if they name one of ours. *)
Fixpoint named_location (d : disk) (id : Z) (dirs : list string) : string :=
  let fallback := credentials_file letsencryptRoot id in
  match dirs with
  | [] => fallback
  | dir :: dirs =>
      match d !! (dir +:+ "/renewal/npm-" +:+ showZ id +:+ ".conf") with
      | None => named_location d id dirs
      | Some conf =>
          match find_setting true conf with
          | None => named_location d id dirs
          | Some path => if bool_decide (path ∈ allowed_files id) then path else fallback
          end
      end
  end.

Definition credentialsLocationFor (d : disk) (id : Z) : string := named_location d id (uniq [certbotConfigDir; letsencryptRoot]).

(** * Runs *)

(** The runs certbot is in, each with its certificate and its file, and their number by certificate. *)
Record state := State { c_disk : disk; credentialsInUse : gmap Z nat; c_runs : gmap nat (Z * string) }.

Definition in_use (id : Z) (s : state) : bool := bool_decide (is_Some (credentialsInUse s !! id)).

(** The [finally] of a run. *)
Definition end_run (run : nat) (s : state) : state :=
  match c_runs s !! run with
  | None => s
  | Some (id, location) =>
      let left := (default 0 (credentialsInUse s !! id) - 1)%nat in
      if bool_decide (0 < left)%nat
      then State (c_disk s) (<[id := left]> (credentialsInUse s)) (delete run (c_runs s))
      else State (delete location (c_disk s)) (delete id (credentialsInUse s)) (delete run (c_runs s))
  end.

(** [withDnsCredentials] up to the run; [written]: whether the file system takes the file. *)
Definition begin_run (run : nat) (id : Z) (provider credentials : string) (written : bool) (s : state) : state * option string :=
  let location := credentialsLocationFor (c_disk s) id in
  let s := State (c_disk s) (<[id := S (default 0%nat (credentialsInUse s !! id))]> (credentialsInUse s)) (<[run := (id, location)]> (c_runs s)) in
  match credentialsFileContent provider credentials with
  | Ok content => if written then (State (<[location := content]> (c_disk s)) (credentialsInUse s) (c_runs s), Some location) else (end_run run s, None)
  | Throw _ => (end_run run s, None)
  end.

(** One file of the sweep, or of a revocation that has ended: [keep] was found out before. *)
Definition remove_unused (file : string) (id : Z) (keep : bool) (s : state) : state :=
  if keep || in_use id s then s else State (delete file (c_disk s)) (credentialsInUse s) (c_runs s).

(** What a run writes is good; [steady]: runs of one certificate that overlap find one place. *)
Inductive run_step (steady : bool) (good : Z -> string -> Prop) (s : state) : state -> Prop :=
| step_begin run id provider credentials written : c_runs s !! run = None -> 0 <= id ->
    (forall content, credentialsFileContent provider credentials = Ok content -> good id content) ->
    (steady = true -> forall r location, c_runs s !! r = Some (id, location) -> location = credentialsLocationFor (c_disk s) id) ->
    run_step steady good s (begin_run run id provider credentials written s).1
| step_end run : run_step steady good s (end_run run s)
| step_remove id file keep : 0 <= id -> file ∈ allowed_files id -> run_step steady good s (remove_unused file id keep s)
| step_other d : (forall id file, 0 <= id -> file ∈ allowed_files id -> d !! file = c_disk s !! file) ->
    run_step steady good s (State d (credentialsInUse s) (c_runs s)).

(** A restart forgets the runs. *)
Definition restart (s : state) : state := State (c_disk s) ∅ ∅.
Inductive world_step (good : Z -> string -> Prop) (s : state) : state -> Prop :=
| running s' : run_step false good s s' -> world_step good s s'
| restarted : world_step good s (restart s).

(** * Places *)

Lemma last_part d a b x y : no_char d x -> no_char d y -> a +:+ String d x = b +:+ String d y -> x = y.
Proof.
  assert (forall c s, no_char d (c +:+ String d s) -> False) as Hno.
  { intros c s H. induction c as [|e c IH]; unfold no_char in *; cbn in H; apply andb_true_iff in H as [H1 H2]; [|by apply IH].
    unfold is_char in H1. by rewrite bool_decide_eq_true_2 in H1. }
  revert b. induction a as [|c a IH]; intros b Hx Hy H.
  - destruct b as [|e b]; [by injection H|]. rewrite sapp_nil_l, sapp_String in H. injection H as -> ->. by destruct (Hno b y).
  - destruct b as [|e b]; [rewrite sapp_nil_l, sapp_String in H; injection H as -> <-; by destruct (Hno a x)|].
    rewrite !sapp_String in H. injection H as -> H. by apply (IH b).
Qed.

Lemma credentials_file_id dir dir' id id' : 0 <= id -> 0 <= id' -> credentials_file dir id = credentials_file dir' id' -> id = id'.
Proof.
  intros H0 H0' H. apply showZ_inj; [done|done|].
  assert (forall n, 0 <= n -> no_char "-" (showZ n)) as Hn.
  { intros n Hn. eapply sall_impl; [|by apply showZ_digits]. intros c Hc. revert Hc. clear. revert c.
    assert (forall c, implb (is_digit c) (negb (is_char "-" c)) = true) as H by (apply forall_char; vm_compute; reflexivity). intros c Hc. specialize (H c). by rewrite Hc in H. }
  apply (last_part "-" (dir +:+ "/credentials/credentials") (dir' +:+ "/credentials/credentials")); [by apply Hn|by apply Hn|].
  unfold credentials_file in H. rewrite !sapp_assoc. exact H.
Qed.

Lemma allowed_id id id' file : 0 <= id -> 0 <= id' -> file ∈ allowed_files id -> file ∈ allowed_files id' -> id = id'.
Proof. intros H0 H0' (dir & -> & _)%list_elem_of_fmap (dir' & He & _)%list_elem_of_fmap. by apply (credentials_file_id dir dir'). Qed.

Lemma fallback_allowed id : credentials_file letsencryptRoot id ∈ allowed_files id.
Proof. apply list_elem_of_fmap. exists letsencryptRoot. split; [done|]. apply elem_of_uniq. left. Qed.

Lemma location_allowed d id : credentialsLocationFor d id ∈ allowed_files id.
Proof.
  unfold credentialsLocationFor. induction (uniq _) as [|dir dirs IH]; [apply fallback_allowed|]. cbn [named_location].
  destruct (d !! _) as [conf|]; [|done]. destruct (find_setting true conf) as [path|]; [|done]. destruct (bool_decide _) eqn:Hb; [by apply bool_decide_eq_true_1 in Hb|apply fallback_allowed].
Qed.

(** * Counting *)

Definition count (id : Z) (runs : gmap nat (Z * string)) : nat := size (filter (fun p : nat * (Z * string) => p.2.1 = id) runs).

Lemma count_insert id run id' location runs : runs !! run = None -> count id (<[run := (id', location)]> runs) = (if decide (id' = id) then S (count id runs) else count id runs).
Proof.
  intros Hn. unfold count. rewrite map_filter_insert. cbn [fst snd]. destruct (decide (id' = id)) as [->|Hne].
  - apply map_size_insert_None, map_lookup_filter_None. by left.
  - by rewrite delete_id.
Qed.

Lemma count_delete id run id' location runs : runs !! run = Some (id', location) ->
  count id runs = (if decide (id' = id) then S (count id (delete run runs)) else count id (delete run runs)).
Proof. intros H. rewrite <- (insert_delete_id _ _ _ H) at 1. apply count_insert, lookup_delete_eq. Qed.

Lemma count_zero id runs run location : count id runs = 0%nat -> runs !! run <> Some (id, location).
Proof. intros H Hr. rewrite (count_delete id _ _ _ _ Hr), decide_True in H by done. done. Qed.

(** * What holds in every history *)

Section Histories.

Variable good : Z -> string -> Prop.

(** The counter is right, and every run has its file. *)
Record in_order (s : state) : Prop := {
  order_count : forall id, credentialsInUse s !! id = (if bool_decide (count id (c_runs s) = 0%nat) then None else Some (count id (c_runs s)));
  order_runs : forall run id location, c_runs s !! run = Some (id, location) ->
    0 <= id /\ location ∈ allowed_files id /\ exists content, c_disk s !! location = Some content /\ good id content }.

Lemma uses_count s id : in_order s -> default 0%nat (credentialsInUse s !! id) = count id (c_runs s).
Proof. intros H. rewrite (order_count s H). by destruct (count id (c_runs s)). Qed.

(** The end of a run [r] of a certificate of which all other runs are in order. *)
Lemma end_run_order run id location s : c_runs s !! run = Some (id, location) -> 0 <= id -> location ∈ allowed_files id ->
  (forall i, credentialsInUse s !! i = (if bool_decide (count i (c_runs s) = 0%nat) then None else Some (count i (c_runs s)))) ->
  (forall r i l, r <> run -> c_runs s !! r = Some (i, l) -> 0 <= i /\ l ∈ allowed_files i /\ exists content, c_disk s !! l = Some content /\ good i content) ->
  in_order (end_run run s).
Proof.
  intros Hrun H0 Hl Hcount Hruns. unfold end_run. rewrite Hrun. pose proof (fun i => count_delete i _ _ _ _ Hrun) as Hdel.
  assert (default 0%nat (credentialsInUse s !! id) - 1 = count id (delete run (c_runs s)))%nat as ->.
  { rewrite Hcount, Hdel, decide_True, bool_decide_eq_false_2 by done. cbn. lia. }
  destruct (bool_decide _) eqn:Hleft; [apply bool_decide_eq_true_1 in Hleft|apply bool_decide_eq_false_1 in Hleft].
  - split; cbn.
    + intros i. destruct (decide (i = id)) as [->|Hne].
      * rewrite lookup_insert_eq. by rewrite bool_decide_eq_false_2 by lia.
      * rewrite lookup_insert_ne by done. rewrite Hcount, Hdel, decide_False by congruence. done.
    + intros r i l [Hne Hr]%lookup_delete_Some. by apply (Hruns r); [congruence|].
  - assert (count id (delete run (c_runs s)) = 0%nat) as Hzero by lia. split; cbn.
    + intros i. destruct (decide (i = id)) as [->|Hne].
      * by rewrite lookup_delete_eq, Hzero.
      * rewrite lookup_delete_ne by done. rewrite Hcount, Hdel, decide_False by congruence. done.
    + intros r i l Hr. pose proof Hr as [Hne Hr']%lookup_delete_Some. destruct (Hruns r i l) as (Hi & Hli & content & Hc & Hg); [congruence|done|]. split_and!; [done|done|].
      exists content. split; [|done]. rewrite lookup_delete_ne; [done|]. intros ->. rewrite (allowed_id id i l) in Hzero by done. by apply (count_zero _ _ r l Hzero).
Qed.

Lemma run_step_order s s' : in_order s -> run_step false good s s' -> in_order s'.
Proof.
  intros Hs [run id provider credentials written Hn H0 Hgood _|run|id file keep H0 Hf|d Hd].
  - unfold begin_run. set (location := credentialsLocationFor _ _). set (s1 := State _ _ _).
    assert (forall i, credentialsInUse s1 !! i = (if bool_decide (count i (c_runs s1) = 0%nat) then None else Some (count i (c_runs s1)))) as Hcount.
    { intros i. cbn. rewrite count_insert by done. destruct (decide (id = i)) as [<-|Hne].
      - by rewrite lookup_insert_eq, uses_count.
      - rewrite lookup_insert_ne by done. by apply order_count. }
    assert (in_order (end_run run s1)) as Hend.
    { apply (end_run_order run id location); [apply lookup_insert_eq|done|apply location_allowed|done|]. intros r i l Hne Hr. cbn in Hr. rewrite lookup_insert_ne in Hr by congruence. by apply (order_runs s Hs r). }
    destruct (credentialsFileContent provider credentials) as [content|]; [|exact Hend]. destruct written; [|exact Hend]. split; [exact Hcount|]. cbn [fst c_runs c_disk s1].
    intros r i l [[<- [= <- <-]]|[Hne Hr]]%lookup_insert_Some.
    + split_and!; [done|apply location_allowed|]. exists content. rewrite lookup_insert_eq. split; [done|by apply Hgood].
    + destruct (order_runs s Hs r i l Hr) as (Hi & Hl & c & Hc & Hg). split_and!; [done|done|]. destruct (decide (location = l)) as [<-|Hneq].
      * exists content. rewrite lookup_insert_eq. split; [done|]. rewrite (allowed_id i id location) by (done || apply location_allowed). by apply Hgood.
      * exists c. by rewrite lookup_insert_ne.
  - destruct (c_runs s !! run) as [[id location]|] eqn:Hr; [|by unfold end_run; rewrite Hr].
    destruct (order_runs s Hs run id location Hr) as (H0 & Hl & _). apply (end_run_order run id location); [done|done|done|apply Hs|]. intros r i l _. apply (order_runs s Hs).
  - unfold remove_unused. destruct (keep || in_use id s) eqn:Hk; [done|]. apply orb_false_iff in Hk as [_ Hu]. apply bool_decide_eq_false_1 in Hu. split; [apply Hs|]. cbn.
    intros r i l Hr. destruct (order_runs s Hs r i l Hr) as (Hi & Hl & c & Hc & Hg). split_and!; [done|done|]. exists c. split; [|done]. rewrite lookup_delete_ne; [done|].
    intros ->. destruct Hu. rewrite (allowed_id id i l) by done. rewrite (order_count s Hs). rewrite bool_decide_eq_false_2; [by eexists|]. intros Hz. by apply (count_zero _ _ r l Hz).
  - split; [apply Hs|]. cbn. intros r i l Hr. destruct (order_runs s Hs r i l Hr) as (Hi & Hl & c & Hc & Hg). split_and!; [done|done|]. exists c. by rewrite (Hd i l).
Qed.

Lemma restart_order s : in_order (restart s).
Proof. split; cbn; [|done]. intros id. done. Qed.

Lemma reachable_order s0 s : c_runs s0 = ∅ -> credentialsInUse s0 = ∅ -> rtc (world_step good) s0 s -> in_order s.
Proof.
  intros H1 H2 Hr. assert (in_order s0) as H0 by (split; rewrite ?H1, ?H2; done). clear H1 H2. induction Hr as [|x y z Hstep _ IH]; [done|]. apply IH.
  destruct Hstep; [by apply (run_step_order x)|apply restart_order].
Qed.

End Histories.

(** ** What is left *)

Section Leftovers.

(** What lay there before. *)
Variable old : string -> Prop.

(** Runs of one certificate share one file, and only files of runs are new. *)
Record tidy (s : state) : Prop := {
  tidy_shared : forall r r' id l l', c_runs s !! r = Some (id, l) -> c_runs s !! r' = Some (id, l') -> l = l';
  tidy_files : forall id file, 0 <= id -> file ∈ allowed_files id -> is_Some (c_disk s !! file) -> old file \/ exists r, c_runs s !! r = Some (id, file) }.

Lemma end_run_tidy run s : (forall id, default 0%nat (credentialsInUse s !! id) = count id (c_runs s)) ->
  (forall r id l, c_runs s !! r = Some (id, l) -> 0 <= id /\ l ∈ allowed_files id) -> tidy s -> tidy (end_run run s).
Proof.
  intros Hcount Hruns Hs. unfold end_run. destruct (c_runs s !! run) as [[id location]|] eqn:Hrun; [|done].
  assert (default 0%nat (credentialsInUse s !! id) - 1 = count id (delete run (c_runs s)))%nat as -> by (rewrite Hcount, (count_delete id _ _ _ _ Hrun), decide_True by done; cbn; lia).
  assert (forall r i l, delete run (c_runs s) !! r = Some (i, l) -> c_runs s !! r = Some (i, l)) as Hsub by (by intros r i l [_ H]%lookup_delete_Some).
  destruct (bool_decide _) eqn:Hleft; (split; [intros r r' i l l' Hr%Hsub Hr'%Hsub; by apply (tidy_shared s Hs r r' i)|]); cbn; intros i file H0 Hf Hd.
  - destruct (tidy_files s Hs i file H0 Hf Hd) as [|[r Hr]]; [by left|right]. destruct (decide (r = run)) as [->|Hne]; [|exists r; by rewrite lookup_delete_ne].
    rewrite Hrun in Hr. injection Hr as <- <-. apply bool_decide_eq_true_1 in Hleft.
    destruct (map_choose (filter (fun p : nat * (Z * string) => p.2.1 = id) (delete run (c_runs s)))) as (r & [i l] & [Hr Hi]%map_lookup_filter_Some).
    { intros He. unfold count in Hleft. rewrite He, map_size_empty in Hleft. lia. }
    cbn in Hi. subst i. exists r. rewrite Hr. by rewrite (tidy_shared s Hs r run id l location (Hsub _ _ _ Hr) Hrun).
  - destruct (decide (file = location)) as [->|Hne]; [rewrite lookup_delete_eq in Hd; by apply is_Some_None in Hd|]. rewrite lookup_delete_ne in Hd by done.
    destruct (tidy_files s Hs i file H0 Hf Hd) as [|[r Hr]]; [by left|right]. exists r. rewrite lookup_delete_ne; [done|]. intros ->. congruence.
Qed.

Lemma run_step_tidy good s s' : in_order good s -> tidy s -> run_step true good s s' -> tidy s'.
Proof.
  intros Ho Hs [run id provider credentials written Hn H0 _ Hsteady|run|id file keep _ _|d Hd].
  - unfold begin_run. set (location := credentialsLocationFor _ _) in *. set (s1 := State _ _ _).
    assert (forall r i l, c_runs s1 !! r = Some (i, l) -> (r = run /\ i = id /\ l = location) \/ c_runs s !! r = Some (i, l)) as Hone.
    { intros r i l Hr. cbn in Hr. apply lookup_insert_Some in Hr as [[<- [= <- <-]]|[_ Hr]]; auto. }
    assert (forall r r' i l l', c_runs s1 !! r = Some (i, l) -> c_runs s1 !! r' = Some (i, l') -> l = l') as Hshared.
    { intros r r' i l l' [(_ & -> & ->)|Hr]%Hone [(_ & Hi & ->)|Hr']%Hone; [done| |subst i; by apply (Hsteady eq_refl r)|by apply (tidy_shared s Hs r r' i)]. symmetry. by apply (Hsteady eq_refl r'). }
    assert (forall i file, 0 <= i -> file ∈ allowed_files i -> is_Some (c_disk s !! file) -> old file \/ exists r, c_runs s1 !! r = Some (i, file)) as Hfiles.
    { intros i file Hi Hf Hx. destruct (tidy_files s Hs i file Hi Hf Hx) as [|[r Hr]]; [by left|right]. exists r. cbn. rewrite lookup_insert_ne; [done|]. intros ->. congruence. }
    assert (tidy (end_run run s1)) as Hend.
    { apply end_run_tidy; [|intros r i l [(_ & -> & ->)|Hr]%Hone; [split; [done|apply location_allowed]|by destruct (order_runs good s Ho r i l Hr) as (? & ? & _)]|by split].
      intros i. cbn. rewrite count_insert by done. destruct (decide (id = i)) as [<-|Hne]; [by rewrite lookup_insert_eq, (uses_count good)|rewrite lookup_insert_ne by done; by apply (uses_count good)]. }
    destruct (credentialsFileContent provider credentials) as [content|]; [|exact Hend]. destruct written; [|exact Hend]. split; [exact Hshared|]. cbn [fst c_disk].
    intros i file Hi Hf Hx. destruct (decide (file = location)) as [->|Hne].
    + right. exists run. cbn. rewrite lookup_insert_eq. by rewrite (allowed_id i id location) by (done || apply location_allowed).
    + rewrite lookup_insert_ne in Hx by done. by apply Hfiles.
  - apply end_run_tidy; [intros; by apply (uses_count good)|intros r i l Hr; by destruct (order_runs good s Ho r i l Hr) as (? & ? & _)|done].
  - unfold remove_unused. destruct (_ || _); [done|]. split; [apply Hs|]. cbn. intros i f Hi Hf Hx. apply (tidy_files s Hs i f Hi Hf). by apply lookup_delete_is_Some in Hx as [_ Hx].
  - split; [apply Hs|]. cbn. intros i f Hi Hf Hx. rewrite (Hd i f Hi Hf) in Hx. by apply (tidy_files s Hs).
Qed.

End Leftovers.

Lemma steady_is_step good s s' : run_step true good s s' -> run_step false good s s'.
Proof. intros H. destruct H; [apply step_begin|apply step_end|apply step_remove|apply step_other]; done. Qed.

(** C24. From a server at rest: at every moment every run of certbot has its credentials in the place it
    was given, whatever other runs end, whatever files are swept and whatever the settings become;
    and as long as it does not crash and runs that overlap are sent to one place, the only files with
    credentials that were not there before are those of runs. *)
Theorem credentials_live_with_their_runs good s0 s : c_runs s0 = ∅ -> credentialsInUse s0 = ∅ ->
  (rtc (world_step good) s0 s -> forall run id location, c_runs s !! run = Some (id, location) -> exists content, c_disk s !! location = Some content /\ good id content) /\
  (rtc (run_step true good) s0 s -> forall id file, 0 <= id -> file ∈ allowed_files id -> is_Some (c_disk s !! file) ->
     is_Some (c_disk s0 !! file) \/ exists run, c_runs s !! run = Some (id, file)).
Proof.
  intros H1 H2. split.
  - intros Hr run id location Hrun. by destruct (order_runs good s (reachable_order good s0 s H1 H2 Hr) run id location Hrun) as (_ & _ & ?).
  - intros Hr. set (old := fun f => is_Some (c_disk s0 !! f)). assert (tidy old s /\ in_order good s) as [Ht _]; [|apply Ht].
    assert (tidy old s0 /\ in_order good s0) as H0.
    { split; [split|apply (reachable_order good s0 s0); done]; [intros r r' id l l' Hx; by rewrite H1 in Hx|by left]. }
    clearbody old. clear H1 H2. induction Hr as [|x y z Hstep _ IH]; [done|]. destruct H0 as [Ht Ho]. apply IH. split; [by apply (run_step_tidy old good x)|apply (run_step_order good x); [done|by apply steady_is_step]].
Qed.

End Credentials.

(** * Examples *)

Definition cx_good (id : Z) (content : string) : Prop := content = "secret".
Definition cx_start : state := State ∅ ∅ ∅.
Definition cx_begin (run : nat) (s : state) : state := (begin_run "/a" "/b" run 5 "cloudflare" "secret" true s).1.
Definition cx_steady (run : nat) (s : state) : Prop :=
  c_runs s !! run = None /\ forall r location, c_runs s !! r = Some (5, location) -> location = credentialsLocationFor "/a" "/b" (c_disk s) 5.

Lemma cx_begins run s : cx_steady run s -> run_step "/a" "/b" true cx_good s (cx_begin run s).
Proof. intros [H1 H2]. apply step_begin; [done|done|by intros ? [= <-]|by intros _]. Qed.

(** The first of two runs ends: the file stays for the second. *)
Lemma credentials_live_with_their_runs_witness :
  let s := end_run 1 (cx_begin 2 (cx_begin 1 cx_start)) in
  (exists content, c_disk s !! "/a/credentials/credentials-5" = Some content /\ cx_good 5 content) /\ c_disk (end_run 2 s) !! "/a/credentials/credentials-5" = None.
Proof.
  cbv zeta. split; [|vm_compute; reflexivity]. set (s := end_run 1 _).
  apply (proj1 (credentials_live_with_their_runs "/a" "/b" cx_good cx_start s eq_refl eq_refl)) with (run := 2%nat) (id := 5); [|vm_compute; reflexivity].
  apply (rtc_l _ _ (cx_begin 1 cx_start)); [apply running, steady_is_step, cx_begins; split; [done|]; by intros r l Hr|].
  apply (rtc_l _ _ (cx_begin 2 (cx_begin 1 cx_start))); [apply running, steady_is_step, cx_begins|apply rtc_once, running, step_end].
  split; [vm_compute; reflexivity|]. intros r l Hr.
  change (<[1%nat := (5, credentialsLocationFor "/a" "/b" ∅ 5)]> (∅ : gmap nat (Z * string)) !! r = Some (5, l)) in Hr.
  apply lookup_insert_Some in Hr as [[_ [= <-]]|[_ Hr]]; [vm_compute; reflexivity|done].
Defined.

(** Two runs that are sent to two places, since the settings of the renewal appeared in between: the
    file of the one that ends first stays. *)
Lemma moved_credentials_stay :
  let s1 := cx_begin 1 cx_start in
  let conf := "dns_cloudflare_credentials = /b/credentials/credentials-5" +:+ String nl "" in
  let s2 := cx_begin 2 (State (<["/b/renewal/npm-5.conf" := conf]> (c_disk s1)) (credentialsInUse s1) (c_runs s1)) in
  let s := end_run 2 (end_run 1 s2) in
  c_runs s = ∅ /\ c_disk s !! "/a/credentials/credentials-5" = Some "secret" /\ c_disk s !! "/b/credentials/credentials-5" = None.
Proof. vm_compute. split_and!; reflexivity. Qed.
