(* ===== verification/Hosts.v ===== *)
(** The handlers of proxy hosts, redirection hosts, 404 hosts and streams: [backend/internal/proxy-host.js],
    [redirection-host.js], [dead-host.js], [stream.js]. *)

From S2P Require Import Prelude.
From S2P Require Import JsString.
From S2P Require Import JsVal.
From S2P Require Import Json.
From S2P Require Import GeoFilter.
From S2P Require Import NginxText.
From S2P Require Import NginxConfig.
From S2P Require Import Accounts.
From S2P Require Import Route53.
From S2P Require Import CloudflareDns.
From S2P Require Import HostTables.
From S2P Require Import Certificates.

Local Open Scope Z_scope.
Local Open Scope host_scope.

(** * Requests *)

(** A certificate to use, or one to request. *)
Inductive cert_field := NewCert | CertId (id : Z).

(** The fields that were sent; [p_rest]: those no handler looks at. *)
Record payload := Payload {
  p_domains : option (list string); p_cert : option cert_field; p_list : option Z; p_enabled : option bool;
  p_ssl_forced : option bool; p_http2_support : option bool; p_hsts_enabled : option bool; p_hsts_subdomains : option bool;
  p_meta : option jsval; p_rest : list (string * jsval) }.

(** The answers of the outside to one request. *)
Record answers := Answers { an_configure : outcomes; an_reload : bool; an_cert : cert_answers; an_now : string }.

Definition is_new (p : payload) : bool := match p_cert p with Some NewCert => true | _ => false end.
Definition cert_of (p : payload) : option Z := match p_cert p with Some (CertId id) => Some id | _ => None end.

Definition set_meta (meta : option jsval) (p : payload) : payload :=
  Payload (p_domains p) (p_cert p) (p_list p) (p_enabled p) (p_ssl_forced p) (p_http2_support p) (p_hsts_enabled p) (p_hsts_subdomains p) meta (p_rest p).
Definition set_cert (cert : option cert_field) (p : payload) : payload :=
  Payload (p_domains p) cert (p_list p) (p_enabled p) (p_ssl_forced p) (p_http2_support p) (p_hsts_enabled p) (p_hsts_subdomains p) (p_meta p) (p_rest p).
Definition set_domains (domains : option (list string)) (p : payload) : payload :=
  Payload domains (p_cert p) (p_list p) (p_enabled p) (p_ssl_forced p) (p_http2_support p) (p_hsts_enabled p) (p_hsts_subdomains p) (p_meta p) (p_rest p).

(** What the gate on user texts sees. *)
Definition payload_value (p : payload) : jsval := VObj (p_rest p).

(** [_.assign({}, row, data)]; only proxy hosts have a list. *)
Definition assign_payload (p : payload) (h : host) : host :=
  Host (h_kind h) (h_id h) (h_owner h) (h_is_deleted h) (default (h_enabled h) (p_enabled p)) (default (h_domains h) (p_domains p))
    (default (h_cert h) (cert_of p)) (if decide (h_kind h = Proxy) then default (h_list h) (p_list p) else h_list h)
    (Ssl (default (ssl_forced (h_ssl h)) (p_ssl_forced p)) (default (http2_support (h_ssl h)) (p_http2_support p))
       (default (hsts_enabled (h_ssl h)) (p_hsts_enabled p)) (default (hsts_subdomains (h_ssl h)) (p_hsts_subdomains p)))
    (default (h_meta h) (p_meta p)) (spread (h_rest h) (p_rest p)).

(** The columns of a new row that was sent nothing. *)
Definition blank (k : kind) (id owner : Z) : host :=
  Host k id owner false true [] 0 0 (Ssl false false false false) (VObj []) (if decide (k = Stream) then [] else [("advanced_config", VStr "")]).

(** [$beforeInsert], [$beforeUpdate]: the names are sorted. *)
Definition sort_domains (h : host) : host :=
  Host (h_kind h) (h_id h) (h_owner h) (h_is_deleted h) (h_enabled h) (sort_strings (h_domains h)) (h_cert h) (h_list h) (h_ssl h) (h_meta h) (h_rest h).

Definition insert_host (h : host) : M unit := write (fun w => set_hosts (w_hosts w ++ [sort_domains h]) w).

(** A patch with a whole row leaves only whether it is deleted. *)
Definition replace_host (k : kind) (id : Z) (h : host) : M unit :=
  write (patch_host k id (fun old => let h := sort_domains h in
    Host (h_kind old) (h_id old) (h_owner h) (h_is_deleted old) (h_enabled h) (h_domains h) (h_cert h) (h_list h) (h_ssl h) (h_meta h) (h_rest h))).

Definition with_cert (id : Z) (h : host) : host :=
  Host (h_kind h) (h_id h) (h_owner h) (h_is_deleted h) (h_enabled h) (h_domains h) id (h_list h) (h_ssl h) (h_meta h) (h_rest h).
Definition with_enabled (b : bool) (h : host) : host :=
  Host (h_kind h) (h_id h) (h_owner h) (h_is_deleted h) b (h_domains h) (h_cert h) (h_list h) (h_ssl h) (h_meta h) (h_rest h).
Definition with_deleted (h : host) : host :=
  Host (h_kind h) (h_id h) (h_owner h) true (h_enabled h) (h_domains h) (h_cert h) (h_list h) (h_ssl h) (h_meta h) (h_rest h).
Definition with_meta (meta : jsval) (h : host) : host :=
  Host (h_kind h) (h_id h) (h_owner h) (h_is_deleted h) (h_enabled h) (h_domains h) (h_cert h) (h_list h) (h_ssl h) meta (h_rest h).

(** [{...row.meta, ...data.meta}], of which a certificate is requested. *)
Definition merged_meta (row : host) (p : payload) : jsval := VObj (spread (entries_of (h_meta row)) (entries_of (default VUndef (p_meta p)))).

Definition permission (k : kind) (verb : string) : string := kind_objects k +:+ ":" +:+ verb.

(** * What the four services share *)

Definition get_host (k : kind) (a : access) (id : Z) : M host :=
  allowed a (permission k "get");;;
  row <- read (fun w => bfind (visible_host k a id) (w_hosts w));;
  match row with Some h => retM h | None => fail (NotFound id) end.

Section Handlers.

Context {E : Env}.

Definition gate (k : kind) (p : payload) : M unit := from (fun e => Nginx_error (Gate e)) (assertSafeHostFields (kind_type k) (payload_value p)).

(** [enabled]: the handler that switches a host on has set it to 1. *)
Definition row_value (w : world) (enabled : bool) (h : host) : jsval :=
  if enabled then vset "enabled" (VInt 1) (host_value true w h) else host_value true w h.

Definition configure_host (an : answers) (k : kind) (enabled : bool) (row : host) : M jsval :=
  value <- read (fun w => row_value w enabled row);;
  with_nginx (configure templates parseAndRender DISABLE_IPV6 nginx_t (an_configure an) (kind_type k) value).

Definition delete_conf (k : kind) (row : host) : M unit :=
  fun w => on_files (deleteConfig (kind_type k) (Some (host_value true w row)) false) w.

Definition run_cloudflare {A} (p : prog A) : M A := fun w => let '(tr, x) := run cloudflare (w_api w) p in (set_api tr w, Ok x).

(** The Cloudflare records of a proxy host, with the meta of the row as it was just written. *)
Definition sync_cloudflare (an : answers) (a : access) (row : host) : M host :=
  p <- read (fun w => syncProxyHost cf_message (an_now an) (w_certs w) cf_state (resolveActor (w_accounts w) (ac_who a)) (h_cert row) (h_domains row) (h_meta row));;
  meta <- run_cloudflare p;;
  match meta with
  | Some m => write (patch_host Proxy (h_id row) (with_meta m));;; retM (with_meta m row)
  | None => retM row
  end.

Definition delete_host (k : kind) (a : access) (an : answers) (id : Z) : M host :=
  allowed a (permission k "delete");;;
  row <- get_host k a id;;
  write (patch_host k (h_id row) with_deleted);;;
  delete_conf k row;;;
  reload_nginx (an_reload an);;;
  retM row.

Definition enable_host (k : kind) (a : access) (an : answers) (id : Z) : M unit :=
  allowed a (permission k "update");;;
  row <- get_host k a id;;
  check (negb (h_enabled row)) AlreadyEnabled;;;
  write (patch_host k (h_id row) (with_enabled true));;;
  configure_host an k true row;;;
  retM tt.

Definition disable_host (k : kind) (a : access) (an : answers) (id : Z) : M unit :=
  allowed a (permission k "update");;;
  row <- get_host k a id;;
  check (h_enabled row) AlreadyDisabled;;;
  write (patch_host k (h_id row) (with_enabled false));;;
  delete_conf k row;;;
  reload_nginx (an_reload an).

(** A search for a part of the names, in the order of the table. *)
Definition getAll_hosts (k : kind) (column : host -> string) (a : access) (search : string) : M (list host) :=
  allowed a (permission k "list");;;
  read (fun w => bfilter (fun h => visible_host k a (h_id h) h && (bool_decide (search = "") || like ("%" +:+ search +:+ "%") (column h))) (w_hosts w)).

Definition getCount_hosts (w : world) (k : kind) (userId : Z) (visibility : string) : nat :=
  length (bfilter (fun h => bool_decide (h_kind h = k) && negb (h_is_deleted h) && (bool_decide (visibility = "all") || (h_owner h =? userId))) (w_hosts w)).

(** A new certificate is linked to the row that waits for it. *)
Definition link_new (k : kind) (a : access) (an : answers) (id : Z) (p : payload) : M unit :=
  cert <- createQuickCertificate a (an_cert an) (default [] (p_domains p)) (default VUndef (p_meta p));;
  write (patch_host k id (with_cert (ct_id cert))).

(** The end of a change: the row as it is now, and its file. *)
Definition refresh (k : kind) (a : access) (an : answers) (id : Z) : M host :=
  row <- get_host k a id;;
  meta <- configure_host an k false row;;
  retM (with_meta meta row).

(** The certificate of an update: a new one, or one that is checked when it is another. *)
Definition update_cert (k : kind) (a : access) (an : answers) (row : host) (domains : list string) (p : payload) : M payload :=
  if is_new p then
    cert <- createQuickCertificate a (an_cert an) domains (merged_meta row p);;
    retM (set_cert (Some (CertId (ct_id cert))) p)
  else
    (match cert_of p with
     | Some c => if c =? h_cert row then retM tt else assertCertificateAccess a (Some c)
     | None => retM tt
     end);;;
    retM p.

(** The names of the row when none were sent, all flags consistent, the whole row written. *)
Definition write_row (k : kind) (row : host) (p : payload) : M unit := replace_host k (h_id row) (cleanSslHstsData (assign_payload p row)).

End Handlers.

(** * proxy-host.js *)

Module ProxyHost.
Section ProxyHost.

Context {E : Env}.

(** The fields of the server and the switch of the country filter in the meta. *)
Definition clean_meta (stored : jsval) (p : payload) : payload := set_meta ((fun m => sanitizeGeoMeta (sanitizeMeta m stored)) <$> p_meta p) p.

Definition create (a : access) (an : answers) (id : Z) (data : payload) : M host :=
  let data := clean_meta VUndef data in
  allowed a "proxy_hosts:create";;;
  gate Proxy data;;;
  assertCertificateAccess a (cert_of data);;;
  assertAccessListAccess a (p_list data);;;
  assertHostnamesFree (p_domains data) None;;;
  insert_host (cleanSslHstsData (assign_payload data (blank Proxy id (user_id a))));;;
  when (is_new data) (link_new Proxy a an id data);;;
  row <- refresh Proxy a an id;;
  sync_cloudflare an a row.

(** An access list that is another one is checked, but not beside a new certificate. *)
Definition check_list (a : access) (row : host) (p : payload) : M unit :=
  match p_list p with
  | Some l => if is_new p || (l =? h_list row) then retM tt else assertAccessListAccess a (Some l)
  | None => retM tt
  end.

(** The reading half of an update, up to the certificate. *)
Definition update_read (a : access) (an : answers) (id : Z) (data : payload) : M (host * payload) :=
  allowed a "proxy_hosts:update";;;
  gate Proxy data;;;
  assertHostnamesFree (p_domains data) (Some (Proxy, id));;;
  row <- get_host Proxy a id;;
  check (h_id row =? id) IdsDoNotMatch;;;
  let data := clean_meta (h_meta row) data in
  cert <- update_cert Proxy a an row (default (h_domains row) (p_domains data)) data;;
  check_list a row data;;;
  retM (row, cert).

Definition update_write (a : access) (an : answers) (id : Z) (row : host) (data : payload) : M host :=
  write_row Proxy row data;;;
  row <- get_host Proxy a id;;
  if negb (h_enabled row) then retM row
  else
    meta <- configure_host an Proxy false row;;
    sync_cloudflare an a (with_meta meta row).

Definition update (a : access) (an : answers) (id : Z) (data : payload) : M host :=
  r <- update_read a an id data;; update_write a an id r.1 r.2.

Definition get : access -> Z -> M host := get_host Proxy.

(** The records go with the host. *)
Definition delete (a : access) (an : answers) (id : Z) : M unit :=
  row <- delete_host Proxy a an id;;
  p <- read (fun w => removeProxyHost (w_certs w) cf_state (resolveActor (w_accounts w) (ac_who a)) (h_cert row) (h_meta row));;
  run_cloudflare p.

Definition enable : access -> answers -> Z -> M unit := enable_host Proxy.
Definition disable : access -> answers -> Z -> M unit := disable_host Proxy.
Definition getAll : access -> string -> M (list host) := getAll_hosts Proxy (fun h => json_strings (h_domains h)).
Definition getCount (w : world) : Z -> string -> nat := getCount_hosts w Proxy.

End ProxyHost.
End ProxyHost.

(** * redirection-host.js *)

Module RedirectionHost.
Section RedirectionHost.

Context {E : Env}.

Definition create (a : access) (an : answers) (id : Z) (data : payload) : M host :=
  allowed a "redirection_hosts:create";;;
  gate Redirection data;;;
  assertCertificateAccess a (cert_of data);;;
  assertHostnamesFree (p_domains data) None;;;
  insert_host (cleanSslHstsData (assign_payload data (blank Redirection id (user_id a))));;;
  when (is_new data) (link_new Redirection a an id data);;;
  refresh Redirection a an id.

Definition update (a : access) (an : answers) (id : Z) (data : payload) : M host :=
  allowed a "redirection_hosts:update";;;
  gate Redirection data;;;
  assertHostnamesFree (p_domains data) (Some (Redirection, id));;;
  row <- get_host Redirection a id;;
  check (h_id row =? id) IdsDoNotMatch;;;
  data <- update_cert Redirection a an row (default (h_domains row) (p_domains data)) data;;
  write_row Redirection row data;;;
  refresh Redirection a an id.

Definition get : access -> Z -> M host := get_host Redirection.
Definition delete : access -> answers -> Z -> M host := delete_host Redirection.
Definition enable : access -> answers -> Z -> M unit := enable_host Redirection.
Definition disable : access -> answers -> Z -> M unit := disable_host Redirection.
Definition getAll : access -> string -> M (list host) := getAll_hosts Redirection (fun h => json_strings (h_domains h)).
Definition getCount (w : world) : Z -> string -> nat := getCount_hosts w Redirection.

End RedirectionHost.
End RedirectionHost.

(** * dead-host.js *)

Module DeadHost.
Section DeadHost.

Context {E : Env}.

Definition create (a : access) (an : answers) (id : Z) (data : payload) : M host :=
  allowed a "dead_hosts:create";;;
  gate Dead data;;;
  assertCertificateAccess a (cert_of data);;;
  assertHostnamesFree (p_domains data) None;;;
  insert_host (cleanSslHstsData (assign_payload data (blank Dead id (user_id a))));;;
  when (is_new data) (link_new Dead a an id data);;;
  freshRow <- get_host Dead a id;;
  check (negb (is_new data && (h_cert freshRow =? 0))) CertificateCreationFailed;;;
  meta <- configure_host an Dead false freshRow;;
  retM (with_meta meta freshRow).

Definition update (a : access) (an : answers) (id : Z) (data : payload) : M host :=
  allowed a "dead_hosts:update";;;
  gate Dead data;;;
  assertHostnamesFree (p_domains data) (Some (Dead, id));;;
  row <- get_host Dead a id;;
  check (h_id row =? id) IdsDoNotMatch;;;
  data <- update_cert Dead a an row (default (h_domains row) (p_domains data)) data;;
  write_row Dead row data;;;
  refresh Dead a an id.

Definition get : access -> Z -> M host := get_host Dead.
Definition delete : access -> answers -> Z -> M host := delete_host Dead.
Definition enable : access -> answers -> Z -> M unit := enable_host Dead.
Definition disable : access -> answers -> Z -> M unit := disable_host Dead.
Definition getAll : access -> string -> M (list host) := getAll_hosts Dead (fun h => json_strings (h_domains h)).
Definition getCount (w : world) : Z -> string -> nat := getCount_hosts w Dead.

End DeadHost.
End DeadHost.

(** * stream.js *)

Module StreamHost.
Section StreamHost.

Context {E : Env}.

(** The names are for the certificate only. *)
Definition create (a : access) (an : answers) (id : Z) (data : payload) : M host :=
  allowed a "streams:create";;;
  gate Stream data;;;
  assertCertificateAccess a (cert_of data);;;
  let data := set_meta (Some (default (VObj []) (p_meta data))) data in
  insert_host (assign_payload (set_domains None data) (blank Stream id (user_id a)));;;
  when (is_new data) (link_new Stream a an id data);;;
  refresh Stream a an id.

(** Only what was sent is written. *)
Definition update (a : access) (an : answers) (id : Z) (data : payload) : M host :=
  allowed a "streams:update";;;
  check (negb (is_new data && bool_decide (p_domains data = None))) DomainsRequired;;;
  gate Stream data;;;
  row <- get_host Stream a id;;
  check (h_id row =? id) IdsDoNotMatch;;;
  data <- update_cert Stream a an row (default [] (p_domains data)) data;;
  write (patch_host Stream (h_id row) (assign_payload (set_domains None data)));;;
  refresh Stream a an id.

Definition get : access -> Z -> M host := get_host Stream.
Definition delete : access -> answers -> Z -> M host := delete_host Stream.
Definition enable : access -> answers -> Z -> M unit := enable_host Stream.
Definition disable : access -> answers -> Z -> M unit := disable_host Stream.
(** The search looks at the port. *)
Definition getAll : access -> string -> M (list host) := getAll_hosts Stream (fun h => to_string (vget (VObj (h_rest h)) "incoming_port")).
Definition getCount (w : world) : Z -> string -> nat := getCount_hosts w Stream.

End StreamHost.
End StreamHost.
