(* ===== verification/HostMeta.v ===== *)
(** What a request writes into the meta of hosts that are not its caller's: nothing but what nginx
    said of them.

    A certificate request takes the hosts that answer to its names down and puts them back, and
    notes for each whether nginx took its file ([nginx.js], [markHostsRejected] and
    [clearHostErrors]); these hosts may belong to anybody. Here every handler is shown to keep, in
    the row of every other owner, all of the meta but these two keys. *)

From S2P Require Import Prelude.
From S2P Require Import JsString.
From S2P Require Import JsVal.
From S2P Require Import NginxText.
From S2P Require Import NginxConfig.
From S2P Require Import Accounts.
From S2P Require Import CloudflareDns.
From S2P Require Import HostTables.
From S2P Require Import Certificates.
From S2P Require Import Hosts.

Local Open Scope Z_scope.
Local Open Scope host_scope.

Definition key (h : host) : kind * Z := (h_kind h, h_id h).

Definition own_host (a : access) (h : host) : bool := sees_all a || (h_owner h =? user_id a).

Lemma is_host_key k id h : is_host k id h = true <-> key h = (k, id).
Proof. unfold is_host, key. rewrite andb_true_iff, bool_decide_eq_true, Z.eqb_eq. split; [by intros [-> ->]|by intros [= -> ->]]. Qed.

(** * Two metas that differ in the verdict of nginx only *)

Definition status_keys : list string := ["nginx_online"; "nginx_err"].
Definition same_but_status (m m' : jsval) : Prop := forall f, f ∉ status_keys -> vget m' f = vget m f.

Lemma status_refl m : same_but_status m m.
Proof. done. Qed.

Lemma status_trans m1 m2 m3 : same_but_status m1 m2 -> same_but_status m2 m3 -> same_but_status m1 m3.
Proof. intros H1 H2 f Hf. by rewrite H2, H1. Qed.

(** What nginx's verdict makes of the meta of a host. *)
Definition verdict_of (host m : jsval) : Prop := exists online err, m = VObj (assign (props (vget host "meta")) [("nginx_online", online); ("nginx_err", err)]).

Lemma verdict_status host m : verdict_of host m -> same_but_status (vget host "meta") m.
Proof.
  intros (online & err & ->) f Hf. assert (f <> "nginx_online" /\ f <> "nginx_err") as [H1 H2] by (unfold status_keys in Hf; set_solver).
  cbn [vget assign foldl fst snd]. rewrite !mget_mset_ne by done. by destruct (vget host "meta").
Qed.

Lemma verdict_online host : verdict_of host (online_meta host).
Proof. by eexists _, _. Qed.
Lemma verdict_kept text host : verdict_of host (kept_meta text host).
Proof. by eexists _, _. Qed.
Lemma verdict_offline text host : verdict_of host (offline_meta text host).
Proof. by eexists _, _. Qed.

(** * The rows nginx.js patches *)

(** Every patch is of one of the hosts, with the verdict on it. *)
Definition patches (t : string) (hosts : list jsval) (n n' : nginx) : Prop :=
  forall k m, n_meta n' !! k = Some m -> n_meta n !! k = Some m \/ exists h, h ∈ hosts /\ k = (getFileFriendlyHostType t, id_of h) /\ verdict_of h m.

Lemma patches_same t hosts n n' : n_meta n' = n_meta n -> patches t hosts n n'.
Proof. intros H k m. rewrite H. by left. Qed.

Lemma patches_trans t hosts n1 n2 n3 : patches t hosts n1 n2 -> patches t hosts n2 n3 -> patches t hosts n1 n3.
Proof. intros H1 H2 k m H. destruct (H2 k m H) as [H'|H']; [by apply H1|by right]. Qed.

Lemma patches_patch t hosts h m n : h ∈ hosts -> verdict_of h m -> patches t hosts n (patch t h m n).
Proof. intros Hh Hm k m'. cbn. intros [[<- <-]|[_ H]]%lookup_insert_Some; [right|by left]. by exists h. Qed.

Lemma patches_all ok t hosts l n : (forall h m, (h, m) ∈ l -> h ∈ hosts /\ verdict_of h m) -> patches t hosts n (patch_all ok t l n).
Proof.
  revert n. induction l as [|[h m] l IH]; intros n Hl; [by apply patches_same|]. cbn. destruct (ok (id_of h)); [|by apply patches_same].
  destruct (Hl h m ltac:(left)) as [H1 H2]. eapply patches_trans; [by apply patches_patch|]. apply IH. intros h' m' Hin. apply Hl. by right.
Qed.

Section Patches.

Context {E : Env}.

Notation configure' := (configure templates parseAndRender DISABLE_IPV6 nginx_t).
Notation bulk' := (bulkGenerateConfigs templates parseAndRender DISABLE_IPV6 nginx_t message_of).

Lemma patches_reject o t h saved text n : patches t [h] n (reject_new o t h saved text n).1.
Proof.
  unfold reject_new. destruct (if saved then _ else _) as [fs restored]. destruct (o_patch_bad o); [by apply patches_same|].
  eapply (patches_trans _ _ _ (set_files fs n)); [by apply patches_same|]. apply patches_patch; [left|]. destruct restored; [apply verdict_kept|apply verdict_offline].
Qed.

Lemma patches_configure o t h n : patches t [h] n (configure' o t h n).1.
Proof.
  unfold configure. destruct (test nginx_t (n_files n)); [by apply patches_same|]. destruct (assertSafeHostFields t h); [|by apply patches_same].
  destruct (backupConfig t h (n_files n)) as [fs saved]. destruct (generateConfig _ _ _ t h _) as [fs'|e]; [|by apply patches_same].
  set (r := match test nginx_t fs' with None => _ | Some _ => _ end).
  assert (patches t [h] n r.1) as Hr.
  { subst r. destruct (test nginx_t fs'); [eapply patches_trans; [|apply patches_reject]; by apply patches_same|].
    destruct (o_patch_ok o); [eapply patches_trans; [|apply patches_reject]; by apply patches_same|]. cbn [fst].
    eapply (patches_trans _ _ _ (set_files fs' n)); [by apply patches_same|]. eapply patches_trans; [apply (patches_patch _ _ h (online_meta h)); [left|apply verdict_online]|]. by apply patches_same. }
  clearbody r. destruct r as [n1 [[m rejected]|e]]; [|done]. unfold reloadTested. destruct (o_reload o); [|done]. eapply patches_trans; [exact Hr|by apply patches_same].
Qed.

(** The hosts of a bulk run, accepted or rejected, are those it was given. *)
Lemma isolate_hosts t hbs acc r : r = foldl (isolate templates parseAndRender DISABLE_IPV6 nginx_t message_of t) acc hbs ->
  (forall h, h ∈ r.1.2 -> h ∈ acc.1.2 \/ h ∈ hbs.*1) /\ (forall h, h ∈ rj_host <$> r.2 -> h ∈ rj_host <$> acc.2 \/ h ∈ hbs.*1).
Proof.
  revert acc. induction hbs as [|[h kept] hbs IH]; intros acc ->; [cbn; naive_solver|]. cbn [foldl fmap list_fmap fst].
  destruct (IH _ eq_refl) as [H1 H2].
  assert (forall x, x ∈ (isolate templates parseAndRender DISABLE_IPV6 nginx_t message_of t acc (h, kept)).1.2 -> x ∈ acc.1.2 \/ x = h) as Ha.
  { destruct acc as [[fs accepted] rejected]. unfold isolate. destruct (generateConfig _ _ _ t h fs); [destruct (test nginx_t _)|]; cbn; intros y Hy; try (by left);
      apply elem_of_app in Hy as [Hy|Hy%list_elem_of_singleton]; auto. }
  assert (forall x, x ∈ rj_host <$> (isolate templates parseAndRender DISABLE_IPV6 nginx_t message_of t acc (h, kept)).2 -> x ∈ rj_host <$> acc.2 \/ x = h) as Hb.
  { destruct acc as [[fs accepted] rejected]. unfold isolate. destruct (generateConfig _ _ _ t h fs); [destruct (test nginx_t _)|]; cbn; intros y Hy; try (by left);
      rewrite fmap_app in Hy; (apply elem_of_app in Hy as [Hy|Hy]; [by left|]); cbn in Hy; apply list_elem_of_singleton in Hy; auto. }
  split; intros x Hx; [destruct (H1 x Hx) as [Hx'|]|destruct (H2 x Hx) as [Hx'|]]; try (right; by right); [destruct (Ha x Hx') as [| ->]|destruct (Hb x Hx') as [| ->]]; try (by left); right; left.
Qed.

Lemma backup_all_hosts t hosts fs : (backup_all t hosts fs).2.*1 = hosts.
Proof.
  revert fs. induction hosts as [|h hosts IH]; intros fs; [done|]. cbn. destruct (backupConfig t h fs) as [fs1 saved]. specialize (IH fs1).
  destruct (backup_all t hosts fs1) as [fs2 rest]. cbn in *. by rewrite IH.
Qed.

Lemma patches_clear ok t hosts l n : (forall h, h ∈ l -> h ∈ hosts) -> patches t hosts n (clearHostErrors ok t l n).
Proof.
  intros Hl. unfold clearHostErrors. destruct (has_model t); [|by apply patches_same]. apply patches_all. intros h m Hin. apply list_elem_of_fmap in Hin as (x & Hx & Hin). injection Hx as -> ->.
  apply elem_of_bfilter in Hin as [Hin _]. split; [by apply Hl|apply verdict_online].
Qed.

Lemma patches_mark ok t hosts l n : (forall h, h ∈ rj_host <$> l -> h ∈ hosts) -> patches t hosts n (markHostsRejected ok t l n).
Proof.
  intros Hl. unfold markHostsRejected. destruct (has_model t); [|by apply patches_same]. apply patches_all. intros h m Hin. apply list_elem_of_fmap in Hin as (x & Hx & Hin). injection Hx as -> ->.
  split; [by apply Hl, list_elem_of_fmap_2|]. destruct (rj_kept x); [apply verdict_kept|apply verdict_offline].
Qed.

Lemma patches_bulk ok b t hosts n : patches t hosts n (bulk' ok b t hosts n).1.
Proof.
  unfold bulkGenerateConfigs. destruct (bool_decide (hosts = [])); [by apply patches_same|]. pose proof (backup_all_hosts t hosts (n_files n)) as Hb.
  destruct (backup_all t hosts (n_files n)) as [fs hbs]. cbn in Hb. destruct (generate_all _ _ _ t hosts fs) as [fs1 failed].
  destruct (match failed with Some e => _ | None => _ end).
  2: { cbn [fst]. eapply (patches_trans _ _ _ (set_files (dropBackups t hbs fs1) n)); [by apply patches_same|]. by apply patches_clear. }
  destruct (test nginx_t (foldl _ fs1 hbs)); [by apply patches_same|].
  destruct (foldl (isolate _ _ _ _ _ t) _ hbs) as [[fs2 accepted] rejected] eqn:Hi. symmetry in Hi. apply isolate_hosts in Hi as [H1 H2]. cbn in H1, H2. rewrite Hb in H1, H2.
  assert (patches t hosts n (markHostsRejected ok t rejected (clearHostErrors ok t accepted (set_files (dropBackups t hbs fs2) n)))) as H.
  { eapply (patches_trans _ _ _ (set_files (dropBackups t hbs fs2) n)); [by apply patches_same|]. eapply patches_trans; [apply patches_clear|apply patches_mark].
    - intros h Hh. destruct (H1 h Hh) as [[]%elem_of_nil|]; done.
    - intros h Hh. destruct (H2 h Hh) as [[]%elem_of_nil|]; done. }
  destruct (bool_decide (length rejected = 0%nat)); [exact H|]. cbn [fst]. unfold reloadTested. destruct b; [|exact H]. eapply patches_trans; [exact H|by apply patches_same].
Qed.

End Patches.

(** * The key of a patch and the key of a row *)

Lemma showZ_minus n : n < 0 -> showZ n = "-" +:+ showZ (- n).
Proof. intros Hn. unfold showZ. destruct (Z.ltb_spec n 0); [|lia]. destruct (Z.ltb_spec (- n) 0); [lia|done]. Qed.

Lemma showZ_injective n m : showZ n = showZ m -> n = m.
Proof.
  assert (forall i j, 0 <= i -> j < 0 -> showZ i = showZ j -> False) as Hmixed.
  { intros i j Hi Hj H. pose proof (showZ_digits i Hi) as Hd. rewrite H, showZ_minus in Hd by done. cbn in Hd. done. }
  intros H. destruct (Z.ltb_spec n 0), (Z.ltb_spec m 0); [| | |by apply showZ_inj].
  - rewrite (showZ_minus n), (showZ_minus m) in H by done. injection H as H. apply showZ_inj in H; lia.
  - exfalso. by apply (Hmixed m n).
  - exfalso. by apply (Hmixed n m).
Qed.

Lemma patch_key k id k' id' : (kind_type k, num_to_string (NInt id)) = (getFileFriendlyHostType (kind_type k'), to_string (VInt id')) -> (k, id) = (k', id').
Proof.
  intros [= Hk Hid]. f_equal; [destruct k, k'; vm_compute in Hk; congruence|]. apply showZ_injective. exact Hid.
Qed.

(** What the templates see of a row. *)
Definition value_of (h : host) (v : jsval) : Prop := vget v "id" = VInt (h_id h) /\ vget v "meta" = h_meta h.

Lemma host_value_of clean w h : value_of h (host_value clean w h).
Proof. done. Qed.

Lemma row_value_of w b h : value_of h (row_value w b h).
Proof. unfold row_value. by destruct b. Qed.

(** * Handlers that keep the meta of others *)

Section Safe.

Context {E : Env}.

(** The caller, and the rows when the request began. *)
Variables (a : access) (rows : list host).
Hypothesis rows_keys : NoDup (key <$> rows).

Definition foreign (K : kind * Z) : Prop := exists h, h ∈ rows /\ key h = K /\ own_host a h = false.

Lemma same_host h h' : h ∈ rows -> h' ∈ rows -> key h = key h' -> h = h'.
Proof.
  intros [i Hi]%list_elem_of_lookup [j Hj]%list_elem_of_lookup He. assert (i = j) as ->; [|congruence].
  apply (NoDup_lookup _ i j (key h) rows_keys); rewrite list_lookup_fmap; [by rewrite Hi|by rewrite Hj, He].
Qed.

(** The row of another is another's still, and of its meta only the verdict of nginx changed. *)
Definition untouched (w : world) : Prop := forall h', h' ∈ w_hosts w -> foreign (key h') ->
  own_host a h' = false /\ exists h, h ∈ rows /\ key h = key h' /\ same_but_status (h_meta h) (h_meta h').

Definition safe {A} (m : M A) (Q : A -> Prop) : Prop := forall w, untouched w -> untouched (m w).1 /\ match (m w).2 with Ok x => Q x | Throw _ => True end.

Definition any {A} (x : A) : Prop := True.

Lemma safe_ret {A} (x : A) (Q : A -> Prop) : Q x -> safe (retM x) Q.
Proof. by intros Hq w Hw. Qed.

Lemma safe_conseq {A} (m : M A) (Q Q' : A -> Prop) : safe m Q -> (forall x, Q x -> Q' x) -> safe m Q'.
Proof. intros Hm H w Hw. destruct (Hm w Hw) as [H1 H2]. split; [done|]. destruct (m w).2; auto. Qed.

Lemma safe_from {X A} (f : X -> host_error) (r : result X A) : safe (from f r) any.
Proof. destruct r; by intros w Hw. Qed.

Lemma safe_fail {A} e (Q : A -> Prop) : safe (fail e) Q.
Proof. by intros w Hw. Qed.

Lemma safe_check c e : safe (check c e) any.
Proof. destruct c; by intros w Hw. Qed.

Lemma safe_allowed p : safe (allowed a p) any.
Proof. apply safe_from. Qed.

(** What is read is read from a state in which the rows of others are untouched. *)
Lemma safe_read {A} (f : world -> A) : safe (read f) (fun x => exists w, untouched w /\ x = f w).
Proof. intros w Hw. split; [done|]. by exists w. Qed.

Lemma safe_bind {A B} (m : M A) (f : A -> M B) (Q : A -> Prop) (R : B -> Prop) : safe m Q -> (forall x, Q x -> safe (f x) R) -> safe (bindM m f) R.
Proof. intros Hm Hf w Hw. destruct (Hm w Hw) as [H1 H2]. unfold bindM. destruct (m w) as [w1 [x|e]]; [|done]. by apply Hf. Qed.

Lemma safe_then {A B} (m : M A) (f : A -> M B) (R : B -> Prop) : safe m any -> (forall x, safe (f x) R) -> safe (bindM m f) R.
Proof. intros Hm Hf. by apply (safe_bind m f any). Qed.

Lemma safe_on_error {A} (m : M A) h : safe m any -> safe h any -> safe (on_error m h) any.
Proof.
  intros Hm Hh w Hw. unfold on_error. destruct (Hm w Hw) as [H1 H2]. destruct (m w) as [w1 [x|e]]; [done|]. destruct (Hh w1 H1) as [H3 _]. by destruct (h w1) as [w2 [u|e2]].
Qed.

Lemma safe_attempt {A} (m : M A) : safe m any -> safe (attempt m) any.
Proof. intros Hm w Hw. unfold attempt. destruct (Hm w Hw) as [H1 _]. by destruct (m w). Qed.

Lemma safe_when c m : safe m any -> safe (when c m) any.
Proof. destruct c; [done|by intros _ w Hw]. Qed.

(** A write of anything but the hosts. *)
Lemma safe_write f : (forall w, w_hosts (f w) = w_hosts w) -> safe (write f) any.
Proof. intros Hf w Hw. split; [|done]. intros h'. cbn. rewrite Hf. apply Hw. Qed.

Lemma safe_any_read {A} (f : world -> A) : safe (read f) any.
Proof. by intros w Hw. Qed.

Lemma safe_cloudflare {A} (p : prog A) : safe (run_cloudflare p) any.
Proof. intros w Hw. unfold run_cloudflare. by destruct (run _ _ _). Qed.

Lemma safe_patch k id f : ~ foreign (k, id) -> (forall h, key (f h) = key h) -> safe (write (patch_host k id f)) any.
Proof.
  intros Hk Hf w Hw. split; [|done]. intros h' Hin Hfor. cbn in Hin. apply elem_of_update_rows in Hin as (y & Hy & ->).
  destruct (is_host k id y) eqn:Hp; [|by apply Hw]. apply is_host_key in Hp. rewrite Hf, Hp in Hfor. done.
Qed.

Lemma safe_insert h : ~ foreign (key h) -> safe (insert_host h) any.
Proof. intros Hk w Hw. split; [|done]. intros h' Hin Hfor. cbn in Hin. apply elem_of_app in Hin as [Hin| ->%list_elem_of_singleton]; [by apply Hw|done]. Qed.

(** A run of nginx.js that patches hosts of a kind, given what the templates see of rows. *)
Lemma safe_nginx {A} (f : nginx -> nginx * result config_error A) k values :
  (forall n, patches (kind_type k) values n (f n).1) ->
  (forall v, v ∈ values -> exists h, value_of h v /\ h_kind h = k /\
     (foreign (key h) -> exists h0, h0 ∈ rows /\ key h0 = key h /\ same_but_status (h_meta h0) (h_meta h))) ->
  safe (with_nginx f) any.
Proof.
  intros Hf Hv w Hw. unfold with_nginx. pose proof (Hf (Nginx (w_files w) ∅ (w_loaded w))) as Hp. destruct (f _) as [n r]. cbn [fst] in Hp.
  assert (untouched (set_nginx (n_files n) (n_loaded n) (set_hosts (apply_meta (n_meta n) (w_hosts w)) w))) as Hu.
  { intros h' Hin Hfor. cbn in Hin. unfold apply_meta in Hin. apply list_elem_of_fmap in Hin as (h & -> & Hin). destruct (n_meta n !! _) as [m|] eqn:Hm; [|by apply Hw].
    destruct (Hw h Hin Hfor) as [Hown _]. split; [exact Hown|]. destruct (Hp _ _ Hm) as [H|(v & Hvin & Hk & Hver)]; [cbn in H; by rewrite lookup_empty in H|].
    destruct (Hv v Hvin) as (x & [Hid Hmeta] & Hkind & Hx). unfold id_of in Hk. rewrite Hid in Hk. apply patch_key in Hk. apply verdict_status in Hver. rewrite Hmeta in Hver.
    assert (key x = key h) as Hkey by (unfold key; rewrite Hkind; by symmetry). rewrite Hkey in Hx. destruct (Hx Hfor) as (h0 & H1 & H2 & H3). exists h0. split_and!; [done|done|].
    by eapply status_trans. }
  destruct r; by split.
Qed.

Lemma safe_reload b : safe (reload_nginx b) any.
Proof.
  apply (safe_nginx _ Proxy []); [|intros v []%elem_of_nil]. intros n. unfold reload. destruct (test nginx_t (n_files n)); [by apply patches_same|]. unfold reloadTested. destruct b; by apply patches_same.
Qed.

Lemma safe_files f : safe (on_files f) any.
Proof. by apply safe_write. Qed.

(** ** The parts of the handlers *)

Definition mine (k : kind) (h : host) : Prop := h_kind h = k /\ ~ foreign (key h).

Lemma mine_patch k h f : mine k h -> (forall x, key (f x) = key x) -> safe (write (patch_host k (h_id h) f)) any.
Proof. intros [<- Hk]. by apply safe_patch. Qed.

Lemma safe_get k id : safe (get_host k a id) (fun h => mine k h /\ h_id h = id).
Proof.
  unfold get_host. apply safe_then; [apply safe_allowed|intros _]. eapply safe_bind; [apply safe_read|]. intros row (w & Hw & ->).
  destruct (bfind _ _) as [h|] eqn:Hb; [|apply safe_fail]. apply safe_ret. apply bfind_Some in Hb as [Hin Hv]. unfold visible_host in Hv. rewrite !andb_true_iff in Hv.
  destruct Hv as [[[H1%bool_decide_eq_true_1 _] H2%Z.eqb_eq] Hown]. split; [|done]. split; [done|]. intros Hfor. destruct (Hw h Hin Hfor) as [H _]. unfold own_host in H. by rewrite Hown in H.
Qed.

Lemma safe_configure an k b row : mine k row -> safe (configure_host an k b row) any.
Proof.
  intros [Hk Hf]. unfold configure_host. eapply safe_bind; [apply safe_read|]. intros v (w & _ & ->). eapply (safe_nginx _ k [row_value w b row]).
  - intros n. apply patches_configure.
  - intros v ->%list_elem_of_singleton. exists row. split; [apply row_value_of|]. by split.
Qed.

Lemma safe_refresh k an id : safe (refresh k a an id) (mine k).
Proof.
  unfold refresh. eapply safe_bind; [apply safe_get|]. intros row [Hm _]. apply safe_then; [by apply safe_configure|]. intros meta. by apply safe_ret.
Qed.

Lemma safe_sync an row : mine Proxy row -> safe (sync_cloudflare an a row) any.
Proof.
  intros Hm. unfold sync_cloudflare. apply safe_then; [apply safe_any_read|intros p]. apply safe_then; [apply safe_cloudflare|]. intros [m|]; [|by apply safe_ret].
  apply safe_then; [by apply mine_patch|]. intros _. by apply safe_ret.
Qed.

Lemma safe_delete_conf k row : safe (delete_conf k row) any.
Proof. by intros w Hw. Qed.

(** The hosts of the names, of anybody, with the meta they have. *)
Lemma safe_enable ca w : untouched w -> forall domains, safe (enableInUseHosts ca (hosts_in_use w domains)) any.
Proof.
  intros Hw domains. unfold enableInUseHosts.
  assert (forall k, safe (bindM (attempt (with_nginx (bulkGenerateConfigs templates parseAndRender DISABLE_IPV6 nginx_t message_of (ca_patch ca) (ca_bulk_reload ca) (kind_type k) (hosts_in_use w domains k))))
    (fun _ => retM tt)) any) as Hone.
  { intros k. apply safe_then; [|intros _; by apply safe_ret]. apply safe_attempt. apply (safe_nginx _ k (hosts_in_use w domains k)); [intros n; apply patches_bulk|].
    intros v Hv. unfold hosts_in_use in Hv. apply list_elem_of_fmap in Hv as (h & -> & Hin). exists h. split; [apply host_value_of|].
    unfold getHostsWithDomains, loadHostsUsingDomains in Hin. apply elem_of_bfilter in Hin as [Hin _]. apply elem_of_bfilter in Hin as [Hin Hp]. rewrite !andb_true_iff in Hp.
    destruct Hp as [[Hk%bool_decide_eq_true_1 _] _]. split; [done|]. intros Hfor. by apply Hw. }
  apply safe_then; [apply Hone|intros _]. apply safe_then; [apply Hone|intros _]. apply Hone.
Qed.

Lemma safe_request ca owner c : safe (request_certificate ca owner c) any.
Proof.
  unfold request_certificate. apply safe_then; [apply safe_any_read|intros user]. apply safe_then; [apply safe_check|intros _].
  destruct (truthy _); [apply safe_check|]. unfold request_over_http. eapply safe_bind; [apply safe_read|]. intros in_use (w & Hw & ->).
  apply safe_then; [apply safe_files|intros _]. apply safe_on_error.
  - apply safe_then; [|intros _; apply safe_then; [apply safe_reload|intros _]; apply safe_then; [apply safe_check|intros _]; apply safe_then; [apply safe_files|intros _];
      apply safe_then; [by apply safe_enable|intros _]; apply safe_then; [apply safe_attempt, safe_reload|intros r]; by apply safe_write].
    apply (safe_nginx _ Proxy []); [|intros v []%elem_of_nil]. intros n. destruct (generateLetsEncryptRequestConfig _ _ _ _ _); by apply patches_same.
  - apply safe_then; [apply safe_files|intros _]. apply safe_then; [by apply safe_enable|intros _]. apply safe_reload.
Qed.

Lemma safe_credentials meta : safe (checkDnsCredentials meta) any.
Proof.
  unfold checkDnsCredentials. destruct (_ && _); [|by apply safe_ret]. destruct (vget _ _); try apply safe_fail. apply safe_then; [apply safe_from|]. intros out. by apply safe_ret.
Qed.

Lemma safe_create_certificate ca provider nice domains meta : safe (create_certificate a ca provider nice domains meta) any.
Proof.
  unfold create_certificate. apply safe_then; [apply safe_allowed|intros _]. apply safe_then; [apply safe_credentials|intros m]. apply safe_then; [by apply safe_write|intros _].
  apply safe_then; [|intros _; by apply safe_ret]. destruct (bool_decide _); [|by apply safe_ret]. apply safe_then; [|intros _; apply safe_check].
  apply safe_on_error; [apply safe_request|by apply safe_write].
Qed.

Lemma safe_quick ca domains meta : safe (createQuickCertificate a ca domains meta) any.
Proof. apply safe_create_certificate. Qed.

Lemma safe_cert_access c : safe (assertCertificateAccess a c) any.
Proof.
  unfold assertCertificateAccess. destruct c as [id|]; [|by apply safe_ret]. destruct (id =? 0); [by apply safe_ret|]. apply safe_then; [apply safe_check|intros _].
  apply safe_then; [apply safe_allowed|intros _]. destruct (internal a); [by apply safe_ret|]. apply safe_then; [apply safe_any_read|intros found]. apply safe_check.
Qed.

Lemma safe_list_access l : safe (assertAccessListAccess a l) any.
Proof.
  unfold assertAccessListAccess. destruct l as [id|]; [|by apply safe_ret]. destruct (id =? 0); [by apply safe_ret|]. apply safe_then; [apply safe_check|intros _].
  apply safe_then; [apply safe_allowed|intros _]. destruct (internal a); [by apply safe_ret|]. apply safe_then; [apply safe_any_read|intros found]. apply safe_check.
Qed.

Lemma safe_names names ignore : safe (assertHostnamesFree names ignore) any.
Proof. unfold assertHostnamesFree. destruct names; [|by apply safe_ret]. intros w Hw. by destruct (head _). Qed.

Lemma safe_link k an id p : ~ foreign (k, id) -> safe (link_new k a an id p) any.
Proof. intros Hk. unfold link_new. apply safe_then; [apply safe_quick|]. intros cert. by apply safe_patch. Qed.

Lemma safe_update_cert an k row domains p : safe (update_cert k a an row domains p) any.
Proof.
  unfold update_cert. destruct (is_new p); [apply safe_then; [apply safe_quick|intros cert; by apply safe_ret]|].
  apply safe_then; [|intros _; by apply safe_ret]. destruct (cert_of p) as [c|]; [|by apply safe_ret]. destruct (c =? h_cert row); [by apply safe_ret|apply safe_cert_access].
Qed.

Lemma safe_write_row k row p : mine k row -> safe (write_row k row p) any.
Proof. intros Hm. unfold write_row, replace_host. by apply mine_patch. Qed.

(** ** The handlers *)

Lemma safe_delete k an id : safe (delete_host k a an id) any.
Proof.
  unfold delete_host. apply safe_then; [apply safe_allowed|intros _]. eapply safe_bind; [apply safe_get|]. intros row [Hm _]. apply safe_then; [by apply mine_patch|intros _].
  apply safe_then; [apply safe_delete_conf|intros _]. apply safe_then; [apply safe_reload|intros _]. by apply safe_ret.
Qed.

Lemma safe_switch_on k an id : safe (enable_host k a an id) any.
Proof.
  unfold enable_host. apply safe_then; [apply safe_allowed|intros _]. eapply safe_bind; [apply safe_get|]. intros row [Hm _]. apply safe_then; [apply safe_check|intros _].
  apply safe_then; [by apply mine_patch|intros _]. apply safe_then; [by apply safe_configure|intros _]. by apply safe_ret.
Qed.

Lemma safe_switch_off k an id : safe (disable_host k a an id) any.
Proof.
  unfold disable_host. apply safe_then; [apply safe_allowed|intros _]. eapply safe_bind; [apply safe_get|]. intros row [Hm _]. apply safe_then; [apply safe_check|intros _].
  apply safe_then; [by apply mine_patch|intros _]. apply safe_then; [apply safe_delete_conf|intros _]. apply safe_reload.
Qed.

Lemma safe_proxy_delete an id : safe (ProxyHost.delete a an id) any.
Proof.
  unfold ProxyHost.delete. apply safe_then; [apply safe_delete|intros row]. apply safe_then; [apply safe_any_read|intros p]. apply safe_cloudflare.
Qed.

(** A new host, whose id no row has, up to the certificate it waits for. *)
Lemma safe_new {B} k an id h data (tail : M B) R : key h = (k, id) -> ~ foreign (k, id) -> safe tail R ->
  safe (insert_host h;;; when (is_new data) (link_new k a an id data);;; tail) R.
Proof.
  intros Hh Hk Ht. apply safe_then; [apply safe_insert; by rewrite Hh|intros _]. apply safe_then; [by apply safe_when, safe_link|intros _]. exact Ht.
Qed.

Lemma safe_proxy_create an id p : ~ foreign (Proxy, id) -> safe (ProxyHost.create a an id p) any.
Proof.
  intros Hk. unfold ProxyHost.create. do 5 (apply safe_then; [eauto using safe_allowed, safe_from, safe_cert_access, safe_list_access, safe_names|intros _]).
  apply safe_new; [done|done|]. eapply safe_bind; [apply safe_refresh|]. intros row Hm. by apply safe_sync.
Qed.

Lemma safe_redirection_create an id p : ~ foreign (Redirection, id) -> safe (RedirectionHost.create a an id p) any.
Proof.
  intros Hk. unfold RedirectionHost.create. do 4 (apply safe_then; [eauto using safe_allowed, safe_from, safe_cert_access, safe_names|intros _]).
  apply safe_new; [done|done|]. by eapply safe_conseq; [apply safe_refresh|].
Qed.

Lemma safe_dead_create an id p : ~ foreign (Dead, id) -> safe (DeadHost.create a an id p) any.
Proof.
  intros Hk. unfold DeadHost.create. do 4 (apply safe_then; [eauto using safe_allowed, safe_from, safe_cert_access, safe_names|intros _]).
  apply safe_new; [done|done|]. eapply safe_bind; [apply safe_get|]. intros row [Hm _]. apply safe_then; [apply safe_check|intros _]. apply safe_then; [by apply safe_configure|intros meta]. by apply safe_ret.
Qed.

Lemma safe_stream_create an id p : ~ foreign (Stream, id) -> safe (StreamHost.create a an id p) any.
Proof.
  intros Hk. unfold StreamHost.create. do 3 (apply safe_then; [eauto using safe_allowed, safe_from, safe_cert_access|intros _]).
  apply safe_new; [done|done|]. by eapply safe_conseq; [apply safe_refresh|].
Qed.

Lemma safe_proxy_update an id p : safe (ProxyHost.update a an id p) any.
Proof.
  unfold ProxyHost.update. apply (safe_bind _ _ (fun r => mine Proxy r.1)).
  - unfold ProxyHost.update_read. do 3 (apply safe_then; [eauto using safe_allowed, safe_from, safe_names|intros _]). eapply safe_bind; [apply safe_get|]. intros row [Hm _].
    apply safe_then; [apply safe_check|intros _]. apply safe_then; [apply safe_update_cert|intros cert]. apply safe_then; [|intros _; by apply safe_ret].
    unfold ProxyHost.check_list. destruct (p_list _) as [l|]; [|by apply safe_ret]. destruct (_ || _); [by apply safe_ret|apply safe_list_access].
  - intros [row data] Hm. unfold ProxyHost.update_write. cbn [fst snd] in *. apply safe_then; [by apply safe_write_row|intros _]. eapply safe_bind; [apply safe_get|]. intros row' [Hm' _].
    destruct (negb (h_enabled row')); [by apply safe_ret|]. apply safe_then; [by apply safe_configure|intros meta]. by apply safe_sync.
Qed.

(** The end of an update of the other kinds. *)
Lemma safe_updated k an id row domains data (f : payload -> M unit) : mine k row -> (forall p, safe (f p) any) ->
  safe (p <- update_cert k a an row domains data;; f p;;; refresh k a an id) any.
Proof.
  intros Hm Hf. apply safe_then; [apply safe_update_cert|intros p]. apply safe_then; [apply Hf|intros _]. by eapply safe_conseq; [apply safe_refresh|].
Qed.

Lemma safe_redirection_update an id p : safe (RedirectionHost.update a an id p) any.
Proof.
  unfold RedirectionHost.update. do 3 (apply safe_then; [eauto using safe_allowed, safe_from, safe_names|intros _]). eapply safe_bind; [apply safe_get|]. intros row [Hm _].
  apply safe_then; [apply safe_check|intros _]. apply safe_updated; [done|]. intros q. by apply safe_write_row.
Qed.

Lemma safe_dead_update an id p : safe (DeadHost.update a an id p) any.
Proof.
  unfold DeadHost.update. do 3 (apply safe_then; [eauto using safe_allowed, safe_from, safe_names|intros _]). eapply safe_bind; [apply safe_get|]. intros row [Hm _].
  apply safe_then; [apply safe_check|intros _]. apply safe_updated; [done|]. intros q. by apply safe_write_row.
Qed.

Lemma safe_stream_update an id p : safe (StreamHost.update a an id p) any.
Proof.
  unfold StreamHost.update. do 3 (apply safe_then; [eauto using safe_allowed, safe_from, safe_check|intros _]). eapply safe_bind; [apply safe_get|]. intros row [Hm _].
  apply safe_then; [apply safe_check|intros _]. apply safe_updated; [done|]. intros q. by apply mine_patch.
Qed.

Lemma safe_get_certificate id : safe (get_certificate a id) any.
Proof.
  unfold get_certificate. apply safe_then; [apply safe_allowed|intros _]. apply safe_then; [apply safe_any_read|]. intros [c|]; [by apply safe_ret|apply safe_fail].
Qed.

Lemma safe_update_certificate id data : safe (update_certificate a id data) any.
Proof.
  unfold update_certificate. apply safe_then; [apply safe_allowed|intros _]. apply safe_then.
  { destruct (cp_meta data); [|by apply safe_ret]. apply safe_then; [apply safe_credentials|intros m]. by apply safe_ret. }
  intros m. apply safe_then; [apply safe_get_certificate|intros row]. apply safe_then; [by apply safe_write|intros _]. by apply safe_ret.
Qed.

Lemma safe_delete_certificate id : safe (delete_certificate a id) any.
Proof.
  unfold delete_certificate. apply safe_then; [apply safe_allowed|intros _]. apply safe_then; [apply safe_get_certificate|intros row]. apply safe_then; [apply safe_any_read|intros n].
  apply safe_then; [apply safe_check|intros _]. by apply safe_write.
Qed.

Lemma untouched_start w : w_hosts w = rows -> untouched w.
Proof.
  intros Hw h Hin (h0 & Hin0 & Hk & Hown). rewrite Hw in Hin. assert (h0 = h) as -> by (by apply same_host). split; [done|]. exists h. by split_and!.
Qed.

End Safe.
