(* ===== verification/HostHistory.v ===== *)
(** The published hosts over time: every handler is a sequence of allowed changes of the tables, and
    what these keep. *)

From S2P Require Import Prelude.
From S2P Require Import JsString.
From S2P Require Import JsVal.
From S2P Require Import Json.
From S2P Require Import NginxText.
From S2P Require Import NginxConfig.
From S2P Require Import Accounts.
From S2P Require Import CloudflareDns.
From S2P Require Import HostTables.
From S2P Require Import Certificates.
From S2P Require Import Hosts.
From S2P Require Import HostMeta.

Local Open Scope Z_scope.
Local Open Scope host_scope.

(** * The tables without what nginx and Cloudflare write back *)

Definition core (h : host) : host := with_meta VUndef h.
Record view := View { v_hosts : list host; v_certs : list certificate; v_lists : list access_list; v_accounts : accounts }.
Definition view_of (w : world) : view := View (core <$> w_hosts w) (w_certs w) (w_lists w) (w_accounts w).

(** * Programs as changes of a view *)

(** From a view with [P] a program ends in one with [Q], or throws in one with [X]. *)
Definition triple {A} (P : view -> Prop) (m : M A) (Q : A -> view -> Prop) (X : view -> Prop) : Prop :=
  forall w, P (view_of w) -> match m w with (w', Ok a) => Q a (view_of w') | (w', Throw _) => X (view_of w') end.

Section Triples.

Context {A B : Type}.

Lemma triple_bind P (m : M A) R (f : A -> M B) Q X : triple P m R X -> (forall a, triple (R a) (f a) Q X) -> triple P (bindM m f) Q X.
Proof. intros Hm Hf w Hw. specialize (Hm w Hw). unfold bindM. destruct (m w) as [w' [a|e]]; [by apply Hf|done]. Qed.

Lemma triple_conseq (P P' : view -> Prop) (m : M A) (Q Q' : A -> view -> Prop) (X X' : view -> Prop) :
  triple P' m Q' X' -> (forall v, P v -> P' v) -> (forall a v, Q' a v -> Q a v) -> (forall v, X' v -> X v) -> triple P m Q X.
Proof. intros Hm HP HQ HX w Hw. specialize (Hm w (HP _ Hw)). destruct (m w) as [w' [a|e]]; auto. Qed.

Lemma triple_ret P (a : A) (Q : A -> view -> Prop) X : (forall v, P v -> Q a v) -> triple P (retM a) Q X.
Proof. intros H w Hw. by apply H. Qed.

Lemma triple_fail P e (Q : A -> view -> Prop) (X : view -> Prop) : (forall v, P v -> X v) -> triple P (fail e) Q X.
Proof. intros H w Hw. by apply H. Qed.

Lemma triple_on_error P (m : M A) h Q X Y : triple P m Q Y -> triple Y h (fun _ => X) X -> triple P (on_error m h) Q X.
Proof.
  intros Hm Hh w Hw. specialize (Hm w Hw). unfold on_error. destruct (m w) as [w' [a|e]]; [done|]. specialize (Hh w' Hm). destruct (h w') as [w2 [u|e2]]; done.
Qed.

Lemma triple_attempt P (m : M A) Q X : triple P m (fun _ => Q) Q -> triple P (attempt m) (fun _ => Q) X.
Proof. intros Hm w Hw. specialize (Hm w Hw). unfold attempt. by destruct (m w) as [w' [a|e]]. Qed.

(** What is known of a view may be used. *)
Lemma triple_pure (F : Prop) P (m : M A) Q X : (F -> triple P m Q X) -> triple (fun v => P v /\ F) m Q X.
Proof. intros H w [Hw Hf]. by apply H. Qed.

Lemma triple_at (P : view -> Prop) (m : M A) Q X : (forall v0, P v0 -> triple (fun v => v = v0) m Q X) -> triple P m Q X.
Proof. intros H w Hw. by apply (H (view_of w)). Qed.

(** It reads, and what it writes is not in the view. *)
Definition quiet (m : M A) : Prop := forall w, view_of (m w).1 = view_of w.

Lemma triple_quiet P (m : M A) : quiet m -> triple P m (fun _ => P) P.
Proof. intros H w Hw. specialize (H w). destruct (m w) as [w' [a|e]]; cbn in H; by rewrite H. Qed.

Lemma triple_read P (f : world -> A) : triple P (read f) (fun a v => P v /\ exists w, v = view_of w /\ a = f w) P.
Proof. intros w Hw. split; [done|]. by exists w. Qed.

End Triples.

Lemma triple_write P (f : world -> world) (g : view -> view) X : (forall w, view_of (f w) = g (view_of w)) ->
  triple P (write f) (fun _ v => exists v0, P v0 /\ v = g v0) X.
Proof. intros H w Hw. cbn. rewrite H. by exists (view_of w). Qed.

Lemma triple_check P c e : triple P (check c e) (fun _ v => P v /\ c = true) P.
Proof. intros w Hw. by destruct c. Qed.

Section Quiet.

Lemma quiet_ret {A} (a : A) : quiet (retM a).
Proof. done. Qed.
Lemma quiet_fail {A} e : quiet (fail e : M A).
Proof. done. Qed.
Lemma quiet_from {E A} (f : E -> host_error) (r : result E A) : quiet (from f r).
Proof. by destruct r. Qed.
Lemma quiet_check c e : quiet (check c e).
Proof. by destruct c. Qed.
Lemma quiet_read {A} (f : world -> A) : quiet (read f).
Proof. done. Qed.
Lemma quiet_bind {A B} (m : M A) (f : A -> M B) : quiet m -> (forall a, quiet (f a)) -> quiet (bindM m f).
Proof. intros Hm Hf w. specialize (Hm w). unfold bindM. destruct (m w) as [w' [a|e]]; cbn in *; [by rewrite Hf|done]. Qed.
Lemma quiet_on_error {A} (m : M A) h : quiet m -> quiet h -> quiet (on_error m h).
Proof.
  intros Hm Hh w. specialize (Hm w). unfold on_error. destruct (m w) as [w' [a|e]]; cbn in *; [done|]. specialize (Hh w'). by destruct (h w') as [w2 [u|e2]]; cbn in *; rewrite Hh.
Qed.
Lemma quiet_attempt {A} (m : M A) : quiet m -> quiet (attempt m).
Proof. intros Hm w. specialize (Hm w). unfold attempt. by destruct (m w). Qed.
Lemma quiet_allowed a p : quiet (allowed a p).
Proof. apply quiet_from. Qed.

Lemma core_meta m h : core (with_meta m h) = core h.
Proof. done. Qed.

Lemma core_apply_meta m l : core <$> apply_meta m l = core <$> l.
Proof. unfold apply_meta. rewrite <- list_fmap_compose. apply list_fmap_ext. intros i h _. cbn. by destruct (m !! _). Qed.

Lemma quiet_with_nginx {A} (f : nginx -> nginx * result config_error A) : quiet (with_nginx f).
Proof. intros w. unfold with_nginx. destruct (f _) as [n r]. rewrite quiet_from. unfold view_of. cbn. by rewrite core_apply_meta. Qed.
Lemma quiet_on_files f : quiet (on_files f).
Proof. done. Qed.
Lemma quiet_cloudflare {E : Env} {A} (p : prog A) : quiet (run_cloudflare p).
Proof. intros w. unfold run_cloudflare. by destruct (run _ _ _). Qed.

(** Rows that agree but for the meta. *)
Lemma core_update_rows (p q : host -> bool) (f g : host -> host) l : (forall h, p h = q (core h)) -> (forall h, core (f h) = g (core h)) ->
  core <$> update_rows p f l = update_rows q g (core <$> l).
Proof. intros Hp Hf. unfold update_rows. rewrite <- !list_fmap_compose. apply list_fmap_ext. intros i h _. cbn. rewrite Hp. by destruct (q (core h)). Qed.

Lemma update_rows_id {A} (p : A -> bool) l : update_rows p (fun x => x) l = l.
Proof. unfold update_rows. rewrite <- (list_fmap_id l) at 2. apply list_fmap_ext. intros i x _. by destruct (p x). Qed.

Lemma quiet_patch_meta k id m : quiet (write (patch_host k id (with_meta m))).
Proof.
  intros w. unfold view_of, write, patch_host. cbn. f_equal. rewrite (core_update_rows _ (is_host k id) _ (fun h => h)); [by rewrite update_rows_id|done|done].
Qed.

End Quiet.

#[export] Hint Resolve quiet_ret quiet_fail quiet_from quiet_check quiet_read quiet_allowed quiet_with_nginx quiet_on_files quiet_cloudflare quiet_patch_meta : quiet.
Ltac quiet := repeat first [apply quiet_bind; [|intros ?] | apply quiet_on_error | apply quiet_attempt | case_match | solve [auto with quiet]].

Section Requests.

Context {E : Env}.

Lemma quiet_get k a id : quiet (get_host k a id).
Proof. unfold get_host. quiet. Qed.
Lemma quiet_configure an k b row : quiet (configure_host an k b row).
Proof. unfold configure_host. quiet. Qed.
Lemma quiet_refresh k a an id : quiet (refresh k a an id).
Proof. unfold refresh. pose proof quiet_get. pose proof quiet_configure. quiet. Qed.
Lemma quiet_sync an a row : quiet (sync_cloudflare an a row).
Proof. unfold sync_cloudflare. quiet. Qed.
Lemma quiet_delete_conf k row : quiet (delete_conf k row).
Proof. done. Qed.
Lemma quiet_reload b : quiet (reload_nginx b).
Proof. apply quiet_with_nginx. Qed.
Lemma quiet_credentials meta : quiet (checkDnsCredentials meta).
Proof. unfold checkDnsCredentials. quiet. Qed.
Lemma quiet_enable ca f : quiet (enableInUseHosts ca f).
Proof. unfold enableInUseHosts. quiet. Qed.
Lemma quiet_request ca owner c : quiet (request_certificate ca owner c).
Proof.
  unfold request_certificate, request_over_http, disableInUseHosts, write_challenge, delete_challenge. pose proof quiet_enable. pose proof quiet_reload. quiet.
  all: try done.
Qed.

End Requests.

(** * What a caller may change *)

Definition named (k : kind) : bool := bool_decide (k <> Stream).

(** A name of a host: printable ASCII, no wildcard of LIKE but the underscore, nothing JSON escapes. *)
Definition name_char (c : ascii) : bool := (32 <? code c) && (code c <? 127) && negb (one_of ["%"; dquote; "\"]%char c).
Definition host_name (s : string) : bool := sall name_char s && bool_decide (s <> "").

(** Names no other host answers to, in any letter case. *)
Definition names_free (v : view) (self : kind * Z) (names : list string) : Prop :=
  Forall (fun n => host_name n = true) names /\
  forall h d, h ∈ v_hosts v -> named (h_kind h) = true -> h_is_deleted h = false -> key h <> self -> d ∈ names -> to_lower d ∉ to_lower <$> h_domains h.

(** Flags: HSTS of subdomains needs HSTS, that forced SSL, that and HTTP/2 a certificate. *)
Definition flags_ok (h : host) : Prop :=
  let s := h_ssl h in
  (hsts_subdomains s = true -> hsts_enabled s = true) /\ (hsts_enabled s = true -> ssl_forced s = true) /\
  (ssl_forced s = true \/ http2_support s = true -> h_cert h <> 0).

Definition may_use_cert (a : access) (v : view) (id : Z) : Prop := id = 0 \/ exists c, c ∈ v_certs v /\ visible_cert a id c = true.
Definition may_use_list (a : access) (v : view) (id : Z) : Prop := id = 0 \/ exists l, l ∈ v_lists v /\ visible_list a id l = true.

(** What a change makes of one row: the row was visible to the caller; its key and its owner stay. *)
Definition row_change (a : access) (unchecked : bool) (v : view) (old new : host) : Prop :=
  visible_host (h_kind old) a (h_id old) old = true /\ key new = key old /\ h_owner new = h_owner old /\
  (named (h_kind old) = true -> h_domains new ≡ₚ h_domains old \/ names_free v (key old) (h_domains new)) /\
  (named (h_kind old) = true -> flags_ok old -> flags_ok new) /\
  (h_cert new = h_cert old \/ may_use_cert a v (h_cert new)) /\
  (h_list new = h_list old \/ may_use_list a v (h_list new) \/ unchecked = true).

(** The changes of the tables: [unchecked] when a list may come in that was not checked. *)
Inductive change (a : access) (unchecked : bool) (v : view) : view -> Prop :=
| add_host h : h_owner h = user_id a -> h_is_deleted h = false -> key h ∉ key <$> v_hosts v ->
    (named (h_kind h) = true -> names_free v (key h) (h_domains h) /\ flags_ok h) ->
    may_use_cert a v (h_cert h) -> may_use_list a v (h_list h) ->
    change a unchecked v (View (v_hosts v ++ [h]) (v_certs v) (v_lists v) (v_accounts v))
| set_host k id f : (forall old, old ∈ v_hosts v -> is_host k id old = true -> row_change a unchecked v old (f old)) ->
    change a unchecked v (View (update_rows (is_host k id) f (v_hosts v)) (v_certs v) (v_lists v) (v_accounts v))
| add_cert c : ct_owner c = user_id a -> ct_is_deleted c = false -> ct_id c <> 0 -> ct_id c ∉ ct_id <$> v_certs v ->
    change a unchecked v (View (v_hosts v) (v_certs v ++ [c]) (v_lists v) (v_accounts v))
| set_cert_row id f : (forall c, c ∈ v_certs v -> ct_id c = id -> visible_cert a id c = true /\ ct_id (f c) = id /\ ct_owner (f c) = ct_owner c) ->
    (forall h c, h ∈ v_hosts v -> h_is_deleted h = false -> h_cert h = id -> ct_is_deleted c = false -> ct_is_deleted (f c) = false) ->
    change a unchecked v (View (v_hosts v) (update_rows (cert_id_of id) f (v_certs v)) (v_lists v) (v_accounts v)).

Notation changes a u := (rtc (change a u)).

(** * What the checks establish *)

Definition stays (v0 : view) : view -> Prop := fun v => v = v0.

Lemma triple_stays {A} v0 (m : M A) (F : A -> Prop) : quiet m -> (forall w a w', view_of w = v0 -> m w = (w', Ok a) -> F a) ->
  triple (stays v0) m (fun a v => stays v0 v /\ F a) (stays v0).
Proof. intros Hq Hf w Hw. specialize (Hq w). pose proof (Hf w) as H. destruct (m w) as [w' [a|e]]; cbn in Hq; unfold stays in *; [|congruence]. split; [congruence|]. by apply (H a w'). Qed.

Lemma check_stays v0 c e : triple (stays v0) (check c e) (fun _ v => stays v0 v /\ c = true) (stays v0).
Proof. apply triple_check. Qed.

Lemma quiet_stays {A} v0 (m : M A) : quiet m -> triple (stays v0) m (fun _ v => stays v0 v /\ True) (stays v0).
Proof. intros H. by apply triple_stays. Qed.

Lemma visible_core k a id h : visible_host k a id (core h) = visible_host k a id h.
Proof. done. Qed.

Lemma elem_of_view_hosts w h : h ∈ w_hosts w -> core h ∈ v_hosts (view_of w).
Proof. intros H. by apply list_elem_of_fmap_2. Qed.

Section Checks.

Context {E : Env}.

Lemma get_stays v0 k a id : triple (stays v0) (get_host k a id) (fun h v => stays v0 v /\ (core h ∈ v_hosts v0 /\ visible_host k a id h = true)) (stays v0).
Proof.
  apply triple_stays; [apply quiet_get|]. intros w h w' <-. unfold get_host, bindM, allowed. destruct (can a _ 0); [|done]. cbn.
  destruct (bfind _ (w_hosts w)) as [h'|] eqn:Hf; [|done]. intros [= _ <-]. apply bfind_Some in Hf as [H1 H2]. split; [by apply elem_of_view_hosts|done].
Qed.

Lemma cert_stays v0 a c : internal a = false ->
  triple (stays v0) (assertCertificateAccess a c) (fun _ v => stays v0 v /\ may_use_cert a v0 (default 0 c)) (stays v0).
Proof.
  intros Hi. apply triple_stays.
  - unfold assertCertificateAccess. quiet.
  - intros w [] w' <-. unfold assertCertificateAccess. destruct c as [id|]; [|by left]. cbn [default]. destruct (Z.eqb_spec id 0) as [->|Hn]; [by left|].
    unfold bindM, check, allowed. destruct (0 <? id); [|done]. cbn. destruct (can a _ 0); [|done]. cbn. rewrite Hi. cbn.
    destruct (existsb _ _) eqn:He; [|done]. intros _. right. by apply existsb_true in He.
Qed.

Lemma list_stays v0 a l : internal a = false ->
  triple (stays v0) (assertAccessListAccess a l) (fun _ v => stays v0 v /\ may_use_list a v0 (default 0 l)) (stays v0).
Proof.
  intros Hi. apply triple_stays.
  - unfold assertAccessListAccess. quiet.
  - intros w [] w' <-. unfold assertAccessListAccess. destruct l as [id|]; [|by left]. cbn [default]. destruct (Z.eqb_spec id 0) as [->|Hn]; [by left|].
    unfold bindM, check, allowed. destruct (0 <? id); [|done]. cbn. destruct (can a _ 0); [|done]. cbn. rewrite Hi. cbn.
    destruct (existsb _ _) eqn:He; [|done]. intros _. right. by apply existsb_true in He.
Qed.

(** ** Names *)

(** LIKE finds a name inside a text whatever the case of the letters. *)
Definition like_finds : Prop := forall name text, host_name name = true -> includes (to_lower name) (to_lower text) = true ->
  like ("%" +:+ name +:+ "%") text = true.

Lemma quiet_names names ignore : quiet (assertHostnamesFree names ignore).
Proof. intros w. unfold assertHostnamesFree. destruct names; [|done]. by destruct (head _). Qed.

Lemma includes_mid p a b : includes p (a +:+ p +:+ b) = true.
Proof.
  assert (forall t, starts_with p (p +:+ t) = true) as Hp.
  { intros t. unfold starts_with. induction p as [|c p IH]; [by destruct t|]. rewrite sapp_String. cbn. rewrite IH. by destruct (ascii_dec c c). }
  induction a as [|c a IH]; [|rewrite sapp_String; cbn [includes]; by destruct (String.prefix _ _)].
  rewrite sapp_nil_l. specialize (Hp b). destruct p as [|c p]; [by destruct b|]. rewrite sapp_String in *. cbn [includes]. unfold starts_with in Hp. by rewrite Hp.
Qed.

Lemma to_lower_app a b : to_lower (a +:+ b) = to_lower a +:+ to_lower b.
Proof. unfold to_lower. induction a as [|c a IH]; [done|]. rewrite sapp_String. cbn [smap]. by rewrite IH, sapp_assoc. Qed.

(** Such a name stands in the text of its list as it is. *)
Lemma quote_name s : sall name_char s = true -> smap quote_char s = s.
Proof.
  induction s as [|c s IH]; [done|]. cbn [sall smap]. rewrite andb_true_iff. intros [Hc Hs]. rewrite IH by done.
  assert (quote_char c = String c "") as ->; [|done]. revert Hc. clear. revert c.
  assert (forall c, implb (name_char c) (bool_decide (quote_char c = String c "")) = true) as H by (apply forall_char; vm_compute; reflexivity).
  intros c Hc. specialize (H c). rewrite Hc in H. by apply bool_decide_eq_true_1 in H.
Qed.

Lemma json_strings_has l m : m ∈ l -> sall name_char m = true -> exists a b, json_strings l = a +:+ m +:+ b.
Proof.
  intros Hm Hc. assert (exists a b, join "," (json_string <$> l) = a +:+ m +:+ b) as (a & b & H).
  { assert (exists b, json_string m = String dquote (m +:+ b)) as [b Hb] by (exists (String dquote ""); unfold json_string; by rewrite quote_name).
    induction l as [|x l IH]; [by apply not_elem_of_nil in Hm|]. cbn [fmap list_fmap].
    assert (forall rest, exists a b, join "," (json_string x :: rest) = a +:+ b /\ a = json_string x) as Hj.
    { intros [|y rest]; [exists (json_string x), ""; by rewrite sapp_nil_r|]. by exists (json_string x), ("," +:+ join "," (y :: rest)). }
    apply elem_of_cons in Hm as [->|Hm].
    - destruct (Hj (json_string <$> l)) as (? & b' & -> & ->). exists (String dquote ""), (b +:+ b'). rewrite Hb. by rewrite !sapp_String, sapp_nil_l, sapp_assoc.
    - destruct (IH Hm) as (a & b' & H). destruct l as [|y l]; [by apply not_elem_of_nil in Hm|]. cbn [fmap list_fmap] in *.
      exists (json_string x +:+ "," +:+ a), b'. change (join "," (json_string x :: json_string y :: (json_string <$> l))) with (json_string x +:+ "," +:+ join "," (json_string y :: (json_string <$> l))).
      change (list_fmap string string json_string l) with (json_string <$> l) in H. rewrite H. by rewrite !sapp_assoc. }
  exists ("[" +:+ a), (b +:+ "]"). unfold json_strings. rewrite H. by rewrite !sapp_assoc.
Qed.

Lemma head_filter_None {A} (p : A -> bool) l : head (bfilter p l) = None -> forall x, x ∈ l -> p x = false.
Proof.
  intros H x Hx. destruct (p x) eqn:Hp; [|done]. assert (x ∈ bfilter p l) as Hin by (by apply elem_of_bfilter).
  destruct (bfilter p l); [by apply not_elem_of_nil in Hin|done].
Qed.

Definition names_plain (v : view) : Prop := forall h d, h ∈ v_hosts v -> h_is_deleted h = false -> named (h_kind h) = true -> d ∈ h_domains h -> host_name d = true.

Lemma names_stays v0 names ignore self : like_finds -> names_plain v0 -> Forall (fun n => host_name n = true) (default [] names) ->
  match ignore with Some k => k = self | None => True end ->
  triple (stays v0) (assertHostnamesFree names ignore) (fun _ v => stays v0 v /\ names_free v0 self (default [] names)) (stays v0).
Proof.
  intros Hlike Hplain Hnames Hself. apply triple_stays; [apply quiet_names|]. intros w [] w' <- H. split; [done|]. intros h d Hh Hk Hdel Hkey Hd Hin.
  destruct names as [names|]; [|by apply not_elem_of_nil in Hd]. cbn [default] in *. unfold assertHostnamesFree in H.
  destruct (head _) as [name|] eqn:Hhead; [done|]. clear H. rewrite Forall_forall in Hnames. pose proof (Hnames d Hd) as Hdn.
  apply list_elem_of_fmap in Hh as (r & -> & Hr). cbn in Hk, Hdel, Hkey, Hin.
  set (hit := fun k => findTakenHostname names _ _) in Hhead.
  assert (h_kind r ∈ named_kinds) as Hkind. { unfold named in Hk. apply bool_decide_eq_true_1 in Hk. unfold named_kinds. rewrite !elem_of_cons. destruct (h_kind r); tauto. }
  destruct (hit (h_kind r)) as [s|] eqn:Hhit.
  - assert (s ∈ omap hit named_kinds) as Hs by (apply list_elem_of_omap; by exists (h_kind r)).
    pose proof (head_filter_None _ _ Hhead s Hs) as Hempty. cbv beta in Hempty. apply bool_decide_eq_false_1 in Hempty. apply Hempty. intros ->.
    unfold hit, findTakenHostname in Hhit. apply bfind_Some in Hhit as [Hin' _]. pose proof (Hnames "" Hin') as He. unfold host_name in He. by rewrite andb_false_r in He.
  - unfold hit, findTakenHostname in Hhit. pose proof (bfind_None _ _ Hhit d Hd) as Hno. cbv beta in Hno. rewrite existsb_false in Hno.
    assert (r ∈ bfilter (fun r0 => negb (negb (match ignore with Some (t, id) => if decide (t = h_kind r) then id else 0 | None => 0 end =? 0) &&
      (h_id r0 =? match ignore with Some (t, id) => if decide (t = h_kind r) then id else 0 | None => 0 end))) (loadHostsUsingDomains (w_hosts w) (h_kind r) names)) as Hmem.
    { apply elem_of_bfilter. split.
      - unfold loadHostsUsingDomains. apply elem_of_bfilter. split; [done|]. rewrite bool_decide_eq_true_2 by done. rewrite Hdel. cbn [andb negb]. apply existsb_true. exists d. split; [done|].
        apply list_elem_of_fmap in Hin as (m & Hdm & Hm). apply Hlike; [done|].
        assert (host_name m = true) as Hmn by (by apply (Hplain (core r) m); [apply elem_of_view_hosts|..]).
        unfold host_name in Hmn. apply andb_true_iff in Hmn as [Hmn _]. destruct (json_strings_has (h_domains r) m Hm Hmn) as (a & b & ->).
        rewrite !to_lower_app, Hdm. apply includes_mid.
      - apply negb_true_iff, andb_false_iff. destruct ignore as [[t id]|]; [|by left]. subst self. destruct (decide (t = h_kind r)) as [->|Hne]; [|by left].
        right. apply Z.eqb_neq. intros Hid. apply Hkey. by rewrite <- Hid. }
    specialize (Hno r Hmem). apply bool_decide_eq_false_1 in Hno. done.
Qed.

End Checks.

(** * Every handler is a sequence of changes *)

Section Refinement.

Context {E : Env}.
Variable a : access.
Hypothesis Hexternal : internal a = false.

Lemma step_bind {A B} v0 (m : M A) (F : A -> Prop) (f : A -> M B) Q (X : view -> Prop) :
  triple (stays v0) m (fun x v => stays v0 v /\ F x) (stays v0) -> X v0 -> (forall x, F x -> triple (stays v0) (f x) Q X) -> triple (stays v0) (bindM m f) Q X.
Proof.
  intros Hm HX Hf. apply (triple_bind _ _ (fun x v => stays v0 v /\ F x)).
  - apply (triple_conseq _ (stays v0) _ _ (fun x v => stays v0 v /\ F x) _ (stays v0)); [done|done|done|by intros v ->].
  - intros x. by apply triple_pure, Hf.
Qed.

Lemma step_quiet {A B} v0 (m : M A) (f : A -> M B) Q (X : view -> Prop) : quiet m -> X v0 -> (forall x, triple (stays v0) (f x) Q X) -> triple (stays v0) (bindM m f) Q X.
Proof. intros Hm HX Hf. apply (step_bind _ _ (fun _ => True)); [by apply quiet_stays|done|]. intros x _. apply Hf. Qed.

(** What reads on and writes nothing of the view ends where it is. *)
Lemma end_quiet {A} v0 (m : M A) (Q X : view -> Prop) : quiet m -> Q v0 -> X v0 -> triple (stays v0) m (fun _ => Q) X.
Proof. intros Hm HQ HX. apply (triple_conseq _ (stays v0) _ _ (fun _ => stays v0) _ (stays v0)); [by apply triple_quiet|done|by intros _ v ->|by intros v ->]. Qed.

(** A write of the view. *)
Lemma step_write {B} v0 f (g : view -> view) (k : unit -> M B) Q X : (forall w, view_of (f w) = g (view_of w)) ->
  triple (stays (g v0)) (k tt) Q X -> triple (stays v0) (bindM (write f) k) Q X.
Proof. intros Hg Hk w Hw. cbn. apply Hk. unfold stays. by rewrite Hg, Hw. Qed.

Lemma end_write v0 f (g : view -> view) (Q X : view -> Prop) : (forall w, view_of (f w) = g (view_of w)) -> Q (g v0) -> triple (stays v0) (write f) (fun _ => Q) X.
Proof. intros Hg HQ w Hw. cbn. by rewrite Hg, Hw. Qed.

Definition v_add_cert (c : certificate) (v : view) : view := View (v_hosts v) (v_certs v ++ [c]) (v_lists v) (v_accounts v).
Definition v_set_hosts (l : list host) (v : view) : view := View l (v_certs v) (v_lists v) (v_accounts v).

(** A new certificate of the caller. *)
Definition own_cert (an : answers) (c : certificate) : Prop := ct_owner c = user_id a /\ ct_is_deleted c = false /\ ct_id c = ca_id (an_cert an).
Definition cert_fresh (v : view) (an : answers) : Prop := ca_id (an_cert an) <> 0 /\ ca_id (an_cert an) ∉ ct_id <$> v_certs v.

Lemma change_own_cert u v an c : cert_fresh v an -> own_cert an c -> change a u v (v_add_cert c v).
Proof. intros [H1 H2] (H3 & H4 & H5). apply add_cert; [done|done|by rewrite H5|by rewrite H5]. Qed.

Lemma drop_new v c : ct_id c ∉ ct_id <$> v_certs v -> bfilter (fun x => negb (cert_id_of (ct_id c) x)) (v_certs v ++ [c]) = v_certs v.
Proof.
  intros Hn. unfold bfilter. rewrite List.filter_app. cbn. unfold cert_id_of at 2. rewrite Z.eqb_refl. cbn. rewrite app_nil_r.
  induction (v_certs v) as [|x l IH]; [done|]. rewrite fmap_cons, not_elem_of_cons in Hn. destruct Hn as [Hx Hl]. cbn. unfold cert_id_of at 1.
  destruct (Z.eqb_spec (ct_id x) (ct_id c)); [congruence|]. cbn. f_equal. by apply IH.
Qed.

Lemma create_cert_spec an v0 provider nice domains meta : cert_fresh v0 an ->
  triple (stays v0) (create_certificate a (an_cert an) provider nice domains meta)
    (fun c v => v = v_add_cert c v0 /\ own_cert an c) (fun v => v = v0 \/ exists c, own_cert an c /\ v = v_add_cert c v0).
Proof.
  intros Hfresh. unfold create_certificate. apply step_quiet; [apply quiet_allowed|by left|]. intros _. apply step_quiet; [apply quiet_credentials|by left|]. intros meta'.
  set (c := Certificate _ _ _ _ _ _ _). assert (own_cert an c) as Hc by done.
  apply (step_write _ _ (v_add_cert c)); [done|].
  apply (triple_bind _ _ (fun _ => stays (v_add_cert c v0))).
  2:{ intros _. by apply triple_ret; intros v ->. }
  destruct (bool_decide _).
  2:{ by apply triple_ret. }
  apply (triple_bind _ _ (fun _ => stays (v_add_cert c v0))).
  - apply (triple_on_error _ _ _ _ _ (stays (v_add_cert c v0))); [apply triple_quiet, quiet_request|].
    intros w Hw. cbn. left. unfold stays in Hw. unfold drop_cert. unfold view_of in *. cbn in *. destruct v0 as [vh vc vl va]. unfold v_add_cert in Hw. injection Hw as -> -> -> ->. f_equal.
    apply (drop_new (View vh vc vl va) c). apply Hfresh.
  - intros _. apply (triple_conseq _ (stays (v_add_cert c v0)) _ _ (fun _ v => stays (v_add_cert c v0) v /\ ca_info (an_cert an) = true) _ (stays (v_add_cert c v0)));
      [apply triple_check|done|by intros _ v [? _]|]. intros v ->. right. by exists c.
Qed.

(** ** Rows *)

Definition ids_ok (v : view) : Prop := NoDup (key <$> v_hosts v).

Lemma same_key v h h' : ids_ok v -> h ∈ v_hosts v -> h' ∈ v_hosts v -> key h = key h' -> h = h'.
Proof.
  unfold ids_ok. intros Hnd Hh Hh' Hk. apply list_elem_of_lookup in Hh as [i Hi], Hh' as [j Hj].
  assert (i = j) as ->; [|congruence]. eapply (NoDup_lookup _ _ _ _ Hnd); rewrite list_lookup_fmap; [by rewrite Hi|by rewrite Hj, Hk].
Qed.

Lemma names_free_perm v s (l l' : list string) : l ≡ₚ l' -> names_free v s l -> names_free v s l'.
Proof. intros Hp [Hn H]. split; [by rewrite <- Hp|]. intros h d ???? Hd. apply H; [done..|]. by rewrite Hp. Qed.

Lemma clean_flags h : flags_ok (cleanSslHstsData h).
Proof.
  unfold flags_ok, cleanSslHstsData. cbn. destruct (Z.eqb_spec (h_cert h) 0), (ssl_forced (h_ssl h)), (http2_support (h_ssl h)), (hsts_enabled (h_ssl h)), (hsts_subdomains (h_ssl h)); cbn; split_and!; naive_solver.
Qed.

Lemma own_usable an v c : own_cert an c -> may_use_cert a (v_add_cert c v) (ct_id c).
Proof.
  intros (H1 & H2 & _). right. exists c. split; [apply elem_of_app; right; left|]. unfold visible_cert. rewrite H1, H2, !Z.eqb_refl. cbn. by rewrite orb_true_r.
Qed.

Lemma usable_add v c id : may_use_cert a v id -> may_use_cert a (v_add_cert c v) id.
Proof. intros [->|(x & Hx & Hv)]; [by left|right]. exists x. split; [apply elem_of_app; by left|done]. Qed.

Notation reach u v0 := (fun v => rtc (change a u) v0 v).

(** The new row is the caller's. *)
Definition fresh_row (k : kind) (id : Z) (v : view) : Prop :=
  forall h, h ∈ v_hosts v -> is_host k id h = true -> h_owner h = user_id a /\ h_is_deleted h = false /\ h_kind h = k /\ h_id h = id.

Lemma patch_view k id (f : host -> host) w : (forall h, core (f h) = f (core h)) ->
  view_of (patch_host k id f w) = v_set_hosts (update_rows (is_host k id) f (v_hosts (view_of w))) (view_of w).
Proof. intros Hf. unfold view_of, patch_host, v_set_hosts. cbn. f_equal. by apply core_update_rows. Qed.

Lemma own_visible k id v h : fresh_row k id v -> h ∈ v_hosts v -> is_host k id h = true -> visible_host (h_kind h) a (h_id h) h = true.
Proof.
  intros H Hin Hk. destruct (H h Hin Hk) as (H1 & H2 & _). unfold visible_host. rewrite H1, H2, bool_decide_eq_true_2, !Z.eqb_refl by done. cbn. by rewrite orb_true_r.
Qed.

Lemma link_new_spec an k id p u v0 v1 : cert_fresh v1 an -> fresh_row k id v1 -> rtc (change a u) v0 v1 ->
  triple (stays v1) (when (is_new p) (link_new k a an id p)) (fun _ => reach u v0) (reach u v0).
Proof.
  intros Hfresh Hrow Hr. unfold when. destruct (is_new p); [|apply end_quiet; [apply quiet_ret|done|done]]. unfold link_new, createQuickCertificate.
  apply (triple_bind _ _ (fun c v => v = v_add_cert c v1 /\ own_cert an c)).
  - apply (triple_conseq _ (stays v1) _ _ _ _ _ (create_cert_spec an v1 _ _ _ _ Hfresh)); [done|done|].
    intros v [->|(c & Hc & ->)]; [done|]. eapply rtc_r; [done|]. by apply (change_own_cert _ _ an).
  - intros c. apply triple_pure. intros Hc. apply (end_write (v_add_cert c v1) _ (fun v => v_set_hosts (update_rows (is_host k id) (with_cert (ct_id c)) (v_hosts v)) v)).
    + intros w. by apply patch_view.
    + apply (rtc_r _ (v_add_cert c v1)); [eapply rtc_r; [done|by apply (change_own_cert _ _ an)]|]. apply set_host. intros old Hin Hk. unfold row_change.
      split_and!; [by apply (own_visible k id v1)|done|done|by left| |right; by apply (own_usable an)|by left].
      intros _ (H1 & H2 & H3). split_and!; [done|done|]. intros _. cbn. destruct Hc as (_ & _ & ->). apply Hfresh.
Qed.

(** ** Creation *)

(** What a row may be inserted as. *)
Definition insertable (v : view) (k : kind) (id : Z) (h : host) : Prop :=
  h_kind h = k /\ h_id h = id /\ h_owner h = user_id a /\ h_is_deleted h = false /\ (named k = true -> names_free v (k, id) (h_domains h) /\ flags_ok h) /\
  may_use_cert a v (h_cert h) /\ may_use_list a v (h_list h).

Lemma insert_spec {B} an v0 k id h p u (tail : M B) : cert_fresh v0 an -> (k, id) ∉ key <$> v_hosts v0 -> insertable v0 k id h -> quiet tail ->
  triple (stays v0) (insert_host h;;; when (is_new p) (link_new k a an id p);;; tail) (fun _ => reach u v0) (reach u v0).
Proof.
  intros Hfresh Hkey (Hk & Hid & Ho & Hd & Hn & Hc & Hl) Htail. apply (step_write _ _ (fun v => v_set_hosts (v_hosts v ++ [core (sort_domains h)]) v)).
  { intros w. unfold view_of, v_set_hosts. cbn. by rewrite fmap_app. }
  set (v1 := v_set_hosts _ v0). assert (rtc (change a u) v0 v1) as Hr.
  { apply rtc_once. apply (add_host a u v0 (core (sort_domains h))); [done|done|unfold key; cbn; by rewrite Hk, Hid| |done|done].
    intros Hk'. cbn in Hk'. rewrite Hk in Hk'. destruct (Hn Hk') as [H1 H2]. split; [|done]. unfold key. cbn. rewrite Hk, Hid.
    apply (names_free_perm _ _ (h_domains h)); [symmetry; apply sort_strings_perm|done]. }
  apply (triple_bind _ _ (fun _ => reach u v0)).
  - apply link_new_spec; [done| |done]. intros x Hx Hkx. unfold v1, v_set_hosts in Hx. cbn in Hx. apply elem_of_app in Hx as [Hx|Hx].
    + apply is_host_key in Hkx. destruct Hkey. apply list_elem_of_fmap. by exists x.
    + apply list_elem_of_singleton in Hx as ->. done.
  - intros []. apply (triple_conseq _ (reach u v0) _ _ (fun _ => reach u v0) _ (reach u v0)); [by apply triple_quiet|done..].
Qed.

Hypothesis Hlike : like_finds.

Definition payload_named (p : payload) : Prop := Forall (fun n => host_name n = true) (default [] (p_domains p)).

(** A row made of what was sent, once everything is checked. *)
Lemma new_row v k id p (f : host -> host) : (forall h, h_kind (f h) = h_kind h /\ h_id (f h) = h_id h /\ h_owner (f h) = h_owner h /\ h_is_deleted (f h) = h_is_deleted h /\
    h_domains (f h) = h_domains h /\ h_cert (f h) = h_cert h /\ h_list (f h) = h_list h) ->
  (named k = true -> names_free v (k, id) (default [] (p_domains p))) -> may_use_cert a v (default 0 (cert_of p)) ->
  (k = Proxy -> may_use_list a v (default 0 (p_list p))) -> (named k = true -> forall h, flags_ok (f h)) ->
  insertable v k id (f (assign_payload p (blank k id (user_id a)))).
Proof.
  intros Hf Hn Hc Hl Hfl. destruct (Hf (assign_payload p (blank k id (user_id a)))) as (H1 & H2 & H3 & H4 & H5 & H6 & H7).
  unfold insertable. rewrite H1, H2, H3, H4, H5, H6, H7. cbn. split_and!; try done; [intros Hk; split; [by apply Hn|by apply Hfl]|].
  destruct (decide (k = Proxy)); [by apply Hl|by left].
Qed.

Lemma clean_keeps h : h_kind (cleanSslHstsData h) = h_kind h /\ h_id (cleanSslHstsData h) = h_id h /\ h_owner (cleanSslHstsData h) = h_owner h /\
  h_is_deleted (cleanSslHstsData h) = h_is_deleted h /\ h_domains (cleanSslHstsData h) = h_domains h /\ h_cert (cleanSslHstsData h) = h_cert h /\ h_list (cleanSslHstsData h) = h_list h.
Proof. done. Qed.

Notation done_from u v0 m := (triple (stays v0) m (fun _ v => rtc (change a u) v0 v) (fun v => rtc (change a u) v0 v)).

Lemma names_step {B} v0 names ignore self (f : unit -> M B) u : names_plain v0 -> Forall (fun n => host_name n = true) (default [] names) ->
  match ignore with Some k => k = self | None => True end ->
  (names_free v0 self (default [] names) -> done_from u v0 (f tt)) -> done_from u v0 (bindM (assertHostnamesFree names ignore) f).
Proof. intros H1 H2 H3 H4. eapply step_bind; [by apply names_stays|done|]. by intros []. Qed.

Lemma cert_step {B} v0 c (f : unit -> M B) u : (may_use_cert a v0 (default 0 c) -> done_from u v0 (f tt)) -> done_from u v0 (bindM (assertCertificateAccess a c) f).
Proof. intros H. eapply step_bind; [by apply cert_stays|done|]. by intros []. Qed.

Lemma list_step {B} v0 l (f : unit -> M B) u : (may_use_list a v0 (default 0 l) -> done_from u v0 (f tt)) -> done_from u v0 (bindM (assertAccessListAccess a l) f).
Proof. intros H. eapply step_bind; [by apply list_stays|done|]. by intros []. Qed.

Lemma quiet_gate k p : quiet (gate k p).
Proof. apply quiet_from. Qed.

Ltac skip := apply step_quiet; [first [apply quiet_allowed | apply quiet_gate | apply quiet_check]|done|intros _].

Lemma create_proxy_spec an v0 id p u : cert_fresh v0 an -> (Proxy, id) ∉ key <$> v_hosts v0 -> names_plain v0 -> payload_named p -> done_from u v0 (ProxyHost.create a an id p).
Proof.
  intros Hfresh Hkey Hpl Hp. unfold ProxyHost.create. skip. skip. apply cert_step; intros Hc. apply list_step; intros Hl. apply (names_step _ _ _ (Proxy, id)); [done..|]. intros Hn.
  apply insert_spec; [done|done| |].
  - apply new_row; [intros; apply clean_keeps|done|done|done|intros; apply clean_flags].
  - apply quiet_bind; [apply quiet_refresh|]. intros row. apply quiet_sync.
Qed.

Lemma create_redirection_spec an v0 id p u : cert_fresh v0 an -> (Redirection, id) ∉ key <$> v_hosts v0 -> names_plain v0 -> payload_named p -> done_from u v0 (RedirectionHost.create a an id p).
Proof.
  intros Hfresh Hkey Hpl Hp. unfold RedirectionHost.create. skip. skip. apply cert_step; intros Hc. apply (names_step _ _ _ (Redirection, id)); [done..|]. intros Hn.
  apply insert_spec; [done|done| |apply quiet_refresh]. apply new_row; [intros; apply clean_keeps|done|done|done|intros; apply clean_flags].
Qed.

Lemma create_dead_spec an v0 id p u : cert_fresh v0 an -> (Dead, id) ∉ key <$> v_hosts v0 -> names_plain v0 -> payload_named p -> done_from u v0 (DeadHost.create a an id p).
Proof.
  intros Hfresh Hkey Hpl Hp. unfold DeadHost.create. skip. skip. apply cert_step; intros Hc. apply (names_step _ _ _ (Dead, id)); [done..|]. intros Hn.
  apply insert_spec; [done|done| |].
  - apply new_row; [intros; apply clean_keeps|done|done|done|intros; apply clean_flags].
  - pose proof quiet_get. pose proof quiet_configure. quiet.
Qed.

Lemma create_stream_spec an v0 id p u : cert_fresh v0 an -> (Stream, id) ∉ key <$> v_hosts v0 -> done_from u v0 (StreamHost.create a an id p).
Proof.
  intros Hfresh Hkey. unfold StreamHost.create. skip. skip. apply cert_step; intros Hc.
  apply insert_spec; [done|done| |apply quiet_refresh]. by apply (new_row _ _ _ _ (fun h => h)).
Qed.

(** ** Updates *)

(** The payload and the tables behind the choice of a certificate. *)
Definition cert_chosen (an : answers) (v0 : view) (row : host) (p : payload) (p' : payload) (v : view) : Prop :=
  (v = v0 /\ p' = p /\ is_new p = false /\ (forall c, cert_of p = Some c -> c = h_cert row \/ may_use_cert a v0 c)) \/
  (exists c, own_cert an c /\ v = v_add_cert c v0 /\ p' = set_cert (Some (CertId (ct_id c))) p /\ is_new p = true).

Lemma update_cert_spec an v0 k row domains p u : cert_fresh v0 an ->
  triple (stays v0) (update_cert k a an row domains p) (cert_chosen an v0 row p) (reach u v0).
Proof.
  intros Hfresh. unfold update_cert. destruct (is_new p) eqn:Hnew.
  - unfold createQuickCertificate. apply (triple_bind _ _ (fun c v => v = v_add_cert c v0 /\ own_cert an c)).
    + apply (triple_conseq _ (stays v0) _ _ _ _ _ (create_cert_spec an v0 _ _ _ _ Hfresh)); [done|done|].
      intros v [->|(c & Hc & ->)]; [done|]. apply rtc_once. by apply (change_own_cert _ _ an).
    + intros c. apply triple_ret. intros v [-> Hc]. right. by exists c.
  - destruct (cert_of p) as [c|] eqn:Hcert.
    + apply (triple_bind _ _ (fun _ v => stays v0 v /\ (c = h_cert row \/ may_use_cert a v0 c))).
      * destruct (Z.eqb_spec c (h_cert row)) as [->|Hne]; [apply triple_ret; intros v Hv; split; [done|by left]|].
        apply (triple_conseq _ (stays v0) _ _ _ _ _ (cert_stays v0 a (Some c) Hexternal)); [done|intros _ v [? ?]; split; [done|by right]|by intros v ->].
      * intros _. apply triple_ret. intros v [-> Hc]. left. split_and!; [done|done|done|]. intros c' Hc'. rewrite Hcert in Hc'. by injection Hc' as <-.
    + apply (triple_bind _ _ (fun _ => stays v0)); [by apply triple_ret|]. intros _. apply triple_ret. intros v ->. left. split_and!; [done|done|done|]. intros c' Hc'. by rewrite Hcert in Hc'.
Qed.

(** What a whole row written over the old one leaves. *)
Definition replaced (h old : host) : host :=
  Host (h_kind old) (h_id old) (h_owner h) (h_is_deleted old) (h_enabled h) (h_domains h) (h_cert h) (h_list h) (h_ssl h) (h_meta h) (h_rest h).

Lemma chosen_fresh an v0 row p p' v u : cert_fresh v0 an -> cert_chosen an v0 row p p' v ->
  rtc (change a u) v0 v /\ v_hosts v = v_hosts v0 /\ v_lists v = v_lists v0 /\ p_domains p' = p_domains p /\ p_list p' = p_list p /\
  (default (h_cert row) (cert_of p') = h_cert row \/ may_use_cert a v (default (h_cert row) (cert_of p'))).
Proof.
  intros Hfresh [(-> & -> & _ & Hc)|(c & Hc & -> & -> & _)].
  - split_and!; try done. destruct (cert_of p) as [c|]; [by apply Hc|by left].
  - split_and!; try done; [apply rtc_once; by apply (change_own_cert _ _ an)|]. right. by apply (own_usable an).
Qed.

Lemma write_row_spec {B} an v0 v k id row p p' u (tail : M B) : cert_fresh v0 an -> ids_ok v0 -> named k = true ->
  core row ∈ v_hosts v0 -> visible_host k a id row = true -> cert_chosen an v0 row p p' v ->
  names_free v0 (k, id) (default [] (p_domains p)) -> (k = Proxy -> forall l, p_list p = Some l -> l = h_list row \/ may_use_list a v0 l \/ u = true) ->
  quiet tail -> triple (stays v) (write_row k row p';;; tail) (fun _ => reach u v0) (reach u v0).
Proof.
  intros Hfresh Hids Hk Hrow Hvis Hchosen Hnames Hlist Htail.
  destruct (chosen_fresh an v0 row p p' v u Hfresh Hchosen) as (Hr & Hh & Hls & Hd & Hl & Hc).
  assert (h_kind row = k /\ h_id row = id) as [Hrk Hrid].
  { unfold visible_host in Hvis. rewrite !andb_true_iff in Hvis. destruct Hvis as [[[H1 _] H2] _]. by apply bool_decide_eq_true_1 in H1; apply Z.eqb_eq in H2. }
  unfold write_row, replace_host. set (new := core (sort_domains (cleanSslHstsData (assign_payload p' row)))).
  apply (step_write _ _ (fun v => v_set_hosts (update_rows (is_host k (h_id row)) (replaced new) (v_hosts v)) v)).
  { intros w. unfold view_of, patch_host, v_set_hosts. cbn. f_equal. by apply core_update_rows. }
  apply end_quiet; [done|..]; (eapply rtc_r; [exact Hr|]); apply set_host; intros old Hin Hkey; apply is_host_key in Hkey.
  all: assert (old = core row) as -> by (rewrite Hh in Hin; apply (same_key v0); [done|done|done|rewrite Hkey; unfold key; cbn; by rewrite Hrk]).
  all: unfold row_change; split_and!; [by rewrite visible_core, <- Hrk, <- Hrid in *|done|done|..].
  all: try (intros _ _; apply (clean_flags (assign_payload p' row))).
  all: try exact Hc.
  all: try (intros _; cbn; rewrite Hd; destruct (p_domains p) as [names|] eqn:Hp; [right|left; apply sort_strings_perm]).
  all: try (cbn; rewrite Hl, Hrk; destruct (decide (k = Proxy)) as [->|]; [|by left]; destruct (p_list p) as [l|] eqn:Hpl; [|by left]; destruct (Hlist eq_refl l eq_refl) as [->|[[->|Hx]|Hx]]; [by left|by right; left; left| |by right; right]; right; left; right; by rewrite Hls).
  all: apply (names_free_perm _ _ names); [symmetry; apply sort_strings_perm|]; unfold names_free in *; rewrite Hh; unfold key in *; cbn; rewrite Hrk, Hrid; apply Hnames.
Qed.

(** A list beside a new certificate is not checked. *)
Definition list_unchecked (k : kind) (p : payload) : bool := bool_decide (k = Proxy) && is_new p && bool_decide (is_Some (p_list p)).

Lemma update_redirection_spec an v0 id p u : cert_fresh v0 an -> ids_ok v0 -> names_plain v0 -> payload_named p -> done_from u v0 (RedirectionHost.update a an id p).
Proof.
  intros Hfresh Hids Hpl Hp. unfold RedirectionHost.update. skip. skip. apply (names_step _ _ _ (Redirection, id)); [done..|]. intros Hn.
  eapply step_bind; [apply get_stays|done|]. intros row [Hin Hvis]. skip.
  apply (triple_bind _ _ (cert_chosen an v0 row p)); [by apply update_cert_spec|]. intros p'. apply triple_at. intros v Hch.
  apply (write_row_spec an v0 v Redirection id row p); try done. apply quiet_refresh.
Qed.

Lemma update_dead_spec an v0 id p u : cert_fresh v0 an -> ids_ok v0 -> names_plain v0 -> payload_named p -> done_from u v0 (DeadHost.update a an id p).
Proof.
  intros Hfresh Hids Hpl Hp. unfold DeadHost.update. skip. skip. apply (names_step _ _ _ (Dead, id)); [done..|]. intros Hn.
  eapply step_bind; [apply get_stays|done|]. intros row [Hin Hvis]. skip.
  apply (triple_bind _ _ (cert_chosen an v0 row p)); [by apply update_cert_spec|]. intros p'. apply triple_at. intros v Hch.
  apply (write_row_spec an v0 v Dead id row p); try done. apply quiet_refresh.
Qed.

Lemma update_proxy_spec an v0 id p u : cert_fresh v0 an -> ids_ok v0 -> names_plain v0 -> payload_named p -> (list_unchecked Proxy p = true -> u = true) ->
  done_from u v0 (ProxyHost.update a an id p).
Proof.
  intros Hfresh Hids Hpl Hp Hu. unfold ProxyHost.update, ProxyHost.update_read.
  set (P := fun (r : host * payload) v => exists row q, r.1 = row /\ core row ∈ v_hosts v0 /\ visible_host Proxy a id row = true /\ cert_chosen an v0 row q r.2 v /\
    names_free v0 (Proxy, id) (default [] (p_domains q)) /\ forall l, p_list q = Some l -> l = h_list row \/ may_use_list a v0 l \/ u = true).
  apply (triple_bind _ _ P).
  - skip. skip. eapply step_bind; [by apply (names_stays v0 (p_domains p) _ (Proxy, id))|done|]. intros [] Hn.
    eapply step_bind; [apply get_stays|done|]. intros row [Hin Hvis]. skip. set (q := ProxyHost.clean_meta (h_meta row) p).
    apply (triple_bind _ _ (cert_chosen an v0 row q)); [by apply update_cert_spec|]. intros p'. apply triple_at. intros v Hch.
    destruct (chosen_fresh an v0 row q p' v u Hfresh Hch) as (Hr & Hh & Hls & _).
    assert (forall l, may_use_list a v l -> may_use_list a v0 l) as Hml by (intros l; unfold may_use_list; by rewrite Hls).
    apply (triple_bind _ _ (fun _ w => w = v /\ forall l, p_list q = Some l -> l = h_list row \/ may_use_list a v0 l \/ u = true)).
    + unfold ProxyHost.check_list. destruct (p_list q) as [l|] eqn:Hl; [|apply triple_ret; by intros ? ->].
      destruct (is_new q || (l =? h_list row)) eqn:Hskip.
      * apply triple_ret. intros ? ->. split; [done|]. intros l' [= <-]. apply orb_true_iff in Hskip as [Hnew|Heq%Z.eqb_eq]; [|by left].
        right; right. apply Hu. unfold list_unchecked. change (is_new q) with (is_new p) in Hnew. change (p_list q) with (p_list p) in Hl. by rewrite Hnew, Hl.
      * apply (triple_conseq _ (stays v) _ _ _ _ _ (list_stays v a (Some l) Hexternal)); [done| |by intros ? ->].
        intros _ w' [-> Hm]. split; [done|]. intros l' [= <-]. right; left. by apply Hml.
    + intros _. apply triple_ret. intros w' [-> Hl]. exists row, q. by split_and!.
  - intros [row p']. apply triple_at. intros v (row' & q & <- & Hin & Hvis & Hch & Hn & Hl). unfold ProxyHost.update_write. cbn [fst snd].
    apply (write_row_spec an v0 v Proxy id row q); try done. pose proof quiet_get. pose proof quiet_configure. pose proof quiet_sync. quiet.
Qed.

Lemma update_stream_spec an v0 id p u : cert_fresh v0 an -> ids_ok v0 -> done_from u v0 (StreamHost.update a an id p).
Proof.
  intros Hfresh Hids. unfold StreamHost.update. skip. skip. skip.
  eapply step_bind; [apply get_stays|done|]. intros row [Hin Hvis]. skip.
  apply (triple_bind _ _ (cert_chosen an v0 row p)); [by apply update_cert_spec|]. intros p'. apply triple_at. intros v Hch.
  destruct (chosen_fresh an v0 row p p' v u Hfresh Hch) as (Hr & Hh & Hls & Hd & Hl & Hc).
  assert (h_kind row = Stream /\ h_id row = id) as [Hrk Hrid].
  { unfold visible_host in Hvis. rewrite !andb_true_iff in Hvis. destruct Hvis as [[[H1 _] H2] _]. by apply bool_decide_eq_true_1 in H1; apply Z.eqb_eq in H2. }
  set (f := assign_payload (set_domains None p')).
  apply (step_write _ _ (fun v => v_set_hosts (update_rows (is_host Stream (h_id row)) (fun h => core (f h)) (v_hosts v)) v)).
  { intros w. unfold view_of, patch_host, v_set_hosts. cbn. f_equal. by apply core_update_rows. }
  apply end_quiet; [apply quiet_refresh|..]; (eapply rtc_r; [exact Hr|]); apply set_host; intros old Ho Hkey; apply is_host_key in Hkey.
  all: assert (old = core row) as -> by (rewrite Hh in Ho; apply (same_key v0); [done|done|done|rewrite Hkey; unfold key; cbn; by rewrite Hrk]).
  all: unfold row_change; split_and!; [by rewrite visible_core, <- Hrk, <- Hrid in *|done|done|cbn; by rewrite Hrk|cbn; by rewrite Hrk|exact Hc|cbn; rewrite Hrk; by left].
Qed.

(** ** Deletion, switching, certificates *)

(** One field of a visible row. *)
Lemma patch_spec {B} v0 k id row f u (tail : M B) : ids_ok v0 -> core row ∈ v_hosts v0 -> visible_host k a id row = true -> quiet tail ->
  (forall h, core (f h) = f (core h)) -> row_change a u v0 (core row) (f (core row)) ->
  triple (stays v0) (write (patch_host k (h_id row) f);;; tail) (fun _ => reach u v0) (reach u v0).
Proof.
  intros Hids Hin Hvis Htail Hf Hch.
  assert (h_kind row = k /\ h_id row = id) as [Hrk Hrid].
  { unfold visible_host in Hvis. rewrite !andb_true_iff in Hvis. destruct Hvis as [[[H1 _] H2] _]. by apply bool_decide_eq_true_1 in H1; apply Z.eqb_eq in H2. }
  apply (step_write _ _ (fun v => v_set_hosts (update_rows (is_host k (h_id row)) f (v_hosts v)) v)); [intros w; by apply patch_view|].
  apply end_quiet; [done|..]; apply rtc_once, set_host; intros old Ho Hkey; apply is_host_key in Hkey.
  all: assert (old = core row) as -> by (apply (same_key v0); [done|done|done|rewrite Hkey; unfold key; cbn; by rewrite Hrk]); done.
Qed.

Lemma same_change v k id row (f : host -> host) u : visible_host k a id row = true ->
  (forall h, h_kind (f h) = h_kind h /\ h_id (f h) = h_id h /\ h_owner (f h) = h_owner h /\ h_domains (f h) = h_domains h /\ h_cert (f h) = h_cert h /\
             h_list (f h) = h_list h /\ h_ssl (f h) = h_ssl h) ->
  row_change a u v (core row) (f (core row)).
Proof.
  intros Hvis Hf. destruct (Hf (core row)) as (H1 & H2 & H3 & H4 & H5 & H6 & H7).
  assert (h_kind row = k /\ h_id row = id) as [Hrk Hrid].
  { unfold visible_host in Hvis. rewrite !andb_true_iff in Hvis. destruct Hvis as [[[Hx _] Hy] _]. by apply bool_decide_eq_true_1 in Hx; apply Z.eqb_eq in Hy. }
  unfold row_change, key, flags_ok. rewrite H1, H2, H3, H4, H5, H6, H7. split_and!; try done; try by left. by rewrite visible_core, <- Hrk, <- Hrid in *.
Qed.

Lemma delete_spec an v0 k id u : ids_ok v0 -> done_from u v0 (delete_host k a an id).
Proof.
  intros Hids. unfold delete_host. skip. eapply step_bind; [apply get_stays|done|]. intros row [Hin Hvis].
  apply (patch_spec v0 k id); [done|done|done| |done|by apply (same_change v0 k id)].
  pose proof quiet_delete_conf. pose proof quiet_reload. quiet.
Qed.

Lemma enable_spec an v0 k id u : ids_ok v0 -> done_from u v0 (enable_host k a an id).
Proof.
  intros Hids. unfold enable_host. skip. eapply step_bind; [apply get_stays|done|]. intros row [Hin Hvis]. skip.
  apply (patch_spec v0 k id); [done|done|done| |done|by apply (same_change v0 k id)].
  pose proof quiet_configure. quiet.
Qed.

Lemma disable_spec an v0 k id u : ids_ok v0 -> done_from u v0 (disable_host k a an id).
Proof.
  intros Hids. unfold disable_host. skip. eapply step_bind; [apply get_stays|done|]. intros row [Hin Hvis]. skip.
  apply (patch_spec v0 k id); [done|done|done| |done|by apply (same_change v0 k id)].
  pose proof quiet_delete_conf. pose proof quiet_reload. quiet.
Qed.

Lemma delete_proxy_spec an v0 id u : ids_ok v0 -> done_from u v0 (ProxyHost.delete a an id).
Proof.
  intros Hids. unfold ProxyHost.delete. apply (triple_bind _ _ (fun _ v => rtc (change a u) v0 v)); [by apply delete_spec|]. intros row.
  apply (triple_conseq _ (reach u v0) _ _ (fun _ => reach u v0) _ (reach u v0)); [|done..]. apply triple_quiet. quiet.
Qed.

Lemma visible_cert_id id c : visible_cert a id c = true -> ct_id c = id.
Proof. unfold visible_cert. rewrite !andb_true_iff. intros [[_ H] _]. by apply Z.eqb_eq in H. Qed.

Lemma get_cert_stays v0 id : triple (stays v0) (get_certificate a id) (fun c v => stays v0 v /\ (c ∈ v_certs v0 /\ visible_cert a id c = true)) (stays v0).
Proof.
  apply triple_stays; [unfold get_certificate; quiet|]. intros w c w' <-. unfold get_certificate, bindM, allowed. destruct (can a _ 0); [|done]. cbn.
  destruct (bfind _ (w_certs w)) as [c'|] eqn:Hf; [|done]. intros [= _ <-]. by apply bfind_Some in Hf.
Qed.

Definition cert_ids_ok (v : view) : Prop := NoDup (ct_id <$> v_certs v).

Lemma same_cert v c c' : cert_ids_ok v -> c ∈ v_certs v -> c' ∈ v_certs v -> ct_id c = ct_id c' -> c = c'.
Proof.
  unfold cert_ids_ok. intros Hnd Hc Hc' Hk. apply list_elem_of_lookup in Hc as [i Hi], Hc' as [j Hj].
  assert (i = j) as ->; [|congruence]. eapply (NoDup_lookup _ _ _ _ Hnd); rewrite list_lookup_fmap; [by rewrite Hi|by rewrite Hj, Hk].
Qed.

Definition v_set_certs (l : list certificate) (v : view) : view := View (v_hosts v) l (v_lists v) (v_accounts v).

(** A change of the row of a visible certificate that keeps it, or one of a certificate no host uses. *)
Lemma set_cert_change v0 u id c (f : certificate -> certificate) : cert_ids_ok v0 -> c ∈ v_certs v0 -> visible_cert a id c = true ->
  (forall c, ct_id (f c) = ct_id c /\ ct_owner (f c) = ct_owner c) ->
  (forall h c, h ∈ v_hosts v0 -> h_is_deleted h = false -> h_cert h = id -> ct_is_deleted c = false -> ct_is_deleted (f c) = false) ->
  change a u v0 (v_set_certs (update_rows (cert_id_of (ct_id c)) f (v_certs v0)) v0).
Proof.
  intros Hids Hc Hvis Hf Hused. pose proof (visible_cert_id _ _ Hvis) as Hid. apply set_cert_row.
  - intros c' Hc' Hk. assert (c' = c) as -> by (by apply (same_cert v0)). split; [by rewrite Hid|]. destruct (Hf c) as [-> ->]. done.
  - rewrite Hid. done.
Qed.

Lemma update_certificate_spec v0 id data u : cert_ids_ok v0 -> done_from u v0 (update_certificate a id data).
Proof.
  intros Hids. unfold update_certificate. skip. apply step_quiet; [|done|intros meta].
  { destruct (cp_meta data); [|done]. pose proof quiet_credentials. quiet. }
  eapply step_bind; [apply get_cert_stays|done|]. intros row [Hin Hvis]. set (f := fun c : certificate => Certificate _ _ _ _ _ _ _).
  apply (step_write _ _ (fun v => v_set_certs (update_rows (cert_id_of (ct_id row)) f (v_certs v)) v)); [done|].
  apply end_quiet; [done|..]; apply rtc_once; by apply (set_cert_change v0 u id row).
Qed.

Lemma delete_certificate_spec v0 id u : cert_ids_ok v0 -> done_from u v0 (delete_certificate a id).
Proof.
  intros Hids. unfold delete_certificate. skip. eapply step_bind; [apply get_cert_stays|done|]. intros row [Hin Hvis].
  apply (triple_bind _ _ (fun inUse v => stays v0 v /\ inUse = length (bfilter (fun h => negb (h_is_deleted h) && (h_cert h =? ct_id row)) (v_hosts v0)))).
  - intros w <-. split; [done|]. cbn. clear. induction (w_hosts w) as [|h l IH]; [done|]. cbn. destruct (_ && _); cbn; by rewrite IH.
  - intros n. apply triple_pure. intros ->. eapply step_bind; [apply check_stays|done|]. intros [] Hn. apply bool_decide_eq_true_1, length_zero_iff_nil in Hn.
    set (f := fun c : certificate => Certificate _ _ _ _ _ _ _).
    apply (end_write _ _ (fun v => v_set_certs (update_rows (cert_id_of (ct_id row)) f (v_certs v)) v)); [done|].
    apply rtc_once. apply (set_cert_change v0 u id row); [done|done|done|done|]. intros h c Hh Hd Hc _. exfalso. rewrite <- (visible_cert_id _ _ Hvis) in Hc.
    assert (h ∈ bfilter (fun h => negb (h_is_deleted h) && (h_cert h =? ct_id row)) (v_hosts v0)) as Hx by (apply elem_of_bfilter; split; [done|]; by rewrite Hd, Hc, Z.eqb_refl).
    rewrite Hn in Hx. by apply not_elem_of_nil in Hx.
Qed.

Lemma create_certificate_spec an v0 provider nice domains meta u : cert_fresh v0 an -> done_from u v0 (create_certificate a (an_cert an) provider nice domains meta).
Proof.
  intros Hfresh. apply (triple_conseq _ (stays v0) _ _ _ _ _ (create_cert_spec an v0 provider nice domains meta Hfresh)); [done|..].
  - intros c v [-> Hc]. apply rtc_once. by apply (change_own_cert _ _ an).
  - intros v [->|(c & Hc & ->)]; [done|]. apply rtc_once. by apply (change_own_cert _ _ an).
Qed.

End Refinement.

(** * Requests *)

Inductive op :=
| CreateHost (k : kind) (id : Z) (p : payload)
| UpdateHost (k : kind) (id : Z) (p : payload)
| DeleteHost (k : kind) (id : Z)
| EnableHost (k : kind) (id : Z)
| DisableHost (k : kind) (id : Z)
| CreateCertificate (provider nice_name : string) (domains : list string) (meta : jsval)
| UpdateCertificate (id : Z) (data : cert_patch)
| DeleteCertificate (id : Z).

Definition discard {A} (m : M A) : M unit := m;;; retM tt.

Section History.

Context {E : Env}.

Definition handle (a : access) (an : answers) (o : op) : M unit :=
  match o with
  | CreateHost Proxy id p => discard (ProxyHost.create a an id p)
  | CreateHost Redirection id p => discard (RedirectionHost.create a an id p)
  | CreateHost Dead id p => discard (DeadHost.create a an id p)
  | CreateHost Stream id p => discard (StreamHost.create a an id p)
  | UpdateHost Proxy id p => discard (ProxyHost.update a an id p)
  | UpdateHost Redirection id p => discard (RedirectionHost.update a an id p)
  | UpdateHost Dead id p => discard (DeadHost.update a an id p)
  | UpdateHost Stream id p => discard (StreamHost.update a an id p)
  | DeleteHost Proxy id => ProxyHost.delete a an id
  | DeleteHost k id => discard (delete_host k a an id)
  | EnableHost k id => enable_host k a an id
  | DisableHost k id => disable_host k a an id
  | CreateCertificate provider nice domains meta => discard (create_certificate a (an_cert an) provider nice domains meta)
  | UpdateCertificate id data => discard (update_certificate a id data)
  | DeleteCertificate id => delete_certificate a id
  end.

Definition unchecked_list (o : op) : bool := match o with UpdateHost k _ p => list_unchecked k p | _ => false end.

(** Names a host may have; the database gives ids that are not in use. *)
Definition op_ok (v : view) (an : answers) (o : op) : Prop :=
  cert_fresh v an /\
  match o with
  | CreateHost k id p => (k, id) ∉ key <$> v_hosts v /\ (named k = true -> payload_named p)
  | UpdateHost k _ p => named k = true -> payload_named p
  | _ => True
  end.

Definition tables_ok (v : view) : Prop := ids_ok v /\ cert_ids_ok v /\ names_plain v.

Lemma discard_spec {A} a u v0 (m : M A) : triple (stays v0) m (fun _ v => rtc (change a u) v0 v) (fun v => rtc (change a u) v0 v) ->
  triple (stays v0) (discard m) (fun _ v => rtc (change a u) v0 v) (fun v => rtc (change a u) v0 v).
Proof. intros H. eapply triple_bind; [done|]. intros x. by apply triple_ret. Qed.

(** The tables behind a request that nothing interrupts, however it ends, come from those before by
    allowed changes of its caller. *)
Lemma handle_changes a an o v0 : internal a = false -> like_finds -> tables_ok v0 -> op_ok v0 an o ->
  triple (stays v0) (handle a an o) (fun _ v => rtc (change a (unchecked_list o)) v0 v) (fun v => rtc (change a (unchecked_list o)) v0 v).
Proof.
  intros Ha Hlike (Hids & Hcids & Hpl) [Hfresh Hok]. destruct o as [k id p|k id p|k id|k id|k id|provider nice domains meta|id data|id]; cbn [handle].
  - destruct Hok as [Hkey Hn]. destruct k; apply discard_spec; [by apply create_proxy_spec; auto|by apply create_redirection_spec; auto|by apply create_dead_spec; auto|by apply create_stream_spec].
  - destruct k; apply discard_spec; [by apply update_proxy_spec; auto|by apply update_redirection_spec; auto|by apply update_dead_spec; auto|by apply update_stream_spec].
  - destruct k; [by apply delete_proxy_spec|apply discard_spec; by apply delete_spec..].
  - by apply enable_spec.
  - by apply disable_spec.
  - apply discard_spec. by apply create_certificate_spec.
  - apply discard_spec. by apply (update_certificate_spec a).
  - by apply delete_certificate_spec.
Qed.

End History.

(** * What the tables keep *)

Definition answering (h : host) : bool := named (h_kind h) && negb (h_is_deleted h).

(** The tables as they should be: every live name belongs to one host, the flags of TLS agree with the
    certificate, the certificate of a live host is a live one. *)
Record sound (v : view) : Prop := {
  sound_ids : ids_ok v;
  sound_cert_ids : cert_ids_ok v;
  sound_plain : names_plain v;
  sound_unique : forall h h' d d', h ∈ v_hosts v -> h' ∈ v_hosts v -> answering h = true -> answering h' = true -> key h <> key h' ->
    d ∈ h_domains h -> d' ∈ h_domains h' -> to_lower d <> to_lower d';
  sound_flags : forall h, h ∈ v_hosts v -> named (h_kind h) = true -> flags_ok h;
  sound_certs : forall h, h ∈ v_hosts v -> h_is_deleted h = false -> h_cert h = 0 \/ exists c, c ∈ v_certs v /\ ct_id c = h_cert h /\ ct_is_deleted c = false }.

Section Changes.

Variables (a : access) (u : bool).

Lemma visible_facts k id h : visible_host k a id h = true -> h_kind h = k /\ h_id h = id /\ h_is_deleted h = false.
Proof.
  unfold visible_host. rewrite !andb_true_iff. intros [[[H1 H2] H3] _]. apply bool_decide_eq_true_1 in H1. apply negb_true_iff in H2. by apply Z.eqb_eq in H3.
Qed.

Lemma usable_is_live v id : may_use_cert a v id -> id = 0 \/ exists c, c ∈ v_certs v /\ ct_id c = id /\ ct_is_deleted c = false.
Proof.
  intros [->|(c & Hc & Hv)]; [by left|right]. exists c. unfold visible_cert in Hv. rewrite !andb_true_iff in Hv. destruct Hv as [[H1 H2] _].
  apply negb_true_iff in H1. apply Z.eqb_eq in H2. done.
Qed.

(** The names of a changed row meet no other row's. *)
Lemma changed_names v old new h d d' : sound v -> old ∈ v_hosts v -> row_change a u v old new -> h ∈ v_hosts v -> answering old = true -> answering h = true ->
  key old <> key h -> d ∈ h_domains new -> d' ∈ h_domains h -> to_lower d <> to_lower d'.
Proof.
  intros Hs Hold (Hvis & _ & _ & Hn & _) Hh Hso Hsh Hk Hd Hd'. assert (named (h_kind old) = true) as Hnm by (by apply andb_true_iff in Hso as [? _]).
  destruct (Hn Hnm) as [Hp|[_ Hfree]].
  - rewrite Hp in Hd. by apply (sound_unique v Hs old h).
  - apply andb_true_iff in Hsh as [H1 H2]. apply negb_true_iff in H2. specialize (Hfree h d Hh H1 H2 (not_eq_sym Hk) Hd). intros He. apply Hfree. rewrite He. by apply list_elem_of_fmap_2.
Qed.

Lemma add_host_sound v h : sound v -> h_is_deleted h = false -> key h ∉ key <$> v_hosts v ->
  (named (h_kind h) = true -> names_free v (key h) (h_domains h) /\ flags_ok h) -> may_use_cert a v (h_cert h) -> sound (View (v_hosts v ++ [h]) (v_certs v) (v_lists v) (v_accounts v)).
Proof.
  intros Hs Hdel Hkey Hn Hc. assert (forall x, x ∈ v_hosts v ++ [h] <-> x ∈ v_hosts v \/ x = h) as Hin by (intros x; by rewrite elem_of_app, list_elem_of_singleton).
  assert (forall x d d', x ∈ v_hosts v -> answering x = true -> answering h = true -> key x <> key h -> d ∈ h_domains h -> d' ∈ h_domains x -> to_lower d <> to_lower d') as Hnew.
  { intros x d d' Hx [Hx1 Hx2%negb_true_iff]%andb_true_iff [Hh1 _]%andb_true_iff Hk Hd Hd' He. destruct (Hn Hh1) as [[_ Hf] _].
    apply (Hf x d Hx Hx1 Hx2 Hk Hd). rewrite He. by apply list_elem_of_fmap_2. }
  split; cbn [v_hosts v_certs].
  - unfold ids_ok. cbn. rewrite fmap_app. apply NoDup_app. split_and!; [apply Hs|intros x Hx ->%list_elem_of_singleton; done|apply NoDup_singleton].
  - apply Hs.
  - intros x d [Hx| ->]%Hin Hx1 Hx2 Hd; [by apply (sound_plain v Hs x)|]. destruct (Hn Hx2) as [[Hf _] _]. rewrite Forall_forall in Hf. by apply Hf.
  - intros x x' d d' [Hx| ->]%Hin [Hx'| ->]%Hin H1 H2 Hk Hd Hd'.
    + by apply (sound_unique v Hs x x').
    + apply not_eq_sym. by apply (Hnew x).
    + by apply (Hnew x').
    + done.
  - intros x [Hx| ->]%Hin Hk; [by apply (sound_flags v Hs)|by apply Hn].
  - intros x [Hx| ->]%Hin Hd; [by apply (sound_certs v Hs)|by apply usable_is_live].
Qed.

Lemma set_host_sound v k id f : sound v -> (forall old, old ∈ v_hosts v -> is_host k id old = true -> row_change a u v old (f old)) ->
  sound (View (update_rows (is_host k id) f (v_hosts v)) (v_certs v) (v_lists v) (v_accounts v)).
Proof.
  intros Hs Hf. assert (forall old, old ∈ v_hosts v -> is_host k id old = true -> h_kind (f old) = h_kind old /\ h_is_deleted old = false) as Hkeep.
  { intros old Ho Hp. destruct (Hf old Ho Hp) as (Hv & Hk & _). split; [by injection Hk|by apply visible_facts in Hv as (_ & _ & ?)]. }
  assert (forall old, old ∈ v_hosts v -> is_host k id old = true -> answering (f old) = true -> answering old = true) as Hserv.
  { intros old Ho Hp. destruct (Hkeep old Ho Hp) as [H1 H2]. unfold answering. rewrite H1, H2. rewrite !andb_true_iff. tauto. }
  split; cbn [v_hosts v_certs].
  - unfold ids_ok. cbn. rewrite fmap_update_rows; [apply Hs|]. intros x Hx Hp. by destruct (Hf x Hx Hp) as (_ & ? & _).
  - apply Hs.
  - intros x d (y & Hy & ->)%elem_of_update_rows. destruct (is_host k id y) eqn:Hp; [|by apply (sound_plain v Hs y)].
    intros _ Hk Hd. destruct (Hkeep y Hy Hp) as [H1 H2]. rewrite H1 in Hk. destruct (Hf y Hy Hp) as (_ & _ & _ & Hn & _). destruct (Hn Hk) as [Hperm|[Hall _]].
    + rewrite Hperm in Hd. by apply (sound_plain v Hs y).
    + rewrite Forall_forall in Hall. by apply Hall.
  - intros x x' d d' (y & Hy & ->)%elem_of_update_rows (y' & Hy' & ->)%elem_of_update_rows.
    destruct (is_host k id y) eqn:Hp, (is_host k id y') eqn:Hp'; intros H1 H2 Hk Hd Hd'.
    + destruct (Hf y Hy Hp) as (_ & K1 & _), (Hf y' Hy' Hp') as (_ & K2 & _). rewrite K1, K2 in Hk. apply is_host_key in Hp, Hp'. congruence.
    + destruct (Hf y Hy Hp) as (_ & K1 & _). rewrite K1 in Hk. apply (changed_names v y (f y) y'); auto.
    + destruct (Hf y' Hy' Hp') as (_ & K1 & _). rewrite K1 in Hk. apply not_eq_sym. apply (changed_names v y' (f y') y); auto.
    + by apply (sound_unique v Hs y y').
  - intros x (y & Hy & ->)%elem_of_update_rows. destruct (is_host k id y) eqn:Hp; [|by apply (sound_flags v Hs)].
    destruct (Hkeep y Hy Hp) as [H1 H2]. rewrite H1. intros Hk. destruct (Hf y Hy Hp) as (_ & _ & _ & _ & Hfl & _). by apply Hfl, (sound_flags v Hs).
  - intros x (y & Hy & ->)%elem_of_update_rows. destruct (is_host k id y) eqn:Hp; [|by apply (sound_certs v Hs)].
    intros _. destruct (Hf y Hy Hp) as (_ & _ & _ & _ & _ & [-> | Hc] & _); [|by apply usable_is_live]. apply (sound_certs v Hs); [done|by apply (Hkeep y)].
Qed.

Lemma add_cert_sound v c : sound v -> ct_id c ∉ ct_id <$> v_certs v -> sound (View (v_hosts v) (v_certs v ++ [c]) (v_lists v) (v_accounts v)).
Proof.
  intros Hs Hc. split; cbn [v_hosts v_certs]; try apply Hs.
  - unfold cert_ids_ok. cbn. rewrite fmap_app. apply NoDup_app. split_and!; [apply Hs|intros x Hx ->%list_elem_of_singleton; done|apply NoDup_singleton].
  - intros h Hh Hd. destruct (sound_certs v Hs h Hh Hd) as [|(c' & ? & ?)]; [by left|right]. exists c'. split; [apply elem_of_app; by left|done].
Qed.

Lemma set_cert_sound v id f : sound v -> (forall c, c ∈ v_certs v -> ct_id c = id -> visible_cert a id c = true /\ ct_id (f c) = id /\ ct_owner (f c) = ct_owner c) ->
  (forall h c, h ∈ v_hosts v -> h_is_deleted h = false -> h_cert h = id -> ct_is_deleted c = false -> ct_is_deleted (f c) = false) ->
  sound (View (v_hosts v) (update_rows (cert_id_of id) f (v_certs v)) (v_lists v) (v_accounts v)).
Proof.
  intros Hs Hf Hused. split; cbn [v_hosts v_certs]; try apply Hs.
  - unfold cert_ids_ok. cbn. rewrite fmap_update_rows; [apply Hs|]. intros c Hc Hp%Z.eqb_eq. destruct (Hf c Hc Hp) as (_ & -> & _). done.
  - intros h Hh Hd. destruct (sound_certs v Hs h Hh Hd) as [|(c & Hc & Hid & Hl)]; [by left|right].
    exists (if cert_id_of id c then f c else c). split; [apply elem_of_update_rows; by exists c|]. destruct (cert_id_of id c) eqn:Hp; [|done].
    apply Z.eqb_eq in Hp. destruct (Hf c Hc Hp) as (_ & -> & _). split; [congruence|]. apply (Hused h); [done|done|congruence|done].
Qed.

Lemma change_sound v v' : change a u v v' -> sound v -> sound v'.
Proof. intros Hc Hs. destruct Hc; [by apply add_host_sound|by apply set_host_sound|by apply add_cert_sound|by apply set_cert_sound]. Qed.

Lemma changes_sound v v' : rtc (change a u) v v' -> sound v -> sound v'.
Proof. induction 1 as [|v1 v2 v3 Hc _ IH]; [done|]. intros Hs. by apply IH, (change_sound v1). Qed.

End Changes.

Lemma sound_tables v : sound v -> tables_ok v.
Proof. intros Hs. split_and!; apply Hs. Qed.

(** * Whose rows a request touches *)

Definition own_cert_row (a : access) (c : certificate) : bool := sees_all a || (ct_owner c =? user_id a).
Definition own_list (a : access) (l : access_list) : bool := sees_all a || (al_owner l =? user_id a).

(** The reference was there before, in the row of the same host. *)
Definition as_before (field : host -> Z) (v : view) (h : host) : Prop := exists old, old ∈ v_hosts v /\ key old = key h /\ field old = field h.

(** The rows of others are what they were; no row changes its owner, a new one is the caller's;
    certificates and access lists that come in are his. *)
Record kept (a : access) (unchecked : bool) (v v' : view) : Prop := {
  kept_hosts : forall h, own_host a h = false -> h ∈ v_hosts v <-> h ∈ v_hosts v';
  kept_certs : forall c, own_cert_row a c = false -> c ∈ v_certs v <-> c ∈ v_certs v';
  kept_owner : forall h, h ∈ v_hosts v' -> (exists old, old ∈ v_hosts v /\ key old = key h /\ h_owner old = h_owner h) \/ h_owner h = user_id a;
  kept_rows : forall h, h ∈ v_hosts v -> key h ∈ key <$> v_hosts v';
  kept_cert_owner : forall c, c ∈ v_certs v -> exists c', c' ∈ v_certs v' /\ ct_id c' = ct_id c /\ ct_owner c' = ct_owner c;
  kept_cert : forall h, h ∈ v_hosts v' -> as_before h_cert v h \/ h_cert h = 0 \/ exists c, c ∈ v_certs v' /\ ct_id c = h_cert h /\ own_cert_row a c = true;
  kept_list : forall h, h ∈ v_hosts v' ->
    as_before h_list v h \/ h_list h = 0 \/ (exists l, l ∈ v_lists v' /\ al_id l = h_list h /\ al_is_deleted l = false /\ own_list a l = true) \/ unchecked = true;
  kept_others : v_lists v' = v_lists v /\ v_accounts v' = v_accounts v }.

Section Ownership.

Variables (a : access) (u : bool).

Lemma kept_refl v : kept a u v v.
Proof.
  split; try done.
  - intros h Hh. left. by exists h.
  - intros h Hh. by apply list_elem_of_fmap_2.
  - intros c Hc. by exists c.
  - intros h Hh. left. by exists h.
  - intros h Hh. left. by exists h.
Qed.


Lemma kept_trans v1 v2 v3 : kept a u v1 v2 -> kept a u v2 v3 -> kept a u v1 v3.
Proof.
  intros H K. split.
  - intros h Hh. by rewrite (kept_hosts _ _ _ _ H), (kept_hosts _ _ _ _ K).
  - intros c Hc. by rewrite (kept_certs _ _ _ _ H), (kept_certs _ _ _ _ K).
  - intros h Hh. destruct (kept_owner _ _ _ _ K h Hh) as [(m & Hm & Hk & Ho)|]; [|by right].
    destruct (kept_owner _ _ _ _ H m Hm) as [(o & Ho1 & Hk1 & Ho2)|]; [left; exists o; split_and!; [done|congruence..]|right; congruence].
  - intros h Hh. apply (kept_rows _ _ _ _ H), list_elem_of_fmap in Hh as (m & -> & Hm). by apply (kept_rows _ _ _ _ K).
  - intros c Hc. destruct (kept_cert_owner _ _ _ _ H c Hc) as (m & Hm & <- & <-). by apply (kept_cert_owner _ _ _ _ K).
  - intros h Hh. destruct (kept_cert _ _ _ _ K h Hh) as [(m & Hm & Hk & Hf)|[|]]; [|by right; left|by right; right].
    destruct (kept_cert _ _ _ _ H m Hm) as [(o & Ho & Hk1 & Hf1)|[|(c & Hc & Hid & Hown)]].
    + left. exists o. split_and!; [done|congruence..].
    + right; left. congruence.
    + right; right. destruct (kept_cert_owner _ _ _ _ K c Hc) as (c' & Hc' & Hid' & Ho'). exists c'. unfold own_cert_row in *. rewrite Ho'. split_and!; [done|congruence|done].
  - intros h Hh. destruct (kept_list _ _ _ _ K h Hh) as [(m & Hm & Hk & Hf)|[|[|]]]; [|by right; left|by right; right; left|by right; right; right].
    destruct (kept_list _ _ _ _ H m Hm) as [(o & Ho & Hk1 & Hf1)|[|[(l & Hl & Hid & Hrest)|]]]; [left; exists o; split_and!; [done|congruence..]|right; left; congruence| |by right; right; right].
    right; right; left. exists l. destruct (kept_others _ _ _ _ K) as [-> _]. split_and!; [done|congruence|apply Hrest|apply Hrest].
  - destruct (kept_others _ _ _ _ K) as [-> ->]. apply H.
Qed.

Lemma usable_is_own v id : may_use_cert a v id -> id = 0 \/ exists c, c ∈ v_certs v /\ ct_id c = id /\ own_cert_row a c = true.
Proof.
  intros [->|(c & Hc & Hv)]; [by left|right]. exists c. unfold visible_cert in Hv. rewrite !andb_true_iff in Hv. destruct Hv as [[_ H2] H3]. by apply Z.eqb_eq in H2.
Qed.

Lemma list_is_own v id : may_use_list a v id -> id = 0 \/ exists l, l ∈ v_lists v /\ al_id l = id /\ al_is_deleted l = false /\ own_list a l = true.
Proof.
  intros [->|(l & Hl & Hv)]; [by left|right]. exists l. unfold visible_list in Hv. rewrite !andb_true_iff in Hv. destruct Hv as [[H1 H2] H3].
  apply Z.eqb_eq in H2. by apply negb_true_iff in H1.
Qed.

(** A table in which only rows of [own] change, and stay in it. *)
Lemma foreign_rows {A} (own p : A -> bool) f (l : list A) x : (forall y, y ∈ l -> p y = true -> own y = true /\ own (f y) = true) -> own x = false ->
  x ∈ l <-> x ∈ update_rows p f l.
Proof.
  intros H Hx. rewrite elem_of_update_rows. split.
  - intros Hin. exists x. split; [done|]. destruct (p x) eqn:Hp; [|done]. destruct (H x Hin Hp). congruence.
  - intros (y & Hy & ->). destruct (p y) eqn:Hp; [|done]. destruct (H y Hy Hp). congruence.
Qed.

Lemma change_kept v v' : change a u v v' -> kept a u v v'.
Proof.
  intros [h Ho Hd Hk _ Hc Hl|k id f Hf|c Ho Hd Hz Hn|id f Hf _]; split; cbn [v_hosts v_certs v_lists v_accounts]; try apply kept_refl.
  - intros x Hx. rewrite elem_of_app, list_elem_of_singleton. split; [by left|]. intros [| ->]; [done|]. unfold own_host in Hx. rewrite Ho, Z.eqb_refl, orb_true_r in Hx. done.
  - intros x [Hx| ->%list_elem_of_singleton]%elem_of_app; [left; by exists x|by right].
  - intros x Hx. rewrite fmap_app. apply elem_of_app. left. by apply list_elem_of_fmap_2.
  - intros x [Hx| ->%list_elem_of_singleton]%elem_of_app; [left; by exists x|right]. by apply usable_is_own.
  - intros x [Hx| ->%list_elem_of_singleton]%elem_of_app; [left; by exists x|right]. destruct (list_is_own _ _ Hl); auto.
  - intros x Hx. apply (foreign_rows (own_host a)); [|done]. intros y Hy Hp. destruct (Hf y Hy Hp) as (Hv & _ & Ho & _).
    unfold own_host. rewrite Ho. unfold visible_host in Hv. rewrite !andb_true_iff in Hv. by destruct Hv as [_ ->].
  - intros x (y & Hy & ->)%elem_of_update_rows. left. exists y. destruct (is_host k id y) eqn:Hp; [|done]. by destruct (Hf y Hy Hp) as (_ & -> & -> & _).
  - intros x Hx. rewrite fmap_update_rows; [by apply list_elem_of_fmap_2|]. intros y Hy Hp. by destruct (Hf y Hy Hp) as (_ & ? & _).
  - intros x (y & Hy & ->)%elem_of_update_rows. destruct (is_host k id y) eqn:Hp; [|left; by exists y].
    destruct (Hf y Hy Hp) as (_ & Hkey & _ & _ & _ & [Hc|Hc] & _); [left; by exists y|right; by apply usable_is_own].
  - intros x (y & Hy & ->)%elem_of_update_rows. destruct (is_host k id y) eqn:Hp; [|left; by exists y].
    destruct (Hf y Hy Hp) as (_ & Hkey & _ & _ & _ & _ & [Hl|[Hl|Hl]]); [left; by exists y|destruct (list_is_own _ _ Hl); auto|auto].
  - intros x Hx. rewrite elem_of_app, list_elem_of_singleton. split; [by left|]. intros [| ->]; [done|]. unfold own_cert_row in Hx. rewrite Ho, Z.eqb_refl, orb_true_r in Hx. done.
  - intros x Hx. exists x. split; [apply elem_of_app; by left|done].
  - intros x Hx. left. by exists x.
  - intros x Hx. apply (foreign_rows (own_cert_row a)); [|done]. intros y Hy Hp%Z.eqb_eq. destruct (Hf y Hy Hp) as (Hv & _ & Ho).
    unfold own_cert_row. rewrite Ho. unfold visible_cert in Hv. rewrite !andb_true_iff in Hv. by destruct Hv as [_ ->].
  - intros x Hx. exists (if cert_id_of id x then f x else x). split; [apply elem_of_update_rows; by exists x|]. destruct (cert_id_of id x) eqn:Hp; [|done].
    apply Z.eqb_eq in Hp. destruct (Hf x Hx Hp) as (_ & -> & ->). done.
  - intros x Hx. left. by exists x.
Qed.

Lemma changes_kept v v' : rtc (change a u) v v' -> kept a u v v'.
Proof. induction 1 as [|v1 v2 v3 Hc _ IH]; [apply kept_refl|]. apply (kept_trans _ v2); [by apply change_kept|done]. Qed.

End Ownership.

(** * Histories *)

(** A row but for its access list and its meta. *)
Definition unlisted (h : host) : host :=
  Host (h_kind h) (h_id h) (h_owner h) (h_is_deleted h) (h_enabled h) (h_domains h) (h_cert h) 0 (h_ssl h) VUndef (h_rest h).

Section Theorems.

Context {E : Env}.

(** A request, whatever comes of it; or accounts change elsewhere, or lists, with the references to them. *)
Inductive step (w : world) : world -> Prop :=
| request a an o : internal a = false -> op_ok (view_of w) an o -> step w (handle a an o w).1
| elsewhere w' : unlisted <$> w_hosts w' = unlisted <$> w_hosts w -> w_certs w' = w_certs w -> step w w'.

Lemma handle_reaches a an o w : internal a = false -> like_finds -> tables_ok (view_of w) -> op_ok (view_of w) an o ->
  rtc (change a (unchecked_list o)) (view_of w) (view_of (handle a an o w).1).
Proof.
  intros Ha Hl Ht Ho. pose proof (handle_changes a an o (view_of w) Ha Hl Ht Ho w eq_refl) as H. by destruct (handle a an o w) as [w' [[]|e]].
Qed.

Lemma sound_elsewhere v v' : unlisted <$> v_hosts v' = unlisted <$> v_hosts v -> v_certs v' = v_certs v -> sound v -> sound v'.
Proof.
  intros H1 H2 Hs. assert (forall h', h' ∈ v_hosts v' -> exists h, h ∈ v_hosts v /\ unlisted h' = unlisted h) as Hrow.
  { intros h' Hh. apply (list_elem_of_fmap_2 unlisted) in Hh. rewrite H1 in Hh. apply list_elem_of_fmap in Hh as (h & -> & Hh). by exists h. }
  split; unfold cert_ids_ok; rewrite ?H2; try apply Hs.
  - unfold ids_ok. assert (forall l, key <$> l = key <$> (unlisted <$> l)) as Hk by (intros l; by rewrite <- list_fmap_compose). rewrite Hk, H1, <- Hk. apply Hs.
  - intros h' d (h & Hh & [= E1 E2 E3 E4 E5 E6 E7 E8 E9])%Hrow. rewrite E1, E4, E6. by apply (sound_plain v Hs).
  - intros h1' h2' d d' (h1 & Hh1 & [= E1 E2 E3 E4 E5 E6 E7 E8 E9])%Hrow (h2 & Hh2 & [= F1 F2 F3 F4 F5 F6 F7 F8 F9])%Hrow.
    unfold answering, key. rewrite E1, E2, E4, E6, F1, F2, F4, F6. by apply (sound_unique v Hs h1 h2).
  - intros h' (h & Hh & [= E1 E2 E3 E4 E5 E6 E7 E8 E9])%Hrow. unfold flags_ok. rewrite E1, E7, E8. by apply (sound_flags v Hs).
  - intros h' (h & Hh & [= E1 E2 E3 E4 E5 E6 E7 E8 E9])%Hrow. rewrite E4, E7. by apply (sound_certs v Hs).
Qed.

(** C18. Through any history of requests of any callers, failed and refused ones included, no two live
    proxy, redirection or 404 hosts answer to one name in any letter case, the TLS flags of every
    host agree with its certificate, and the certificate of every live host is a live row. Three
    conditions bound this: LIKE of the database finds a name whatever the case of its letters
    ([like_finds]: so on SQLite and MySQL, not on PostgreSQL, see [case_of_a_name_matters]); the
    names sent are printable ([op_ok]; a tab hides a name, see [tab_hides_a_name]); and one request
    ends before the next begins (see [names_checked_before_written]). *)
Theorem hostnames_stay_unique w w' : like_finds -> sound (view_of w) -> rtc step w w' -> sound (view_of w').
Proof.
  intros Hlike Hs Hr. induction Hr as [|w1 w2 w3 Hstep _ IH]; [done|]. apply IH. destruct Hstep as [a an o Ha Ho|w2 H1 H2].
  - apply (changes_sound a (unchecked_list o) (view_of w1)); [|done]. apply handle_reaches; [done|done|by apply sound_tables|done].
  - apply (sound_elsewhere (view_of w1)); [|done|done]. cbn. rewrite <- !list_fmap_compose. exact H1.
Qed.

Lemma view_keys w : key <$> v_hosts (view_of w) = key <$> w_hosts w.
Proof. cbn. rewrite <- list_fmap_compose. by apply list_fmap_ext. Qed.

(** No request writes more than nginx's verdict into the meta of another's host. *)
Lemma handle_untouched a an o w : ids_ok (view_of w) -> op_ok (view_of w) an o -> untouched a (w_hosts w) (handle a an o w).1.
Proof.
  intros Hids [_ Hok]. unfold ids_ok in Hids. rewrite view_keys in Hids. assert (safe a (w_hosts w) (handle a an o) any) as H; [|by apply H, untouched_start].
  assert (forall A (m : M A), safe a (w_hosts w) m any -> safe a (w_hosts w) (discard m) any) as Hd by (intros A m Hm; apply safe_then; [done|intros x; by apply safe_ret]).
  assert (forall k id, (k, id) ∉ key <$> w_hosts w -> ~ foreign a (w_hosts w) (k, id)) as Hnew by (intros k id Hk (h & Hh & He & _); apply Hk; rewrite <- He; by apply list_elem_of_fmap_2).
  destruct o as [k id p|k id p|k id|k id|k id|provider nice domains meta|id data|id]; cbn [handle].
  - destruct Hok as [Hk _]. rewrite view_keys in Hk. apply Hnew in Hk. destruct k; apply Hd; [by apply safe_proxy_create|by apply safe_redirection_create|by apply safe_dead_create|by apply safe_stream_create].
  - destruct k; apply Hd; [by apply safe_proxy_update|by apply safe_redirection_update|by apply safe_dead_update|by apply safe_stream_update].
  - destruct k; [by apply safe_proxy_delete|apply Hd; by apply safe_delete..].
  - by apply safe_switch_on.
  - by apply safe_switch_off.
  - apply Hd. by apply safe_create_certificate.
  - apply Hd. by apply safe_update_certificate.
  - by apply safe_delete_certificate.
Qed.

(** C17. A request, however it ends, leaves the hosts and certificates of others as they are unless
    its caller sees all: every column of their rows but the meta, and all of the meta but the two
    keys of nginx's verdict, which a certificate request notes in every host that answers to its
    names. Nobody becomes the owner of a host he did not make, and a host refers to no certificate
    and, but for one case, no access list that came in and is not the caller's. The tables are as
    [tables_ok] says, the ids the database gives are new and the names sent are printable; the
    database compares names in any case of their letters ([like_finds]; [case_of_a_name_matters]
    where it does not); and no other request runs in between. *)
Theorem hosts_belong_to_their_owners a an o w : internal a = false -> like_finds -> tables_ok (view_of w) -> op_ok (view_of w) an o ->
  let w' := (handle a an o w).1 in
  kept a (unchecked_list o) (view_of w) (view_of w') /\
  forall h h', h ∈ w_hosts w -> own_host a h = false -> h' ∈ w_hosts w' -> key h' = key h -> same_but_status (h_meta h) (h_meta h').
Proof.
  intros Ha Hl Ht Ho w'. split; [by apply changes_kept, handle_reaches|]. intros h h' Hh Hown Hh' Hk. pose proof (handle_untouched a an o w (proj1 Ht) Ho) as Hu.
  destruct (Hu h' Hh') as (_ & h0 & Hh0 & Hk0 & Hs); [by exists h|]. assert (h0 = h) as ->; [|done].
  apply (same_host (w_hosts w)); [|done|done|congruence]. rewrite <- view_keys. apply Ht.
Qed.

End Theorems.

(** ** Taking a host down *)

(** The file of a host. *)
Definition conf_path (k : kind) (id : Z) : string := conf_of (kind_type k) (VObj [("id", VInt id)]).

Section Down.

Context {E : Env}.

Lemma host_conf k w h : conf_of (kind_type k) (host_value true w h) = conf_path k (h_id h).
Proof. reflexivity. Qed.

Lemma apply_meta_empty l : apply_meta ∅ l = l.
Proof. unfold apply_meta. rewrite <- (list_fmap_id l) at 2. apply list_fmap_ext. intros i h _. by rewrite lookup_empty. Qed.

(** The file goes, the set without it passes, nginx runs it. *)
Lemma taken_down_files k b row w w' : bindM (delete_conf k row) (fun _ => reload_nginx b) w = (w', Ok tt) ->
  w_hosts w' = w_hosts w /\ w_files w' = delete (conf_path k (h_id row)) (w_files w) /\ w_loaded w' = live (w_files w') /\ nginx_t (live (w_files w')) = None.
Proof.
  unfold bindM, delete_conf, on_files, write, reload_nginx, with_nginx, reload. cbn [w_files w_loaded set_nginx n_files].
  set (fs := deleteConfig _ _ _ _). assert (fs = delete (conf_path k (h_id row)) (w_files w)) as Hfs by done. clearbody fs. subst fs.
  destruct (test nginx_t _) as [out|] eqn:Ht; [done|]. destruct b; [|done]. cbn [from retM live test]. intros [= <-]. cbn -[apply_meta live]. by rewrite apply_meta_empty.
Qed.

(** C22. A host whose deletion or switching off is answered with success was one the caller sees; its row
    says so, its file is gone, no other file changed, and nginx runs the rest, which passed its test. *)
Theorem down_is_down k a an id w w' : (exists row, delete_host k a an id w = (w', Ok row)) \/ disable_host k a an id w = (w', Ok tt) ->
  (exists h, h ∈ w_hosts w /\ visible_host k a id h = true) /\
  (forall h, h ∈ w_hosts w' -> is_host k id h = true -> h_is_deleted h = true \/ h_enabled h = false) /\
  w_files w' = delete (conf_path k id) (w_files w) /\ w_loaded w' = live (w_files w') /\ nginx_t (live (w_files w')) = None.
Proof.
  assert (forall (f : host -> host) row w1, h_id row = id -> (forall h, is_host k id (f h) = is_host k id h) ->
    bindM (delete_conf k row) (fun _ => reload_nginx (an_reload an)) (patch_host k id f w1) = (w', Ok tt) ->
    (forall h, h ∈ w_hosts w' -> is_host k id h = true -> exists old, h = f old) /\ w_files w' = delete (conf_path k id) (w_files w1) /\
    w_loaded w' = live (w_files w') /\ nginx_t (live (w_files w')) = None) as Hrest.
  { intros f row w1 <- Hf Hdown. destruct (taken_down_files _ _ _ _ _ Hdown) as (Hh & Hfs & Hl & Ht). split_and!; [|done..]. rewrite Hh.
    intros h (y & _ & ->)%elem_of_update_rows. destruct (is_host k (h_id row) y) eqn:Hp; [by exists y|congruence]. }
  intros [(row & H)|H]; unfold delete_host, disable_host, get_host in H; unfold bindM at 1 in H; unfold allowed, from in H; destruct (can a _ 0); try done; cbn in H;
    unfold bindM at 1 in H; unfold bindM at 1 in H; destruct (can a _ 0); try done; cbn in H; destruct (bfind (visible_host k a id) (w_hosts w)) as [r|] eqn:Hb; try done; cbn in H;
    apply bfind_Some in Hb as [Hin Hv]; pose proof (visible_facts _ _ _ _ Hv) as (_ & Hid & _).
  - assert (bindM (delete_conf k r) (fun _ => reload_nginx (an_reload an)) (patch_host k id with_deleted w) = (w', Ok tt)) as Hd.
    { unfold bindM in *. cbn in *. rewrite Hid in H. destruct (reload_nginx _ _) as [w2 [[]|e]]; [by injection H as -> _|done]. }
    destruct (Hrest with_deleted r w Hid (fun _ => eq_refl) Hd) as (H1 & H2). split_and!; [by exists r| |apply H2..]. intros h Hh Hp. destruct (H1 h Hh Hp) as [old ->]. by left.
  - unfold check in H. destruct (h_enabled r); [|done]. cbn in H. rewrite Hid in H.
    destruct (Hrest (with_enabled false) r w Hid (fun _ => eq_refl) H) as (H1 & H2). split_and!; [by exists r| |apply H2..]. intros h Hh Hp. destruct (H1 h Hh Hp) as [old ->]. by right.
Qed.

End Down.

(** * Examples *)

(** LIKE of SQLite: letters of ASCII in any case, [%] for any text, [_] for any one character. *)
Definition ascii_lower (c : ascii) : ascii := if is_upper c then chr (code c + 32) else c.
Definition like_char (c d : ascii) : bool := bool_decide (c = "_"%char) || bool_decide (ascii_lower c = ascii_lower d).

Fixpoint sql_like (p t : string) : bool :=
  match p with
  | "" => bool_decide (t = "")
  | String c p' =>
      if ascii_dec c "%" then
        (fix any (t : string) : bool := sql_like p' t || match t with "" => false | String _ t' => any t' end) t
      else match t with "" => false | String d t' => like_char c d && sql_like p' t' end
  end%string.

Lemma like_any p t a : sql_like p t = true -> sql_like (String "%" p) (a +:+ t) = true.
Proof.
  intros H. induction a as [|c a IH].
  - rewrite sapp_nil_l. destruct t; cbn in *; by rewrite H.
  - rewrite sapp_String. change (sql_like p (String c (a +:+ t)) || sql_like (String "%" p) (a +:+ t) = true). by rewrite IH, orb_true_r.
Qed.

Lemma lower_ascii : forall c, implb (code (lower_char c) <? 128) (bool_decide (lower_char c = ascii_lower c)) = true.
Proof. apply forall_char. vm_compute. reflexivity. Qed.

Lemma name_lower : forall c, implb (name_char c) (code (lower_char c) <? 128) = true.
Proof. apply forall_char. vm_compute. reflexivity. Qed.

Lemma same_letter c d : name_char c = true -> lower_char c = lower_char d -> like_char c d = true.
Proof.
  intros Hc He. pose proof (name_lower c) as Hn. pose proof (lower_ascii c) as H1. pose proof (lower_ascii d) as H2. rewrite Hc in Hn. cbn in Hn.
  rewrite Hn in H1. rewrite <- He, Hn in H2. cbn in H1, H2. apply bool_decide_eq_true_1 in H1, H2. apply orb_true_iff. right. apply bool_decide_eq_true_2. congruence.
Qed.

Lemma like_name name text : sall name_char name = true -> starts_with (to_lower name) (to_lower text) = true -> sql_like (name +:+ "%") text = true.
Proof.
  revert text. induction name as [|c name IH]; intros text Hn Hp.
  - rewrite sapp_nil_l, <- (sapp_nil_r text). by apply like_any.
  - cbn [sall] in Hn. apply andb_true_iff in Hn as [Hc Hn]. rewrite sapp_String. destruct text as [|d text]; [by destruct name|].
    cbn [sql_like]. destruct (ascii_dec c "%") as [->|_]; [done|].
    change (starts_with (String (lower_char c) (to_lower name)) (String (lower_char d) (to_lower text)) = true) in Hp.
    unfold starts_with in Hp. cbn [String.prefix] in Hp. destruct (ascii_dec (lower_char c) (lower_char d)) as [He|]; [|done].
    apply andb_true_iff. split; [by apply same_letter|by apply IH].
Qed.

Lemma like_part name text : sall name_char name = true -> includes (to_lower name) (to_lower text) = true -> sql_like ("%" +:+ name +:+ "%") text = true.
Proof.
  intros Hn. assert (forall t, includes (to_lower name) (to_lower t) = true -> exists a b, t = a +:+ b /\ starts_with (to_lower name) (to_lower b) = true) as Hfind.
  { intros t. induction t as [|c t IH].
    - change (to_lower "") with "". cbn [includes]. destruct (String.prefix _ _) eqn:Hp; [|done]. intros _. by exists "", "".
    - change (to_lower (String c t)) with (String (lower_char c) (to_lower t)). cbn [includes]. destruct (String.prefix _ _) eqn:Hp.
      + intros _. exists "", (String c t). split; [by rewrite sapp_nil_l|exact Hp].
      + intros (a & b & -> & Hb)%IH. exists (String c a), b. by rewrite sapp_String. }
  intros (a & b & -> & Hb)%Hfind. rewrite (sapp_String "%" ""), sapp_nil_l. by apply like_any, like_name.
Qed.

#[local] Instance hx_env : Env := {
  templates := ex_templates; parseAndRender := ex_engine; DISABLE_IPV6 := None; nginx_t := ex_nginx_t; message_of := ex_message;
  like := sql_like; cf_message := fun _ => ""; cf_state := ex_settings; cloudflare := ex_api }.

Lemma sqlite_finds : like_finds.
Proof. intros name text [Hn _]%andb_true_iff. by apply like_part. Qed.

Definition hx_user (id : Z) : user := User id "a@b.c" "" "" "" [] false false.
Definition hx_perms (id : Z) : permission_row := PermissionRow id "user" "manage" "manage" "manage" "manage" "manage" "manage".
Definition hx_accounts : accounts := Accounts [hx_user 2; hx_user 3] [] [hx_perms 2; hx_perms 3].
Definition hx_caller (id : Z) : caller := Bearer (Claims "" id None ["user"] 0 0 "").
Definition hx_access (id : Z) : access := open_access hx_accounts (hx_caller id).
Definition hx_cert (id owner : Z) : certificate := Certificate id owner false "other" "" [] VUndef.
Definition hx_list (id owner : Z) : access_list := AccessList id owner false "" false false [] [].
Definition hx_host (id owner : Z) (domains : list string) (cert : Z) : host :=
  Host Proxy id owner false true domains cert 0 (Ssl false false false false) (VObj []) [("advanced_config", VStr "gzip on;")].
Definition hx_world : world :=
  World hx_accounts [hx_host 1 2 ["a.example"] 5; hx_host 2 3 ["b.example"] 0] [hx_cert 5 2; hx_cert 6 3] [hx_list 7 3] ∅ ∅ ∅ false [].
Definition hx_answers : answers := Answers (Outcomes None None true) true (CertAnswers 9 true true true true true true (fun _ => true)) "".
Definition hx_payload (domains : option (list string)) (cert : option cert_field) (list : option Z) : payload :=
  Payload domains cert list None (Some true) None None None None [].

Lemma hx_sound : sound (view_of hx_world).
Proof.
  assert (forall h, h ∈ v_hosts (view_of hx_world) -> h = core (hx_host 1 2 ["a.example"] 5) \/ h = core (hx_host 2 3 ["b.example"] 0)) as Hh.
  { intros h Hin. cbn in Hin. rewrite !elem_of_cons in Hin. destruct Hin as [|[|[]%not_elem_of_nil]]; auto. }
  split.
  - apply (bool_decide_eq_true_1 _). vm_compute. reflexivity.
  - apply (bool_decide_eq_true_1 _). vm_compute. reflexivity.
  - intros h d [-> | ->]%Hh _ _ Hd; apply list_elem_of_singleton in Hd as ->; reflexivity.
  - intros h h' d d' [-> | ->]%Hh [-> | ->]%Hh _ _ Hk Hd Hd'; apply list_elem_of_singleton in Hd as ->; apply list_elem_of_singleton in Hd' as ->; done.
  - intros h [-> | ->]%Hh _; unfold flags_ok; cbn; naive_solver.
  - intros h [-> | ->]%Hh _; [right|by left]. exists (hx_cert 5 2). split; [left|done].
Qed.

(** User 2 gives his host a new certificate and a third name. *)
Definition hx_op : op := UpdateHost Proxy 1 (hx_payload (Some ["c.example"; "a.example"]) (Some NewCert) None).

Lemma hx_op_ok : op_ok (view_of hx_world) hx_answers hx_op.
Proof.
  split; [split; [done|]|].
  - apply (bool_decide_eq_true_1 _). vm_compute. reflexivity.
  - intros _. apply (bool_decide_eq_true_1 _). vm_compute. reflexivity.
Qed.

Example hx_updated : (fun h => (h_id h, h_domains h, h_cert h, ssl_forced (h_ssl h))) <$> w_hosts (handle (hx_access 2) hx_answers hx_op hx_world).1 =
  [(1, ["a.example"; "c.example"], 9, true); (2, ["b.example"], 0, false)].
Proof. vm_compute. reflexivity. Qed.

Lemma hostnames_stay_unique_witness : sound (view_of (handle (hx_access 2) hx_answers hx_op hx_world).1).
Proof.
  apply (hostnames_stay_unique hx_world); [apply sqlite_finds|apply hx_sound|]. apply rtc_once. apply request; [reflexivity|apply hx_op_ok].
Defined.

Lemma hosts_belong_to_their_owners_witness : let w' := (handle (hx_access 2) hx_answers hx_op hx_world).1 in
  kept (hx_access 2) false (view_of hx_world) (view_of w') /\
  forall h h', h ∈ w_hosts hx_world -> own_host (hx_access 2) h = false -> h' ∈ w_hosts w' -> key h' = key h -> same_but_status (h_meta h) (h_meta h').
Proof. apply (hosts_belong_to_their_owners (hx_access 2) hx_answers hx_op hx_world); [reflexivity|apply sqlite_finds|apply sound_tables, hx_sound|apply hx_op_ok]. Defined.

Lemma down_is_down_witness : w_files (disable_host Proxy (hx_access 2) hx_answers 1 hx_world).1 = delete (conf_path Proxy 1) (w_files hx_world).
Proof.
  apply (down_is_down Proxy (hx_access 2) hx_answers 1 hx_world (disable_host Proxy (hx_access 2) hx_answers 1 hx_world).1). right. vm_compute. reflexivity.
Defined.

(** * What the handlers do not prevent *)

(** Beside a new certificate the list of somebody else is taken without a look. *)
Lemma list_of_another_taken :
  let o p := handle (hx_access 2) hx_answers (UpdateHost Proxy 1 p) hx_world in
  (o (hx_payload None None (Some 7))).2 = Throw AccessListNotAccessible /\
  (o (hx_payload None (Some NewCert) (Some 7))).2 = Ok tt /\
  h_list <$> w_hosts (o (hx_payload None (Some NewCert) (Some 7))).1 = [7; 0].
Proof. vm_compute. split_and!; reflexivity. Qed.

(** A new host that asks for a certificate loses the flags it was sent, since it has none yet. *)
Lemma flags_lost_with_new_certificate :
  let w := (ProxyHost.create (hx_access 2) hx_answers 3 (hx_payload (Some ["c.example"]) (Some NewCert) None) hx_world).1 in
  (fun h => (h_cert h, ssl_forced (h_ssl h))) <$> bfind (fun h => h_id h =? 3) (w_hosts w) = Some (9, false).
Proof. vm_compute. reflexivity. Qed.

(** A host switched off while an update waits for its certificate is on again when that is done. *)
Lemma late_update_switches_on :
  let p := hx_payload None (Some NewCert) None in
  let '(w1, r) := ProxyHost.update_read (hx_access 2) hx_answers 1 p hx_world in
  let '(w2, off) := disable_host Proxy (hx_access 2) hx_answers 1 w1 in
  off = Ok tt /\ h_enabled <$> w_hosts w2 = [false; true] /\
  match r with
  | Ok (row, p) => h_enabled <$> w_hosts (ProxyHost.update_write (hx_access 2) hx_answers 1 row p w2).1 = [true; true]
  | Throw _ => False
  end.
Proof. vm_compute. split_and!; reflexivity. Qed.

(** Two creations of which both asked before either wrote have one name. *)
Lemma names_checked_before_written :
  let free := assertHostnamesFree (Some ["c.example"]) None in
  let new id := insert_host (hx_host id 2 ["c.example"] 0) in
  let both := (free;;; free;;; new 3;;; new 4) hx_world in
  both.2 = Ok tt /\ h_domains <$> w_hosts both.1 = [["a.example"]; ["b.example"]; ["c.example"]; ["c.example"]] /\
  (free both.1).2 = Throw (InUse "c.example") /\ ((new 3;;; free) hx_world).2 = Throw (InUse "c.example").
Proof. vm_compute. split_and!; reflexivity. Qed.

(** A name with a tab, which JSON escapes, is not found by LIKE. *)
Lemma tab_hides_a_name :
  let name := "c" +:+ String (chr 9) ".example" in
  let twice := (insert_host (hx_host 3 2 [name] 0);;; assertHostnamesFree (Some [name]) None) hx_world in
  twice.2 = Ok tt.
Proof. vm_compute. reflexivity. Qed.

(** With a LIKE that tells the case of letters, as PostgreSQL has it, so does the check. *)
Fixpoint case_like (p t : string) : bool :=
  match p with
  | "" => bool_decide (t = "")
  | String c p' =>
      if ascii_dec c "%" then
        (fix any (t : string) : bool := case_like p' t || match t with "" => false | String _ t' => any t' end) t
      else match t with "" => false | String d t' => bool_decide (c = "_"%char \/ c = d) && case_like p' t' end
  end%string.

Lemma case_of_a_name_matters :
  let env := {| templates := ex_templates; parseAndRender := ex_engine; DISABLE_IPV6 := None; nginx_t := ex_nginx_t; message_of := ex_message;
                like := case_like; cf_message := fun _ => ""; cf_state := ex_settings; cloudflare := ex_api |} in
  (@assertHostnamesFree hx_env (Some ["A.example"]) None hx_world).2 = Throw (InUse "A.example") /\
  (@assertHostnamesFree env (Some ["A.example"]) None hx_world).2 = Ok tt.
Proof. vm_compute. split; reflexivity. Qed.
