(* ===== verification/AccessLists.v ===== *)
(** Access lists: [backend/internal/access-list.js].

    A list is a row with its users and its rules, and a file of passwords for nginx, which is
    written anew with every change. *)

From S2P Require Import Prelude.
From S2P Require Import JsString.
From S2P Require Import JsVal.
From S2P Require Import IngressRules.
From S2P Require Import NginxText.
From S2P Require Import NginxConfig.
From S2P Require Import Accounts.
From S2P Require Import CloudflareDns.
From S2P Require Import HostTables.
From S2P Require Import Certificates.
From S2P Require Import Hosts.
From S2P Require Import HostHistory.

Local Open Scope Z_scope.
Local Open Scope host_scope.

(** * Requests *)

(** The fields that were sent; a user without a password is one whose password stays. *)
Record list_payload := ListPayload {
  lp_name : option string; lp_satisfy_any : option bool; lp_pass_auth : option bool; lp_items : option (list list_item);
  lp_clients : option (list list_client) }.

(** How openssl and nginx answer: the hash of the password of the n-th user, the reloads, the
    patches of the rows of hosts. *)
Record list_answers := ListAnswers { la_openssl : nat -> string -> option string; la_bulk_reload : bool; la_reload : bool; la_patch : string -> bool }.

Definition valid_username (name : string) : bool := bool_decide (name <> "") && sall (fun c => negb (is_char ":" c) && (32 <=? code c)) name.
Definition assertValidUsernames (items : list list_item) : M unit := check (forallb (fun i => valid_username (li_username i)) items) InvalidUsername.

Definition has_password (i : list_item) : bool := bool_decide (li_password i <> "").

(** Users and rules of a row that is changed: without a password a user stays as he is, the rest
    makes way for those sent with one. *)
Definition new_items (sent : option (list list_item)) (items : list list_item) : list list_item :=
  match sent with
  | None => items
  | Some sent =>
      let itemsToKeep := li_username <$> bfilter (fun i => negb (has_password i)) sent in
      bfilter (fun i => bool_decide (li_username i ∈ itemsToKeep)) items ++ bfilter has_password sent
  end.
Definition new_clients (sent : option (list list_client)) (clients : list list_client) : list list_client :=
  match sent with None => clients | Some sent => bfilter (fun c => bool_decide (lc_address c <> "")) sent end.

Definition update_list_row (p : list_payload) (l : access_list) : access_list :=
  AccessList (al_id l) (al_owner l) (al_is_deleted l) (default (al_name l) (lp_name p)) (default (al_satisfy_any l) (lp_satisfy_any p))
    (default (al_pass_auth l) (lp_pass_auth p)) (new_items (lp_items p) (al_items l)) (new_clients (lp_clients p) (al_clients l)).

Definition maskItems (l : access_list) : access_list :=
  AccessList (al_id l) (al_owner l) (al_is_deleted l) (al_name l) (al_satisfy_any l) (al_pass_auth l)
    ((fun i => ListItem (li_username i) "") <$> al_items l) (al_clients l).

Definition is_list (id : Z) (l : access_list) : bool := al_id l =? id.
Definition patch_list (id : Z) (f : access_list -> access_list) (w : world) : world := set_lists (update_rows (is_list id) f (w_lists w)) w.

Definition getFilename (id : Z) : string := "/data/access/" +:+ showZ id.

(** [internalAccessList.get] before it hides the passwords. *)
Definition get_list (a : access) (id : Z) : M access_list :=
  allowed a "access_lists:get";;;
  row <- read (fun w => bfind (visible_list a id) (w_lists w));;
  match row with Some l => retM l | None => fail (NotFound id) end.

Definition get (a : access) (id : Z) : M access_list := row <- get_list a id;; retM (maskItems row).

(** The lines of the file in the order of the rows; one that cannot be hashed ends it all. *)
Fixpoint hash_items (openssl : nat -> string -> option string) (n : nat) (items : list list_item) : option (list string) :=
  match items with
  | [] => Some []
  | i :: items =>
      if has_password i then
        match openssl n (li_password i) with
        | Some h => cons (li_username i +:+ ":" +:+ h) <$> hash_items openssl (S n) items
        | None => None
        end
      else hash_items openssl (S n) items
  end.

Definition htpasswd_text (lines : list string) : string := match lines with [] => "" | _ => join (String nl "") lines +:+ String nl "" end.

Definition build (la : list_answers) (l : access_list) : M unit :=
  match hash_items (la_openssl la) 0 (al_items l) with
  | Some lines => write (fun w => set_htpasswd (<[getFilename (al_id l) := htpasswd_text lines]> (w_htpasswd w)) w)
  | None => fail HashFailed
  end.

(** The live proxy hosts of a list. *)
Definition uses_list (id : Z) (h : host) : bool := bool_decide (h_kind h = Proxy) && (h_list h =? id).
Definition list_hosts (w : world) (id : Z) : list host := bfilter (fun h => uses_list id h && negb (h_is_deleted h)) (w_hosts w).

Section Handlers.

Context {E : Env}.

Definition regenerate (la : list_answers) (rows : list jsval) : M unit :=
  with_nginx (bulkGenerateConfigs templates parseAndRender DISABLE_IPV6 nginx_t message_of (la_patch la) (la_bulk_reload la) "proxy_host" rows);;; retM tt.

(** The files of its hosts, when there are any. *)
Definition regenerate_hosts (la : list_answers) (id : Z) : M unit :=
  rows <- read (fun w => host_value false w <$> list_hosts w id);;
  when (bool_decide (rows <> [])) (regenerate la rows).

Definition create (a : access) (la : list_answers) (id : Z) (data : list_payload) : M access_list :=
  allowed a "access_lists:create";;;
  assertValidUsernames (default [] (lp_items data));;;
  let row := AccessList id (user_id a) false (default "" (lp_name data)) (default false (lp_satisfy_any data)) (default false (lp_pass_auth data))
               (bfilter has_password (default [] (lp_items data))) (default [] (lp_clients data)) in
  write (fun w => set_lists (w_lists w ++ [row]) w);;;
  freshRow <- get_list a id;;
  build la freshRow;;;
  regenerate_hosts la id;;;
  retM (maskItems freshRow).

Definition update (a : access) (la : list_answers) (id : Z) (data : list_payload) : M access_list :=
  allowed a "access_lists:update";;;
  assertValidUsernames (default [] (lp_items data));;;
  row <- get_list a id;;
  check (al_id row =? id) IdsDoNotMatch;;;
  write (patch_list id (update_list_row data));;;
  freshRow <- get_list a id;;
  build la freshRow;;;
  regenerate_hosts la id;;;
  reload_nginx (la_reload la);;;
  retM (maskItems freshRow).

Definition delete_list_row (l : access_list) : access_list :=
  AccessList (al_id l) (al_owner l) true (al_name l) (al_satisfy_any l) (al_pass_auth l) (al_items l) (al_clients l).
Definition without_list (h : host) : host :=
  Host (h_kind h) (h_id h) (h_owner h) (h_is_deleted h) (h_enabled h) (h_domains h) (h_cert h) 0 (h_ssl h) (h_meta h) (h_rest h).

(** The hosts are switched to no list, whoever owns them; their rows are those read before. *)
Definition delete (a : access) (la : list_answers) (id : Z) : M unit :=
  allowed a "access_lists:delete";;;
  row <- get_list a id;;
  rows <- read (fun w => (fun h => vset "access_list_id" (VInt 0) (cleanRowAccessListPasswords (host_value false w h))) <$> list_hosts w id);;
  write (patch_list (al_id row) delete_list_row);;;
  write (fun w => set_hosts (update_rows (uses_list (al_id row)) without_list (w_hosts w)) w);;;
  regenerate la rows;;;
  reload_nginx (la_reload la);;;
  write (fun w => set_htpasswd (base.delete (getFilename (al_id row)) (w_htpasswd w)) w).

Definition name_le (l k : access_list) : Prop := sltb (al_name k) (al_name l) = false.
#[local] Instance name_le_dec l k : Decision (name_le l k).
Proof. unfold name_le. apply _. Defined.

Definition getAll (a : access) (search : string) : M (list access_list) :=
  allowed a "access_lists:list";;;
  read (fun w => maskItems <$> merge_sort name_le
    (bfilter (fun l => visible_list a (al_id l) l && (bool_decide (search = "") || like ("%" +:+ search +:+ "%") (al_name l))) (w_lists w))).

Definition getCount (w : world) (userId : Z) (visibility : string) : nat :=
  length (bfilter (fun l => negb (al_is_deleted l) && (bool_decide (visibility = "all") || (al_owner l =? userId))) (w_lists w)).

End Handlers.

(** * What nginx reads *)

(** A line of a password file: a name, a hash, perhaps more; a hash sign makes it a comment. *)
Definition entry_of (line : string) : option (string * string) :=
  if starts_with "#" line then None
  else match split_char ":" line with name :: hash :: _ => Some (name, hash) | _ => None end.
Definition auth_entries (text : string) : list (string * string) := omap entry_of (split_char nl text).

(** The entries of users, by what openssl answered. *)
Definition entries_for (openssl : nat -> string -> option string) : list list_item -> list (string * string) -> Prop :=
  Forall2 (fun i e => e.1 = li_username i /\ exists n, openssl n (li_password i) = Some e.2).

Definition plain_hashes (openssl : nat -> string -> option string) : Prop :=
  forall n p h, openssl n p = Some h -> no_char ":" h /\ no_char nl h.
Definition named_item (i : list_item) : bool := valid_username (li_username i).

(** The users nginx gets to know: those with a password, less those whose line is a comment. *)
Definition known_item (i : list_item) : bool := has_password i && negb (starts_with "#" (li_username i)).

Lemma username_chars name : valid_username name = true -> no_char ":" name /\ no_char nl name.
Proof.
  intros [_ H]%andb_true_iff. split; (eapply sall_impl; [|exact H]); intros c [Hc Hl]%andb_true_iff; [done|].
  apply negb_true_iff. destruct (is_char nl c) eqn:Hn; [|done]. apply bool_decide_eq_true_1 in Hn as ->. done.
Qed.

Lemma entry_of_line name h : valid_username name = true -> starts_with "#" name = false -> no_char ":" h -> entry_of (name +:+ ":" +:+ h) = Some (name, h).
Proof.
  intros Hv Hs Hh. destruct (username_chars name Hv) as [Hc _]. unfold entry_of. destruct name as [|c name]; [done|]. rewrite sapp_String.
  assert (starts_with "#" (String c (name +:+ ":" +:+ h)) = false) as ->.
  { revert Hs. unfold starts_with. cbn [String.prefix]. destruct (ascii_dec "#" c); [|done]. by destruct name, h. }
  rewrite <- sapp_String, (sapp_String ":" "" h), sapp_nil_l, split_char_app by done. by rewrite split_char_no.
Qed.

Lemma comment_line name h : starts_with "#" name = true -> entry_of (name +:+ h) = None.
Proof.
  unfold entry_of. destruct name as [|c name]; [done|]. rewrite sapp_String. unfold starts_with. cbn [String.prefix].
  destruct (ascii_dec "#" c); [|done]. by destruct (name +:+ h).
Qed.

Lemma hash_items_spec openssl items n lines : plain_hashes openssl -> Forall (fun i => named_item i = true) items -> hash_items openssl n items = Some lines ->
  Forall (no_char nl) lines /\ entries_for openssl (bfilter known_item items) (omap entry_of lines).
Proof.
  intros Hp. revert n lines. induction items as [|i items IH]; intros n lines Hn; cbn [hash_items].
  - intros [= <-]. split; constructor.
  - inversion_clear Hn as [|? ? Hv Hr]. unfold bfilter. cbn [List.filter]. fold (bfilter known_item items). unfold known_item at 1.
    destruct (has_password i); [|by apply IH]. cbn [andb].
    destruct (openssl n (li_password i)) as [h|] eqn:Ho; [|done]. destruct (hash_items openssl (S n) items) as [rest|] eqn:Hrest; [|done]. intros [= <-].
    destruct (IH (S n) rest Hr Hrest) as [H1 H2]. destruct (Hp _ _ _ Ho) as [Hc Hnl]. split.
    + constructor; [|done]. apply no_char_app; [by apply username_chars|]. by apply no_char_app.
    + cbn [omap list_omap]. destruct (starts_with "#" (li_username i)) eqn:Hs; cbn [negb].
      * by rewrite comment_line.
      * rewrite entry_of_line by done. constructor; [|done]. split; [done|by exists n].
Qed.

Lemma auth_entries_text lines : Forall (no_char nl) lines -> auth_entries (htpasswd_text lines) = omap entry_of lines.
Proof.
  intros H. unfold auth_entries, htpasswd_text. destruct lines as [|x l]; [done|]. rewrite split_join_nl by done. rewrite omap_app. cbn. by rewrite app_nil_r.
Qed.

(** * The tables behind a handler *)

Definition hosts_and_certs (w : world) : list host * list certificate := (unlisted <$> w_hosts w, w_certs w).
Definition calm {A} (m : M A) : Prop := forall w, hosts_and_certs (m w).1 = hosts_and_certs w.

Lemma calm_quiet {A} (m : M A) : quiet m -> calm m.
Proof.
  intros H w. specialize (H w). unfold view_of in H. injection H as H1 H2 _ _. unfold hosts_and_certs. rewrite H2. f_equal.
  assert (forall l, unlisted <$> l = unlisted <$> (core <$> l)) as Hu by (intros l; by rewrite <- list_fmap_compose). by rewrite Hu, H1, <- Hu.
Qed.

Lemma calm_bind {A B} (m : M A) (f : A -> M B) : calm m -> (forall x, calm (f x)) -> calm (bindM m f).
Proof. intros Hm Hf w. specialize (Hm w). unfold bindM. destruct (m w) as [w' [x|e]]; cbn in *; [by rewrite Hf|done]. Qed.

Lemma calm_when c m : calm m -> calm (when c m).
Proof. by destruct c. Qed.

Lemma calm_lists f : calm (write (fun w => set_lists (f w) w)).
Proof. done. Qed.

Section Properties.

Context {E : Env}.

Lemma quiet_get_list a id : quiet (get_list a id).
Proof. unfold get_list. quiet. Qed.
Lemma quiet_build la l : quiet (build la l).
Proof. unfold build. by destruct (hash_items _ _ _). Qed.
Lemma quiet_regenerate la rows : quiet (regenerate la rows).
Proof. unfold regenerate. quiet. Qed.
Lemma quiet_regenerate_hosts la id : quiet (regenerate_hosts la id).
Proof. unfold regenerate_hosts, when. pose proof quiet_regenerate. quiet. Qed.
Lemma calm_unlist p : calm (write (fun w => set_hosts (update_rows p without_list (w_hosts w)) w)).
Proof. intros w. unfold hosts_and_certs. cbn. f_equal. by apply fmap_update_rows. Qed.

Ltac calm := repeat first [apply calm_when | apply calm_lists | apply calm_unlist | done | solve [apply calm_quiet; quiet] | apply calm_bind; [|intros ?]].

Lemma handlers_calm a la id data : calm (create a la id data) /\ calm (update a la id data) /\ calm (delete a la id).
Proof.
  pose proof quiet_get_list. pose proof quiet_build. pose proof quiet_regenerate. pose proof quiet_regenerate_hosts. pose proof quiet_reload.
  split_and!; unfold create, update, delete, assertValidUsernames; calm.
Qed.

(** Every handler of a list is one of the steps of the history of the hosts. *)
Lemma lists_are_elsewhere a la id data w :
  step w (create a la id data w).1 /\ step w (update a la id data w).1 /\ step w (delete a la id w).1.
Proof.
  destruct (handlers_calm a la id data) as (H1 & H2 & H3).
  assert (forall A (m : M A), calm m -> step w (m w).1) as Hs; [|by split_and!; apply Hs].
  intros A m Hm. specialize (Hm w). unfold hosts_and_certs in Hm. injection Hm as H5 H6. by apply elsewhere.
Qed.

End Properties.

(** * What a handler that answers has done *)

Lemma bindM_Ok {A B} (m : M A) (f : A -> M B) w w' b : bindM m f w = (w', Ok b) <-> exists w1 a, m w = (w1, Ok a) /\ f a w1 = (w', Ok b).
Proof.
  unfold bindM. split; [destruct (m w) as [w1 [a|e]]; [by exists w1, a|done]|]. by intros (w1 & a & -> & H).
Qed.

Lemma allowed_Ok a p w w' u : allowed a p w = (w', Ok u) -> w' = w.
Proof. unfold allowed, from. destruct (can a p 0); [by intros [= <- _]|done]. Qed.

Lemma check_Ok c e w w' u : check c e w = (w', Ok u) -> w' = w /\ c = true.
Proof. destruct c; [by intros [= <- _]|done]. Qed.

Lemma get_list_Ok a id w w' l : get_list a id w = (w', Ok l) -> w' = w /\ bfind (visible_list a id) (w_lists w) = Some l.
Proof.
  unfold get_list. intros (w1 & u & ->%allowed_Ok & H)%bindM_Ok. cbn in H. destruct (bfind _ _) as [x|]; [|done]. by injection H as <- <-.
Qed.

Lemma build_Ok la l w w' u : build la l w = (w', Ok u) ->
  exists lines, hash_items (la_openssl la) 0 (al_items l) = Some lines /\ w' = set_htpasswd (<[getFilename (al_id l) := htpasswd_text lines]> (w_htpasswd w)) w.
Proof. unfold build. destruct (hash_items _ _ _) as [lines|]; [|done]. intros [= <- _]. by exists lines. Qed.

(** Lists and their files. *)
Definition lists_of (w : world) : list access_list * gmap string string := (w_lists w, w_htpasswd w).

Section Answers.

Context {E : Env}.

Lemma with_nginx_lists {A} (f : nginx -> nginx * result config_error A) w : lists_of (with_nginx f w).1 = lists_of w.
Proof. unfold with_nginx. destruct (f _) as [n [x|e]]; done. Qed.

Lemma regenerate_lists la rows w : lists_of (regenerate la rows w).1 = lists_of w.
Proof.
  unfold regenerate, bindM. match goal with |- context [with_nginx ?f w] => pose proof (with_nginx_lists f w) as H; destruct (with_nginx f w) as [w1 [x|e]] end; done.
Qed.

Lemma regenerate_hosts_lists la id w : lists_of (regenerate_hosts la id w).1 = lists_of w.
Proof. unfold regenerate_hosts, when, bindM, read. case_match; [apply regenerate_lists|done]. Qed.

Lemma bfind_rows {A} (p : A -> bool) f (l : list A) : (forall x, p (f x) = p x) -> bfind p (f <$> l) = f <$> bfind p l.
Proof. intros H. induction l as [|x l IH]; [done|]. cbn. rewrite H. destruct (p x); [done|]. exact IH. Qed.

(** The list of an id after a change, its file, and everything that is not its own. *)
Record written (la : list_answers) (id : Z) (row : access_list) (w w' : world) : Prop := {
  written_row : row ∈ w_lists w' /\ al_id row = id;
  written_others : forall l, al_id l <> id -> l ∈ w_lists w' <-> l ∈ w_lists w;
  written_file : exists text, w_htpasswd w' = <[getFilename id := text]> (w_htpasswd w) /\ entries_for (la_openssl la) (bfilter known_item (al_items row)) (auth_entries text);
  written_hosts : hosts_and_certs w' = hosts_and_certs w }.

Lemma visible_list_id a id l : visible_list a id l = true -> al_id l = id.
Proof. unfold visible_list. rewrite !andb_true_iff. intros [[_ H] _]. by apply Z.eqb_eq in H. Qed.

Lemma new_items_named sent items : Forall (fun i => named_item i = true) items -> forallb (fun i => valid_username (li_username i)) (default [] sent) = true ->
  Forall (fun i => named_item i = true) (new_items sent items).
Proof.
  intros Hi Hv. destruct sent as [sent|]; [|done]. cbn [default new_items] in *. rewrite forallb_true in Hv. rewrite Forall_forall in *.
  intros i [[Hin _]%elem_of_bfilter|[Hin _]%elem_of_bfilter]%elem_of_app; [by apply Hi|by apply Hv].
Qed.

Lemma file_written la id row w1 w2 w' w : plain_hashes (la_openssl la) -> Forall (fun i => named_item i = true) (al_items row) -> al_id row = id ->
  build la row w1 = (w2, Ok tt) -> lists_of w' = lists_of w2 -> w_htpasswd w1 = w_htpasswd w ->
  w_lists w' = w_lists w1 /\ exists text, w_htpasswd w' = <[getFilename id := text]> (w_htpasswd w) /\ entries_for (la_openssl la) (bfilter known_item (al_items row)) (auth_entries text).
Proof.
  intros Hp Hn <- (lines & Hl & ->)%build_Ok H Hw. injection H as -> ->. split; [done|]. exists (htpasswd_text lines). cbn. rewrite Hw. split; [done|].
  destruct (hash_items_spec _ _ _ _ Hp Hn Hl) as [H1 H2]. by rewrite auth_entries_text.
Qed.


(** The same of a new list, with all its users. *)
Lemma created_list_file a la id data w w' shown : plain_hashes (la_openssl la) -> id ∉ al_id <$> w_lists w -> create a la id data w = (w', Ok shown) ->
  exists row, al_owner row = user_id a /\ al_items row = bfilter has_password (default [] (lp_items data)) /\ al_clients row = default [] (lp_clients data) /\ written la id row w w'.
Proof.
  intros Hp Hnew H. pose proof H as Hcalm. unfold create in H. apply bindM_Ok in H as (? & [] & ->%allowed_Ok & H). apply bindM_Ok in H as (? & [] & [-> Hvalid]%check_Ok & H).
  set (row := AccessList _ _ _ _ _ _ _ _) in H. apply bindM_Ok in H as (w1 & [] & Hw1 & H). injection Hw1 as <-. apply bindM_Ok in H as (? & fresh & [-> Hrow]%get_list_Ok & H).
  assert (fresh = row) as ->.
  { apply bfind_Some in Hrow as [[Hin|Hin%list_elem_of_singleton]%elem_of_app Hv]; [|done]. destruct Hnew. apply list_elem_of_fmap. exists fresh. split; [|done]. symmetry. by apply (visible_list_id a). }
  apply bindM_Ok in H as (w2 & [] & Hbuild & H). apply bindM_Ok in H as (w3 & [] & Hreg & H). injection H as <- <-.
  assert (Forall (fun i => named_item i = true) (al_items row)) as Hn.
  { rewrite forallb_true in Hvalid. rewrite Forall_forall in *. intros i [Hin _]%elem_of_bfilter. by apply Hvalid. }
  assert (lists_of w3 = lists_of w2) as Hl3 by (pose proof (regenerate_hosts_lists la id w2) as H1; by rewrite Hreg in H1).
  destruct (file_written la id row _ _ _ w Hp Hn eq_refl Hbuild Hl3 eq_refl) as [Hl Hfile]. cbn in Hl. exists row. split_and!; [done..|]. split; [split; [|done]| |exact Hfile|].
  - rewrite Hl. apply elem_of_app. right. left.
  - intros l Hne. rewrite Hl, elem_of_app, list_elem_of_singleton. split; [|by left]. by intros [?| ->].
  - destruct (handlers_calm a la id data) as (Hu & _). specialize (Hu w). by rewrite Hcalm in Hu.
Qed.

(** A deletion that succeeds was of a list its caller sees. No row of the list is live any more, no
    proxy host refers to it, its file is gone, and nginx runs with what the files now are; all else
    of hosts, certificates, lists and their files stays. *)
Theorem deleted_list_is_gone a la id w w' : id <> 0 -> delete a la id w = (w', Ok tt) ->
  (exists l, l ∈ w_lists w /\ visible_list a id l = true) /\ (forall l, l ∈ w_lists w' -> al_id l = id -> al_is_deleted l = true) /\
  (forall h, h ∈ w_hosts w' -> h_kind h = Proxy -> h_list h <> id) /\
  w_htpasswd w' = base.delete (getFilename id) (w_htpasswd w) /\ w_loaded w' = live (w_files w') /\
  (forall l, al_id l <> id -> l ∈ w_lists w' <-> l ∈ w_lists w) /\
  core <$> w_hosts w' = update_rows (uses_list id) without_list (core <$> w_hosts w) /\ w_certs w' = w_certs w.
Proof.
  intros Hz H. unfold delete in H. apply bindM_Ok in H as (? & [] & ->%allowed_Ok & H). apply bindM_Ok in H as (? & l & [-> Hl]%get_list_Ok & H).
  apply bfind_Some in Hl as [Hin Hvis]. pose proof (visible_list_id _ _ _ Hvis) as <-. apply bindM_Ok in H as (? & rows & Hrows & H). injection Hrows as <- _.
  apply bindM_Ok in H as (w1 & [] & Hw1 & H). injection Hw1 as <-. apply bindM_Ok in H as (w2 & [] & Hw2 & H). injection Hw2 as <-.
  apply bindM_Ok in H as (w3 & [] & Hreg & H). apply bindM_Ok in H as (w4 & [] & Hload & H). injection H as <-.
  match type of Hreg with _ ?w = _ => pose proof (regenerate_lists la rows w) as Hl3; pose proof (quiet_regenerate la rows w) as Hv3 end. rewrite Hreg in Hl3, Hv3.
  pose proof (with_nginx_lists (reload nginx_t (la_reload la)) w3) as Hl4. pose proof (quiet_reload (la_reload la) w3) as Hv4.
  assert (w_loaded w4 = live (w_files w4)) as Hlive.
  { unfold reload_nginx, with_nginx, reload in Hload. cbn in Hload. destruct (test nginx_t (w_files w3)); [done|]. destruct (la_reload la); [|done]. by injection Hload as <-. }
  unfold reload_nginx in *. rewrite Hload in Hl4, Hv4. unfold view_of in Hv3, Hv4. cbn [fst] in *. injection Hl3 as Hl3 Hf3. injection Hl4 as Hl4 Hf4. injection Hv3 as Hh3 Hc3 _ _. injection Hv4 as Hh4 Hc4 _ _.
  assert (core <$> w_hosts w4 = update_rows (uses_list (al_id l)) without_list (core <$> w_hosts w)) as Hhosts.
  { rewrite Hh4, Hh3. cbn. by apply core_update_rows. }
  rewrite Hl3 in Hl4. cbn in Hl4. split_and!.
  - by exists l.
  - cbn. rewrite Hl4. intros x (y & Hy & ->)%elem_of_update_rows Hx. unfold is_list in *. destruct (Z.eqb_spec (al_id y) (al_id l)); done.
  - cbn. intros h Hh Hk. apply (list_elem_of_fmap_2 core) in Hh. rewrite Hhosts in Hh. apply elem_of_update_rows in Hh as (y & _ & Hy).
    change (h_list h) with (h_list (core h)). change (h_kind h) with (h_kind (core h)) in Hk. rewrite Hy in *. destruct (uses_list (al_id l) y) eqn:Hu; [cbn; congruence|].
    unfold uses_list in Hu. rewrite bool_decide_eq_true_2 in Hu by done. by apply Z.eqb_neq in Hu.
  - cbn. by rewrite Hf4, Hf3.
  - exact Hlive.
  - cbn. rewrite Hl4. intros x Hx. rewrite elem_of_update_rows. unfold is_list. split.
    + intros (y & Hy & ->). by destruct (Z.eqb_spec (al_id y) (al_id l)).
    + intros Hy. exists x. by apply Z.eqb_neq in Hx as ->.
  - exact Hhosts.
  - cbn. by rewrite Hc4, Hc3.
Qed.

End Answers.

(** * Examples *)

#[local] Existing Instance hx_env.

Definition ax_answers : list_answers := ListAnswers (fun _ _ => Some "$apr1$") true true (fun _ => true).
Definition ax_world : world :=
  set_hosts [hx_host 1 2 ["a.example"] 5; Host Proxy 2 3 false true ["b.example"] 0 7 (Ssl false false false false) (VObj []) [("advanced_config", VStr "gzip on;")]]
    (set_lists [AccessList 7 3 false "staff" false false [ListItem "ann" "1"; ListItem "bob" "2"; ListItem "eve" "3"] []; AccessList 8 2 false "" false false [] []] hx_world).
Definition ax_payload (items : list list_item) : list_payload := ListPayload (Some "staff") None None (Some items) None.
(** Ann keeps her password, Bob gets another, Eve is dropped, Carl is new. *)
Definition ax_users : list list_item := [ListItem "ann" ""; ListItem "bob" "4"; ListItem "carl" "5"].

Lemma ax_plain : plain_hashes (la_openssl ax_answers).
Proof. intros n p h [= <-]. split; reflexivity. Qed.

Example ax_updated : let w := (update (hx_access 3) ax_answers 7 (ax_payload ax_users) ax_world).1 in
  auth_entries (default "" (w_htpasswd w !! "/data/access/7")) = [("ann", "$apr1$"); ("bob", "$apr1$"); ("carl", "$apr1$")].
Proof. vm_compute. reflexivity. Qed.


Lemma deleted_list_is_gone_witness : h_list <$> w_hosts (delete (hx_access 3) ax_answers 7 ax_world).1 = [0; 0] /\
  w_loaded (delete (hx_access 3) ax_answers 7 ax_world).1 = live (w_files (delete (hx_access 3) ax_answers 7 ax_world).1).
Proof.
  split; [vm_compute; reflexivity|]. apply (deleted_list_is_gone (hx_access 3) ax_answers 7 ax_world); [done|]. vm_compute. reflexivity.
Defined.

(** A name with a hash sign in front is a valid one, but nginx reads its line as a comment. *)
Lemma hash_sign_hides_a_user : let w := (update (hx_access 3) ax_answers 7 (ax_payload [ListItem "#ann" "1"]) ax_world).1 in
  valid_username "#ann" = true /\ (fun l => li_username <$> al_items l) <$> bfilter (is_list 7) (w_lists w) = [["#ann"]] /\
  auth_entries (default "" (w_htpasswd w !! "/data/access/7")) = [].
Proof. vm_compute. split_and!; reflexivity. Qed.
